(* ===== verification/_CoqProject ===== *)
-Q . S2P
Prelude.v
CArith.v
Spinlock.v
SpinlockThms.v
Range.v
PageAlloc.v
PageBlocks.v
PageAllocInv.v
PageAllocThms.v
AvlTree.v
AvlTreeInv.v
AvlTreeThms.v
LibThms.v
AddrSpace.v
AddrSpaceInv.v
AddrFind.v
AddrSpaceThms.v
Ctype.v
Convert.v
ConvertThms.v
Buffer.v
BufferInv.v
BufferThms.v
Bitmap.v
BitmapInv.v
BitmapThms.v
Format.v
FormatInv.v
FormatConv.v
FormatThms.v
Walker.v
WalkerInv.v
WalkerThms.v
PgMap.v
PgTables.v
PgMapInv.v
PgAlloc.v
PgMapThms.v
Early.v
EarlyInv.v
EarlyFree.v
EarlyMark.v
Boot.v
BootInv.v
BootStages.v
BootMap.v
BootThms.v
EarlyThms.v
Slab.v
SlabInv.v
SlabThms.v
Vm.v
VmThms.v
Mem.v
MemThms.v
Time.v
TimeThms.v
Strftime.v
StrftimeInv.v
StrftimeThms.v
Pci.v
PciInv.v
PciBars.v
PciCaps.v
PciThms.v
Irq.v
Acpi.v
IrqThms.v
AcpiThms.v
Rtc.v
RtcThms.v
Endian.v
Ps2.v
Ps2Thms.v
TimeNames.v
EarlyRef.v
VirtioQueue.v
Virtio.v
VirtioThms.v
