(* ===== verification/Prelude.v ===== *)
(** * Verification of the operating-system kernel in src/

    This library models parts of a small kernel written in C (the x86_64 build)
    as Rocq functions and proves what they guarantee.  The theorems that are
    the result carry a number (C1, C2, ...) in their comment and are found in
    the files whose names end in [Thms]; the other files hold definitions and
    the lemmas they rest on.

    ** How C is modelled

    A function that can fail an assertion, touch memory it must not touch or
    loop returns an [outcome] (this file): [Ok], [Panic], [Undef], [OutOfFuel].
    State is passed explicitly: an operation takes the state it changes as its
    last argument and returns the new one.  Integers are [Z]; arithmetic that
    can leave its type is followed by the wrap-around ([u8] to [u64], [i8] to
    [i64]).  A loop that is not a structural recursion has fuel, and the
    theorems about it show that the fuel given is enough.  The lock itself
    is modelled with all its interleavings ([Spinlock]); in the other components
    locks and interrupts are left out: each operation runs alone, and whether a
    lock can be taken at all is an oracle where the code asks (page_alloc.c).

    ** Files and the code they model

    - [Prelude]: outcomes, machine integers, shared tactics.
    - [CArith]: lib/overflow.h, align.[ch], math.c, util.c, size.[ch],
      refcount.[ch].
    - [Spinlock]: kernel/cpu/spinlock.c as steps of any number of cpus on one
      lock; [SpinlockThms] has the invariant and the theorems.
    - [Range]: lib/adt/range.[ch].  [LibThms] has the theorems on both.
    - [PageAlloc]: kernel/mm/page_alloc.c with page.[ch], section.[ch], zone.h
      and arch/x86_64/mm/{types,zone}.[ch].  The state [mm] is the vmemmap
      ([pages]), the contents of the page frames ([frames]), the sections with
      their free lists and the zones.  [PageBlocks] has the free lists of one
      section as blocks of pages and the well-formedness of a section,
      [PageAllocInv] the invariant [mm_wf] of the whole state and the
      specification of every step, [PageAllocThms] the theorems.
    - [AvlTree]: lib/adt/avltree.[ch]; nodes live in a store and are named by
      their address.  [AvlTreeInv] relates a store to a functional tree seen
      from a position in it, [AvlTreeThms] has the theorems.
    - [AddrSpace]: lib/adt/addrspace.[ch] and lib/list.h on [AvlTree] and
      [Range].  [AddrSpaceInv] has the lists as sequences and the invariant
      [space_ok] (tree, list and ranges in the same order), [AddrFind] the
      search for a hole, [AddrSpaceThms] the theorems.
    - [Ctype]: lib/ctype.[ch].  [Convert]: lib/convert.[ch] with the string
      views it uses.  [ConvertThms] has the theorems on both.
    - [Buffer]: lib/adt/{mutable,growable}_buffer.c, array.c and string.c, each
      on the bytes of the object behind the buffer, with the heap as parameters.
      [BufferInv] has the interface [Malloc] that the heap offers and what
      appending does, [BufferThms] the theorems.
    - [Bitmap]: lib/bits.[ch] and lib/adt/bitmap.[ch] on [Buffer] and [Range].
      [BitmapInv] has the bits of a byte object and what the accesses by words
      and masks do to them, [BitmapThms] the searches and the theorems.
    - [Format]: lib/parse_printf.c and format.c on [Convert] and [Buffer], the
      callbacks being parameters.  [FormatInv] has the interface [Sink] that
      they offer and the writing of a padded conversion, [FormatConv] the
      conversion specifications as data, what the standard makes of them and
      the parsing and padding of each, [FormatThms] the loop over the format,
      the instances of [Sink] for strings and buffers and the theorems.
    - [Walker]: kernel/mm/walker.c on the state of [PageAlloc], with the
      page-table entries of arch/x86_64/mm/types.[ch], section.c and hhdm.c.
      The walker calls the page allocator through its callbacks.
      [WalkerInv] has the reference walk [pt_walk] and the relation [synced]
      between a walker and an address, [WalkerThms] the theorems.
    - [PgMap]: kernel/mm/pgmap.c, pageop.[ch], the flags of page.c and
      arch/x86_64/mm/{tlb,vma}.c on the walker.  [PgTables] has the invariant
      [pt_ok] of a tree of tables, the interface [PgtableAlloc] that a provider
      of tables offers, and what writing entries, filling in tables and moving
      the walker do to the walks of all addresses; [PgMapInv] has the loops of
      pgmap.c on it, for any provider; [PgAlloc] shows that the page allocator
      is one; [PgMapThms] has the theorems.
    - [Early]: kernel/mm/early.c up to free_all_pages, on the state of
      [PageAlloc]; [EarlyInv] has the invariant [early_ok] of the areas and the
      allocations, [EarlyFree] handing the areas to the buddy allocator,
      [EarlyMark] the marking of pages.  [Boot]: kernel/boot.c and the rest of
      early.c; [BootMap] reads the bootloader's entries, [BootInv],
      [BootStages] and [BootThms] follow mm_early_post_arch_init stage by
      stage; the theorems are in [EarlyThms].
    - [Slab]: kernel/mm/slab.[ch] and kmalloc.[ch] on the state of [PageAlloc];
      the objects live in the page frames.  [SlabInv] has the invariant
      [heap_ok] of the heap (free lists in memory, lists of slabs, counts, page
      allocator) and the specification of every step, [SlabThms] the theorems.
    - [Vm]: kernel/mm/vma.c, pagemap.c and mmio.c on [Slab], [AddrSpace] and
      [PgMap]; [VmThms] has the theorems.
    - [Mem]: kernel/stdlib.c, lib/memory.c and memset_all_ones of lib/string.c
      on a store of bytes; [MemThms] has the theorems.
    - [Time]: lib/time.[ch]; [TimeThms] has the theorems.
    - [Strftime]: lib/parse_strftime.c, strftime.c and kernel/time/kstrftime.c on
      [Time], [Convert] and [Buffer]; [StrftimeInv] has the dates and texts of
      the standard and ISO weeks, [StrftimeThms] the interface [TextSink] of the
      callbacks, the loop over the format and the theorems.
    - [Pci]: kernel/dev/pci/pci.c, device.[ch], structs.h and
      arch/x86_64/dev/pci/access.c on a machine, a heap and a mapping of device
      memory, which are parameters; the devices are in a store and named by
      their address.  [PciInv] has the interface [PciHost], the configuration
      space of the specification behind ports and mapped memory, [PciBars] the
      base address registers, [PciCaps] the chains of capabilities, [PciThms]
      the scan of a function and the theorem.
    - [Irq]: arch/x86_64/apic/{ioapic,lapic,init}.c, sys/{idt,isr,pic}.c and
      dev/pit.c on a machine and a heap as for [Pci], with the arrays of
      [Buffer]; [IrqThms] has the objects an array holds and what a redirection
      writes.
    - [Acpi]: kernel/acpi/{api,madt,fadt,mcfg}.c, which read tables in a memory of
      bytes and call [Irq] and [Pci]; [AcpiThms] has the encoding of the entries
      of a MADT, the interface [IoApicHost] and what the kernel knows afterwards.
    - [Rtc]: arch/x86_64/dev/cmos.c and dev/time/rtc.c on the two ports of a
      machine; [RtcThms] has the interface [CmosHost] of a machine that shows a
      moment in its registers, and the theorem.
    - [Endian]: lib/endian.h.
    - [Ps2]: arch/x86_64/dev/ps2/{driver,keyboard}.c on the ports of a machine;
      [Ps2Thms] has the interface [Ps2Host] of a controller with a byte waiting,
      keys as presses and releases, and the theorem.
    - [VirtioQueue]: dev/virtio/{transport,device}.[ch] and queue/split.c on the
      page allocator and [Slab]; [Virtio]: dev/virtio/init.c and drivers/*.c on it
      and [Pci].  [VirtioThms] has the interface [CommonCfgHost] of a device, what
      a queue's memory holds and the theorem.
    - [TimeNames]: lib/adt/string_view.c, the names looked up by lib/time.c, and
      kernel/time/time.c, with what is found.
    - [EarlyRef]: mm_early_refcount_alloced_map of kernel/mm/early.c on [Walker],
      with what is counted.

    ** What is shown

    - Page allocator: C1-C6 say that allocating and freeing terminate without
      failing, keep every invariant of the lists, the vmemmap entries and the
      totals, move exactly the pages they should, succeed whenever a reachable
      block exists, and undo each other.
    - AVL tree: C7 and C8 say that insertion and deletion implement a sorted
      sequence (whatever the balance).
    - Numbers: C9-C11 say that the two parsers are the same function, that
      reading computes the value and detects overflow exactly, that printing
      and reading are inverse.
    - Page-table walker: C12 and C13 say that the translation and the forward
      step of the walker agree with a reference walk of the tables.
    - Mapping: C14 says that mapping a range with small pages gives every
      address of the range the entry it should have, leaves the walks of all
      other addresses alone and keeps the tree of tables well-formed, or runs
      out of tables; C15 composes it with the translation.  The ranges C14 is
      about ([can_map]) are the ones for which the code is right; C16 and
      [pgmap_at_overruns_table_end] show what happens to some others.
    - Slabs: C17-C20 say that setting up an allocator, taking an object and
      giving it back keep the heap invariant, hand out aligned objects that do
      not overlap and leave all other memory in use alone, and that [kmalloc]
      picks the smallest class.
    - Memory and strings: C21 and C22 give the exact effect of moving and
      comparing.
    - Calendar time: C23.
    - Address spaces: C24 and C25 say what finding a hole and adding a node do
      to the tree, the list and the ranges.
    - Spinlocks: C26-C27, mutual exclusion and service in the order of arrival.
    - Formatting: C28 says that the text written for a format is the one the C
      standard describes, for every format whose conversions are [conv_ok];
      C34 says the same of dates.
    - Bitmaps: C29 is the search for one bit.
    - Memory at boot: C30 says that the buddy allocator starts well-formed with
      exactly the pages that the early allocator had left; C31 and C32 say that
      the early allocator starts with exactly the usable memory of the
      bootloader's memory map.
    - Virtual memory areas: C33 says that adding an area puts it into the first
      hole that fits, maps its range and changes nothing when it fails.
    - PCI: C35 says that scanning a function with a general header enters the
      device that the configuration space describes and leaves everything but
      the command register as it was, also the registers that were sized by
      overwriting them.
    - ACPI and interrupts: C36 says that reading the encoding of any list of
      MADT entries leaves the kernel with exactly the local APICs, I/O APICs and
      overrides they describe; C37 says which words a redirection then writes
      to which I/O APIC.
    - Real-time clock: C38 says that the moment that a clock in 24-hour mode
      shows in its registers is the one the kernel makes of them.
    - PS/2 keyboard: C39 says that the bytes of any presses and releases, each
      modifier going down only when it is up and up only when down, leave the state in which exactly the keys still down count as held,
      and report every character key with the modifiers down at its press.
    - Virtio: C40 says that setting up a queue tells the device three blocks of
      zeroed pages that were free, with all descriptors in one cycle.

    Further lemmas, most of them in the [Thms] files, record smaller defects and facts:
    [free_pages_order_0_undefined], [avltree_delete_spec],
    [create_for_pagemap_spec], [pgmap_at_overruns_table_end],
    [list_operations_spec], [claim_below_gives_pages_twice],
    [boot_init_rejects_overlap], [adjoining_sections_overrun],
    [split_keeps_the_zone],
    [free_range_hides_larger_block], [free_amount_counts_neighbour_twice],
    [avltree_ends_spec], [avlnode_successor_of_largest],
    [units_to_sv_panics_from_eib], [range_align_loses_end],
    [five_level_paging_undefined], [string_scans_spec], [memchr_loop_ok],
    [is_all_ok], [week_count_spec], [avltree_insert_loses_balance],
    [double_rotation_leaves_stale_node], [signed_print_spec],
    [align_spec], [range_predicates_spec], [pgmap_at_unmaps_neighbour],
    [walker_loses_place], [addrspace_remove_node_keeps_link],
    [addrspace_find_space_loses_subtree], [pgmap_at_rejects],
    [vformat_to_buffer_spec], [vformat_to_buffer_overruns], [bitmap_has_spec], [bitmap_has_wrong], [find_multiple_ones],
    [containers_differ], [printf_divergences],
    [low4g_maps_order_pages], [low4g_of_order_0_maps_nothing],
    [map_mmio_region_keeps_object],
    [range_index_roundtrip], [size_to_units_spec], [ctype_spec],
    [sv_to_signed_refuses_negatives], [strcmp_compares_lengths], [fill_spec], [printers_leave_buffer],
    [last_slab_page_has_no_allocator], [last_object_loses_pages],
    [timespec_spec], [gbuffer_append_data_spec], [gbuffer_remove_range_spec],
    [early_alloc_large_page_spec], [first_line_panics], [count_of_256], [edge_is_level],
    [empty_entry_loops], [time_format_to_string_buffer_spec],
    [strftime_divergences], [time_format_to_string_buffer_overruns],
    [early_alloc_page_spec], [bitmap_set_range_spec], [swap_reverses_bytes],
    [swap_twice], [cpu_to_be_keeps_order], [afternoon_lost],
    [rtc_init_writes_elsewhere], [held_shift_wraps], [right_alt_is_ctrl],
    [caps_lock_shifts_punctuation],
    [memcpy_spec], [names_are_found_by_length], [days_mixed_up],
    [add_clock_source_spec], [refcounting_again_forgets_root],
    [refcount_loop_in_table], [modern_devices_refused], [names_overrun],
    [drivers_overrun], [second_device_undefined], [no_device_initialized],
    [notify_stays_in_memory].

    ** Fuel and bounds

    The page allocator's loops get the number of pages, orders or zones they
    can visit; the AVL loops the size of the store; [digits_fuel] is 65, one
    more than the binary digits of a 64-bit number; [size_to_units] divides at
    most 6 times; the walker has at most 5 levels; a loop of pgmap.c over the
    entries of a table makes at most 512 rounds and one over tables at most
    513, [map_rounds] one round for every multiple of 1 GiB in the range and
    one more, the search for a hole as many as there are nodes, [format_loop] and
    [strftime_loop] as many as the format has characters, [spec_depth] is the
    nesting of the conversions, a loop
    over the words of a bitmap ([word_fuel]) one for every byte and one more,
    [range_fuel] one for every range of zeros in a word, [mark_fuel] one for
    every entry of the vmemmap, [search_fuel] one for every bit of a size, the
    loops over the sections at most 256, the one over capabilities 128 (48 fit
    in the space), the fuel of [parse_function] is the nesting of bridges, [madt_loop] makes at
    most one round for every byte of the table, the waits for a device ([pit_wait],
    [wait_for_timer]) have as much as is asked for, [RETRY_LIMIT] and
    [MAX_ATTEMPTS] are the code's own 10, [refcount_loop] gets one round for every
    page of its range and one more, and
    [pgmap_with_ptwalker] calls itself through a split at most
    twice.

    ** What is not modelled

    Other architectures; memory that is in no section; the early allocator
    as a provider of tables (the mapping functions take one as a parameter), so
    arch/x86_64/mm/init.c, which maps all memory with it; the
    self-links of list heads, which memmove of a section invalidates; creating and switching pagemaps; drivers but for PCI,
    the interrupt controllers, the real-time clock, PS/2 and virtio over
    PCI; and the vendored libfdt not at all. *)
From Stdlib Require Export ZArith Lia.
From stdpp Require Export prelude gmap list strings.

#[global] Open Scope Z_scope.

(** ** Outcomes of C code

    [Ok a] is normal termination with value [a]; [Panic] is a failed [assert],
    [verify_not_reached()] or an explicit [panic()]; [Undef] is an access the C
    abstract machine gives no meaning to (a NULL or stray pointer, an array
    index outside the array, a union member that was not the last one stored);
    [OutOfFuel] only means that a loop of the model was given too little fuel,
    and every theorem about a loop shows that it does not arise. *)
Inductive outcome (A : Type) : Type :=
| Ok (a : A)
| Panic
| Undef
| OutOfFuel.
Arguments Ok {A} a.
Arguments Panic {A}.
Arguments Undef {A}.
Arguments OutOfFuel {A}.

#[export] Instance outcome_ret : MRet outcome := fun A a => Ok a.
#[export] Instance outcome_bind : MBind outcome :=
  fun A B f m =>
    match m with
    | Ok a => f a
    | Panic => Panic
    | Undef => Undef
    | OutOfFuel => OutOfFuel
    end.

(** The monad laws. *)
Lemma outcome_bind_ok {A B} (a : A) (f : A -> outcome B) : (Ok a ≫= f) = f a.
Proof. reflexivity. Qed.

Lemma outcome_bind_ret {A} (m : outcome A) : (m ≫= Ok) = m.
Proof. by destruct m. Qed.

Lemma outcome_bind_assoc {A B C} (m : outcome A) (f : A -> outcome B)
    (g : B -> outcome C) :
  ((m ≫= f) ≫= g) = (m ≫= fun a => f a ≫= g).
Proof. by destruct m. Qed.

Lemma outcome_bind_inv {A B} (m : outcome A) (f : A -> outcome B) b :
  (m ≫= f) = Ok b -> exists a, m = Ok a /\ f a = Ok b.
Proof. destruct m; intros H; try discriminate. eauto. Qed.

(** [assert(cond)] of lib/assert.h in the kernel build: panic when false. *)
Definition c_assert (cond : bool) : outcome unit :=
  if cond then Ok tt else Panic.

(** Reading through a pointer (or a table slot) that may be invalid. *)
Definition deref {A} (o : option A) : outcome A :=
  match o with Some a => Ok a | None => Undef end.

Definition is_ok {A} (m : outcome A) : bool :=
  match m with Ok _ => true | _ => false end.

Lemma c_assert_true b : b = true -> c_assert b = Ok tt.
Proof. by intros ->. Qed.

Lemma deref_some {A} (o : option A) a : o = Some a -> deref o = Ok a.
Proof. by intros ->. Qed.

Lemma deref_inv {A} (o : option A) a : deref o = Ok a -> o = Some a.
Proof. destruct o; simpl; congruence. Qed.

(** ** Machine integers

    A value of a w-bit unsigned C type is a [Z] in [0, 2^w); arithmetic on it
    is followed by [wrap w].  A value of a w-bit signed type is a [Z] in
    [-2^(w-1), 2^(w-1)); [swrap w] is the conversion to it. *)
Definition wrap (w z : Z) : Z := z `mod` 2 ^ w.
Definition swrap (w z : Z) : Z := (z + 2 ^ (w - 1)) `mod` 2 ^ w - 2 ^ (w - 1).

Abbreviation u8 := (wrap 8).
Abbreviation u16 := (wrap 16).
Abbreviation u32 := (wrap 32).
Abbreviation u64 := (wrap 64).
Abbreviation i8 := (swrap 8).
Abbreviation i32 := (swrap 32).
Abbreviation i64 := (swrap 64).

Definition in_u (w z : Z) : Prop := 0 <= z < 2 ^ w.
Definition in_s (w z : Z) : Prop := - 2 ^ (w - 1) <= z < 2 ^ (w - 1).

Abbreviation UINT8_MAX := (2 ^ 8 - 1).
Abbreviation UINT32_MAX := (2 ^ 32 - 1).
Abbreviation UINT64_MAX := (2 ^ 64 - 1).
Abbreviation INT32_MAX := (2 ^ 31 - 1).
Abbreviation INT64_MAX := (2 ^ 63 - 1).

Lemma wrap_small w z : in_u w z -> wrap w z = z.
Proof. intros H. unfold wrap. by apply Z.mod_small. Qed.

Lemma wrap_in_u w z : 0 <= w -> in_u w (wrap w z).
Proof.
  intros Hw. unfold in_u, wrap.
  assert (0 < 2 ^ w) by (apply Z.pow_pos_nonneg; lia).
  by apply Z.mod_pos_bound.
Qed.

Lemma swrap_small w z : 0 < w -> in_s w z -> swrap w z = z.
Proof.
  intros Hw [Hl Hu]. unfold swrap.
  assert (2 ^ w = 2 * 2 ^ (w - 1)) as E.
  { rewrite <- Z.pow_succ_r by lia. f_equal. lia. }
  rewrite Z.mod_small; lia.
Qed.

Lemma wrap_wrap w z : 0 <= w -> wrap w (wrap w z) = wrap w z.
Proof. intros Hw. apply wrap_small, wrap_in_u, Hw. Qed.

(** Powers of two as they occur in orders, masks and boundaries. *)
Lemma pow2_pos n : 0 <= n -> 0 < 2 ^ n.
Proof. intros. apply Z.pow_pos_nonneg; lia. Qed.

Lemma pow2_succ n : 0 <= n -> 2 ^ (n + 1) = 2 * 2 ^ n.
Proof. intros. rewrite Z.pow_add_r by lia. change (2 ^ 1) with 2. lia. Qed.

Lemma pow2_le m n : m <= n -> 2 ^ m <= 2 ^ n.
Proof. intros. by apply Z.pow_le_mono_r. Qed.

Lemma pow2_lt m n : 0 <= n -> m < n -> 2 ^ m < 2 ^ n.
Proof. intros. apply Z.pow_lt_mono_r; lia. Qed.

(** ** Lists updated by index *)
Lemma list_alter_lookup {A} (f : A -> A) (l : list A) n x :
  l !! n = Some x -> alter f n l = <[n := f x]> l.
Proof.
  intros Hl. apply list_eq. intros k. destruct (decide (k = n)) as [->|].
  - rewrite list_lookup_insert_eq by (eapply lookup_lt_Some; done).
    by rewrite list_lookup_alter_eq, Hl.
  - by rewrite list_lookup_insert_ne, list_lookup_alter_ne.
Qed.

Lemma list_lookup_inserted {A} (l : list A) n x y :
  l !! n = Some x -> <[n := y]> l !! n = Some y.
Proof. intros Hl. apply list_lookup_insert_eq. by eapply lookup_lt_Some. Qed.

(** ** C arrays *)

(** An entry of a C array; an index outside it is [Undef]. *)
Definition nth_entry {A} (l : list A) (i : Z) : outcome A :=
  if i <? 0 then Undef else deref (l !! Z.to_nat i).
Definition set_entry {A} (i : Z) (x : A) (l : list A) : outcome (list A) :=
  if (0 <=? i) && (i <? Z.of_nat (length l)) then Ok (<[Z.to_nat i := x]> l) else Undef.

Lemma set_entry_ok {A} (l : list A) i x : (i < length l)%nat ->
  set_entry (Z.of_nat i) x l = Ok (<[i := x]> l).
Proof.
  intros Hi. unfold set_entry.
  rewrite (proj2 (Z.leb_le 0 _)), (proj2 (Z.ltb_lt (Z.of_nat i) _)) by lia.
  by rewrite Nat2Z.id.
Qed.

Lemma nth_entry_ok {A} (l : list A) i x : l !! i = Some x -> nth_entry l (Z.of_nat i) = Ok x.
Proof.
  intros Hi. unfold nth_entry. rewrite (proj2 (Z.ltb_ge _ 0)) by lia.
  by rewrite Nat2Z.id, Hi.
Qed.

Create HintDb osdb.
#[export] Hint Resolve pow2_pos wrap_in_u : osdb.
Create Rewrite HintDb osrw.
#[export] Hint Rewrite @outcome_bind_ok @outcome_bind_ret : osrw.

(** ** Tactics *)

(** Peel one [Ok]-producing bind off a hypothesis [H : m ≫= f = Ok b]. *)
Ltac bind_inv H x Hx :=
  apply outcome_bind_inv in H; destruct H as [x [Hx H]].

(** Decide the boolean tests of a goal or of the context. *)
Ltac bool_props :=
  repeat match goal with
  | H : (_ <? _) = true |- _ => apply Z.ltb_lt in H
  | H : (_ <? _) = false |- _ => apply Z.ltb_ge in H
  | H : (_ <=? _) = true |- _ => apply Z.leb_le in H
  | H : (_ <=? _) = false |- _ => apply Z.leb_gt in H
  | H : (_ =? _) = true |- _ => apply Z.eqb_eq in H
  | H : (_ =? _) = false |- _ => apply Z.eqb_neq in H
  | H : _ && _ = true |- _ => apply andb_prop in H; destruct H
  | H : negb _ = true |- _ => apply negb_true_iff in H
  | H : negb _ = false |- _ => apply negb_false_iff in H
  end.

(** Split on every integer comparison of the goal. *)
Ltac zcases :=
  repeat match goal with
  | |- context [?a <? ?b] => destruct (Z.ltb_spec a b)
  | |- context [?a <=? ?b] => destruct (Z.leb_spec a b)
  | |- context [?a =? ?b] => destruct (Z.eqb_spec a b)
  end.

Ltac unfold_ints := unfold in_u, in_s in *.
