(* ===== verification/CArith.v ===== *)
(** * Integer helpers of lib/

    lib/overflow.h (checked arithmetic), lib/align.h and lib/align.c,
    lib/math.c, lib/util.c, lib/size.h and lib/size.c, lib/refcount.c. *)
From S2P Require Import Prelude.

(** ** lib/overflow.h

    [__builtin_*_overflow] stores the wrapped result in both cases; the macros
    negate its answer, so [true] means "no overflow".  [w] is the width of the
    destination. *)
Definition check_add (w lhs rhs : Z) : bool * Z :=
  (lhs + rhs <? 2 ^ w, wrap w (lhs + rhs)).
Definition check_sub (w lhs rhs : Z) : bool * Z :=
  (rhs <=? lhs, wrap w (lhs - rhs)).
Definition check_mul (w lhs rhs : Z) : bool * Z :=
  (lhs * rhs <? 2 ^ w, wrap w (lhs * rhs)).

(** The same with a signed destination. *)
Definition fits_s (w z : Z) : bool :=
  (- 2 ^ (w - 1) <=? z) && (z <? 2 ^ (w - 1)).
Definition check_add_s (w lhs rhs : Z) : bool * Z :=
  (fits_s w (lhs + rhs), swrap w (lhs + rhs)).
Definition check_sub_s (w lhs rhs : Z) : bool * Z :=
  (fits_s w (lhs - rhs), swrap w (lhs - rhs)).
Definition check_mul_s (w lhs rhs : Z) : bool * Z :=
  (fits_s w (lhs * rhs), swrap w (lhs * rhs)).

Definition check_add_assert (w lhs rhs : Z) : outcome Z :=
  let '(ok, r) := check_add w lhs rhs in c_assert ok;; Ok r.
Definition check_sub_assert (w lhs rhs : Z) : outcome Z :=
  let '(ok, r) := check_sub w lhs rhs in c_assert ok;; Ok r.
Definition check_mul_assert (w lhs rhs : Z) : outcome Z :=
  let '(ok, r) := check_mul w lhs rhs in c_assert ok;; Ok r.

(** ** lib/align.h, lib/align.c *)
Definition has_align (number boundary : Z) : outcome bool :=
  c_assert (negb (boundary =? 0));;
  Ok (Z.land number (u64 (boundary - 1)) =? 0).

Definition align_down (number boundary : Z) : outcome Z :=
  c_assert (negb (boundary =? 0));;
  let mask := u64 (Z.lnot (u64 (boundary - 1))) in
  Ok (Z.land number mask).

(** [None] is the answer [false], which leaves [*result_out] alone. *)
Definition align_up (number boundary : Z) : outcome (option Z) :=
  if boundary =? 0 then Ok None
  else
    let '(ok, result) := check_add 64 number (u64 (boundary - 1)) in
    if negb ok then Ok None
    else r ← align_down result boundary; Ok (Some r).

Definition align_up_assert (number boundary : Z) : outcome Z :=
  r ← align_up number boundary;
  match r with Some z => Ok z | None => Panic end.

(** ** lib/math.c

    The destination is threaded through: it is left alone when [number] is 0
    and holds a wrapped value after an overflow. *)
Definition round_up (number multiple out : Z) : outcome (bool * Z) :=
  c_assert (negb (multiple =? 0));;
  if number =? 0 then Ok (negb (multiple =? 0), out)
  else
    let '(ok, r) := check_add 64 number (multiple - 1) in
    if negb ok then Ok (false, r)
    else
      let '(ok, r) := check_mul 64 (r / multiple) multiple in
      if negb ok then Ok (false, r) else Ok (true, r).

(** ** lib/util.c *)
Definition index_in_bounds (index bounds : Z) : bool := index <? bounds.
Definition ordinal_in_bounds (ordinal bounds : Z) : bool :=
  negb (ordinal =? 0) && (ordinal <=? bounds).
Definition get_alphanumeric_upper_string : string :=
  "0123456789ABCDEFGHIJKLMNOPQRSTUVWXYZ"%string.
Definition get_alphanumeric_lower_string : string :=
  "0123456789abcdefghijklmnopqrstuvwxyz"%string.

(** ** lib/size.h, lib/size.c: a [unit_kind] is its value, a power of 1024. *)
Definition kib (amount : Z) : Z := 2 ^ 10 * amount.
Definition mib (amount : Z) : Z := 2 ^ 20 * amount.
Definition gib (amount : Z) : Z := 2 ^ 30 * amount.
Definition tib (amount : Z) : Z := 2 ^ 40 * amount.
Definition pib (amount : Z) : Z := 2 ^ 50 * amount.
Definition eib (amount : Z) : Z := 2 ^ 60 * amount.

Definition UNIT_KIND_BYTE : Z := 1.
Definition UNIT_KIND_KIB : Z := kib 1.
Definition UNIT_KIND_MIB : Z := mib 1.
Definition UNIT_KIND_GIB : Z := gib 1.
Definition UNIT_KIND_TIB : Z := tib 1.
Definition UNIT_KIND_PIB : Z := pib 1.
Definition UNIT_KIND_EIB : Z := eib 1.

Definition units_to_sv (kind : Z) : outcome string :=
  if kind =? UNIT_KIND_BYTE then Ok "Byte"%string
  else if kind =? UNIT_KIND_KIB then Ok "Kibibyte"%string
  else if kind =? UNIT_KIND_MIB then Ok "Mebibyte"%string
  else if kind =? UNIT_KIND_GIB then Ok "Gibibyte"%string
  else if kind =? UNIT_KIND_TIB then Ok "Tebibyte"%string
  else if kind =? UNIT_KIND_PIB then Ok "Pebibyte"%string
  else Panic.

Definition units_to_sv_abbrev (kind : Z) : outcome string :=
  if kind =? UNIT_KIND_BYTE then Ok "Byte"%string
  else if kind =? UNIT_KIND_KIB then Ok "Kib"%string
  else if kind =? UNIT_KIND_MIB then Ok "Mib"%string
  else if kind =? UNIT_KIND_GIB then Ok "Gib"%string
  else if kind =? UNIT_KIND_TIB then Ok "Tib"%string
  else if kind =? UNIT_KIND_PIB then Ok "Pib"%string
  else Panic.

(** The loop divides a 64-bit size by 1024 at most six times. *)
Fixpoint size_to_units_loop (fuel : nat) (size kind : Z) : outcome Z :=
  match fuel with
  | O => OutOfFuel
  | S fuel =>
      if size >=? kib 1
      then size_to_units_loop fuel (size / kib 1) (u64 (kind * kib 1))
      else Ok kind
  end.
Definition size_to_units (size : Z) : outcome Z :=
  size_to_units_loop 7 size UNIT_KIND_BYTE.

(** ** lib/refcount.c: the counter is a 32-bit signed atomic. *)
Definition REFCOUNT_MAX : Z := INT32_MAX.
Definition refcount_init : Z := 1.

Definition refcount_increment (count amount : Z) : outcome Z :=
  let old := count in
  let count := i32 (old + amount) in
  if old <? 0 then Panic
  else if old =? REFCOUNT_MAX then Panic
  else Ok count.

Definition refcount_decrement (count amount : Z) : outcome (bool * Z) :=
  let old := count in
  let count := i32 (old - amount) in
  if (old <? 0) || (old <? amount) then Panic
  else if old =? REFCOUNT_MAX then Panic
  else Ok (old =? 1, count).

Definition ref_up (count : Z) : outcome Z := refcount_increment count 1.
Definition ref_down (count : Z) : outcome (bool * Z) := refcount_decrement count 1.

(** ** Lemmas *)

(** Masking with [~(2^k - 1)] rounds down to a multiple of [2^k]. *)
Lemma align_mask k : 0 <= k < 64 ->
  u64 (Z.lnot (u64 (2 ^ k - 1))) = Z.shiftl (Z.ones (64 - k)) k.
Proof.
  intros Hk. pose proof (pow2_pos k ltac:(lia)).
  pose proof (pow2_lt k 64 ltac:(lia) ltac:(lia)).
  rewrite (wrap_small 64 (2 ^ k - 1)) by (unfold_ints; lia).
  unfold wrap. rewrite Z.shiftl_mul_pow2, Z.ones_equiv by lia.
  unfold Z.lnot. replace (Z.pred (- (2 ^ k - 1))) with (2 ^ 64 - 2 ^ k + (-1) * 2 ^ 64) by lia.
  rewrite Z.mod_add by lia. rewrite Z.mod_small by lia.
  replace 64 with (64 - k + k) at 1 by lia. rewrite Z.pow_add_r by lia. lia.
Qed.

Lemma land_shifted_ones n k m : 0 <= k -> 0 <= m -> 0 <= n < 2 ^ (m + k) ->
  Z.land n (Z.shiftl (Z.ones m) k) = n / 2 ^ k * 2 ^ k.
Proof.
  intros Hk Hm Hn. rewrite <- Z.shiftr_div_pow2, <- Z.shiftl_mul_pow2 by lia.
  apply Z.bits_inj'. intros i Hi.
  rewrite Z.land_spec, !Z.shiftl_spec by lia.
  destruct (Z.ltb_spec i k).
  - rewrite !(Z.testbit_neg_r _ (i - k)) by lia. by rewrite andb_false_r.
  - rewrite Z.shiftr_spec by lia. replace (i - k + k) with i by lia.
    destruct (Z.ltb_spec (i - k) m).
    + rewrite Z.ones_spec_low by lia. by rewrite andb_true_r.
    + rewrite Z.ones_spec_high, andb_false_r by lia. symmetry.
      rewrite <- (Z.mod_small n (2 ^ (m + k))) by lia.
      apply Z.mod_pow2_bits_high. lia.
Qed.

Lemma align_down_eq n k : 0 <= k < 64 -> in_u 64 n ->
  align_down n (2 ^ k) = Ok (n / 2 ^ k * 2 ^ k).
Proof.
  intros Hk Hn. unfold align_down. pose proof (pow2_pos k ltac:(lia)).
  destruct (Z.eqb_spec (2 ^ k) 0); [lia|]. simpl.
  rewrite align_mask by done. rewrite land_shifted_ones; [done|lia..|].
  unfold_ints. by replace (64 - k + k) with 64 by lia.
Qed.

Lemma has_align_eq n k : 0 <= k < 64 -> in_u 64 n ->
  has_align n (2 ^ k) = Ok (n `mod` 2 ^ k =? 0).
Proof.
  intros Hk Hn. unfold has_align. pose proof (pow2_pos k ltac:(lia)).
  pose proof (pow2_lt k 64 ltac:(lia) ltac:(lia)).
  destruct (Z.eqb_spec (2 ^ k) 0); [lia|]. simpl.
  rewrite wrap_small by (unfold_ints; lia).
  replace (2 ^ k - 1) with (Z.ones k) by (rewrite Z.ones_equiv; lia).
  by rewrite Z.land_ones by lia.
Qed.

(** The least multiple of [b] that is at least [n]. *)
Definition ceil_mult (n b : Z) : Z := (n + b - 1) / b * b.

Lemma ceil_mult_spec n b : 0 < b ->
  n <= ceil_mult n b < n + b /\ (b | ceil_mult n b).
Proof.
  intros Hb. unfold ceil_mult. split; [|by apply Z.divide_factor_r].
  pose proof (Z.div_mod (n + b - 1) b ltac:(lia)).
  pose proof (Z.mod_pos_bound (n + b - 1) b Hb). lia.
Qed.

Lemma align_up_eq n k : 0 <= k < 64 -> in_u 64 n ->
  align_up n (2 ^ k) =
    Ok (if ceil_mult n (2 ^ k) <? 2 ^ 64 then Some (ceil_mult n (2 ^ k)) else None).
Proof.
  intros Hk Hn. pose proof (pow2_pos k ltac:(lia)) as Hp.
  pose proof (pow2_lt k 64 ltac:(lia) ltac:(lia)).
  pose proof (ceil_mult_spec n (2 ^ k) Hp) as [[Hl Hu] Hd].
  unfold align_up. destruct (Z.eqb_spec (2 ^ k) 0); [lia|].
  rewrite (wrap_small 64 (2 ^ k - 1)) by (unfold_ints; lia).
  unfold check_add. destruct (Z.ltb_spec (n + (2 ^ k - 1)) (2 ^ 64)) as [Hlt|Hge]; simpl.
  - rewrite wrap_small by (unfold_ints; lia).
    rewrite align_down_eq by (unfold_ints; lia). simpl.
    unfold ceil_mult in *. replace (n + (2 ^ k - 1)) with (n + 2 ^ k - 1) by lia.
    destruct (Z.ltb_spec ((n + 2 ^ k - 1) / 2 ^ k * 2 ^ k) (2 ^ 64)); [done|].
    pose proof (Z.mul_div_le (n + 2 ^ k - 1) (2 ^ k) Hp). lia.
  - destruct (Z.ltb_spec (ceil_mult n (2 ^ k)) (2 ^ 64)) as [Hc|]; [exfalso|done].
    destruct Hd as [q Hq]. rewrite Hq in *.
    assert (2 ^ 64 = 2 ^ (64 - k) * 2 ^ k) as E
      by (rewrite <- Z.pow_add_r by lia; f_equal; lia).
    assert (q < 2 ^ (64 - k)) by nia. nia.
Qed.
#[export] Hint Rewrite align_down_eq has_align_eq align_up_eq using lia : osrw.
