(* ===== verification/Spinlock.v ===== *)
(** * Ticket spinlocks: kernel/cpu/spinlock.c

    CPUs that run the functions of spinlock.c on one lock, interleaved at their
    atomic accesses.  The counters have [w] bits; they are [uint32_t] in the
    code.  What a CPU knows while it is inside a function is its [pc]; the
    [ordinal]s in it are ghosts, the unbounded numbers behind the tickets,
    which no branch looks at. *)
From S2P Require Import Prelude.

Record spinlock := { front : Z; back : Z }.
Definition SPINLOCK_INIT : spinlock := {| front := 0; back := 0 |}.

(** The interrupt flag an [_with_irq] function has saved, if it is one. *)
Abbreviation saved := (option bool).

Inductive pc :=
| Idle
(* spin_acquire_with_irq and spin_try_acquire_with_irq (if [try]) *)
| ReadIrq (try : bool)
| DisableIrq (try irqs_enabled : bool)
(* spin_acquire *)
| FetchBack (flag : saved)
| SpinFront (flag : saved) (ticket : Z) (ordinal : Z)
(* spin_try_acquire *)
| LoadBack (flag : saved)
| LoadFront (flag : saved) (ticket : Z) (ordinal : Z)
| CasBack (flag : saved) (ticket : Z) (ordinal : Z)
| TryFailed (flag : saved)
(* the lock is taken, the functions have returned *)
| Held (flag : saved) (ordinal : Z)
(* spin_release, and the end of spin_release_with_irq *)
| Release (flag : saved) (ordinal : Z)
| EnableIrq (flag : bool).

#[export] Instance pc_eq_dec : EqDecision pc.
Proof. solve_decision. Defined.

(** A CPU: where it is, and whether interrupts are enabled. *)
Record cpu := { at_pc : pc; irqs : bool }.

Section spinlock.
Context (w : Z).

Definition with_front (v : Z) (l : spinlock) : spinlock := {| front := v; back := back l |}.
Definition with_back (v : Z) (l : spinlock) : spinlock := {| front := front l; back := v |}.

(** The next access of a CPU inside a function; [taken] is the number of
    tickets handed out so far (a ghost). *)
Definition spin_acquire_step (p : pc) (l : spinlock) (taken : Z) : option (pc * spinlock * Z) :=
  match p with
  | FetchBack flag =>
      Some (SpinFront flag (back l) taken, with_back (wrap w (back l + 1)) l, taken + 1)
  | SpinFront flag ticket ord =>
      Some (if front l =? ticket then Held flag ord else SpinFront flag ticket ord, l, taken)
  | _ => None
  end.

Definition spin_release_step (p : pc) (l : spinlock) : option (pc * spinlock) :=
  match p with
  | Release flag _ =>
      Some (match flag with Some flag => EnableIrq flag | None => Idle end,
            with_front (wrap w (front l + 1)) l)
  | _ => None
  end.

Definition spin_try_acquire_step (p : pc) (l : spinlock) (taken : Z) : option (pc * spinlock * Z) :=
  match p with
  | LoadBack flag => Some (LoadFront flag (back l) taken, l, taken)
  | LoadFront flag ticket ord =>
      Some (if front l =? ticket then CasBack flag ticket ord else TryFailed flag, l, taken)
  | CasBack flag ticket ord =>
      if back l =? ticket
      then Some (Held flag ord, with_back (wrap w (ticket + 1)) l, taken + 1)
      else Some (TryFailed flag, l, taken)
  | _ => None
  end.

(** The accesses to the interrupt flag around them. *)
Definition irq_step (p : pc) (irqs : bool) : option (pc * bool) :=
  match p with
  | ReadIrq try => Some (DisableIrq try irqs, irqs)
  | DisableIrq try flag => Some (if try then LoadBack (Some flag) else FetchBack (Some flag), false)
  | TryFailed (Some flag) => Some (Idle, if (flag : bool) then true else irqs)
  | TryFailed None => Some (Idle, irqs)
  | EnableIrq flag => Some (Idle, if (flag : bool) then true else irqs)
  | _ => None
  end.

Record system := { lock : spinlock; cpus : list cpu; taken : Z }.

(** The next access of the CPU [c], if it is inside a function. *)
Definition cpu_step (c : cpu) (l : spinlock) (taken : Z) : option (cpu * spinlock * Z) :=
  match spin_acquire_step (at_pc c) l taken with
  | Some (p, l, taken) => Some ({| at_pc := p; irqs := irqs c |}, l, taken)
  | None =>
  match spin_try_acquire_step (at_pc c) l taken with
  | Some (p, l, taken) => Some ({| at_pc := p; irqs := irqs c |}, l, taken)
  | None =>
  match spin_release_step (at_pc c) l with
  | Some (p, l) => Some ({| at_pc := p; irqs := irqs c |}, l, taken)
  | None =>
  match irq_step (at_pc c) (irqs c) with
  | Some (p, i) => Some ({| at_pc := p; irqs := i |}, l, taken)
  | None => None
  end end end end.

(** The calls: a CPU outside of the functions enters one, and one that holds
    the lock releases it the way it was taken. *)
Definition enters (p q : pc) : bool :=
  match p, q with
  | Idle, (FetchBack None | LoadBack None | ReadIrq _) => true
  | Held flag ord, Release flag' ord' => bool_decide (flag = flag') && (ord =? ord')
  | _, _ => false
  end.

Inductive step : system -> system -> Prop :=
| step_run i c c' l' n' s :
    cpus s !! i = Some c -> cpu_step c (lock s) (taken s) = Some (c', l', n') ->
    step s {| lock := l'; cpus := <[i := c']> (cpus s); taken := n' |}
| step_call i c q s :
    cpus s !! i = Some c -> enters (at_pc c) q = true ->
    step s {| lock := lock s; cpus := <[i := {| at_pc := q; irqs := irqs c |}]> (cpus s);
              taken := taken s |}.

(** An unlocked lock, and CPUs that are not inside the functions. *)
Definition initial (flags : list bool) : system :=
  {| lock := SPINLOCK_INIT; cpus := (fun i => {| at_pc := Idle; irqs := i |}) <$> flags; taken := 0 |}.

(** No [spin_try_acquire] sleeps while [2 ^ w] tickets are handed out. *)
Definition fresh (s : system) : Prop :=
  forall c flag t ord, c ∈ cpus s -> at_pc c = LoadFront flag t ord \/ at_pc c = CasBack flag t ord ->
  taken s - ord < 2 ^ w.

(** The states of the runs in which all is fresh. *)
Inductive reachable (flags : list bool) : system -> Prop :=
| reach_init : reachable flags (initial flags)
| reach_step s s' : reachable flags s -> step s s' -> fresh s' -> reachable flags s'.

Definition holds_lock (c : cpu) : Prop :=
  match at_pc c with Held _ _ | Release _ _ => True | _ => False end.
End spinlock.
