(* ===== verification/SpinlockThms.v ===== *)
(** * What the ticket lock guarantees

    Invariant and properties of Spinlock.v. *)
From S2P Require Import Prelude Spinlock.

(** ** Lists *)
Lemma lookup_split {A} (l : list A) i c : l !! i = Some c -> exists l1 l2, l = l1 ++ c :: l2 /\
  length l1 = i /\ forall c', <[i := c']> l = l1 ++ c' :: l2.
Proof.
  intros H. exists (take i l), (drop (S i) l). pose proof (lookup_lt_Some _ _ _ H) as Hl.
  split; [by rewrite take_drop_middle|]. split; [rewrite length_take; lia|].
  intros c'. by apply insert_take_drop.
Qed.

(** ** The invariant *)
Definition ordinal (c : cpu) : option Z :=
  match at_pc c with SpinFront _ _ o | Held _ o | Release _ o => Some o | _ => None end.
Definition ordinals (l : list cpu) : list Z := omap ordinal l.

(** The flag saved by the function the CPU is in, once interrupts are off. *)
Definition irq_off (p : pc) : bool :=
  match p with
  | FetchBack (Some _) | SpinFront (Some _) _ _ | LoadBack (Some _) | LoadFront (Some _) _ _
  | CasBack (Some _) _ _ | TryFailed (Some _) | Held (Some _) _ | Release (Some _) _ | EnableIrq _ => true
  | _ => false
  end.

Section inv.
Context (w : Z).
Hypothesis w_pos : 0 <= w.

(** [r] is the number of releases so far. *)
Definition pc_ok (r taken : Z) (c : cpu) : Prop :=
  match at_pc c with
  | SpinFront _ t o => t = wrap w o
  | Held _ o | Release _ o => o = r
  | LoadFront _ t o => t = wrap w o /\ o <= taken
  | CasBack _ t o => t = wrap w o /\ o <= taken /\ o <= r
  | _ => True
  end /\ (irq_off (at_pc c) = true -> irqs c = false).

Record lock_ok (s : system) (r : Z) : Prop := {
  lo_range : r <= taken s;
  lo_front : front (lock s) = wrap w r;
  lo_back : back (lock s) = wrap w (taken s);
  lo_ordinals : ordinals (cpus s) ≡ₚ seqZ r (taken s - r);
  lo_cpus : Forall (pc_ok r (taken s)) (cpus s);
}.

Lemma pc_ok_taken r n n' c : n <= n' -> pc_ok r n c -> pc_ok r n' c.
Proof. unfold pc_ok. destruct (at_pc c); naive_solver lia. Qed.

Lemma pc_ok_release r n c : ordinal c <> Some r -> pc_ok r n c -> pc_ok (r + 1) n c.
Proof.
  unfold pc_ok, ordinal. destruct (at_pc c); try naive_solver lia; intros H [-> ?]; congruence.
Qed.

Lemma ordinals_app l1 c l2 : ordinals (l1 ++ c :: l2) = ordinals l1 ++ option_list (ordinal c) ++ ordinals l2.
Proof. unfold ordinals. rewrite omap_app. simpl. by destruct (ordinal c). Qed.

Lemma ordinals_length l : (length (ordinals l) <= length l)%nat.
Proof. induction l as [|c l IH]; simpl; [done|]. destruct (ordinal c); simpl; lia. Qed.

Lemma wrap_inj a b : 0 <= b - a < 2 ^ w -> wrap w a = wrap w b -> a = b.
Proof.
  unfold wrap. intros H E. pose proof (pow2_pos w w_pos).
  assert ((b - a) `mod` 2 ^ w = 0) as E' by (rewrite Zminus_mod, E, Z.sub_diag; by apply Z.mod_0_l; lia).
  rewrite Z.mod_small in E' by lia. lia.
Qed.

Lemma wrap_succ a : wrap w (wrap w a + 1) = wrap w (a + 1).
Proof. unfold wrap. pose proof (pow2_pos w w_pos). by rewrite Zplus_mod_idemp_l. Qed.

Section state.
Context (s : system) (r : Z) (i : nat) (c : cpu).
Hypothesis ok : lock_ok s r.
Hypothesis few : Z.of_nat (length (cpus s)) < 2 ^ w.
Hypothesis Hi : cpus s !! i = Some c.

Lemma waiting_few : 0 <= taken s - r < 2 ^ w.
Proof.
  destruct ok as [Hr _ _ P _]. apply Permutation_length in P. rewrite length_seqZ in P.
  pose proof (ordinals_length (cpus s)). lia.
Qed.

Lemma ordinal_range o : ordinal c = Some o -> r <= o < taken s.
Proof.
  intros E. destruct (lookup_split _ _ _ Hi) as (l1 & l2 & El & _ & _).
  assert (o ∈ ordinals (cpus s)) as Ho.
  { rewrite El, ordinals_app, E. simpl. set_solver. }
  rewrite (lo_ordinals _ _ ok) in Ho. apply elem_of_seqZ in Ho. lia.
Qed.

Lemma cpu_ok : pc_ok r (taken s) c.
Proof. pose proof (lo_cpus _ _ ok) as H. rewrite Forall_forall in H. apply H. by eapply list_elem_of_lookup_2. Qed.

(** A CPU moves on without touching the counters. *)
Lemma ok_move c' l' n' : lock s = l' -> taken s = n' -> ordinal c' = ordinal c ->
  pc_ok r (taken s) c' -> lock_ok {| lock := l'; cpus := <[i := c']> (cpus s); taken := n' |} r.
Proof.
  intros <- <- E H. destruct (lookup_split _ _ _ Hi) as (l1 & l2 & El & _ & Ei).
  destruct ok as [H1 H2 H3 H4 H5]. split; simpl; [done..| |].
  - by rewrite Ei, ordinals_app, E, <- ordinals_app, <- El.
  - by apply Forall_insert.
Qed.

(** It takes a ticket. *)
Lemma ok_take c' l' : ordinal c = None -> ordinal c' = Some (taken s) ->
  l' = with_back (wrap w (back (lock s) + 1)) (lock s) -> pc_ok r (taken s + 1) c' ->
  lock_ok {| lock := l'; cpus := <[i := c']> (cpus s); taken := taken s + 1 |} r.
Proof.
  intros E E' -> H. destruct (lookup_split _ _ _ Hi) as (l1 & l2 & El & _ & Ei).
  destruct ok as [H1 H2 H3 H4 H5]. split; simpl; [lia|done|by rewrite H3, wrap_succ| |].
  - rewrite El, ordinals_app, E in H4. simpl in H4. rewrite Ei, ordinals_app, E'. simpl.
    replace (taken s + 1 - r) with ((taken s - r) + 1) by lia. rewrite seqZ_app by lia.
    rewrite <- H4. replace (r + (taken s - r)) with (taken s) by lia.
    rewrite (seqZ_cons _ 1) by lia. change (seqZ (Z.succ (taken s)) (Z.pred 1)) with (@nil Z). solve_Permutation.
  - apply Forall_insert; [|done]. apply (Forall_impl _ _ _ H5). intros x. apply pc_ok_taken. lia.
Qed.

(** It gives the lock back. *)
Lemma ok_release c' l' : ordinal c = Some r -> ordinal c' = None ->
  l' = with_front (wrap w (front (lock s) + 1)) (lock s) -> pc_ok (r + 1) (taken s) c' ->
  lock_ok {| lock := l'; cpus := <[i := c']> (cpus s); taken := taken s |} (r + 1).
Proof.
  intros E E' -> H. pose proof (ordinal_range r E) as Hr.
  destruct (lookup_split _ _ _ Hi) as (l1 & l2 & El & _ & Ei).
  destruct ok as [H1 H2 H3 H4 H5]. rewrite El, ordinals_app, E in H4. simpl in H4.
  rewrite (seqZ_cons r) in H4 by lia. rewrite <- Permutation_middle in H4.
  apply Permutation_cons_inv in H4.
  assert (r ∉ ordinals l1 ++ ordinals l2) as Hn.
  { rewrite H4. intros ?%elem_of_seqZ. lia. }
  split; simpl; [lia|by rewrite H2, wrap_succ|done| |].
  - rewrite Ei, ordinals_app, E'. simpl. rewrite H4. f_equiv; lia.
  - rewrite Ei. rewrite El, Forall_app, Forall_cons in H5. destruct H5 as (F1 & _ & F2).
    assert (forall x l, x ∈ l -> (forall y, y ∈ ordinals l -> y <> r) -> ordinal x <> Some r) as Hx.
    { intros x l Hx Hl E2. apply (Hl r); [|done]. apply list_elem_of_omap. by exists x. }
    rewrite Forall_app, Forall_cons. rewrite Forall_forall in F1, F2.
    split_and!; [| done |]; apply Forall_forall; intros x Hin; apply pc_ok_release; auto;
      eapply Hx; try done; intros y Hy ->; set_solver.
Qed.

(** ** Every step keeps the invariant *)
Lemma run_ok c' l' n' : fresh w s -> cpu_step w c (lock s) (taken s) = Some (c', l', n') ->
  exists r', r <= r' /\ lock_ok {| lock := l'; cpus := <[i := c']> (cpus s); taken := n' |} r'.
Proof.
  intros Hf E. pose proof waiting_few as W. pose proof cpu_ok as C. pose proof ordinal_range as O.
  assert (forall flag t ord, at_pc c = LoadFront flag t ord \/ at_pc c = CasBack flag t ord ->
    taken s - ord < 2 ^ w) as F.
  { intros flag t ord. apply Hf. by eapply list_elem_of_lookup_2. }
  pose proof (lo_front _ _ ok) as Lf. pose proof (lo_back _ _ ok) as Lb. pose proof (lo_range _ _ ok) as Lr.
  pose proof pow2_pos w w_pos as Pw.
  destruct C as [C Cq]. unfold cpu_step in E.
  destruct (at_pc c) as [|try|try f|flag|flag t o|flag|flag t o|flag t o|flag|flag o|flag o|flag] eqn:Ep;
    simpl in *; simplify_eq/=.
  - exists r. split; [lia|]. apply ok_move; try done; unfold ordinal; simpl; by rewrite ?Ep.
  - exists r. split; [lia|]. apply ok_move; try done; unfold ordinal; simpl; rewrite ?Ep; by destruct try.
  - exists r. split; [lia|]. apply ok_take; try done; unfold ordinal; simpl; by rewrite ?Ep.
  - exists r. split; [lia|].
    assert (ordinal c = Some o) as Eo by (unfold ordinal; by rewrite Ep). specialize (O o Eo).
    apply ok_move; try done; [unfold ordinal; rewrite Ep; simpl; by destruct (_ =? _)|].
    unfold pc_ok. simpl. destruct (Z.eqb_spec (front (lock s)) (wrap w o)) as [Ef|]; simpl; [|done].
    split; [|done]. symmetry. apply wrap_inj; [lia|congruence].
  - exists r. split; [lia|]. apply ok_move; try done; unfold ordinal; simpl; by rewrite ?Ep.
  - exists r. split; [lia|]. destruct C as [-> Co].
    specialize (F flag _ o (or_introl eq_refl)).
    apply ok_move; try done; [unfold ordinal; rewrite Ep; simpl; by destruct (_ =? _)|].
    unfold pc_ok. simpl. destruct (Z.eqb_spec (front (lock s)) (wrap w o)) as [Ef|]; simpl; [|done].
    split; [|done]. split_and!; [done..|]. destruct (decide (o <= r)); [done|].
    assert (r = o) as ->; [|done]. apply wrap_inj; [lia|congruence].
  - destruct C as (-> & Co & Cr). specialize (F flag _ o (or_intror eq_refl)).
    destruct (Z.eqb_spec (back (lock s)) (wrap w o)) as [Eb|]; simplify_eq/=.
    + assert (o = taken s) as -> by (apply wrap_inj; [lia|congruence]).
      exists r. split; [lia|]. apply ok_take; try done.
      * unfold ordinal. by rewrite Ep.
      * by rewrite Lb, wrap_succ.
      * unfold pc_ok. simpl. split; [lia|done].
    + exists r. split; [lia|]. apply ok_move; try done; unfold ordinal; simpl; by rewrite ?Ep.
  - exists r. destruct flag; simplify_eq/=; (split; [lia|]); apply ok_move; try done;
      unfold ordinal; simpl; by rewrite ?Ep.
  - exists (r + 1). split; [lia|].
    apply ok_release; try done; unfold ordinal; simpl; rewrite ?Ep; by destruct flag.
  - exists r. split; [lia|]. apply ok_move; try done; unfold ordinal; simpl; by rewrite ?Ep.
Qed.

Lemma call_ok q : enters (at_pc c) q = true ->
  lock_ok {| lock := lock s; cpus := <[i := {| at_pc := q; irqs := irqs c |}]> (cpus s);
             taken := taken s |} r.
Proof.
  intros E. pose proof cpu_ok as [C Cq]. apply ok_move; try done.
  - unfold ordinal. simpl. destruct (at_pc c), q as [| | |[]| |[]| | | | | |]; try done. simpl in E.
    apply andb_prop in E as [_ E%Z.eqb_eq]. by subst.
  - unfold pc_ok. simpl. destruct (at_pc c), q as [| | |[]| |[]| | | | | |]; try done. simpl in *.
    apply andb_prop in E as [E1%bool_decide_eq_true E%Z.eqb_eq]. by subst.
Qed.
End state.
End inv.

(** ** Reachable states *)
Section reach.
Context (w : Z) (flags : list bool).
Hypothesis w_pos : 0 <= w.
Hypothesis few : Z.of_nat (length flags) < 2 ^ w.

Lemma initial_ok : lock_ok w (initial flags) 0 /\ fresh w (initial flags).
Proof.
  assert (forall c, c ∈ cpus (initial flags) -> at_pc c = Idle) as H.
  { intros c (b & -> & _)%list_elem_of_fmap. done. }
  split; [split; try done|].
  - assert (ordinals (cpus (initial flags)) = []) as ->; [|done].
    unfold initial, ordinals. simpl. induction flags as [|b l IH]; [done|]. simpl. apply IH.
    + simpl in few. lia.
    + intros c Hc. apply H. by right.
  - apply Forall_forall. intros c Hc. unfold pc_ok. by rewrite (H c Hc).
  - intros c f t o Hc E. rewrite (H c Hc) in E. by destruct E.
Qed.

Lemma reachable_ok s : reachable w flags s ->
  (exists r, lock_ok w s r) /\ fresh w s /\ length (cpus s) = length flags.
Proof.
  induction 1 as [|s s' _ ((r & L) & F & Hl) St F'].
  - destruct initial_ok as [L F]. split_and!; [by exists 0|done|]. simpl. by rewrite length_fmap.
  - assert (Z.of_nat (length (cpus s)) < 2 ^ w) as Hf by (by rewrite Hl).
    destruct St as [i c c' l' n' s Hi E|i c q s Hi E]; simpl; rewrite length_insert.
    + destruct (run_ok w w_pos s r i c L Hf Hi c' l' n' F E) as (r' & _ & L').
      split_and!; [by exists r'|done..].
    + split_and!; [|done..]. exists r. by apply (call_ok w s r i c L).
Qed.

(** The holder has the least ordinal, the number of releases. *)
Lemma holder_ordinal s r c : lock_ok w s r -> c ∈ cpus s -> holds_lock c -> ordinal c = Some r.
Proof.
  intros L Hc H. pose proof (lo_cpus _ _ _ L) as C. rewrite Forall_forall in C.
  destruct (C c Hc) as [C1 _]. unfold holds_lock, ordinal in *. destruct (at_pc c); try done; by subst.
Qed.

Lemma ordinal_unique s r i j c c' o : lock_ok w s r -> cpus s !! i = Some c -> cpus s !! j = Some c' ->
  ordinal c = Some o -> ordinal c' = Some o -> i = j.
Proof.
  intros L Hi Hj E E'. destruct (decide (i = j)) as [|Hne]; [done|exfalso].
  destruct (lookup_split _ _ _ Hi) as (l1 & l2 & El & Hl & _).
  pose proof (lo_ordinals _ _ _ L) as P. rewrite El, ordinals_app, E in P. simpl in P.
  assert (c' ∈ l1 ++ l2) as Hin.
  { rewrite El in Hj. apply elem_of_app. destruct (decide (j < i)%nat).
    - left. rewrite lookup_app_l in Hj by lia. by eapply list_elem_of_lookup_2.
    - right. rewrite lookup_app_r in Hj by lia. destruct (j - length l1)%nat as [|k] eqn:Ek; [lia|].
      simpl in Hj. by eapply list_elem_of_lookup_2. }
  assert (o ∈ ordinals l1 ++ ordinals l2) as Ho.
  { unfold ordinals. rewrite <- omap_app. apply list_elem_of_omap. by exists c'. }
  rewrite <- Permutation_middle in P. pose proof (NoDup_seqZ r (taken s - r)) as Hnd.
  rewrite <- P in Hnd. by apply NoDup_cons in Hnd as [? _].
Qed.

Lemma mutual_exclusion s i j c c' : reachable w flags s -> cpus s !! i = Some c ->
  cpus s !! j = Some c' -> holds_lock c -> holds_lock c' -> i = j.
Proof.
  intros ((r & L) & _)%reachable_ok Hi Hj H H'.
  apply (ordinal_unique s r i j c c' r L Hi Hj); apply (holder_ordinal s); try done; by eapply list_elem_of_lookup_2.
Qed.

Lemma irqs_are_off s c flag o : reachable w flags s -> c ∈ cpus s ->
  at_pc c = Held (Some flag) o -> irqs c = false.
Proof.
  intros ((r & L) & _)%reachable_ok Hc E. pose proof (lo_cpus _ _ _ L) as C. rewrite Forall_forall in C.
  destruct (C c Hc) as [_ Cq]. apply Cq. by rewrite E.
Qed.

(** Whoever waits, the CPU whose turn it is holds the lock or takes it with its
    next access. *)
Lemma turn s c flag t o : reachable w flags s -> c ∈ cpus s -> at_pc c = SpinFront flag t o ->
  exists j c0 o0, cpus s !! j = Some c0 /\ ordinal c0 = Some o0 /\ o0 <= o /\
    (forall c1 o1, c1 ∈ cpus s -> ordinal c1 = Some o1 -> o0 <= o1) /\
    (holds_lock c0 \/ exists flag0,
      cpu_step w c0 (lock s) (taken s) =
        Some ({| at_pc := Held flag0 o0; irqs := irqs c0 |}, lock s, taken s)).
Proof.
  intros ((r & L) & _ & Hl)%reachable_ok Hc E.
  assert (forall c1 o1, c1 ∈ cpus s -> ordinal c1 = Some o1 -> r <= o1 < taken s) as R.
  { intros c1 o1 [k Hk]%list_elem_of_lookup E1. eapply (ordinal_range w); eauto. by rewrite Hl. }
  assert (ordinal c = Some o) as Eo by (unfold ordinal; by rewrite E).
  pose proof (R c o Hc Eo) as Ro.
  assert (r ∈ ordinals (cpus s)) as (c0 & Hin & E0)%list_elem_of_omap.
  { rewrite (lo_ordinals _ _ _ L). apply elem_of_seqZ. lia. }
  apply list_elem_of_lookup in Hin as Hj. destruct Hj as [j Hj]. exists j, c0, r.
  split_and!; [done..|lia| |].
  - intros c1 o1 H1 H2. by apply (R c1 o1).
  - pose proof (lo_cpus _ _ _ L) as C. rewrite Forall_forall in C. destruct (C c0 Hin) as [C0 _].
    unfold ordinal, holds_lock, cpu_step in *. destruct c0 as [p q]. simpl in *.
    destruct p; simplify_eq/=; auto. right. rewrite (lo_front _ _ _ L), Z.eqb_refl. by eexists.
Qed.
End reach.

(** ** Schedules *)

(** An entry of a schedule: a CPU, and the function it calls if it is idle or
    releases. *)
Fixpoint fresh_b (w : Z) (n : Z) (l : list cpu) : bool :=
  match l with
  | [] => true
  | c :: l =>
      match at_pc c with
      | LoadFront _ _ o | CasBack _ _ o => n - o <? 2 ^ w
      | _ => true
      end && fresh_b w n l
  end.

Definition play1 (w : Z) (e : nat * option pc) (s : system) : option system :=
  match cpus s !! e.1, e.2 with
  | Some c, None =>
      match cpu_step w c (lock s) (taken s) with
      | Some (c', l', n') => Some {| lock := l'; cpus := <[e.1 := c']> (cpus s); taken := n' |}
      | None => None
      end
  | Some c, Some q =>
      if enters (at_pc c) q
      then Some {| lock := lock s; cpus := <[e.1 := {| at_pc := q; irqs := irqs c |}]> (cpus s);
                   taken := taken s |}
      else None
  | None, _ => None
  end.
Fixpoint play (w : Z) (l : list (nat * option pc)) (s : system) : option system :=
  match l with
  | [] => Some s
  | e :: l =>
      match play1 w e s with
      | Some s => if fresh_b w (taken s) (cpus s) then play w l s else None
      | None => None
      end
  end.

Lemma fresh_b_ok w s : fresh_b w (taken s) (cpus s) = true -> fresh w s.
Proof.
  unfold fresh. generalize (taken s). intros n. induction (cpus s) as [|c l IH]; intros H c0 f t o Hin E.
  - by apply elem_of_nil in Hin.
  - simpl in H. apply andb_prop in H as [H1 H2]. apply elem_of_cons in Hin as [->|Hin]; [|by eapply IH].
    destruct E as [E|E]; rewrite E in H1; by apply Z.ltb_lt in H1.
Qed.

Lemma play1_step w e s s' : play1 w e s = Some s' -> step w s s'.
Proof.
  destruct e as [i [q|]]; unfold play1; simpl; destruct (cpus s !! i) as [c|] eqn:Hi; try done.
  - destruct (enters _ _) eqn:E; [|done]. intros [= <-]. by eapply step_call.
  - destruct (cpu_step _ _ _ _) as [[[c' l'] n']|] eqn:E; [|done]. intros [= <-]. by eapply step_run.
Qed.

Lemma play_reachable w flags l s s' : reachable w flags s -> play w l s = Some s' -> reachable w flags s'.
Proof.
  revert s. induction l as [|e l IH]; intros s R E; simpl in E; [by simplify_eq|].
  destruct (play1 w e s) as [s1|] eqn:E1; [|done]. destruct (fresh_b _ _ _) eqn:F; [|done].
  apply (IH s1); [|done]. apply (reach_step _ _ s); [done|by apply play1_step in E1|by apply fresh_b_ok].
Qed.

(** CPU 0 takes the lock with interrupts off, CPU 1 waits for it. *)
Definition ex_schedule : list (nat * option pc) :=
  [(0, Some (ReadIrq false)); (0, None); (0, None); (1, Some (FetchBack None)); (0, None);
   (1, None); (0, None); (1, None)]%nat.
Definition ex_contended : system :=
  {| lock := {| front := 0; back := 2 |}; taken := 2;
     cpus := [{| at_pc := Held (Some true) 0; irqs := false |};
              {| at_pc := SpinFront None 1 1; irqs := true |}] |}.
Lemma ex_contended_reachable : reachable 32 [true; true] ex_contended.
Proof. apply (play_reachable 32 _ ex_schedule (initial [true; true])); [constructor|by vm_compute]. Qed.

(** With counters of one bit instead of 32: [spin_try_acquire] of CPU 0 loads
    both counters, two tickets are handed out to CPU 1, which holds the lock,
    and CPU 0 finds the back counter as it was. *)
Definition ex_stale : list (nat * option pc) :=
  [(0, Some (LoadBack None)); (0, None); (0, None);
   (1, Some (FetchBack None)); (1, None); (1, None); (1, Some (Release None 0)); (1, None);
   (1, Some (FetchBack None)); (1, None); (1, None); (0, None)]%nat.
Fixpoint play_any (w : Z) (l : list (nat * option pc)) (s : system) : option system :=
  match l with
  | [] => Some s
  | e :: l => match play1 w e s with Some s => play_any w l s | None => None end
  end.
Example ex_stale_try : option_map (fun s => at_pc <$> cpus s) (play_any 1 ex_stale (initial [true; true])) =
  Some [Held None 0; Held None 1].
Proof. by vm_compute. Qed.

(** ** Properties *)

(** C26: at most one CPU holds the lock, in every state that is reached by
    interleaving the atomic accesses of [spin_acquire], [spin_try_acquire],
    [spin_release] and their variants that turn interrupts off, as long as no
    [spin_try_acquire] is overtaken by 2^32 tickets; and a CPU that holds the
    lock through the latter has its interrupts off. *)
Theorem spinlock_mutual_exclusion flags s i j c c' :
  Z.of_nat (length flags) < 2 ^ 32 -> reachable 32 flags s ->
  cpus s !! i = Some c -> cpus s !! j = Some c' -> holds_lock c ->
  (holds_lock c' -> i = j) /\
  (forall flag o, at_pc c = Held (Some flag) o -> irqs c = false).
Proof.
  intros Hf R Hi Hj H. split.
  - by apply (mutual_exclusion 32 flags ltac:(lia) Hf s i j c c').
  - intros flag o. apply (irqs_are_off 32 flags ltac:(lia) Hf s c flag o R).
    by eapply list_elem_of_lookup_2.
Qed.

(** C27: the lock is fair and is never lost: while a CPU spins there is a CPU
    with the least ticket of all that wait or hold, and it holds the lock or
    takes it with its next access. *)
Theorem spinlock_serves_next flags s c flag t o :
  Z.of_nat (length flags) < 2 ^ 32 -> reachable 32 flags s ->
  c ∈ cpus s -> at_pc c = SpinFront flag t o ->
  exists j c0 o0, cpus s !! j = Some c0 /\ ordinal c0 = Some o0 /\ o0 <= o /\
    (forall c1 o1, c1 ∈ cpus s -> ordinal c1 = Some o1 -> o0 <= o1) /\
    (holds_lock c0 \/ exists flag0,
      cpu_step 32 c0 (lock s) (taken s) =
        Some ({| at_pc := Held flag0 o0; irqs := irqs c0 |}, lock s, taken s)).
Proof. intros Hf. by apply turn. Qed.

(** ** Witnesses *)
Lemma spinlock_mutual_exclusion_witness :
  (holds_lock {| at_pc := Held (Some true) 0; irqs := false |} -> 0%nat = 0%nat) /\
  (forall flag o, at_pc {| at_pc := Held (Some true) 0; irqs := false |} = Held (Some flag) o ->
     irqs {| at_pc := Held (Some true) 0; irqs := false |} = false).
Proof.
  apply (spinlock_mutual_exclusion [true; true] ex_contended 0 0); try done.
  apply ex_contended_reachable.
Defined.

Lemma spinlock_serves_next_witness :
  exists j c0 o0, cpus ex_contended !! j = Some c0 /\ ordinal c0 = Some o0 /\ o0 <= 1 /\
    (forall c1 o1, c1 ∈ cpus ex_contended -> ordinal c1 = Some o1 -> o0 <= o1) /\
    (holds_lock c0 \/ exists flag0,
      cpu_step 32 c0 (lock ex_contended) (taken ex_contended) =
        Some ({| at_pc := Held flag0 o0; irqs := irqs c0 |}, lock ex_contended, taken ex_contended)).
Proof.
  apply (spinlock_serves_next [true; true] ex_contended {| at_pc := SpinFront None 1 1; irqs := true |} None 1 1);
    [done|apply ex_contended_reachable| |done].
  right. left.
Defined.
