(* ===== verification/Range.v ===== *)
(** * Ranges of 64-bit addresses: lib/adt/range.c and range.h

    Also [index_range_in_bounds] of lib/util.c, which works on a range. *)
From S2P Require Import Prelude CArith.

Record range := RANGE_INIT { front : Z; size : Z }.

#[export] Instance range_eq_dec : EqDecision range.
Proof. solve_decision. Defined.

Definition RANGE_EMPTY : range := RANGE_INIT 0 0.
Definition RANGE_MAX : range := RANGE_INIT 0 UINT64_MAX.

Definition range_create_upto (size : Z) : range := RANGE_INIT 0 size.
Definition range_create_end (front end_ : Z) : outcome range :=
  c_assert (front <=? end_);; Ok (RANGE_INIT front (u64 (end_ - front))).

(** [None] is the answer [false]; [*result_out] is then left alone. *)
Definition range_multiply (range : range) (mult : Z) : option Range.range :=
  let '(ok1, f) := check_mul 64 (front range) mult in
  if negb ok1 then None
  else
    let '(ok2, s) := check_mul 64 (size range) mult in
    if negb ok2 then None else Some (RANGE_INIT f s).

Definition range_align_in (range : range) (boundary : Z) : outcome Range.range :=
  r ← align_up (front range) boundary;
  match r with
  | None => Ok RANGE_EMPTY
  | Some f =>
      if u64 (f - front range) >=? size range then Ok RANGE_EMPTY
      else s ← align_down (size range) boundary; Ok (RANGE_INIT f s)
  end.

Definition range_has_index (range : range) (index : Z) : bool :=
  index_in_bounds index (size range).
Definition range_has_loc (range : range) (loc : Z) : bool :=
  (loc >=? front range) && (u64 (loc - front range) <? size range).
Definition range_has_end (range : range) (end_ : Z) : bool :=
  (end_ >? front range) && (u64 (end_ - front range) <=? size range).
Definition range_get_end (range : range) : bool * Z :=
  check_add 64 (front range) (size range).
Definition range_overflows (range : range) : bool := negb (fst (range_get_end range)).

Definition range_from_index (range : range) (index : Z) : outcome Range.range :=
  c_assert (range_has_index range index);;
  Ok (RANGE_INIT (u64 (front range + index)) (u64 (size range - index))).
Definition range_from_loc (range : range) (loc : Z) : outcome Range.range :=
  c_assert (range_has_loc range loc);;
  Ok (RANGE_INIT loc (u64 (size range - u64 (loc - front range)))).

Definition range_align_out (range : range) (boundary : Z) : outcome (option Range.range) :=
  r ← align_up (size range) boundary;
  match r with
  | None => Ok None
  | Some s => f ← align_down (front range) boundary; Ok (Some (RANGE_INIT f s))
  end.

Definition range_round_up (range : range) (mult : Z) : outcome (option Range.range) :=
  '(ok, f) ← round_up (front range) mult 0;
  if negb ok then Ok None
  else
    '(ok, s) ← round_up (size range) mult 0;
    if negb ok then Ok None else Ok (Some (RANGE_INIT f s)).

Definition range_round_up_subrange (range : range) (mult : Z) : outcome (option Range.range) :=
  '(ok, f) ← round_up (front range) mult 0;
  if negb ok then Ok None
  else if u64 (f - front range) >=? size range then Ok None
  else Ok (Some (RANGE_INIT f (u64 (size range - u64 (f - front range))))).

Definition range_is_loc_above (range : range) (loc : Z) : bool :=
  (loc >=? front range) && (u64 (loc - front range) >=? size range).
Definition range_is_loc_below (range : range) (loc : Z) : bool := loc <? front range.
Definition range_above (range above : range) : bool := range_is_loc_above range (front above).
Definition range_below (range below : range) : bool := range_is_loc_below range (front below).
Definition range_empty (range : range) : bool := size range =? 0.
(** [&&] does not look at the size when the front is not aligned. *)
Definition range_has_align (range : range) (align : Z) : outcome bool :=
  a ← has_align (front range) align;
  if (a : bool) then has_align (size range) align else Ok false.
Definition range_get_end_assert (range : range) : outcome Z :=
  let '(ok, result) := range_get_end range in c_assert ok;; Ok result.

Definition subrange_from_index (range : range) (index : Z) : outcome Range.range :=
  c_assert (range_has_index range index);;
  Ok (RANGE_INIT index (u64 (size range - index))).
Definition range_has_index_range (range other : range) : bool :=
  if negb (range_has_index range (front other)) then false
  else u64 (size range - front other) >=? size other.
Definition subrange_to_full (range index : range) : outcome Range.range :=
  c_assert (range_has_index_range range index);;
  Ok (RANGE_INIT (u64 (front range + front index)) (size index)).
Definition range_loc_for_index (range : range) (index : Z) : outcome Z :=
  c_assert (range_has_index range index);; Ok (u64 (front range + index)).
Definition range_index_for_loc (range : range) (loc : Z) : outcome Z :=
  c_assert (range_has_loc range loc);; Ok (u64 (loc - front range)).

Definition range_has (range other : range) : outcome bool :=
  if negb (range_has_loc range (front other)) then Ok false
  else
    index ← range_index_for_loc range (front other);
    if negb (range_has_index range index) then Ok false
    else Ok (u64 (size range - index) >=? size other).

Definition range_overlaps (range other : range) : bool :=
  if range_has_loc range (front other) then true
  else if range_has_loc other (front range) then true else false.

(** lib/util.c *)
Definition index_range_in_bounds (range : range) (bounds : Z) : bool :=
  let '(ok, end_) := range_get_end range in
  if negb ok then false else ordinal_in_bounds end_ bounds.

(** ** Ranges as sets of addresses *)

(** A range that does not run past the end of the address space. *)
Definition range_wf (r : range) : Prop :=
  0 <= front r /\ 0 <= size r /\ front r + size r < 2 ^ 64.
Definition in_range (r : range) (x : Z) : Prop := front r <= x < front r + size r.

#[export] Instance elem_of_range : ElemOf Z range := fun x r => in_range r x.

Lemma range_wf_u r : range_wf r -> in_u 64 (front r) /\ in_u 64 (size r).
Proof. unfold range_wf. unfold_ints. lia. Qed.

Lemma sub_small a b : 0 <= b <= a -> a < 2 ^ 64 -> u64 (a - b) = a - b.
Proof. intros. apply wrap_small. unfold_ints. lia. Qed.

Lemma range_has_loc_iff r x : range_wf r -> in_u 64 x -> range_has_loc r x = true <-> x ∈ r.
Proof.
  unfold range_wf, range_has_loc, elem_of, elem_of_range, in_range. unfold_ints. intros Hr Hx.
  rewrite andb_true_iff, Z.geb_leb, Z.leb_le, Z.ltb_lt. split.
  - intros [H1 H2]. rewrite sub_small in H2 by lia. lia.
  - intros H. rewrite sub_small by lia. lia.
Qed.

Lemma range_has_loc_spec r x : range_wf r -> in_u 64 x ->
  range_has_loc r x = bool_decide (in_range r x).
Proof.
  intros Hr Hx. apply eq_bool_prop_intro. rewrite !Is_true_true, bool_decide_eq_true.
  by apply range_has_loc_iff.
Qed.
