(* ===== verification/PageAlloc.v ===== *)
(** * The physical page allocator

    kernel/mm/page_alloc.c with the parts of kernel/mm/page.h, page.c,
    section.h, section.c, zone.h and arch/x86_64/mm/{types,zone}.[ch] it runs
    on.  A [struct page *] is its page-frame number (its index in the
    vmemmap); the sections and zones are tables and a pointer to one is its
    index.  The intrusive circular lists ([freelist->page_list],
    [zone->section_list], [pageop->delayed_free]) are the sequences they
    hold, in order: [list_add] adds at the front, [list_delete] removes, and
    [list_head] is the first element. *)
From S2P Require Import Prelude CArith.

(** ** Constants of arch/x86_64/mm/types.h *)
Definition PAGE_SHIFT : Z := 12.
Definition PAGE_SIZE : Z := 2 ^ PAGE_SHIFT.
Definition MAX_ORDER : Z := 21.
Definition PAGE_COUNT (size : Z) : Z := size / PAGE_SIZE.

Record largepage_level_info := {
  lp_order : Z;
  lp_largepage_order : Z;
  lp_level : Z;
  lp_is_supported : bool;
  lp_size : Z;
}.

Definition lp_unsupported : largepage_level_info :=
  {| lp_order := 0; lp_largepage_order := 0; lp_level := 0;
     lp_is_supported := false; lp_size := 0 |}.

(** Indexed by level; entries without an initializer are zero. *)
Definition largepage_level_info_list : list largepage_level_info :=
  [ lp_unsupported; lp_unsupported;
    {| lp_order := 9; lp_largepage_order := 0; lp_level := 2;
       lp_is_supported := true; lp_size := 2 ^ 21 |};
    {| lp_order := 18; lp_largepage_order := 1; lp_level := 3;
       lp_is_supported := false; lp_size := 2 ^ 30 |};
    lp_unsupported ].

(** ** Data of kernel/mm/page.h, section.h and zone.h *)
Inductive page_state :=
| PAGE_STATE_FREE_LIST_TAIL
| PAGE_STATE_FREE_LIST_HEAD
| PAGE_STATE_SYSTEM_CRUCIAL
| PAGE_STATE_LRU_CACHE
| PAGE_STATE_SLAB_HEAD
| PAGE_STATE_SLAB_TAIL
| PAGE_STATE_TABLE
| PAGE_STATE_LARGE_HEAD
| PAGE_STATE_LARGE_TAIL
| PAGE_STATE_USED.

#[export] Instance page_state_eq_dec : EqDecision page_state.
Proof. solve_decision. Defined.

(** The union of [struct page]: the constructor is the member last stored. *)
Inductive page_data :=
| Freelist_head (order : Z)
| Freelist_tail (head : Z)
| Slab_head (allocator : option nat) (free_obj_count first_free_index : option Z)
| Slab_tail (allocator : option nat) (head : Z)
| Table_page (refcount : Z)
| Largehead (page_refcount refcount level : Z)
| Largetail (refcount head : Z)
| Used (refcount : Z).

Record page := {
  flags : Z;
  state : page_state;
  section : nat;
  data : page_data;
}.

Record page_freelist := { page_list : list Z; count : Z }.

Record page_section := {
  sec_zone : nat;
  range_front : Z;
  range_size : Z;
  pfn : Z;
  freelist_list : list page_freelist;
  min_order : Z;
  max_order : Z;
  total_free : Z;
}.

Record page_zone := {
  section_list : list nat;
  fallback_zone : option nat;
  zone_total_free : Z;
}.

(** The whole allocator state; [frames] holds the contents of the page frames
    in 64-bit words and [page_end] is [PAGE_END] as a page-frame number. *)
Record mm := {
  pages : gmap Z page;
  frames : gmap Z (list Z);
  sections : list page_section;
  zones : list page_zone;
  page_end : Z;
}.

(** ** Field access *)
Definition set_pages (f : gmap Z page) (st : mm) : mm :=
  {| pages := f; frames := frames st; sections := sections st;
     zones := zones st; page_end := page_end st |}.
Definition set_frames (f : gmap Z (list Z)) (st : mm) : mm :=
  {| pages := pages st; frames := f; sections := sections st;
     zones := zones st; page_end := page_end st |}.
Definition set_sections (f : list page_section) (st : mm) : mm :=
  {| pages := pages st; frames := frames st; sections := f;
     zones := zones st; page_end := page_end st |}.
Definition set_zones (f : list page_zone) (st : mm) : mm :=
  {| pages := pages st; frames := frames st; sections := sections st;
     zones := f; page_end := page_end st |}.

Definition get_page (p : Z) (st : mm) : outcome page := deref (pages st !! p).
Definition get_section (i : nat) (st : mm) : outcome page_section :=
  deref (sections st !! i).
Definition get_zone (z : nat) (st : mm) : outcome page_zone :=
  deref (zones st !! z).

Definition update_page (f : page -> page) (p : Z) (st : mm) : outcome mm :=
  pg ← get_page p st; Ok (set_pages (<[p := f pg]> (pages st)) st).
Definition update_section (f : page_section -> page_section) (i : nat) (st : mm)
  : outcome mm :=
  s ← get_section i st; Ok (set_sections (<[i := f s]> (sections st)) st).
Definition update_zone (f : page_zone -> page_zone) (z : nat) (st : mm) : outcome mm :=
  zn ← get_zone z st; Ok (set_zones (<[z := f zn]> (zones st)) st).

Definition with_state (s : page_state) (pg : page) : page :=
  {| flags := flags pg; state := s; section := section pg; data := data pg |}.
Definition with_data (d : page_data) (pg : page) : page :=
  {| flags := flags pg; state := state pg; section := section pg; data := d |}.

Definition with_freelists (l : list page_freelist) (s : page_section) : page_section :=
  {| sec_zone := sec_zone s; range_front := range_front s; range_size := range_size s;
     pfn := pfn s; freelist_list := l; min_order := min_order s;
     max_order := max_order s; total_free := total_free s |}.
Definition with_min_order (o : Z) (s : page_section) : page_section :=
  {| sec_zone := sec_zone s; range_front := range_front s; range_size := range_size s;
     pfn := pfn s; freelist_list := freelist_list s; min_order := o;
     max_order := max_order s; total_free := total_free s |}.
Definition with_max_order (o : Z) (s : page_section) : page_section :=
  {| sec_zone := sec_zone s; range_front := range_front s; range_size := range_size s;
     pfn := pfn s; freelist_list := freelist_list s; min_order := min_order s;
     max_order := o; total_free := total_free s |}.
Definition with_total_free (n : Z) (s : page_section) : page_section :=
  {| sec_zone := sec_zone s; range_front := range_front s; range_size := range_size s;
     pfn := pfn s; freelist_list := freelist_list s; min_order := min_order s;
     max_order := max_order s; total_free := n |}.
Definition with_zone_total (n : Z) (z : page_zone) : page_zone :=
  {| section_list := section_list z; fallback_zone := fallback_zone z;
     zone_total_free := n |}.

(** ** kernel/mm/page.c, section.c *)
Definition page_get_state (p : Z) (st : mm) : outcome page_state :=
  pg ← get_page p st; Ok (state pg).
Definition page_set_state (p : Z) (s : page_state) (st : mm) : outcome mm :=
  update_page (with_state s) p st.
Definition page_set_data (p : Z) (d : page_data) (st : mm) : outcome mm :=
  update_page (with_data d) p st.
Definition page_to_section (p : Z) (st : mm) : outcome nat :=
  pg ← get_page p st; Ok (section pg).

Definition page_to_phys (p : Z) (st : mm) : outcome Z :=
  c_assert ((0 <=? p) && (p <? page_end st));;
  i ← page_to_section p st;
  s ← get_section i st;
  relative_pfn ← check_sub_assert 64 p (pfn s);
  Ok (u64 (range_front s + u64 (Z.shiftl relative_pfn PAGE_SHIFT))).

(** Stores zero in every word of [count] consecutive frames. *)
Fixpoint zero_frames (n : nat) (p : Z) (fr : gmap Z (list Z)) : gmap Z (list Z) :=
  match n with
  | O => fr
  | S n => zero_frames n (p + 1) (<[p := replicate 512 0]> fr)
  end.
Definition zero_multiple_pages (p count : Z) (st : mm) : outcome mm :=
  check_mul_assert 64 PAGE_SIZE count;;
  Ok (set_frames (zero_frames (Z.to_nat count) p (frames st)) st).
Definition zero_page (p : Z) (st : mm) : outcome mm :=
  Ok (set_frames (zero_frames 1 p (frames st)) st).

(** ** Free lists *)

Definition get_freelist (i : nat) (order : Z) (st : mm) : outcome page_freelist :=
  s ← get_section i st; deref (freelist_list s !! Z.to_nat order).
Definition set_freelist (i : nat) (order : Z) (fl : page_freelist) (st : mm) : outcome mm :=
  update_section (fun s => with_freelists (<[Z.to_nat order := fl]> (freelist_list s)) s) i st.

(** [for (iter = first; iter != first + n; iter++) body(iter)] *)
Fixpoint for_pages (n : nat) (first : Z) (body : Z -> mm -> outcome mm) (st : mm)
  : outcome mm :=
  match n with
  | O => Ok st
  | S n => st ← body first st; for_pages n (first + 1) body st
  end.

Definition freelist_push (i : nat) (order page : Z) (st : mm) : outcome mm :=
  fl ← get_freelist i order st;
  set_freelist i order {| page_list := page :: page_list fl; count := count fl |} st.
Definition freelist_count_incr (i : nat) (order : Z) (st : mm) : outcome mm :=
  fl ← get_freelist i order st;
  set_freelist i order {| page_list := page_list fl; count := u64 (count fl + 1) |} st.

Definition add_to_freelist_order (i : nat) (freelist_order page : Z) (st : mm)
  : outcome mm :=
  st ← page_set_state page PAGE_STATE_FREE_LIST_HEAD st;
  st ← page_set_data page (Freelist_head freelist_order) st;
  st ← freelist_push i freelist_order page st;
  st ← for_pages (Z.to_nat (2 ^ freelist_order - 1)) (page + 1)
         (fun iter st =>
            st ← page_set_state iter PAGE_STATE_FREE_LIST_TAIL st;
            page_set_data iter (Freelist_tail page) st) st;
  s ← get_section i st;
  st ← update_zone (fun z => with_zone_total (u64 (zone_total_free z + 2 ^ freelist_order)) z)
         (sec_zone s) st;
  st ← update_section (fun s => with_total_free (u64 (total_free s + 2 ^ freelist_order)) s) i st;
  freelist_count_incr i freelist_order st.

Definition add_to_freelist_order_from_higher (i : nat) (freelist_order page : Z) (st : mm)
  : outcome mm :=
  st ← page_set_state page PAGE_STATE_FREE_LIST_HEAD st;
  st ← page_set_data page (Freelist_head freelist_order) st;
  st ← freelist_push i freelist_order page st;
  st ← for_pages (Z.to_nat (2 ^ freelist_order - 1)) (page + 1)
         (fun iter st => page_set_data iter (Freelist_tail page) st) st;
  freelist_count_incr i freelist_order st.

Definition early_add_to_freelist_order (i : nat) (freelist_order page : Z) (st : mm)
  : outcome mm :=
  st ← page_set_state page PAGE_STATE_FREE_LIST_HEAD st;
  st ← page_set_data page (Freelist_head freelist_order) st;
  st ← freelist_push i freelist_order page st;
  st ← for_pages (Z.to_nat (2 ^ freelist_order - 1)) (page + 1)
         (fun iter st => page_set_data iter (Freelist_tail page) st) st;
  s ← get_section i st;
  st ← update_zone (fun z => with_zone_total (u64 (zone_total_free z + 2 ^ freelist_order)) z)
         (sec_zone s) st;
  st ← update_section (fun s => with_total_free (u64 (total_free s + 2 ^ freelist_order)) s) i st;
  freelist_count_incr i freelist_order st.

(** The two scans of [take_off_freelist_to_add_later]: the first non-empty
    free list from [o] upwards ([MAX_ORDER] when there is none), and one more
    than the last non-empty one from [o] downwards (0 when there is none). *)
Fixpoint scan_up (fuel : nat) (o : Z) (fls : list page_freelist) : Z :=
  match fuel with
  | O => o
  | S fuel =>
      match fls !! Z.to_nat o with
      | Some fl => if count fl =? 0 then scan_up fuel (o + 1) fls else o
      | None => o
      end
  end.
Fixpoint scan_down (n : nat) (fls : list page_freelist) : Z :=
  match n with
  | O => 0
  | S m =>
      match fls !! m with
      | Some fl => if count fl =? 0 then scan_down m fls else Z.of_nat m + 1
      | None => 0
      end
  end.

Definition reset_orders_if_empty (s : page_section) : page_section :=
  if total_free s =? 0 then with_max_order 0 (with_min_order 0 s) else s.

Definition tighten_orders (freelist_order : Z) (s : page_section) : page_section :=
  match freelist_list s !! Z.to_nat freelist_order with
  | Some fl =>
      if count fl =? 0 then
        let s := if min_order s =? freelist_order
                 then with_min_order (scan_up (Z.to_nat MAX_ORDER) freelist_order (freelist_list s)) s
                 else s in
        if max_order s =? freelist_order
        then with_max_order (scan_down (Z.to_nat freelist_order) (freelist_list s)) s
        else s
      else s
  | None => s
  end.

(** [list_delete] unlinks the page from the list that holds it; a page that is
    in no list (or in the list of another order) has no meaning here. *)
Definition take_off_freelist_to_add_later (i : nat) (freelist_order page : Z) (st : mm)
  : outcome mm :=
  fl ← get_freelist i freelist_order st;
  if decide (page ∈ page_list fl) then
    st ← set_freelist i freelist_order
           {| page_list := list_difference (page_list fl) [page];
              count := u64 (count fl - 1) |} st;
    update_section (fun s => tighten_orders freelist_order (reset_orders_if_empty s)) i st
  else Undef.

Definition take_off_freelist_order (i : nat) (freelist_order page remove_page_order : Z)
    (st : mm) : outcome mm :=
  s ← get_section i st;
  st ← update_zone (fun z => with_zone_total (u64 (zone_total_free z - 2 ^ remove_page_order)) z)
         (sec_zone s) st;
  st ← update_section (fun s => with_total_free (u64 (total_free s - 2 ^ remove_page_order)) s) i st;
  take_off_freelist_to_add_later i freelist_order page st.

Definition get_from_freelist_order (i : nat) (order page_remove_order : Z) (st : mm)
  : outcome (option Z * mm) :=
  fl ← get_freelist i order st;
  if count fl =? 0 then Ok (None, st)
  else
    page ← deref (head (page_list fl));
    st ← take_off_freelist_order i order page page_remove_order st;
    Ok (Some page, st).

(** ** Returning a range of pages *)

(** The first loop of [free_range_of_pages] started at [order = n] (the last
    [int8_t] value is -1), and also its inner loop, which runs with
    [avail > 0]. *)
Fixpoint drop_order (n : nat) (avail : Z) : Z :=
  if avail >=? 2 ^ Z.of_nat n then Z.of_nat n
  else match n with O => -1 | S m => drop_order m avail end.

Definition finish_free_range (order : Z) (s : page_section) : page_section :=
  let s := if min_order s >? order then with_min_order order s else s in
  if max_order s <=? order then with_max_order (order + 1) s else s.

Fixpoint free_range_loop (fuel : nat) (i : nat) (order page avail : Z) (st : mm)
  : outcome mm :=
  match fuel with
  | O => OutOfFuel
  | S fuel =>
      st ← add_to_freelist_order i (u8 order) page st;
      let page_count := 2 ^ order in
      let avail := u64 (avail - page_count) in
      if avail =? 0 then update_section (finish_free_range (u8 order)) i st
      else
        let page := page + page_count in
        let order := drop_order (Z.to_nat order) avail in
        free_range_loop fuel i order page avail st
  end.

(** Every round frees at least one page. *)
Definition free_range_of_pages (page : Z) (i : nat) (amount : Z) (st : mm) : outcome mm :=
  free_range_loop (S (Z.to_nat amount)) i
    (drop_order (Z.to_nat (MAX_ORDER - 1)) amount) page amount st.

(** ** Setting up allocated pages *)
Definition setup_pages_off_freelist (page order : Z) (s : page_state) (st : mm)
  : outcome mm :=
  match s with
  | PAGE_STATE_USED =>
      for_pages (Z.to_nat (2 ^ order)) page (fun _ => page_set_state page s) st
  | PAGE_STATE_SLAB_HEAD =>
      st ← page_set_state page PAGE_STATE_SLAB_HEAD st;
      for_pages (Z.to_nat (2 ^ order - 1)) (page + 1)
        (fun iter st =>
           st ← page_set_state iter PAGE_STATE_SLAB_TAIL st;
           page_set_data iter (Slab_tail None page) st) st
  | PAGE_STATE_TABLE => page_set_state page s st
  | PAGE_STATE_LARGE_HEAD =>
      st ← page_set_state page PAGE_STATE_LARGE_HEAD st;
      for_pages (Z.to_nat (2 ^ order - 1)) (page + 1)
        (fun iter st =>
           st ← page_set_state iter PAGE_STATE_LARGE_TAIL st;
           page_set_data iter (Largetail refcount_init page) st) st
  | _ => Panic
  end.

Definition alloc_zero_flag (alloc_flags : Z) : bool :=
  negb (Z.land alloc_flags 1 =? 0).

Definition setup_alloced_page (page : Z) (s : page_state) (alloc_flags order : Z)
    (largeinfo : option largepage_level_info) (st : mm) : outcome (option Z * mm) :=
  match s with
  | PAGE_STATE_USED =>
      let page_count := 2 ^ order in
      st ← for_pages (Z.to_nat page_count) page
             (fun _ => page_set_data page (Used refcount_init)) st;
      st ← (if alloc_zero_flag alloc_flags
            then zero_multiple_pages page page_count st else Ok st);
      Ok (Some page, st)
  | PAGE_STATE_SLAB_HEAD =>
      st ← zero_multiple_pages page (2 ^ order) st;
      st ← page_set_data page (Slab_head None None None) st;
      Ok (Some page, st)
  | PAGE_STATE_TABLE =>
      st ← zero_page page st;
      st ← page_set_data page (Table_page 0) st;
      Ok (Some page, st)
  | PAGE_STATE_LARGE_HEAD =>
      info ← deref largeinfo;
      st ← page_set_data page (Largehead refcount_init refcount_init (lp_level info)) st;
      st ← (if alloc_zero_flag alloc_flags
            then zero_multiple_pages page (2 ^ order) st else Ok st);
      Ok (Some page, st)
  | _ => Panic
  end.

(** ** Allocation *)

(** Whether [spin_try_acquire_with_irq] succeeds on a section. *)
Abbreviation lock_oracle := (nat -> bool).

(** [for (; alloced_order < max_order; alloced_order++)]: the first order of
    the section that yields a page. *)
Fixpoint take_first_order (fuel : nat) (i : nat) (alloced_order max_order order : Z) (st : mm)
  : outcome (option (Z * Z) * mm) :=
  if alloced_order <? max_order then
    match fuel with
    | O => OutOfFuel
    | S fuel =>
        '(page, st) ← get_from_freelist_order i alloced_order order st;
        match page with
        | Some page => Ok (Some (page, alloced_order), st)
        | None => take_first_order fuel i (alloced_order + 1) max_order order st
        end
    end
  else Ok (None, st).

(** [while (alloced_order > order)]: give the upper halves back. *)
Fixpoint split_block (n : nat) (i : nat) (order page : Z) (st : mm) : outcome mm :=
  match n with
  | O => Ok st
  | S n =>
      let alloced_order := order + Z.of_nat n in
      st ← add_to_freelist_order_from_higher i alloced_order (page + 2 ^ alloced_order) st;
      split_block n i order page st
  end.

Definition finish_alloc (order : Z) (s : page_section) : page_section :=
  let s := if min_order s >? order then with_min_order order s else s in
  if max_order s <=? order then with_max_order (order + 1) s else s.

Fixpoint try_alloc_pages_from_sections (lock : lock_oracle) (order : Z) (s : page_state)
    (secs : list nat) (st : mm) : outcome (option Z * mm) :=
  match secs with
  | [] => Ok (None, st)
  | i :: secs =>
      if negb (lock i) then try_alloc_pages_from_sections lock order s secs st
      else
        sec ← get_section i st;
        let alloced_order := Z.max order (min_order sec) in
        '(found, st) ← take_first_order (Z.to_nat (max_order sec)) i alloced_order
                         (max_order sec) order st;
        match found with
        | None => try_alloc_pages_from_sections lock order s secs st
        | Some (page, alloced_order) =>
            st ← split_block (Z.to_nat (alloced_order - order)) i order page st;
            st ← update_section (finish_alloc order) i st;
            st ← setup_pages_off_freelist page order s st;
            Ok (Some page, st)
        end
  end.

Definition try_alloc_pages_from_zone (lock : lock_oracle) (zone : nat) (order : Z)
    (s : page_state) (st : mm) : outcome (option Z * mm) :=
  z ← get_zone zone st;
  if zone_total_free z <? 2 ^ order then Ok (None, st)
  else try_alloc_pages_from_sections lock order s (section_list z) st.

(** [while (zone != NULL) { ...; zone = zone->fallback_zone; }] *)
Fixpoint walk_zones (fuel : nat) (try : nat -> mm -> outcome (option Z * mm))
    (setup : Z -> mm -> outcome (option Z * mm)) (zone : option nat) (st : mm)
  : outcome (option Z * mm) :=
  match zone with
  | None => Ok (None, st)
  | Some z =>
      match fuel with
      | O => OutOfFuel
      | S fuel =>
          '(page, st) ← try z st;
          match page with
          | Some page => setup page st
          | None => zn ← get_zone z st; walk_zones fuel try setup (fallback_zone zn) st
          end
      end
  end.

(** arch/x86_64/mm/zone.c *)
Definition page_zone_default : nat := 0.
Definition page_zone_low4g : nat := 1.
Definition page_zone_iterstart : nat := page_zone_default.

Definition alloc_pages (lock : lock_oracle) (s : page_state) (alloc_flags order : Z)
    (st : mm) : outcome (option Z * mm) :=
  if order >=? MAX_ORDER then Ok (None, st)
  else
    walk_zones (length (zones st))
      (fun z => try_alloc_pages_from_zone lock z order s)
      (fun page => setup_alloced_page page s alloc_flags order None)
      (Some page_zone_default) st.

Definition alloc_pages_from_zone (lock : lock_oracle) (zone : nat) (s : page_state)
    (alloc_flags order : Z) (fallback : bool) (st : mm) : outcome (option Z * mm) :=
  if order >=? MAX_ORDER then Ok (None, st)
  else
    let try z := try_alloc_pages_from_zone lock z order s in
    let setup page := setup_alloced_page page s alloc_flags order None in
    '(page, st) ← try zone st;
    match page with
    | Some page => setup page st
    | None =>
        if negb fallback then Ok (None, st)
        else
          z ← get_zone zone st;
          walk_zones (length (zones st)) try setup (fallback_zone z) st
    end.

(** ** Large pages *)
Fixpoint find_aligned (align : Z) (l : list Z) (st : mm) : outcome (option Z) :=
  match l with
  | [] => Ok None
  | page :: l =>
      page_phys ← page_to_phys page st;
      a ← has_align page_phys align;
      if (a : bool) then Ok (Some page) else find_aligned align l st
  end.

Definition get_large_from_freelist_order (i : nat) (freelist_order largepage_order : Z)
    (st : mm) : outcome (option Z * mm) :=
  fl ← get_freelist i freelist_order st;
  if count fl =? 0 then Ok (None, st)
  else
    head ← deref (head (page_list fl));
    page_phys ← page_to_phys head st;
    let align := u64 (Z.shiftl PAGE_SIZE largepage_order) in
    if negb (largepage_order =? freelist_order) then
      st ← take_off_freelist_order i freelist_order head freelist_order st;
      aligned ← has_align page_phys align;
      '(page, st) ←
        (if negb aligned then
           r ← align_up page_phys align;
           match r with
           | None => Ok (None, st)
           | Some new_phys =>
               let page := head + PAGE_COUNT (new_phys - page_phys) in
               st ← free_range_of_pages head i (page - head) st;
               Ok (Some page, st)
           end
         else Ok (Some head, st));
      match page with
      | None => Ok (None, st)
      | Some page =>
          st ← setup_pages_off_freelist page largepage_order PAGE_STATE_LARGE_HEAD st;
          let begin := page + 2 ^ largepage_order in
          let endp := head + 2 ^ freelist_order in
          let cnt := u64 (endp - begin) in
          st ← (if negb (cnt =? 0) then free_range_of_pages begin i cnt st else Ok st);
          Ok (Some page, st)
      end
    else
      found ← find_aligned align (page_list fl) st;
      match found with
      | None => Ok (None, st)
      | Some page =>
          st ← take_off_freelist_order i freelist_order page freelist_order st;
          st ← setup_pages_off_freelist page largepage_order PAGE_STATE_LARGE_HEAD st;
          Ok (Some page, st)
      end.

Fixpoint take_first_large (fuel : nat) (i : nat) (alloced_order max_order order : Z) (st : mm)
  : outcome (option Z * mm) :=
  if alloced_order <? max_order then
    match fuel with
    | O => OutOfFuel
    | S fuel =>
        '(page, st) ← get_large_from_freelist_order i alloced_order order st;
        match page with
        | Some page => Ok (Some page, st)
        | None => take_first_large fuel i (alloced_order + 1) max_order order st
        end
    end
  else Ok (None, st).

Fixpoint try_alloc_large_from_sections (lock : lock_oracle) (order : Z)
    (secs : list nat) (st : mm) : outcome (option Z * mm) :=
  match secs with
  | [] => Ok (None, st)
  | i :: secs =>
      if negb (lock i) then try_alloc_large_from_sections lock order secs st
      else
        sec ← get_section i st;
        '(page, st) ← take_first_large (Z.to_nat (max_order sec)) i
                        (Z.max order (min_order sec)) (max_order sec) order st;
        match page with
        | Some page => Ok (Some page, st)
        | None => try_alloc_large_from_sections lock order secs st
        end
  end.

Definition try_alloc_large_page_from_zone (lock : lock_oracle) (zone : nat)
    (info : largepage_level_info) (st : mm) : outcome (option Z * mm) :=
  let order := lp_order info in
  z ← get_zone zone st;
  if zone_total_free z <? 2 ^ order then Ok (None, st)
  else try_alloc_large_from_sections lock order (section_list z) st.

Definition alloc_large_page (lock : lock_oracle) (alloc_flags level : Z) (st : mm)
  : outcome (option Z * mm) :=
  info ← deref (largepage_level_info_list !! Z.to_nat level);
  if negb (lp_is_supported info) then Ok (None, st)
  else
    let order := lp_order info in
    if order >=? MAX_ORDER then Ok (None, st)
    else
      walk_zones (length (zones st))
        (fun z => try_alloc_large_page_from_zone lock z info)
        (fun page => setup_alloced_page page PAGE_STATE_LARGE_HEAD alloc_flags order (Some info))
        (Some page_zone_iterstart) st.

Definition alloc_large_page_from_zone (lock : lock_oracle) (zone : nat)
    (alloc_flags level : Z) (fallback : bool) (st : mm) : outcome (option Z * mm) :=
  info ← deref (largepage_level_info_list !! Z.to_nat level);
  if negb (lp_is_supported info) then Ok (None, st)
  else
    let order := lp_order info in
    if order >=? MAX_ORDER then Ok (None, st)
    else
      let try z := try_alloc_large_page_from_zone lock z info in
      let setup page :=
        setup_alloced_page page PAGE_STATE_LARGE_HEAD alloc_flags order (Some info) in
      '(page, st) ← try zone st;
      match page with
      | Some page => setup page st
      | None =>
          if negb fallback then Ok (None, st)
          else
            z ← get_zone zone st;
            walk_zones (length (zones st)) try setup (fallback_zone z) st
      end.

(** ** Freeing *)

(** The [refcount] member every refcounted union member starts with. *)
Definition refcount_of (d : page_data) : option Z :=
  match d with
  | Table_page r | Largehead r _ _ | Largetail r _ | Used r => Some r
  | _ => None
  end.
Definition with_refcount (r : Z) (d : page_data) : page_data :=
  match d with
  | Table_page _ => Table_page r
  | Largehead _ r' l => Largehead r r' l
  | Largetail _ h => Largetail r h
  | Used _ => Used r
  | d => d
  end.

Definition early_free_pages_from_section (page : Z) (i : nat) (order : Z) (st : mm)
  : outcome mm := early_add_to_freelist_order i order page st.

Definition freelist_tail_head (p : Z) (st : mm) : outcome Z :=
  pg ← get_page p st;
  match data pg with Freelist_tail h => Ok h | _ => Undef end.
Definition freelist_head_order (p : Z) (st : mm) : outcome Z :=
  pg ← get_page p st;
  match data pg with Freelist_head o => Ok o | _ => Undef end.

(** The merge with the free block that ends just below [page]. *)
Definition merge_below (i : nat) (page amount : Z) (st : mm) : outcome (Z * Z * mm) :=
  prev_state ← page_get_state (page - 1) st;
  match prev_state with
  | PAGE_STATE_FREE_LIST_TAIL =>
      free_page ← freelist_tail_head (page - 1) st;
      let amount := u64 (amount + u64 (page - free_page)) in
      order ← freelist_head_order free_page st;
      st ← take_off_freelist_to_add_later i order free_page st;
      Ok (free_page, amount, st)
  | PAGE_STATE_FREE_LIST_HEAD =>
      let free_page := page - 1 in
      let amount := u64 (amount + 1) in
      order ← freelist_head_order free_page st;
      st ← take_off_freelist_to_add_later i order free_page st;
      Ok (free_page, amount, st)
  | _ => Ok (page, amount, st)
  end.

(** The merge with the free block that starts at [end_page]. *)
Definition merge_above (i : nat) (free_page amount : Z) (st : mm) : outcome (Z * mm) :=
  let end_page := free_page + amount in
  if end_page <? page_end st then
    s ← page_get_state end_page st;
    match s with
    | PAGE_STATE_FREE_LIST_HEAD =>
        order ← freelist_head_order end_page st;
        st ← take_off_freelist_to_add_later i order end_page st;
        Ok (u64 (amount + 2 ^ order), st)
    | _ => Ok (amount, st)
    end
  else Ok (amount, st).

Definition free_amount_of_pages (page amount : Z) (st : mm) : outcome mm :=
  i ← page_to_section page st;
  s ← get_section i st;
  let page_pfn := u64 (page - pfn s) in
  '(free_page, amount, st) ←
    (if negb (page_pfn =? 0) then merge_below i page amount st else Ok (page, amount, st));
  '(amount, st) ← merge_above i free_page amount st;
  free_range_of_pages free_page i amount st.

(** [ref_down(&p->largehead.page_refcount)] *)
Definition page_ref_down (p : Z) (st : mm) : outcome (bool * mm) :=
  pg ← get_page p st;
  r ← deref (refcount_of (data pg));
  '(zero, r) ← ref_down r;
  st ← page_set_data p (with_refcount r (data pg)) st;
  Ok (zero, st).

(** The inner loop of [free_large_page]: how far the run of pages whose count
    drops to zero goes. *)
Fixpoint large_run (n : nat) (iter : Z) (st : mm) : outcome (Z * mm) :=
  match n with
  | O => Ok (iter, st)
  | S n =>
      '(zero, st) ← page_ref_down iter st;
      if negb zero then Ok (iter, st) else large_run n (iter + 1) st
  end.

Fixpoint free_large_loop (fuel : nat) (page endp : Z) (st : mm) : outcome mm :=
  if page <? endp then
    match fuel with
    | O => OutOfFuel
    | S fuel =>
        '(zero, st) ← page_ref_down page st;
        if negb zero then free_large_loop fuel (page + 1) endp st
        else
          '(iter, st) ← large_run (Z.to_nat (endp - (page + 1))) (page + 1) st;
          st ← free_amount_of_pages page (iter - page) st;
          free_large_loop fuel (iter + 1) endp st
    end
  else Ok st.

Definition free_large_page (head : Z) (st : mm) : outcome mm :=
  s ← page_get_state head st;
  c_assert (bool_decide (s = PAGE_STATE_LARGE_HEAD));;
  pg ← get_page head st;
  level ← (match data pg with Largehead _ _ l => Ok l | _ => Undef end);
  info ← deref (largepage_level_info_list !! Z.to_nat level);
  let page_count := 2 ^ lp_order info in
  free_large_loop (Z.to_nat page_count) head (head + page_count) st.

Definition free_pages (page order : Z) (st : mm) : outcome mm :=
  if order >=? MAX_ORDER then Ok st
  else
    s ← page_get_state page st;
    if decide (s = PAGE_STATE_LARGE_HEAD) then
      if negb (order =? 0) then Ok st else free_large_page page st
    else free_amount_of_pages page order st.

(** [pageop->delayed_free] is threaded as a sequence of pages. *)
Definition deref_page (page : Z) (delayed_free : list Z) (st : mm)
  : outcome (option Z * list Z * mm) :=
  s ← page_get_state page st;
  c_assert (negb (bool_decide (s = PAGE_STATE_LARGE_HEAD)));;
  '(zero, st) ← page_ref_down page st;
  if (zero : bool) then Ok (None, page :: delayed_free, st)
  else Ok (Some page, delayed_free, st).

Fixpoint deref_pages (n : nat) (iter : Z) (delayed_free : list Z) (st : mm)
  : outcome (list Z * mm) :=
  match n with
  | O => Ok (delayed_free, st)
  | S n =>
      '(_, delayed_free, st) ← deref_page iter delayed_free st;
      deref_pages n (iter + 1) delayed_free st
  end.

Definition deref_large_page (page : Z) (delayed_free : list Z) (level : Z) (st : mm)
  : outcome (option Z * list Z * mm) :=
  s ← page_get_state page st;
  if decide (s = PAGE_STATE_LARGE_HEAD) then
    pg ← get_page page st;
    match data pg with
    | Largehead pr r l =>
        '(zero, r) ← ref_down r;
        st ← page_set_data page (Largehead pr r l) st;
        if (zero : bool) then Ok (None, page :: delayed_free, st)
        else Ok (Some page, delayed_free, st)
    | _ => Undef
    end
  else
    info ← deref (largepage_level_info_list !! Z.to_nat level);
    '(delayed_free, st) ← deref_pages (Z.to_nat (2 ^ lp_order info)) page delayed_free st;
    Ok (None, delayed_free, st).

Definition alloc_table (lock : lock_oracle) (st : mm) : outcome (option Z * mm) :=
  alloc_pages lock PAGE_STATE_TABLE 1 0 st.
