(* ===== verification/PageBlocks.v ===== *)
(** * Free lists of the page allocator as sets of blocks

    The blocks a section's free lists hold, the pages those blocks cover, the
    well-formedness of the lists and of the vmemmap entries that describe them
    ([lists_wf], [blocks_wf]), and what the list operations of PageAlloc.v do
    to them, each in closed form. *)
From S2P Require Import Prelude CArith PageAlloc.

(** ** Vmemmap updates over a range of pages *)
Fixpoint upd_range (f : Z -> page -> page) (n : nat) (p : Z) (m : gmap Z page) : gmap Z page :=
  match n with
  | O => m
  | S n => upd_range f n (p + 1) (alter (f p) p m)
  end.

Lemma lookup_upd_range f n p m q :
  upd_range f n p m !! q =
    if decide (p <= q < p + Z.of_nat n) then f q <$> m !! q else m !! q.
Proof.
  revert p m. induction n as [|n IH]; intros p m; simpl.
  - case_decide; [lia|done].
  - rewrite IH. destruct (decide (p = q)) as [->|Hne].
    + rewrite lookup_alter_eq. repeat case_decide; first [lia|done].
    + rewrite lookup_alter_ne by done. repeat case_decide; first [lia|done].
Qed.

Lemma update_page_ok f p st :
  is_Some (pages st !! p) -> update_page f p st = Ok (set_pages (alter f p (pages st)) st).
Proof.
  intros [pg Hpg]. unfold update_page, get_page. rewrite Hpg. simpl. do 2 f_equal.
  apply map_eq. intros q. destruct (decide (p = q)) as [->|].
  - by rewrite lookup_insert_eq, lookup_alter_eq, Hpg.
  - by rewrite lookup_insert_ne, lookup_alter_ne.
Qed.

Lemma set_pages_set_pages m m' st : set_pages m (set_pages m' st) = set_pages m st.
Proof. done. Qed.

Lemma set_pages_id st : set_pages (pages st) st = st.
Proof. by destruct st. Qed.

Lemma update_page_compose f g p st :
  (st' ← update_page f p st; update_page g p st') = update_page (fun pg => g (f pg)) p st.
Proof.
  unfold update_page, get_page. destruct (pages st !! p) as [pg|]; simpl; [|done].
  rewrite lookup_insert_eq. simpl. by rewrite insert_insert_eq.
Qed.

Lemma for_pages_upd body f n p st :
  (forall q st, body q st = update_page (f q) q st) ->
  (forall q, p <= q < p + Z.of_nat n -> is_Some (pages st !! q)) ->
  for_pages n p body st = Ok (set_pages (upd_range f n p (pages st)) st).
Proof.
  intros Hb. revert p st. induction n as [|n IH]; intros p st Hm; simpl.
  - by rewrite set_pages_id.
  - rewrite Hb, update_page_ok by (apply Hm; lia). simpl.
    rewrite IH; [done|]. intros q Hq. simpl.
    destruct (decide (p = q)) as [->|]; [lia|].
    rewrite lookup_alter_ne by done. apply Hm. lia.
Qed.

(** The same body run on one page over and over. *)
Lemma for_pages_const body f n p page st :
  (forall q st, body q st = update_page f page st) ->
  (forall pg, f (f pg) = f pg) ->
  is_Some (pages st !! page) -> (0 < n)%nat ->
  for_pages n p body st = Ok (set_pages (alter f page (pages st)) st).
Proof.
  intros Hb Hid. revert p st. induction n as [|n IH]; intros p st Hm Hn; [lia|]. simpl.
  rewrite Hb, update_page_ok by done. simpl.
  destruct n as [|n]; [done|].
  rewrite IH; [|by simpl; rewrite lookup_alter_eq; apply fmap_is_Some|lia].
  simpl. rewrite set_pages_set_pages. do 2 f_equal. apply map_eq. intros q.
  destruct (decide (page = q)) as [->|].
  - rewrite !lookup_alter_eq. destruct (pages st !! q); simpl; by rewrite ?Hid.
  - by rewrite !lookup_alter_ne.
Qed.

(** ** Blocks on the free lists *)
Definition block (s : page_section) (o p : Z) : Prop :=
  0 <= o /\ exists fl, freelist_list s !! Z.to_nat o = Some fl /\ p ∈ page_list fl.
Definition in_block (o p q : Z) : Prop := p <= q < p + 2 ^ o.
Definition free_page (s : page_section) (q : Z) : Prop :=
  exists o p, block s o p /\ in_block o p q.

Definition npages (s : page_section) : Z := PAGE_COUNT (range_size s).
Definition in_section (s : page_section) (q : Z) : Prop :=
  pfn s <= q < pfn s + npages s.

(** The number of pages on the lists, the list at the head having order [o]. *)
Fixpoint total_from (o : Z) (fls : list page_freelist) : Z :=
  match fls with
  | [] => 0
  | fl :: fls => 2 ^ o * Z.of_nat (length (page_list fl)) + total_from (o + 1) fls
  end.
Definition total_of (s : page_section) : Z := total_from 0 (freelist_list s).

Record lists_wf (s : page_section) : Prop := {
  lw_len : length (freelist_list s) = Z.to_nat MAX_ORDER;
  lw_nodup : forall k fl, freelist_list s !! k = Some fl -> NoDup (page_list fl);
  lw_count : forall k fl, freelist_list s !! k = Some fl ->
    count fl = Z.of_nat (length (page_list fl));
  lw_range : forall o p, block s o p -> pfn s <= p /\ p + 2 ^ o <= pfn s + npages s;
  lw_disj : forall o p o' p' q, block s o p -> block s o' p' ->
    in_block o p q -> in_block o' p' q -> o = o' /\ p = p';
}.

Lemma block_order s o p : lists_wf s -> block s o p -> 0 <= o < MAX_ORDER.
Proof.
  intros Hwf [Ho (fl & Hl & _)]. apply lookup_lt_Some in Hl.
  rewrite (lw_len s Hwf) in Hl. lia.
Qed.

(** *** The pigeonhole bound: the lists hold no more pages than the section. *)
Definition flat (o : Z) (fls : list page_freelist) : list (Z * Z) :=
  concat (imap (fun k fl => (fun p => (o + Z.of_nat k, p)) <$> page_list fl) fls).

Lemma flat_cons o fl fls :
  flat o (fl :: fls) = ((fun p => (o, p)) <$> page_list fl) ++ flat (o + 1) fls.
Proof.
  unfold flat. simpl. f_equal.
  - apply list_fmap_ext. intros ? ? _. f_equal. lia.
  - f_equal. apply imap_ext. intros k x _. simpl. apply list_fmap_ext.
    intros ? ? _. f_equal. lia.
Qed.

Lemma elem_of_flat o fls o' p :
  (o', p) ∈ flat o fls <->
  o <= o' /\ exists fl, fls !! Z.to_nat (o' - o) = Some fl /\ p ∈ page_list fl.
Proof.
  revert o. induction fls as [|fl fls IH]; intros o.
  - unfold flat. simpl. rewrite elem_of_nil. split; [done|]. by intros [_ (? & ? & _)].
  - rewrite flat_cons, elem_of_app, list_elem_of_fmap, IH. split.
    + intros [(x & [= -> ->] & Hx)|(Ho & f & Hf & Hp)].
      * split; [lia|]. rewrite Z.sub_diag. eauto.
      * split; [lia|]. exists f.
        replace (Z.to_nat (o' - o)) with (S (Z.to_nat (o' - (o + 1)))) by lia. done.
    + intros [Ho (f & Hf & Hp)]. destruct (decide (o' = o)) as [->|].
      * left. rewrite Z.sub_diag in Hf. simplify_eq/=. eauto.
      * right. split; [lia|]. exists f.
        replace (Z.to_nat (o' - o)) with (S (Z.to_nat (o' - (o + 1)))) in Hf by lia. done.
Qed.

Lemma NoDup_flat o fls :
  (forall k fl, fls !! k = Some fl -> NoDup (page_list fl)) -> NoDup (flat o fls).
Proof.
  revert o. induction fls as [|fl fls IH]; intros o H.
  - apply NoDup_nil_2.
  - rewrite flat_cons. apply NoDup_app. split_and!.
    + apply (NoDup_fmap_2 _). apply (H 0%nat). done.
    + intros [o' p] (x & [= -> ->] & _)%list_elem_of_fmap [? _]%elem_of_flat. lia.
    + apply IH. intros k f Hk. by apply (H (S k)).
Qed.

Fixpoint sum_sizes (l : list (Z * Z)) : Z :=
  match l with [] => 0 | (o, _) :: l => 2 ^ o + sum_sizes l end.

Lemma sum_sizes_app l l' : sum_sizes (l ++ l') = sum_sizes l + sum_sizes l'.
Proof. induction l as [|[o p] l IH]; simpl; lia. Qed.

Lemma sum_sizes_const o l : sum_sizes ((fun p => (o, p)) <$> l) = 2 ^ o * Z.of_nat (length l).
Proof.
  induction l as [|p l IH]; [simpl; lia|]. rewrite fmap_cons. cbn [sum_sizes length].
  rewrite IH. lia.
Qed.

Lemma sum_sizes_flat o fls : sum_sizes (flat o fls) = total_from o fls.
Proof.
  revert o. induction fls as [|fl fls IH]; intros o; [done|].
  by rewrite flat_cons, sum_sizes_app, sum_sizes_const, IH.
Qed.

Lemma sum_sizes_bound (l : list (Z * Z)) (X : gset Z) :
  NoDup l ->
  (forall o p, (o, p) ∈ l -> 0 <= o /\ forall q, in_block o p q -> q ∈ X) ->
  (forall o p o' p' q, (o, p) ∈ l -> (o', p') ∈ l -> in_block o p q -> in_block o' p' q ->
     o = o' /\ p = p') ->
  sum_sizes l <= Z.of_nat (size X).
Proof.
  revert X. induction l as [|[o p] l IH]; intros X Hnd Hin Hdisj; simpl; [lia|].
  apply NoDup_cons in Hnd as [Hni Hnd].
  set (I := list_to_set (seqZ p (2 ^ o)) : gset Z).
  destruct (Hin o p) as [Ho HX]; [left|].
  assert (I ⊆ X) as Hsub.
  { intros q. unfold I. rewrite elem_of_list_to_set, elem_of_seqZ. intros. by apply HX. }
  assert (size I = Z.to_nat (2 ^ o)) as HI.
  { unfold I. rewrite size_list_to_set, length_seqZ; [done|]. apply NoDup_seqZ. }
  pose proof (subseteq_size _ _ Hsub).
  specialize (IH (X ∖ I)). rewrite size_difference in IH by done.
  enough (sum_sizes l <= Z.of_nat (size X - size I)) by (pose proof (pow2_pos o Ho); lia).
  apply IH; [done| |].
  - intros o' p' Hl. destruct (Hin o' p') as [Ho' HX']; [by right|]. split; [done|].
    intros q Hq. apply elem_of_difference. split; [by apply HX'|].
    unfold I. rewrite elem_of_list_to_set, elem_of_seqZ. intros Hq'.
    destruct (Hdisj o p o' p' q) as [-> ->]; [by left|by right|done|done|done].
  - intros ????? Ha Hb. apply Hdisj; by right.
Qed.

Lemma block_flat s o p : block s o p <-> (o, p) ∈ flat 0 (freelist_list s).
Proof. rewrite elem_of_flat, Z.sub_0_r. done. Qed.

Lemma total_bound s : lists_wf s -> 0 <= npages s -> total_of s <= npages s.
Proof.
  intros Hwf Hn. unfold total_of. rewrite <- sum_sizes_flat.
  etrans; [apply (sum_sizes_bound _ (list_to_set (seqZ (pfn s) (npages s))))|].
  - apply NoDup_flat, (lw_nodup s Hwf).
  - intros o p Hb%block_flat. split; [apply Hb|]. intros q Hq.
    rewrite elem_of_list_to_set, elem_of_seqZ.
    pose proof (lw_range s Hwf o p Hb). unfold in_block in Hq. lia.
  - intros ????? ?%block_flat ?%block_flat. by apply (lw_disj s Hwf).
  - rewrite size_list_to_set by apply NoDup_seqZ. rewrite length_seqZ. lia.
Qed.

Lemma total_from_nonneg o fls : 0 <= o -> 0 <= total_from o fls.
Proof.
  revert o. induction fls as [|fl fls IH]; intros o Ho; simpl; [lia|].
  specialize (IH (o + 1) ltac:(lia)). pose proof (pow2_pos o Ho). nia.
Qed.

Lemma total_from_insert o fls k fl fl' : fls !! k = Some fl ->
  total_from o (<[k := fl']> fls) =
  total_from o fls + 2 ^ (o + Z.of_nat k) *
    (Z.of_nat (length (page_list fl')) - Z.of_nat (length (page_list fl))).
Proof.
  revert o k. induction fls as [|f fls IH]; intros o k Hk; [done|].
  destruct k as [|k]; simplify_eq/=.
  - rewrite Z.add_0_r. lia.
  - rewrite IH by done. replace (o + 1 + Z.of_nat k) with (o + Z.of_nat (S k)) by lia. lia.
Qed.

Lemma total_from_ge o fls k fl : 0 <= o -> fls !! k = Some fl ->
  2 ^ (o + Z.of_nat k) * Z.of_nat (length (page_list fl)) <= total_from o fls.
Proof.
  revert o k. induction fls as [|f fls IH]; intros o k Ho Hk; [done|].
  destruct k as [|k]; simplify_eq/=.
  - rewrite Z.add_0_r. pose proof (total_from_nonneg (o + 1) fls ltac:(lia)). lia.
  - specialize (IH (o + 1) k ltac:(lia) Hk).
    replace (o + 1 + Z.of_nat k) with (o + Z.of_nat (S k)) in IH by lia.
    pose proof (pow2_pos o Ho). nia.
Qed.


(** ** Putting a block on a list and taking it off *)
Definition push_block (o p : Z) (s : page_section) : page_section :=
  with_freelists (alter (fun fl => {| page_list := p :: page_list fl;
                                      count := u64 (count fl + 1) |})
                    (Z.to_nat o) (freelist_list s)) s.
Definition drop_block (o p : Z) (s : page_section) : page_section :=
  with_freelists (alter (fun fl => {| page_list := list_difference (page_list fl) [p];
                                      count := u64 (count fl - 1) |})
                    (Z.to_nat o) (freelist_list s)) s.

(** Sections that agree on the lists and on the range they cover. *)
Record same_lists (s s' : page_section) : Prop := {
  sl_lists : freelist_list s' = freelist_list s;
  sl_pfn : pfn s' = pfn s;
  sl_size : range_size s' = range_size s;
}.

Lemma same_lists_refl s : same_lists s s.
Proof. by split. Qed.

Lemma same_lists_tighten o s : same_lists s (tighten_orders o (reset_orders_if_empty s)).
Proof. unfold tighten_orders, reset_orders_if_empty. repeat case_match; done. Qed.

Lemma same_lists_finish_alloc o s : same_lists s (finish_alloc o s).
Proof. unfold finish_alloc. repeat case_match; done. Qed.

Lemma same_lists_finish_free o s : same_lists s (finish_free_range o s).
Proof. unfold finish_free_range. repeat case_match; done. Qed.

Lemma same_lists_block s s' o p : same_lists s s' -> block s' o p <-> block s o p.
Proof. intros [E _ _]. unfold block. by rewrite E. Qed.

Lemma same_lists_free_page s s' q : same_lists s s' -> free_page s' q <-> free_page s q.
Proof. intros H. unfold free_page. by setoid_rewrite (same_lists_block s s' _ _ H). Qed.

Lemma same_lists_npages s s' : same_lists s s' -> npages s' = npages s.
Proof. intros [_ _ E]. unfold npages. by rewrite E. Qed.

Lemma same_lists_total s s' : same_lists s s' -> total_of s' = total_of s.
Proof. intros [E _ _]. unfold total_of. by rewrite E. Qed.

Lemma same_lists_wf s s' : same_lists s s' -> lists_wf s -> lists_wf s'.
Proof.
  intros E [H1 H2 H3 H4 H5]. pose proof E as [El Ep Es]. split.
  - by rewrite El.
  - rewrite El. apply H2.
  - rewrite El. apply H3.
  - intros o p Hb%(same_lists_block _ _ _ _ E). rewrite Ep, (same_lists_npages _ _ E). by apply H4.
  - intros ????? ?%(same_lists_block _ _ _ _ E) ?%(same_lists_block _ _ _ _ E). by apply H5.
Qed.

(** A free list holds no more blocks than the section has pages. *)
Lemma list_bound s k fl : lists_wf s -> 0 <= npages s ->
  freelist_list s !! k = Some fl -> Z.of_nat (length (page_list fl)) <= npages s.
Proof.
  intros Hwf Hn Hl. pose proof (total_bound s Hwf Hn).
  pose proof (total_from_ge 0 (freelist_list s) k fl ltac:(lia) Hl).
  pose proof (pow2_pos (0 + Z.of_nat k) ltac:(lia)). unfold total_of in *. nia.
Qed.

Lemma lookup_freelist s o : lists_wf s -> 0 <= o < MAX_ORDER ->
  exists fl, freelist_list s !! Z.to_nat o = Some fl.
Proof.
  intros Hwf Ho. destruct (freelist_list s !! Z.to_nat o) eqn:E; [eauto|].
  apply lookup_ge_None in E. rewrite (lw_len s Hwf) in E. lia.
Qed.

Lemma block_list s o p fl : freelist_list s !! Z.to_nat o = Some fl ->
  0 <= o -> block s o p <-> p ∈ page_list fl.
Proof. intros Hl Ho. unfold block. rewrite Hl. naive_solver. Qed.

(** What changing the list of order [o] does to the set of blocks. *)
Lemma block_alter s o f fl o' p' : freelist_list s !! Z.to_nat o = Some fl -> 0 <= o ->
  block (with_freelists (alter f (Z.to_nat o) (freelist_list s)) s) o' p' <->
  (o' = o /\ p' ∈ page_list (f fl)) \/ (o' <> o /\ block s o' p').
Proof.
  intros Hl Ho. unfold block. simpl. destruct (decide (o' = o)) as [->|Hne].
  - rewrite list_lookup_alter_eq, Hl. naive_solver.
  - split.
    + intros (? & fl' & Hfl & ?). rewrite list_lookup_alter_ne in Hfl by lia. eauto 10.
    + intros [[??]|(_ & ? & fl' & ? & ?)]; [done|].
      split; [done|]. exists fl'. by rewrite list_lookup_alter_ne by lia.
Qed.

Lemma block_push s o p o' p' : lists_wf s -> 0 <= o < MAX_ORDER ->
  block (push_block o p s) o' p' <-> (o' = o /\ p' = p) \/ block s o' p'.
Proof.
  intros Hwf Ho. destruct (lookup_freelist s o Hwf Ho) as [fl Hl].
  unfold push_block. rewrite (block_alter _ _ _ fl) by (done || lia). simpl.
  rewrite elem_of_cons. destruct (decide (o' = o)) as [->|].
  - rewrite (block_list _ _ _ fl) by (done || lia). naive_solver.
  - naive_solver.
Qed.

Lemma block_drop s o p o' p' : lists_wf s -> 0 <= o < MAX_ORDER ->
  block (drop_block o p s) o' p' <-> block s o' p' /\ ~ (o' = o /\ p' = p).
Proof.
  intros Hwf Ho. destruct (lookup_freelist s o Hwf Ho) as [fl Hl].
  unfold drop_block. rewrite (block_alter _ _ _ fl) by (done || lia). simpl.
  rewrite list_elem_of_difference, elem_of_cons, elem_of_nil.
  destruct (decide (o' = o)) as [->|].
  - rewrite (block_list _ _ _ fl) by (done || lia). naive_solver.
  - naive_solver.
Qed.

Lemma total_alter s o f fl : freelist_list s !! Z.to_nat o = Some fl -> 0 <= o ->
  total_of (with_freelists (alter f (Z.to_nat o) (freelist_list s)) s) =
  total_of s + 2 ^ o *
    (Z.of_nat (length (page_list (f fl))) - Z.of_nat (length (page_list fl))).
Proof.
  intros Hl Ho. unfold total_of. simpl.
  rewrite (list_alter_lookup _ _ _ fl), (total_from_insert _ _ _ fl) by done.
  by rewrite Z.add_0_l, Z2Nat.id by lia.
Qed.

Lemma total_push s o p : lists_wf s -> 0 <= o < MAX_ORDER ->
  total_of (push_block o p s) = total_of s + 2 ^ o.
Proof.
  intros Hwf Ho. destruct (lookup_freelist s o Hwf Ho) as [fl Hl].
  unfold push_block. rewrite (total_alter _ _ _ fl) by (done || lia).
  cbn [page_list length]. lia.
Qed.

Lemma difference_notin (l : list Z) p : p ∉ l -> list_difference l [p] = l.
Proof.
  induction l as [|y l IH]; intros Hp; [done|]. simpl.
  apply not_elem_of_cons in Hp as [Hne Hp].
  destruct (decide_rel elem_of y [p]) as [E|E]; [by apply list_elem_of_singleton in E|].
  by rewrite IH.
Qed.

Lemma difference_cons_length (l : list Z) p : NoDup l -> p ∈ l ->
  Z.of_nat (length (list_difference l [p])) = Z.of_nat (length l) - 1.
Proof.
  induction l as [|x l IH]; intros Hnd Hp; [by apply elem_of_nil in Hp|].
  apply NoDup_cons in Hnd as [Hx Hnd]. simpl.
  destruct (decide_rel elem_of x [p]) as [E|E].
  - apply list_elem_of_singleton in E as ->.
    rewrite difference_notin by done. cbn [length]. lia.
  - cbn [length]. apply elem_of_cons in Hp as [->|Hp]; [exfalso; apply E; left|].
    specialize (IH Hnd Hp). lia.
Qed.

Lemma total_drop s o p : lists_wf s -> block s o p ->
  total_of (drop_block o p s) = total_of s - 2 ^ o.
Proof.
  intros Hwf Hb. pose proof (block_order s o p Hwf Hb) as Ho.
  destruct (lookup_freelist s o Hwf Ho) as [fl Hl].
  apply (block_list _ _ _ fl Hl) in Hb; [|lia].
  unfold drop_block. rewrite (total_alter _ _ _ fl) by (done || lia). cbn [page_list].
  rewrite difference_cons_length; [lia| |done]. by apply (lw_nodup s Hwf _ _ Hl).
Qed.

Lemma lists_wf_push s o p : lists_wf s -> 0 <= npages s <= 2 ^ 52 -> 0 <= o < MAX_ORDER ->
  pfn s <= p -> p + 2 ^ o <= pfn s + npages s ->
  (forall q, in_block o p q -> ~ free_page s q) ->
  lists_wf (push_block o p s).
Proof.
  intros Hwf Hn Ho Hlo Hhi Hfree. pose proof (pow2_pos o ltac:(lia)) as Hpos.
  assert (~ block s o p) as Hnb.
  { intros Hb. apply (Hfree p); [unfold in_block; lia|]. exists o, p. unfold in_block. auto with lia. }
  split.
  - simpl. rewrite length_alter. apply (lw_len s Hwf).
  - intros k fl. simpl. destruct (decide (k = Z.to_nat o)) as [->|].
    + rewrite list_lookup_alter_eq. destruct (freelist_list s !! Z.to_nat o) as [f|] eqn:Hl; simpl; [|done].
      intros [= <-]. simpl. apply NoDup_cons. split; [|by apply (lw_nodup s Hwf _ _ Hl)].
      rewrite <- (block_list s o p f) by (done || lia). done.
    + rewrite list_lookup_alter_ne by done. apply (lw_nodup s Hwf).
  - intros k fl. simpl. destruct (decide (k = Z.to_nat o)) as [->|].
    + rewrite list_lookup_alter_eq. destruct (freelist_list s !! Z.to_nat o) as [f|] eqn:Hl; simpl; [|done].
      intros [= <-]. simpl. rewrite (lw_count s Hwf _ _ Hl).
      pose proof (list_bound s _ _ Hwf (proj1 Hn) Hl).
      rewrite wrap_small by (unfold_ints; lia). lia.
    + rewrite list_lookup_alter_ne by done. apply (lw_count s Hwf).
  - intros o' p' [[-> ->]|Hb]%(block_push s) ; try done. by apply (lw_range s Hwf).
  - assert (forall o' p' q, block s o' p' -> in_block o' p' q -> in_block o p q -> False) as Hd.
    { intros o' p' q Hb Hin Hin'. apply (Hfree q Hin'). by exists o', p'. }
    intros o1 p1 o2 p2 q [[-> ->]|Hb1]%(block_push s) [[-> ->]|Hb2]%(block_push s) Hi1 Hi2;
      try done.
    + exfalso. by eapply Hd.
    + exfalso. by eapply Hd.
    + by apply (lw_disj s Hwf _ _ _ _ q).
Qed.

Lemma lists_wf_drop s o p : lists_wf s -> 0 <= npages s <= 2 ^ 52 -> block s o p ->
  lists_wf (drop_block o p s).
Proof.
  intros Hwf Hn Hb. pose proof (block_order s o p Hwf Hb) as Ho. split.
  - simpl. rewrite length_alter. apply (lw_len s Hwf).
  - intros k fl. simpl. destruct (decide (k = Z.to_nat o)) as [->|].
    + rewrite list_lookup_alter_eq. destruct (freelist_list s !! Z.to_nat o) as [f|] eqn:Hl; simpl; [|done].
      intros [= <-]. simpl. apply NoDup_list_difference, (lw_nodup s Hwf _ _ Hl).
    + rewrite list_lookup_alter_ne by done. apply (lw_nodup s Hwf).
  - intros k fl. simpl. destruct (decide (k = Z.to_nat o)) as [->|].
    + rewrite list_lookup_alter_eq. destruct (freelist_list s !! Z.to_nat o) as [f|] eqn:Hl; simpl; [|done].
      intros [= <-]. simpl. rewrite (lw_count s Hwf _ _ Hl).
      pose proof (list_bound s _ _ Hwf (proj1 Hn) Hl).
      apply (block_list _ _ _ _ Hl) in Hb; [|lia].
      pose proof (difference_cons_length _ _ (lw_nodup s Hwf _ _ Hl) Hb).
      rewrite wrap_small by (unfold_ints; lia). lia.
    + rewrite list_lookup_alter_ne by done. apply (lw_count s Hwf).
  - intros o' p' [Hb' _]%(block_drop s); [|done..]. by apply (lw_range s Hwf).
  - intros o1 p1 o2 p2 q [Hb1 _]%(block_drop s) [Hb2 _]%(block_drop s); try done.
    by apply (lw_disj s Hwf).
Qed.

(** ** Blocks and the vmemmap entries that describe them *)
Definition page_is (m : gmap Z page) (q : Z) (s : page_state) (d : page_data) : Prop :=
  exists pg, m !! q = Some pg /\ state pg = s /\ data pg = d.

Definition marked (m : gmap Z page) (o p : Z) : Prop :=
  page_is m p PAGE_STATE_FREE_LIST_HEAD (Freelist_head o) /\
  forall q, p < q < p + 2 ^ o -> page_is m q PAGE_STATE_FREE_LIST_TAIL (Freelist_tail p).

(** The state of a vmemmap entry, whatever its union holds. *)
Definition has_state (m : gmap Z page) (q : Z) (s : page_state) : Prop :=
  exists pg, m !! q = Some pg /\ state pg = s.

Record blocks_wf (m : gmap Z page) (s : page_section) : Prop := {
  bw_lists : lists_wf s;
  bw_marks : forall o p, block s o p -> marked m o p;
  bw_mapped : forall q, in_section s q -> is_Some (m !! q);
  bw_size : 0 <= npages s <= 2 ^ 52;
}.

Lemma marked_ext m m' o p : 0 <= o ->
  (forall q, in_block o p q -> m' !! q = m !! q) -> marked m o p -> marked m' o p.
Proof.
  intros Ho E [H1 H2]. pose proof (pow2_pos o Ho). unfold marked, page_is in *. split.
  - rewrite E by (unfold in_block; lia). done.
  - intros q Hq. rewrite E by (unfold in_block; lia). by apply H2.
Qed.

Lemma block_in_section m s o p q : blocks_wf m s -> block s o p -> in_block o p q ->
  in_section s q.
Proof.
  intros Hwf Hb Hq. pose proof (lw_range s (bw_lists m s Hwf) o p Hb).
  unfold in_block, in_section in *. lia.
Qed.

Lemma free_in_section m s q : blocks_wf m s -> free_page s q -> in_section s q.
Proof. intros Hwf (o & p & Hb & Hq). by apply (block_in_section m s o p). Qed.

Lemma blocks_wf_ext m s s' : same_lists s s' -> blocks_wf m s -> blocks_wf m s'.
Proof.
  intros E [H1 H2 H3 H4]. split.
  - by apply (same_lists_wf s).
  - intros o p Hb%(same_lists_block _ _ _ _ E). by apply H2.
  - intros q. unfold in_section. rewrite (sl_pfn _ _ E), (same_lists_npages _ _ E). apply H3.
  - by rewrite (same_lists_npages _ _ E).
Qed.

(** Changing entries that belong to no block. *)
Lemma blocks_wf_pages m m' s :
  (forall q, free_page s q -> m' !! q = m !! q) ->
  (forall q, is_Some (m !! q) -> is_Some (m' !! q)) ->
  blocks_wf m s -> blocks_wf m' s.
Proof.
  intros E Hd [H1 H2 H3 H4]. split; [done| |by eauto|done].
  intros o p Hb. apply (marked_ext m); [by apply (block_order s o p)| |by apply H2].
  intros q Hq. apply E. by exists o, p.
Qed.

Lemma blocks_wf_push m m' s o p : blocks_wf m s -> 0 <= o < MAX_ORDER ->
  pfn s <= p -> p + 2 ^ o <= pfn s + npages s ->
  (forall q, in_block o p q -> ~ free_page s q) ->
  marked m' o p ->
  (forall q, ~ in_block o p q -> m' !! q = m !! q) ->
  blocks_wf m' (push_block o p s).
Proof.
  intros Hwf Ho Hlo Hhi Hfree Hm E.
  pose proof (bw_lists m s Hwf) as Hl. split.
  - apply lists_wf_push; try done. apply (bw_size m s Hwf).
  - intros o' p' [[-> ->]|Hb]%(block_push s); try done.
    apply (marked_ext m); [by apply (block_order s o' p')| |by apply (bw_marks m s Hwf)].
    intros q Hq. apply E. intros Hq'. apply (Hfree q Hq'). by exists o', p'.
  - intros q Hq. destruct (decide (p <= q < p + 2 ^ o)) as [Hq'|Hq'].
    + destruct (decide (q = p)) as [->|].
      * destruct Hm as [(? & ? & _) _]. eauto.
      * destruct Hm as [_ Hm]. destruct (Hm q) as (? & ? & _); [lia|eauto].
    + rewrite E by done. by apply (bw_mapped m s Hwf).
  - apply (bw_size m s Hwf).
Qed.

Lemma blocks_wf_drop m s o p : blocks_wf m s -> block s o p ->
  blocks_wf m (drop_block o p s).
Proof.
  intros Hwf Hb. pose proof (bw_lists m s Hwf) as Hl.
  pose proof (block_order s o p Hl Hb) as Ho. split.
  - apply lists_wf_drop; try done. apply (bw_size m s Hwf).
  - intros o' p' [Hb' _]%(block_drop s); try done. by apply (bw_marks m s Hwf).
  - apply (bw_mapped m s Hwf).
  - apply (bw_size m s Hwf).
Qed.

Lemma free_page_push s o p q : lists_wf s -> 0 <= o < MAX_ORDER ->
  free_page (push_block o p s) q <-> in_block o p q \/ free_page s q.
Proof.
  intros Hwf Ho. unfold free_page. setoid_rewrite block_push; [|done..]. naive_solver.
Qed.

Lemma free_page_drop s o p q : lists_wf s -> block s o p ->
  free_page (drop_block o p s) q <-> free_page s q /\ ~ in_block o p q.
Proof.
  intros Hwf Hb. pose proof (block_order s o p Hwf Hb) as Ho.
  unfold free_page. setoid_rewrite block_drop; [|done..]. split.
  - intros (o' & p' & [Hb' Hne] & Hq). split; [by eauto|]. intros Hq'.
    apply Hne. by apply (lw_disj s Hwf _ _ _ _ q).
  - intros [(o' & p' & Hb' & Hq) Hne]. exists o', p'. split; [|done]. split; [done|].
    intros [-> ->]. done.
Qed.

(** ** The list operations in closed form *)
Definition zone_add (d : Z) (i : nat) (zs : list page_zone) : list page_zone :=
  alter (fun z => with_zone_total (u64 (zone_total_free z + d)) z) i zs.

Definition mark_head (o : Z) (pg : page) : page :=
  with_data (Freelist_head o) (with_state PAGE_STATE_FREE_LIST_HEAD pg).
Definition mark_block (o p : Z) (m : gmap Z page) : gmap Z page :=
  upd_range (fun _ pg => with_data (Freelist_tail p) (with_state PAGE_STATE_FREE_LIST_TAIL pg))
    (Z.to_nat (2 ^ o - 1)) (p + 1) (alter (mark_head o) p m).
Definition mark_higher (o p : Z) (m : gmap Z page) : gmap Z page :=
  upd_range (fun _ pg => with_data (Freelist_tail p) pg)
    (Z.to_nat (2 ^ o - 1)) (p + 1) (alter (mark_head o) p m).

Lemma lookup_mark_block_out o p m q : 0 <= o -> ~ in_block o p q -> mark_block o p m !! q = m !! q.
Proof.
  unfold in_block. intros Ho Hq. pose proof (pow2_pos o Ho). unfold mark_block.
  rewrite lookup_upd_range, decide_False by lia. rewrite lookup_alter_ne; [done|lia].
Qed.

Lemma lookup_mark_higher_out o p m q : 0 <= o -> ~ in_block o p q -> mark_higher o p m !! q = m !! q.
Proof.
  unfold in_block. intros Ho Hq. pose proof (pow2_pos o Ho). unfold mark_higher.
  rewrite lookup_upd_range, decide_False by lia. rewrite lookup_alter_ne; [done|lia].
Qed.

Lemma marked_mark_block o p m : 0 <= o -> (forall q, in_block o p q -> is_Some (m !! q)) ->
  marked (mark_block o p m) o p.
Proof.
  unfold in_block. intros Ho Hm. pose proof (pow2_pos o Ho). unfold marked, page_is, mark_block. split.
  - rewrite lookup_upd_range, decide_False by lia. rewrite lookup_alter_eq.
    destruct (Hm p) as [pg ->]; [lia|]. simpl. by eexists.
  - intros q Hq. rewrite lookup_upd_range, decide_True by lia. rewrite lookup_alter_ne by lia.
    destruct (Hm q) as [pg ->]; [lia|]. simpl. by eexists.
Qed.

Lemma marked_mark_higher o p m : 0 <= o ->
  (forall q, in_block o p q -> is_Some (m !! q)) ->
  (forall q, p < q < p + 2 ^ o -> has_state m q PAGE_STATE_FREE_LIST_TAIL) ->
  marked (mark_higher o p m) o p.
Proof.
  unfold in_block. intros Ho Hm Ht. pose proof (pow2_pos o Ho).
  unfold marked, page_is, mark_higher. split.
  - rewrite lookup_upd_range, decide_False by lia. rewrite lookup_alter_eq.
    destruct (Hm p) as [pg ->]; [lia|]. simpl. by eexists.
  - intros q Hq. rewrite lookup_upd_range, decide_True by lia. rewrite lookup_alter_ne by lia.
    destruct (Ht q) as (pg & -> & Hs); [lia|]. simpl. by eexists.
Qed.

Lemma update_section_ok f i s st : sections st !! i = Some s ->
  update_section f i st = Ok (set_sections (<[i := f s]> (sections st)) st).
Proof. intros H. unfold update_section, get_section. by rewrite H. Qed.

Lemma update_zone_ok f z st : is_Some (zones st !! z) ->
  update_zone f z st = Ok (set_zones (alter f z (zones st)) st).
Proof.
  intros [zn H]. unfold update_zone, get_zone. rewrite H. simpl.
  by rewrite (list_alter_lookup _ _ _ zn).
Qed.

Lemma set_freelist_ok i o fl s st : sections st !! i = Some s ->
  set_freelist i o fl st =
    Ok (set_sections (<[i := with_freelists (<[Z.to_nat o := fl]> (freelist_list s)) s]>
                        (sections st)) st).
Proof. intros H. unfold set_freelist. by rewrite (update_section_ok _ _ s). Qed.

Lemma freelist_push_ok i o p s fl st : sections st !! i = Some s ->
  freelist_list s !! Z.to_nat o = Some fl ->
  freelist_push i o p st =
    Ok (set_sections (<[i := with_freelists (<[Z.to_nat o :=
          {| page_list := p :: page_list fl; count := count fl |}]> (freelist_list s)) s]>
          (sections st)) st).
Proof.
  intros Hs Hl. unfold freelist_push, get_freelist, get_section. rewrite Hs. simpl.
  rewrite Hl. simpl. by apply set_freelist_ok.
Qed.

Lemma freelist_count_incr_ok i o s fl st : sections st !! i = Some s ->
  freelist_list s !! Z.to_nat o = Some fl ->
  freelist_count_incr i o st =
    Ok (set_sections (<[i := with_freelists (<[Z.to_nat o :=
          {| page_list := page_list fl; count := u64 (count fl + 1) |}]> (freelist_list s)) s]>
          (sections st)) st).
Proof.
  intros Hs Hl. unfold freelist_count_incr, get_freelist, get_section. rewrite Hs. simpl.
  rewrite Hl. simpl. by apply set_freelist_ok.
Qed.

(** The head and tail stores that begin every insertion. *)
Lemma mark_head_ok o p st : is_Some (pages st !! p) ->
  (st ← page_set_state p PAGE_STATE_FREE_LIST_HEAD st; page_set_data p (Freelist_head o) st) =
  Ok (set_pages (alter (mark_head o) p (pages st)) st).
Proof.
  intros H. unfold page_set_state, page_set_data. rewrite update_page_compose.
  by apply update_page_ok.
Qed.

Lemma alter_mapped (f : page -> page) p (m : gmap Z page) q :
  is_Some (m !! q) -> is_Some (alter f p m !! q).
Proof.
  intros H. destruct (decide (p = q)) as [->|].
  - rewrite lookup_alter_eq. by apply fmap_is_Some.
  - by rewrite lookup_alter_ne.
Qed.

Lemma add_higher_eq i o p s st : sections st !! i = Some s -> lists_wf s ->
  0 <= o < MAX_ORDER -> (forall q, in_block o p q -> is_Some (pages st !! q)) ->
  add_to_freelist_order_from_higher i o p st =
    Ok (set_sections (<[i := push_block o p s]> (sections st))
          (set_pages (mark_higher o p (pages st)) st)).
Proof.
  intros Hs Hwf Ho Hm. pose proof (pow2_pos o ltac:(lia)).
  destruct (lookup_freelist s o Hwf Ho) as [fl Hl].
  unfold add_to_freelist_order_from_higher.
  rewrite <- outcome_bind_assoc, mark_head_ok by (apply Hm; unfold in_block; lia). simpl.
  erewrite freelist_push_ok by done. simpl.
  rewrite (for_pages_upd _ (fun _ pg => with_data (Freelist_tail p) pg)); [|done|].
  2:{ intros q Hq. simpl. apply alter_mapped, Hm. unfold in_block. lia. }
  simpl. erewrite freelist_count_incr_ok.
  2:{ simpl. by apply list_lookup_inserted with s. }
  2:{ simpl. by apply list_lookup_inserted with fl. }
  simpl. unfold push_block. rewrite (list_alter_lookup _ _ _ fl) by done. f_equal.
  unfold set_sections, set_pages. simpl. f_equal. rewrite list_insert_insert_eq. f_equal.
  unfold with_freelists. simpl. f_equal. by rewrite list_insert_insert_eq.
Qed.

Definition add_total (d : Z) (s : page_section) : page_section :=
  with_total_free (u64 (total_free s + d)) s.

Lemma add_eq i o p s st : sections st !! i = Some s -> lists_wf s ->
  0 <= o < MAX_ORDER -> (forall q, in_block o p q -> is_Some (pages st !! q)) ->
  is_Some (zones st !! sec_zone s) ->
  add_to_freelist_order i o p st =
    Ok (set_sections (<[i := push_block o p (add_total (2 ^ o) s)]> (sections st))
          (set_zones (zone_add (2 ^ o) (sec_zone s) (zones st))
            (set_pages (mark_block o p (pages st)) st))).
Proof.
  intros Hs Hwf Ho Hm Hz. pose proof (pow2_pos o ltac:(lia)).
  destruct (lookup_freelist s o Hwf Ho) as [fl Hl].
  unfold add_to_freelist_order.
  rewrite <- outcome_bind_assoc, mark_head_ok by (apply Hm; unfold in_block; lia). simpl.
  erewrite freelist_push_ok by done. simpl.
  rewrite (for_pages_upd _ (fun _ pg => with_data (Freelist_tail p)
                                       (with_state PAGE_STATE_FREE_LIST_TAIL pg))).
  2:{ intros q st'. apply update_page_compose. }
  2:{ intros q Hq. simpl. apply alter_mapped, Hm. unfold in_block. lia. }
  simpl. unfold get_section. simpl. erewrite list_lookup_inserted by done. simpl.
  rewrite update_zone_ok by done. simpl.
  erewrite update_section_ok by (simpl; by apply list_lookup_inserted with s). simpl.
  erewrite freelist_count_incr_ok.
  2:{ simpl. eapply list_lookup_inserted, list_lookup_inserted, Hs. }
  2:{ simpl. by apply list_lookup_inserted with fl. }
  simpl. unfold push_block, zone_add, add_total, set_sections, set_pages, set_zones.
  rewrite (list_alter_lookup _ (freelist_list _) _ fl) by done. simpl.
  rewrite !list_insert_insert_eq. done.
Qed.

(** [take_off_freelist_order] with its last two adjustments. *)
Definition take_block (o p r : Z) (s : page_section) : page_section :=
  tighten_orders o (reset_orders_if_empty (drop_block o p (add_total (- 2 ^ r) s))).

Lemma take_eq i o p r s st : sections st !! i = Some s -> lists_wf s -> block s o p ->
  is_Some (zones st !! sec_zone s) ->
  take_off_freelist_order i o p r st =
    Ok (set_sections (<[i := take_block o p r s]> (sections st))
          (set_zones (zone_add (- 2 ^ r) (sec_zone s) (zones st)) st)).
Proof.
  intros Hs Hwf Hb Hz. pose proof (block_order s o p Hwf Hb) as Ho.
  destruct (lookup_freelist s o Hwf Ho) as [fl Hl].
  apply (block_list _ _ _ fl Hl) in Hb; [|lia].
  unfold take_off_freelist_order, get_section. rewrite Hs. simpl.
  rewrite update_zone_ok by done. simpl.
  rewrite (update_section_ok _ _ s) by done. simpl.
  unfold take_off_freelist_to_add_later, get_freelist, get_section. simpl.
  erewrite list_lookup_inserted by done. simpl. rewrite Hl. simpl.
  rewrite decide_True by done. erewrite set_freelist_ok.
  2:{ simpl. by apply list_lookup_inserted with s. }
  simpl. erewrite update_section_ok.
  2:{ simpl. eapply list_lookup_inserted, list_lookup_inserted, Hs. }
  unfold take_block, drop_block. rewrite (list_alter_lookup _ _ _ fl) by done. simpl.
  unfold set_sections, set_zones. simpl. by rewrite !list_insert_insert_eq.
Qed.

Lemma same_lists_push o p d s : same_lists (push_block o p s) (push_block o p (add_total d s)).
Proof. by split. Qed.
Lemma same_lists_take o p r s : same_lists (drop_block o p s) (take_block o p r s).
Proof.
  unfold take_block. destruct (same_lists_tighten o (drop_block o p (add_total (- 2 ^ r) s))).
  by split.
Qed.

Lemma get_from_none i o r s st : sections st !! i = Some s -> lists_wf s ->
  0 <= o < MAX_ORDER -> (forall p, ~ block s o p) ->
  get_from_freelist_order i o r st = Ok (None, st).
Proof.
  intros Hs Hwf Ho Hb. destruct (lookup_freelist s o Hwf Ho) as [fl Hl].
  unfold get_from_freelist_order, get_freelist, get_section. rewrite Hs. simpl. rewrite Hl. simpl.
  rewrite (lw_count s Hwf _ _ Hl). destruct (page_list fl) as [|p l] eqn:E; [done|].
  exfalso. apply (Hb p). apply (block_list _ _ _ fl Hl); [lia|]. rewrite E. left.
Qed.

Lemma get_from_some i o r s st : sections st !! i = Some s -> lists_wf s ->
  is_Some (zones st !! sec_zone s) ->
  0 <= o < MAX_ORDER -> (exists p, block s o p) ->
  exists p, block s o p /\
  get_from_freelist_order i o r st =
    Ok (Some p, set_sections (<[i := take_block o p r s]> (sections st))
          (set_zones (zone_add (- 2 ^ r) (sec_zone s) (zones st)) st)).
Proof.
  intros Hs Hwf Hz Ho [p0 Hb]. destruct (lookup_freelist s o Hwf Ho) as [fl Hl].
  apply (block_list _ _ _ fl Hl) in Hb; [|lia].
  unfold get_from_freelist_order, get_freelist, get_section. rewrite Hs. simpl. rewrite Hl. simpl.
  rewrite (lw_count s Hwf _ _ Hl). destruct (page_list fl) as [|p l] eqn:E; [by apply elem_of_nil in Hb|].
  exists p. assert (block s o p) as Hb'.
  { apply (block_list _ _ _ fl Hl); [lia|]. rewrite E. left. }
  split; [done|]. simpl length. destruct (Z.eqb_spec (Z.of_nat (S (length l))) 0); [lia|]. simpl.
  by rewrite (take_eq i o p r s) by done.
Qed.

Lemma block_dec s o : lists_wf s -> 0 <= o < MAX_ORDER ->
  (exists p, block s o p) \/ (forall p, ~ block s o p).
Proof.
  intros Hwf Ho. destruct (lookup_freelist s o Hwf Ho) as [fl Hl].
  destruct (page_list fl) as [|p l] eqn:E.
  - right. intros p. rewrite (block_list _ _ _ fl Hl), E by lia. apply not_elem_of_nil.
  - left. exists p. apply (block_list _ _ _ fl Hl); [lia|]. rewrite E. left.
Qed.

(** The scan for the first order that has a block. *)
Lemma take_first_eq i mo r s st : sections st !! i = Some s -> lists_wf s ->
  is_Some (zones st !! sec_zone s) -> mo <= MAX_ORDER ->
  forall fuel o, 0 <= o -> mo <= o + Z.of_nat fuel ->
  (take_first_order fuel i o mo r st = Ok (None, st) /\
   (forall o' p, o <= o' < mo -> ~ block s o' p)) \/
  (exists o' p, o <= o' < mo /\ block s o' p /\
   take_first_order fuel i o mo r st =
     Ok (Some (p, o'), set_sections (<[i := take_block o' p r s]> (sections st))
          (set_zones (zone_add (- 2 ^ r) (sec_zone s) (zones st)) st))).
Proof.
  intros Hs Hwf Hz Hmo. induction fuel as [|fuel IH]; intros o Ho Hf; simpl.
  - destruct (Z.ltb_spec o mo); [lia|]. left. split; [done|]. intros. lia.
  - destruct (Z.ltb_spec o mo) as [Hlt|]; [|left; split; [done|]; intros; lia].
    destruct (block_dec s o Hwf ltac:(lia)) as [Hb|Hb].
    + right. destruct (get_from_some i o r s st Hs Hwf Hz ltac:(lia) Hb) as (p & Hbp & ->).
      exists o, p. split_and!; [lia..|done|done].
    + rewrite (get_from_none i o r s) by (done || lia). simpl.
      destruct (IH (o + 1) ltac:(lia) ltac:(lia)) as [[-> Hn]|(o' & p & Ho' & Hbp & ->)].
      * left. split; [done|]. intros o' p Ho'. destruct (decide (o' = o)) as [->|]; [apply Hb|].
        apply Hn. lia.
      * right. exists o', p. split_and!; [lia..|done|done].
Qed.

(** [m'] differs from [m] only in the entries of [lo, hi), and maps as many. *)
Definition touches (lo hi : Z) (m m' : gmap Z page) : Prop :=
  (forall q, ~ lo <= q < hi -> m' !! q = m !! q) /\
  (forall q, is_Some (m !! q) -> is_Some (m' !! q)).

Lemma touches_refl lo hi m : touches lo hi m m.
Proof. done. Qed.

Lemma touches_trans lo hi m1 m2 m3 :
  touches lo hi m1 m2 -> touches lo hi m2 m3 -> touches lo hi m1 m3.
Proof. intros [A1 B1] [A2 B2]. split; [|by eauto]. intros q Hq. by rewrite A2, A1. Qed.

Lemma touches_mono lo hi lo' hi' m m' :
  lo' <= lo -> hi <= hi' -> touches lo hi m m' -> touches lo' hi' m m'.
Proof. intros ?? [A B]. split; [|done]. intros q Hq. apply A. lia. Qed.

Lemma touches_alter f p m : touches p (p + 1) m (alter f p m).
Proof.
  split; [|by intros; apply alter_mapped]. intros q Hq. rewrite lookup_alter_ne; [done|lia].
Qed.

Lemma touches_upd_range f n p m : touches p (p + Z.of_nat n) m (upd_range f n p m).
Proof.
  split; intros q Hq; rewrite lookup_upd_range; case_decide; try done.
  by apply fmap_is_Some.
Qed.

Lemma touches_mark_block o p m : 0 <= o -> touches p (p + 2 ^ o) m (mark_block o p m).
Proof.
  intros Ho. pose proof (pow2_pos o Ho). unfold mark_block. eapply touches_trans.
  - eapply touches_mono; [| |apply (touches_alter (mark_head o) p)]; lia.
  - eapply touches_mono; [| |apply touches_upd_range]; lia.
Qed.

Lemma touches_mark_higher o p m : 0 <= o -> touches p (p + 2 ^ o) m (mark_higher o p m).
Proof.
  intros Ho. pose proof (pow2_pos o Ho). unfold mark_higher. eapply touches_trans.
  - eapply touches_mono; [| |apply (touches_alter (mark_head o) p)]; lia.
  - eapply touches_mono; [| |apply touches_upd_range]; lia.
Qed.

(** ** Splitting a block *)
Record split_post (order p hi : Z) (m : gmap Z page) (s : page_section)
    (m' : gmap Z page) (s' : page_section) : Prop := {
  sp_wf : blocks_wf m' s';
  sp_sec : s' = with_freelists (freelist_list s') s;
  sp_total : total_of s' = total_of s + (hi - p) - 2 ^ order;
  sp_free : forall q, free_page s' q <-> free_page s q \/ p + 2 ^ order <= q < hi;
  sp_order : forall o' p', block s' o' p' -> block s o' p' \/ order <= o';
  sp_touch : touches (p + 2 ^ order) hi m m';
}.

Lemma split_ok i order p : forall n s st, sections st !! i = Some s ->
  blocks_wf (pages st) s -> 0 <= order -> order + Z.of_nat n < MAX_ORDER ->
  pfn s <= p -> p + 2 ^ (order + Z.of_nat n) <= pfn s + npages s ->
  (forall q, in_block (order + Z.of_nat n) p q -> ~ free_page s q) ->
  (forall q, p < q < p + 2 ^ (order + Z.of_nat n) ->
     has_state (pages st) q PAGE_STATE_FREE_LIST_TAIL) ->
  exists m' s', split_block n i order p st =
    Ok (set_sections (<[i := s']> (sections st)) (set_pages m' st)) /\
  split_post order p (p + 2 ^ (order + Z.of_nat n)) (pages st) s m' s'.
Proof.
  induction n as [|n IH]; intros s st Hs Hwf Ho Hn Hlo Hhi Hfree Htail.
  - exists (pages st), s. split.
    { simpl. rewrite list_insert_id by done. by destruct st. }
    split; try done; rewrite ?Z.add_0_r in *.
    + by destruct s.
    + lia.
    + intros q. split; [auto|]. intros [?|?]; [done|lia].
    + auto.
  - set (h := order + Z.of_nat n) in *.
    assert (2 ^ (order + Z.of_nat (S n)) = 2 * 2 ^ h) as E.
    { rewrite <- pow2_succ by lia. f_equal. lia. }
    rewrite E in *. unfold in_block in Hfree. rewrite E in Hfree.
    pose proof (pow2_pos h ltac:(lia)). pose proof (pow2_pos order ltac:(lia)).
    pose proof (pow2_le order h ltac:(lia)).
    assert (forall q, in_block h (p + 2 ^ h) q -> is_Some (pages st !! q)) as Hmap.
    { intros q Hq. apply (bw_mapped _ _ Hwf). unfold in_block, in_section in *. lia. }
    pose proof (bw_lists _ _ Hwf) as Hl.
    simpl. fold h.
    rewrite (add_higher_eq i h (p + 2 ^ h) s) by (done || lia). simpl.
    set (m1 := mark_higher h (p + 2 ^ h) (pages st)).
    set (s1 := push_block h (p + 2 ^ h) s).
    destruct (touches_mark_higher h (p + 2 ^ h) (pages st) ltac:(lia)) as [T1 T2]. fold m1 in T1, T2.
    assert (blocks_wf m1 s1) as Hwf1.
    { apply (blocks_wf_push (pages st)); try done; try lia.
      - intros q Hq. apply Hfree. unfold in_block in Hq. lia.
      - apply marked_mark_higher; [lia|done|]. intros q Hq. apply Htail. lia. }
    assert (forall q, free_page s1 q <-> in_block h (p + 2 ^ h) q \/ free_page s q) as F1.
    { intros q. apply free_page_push; [done|lia]. }
    destruct (IH s1 (set_sections (<[i := s1]> (sections st)) (set_pages m1 st)))
      as (m2 & s2 & Heq & [P1 P2 P3 P4 P5 P6]); clear IH.
    + simpl. by apply list_lookup_inserted with s.
    + done.
    + done.
    + lia.
    + done.
    + change (npages s1) with (npages s). change (pfn s1) with (pfn s). fold h. lia.
    + intros q Hq [Hq'|Hq']%F1; unfold in_block in *; fold h in Hq; [lia|].
      apply (Hfree q); [lia|done].
    + fold h. intros q Hq. simpl. unfold has_state. rewrite T1 by lia. apply Htail. lia.
    + exists m2, s2. rewrite Heq. split.
      { unfold set_sections, set_pages. simpl. by rewrite list_insert_insert_eq. }
      fold h in P3, P4, P6. split.
      * done.
      * rewrite P2. by destruct s.
      * rewrite P3. unfold s1. rewrite total_push by (done || lia). lia.
      * intros q. rewrite P4, F1. unfold in_block. split; [|].
        -- intros [[?|?]|?]; [right; lia|by left|right; lia].
        -- intros [?|?]; [auto|]. destruct (decide (q < p + 2 ^ h)); [right; lia|left; left; lia].
      * intros o' p' [[[-> _]|Hb]%(block_push s)|?]%P5; [right; lia|by left|done|lia|by right].
      * eapply touches_trans.
        -- eapply touches_mono; [| |apply (touches_mark_higher h (p + 2 ^ h))]; lia.
        -- simpl in P6. eapply touches_mono; [| |exact P6]; lia.
Qed.
