(* ===== verification/PageAllocInv.v ===== *)
(** * Invariants of the physical page allocator

    Well-formed sections ([sec_wf]) and allocator states ([mm_wf]), and what
    every operation of PageAlloc.v that takes blocks off the lists or returns
    a range to them does to a well-formed state. *)
From S2P Require Import Prelude CArith PageAlloc PageBlocks.

(** ** Well-formed sections *)
Record sec_wf (m : gmap Z page) (s : page_section) : Prop := {
  sw_blocks : blocks_wf m s;
  sw_total : total_free s = total_of s;
  sw_min : forall o p, block s o p -> min_order s <= o;
  sw_min0 : 0 <= min_order s;
  sw_max : 0 <= max_order s <= MAX_ORDER;
}.

Lemma total_ge_block s o p : block s o p -> 2 ^ o <= total_of s.
Proof.
  intros [Ho (fl & Hl & Hp)]. unfold total_of.
  pose proof (total_from_ge 0 _ _ _ ltac:(lia) Hl) as H.
  rewrite Z.add_0_l, Z2Nat.id in H by lia. pose proof (pow2_pos o Ho).
  destruct (page_list fl); [by apply elem_of_nil in Hp|]. cbn [length] in H. nia.
Qed.

Lemma sec_total_bound m s : blocks_wf m s -> 0 <= total_of s <= 2 ^ 52.
Proof.
  intros Hwf. pose proof (bw_size _ _ Hwf).
  pose proof (total_bound s (bw_lists _ _ Hwf) ltac:(lia)).
  pose proof (total_from_nonneg 0 (freelist_list s) ltac:(lia)). unfold total_of in *. lia.
Qed.

Lemma scan_up_spec fls : forall fuel o, o <= scan_up fuel o fls /\
  forall k fl, o <= k < scan_up fuel o fls -> fls !! Z.to_nat k = Some fl -> count fl = 0.
Proof.
  induction fuel as [|fuel IH]; intros o; simpl.
  - split; [lia|]. intros. lia.
  - destruct (fls !! Z.to_nat o) as [fl|] eqn:E; [|split; [lia|intros; lia]].
    destruct (Z.eqb_spec (count fl) 0) as [Hc|]; [|split; [lia|intros; lia]].
    destruct (IH (o + 1)) as [H1 H2]. split; [lia|]. intros k fl' Hk Hl.
    destruct (decide (k = o)) as [->|]; [congruence|]. apply (H2 k fl'); [lia|done].
Qed.

Lemma scan_down_range fls n : 0 <= scan_down n fls <= Z.of_nat n.
Proof.
  induction n as [|n IH]; simpl; [lia|]. destruct (fls !! n) as [fl|]; [|lia].
  destruct (count fl =? 0); lia.
Qed.

Lemma no_block_of_count s k fl : lists_wf s -> 0 <= k -> freelist_list s !! Z.to_nat k = Some fl ->
  count fl = 0 -> forall p, ~ block s k p.
Proof.
  intros Hwf Hk Hl Hc p. rewrite (block_list _ _ _ fl Hl) by lia.
  rewrite (lw_count s Hwf _ _ Hl) in Hc. destruct (page_list fl); [apply not_elem_of_nil|].
  simpl in Hc. lia.
Qed.

Lemma tighten_min o s : lists_wf s -> 0 <= o ->
  (forall o' p, block s o' p -> min_order s <= o') ->
  forall o' p, block s o' p -> min_order (tighten_orders o s) <= o'.
Proof.
  intros Hwf Ho Hmin o' p Hb. unfold tighten_orders.
  destruct (freelist_list s !! Z.to_nat o) as [fl|]; [|by eauto].
  destruct (count fl =? 0); [|by eauto].
  destruct (Z.eqb_spec (min_order s) o) as [Hmo|]; [|case_match; simpl; by eauto].
  destruct (scan_up_spec (freelist_list s) (Z.to_nat MAX_ORDER) o) as [_ Hz].
  enough (scan_up (Z.to_nat MAX_ORDER) o (freelist_list s) <= o') by (case_match; done).
  apply Z.nlt_ge. intros Hlt. pose proof (Hmin _ _ Hb).
  destruct Hb as [Ho' (f & Hf & Hp)].
  apply (no_block_of_count s o' f Hwf Ho' Hf) with p.
  - apply (Hz o'); [lia|done].
  - split; eauto.
Qed.

Lemma tighten_range o s : 0 <= o <= MAX_ORDER -> 0 <= min_order s ->
  0 <= max_order s <= MAX_ORDER ->
  0 <= min_order (tighten_orders o s) /\ 0 <= max_order (tighten_orders o s) <= MAX_ORDER.
Proof.
  intros Ho Hmin Hmax. unfold tighten_orders.
  destruct (scan_up_spec (freelist_list s) (Z.to_nat MAX_ORDER) o) as [Hu _].
  pose proof (scan_down_range (freelist_list s) (Z.to_nat o)) as Hd.
  generalize dependent (scan_up (Z.to_nat MAX_ORDER) o (freelist_list s)).
  intros u Hu.
  destruct (freelist_list s !! Z.to_nat o); [|done]. destruct (count _ =? 0); [|done].
  destruct (Z.eqb_spec (min_order s) o); simpl;
    match goal with |- context [if ?b then _ else _] => destruct b end; simpl; lia.
Qed.

Lemma tighten_total o s : total_free (tighten_orders o s) = total_free s.
Proof. unfold tighten_orders. by repeat case_match. Qed.

Lemma reset_total s : total_free (reset_orders_if_empty s) = total_free s.
Proof. unfold reset_orders_if_empty. by case_match. Qed.

Lemma with_total_push n o p s :
  push_block o p (with_total_free n s) = with_total_free n (push_block o p s).
Proof. done. Qed.

(** Taking a block off: what is left, before the unused part of the block is
    put back. *)
Record take_post (o p r : Z) (m : gmap Z page) (s s' : page_section) : Prop := {
  tp_lists : same_lists (drop_block o p s) s';
  tp_wf : blocks_wf m s';
  tp_total : total_free s' = total_of s - 2 ^ r;
  tp_total_of : total_of s' = total_of s - 2 ^ o;
  tp_free : forall q, free_page s' q <-> free_page s q /\ ~ in_block o p q;
  tp_min : forall o' p', block s' o' p' -> min_order s' <= o';
  tp_min0 : 0 <= min_order s';
  tp_max : 0 <= max_order s' <= MAX_ORDER;
  tp_zone : sec_zone s' = sec_zone s;
  tp_front : range_front s' = range_front s;
}.

Lemma take_ok m s o p r : sec_wf m s -> block s o p -> 0 <= r <= o ->
  take_post o p r m s (take_block o p r s).
Proof.
  intros [Hwf Ht Hmin Hmin0 Hmax] Hb Hr. pose proof (bw_lists _ _ Hwf) as Hl.
  pose proof (block_order s o p Hl Hb) as Ho.
  pose proof (same_lists_take o p r s) as Hsl.
  pose proof (total_ge_block s o p Hb). pose proof (sec_total_bound m s Hwf).
  pose proof (pow2_le r o ltac:(lia)). pose proof (pow2_pos r ltac:(lia)).
  assert (total_free (drop_block o p (add_total (- 2 ^ r) s)) = total_of s - 2 ^ r) as Htot.
  { simpl. rewrite Ht, wrap_small by (unfold_ints; lia). lia. }
  set (s0 := drop_block o p (add_total (- 2 ^ r) s)) in *.
  assert (same_lists (drop_block o p s) s0) as Hs0 by by split.
  pose proof (blocks_wf_drop m s o p Hwf Hb) as Hwf0.
  assert (lists_wf s0) as Hl0 by apply (same_lists_wf _ _ Hs0), Hwf0.
  assert (forall o' p', block (reset_orders_if_empty s0) o' p' ->
            min_order (reset_orders_if_empty s0) <= o') as Hmin1.
  { intros o' p' Hb'. unfold reset_orders_if_empty in *.
    destruct (total_free s0 =? 0); [apply Hb'|].
    apply (same_lists_block _ _ _ _ Hs0), (block_drop s) in Hb' as [Hb' _]; [|done..].
    by apply (Hmin o' p'). }
  assert (0 <= min_order (reset_orders_if_empty s0) /\
          0 <= max_order (reset_orders_if_empty s0) <= MAX_ORDER) as [Hr1 Hr2].
  { unfold reset_orders_if_empty. destruct (total_free s0 =? 0); simpl; [|done].
    unfold MAX_ORDER. lia. }
  assert (same_lists s0 (reset_orders_if_empty s0)) as Hsr
    by (unfold reset_orders_if_empty; by case_match).
  destruct (tighten_range o (reset_orders_if_empty s0) ltac:(lia) Hr1 Hr2).
  split; try done.
  - by apply (blocks_wf_ext m (drop_block o p s)).
  - unfold take_block. by rewrite tighten_total, reset_total.
  - rewrite (same_lists_total _ _ Hsl). by apply total_drop.
  - intros q. rewrite (same_lists_free_page _ _ _ Hsl). by apply free_page_drop.
  - intros o' p' Hb'. apply (tighten_min o _ (same_lists_wf _ _ Hsr Hl0) ltac:(lia) Hmin1 o' p').
    by apply (same_lists_block _ _ _ _ (same_lists_tighten o s0)) in Hb'; 
       apply (same_lists_block _ _ _ _ Hsr).
  - unfold take_block, tighten_orders, reset_orders_if_empty. by repeat case_match.
  - unfold take_block, tighten_orders, reset_orders_if_empty. by repeat case_match.
Qed.

(** ** Allocating from one section *)
Record same_place (s s' : page_section) : Prop := {
  pl_zone : sec_zone s' = sec_zone s;
  pl_front : range_front s' = range_front s;
  pl_pfn : pfn s' = pfn s;
  pl_size : range_size s' = range_size s;
}.

Lemma same_place_refl s : same_place s s.
Proof. by split. Qed.

Lemma same_place_npages s s' : same_place s s' -> npages s' = npages s.
Proof. intros [_ _ _ E]. unfold npages. by rewrite E. Qed.

Lemma same_place_in_section s s' q : same_place s s' -> in_section s' q <-> in_section s q.
Proof. intros E. unfold in_section. by rewrite (pl_pfn _ _ E), (same_place_npages _ _ E). Qed.

Record alloc_post (order p : Z) (m : gmap Z page) (s : page_section)
    (m' : gmap Z page) (s' : page_section) : Prop := {
  ap_wf : sec_wf m' s';
  ap_place : same_place s s';
  ap_total : total_free s' = total_free s - 2 ^ order;
  ap_free : forall q, free_page s' q <-> free_page s q /\ ~ in_block order p q;
  ap_was : forall q, in_block order p q -> free_page s q;
  ap_touch : touches (pfn s) (pfn s + npages s) m m';
  ap_kept : forall q, ~ free_page s q -> m' !! q = m !! q;
}.

Lemma finish_alloc_fields order s : 0 <= order < MAX_ORDER -> 0 <= min_order s ->
  0 <= max_order s <= MAX_ORDER ->
  min_order (finish_alloc order s) = Z.min (min_order s) order /\
  0 <= max_order (finish_alloc order s) <= MAX_ORDER /\
  order < max_order (finish_alloc order s) /\
  total_free (finish_alloc order s) = total_free s /\
  same_place s (finish_alloc order s).
Proof.
  intros Ho Hm HM. unfold finish_alloc. rewrite !Z.gtb_ltb.
  destruct (Z.ltb_spec order (min_order s)); simpl;
    match goal with |- context [?a <=? ?b] => destruct (Z.leb_spec a b) end; simpl;
    (split_and!; [lia..|done|done]).
Qed.

(** The free pages are those outside the piece that is handed out. *)
Lemma carve q (F : Prop) order o p : 0 <= order <= o -> (in_block o p q -> F) ->
  (F /\ ~ in_block o p q) \/ p + 2 ^ order <= q < p + 2 ^ o <-> F /\ ~ in_block order p q.
Proof.
  intros Ho Hf. pose proof (pow2_le order o ltac:(lia)). pose proof (pow2_pos order ltac:(lia)).
  unfold in_block in *. destruct (decide (p <= q < p + 2 ^ o)).
  - split; [|intros [? ?]; right; lia]. intros [[_ ?]|?]; [done|]. split; [auto|lia].
  - split; [|intros [? ?]; left; done]. intros [[? _]|?]; [split; [done|lia]|lia].
Qed.

Lemma alloc_section_ok i order o p s st :
  sections st !! i = Some s -> sec_wf (pages st) s -> block s o p -> 0 <= order <= o ->
  exists m' s',
  (st ← split_block (Z.to_nat (o - order)) i order p
          (set_sections (<[i := take_block o p order s]> (sections st)) st);
   update_section (finish_alloc order) i st) =
  Ok (set_sections (<[i := s']> (sections st)) (set_pages m' st)) /\
  alloc_post order p (pages st) s m' s'.
Proof.
  intros Hs Hwf Hb Hr. pose proof (sw_blocks _ _ Hwf) as Hbw.
  pose proof (bw_lists _ _ Hbw) as Hl. pose proof (block_order s o p Hl Hb) as Ho.
  destruct (take_ok _ s o p order Hwf Hb Hr) as [T1 T2 T3 T4 T5 T6 T7 T8 T9 T10].
  set (s1 := take_block o p order s) in *.
  pose proof (lw_range s Hl o p Hb) as [Hlo Hhi].
  assert (pfn s1 = pfn s) as Ep by apply (sl_pfn _ _ T1).
  assert (npages s1 = npages s) as En by apply (same_lists_npages _ _ T1).
  assert (order + Z.of_nat (Z.to_nat (o - order)) = o) as Eo by lia.
  destruct (split_ok i order p (Z.to_nat (o - order)) s1
              (set_sections (<[i := s1]> (sections st)) st)) as (m2 & s2 & -> & P); rewrite ?Eo in *.
  - simpl. by apply list_lookup_inserted with s.
  - done.
  - lia.
  - lia.
  - lia.
  - lia.
  - intros q Hq [_ Hn]%T5. done.
  - intros q Hq. destruct (bw_marks _ _ Hbw o p Hb) as [_ Hm].
    destruct (Hm q Hq) as (pg & ? & ? & _). by exists pg.
  - destruct P as [P1 P2 P3 P4 P5 P6]. simpl in P6. simpl.
    erewrite update_section_ok by (simpl; eapply list_lookup_inserted, list_lookup_inserted, Hs).
    assert (min_order s2 = min_order s1 /\ max_order s2 = max_order s1 /\
            total_free s2 = total_free s1 /\ same_place s1 s2) as (Q1 & Q2 & Q3 & Q4)
      by (rewrite P2; by split_and!).
    destruct (finish_alloc_fields order s2) as (F1 & F2 & F3 & F4 & F5);
      [lia|rewrite Q1; done|rewrite Q2; done|].
    pose proof (same_lists_finish_alloc order s2) as Hf.
    exists m2, (finish_alloc order s2). split.
    { unfold set_sections, set_pages. simpl. by rewrite !list_insert_insert_eq. }
    assert (forall q, in_block o p q -> free_page s q) as Hin by (intros; by exists o, p).
    split.
    + split.
      * by apply (blocks_wf_ext m2 s2).
      * rewrite F4, Q3, T3, (same_lists_total _ _ Hf), P3, T4. lia.
      * intros o' p' Hb'%(same_lists_block _ _ _ _ Hf). rewrite F1, Q1.
        destruct (P5 _ _ Hb') as [Hb1|]; [pose proof (T6 _ _ Hb1)|]; lia.
      * lia.
      * done.
    + destruct Q4, F5. split; [congruence..| |]; [by rewrite pl_pfn1, pl_pfn0|].
      rewrite pl_size1, pl_size0. apply (sl_size _ _ T1).
    + rewrite F4, Q3, T3, (sw_total _ _ Hwf). done.
    + intros q. rewrite (same_lists_free_page _ _ _ Hf), P4, T5. apply carve; [lia|auto].
    + intros q Hq. apply Hin. pose proof (pow2_le order o ltac:(lia)). unfold in_block in *. lia.
    + eapply touches_mono; [| |apply P6]; [|lia]. pose proof (pow2_pos order ltac:(lia)). lia.
    + intros q Hq. apply P6. intros Hin'. apply Hq, Hin. pose proof (pow2_pos order ltac:(lia)).
      unfold in_block. lia.
Qed.

(** ** Well-formed allocator states *)
Fixpoint zone_sum (z : nat) (secs : list page_section) : Z :=
  match secs with
  | [] => 0
  | s :: secs => (if decide (sec_zone s = z) then total_free s else 0) + zone_sum z secs
  end.
Fixpoint sum_npages (secs : list page_section) : Z :=
  match secs with [] => 0 | s :: secs => npages s + sum_npages secs end.

Record mm_wf (st : mm) : Prop := {
  mw_secs : forall i s, sections st !! i = Some s -> sec_wf (pages st) s;
  mw_disj : forall i j s s' q, sections st !! i = Some s -> sections st !! j = Some s' ->
    in_section s q -> in_section s' q -> i = j;
  mw_zone : forall i s, sections st !! i = Some s -> is_Some (zones st !! sec_zone s);
  mw_list : forall z zn i, zones st !! z = Some zn -> i ∈ section_list zn ->
    exists s, sections st !! i = Some s /\ sec_zone s = z;
  mw_total : forall z zn, zones st !! z = Some zn ->
    zone_total_free zn = zone_sum z (sections st);
  mw_size : sum_npages (sections st) <= 2 ^ 52;
  mw_fallback : forall z zn f, zones st !! z = Some zn -> fallback_zone zn = Some f ->
    (z < f < length (zones st))%nat;
  mw_default : is_Some (zones st !! page_zone_default);
}.

(** Page [q] is on a free list of section [i]. *)
Definition mm_free (st : mm) (i : nat) (q : Z) : Prop :=
  exists s, sections st !! i = Some s /\ free_page s q.

Lemma zone_sum_insert z secs i s s' : secs !! i = Some s -> sec_zone s' = sec_zone s ->
  zone_sum z (<[i := s']> secs) =
  zone_sum z secs + (if decide (sec_zone s = z) then total_free s' - total_free s else 0).
Proof.
  revert i. induction secs as [|x secs IH]; intros i Hi Hz; [done|].
  destruct i as [|i]; simplify_eq/=.
  - rewrite Hz. case_decide; lia.
  - rewrite IH by done. lia.
Qed.

Lemma sum_npages_insert secs i s s' : secs !! i = Some s -> npages s' = npages s ->
  sum_npages (<[i := s']> secs) = sum_npages secs.
Proof.
  revert i. induction secs as [|x secs IH]; intros i Hi Hz; [done|].
  destruct i as [|i]; simplify_eq/=; [lia|]. by rewrite IH.
Qed.

Lemma zone_sum_bound m z secs : Forall (sec_wf m) secs ->
  0 <= zone_sum z secs <= sum_npages secs.
Proof.
  induction 1 as [|s secs Hs _ IH]; simpl; [lia|].
  pose proof (sw_blocks _ _ Hs) as Hb. pose proof (bw_size _ _ Hb).
  pose proof (total_bound s (bw_lists _ _ Hb) ltac:(lia)).
  pose proof (sec_total_bound _ _ Hb). rewrite (sw_total _ _ Hs). case_decide; lia.
Qed.

Lemma zone_sum_ge m z secs i s : Forall (sec_wf m) secs -> secs !! i = Some s ->
  sec_zone s = z -> total_free s <= zone_sum z secs.
Proof.
  intros H Hi Hz. revert i Hi. induction H as [|x secs Hx Hs IH]; intros i Hi; [done|].
  pose proof (zone_sum_bound m z secs Hs).
  pose proof (sec_total_bound _ _ (sw_blocks _ _ Hx)). pose proof (sw_total _ _ Hx).
  destruct i as [|i]; simpl in *.
  - simplify_eq. rewrite decide_True by done. lia.
  - specialize (IH i Hi). case_decide; lia.
Qed.

Lemma mw_forall st : mm_wf st -> Forall (sec_wf (pages st)) (sections st).
Proof. intros H. apply Forall_lookup. apply (mw_secs st H). Qed.

(** A step that replaces one section and the entries of its pages. *)
Lemma mm_wf_step st i s s' m' d fr : mm_wf st -> sections st !! i = Some s ->
  sec_wf m' s' -> same_place s s' ->
  touches (pfn s) (pfn s + npages s) (pages st) m' ->
  d = total_free s' - total_free s ->
  mm_wf (set_frames fr (set_sections (<[i := s']> (sections st))
           (set_zones (zone_add d (sec_zone s) (zones st)) (set_pages m' st)))).
Proof.
  intros Hwf Hs Hs' Hp [Ht1 Ht2] Hd. pose proof (same_place_npages _ _ Hp) as En.
  assert (forall j x, <[i := s']> (sections st) !! j = Some x ->
            (j = i /\ x = s') \/ (j <> i /\ sections st !! j = Some x)) as Hlk.
  { intros j x. rewrite list_lookup_insert_Some. intros [(? & ? & _)|[? ?]]; auto. }
  assert (forall j x, <[i := s']> (sections st) !! j = Some x ->
            exists y, sections st !! j = Some y /\ same_place y x) as Hold.
  { intros j x [[-> ->]|[_ ?]]%Hlk; [by exists s|]. exists x. by split; [|apply same_place_refl]. }
  assert (Forall (sec_wf m') (<[i := s']> (sections st))) as Hall.
  { apply Forall_lookup. intros j x [[-> ->]|[Hne Hj]]%Hlk; [done|].
    destruct (mw_secs st Hwf j x Hj) as [B1 B2 B3 B4 B5]. split; try done.
    apply (blocks_wf_pages (pages st)); [|done|done].
    intros q Hq%(free_in_section _ _ _ B1). apply Ht1. intros Hin. apply Hne.
    by apply (mw_disj st Hwf j i x s q). }
  assert (sum_npages (<[i := s']> (sections st)) <= 2 ^ 52) as Hsz.
  { rewrite (sum_npages_insert _ _ s) by done. apply (mw_size st Hwf). }
  split; simpl.
  - intros j x Hj. by apply (Forall_lookup_1 _ _ j x Hall).
  - intros j k x y q (x0 & Hx & Px)%Hold (y0 & Hy & Py)%Hold.
    rewrite (same_place_in_section _ _ _ Px), (same_place_in_section _ _ _ Py).
    by apply (mw_disj st Hwf).
  - intros j x (x0 & Hx & Px)%Hold. rewrite (pl_zone _ _ Px). unfold zone_add.
    destruct (mw_zone st Hwf j x0 Hx) as [zn Hz].
    apply lookup_lt_is_Some. rewrite length_alter. by apply lookup_lt_Some in Hz.
  - intros z zn j Hz Hj.
    assert (exists zn0, zones st !! z = Some zn0 /\ section_list zn = section_list zn0)
      as (zn0 & Hz0 & El).
    { unfold zone_add in Hz. destruct (decide (z = sec_zone s)) as [->|].
      - rewrite list_lookup_alter_eq in Hz. destruct (zones st !! sec_zone s); simplify_eq/=. eauto.
      - rewrite list_lookup_alter_ne in Hz by done. eauto. }
    rewrite El in Hj. destruct (mw_list st Hwf z zn0 j Hz0 Hj) as (x & Hx & Ez).
    destruct (decide (j = i)) as [->|].
    + exists s'. rewrite (list_lookup_inserted _ _ s) by done. split; [done|].
      rewrite (pl_zone _ _ Hp). congruence.
    + exists x. by rewrite list_lookup_insert_ne.
  - intros z zn Hz. rewrite (zone_sum_insert _ _ _ s) by (done || apply (pl_zone _ _ Hp)).
    pose proof (zone_sum_bound m' z _ Hall) as Hb.
    rewrite (zone_sum_insert _ _ _ s) in Hb by (done || apply (pl_zone _ _ Hp)).
    unfold zone_add in Hz. destruct (decide (sec_zone s = z)) as [<-|].
    + rewrite list_lookup_alter_eq in Hz. destruct (zones st !! sec_zone s) as [zn0|] eqn:E; simplify_eq/=.
      rewrite (mw_total st Hwf _ _ E). rewrite wrap_small; [lia|unfold_ints; lia].
    + rewrite list_lookup_alter_ne in Hz by done. rewrite (mw_total st Hwf _ _ Hz). lia.
  - done.
  - intros z zn f Hz Hf. unfold zone_add in *. rewrite length_alter.
    destruct (decide (z = sec_zone s)) as [->|].
    + rewrite list_lookup_alter_eq in Hz. destruct (zones st !! sec_zone s) eqn:E; simplify_eq/=.
      by apply (mw_fallback st Hwf _ _ _ E).
    + rewrite list_lookup_alter_ne in Hz by done. by apply (mw_fallback st Hwf _ zn).
  - apply lookup_lt_is_Some. unfold zone_add. rewrite length_alter.
    apply lookup_lt_is_Some, (mw_default st Hwf).
Qed.

(** ** Setting up the pages that are handed out *)
Definition tail_state (s : page_state) : option page_state :=
  match s with
  | PAGE_STATE_SLAB_HEAD => Some PAGE_STATE_SLAB_TAIL
  | PAGE_STATE_LARGE_HEAD => Some PAGE_STATE_LARGE_TAIL
  | _ => None
  end.
Definition tail_data (s : page_state) (p : Z) : page_data :=
  match s with
  | PAGE_STATE_SLAB_HEAD => Slab_tail None p
  | _ => Largetail refcount_init p
  end.

(** The vmemmap entries after [setup_pages_off_freelist]. *)
Definition set_up (m : gmap Z page) (s : page_state) (order p : Z) : Prop :=
  has_state m p s /\
  forall t, tail_state s = Some t ->
    forall q, p < q < p + 2 ^ order -> page_is m q t (tail_data s p).

Inductive allocatable : page_state -> Prop :=
| allocatable_used : allocatable PAGE_STATE_USED
| allocatable_slab : allocatable PAGE_STATE_SLAB_HEAD
| allocatable_table : allocatable PAGE_STATE_TABLE.

Lemma set_up_tails s order p m (f : page -> page) : 0 <= order ->
  (forall q, in_block order p q -> is_Some (m !! q)) ->
  (forall pg, tail_state s = Some (state (f pg)) /\ data (f pg) = tail_data s p) ->
  set_up (upd_range (fun _ => f) (Z.to_nat (2 ^ order - 1)) (p + 1) (alter (with_state s) p m))
    s order p.
Proof.
  intros Ho Hm Hf. pose proof (pow2_pos order Ho). unfold in_block in Hm.
  unfold set_up, has_state, page_is. split.
  - rewrite lookup_upd_range, decide_False, lookup_alter_eq by lia.
    destruct (Hm p) as [pg ->]; [lia|]. by eexists.
  - intros t Ht q Hq. rewrite lookup_upd_range, decide_True, lookup_alter_ne by lia.
    destruct (Hm q) as [pg ->]; [lia|]. destruct (Hf pg) as [Hs Hd].
    exists (f pg). split_and!; [done|congruence|done].
Qed.

Lemma touches_set_up s f order p m : 0 <= order ->
  touches p (p + 2 ^ order) m
    (upd_range f (Z.to_nat (2 ^ order - 1)) (p + 1) (alter (with_state s) p m)).
Proof.
  intros Ho. pose proof (pow2_pos order Ho). eapply touches_trans.
  - eapply touches_mono; [| |apply (touches_alter (with_state s) p)]; lia.
  - eapply touches_mono; [| |apply touches_upd_range]; lia.
Qed.

Lemma setup_off_ok s order p st : 0 <= order ->
  allocatable s \/ s = PAGE_STATE_LARGE_HEAD ->
  (forall q, in_block order p q -> is_Some (pages st !! q)) ->
  exists m', setup_pages_off_freelist p order s st = Ok (set_pages m' st) /\
  touches p (p + 2 ^ order) (pages st) m' /\ set_up m' s order p.
Proof.
  intros Ho Hs Hm. pose proof (pow2_pos order Ho).
  assert (is_Some (pages st !! p)) as Hp by (apply Hm; unfold in_block; lia).
  assert (s = PAGE_STATE_USED \/ s = PAGE_STATE_TABLE \/ s = PAGE_STATE_SLAB_HEAD \/
          s = PAGE_STATE_LARGE_HEAD) as Hc by (destruct Hs as [[]|]; auto).
  assert (touches p (p + 2 ^ order) (pages st) (alter (with_state s) p (pages st)) /\
          (tail_state s = None -> set_up (alter (with_state s) p (pages st)) s order p)) as [Ht Hu].
  { split.
    - eapply touches_mono; [| |apply touches_alter]; lia.
    - intros Hn. split; [|congruence]. destruct Hp as [pg Hp]. unfold has_state.
      rewrite lookup_alter_eq, Hp. by eexists. }
  assert (forall (f : Z -> page -> page) q, p + 1 <= q < p + 1 + Z.of_nat (Z.to_nat (2 ^ order - 1)) ->
            is_Some (alter (with_state s) p (pages st) !! q)) as Hm'.
  { intros _ q Hq. apply alter_mapped, Hm. unfold in_block. lia. }
  destruct Hc as [->|[->|[->| ->]]]; simpl in Hu.
  - exists (alter (with_state PAGE_STATE_USED) p (pages st)). split; [|by auto].
    apply for_pages_const; [done|done|done|]. lia.
  - exists (alter (with_state PAGE_STATE_TABLE) p (pages st)). split; [|by auto].
    by apply update_page_ok.
  - eexists. split; [|split].
    + unfold setup_pages_off_freelist, page_set_state. rewrite update_page_ok by done. simpl.
      rewrite (for_pages_upd _ (fun _ pg => with_data (Slab_tail None p)
                                 (with_state PAGE_STATE_SLAB_TAIL pg))).
      * reflexivity.
      * intros q st'. apply update_page_compose.
      * by apply Hm'.
    + by apply touches_set_up.
    + by apply set_up_tails.
  - eexists. split; [|split].
    + unfold setup_pages_off_freelist, page_set_state. rewrite update_page_ok by done. simpl.
      rewrite (for_pages_upd _ (fun _ pg => with_data (Largetail refcount_init p)
                                 (with_state PAGE_STATE_LARGE_TAIL pg))).
      * reflexivity.
      * intros q st'. apply update_page_compose.
      * by apply Hm'.
    + by apply touches_set_up.
    + by apply set_up_tails.
Qed.

(** The union member an allocation leaves in its first page. *)
Definition fresh_data (s : page_state) (info : option largepage_level_info) : page_data :=
  match s with
  | PAGE_STATE_USED => Used refcount_init
  | PAGE_STATE_SLAB_HEAD => Slab_head None None None
  | PAGE_STATE_TABLE => Table_page 0
  | _ => Largehead refcount_init refcount_init
           (match info with Some i => lp_level i | None => 0 end)
  end.
(** How many of the frames an allocation clears. *)
Definition zeroed (s : page_state) (alloc_flags order : Z) : Z :=
  match s with
  | PAGE_STATE_SLAB_HEAD => 2 ^ order
  | PAGE_STATE_TABLE => 1
  | _ => if alloc_zero_flag alloc_flags then 2 ^ order else 0
  end.

Lemma lookup_zero_frames n p fr q :
  zero_frames n p fr !! q =
    if decide (p <= q < p + Z.of_nat n) then Some (replicate 512 0) else fr !! q.
Proof.
  revert p fr. induction n as [|n IH]; intros p fr; cbn [zero_frames].
  - case_decide; [lia|done].
  - rewrite IH. destruct (decide (p = q)) as [->|].
    + rewrite lookup_insert_eq. repeat case_decide; first [lia|done].
    + rewrite lookup_insert_ne by done. repeat case_decide; first [lia|done].
Qed.

Lemma zero_multiple_ok p order st : 0 <= order < MAX_ORDER ->
  zero_multiple_pages p (2 ^ order) st =
    Ok (set_frames (zero_frames (Z.to_nat (2 ^ order)) p (frames st)) st).
Proof.
  intros Ho. unfold zero_multiple_pages, check_mul_assert, check_mul.
  pose proof (pow2_lt order MAX_ORDER ltac:(lia) ltac:(lia)) as H.
  change (2 ^ MAX_ORDER) with 2097152 in H. change PAGE_SIZE with 4096.
  destruct (Z.ltb_spec (4096 * 2 ^ order) (2 ^ 64)); [done|lia].
Qed.

Lemma setup_alloced_ok s flags order info p st : 0 <= order < MAX_ORDER ->
  allocatable s \/ s = PAGE_STATE_LARGE_HEAD /\ is_Some info ->
  is_Some (pages st !! p) ->
  setup_alloced_page p s flags order info st =
    Ok (Some p, set_frames (zero_frames (Z.to_nat (zeroed s flags order)) p (frames st))
                  (set_pages (alter (with_data (fresh_data s info)) p (pages st)) st)).
Proof.
  intros Ho Hs Hp. pose proof (pow2_pos order ltac:(lia)).
  destruct Hs as [[]|[-> [inf ->]]]; unfold setup_alloced_page, page_set_data, zeroed.
  - rewrite (for_pages_const _ (with_data (Used refcount_init)) _ _ p), outcome_bind_ok
      by (done || lia).
    destruct (alloc_zero_flag flags); [|by destruct st].
    by rewrite zero_multiple_ok by done.
  - rewrite zero_multiple_ok by done. simpl. by rewrite update_page_ok.
  - simpl. by rewrite update_page_ok.
  - simpl. rewrite update_page_ok, outcome_bind_ok by done.
    destruct (alloc_zero_flag flags); [|by destruct st].
    by rewrite zero_multiple_ok by done.
Qed.

(** ** Steps that leave every section in its place *)
Lemma same_place_trans s1 s2 s3 : same_place s1 s2 -> same_place s2 s3 -> same_place s1 s3.
Proof. intros [] []. split; congruence. Qed.

Definition same_places (st st' : mm) : Prop :=
  forall j s, sections st !! j = Some s ->
    exists s', sections st' !! j = Some s' /\ same_place s s'.

Lemma same_places_insert st st' i s s' : sections st !! i = Some s -> same_place s s' ->
  sections st' = <[i := s']> (sections st) -> same_places st st'.
Proof.
  intros Hs Hp E j x Hj. rewrite E. destruct (decide (j = i)) as [->|].
  - simplify_eq. exists s'. by erewrite list_lookup_inserted.
  - exists x. rewrite list_lookup_insert_ne by done. split; [done|apply same_place_refl].
Qed.

Lemma same_places_same st st' : sections st' = sections st -> same_places st st'.
Proof. intros E j s Hs. exists s. rewrite E. by split; [|apply same_place_refl]. Qed.

Lemma same_places_trans st1 st2 st3 : same_places st1 st2 -> same_places st2 st3 ->
  same_places st1 st3.
Proof.
  intros H1 H2 j s Hs. destruct (H1 j s Hs) as (s1 & Hs1 & P1).
  destruct (H2 j s1 Hs1) as (s2 & Hs2 & P2). exists s2. split; [done|]. by apply (same_place_trans _ s1).
Qed.

(** ** Allocation as a whole *)

(** What every successful allocation does to the allocator: the block was
    free, in one section, and nothing else stops being free. *)
Record allocated (lock : nat -> bool) (order p : Z) (st st' : mm) : Prop := {
  al_wf : mm_wf st';
  al_was : exists i, lock i = true /\ forall q, in_block order p q -> mm_free st i q;
  al_free : forall j q, mm_free st' j q <-> mm_free st j q /\ ~ in_block order p q;
  al_mapped : forall q, is_Some (pages st !! q) -> is_Some (pages st' !! q);
  al_kept : forall q, (forall j, ~ mm_free st j q) -> pages st' !! q = pages st !! q;
  al_zones : length (zones st') = length (zones st);
  al_places : same_places st st';
}.

Lemma mm_free_in_section st i s q : mm_wf st -> sections st !! i = Some s ->
  mm_free st i q -> in_section s q.
Proof.
  intros Hwf Hs (s0 & Hs0 & Hq). simplify_eq.
  by apply (free_in_section _ _ _ (sw_blocks _ _ (mw_secs st Hwf i s Hs))).
Qed.

(** Entries of pages that are not free may change freely. *)
Lemma mm_wf_pages st m' fr : mm_wf st ->
  (forall i q, mm_free st i q -> m' !! q = pages st !! q) ->
  (forall q, is_Some (pages st !! q) -> is_Some (m' !! q)) ->
  mm_wf (set_frames fr (set_pages m' st)).
Proof.
  intros Hwf E Hd. destruct Hwf as [H1 H2 H3 H4 H5 H6 H7 H8]. split; try done; simpl.
  intros i s Hs. destruct (H1 i s Hs) as [B1 B2 B3 B4 B5]. split; try done.
  apply (blocks_wf_pages (pages st)); [|done|done]. intros q Hq. apply (E i). by exists s.
Qed.

Lemma allocated_pages lock order p st st' m' fr : allocated lock order p st st' ->
  touches p (p + 2 ^ order) (pages st') m' ->
  allocated lock order p st (set_frames fr (set_pages m' st')).
Proof.
  intros [A1 A2 A3 A4 A7 A5 A6] [T1 T2]. split; try done.
  - apply mm_wf_pages; [done| |done]. intros i q [_ Hq]%A3. by apply T1.
  - intros q Hq. by apply T2, A4.
  - intros q Hq. simpl. rewrite T1; [by apply A7|]. intros Hin.
    destruct A2 as (i & _ & Hf). by apply (Hq i), Hf.
Qed.

(** One section: from the state before to the state with the block off. *)
Lemma allocated_step lock i order p s s' m' st : mm_wf st -> sections st !! i = Some s ->
  lock i = true -> alloc_post order p (pages st) s m' s' ->
  allocated lock order p st
    (set_sections (<[i := s']> (sections st))
       (set_zones (zone_add (- 2 ^ order) (sec_zone s) (zones st)) (set_pages m' st))).
Proof.
  intros Hwf Hs Hlock [P1 P2 P3 P4 P5 P6 P7]. split.
  - apply (mm_wf_step st i s s' m' (- 2 ^ order) (frames st)); try done. lia.
  - exists i. split; [done|]. intros q Hq. exists s. split; [done|by apply P5].
  - intros j q. unfold mm_free. simpl. destruct (decide (j = i)) as [->|].
    + rewrite (list_lookup_inserted _ _ s) by done. split.
      * intros (? & [= <-] & Hq). apply P4 in Hq as [??]. eauto.
      * intros [(? & ? & Hq) Hn]. simplify_eq. exists s'. split; [done|by apply P4].
    + rewrite list_lookup_insert_ne by done. split; [|by intros [? _]].
      intros (x & Hx & Hq). split; [eauto|]. intros Hin. apply P5 in Hin.
      assert (j = i); [|done]. apply (mw_disj st Hwf j i x s q); try done.
      * apply (mm_free_in_section st j); [done..|]. by exists x.
      * apply (mm_free_in_section st i); [done..|]. by exists s.
  - apply P6.
  - intros q Hq. apply P7. intros Hf. apply (Hq i). by exists s.
  - simpl. unfold zone_add. by rewrite length_alter.
  - by eapply same_places_insert.
Qed.

(** The section an allocated block lies in. *)
Lemma allocated_section lock order p st st' : mm_wf st -> 0 <= order ->
  allocated lock order p st st' ->
  exists i s', sections st' !! i = Some s' /\ pfn s' <= p /\ p + 2 ^ order <= pfn s' + npages s' /\
    (forall q, in_block order p q -> mm_free st i q) /\
    (forall j q, in_block order p q -> mm_free st j q -> j = i).
Proof.
  intros Hwf Ho A. pose proof (pow2_pos order Ho). unfold in_block.
  destruct (al_was _ _ _ _ _ A) as (i & _ & Hin). unfold in_block in Hin.
  destruct (Hin p ltac:(lia)) as (s & Hs & _).
  destruct (al_places _ _ _ _ _ A i s Hs) as (s' & Hs' & Pl).
  pose proof (fun q Hq => mm_free_in_section st i s q Hwf Hs (Hin q Hq)) as Hsec.
  unfold in_section in Hsec.
  pose proof (Hsec p ltac:(lia)). pose proof (Hsec (p + 2 ^ order - 1) ltac:(lia)).
  exists i, s'. rewrite (pl_pfn _ _ Pl), (same_place_npages _ _ Pl).
  split_and!; [done|lia|lia|done|].
  intros j q Hq (x & Hx & Hf). apply (mw_disj st Hwf j i x s q); [done..| |by apply Hsec].
  apply (mm_free_in_section st j); [done..|]. by exists x.
Qed.

Lemma allocated_mapped lock order p st st' q : mm_wf st -> allocated lock order p st st' ->
  in_block order p q -> is_Some (pages st' !! q).
Proof.
  intros Hwf A Hq. apply (al_mapped _ _ _ _ _ A). destruct (al_was _ _ _ _ _ A) as (i & _ & Hf).
  destruct (Hf q Hq) as (s & Hs & Hfree).
  pose proof (sw_blocks _ _ (mw_secs st Hwf i s Hs)) as Hb.
  apply (bw_mapped _ _ Hb), (free_in_section _ _ _ Hb Hfree).
Qed.

(** A section that can serve the request. *)
Definition can_serve (lock : nat -> bool) (order : Z) (i : nat) (st : mm) : Prop :=
  lock i = true /\ exists s o p, sections st !! i = Some s /\ block s o p /\
    order <= o < max_order s.

(** The frames' contents and [PAGE_END] are left alone. *)
Definition same_rest (st st' : mm) : Prop := frames st' = frames st /\ page_end st' = page_end st.

Lemma try_sections_ok lock order s st : mm_wf st -> 0 <= order < MAX_ORDER ->
  allocatable s -> forall secs,
  (forall i, i ∈ secs -> is_Some (sections st !! i)) ->
  (try_alloc_pages_from_sections lock order s secs st = Ok (None, st) /\
   forall i, i ∈ secs -> ~ can_serve lock order i st) \/
  (exists p st', try_alloc_pages_from_sections lock order s secs st = Ok (Some p, st') /\
   allocated lock order p st st' /\ set_up (pages st') s order p /\ same_rest st st').
Proof.
  intros Hwf Ho Hal. induction secs as [|i secs IH]; intros Hin; simpl.
  - left. split; [done|]. intros i ?%elem_of_nil. done.
  - assert (forall j, j ∈ secs -> is_Some (sections st !! j)) as Hin'
      by (intros; apply Hin; by right).
    specialize (IH Hin'). destruct (lock i) eqn:Hlock; simpl.
    2:{ destruct IH as [[-> Hn]|IH]; [left|by right]. split; [done|].
        intros j [->|Hj]%elem_of_cons; [|by apply Hn]. intros [? _]. congruence. }
    destruct (Hin i) as [sec Hs]; [left|]. unfold get_section. rewrite Hs. simpl.
    pose proof (mw_secs st Hwf i sec Hs) as Hsw.
    pose proof (bw_lists _ _ (sw_blocks _ _ Hsw)) as Hl.
    pose proof (sw_max _ _ Hsw). pose proof (sw_min0 _ _ Hsw).
    destruct (take_first_eq i (max_order sec) order sec st Hs Hl (mw_zone st Hwf i sec Hs)
                ltac:(lia) (Z.to_nat (max_order sec)) (Z.max order (min_order sec))
                ltac:(lia) ltac:(lia)) as [[-> Hn]|(o & p & Hor & Hb & ->)]; simpl.
    + destruct IH as [[-> Hn']|IH]; [left|by right]. split; [done|].
      intros j [->|Hj]%elem_of_cons; [|by apply Hn'].
      intros [_ (s0 & o & p & Hs0 & Hb & Hor)]. simplify_eq.
      apply (Hn o p); [|done]. pose proof (sw_min _ _ Hsw o p Hb). lia.
    + right. destruct (alloc_section_ok i order o p sec
        (set_zones (zone_add (- 2 ^ order) (sec_zone sec) (zones st)) st)) as (m' & s' & Heq & P);
        [done|done|done|lia|].
      simpl in Heq, P. bind_inv Heq st0 Hsp. rewrite Hsp. simpl. rewrite Heq. simpl.
      pose proof (allocated_step lock i order p sec s' m' st Hwf Hs Hlock P) as A.
      match type of A with allocated _ _ _ _ ?x => set (st1 := x) in A end.
      destruct (setup_off_ok s order p st1) as (m2 & Hset & Ht & Hu); [lia|by left| |].
      { intros q. by apply (allocated_mapped lock order p st). }
      exists p, (set_pages m2 st1). split; [|split].
      * change (set_sections (<[i := s']> (sections st)) _) with st1. by rewrite Hset.
      * by apply (allocated_pages lock order p st st1 m2 (frames st1)).
      * done.
Qed.

(** The zone's count never understates what its sections can give. *)
Lemma zone_total_enough lock st order i : mm_wf st -> 0 <= order -> can_serve lock order i st ->
  exists s zn, sections st !! i = Some s /\ zones st !! sec_zone s = Some zn /\
    2 ^ order <= zone_total_free zn.
Proof.
  intros Hwf Ho (_ & s & o & p & Hs & Hb & Hor).
  destruct (mw_zone st Hwf i s Hs) as [zn Hz]. exists s, zn. split_and!; [done..|].
  rewrite (mw_total st Hwf _ _ Hz).
  pose proof (zone_sum_ge _ (sec_zone s) _ i s (mw_forall st Hwf) Hs eq_refl).
  pose proof (sw_total _ _ (mw_secs st Hwf i s Hs)).
  pose proof (total_ge_block s o p Hb). pose proof (pow2_le order o ltac:(lia)). lia.
Qed.

Lemma try_zone_ok lock z order s st : mm_wf st -> 0 <= order < MAX_ORDER ->
  allocatable s -> is_Some (zones st !! z) ->
  (try_alloc_pages_from_zone lock z order s st = Ok (None, st) /\
   forall zn i, zones st !! z = Some zn -> i ∈ section_list zn -> ~ can_serve lock order i st) \/
  (exists p st', try_alloc_pages_from_zone lock z order s st = Ok (Some p, st') /\
   allocated lock order p st st' /\ set_up (pages st') s order p /\ same_rest st st').
Proof.
  intros Hwf Ho Hal [zn Hz]. unfold try_alloc_pages_from_zone, get_zone. rewrite Hz. simpl.
  destruct (Z.ltb_spec (zone_total_free zn) (2 ^ order)) as [Hlt|].
  - left. split; [done|]. intros zn' i [= <-] Hi Hc.
    destruct (zone_total_enough lock st order i Hwf ltac:(lia) Hc) as (s0 & zn' & Hs & Hz' & Hle).
    destruct (mw_list st Hwf z zn i Hz Hi) as (s1 & Hs1 & E). simplify_eq. lia.
  - destruct (try_sections_ok lock order s st Hwf Ho Hal (section_list zn)) as [[-> Hn]|H'].
    + intros i Hi. destruct (mw_list st Hwf z zn i Hz Hi) as (s1 & Hs1 & _). eauto.
    + left. split; [done|]. intros zn' i [= <-]. apply Hn.
    + by right.
Qed.

(** The chain of fallback zones of zone [z]. *)
Inductive zone_chain (st : mm) : nat -> nat -> Prop :=
| zone_chain_here z : zone_chain st z z
| zone_chain_next z zn f z' : zones st !! z = Some zn -> fallback_zone zn = Some f ->
    zone_chain st f z' -> zone_chain st z z'.

(** Walking the zones, for any way to try one that leaves the state alone when
    it fails. *)
Lemma walk_zones_ok (try : nat -> mm -> outcome (option Z * mm)) setup
    (good : Z -> mm -> Prop) (never : nat -> Prop) st :
  mm_wf st ->
  (forall z, is_Some (zones st !! z) ->
     (try z st = Ok (None, st) /\ never z) \/
     (exists p st', try z st = Ok (Some p, st') /\ good p st')) ->
  forall fuel z, (z < length (zones st))%nat -> (length (zones st) <= z + fuel)%nat ->
  (walk_zones fuel try setup (Some z) st = Ok (None, st) /\
   forall z', zone_chain st z z' -> never z') \/
  (exists p st', walk_zones fuel try setup (Some z) st = setup p st' /\ good p st').
Proof.
  intros Hwf Htry. induction fuel as [|fuel IH]; intros z Hz Hf; [lia|]. cbn [walk_zones].
  pose proof (lookup_lt_is_Some_2 _ _ Hz) as Hzn.
  destruct (Htry z Hzn) as [[-> Hn]|(p & st' & -> & Hg)]; [|right; by eauto].
  destruct Hzn as [zn Hzn]. simpl. unfold get_zone. rewrite Hzn. simpl.
  destruct (fallback_zone zn) as [f|] eqn:Ef.
  - pose proof (mw_fallback st Hwf z zn f Hzn Ef).
    destruct (IH f) as [[-> Hr]|Hr]; [lia..| |by right].
    left. split; [done|]. intros z' Hc. inversion Hc; simplify_eq; auto.
  - left. split; [by destruct fuel|]. intros z' Hc. inversion Hc; by simplify_eq.
Qed.

(** A page that has just been handed out, as the caller finds it. *)
Record handed_out (s : page_state) (info : option largepage_level_info)
    (alloc_flags order p : Z) (st st' : mm) : Prop := {
  ho_head : page_is (pages st') p s (fresh_data s info);
  ho_tails : forall t, tail_state s = Some t ->
    forall q, p < q < p + 2 ^ order -> page_is (pages st') q t (tail_data s p);
  ho_zero : forall q, p <= q < p + zeroed s alloc_flags order ->
    frames st' !! q = Some (replicate 512 0);
  ho_frames : forall q, ~ p <= q < p + zeroed s alloc_flags order ->
    frames st' !! q = frames st !! q;
}.

Lemma zeroed_range s flags order : 0 <= order -> 0 <= zeroed s flags order <= 2 ^ order.
Proof.
  intros Ho. pose proof (pow2_pos order Ho). unfold zeroed.
  destruct s, (alloc_zero_flag flags); lia.
Qed.

(** [setup_alloced_page] on a page just taken off the lists. *)
Lemma setup_alloced_done lock s flags order info p st st1 : mm_wf st ->
  0 <= order < MAX_ORDER -> allocatable s \/ s = PAGE_STATE_LARGE_HEAD /\ is_Some info ->
  allocated lock order p st st1 -> set_up (pages st1) s order p -> same_rest st st1 ->
  exists st', setup_alloced_page p s flags order info st1 = Ok (Some p, st') /\
    allocated lock order p st st' /\ handed_out s info flags order p st st'.
Proof.
  intros Hwf Ho Hs A [Hh Ht] [Ef _]. pose proof (pow2_pos order ltac:(lia)).
  assert (is_Some (pages st1 !! p)) as Hp by (destruct Hh as (pg & -> & _); eauto).
  rewrite setup_alloced_ok by done. eexists. split; [done|]. split.
  - apply allocated_pages; [done|].
    eapply touches_mono; [| |apply touches_alter]; lia.
  - pose proof (zeroed_range s flags order ltac:(lia)).
    split; simpl.
    + destruct Hh as (pg & Hpg & Hst). unfold page_is. rewrite lookup_alter_eq, Hpg.
      by eexists.
    + intros t Hts q Hq. unfold page_is. rewrite lookup_alter_ne by lia. by apply (Ht t).
    + intros q Hq. rewrite lookup_zero_frames, decide_True by lia. done.
    + intros q Hq. rewrite lookup_zero_frames, decide_False by lia. by rewrite Ef.
Qed.

Lemma alloc_pages_ok lock s flags order st : mm_wf st -> 0 <= order -> allocatable s ->
  (alloc_pages lock s flags order st = Ok (None, st) /\
   (MAX_ORDER <= order \/ forall z zn i, zone_chain st page_zone_default z ->
      zones st !! z = Some zn -> i ∈ section_list zn -> ~ can_serve lock order i st)) \/
  (exists p st', alloc_pages lock s flags order st = Ok (Some p, st') /\
   allocated lock order p st st' /\ handed_out s None flags order p st st').
Proof.
  intros Hwf Ho Hal. unfold alloc_pages. rewrite Z.geb_leb.
  destruct (Z.leb_spec MAX_ORDER order); [left; auto|].
  destruct (mw_default st Hwf) as [zn0 Hz0].
  edestruct (walk_zones_ok (fun z => try_alloc_pages_from_zone lock z order s)
    (fun page => setup_alloced_page page s flags order None)
    (fun p st' => allocated lock order p st st' /\ set_up (pages st') s order p /\ same_rest st st')
    (fun z => forall zn i, zones st !! z = Some zn -> i ∈ section_list zn ->
       ~ can_serve lock order i st) st Hwf)
    as [[-> Hn]|(p & st1 & -> & A & Hu & Hr)].
  - intros z Hz. apply try_zone_ok; done || lia.
  - by eapply lookup_lt_Some.
  - lia.
  - left. split; [done|]. right. eauto.
  - right. destruct (setup_alloced_done lock s flags order None p st st1) as (st' & -> & ? & ?);
      [done|lia|by left|done..|]. eauto.
Qed.

(** ** Returning a range of pages *)
Lemma drop_order_spec n avail : 1 <= avail ->
  0 <= drop_order n avail <= Z.of_nat n /\ 2 ^ drop_order n avail <= avail /\
  (drop_order n avail = Z.of_nat n \/ avail < 2 ^ (drop_order n avail + 1)).
Proof.
  intros Ha. induction n as [|n IH].
  - simpl. destruct (Z.geb_spec avail (2 ^ Z.of_nat 0)); simpl in *; [|lia].
    split_and!; try lia.
  - cbn [drop_order]. destruct (Z.geb_spec avail (2 ^ Z.of_nat (S n))); [lia|].
    destruct IH as (H1 & H2 & H3). split_and!; [lia..|]. right.
    destruct H3 as [->|]; [|done]. replace (Z.of_nat n + 1) with (Z.of_nat (S n)) by lia. done.
Qed.

Lemma zone_add_add d d' z zs : zone_add d z (zone_add d' z zs) = zone_add (d' + d) z zs.
Proof.
  unfold zone_add. apply list_eq. intros k. destruct (decide (z = k)) as [->|].
  - rewrite !list_lookup_alter_eq. destruct (zs !! k) as [zn|]; simpl; [|done].
    unfold with_zone_total. simpl. do 2 f_equal. unfold wrap.
    rewrite Zplus_mod_idemp_l. f_equal. lia.
  - by rewrite !list_lookup_alter_ne.
Qed.

Record free_range_post (page amount : Z) (m : gmap Z PageAlloc.page) (s : page_section)
    (m' : gmap Z PageAlloc.page) (s' : page_section) : Prop := {
  fp_wf : sec_wf m' s';
  fp_place : same_place s s';
  fp_total : total_free s' = total_free s + amount;
  fp_free : forall q, free_page s' q <-> free_page s q \/ page <= q < page + amount;
  fp_touch : touches page (page + amount) m m';
}.

(** The section while the loop runs: [min_order] is only lowered at the end. *)
Record loop_wf (order : Z) (m : gmap Z page) (s : page_section) : Prop := {
  lp_blocks : blocks_wf m s;
  lp_total : total_free s = total_of s;
  lp_min : forall o p, block s o p -> Z.min (min_order s) order <= o;
  lp_min0 : 0 <= min_order s;
  lp_max : 0 <= max_order s <= MAX_ORDER;
}.

Lemma finish_free_fields order s : 0 <= order < MAX_ORDER -> 0 <= min_order s ->
  0 <= max_order s <= MAX_ORDER ->
  min_order (finish_free_range order s) = Z.min (min_order s) order /\
  max_order (finish_free_range order s) = Z.max (max_order s) (order + 1) /\
  total_free (finish_free_range order s) = total_free s /\
  same_place s (finish_free_range order s).
Proof.
  intros Ho Hm HM. unfold finish_free_range. rewrite !Z.gtb_ltb.
  destruct (Z.ltb_spec order (min_order s)); simpl;
    match goal with |- context [?a <=? ?b] => destruct (Z.leb_spec a b) end; simpl;
    (split_and!; [lia..|done|done]).
Qed.

(** One round: a block goes on the list of its order. *)
Lemma push_round i order page s st : sections st !! i = Some s ->
  loop_wf order (pages st) s -> 0 <= order < MAX_ORDER -> is_Some (zones st !! sec_zone s) ->
  pfn s <= page -> page + 2 ^ order <= pfn s + npages s ->
  (forall q, in_block order page q -> ~ free_page s q) ->
  exists m' s',
  add_to_freelist_order i order page st =
    Ok (set_sections (<[i := s']> (sections st))
          (set_zones (zone_add (2 ^ order) (sec_zone s) (zones st)) (set_pages m' st))) /\
  loop_wf order m' s' /\ same_place s s' /\
  min_order s' = min_order s /\ max_order s' = max_order s /\
  total_free s' = total_free s + 2 ^ order /\
  (forall q, free_page s' q <-> free_page s q \/ page <= q < page + 2 ^ order) /\
  touches page (page + 2 ^ order) (pages st) m'.
Proof.
  intros Hs [Hwf Ht Hmin Hmin0 Hmax] Ho Hz Hlo Hhi Hfree.
  pose proof (bw_lists _ _ Hwf) as Hl. pose proof (pow2_pos order ltac:(lia)).
  assert (forall q, in_block order page q -> is_Some (pages st !! q)) as Hm.
  { intros q Hq. apply (bw_mapped _ _ Hwf). unfold in_block, in_section in *. lia. }
  exists (mark_block order page (pages st)), (push_block order page (add_total (2 ^ order) s)).
  assert (same_lists (push_block order page s) (push_block order page (add_total (2 ^ order) s)))
    as Hsl by by split.
  assert (blocks_wf (mark_block order page (pages st)) (push_block order page s)) as Hwf'.
  { apply (blocks_wf_push (pages st)); try done.
    - by apply marked_mark_block; [lia|].
    - intros q Hq. by apply lookup_mark_block_out; [lia|]. }
  pose proof (sec_total_bound _ _ Hwf') as Hb. rewrite total_push in Hb by done.
  pose proof (sec_total_bound _ _ Hwf) as Hb0.
  assert (total_free (push_block order page (add_total (2 ^ order) s)) = total_of s + 2 ^ order) as E.
  { simpl. rewrite Ht, wrap_small by (unfold_ints; lia). done. }
  split_and!; try done.
  - by apply add_eq.
  - split; try done.
    + by apply (blocks_wf_ext _ _ _ Hsl).
    + rewrite E, (same_lists_total _ _ Hsl), total_push by done. done.
    + intros o p [[-> ->]|Hb']%(same_lists_block _ _ _ _ Hsl)%(block_push s); try done; simpl.
      * lia.
      * by apply (Hmin o p).
  - by rewrite E, Ht.
  - intros q. rewrite (same_lists_free_page _ _ _ Hsl), free_page_push by done.
    unfold in_block. tauto.
  - apply touches_mark_block. lia.
Qed.

Lemma loop_wf_mono order order' m s : order' <= order -> loop_wf order m s -> loop_wf order' m s.
Proof.
  intros Ho [H1 H2 H3 H4 H5]. split; try done. intros o p Hb. specialize (H3 o p Hb). lia.
Qed.

Lemma free_range_loop_ok i : forall fuel order page avail s st,
  sections st !! i = Some s -> loop_wf order (pages st) s ->
  is_Some (zones st !! sec_zone s) ->
  0 <= order < MAX_ORDER -> 2 ^ order <= avail < 2 ^ 64 -> avail < Z.of_nat fuel ->
  pfn s <= page -> page + avail <= pfn s + npages s ->
  (forall q, page <= q < page + avail -> ~ free_page s q) ->
  exists m' s',
  free_range_loop fuel i order page avail st =
    Ok (set_sections (<[i := s']> (sections st))
          (set_zones (zone_add avail (sec_zone s) (zones st)) (set_pages m' st))) /\
  free_range_post page avail (pages st) s m' s'.
Proof.
  induction fuel as [|fuel IH]; intros order page avail s st Hs Hwf Hz Ho Ha Hf Hlo Hhi Hfree; [lia|].
  pose proof (pow2_pos order ltac:(lia)). cbn [free_range_loop].
  rewrite (wrap_small 8 order) by (unfold_ints; unfold MAX_ORDER in *; lia).
  destruct (push_round i order page s st) as (m1 & s1 & -> & W1 & P1 & M1 & X1 & T1 & F1 & U1);
    [done..|lia| |].
  { intros q Hq. apply Hfree. unfold in_block in Hq. lia. }
  rewrite outcome_bind_ok. cbv zeta. rewrite (wrap_small 64 (avail - 2 ^ order)) by (unfold_ints; lia).
  pose proof W1 as [B1 B2 B3 B4 B5].
  destruct (Z.eqb_spec (avail - 2 ^ order) 0).
  - assert (avail = 2 ^ order) as -> by lia.
    erewrite update_section_ok by (simpl; by apply list_lookup_inserted with s).
    destruct (finish_free_fields order s1 Ho B4 B5) as (E1 & E2 & E3 & E4).
    pose proof (same_lists_finish_free order s1) as Hsl.
    exists m1, (finish_free_range order s1). split.
    { unfold set_sections, set_pages, set_zones. simpl. by rewrite list_insert_insert_eq. }
    split.
    + split.
      * by apply (blocks_wf_ext m1 s1).
      * by rewrite E3, (same_lists_total _ _ Hsl).
      * intros o p Hb%(same_lists_block _ _ _ _ Hsl). rewrite E1. by apply (B3 o p).
      * rewrite E1. lia.
      * rewrite E2. lia.
    + by apply (same_place_trans _ s1).
    + by rewrite E3.
    + intros q. by rewrite (same_lists_free_page _ _ _ Hsl).
    + done.
  - destruct (drop_order_spec (Z.to_nat order) (avail - 2 ^ order)) as (D1 & D2 & _); [lia|].
    set (order' := drop_order (Z.to_nat order) (avail - 2 ^ order)) in *.
    destruct (IH order' (page + 2 ^ order) (avail - 2 ^ order) s1
      (set_sections (<[i := s1]> (sections st))
          (set_zones (zone_add (2 ^ order) (sec_zone s) (zones st)) (set_pages m1 st))))
      as (m2 & s2 & -> & [Q1 Q2 Q3 Q4 Q5]); clear IH.
    + simpl. by apply list_lookup_inserted with s.
    + simpl. apply (loop_wf_mono order); [lia|done].
    + simpl. rewrite (pl_zone _ _ P1). unfold zone_add. apply lookup_lt_is_Some.
      rewrite length_alter. by apply lookup_lt_is_Some.
    + lia.
    + lia.
    + lia.
    + rewrite (pl_pfn _ _ P1). lia.
    + rewrite (pl_pfn _ _ P1), (same_place_npages _ _ P1). lia.
    + intros q Hq [Hq'|?]%F1; [|lia]. apply (Hfree q); [lia|done].
    + exists m2, s2. split.
      { unfold set_sections, set_pages, set_zones. simpl.
        rewrite list_insert_insert_eq, (pl_zone _ _ P1), zone_add_add.
        by replace (2 ^ order + (avail - 2 ^ order)) with avail by lia. }
      split.
      * done.
      * by apply (same_place_trans _ s1).
      * lia.
      * intros q. rewrite Q4, F1. split; [intros [[?|?]|?]|intros [?|?]]; try tauto; [right; lia..|].
        destruct (decide (q < page + 2 ^ order)); [left; right; lia|right; lia].
      * eapply touches_trans; [eapply touches_mono; [| |exact U1]|eapply touches_mono; [| |exact Q5]]; lia.
Qed.

Lemma free_range_ok page i amount s st : mm_wf st -> sections st !! i = Some s ->
  0 < amount -> pfn s <= page -> page + amount <= pfn s + npages s ->
  (forall q, page <= q < page + amount -> ~ free_page s q) ->
  exists m' s',
  free_range_of_pages page i amount st =
    Ok (set_sections (<[i := s']> (sections st))
          (set_zones (zone_add amount (sec_zone s) (zones st)) (set_pages m' st))) /\
  free_range_post page amount (pages st) s m' s'.
Proof.
  intros Hwf Hs Ha Hlo Hhi Hfree. unfold free_range_of_pages.
  destruct (mw_secs st Hwf i s Hs) as [B1 B2 B3 B4 B5]. pose proof (bw_size _ _ B1).
  destruct (drop_order_spec (Z.to_nat (MAX_ORDER - 1)) amount) as (D1 & D2 & _); [lia|].
  apply free_range_loop_ok; try done; [|by apply (mw_zone st Hwf i)|unfold MAX_ORDER in *; lia|lia|lia].
  split; try done. intros o p Hb. specialize (B3 o p Hb). lia.
Qed.

(** ** Steps on the whole state *)
Record range_freed (i : nat) (page amount : Z) (st st' : mm) : Prop := {
  rf_wf : mm_wf st';
  rf_free : forall j q, mm_free st' j q <-> mm_free st j q \/ (j = i /\ page <= q < page + amount);
  rf_touch : touches page (page + amount) (pages st) (pages st');
  rf_places : same_places st st';
  rf_rest : same_rest st st';
  rf_zones : length (zones st') = length (zones st);
}.

Lemma free_range_step page i amount s st : mm_wf st -> sections st !! i = Some s ->
  0 < amount -> pfn s <= page -> page + amount <= pfn s + npages s ->
  (forall q, page <= q < page + amount -> ~ mm_free st i q) ->
  exists st', free_range_of_pages page i amount st = Ok st' /\ range_freed i page amount st st'.
Proof.
  intros Hwf Hs Ha Hlo Hhi Hfree.
  destruct (free_range_ok page i amount s st Hwf Hs Ha Hlo Hhi) as (m' & s' & -> & [P1 P2 P3 P4 P5]).
  { intros q Hq Hf. apply (Hfree q Hq). by exists s. }
  eexists. split; [done|]. split.
  - apply (mm_wf_step st i s s' m' amount (frames st)); try done; [|lia].
    eapply touches_mono; [| |exact P5]; lia.
  - intros j q. unfold mm_free. simpl. destruct (decide (j = i)) as [->|].
    + rewrite (list_lookup_inserted _ _ s) by done. split.
      * intros (? & [= <-] & [Hq|Hq]%P4); [left; by eauto|by right].
      * intros [(? & ? & Hq)|[_ Hq]]; simplify_eq; exists s'; (split; [done|apply P4; auto]).
    + rewrite list_lookup_insert_ne by done. naive_solver.
  - done.
  - by eapply same_places_insert.
  - done.
  - simpl. unfold zone_add. by rewrite length_alter.
Qed.

Lemma take_step i o p s st : mm_wf st -> sections st !! i = Some s -> block s o p ->
  exists st', take_off_freelist_order i o p o st = Ok st' /\ mm_wf st' /\
  (forall j q, mm_free st' j q <-> mm_free st j q /\ ~ in_block o p q) /\
  pages st' = pages st /\ same_places st st' /\ same_rest st st' /\
  length (zones st') = length (zones st).
Proof.
  intros Hwf Hs Hb. pose proof (mw_secs st Hwf i s Hs) as Hsw.
  pose proof (sw_blocks _ _ Hsw) as Hbw. pose proof (bw_lists _ _ Hbw) as Hl.
  pose proof (block_order s o p Hl Hb).
  rewrite (take_eq i o p o s) by (try done; by apply (mw_zone st Hwf i)).
  destruct (take_ok _ s o p o Hsw Hb ltac:(lia)) as [T1 T2 T3 T4 T5 T6 T7 T8 T9 T10].
  set (s' := take_block o p o s) in *.
  assert (same_place s s') as Hp by (split; try done; apply T1).
  eexists. split; [done|]. split_and!.
  - apply (mm_wf_step st i s s' (pages st) (- 2 ^ o) (frames st)); try done.
    + split; try done. lia.
    + rewrite T3, (sw_total _ _ Hsw). lia.
  - intros j q. unfold mm_free. simpl. destruct (decide (j = i)) as [->|].
    + rewrite (list_lookup_inserted _ _ s) by done. split.
      * intros (? & [= <-] & [Hq Hn]%T5). by eauto.
      * intros [(? & ? & Hq) Hn]. simplify_eq. exists s'. split; [done|by apply T5].
    + rewrite list_lookup_insert_ne by done. split; [|by intros [? _]].
      intros (x & Hx & Hq). split; [eauto|]. intros Hin.
      assert (j = i); [|done]. apply (mw_disj st Hwf j i x s q); try done.
      * apply (mm_free_in_section st j); [done..|]. by exists x.
      * by apply (block_in_section _ _ o p q Hbw).
  - done.
  - by eapply same_places_insert.
  - done.
  - simpl. unfold zone_add. by rewrite length_alter.
Qed.

(** ** Large pages *)

(** The vmemmap's back pointers and the physical ranges of the sections. *)
Record mm_phys (st : mm) : Prop := {
  mp_section : forall i s q pg, sections st !! i = Some s -> in_section s q ->
    pages st !! q = Some pg -> section pg = i;
  mp_range : forall i s, sections st !! i = Some s ->
    0 <= range_front s /\ range_front s + PAGE_SIZE * npages s <= 2 ^ 52 /\
    (PAGE_SIZE | range_front s) /\ 0 <= pfn s /\ pfn s + npages s <= 2 ^ 52;
  mp_end : forall i s, sections st !! i = Some s -> pfn s + npages s <= page_end st;
}.

Definition phys_of (s : page_section) (q : Z) : Z :=
  range_front s + PAGE_SIZE * (q - pfn s).

Lemma page_to_phys_ok st i s q : mm_wf st -> mm_phys st -> sections st !! i = Some s ->
  in_section s q -> page_to_phys q st = Ok (phys_of s q) /\ in_u 64 (phys_of s q).
Proof.
  intros Hwf Hph Hs Hq.
  destruct (bw_mapped _ _ (sw_blocks _ _ (mw_secs st Hwf i s Hs)) q Hq) as [pg Hpg].
  destruct (mp_range st Hph i s Hs) as (R1 & R2 & R3 & R4 & R5).
  unfold in_section in Hq. change PAGE_SIZE with 4096 in *.
  assert (0 <= phys_of s q < 2 ^ 52) as Hb.
  { unfold phys_of. change PAGE_SIZE with 4096. nia. }
  split; [|unfold_ints; lia].
  pose proof (mp_end st Hph i s Hs).
  unfold page_to_phys. rewrite c_assert_true, outcome_bind_ok
    by (apply andb_true_intro; split; [apply Z.leb_le|apply Z.ltb_lt]; lia).
  unfold page_to_section, get_page. rewrite Hpg. simpl.
  rewrite (mp_section st Hph i s q pg) by done. unfold get_section. rewrite Hs. simpl.
  unfold check_sub_assert, check_sub. destruct (Z.leb_spec (pfn s) q); [|lia]. simpl.
  unfold phys_of in *. change PAGE_SIZE with 4096 in *. unfold PAGE_SHIFT.
  rewrite Z.shiftl_mul_pow2 by lia. change (2 ^ 12) with 4096.
  rewrite (wrap_small 64 (q - pfn s)) by (unfold_ints; lia).
  rewrite (wrap_small 64 (_ * 4096)) by (unfold_ints; lia).
  rewrite wrap_small by (unfold_ints; lia). f_equal. lia.
Qed.

(** The alignment of a page of [2 ^ order] pages. *)
Definition lp_align (order : Z) : Z := 2 ^ (order + PAGE_SHIFT).

Lemma lp_align_shift order : 0 <= order < MAX_ORDER ->
  u64 (Z.shiftl PAGE_SIZE order) = lp_align order.
Proof.
  intros Ho. rewrite Z.shiftl_mul_pow2 by lia. unfold PAGE_SIZE, lp_align, PAGE_SHIFT.
  rewrite (Z.add_comm order), Z.pow_add_r by lia.
  pose proof (pow2_lt order 21 ltac:(lia) ltac:(unfold MAX_ORDER in *; lia)).
  pose proof (pow2_pos order ltac:(lia)).
  apply wrap_small. unfold_ints. lia.
Qed.

Definition phys_aligned (s : page_section) (order q : Z) : Prop :=
  phys_of s q `mod` lp_align order = 0.

Lemma has_align_phys st i s q order : mm_wf st -> mm_phys st -> sections st !! i = Some s ->
  in_section s q -> 0 <= order < MAX_ORDER ->
  has_align (phys_of s q) (lp_align order) = Ok (phys_of s q `mod` lp_align order =? 0).
Proof.
  intros Hwf Hph Hs Hq Ho. apply has_align_eq; [unfold PAGE_SHIFT, MAX_ORDER in *; lia|].
  by apply (page_to_phys_ok st i).
Qed.

Lemma find_aligned_ok st i s order : mm_wf st -> mm_phys st -> sections st !! i = Some s ->
  0 <= order < MAX_ORDER -> forall l, (forall q, q ∈ l -> in_section s q) ->
  (find_aligned (lp_align order) l st = Ok None /\ forall q, q ∈ l -> ~ phys_aligned s order q) \/
  (exists p, find_aligned (lp_align order) l st = Ok (Some p) /\ p ∈ l /\ phys_aligned s order p).
Proof.
  intros Hwf Hph Hs Ho. induction l as [|q l IH]; intros Hl; simpl.
  - left. split; [done|]. by intros ? ?%elem_of_nil.
  - assert (in_section s q) as Hq by (apply Hl; left).
    destruct (page_to_phys_ok st i s q Hwf Hph Hs Hq) as [-> _]. simpl.
    rewrite (has_align_phys st i) by done. simpl.
    destruct (Z.eqb_spec (phys_of s q `mod` lp_align order) 0) as [Ha|Ha].
    + right. exists q. split_and!; [done|left|done].
    + destruct IH as [[-> Hn]|(p & -> & Hp & Ha')]; [by intros; apply Hl; right|left|right].
      * split; [done|]. by intros ? [->|?]%elem_of_cons; [|apply Hn].
      * exists p. split_and!; [done|by right|done].
Qed.

(** Where the first aligned page of a block is. *)
Lemma aligned_offset st i s order head : mm_wf st -> mm_phys st -> sections st !! i = Some s ->
  in_section s head -> 0 <= order < MAX_ORDER ->
  let off := PAGE_COUNT (ceil_mult (phys_of s head) (lp_align order) - phys_of s head) in
  0 <= off < 2 ^ order /\ phys_aligned s order (head + off) /\
  (off = 0 -> phys_aligned s order head) /\
  (phys_aligned s order head -> off = 0).
Proof.
  intros Hwf Hph Hs Hin Ho off.
  destruct (mp_range st Hph i s Hs) as (_ & _ & [k Hk] & _).
  pose proof (pow2_pos order ltac:(lia)) as Hpos.
  assert (lp_align order = 2 ^ order * PAGE_SIZE) as Ea.
  { unfold lp_align. rewrite Z.pow_add_r; [done|lia|unfold PAGE_SHIFT; lia]. }
  assert (0 < PAGE_SIZE) as Hps by done.
  pose proof (ceil_mult_spec (phys_of s head) (lp_align order) ltac:(nia)) as [[C1 C2] [c Hc]].
  assert (phys_of s head = (k + (head - pfn s)) * PAGE_SIZE) as Ep by (unfold phys_of; lia).
  assert (off = c * 2 ^ order - (k + (head - pfn s))) as Eoff.
  { unfold off, PAGE_COUNT. rewrite Hc, Ep, Ea.
    replace (c * (2 ^ order * PAGE_SIZE) - (k + (head - pfn s)) * PAGE_SIZE)
      with ((c * 2 ^ order - (k + (head - pfn s))) * PAGE_SIZE) by lia.
    by rewrite Z.div_mul by lia. }
  assert (phys_of s (head + off) = c * lp_align order) as Eph.
  { unfold phys_of in *. rewrite Ea, Eoff. lia. }
  assert (phys_aligned s order (head + off)) as Hal.
  { unfold phys_aligned. rewrite Eph. apply Z.mod_mul. nia. }
  split_and!; [nia|nia|done| |].
  - intros E0. by rewrite E0, Z.add_0_r in Hal.
  - intros E0. apply Z.mod_divide in E0 as [b Hb]; [|nia].
    assert (0 < lp_align order) as HA by nia. rewrite Hc, Hb in C1, C2.
    unfold off. rewrite Hc, Hb.
    assert (c = b) as ->.
    { clear -C1 C2 HA. nia. }
    by rewrite Z.sub_diag.
Qed.

Lemma align_up_phys st i s q order : mm_wf st -> mm_phys st -> sections st !! i = Some s ->
  in_section s q -> 0 <= order < MAX_ORDER ->
  align_up (phys_of s q) (lp_align order) =
    Ok (Some (ceil_mult (phys_of s q) (lp_align order))).
Proof.
  intros Hwf Hph Hs Hq Ho.
  destruct (page_to_phys_ok st i s q Hwf Hph Hs Hq) as [_ Hu].
  destruct (mp_range st Hph i s Hs) as (R1 & R2 & _).
  unfold in_section, phys_of, lp_align in *. change PAGE_SIZE with 4096 in *.
  rewrite align_up_eq by (done || unfold PAGE_SHIFT, MAX_ORDER in *; lia).
  set (n := range_front s + 4096 * (q - pfn s)) in *.
  pose proof (pow2_le (order + PAGE_SHIFT) 33 ltac:(unfold PAGE_SHIFT, MAX_ORDER in *; lia)).
  pose proof (ceil_mult_spec n (2 ^ (order + PAGE_SHIFT))
                (pow2_pos (order + PAGE_SHIFT) ltac:(unfold PAGE_SHIFT in *; lia))) as [[_ Hc] _].
  destruct (Z.ltb_spec (ceil_mult n (2 ^ (order + PAGE_SHIFT))) (2 ^ 64)); [done|].
  assert (n < 2 ^ 52) by (unfold n; lia). lia.
Qed.

Record large_taken (i : nat) (order p : Z) (st st' : mm) : Prop := {
  lt_wf : mm_wf st';
  lt_was : forall q, in_block order p q -> mm_free st i q;
  lt_free : forall j q, mm_free st' j q <-> mm_free st j q /\ ~ in_block order p q;
  lt_mapped : forall q, is_Some (pages st !! q) -> is_Some (pages st' !! q);
  lt_kept : forall q, (forall j, ~ mm_free st j q) -> pages st' !! q = pages st !! q;
  lt_zones : length (zones st') = length (zones st);
  lt_places : same_places st st';
  lt_set_up : set_up (pages st') PAGE_STATE_LARGE_HEAD order p;
  lt_rest : same_rest st st';
  lt_aligned : forall s, sections st !! i = Some s -> phys_aligned s order p;
}.

(** [setup_pages_off_freelist] on pages that are off every list. *)
Lemma large_set_up_step order p st1 : mm_wf st1 -> 0 <= order ->
  (forall q, in_block order p q -> is_Some (pages st1 !! q)) ->
  (forall j q, mm_free st1 j q -> ~ in_block order p q) ->
  exists st', setup_pages_off_freelist p order PAGE_STATE_LARGE_HEAD st1 = Ok st' /\
  mm_wf st' /\ (forall j q, mm_free st' j q <-> mm_free st1 j q) /\
  touches p (p + 2 ^ order) (pages st1) (pages st') /\
  set_up (pages st') PAGE_STATE_LARGE_HEAD order p /\
  sections st' = sections st1 /\ zones st' = zones st1 /\ same_rest st1 st'.
Proof.
  intros Hwf Ho Hm Hn.
  destruct (setup_off_ok PAGE_STATE_LARGE_HEAD order p st1 Ho) as (m' & -> & T & U); [by right|done|].
  exists (set_pages m' st1). split_and!; try done.
  - apply (mm_wf_pages st1 m' (frames st1)); [done| |apply T].
    intros j q Hq. apply T. by apply (Hn j).
Qed.

(** The blocks a large-page request can be cut from. *)
Definition large_source (s : page_section) (order o p : Z) : Prop :=
  block s o p /\ (order < o \/ (o = order /\ phys_aligned s order p)).

(** Cutting an aligned piece out of a larger block. *)
Lemma cut_large i o order head off s st : mm_wf st -> sections st !! i = Some s ->
  block s o head -> 0 <= order < o -> 0 <= off -> off + 2 ^ order < 2 ^ o ->
  phys_aligned s order (head + off) ->
  exists st',
  (st ← take_off_freelist_order i o head o st;
   st ← (if off =? 0 then Ok st else free_range_of_pages head i off st);
   st ← setup_pages_off_freelist (head + off) order PAGE_STATE_LARGE_HEAD st;
   free_range_of_pages (head + off + 2 ^ order) i (2 ^ o - off - 2 ^ order) st) = Ok st' /\
  large_taken i order (head + off) st st'.
Proof.
  intros Hwf Hs Hb Ho Hoff Hlt Hal. pose proof (pow2_pos order ltac:(lia)).
  pose proof (mw_secs st Hwf i s Hs) as Hsw. pose proof (sw_blocks _ _ Hsw) as Hbw.
  destruct (lw_range s (bw_lists _ _ Hbw) o head Hb) as [Hlo Hhi].
  assert (forall q, in_block o head q -> mm_free st i q) as Hin.
  { intros q Hq. exists s. split; [done|]. by exists o, head. }
  assert (forall q, in_block o head q -> is_Some (pages st !! q)) as Hmap.
  { intros q Hq. apply (bw_mapped _ _ Hbw). by apply (block_in_section _ _ o head q Hbw). }
  assert (forall j q, in_block o head q -> mm_free st j q -> j = i) as Hji.
  { intros j q Hq (x & Hx & Hf). apply (mw_disj st Hwf j i x s q); try done.
    - apply (mm_free_in_section st j); [done..|]. by exists x.
    - by apply (block_in_section _ _ o head q Hbw). }
  unfold in_block in *.
  destruct (take_step i o head s st Hwf Hs Hb) as (st1 & -> & W1 & F1 & E1 & P1 & R1 & Z1).
  rewrite outcome_bind_ok.
  destruct (P1 i s Hs) as (s1 & Hs1 & Pl1). unfold in_block in F1.
  assert (exists st2, (if off =? 0 then Ok st1 else free_range_of_pages head i off st1) = Ok st2 /\
    mm_wf st2 /\ (forall j q, mm_free st2 j q <-> mm_free st1 j q \/ (j = i /\ head <= q < head + off)) /\
    touches head (head + off) (pages st1) (pages st2) /\ same_places st1 st2 /\
    same_rest st1 st2 /\ length (zones st2) = length (zones st1))
    as (st2 & -> & W2 & F2 & T2 & P2 & R2 & Z2).
  { destruct (Z.eqb_spec off 0) as [->|].
    - exists st1. split_and!; try done.
      + intros j q. split; [auto|]. intros [?|?]; [done|lia].
      + intros j x Hx. exists x. split; [done|apply same_place_refl].
    - destruct (free_range_step head i off s1 st1 W1 Hs1) as (st2 & -> & []);
        rewrite ?(pl_pfn _ _ Pl1), ?(same_place_npages _ _ Pl1); [lia..| |].
      + intros q Hq [_ Hq']%F1. lia.
      + exists st2. split_and!; try done; apply rf_rest0. }
  rewrite outcome_bind_ok. destruct (P2 i s1 Hs1) as (s2 & Hs2 & Pl2).
  destruct (large_set_up_step order (head + off) st2) as (st3 & -> & W3 & F3 & T3 & U3 & S3 & Z3 & R3);
    [done|lia| | |].
  { intros q Hq. apply T2. rewrite E1. apply Hmap. unfold in_block in Hq. lia. }
  { intros j q Hf Hq. unfold in_block in Hq. apply F2 in Hf as [[_ ?]%F1|?]; lia. }
  rewrite outcome_bind_ok.
  assert (same_place s s2) as Pl by by apply (same_place_trans _ s1).
  destruct (free_range_step (head + off + 2 ^ order) i (2 ^ o - off - 2 ^ order) s2 st3 W3)
    as (st4 & -> & [W4 F4 T4 P4 R4 Z4]);
    rewrite ?S3, ?(pl_pfn _ _ Pl), ?(same_place_npages _ _ Pl); [done|lia..| |].
  { intros q Hq Hf. apply F3, F2 in Hf as [[_ ?]%F1|?]; lia. }
  exists st4. split; [done|]. split.
  - done.
  - intros q Hq. apply Hin. unfold in_block in Hq. lia.
  - intros j q. rewrite F4, F3, F2, F1. unfold in_block. split.
    + intros [[[? ?]|[-> ?]]|[-> ?]]; (split; [|lia]); try done; apply Hin; lia.
    + intros [Hf ?]. destruct (decide (head <= q < head + 2 ^ o)) as [Hq|]; [|tauto].
      pose proof (Hji j q Hq Hf) as ->.
      destruct (decide (q < head + off)); [left; right|right]; (split; [done|lia]).
  - intros q Hq. apply T4, T3, T2. by rewrite E1.
  - intros q Hq. assert (~ head <= q < head + 2 ^ o) as Hout by (intros ?; by apply (Hq i), Hin).
    destruct T4 as [T4 _], T3 as [T3 _], T2 as [T2 _]. rewrite T4, T3, T2 by lia. by rewrite E1.
  - congruence.
  - eapply same_places_trans, same_places_trans, same_places_trans; [done..| |done].
    by apply same_places_same.
  - destruct U3 as [(pg & Hpg & Hst) U3]. split.
    + exists pg. split; [|done]. rewrite <- Hpg. apply T4. lia.
    + intros t Ht q Hq. destruct (U3 t Ht q Hq) as (pg' & ? & ? & ?).
      exists pg'. split_and!; try done. rewrite <- H0. apply T4. lia.
  - destruct R1, R2, R3, R4. split; congruence.
  - intros x Hx. by simplify_eq.
Qed.

Lemma take_exact_large i order p s st : mm_wf st -> sections st !! i = Some s ->
  block s order p -> 0 <= order -> phys_aligned s order p ->
  exists st',
  (st ← take_off_freelist_order i order p order st;
   setup_pages_off_freelist p order PAGE_STATE_LARGE_HEAD st) = Ok st' /\
  large_taken i order p st st'.
Proof.
  intros Hwf Hs Hb Ho Hal.
  pose proof (mw_secs st Hwf i s Hs) as Hsw. pose proof (sw_blocks _ _ Hsw) as Hbw.
  destruct (take_step i order p s st Hwf Hs Hb) as (st1 & -> & W1 & F1 & E1 & P1 & R1 & Z1).
  rewrite outcome_bind_ok.
  destruct (large_set_up_step order p st1) as (st3 & -> & W3 & F3 & T3 & U3 & S3 & Z3 & R3);
    [done|lia| |by intros j q [_ ?]%F1|].
  { intros q Hq. rewrite E1. apply (bw_mapped _ _ Hbw). by apply (block_in_section _ _ order p q Hbw). }
  exists st3. split; [done|]. split; try done.
  - intros q Hq. exists s. split; [done|]. by exists order, p.
  - intros j q. by rewrite F3.
  - intros q Hq. apply T3. by rewrite E1.
  - intros q Hq. destruct T3 as [T3 _]. rewrite T3, E1; [done|]. intros Hq'. apply (Hq i).
    exists s. split; [done|]. by exists order, p.
  - congruence.
  - eapply same_places_trans; [done|by apply same_places_same].
  - destruct R1, R3. split; congruence.
  - intros x Hx. by simplify_eq.
Qed.

#[local] Arguments setup_pages_off_freelist : simpl never.

Lemma get_large_ok i o order s st : mm_wf st -> mm_phys st -> sections st !! i = Some s ->
  0 <= order <= o -> o < MAX_ORDER ->
  (get_large_from_freelist_order i o order st = Ok (None, st) /\
   forall p, ~ large_source s order o p) \/
  (exists p st', get_large_from_freelist_order i o order st = Ok (Some p, st') /\
   large_taken i order p st st').
Proof.
  intros Hwf Hph Hs Ho Hmax.
  pose proof (mw_secs st Hwf i s Hs) as Hsw. pose proof (sw_blocks _ _ Hsw) as Hbw.
  pose proof (bw_lists _ _ Hbw) as Hl. pose proof (pow2_pos order ltac:(lia)).
  destruct (lookup_freelist s o Hl ltac:(lia)) as [fl Hfl].
  pose proof (fun p => block_list s o p fl Hfl ltac:(lia)) as Hbl.
  unfold get_large_from_freelist_order, get_freelist, get_section. rewrite Hs. simpl.
  rewrite Hfl. simpl. rewrite (lw_count s Hl _ _ Hfl).
  destruct (page_list fl) as [|head l] eqn:El.
  { left. split; [done|]. intros p [Hb%Hbl _]. by apply elem_of_nil in Hb. }
  destruct (Z.eqb_spec (Z.of_nat (length (head :: l))) 0) as [E0|_]; [simpl in E0; lia|].
  simpl head. rewrite lp_align_shift by lia.
  assert (block s o head) as Hb by (apply Hbl; left).
  assert (in_section s head) as Hhs.
  { apply (block_in_section _ _ o head _ Hbw Hb). unfold in_block. pose proof (pow2_pos o). lia. }
  destruct (page_to_phys_ok st i s head Hwf Hph Hs Hhs) as [Hphys Hu]. simpl. rewrite Hphys. simpl.
  destruct (Z.eqb_spec order o) as [->|Hne]; simpl.
  - destruct (find_aligned_ok st i s o Hwf Hph Hs ltac:(lia) (head :: l)) as [[Hf Hn]|(p & Hf & Hp & Ha)].
    + intros q Hq. apply (block_in_section _ _ o q _ Hbw); [by apply Hbl|].
      unfold in_block. lia.
    + left. simpl in Hf. rewrite Hphys in Hf. simpl in Hf. rewrite Hf. simpl. split; [done|].
      intros p [Hbp%Hbl [?|[_ Ha]]]; [lia|]. by apply (Hn p).
    + right. simpl in Hf. rewrite Hphys in Hf. simpl in Hf. rewrite Hf. simpl.
      destruct (take_exact_large i o p s st) as (st' & Heq & Hlt); [done..|by apply Hbl|lia|done|].
      exists p, st'. split; [|done]. bind_inv Heq st1 Ht. rewrite Ht. simpl. by rewrite Heq.
  - right. rewrite (has_align_phys st i) by (done || lia).
    destruct (aligned_offset st i s order head Hwf Hph Hs Hhs ltac:(lia)) as (A1 & A2 & A3 & A4).
    set (off := PAGE_COUNT (ceil_mult (phys_of s head) (lp_align order) - phys_of s head)) in *.
    pose proof (lw_range s Hl o head Hb) as [R1 R2].
    assert (2 * 2 ^ order <= 2 ^ o) as H2 by (rewrite <- pow2_succ by lia; apply pow2_le; lia).
    destruct (mp_range st Hph i s Hs) as (_ & _ & _ & M4 & M5).
    assert (off + 2 ^ order < 2 ^ o) as Hlt by lia.
    destruct (cut_large i o order head off s st Hwf Hs Hb ltac:(lia) ltac:(lia) Hlt A2)
      as (st' & Heq & Htaken).
    exists (head + off), st'. split; [|done].
    bind_inv Heq st1 Htake. rewrite Htake. simpl. bind_inv Heq st2 Hfr. bind_inv Heq st3 Hset.
    assert (u64 (head + 2 ^ o - (head + off + 2 ^ order)) = 2 ^ o - off - 2 ^ order) as Ecnt.
    { rewrite wrap_small; [lia|]. pose proof (pow2_le o 21 ltac:(unfold MAX_ORDER in *; lia)).
      unfold_ints. lia. }
    destruct (Z.eqb_spec (phys_of s head `mod` lp_align order) 0) as [Ea|Ea].
    + rewrite (A4 Ea) in *. rewrite Z.add_0_r in *. simpl in Hfr. injection Hfr as ->.
      simpl. rewrite Hset. simpl. rewrite Ecnt.
      destruct (Z.eqb_spec (2 ^ o - 0 - 2 ^ order) 0); [lia|]. simpl. by rewrite Heq.
    + destruct (Z.eqb_spec off 0) as [E0|E0]; [by apply A3 in E0|].
      rewrite (align_up_phys st i) by (done || lia). simpl. fold off.
      replace (head + off - head) with off by lia. rewrite Hfr. simpl. rewrite Hset. simpl.
      rewrite Ecnt. destruct (Z.eqb_spec (2 ^ o - off - 2 ^ order) 0); [lia|]. simpl.
      by rewrite Heq.
Qed.

Lemma take_first_large_ok i mo order s st : mm_wf st -> mm_phys st ->
  sections st !! i = Some s -> mo <= MAX_ORDER -> 0 <= order ->
  forall fuel o, order <= o -> mo <= o + Z.of_nat fuel ->
  (take_first_large fuel i o mo order st = Ok (None, st) /\
   forall o' p, o <= o' < mo -> ~ large_source s order o' p) \/
  (exists p st', take_first_large fuel i o mo order st = Ok (Some p, st') /\
   large_taken i order p st st').
Proof.
  intros Hwf Hph Hs Hmo Hor. induction fuel as [|fuel IH]; intros o Ho Hf; cbn [take_first_large].
  - destruct (Z.ltb_spec o mo); [lia|]. left. split; [done|]. intros. lia.
  - destruct (Z.ltb_spec o mo) as [Hlt|]; [|left; split; [done|]; intros; lia].
    destruct (get_large_ok i o order s st Hwf Hph Hs ltac:(lia) ltac:(lia))
      as [[-> Hn]|(p & st' & -> & Ht)]; simpl; [|right; by eauto].
    destruct (IH (o + 1) ltac:(lia) ltac:(lia)) as [[-> Hn']|H']; [left|by right].
    split; [done|]. intros o' p Ho'. destruct (decide (o' = o)) as [->|]; [apply Hn|].
    apply Hn'. lia.
Qed.

(** A section a large page of [order] can be cut from. *)
Definition can_serve_large (lock : nat -> bool) (order : Z) (i : nat) (st : mm) : Prop :=
  lock i = true /\ exists s o p, sections st !! i = Some s /\ large_source s order o p /\
    o < max_order s.

Record large_allocated (lock : nat -> bool) (order p : Z) (st st' : mm) : Prop := {
  la_alloc : allocated lock order p st st';
  la_aligned : exists i s, sections st !! i = Some s /\ in_section s p /\ phys_aligned s order p;
}.

Lemma large_taken_allocated lock i order p st st' : mm_wf st -> 0 <= order -> lock i = true ->
  is_Some (sections st !! i) ->
  large_taken i order p st st' -> large_allocated lock order p st st'.
Proof.
  intros Hwf Ho Hlock [s Hs] [L1 L2 L3 L4 L10 L5 L9 L6 L7 L8]. split; [split; eauto|].
  exists i, s. split_and!; [done| |by apply L8].
  apply (mm_free_in_section st i); [done..|]. apply L2. unfold in_block.
  pose proof (pow2_pos order Ho). lia.
Qed.

Lemma try_large_sections_ok lock order st : mm_wf st -> mm_phys st -> 0 <= order < MAX_ORDER ->
  forall secs, (forall i, i ∈ secs -> is_Some (sections st !! i)) ->
  (try_alloc_large_from_sections lock order secs st = Ok (None, st) /\
   forall i, i ∈ secs -> ~ can_serve_large lock order i st) \/
  (exists p st', try_alloc_large_from_sections lock order secs st = Ok (Some p, st') /\
   large_allocated lock order p st st' /\
   set_up (pages st') PAGE_STATE_LARGE_HEAD order p /\ same_rest st st').
Proof.
  intros Hwf Hph Ho. induction secs as [|i secs IH]; intros Hin; simpl.
  - left. split; [done|]. intros i ?%elem_of_nil. done.
  - assert (forall j, j ∈ secs -> is_Some (sections st !! j)) as Hin'
      by (intros; apply Hin; by right).
    specialize (IH Hin'). destruct (lock i) eqn:Hlock; simpl.
    2:{ destruct IH as [[-> Hn]|IH]; [left|by right]. split; [done|].
        intros j [->|Hj]%elem_of_cons; [|by apply Hn]. intros [? _]. congruence. }
    destruct (Hin i) as [sec Hs]; [left|]. unfold get_section. rewrite Hs. simpl.
    pose proof (mw_secs st Hwf i sec Hs) as Hsw.
    pose proof (sw_max _ _ Hsw). pose proof (sw_min0 _ _ Hsw).
    destruct (take_first_large_ok i (max_order sec) order sec st Hwf Hph Hs ltac:(lia) ltac:(lia)
                (Z.to_nat (max_order sec)) (Z.max order (min_order sec)) ltac:(lia) ltac:(lia))
      as [[-> Hn]|(p & st' & -> & Ht)]; simpl.
    + destruct IH as [[-> Hn']|IH]; [left|by right]. split; [done|].
      intros j [->|Hj]%elem_of_cons; [|by apply Hn'].
      intros [_ (s0 & o & p & Hs0 & Hsrc & Hor)]. simplify_eq.
      apply (Hn o p); [|done]. destruct Hsrc as [Hb [?|[-> _]]];
        pose proof (sw_min _ _ Hsw _ p Hb); lia.
    + right. exists p, st'. split_and!; [done|apply (large_taken_allocated _ i); done || lia|..];
        apply Ht.
Qed.

Lemma large_source_total m s order o p : sec_wf m s -> 0 <= order -> large_source s order o p ->
  2 ^ order <= total_free s.
Proof.
  intros Hsw Ho [Hb Hor]. pose proof (total_ge_block s o p Hb). rewrite (sw_total _ _ Hsw).
  pose proof (pow2_le order o). lia.
Qed.

Lemma try_large_zone_ok lock z info st : mm_wf st -> mm_phys st ->
  0 <= lp_order info < MAX_ORDER -> is_Some (zones st !! z) ->
  (try_alloc_large_page_from_zone lock z info st = Ok (None, st) /\
   forall zn i, zones st !! z = Some zn -> i ∈ section_list zn ->
     ~ can_serve_large lock (lp_order info) i st) \/
  (exists p st', try_alloc_large_page_from_zone lock z info st = Ok (Some p, st') /\
   large_allocated lock (lp_order info) p st st' /\
   set_up (pages st') PAGE_STATE_LARGE_HEAD (lp_order info) p /\ same_rest st st').
Proof.
  intros Hwf Hph Ho [zn Hz]. unfold try_alloc_large_page_from_zone, get_zone. rewrite Hz. simpl.
  destruct (Z.ltb_spec (zone_total_free zn) (2 ^ lp_order info)) as [Hlt|].
  - left. split; [done|]. intros zn' i [= <-] Hi (_ & s & o & p & Hs & Hsrc & _).
    destruct (mw_list st Hwf z zn i Hz Hi) as (s1 & Hs1 & E). simplify_eq.
    pose proof (large_source_total _ s _ o p (mw_secs st Hwf i s Hs) (proj1 Ho) Hsrc).
    pose proof (zone_sum_ge _ (sec_zone s) _ i s (mw_forall st Hwf) Hs eq_refl).
    pose proof (mw_total st Hwf _ _ Hz). lia.
  - destruct (try_large_sections_ok lock (lp_order info) st Hwf Hph Ho (section_list zn))
      as [[-> Hn]|H'].
    + intros i Hi. destruct (mw_list st Hwf z zn i Hz Hi) as (s1 & Hs1 & _). eauto.
    + left. split; [done|]. intros zn' i [= <-]. apply Hn.
    + by right.
Qed.

Lemma alloc_large_page_ok lock flags level info st : mm_wf st -> mm_phys st ->
  largepage_level_info_list !! Z.to_nat level = Some info -> 0 <= lp_order info ->
  (alloc_large_page lock flags level st = Ok (None, st) /\
   (lp_is_supported info = false \/ MAX_ORDER <= lp_order info \/
    forall z zn i, zone_chain st page_zone_default z -> zones st !! z = Some zn ->
      i ∈ section_list zn -> ~ can_serve_large lock (lp_order info) i st)) \/
  (exists p st', alloc_large_page lock flags level st = Ok (Some p, st') /\
   large_allocated lock (lp_order info) p st st' /\
   handed_out PAGE_STATE_LARGE_HEAD (Some info) flags (lp_order info) p st st').
Proof.
  intros Hwf Hph Hlv Ho. unfold alloc_large_page. rewrite Hlv. simpl.
  destruct (lp_is_supported info); simpl; [|left; auto]. rewrite Z.geb_leb.
  destruct (Z.leb_spec MAX_ORDER (lp_order info)); [left; auto|].
  destruct (mw_default st Hwf) as [zn0 Hz0].
  edestruct (walk_zones_ok (fun z => try_alloc_large_page_from_zone lock z info)
    (fun page => setup_alloced_page page PAGE_STATE_LARGE_HEAD flags (lp_order info) (Some info))
    (fun p st' => large_allocated lock (lp_order info) p st st' /\
       set_up (pages st') PAGE_STATE_LARGE_HEAD (lp_order info) p /\ same_rest st st')
    (fun z => forall zn i, zones st !! z = Some zn -> i ∈ section_list zn ->
       ~ can_serve_large lock (lp_order info) i st) st Hwf)
    as [[-> Hn]|(p & st1 & -> & [A Hal] & Hu & Hr)].
  - intros z Hz. apply try_large_zone_ok; done || lia.
  - by eapply lookup_lt_Some.
  - lia.
  - left. split; [done|]. eauto.
  - right. destruct (setup_alloced_done lock PAGE_STATE_LARGE_HEAD flags (lp_order info) (Some info)
      p st st1) as (st' & -> & ? & ?); [done|lia|by right|done..|]. exists p, st'. by split_and!.
Qed.
