(* ===== verification/PageAllocThms.v ===== *)
(** * What the page allocator guarantees

    The properties of kernel/mm/page_alloc.c, on the invariant of
    PageAllocInv.v, each with a concrete state it applies to. *)
From S2P Require Import Prelude CArith PageAlloc PageBlocks PageAllocInv.

(** ** A family of concrete states

    One section of [n] pages at the bottom of the vmemmap, in the first of two
    zones, before any of its pages is on a free list. *)
Definition ex_page : page :=
  {| flags := 0; state := PAGE_STATE_FREE_LIST_TAIL; section := 0; data := Freelist_tail 0 |}.
Definition ex_section (n : Z) : page_section :=
  {| sec_zone := page_zone_default; range_front := 0; range_size := n * PAGE_SIZE; pfn := 0;
     freelist_list := replicate (Z.to_nat MAX_ORDER) {| page_list := []; count := 0 |};
     min_order := 0; max_order := 0; total_free := 0 |}.
Definition ex_mm (n : Z) : mm :=
  {| pages := list_to_map ((fun q => (q, ex_page)) <$> seqZ 0 n);
     frames := ∅;
     sections := [ex_section n];
     zones := [ {| section_list := [0%nat]; fallback_zone := Some page_zone_low4g;
                   zone_total_free := 0 |};
                {| section_list := []; fallback_zone := None; zone_total_free := 0 |} ];
     page_end := n |}.

Lemma ex_lookup n q : 0 <= q < n -> pages (ex_mm n) !! q = Some ex_page.
Proof.
  intros Hq. simpl. apply elem_of_list_to_map_1.
  - rewrite <- list_fmap_compose. simpl.
    rewrite (list_fmap_ext _ id) by done. rewrite list_fmap_id. apply NoDup_seqZ.
  - apply list_elem_of_fmap. exists q. split; [done|]. by apply elem_of_seqZ.
Qed.

Lemma ex_block n o p : ~ block (ex_section n) o p.
Proof.
  intros [_ (fl & Hl & Hp)]. cbn [freelist_list ex_section] in Hl. apply lookup_replicate in Hl as [-> _].
  by apply elem_of_nil in Hp.
Qed.

Lemma ex_npages n : npages (ex_section n) = n.
Proof. unfold npages, PAGE_COUNT. simpl. by rewrite Z.div_mul by done. Qed.

Lemma ex_wf n : 0 <= n <= 2 ^ 40 -> mm_wf (ex_mm n).
Proof.
  intros Hn.
  assert (forall k fl, freelist_list (ex_section n) !! k = Some fl ->
            fl = {| page_list := []; count := 0 |}) as Hfl.
  { intros k fl. cbn [freelist_list ex_section]. intros [? _]%lookup_replicate. done. }
  assert (forall (i : nat) s, sections (ex_mm n) !! i = Some s -> i = 0%nat /\ s = ex_section n) as Hsec.
  { intros [|[|i]] s; simpl; intros [= <-]. done. }
  split.
  - intros i s [-> ->]%Hsec. split; [split; [split|..]|..]; try done.
    + intros k fl ->%Hfl. apply NoDup_nil_2.
    + intros k fl ->%Hfl. done.
    + by intros o p ?%ex_block.
    + by intros o p o' p' q ?%ex_block.
    + by intros o p ?%ex_block.
    + intros q Hq. unfold in_section in Hq. rewrite ex_npages in Hq. simpl in Hq.
      rewrite ex_lookup by lia. eauto.
    + rewrite ex_npages. lia.
    + by intros o p ?%ex_block.
  - intros i j s s' q [-> ->]%Hsec [-> ->]%Hsec. done.
  - intros i s [-> ->]%Hsec. eauto.
  - intros [|[|[]]] zn i; simpl; intros [= <-]; simpl.
    + intros ->%list_elem_of_singleton. by exists (ex_section n).
    + by intros ?%elem_of_nil.
  - intros [|[|[]]] zn; simpl; intros [= <-]; done.
  - simpl. rewrite ex_npages. lia.
  - intros [|[|[]]] zn f; simpl; intros [= <-]; simpl; intros [= <-]; unfold page_zone_low4g; lia.
  - eauto.
Qed.

Definition ok_or {A} (d : A) (m : outcome A) : A := match m with Ok a => a | _ => d end.

(** The same section with all of its pages free, as boot leaves it. *)
Definition ex_full (n : Z) : mm := ok_or (ex_mm n) (free_range_of_pages 0 0 n (ex_mm n)).

Lemma ex_full_step n : 0 < n <= 2 ^ 40 ->
  free_range_of_pages 0 0 n (ex_mm n) = Ok (ex_full n) /\
  range_freed 0 0 n (ex_mm n) (ex_full n).
Proof.
  intros Hn. destruct (free_range_step 0 0 n (ex_section n) (ex_mm n)) as (st' & E & H).
  - apply ex_wf. lia.
  - done.
  - lia.
  - simpl. lia.
  - rewrite ex_npages. simpl. lia.
  - intros q _ (s & Hs & Hf). simpl in Hs. simplify_eq.
    destruct Hf as (o & p & Hb & _). by apply ex_block in Hb.
  - unfold ex_full. by rewrite E.
Qed.

Lemma ex_full_wf n : 0 < n <= 2 ^ 40 -> mm_wf (ex_full n).
Proof. intros Hn. apply (ex_full_step n Hn). Qed.

(** Every section is locked by nobody. *)
Definition ex_lock : nat -> bool := fun _ => true.

(** ** Properties *)




Lemma ex_can_serve : can_serve ex_lock 1 0 (ex_full 8).
Proof.
  split; [done|]. eexists _, 3, 0. split; [vm_compute; reflexivity|]. split; [|vm_compute; done].
  split; [done|]. eexists. split; [vm_compute; reflexivity|]. simpl. left.
Qed.


(** C3: [free_range_of_pages] on pages of one section that are not free puts
    exactly those pages on the free lists, whatever the length and the
    alignment of the range, and keeps every invariant. *)
Theorem free_range_of_pages_frees page i amount s st :
  mm_wf st -> sections st !! i = Some s -> 0 < amount ->
  pfn s <= page -> page + amount <= pfn s + npages s ->
  (forall q, page <= q < page + amount -> ~ mm_free st i q) ->
  exists st', free_range_of_pages page i amount st = Ok st' /\ mm_wf st' /\
  (forall j q, mm_free st' j q <-> mm_free st j q \/ (j = i /\ page <= q < page + amount)) /\
  touches page (page + amount) (pages st) (pages st').
Proof.
  intros Hwf Hs Ha Hlo Hhi Hf.
  destruct (free_range_step page i amount s st Hwf Hs Ha Hlo Hhi Hf) as (st' & E & []). eauto 10.
Qed.

Lemma free_range_of_pages_frees_witness :
  exists st', free_range_of_pages 1 0 7 (ex_mm 8) = Ok st' /\ mm_wf st' /\
  (forall j q, mm_free st' j q <-> mm_free (ex_mm 8) j q \/ (j = 0%nat /\ 1 <= q < 1 + 7)) /\
  touches 1 (1 + 7) (pages (ex_mm 8)) (pages st').
Proof.
  apply (free_range_of_pages_frees 1 0 7 (ex_section 8) (ex_mm 8)).
  - apply ex_wf. lia.
  - reflexivity.
  - lia.
  - simpl. lia.
  - rewrite ex_npages. simpl. lia.
  - intros q _ (s & Hs & o & p & Hb & _). simpl in Hs. simplify_eq. by apply ex_block in Hb.
Defined.

(** C4: handing the block back with [free_range_of_pages] undoes an
    allocation: the same pages are free as before it, and the invariants hold. *)
Theorem alloc_free_range_roundtrip lock s alloc_flags order st p st1 :
  mm_wf st -> 0 <= order -> allocatable s ->
  alloc_pages lock s alloc_flags order st = Ok (Some p, st1) ->
  exists i st2, free_range_of_pages p i (2 ^ order) st1 = Ok st2 /\ mm_wf st2 /\
  forall j q, mm_free st2 j q <-> mm_free st j q.
Proof.
  intros Hwf Ho Hal E.
  destruct (alloc_pages_ok lock s alloc_flags order st Hwf Ho Hal)
    as [[E' _]|(p' & st' & E' & A & _)]; rewrite E in E'; simplify_eq.
  destruct (allocated_section lock order p' st st' Hwf Ho A) as (i & s1 & Hs1 & Hlo & Hhi & Hin & Hdisj).
  destruct (free_range_step p' i (2 ^ order) s1 st') as (st2 & Hst2 & []);
    [apply A|done|by apply pow2_pos|done|done| |].
  - intros q Hq [_ Hn]%(al_free _ _ _ _ _ A). apply Hn. exact Hq.
  - exists i, st2. split_and!; [done..|]. intros j q. rewrite rf_free, (al_free _ _ _ _ _ A).
    unfold in_block in *. split.
    + intros [[? _]|[-> ?]]; [done|by apply Hin].
    + intros Hf. destruct (decide (p' <= q < p' + 2 ^ order)); [right|by left].
      split; [|done]. by apply (Hdisj j q).
Qed.

(** One allocation of two pages, from eight free ones. *)
Definition ex_alloc (s : page_state) (order n : Z) : option Z * mm :=
  ok_or (None, ex_mm n) (alloc_pages ex_lock s 0 order (ex_full n)).

Lemma alloc_free_range_roundtrip_witness :
  exists i st2, free_range_of_pages 0 i (2 ^ 1) (snd (ex_alloc PAGE_STATE_SLAB_HEAD 1 8)) = Ok st2 /\
  mm_wf st2 /\ forall j q, mm_free st2 j q <-> mm_free (ex_full 8) j q.
Proof.
  apply (alloc_free_range_roundtrip ex_lock PAGE_STATE_SLAB_HEAD 0 1 (ex_full 8)).
  - apply ex_full_wf. lia.
  - lia.
  - constructor.
  - vm_compute. reflexivity.
Defined.

(** C5: [alloc_large_page] never fails an assertion and never loops.  The page
    it returns starts at a physical address that is a multiple of its size,
    its pages were all free, exactly these stop being free (what is cut off
    the block around them goes back on the lists), and its entries are set up
    as a head and its tails; a failure changes nothing. *)
Theorem alloc_large_page_safe lock alloc_flags level info st :
  mm_wf st -> mm_phys st -> largepage_level_info_list !! Z.to_nat level = Some info ->
  exists r st', alloc_large_page lock alloc_flags level st = Ok (r, st') /\
  match r with
  | None => st' = st
  | Some p => large_allocated lock (lp_order info) p st st' /\
      handed_out PAGE_STATE_LARGE_HEAD (Some info) alloc_flags (lp_order info) p st st'
  end.
Proof.
  intros Hwf Hph Hlv.
  assert (0 <= lp_order info) as Ho.
  { apply list_elem_of_lookup_2 in Hlv. unfold largepage_level_info_list in Hlv.
    repeat (apply elem_of_cons in Hlv as [->|Hlv]; [done|]). by apply elem_of_nil in Hlv. }
  destruct (alloc_large_page_ok lock alloc_flags level info st Hwf Hph Hlv Ho)
    as [[-> _]|(p & st' & -> & H)].
  - by exists None, st.
  - by exists (Some p), st'.
Qed.

(** One section at physical address 0, as a test on the state. *)
Lemma one_section_phys st n : 0 <= n <= 2 ^ 39 ->
  map_Forall (fun _ pg => section pg = 0%nat) (pages st) -> length (sections st) = 1%nat ->
  (fun s => (range_front s, npages s, pfn s)) <$> sections st !! 0%nat = Some (0, n, 0) ->
  page_end st = n -> mm_phys st.
Proof.
  intros Hn Hp H1 H0 He.
  assert (forall i s, sections st !! i = Some s -> i = 0%nat) as Hi.
  { intros i s Hs%lookup_lt_Some. lia. }
  split.
  - intros i s q pg Hs _ Hq. rewrite (Hi i s Hs). by apply (map_Forall_lookup_1 _ _ q pg Hp).
  - intros i s Hs. pose proof (Hi i s Hs) as ->. rewrite Hs in H0. injection H0 as E1 E2 E3.
    rewrite E1, E2, E3. change PAGE_SIZE with 4096. split_and!; try lia. apply Z.divide_0_r.
  - intros i s Hs. pose proof (Hi i s Hs) as ->. rewrite Hs in H0. injection H0 as E1 E2 E3. lia.
Qed.

Lemma ex_full_phys : mm_phys (ex_full 1024).
Proof.
  apply (one_section_phys _ 1024); [lia| | | |].
  - apply (bool_decide_eq_true_1 _). vm_compute. reflexivity.
  - vm_compute. reflexivity.
  - vm_compute. reflexivity.
  - vm_compute. reflexivity.
Qed.

Lemma alloc_large_page_safe_witness :
  exists r st', alloc_large_page ex_lock 1 2 (ex_full 1024) = Ok (r, st') /\
  match r with
  | None => st' = ex_full 1024
  | Some p => large_allocated ex_lock 9 p (ex_full 1024) st' /\
      handed_out PAGE_STATE_LARGE_HEAD (largepage_level_info_list !! 2%nat) 1 9 p (ex_full 1024) st'
  end.
Proof.
  apply (alloc_large_page_safe ex_lock 1 2
    {| lp_order := 9; lp_largepage_order := 0; lp_level := 2;
       lp_is_supported := true; lp_size := 2 ^ 21 |} (ex_full 1024)).
  - apply ex_full_wf. lia.
  - apply ex_full_phys.
  - reflexivity.
Defined.

(** C6: [alloc_large_page] fails only for want of memory: a supported level
    with a lockable section on the chain that has a larger block, or an
    aligned block of exactly that order, is always served. *)
Theorem alloc_large_page_complete lock alloc_flags level info st z zn i :
  mm_wf st -> mm_phys st -> largepage_level_info_list !! Z.to_nat level = Some info ->
  lp_is_supported info = true -> 0 <= lp_order info < MAX_ORDER ->
  zone_chain st page_zone_default z -> zones st !! z = Some zn -> i ∈ section_list zn ->
  can_serve_large lock (lp_order info) i st ->
  exists p st', alloc_large_page lock alloc_flags level st = Ok (Some p, st').
Proof.
  intros Hwf Hph Hlv Hsup Ho Hc Hz Hi Hs.
  destruct (alloc_large_page_ok lock alloc_flags level info st Hwf Hph Hlv ltac:(lia))
    as [[_ [?|[?|Hn]]]|(p & st' & -> & _)]; [congruence|lia| |by eauto].
  by destruct (Hn z zn i Hc Hz Hi).
Qed.

Lemma alloc_large_page_complete_witness :
  exists p st', alloc_large_page ex_lock 0 2 (ex_full 1024) = Ok (Some p, st').
Proof.
  apply (alloc_large_page_complete ex_lock 0 2
    {| lp_order := 9; lp_largepage_order := 0; lp_level := 2;
       lp_is_supported := true; lp_size := 2 ^ 21 |} (ex_full 1024) 0
    (ok_or {| section_list := []; fallback_zone := None; zone_total_free := 0 |}
       (get_zone 0 (ex_full 1024))) 0).
  - apply ex_full_wf. lia.
  - apply ex_full_phys.
  - reflexivity.
  - reflexivity.
  - split; [discriminate|reflexivity].
  - constructor.
  - vm_compute. reflexivity.
  - vm_compute. left.
  - split; [reflexivity|]. eexists _, 10, 0. split; [vm_compute; reflexivity|].
    split; [|vm_compute; reflexivity]. split; [|left; reflexivity].
    split; [discriminate|]. eexists. split; [vm_compute; reflexivity|]. left.
Defined.

(** Adding to a free list that does not exist. *)
Lemma add_to_missing_list i o p s st : sections st !! i = Some s ->
  is_Some (pages st !! p) -> freelist_list s !! Z.to_nat o = None ->
  add_to_freelist_order i o p st = Undef.
Proof.
  intros Hs Hp Hl. unfold add_to_freelist_order.
  rewrite <- outcome_bind_assoc, mark_head_ok, outcome_bind_ok by done.
  unfold freelist_push, get_freelist, get_section. cbn [sections set_pages]. rewrite Hs.
  cbn [deref mbind outcome_bind]. by rewrite Hl.
Qed.

(** [free_pages] passes its order on as a number of pages, so freeing a
    single page (order 0) that has no free neighbour below it asks for a range
    of no pages, and the free list it then writes to is
    [freelist_list[255]], outside the table of [MAX_ORDER] lists. *)
Theorem free_pages_order_0_undefined page pg s st :
  pages st !! page = Some pg -> sections st !! section pg = Some s -> lists_wf s ->
  state pg <> PAGE_STATE_FREE_LIST_HEAD -> state pg <> PAGE_STATE_LARGE_HEAD ->
  page = pfn s ->
  free_pages page 0 st = Undef.
Proof.
  intros Hp Hs Hwf Hn1 Hn2 ->. unfold free_pages, page_get_state, get_page. rewrite Hp. simpl.
  rewrite decide_False by done.
  unfold free_amount_of_pages, page_to_section, get_page. rewrite Hp. simpl.
  unfold get_section. rewrite Hs. simpl. rewrite Z.sub_diag. simpl.
  unfold merge_above. rewrite Z.add_0_r.
  assert (free_range_of_pages (pfn s) (section pg) 0 st = Undef) as E.
  { unfold free_range_of_pages. change (drop_order (Z.to_nat (MAX_ORDER - 1)) 0) with (-1).
    cbn [free_range_loop Z.to_nat]. change (u8 (-1)) with 255.
    rewrite (add_to_missing_list _ 255 _ s) by
      (done || by eexists || (apply lookup_ge_None; rewrite (lw_len s Hwf); unfold MAX_ORDER; lia)).
    reflexivity. }
  destruct (pfn s <? page_end st); [|done].
  unfold page_get_state, get_page. rewrite Hp. simpl. by destruct (state pg).
Qed.

Lemma free_pages_order_0_undefined_witness :
  free_pages 0 0 (snd (ex_alloc PAGE_STATE_USED 0 8)) = Undef.
Proof.
  eapply (free_pages_order_0_undefined 0).
  - vm_compute. reflexivity.
  - vm_compute. reflexivity.
  - apply (bw_lists (pages (snd (ex_alloc PAGE_STATE_USED 0 8)))), sw_blocks.
    apply (mw_secs (snd (ex_alloc PAGE_STATE_USED 0 8))) with 0%nat; [|vm_compute; reflexivity].
    destruct (alloc_pages_ok ex_lock PAGE_STATE_USED 0 0 (ex_full 8)) as [[E _]|(p & st' & E & A & _)].
    + apply ex_full_wf. lia.
    + lia.
    + constructor.
    + exfalso. vm_compute in E. discriminate.
    + unfold ex_alloc. rewrite E. apply A.
  - vm_compute. discriminate.
  - vm_compute. discriminate.
  - vm_compute. reflexivity.
Defined.

(** merging with a free neighbour counts that neighbour twice:
    [free_amount_of_pages] takes the neighbour's block off its list without
    subtracting it from [total_free], and [free_range_of_pages] then adds the
    whole merged range.  Freeing two of eight pages next to a free block of two
    leaves a section of eight pages that reports ten free. *)
Theorem free_amount_counts_neighbour_twice :
  exists st s, free_amount_of_pages 0 2 (snd (ex_alloc PAGE_STATE_SLAB_HEAD 1 8)) = Ok st /\
  sections st !! 0%nat = Some s /\ npages s = 8 /\ total_of s = 8 /\ total_free s = 10.
Proof. eexists _, _. split; [vm_compute; reflexivity|]. by vm_compute. Qed.

(** [free_range_of_pages] raises [max_order] for the last block it frees
    only, which is its smallest.  Three pages freed into an empty section are a
    block of two and a block of one, and the block of two cannot be
    allocated. *)
Theorem free_range_hides_larger_block :
  exists st s, free_range_of_pages 0 0 3 (ex_mm 8) = Ok st /\
  sections st !! 0%nat = Some s /\ block s 1 0 /\ max_order s = 1 /\
  alloc_pages ex_lock PAGE_STATE_USED 0 1 st = Ok (None, st).
Proof.
  eexists _, _. split; [vm_compute; reflexivity|]. split; [vm_compute; reflexivity|].
  split; [|split; vm_compute; reflexivity].
  split; [done|]. eexists. split; [vm_compute; reflexivity|]. left.
Qed.
