(* ===== verification/AvlTree.v ===== *)
(** * The intrusive AVL tree: lib/adt/avltree.c and avltree.h

    A [struct avlnode *] is an address in a store of nodes, NULL is [None],
    and a [struct avlnode **] is one of the three places the code takes the
    address of: the tree's root and a node's two child fields.  The data of
    the structures the nodes are embedded in is the client's; [update] and
    [added_node] are the client's callbacks on it. *)
From S2P Require Import Prelude.

Record avlnode := {
  parent : option positive;
  left : option positive;
  right : option positive;
  height : Z;
}.

Inductive link := LRoot | LLeft (p : positive) | LRight (p : positive).

Section avltree.
Context {C : Type}.

Record avltree := {
  nodes : gmap positive avlnode;
  root : option positive;
  client : C;
}.

(** [avlnode_update_t] and [avlnode_added_node_t]. *)
Abbreviation callback := (option (positive -> gmap positive avlnode -> C -> C)).

(** ** Field access *)
Definition get (p : positive) (t : avltree) : outcome avlnode := deref (nodes t !! p).
Definition set_nodes (m : gmap positive avlnode) (t : avltree) : avltree :=
  {| nodes := m; root := root t; client := client t |}.
Definition set_root (r : option positive) (t : avltree) : avltree :=
  {| nodes := nodes t; root := r; client := client t |}.
Definition set_client (c : C) (t : avltree) : avltree :=
  {| nodes := nodes t; root := root t; client := c |}.

Definition modify (f : avlnode -> avlnode) (p : positive) (t : avltree) : outcome avltree :=
  n ← get p t; Ok (set_nodes (<[p := f n]> (nodes t)) t).
Definition with_parent (v : option positive) (n : avlnode) : avlnode :=
  {| parent := v; left := left n; right := right n; height := height n |}.
Definition with_left (v : option positive) (n : avlnode) : avlnode :=
  {| parent := parent n; left := v; right := right n; height := height n |}.
Definition with_right (v : option positive) (n : avlnode) : avlnode :=
  {| parent := parent n; left := left n; right := v; height := height n |}.
Definition with_height (h : Z) (n : avlnode) : avlnode :=
  {| parent := parent n; left := left n; right := right n; height := h |}.

Definition get_parent p t := n ← get p t; Ok (parent n).
Definition get_left p t := n ← get p t; Ok (left n).
Definition get_right p t := n ← get p t; Ok (right n).
Definition get_height p t := n ← get p t; Ok (height n).
Definition set_parent v := modify (with_parent v).
Definition set_left v := modify (with_left v).
Definition set_right v := modify (with_right v).
Definition set_height v := modify (with_height v).

(** [*link = v] *)
Definition store_link (l : link) (v : option positive) (t : avltree) : outcome avltree :=
  match l with
  | LRoot => Ok (set_root v t)
  | LLeft p => set_left v p t
  | LRight p => set_right v p t
  end.

(** [if (p != NULL) { p->parent = v; }] *)
Definition set_parent_opt (v : option positive) (p : option positive) (t : avltree)
  : outcome avltree :=
  match p with Some p => set_parent v p t | None => Ok t end.

(** ** Rotations *)
Definition rotate_left (node : positive) (t : avltree) : outcome (positive * avltree) :=
  new_top ← (r ← get_right node t; deref r);
  new_top_parent ← get_parent node t;
  new_top_left_right ← get_left new_top t;
  t ← set_right new_top_left_right node t;
  t ← set_parent (Some new_top) node t;
  t ← set_parent_opt (Some node) new_top_left_right t;
  t ← set_parent new_top_parent new_top t;
  t ← set_left (Some node) new_top t;
  Ok (new_top, t).

Definition rotate_right (node : positive) (t : avltree) : outcome (positive * avltree) :=
  new_top ← (l ← get_left node t; deref l);
  new_top_parent ← get_parent node t;
  new_top_right_left ← get_right new_top t;
  t ← set_left new_top_right_left node t;
  t ← set_parent (Some new_top) node t;
  t ← set_parent_opt (Some node) new_top_right_left t;
  t ← set_parent new_top_parent new_top t;
  t ← set_right (Some node) new_top t;
  Ok (new_top, t).

(** ** Heights *)
Definition node_height (node : option positive) (t : avltree) : outcome Z :=
  match node with Some p => get_height p t | None => Ok 0 end.

Definition node_balance (node : positive) (t : avltree) : outcome Z :=
  r ← get_right node t;
  l ← get_left node t;
  hr ← node_height r t;
  hl ← node_height l t;
  Ok (hr - hl).

Definition reset_node_height (node : positive) (t : avltree) : outcome avltree :=
  l ← get_left node t;
  r ← get_right node t;
  hl ← node_height l t;
  hr ← node_height r t;
  set_height (u32 (1 + Z.max hl hr)) node t.

Definition get_node_link (node : positive) (t : avltree) : outcome link :=
  par ← get_parent node t;
  match par with
  | Some parent =>
      l ← get_left parent t;
      Ok (if decide (Some node = l) then LLeft parent else LRight parent)
  | None => Ok LRoot
  end.

Definition avlnode_update (update : callback) (node : positive) (t : avltree) : avltree :=
  match update with
  | Some f => set_client (f node (nodes t) (client t)) t
  | None => t
  end.

(** ** Rebalancing *)

(** The [balance > 1] branch, up to [node = new_node]. *)
Definition fixup_right_heavy (update : callback) (node : positive) (t : avltree)
  : outcome (positive * avltree) :=
  new_node ← (r ← get_right node t; deref r);
  hl ← (l ← get_left new_node t; node_height l t);
  hr ← (r ← get_right new_node t; node_height r t);
  '(new_node, t) ←
    (if hl >? hr then
       '(new_node, t) ← rotate_right new_node t;
       t ← set_right (Some new_node) node t;
       t ← reset_node_height new_node t;
       Ok (new_node, avlnode_update update new_node t)
     else Ok (new_node, t));
  lnk ← get_node_link node t;
  '(top, t) ← rotate_left node t;
  t ← store_link lnk (Some top) t;
  t ← reset_node_height node t;
  Ok (new_node, avlnode_update update node t).

(** The [balance < -1] branch: its double rotation has no [update]. *)
Definition fixup_left_heavy (update : callback) (node : positive) (t : avltree)
  : outcome (positive * avltree) :=
  new_node ← (l ← get_left node t; deref l);
  hl ← (l ← get_left new_node t; node_height l t);
  hr ← (r ← get_right new_node t; node_height r t);
  '(new_node, t) ←
    (if hl <? hr then
       '(new_node, t) ← rotate_left new_node t;
       t ← set_left (Some new_node) node t;
       t ← reset_node_height new_node t;
       Ok (new_node, t)
     else Ok (new_node, t));
  lnk ← get_node_link node t;
  '(top, t) ← rotate_right node t;
  t ← store_link lnk (Some top) t;
  t ← reset_node_height node t;
  Ok (new_node, avlnode_update update node t).

(** One round of the loop; the answer is the node whose parent comes next. *)
Definition fixup_step (update : callback) (node : positive) (t : avltree)
  : outcome (positive * avltree) :=
  balance ← node_balance node t;
  '(node, t) ←
    (if balance >? 1 then fixup_right_heavy update node t
     else if balance <? -1 then fixup_left_heavy update node t
     else t ← reset_node_height node t; Ok (node, t));
  Ok (node, avlnode_update update node t).

Fixpoint avltree_fixup (fuel : nat) (update : callback) (node : option positive) (t : avltree)
  : outcome avltree :=
  match node with
  | None => Ok t
  | Some node =>
      match fuel with
      | O => OutOfFuel
      | S fuel =>
          '(node, t) ← fixup_step update node t;
          next ← get_parent node t;
          avltree_fixup fuel update next t
      end
  end.

(** A path of the tree never has more nodes than the store. *)
Definition path_fuel (t : avltree) : nat := S (size (nodes t)).

(** ** Insertion *)
Definition insert_at_loc (node : positive) (par : option positive) (lnk : link)
    (update added_node : callback) (t : avltree) : outcome avltree :=
  t ← modify (fun _ => {| parent := par; left := None; right := None; height := 1 |}) node t;
  t ← store_link lnk (Some node) t;
  let t := avlnode_update added_node node t in
  let t := avlnode_update update node t in
  avltree_fixup (path_fuel t) update par t.

(** The descent of [avltree_insert]: [None] when a node compares equal. *)
Fixpoint insert_loc (fuel : nat) (compare : positive -> Z) (par curr : option positive)
    (lnk : link) (t : avltree) : outcome (option (option positive * link)) :=
  match curr with
  | None => Ok (Some (par, lnk))
  | Some curr =>
      match fuel with
      | O => OutOfFuel
      | S fuel =>
          let c := compare curr in
          if c =? 0 then Ok None
          else if c <? 0
          then l ← get_left curr t; insert_loc fuel compare (Some curr) l (LLeft curr) t
          else r ← get_right curr t; insert_loc fuel compare (Some curr) r (LRight curr) t
      end
  end.

Definition avltree_insert (node : positive) (comparator : positive -> positive -> Z)
    (update added_node : callback) (t : avltree) : outcome (bool * avltree) :=
  loc ← insert_loc (path_fuel t) (comparator node) None (root t) LRoot t;
  match loc with
  | None => Ok (false, t)
  | Some (par, lnk) =>
      t ← insert_at_loc node par lnk update added_node t;
      Ok (true, t)
  end.

Definition avltree_insert_at_loc (node : positive) (par : option positive) (lnk : link)
    (update : callback) (t : avltree) : outcome avltree :=
  insert_at_loc node par lnk update None t.

(** ** Deletion *)

(** [do { ... } while (successor->left != NULL)]: the leftmost node below
    [successor], its parent and the link to it. *)
Fixpoint find_successor (fuel : nat) (par : option positive) (lnk : link) (successor : positive)
    (t : avltree) : outcome (option positive * link * positive) :=
  l ← get_left successor t;
  match l with
  | None => Ok (par, lnk, successor)
  | Some l =>
      match fuel with
      | O => OutOfFuel
      | S fuel => find_successor fuel (Some successor) (LLeft successor) l t
      end
  end.

(** The node has two children and its right child has a left child: exchange
    it with its successor, found further down. *)
Definition swap_far_successor (node left succ0 : positive) (node_link : link) (t : avltree)
  : outcome (option positive * link * avltree) :=
  '(par, successor_link, successor) ←
    find_successor (path_fuel t) None (LRight node) succ0 t;
  t ← set_left (Some left) successor t;
  t ← set_parent (Some successor) left t;
  t ← set_left None node t;
  nr ← get_right node t;
  sr ← get_right successor t;
  t ← set_right sr node t;
  t ← set_right nr successor t;
  r ← (r ← get_right successor t; deref r);
  t ← set_parent (Some successor) r t;
  nr ← get_right node t;
  t ← set_parent_opt (Some node) nr t;
  t ← store_link successor_link (Some node) t;
  t ← store_link node_link (Some successor) t;
  np ← get_parent node t;
  t ← set_parent np successor t;
  t ← set_parent par node t;
  hn ← get_height node t;
  hs ← get_height successor t;
  t ← set_height hs node t;
  t ← set_height hn successor t;
  Ok (par, successor_link, t).

(** The right child has no left child: it is the successor. *)
Definition swap_near_successor (node left successor : positive) (node_link : link) (t : avltree)
  : outcome (option positive * link * avltree) :=
  t ← set_left None node t;
  sr ← get_right successor t;
  t ← set_right sr node t;
  t ← set_left (Some left) successor t;
  t ← set_right (Some node) successor t;
  t ← set_parent (Some successor) left t;
  t ← set_parent_opt (Some node) sr t;
  t ← set_right (Some node) successor t;
  np ← get_parent node t;
  t ← set_parent np successor t;
  t ← set_parent (Some successor) node t;
  t ← store_link node_link (Some successor) t;
  hn ← get_height node t;
  hs ← get_height successor t;
  t ← set_height hs node t;
  t ← set_height hn successor t;
  Ok (Some successor, LRight successor, t).

Definition avltree_delete_node (node : positive) (update : callback) (t : avltree)
  : outcome avltree :=
  node_link ← get_node_link node t;
  par ← get_parent node t;
  l ← get_left node t;
  r ← get_right node t;
  '(par, node_link, t) ←
    (match l, r with
     | Some left, Some successor =>
         sl ← get_left successor t;
         (match sl with
          | Some _ => swap_far_successor node left successor node_link t
          | None => swap_near_successor node left successor node_link t
          end)
     | _, _ => Ok (par, node_link, t)
     end);
  l ← get_left node t;
  r ← get_right node t;
  let first_child := match l with Some l => Some l | None => r end in
  t ← store_link node_link first_child t;
  t ← set_parent_opt par first_child t;
  avltree_fixup (path_fuel t) update par t.

Fixpoint delete_search (fuel : nat) (compare : positive -> Z) (curr : option positive)
    (t : avltree) : outcome (option positive) :=
  match curr with
  | None => Ok None
  | Some curr =>
      match fuel with
      | O => OutOfFuel
      | S fuel =>
          let c := compare curr in
          if c =? 0 then Ok (Some curr)
          else if c <? 0
          then l ← get_left curr t; delete_search fuel compare l t
          else r ← get_right curr t; delete_search fuel compare r t
      end
  end.

Definition avltree_delete (compare : positive -> Z) (update : callback) (t : avltree)
  : outcome avltree :=
  found ← delete_search (path_fuel t) compare (root t) t;
  match found with
  | Some node => avltree_delete_node node update t
  | None => Ok t
  end.

(** ** Walks *)
Fixpoint walk_left (fuel : nat) (node : positive) (t : avltree) : outcome positive :=
  l ← get_left node t;
  match l with
  | None => Ok node
  | Some l => match fuel with O => OutOfFuel | S fuel => walk_left fuel l t end
  end.
Fixpoint walk_right (fuel : nat) (node : positive) (t : avltree) : outcome positive :=
  r ← get_right node t;
  match r with
  | None => Ok node
  | Some r => match fuel with O => OutOfFuel | S fuel => walk_right fuel r t end
  end.

Definition avltree_leftmost (t : avltree) : outcome (option positive) :=
  match root t with
  | None => Ok None
  | Some node => p ← walk_left (path_fuel t) node t; Ok (Some p)
  end.
Definition avltree_rightmost (t : avltree) : outcome (option positive) :=
  match root t with
  | None => Ok None
  | Some node => p ← walk_right (path_fuel t) node t; Ok (Some p)
  end.

(** [while (node != NULL) { if (node->left != NULL) return node; ... }] *)
Fixpoint first_with_left (fuel : nat) (node : option positive) (t : avltree)
  : outcome (option positive) :=
  match node with
  | None => Ok None
  | Some node =>
      match fuel with
      | O => OutOfFuel
      | S fuel =>
          l ← get_left node t;
          match l with
          | Some _ => Ok (Some node)
          | None => p ← get_parent node t; first_with_left fuel p t
          end
      end
  end.

Definition avlnode_successor (node : positive) (t : avltree) : outcome (option positive) :=
  r ← get_right node t;
  match r with
  | Some r => p ← walk_left (path_fuel t) r t; Ok (Some p)
  | None => p ← get_parent node t; first_with_left (path_fuel t) p t
  end.

End avltree.
Arguments avltree C : clear implicits.
