(* ===== verification/AvlTreeInv.v ===== *)
(** * The AVL tree's store as a functional tree

    A zipper ([ctx], [tree]) describes the nodes a tree occupies in the store,
    seen from one of its nodes; every operation of AvlTree.v is shown to carry
    one zipper to another, so that what it does to the tree's in-order
    sequence of nodes can be read off a functional definition. *)
From stdpp Require Import sorting.
From S2P Require Import Prelude AvlTree.

(** ** Functional trees and contexts *)
Inductive tree := Leaf | Node (l : tree) (p : positive) (h : Z) (r : tree).

(** The path from a subtree up: the hole is the left (right) child of [p]. *)
Inductive frame := FL (p : positive) (h : Z) (r : tree) | FR (l : tree) (p : positive) (h : Z).
Abbreviation ctx := (list frame).

Definition rootp (t : tree) : option positive :=
  match t with Leaf => None | Node _ p _ _ => Some p end.
Definition ht (t : tree) : Z := match t with Leaf => 0 | Node _ _ h _ => h end.
Fixpoint elems (t : tree) : list positive :=
  match t with Leaf => [] | Node l p _ r => elems l ++ p :: elems r end.

Definition fill (f : frame) (t : tree) : tree :=
  match f with FL p h r => Node t p h r | FR l p h => Node l p h t end.
Fixpoint plug (c : ctx) (t : tree) : tree :=
  match c with [] => t | f :: c => plug c (fill f t) end.
Definition ctx_top (c : ctx) : option positive :=
  match c with [] => None | FL p _ _ :: _ | FR _ p _ :: _ => Some p end.
Definition ctx_link (c : ctx) : link :=
  match c with [] => LRoot | FL p _ _ :: _ => LLeft p | FR _ p _ :: _ => LRight p end.

(** In-order sequences of the two sides of the hole. *)
Fixpoint before (c : ctx) : list positive :=
  match c with [] => [] | FL _ _ _ :: c => before c | FR l p _ :: c => before c ++ elems l ++ [p] end.
Fixpoint after (c : ctx) : list positive :=
  match c with [] => [] | FL p _ r :: c => p :: elems r ++ after c | FR _ _ _ :: c => after c end.

Lemma elems_plug c t : elems (plug c t) = before c ++ elems t ++ after c.
Proof.
  revert t. induction c as [|[p h r|l p h] c IH]; intros t; simpl.
  - by rewrite app_nil_r.
  - rewrite IH. simpl. by rewrite <- !app_assoc.
  - rewrite IH. simpl. by rewrite <- !app_assoc.
Qed.

(** The nodes of the frames. *)
Fixpoint celems (c : ctx) : list positive :=
  match c with
  | [] => []
  | FL p _ r :: c => p :: elems r ++ celems c
  | FR l p _ :: c => p :: elems l ++ celems c
  end.

Lemma celems_perm c : celems c ≡ₚ before c ++ after c.
Proof.
  induction c as [|[p h r|l p h] c IH]; simpl; [done|..]; rewrite IH; solve_Permutation.
Qed.

Lemma elems_plug_perm c t : elems (plug c t) ≡ₚ elems t ++ celems c.
Proof. rewrite elems_plug, celems_perm. solve_Permutation. Qed.

(** ** Trees in the store *)
Fixpoint repr (m : gmap positive avlnode) (par : option positive) (t : tree) : Prop :=
  match t with
  | Leaf => True
  | Node l p h r =>
      m !! p = Some {| parent := par; left := rootp l; right := rootp r; height := h |} /\
      repr m (Some p) l /\ repr m (Some p) r
  end.

Fixpoint crepr (m : gmap positive avlnode) (c : ctx) (hole : option positive) : Prop :=
  match c with
  | [] => True
  | FL p h r :: c =>
      m !! p = Some {| parent := ctx_top c; left := hole; right := rootp r; height := h |} /\
      repr m (Some p) r /\ crepr m c (Some p)
  | FR l p h :: c =>
      m !! p = Some {| parent := ctx_top c; left := rootp l; right := hole; height := h |} /\
      repr m (Some p) l /\ crepr m c (Some p)
  end.

Lemma repr_frame m m' par t :
  (forall x, x ∈ elems t -> m' !! x = m !! x) -> repr m par t -> repr m' par t.
Proof.
  revert par. induction t as [|l IHl p h r IHr]; intros par E; simpl in *; [done|].
  intros (Hp & Hl & Hr). rewrite E by set_solver. split_and!; [done|..].
  - apply IHl; [|done]. intros x Hx. apply E. set_solver.
  - apply IHr; [|done]. intros x Hx. apply E. set_solver.
Qed.

Lemma crepr_frame m m' c hole :
  (forall x, x ∈ celems c -> m' !! x = m !! x) -> crepr m c hole -> crepr m' c hole.
Proof.
  revert hole. induction c as [|[p h r|l p h] c IH]; intros hole E; simpl in *; [done|..];
    intros (Hp & Hr & Hc); rewrite E by set_solver; (split_and!; [done|..]).
  - apply (repr_frame m); [|done]. intros x Hx. apply E. set_solver.
  - apply IH; [|done]. intros x Hx. apply E. set_solver.
  - apply (repr_frame m); [|done]. intros x Hx. apply E. set_solver.
  - apply IH; [|done]. intros x Hx. apply E. set_solver.
Qed.

(** Making a subtree the child of another node. *)
Definition reparent (v : option positive) (x : option positive) (m : gmap positive avlnode) :=
  (match x with Some x => alter (with_parent v) x m | None => m end).

Lemma lookup_reparent_ne v x m y : x <> Some y -> reparent v x m !! y = m !! y.
Proof. intros Hne. destruct x as [x|]; simpl; [|done]. rewrite lookup_alter_ne; congruence. Qed.

Lemma repr_reparent m par v t : NoDup (elems t) -> repr m par t ->
  repr (reparent v (rootp t) m) v t.
Proof.
  destruct t as [|l p h r]; simpl; [done|]. intros Hnd (Hp & Hl & Hr).
  assert ((p ∉ elems l) /\ (p ∉ elems r)) as [Nl Nr].
  { apply NoDup_app in Hnd as (_ & H1 & [H2 _]%NoDup_cons). set_solver. }
  split_and!.
  - by rewrite lookup_alter_eq, Hp.
  - apply (repr_frame m); [|done]. intros x Hx. rewrite lookup_alter_ne; [done|]. set_solver.
  - apply (repr_frame m); [|done]. intros x Hx. rewrite lookup_alter_ne; [done|]. set_solver.
Qed.

Lemma plug_app fs c t : plug (fs ++ c) t = plug c (plug fs t).
Proof. revert t. induction fs as [|f fs IH]; intros t; [done|]. apply IH. Qed.

(** Every node of a tree has a zipper. *)
Lemma elem_plug t p : p ∈ elems t -> exists c l h r, t = plug c (Node l p h r).
Proof.
  induction t as [|l IHl q h r IHr]; simpl; [by intros ?%elem_of_nil|].
  intros [Hp|[->|Hp]%elem_of_cons]%elem_of_app.
  - destruct (IHl Hp) as (c & l' & h' & r' & ->). exists (c ++ [FL q h r]), l', h', r'.
    by rewrite plug_app.
  - by exists [], l, h, r.
  - destruct (IHr Hp) as (c & l' & h' & r' & ->). exists (c ++ [FR l q h]), l', h', r'.
    by rewrite plug_app.
Qed.

Section zipper.
Context {C : Type}.
Implicit Types st : avltree C.

(** ** The store seen from a node *)
Record zip (st : avltree C) (c : ctx) (t : tree) : Prop := {
  z_tree : repr (nodes st) (ctx_top c) t;
  z_ctx : crepr (nodes st) c (rootp t);
  z_root : root st = rootp (plug c t);
  z_nodup : NoDup (elems t ++ celems c);
}.

(** A whole tree. *)
Definition holds (st : avltree C) (t : tree) : Prop := zip st [] t.

Lemma elems_fill f c t : elems t ++ celems (f :: c) ≡ₚ elems (fill f t) ++ celems c.
Proof. destruct f as [p h r|l p h]; simpl; solve_Permutation. Qed.

Lemma zip_up st f c t : zip st (f :: c) t <-> zip st c (fill f t).
Proof.
  pose proof (elems_fill f c t) as P.
  split; intros [H1 H2 H3 H4]; split; [..|by rewrite P in H4| | | |by rewrite P];
    destruct f as [p h r|l p h]; simpl in *; tauto.
Qed.

Lemma zip_plug st c t : zip st c t <-> holds st (plug c t).
Proof.
  revert t. induction c as [|f c IH]; intros t; [done|]. rewrite zip_up. apply IH.
Qed.

(** ** Running the field operations *)
Lemma modify_ok f p n st : nodes st !! p = Some n ->
  modify f p st = Ok (set_nodes (<[p := f n]> (nodes st)) st).
Proof. intros H. unfold modify, get. by rewrite H. Qed.

Lemma get_ok p n st : nodes st !! p = Some n -> get p st = Ok n.
Proof. intros H. unfold get. by rewrite H. Qed.

Lemma set_parent_opt_ok v x st : (forall y, x = Some y -> is_Some (nodes st !! y)) ->
  set_parent_opt v x st = Ok (set_nodes (reparent v x (nodes st)) st).
Proof.
  intros H. destruct x as [x|]; simpl; [|by destruct st].
  destruct (H x eq_refl) as [n Hn]. unfold set_parent. rewrite (modify_ok _ _ n) by done.
  do 2 f_equal. apply map_eq. intros y. destruct (decide (x = y)) as [->|].
  - by rewrite lookup_insert_eq, lookup_alter_eq, Hn.
  - by rewrite lookup_insert_ne, lookup_alter_ne.
Qed.

Lemma rootp_plug c t t' : rootp t = rootp t' -> rootp (plug c t) = rootp (plug c t').
Proof.
  revert t t'. induction c as [|[p h r|l p h] c IH]; intros t t' E; simpl; [done|..]; by apply IH.
Qed.

Lemma rootp_plug_cons f c t t' : rootp (plug (f :: c) t) = rootp (plug (f :: c) t').
Proof. destruct f; simpl; by apply rootp_plug. Qed.

Lemma rootp_elem t x : rootp t = Some x -> x ∈ elems t.
Proof. destruct t; simpl; [done|]. intros [= ->]. set_solver. Qed.

Lemma repr_lookup m par t x : repr m par t -> rootp t = Some x -> is_Some (m !! x).
Proof. destruct t; simpl; [done|]. intros (H & _) [= ->]. eauto. Qed.

(** Hanging another subtree in the hole of a zipper. *)
Lemma zip_replace st st1 c t t' : zip st c t -> root st1 = root st ->
  (forall x, x ∈ celems c -> nodes st1 !! x = nodes st !! x) ->
  repr (nodes st1) (ctx_top c) t' -> NoDup (elems t' ++ celems c) ->
  exists st2, store_link (ctx_link c) (rootp t') st1 = Ok st2 /\ zip st2 c t' /\
    client st2 = client st1 /\ (forall x, x ∉ celems c -> nodes st2 !! x = nodes st1 !! x).
Proof.
  intros [Z1 Z2 Z3 Z4] Er Ef Hr Hnd.
  apply (crepr_frame _ (nodes st1)) in Z2; [|done].
  destruct c as [|f c]; simpl.
  - eexists. by split_and!.
  - assert (forall x, x ∈ elems t' -> x ∉ celems (f :: c)) as Hd by (apply NoDup_app in Hnd; naive_solver).
    pose proof (rootp_plug_cons f c t t') as Er'.
    apply NoDup_app in Hnd as Hnd'. destruct Hnd' as (_ & _ & Hc).
    destruct f as [p h r|l p h]; simpl in *; destruct Z2 as (Hp & Hsub & Hrest);
      apply NoDup_cons in Hc as [Hp1 Hc]; unfold set_left, set_right;
      rewrite (modify_ok _ _ _ _ Hp); eexists; (split; [done|]);
      (split; [split; simpl|split; [done|]]).
    all: try (apply (repr_frame (nodes st1)); [|done]; intros x Hx; rewrite lookup_insert_ne; [done|];
              specialize (Hd x Hx); set_solver).
    all: try done.
    all: try (intros x Hx; simpl; rewrite lookup_insert_ne; [done|set_solver]).
    all: try congruence.
    all: split_and!; [by rewrite lookup_insert_eq| |].
    all: try (apply (repr_frame (nodes st1)); [|done]; intros x Hx; rewrite lookup_insert_ne; [done|];
              set_solver).
    all: apply (crepr_frame (nodes st1)); [|done]; intros x Hx; rewrite lookup_insert_ne; [done|];
              set_solver.
Qed.

(** ** Rotations *)

(** Split the [NoDup] facts about trees into disjointness facts. *)
Ltac nodup H :=
  simpl in H; rewrite ?NoDup_app, ?NoDup_cons, ?NoDup_app, ?NoDup_cons in H.

Lemma rotate_nodup l p h m q hq r c :
  NoDup (elems (Node l p h (Node m q hq r)) ++ celems c) ->
  p <> q /\ NoDup (elems m) /\
  (forall x, x ∈ elems l -> x <> p /\ x <> q /\ (x ∉ elems m)) /\
  (forall x, x ∈ elems m -> x <> p /\ x <> q) /\
  (forall x, x ∈ elems r -> x <> p /\ x <> q /\ (x ∉ elems m)) /\
  (forall x, x ∈ celems c -> x <> p /\ x <> q /\ (x ∉ elems m)).
Proof.
  intros H. nodup H. set_solver.
Qed.

Lemma rotate_left_zip st c l p h m q hq r :
  zip st c (Node l p h (Node m q hq r)) ->
  exists st1 st2, rotate_left p st = Ok (q, st1) /\
  store_link (ctx_link c) (Some q) st1 = Ok st2 /\
  zip st2 c (Node (Node l p h m) q hq r) /\ client st2 = client st.
Proof.
  intros Z. pose proof Z as [(Hp & Hl & Hq & Hm & Hr) _ _ Hnd]. simpl in Hp, Hl, Hq, Hm, Hr.
  destruct (rotate_nodup _ _ _ _ _ _ _ _ Hnd) as (Npq & Nm & Dl & Dm & Dr & Dc).
  assert (rootp m <> Some p /\ rootp m <> Some q) as [Np Nq].
  { split; intros E%rootp_elem%Dm; naive_solver. }
  unfold rotate_left, get_right, get_left, get_parent.
  rewrite (get_ok _ _ _ Hp). simpl. rewrite (get_ok _ _ _ Hq). simpl.
  unfold set_right, set_parent, set_left.
  erewrite modify_ok by done. simpl.
  erewrite modify_ok by (simpl; apply lookup_insert_eq). simpl. rewrite insert_insert_eq.
  rewrite set_parent_opt_ok.
  2:{ intros y Hy. simpl. rewrite lookup_insert_ne by congruence. by apply (repr_lookup _ (Some q) m). }
  simpl. erewrite modify_ok.
  2:{ simpl. rewrite lookup_reparent_ne by done. by rewrite lookup_insert_ne by done. }
  simpl. erewrite modify_ok by (simpl; apply lookup_insert_eq). simpl. rewrite insert_insert_eq.
  unfold with_parent, with_left, with_right. simpl.
  match goal with |- context [Ok (q, ?s)] => set (st1 := s) end.
  assert (forall x, x <> p -> x <> q -> x ∉ elems m -> nodes st1 !! x = nodes st !! x) as Hf.
  { intros x ?? Hx. simpl. rewrite lookup_insert_ne, lookup_reparent_ne, lookup_insert_ne; try done.
    by intros E%rootp_elem. }
  destruct (zip_replace st st1 c (Node l p h (Node m q hq r)) (Node (Node l p h m) q hq r))
    as (st2 & E2 & Z2 & C2 & _); try done.
  - intros x Hx. apply Hf; naive_solver.
  - simpl. rewrite lookup_insert_eq. split; [done|]. rewrite lookup_insert_ne by done.
    rewrite lookup_reparent_ne by done. rewrite lookup_insert_eq. split_and!; [done|..].
    + apply (repr_frame (nodes st)); [|done]. intros x Hx. apply Hf; naive_solver.
    + apply (repr_frame (reparent (Some p) (rootp m) (nodes st))).
      * intros x Hx. destruct (Dm x Hx). rewrite lookup_insert_ne by done.
        destruct (rootp m) as [y|]; simpl.
        -- destruct (decide (y = x)) as [->|].
           ++ rewrite !lookup_alter_eq. by rewrite lookup_insert_ne.
           ++ rewrite !lookup_alter_ne by done. by rewrite lookup_insert_ne.
        -- by rewrite lookup_insert_ne.
      * by apply (repr_reparent _ (Some q)).
    + apply (repr_frame (nodes st)); [|done]. intros x Hx. apply Hf; naive_solver.
  - eapply NoDup_Permutation_proper; [|exact Hnd]. simpl. solve_Permutation.
  - by exists st1, st2.
Qed.

Lemma rotate_right_zip st c r p h m q hq l :
  zip st c (Node (Node l q hq m) p h r) ->
  exists st1 st2, rotate_right p st = Ok (q, st1) /\
  store_link (ctx_link c) (Some q) st1 = Ok st2 /\
  zip st2 c (Node l q hq (Node m p h r)) /\ client st2 = client st.
Proof.
  intros Z. pose proof Z as [(Hp & (Hq & Hl & Hm) & Hr) _ _ Hnd]. simpl in Hp, Hl, Hq, Hm, Hr.
  assert (elems (Node (Node l q hq m) p h r) ++ celems c ≡ₚ
          elems (Node r p h (Node m q hq l)) ++ celems c) as P by (simpl; solve_Permutation).
  destruct (rotate_nodup r p h m q hq l c) as (Npq & Nm & Dr & Dm & Dl & Dc); [by rewrite <- P|].
  assert (rootp m <> Some p /\ rootp m <> Some q) as [Np Nq].
  { split; intros E%rootp_elem%Dm; naive_solver. }
  unfold rotate_right, get_right, get_left, get_parent.
  rewrite (get_ok _ _ _ Hp). simpl. rewrite (get_ok _ _ _ Hq). simpl.
  unfold set_right, set_parent, set_left.
  erewrite modify_ok by done. simpl.
  erewrite modify_ok by (simpl; apply lookup_insert_eq). simpl. rewrite insert_insert_eq.
  rewrite set_parent_opt_ok.
  2:{ intros y Hy. simpl. rewrite lookup_insert_ne by congruence. by apply (repr_lookup _ (Some q) m). }
  simpl. erewrite modify_ok.
  2:{ simpl. rewrite lookup_reparent_ne by done. by rewrite lookup_insert_ne by done. }
  simpl. erewrite modify_ok by (simpl; apply lookup_insert_eq). simpl. rewrite insert_insert_eq.
  unfold with_parent, with_left, with_right. simpl.
  match goal with |- context [Ok (q, ?s)] => set (st1 := s) end.
  assert (forall x, x <> p -> x <> q -> x ∉ elems m -> nodes st1 !! x = nodes st !! x) as Hf.
  { intros x ?? Hx. simpl. rewrite lookup_insert_ne, lookup_reparent_ne, lookup_insert_ne; try done.
    by intros E%rootp_elem. }
  destruct (zip_replace st st1 c (Node (Node l q hq m) p h r) (Node l q hq (Node m p h r)))
    as (st2 & E2 & Z2 & C2 & _); try done.
  - intros x Hx. apply Hf; naive_solver.
  - simpl. rewrite lookup_insert_eq. split; [done|]. rewrite lookup_insert_ne by done.
    rewrite lookup_reparent_ne by done. rewrite lookup_insert_eq. split_and!; [|done|..].
    + apply (repr_frame (nodes st)); [|done]. intros x Hx. apply Hf; naive_solver.
    + apply (repr_frame (reparent (Some p) (rootp m) (nodes st))).
      * intros x Hx. destruct (Dm x Hx). rewrite lookup_insert_ne by done.
        destruct (rootp m) as [y|]; simpl.
        -- destruct (decide (y = x)) as [->|].
           ++ rewrite !lookup_alter_eq. by rewrite lookup_insert_ne.
           ++ rewrite !lookup_alter_ne by done. by rewrite lookup_insert_ne.
        -- by rewrite lookup_insert_ne.
      * by apply (repr_reparent _ (Some q)).
    + apply (repr_frame (nodes st)); [|done]. intros x Hx. apply Hf; naive_solver.
  - eapply NoDup_Permutation_proper; [|exact Hnd]. simpl. solve_Permutation.
  - by exists st1, st2.
Qed.

(** ** Heights, links and updates *)
Lemma zip_node st c l p h r : zip st c (Node l p h r) ->
  nodes st !! p = Some {| parent := ctx_top c; left := rootp l; right := rootp r; height := h |}.
Proof. intros [(H & _) _ _ _]. exact H. Qed.

Lemma node_height_ok st par t : repr (nodes st) par t -> node_height (rootp t) st = Ok (ht t).
Proof.
  destruct t as [|l p h r]; [done|]. intros (H & _). simpl. unfold get_height.
  by rewrite (get_ok _ _ _ H).
Qed.

Lemma zip_left st c l p h r : zip st c (Node l p h r) -> repr (nodes st) (Some p) l.
Proof. intros [(_ & H & _) _ _ _]. exact H. Qed.
Lemma zip_right st c l p h r : zip st c (Node l p h r) -> repr (nodes st) (Some p) r.
Proof. intros [(_ & _ & H) _ _ _]. exact H. Qed.

Lemma zip_set_height st c l p h r h' : zip st c (Node l p h r) ->
  exists st', set_height h' p st = Ok st' /\ zip st' c (Node l p h' r) /\ client st' = client st.
Proof.
  intros Z. pose proof Z as [(Hp & Hl & Hr) Hc Hroot Hnd].
  unfold set_height. rewrite (modify_ok _ _ _ _ Hp). eexists. split; [done|]. split; [|done].
  nodup Hnd. split; simpl.
  - rewrite lookup_insert_eq. split_and!; [done|..].
    + apply (repr_frame (nodes st)); [|done]. intros x Hx. rewrite lookup_insert_ne; [done|set_solver].
    + apply (repr_frame (nodes st)); [|done]. intros x Hx. rewrite lookup_insert_ne; [done|set_solver].
  - apply (crepr_frame (nodes st)); [|done]. intros x Hx. rewrite lookup_insert_ne; [done|set_solver].
  - rewrite Hroot. by apply rootp_plug.
  - by destruct Z.
Qed.

Definition hreset (l r : tree) : Z := u32 (1 + Z.max (ht l) (ht r)).

Lemma zip_reset st c l p h r : zip st c (Node l p h r) ->
  exists st', reset_node_height p st = Ok st' /\ zip st' c (Node l p (hreset l r) r) /\
    client st' = client st.
Proof.
  intros Z. unfold reset_node_height, get_left, get_right.
  rewrite (get_ok _ _ _ (zip_node _ _ _ _ _ _ Z)). simpl.
  rewrite (node_height_ok _ _ _ (zip_left _ _ _ _ _ _ Z)). simpl.
  rewrite (node_height_ok _ _ _ (zip_right _ _ _ _ _ _ Z)). simpl.
  by apply (zip_set_height st c l p h r).
Qed.

Lemma get_node_link_zip st c l p h r : zip st c (Node l p h r) ->
  get_node_link p st = Ok (ctx_link c).
Proof.
  intros Z. pose proof Z as [_ Hc _ Hnd]. unfold get_node_link, get_parent.
  rewrite (get_ok _ _ _ (zip_node _ _ _ _ _ _ Z)). simpl.
  destruct c as [|[q hq r'|l' q hq] c]; simpl in *; [done|..]; unfold get_left;
    destruct Hc as (Hq & _); rewrite (get_ok _ _ _ Hq); simpl.
  - by rewrite decide_True.
  - rewrite decide_False; [done|]. intros E%eq_sym%rootp_elem. nodup Hnd. set_solver.
Qed.

Lemma zip_update st c t f p : zip st c t -> zip (avlnode_update f p st) c t.
Proof. intros [H1 H2 H3 H4]. destruct f; by split. Qed.

(** ** Rebalancing as a function on trees *)

(** The branch [balance > 1]: the inner node of a double rotation keeps its
    height, and so does the node that ends up on top of a single rotation. *)
Definition fix_right (l : tree) (p : positive) (h : Z) (r : tree) : tree :=
  match r with
  | Leaf => Node l p h r
  | Node m q hq rr =>
      if ht m >? ht rr then
        match m with
        | Leaf => Node l p h r
        | Node ml x _ mr =>
            Node (Node l p (hreset l ml) ml) x (hreset ml (Node mr q hq rr)) (Node mr q hq rr)
        end
      else Node (Node l p (hreset l m) m) q hq rr
  end.
Definition fix_left (l : tree) (p : positive) (h : Z) (r : tree) : tree :=
  match l with
  | Leaf => Node l p h r
  | Node ll q hq m =>
      if ht ll <? ht m then
        match m with
        | Leaf => Node l p h r
        | Node ml x _ mr =>
            Node (Node ll q hq ml) x (hreset (Node ll q hq ml) mr) (Node mr p (hreset mr r) r)
        end
      else Node ll q hq (Node m p (hreset m r) r)
  end.
Definition fix_node (l : tree) (p : positive) (h : Z) (r : tree) : tree :=
  let balance := ht r - ht l in
  if balance >? 1 then fix_right l p h r
  else if balance <? -1 then fix_left l p h r
  else Node l p (hreset l r) r.
Definition fix_tree (t : tree) : tree :=
  match t with Leaf => Leaf | Node l p h r => fix_node l p h r end.
Fixpoint fixup_fun (c : ctx) (t : tree) : tree :=
  match c with [] => t | f :: c => fixup_fun c (fix_tree (fill f t)) end.

Lemma elems_fix_node l p h r : elems (fix_node l p h r) = elems l ++ p :: elems r.
Proof.
  unfold fix_node, fix_right, fix_left.
  repeat case_match; simplify_eq/=; rewrite <- ?app_assoc; simpl; rewrite <- ?app_assoc; done.
Qed.

Lemma elems_fix_tree t : elems (fix_tree t) = elems t.
Proof. destruct t; simpl; [done|]. apply elems_fix_node. Qed.

Lemma elems_fixup c t : elems (fixup_fun c t) = before c ++ elems t ++ after c.
Proof.
  revert t. induction c as [|f c IH]; intros t; simpl; [by rewrite app_nil_r|].
  rewrite IH, elems_fix_tree. destruct f as [p h r|l p h]; simpl; by rewrite <- !app_assoc.
Qed.

(** Heights are unsigned. *)
Fixpoint hok (t : tree) : Prop :=
  match t with Leaf => True | Node l _ h r => 0 <= h /\ hok l /\ hok r end.
Definition hok_frame (f : frame) : Prop :=
  match f with FL _ h r => 0 <= h /\ hok r | FR l _ h => 0 <= h /\ hok l end.

Lemma ht_nonneg t : hok t -> 0 <= ht t.
Proof. destruct t; simpl; [lia|tauto]. Qed.

Lemma hreset_nonneg l r : 0 <= hreset l r.
Proof. apply wrap_in_u. lia. Qed.

Lemma hok_fill f t : hok (fill f t) <-> hok_frame f /\ hok t.
Proof. destruct f; simpl; tauto. Qed.

Lemma hok_plug c t : hok (plug c t) <-> Forall hok_frame c /\ hok t.
Proof.
  revert t. induction c as [|f c IH]; intros t; simpl.
  - split; [split; [constructor|done]|tauto].
  - rewrite IH, hok_fill, Forall_cons. tauto.
Qed.

Lemma hok_fix_tree t : hok t -> hok (fix_tree t).
Proof.
  destruct t as [|l p h r]; simpl; [done|]. unfold fix_node, fix_right, fix_left.
  pose proof hreset_nonneg. repeat case_match; simpl; naive_solver.
Qed.

(** A callback that keeps a property of the client's data. *)
Definition keeps (P : C -> Prop)
    (f : option (positive -> gmap positive avlnode -> C -> C)) : Prop :=
  match f with
  | Some f => forall p m c, is_Some (m !! p) -> P c -> P (f p m c)
  | None => True
  end.
Abbreviation kept f st st' := (forall P, keeps P f -> P (client st) -> P (client st')).

Lemma kept_update f st st' c t p : zip st' c t -> rootp t = Some p -> kept f st st' ->
  kept f st (avlnode_update f p st').
Proof.
  intros [Z _ _ _] E K P Kf Pc. destruct f as [f|]; simpl; [|by apply K].
  apply Kf; [by apply (repr_lookup _ _ t _ Z)|]. by apply K.
Qed.

(** Where the loop goes on from. *)
Lemma fix_right_zip update st c l p h r : zip st c (Node l p h r) -> hok (Node l p h r) ->
  ht r - ht l > 1 ->
  exists q st', fixup_right_heavy update p st = Ok (q, st') /\
  zip st' c (fix_right l p h r) /\ rootp (fix_right l p h r) = Some q /\ kept update st st'.
Proof.
  intros Z (Hh & Hokl & Hokr) Hb. pose proof (ht_nonneg l Hokl).
  destruct r as [|m q hq rr]; [simpl in Hb; lia|]. destruct Hokr as (Hq & Hokm & Hokrr).
  pose proof (ht_nonneg rr Hokrr).
  assert (zip st (FR l p h :: c) (Node m q hq rr)) as Zr by by apply zip_up.
  unfold fixup_right_heavy, get_right, get_left.
  rewrite (get_ok _ _ _ (zip_node _ _ _ _ _ _ Z)). simpl.
  rewrite (get_ok _ _ _ (zip_node _ _ _ _ _ _ Zr)). simpl.
  rewrite (node_height_ok _ _ _ (zip_left _ _ _ _ _ _ Zr)). simpl.
  rewrite (node_height_ok _ _ _ (zip_right _ _ _ _ _ _ Zr)). simpl.
  destruct (Z.gtb_spec (ht m) (ht rr)).
  - destruct m as [|ml x hx mr]; [simpl in *; lia|].
    destruct (rotate_right_zip st _ rr q hq mr x hx ml Zr) as (st1 & st2 & -> & E2 & Z2 & K2).
    simpl in E2 |- *. rewrite E2. simpl.
    destruct (zip_reset _ _ _ _ _ _ Z2) as (st3 & -> & Z3 & K3). simpl.
    assert (kept update st (avlnode_update update x st3)) as K.
    { apply (kept_update _ _ _ _ _ _ Z3); [done|]. intros P _. by rewrite K3, K2. }
    apply (zip_update _ _ _ update x) in Z3. apply zip_up in Z3. simpl in Z3.
    rewrite (get_node_link_zip _ _ _ _ _ _ Z3). simpl.
    destruct (rotate_left_zip _ _ _ _ _ _ _ _ _ Z3) as (st4 & st5 & -> & E5 & Z5 & K5).
    simpl. rewrite E5. simpl.
    destruct (zip_reset st5 (FL x (hreset ml (Node mr q hq rr)) (Node mr q hq rr) :: c) l p h ml)
      as (st6 & -> & Z6 & K6); [by apply zip_up|]. simpl.
    eexists _, _. split; [done|]. split; [apply zip_update; by apply zip_up in Z6|]. split; [done|].
    apply (kept_update _ _ _ _ _ _ Z6); [done|]. intros P Kf Pc. rewrite K6, K5. by apply K.
  - rewrite outcome_bind_ok. rewrite (get_node_link_zip _ _ _ _ _ _ Z). simpl.
    destruct (rotate_left_zip _ _ _ _ _ _ _ _ _ Z) as (st4 & st5 & -> & E5 & Z5 & K5).
    simpl. rewrite E5. simpl.
    destruct (zip_reset st5 (FL q hq rr :: c) l p h m) as (st6 & -> & Z6 & K6); [by apply zip_up|].
    simpl.
    eexists _, _. split; [done|]. split; [apply zip_update; by apply zip_up in Z6|]. split; [done|].
    apply (kept_update _ _ _ _ _ _ Z6); [done|]. intros P Kf Pc. rewrite K6, K5. done.
Qed.

Lemma fix_left_zip update st c l p h r : zip st c (Node l p h r) -> hok (Node l p h r) ->
  ht r - ht l < -1 ->
  exists q st', fixup_left_heavy update p st = Ok (q, st') /\
  zip st' c (fix_left l p h r) /\ rootp (fix_left l p h r) = Some q /\ kept update st st'.
Proof.
  intros Z (Hh & Hokl & Hokr) Hb. pose proof (ht_nonneg r Hokr).
  destruct l as [|ll q hq m]; [simpl in Hb; lia|]. destruct Hokl as (Hq & Hokll & Hokm).
  pose proof (ht_nonneg ll Hokll).
  assert (zip st (FL p h r :: c) (Node ll q hq m)) as Zl by by apply zip_up.
  unfold fixup_left_heavy, get_right, get_left.
  rewrite (get_ok _ _ _ (zip_node _ _ _ _ _ _ Z)). simpl.
  rewrite (get_ok _ _ _ (zip_node _ _ _ _ _ _ Zl)). simpl.
  rewrite (node_height_ok _ _ _ (zip_left _ _ _ _ _ _ Zl)). simpl.
  rewrite (node_height_ok _ _ _ (zip_right _ _ _ _ _ _ Zl)). simpl.
  destruct (Z.ltb_spec (ht ll) (ht m)).
  - destruct m as [|ml x hx mr]; [simpl in *; lia|].
    destruct (rotate_left_zip st _ ll q hq ml x hx mr Zl) as (st1 & st2 & -> & E2 & Z2 & K2).
    simpl in E2 |- *. rewrite E2. simpl.
    destruct (zip_reset _ _ _ _ _ _ Z2) as (st3 & -> & Z3 & K3). simpl.
    apply zip_up in Z3. simpl in Z3.
    rewrite (get_node_link_zip _ _ _ _ _ _ Z3). simpl.
    destruct (rotate_right_zip _ _ _ _ _ _ _ _ _ Z3) as (st4 & st5 & -> & E5 & Z5 & K5).
    simpl. rewrite E5. simpl.
    destruct (zip_reset st5 (FR (Node ll q hq ml) x (hreset (Node ll q hq ml) mr) :: c) mr p h r)
      as (st6 & -> & Z6 & K6); [by apply zip_up|].
    simpl.
    eexists _, _. split; [done|]. split; [apply zip_update; by apply zip_up in Z6|]. split; [done|].
    apply (kept_update _ _ _ _ _ _ Z6); [done|]. intros P Kf Pc. rewrite K6, K5. by rewrite K3, K2.
  - rewrite outcome_bind_ok. rewrite (get_node_link_zip _ _ _ _ _ _ Z). simpl.
    destruct (rotate_right_zip _ _ _ _ _ _ _ _ _ Z) as (st4 & st5 & -> & E5 & Z5 & K5).
    simpl. rewrite E5. simpl.
    destruct (zip_reset st5 (FR ll q hq :: c) m p h r) as (st6 & -> & Z6 & K6); [by apply zip_up|].
    simpl.
    eexists _, _. split; [done|]. split; [apply zip_update; by apply zip_up in Z6|]. split; [done|].
    apply (kept_update _ _ _ _ _ _ Z6); [done|]. intros P Kf Pc. rewrite K6, K5. done.
Qed.

Lemma fixup_step_zip update st c l p h r : zip st c (Node l p h r) -> hok (Node l p h r) ->
  exists q st', fixup_step update p st = Ok (q, st') /\
  zip st' c (fix_node l p h r) /\ rootp (fix_node l p h r) = Some q /\ kept update st st'.
Proof.
  intros Z Hok. unfold fixup_step, node_balance, get_right, get_left.
  rewrite (get_ok _ _ _ (zip_node _ _ _ _ _ _ Z)). simpl.
  rewrite (node_height_ok _ _ _ (zip_right _ _ _ _ _ _ Z)). simpl.
  rewrite (node_height_ok _ _ _ (zip_left _ _ _ _ _ _ Z)). simpl.
  unfold fix_node. destruct (Z.gtb_spec (ht r - ht l) 1); [|destruct (Z.ltb_spec (ht r - ht l) (-1))].
  - destruct (fix_right_zip update st c l p h r Z Hok ltac:(lia)) as (q & st' & -> & Z' & E & K).
    simpl. eexists _, _. split; [done|]. split; [by apply zip_update|]. split; [done|].
    by apply (kept_update _ _ _ _ _ _ Z').
  - destruct (fix_left_zip update st c l p h r Z Hok ltac:(lia)) as (q & st' & -> & Z' & E & K).
    simpl. eexists _, _. split; [done|]. split; [by apply zip_update|]. split; [done|].
    by apply (kept_update _ _ _ _ _ _ Z').
  - destruct (zip_reset st c l p h r Z) as (st' & -> & Z' & K).
    simpl. eexists _, _. split; [done|]. split; [by apply zip_update|]. split; [done|].
    apply (kept_update _ _ _ _ _ _ Z'); [done|]. intros P _. by rewrite K.
Qed.

(** The whole loop, from the hole of a zipper up. *)
Lemma fixup_zip update : forall c t fuel st, zip st c t -> hok (plug c t) ->
  (length c <= fuel)%nat ->
  exists st', avltree_fixup fuel update (ctx_top c) st = Ok st' /\
  holds st' (fixup_fun c t) /\ hok (fixup_fun c t) /\ kept update st st'.
Proof.
  induction c as [|f c IH]; intros t fuel st Z Hok Hf.
  - exists st. destruct fuel; (split_and!; [done..|auto]).
  - apply zip_up in Z. destruct fuel as [|fuel]; [simpl in Hf; lia|].
    simpl in Hok. apply hok_plug in Hok as [Hc Hok].
    assert (exists l p h r, fill f t = Node l p h r /\ ctx_top (f :: c) = Some p)
      as (l & p & h & r & E & Et) by (destruct f; eauto 10).
    rewrite Et. simpl. rewrite E in *.
    destruct (fixup_step_zip update st c l p h r Z Hok) as (q & st1 & -> & Z1 & Eq & K). simpl.
    assert (get_parent q st1 = Ok (ctx_top c)) as ->.
    { destruct (fix_node l p h r) as [|l' q' h' r'] eqn:En; simplify_eq/=. unfold get_parent.
      by rewrite (get_ok _ _ _ (zip_node _ _ _ _ _ _ Z1)). }
    simpl. destruct (IH (fix_node l p h r) fuel st1 Z1) as (st' & -> & Z' & Hok' & K').
    + apply hok_plug. split; [done|]. by apply (hok_fix_tree (Node l p h r)).
    + simpl in Hf. lia.
    + exists st'. split_and!; [done..|]. intros P Kf Pc. by apply K', K.
Qed.

(** *** The fuel is enough: a path has no more nodes than the store. *)
Lemma repr_dom m par t x : repr m par t -> x ∈ elems t -> x ∈ dom m.
Proof.
  revert par. induction t as [|l IHl p h r IHr]; intros par; simpl; [set_solver|].
  intros (Hp & Hl & Hr) [?|[->|?]%elem_of_cons]%elem_of_app; [by eapply IHl| |by eapply IHr].
  apply elem_of_dom. eauto.
Qed.

Lemma holds_size st t : holds st t -> (length (elems t) <= size (nodes st))%nat.
Proof.
  intros [Z1 _ _ Z4]. simpl in Z4. rewrite app_nil_r in Z4.
  rewrite <- size_dom. rewrite <- (size_list_to_set (C := gset positive) (elems t)) by done.
  apply subseteq_size. intros x. rewrite elem_of_list_to_set. by apply (repr_dom _ None).
Qed.

Lemma length_celems c : (length c <= length (celems c))%nat.
Proof.
  induction c as [|[p h r|l p h] c IH]; simpl; [lia|..]; rewrite length_app; lia.
Qed.

Lemma zip_fuel st c t : zip st c t -> (length c + length (elems t) <= size (nodes st))%nat.
Proof.
  intros Z%zip_plug%holds_size. rewrite (Permutation_length (elems_plug_perm c t)), length_app in Z.
  pose proof (length_celems c). lia.
Qed.

(** ** Insertion *)

(** The new node goes into a hole; what the hole held is lost. *)
Lemma insert_at_loc_ok update added node st c s : zip st c s -> hok (plug c s) ->
  node ∉ celems c -> is_Some (nodes st !! node) ->
  exists st1 st', insert_at_loc node (ctx_top c) (ctx_link c) update added st = Ok st' /\
  holds st' (fixup_fun c (Node Leaf node 1 Leaf)) /\ hok (fixup_fun c (Node Leaf node 1 Leaf)) /\
  zip st1 c (Node Leaf node 1 Leaf) /\ client st1 = client st /\
  kept update (avlnode_update added node st1) st'.
Proof.
  intros Z Hok Hn [n Hnode]. pose proof (z_nodup _ _ _ Z) as Hnd.
  apply NoDup_app in Hnd as (_ & _ & Hnd). unfold insert_at_loc. rewrite (modify_ok _ _ n) by done. rewrite outcome_bind_ok.
  match goal with |- context [store_link _ _ ?s] => set (st1 := s) end.
  destruct (zip_replace st st1 c s (Node Leaf node 1 Leaf) Z) as (st2 & E2 & Z2 & K2 & _).
  - done.
  - intros x Hx. simpl. rewrite lookup_insert_ne; [done|]. by intros ->.
  - simpl. by rewrite lookup_insert_eq.
  - simpl. by apply NoDup_cons.
  - simpl in E2. rewrite E2, outcome_bind_ok. cbv zeta.
    pose proof (zip_update _ _ _ added node Z2) as Z3.
    pose proof (zip_update _ _ _ update node Z3) as Z4.
    match type of Z4 with zip ?s _ _ => set (st3 := s) in * end.
    destruct (fixup_zip update c (Node Leaf node 1 Leaf) (path_fuel st3) st3 Z4)
      as (st' & E' & Z' & Hok' & K').
    + apply hok_plug in Hok as [??]. apply hok_plug. simpl. auto with lia.
    + pose proof (zip_fuel _ _ _ Z4). unfold path_fuel. lia.
    + exists st2, st'. split_and!; [done..|]. intros P Kf Pc. apply K'; [done|].
      by apply (kept_update _ (avlnode_update added node st2) _ _ _ _ Z3).
Qed.

(** The descent, as a function: the context of the hole, or none. *)
Fixpoint ins_ctx (compare : positive -> Z) (c : ctx) (t : tree) : option ctx :=
  match t with
  | Leaf => Some c
  | Node l p h r =>
      if compare p =? 0 then None
      else if compare p <? 0 then ins_ctx compare (FL p h r :: c) l
      else ins_ctx compare (FR l p h :: c) r
  end.

Lemma insert_loc_ok compare : forall t c fuel st, zip st c t ->
  (length (elems t) <= fuel)%nat ->
  insert_loc fuel compare (ctx_top c) (rootp t) (ctx_link c) st =
    Ok ((fun c' => (ctx_top c', ctx_link c')) <$> ins_ctx compare c t) /\
  forall c', ins_ctx compare c t = Some c' -> plug c' Leaf = plug c t.
Proof.
  induction t as [|l IHl p h r IHr]; intros c fuel st Z Hf.
  - split; [by destruct fuel|]. by intros c' [= <-].
  - simpl in Hf. rewrite length_app in Hf. simpl in Hf. destruct fuel as [|fuel]; [lia|].
    simpl. unfold get_left, get_right. rewrite (get_ok _ _ _ (zip_node _ _ _ _ _ _ Z)). simpl.
    destruct (compare p =? 0); [done|]. destruct (compare p <? 0).
    + apply (IHl (FL p h r :: c)); [by apply zip_up|lia].
    + apply (IHr (FR l p h :: c)); [by apply zip_up|lia].
Qed.

(** ** Sorted trees *)

(** What a comparator promises: it orders nodes by a key. *)
Definition by_key (key : positive -> Z) (k : Z) (compare : positive -> Z) : Prop :=
  forall p, Z.sgn (compare p) = Z.sgn (k - key p).

Definition sorted (key : positive -> Z) (l : list positive) : Prop :=
  StronglySorted (fun a b => key a < key b) l.

Lemma sorted_app key a b : sorted key (a ++ b) <->
  sorted key a /\ sorted key b /\ forall x y, x ∈ a -> y ∈ b -> key x < key y.
Proof. unfold sorted. rewrite StronglySorted_app. naive_solver. Qed.

Lemma sorted_cons key x a : sorted key (x :: a) <->
  sorted key a /\ forall y, y ∈ a -> key x < key y.
Proof.
  rewrite (sorted_app key [x] a). unfold sorted. split.
  - intros (_ & ? & H). split; [done|]. intros y Hy. apply H; [left|done].
  - intros [? H]. split_and!; [repeat constructor|done|]. by intros x' y ->%list_elem_of_singleton; auto.
Qed.

(** A comparator that is positive on a prefix of the sequence, then zero, then
    negative. *)
Definition splits (compare : positive -> Z) (l : list positive) : Prop :=
  StronglySorted (fun a b => Z.sgn (compare b) <= Z.sgn (compare a)) l.

Lemma splits_app_inv compare a b : splits compare (a ++ b) ->
  splits compare a /\ splits compare b /\
  forall x y, x ∈ a -> y ∈ b -> Z.sgn (compare y) <= Z.sgn (compare x).
Proof. unfold splits. rewrite StronglySorted_app. naive_solver. Qed.

(** The hole the descent ends in. *)
Lemma ins_ctx_splits compare : forall t c, splits compare (elems t) ->
  (forall x, x ∈ before c -> 0 < compare x) -> (forall x, x ∈ after c -> compare x < 0) ->
  match ins_ctx compare c t with
  | None => exists p, p ∈ elems t /\ compare p = 0
  | Some c' => (forall x, x ∈ before c' -> 0 < compare x) /\ (forall x, x ∈ after c' -> compare x < 0)
  end.
Proof.
  induction t as [|l IHl p h r IHr]; intros c Hs Hb Ha; simpl; [done|]. simpl in Hs.
  apply splits_app_inv in Hs as (Hl & Hr & Hlr). pose proof Hr as Hpr.
  apply (splits_app_inv _ [p]) in Hr as (_ & Hr & Hp).
  destruct (Z.eqb_spec (compare p) 0) as [E|]; [|destruct (Z.ltb_spec (compare p) 0)].
  - exists p. split; [set_solver|done].
  - specialize (IHl (FL p h r :: c) Hl Hb). destruct ins_ctx as [c'|].
    + apply IHl. simpl. intros x [->|[Hx|Hx]%elem_of_app]%elem_of_cons; [done| |auto].
      specialize (Hp p x ltac:(left) Hx). lia.
    + destruct IHl as (q & ? & ?); [|exists q; set_solver]. simpl.
      intros x [->|[Hx|Hx]%elem_of_app]%elem_of_cons; [done| |auto].
      specialize (Hp p x ltac:(left) Hx). lia.
  - assert (forall x, x ∈ before (FR l p h :: c) -> 0 < compare x) as Hb'.
    { simpl. intros x [Hx|[Hx|Hx%list_elem_of_singleton]%elem_of_app]%elem_of_app; [auto| |subst; lia].
      specialize (Hlr x p Hx ltac:(left)). lia. }
    specialize (IHr (FR l p h :: c) Hr Hb' Ha). destruct ins_ctx as [c'|]; [done|].
    destruct IHr as (q & ? & ?). exists q. set_solver.
Qed.

Lemma sorted_splits key k compare l : by_key key k compare -> sorted key l -> splits compare l.
Proof.
  intros Hc Hs. unfold splits, sorted in *. induction Hs as [|a l Hs IH Ha]; constructor; [done|].
  apply (Forall_impl _ _ _ Ha). intros b Hab. pose proof (Hc a). pose proof (Hc b). lia.
Qed.

(** The place of a key. *)
Lemma ins_ctx_place key k compare t : by_key key k compare -> sorted key (elems t) ->
  match ins_ctx compare [] t with
  | None => exists p, p ∈ elems t /\ key p = k
  | Some c' => (forall x, x ∈ before c' -> key x < k) /\ (forall x, x ∈ after c' -> k < key x)
  end.
Proof.
  intros Hc Hs. pose proof (ins_ctx_splits compare t []) as H. simpl in H.
  destruct ins_ctx as [c'|].
  - destruct H as [Hb Ha]; [by apply (sorted_splits key k)|set_solver..|].
    split; intros x Hx; specialize (Hc x); [specialize (Hb x Hx)|specialize (Ha x Hx)]; lia.
  - destruct H as (p & Hp & E); [by apply (sorted_splits key k)|set_solver..|].
    exists p. split; [done|]. specialize (Hc p). lia.
Qed.

Lemma avltree_insert_ok key node comparator update added st t :
  holds st t -> hok t -> sorted key (elems t) -> by_key key (key node) (comparator node) ->
  node ∉ elems t -> is_Some (nodes st !! node) ->
  (avltree_insert node comparator update added st = Ok (false, st) /\
   exists p, p ∈ elems t /\ key p = key node) \/
  (exists st' t', avltree_insert node comparator update added st = Ok (true, st') /\
   holds st' t' /\ hok t' /\ elems t' ≡ₚ node :: elems t /\ sorted key (elems t')).
Proof.
  intros Z Hok Hs Hc Hn Hnode. unfold avltree_insert.
  assert (root st = rootp t) as -> by apply Z.
  destruct (insert_loc_ok (comparator node) t [] (path_fuel st) st Z) as [Hloc Hplug].
  { pose proof (holds_size _ _ Z). unfold path_fuel. lia. }
  cbn [ctx_top ctx_link] in Hloc. rewrite Hloc. clear Hloc. simpl.
  pose proof (ins_ctx_place key (key node) _ t Hc Hs) as Hplace.
  destruct (ins_ctx (comparator node) [] t) as [c|]; simpl.
  - right. specialize (Hplug c eq_refl). simpl in Hplug.
    assert (zip st c Leaf) as Zc by (apply zip_plug; by rewrite Hplug).
    assert (elems t = before c ++ after c) as Et by (rewrite <- Hplug; apply (elems_plug c Leaf)).
    destruct (insert_at_loc_ok update added node st c Leaf Zc) as (st1 & st' & -> & Z' & Hok' & _).
    + by rewrite Hplug.
    + rewrite celems_perm, <- Et. done.
    + done.
    + destruct Hplace as [Hb Ha].
      exists st', (fixup_fun c (Node Leaf node 1 Leaf)). rewrite elems_fixup. simpl.
      split_and!; [done..| |].
      * rewrite Et. solve_Permutation.
      * rewrite Et in Hs. apply sorted_app in Hs as (? & ? & Hba).
        apply sorted_app. split_and!; [done| |].
        -- apply sorted_cons. split; [done|]. by apply Ha.
        -- intros x y Hx [->|Hy]%elem_of_cons; [by apply Hb|by apply Hba].
  - left. done.
Qed.

(** ** Deletion *)
Lemma modify_alter f p st : is_Some (nodes st !! p) ->
  modify f p st = Ok (set_nodes (alter f p (nodes st)) st).
Proof.
  intros [n Hn]. rewrite (modify_ok _ _ n) by done. do 2 f_equal. apply map_eq. intros x.
  rewrite lookup_insert, lookup_alter. case_decide; [subst; by rewrite Hn|done].
Qed.

(** A store through a link in closed form. *)
Definition link_alter (lnk : link) (v : option positive) (m : gmap positive avlnode) :=
  match lnk with
  | LRoot => m
  | LLeft p => alter (with_left v) p m
  | LRight p => alter (with_right v) p m
  end.
Definition link_root (lnk : link) (v r : option positive) : option positive :=
  match lnk with LRoot => v | _ => r end.
Definition link_ok (lnk : link) (m : gmap positive avlnode) : Prop :=
  match lnk with LRoot => True | LLeft p | LRight p => is_Some (m !! p) end.

Lemma store_link_eq lnk v st : link_ok lnk (nodes st) ->
  store_link lnk v st =
    Ok (set_root (link_root lnk v (root st)) (set_nodes (link_alter lnk v (nodes st)) st)).
Proof.
  destruct lnk as [|p|p]; intros H; simpl; [by destruct st|..];
    unfold set_left, set_right; by rewrite modify_alter.
Qed.

Lemma crepr_link_ok m c hole : crepr m c hole -> link_ok (ctx_link c) m.
Proof. destruct c as [|[]]; simpl; [done|..]; intros (H & _); eauto. Qed.

Lemma celems_app fs c : celems (fs ++ c) = celems fs ++ celems c.
Proof. induction fs as [|[] fs IH]; simpl; [done|..]; by rewrite IH, <- !app_assoc. Qed.

(** Replacing a subtree of the hole's node by one of its children. *)
Definition unlink_state (c : ctx) (t : tree) st : avltree C :=
  set_root (link_root (ctx_link c) (rootp t) (root st))
    (set_nodes (reparent (ctx_top c) (rootp t) (link_alter (ctx_link c) (rootp t) (nodes st))) st).

Lemma link_alter_ne lnk v m x :
  (forall p, lnk = LLeft p \/ lnk = LRight p -> p <> x) -> link_alter lnk v m !! x = m !! x.
Proof. intros H. destruct lnk; simpl; [done|..]; rewrite lookup_alter_ne; auto. Qed.

Lemma link_alter_cong lnk v m m' x : m !! x = m' !! x ->
  link_alter lnk v m !! x = link_alter lnk v m' !! x.
Proof.
  intros H. destruct lnk; simpl; [done|..]; rewrite !lookup_alter; case_decide; subst; by rewrite ?H.
Qed.

Lemma ctx_link_node c p : ctx_link c = LLeft p \/ ctx_link c = LRight p -> p ∈ celems c.
Proof. destruct c as [|[]]; simpl; intros [E|E]; simplify_eq; set_solver. Qed.

Lemma reparent_link v x lnk w m : reparent v x (link_alter lnk w m) = link_alter lnk w (reparent v x m).
Proof.
  destruct x as [x|], lnk as [|p|p]; simpl; try done; apply map_eq; intros y;
    rewrite !lookup_alter; repeat case_decide; subst; try done;
    by destruct (m !! y) as [[]|].
Qed.

Lemma reparent_mapped v x m y : is_Some (m !! y) -> is_Some (reparent v x m !! y).
Proof.
  intros H. destruct x as [x|]; simpl; [|done]. rewrite lookup_alter. case_decide; [|done].
  subst. by apply fmap_is_Some.
Qed.

Lemma link_ok_reparent lnk v x m : link_ok lnk m -> link_ok lnk (reparent v x m).
Proof. destruct lnk; simpl; [done|..]; apply reparent_mapped. Qed.

Lemma unlink_zip st c t par t' : zip st c t -> repr (nodes st) par t' ->
  (elems t' `sublist_of` elems t) -> zip (unlink_state c t' st) c t'.
Proof.
  intros Z Hr Hsub. pose proof Z as [_ Zc _ Hnd].
  assert (NoDup (elems t' ++ celems c)) as Hnd'.
  { apply (sublist_NoDup _ (elems t ++ celems c)); [done|]. by apply sublist_app. }
  apply NoDup_app in Hnd' as Hd. destruct Hd as (Nt & Hd & _).
  set (st1 := set_nodes (reparent (ctx_top c) (rootp t') (nodes st)) st).
  destruct (zip_replace st st1 c t t' Z) as (st2 & E & Z2 & _ & _).
  - done.
  - intros x Hx. simpl. apply lookup_reparent_ne. intros Ex%rootp_elem. by apply (Hd x).
  - simpl. by apply (repr_reparent _ par).
  - done.
  - rewrite store_link_eq in E by (simpl; eapply link_ok_reparent, crepr_link_ok, Zc).
    injection E as <-. unfold unlink_state. rewrite reparent_link. exact Z2.
Qed.

(** Replacing the node of the hole by a node that is in no tree. *)
Definition rename_state (c : ctx) (l : tree) (s : positive) (h : Z) (r : tree) st : avltree C :=
  set_root (link_root (ctx_link c) (Some s) (root st))
    (set_nodes (link_alter (ctx_link c) (Some s)
      (reparent (Some s) (rootp r) (reparent (Some s) (rootp l)
        (alter (fun _ => {| parent := ctx_top c; left := rootp l; right := rootp r; height := h |}) s
           (nodes st))))) st).

Lemma rename_zip st c l p h r s : zip st c (Node l p h r) ->
  s ∉ elems (Node l p h r) ++ celems c -> is_Some (nodes st !! s) ->
  zip (rename_state c l s h r st) c (Node l s h r).
Proof.
  intros Z Hs [ns Hns]. pose proof Z as [(Hp & Hl & Hr) Zc _ Hnd].
  assert (NoDup (elems (Node l s h r) ++ celems c)) as Hnd'.
  { simpl in *. rewrite NoDup_app in *. rewrite NoDup_app, NoDup_cons in *. set_solver. }
  unfold rename_state. set (rec := {| parent := _; left := _ |}).
  set (st1 := set_nodes (reparent (Some s) (rootp r) (reparent (Some s) (rootp l)
    (alter (fun _ => rec) s (nodes st)))) st).
  simpl in Hs. rewrite !not_elem_of_app, not_elem_of_cons in Hs. destruct Hs as [[Hsl [Hsp Hsr]] Hsc].
  simpl in Hnd. rewrite !NoDup_app, NoDup_cons in Hnd.
  destruct Hnd as ((Nl & Dl & Np & Nr) & Dc & _).
  assert (forall x, x <> s -> (x ∉ elems l) -> (x ∉ elems r) -> nodes st1 !! x = nodes st !! x) as Hf.
  { intros x ? Hxl Hxr. simpl. rewrite !lookup_reparent_ne, lookup_alter_ne; try done;
      by intros E%rootp_elem. }
  destruct (zip_replace st st1 c (Node l p h r) (Node l s h r) Z) as (st2 & E & Z2 & _ & _).
  - done.
  - intros x Hx. apply Hf; set_solver.
  - simpl. rewrite !lookup_reparent_ne, lookup_alter_eq, Hns; try (by intros E%rootp_elem).
    split_and!; [done|..].
    + apply (repr_frame (reparent (Some s) (rootp l) (nodes st))); [|by apply (repr_reparent _ (Some p))].
      intros x Hx. rewrite lookup_reparent_ne by (intros E%rootp_elem; set_solver).
      destruct (rootp l) as [y|]; simpl; rewrite ?lookup_alter; repeat case_decide; subst; done || set_solver.
    + apply (repr_frame (reparent (Some s) (rootp r) (nodes st))); [|by apply (repr_reparent _ (Some p))].
      intros x Hx. assert (reparent (Some s) (rootp l) (alter (fun _ => rec) s (nodes st)) !! x = nodes st !! x) as Ex.
      { rewrite lookup_reparent_ne by (intros E%rootp_elem; set_solver).
        rewrite lookup_alter_ne; [done|]. by intros ->. }
      destruct (rootp r) as [y|]; simpl; [|done]. rewrite !(lookup_alter _ _ y x).
      case_decide; [subst; by rewrite Ex|done].
  - done.
  - rewrite store_link_eq in E.
    + injection E as <-. exact Z2.
    + simpl. apply link_ok_reparent, link_ok_reparent. pose proof (crepr_link_ok _ _ _ Zc) as Hok.
      destruct (ctx_link c); simpl in *; try done; rewrite lookup_alter; case_decide; subst; try done;
        by rewrite Hns.
Qed.

(** Putting a node that is in no tree above the subtree of the hole. *)
Definition graft_state (c : ctx) (p : positive) (h : Z) (t : tree) st : avltree C :=
  set_root (link_root (ctx_link c) (Some p) (root st))
    (set_nodes (link_alter (ctx_link c) (Some p)
      (reparent (Some p) (rootp t)
        (alter (fun _ => {| parent := ctx_top c; left := None; right := rootp t; height := h |}) p
           (nodes st)))) st).

Lemma graft_zip st c t p h : zip st c t -> p ∉ elems t ++ celems c ->
  is_Some (nodes st !! p) -> zip (graft_state c p h t st) c (Node Leaf p h t).
Proof.
  intros Z Hp [np Hnp]. pose proof Z as [Ht Zc _ Hnd].
  apply not_elem_of_app in Hp as [Hpt Hpc].
  assert (NoDup (elems (Node Leaf p h t) ++ celems c)) as Hnd'.
  { simpl. apply NoDup_cons. split; [|done]. by apply not_elem_of_app. }
  apply NoDup_app in Hnd as (Nt & Hd & _).
  unfold graft_state. set (rec := {| parent := _; left := _ |}).
  set (st1 := set_nodes (reparent (Some p) (rootp t) (alter (fun _ => rec) p (nodes st))) st).
  destruct (zip_replace st st1 c t (Node Leaf p h t) Z) as (st2 & E & Z2 & _ & _).
  - done.
  - intros x Hx. simpl. rewrite lookup_reparent_ne by (intros E%rootp_elem; by apply (Hd x)).
    rewrite lookup_alter_ne; [done|]. by intros ->.
  - simpl. rewrite lookup_reparent_ne by (by intros E%rootp_elem). rewrite lookup_alter_eq, Hnp.
    split_and!; [done..|]. apply (repr_frame (reparent (Some p) (rootp t) (nodes st)));
      [|by apply (repr_reparent _ (ctx_top c))].
    intros x Hx. assert (p <> x) by (by intros ->).
    destruct (rootp t) as [y|]; simpl; rewrite ?(lookup_alter _ _ y x), ?lookup_alter_ne by done; [|done].
    case_decide; [subst|]; by rewrite lookup_alter_ne.
  - done.
  - rewrite store_link_eq in E.
    + injection E as <-. exact Z2.
    + simpl. apply link_ok_reparent. pose proof (crepr_link_ok _ _ _ Zc) as Hok.
      destruct (ctx_link c); simpl in *; try done; rewrite lookup_alter; case_decide; subst; try done;
        by rewrite Hnp.
Qed.

(** The leftmost node of a subtree, from the context of the subtree. *)
Lemma find_successor_ok : forall t c fuel st par lnk x, zip st c t -> rootp t = Some x ->
  (length (elems t) <= fuel)%nat ->
  exists fs s hs sr, t = plug fs (Node Leaf s hs sr) /\ before fs = [] /\
  find_successor fuel par lnk x st =
    Ok (match fs with [] => (par, lnk, s) | _ => (ctx_top (fs ++ c), ctx_link (fs ++ c), s) end).
Proof.
  induction t as [|l IHl p h r IHr]; intros c fuel st par lnk x Z; [done|]. intros [= <-] Hf.
  simpl in Hf. rewrite length_app in Hf. simpl in Hf.
  assert (get_left p st = Ok (rootp l)) as Hl.
  { unfold get_left. by rewrite (get_ok _ _ _ (zip_node _ _ _ _ _ _ Z)). }
  destruct l as [|ll q hq lr].
  - exists [], p, h, r. split_and!; [done..|]. destruct fuel; simpl; by rewrite Hl.
  - destruct fuel as [|fuel]; [lia|]. simpl find_successor. rewrite Hl. simpl.
    destruct (IHl (FL p h r :: c) fuel st (Some p) (LLeft p) q) as (fs & s & hs & sr & E & Hb & ->);
      [by apply zip_up|done|lia|].
    exists (fs ++ [FL p h r]), s, hs, sr. split_and!.
    + rewrite plug_app. simpl. by rewrite <- E.
    + clear -Hb. induction fs as [|[] fs IH]; simpl in *; [done|by apply IH|].
      by apply app_eq_nil in Hb as [_ [_ [=]]%app_eq_nil].
    + rewrite <- app_assoc. simpl. destruct fs; done.
Qed.

Lemma alter_some f (k : positive) (m : gmap positive avlnode) x :
  is_Some (m !! x) -> is_Some (alter f k m !! x).
Proof. intros H. rewrite lookup_alter. case_decide; [subst; by apply fmap_is_Some|done]. Qed.
Lemma link_alter_some lnk v m x : is_Some (m !! x) -> is_Some (link_alter lnk v m !! x).
Proof. destruct lnk; simpl; [done|..]; apply alter_some. Qed.

(** Simplify the lookup of a node after a chain of stores. *)
Ltac lk := repeat first
  [ rewrite lookup_alter_eq | rewrite lookup_alter_ne by congruence
  | rewrite link_alter_ne by eauto
  | rewrite lookup_reparent_ne by congruence ].
Ltac mapped := simpl; eauto 20 using alter_some, link_alter_some, reparent_mapped.

#[local] Arguments store_link : simpl never.
#[local] Arguments set_parent_opt : simpl never.

(** The exchange with a successor further down, store by store. *)
Definition swap_far_state (c : ctx) (lnk : link) (y p lp q s : positive) (sr : option positive)
    (hp hs : Z) st : avltree C :=
  set_root (link_root (ctx_link c) (Some s) (link_root lnk (Some p) (root st)))
   (set_nodes
    (alter (with_height hp) s (alter (with_height hs) p
    (alter (with_parent (Some y)) p (alter (with_parent (ctx_top c)) s
    (link_alter (ctx_link c) (Some s) (link_alter lnk (Some p)
    (reparent (Some p) sr (alter (with_parent (Some s)) q
    (alter (with_right (Some q)) s (alter (with_right sr) p
    (alter (with_left None) p (alter (with_parent (Some s)) lp
    (alter (with_left (Some lp)) s (nodes st)))))))))))))) st).

Lemma swap_far_run c fs st p lp q y s sr h hs succ0 :
  nodes st !! p = Some {| parent := ctx_top c; left := Some lp; right := Some q; height := h |} ->
  nodes st !! s = Some {| parent := Some y; left := None; right := sr; height := hs |} ->
  is_Some (nodes st !! lp) -> is_Some (nodes st !! q) -> is_Some (nodes st !! y) ->
  (forall w, sr = Some w -> is_Some (nodes st !! w)) -> link_ok (ctx_link c) (nodes st) ->
  p <> s -> p <> lp -> p <> q -> p <> y -> s <> lp -> s <> q -> s <> y ->
  sr <> Some p -> sr <> Some s ->
  (forall z, ctx_link c = LLeft z \/ ctx_link c = LRight z -> z <> p /\ z <> s) ->
  fs = LLeft y ->
  find_successor (path_fuel st) None (LRight p) succ0 st = Ok (Some y, fs, s) ->
  swap_far_successor p lp succ0 (ctx_link c) st =
    Ok (Some y, LLeft y, swap_far_state c (LLeft y) y p lp q s sr h hs st).
Proof.
  intros Hp Hs Hlp Hq Hy Hsr Hlnk N1 N2 N3 N4 N5 N6 N7 N8 N9 Nz -> Hfind.
  assert (forall z, ctx_link c = LLeft z \/ ctx_link c = LRight z -> z <> p) as Nz1 by naive_solver.
  assert (forall z, ctx_link c = LLeft z \/ ctx_link c = LRight z -> z <> s) as Nz2 by naive_solver.
  unfold swap_far_successor. rewrite Hfind, outcome_bind_ok.
  unfold set_left, set_right, set_parent, set_height, get_right, get_parent, get_height, get.
  rewrite modify_alter, outcome_bind_ok by mapped.
  rewrite modify_alter, outcome_bind_ok by mapped.
  rewrite modify_alter, outcome_bind_ok by mapped.
  cbn [nodes set_nodes]. lk. rewrite Hp. simpl. lk. rewrite Hs. simpl.
  rewrite modify_alter, outcome_bind_ok by mapped.
  rewrite modify_alter, outcome_bind_ok by mapped.
  simpl. lk. rewrite Hs. simpl.
  rewrite modify_alter, outcome_bind_ok by mapped.
  simpl. lk. rewrite Hp. simpl.
  rewrite set_parent_opt_ok, outcome_bind_ok.
  2:{ intros w Hw. specialize (Hsr w Hw). mapped. }
  rewrite store_link_eq, outcome_bind_ok by mapped.
  rewrite store_link_eq, outcome_bind_ok.
  2:{ destruct (ctx_link c); mapped. }
  simpl. lk. rewrite Hp. simpl.
  rewrite modify_alter, outcome_bind_ok by mapped.
  rewrite modify_alter, outcome_bind_ok by mapped.
  simpl. lk. rewrite Hp. simpl. lk. rewrite Hs. simpl.
  rewrite modify_alter, outcome_bind_ok by mapped.
  by rewrite modify_alter, outcome_bind_ok by mapped.
Qed.

(** The same store, reached through trees: the successor taken out, put in
    the node's place, and the node put in the successor's. *)
Definition swap_far_nodes (c : ctx) (y p lp q s : positive) (sr : option positive) (h hs : Z)
    (m : gmap positive avlnode) :=
  alter (with_left (Some p)) y (reparent (Some p) sr
    (alter (fun _ => {| parent := Some y; left := None; right := sr; height := hs |}) p
    (link_alter (ctx_link c) (Some s) (reparent (Some s) (Some q) (reparent (Some s) (Some lp)
    (alter (fun _ => {| parent := ctx_top c; left := Some lp; right := Some q; height := h |}) s
    (reparent (Some y) sr (alter (with_left sr) y m)))))))).

Lemma swap_far_eq c st p lp q y s sr h hs np ns :
  nodes st !! p = Some np -> parent np = ctx_top c -> left np = Some lp ->
  nodes st !! s = Some ns -> right ns = sr ->
  NoDup ([p; s; lp; q] ++ option_list sr) -> y <> p -> y <> s -> y <> lp -> sr <> Some y ->
  (forall z, ctx_link c = LLeft z \/ ctx_link c = LRight z ->
     z <> p /\ z <> s /\ z <> lp /\ z <> q /\ z <> y /\ sr <> Some z) ->
  nodes (swap_far_state c (LLeft y) y p lp q s sr h hs st) =
  swap_far_nodes c y p lp q s sr h hs (nodes st).
Proof.
  intros Hp Hpp Hpl Hs Hsr Hnd Ny1 Ny2 Ny3 Ny4 Hz. simpl. unfold swap_far_nodes. simpl.
  apply map_eq. intros x. cbn [app] in Hnd. rewrite !NoDup_cons in Hnd.
  assert (p <> s /\ p <> lp /\ p <> q /\ s <> lp /\ s <> q /\ lp <> q) as (D1&D2&D3&D4&D5&D6)
    by set_solver.
  assert (sr <> Some p /\ sr <> Some s /\ sr <> Some lp /\ sr <> Some q) as (W1&W2&W3&W4).
  { destruct sr as [w|]; [|done]. simpl in Hnd. split_and!; intros [= ->]; set_solver. }
  clear Hnd.
  assert (forall k, k = p \/ k = s \/ k = lp \/ k = q \/ k = y ->
    forall z, ctx_link c = LLeft z \/ ctx_link c = LRight z -> z <> k) as Zk.
  { intros k Hk z Hc. destruct (Hz z Hc) as (?&?&?&?&?&?). naive_solver. }
  pose proof (Zk p ltac:(auto)) as Zp. pose proof (Zk s ltac:(auto)) as Zs.
  pose proof (Zk lp ltac:(auto)) as Zl. pose proof (Zk q ltac:(auto)) as Zq.
  pose proof (Zk y ltac:(auto 10)) as Zy. clear Zk.
  destruct (decide (x = p)) as [->|X1]; [|destruct (decide (x = s)) as [->|X2]].
  - lk. rewrite Hp. simpl. unfold with_height, with_parent, with_right, with_left; simpl. done.
  - lk. rewrite Hs. simpl. unfold with_height, with_parent, with_right, with_left; simpl. subst. done.
  - destruct (decide (x = lp)) as [->|X3]; [by lk|].
    lk.
    assert (forall z w, ctx_link c = LLeft z \/ ctx_link c = LRight z -> sr = Some w -> z <> w) as Zw.
    { intros z w Hc -> ->. destruct (Hz w Hc) as (_&_&_&_&_&?). done. }
    destruct (decide (x = y)) as [->|X4].
    { destruct (decide (y = q)) as [->|]; lk.
      - by destruct (nodes st !! q) as [[]|].
      - by destruct (nodes st !! y) as [[]|]. }
    destruct (decide (x = q)) as [->|X5]; [by lk|].
    destruct (decide (sr = Some x)) as [->|X6].
    { assert (forall z, ctx_link c = LLeft z \/ ctx_link c = LRight z -> z <> x) by eauto.
      simpl. lk. by destruct (nodes st !! x) as [[]|]. }
    lk. apply link_alter_cong. by lk.
Qed.

Lemma zip_ext st st' c t : nodes st' = nodes st -> root st' = root st -> zip st c t -> zip st' c t.
Proof. intros En Er [H1 H2 H3 H4]. split; by rewrite ?En, ?Er. Qed.

Lemma zip_app st fs c t : zip st (fs ++ c) t <-> zip st c (plug fs t).
Proof. by rewrite (zip_plug _ (fs ++ c)), (zip_plug _ c), plug_app. Qed.

Lemma rootp_plug_some f fs t t' : rootp (plug (f :: fs) t) = rootp (plug (f :: fs) t').
Proof. apply rootp_plug_cons. Qed.

(** Taking the successor out of its place, through trees. *)
Lemma take_successor_zip st c l p h fs s hs sr :
  zip st (fs ++ FR l p h :: c) (Node Leaf s hs sr) ->
  zip (graft_state (fs ++ FR l s h :: c) p hs sr
        (rename_state c l s h (plug fs sr) (unlink_state (fs ++ FR l p h :: c) sr st)))
    (fs ++ FR l s h :: c) (Node Leaf p hs sr).
Proof.
  intros Z. pose proof Z as [Zt Zc _ Hnd].
  rewrite celems_app in Hnd. cbn [celems elems app] in Hnd.
  rewrite !NoDup_cons, !NoDup_app, NoDup_cons, !NoDup_app in Hnd.
  assert (is_Some (nodes st !! s)) as Hs by (destruct Zt as (E & _); eauto).
  assert (is_Some (nodes st !! p)) as Hp.
  { pose proof (proj1 (zip_app _ _ _ _) Z) as Z'. apply zip_up in Z'.
    rewrite (zip_node _ _ _ _ _ _ Z'). eauto. }
  assert (forall x, is_Some (nodes st !! x) ->
    is_Some (nodes (unlink_state (fs ++ FR l p h :: c) sr st) !! x)) as Hm1.
  { intros x Hx. simpl. by apply reparent_mapped, link_alter_some. }
  assert (zip (unlink_state (fs ++ FR l p h :: c) sr st) (fs ++ FR l p h :: c) sr) as Z1.
  { apply (unlink_zip st _ (Node Leaf s hs sr) (Some s)); [done|apply Zt|].
    simpl. by apply sublist_cons. }
  set (st1 := unlink_state _ _ _) in *.
  apply zip_app, zip_up in Z1. simpl in Z1.
  assert (elems (Node l p h (plug fs sr)) ++ celems c ≡ₚ
          p :: elems l ++ (elems sr ++ celems fs) ++ celems c) as P.
  { simpl. rewrite elems_plug_perm. solve_Permutation. }
  assert (zip (rename_state c l s h (plug fs sr) st1) c (Node l s h (plug fs sr))) as Z2.
  { apply (rename_zip st1 c l p h); [done| |by apply Hm1].
    rewrite P. set_solver. }
  set (st2 := rename_state _ _ _ _ _ _) in *.
  apply graft_zip.
  - apply zip_app, zip_up. exact Z2.
  - rewrite celems_app. cbn [celems]. set_solver.
  - simpl. apply link_alter_some, reparent_mapped, reparent_mapped, alter_some. by apply Hm1.
Qed.

Lemma swap_far_distinct (p s lp q : positive) (l sr Q cs : list positive) :
  NoDup (s :: sr ++ Q ++ p :: l ++ cs) -> lp ∈ l -> q ∈ Q ->
  p <> s /\ p <> lp /\ p <> q /\ s <> lp /\ s <> q /\ lp <> q /\
  (forall y, y ∈ Q -> y <> p /\ y <> s /\ y <> lp) /\
  (forall w, w ∈ sr -> w <> p /\ w <> s /\ w <> lp /\ w ∉ Q) /\
  (forall z, z ∈ cs -> z <> p /\ z <> s /\ z <> lp /\ (z ∉ Q) /\ z ∉ sr).
Proof.
  rewrite !NoDup_cons, !NoDup_app, NoDup_cons, NoDup_app. set_solver.
Qed.

Lemma nodup_four (p s lp q : positive) o :
  p <> s -> p <> lp -> p <> q -> s <> lp -> s <> q -> lp <> q ->
  (forall w, o = Some w -> w <> p /\ w <> s /\ w <> lp /\ w <> q) ->
  NoDup ([p; s; lp; q] ++ option_list o).
Proof.
  intros. assert (forall w, o = Some w -> p <> w /\ s <> w /\ lp <> w /\ q <> w) as Hw
    by (intros w Ew; naive_solver).
  destruct o as [w|]; simpl; [destruct (Hw w eq_refl) as (?&?&?&?)|];
    rewrite !NoDup_cons, ?not_elem_of_cons; split_and!; try done;
    try apply not_elem_of_nil; apply NoDup_nil_2.
Qed.

Lemma swap_far_zip st c l p h r lp q hq rl rr :
  zip st c (Node l p h r) -> rootp l = Some lp -> r = Node rl q hq rr -> rl <> Leaf ->
  exists fs s hs sr st', r = plug fs (Node Leaf s hs sr) /\ before fs = [] /\
  swap_far_successor p lp q (ctx_link c) st =
    Ok (ctx_top (fs ++ FR l s h :: c), ctx_link (fs ++ FR l s h :: c), st') /\
  zip st' (fs ++ FR l s h :: c) (Node Leaf p hs sr) /\ client st' = client st.
Proof.
  intros Z El Er Hrl. pose proof Z as [(Hp & Hl & Hr) Zc _ Hnd].
  assert (zip st (FR l p h :: c) r) as Zr by by apply zip_up.
  destruct (find_successor_ok r _ (path_fuel st) st None (LRight p) q Zr) as (fs & s & hs & sr & E & Hb & Hfind).
  { by subst. }
  { pose proof (zip_fuel _ _ _ Zr). unfold path_fuel. lia. }
  assert (zip st (fs ++ FR l p h :: c) (Node Leaf s hs sr)) as Zs by (apply zip_app; by rewrite <- E).
  pose proof (take_successor_zip st c l p h fs s hs sr Zs) as Zfin.
  destruct fs as [|[y hy ry|? y ?] fs]; [simpl in E; congruence| |].
  2:{ simpl in Hb. by apply app_eq_nil in Hb as [_ [_ [=]]%app_eq_nil]. }
  exists (FL y hy ry :: fs), s, hs, sr. simpl in Hfind.
  pose proof Zs as [(Hs & _ & Hsr) (Hy & _) _ Hnds]. simpl in Hs.
  cbn [app celems elems] in Hnds. rewrite celems_app in Hnds. cbn [celems] in Hnds.
  assert (q ∈ y :: elems ry ++ celems fs) as Hqin.
  { assert (q ∈ elems (plug (FL y hy ry :: fs) Leaf)) as Hq.
    { apply rootp_elem. rewrite (rootp_plug_some _ _ _ (Node Leaf s hs sr)), <- E. by subst. }
    rewrite elems_plug_perm in Hq. simpl in Hq. done. }
  apply rootp_elem in El as Hlp.
  assert (forall z, ctx_link c = LLeft z \/ ctx_link c = LRight z -> z ∈ celems c) as Hz
    by (intros z; apply ctx_link_node).
  assert (forall w, rootp sr = Some w -> w ∈ elems sr) as Hw by (intros w; apply rootp_elem).
  rewrite (app_assoc (elems ry) (celems fs)) in Hnds.
  apply swap_far_distinct with (l := elems l) (sr := elems sr) (Q := y :: elems ry ++ celems fs)
    (cs := celems c) (lp := lp) (q := q) in Hnds; [|done|done].
  destruct Hnds as (D1&D2&D3&D4&D5&D6&Dy&Dw&Dz).
  assert (forall x, rootp sr = Some x -> is_Some (nodes st !! x)) as Hsrm
    by (intros x Hx; by apply (repr_lookup _ (Some s) sr)).
  assert (y <> p /\ y <> s /\ y <> lp) as (Y1&Y2&Y3) by (apply Dy; left).
  exists (swap_far_state c (LLeft y) y p lp q s (rootp sr) h hs st). split_and!; [done|done| | |done].
  - apply (swap_far_run c (LLeft y)); try done.
    + rewrite Hp. simpl. by rewrite El, Er.
    + by apply (repr_lookup _ (Some p) l).
    + by apply (repr_lookup _ (Some p) r); [|subst].
    + by apply (crepr_link_ok _ _ (Some p)).
    + intros E'%Hw. by destruct (Dw p E') as (?&?&_).
    + intros E'%Hw. by destruct (Dw s E') as (?&?&_).
    + intros z Hz'%Hz. destruct (Dz z Hz') as (?&?&?). done.
  - refine (zip_ext _ _ _ _ _ _ Zfin).
    + erewrite swap_far_eq; try done.
      * unfold swap_far_nodes. simpl. rewrite El.
        assert (rootp (plug fs (Node sr y hy ry)) = Some q) as ->; [|done].
        rewrite (rootp_plug _ _ (Node (Node Leaf s hs sr) y hy ry)) by done.
        change (rootp (plug (FL y hy ry :: fs) (Node Leaf s hs sr)) = Some q).
        rewrite <- E. by subst.
      * apply nodup_four; try done. intros w Ew. destruct (Dw w (Hw w Ew)) as (?&?&?&?).
        split_and!; try done. by intros ->.
      * intros E'%Hw. destruct (Dw _ E') as (_&_&_&?). set_solver.
      * intros z Hz'%Hz. destruct (Dz z Hz') as (?&?&?&?&?). split_and!; try done; [set_solver..|].
        intros E'%Hw. done.
    + simpl. by destruct c as [|[]].
Qed.

(** The exchange with the right child. *)
Definition swap_near_state (c : ctx) (p lp q : positive) (sr : option positive) (hp hs : Z) st
  : avltree C :=
  set_root (link_root (ctx_link c) (Some q) (root st))
   (set_nodes
    (alter (with_height hp) q (alter (with_height hs) p
    (link_alter (ctx_link c) (Some q)
    (alter (with_parent (Some q)) p (alter (with_parent (ctx_top c)) q
    (alter (with_right (Some p)) q (reparent (Some p) sr
    (alter (with_parent (Some q)) lp (alter (with_right (Some p)) q
    (alter (with_left (Some lp)) q (alter (with_right sr) p
    (alter (with_left None) p (nodes st))))))))))))) st).

Lemma swap_near_run c st p lp q sr h hs np nq :
  nodes st !! p = Some np -> parent np = ctx_top c -> height np = h ->
  nodes st !! q = Some nq -> right nq = sr -> height nq = hs ->
  is_Some (nodes st !! lp) -> (forall w, sr = Some w -> is_Some (nodes st !! w)) ->
  link_ok (ctx_link c) (nodes st) ->
  p <> lp -> p <> q -> q <> lp -> sr <> Some p -> sr <> Some q ->
  (forall z, ctx_link c = LLeft z \/ ctx_link c = LRight z -> z <> p) ->
  (forall z, ctx_link c = LLeft z \/ ctx_link c = LRight z -> z <> q) ->
  swap_near_successor p lp q (ctx_link c) st =
    Ok (Some q, LRight q, swap_near_state c p lp q sr h hs st).
Proof.
  intros Hp Epp Eph Hq Eqr Eqh Hlp Hsr Hlnk N1 N2 N3 N4 N5 Z1 Z2.
  unfold swap_near_successor, set_left, set_right, set_parent, set_height, get_right, get_parent,
    get_height, get.
  rewrite modify_alter, outcome_bind_ok by mapped.
  simpl. lk. rewrite Hq. simpl. rewrite Eqr.
  do 4 rewrite modify_alter, outcome_bind_ok by mapped.
  rewrite set_parent_opt_ok, outcome_bind_ok.
  2:{ intros w Hw. specialize (Hsr w Hw). mapped. }
  rewrite modify_alter, outcome_bind_ok by mapped.
  simpl. lk. rewrite Hp. simpl. rewrite Epp.
  do 2 rewrite modify_alter, outcome_bind_ok by mapped.
  rewrite store_link_eq, outcome_bind_ok by (destruct (ctx_link c); mapped).
  simpl. lk. rewrite Hp. simpl. lk. rewrite Hq. simpl. rewrite Eph, Eqh.
  do 2 rewrite modify_alter, outcome_bind_ok by mapped.
  done.
Qed.

Lemma swap_near_eq c st p lp q sr h hs np nq :
  nodes st !! p = Some np -> nodes st !! q = Some nq -> left nq = None ->
  p <> lp -> p <> q -> q <> lp -> (forall w, sr = Some w -> w <> p /\ w <> q /\ w <> lp) ->
  (forall z, ctx_link c = LLeft z \/ ctx_link c = LRight z -> z <> p /\ z <> q /\ z <> lp /\ sr <> Some z) ->
  nodes (swap_near_state c p lp q sr h hs st) =
  alter (with_right (Some p)) q (reparent (Some p) sr
    (alter (fun _ => {| parent := Some q; left := None; right := sr; height := hs |}) p
    (link_alter (ctx_link c) (Some q) (reparent (Some q) sr (reparent (Some q) (Some lp)
    (alter (fun _ => {| parent := ctx_top c; left := Some lp; right := sr; height := h |}) q
    (reparent (Some p) sr (alter (with_right sr) p (nodes st))))))))).
Proof.
  intros Hp Hq Hql N1 N2 N3 Hw Hz. simpl.
  assert (sr <> Some p /\ sr <> Some q /\ sr <> Some lp) as (W1&W2&W3).
  { split_and!; intros E; destruct (Hw _ E) as (?&?&?); done. }
  assert (forall k, k = p \/ k = q \/ k = lp \/ sr = Some k ->
    forall z, ctx_link c = LLeft z \/ ctx_link c = LRight z -> z <> k) as Zk.
  { intros k Hk z Hc. destruct (Hz z Hc) as (?&?&?&?). naive_solver. }
  pose proof (Zk p ltac:(auto)) as Zp. pose proof (Zk q ltac:(auto)) as Zq.
  pose proof (Zk lp ltac:(auto)) as Zl.
  apply map_eq. intros x.
  destruct (decide (x = p)) as [->|X1]; [|destruct (decide (x = q)) as [->|X2]].
  - lk. rewrite Hp. done.
  - lk. rewrite Hq. done.
  - destruct (decide (x = lp)) as [->|X3]; [by lk|].
    destruct (decide (sr = Some x)) as [->|X4].
    + pose proof (Zk x ltac:(auto)). simpl. lk. by destruct (nodes st !! x) as [[]|].
    + lk. apply link_alter_cong. by lk.
Qed.

Lemma swap_near_zip st c l p h q hq rr lp :
  zip st c (Node l p h (Node Leaf q hq rr)) -> rootp l = Some lp ->
  exists st', swap_near_successor p lp q (ctx_link c) st = Ok (Some q, LRight q, st') /\
  zip st' (FR l q h :: c) (Node Leaf p hq rr) /\ client st' = client st.
Proof.
  intros Z El. pose proof Z as [(Hp & Hl & Hq & _ & Hrr) Zc _ Hnd].
  assert (zip st ([] ++ FR l p h :: c) (Node Leaf q hq rr)) as Zs by by apply zip_up.
  pose proof (take_successor_zip st c l p h [] q hq rr Zs) as Zfin.
  apply rootp_elem in El as Hlp.
  pose proof (fun z => ctx_link_node c z) as Hz.
  assert (forall w, rootp rr = Some w -> w ∈ elems rr) as Hw by (intros w; apply rootp_elem).
  cbn [elems app] in Hnd. rewrite !NoDup_app, !NoDup_cons, ?NoDup_app in Hnd.
  assert (p <> lp /\ p <> q /\ q <> lp) as (D1&D2&D3) by set_solver.
  assert (forall w, w ∈ elems rr -> w <> p /\ w <> q /\ w <> lp) as Dw by set_solver.
  assert (forall z, z ∈ celems c -> z <> p /\ z <> q /\ z <> lp /\ (z ∉ elems rr)) as Dz by set_solver.
  exists (swap_near_state c p lp q (rootp rr) h hq st). split_and!; [| |done].
  - eapply (swap_near_run c); try done.
    + by apply (repr_lookup _ (Some p) l).
    + intros w E. by apply (repr_lookup _ (Some q) rr).
    + by apply (crepr_link_ok _ _ (Some p)).
    + intros E%Hw. by destruct (Dw _ E) as (?&?&?).
    + intros E%Hw. by destruct (Dw _ E) as (?&?&?).
    + intros z Hc%Hz. apply (Dz z Hc).
    + intros z Hc%Hz. apply (Dz z Hc).
  - refine (zip_ext _ _ _ _ _ _ Zfin).
    + erewrite swap_near_eq; try done.
      * simpl. by rewrite El.
      * intros w E%Hw. by apply Dw.
      * intros z Hc%Hz. destruct (Dz z Hc) as (?&?&?&?). split_and!; try done. by intros E%Hw.
    + simpl. by destruct c as [|[]].
Qed.

(** The end of [avltree_delete_node]: a node with one child at most leaves,
    and the loop runs from its parent. *)
Definition unlink_and_fix (par : option positive) (lnk : link) (p : positive)
    (update : option (positive -> gmap positive avlnode -> C -> C)) (st : avltree C) :=
  l ← get_left p st;
  r ← get_right p st;
  let first_child := match l with Some l => Some l | None => r end in
  st ← store_link lnk first_child st;
  st ← set_parent_opt par first_child st;
  avltree_fixup (path_fuel st) update par st.

Lemma unlink_and_fix_ok update st c l p h r : zip st c (Node l p h r) -> hok (plug c (Node l p h r)) ->
  l = Leaf \/ r = Leaf ->
  exists st' t', unlink_and_fix (ctx_top c) (ctx_link c) p update st = Ok st' /\
  holds st' t' /\ hok t' /\ elems t' = before c ++ elems l ++ elems r ++ after c /\
  kept update st st'.
Proof.
  intros Z Hok Hlr. pose proof Z as [(Hp & Hl & Hr) Zc _ _].
  set (t := match l with Leaf => r | _ => l end).
  assert (match rootp l with Some x => Some x | None => rootp r end = rootp t) as Et
    by (destruct l; done).
  assert (elems t = elems l ++ elems r) as Ee.
  { destruct Hlr as [-> | ->]; unfold t; simpl; [done|]. rewrite app_nil_r. by destruct l. }
  assert (zip (unlink_state c t st) c t) as Zt.
  { apply (unlink_zip st c (Node l p h r) (Some p)); [done|by unfold t; destruct l|].
    unfold t. destruct l; simpl; [by apply sublist_cons|]. by apply sublist_inserts_r. }
  apply hok_plug in Hok as [Hc (Hh & Hokl & Hokr)].
  assert (hok (plug c t)) as Hokt by (apply hok_plug; split; [done|unfold t; by destruct l]).
  assert (get_left p st = Ok (rootp l) /\ get_right p st = Ok (rootp r)) as [Egl Egr]
    by (unfold get_left, get_right; by rewrite (get_ok _ _ _ Hp)).
  unfold unlink_and_fix. rewrite Egl, outcome_bind_ok, Egr, outcome_bind_ok. cbv zeta. rewrite Et.
  rewrite store_link_eq, outcome_bind_ok by (by eapply crepr_link_ok).
  rewrite set_parent_opt_ok, outcome_bind_ok.
  2:{ intros y Hy. simpl. apply link_alter_some. unfold t in Hy.
      destruct l; [by apply (repr_lookup _ (Some p) r)|by apply (repr_lookup _ (Some p) (Node l1 p0 h0 l2))]. }
  change (set_nodes _ _) with (unlink_state c t st).
  destruct (fixup_zip update c t (path_fuel (unlink_state c t st)) _ Zt Hokt) as (st' & -> & Z' & Hok' & K).
  { pose proof (zip_fuel _ _ _ Zt). unfold path_fuel. lia. }
  exists st', (fixup_fun c t). split_and!; try done; by rewrite elems_fixup, Ee, <- app_assoc.
Qed.

Lemma avltree_delete_node_ok update st c l p h r : zip st c (Node l p h r) ->
  hok (plug c (Node l p h r)) ->
  exists st' t', avltree_delete_node p update st = Ok st' /\
  holds st' t' /\ hok t' /\ elems t' = before c ++ elems l ++ elems r ++ after c /\
  kept update st st'.
Proof.
  intros Z Hok. pose proof Z as [(Hp & Hl & Hr) Zc _ _].
  apply hok_plug in Hok as Hok'. destruct Hok' as [Hc (Hh & Hokl & Hokr)].
  unfold avltree_delete_node.
  rewrite (get_node_link_zip _ _ _ _ _ _ Z), outcome_bind_ok.
  assert (get_parent p st = Ok (ctx_top c) /\ get_left p st = Ok (rootp l) /\
          get_right p st = Ok (rootp r)) as (-> & -> & ->)
    by (unfold get_parent, get_left, get_right; by rewrite (get_ok _ _ _ Hp)).
  rewrite !outcome_bind_ok.
  destruct (rootp l) as [lp|] eqn:El.
  2:{ rewrite outcome_bind_ok. destruct l; [|done].
      apply (unlink_and_fix_ok update st c Leaf p h r Z Hok). by left. }
  destruct (rootp r) as [q|] eqn:Er.
  2:{ rewrite outcome_bind_ok. destruct r; [|done].
      apply (unlink_and_fix_ok update st c l p h Leaf Z Hok). by right. }
  destruct r as [|rl q' hq rr]; simplify_eq/=.
  assert (zip st (FR l p h :: c) (Node rl q hq rr)) as Zr by by apply zip_up.
  assert (get_left q st = Ok (rootp rl)) as ->
    by (unfold get_left; by rewrite (get_ok _ _ _ (zip_node _ _ _ _ _ _ Zr))).
  rewrite outcome_bind_ok. destruct rl as [|rll q2 h2 rlr]; cbn [rootp].
  - destruct (swap_near_zip st c l p h q hq rr lp Z El) as (st1 & -> & Z1 & K1). rewrite outcome_bind_ok.
    assert (hok (plug (FR l q h :: c) (Node Leaf p hq rr))) as Hok1.
    { simpl. apply hok_plug. simpl in *. tauto. }
    destruct (unlink_and_fix_ok update st1 _ _ _ _ _ Z1 Hok1) as (st' & t' & E & Z' & Ht & Ee & K); [by left|].
    exists st', t'. rewrite <- K1. split_and!; try done. rewrite Ee. simpl. by rewrite <- !app_assoc.
  - destruct (swap_far_zip st c l p h _ lp q hq _ rr Z El eq_refl ltac:(done))
      as (fs & s & hs & sr & st1 & E & Hb & -> & Z1 & K1). rewrite outcome_bind_ok.
    change (hok (Node (Node rll q2 h2 rlr) q hq rr)) in Hokr.
    rewrite E in Hokr. apply hok_plug in Hokr as [Hfs Hs].
    assert (hok (plug (fs ++ FR l s h :: c) (Node Leaf p hs sr))) as Hok1.
    { apply hok_plug. split; [|done]. apply Forall_app. split; [done|].
      apply Forall_cons. split; [|done]. simpl. tauto. }
    destruct (unlink_and_fix_ok update st1 _ _ _ _ _ Z1 Hok1) as (st' & t' & E' & Z' & Ht & Ee & K); [by left|].
    exists st', t'. rewrite <- K1. split_and!; try done. rewrite Ee.
    transitivity (before c ++ elems l ++ elems (Node (Node rll q2 h2 rlr) q hq rr) ++ after c); [|done].
    rewrite E, elems_plug, Hb. simpl.
    assert (before (fs ++ FR l s h :: c) = before c ++ elems l ++ [s] /\
            after (fs ++ FR l s h :: c) = after fs ++ after c) as [-> ->].
    { clear -Hb. induction fs as [|[y hy ry|ly y hy] fs IH]; simpl in *; [done| |].
      - destruct (IH Hb) as [-> ->]. by rewrite <- app_assoc.
      - by apply app_eq_nil in Hb as [_ [_ [=]]%app_eq_nil]. }
    by rewrite <- !app_assoc.
Qed.

(** ** Searches *)
Lemma delete_search_ok key k compare : by_key key k compare -> forall t c fuel st, zip st c t ->
  sorted key (elems t) -> (length (elems t) <= fuel)%nat ->
  (delete_search fuel compare (rootp t) st = Ok None /\ forall p, p ∈ elems t -> key p <> k) \/
  (exists fs l p h r, delete_search fuel compare (rootp t) st = Ok (Some p) /\ key p = k /\
   t = plug fs (Node l p h r)).
Proof.
  intros Hc. induction t as [|l IHl p h r IHr]; intros c fuel st Z Hs Hf.
  - left. split; [by destruct fuel|]. by intros ? ?%elem_of_nil.
  - simpl in Hf. rewrite length_app in Hf. simpl in Hf. destruct fuel as [|fuel]; [lia|].
    simpl in Hs. apply sorted_app in Hs as (Sl & [Sr Hr]%sorted_cons & Hlr).
    pose proof (Hc p) as Hp. simpl. unfold get_left, get_right.
    rewrite (get_ok _ _ _ (zip_node _ _ _ _ _ _ Z)). simpl.
    destruct (Z.eqb_spec (compare p) 0) as [E|]; [|destruct (Z.ltb_spec (compare p) 0)].
    + right. exists [], l, p, h, r. rewrite E in Hp. simpl in Hp. split_and!; [done|lia|done].
    + destruct (IHl (FL p h r :: c) fuel st) as [[-> Hn]|(fs & l' & p' & h' & r' & -> & Hk & E)];
        [by apply zip_up|done|lia|left|right].
      * split; [done|]. intros x [Hx|[->|Hx]%elem_of_cons]%elem_of_app; [by apply Hn|lia|].
        specialize (Hr x Hx). lia.
      * exists (fs ++ [FL p h r]), l', p', h', r'. split_and!; [done..|].
        rewrite plug_app. simpl. by rewrite <- E.
    + destruct (IHr (FR l p h :: c) fuel st) as [[-> Hn]|(fs & l' & p' & h' & r' & -> & Hk & E)];
        [by apply zip_up|done|lia|left|right].
      * split; [done|]. intros x [Hx|[->|Hx]%elem_of_cons]%elem_of_app; [|lia|by apply Hn].
        specialize (Hlr x p Hx ltac:(left)). lia.
      * exists (fs ++ [FR l p h]), l', p', h', r'. split_and!; [done..|].
        rewrite plug_app. simpl. by rewrite <- E.
Qed.

Lemma walk_left_ok : forall t c fuel st x, zip st c t -> rootp t = Some x ->
  (length (elems t) <= fuel)%nat ->
  exists y, walk_left fuel x st = Ok y /\ head (elems t) = Some y.
Proof.
  induction t as [|l IHl p h r IHr]; intros c fuel st x Z; [done|]. intros [= <-] Hf.
  simpl in Hf. rewrite length_app in Hf. simpl in Hf.
  assert (get_left p st = Ok (rootp l)) as Hl
    by (unfold get_left; by rewrite (get_ok _ _ _ (zip_node _ _ _ _ _ _ Z))).
  destruct l as [|ll q hq lr].
  - exists p. split; [|done]. destruct fuel; simpl; by rewrite Hl.
  - destruct fuel as [|fuel]; [lia|]. simpl walk_left. rewrite Hl. simpl.
    destruct (IHl (FL p h r :: c) fuel st q) as (y & -> & Hy); [by apply zip_up|done|lia|].
    exists y. split; [done|]. simpl in Hy. rewrite head_app. by rewrite Hy.
Qed.

Lemma walk_right_ok : forall t c fuel st x, zip st c t -> rootp t = Some x ->
  (length (elems t) <= fuel)%nat ->
  exists y, walk_right fuel x st = Ok y /\ last (elems t) = Some y.
Proof.
  induction t as [|l IHl p h r IHr]; intros c fuel st x Z; [done|]. intros [= <-] Hf.
  simpl in Hf. rewrite length_app in Hf. simpl in Hf.
  assert (get_right p st = Ok (rootp r)) as Hr
    by (unfold get_right; by rewrite (get_ok _ _ _ (zip_node _ _ _ _ _ _ Z))).
  cbn [elems]. rewrite last_app_cons.
  destruct r as [|rl q hq rr].
  - exists p. split; [|done]. destruct fuel; simpl; by rewrite Hr.
  - destruct fuel as [|fuel]; [lia|]. simpl walk_right. rewrite Hr. simpl.
    destruct (IHr (FR l p h :: c) fuel st q) as (y & -> & Hy); [by apply zip_up|done|lia|].
    exists y. split; [done|]. rewrite last_cons. simpl in Hy. by rewrite Hy.
Qed.

End zipper.
