(* ===== verification/AvlTreeThms.v ===== *)
(** * What the AVL tree guarantees

    The contract of lib/adt/avltree.c as an ordered sequence of nodes, for any
    client data, any callbacks and any comparator that orders nodes by a key,
    and where the code falls short of an AVL tree. *)
From stdpp Require Import sorting.
From S2P Require Import Prelude AvlTree AvlTreeInv.

(** ** Concrete trees: the client counts the nodes of every subtree *)
Definition ex_size (m : gmap positive Z) (p : option positive) : Z :=
  match p with Some p => default 0 (m !! p) | None => 0 end.
Definition ex_update : option (positive -> gmap positive avlnode -> gmap positive Z -> gmap positive Z) :=
  Some (fun p nodes sizes =>
    match nodes !! p with
    | Some n => <[p := 1 + ex_size sizes (left n) + ex_size sizes (right n)]> sizes
    | None => sizes
    end).
Definition ex_compare (a b : positive) : Z := Z.pos a - Z.pos b.
Definition ex_init (n : Z) : avltree (gmap positive Z) :=
  {| nodes := list_to_map ((fun p => (Z.to_pos p,
       {| parent := None; left := None; right := None; height := 0 |})) <$> seqZ 1 n);
     root := None; client := ∅ |}.
Fixpoint ex_insert (ps : list positive) (t : avltree (gmap positive Z)) : avltree (gmap positive Z) :=
  match ps with
  | [] => t
  | p :: ps =>
      match avltree_insert p ex_compare ex_update None t with
      | Ok (_, t) => ex_insert ps t
      | _ => t
      end
  end.
Fixpoint tree_of (fuel : nat) (p : option positive) (t : avltree (gmap positive Z)) : tree :=
  match fuel, p with
  | S fuel, Some p =>
      match nodes t !! p with
      | Some n => Node (tree_of fuel (left n) t) p (height n) (tree_of fuel (right n) t)
      | None => Leaf
      end
  | _, _ => Leaf
  end.
(** The height a tree really has. *)
Fixpoint real_height (t : tree) : Z :=
  match t with Leaf => 0 | Node l _ _ r => 1 + Z.max (real_height l) (real_height r) end.
Fixpoint balanced (t : tree) : bool :=
  match t with
  | Leaf => true
  | Node l _ _ r => (Z.abs (real_height l - real_height r) <=? 1) && balanced l && balanced r
  end.

Lemma ex_by_key k : by_key (fun p => Z.pos p) (Z.pos k) (ex_compare k).
Proof. intros p. done. Qed.

Lemma holds_empty {C} (st : avltree C) : root st = None -> holds st Leaf.
Proof. intros H. split; simpl; [done|done|done|constructor]. Qed.

(** ** Properties *)
Section properties.
Context {C : Type}.
Implicit Types st : avltree C.

(** C7: [avltree_insert] on a search tree never follows a NULL pointer and
    terminates, whatever the callbacks do to the client's data.  A node whose
    key is already there is refused and nothing changes; otherwise the tree
    afterwards is a search tree of the old nodes and the new one, with every
    parent pointer in place. *)
Theorem avltree_insert_spec (key : positive -> Z) node comparator update added st t :
  holds st t -> hok t -> sorted key (elems t) -> by_key key (key node) (comparator node) ->
  node ∉ elems t -> is_Some (nodes st !! node) ->
  (avltree_insert node comparator update added st = Ok (false, st) /\
   exists p, p ∈ elems t /\ key p = key node) \/
  (exists st' t', avltree_insert node comparator update added st = Ok (true, st') /\
   holds st' t' /\ hok t' /\ elems t' ≡ₚ node :: elems t /\ sorted key (elems t')).
Proof. apply avltree_insert_ok. Qed.

(** C8: [avltree_delete_node] takes exactly the given node out of the in-order
    sequence, whatever its children, without following a NULL pointer, and
    leaves every parent pointer in place. *)
Theorem avltree_delete_node_spec node update st t :
  holds st t -> hok t -> node ∈ elems t ->
  exists st' t' a b, avltree_delete_node node update st = Ok st' /\
  holds st' t' /\ hok t' /\ elems t = a ++ node :: b /\ elems t' = a ++ b.
Proof.
  intros Z Hok Hin. destruct (elem_plug t node Hin) as (c & l & h & r & E).
  assert (zip st c (Node l node h r)) as Zc by (apply zip_plug; by rewrite <- E).
  destruct (avltree_delete_node_ok update st c l node h r Zc) as (st' & t' & -> & Z' & Hok' & Et' & _).
  { by rewrite <- E. }
  exists st', t', (before c ++ elems l), (elems r ++ after c). split_and!; try done.
  - rewrite E, elems_plug. simpl. by rewrite <- !app_assoc.
  - by rewrite Et', <- !app_assoc.
Qed.

(** [avltree_delete] finds the node with the key, if there is one, and
    takes it out of the search tree; without one, nothing changes. *)
Theorem avltree_delete_spec (key : positive -> Z) k compare update st t :
  holds st t -> hok t -> sorted key (elems t) -> by_key key k compare ->
  (avltree_delete compare update st = Ok st /\ forall p, p ∈ elems t -> key p <> k) \/
  (exists st' t' p, avltree_delete compare update st = Ok st' /\ key p = k /\
   holds st' t' /\ elems t ≡ₚ p :: elems t' /\ sorted key (elems t')).
Proof.
  intros Z Hok Hs Hc. unfold avltree_delete. assert (root st = rootp t) as -> by apply Z.
  destruct (delete_search_ok key k compare Hc t [] (path_fuel st) st Z Hs)
    as [[-> Hn]|(c & l & p & h & r & -> & Hk & E)].
  { pose proof (holds_size _ _ Z). unfold path_fuel. lia. }
  - by left.
  - right. assert (zip st c (Node l p h r)) as Zc by (apply zip_plug; by rewrite <- E).
    destruct (avltree_delete_node_ok update st c l p h r Zc) as (st' & t' & Hst' & Z' & Hok' & Et' & _).
    { by rewrite <- E. }
    rewrite outcome_bind_ok, Hst'. exists st', t', p.
    assert (elems t = (before c ++ elems l) ++ p :: (elems r ++ after c)) as Et
      by (rewrite E, elems_plug; simpl; by rewrite <- !app_assoc).
    assert (elems t' = (before c ++ elems l) ++ elems r ++ after c) as Et2
      by (by rewrite Et', <- !app_assoc).
    split_and!; try done.
    + rewrite Et, Et2. solve_Permutation.
    + rewrite Et in Hs. rewrite Et2. apply sorted_app in Hs as (S1 & [S2 _]%sorted_cons & S3).
      apply sorted_app. split_and!; [done..|]. intros x y Hx Hy. apply S3; [done|by right].
Qed.

(** [avltree_leftmost] and [avltree_rightmost] are the first and the last
    node in order, and NULL for the empty tree. *)
Theorem avltree_ends_spec st t : holds st t ->
  avltree_leftmost st = Ok (head (elems t)) /\ avltree_rightmost st = Ok (last (elems t)).
Proof.
  intros Z. pose proof (holds_size _ _ Z) as Hsize.
  unfold avltree_leftmost, avltree_rightmost. assert (root st = rootp t) as -> by apply Z.
  destruct (rootp t) as [x|] eqn:Ex; [|by destruct t].
  destruct (walk_left_ok t [] (path_fuel st) st x Z Ex) as (y & -> & ->); [unfold path_fuel; lia|].
  destruct (walk_right_ok t [] (path_fuel st) st x Z Ex) as (z & -> & ->); [unfold path_fuel; lia|].
  done.
Qed.

End properties.

(** *** The properties on concrete trees *)
Definition ex_tree : avltree (gmap positive Z) := ex_insert [4; 2; 6; 1; 3; 5; 7]%positive (ex_init 8).
Definition ex_shape : tree := tree_of 10 (root ex_tree) ex_tree.

Lemma ex_tree_holds : holds ex_tree ex_shape.
Proof.
  split; [| |by vm_compute|].
  - vm_compute. repeat (split; [reflexivity|]). repeat split; reflexivity.
  - done.
  - apply (bool_decide_eq_true_1 _). vm_compute. reflexivity.
Qed.
Lemma ex_shape_hok : hok ex_shape.
Proof. vm_compute. repeat split; discriminate. Qed.
Lemma ex_shape_elems : elems ex_shape = [1; 2; 3; 4; 5; 6; 7]%positive.
Proof. by vm_compute. Qed.
Lemma ex_shape_sorted : sorted (fun p => Z.pos p) (elems ex_shape).
Proof. rewrite ex_shape_elems. repeat (constructor; [|repeat (constructor; [lia|]); constructor]). constructor. Qed.

Lemma avltree_insert_spec_witness :
  (avltree_insert 8%positive ex_compare ex_update None ex_tree = Ok (false, ex_tree) /\
   exists p, p ∈ elems ex_shape /\ Z.pos p = Z.pos 8) \/
  (exists st' t', avltree_insert 8%positive ex_compare ex_update None ex_tree = Ok (true, st') /\
   holds st' t' /\ hok t' /\ elems t' ≡ₚ 8%positive :: elems ex_shape /\
   sorted (fun p => Z.pos p) (elems t')).
Proof.
  apply (avltree_insert_spec (fun p => Z.pos p) 8%positive ex_compare ex_update None ex_tree ex_shape).
  - apply ex_tree_holds.
  - apply ex_shape_hok.
  - apply ex_shape_sorted.
  - apply ex_by_key.
  - rewrite ex_shape_elems. apply (bool_decide_eq_true_1 _). vm_compute. reflexivity.
  - vm_compute. eauto.
Defined.

Lemma avltree_delete_node_spec_witness :
  exists st' t' a b, avltree_delete_node 4%positive ex_update ex_tree = Ok st' /\
  holds st' t' /\ hok t' /\ elems ex_shape = a ++ 4%positive :: b /\ elems t' = a ++ b.
Proof.
  apply (avltree_delete_node_spec 4%positive ex_update ex_tree ex_shape).
  - apply ex_tree_holds.
  - apply ex_shape_hok.
  - rewrite ex_shape_elems. apply (bool_decide_eq_true_1 _). vm_compute. reflexivity.
Defined.

Lemma avltree_delete_spec_witness :
  (avltree_delete (ex_compare 6) ex_update ex_tree = Ok ex_tree /\
   forall p, p ∈ elems ex_shape -> Z.pos p <> 6) \/
  (exists st' t' p, avltree_delete (ex_compare 6) ex_update ex_tree = Ok st' /\ Z.pos p = 6 /\
   holds st' t' /\ elems ex_shape ≡ₚ p :: elems t' /\ sorted (fun p => Z.pos p) (elems t')).
Proof.
  apply (avltree_delete_spec (fun p => Z.pos p) 6 (ex_compare 6) ex_update ex_tree ex_shape).
  - apply ex_tree_holds.
  - apply ex_shape_hok.
  - apply ex_shape_sorted.
  - apply ex_by_key.
Defined.

Lemma avltree_ends_spec_witness :
  avltree_leftmost ex_tree = Ok (head (elems ex_shape)) /\
  avltree_rightmost ex_tree = Ok (last (elems ex_shape)).
Proof. apply (avltree_ends_spec ex_tree ex_shape). apply ex_tree_holds. Defined.

(** the double rotation neither resets the height of the node it moves
    down nor has the client update it.  After inserting the keys 1, 3 and 2,
    the leaf 3 is recorded as two high and as the root of two nodes. *)
Theorem double_rotation_leaves_stale_node :
  let t := ex_insert [1; 3; 2]%positive (ex_init 3) in
  tree_of 3 (root t) t = Node (Node Leaf 1 1 Leaf) 2 3 (Node Leaf 3 2 Leaf) /\
  client t !! 3%positive = Some 2.
Proof. by vm_compute. Qed.

(** with the wrong heights the tree does not stay balanced: six
    insertions make two subtrees of one node differ by two in height. *)
Theorem avltree_insert_loses_balance :
  let t := ex_insert [3; 1; 2; 4; 5; 6]%positive (ex_init 6) in
  balanced (tree_of 6 (root t) t) = false.
Proof. by vm_compute. Qed.

(** [avlnode_successor] of a node without a right child is the nearest
    ancestor that has a left child, not the nearest one the node is to the
    left of: the successor of the largest of three keys is the root. *)
Theorem avlnode_successor_of_largest :
  let t := ex_insert [2; 1; 3]%positive (ex_init 3) in
  elems (tree_of 3 (root t) t) = [1; 2; 3]%positive /\ avlnode_successor 3 t = Ok (Some 2%positive).
Proof. by vm_compute. Qed.
