(* ===== verification/LibThms.v ===== *)
(** * What the integer helpers and ranges guarantee

    Properties of CArith.v (lib/align, lib/math, lib/size, lib/refcount) and of
    Range.v (lib/adt/range). *)
From S2P Require Import Prelude CArith Range.

(** ** Lemmas *)
Lemma round_up_eq n m out : in_u 64 n -> 0 < m < 2 ^ 64 -> n <> 0 ->
  round_up n m out =
    Ok (if n + (m - 1) <? 2 ^ 64 then (true, ceil_mult n m) else (false, u64 (n + (m - 1)))).
Proof.
  unfold_ints. intros Hn Hm Hz. unfold round_up.
  destruct (Z.eqb_spec m 0); [lia|]. simpl. destruct (Z.eqb_spec n 0); [lia|].
  unfold check_add. destruct (Z.ltb_spec (n + (m - 1)) (2 ^ 64)); simpl; [|done].
  rewrite wrap_small by (unfold_ints; lia).
  pose proof (ceil_mult_spec n m ltac:(lia)) as [[Hl Hu] _]. unfold ceil_mult in *.
  replace (n + (m - 1)) with (n + m - 1) by lia.
  unfold check_mul. destruct (Z.ltb_spec ((n + m - 1) / m * m) (2 ^ 64)); simpl; [|lia].
  rewrite wrap_small by (unfold_ints; lia). done.
Qed.

(** The power of 1024 a size is expressed in. *)
Lemma size_loop_ok : forall fuel k size, 0 <= k ->
  0 <= size -> size < 2 ^ (10 * Z.of_nat fuel) -> k + Z.of_nat fuel <= 7 -> (0 < fuel)%nat ->
  exists j, size_to_units_loop fuel size (2 ^ (10 * k)) = Ok (2 ^ (10 * (k + j))) /\
  0 <= j /\ (size = 0 -> j = 0) /\ (0 < size -> 2 ^ (10 * j) <= size < 2 ^ (10 * (j + 1))).
Proof.
  induction fuel as [|fuel IH]; intros k size Hk Hs Hlt Hf Hpos; [lia|].
  cbn [size_to_units_loop]. change (kib 1) with 1024.
  rewrite Z.geb_leb. destruct (Z.leb_spec 1024 size) as [Hle|Hgt].
  - destruct fuel as [|fuel]; [simpl in Hlt; lia|].
    assert (2 ^ (10 * (k + 1)) = 2 ^ (10 * k) * 1024) as Ek.
    { replace (10 * (k + 1)) with (10 * k + 10) by lia. by rewrite Z.pow_add_r by lia. }
    assert (0 < 2 ^ (10 * (k + 1)) <= 2 ^ 60) as Hb.
    { split; [apply pow2_pos; lia|apply pow2_le; lia]. }
    rewrite wrap_small by (unfold_ints; lia). rewrite <- Ek.
    pose proof (Z.div_mod size 1024 ltac:(lia)). pose proof (Z.mod_pos_bound size 1024 ltac:(lia)).
    destruct (IH (k + 1) (size / 1024)) as (j & -> & Hj0 & Hj1 & Hj2); try lia.
    + replace (10 * Z.of_nat (S (S fuel))) with (10 * Z.of_nat (S fuel) + 10) in Hlt by lia.
      rewrite Z.pow_add_r in Hlt by lia. change (2 ^ 10) with 1024 in Hlt.
      apply Z.div_lt_upper_bound; lia.
    + exists (j + 1). split_and!; [do 2 f_equal; lia|lia|lia|].
      intros _. assert (0 < size / 1024) as Hd by lia. destruct (Hj2 Hd) as [H1 H2].
      replace (10 * (j + 1)) with (10 * j + 10) by lia.
      replace (10 * (j + 1 + 1)) with (10 * (j + 1) + 10) by lia.
      rewrite !(Z.pow_add_r 2 _ 10) by lia. change (2 ^ 10) with 1024. lia.
  - exists 0. rewrite Z.add_0_r. split_and!; [done..|]. intros ?. simpl. lia.
Qed.

Lemma range_index_for_loc_ok r x : range_wf r -> in_u 64 x -> x ∈ r ->
  range_index_for_loc r x = Ok (x - front r) /\ range_has_index r (x - front r) = true.
Proof.
  intros Hr Hx Hin. unfold range_index_for_loc, range_has_index, index_in_bounds.
  rewrite (proj2 (range_has_loc_iff r x Hr Hx) Hin). simpl.
  unfold elem_of, elem_of_range, in_range, range_wf in *.
  rewrite sub_small by lia. split; [done|]. apply Z.ltb_lt. lia.
Qed.

(** ** Properties *)

(** for a power-of-two boundary, [align_down], [align_up] and [has_align]
    are what their names say, on every 64-bit number: the greatest multiple
    below, the least multiple above whenever that fits in 64 bits (and a
    failure otherwise), and divisibility. *)
Theorem align_spec n k : in_u 64 n -> 0 <= k < 64 ->
  exists down, align_down n (2 ^ k) = Ok down /\
  (2 ^ k | down) /\ down <= n < down + 2 ^ k /\
  has_align n (2 ^ k) = Ok (down =? n) /\
  (exists r, align_up n (2 ^ k) = Ok r /\
   match r with
   | Some up => (2 ^ k | up) /\ n <= up < n + 2 ^ k /\ in_u 64 up
   | None => forall up, (2 ^ k | up) -> n <= up -> 2 ^ 64 <= up
   end).
Proof.
  intros Hn Hk. pose proof (pow2_pos k ltac:(lia)) as Hp.
  pose proof (Z.div_mod n (2 ^ k) ltac:(lia)). pose proof (Z.mod_pos_bound n (2 ^ k) Hp).
  pose proof (ceil_mult_spec n (2 ^ k) Hp) as [[Hl Hu] Hd].
  exists (n / 2 ^ k * 2 ^ k). rewrite align_down_eq, has_align_eq, align_up_eq by done.
  split_and!; [done|apply Z.divide_factor_r|lia|lia| |].
  - f_equal. apply eq_bool_prop_intro. rewrite !Is_true_true, !Z.eqb_eq. lia.
  - eexists. split; [done|]. destruct (Z.ltb_spec (ceil_mult n (2 ^ k)) (2 ^ 64)).
    + split_and!; [done|lia|lia|]. unfold_ints. lia.
    + intros up [q ->] Hup. destruct Hd as [c Hc]. rewrite Hc in *.
      assert (c <= q) by nia. nia.
Qed.

Lemma align_spec_witness :
  exists down, align_down 5000 (2 ^ 12) = Ok down /\
  (2 ^ 12 | down) /\ down <= 5000 < down + 2 ^ 12 /\
  has_align 5000 (2 ^ 12) = Ok (down =? 5000) /\
  (exists r, align_up 5000 (2 ^ 12) = Ok r /\
   match r with
   | Some up => (2 ^ 12 | up) /\ 5000 <= up < 5000 + 2 ^ 12 /\ in_u 64 up
   | None => forall up, (2 ^ 12 | up) -> 5000 <= up -> 2 ^ 64 <= up
   end).
Proof. apply (align_spec 5000 12); [split; [discriminate|reflexivity]|lia]. Defined.

(** [size_to_units] terminates for every 64-bit size and gives the
    greatest power of 1024 that is not above it (1 for zero). *)
Theorem size_to_units_spec size : in_u 64 size ->
  exists j, size_to_units size = Ok (2 ^ (10 * j)) /\ 0 <= j <= 6 /\
  (size = 0 -> j = 0) /\ (0 < size -> 2 ^ (10 * j) <= size < 2 ^ (10 * (j + 1))).
Proof.
  unfold_ints. intros Hs.
  destruct (size_loop_ok 7 0 size) as (j & Hj & H0 & H1 & H2); try lia.
  exists j. unfold size_to_units. change UNIT_KIND_BYTE with (2 ^ (10 * 0)). rewrite Hj.
  split_and!; [done|lia| |done|done].
  destruct (decide (size = 0)) as [E|]; [specialize (H1 E); lia|].
  destruct (H2 ltac:(lia)) as [H3 _]. apply Z.nlt_ge. intros Hj7.
  pose proof (pow2_le 70 (10 * j) ltac:(lia)).
  assert (2 ^ 64 < 2 ^ 70) by done. lia.
Qed.

Lemma size_to_units_spec_witness :
  exists j, size_to_units 3000000 = Ok (2 ^ (10 * j)) /\ 0 <= j <= 6 /\
  (3000000 = 0 -> j = 0) /\ (0 < 3000000 -> 2 ^ (10 * j) <= 3000000 < 2 ^ (10 * (j + 1))).
Proof. apply (size_to_units_spec 3000000). split; [discriminate|reflexivity]. Defined.

(** the unit of a size of an exbibyte or more has no name: [units_to_sv]
    and [units_to_sv_abbrev] panic on what [size_to_units] returns for it. *)
Theorem units_to_sv_panics_from_eib size : in_u 64 size ->
  (2 ^ 60 <= size <->
   (size_to_units size ≫= units_to_sv) = Panic) /\
  (2 ^ 60 <= size <-> (size_to_units size ≫= units_to_sv_abbrev) = Panic).
Proof.
  unfold_ints. intros Hs.
  destruct (size_loop_ok 7 0 size) as (j & Hj & H0 & H1 & H2); try lia.
  assert (size_to_units size = Ok (2 ^ (10 * j))) as ->.
  { unfold size_to_units. change UNIT_KIND_BYTE with (2 ^ (10 * 0)). by rewrite Hj. }
  assert (j < 7) as Hj7.
  { destruct (decide (size = 0)) as [E|]; [specialize (H1 E); lia|].
    destruct (H2 ltac:(lia)) as [H3 _]. apply Z.nle_gt. intros ?.
    pose proof (pow2_le 70 (10 * j) ltac:(lia)). assert (2 ^ 64 < 2 ^ 70) by done. lia. }
  simpl. destruct (decide (j = 6)) as [->|Hne].
  - assert (2 ^ 60 <= size) by (destruct (decide (size = 0)) as [E|]; [specialize (H1 E); lia|]; 
      destruct (H2 ltac:(lia)); done).
    done.
  - assert (size < 2 ^ 60).
    { destruct (decide (size = 0)) as [->|]; [done|]. destruct (H2 ltac:(lia)) as [_ H3].
      pose proof (pow2_le (10 * (j + 1)) 60 ltac:(lia)). lia. }
    assert (j = 0 \/ j = 1 \/ j = 2 \/ j = 3 \/ j = 4 \/ j = 5) as Hc by lia.
    destruct Hc as [->|[->|[->|[->|[->| ->]]]]]; split; split; intros; try lia; done.
Qed.

Lemma units_to_sv_panics_from_eib_witness :
  (2 ^ 60 <= 2 ^ 61 <-> (size_to_units (2 ^ 61) ≫= units_to_sv) = Panic) /\
  (2 ^ 60 <= 2 ^ 61 <-> (size_to_units (2 ^ 61) ≫= units_to_sv_abbrev) = Panic).
Proof. apply (units_to_sv_panics_from_eib (2 ^ 61)). split; [discriminate|reflexivity]. Defined.

(** the range predicates decide the set relations they stand for:
    membership, inclusion and intersection of the address sets, for ranges
    that do not run past the end of the address space; [range_has] never fails
    its inner assertion. *)
Theorem range_predicates_spec r o x : range_wf r -> range_wf o -> in_u 64 x -> 0 < size o ->
  range_has_loc r x = bool_decide (in_range r x) /\
  (exists b, range_has r o = Ok b /\ (b = true <-> forall y, y ∈ o -> y ∈ r)) /\
  (0 < size r -> range_overlaps r o = true <-> exists y, y ∈ r /\ y ∈ o).
Proof.
  intros Hr Ho Hx Hso. pose proof (proj1 (range_wf_u r Hr)) as Hfr.
  pose proof (proj1 (range_wf_u o Ho)) as Hfo.
  split; [by apply range_has_loc_spec|]. split.
  - unfold range_has. destruct (range_has_loc r (front o)) eqn:E; simpl.
    + apply range_has_loc_iff in E; [|done..].
      destruct (range_index_for_loc_ok r (front o) Hr Hfo E) as [-> Hi]. simpl. rewrite Hi. simpl.
      eexists. split; [done|]. unfold elem_of, elem_of_range, in_range, range_wf in *.
      rewrite sub_small by lia. rewrite Z.geb_leb, Z.leb_le. split.
      * intros ? y Hy. lia.
      * intros H. specialize (H (front o + size o - 1) ltac:(lia)). lia.
    + exists false. split; [done|]. split; [done|]. intros H.
      assert (front o ∈ r) as Hin by (apply H; unfold elem_of, elem_of_range, in_range; lia).
      apply range_has_loc_iff in Hin; [congruence|done..].
  - intros Hsr. unfold range_overlaps.
    destruct (range_has_loc r (front o)) eqn:E1; [|destruct (range_has_loc o (front r)) eqn:E2].
    + apply range_has_loc_iff in E1; [|done..]. split; [|done]. intros _.
      exists (front o). split; [done|]. unfold elem_of, elem_of_range, in_range. lia.
    + apply range_has_loc_iff in E2; [|done..]. split; [|done]. intros _.
      exists (front r). split; [|done]. unfold elem_of, elem_of_range, in_range. lia.
    + split; [done|]. intros (y & Hy1 & Hy2).
      assert (front o ∈ r \/ front r ∈ o) as [H|H]
        by (unfold elem_of, elem_of_range, in_range in *; lia);
        apply range_has_loc_iff in H; congruence || done.
Qed.

Lemma range_predicates_spec_witness :
  range_has_loc (RANGE_INIT 10 20) 12 = bool_decide (in_range (RANGE_INIT 10 20) 12) /\
  (exists b, range_has (RANGE_INIT 10 20) (RANGE_INIT 25 5) = Ok b /\
    (b = true <-> forall y, y ∈ RANGE_INIT 25 5 -> y ∈ RANGE_INIT 10 20)) /\
  (0 < size (RANGE_INIT 10 20) ->
    range_overlaps (RANGE_INIT 10 20) (RANGE_INIT 25 5) = true <->
    exists y, y ∈ RANGE_INIT 10 20 /\ y ∈ RANGE_INIT 25 5).
Proof.
  apply (range_predicates_spec (RANGE_INIT 10 20) (RANGE_INIT 25 5) 12).
  - split_and!; [discriminate|discriminate|reflexivity].
  - split_and!; [discriminate|discriminate|reflexivity].
  - split; [discriminate|reflexivity].
  - reflexivity.
Defined.

(** the conversions between addresses and indices of a range are inverse
    to each other, fail their assertion exactly outside the range, and a
    sub-range given by indices comes out inside the range. *)
Theorem range_index_roundtrip r x : range_wf r -> in_u 64 x ->
  (range_index_for_loc r x ≫= range_loc_for_index r) =
    (if bool_decide (in_range r x) then Ok x else Panic) /\
  (range_loc_for_index r x ≫= range_index_for_loc r) =
    (if x <? size r then Ok x else Panic) /\
  (forall sub, range_wf sub -> range_has_index_range r sub = true ->
     exists full, subrange_to_full r sub = Ok full /\ size full = size sub /\
     front full = front r + front sub /\ forall y, y ∈ full -> y ∈ r).
Proof.
  intros Hr Hx. pose proof Hr as (R1 & R2 & R3). unfold in_u in Hx. split_and!.
  - unfold range_index_for_loc. rewrite range_has_loc_spec by done.
    case_bool_decide as E; [|done]. simpl. unfold in_range in E.
    rewrite sub_small by lia. unfold range_loc_for_index, range_has_index, index_in_bounds.
    destruct (Z.ltb_spec (x - front r) (size r)); [|lia]. simpl.
    rewrite wrap_small by (unfold_ints; lia). f_equal. lia.
  - unfold range_loc_for_index, range_has_index, index_in_bounds.
    destruct (Z.ltb_spec x (size r)); [|done]. simpl.
    rewrite wrap_small by (unfold_ints; lia).
    destruct (range_index_for_loc_ok r (front r + x) Hr) as [-> _];
      [unfold_ints; lia|unfold elem_of, elem_of_range, in_range; lia|]. f_equal. lia.
  - intros sub (S1 & S2 & S3) Hsub. unfold subrange_to_full. rewrite Hsub. simpl.
    unfold range_has_index_range, range_has_index, index_in_bounds in Hsub.
    destruct (Z.ltb_spec (front sub) (size r)) as [Hlt|]; [|done]. simpl in Hsub.
    rewrite sub_small in Hsub by lia. rewrite Z.geb_leb in Hsub. apply Z.leb_le in Hsub.
    eexists. split; [done|]. simpl. rewrite wrap_small by (unfold_ints; lia).
    split_and!; [done..|]. unfold elem_of, elem_of_range, in_range. simpl. lia.
Qed.

Lemma range_index_roundtrip_witness :
  (range_index_for_loc (RANGE_INIT 10 20) 12 ≫= range_loc_for_index (RANGE_INIT 10 20)) =
    (if bool_decide (in_range (RANGE_INIT 10 20) 12) then Ok 12 else Panic) /\
  (range_loc_for_index (RANGE_INIT 10 20) 12 ≫= range_index_for_loc (RANGE_INIT 10 20)) =
    (if 12 <? size (RANGE_INIT 10 20) then Ok 12 else Panic) /\
  (forall sub, range_wf sub -> range_has_index_range (RANGE_INIT 10 20) sub = true ->
     exists full, subrange_to_full (RANGE_INIT 10 20) sub = Ok full /\ size full = size sub /\
     front full = front (RANGE_INIT 10 20) + front sub /\
     forall y, y ∈ full -> y ∈ RANGE_INIT 10 20).
Proof.
  apply (range_index_roundtrip (RANGE_INIT 10 20) 12).
  - split_and!; [discriminate|discriminate|reflexivity].
  - split; [discriminate|reflexivity].
Defined.

(** [range_align_in] moves the front up but rounds down the old size, so
    the range it returns can run past the end of the one it was given;
    [range_align_out] moves the front down but rounds up the old size, so it
    need not cover it. *)
Theorem range_align_loses_end :
  range_align_in (RANGE_INIT 1 8192) 4096 = Ok (RANGE_INIT 4096 8192) /\
  8193 ∈ RANGE_INIT 4096 8192 /\ (8193 ∉ RANGE_INIT 1 8192) /\
  range_align_out (RANGE_INIT 4095 2) 4096 = Ok (Some (RANGE_INIT 0 4096)) /\
  4096 ∈ RANGE_INIT 4095 2 /\ (4096 ∉ RANGE_INIT 0 4096).
Proof.
  unfold elem_of, elem_of_range, in_range. simpl.
  split_and!; try reflexivity; lia.
Qed.
