(* ===== verification/AddrSpace.v ===== *)
(** * Address spaces: lib/adt/addrspace.c

    With the intrusive lists of lib/list.h and the part of kernel/mm/vma.c
    that does not allocate.  A [struct addrspace_node] is named by the address
    of its tree node; the tree is that of AvlTree.v, whose client data are the
    other fields.  A [struct list *] is the list head of the address space
    ([None]) or the list field of a node. *)
From stdpp Require Import functions.
From S2P Require Import Prelude CArith Range AvlTree.

(** ** lib/list.h *)
Abbreviation list_ref := (option positive).

(** The links of every list field; NULL is [None]. *)
Record links := {
  prev : list_ref -> option list_ref;
  next : list_ref -> option list_ref;
}.

Definition set_prev (e v : list_ref) (l : links) : links :=
  {| prev := <[e := Some v]> (prev l); next := next l |}.
Definition set_next (e v : list_ref) (l : links) : links :=
  {| prev := prev l; next := <[e := Some v]> (next l) |}.

Definition list_init (head : list_ref) (l : links) : links := set_next head head (set_prev head head l).
Definition list_add_common (elem prev next : list_ref) (l : links) : links :=
  set_prev next elem (set_next prev elem (set_next elem next (set_prev elem prev l))).
Definition list_add (head item : list_ref) (l : links) : outcome links :=
  n ← deref (next l head); Ok (list_add_common item head n l).
Definition list_radd (head item : list_ref) (l : links) : outcome links :=
  p ← deref (prev l head); Ok (list_add_common item p head l).
Definition list_empty (head : list_ref) (l : links) : bool := bool_decide (prev l head = Some head).

(** [elem->next->prev = elem->prev; elem->prev->next = elem->next] *)
Definition list_unlink (elem : list_ref) (l : links) : outcome links :=
  n ← deref (next l elem);
  p ← deref (prev l elem);
  let l := set_prev n p l in
  p ← deref (prev l elem);
  n ← deref (next l elem);
  Ok (set_next p n l).
Definition list_remove (elem : list_ref) (l : links) : outcome links :=
  l ← list_unlink elem l; Ok (set_next elem elem (set_prev elem elem l)).
Definition list_delete (elem : list_ref) (l : links) : outcome links :=
  l ← list_unlink elem l;
  Ok {| prev := <[elem := None]> (prev l); next := <[elem := None]> (next l) |}.

(** ** The nodes *)
Definition ADDRSPACE_INVALID_ADDR : Z := UINT64_MAX.

Record addrspace_node := {
  lists : links;
  node_range : positive -> range;
  largest_free_to_prev : positive -> Z;
}.
Definition with_lists (l : links) (d : addrspace_node) : addrspace_node :=
  {| lists := l; node_range := node_range d; largest_free_to_prev := largest_free_to_prev d |}.
Definition with_front (p : positive) (addr : Z) (d : addrspace_node) : addrspace_node :=
  {| lists := lists d;
     node_range := <[p := RANGE_INIT addr (size (node_range d p))]> (node_range d);
     largest_free_to_prev := largest_free_to_prev d |}.
Definition with_largest (p : positive) (n : Z) (d : addrspace_node) : addrspace_node :=
  {| lists := lists d; node_range := node_range d;
     largest_free_to_prev := <[p := n]> (largest_free_to_prev d) |}.

(** Nothing linked: every list field as LIST_INIT leaves it. *)
Definition unlinked : links := {| prev := fun e => Some e; next := fun e => Some e |}.
Definition ADDRSPACE_NODE_INIT : addrspace_node :=
  {| lists := unlinked; node_range := fun _ => RANGE_EMPTY; largest_free_to_prev := fun _ => 0 |}.

(** The callbacks can fail an assertion, after which there is no state: the
    tree's client data are an outcome, which stays what it is from then on. *)
Abbreviation address_space := (@avltree (outcome addrspace_node)).
Definition ADDRSPACE_INIT (nodes : gmap positive avlnode) : address_space :=
  {| nodes := nodes; root := None; client := Ok ADDRSPACE_NODE_INIT |}.

Definition addrspace_node_prev (node : positive) (d : addrspace_node) : outcome (option positive) :=
  match prev (lists d) (Some node) with
  | None => Panic
  | Some p => Ok p
  end.
(** Past the end the answer is the list head taken for a node. *)
Definition addrspace_node_next (node : positive) (d : addrspace_node) : outcome (option positive) :=
  if bool_decide (prev (lists d) (Some node) = Some None) then Ok None
  else
    match next (lists d) (Some node) with
    | Some (Some q) => Ok (Some q)
    | _ => Undef
    end.

Definition prev_end_of (prev : option positive) (d : addrspace_node) : outcome Z :=
  match prev with Some q => range_get_end_assert (node_range d q) | None => Ok 0 end.

(** ** The tree's callbacks *)
Definition avltree_update (node : positive) (nodes : gmap positive avlnode)
    (d : outcome addrspace_node) : outcome addrspace_node :=
  d ← d;
  prev ← addrspace_node_prev node d;
  prev_end ← prev_end_of prev d;
  let largest := u64 (front (node_range d node) - prev_end) in
  n ← deref (nodes !! node);
  let largest :=
    match left n with Some l => Z.max largest (largest_free_to_prev d l) | None => largest end in
  let largest :=
    match right n with Some r => Z.max largest (largest_free_to_prev d r) | None => largest end in
  Ok (with_largest node largest d).

Definition avltree_compare (d : addrspace_node) (ours theirs : positive) : Z :=
  if range_overlaps (node_range d ours) (node_range d theirs) then 0
  else if range_above (node_range d ours) (node_range d theirs) then -1 else 1.

(** [&prev->list] of a NULL [prev] is an address near 0. *)
Definition add_node_cb (node : positive) (nodes : gmap positive avlnode)
    (d : outcome addrspace_node) : outcome addrspace_node :=
  d ← d;
  n ← deref (nodes !! node);
  match parent n with
  | None => l ← list_add None (Some node) (lists d); Ok (with_lists l d)
  | Some par =>
      pn ← deref (nodes !! par);
      if bool_decide (right pn = Some node) then
        l ← list_add (Some par) (Some node) (lists d); Ok (with_lists l d)
      else
        prev ← addrspace_node_prev par d;
        prev ← deref prev;
        l ← list_add (Some prev) (Some node) (lists d); Ok (with_lists l d)
  end.

(** What became of the callbacks. *)
Definition callbacks_done {A} (r : outcome (A * address_space)) : outcome (A * address_space) :=
  '(a, t) ← r; client t;; Ok (a, t).

(** ** Finding a hole *)
Inductive traversal_result :=
| TRAVERSAL_DONE (result : Z) (prev : option positive)
| TRAVERSAL_CONTINUE (node : positive).

(** [in_range], [size] and [align] are those of the caller. *)
Section find.
Context (in_range : range) (size align : Z).

(** The case of a node without parent: room after the last node. *)
Definition space_after_last (d : addrspace_node) : outcome traversal_result :=
  rightmost ← (p ← deref (prev (lists d) None); deref p);
  aligned_result ← range_get_end_assert (node_range d rightmost);
  in_end ← range_get_end_assert in_range;
  if aligned_result >=? in_end then Ok (TRAVERSAL_DONE ADDRSPACE_INVALID_ADDR None)
  else
    a ← align_up aligned_result align;
    match a with
    | None => Ok (TRAVERSAL_DONE ADDRSPACE_INVALID_ADDR None)
    | Some aligned_result =>
        let '(ok, _) := check_add 64 aligned_result size in
        if negb ok then Ok (TRAVERSAL_DONE ADDRSPACE_INVALID_ADDR None)
        else Ok (TRAVERSAL_DONE aligned_result (Some rightmost))
    end.

(** The inner loop: the first ancestor reached from its left child. *)
Fixpoint climb (fuel : nat) (node : positive) (t : address_space) : outcome (option positive) :=
  match fuel with
  | O => OutOfFuel
  | S fuel =>
      par ← get_parent node t;
      match par with
      | None => Ok None
      | Some par =>
          l ← get_left par t;
          if bool_decide (l = Some node) then Ok (Some par) else climb fuel par t
      end
  end.

Fixpoint travserse_tree (fuel : nat) (node : positive) (d : addrspace_node) (t : address_space) :
    outcome traversal_result :=
  match fuel with
  | O => OutOfFuel
  | S fuel =>
      prev ← addrspace_node_prev node d;
      prev_end ← prev_end_of prev d;
      if range_is_loc_above in_range prev_end
      then Ok (TRAVERSAL_DONE ADDRSPACE_INVALID_ADDR None)
      else
        aligned_front ← align_up_assert prev_end align;
        let aligned_range := RANGE_INIT aligned_front size in
        hole_range ← range_create_end prev_end (front (node_range d node));
        in_hole ← range_has hole_range aligned_range;
        fits ← (if (in_hole : bool) then range_has in_range aligned_range else Ok false);
        if (fits : bool) then Ok (TRAVERSAL_DONE aligned_front prev)
        else
          r ← get_right node t;
          let go_right :=
            match r with Some r => largest_free_to_prev d r >=? size | None => false end in
          match r, go_right with
          | Some r, true => Ok (TRAVERSAL_CONTINUE r)
          | _, _ =>
              up ← climb (path_fuel t) node t;
              match up with
              | None => space_after_last d
              | Some node => travserse_tree fuel node d t
              end
          end
  end.

Fixpoint find_from (fuel : nat) (node : positive) (d : addrspace_node) (t : address_space) :
    outcome (Z * option positive) :=
  match fuel with
  | O => OutOfFuel
  | S fuel =>
      l ← get_left node t;
      let go_left :=
        match l with
        | Some l => range_is_loc_above in_range (front (node_range d node)) &&
                    (largest_free_to_prev d l >=? size)
        | None => false
        end in
      match l, go_left with
      | Some l, true => find_from fuel l d t
      | _, _ =>
          r ← travserse_tree (path_fuel t) node d t;
          match r with
          | TRAVERSAL_DONE result prev => Ok (result, prev)
          | TRAVERSAL_CONTINUE node => find_from fuel node d t
          end
      end
  end.

(** The address and the node before it. *)
Definition find_from_start (d : addrspace_node) (t : address_space) : outcome (Z * option positive) :=
  match root t with
  | None =>
      aligned_front ← align_up_assert (front in_range) align;
      inside ← range_has in_range (RANGE_INIT aligned_front size);
      if negb inside then Ok (ADDRSPACE_INVALID_ADDR, None) else Ok (aligned_front, None)
  | Some root => find_from (path_fuel t) root d t
  end.
End find.

(** ** Adding and removing nodes *)
Definition addrspace_find_space_and_add_node (in_range : range) (node : positive) (align : Z)
    (t : address_space) : outcome (Z * address_space) :=
  d ← client t;
  '(addr, prev) ← find_from_start in_range (size (node_range d node)) align d t;
  if addr =? ADDRSPACE_INVALID_ADDR then Ok (ADDRSPACE_INVALID_ADDR, t)
  else
    let d := with_front node addr d in
    match prev with
    | Some prev =>
        l ← list_add (Some prev) (Some node) (lists d);
        let t := set_client (Ok (with_lists l d)) t in
        callbacks_done
          (t ← avltree_insert_at_loc node (Some prev) (LRight prev) (Some avltree_update) t;
           Ok (addr, t))
    | None =>
        '(result, t) ← callbacks_done
          (avltree_insert node (avltree_compare d) (Some avltree_update) None
             (set_client (Ok d) t));
        c_assert result;;
        d ← client t;
        l ← list_add None (Some node) (lists d);
        Ok (addr, set_client (Ok (with_lists l d)) t)
    end.

Definition addrspace_add_node (node : positive) (t : address_space) : outcome (bool * address_space) :=
  d ← client t;
  callbacks_done (avltree_insert node (avltree_compare d) (Some avltree_update) (Some add_node_cb) t).

Definition addrspace_remove_node (node : positive) (t : address_space) : outcome address_space :=
  '(_, t) ← callbacks_done (t ← avltree_delete_node node (Some avltree_update) t; Ok (tt, t));
  Ok t.

(** ** kernel/mm/vma.c *)
Definition vma_prev (vma : positive) (d : addrspace_node) : outcome (option positive) :=
  addrspace_node_prev vma d.
Definition vma_next (vma : positive) (d : addrspace_node) : outcome (option positive) :=
  addrspace_node_next vma d.
