(* ===== verification/AddrSpaceInv.v ===== *)
(** * Address spaces: the list, the tree and the ranges

    What lib/adt/addrspace.c keeps true: the list threads the nodes in the
    order of the tree, and their ranges follow each other without
    overlapping. *)
From stdpp Require Import functions sorting.
From S2P Require Import Prelude CArith Range AvlTree AvlTreeInv AddrSpace.

(** ** Circular lists *)

(** From the list field [x] through the nodes [ps] to the list field [z]. *)
Fixpoint seg (l : links) (x : list_ref) (ps : list positive) (z : list_ref) : Prop :=
  match ps with
  | [] => next l x = Some z /\ prev l z = Some x
  | p :: ps => (next l x = Some (Some p) /\ prev l (Some p) = Some x) /\ seg l (Some p) ps z
  end.
Definition threads (l : links) (ps : list positive) : Prop := seg l None ps None.

Lemma seg_app l x a p b z :
  seg l x (a ++ p :: b) z <-> seg l x a (Some p) /\ seg l (Some p) b z.
Proof. revert x. induction a as [|q a IH]; intros x; simpl; [tauto|]. rewrite IH. tauto. Qed.

(** A segment depends on [next] of its first nodes and [prev] of the others. *)
Lemma seg_frame l l' x ps z :
  (forall y, y = x \/ (exists p, y = Some p /\ p ∈ ps) -> next l' y = next l y) ->
  (forall y, y = z \/ (exists p, y = Some p /\ p ∈ ps) -> prev l' y = prev l y) ->
  seg l x ps z -> seg l' x ps z.
Proof.
  revert x. induction ps as [|p ps IH]; intros x Hn Hp; simpl.
  - by rewrite Hn, Hp by auto.
  - rewrite Hn by auto. rewrite Hp by (right; exists p; split; [done|left]).
    intros [H1 H2]. split; [done|]. apply IH; [| |done].
    + intros y [->|(q & -> & Hq)]; apply Hn; right; [exists p; split; [done|left]|].
      exists q. split; [done|by right].
    + intros y [->|(q & -> & Hq)]; apply Hp; [by left|]. right. exists q. split; [done|by right].
Qed.

(** The first list field after [x]. *)
Definition first_of (ps : list positive) (z : list_ref) : list_ref :=
  match ps with [] => z | p :: _ => Some p end.
Lemma seg_next l x ps z : seg l x ps z -> next l x = Some (first_of ps z).
Proof. destruct ps; simpl; tauto. Qed.
(** The last one before [z]. *)
Definition last_of (x : list_ref) (ps : list positive) : list_ref :=
  match last ps with Some p => Some p | None => x end.
Lemma last_of_snoc x ps p : last_of x (ps ++ [p]) = Some p.
Proof. unfold last_of. by rewrite last_snoc. Qed.
Lemma seg_prev l x ps z : seg l x ps z -> prev l z = Some (last_of x ps).
Proof.
  destruct ps as [|p ps _] using rev_ind; [simpl; tauto|].
  rewrite last_of_snoc, seg_app. simpl. tauto.
Qed.

Lemma threads_prev l a p b : threads l (a ++ p :: b) -> prev l (Some p) = Some (last_of None a).
Proof. intros [H _]%seg_app. by apply seg_prev in H. Qed.

(** Stores to the links. *)
Ltac lnk := simpl; repeat first
  [ rewrite fn_lookup_insert | rewrite fn_lookup_insert_ne by congruence ]; try done.

(** [list_add] puts the item behind the head. *)
Lemma list_add_seg l e item b : seg l e b None ->
  Some item <> e -> item ∉ b -> NoDup b -> e ∉ Some <$> b ->
  exists l', list_add e (Some item) l = Ok l' /\ seg l' e (item :: b) None /\
  (forall y, y <> e -> y <> Some item -> next l' y = next l y) /\
  (forall y, y <> first_of b None -> y <> Some item -> prev l' y = prev l y).
Proof.
  intros H N1 Nb Hnd Ne. pose proof (seg_next _ _ _ _ H) as Hn.
  unfold list_add. rewrite Hn. simpl. eexists. split; [done|].
  split; [|split; intros y H1 H2; by lnk].
  destruct b as [|p b]; cbn [seg first_of] in *.
  - split; split; by lnk.
  - apply NoDup_cons in Hnd as [Hp Hnd]. apply not_elem_of_cons in Nb as [Np Nb].
    rewrite fmap_cons, not_elem_of_cons in Ne. destruct Ne as [Ne1 Ne2].
    split; [split; by lnk|]. split; [split; by lnk|].
    apply (seg_frame l); [| |by apply H]; intros y Hy; unfold list_add_common.
    + assert (y <> e /\ y <> Some item) as [??]; [|by lnk].
      destruct Hy as [->|(q & -> & Hq)]; [split; congruence|]. split; [|congruence].
      intros <-. apply Ne2. by apply list_elem_of_fmap_2.
    + assert (y <> Some p /\ y <> Some item) as [??]; [|by lnk].
      destruct Hy as [->|(q & -> & Hq)]; [done|]. split; congruence.
Qed.

Lemma list_add_threads l a item b : threads l (a ++ b) -> NoDup (a ++ item :: b) ->
  exists l', list_add (last_of None a) (Some item) l = Ok l' /\ threads l' (a ++ item :: b).
Proof.
  intros H Hnd. apply NoDup_app in Hnd as (Ha & Hab & [Hi Hb]%NoDup_cons).
  destruct a as [|q a _] using rev_ind.
  - destruct (list_add_seg l None item b) as (l' & E & H' & _); [done..| |by exists l'].
    intros (x & ? & _)%list_elem_of_fmap. done.
  - rewrite last_of_snoc. unfold threads in *. rewrite <- app_assoc in *. simpl in *.
    apply seg_app in H as [H1 H2].
    assert (q <> item /\ (q ∉ b)) as [N1 N2] by set_solver.
    destruct (list_add_seg l (Some q) item b) as (l' & E & H' & Fn & Fp); [done|congruence|done..| |].
    { intros (x & [= <-] & ?)%list_elem_of_fmap. done. }
    exists l'. split; [done|]. apply seg_app. split; [|done].
    apply NoDup_app in Ha as (Ha & Haq & _).
    apply (seg_frame l); [| |done]; intros y Hy.
    + apply Fn; destruct Hy as [->|(p & -> & Hp)]; try congruence; intros [= ->]; set_solver.
    + apply Fp.
      * destruct Hy as [->|(p & -> & Hp)]; destruct b as [|r b]; simpl; try done; intros [= ->]; set_solver.
      * destruct Hy as [->|(p & -> & Hp)]; intros [= ->]; set_solver.
Qed.

(** [list_radd] puts it in front of the head. *)
Lemma list_radd_add l ps item : threads l ps ->
  list_radd None (Some item) l = list_add (last_of None ps) (Some item) l.
Proof.
  intros H. unfold list_radd, list_add. rewrite (seg_prev _ _ _ _ H).
  destruct ps as [|p ps _] using rev_ind.
  - destruct H as [H _]. unfold last_of. simpl. by rewrite H.
  - apply seg_app in H as [_ [H _]]. rewrite last_of_snoc. simpl. by rewrite H.
Qed.

Lemma list_unlink_seg l x p b : seg l x (p :: b) None -> NoDup (p :: b) -> x ∉ Some <$> p :: b ->
  exists l', list_unlink (Some p) l = Ok l' /\ seg l' x b None /\
  (forall y, y <> x -> next l' y = next l y) /\
  (forall y, y <> first_of b None -> prev l' y = prev l y).
Proof.
  intros [[H1 H2] H] [Hp Hnd]%NoDup_cons Nx. pose proof (seg_next _ _ _ _ H) as Hn.
  rewrite fmap_cons, not_elem_of_cons in Nx. destruct Nx as [Nx1 Nx2].
  assert (Some p <> first_of b None) as N by (destruct b; simpl; [done|set_solver]).
  unfold list_unlink. rewrite Hn, H2. simpl.
  rewrite fn_lookup_insert_ne, H2, Hn by congruence. simpl.
  eexists. split; [done|]. split; [|split; intros y Hy; by lnk].
  destruct b as [|q b]; cbn [seg first_of] in *; [split; by lnk|]. split; [split; by lnk|].
  apply NoDup_cons in Hnd as [Hq Hnd].
  apply (seg_frame l); [| |by apply H]; intros y Hy.
  - assert (x <> y); [|by lnk]. intros ->. destruct Hy as [->|(r & -> & Hr)].
    + apply Nx2. left.
    + apply Nx2. right. by apply list_elem_of_fmap_2.
  - assert (Some q <> y); [|by lnk]. destruct Hy as [->|(r & -> & Hr)]; [done|]. congruence.
Qed.

Lemma list_unlink_threads l a p b : threads l (a ++ p :: b) -> NoDup (a ++ p :: b) ->
  exists l', list_unlink (Some p) l = Ok l' /\ threads l' (a ++ b).
Proof.
  intros H Hnd. apply NoDup_app in Hnd as (Ha & Hab & Hb).
  destruct a as [|q a _] using rev_ind.
  - destruct (list_unlink_seg l None p b) as (l' & E & H' & _); [done..| |by exists l'].
    intros (x & ? & _)%list_elem_of_fmap. done.
  - unfold threads in *. rewrite <- app_assoc in *. simpl in *. apply seg_app in H as [H1 H2].
    assert (q ∉ p :: b) as N by (apply Hab; set_solver).
    destruct (list_unlink_seg l (Some q) p b) as (l' & E & H' & Fn & Fp); [done..| |].
    { intros (x & [= <-] & ?)%list_elem_of_fmap. done. }
    exists l'. split; [done|]. apply seg_app. split; [|done].
    apply NoDup_app in Ha as (Ha & Haq & _).
    apply (seg_frame l); [| |done]; intros y Hy.
    + apply Fn. destruct Hy as [->|(r & -> & Hr)]; [done|]. intros [= ->]. set_solver.
    + apply Fp. destruct Hy as [->|(r & -> & Hr)]; destruct b as [|s b]; simpl; try done; intros [= ->]; set_solver.
Qed.

(** Changing the links of a node off the list. *)
Lemma threads_off l l' ps p : threads l ps -> p ∉ ps ->
  (forall y, y <> Some p -> next l' y = next l y /\ prev l' y = prev l y) -> threads l' ps.
Proof.
  intros H Hp E. apply (seg_frame l); [| |done]; intros y Hy;
    apply E; destruct Hy as [->|(q & -> & Hq)]; congruence.
Qed.

(** The operations on the sequence. *)
Lemma list_cases l a p b : NoDup (a ++ p :: b) ->
  (threads l (a ++ b) ->
   (exists l', list_add (last_of None a) (Some p) l = Ok l' /\ threads l' (a ++ p :: b)) /\
   (exists l', list_radd None (Some p) l = Ok l' /\ threads l' ((a ++ b) ++ [p])) /\
   (list_empty None l = true <-> a ++ b = [])) /\
  (threads l (a ++ p :: b) ->
   (exists l', list_remove (Some p) l = Ok l' /\ threads l' (a ++ b) /\
      list_empty (Some p) l' = true) /\
   (exists l', list_delete (Some p) l = Ok l' /\ threads l' (a ++ b) /\ prev l' (Some p) = None)).
Proof.
  intros Hnd. assert (p ∉ a ++ b) as Hp.
  { rewrite <- Permutation_middle in Hnd. by apply NoDup_cons in Hnd as [? _]. }
  split; intros T.
  - split_and!.
    + by apply list_add_threads.
    + rewrite (list_radd_add _ _ _ T). apply list_add_threads; [by rewrite app_nil_r|].
      rewrite <- Permutation_middle, app_nil_r. by rewrite <- Permutation_middle in Hnd.
    + unfold list_empty. rewrite bool_decide_eq_true, (seg_prev _ _ _ _ T).
      destruct (a ++ b) as [|x ps _] using rev_ind; [by split|]. rewrite last_of_snoc.
      split; [done|]. by intros [_ ?]%app_eq_nil.
  - destruct (list_unlink_threads l a p b T Hnd) as (l' & E & T').
    unfold list_remove, list_delete. rewrite E. simpl.
    split; eexists; (split; [done|]); split.
    + apply (threads_off l' _ _ p T' Hp). intros y Hy. by split; lnk.
    + unfold list_empty. simpl. by rewrite fn_lookup_insert, bool_decide_true.
    + apply (threads_off l' _ _ p T' Hp). intros y Hy. by split; lnk.
    + simpl. by rewrite fn_lookup_insert.
Qed.

(** ** Ranges *)
Definition range_end (r : range) : Z := front r + size r.
Definition overlap (r r' : range) : Prop := exists x, x ∈ r /\ x ∈ r'.

Lemma overlap_iff r r' : 0 < size r -> 0 < size r' ->
  overlap r r' <-> front r < range_end r' /\ front r' < range_end r.
Proof.
  intros H H'. unfold overlap, elem_of, elem_of_range, in_range, range_end. split.
  - intros (x & ? & ?). lia.
  - intros ?. exists (Z.max (front r) (front r')). lia.
Qed.

Lemma range_overlaps_iff r r' : range_wf r -> range_wf r' ->
  range_overlaps r r' = true <-> front r' ∈ r \/ front r ∈ r'.
Proof.
  intros H H'. unfold range_overlaps.
  destruct (range_wf_u r H) as [U _]. destruct (range_wf_u r' H') as [U' _].
  pose proof (range_has_loc_iff r _ H U'). pose proof (range_has_loc_iff r' _ H' U).
  destruct (range_has_loc r _), (range_has_loc r' _); naive_solver.
Qed.

(** The comparator: where the other range lies. *)
Lemma avltree_compare_spec d p q :
  let r := node_range d p in let r' := node_range d q in
  range_wf r -> range_wf r' -> 0 < size r -> 0 < size r' ->
  (range_end r <= front r' /\ avltree_compare d p q = -1) \/
  (range_end r' <= front r /\ avltree_compare d p q = 1) \/
  (overlap r r' /\ avltree_compare d p q = 0).
Proof.
  intros r r' H H' S S'. unfold avltree_compare. fold r r'.
  pose proof (range_overlaps_iff r r' H H') as Ho. pose proof (overlap_iff r r' S S') as Hi.
  unfold elem_of, elem_of_range, in_range, range_end, range_wf in *.
  destruct (range_overlaps r r'); [right; right; split; [|done]; apply Hi; naive_solver lia|].
  assert (front r + size r <= front r' \/ front r' + size r' <= front r) as [L|L].
  { destruct (decide (front r + size r <= front r')), (decide (front r' + size r' <= front r)); lia. }
  - left. split; [done|]. unfold range_above, range_is_loc_above. rewrite sub_small by lia.
    by rewrite (proj2 (Z.geb_le _ _)), (proj2 (Z.geb_le _ _)) by lia.
  - right. left. split; [done|]. unfold range_above, range_is_loc_above.
    by destruct (Z.geb_spec (front r') (front r)); [lia|].
Qed.

(** ** The invariant *)
Definition in_order (rg : positive -> range) (ps : list positive) : Prop :=
  StronglySorted (fun a b => range_end (rg a) <= front (rg b)) ps.

Record space_ok (t : address_space) (tr : tree) (d : addrspace_node) : Prop := {
  so_tree : holds t tr;
  so_hok : hok tr;
  so_client : client t = Ok d;
  so_list : threads (lists d) (elems tr);
  so_links : forall q, prev (lists d) (Some q) <> None;
  so_wf : forall q, range_wf (node_range d q);
  so_size : forall q, q ∈ elems tr -> 0 < size (node_range d q);
  so_order : in_order (node_range d) (elems tr);
}.

Lemma in_order_splits d node ps : in_order (node_range d) ps ->
  (forall q, range_wf (node_range d q)) -> 0 < size (node_range d node) ->
  (forall q, q ∈ ps -> 0 < size (node_range d q)) -> splits (avltree_compare d node) ps.
Proof.
  intros H W Sn S. unfold splits, in_order in *. induction H as [|a ps Hs IH Ha]; constructor.
  - apply IH. intros q Hq. apply S. by right.
  - rewrite Forall_forall in Ha |- *. intros b Hb. specialize (Ha b Hb).
    assert (0 < size (node_range d a)) as Sa by (apply S; left).
    assert (0 < size (node_range d b)) as Sb by (apply S; by right).
    pose proof (avltree_compare_spec d node a (W _) (W _) Sn Sa) as Ca.
    pose proof (avltree_compare_spec d node b (W _) (W _) Sn Sb) as Cb.
    cbv zeta in Ca, Cb. rewrite overlap_iff in Ca, Cb by done.
    unfold range_end in *. lia.
Qed.

(** The callbacks leave the lists and the ranges alone. *)
Definition same_space (d : addrspace_node) (c : outcome addrspace_node) : Prop :=
  exists d', c = Ok d' /\ lists d' = lists d /\ node_range d' = node_range d.

Lemma range_get_end_ok r : range_wf r -> range_get_end_assert r = Ok (range_end r).
Proof.
  intros H. unfold range_get_end_assert, range_get_end, check_add, range_end, range_wf in *.
  rewrite wrap_small by (unfold in_u; lia).
  by rewrite (proj2 (Z.ltb_lt _ _)) by lia.
Qed.

Lemma prev_end_ok d q : (forall q, range_wf (node_range d q)) ->
  exists e, prev_end_of q d = Ok e.
Proof. intros W. destruct q as [q|]; simpl; [rewrite range_get_end_ok by done|]; eauto. Qed.

Lemma update_keeps d : (forall q, prev (lists d) (Some q) <> None) ->
  (forall q, range_wf (node_range d q)) -> keeps (same_space d) (Some avltree_update).
Proof.
  intros L W p m c [n Hn] (d' & -> & El & Er). unfold avltree_update, addrspace_node_prev. simpl.
  rewrite El. destruct (prev (lists d) (Some p)) as [q|] eqn:Eq; [|by destruct (L p)]. simpl.
  destruct (prev_end_ok d' q) as [e ->]; [intros ?; by rewrite Er|]. simpl. rewrite Hn. simpl.
  eexists. split; [done|]. by split.
Qed.

Lemma list_add_links e p l l' q : list_add e (Some p) l = Ok l' ->
  prev l (Some q) <> None -> prev l' (Some q) <> None.
Proof.
  unfold list_add. intros H Hq. bind_inv H n Hn. injection H as <-. simpl.
  destruct (decide (n = Some q)) as [->|]; [by rewrite fn_lookup_insert|].
  rewrite fn_lookup_insert_ne by done. destruct (decide (Some p = Some q)) as [->|]; [by rewrite fn_lookup_insert|].
  by rewrite fn_lookup_insert_ne.
Qed.

(** [add_node_cb] links the node where the tree has it; as the first of
    several nodes it has no predecessor to be linked behind. *)
Lemma add_node_cb_ok (st : address_space) d c node h :
  zip st c (Node Leaf node h Leaf) -> threads (lists d) (before c ++ after c) ->
  add_node_cb node (nodes st) (Ok d) =
    match before c, after c with
    | [], _ :: _ => Undef
    | _, _ => l ← list_add (last_of None (before c)) (Some node) (lists d); Ok (with_lists l d)
    end.
Proof.
  intros Z T. unfold add_node_cb. rewrite outcome_bind_ok, (zip_node _ _ _ _ _ _ Z). simpl.
  pose proof (z_ctx _ _ _ Z) as Hc. pose proof (z_nodup _ _ _ Z) as Hnd.
  destruct c as [|[p hp r|l p hp] c]; simpl in *; [done|..]; destruct Hc as (Hp & _); rewrite Hp; simpl.
  - rewrite bool_decide_false.
    2: { intros E%rootp_elem. apply NoDup_cons in Hnd as [Hn _]. set_solver. }
    unfold addrspace_node_prev. rewrite (threads_prev _ _ _ _ T). simpl.
    unfold last_of. destruct (before c) as [|b bs _] using rev_ind; [done|].
    rewrite last_snoc. by destruct bs.
  - rewrite bool_decide_true by done. rewrite app_assoc, last_of_snoc.
    destruct ((before c ++ elems l) ++ [p]) eqn:E; [|done]. by apply app_eq_nil in E as [_ ?].
Qed.

(** ** Insertion into a hole of the tree *)
Lemma insert_hole_ok (st : address_space) c node added d :
  zip st c Leaf -> hok (plug c Leaf) -> node ∉ celems c -> is_Some (nodes st !! node) ->
  (forall st1, zip st1 c (Node Leaf node 1 Leaf) -> client st1 = client st ->
     client (avlnode_update added node st1) = Ok d) ->
  threads (lists d) (before c ++ node :: after c) ->
  (forall q, prev (lists d) (Some q) <> None) -> (forall q, range_wf (node_range d q)) ->
  (forall q, q ∈ before c ++ node :: after c -> 0 < size (node_range d q)) ->
  in_order (node_range d) (before c ++ node :: after c) ->
  exists st' tr' d', insert_at_loc node (ctx_top c) (ctx_link c) (Some avltree_update) added st = Ok st' /\
  space_ok st' tr' d' /\ elems tr' = before c ++ node :: after c /\ node_range d' = node_range d.
Proof.
  intros Z Hok Hn Hm Ha T L W S O.
  destruct (insert_at_loc_ok (Some avltree_update) added node st c Leaf Z Hok Hn Hm)
    as (st1 & st' & E & Z' & Hok' & Z1 & C1 & K).
  specialize (Ha st1 Z1 C1).
  destruct (K (same_space d) (update_keeps d L W)) as (d' & Ed & El & Er).
  { rewrite Ha. by exists d. }
  exists st', (fixup_fun c (Node Leaf node 1 Leaf)), d'. split; [done|].
  rewrite elems_fixup. split_and!; [|done..].
  split; rewrite ?elems_fixup, ?El, ?Er; done.
Qed.

Lemma in_order_insert rg a node b : in_order rg (a ++ b) ->
  (forall p, p ∈ a -> range_end (rg p) <= front (rg node)) ->
  (forall p, p ∈ b -> range_end (rg node) <= front (rg p)) -> in_order rg (a ++ node :: b).
Proof.
  unfold in_order. rewrite !StronglySorted_app. intros (Hab & Sa & Sb) Ha Hb. split_and!; [|done|].
  - intros p q Hp [->|Hq]%elem_of_cons; [by apply Ha|by apply Hab].
  - constructor; [done|]. by apply Forall_forall.
Qed.

Lemma update_stuck : keeps (fun c => c = Undef) (Some avltree_update).
Proof. by intros p m c _ ->. Qed.

(** ** addrspace_add_node *)

(** The insertion with both callbacks, followed by the check that none failed. *)
Definition add_at (node : positive) (c : ctx) (t : address_space) : outcome (bool * address_space) :=
  callbacks_done (
    t ← insert_at_loc node (ctx_top c) (ctx_link c) (Some avltree_update) (Some add_node_cb) t;
    Ok (true, t)).

(** Nothing to link behind: the callback dereferences NULL. *)
Lemma add_at_front (t : address_space) d c node : zip t c Leaf -> hok (plug c Leaf) ->
  node ∉ celems c -> is_Some (nodes t !! node) -> client t = Ok d ->
  threads (lists d) (before c ++ after c) -> before c = [] -> after c <> [] ->
  add_at node c t = Undef.
Proof.
  intros Z Hok Hn Hm Ec T Eb Ea.
  destruct (insert_at_loc_ok (Some avltree_update) (Some add_node_cb) node t c Leaf Z Hok Hn Hm)
    as (st1 & st' & E & _ & _ & Z1 & C1 & K).
  unfold add_at. rewrite E. simpl. rewrite (K _ update_stuck); [done|]. simpl.
  rewrite C1, Ec, (add_node_cb_ok _ d c node 1 Z1 T), Eb. by destruct (after c).
Qed.

Lemma add_at_ok (t : address_space) d c node : zip t c Leaf -> hok (plug c Leaf) ->
  node ∉ celems c -> is_Some (nodes t !! node) -> client t = Ok d ->
  threads (lists d) (before c ++ after c) -> (before c = [] -> after c = []) ->
  (forall q, prev (lists d) (Some q) <> None) -> (forall q, range_wf (node_range d q)) ->
  (forall q, q ∈ before c ++ node :: after c -> 0 < size (node_range d q)) ->
  in_order (node_range d) (before c ++ node :: after c) ->
  exists t' tr' d', add_at node c t = Ok (true, t') /\
  space_ok t' tr' d' /\ elems tr' = before c ++ node :: after c /\ node_range d' = node_range d.
Proof.
  intros Z Hok Hn Hm Ec T Hne L W S O.
  assert (NoDup (before c ++ node :: after c)) as Hnd.
  { pose proof (z_nodup _ _ _ Z) as Hnd. simpl in Hnd. rewrite celems_perm in Hnd, Hn.
    rewrite <- Permutation_middle. by constructor. }
  destruct (list_add_threads (lists d) (before c) node (after c) T Hnd) as (l' & El & T').
  destruct (insert_hole_ok t c node (Some add_node_cb) (with_lists l' d) Z Hok Hn Hm)
    as (t' & tr' & d' & E & Sp & Ee & Er); [|done| |done..|].
  - intros st1 Z1 C1. simpl. rewrite C1, Ec, (add_node_cb_ok _ d c node 1 Z1 T), El. simpl.
    destruct (before c), (after c); try done. by discriminate Hne.
  - intros q. by apply (list_add_links _ _ _ _ _ El).
  - exists t', tr', d'. split; [|done]. unfold add_at. rewrite E. simpl. by rewrite (so_client _ _ _ Sp).
Qed.

(** The answer of the whole operation, by where the new range lies. *)
Lemma add_node_cases t tr d node : space_ok t tr d -> node ∉ elems tr -> is_Some (nodes t !! node) ->
  0 < size (node_range d node) ->
  (addrspace_add_node node t = Ok (false, t) /\
   exists q, q ∈ elems tr /\ overlap (node_range d node) (node_range d q)) \/
  exists a b, elems tr = a ++ b /\
    (forall q, q ∈ a -> range_end (node_range d q) <= front (node_range d node)) /\
    (forall q, q ∈ b -> range_end (node_range d node) <= front (node_range d q)) /\
    ((a = [] /\ b <> [] /\ addrspace_add_node node t = Undef) \/
     ((a = [] -> b = []) /\ exists t' tr' d', addrspace_add_node node t = Ok (true, t') /\
      space_ok t' tr' d' /\ elems tr' = a ++ node :: b /\ node_range d' = node_range d)).
Proof.
  intros [Z Hok Ec T L W S O] Hn Hm Sn.
  assert (forall q, q ∈ elems tr -> _) as C
    by exact (fun q Hq => avltree_compare_spec d node q (W _) (W _) Sn (S q Hq)).
  pose proof (ins_ctx_splits (avltree_compare d node) tr []) as P. simpl in P.
  specialize (P (in_order_splits d node _ O W Sn S) ltac:(set_solver) ltac:(set_solver)).
  destruct (insert_loc_ok (avltree_compare d node) tr [] (path_fuel t) t Z) as [Hloc Hplug].
  { pose proof (holds_size _ _ Z). unfold path_fuel. lia. }
  cbn [ctx_top ctx_link] in Hloc. assert (root t = rootp tr) as Er by apply Z. rewrite <- Er in Hloc.
  destruct (ins_ctx (avltree_compare d node) [] tr) as [c|]; simpl.
  2: { left. unfold addrspace_add_node, callbacks_done, avltree_insert.
       rewrite Ec, outcome_bind_ok, Hloc. simpl. rewrite Ec. split; [done|].
       destruct P as (q & Hq & E). exists q. split; [done|]. specialize (C q Hq). naive_solver lia. }
  right. specialize (Hplug c eq_refl). simpl in Hplug. destruct P as [Pb Pa].
  assert (addrspace_add_node node t = add_at node c t) as ->.
  { unfold addrspace_add_node, avltree_insert. by rewrite Ec, outcome_bind_ok, Hloc. }
  assert (zip t c Leaf) as Zc by (apply zip_plug; by rewrite Hplug).
  assert (elems tr = before c ++ after c) as Et by (rewrite <- Hplug; apply (elems_plug c Leaf)).
  rewrite <- Hplug in Hok. rewrite Et in *. exists (before c), (after c).
  assert (node ∉ celems c) as Hn' by by rewrite celems_perm.
  assert (forall q, q ∈ before c -> range_end (node_range d q) <= front (node_range d node)) as Hb.
  { intros q Hq. specialize (Pb q Hq). specialize (C q ltac:(apply elem_of_app; by left)). naive_solver lia. }
  assert (forall q, q ∈ after c -> range_end (node_range d node) <= front (node_range d q)) as Ha.
  { intros q Hq. specialize (Pa q Hq). specialize (C q ltac:(apply elem_of_app; by right)). naive_solver lia. }
  split_and!; [done..|]. destruct (decide (before c = [] /\ after c <> [])) as [[Eb Ea]|Hd].
  - left. split_and!; [done..|]. by apply (add_at_front t d).
  - right. assert (before c = [] -> after c = []) as Hne.
    { intros Eb. destruct (decide (after c = [])); [done|]. by destruct Hd. }
    split; [done|]. apply add_at_ok; try done.
    + intros q [Hq|[->|Hq]%elem_of_cons]%elem_of_app; [|done|]; apply S, elem_of_app; auto.
    + by apply in_order_insert.
Qed.
