(* ===== verification/AddrFind.v ===== *)
(** * Address spaces: the search for a hole

    [find_from_start] of lib/adt/addrspace.c always ends, fails no assertion
    and answers an aligned address where no node of the tree lies. *)
From stdpp Require Import functions sorting.
From S2P Require Import Prelude CArith Range AvlTree AvlTreeInv AddrSpace AddrSpaceInv.

Lemma range_has_ok r o : range_wf r -> in_u 64 (front o) ->
  exists b, range_has r o = Ok b /\
  (b = true <-> front r <= front o < range_end r /\ front o + size o <= range_end r).
Proof.
  intros Hr Ho. unfold range_has, range_end.
  pose proof (range_has_loc_iff r (front o) Hr Ho) as H.
  unfold elem_of, elem_of_range, in_range in H. unfold range_wf in Hr.
  destruct (range_has_loc r (front o)) eqn:E; simpl.
  - destruct H as [H _]. specialize (H eq_refl). unfold range_index_for_loc. rewrite E. simpl.
    unfold range_has_index, index_in_bounds. rewrite sub_small by lia.
    rewrite (proj2 (Z.ltb_lt _ _)) by lia. simpl. eexists. split; [done|].
    rewrite sub_small by lia. rewrite Z.geb_leb, Z.leb_le. lia.
  - exists false. split; [done|]. split; [done|]. intros ?. apply H. lia.
Qed.

Section find.
Context (in_range : range) (size align : Z) (k : Z).
Hypothesis in_range_ok : range_wf in_range.
Hypothesis size_ok : in_u 64 size.
Hypothesis align_ok : 0 <= k < 64 /\ align = 2 ^ k.
Context (t : address_space) (tr : tree) (d : addrspace_node).
Hypothesis space : space_ok t tr d.
(** The end of every node can be aligned. *)
Hypothesis ends_ok : forall q, q ∈ elems tr -> range_end (node_range d q) + align <= 2 ^ 64.

(** The end of what precedes a place of the sequence. *)
Definition end_before (a : list positive) : Z :=
  match last a with Some q => range_end (node_range d q) | None => 0 end.

(** [addr] is a free place between the nodes [a] and the nodes [b]. *)
Definition hole_at (a b : list positive) (addr : Z) : Prop :=
  (align | addr) /\ in_u 64 addr /\ addr + size < 2 ^ 64 /\
  (forall q, q ∈ a -> range_end (node_range d q) <= addr) /\
  (forall q, q ∈ b -> addr + size <= front (node_range d q)) /\
  (a = [] \/ b <> [] -> front in_range <= addr /\ addr + size <= range_end in_range).
(** The answers. *)
Definition found (addr : Z) (prev : option positive) : Prop :=
  (addr = ADDRSPACE_INVALID_ADDR /\ prev = None) \/
  exists a b, elems tr = a ++ b /\ prev = last a /\ hole_at a b addr.

Lemma last_of_last a : last_of None a = last a.
Proof. unfold last_of. by destruct (last a). Qed.

Lemma node_prev a p b : elems tr = a ++ p :: b -> addrspace_node_prev p d = Ok (last a).
Proof.
  intros E. unfold addrspace_node_prev. pose proof (so_list _ _ _ space) as T. rewrite E in T.
  by rewrite (threads_prev _ _ _ _ T), last_of_last.
Qed.

Lemma end_before_ok a : prev_end_of (last a) d = Ok (end_before a).
Proof.
  unfold prev_end_of, end_before. destruct (last a) as [q|]; [|done].
  apply range_get_end_ok, (so_wf _ _ _ space).
Qed.

Lemma end_before_bounds a b : elems tr = a ++ b ->
  0 <= end_before a /\ end_before a + align <= 2 ^ 64 /\
  (forall q, q ∈ a -> range_end (node_range d q) <= end_before a) /\
  (forall q, q ∈ b -> end_before a <= front (node_range d q)).
Proof.
  intros E. pose proof (so_order _ _ _ space) as O. pose proof (so_wf _ _ _ space) as W.
  pose proof (so_size _ _ _ space) as S. rewrite E in O, S.
  apply StronglySorted_app in O as (Oab & Oa & _). destruct align_ok as [Hk Ea].
  pose proof (pow2_lt k 64 ltac:(lia) ltac:(lia)). unfold end_before.
  destruct a as [|x a _] using rev_ind; simpl.
  - split_and!; [done|lia|set_solver|]. intros q _. apply W.
  - rewrite last_snoc. apply StronglySorted_app in Oa as (Oa & _).
    assert (x ∈ elems tr) as Hx by (rewrite E; set_solver). specialize (ends_ok x Hx).
    pose proof (W x) as Wx. split_and!; [unfold range_wf, range_end in *; lia|lia| |].
    + intros q [Hq| ->%list_elem_of_singleton]%elem_of_app; [|done].
      specialize (Oa q x Hq ltac:(left)). specialize (S x ltac:(set_solver)). unfold range_end in *. lia.
    + intros q Hq. apply Oab; [set_solver|done].
Qed.

(** A node of the tree, seen from its place. *)
Lemma zip_at c s : tr = plug c s -> zip t c s.
Proof. intros ->. apply zip_plug, space. Qed.
Lemma elems_at c l p h r : tr = plug c (Node l p h r) ->
  elems tr = (before c ++ elems l) ++ p :: elems r ++ after c.
Proof. intros ->. rewrite elems_plug. simpl. by rewrite <- !app_assoc. Qed.
Lemma get_at c l p h r : tr = plug c (Node l p h r) ->
  get p t = Ok {| parent := ctx_top c; left := rootp l; right := rootp r; height := h |}.
Proof. intros E%zip_at. by rewrite (get_ok _ _ _ (zip_node _ _ _ _ _ _ E)). Qed.

(** ** Climbing: from a node to the first ancestor on its right *)

(** What is left to visit above a place: the right subtrees of the ancestors
    reached from the left. *)
Fixpoint rights (c : ctx) : nat :=
  match c with [] => 0 | FL _ _ r :: c => length (elems r) + rights c | FR _ _ _ :: c => rights c end.

Lemma climb_ok : forall c l0 p h0 r0 fuel, tr = plug c (Node l0 p h0 r0) -> (length c < fuel)%nat ->
  climb fuel p t = Ok None \/
  exists c' l q h r, climb fuel p t = Ok (Some q) /\ tr = plug c' (Node l q h r) /\
    (length c' < length c)%nat /\ (length (elems r) + rights c' <= rights c)%nat.
Proof.
  induction c as [|f c IH]; intros l0 p h0 r0 fuel E Hf; (destruct fuel as [|fuel]; [simpl in Hf; lia|]);
    simpl; unfold get_parent; rewrite (get_at _ _ _ _ _ E); simpl; [by left|].
  simpl in Hf. destruct f as [q h r|l q h]; simpl in E; simpl; unfold get_left;
    rewrite (get_at _ _ _ _ _ E); simpl.
  - right. rewrite bool_decide_true by done. exists c, (Node l0 p h0 r0), q, h, r.
    split_and!; [done..|lia|lia].
  - rewrite bool_decide_false.
    2: { intros El%rootp_elem. pose proof (z_nodup _ _ _ (zip_at _ _ E)) as Hnd.
         apply NoDup_app in Hnd as (Hnd & _). apply NoDup_app in Hnd as (_ & Hd & _).
         apply (Hd p El). set_solver. }
    destruct (IH _ _ _ _ fuel E ltac:(lia)) as [Ec|(c' & l' & q' & h' & r' & Ec & E' & H1 & H2)].
    + by left.
    + right. exists c', l', q', h', r'. split_and!; [done..|lia|lia].
Qed.

Lemma path_fuel_at c s : tr = plug c s -> (length c + length (elems s) < path_fuel t)%nat.
Proof. intros E%zip_at%zip_fuel. unfold path_fuel. lia. Qed.

(** ** The two ways to succeed *)
Lemma align_up_ends e : 0 <= e -> e + align <= 2 ^ 64 -> align_up e align = Ok (Some (ceil_mult e align)) /\
  e <= ceil_mult e align < 2 ^ 64 /\ (align | ceil_mult e align).
Proof.
  intros H0 H. destruct align_ok as [Hk ->]. pose proof (pow2_pos k ltac:(lia)) as Hp.
  pose proof (ceil_mult_spec e (2 ^ k) Hp) as [Hc Hd].
  rewrite align_up_eq by (unfold_ints; lia). rewrite (proj2 (Z.ltb_lt _ _)) by lia.
  split_and!; [done|lia..|done].
Qed.

Lemma space_after_last_ok : tr <> Leaf -> exists addr prev,
  space_after_last in_range size align d = Ok (TRAVERSAL_DONE addr prev) /\ found addr prev.
Proof.
  intros Ht. unfold space_after_last. pose proof (so_list _ _ _ space) as T.
  rewrite (seg_prev _ _ _ _ T). simpl. rewrite last_of_last.
  assert (elems tr <> []) as Hne by (destruct tr as [|]; [done|]; intros [_ ?]%app_eq_nil; done).
  pose proof (end_before_bounds (elems tr) [] (eq_sym (app_nil_r _))) as (B0 & B1 & B2 & _).
  pose proof (end_before_ok (elems tr)) as Ep.
  destruct (last (elems tr)) as [x|] eqn:El; [|by apply last_None in El]. simpl in Ep |- *. rewrite Ep. simpl.
  rewrite range_get_end_ok by done. simpl.
  assert (found ADDRSPACE_INVALID_ADDR None) as Hi by by left.
  destruct (_ >=? _); [eauto|]. destruct (align_up_ends _ B0 B1) as (-> & C1 & C2). simpl.
  destruct (Z.ltb_spec (ceil_mult (end_before (elems tr)) align + size) (2 ^ 64)); simpl; [|eauto].
  eexists _, _. split; [done|]. right. exists (elems tr), []. rewrite app_nil_r.
  split_and!; [done..|]. split_and!; [done|unfold_ints; lia|lia| |set_solver|].
  - intros q Hq. specialize (B2 q Hq). lia.
  - intros [Hc|Hc]; [|done]. by rewrite Hc in El.
Qed.

(** The hole in front of a node, when it fits. *)
Lemma hole_before_ok a p b : elems tr = a ++ p :: b ->
  exists aligned hole b1 b2, align_up_assert (end_before a) align = Ok aligned /\
  range_create_end (end_before a) (front (node_range d p)) = Ok hole /\
  range_has hole (RANGE_INIT aligned size) = Ok b1 /\
  range_has in_range (RANGE_INIT aligned size) = Ok b2 /\
  (b1 && b2 = true -> found aligned (last a)).
Proof.
  intros E. pose proof (end_before_bounds a (p :: b) E) as (B0 & B1 & B2 & B3).
  destruct (align_up_ends _ B0 B1) as (Ea & C1 & C2).
  pose proof (so_wf _ _ _ space p) as Wp. specialize (B3 p ltac:(left)) as B3p.
  set (al := ceil_mult (end_before a) align) in *.
  set (hole := RANGE_INIT (end_before a) (front (node_range d p) - end_before a)).
  assert (range_wf hole) as Wh by (unfold range_wf in *; simpl; lia).
  destruct (range_has_ok hole (RANGE_INIT al size) Wh) as (b1 & E1 & H1); [simpl; unfold_ints; lia|].
  destruct (range_has_ok in_range (RANGE_INIT al size) in_range_ok) as (b2 & E2 & H2); [simpl; unfold_ints; lia|].
  exists al, hole, b1, b2. split_and!; [| |done..|].
  - unfold align_up_assert. by rewrite Ea.
  - unfold range_create_end. rewrite (proj2 (Z.leb_le _ _)) by done. simpl.
    by rewrite sub_small by (unfold range_wf in *; lia).
  - destruct b1, b2; try done. intros _. destruct H1 as [H1 _], H2 as [H2 _].
    specialize (H1 eq_refl) as [H1 H1']. specialize (H2 eq_refl) as [H2 H2'].
    unfold range_end in H1, H1', H2, H2'. simpl in H1, H1', H2, H2'.
    right. exists a, (p :: b). split_and!; [done..|].
    split_and!; [done|unfold_ints; lia|unfold range_wf in *; lia| | |].
    + intros q Hq. specialize (B2 q Hq). lia.
    + intros q [->|Hq]%elem_of_cons; [lia|]. pose proof (so_order _ _ _ space) as O. rewrite E in O.
      apply StronglySorted_app in O as (_ & _ & [_ O]%StronglySorted_inv). rewrite Forall_forall in O.
      assert (p ∈ elems tr) as Hp by (rewrite E; set_solver).
      specialize (O q Hq). unfold range_end in O. pose proof (so_size _ _ _ space p Hp). lia.
    + intros _. unfold range_end. lia.
Qed.

(** ** The traversal from a node *)
Definition below (n : nat) (r : traversal_result) : Prop :=
  match r with
  | TRAVERSAL_DONE addr prev => found addr prev
  | TRAVERSAL_CONTINUE q => exists c l h r, tr = plug c (Node l q h r) /\
      (length (elems (Node l q h r)) + rights c <= n)%nat
  end.

Lemma travserse_tree_ok : forall fuel c l p h r, tr = plug c (Node l p h r) -> (length c < fuel)%nat ->
  exists res, travserse_tree in_range size align fuel p d t = Ok res /\
    below (length (elems r) + rights c) res.
Proof.
  induction fuel as [|fuel IH]; intros c l p h r E Hf; [lia|].
  pose proof (elems_at _ _ _ _ _ E) as Ee. cbn [travserse_tree].
  rewrite (node_prev _ _ _ Ee), outcome_bind_ok, end_before_ok, outcome_bind_ok.
  destruct (range_is_loc_above _ _).
  { eexists. split; [done|]. by left. }
  destruct (hole_before_ok _ _ _ Ee) as (al & hole & b1 & b2 & -> & E2 & E3 & E4 & Hf1).
  rewrite outcome_bind_ok. cbv zeta. rewrite E2, outcome_bind_ok, E3, outcome_bind_ok.
  assert ((if b1 then range_has in_range (RANGE_INIT al size) else Ok false) = Ok (b1 && b2)) as ->
    by by destruct b1.
  rewrite outcome_bind_ok. destruct (b1 && b2); [eexists; split; [done|by apply Hf1]|].
  unfold get_right. rewrite (get_at _ _ _ _ _ E), !outcome_bind_ok. cbn [right].
  set (up := _ ≫= _). assert (exists res, up = Ok res /\ below (length (elems r) + rights c) res) as Hup.
  { pose proof (path_fuel_at _ _ E). subst up.
    destruct (climb_ok c l p h r (path_fuel t) E ltac:(lia))
      as [->|(c' & l' & q & h' & r' & -> & E' & L1 & L2)]; rewrite outcome_bind_ok; cbv beta iota.
    - destruct space_after_last_ok as (addr & prev & -> & Hd); [|by eexists].
      intros Et. rewrite Et in Ee. simpl in Ee. by apply app_cons_not_nil in Ee.
    - destruct (IH c' l' q h' r' E' ltac:(lia)) as (res & -> & Hb). exists res. split; [done|].
      destruct res as [|q']; [done|]. destruct Hb as (c2 & l2 & h2 & r2 & E2' & L3).
      exists c2, l2, h2, r2. split; [done|lia]. }
  destruct r as [|rl q rh rr]; simpl rootp; cbv iota; [done|].
  destruct (_ >=? _); [|done]. eexists. split; [done|].
  exists (FR l p h :: c), rl, rh, rr. split; [done|]. simpl rights. lia.
Qed.

(** ** The whole search *)
Lemma find_from_ok : forall fuel c l p h r, tr = plug c (Node l p h r) ->
  (length (elems (Node l p h r)) + rights c <= fuel)%nat ->
  exists addr prev, find_from in_range size align fuel p d t = Ok (addr, prev) /\ found addr prev.
Proof.
  induction fuel as [|fuel IH]; intros c l p h r E Hf; [simpl in Hf; rewrite length_app in Hf; simpl in Hf; lia|].
  simpl in Hf. rewrite length_app in Hf. simpl in Hf.
  cbn [find_from]. unfold get_left. rewrite (get_at _ _ _ _ _ E), !outcome_bind_ok. cbn [left].
  set (go := _ ≫= _). assert (exists addr prev, go = Ok (addr, prev) /\ found addr prev) as Hgo.
  { pose proof (path_fuel_at _ _ E). subst go.
    destruct (travserse_tree_ok (path_fuel t) c l p h r E ltac:(lia)) as (res & -> & Hb).
    rewrite outcome_bind_ok. destruct res as [addr prev|q]; [by exists addr, prev|].
    destruct Hb as (c' & l' & h' & r' & E' & L). apply (IH c' l' q h' r' E'). lia. }
  destruct l as [|ll q lh lr]; simpl rootp; cbv iota; [done|].
  destruct (_ && _); [|done]. apply (IH (FL p h r :: c) ll q lh lr); [done|]. simpl in Hf |- *. lia.
Qed.

(** In an empty space any aligned place of the range will do. *)
Lemma find_from_start_ok : front in_range + align <= 2 ^ 64 -> exists addr prev,
  find_from_start in_range size align d t = Ok (addr, prev) /\ found addr prev.
Proof.
  intros Hal. unfold find_from_start. assert (root t = rootp tr) as -> by apply space.
  assert (tr = Leaf \/ exists l p h r, tr = Node l p h r) as [E|(l & p & h & r & E)]
    by (clear; destruct tr; eauto 10).
  - rewrite E; simpl rootp. cbv iota. destruct (range_wf_u _ in_range_ok) as [Uf _].
    destruct (align_up_ends (front in_range) ltac:(unfold_ints; lia) Hal) as (Ea & C1 & C2).
    unfold align_up_assert. rewrite Ea, !outcome_bind_ok.
    destruct (range_has_ok in_range (RANGE_INIT (ceil_mult (front in_range) align) size) in_range_ok)
      as (b & -> & Hb); [simpl; unfold_ints; lia|]. rewrite outcome_bind_ok.
    destruct b; simpl; eexists _, _; (split; [done|]); [right|by left].
    simpl in Hb. destruct Hb as [Hb _]. specialize (Hb eq_refl). exists [], []. rewrite E. simpl elems.
    unfold range_wf, range_end in *. unfold_ints.
    split_and!; [done..|]. split_and!; [done|unfold_ints; lia|lia|set_solver|set_solver|unfold range_end; lia].
  - rewrite E; simpl rootp. cbv iota.
    apply (find_from_ok (path_fuel t) [] l p h r E).
    pose proof (path_fuel_at [] _ E). cbn [rights length] in *. lia.
Qed.
End find.

(** ** addrspace_find_space_and_add_node *)

Lemma split_unique (a b a' b' : list positive) q : NoDup (a ++ q :: b) ->
  a ++ q :: b = a' ++ q :: b' -> a = a' /\ b = b'.
Proof.
  revert a'. induction a as [|x a IH]; intros [|y a'] Hnd E; simplify_eq/=; [done|..].
  - apply NoDup_cons in Hnd as [Hq _]. set_solver.
  - apply NoDup_cons in Hnd as [Hq _]. set_solver.
  - apply NoDup_cons in Hnd as [_ Hnd]. destruct (IH a' Hnd) as [-> ->]; [done..|]. done.
Qed.

(** The node with its new place still outside of the space. *)
Section add.
Context (t : address_space) (tr : tree) (d : addrspace_node) (node : positive) (addr : Z).
Hypothesis space : space_ok t tr d.
Hypothesis node_new : node ∉ elems tr.
Hypothesis node_mapped : is_Some (nodes t !! node).
Abbreviation len := (size (node_range d node)).
Hypothesis len_ok : 0 < len.
Abbreviation d0 := (with_front node addr d).

Lemma front_wf : 0 <= addr -> addr + len < 2 ^ 64 -> forall q, range_wf (node_range d0 q).
Proof.
  intros H0 H q. simpl. destruct (decide (node = q)) as [->|].
  - rewrite fn_lookup_insert. unfold range_wf. simpl. lia.
  - rewrite fn_lookup_insert_ne by done. apply space.
Qed.
Lemma front_other q : q ∈ elems tr -> node_range d0 q = node_range d q.
Proof. intros Hq. simpl. rewrite fn_lookup_insert_ne; [done|]. by intros ->. Qed.
Lemma front_node : node_range d0 node = RANGE_INIT addr len.
Proof. simpl. by rewrite fn_lookup_insert. Qed.

Lemma front_order a b : elems tr = a ++ b ->
  (forall q, q ∈ a -> range_end (node_range d q) <= addr) ->
  (forall q, q ∈ b -> addr + len <= front (node_range d q)) ->
  in_order (node_range d0) (a ++ node :: b).
Proof.
  intros E Ha Hb. apply in_order_insert.
  - pose proof (so_order _ _ _ space) as O. rewrite E in O. unfold in_order in *.
    assert (forall q, q ∈ a ++ b -> node_range d0 q = node_range d q) as F
      by (intros q Hq; apply front_other; by rewrite E).
    clear -O F. induction O as [|x l O IH Hx]; constructor.
    + apply IH. intros q Hq. apply F. by right.
    + rewrite Forall_forall in *. intros y Hy. rewrite !F; [auto|by right|by left].
  - intros q Hq. rewrite front_node, front_other by (rewrite E; set_solver). by apply Ha.
  - intros q Hq. rewrite front_node, front_other by (rewrite E; set_solver). by apply Hb.
Qed.

Lemma front_size a b : elems tr = a ++ b ->
  forall q, q ∈ a ++ node :: b -> 0 < size (node_range d0 q).
Proof.
  intros E q Hq. destruct (decide (q = node)) as [->|]; [by rewrite front_node|].
  assert (q ∈ elems tr) by (rewrite E; set_solver). rewrite front_other by done. by apply space.
Qed.

Lemma nodup_new a b : elems tr = a ++ b -> NoDup (a ++ node :: b).
Proof.
  intros E. pose proof (z_nodup _ _ _ (so_tree _ _ _ space)) as Hnd. simpl in Hnd.
  rewrite app_nil_r in Hnd. rewrite <- Permutation_middle. rewrite E in *. by constructor.
Qed.

Abbreviation placed a b r := (exists t' tr' d', r = Ok (addr, t') /\ space_ok t' tr' d' /\
  elems tr' = a ++ node :: b /\ node_range d' = node_range d0).

(** Behind a node without right child. *)
Lemma add_behind a b q : elems tr = a ++ b -> last a = Some q ->
  0 <= addr -> addr + len < 2 ^ 64 ->
  (forall q, q ∈ a -> range_end (node_range d q) <= addr) ->
  (forall q, q ∈ b -> addr + len <= front (node_range d q)) ->
  (exists n, nodes t !! q = Some n /\ right n = None) ->
  placed a b (l ← list_add (Some q) (Some node) (lists d0);
    let t := set_client (Ok (with_lists l d0)) t in
    callbacks_done
      (t ← avltree_insert_at_loc node (Some q) (LRight q) (Some avltree_update) t; Ok (addr, t))).
Proof.
  intros E El H0 H1 Ha Hb (n & Hq & Hr).
  destruct (list_add_threads (lists d) a node b) as (l' & E' & T').
  { rewrite <- E. apply space. } { by apply nodup_new. }
  rewrite last_of_last, El in E'. cbn [with_front lists]. rewrite E', outcome_bind_ok. cbv zeta.
  assert (q ∈ elems tr) as Hin by (rewrite E; apply elem_of_app; left; by apply last_Some_elem_of).
  destruct (elem_plug _ _ Hin) as (c & l & h & r & Etr). pose proof (so_tree _ _ _ space) as Z.
  rewrite Etr in Z. apply zip_plug in Z. pose proof (zip_node _ _ _ _ _ _ Z) as Hn.
  rewrite Hq in Hn. injection Hn as ->. simpl in Hr. destruct r as [|]; [|done].
  set (t1 := set_client _ t).
  assert (zip t1 (FR l q h :: c) Leaf) as Z1.
  { apply zip_up. simpl. by apply (zip_ext t). }
  assert (a = before (FR l q h :: c) /\ b = after c) as [Ea Eb].
  { apply last_Some in El as [a' ->]. rewrite <- app_assoc in E. simpl in E. simpl.
    pose proof (z_nodup _ _ _ (so_tree _ _ _ space)) as Hnd. simpl in Hnd. rewrite app_nil_r in Hnd.
    rewrite E in Hnd. rewrite Etr, elems_plug in E. simpl in E. rewrite <- !app_assoc in E. simpl in E.
    rewrite app_assoc in E. symmetry in E. destruct (split_unique _ _ _ _ _ Hnd E) as [-> ->].
    by rewrite <- app_assoc. }
  change (Some q) with (ctx_top (FR l q h :: c)). change (LRight q) with (ctx_link (FR l q h :: c)).
  unfold avltree_insert_at_loc.
  destruct (insert_hole_ok t1 (FR l q h :: c) node None (with_lists l' d0))
    as (t' & tr' & d' & -> & Sp & Ee & Er); rewrite <- ?Ea; simpl after; rewrite <- ?Eb.
  - done.
  - simpl. rewrite <- Etr. apply space.
  - rewrite celems_perm, <- Ea. simpl after. by rewrite <- Eb, <- E.
  - done.
  - intros st1 _ C. simpl. by rewrite C.
  - done.
  - intros p. apply (list_add_links _ _ _ _ _ E'), space.
  - by apply front_wf.
  - by apply front_size.
  - by apply front_order.
  - exists t', tr', d'. unfold callbacks_done. simpl. rewrite (so_client _ _ _ Sp). simpl.
    split_and!; [done..| |done]. by rewrite Ee, <- Ea; simpl; rewrite <- Eb.
Qed.

(** In front of all nodes, or into an empty space. *)
Lemma first_place : (forall q, q ∈ elems tr -> avltree_compare d0 node q < 0) ->
  exists c, plug c Leaf = tr /\ before c = [] /\ after c = elems tr /\
  forall t1, holds t1 tr -> avltree_insert node (avltree_compare d0) (Some avltree_update) None t1 =
    (t ← insert_at_loc node (ctx_top c) (ctx_link c) (Some avltree_update) None t1; Ok (true, t)).
Proof.
  intros C.
  assert (splits (avltree_compare d0 node) (elems tr)) as Hs.
  { revert C. generalize (elems tr). clear. induction l as [|x l IH]; intros C; constructor.
    - apply IH. intros q Hq. apply C. by right.
    - apply Forall_forall. intros y Hy. pose proof (C x ltac:(left)). pose proof (C y ltac:(by right)). lia. }
  pose proof (ins_ctx_splits _ tr [] Hs ltac:(set_solver) ltac:(set_solver)) as P.
  destruct (ins_ctx (avltree_compare d0 node) [] tr) as [c|] eqn:Ec.
  2: { destruct P as (q & Hq & Eq). specialize (C q Hq). lia. }
  destruct (insert_loc_ok (avltree_compare d0 node) tr [] (path_fuel t) t (so_tree _ _ _ space)) as [_ Hplug].
  { pose proof (holds_size _ _ (so_tree _ _ _ space)). unfold path_fuel. lia. }
  specialize (Hplug c Ec). simpl in Hplug.
  assert (elems tr = before c ++ after c) as Et by (rewrite <- Hplug; apply (elems_plug c Leaf)).
  assert (before c = []) as Eb.
  { destruct (before c) as [|x l]; [done|]. destruct P as [P _]. specialize (P x ltac:(left)).
    specialize (C x ltac:(rewrite Et; left)). lia. }
  rewrite Eb in Et. exists c. split_and!; [done..|]. intros t1 Z.
  destruct (insert_loc_ok (avltree_compare d0 node) tr [] (path_fuel t1) t1 Z) as [Hloc _].
  { pose proof (holds_size _ _ Z). unfold path_fuel. lia. }
  cbn [ctx_top ctx_link] in Hloc. assert (root t1 = rootp tr) as Er by apply Z. rewrite <- Er in Hloc.
  unfold avltree_insert. by rewrite Hloc, outcome_bind_ok, Ec.
Qed.

Lemma add_first : 0 <= addr -> addr + len < 2 ^ 64 ->
  (forall q, q ∈ elems tr -> addr + len <= front (node_range d q)) ->
  placed (@nil positive) (elems tr) ('(result, t) ← callbacks_done
     (avltree_insert node (avltree_compare d0) (Some avltree_update) None (set_client (Ok d0) t));
   c_assert result;;
   d ← client t;
   l ← list_add None (Some node) (lists d);
   Ok (addr, set_client (Ok (with_lists l d)) t)).
Proof.
  intros H0 H1 Hb. pose proof (front_wf H0 H1) as W.
  destruct first_place as (c & Ep & Eb & Ea & Ei).
  { intros q Hq. pose proof (avltree_compare_spec d0 node q (W _) (W _)) as C. cbv zeta in C.
    rewrite front_node, front_other in C by done. specialize (C len_ok (so_size _ _ _ space q Hq)).
    specialize (Hb q Hq). pose proof (so_size _ _ _ space q Hq) as Sq.
    rewrite overlap_iff in C by done. unfold range_end in C. simpl in C. lia. }
  set (t1 := set_client _ t). assert (holds t1 tr) as Z by by apply (zip_ext t), space.
  rewrite (Ei t1 Z). clear Ei.
  destruct (insert_at_loc_ok (Some avltree_update) None node t1 c Leaf) as (st1 & st' & -> & Z' & Hok' & _ & C1 & K).
  { apply zip_plug. by rewrite Ep. } { rewrite Ep. apply space. }
  { rewrite celems_perm, Eb, Ea. done. } { done. }
  destruct (K (same_space d0)) as (d' & Ed & El & Er).
  { apply update_keeps; [apply space|done]. } { exists d0. simpl. by rewrite C1. }
  unfold callbacks_done. simpl. rewrite Ed. simpl. rewrite Ed. simpl. rewrite El.
  destruct (list_add_threads (lists d0) [] node (elems tr)) as (l' & E' & T').
  { apply space. } { by apply (nodup_new [] (elems tr)). }
  cbn [last_of last] in E'. change (last_of None []) with (@None positive) in E'. rewrite E'. simpl.
  assert (elems (fixup_fun c (Node Leaf node 1 Leaf)) = node :: elems tr) as Ee
    by (by rewrite elems_fixup, Eb, Ea).
  eexists _, _, (with_lists l' d'). split; [done|]. split_and!; [|done|done].
  split; rewrite ?Ee; try done.
  - by apply (zip_ext st').
  - intros q. apply (list_add_links _ _ _ _ _ E'), space.
  - intros q. simpl. rewrite Er. apply W.
  - intros q Hq. simpl. rewrite Er. by apply (front_size [] (elems tr)).
  - simpl. rewrite Er. apply (front_order [] (elems tr)); [done|set_solver|done].
Qed.

(** Behind a node with a right child: the subtree there is lost. *)
Lemma add_behind_loses c l q h r : tr = plug c (Node l q h r) ->
  0 <= addr -> addr + len < 2 ^ 64 ->
  exists l' t' tr' d',
    (l ← list_add (Some q) (Some node) (lists d0);
     let t := set_client (Ok (with_lists l d0)) t in
     callbacks_done
       (t ← avltree_insert_at_loc node (Some q) (LRight q) (Some avltree_update) t; Ok (addr, t)))
    = Ok (addr, t') /\
    holds t' tr' /\ elems tr' = (before c ++ elems l ++ [q]) ++ node :: after c /\
    client t' = Ok d' /\ lists d' = l' /\
    threads l' ((before c ++ elems l ++ [q]) ++ node :: elems r ++ after c).
Proof.
  intros E H0 H1. pose proof (so_tree _ _ _ space) as Z. rewrite E in Z. apply zip_plug in Z.
  assert (elems tr = (before c ++ elems l ++ [q]) ++ elems r ++ after c) as Ee.
  { rewrite E, elems_plug. simpl. rewrite <- !app_assoc. simpl. by rewrite <- ?app_assoc. }
  destruct (list_add_threads (lists d) (before c ++ elems l ++ [q]) node (elems r ++ after c)) as (l' & E' & T').
  { rewrite <- Ee. apply space. } { by apply nodup_new. }
  rewrite app_assoc, last_of_snoc in E'. cbn [with_front lists]. rewrite E', outcome_bind_ok. cbv zeta.
  set (t1 := set_client _ t).
  assert (zip t1 (FR l q h :: c) r) as Z1 by (apply zip_up; by apply (zip_ext t)).
  change (Some q) with (ctx_top (FR l q h :: c)). change (LRight q) with (ctx_link (FR l q h :: c)).
  unfold avltree_insert_at_loc.
  destruct (insert_at_loc_ok (Some avltree_update) None node t1 (FR l q h :: c) r Z1)
    as (st1 & st' & -> & Z' & _ & _ & C1 & K).
  - simpl. rewrite <- E. apply space.
  - intros Hn. apply node_new. rewrite Ee. rewrite celems_perm in Hn. simpl in Hn. set_solver.
  - done.
  - destruct (K (same_space (with_lists l' d0))) as (d' & Ed & El & Er).
    { apply update_keeps; [|by apply front_wf]. intros p. apply (list_add_links _ _ _ _ _ E'), space. }
    { exists (with_lists l' d0). simpl. by rewrite C1. }
    exists l', st', (fixup_fun (FR l q h :: c) (Node Leaf node 1 Leaf)), d'.
    unfold callbacks_done. simpl. rewrite Ed. split_and!; [done..| |done|done|done].
    exact (elems_fixup (FR l q h :: c) (Node Leaf node 1 Leaf)).
Qed.
End add.
