(* ===== verification/AddrSpaceThms.v ===== *)
(** * What an address space guarantees

    Properties of AddrSpace.v; the lemmas are in AddrSpaceInv.v and
    AddrFind.v. *)
From stdpp Require Import functions sorting.
From S2P Require Import Prelude CArith Range AvlTree AvlTreeInv AddrSpace AddrSpaceInv AddrFind.

(** ** Lemmas *)
Lemma find_space_cases t tr d node in_range align k :
  space_ok t tr d -> node ∉ elems tr -> is_Some (nodes t !! node) ->
  0 < size (node_range d node) -> range_wf in_range -> 0 <= k < 64 /\ align = 2 ^ k ->
  front in_range + align <= 2 ^ 64 ->
  (forall q, q ∈ elems tr -> range_end (node_range d q) + align <= 2 ^ 64) ->
  exists addr prev,
  find_from_start in_range (size (node_range d node)) align d t = Ok (addr, prev) /\
  ((addr = ADDRSPACE_INVALID_ADDR /\
    addrspace_find_space_and_add_node in_range node align t = Ok (ADDRSPACE_INVALID_ADDR, t)) \/
   exists a b, elems tr = a ++ b /\ prev = last a /\
     hole_at in_range (size (node_range d node)) align d a b addr /\
     ((forall q n, prev = Some q -> nodes t !! q = Some n -> right n = None) ->
      exists t' tr' d', addrspace_find_space_and_add_node in_range node align t = Ok (addr, t') /\
        space_ok t' tr' d' /\ elems tr' = a ++ node :: b /\
        node_range d' = <[node := RANGE_INIT addr (size (node_range d node))]> (node_range d))).
Proof.
  intros Sp Hn Hm Sn Wi Hk Hf He. destruct (range_wf_u _ (so_wf _ _ _ Sp node)) as [_ Us].
  destruct (find_from_start_ok in_range _ align k Wi Us Hk t tr d Sp He Hf) as (addr & prev & E & Hd).
  exists addr, prev. split; [done|]. destruct Hd as [[-> ->]|(a & b & Ee & -> & Ho)].
  - left. split; [done|]. unfold addrspace_find_space_and_add_node.
    by rewrite (so_client _ _ _ Sp), outcome_bind_ok, E.
  - right. exists a, b. split_and!; [done..|]. intros Hr.
    unfold hole_at in Ho. destruct Ho as (_ & Ua & Hs & Ha & Hb & _). unfold in_u in Ua.
    unfold addrspace_find_space_and_add_node. rewrite (so_client _ _ _ Sp), outcome_bind_ok, E, outcome_bind_ok.
    destruct (Z.eqb_spec addr ADDRSPACE_INVALID_ADDR) as [Hi|_]; [unfold ADDRSPACE_INVALID_ADDR in Hi; lia|].
    cbv zeta. destruct (last a) as [q|] eqn:El.
    + apply (add_behind t tr d node addr Sp Hn Hm Sn a b q); try done; [lia|].
      assert (q ∈ elems tr) as (c & l & h & r & Et)%elem_plug
        by (rewrite Ee; apply elem_of_app; left; by apply last_Some_elem_of).
      pose proof (so_tree _ _ _ Sp) as Z. rewrite Et in Z. apply zip_plug in Z.
      pose proof (zip_node _ _ _ _ _ _ Z) as Hq. eexists. split; [done|]. by apply (Hr q).
    + apply last_None in El as ->. simpl in Ee. rewrite <- Ee in *.
      apply (add_first t tr d node addr Sp Hn Hm Sn); [lia|done..].
Qed.

Lemma find_space_loses t tr d node in_range align addr q n r :
  space_ok t tr d -> node ∉ elems tr -> is_Some (nodes t !! node) ->
  0 < size (node_range d node) -> 0 <= addr -> addr + size (node_range d node) < 2 ^ 64 ->
  find_from_start in_range (size (node_range d node)) align d t = Ok (addr, Some q) ->
  q ∈ elems tr -> nodes t !! q = Some n -> right n = Some r ->
  exists t' tr' d' a lost b, addrspace_find_space_and_add_node in_range node align t = Ok (addr, t') /\
    elems tr = a ++ lost ++ b /\ r ∈ lost /\
    holds t' tr' /\ elems tr' = a ++ node :: b /\
    client t' = Ok d' /\ threads (lists d') (a ++ node :: lost ++ b).
Proof.
  intros Sp Hn Hm Sn H0 H1 E (c & l & h & rt & Et)%elem_plug Hq Hr.
  pose proof (so_tree _ _ _ Sp) as Z. rewrite Et in Z. apply zip_plug in Z.
  pose proof (zip_node _ _ _ _ _ _ Z) as Hq'. rewrite Hq in Hq'. injection Hq' as ->. simpl in Hr.
  destruct (add_behind_loses t tr d node addr Sp Hn Hm Sn c l q h rt Et H0 H1)
    as (l' & t' & tr' & d' & Eo & Z' & Ee & Ec & <- & T).
  exists t', tr', d', (before c ++ elems l ++ [q]), (elems rt), (after c).
  unfold addrspace_find_space_and_add_node. rewrite (so_client _ _ _ Sp), outcome_bind_ok, E, outcome_bind_ok.
  destruct (Z.eqb_spec addr ADDRSPACE_INVALID_ADDR) as [Hi|_]; [unfold ADDRSPACE_INVALID_ADDR in Hi; lia|].
  split_and!; [exact Eo| |by apply rootp_elem|done..].
  rewrite Et, elems_plug. simpl. rewrite <- !app_assoc. simpl. by rewrite <- ?app_assoc.
Qed.

Lemma remove_node_cases t tr d node : space_ok t tr d -> node ∈ elems tr ->
  exists t' tr' d' a b, addrspace_remove_node node t = Ok t' /\
    elems tr = a ++ node :: b /\ holds t' tr' /\ elems tr' = a ++ b /\
    client t' = Ok d' /\ node_range d' = node_range d /\ threads (lists d') (a ++ node :: b).
Proof.
  intros Sp (c & l & h & r & Et)%elem_plug. pose proof (so_tree _ _ _ Sp) as Z.
  rewrite Et in Z. apply zip_plug in Z. pose proof (so_hok _ _ _ Sp) as Hok. rewrite Et in Hok.
  destruct (avltree_delete_node_ok (Some avltree_update) t c l node h r Z Hok)
    as (t' & tr' & E & Z' & _ & Ee & K).
  destruct (K (same_space d)) as (d' & Ed & El & Er).
  { apply update_keeps; apply Sp. } { exists d. split; [apply Sp|done]. }
  exists t', tr', d', (before c ++ elems l), (elems r ++ after c).
  unfold addrspace_remove_node, callbacks_done. rewrite E. simpl. rewrite Ed. simpl.
  assert (elems tr = (before c ++ elems l) ++ node :: elems r ++ after c) as Es.
  { rewrite Et, elems_plug. simpl. by rewrite <- !app_assoc. }
  rewrite El, Ee, <- Es, <- app_assoc. split_and!; [done..|apply Sp].
Qed.

(** ** A concrete space *)
Definition ex_blank : avlnode := {| parent := None; left := None; right := None; height := 0 |}.
Definition ex_ranges : gmap positive range := list_to_map
  [(1%positive, RANGE_INIT 0x1000 0x1000); (2%positive, RANGE_INIT 0x4000 0x1000);
   (3%positive, RANGE_INIT 0x8000 0x1000); (4%positive, RANGE_INIT 0 0x1000)].
Definition ex_none : address_space :=
  {| nodes := list_to_map ((fun p => (p, ex_blank)) <$> [1; 2; 3; 4]%positive); root := None;
     client := Ok {| lists := list_init None unlinked;
                     node_range := fun p => default RANGE_EMPTY (ex_ranges !! p);
                     largest_free_to_prev := fun _ => 0 |} |}.
Definition ex_add (p : positive) (t : address_space) : address_space :=
  match addrspace_add_node p t with Ok (_, t') => t' | _ => t end.
Definition ex_space : address_space := ex_add 2 (ex_add 1 ex_none).

Lemma ex_ranges_ok q : range_wf (default RANGE_EMPTY (ex_ranges !! q)).
Proof.
  destruct (ex_ranges !! q) as [r|] eqn:E; simpl; [|by vm_compute].
  assert (map_Forall (fun _ r => range_wf r) ex_ranges) as H.
  { unfold ex_ranges. repeat (apply map_Forall_insert_2; [by vm_compute|]). apply map_Forall_empty. }
  apply (H q r E).
Qed.

Lemma ex_none_ok : exists d, space_ok ex_none Leaf d /\
  node_range d = (fun p => default RANGE_EMPTY (ex_ranges !! p)).
Proof.
  eexists. split; [split|].
  - split; simpl; [done|done|done|constructor].
  - done.
  - done.
  - by split.
  - intros q. simpl. rewrite fn_lookup_insert_ne by done. done.
  - apply ex_ranges_ok.
  - intros q ?%elem_of_nil. done.
  - constructor.
  - done.
Qed.

(** Adding behind the nodes there are. *)
Lemma ex_add_ok t tr d node : space_ok t tr d -> node ∉ elems tr -> is_Some (nodes t !! node) ->
  0 < size (node_range d node) ->
  Forall (fun q => range_end (node_range d q) <= front (node_range d node)) (elems tr) ->
  exists tr' d', space_ok (ex_add node t) tr' d' /\ elems tr' = elems tr ++ [node] /\
    node_range d' = node_range d.
Proof.
  intros Sp Hn Hm Sn Hl. rewrite Forall_forall in Hl. unfold ex_add.
  assert (forall q, q ∈ elems tr -> 0 < size (node_range d q)) as S by apply Sp.
  destruct (add_node_cases t tr d node Sp Hn Hm Sn) as [(_ & q & Hq & Ho)|(a & b & E & Ha & Hb & Hc)].
  { apply overlap_iff in Ho as [Ho _]; [|done|by apply S]. specialize (Hl q Hq). lia. }
  assert (b = []) as ->.
  { destruct b as [|q b]; [done|]. assert (q ∈ elems tr) as Hq by (rewrite E; set_solver).
    specialize (Hl q Hq). specialize (Hb q ltac:(left)). specialize (S q Hq). unfold range_end in *. lia. }
  destruct Hc as [(_ & ? & _)|(_ & t' & tr' & d' & -> & Sp' & E' & Er)]; [done|].
  exists tr', d'. split; [done|]. rewrite app_nil_r in E. by rewrite E, E'.
Qed.

Lemma ex_space_ok : exists tr d, space_ok ex_space tr d /\ elems tr = [1; 2]%positive /\
  node_range d = (fun p => default RANGE_EMPTY (ex_ranges !! p)).
Proof.
  destruct ex_none_ok as (d0 & S0 & R0).
  destruct (ex_add_ok ex_none Leaf d0 1 S0) as (t1 & d1 & S1 & E1 & R1).
  { apply not_elem_of_nil. } { vm_compute. eauto. } { rewrite R0. by vm_compute. } { constructor. }
  simpl in E1. rewrite R0 in R1.
  destruct (ex_add_ok (ex_add 1 ex_none) t1 d1 2 S1) as (t2 & d2 & S2 & E2 & R2).
  { rewrite E1. set_solver. } { vm_compute. eauto. } { rewrite R1. by vm_compute. }
  { rewrite E1, R1. repeat constructor. by vm_compute. }
  exists t2, d2. rewrite E2, E1, R2, R1. done.
Qed.

(** The node in front of all others. *)
Example ex_add_front : addrspace_add_node 4 ex_space = Undef.
Proof. by vm_compute. Qed.

(** The order of the tree and the order of the list. *)
Fixpoint inorder (fuel : nat) (p : option positive) (t : address_space) : list positive :=
  match fuel, p with
  | S fuel, Some p =>
      match nodes t !! p with
      | Some n => inorder fuel (left n) t ++ p :: inorder fuel (right n) t
      | None => []
      end
  | _, _ => []
  end.
Fixpoint linked (fuel : nat) (e : list_ref) (l : links) : list positive :=
  match fuel with
  | O => []
  | S fuel => match next l e with Some (Some q) => q :: linked fuel (Some q) l | _ => [] end
  end.
Definition orders (t : address_space) : list positive * list positive :=
  (inorder 5 (root t) t, match client t with Ok d => linked 5 None (lists d) | _ => [] end).

(** Room of 0x1000 bytes in [0x1000, 0x3000): behind node 1, in front of node 2,
    which is its right child. *)
Example ex_find_loses :
  match addrspace_find_space_and_add_node (RANGE_INIT 0x1000 0x2000) 3 0x1000 ex_space with
  | Ok (addr, t) => Some (addr, orders t)
  | _ => None
  end = Some (0x2000, ([1; 3], [1; 3; 2])%positive).
Proof. by vm_compute. Qed.

(** Three nodes back to back from 0x1000: the page in front of them is free, but
    the search does not go left of a node that does not lie above the range. *)
Definition ex_dense : address_space :=
  ex_add 3 (ex_add 2 (ex_add 1
    {| nodes := nodes ex_none; root := None;
       client := Ok {| lists := list_init None unlinked;
                       node_range := fun p => RANGE_INIT (Z.pos p * 0x1000) 0x1000;
                       largest_free_to_prev := fun _ => 0 |} |})).
Example ex_dense_orders : orders ex_dense = ([1; 2; 3], [1; 2; 3])%positive.
Proof. by vm_compute. Qed.
Example ex_find_misses :
  match addrspace_find_space_and_add_node (RANGE_INIT 0 0x4000) 4 0x1000 ex_dense with
  | Ok (addr, t) => Some (addr, orders t)
  | _ => None
  end = Some (ADDRSPACE_INVALID_ADDR, ([1; 2; 3], [1; 2; 3])%positive).
Proof. by vm_compute. Qed.

(** ** Properties *)

(** C25: [addrspace_add_node] keeps the tree, the list and the ranges in step: it
    answers [false] and changes nothing exactly when the range meets that of a
    node, and else puts the node at its place in the tree and in the list --
    except in front of all the nodes there are, where the callback that links
    the node has no predecessor and dereferences NULL. *)
Theorem addrspace_add_node_spec t tr d node : space_ok t tr d -> node ∉ elems tr ->
  is_Some (nodes t !! node) -> 0 < size (node_range d node) ->
  (addrspace_add_node node t = Ok (false, t) /\
   exists q, q ∈ elems tr /\ overlap (node_range d node) (node_range d q)) \/
  exists a b, elems tr = a ++ b /\
    (forall q, q ∈ a -> range_end (node_range d q) <= front (node_range d node)) /\
    (forall q, q ∈ b -> range_end (node_range d node) <= front (node_range d q)) /\
    ((a = [] /\ b <> [] /\ addrspace_add_node node t = Undef) \/
     ((a = [] -> b = []) /\ exists t' tr' d', addrspace_add_node node t = Ok (true, t') /\
      space_ok t' tr' d' /\ elems tr' = a ++ node :: b /\ node_range d' = node_range d)).
Proof. apply add_node_cases. Qed.


(** when the node in front of the hole has a right child, the node put there
    takes the child's place: every node of that subtree stays in the list but
    is in the tree no more. *)
Theorem addrspace_find_space_loses_subtree t tr d node in_range align addr q n r :
  space_ok t tr d -> node ∉ elems tr -> is_Some (nodes t !! node) ->
  0 < size (node_range d node) -> 0 <= addr -> addr + size (node_range d node) < 2 ^ 64 ->
  find_from_start in_range (size (node_range d node)) align d t = Ok (addr, Some q) ->
  q ∈ elems tr -> nodes t !! q = Some n -> right n = Some r ->
  exists t' tr' d' a lost b, addrspace_find_space_and_add_node in_range node align t = Ok (addr, t') /\
    elems tr = a ++ lost ++ b /\ r ∈ lost /\
    holds t' tr' /\ elems tr' = a ++ node :: b /\
    client t' = Ok d' /\ threads (lists d') (a ++ node :: lost ++ b).
Proof. apply find_space_loses. Qed.

(** [addrspace_remove_node] takes the node out of the tree but leaves it in
    the list. *)
Theorem addrspace_remove_node_keeps_link t tr d node : space_ok t tr d -> node ∈ elems tr ->
  exists t' tr' d' a b, addrspace_remove_node node t = Ok t' /\
    elems tr = a ++ node :: b /\ holds t' tr' /\ elems tr' = a ++ b /\
    client t' = Ok d' /\ node_range d' = node_range d /\ threads (lists d') (a ++ node :: b).
Proof. apply remove_node_cases. Qed.

(** on a list whose links thread a sequence, [list_add] inserts behind its
    head, [list_radd] at the end, [list_remove] and [list_delete] take a node
    out, and [list_empty] tells the empty sequence. *)
Theorem list_operations_spec l a p b : NoDup (a ++ p :: b) ->
  (threads l (a ++ b) ->
   (exists l', list_add (last_of None a) (Some p) l = Ok l' /\ threads l' (a ++ p :: b)) /\
   (exists l', list_radd None (Some p) l = Ok l' /\ threads l' ((a ++ b) ++ [p])) /\
   (list_empty None l = true <-> a ++ b = [])) /\
  (threads l (a ++ p :: b) ->
   (exists l', list_remove (Some p) l = Ok l' /\ threads l' (a ++ b) /\
      list_empty (Some p) l' = true) /\
   (exists l', list_delete (Some p) l = Ok l' /\ threads l' (a ++ b) /\ prev l' (Some p) = None)).
Proof. apply list_cases. Qed.

(** ** Witnesses *)
Lemma addrspace_add_node_spec_witness : exists tr d, space_ok ex_space tr d /\
  ((addrspace_add_node 3 ex_space = Ok (false, ex_space) /\
    exists q, q ∈ elems tr /\ overlap (node_range d 3) (node_range d q)) \/
   exists a b, elems tr = a ++ b /\
    (forall q, q ∈ a -> range_end (node_range d q) <= front (node_range d 3)) /\
    (forall q, q ∈ b -> range_end (node_range d 3) <= front (node_range d q)) /\
    ((a = [] /\ b <> [] /\ addrspace_add_node 3 ex_space = Undef) \/
     ((a = [] -> b = []) /\ exists t' tr' d', addrspace_add_node 3 ex_space = Ok (true, t') /\
      space_ok t' tr' d' /\ elems tr' = a ++ 3%positive :: b /\ node_range d' = node_range d))).
Proof.
  destruct ex_space_ok as (tr & d & Sp & E & R). exists tr, d. split; [done|].
  apply addrspace_add_node_spec; [done|rewrite E; set_solver|vm_compute; eauto|].
  rewrite R. by vm_compute.
Defined.


Lemma addrspace_find_space_loses_subtree_witness : exists tr d, space_ok ex_space tr d /\
  exists t' tr' d' a lost b,
    addrspace_find_space_and_add_node (RANGE_INIT 0x1000 0x2000) 3 0x1000 ex_space = Ok (0x2000, t') /\
    elems tr = a ++ lost ++ b /\ 2%positive ∈ lost /\
    holds t' tr' /\ elems tr' = a ++ 3%positive :: b /\
    client t' = Ok d' /\ threads (lists d') (a ++ 3%positive :: lost ++ b).
Proof.
  destruct ex_space_ok as (tr & d & Sp & E & R). exists tr, d. split; [done|].
  apply (addrspace_find_space_loses_subtree ex_space tr d 3 (RANGE_INIT 0x1000 0x2000) 0x1000 0x2000 1
    {| parent := None; left := None; right := Some 2%positive; height := 2 |});
    [done|rewrite E; set_solver|vm_compute; eauto|..].
  - rewrite R. by vm_compute.
  - done.
  - rewrite R. by vm_compute.
  - pose proof (so_client _ _ _ Sp) as Ec. rewrite R.
    change (size (default RANGE_EMPTY (ex_ranges !! 3%positive))) with 0x1000.
    assert (Ok d = client ex_space) as Ed by done. injection Ed as Ed.
    rewrite Ed. by vm_compute.
  - rewrite E. set_solver.
  - by vm_compute.
  - done.
Defined.

Lemma addrspace_remove_node_keeps_link_witness : exists tr d, space_ok ex_space tr d /\
  exists t' tr' d' a b, addrspace_remove_node 1 ex_space = Ok t' /\
    elems tr = a ++ 1%positive :: b /\ holds t' tr' /\ elems tr' = a ++ b /\
    client t' = Ok d' /\ node_range d' = node_range d /\ threads (lists d') (a ++ 1%positive :: b).
Proof.
  destruct ex_space_ok as (tr & d & Sp & E & R). exists tr, d. split; [done|].
  apply addrspace_remove_node_keeps_link; [done|]. rewrite E. set_solver.
Defined.

Lemma list_operations_spec_witness :
  (threads (list_init None unlinked) ([] ++ []) ->
   (exists l', list_add (last_of None []) (Some 1%positive) (list_init None unlinked) = Ok l' /\
      threads l' ([] ++ 1%positive :: [])) /\
   (exists l', list_radd None (Some 1%positive) (list_init None unlinked) = Ok l' /\
      threads l' (([] ++ []) ++ [1%positive])) /\
   (list_empty None (list_init None unlinked) = true <-> @nil positive ++ [] = [])) /\
  threads (list_init None unlinked) ([] ++ []).
Proof.
  split; [|by split]. apply (list_operations_spec (list_init None unlinked) [] 1 []).
  apply NoDup_singleton.
Defined.
