(* ===== verification/Ctype.v ===== *)
(** * Character classes: lib/ctype.c

    The kernel build: [C_TYPE] is the signed [char] of x86_64 and [is_ascii]
    answers [true] for everything, so the index into [ctype_array] is not
    checked and a character outside [0, 128) is an access outside the table. *)
From S2P Require Import Prelude.

(** ** The table *)
Definition ALPHA_NUM : Z := Z.shiftl 1 0.
Definition ALPHA_LOWER : Z := Z.shiftl 1 1.
Definition ALPHA_UPPER : Z := Z.shiftl 1 2.
Definition ALPHA : Z := Z.shiftl 1 3.
Definition CNTRL : Z := Z.shiftl 1 4.
Definition DIGIT : Z := Z.shiftl 1 5.
Definition GRAPH : Z := Z.shiftl 1 6.
Definition PRINT : Z := Z.shiftl 1 7.
Definition PUNCT : Z := Z.shiftl 1 8.
Definition SPACE : Z := Z.shiftl 1 9.
Definition HEX_DIGIT : Z := Z.shiftl 1 10.

#[local] Infix "|||" := Z.lor (at level 50, left associativity).

Definition ctype_array : list Z := [
  CNTRL;
  CNTRL;
  CNTRL;
  CNTRL;
  CNTRL;
  CNTRL;
  CNTRL;
  CNTRL;
  CNTRL;
  CNTRL ||| SPACE;
  CNTRL ||| SPACE;
  CNTRL ||| SPACE;
  CNTRL ||| SPACE;
  CNTRL ||| SPACE;
  CNTRL;
  CNTRL;
  CNTRL;
  CNTRL;
  CNTRL;
  CNTRL;
  CNTRL;
  CNTRL;
  CNTRL;
  CNTRL;
  CNTRL;
  CNTRL;
  CNTRL;
  CNTRL;
  CNTRL;
  CNTRL;
  CNTRL;
  CNTRL;
  PRINT ||| SPACE;
  GRAPH ||| PRINT ||| PUNCT;
  GRAPH ||| PRINT ||| PUNCT;
  GRAPH ||| PRINT ||| PUNCT;
  GRAPH ||| PRINT ||| PUNCT;
  GRAPH ||| PRINT ||| PUNCT;
  GRAPH ||| PRINT ||| PUNCT;
  GRAPH ||| PRINT ||| PUNCT;
  GRAPH ||| PRINT ||| PUNCT;
  GRAPH ||| PRINT ||| PUNCT;
  GRAPH ||| PRINT ||| PUNCT;
  GRAPH ||| PRINT ||| PUNCT;
  GRAPH ||| PRINT ||| PUNCT;
  GRAPH ||| PRINT ||| PUNCT;
  GRAPH ||| PRINT ||| PUNCT;
  GRAPH ||| PRINT ||| PUNCT;
  ALPHA_NUM ||| DIGIT ||| GRAPH ||| PRINT ||| HEX_DIGIT;
  ALPHA_NUM ||| DIGIT ||| GRAPH ||| PRINT ||| HEX_DIGIT;
  ALPHA_NUM ||| DIGIT ||| GRAPH ||| PRINT ||| HEX_DIGIT;
  ALPHA_NUM ||| DIGIT ||| GRAPH ||| PRINT ||| HEX_DIGIT;
  ALPHA_NUM ||| DIGIT ||| GRAPH ||| PRINT ||| HEX_DIGIT;
  ALPHA_NUM ||| DIGIT ||| GRAPH ||| PRINT ||| HEX_DIGIT;
  ALPHA_NUM ||| DIGIT ||| GRAPH ||| PRINT ||| HEX_DIGIT;
  ALPHA_NUM ||| DIGIT ||| GRAPH ||| PRINT ||| HEX_DIGIT;
  ALPHA_NUM ||| DIGIT ||| GRAPH ||| PRINT ||| HEX_DIGIT;
  ALPHA_NUM ||| DIGIT ||| GRAPH ||| PRINT ||| HEX_DIGIT;
  GRAPH ||| PRINT ||| PUNCT;
  GRAPH ||| PRINT ||| PUNCT;
  GRAPH ||| PRINT ||| PUNCT;
  GRAPH ||| PRINT ||| PUNCT;
  GRAPH ||| PRINT ||| PUNCT;
  GRAPH ||| PRINT ||| PUNCT;
  GRAPH ||| PRINT ||| PUNCT;
  ALPHA_NUM ||| ALPHA ||| GRAPH ||| PRINT ||| ALPHA_UPPER ||| HEX_DIGIT;
  ALPHA_NUM ||| ALPHA ||| GRAPH ||| PRINT ||| ALPHA_UPPER ||| HEX_DIGIT;
  ALPHA_NUM ||| ALPHA ||| GRAPH ||| PRINT ||| ALPHA_UPPER ||| HEX_DIGIT;
  ALPHA_NUM ||| ALPHA ||| GRAPH ||| PRINT ||| ALPHA_UPPER ||| HEX_DIGIT;
  ALPHA_NUM ||| ALPHA ||| GRAPH ||| PRINT ||| ALPHA_UPPER ||| HEX_DIGIT;
  ALPHA_NUM ||| ALPHA ||| GRAPH ||| PRINT ||| ALPHA_UPPER ||| HEX_DIGIT;
  ALPHA_NUM ||| ALPHA ||| GRAPH ||| PRINT ||| ALPHA_UPPER;
  ALPHA_NUM ||| ALPHA ||| GRAPH ||| PRINT ||| ALPHA_UPPER;
  ALPHA_NUM ||| ALPHA ||| GRAPH ||| PRINT ||| ALPHA_UPPER;
  ALPHA_NUM ||| ALPHA ||| GRAPH ||| PRINT ||| ALPHA_UPPER;
  ALPHA_NUM ||| ALPHA ||| GRAPH ||| PRINT ||| ALPHA_UPPER;
  ALPHA_NUM ||| ALPHA ||| GRAPH ||| PRINT ||| ALPHA_UPPER;
  ALPHA_NUM ||| ALPHA ||| GRAPH ||| PRINT ||| ALPHA_UPPER;
  ALPHA_NUM ||| ALPHA ||| GRAPH ||| PRINT ||| ALPHA_UPPER;
  ALPHA_NUM ||| ALPHA ||| GRAPH ||| PRINT ||| ALPHA_UPPER;
  ALPHA_NUM ||| ALPHA ||| GRAPH ||| PRINT ||| ALPHA_UPPER;
  ALPHA_NUM ||| ALPHA ||| GRAPH ||| PRINT ||| ALPHA_UPPER;
  ALPHA_NUM ||| ALPHA ||| GRAPH ||| PRINT ||| ALPHA_UPPER;
  ALPHA_NUM ||| ALPHA ||| GRAPH ||| PRINT ||| ALPHA_UPPER;
  ALPHA_NUM ||| ALPHA ||| GRAPH ||| PRINT ||| ALPHA_UPPER;
  ALPHA_NUM ||| ALPHA ||| GRAPH ||| PRINT ||| ALPHA_UPPER;
  ALPHA_NUM ||| ALPHA ||| GRAPH ||| PRINT ||| ALPHA_UPPER;
  ALPHA_NUM ||| ALPHA ||| GRAPH ||| PRINT ||| ALPHA_UPPER;
  ALPHA_NUM ||| ALPHA ||| GRAPH ||| PRINT ||| ALPHA_UPPER;
  ALPHA_NUM ||| ALPHA ||| GRAPH ||| PRINT ||| ALPHA_UPPER;
  ALPHA_NUM ||| ALPHA ||| GRAPH ||| PRINT ||| ALPHA_UPPER;
  GRAPH ||| PRINT ||| PUNCT;
  GRAPH ||| PRINT ||| PUNCT;
  GRAPH ||| PRINT ||| PUNCT;
  GRAPH ||| PRINT ||| PUNCT;
  GRAPH ||| PRINT ||| PUNCT;
  GRAPH ||| PRINT ||| PUNCT;
  ALPHA_NUM ||| ALPHA ||| GRAPH ||| ALPHA_LOWER ||| PRINT ||| HEX_DIGIT;
  ALPHA_NUM ||| ALPHA ||| GRAPH ||| ALPHA_LOWER ||| PRINT ||| HEX_DIGIT;
  ALPHA_NUM ||| ALPHA ||| GRAPH ||| ALPHA_LOWER ||| PRINT ||| HEX_DIGIT;
  ALPHA_NUM ||| ALPHA ||| GRAPH ||| ALPHA_LOWER ||| PRINT ||| HEX_DIGIT;
  ALPHA_NUM ||| ALPHA ||| GRAPH ||| ALPHA_LOWER ||| PRINT ||| HEX_DIGIT;
  ALPHA_NUM ||| ALPHA ||| GRAPH ||| ALPHA_LOWER ||| PRINT ||| HEX_DIGIT;
  ALPHA_NUM ||| ALPHA ||| GRAPH ||| ALPHA_LOWER ||| PRINT;
  ALPHA_NUM ||| ALPHA ||| GRAPH ||| ALPHA_LOWER ||| PRINT;
  ALPHA_NUM ||| ALPHA ||| GRAPH ||| ALPHA_LOWER ||| PRINT;
  ALPHA_NUM ||| ALPHA ||| GRAPH ||| ALPHA_LOWER ||| PRINT;
  ALPHA_NUM ||| ALPHA ||| GRAPH ||| ALPHA_LOWER ||| PRINT;
  ALPHA_NUM ||| ALPHA ||| GRAPH ||| ALPHA_LOWER ||| PRINT;
  ALPHA_NUM ||| ALPHA ||| GRAPH ||| ALPHA_LOWER ||| PRINT;
  ALPHA_NUM ||| ALPHA ||| GRAPH ||| ALPHA_LOWER ||| PRINT;
  ALPHA_NUM ||| ALPHA ||| GRAPH ||| ALPHA_LOWER ||| PRINT;
  ALPHA_NUM ||| ALPHA ||| GRAPH ||| ALPHA_LOWER ||| PRINT;
  ALPHA_NUM ||| ALPHA ||| GRAPH ||| ALPHA_LOWER ||| PRINT;
  ALPHA_NUM ||| ALPHA ||| GRAPH ||| ALPHA_LOWER ||| PRINT;
  ALPHA_NUM ||| ALPHA ||| GRAPH ||| ALPHA_LOWER ||| PRINT;
  ALPHA_NUM ||| ALPHA ||| GRAPH ||| ALPHA_LOWER ||| PRINT;
  ALPHA_NUM ||| ALPHA ||| GRAPH ||| ALPHA_LOWER ||| PRINT;
  ALPHA_NUM ||| ALPHA ||| GRAPH ||| ALPHA_LOWER ||| PRINT;
  ALPHA_NUM ||| ALPHA ||| GRAPH ||| ALPHA_LOWER ||| PRINT;
  ALPHA_NUM ||| ALPHA ||| GRAPH ||| ALPHA_LOWER ||| PRINT;
  ALPHA_NUM ||| ALPHA ||| GRAPH ||| ALPHA_LOWER ||| PRINT;
  ALPHA_NUM ||| ALPHA ||| GRAPH ||| ALPHA_LOWER ||| PRINT;
  GRAPH ||| PRINT ||| PUNCT;
  GRAPH ||| PRINT ||| PUNCT;
  GRAPH ||| PRINT ||| PUNCT;
  GRAPH ||| PRINT ||| PUNCT;
  CNTRL].

(** ** The predicates *)
Definition is_ascii (c : Z) : bool := true.

(** [ctype_array[(int)c]] *)
Definition ctype_entry (c : Z) : outcome Z :=
  if c <? 0 then Undef else deref (ctype_array !! Z.to_nat c).

Definition ctype_test (desc c : Z) : outcome Z :=
  if negb (is_ascii c) then Ok 0
  else e ← ctype_entry c; Ok (if negb (Z.land e desc =? 0) then 1 else 0).

Definition isalnum (c : Z) : outcome Z := ctype_test ALPHA_NUM c.
Definition isalpha (c : Z) : outcome Z := ctype_test ALPHA c.
Definition iscntrl (c : Z) : outcome Z := ctype_test CNTRL c.
Definition isdigit (c : Z) : outcome Z := ctype_test DIGIT c.
Definition isgraph (c : Z) : outcome Z := ctype_test GRAPH c.
Definition islower (c : Z) : outcome Z := ctype_test ALPHA_LOWER c.
Definition isprint (c : Z) : outcome Z := ctype_test PRINT c.
Definition ispunct (c : Z) : outcome Z := ctype_test PUNCT c.
Definition isspace (c : Z) : outcome Z := ctype_test SPACE c.
Definition isupper (c : Z) : outcome Z := ctype_test ALPHA_UPPER c.
Definition isxdigit (c : Z) : outcome Z := ctype_test HEX_DIGIT c.

Definition tolower (c : Z) : outcome Z :=
  u ← isupper c; if u =? 0 then Ok c else Ok (c + 32).
Definition toupper (c : Z) : outcome Z :=
  l ← islower c; if l =? 0 then Ok c else Ok (c - 32).

(** ** The classes the table stands for *)
Definition ascii (c : Z) : Prop := 0 <= c < 128.
Definition between (lo hi c : Z) : bool := (lo <=? c) && (c <=? hi).
Definition is_digit_b : Z -> bool := between 48 57.
Definition is_upper_b : Z -> bool := between 65 90.
Definition is_lower_b : Z -> bool := between 97 122.

(** A decidable property of all the characters of the table. *)
Definition all_ascii (P : Z -> bool) : bool := forallb P (seqZ 0 128).

Lemma all_ascii_spec P : all_ascii P = true -> forall c, ascii c -> P c = true.
Proof.
  unfold all_ascii. rewrite forallb_forall. intros H c Hc. apply H.
  apply list_elem_of_In, elem_of_seqZ. unfold ascii in Hc. lia.
Qed.

Definition outcome_eqb (o : outcome Z) (z : Z) : bool :=
  match o with Ok a => a =? z | _ => false end.

Lemma outcome_eqb_eq o z : outcome_eqb o z = true -> o = Ok z.
Proof. destruct o; simpl; try discriminate. intros ->%Z.eqb_eq. done. Qed.

(** Decide an equation between a function of a character and its class. *)
Ltac by_table f g :=
  let H := fresh in
  intros c Hc; apply outcome_eqb_eq;
  assert (all_ascii (fun c => outcome_eqb (f c) (g c)) = true) as H by (vm_compute; reflexivity);
  exact (all_ascii_spec _ H c Hc).

Lemma isdigit_eq : forall c, ascii c -> isdigit c = Ok (Z.b2z (is_digit_b c)).
Proof. by_table isdigit (fun c => Z.b2z (is_digit_b c)). Qed.

Lemma isupper_eq : forall c, ascii c -> isupper c = Ok (Z.b2z (is_upper_b c)).
Proof. by_table isupper (fun c => Z.b2z (is_upper_b c)). Qed.

Lemma islower_eq : forall c, ascii c -> islower c = Ok (Z.b2z (is_lower_b c)).
Proof. by_table islower (fun c => Z.b2z (is_lower_b c)). Qed.

Lemma isspace_eq : forall c, ascii c ->
  isspace c = Ok (Z.b2z (between 9 13 c || (c =? 32))).
Proof. by_table isspace (fun c => Z.b2z (between 9 13 c || (c =? 32))). Qed.

Lemma ctype_entry_out c : ~ ascii c -> ctype_entry c = Undef.
Proof.
  unfold ascii, ctype_entry. intros Hc. destruct (Z.ltb_spec c 0); [done|].
  rewrite lookup_ge_None_2; [done|]. change (length ctype_array) with 128%nat. lia.
Qed.
