(* ===== verification/Convert.v ===== *)
(** * Numbers as text: lib/convert.c and the string views it works on

    A C string is the list of the bytes readable from its pointer on, the
    terminator included: [*string] is its head, [++string] its tail, and going
    on past the readable bytes is [Undef].  A [struct string_view] is the list
    of its characters.  Characters are values of the signed [char]. *)
From S2P Require Import Prelude CArith Ctype.

(** ** lib/convert.h *)
Definition NUMERIC_BASE_2 : Z := 2.
Definition NUMERIC_BASE_8 : Z := 8.
Definition NUMERIC_BASE_10 : Z := 10.
Definition NUMERIC_BASE_16 : Z := 16.
Definition NUMERIC_BASE_36 : Z := 36.

Record str_to_num_options := STR_TO_NUM_OPTIONS {
  default_base : Z;
  dont_allow_base_2 : bool;
  dont_allow_base_8 : bool;
  dont_allow_base_10 : bool;
  dont_allow_base_16 : bool;
  dont_allow_base_36 : bool;
  dont_allow_0a_prefix : bool;
  dont_allow_0A_prefix : bool;
  dont_allow_0b_prefix : bool;
  dont_allow_0B_prefix : bool;
  dont_allow_0o_prefix : bool;
  dont_allow_0O_prefix : bool;
  dont_allow_0_prefix : bool;
  dont_allow_0x_prefix : bool;
  dont_allow_0X_prefix : bool;
  allow_leading_zeros : bool;
  dont_allow_pos_sign : bool;
  skip_leading_whitespace : bool;
  dont_parse_to_end : bool
}.

Inductive str_to_num_result :=
| E_STR_TO_NUM_OK
| E_STR_TO_NUM_NO_DIGITS
| E_STR_TO_NUM_INVALID_CHAR
| E_STR_TO_NUM_NEG_UNSIGNED
| E_STR_TO_NUM_UNALLOWED_PREFIX
| E_STR_TO_NUM_UNALLOWED_BASE
| E_STR_TO_NUM_UNALLOWED_POS_SIGN
| E_STR_TO_NUM_UNDERFLOW
| E_STR_TO_NUM_OVERFLOW.

#[export] Instance str_to_num_result_eq_dec : EqDecision str_to_num_result.
Proof. solve_decision. Defined.

(** ** lib/adt/string_view.c *)
Abbreviation string_view := (list Z).
Definition SV_EMPTY : string_view := [].
Definition sv_drop_front (sv : string_view) : string_view :=
  match sv with [] => SV_EMPTY | _ :: rest => rest end.

(** ** Parsing

    The caller's variables: [*end_out], [None] until it is written, and
    [*result_out]. *)
Record outs (E : Type) := Outs { end_out : option E; result_out : Z }.
Arguments Outs {E}.
Arguments end_out {E}.
Arguments result_out {E}.

Definition set_end {E} (e : E) (o : outs E) : outs E := Outs (Some e) (result_out o).
Definition set_result {E} (r : Z) (o : outs E) : outs E := Outs (end_out o) r.

(** [inl] is an early return, [inr] goes on. *)
Definition or_return (A : Type) : Type := str_to_num_result + A.

(** The value of a character as a digit: 255 when it is none. *)
Definition digit_of (ch : Z) : outcome Z :=
  d ← isdigit ch;
  if negb (d =? 0) then Ok (u8 (ch - 48))
  else
    u ← isupper ch;
    if negb (u =? 0) then Ok (u8 (10 + (ch - 65)))
    else
      l ← islower ch;
      if negb (l =? 0) then Ok (u8 (10 + (ch - 97))) else Ok 255.

(** The [switch] on the character after a leading 0.  [inr (Some base)] is a
    prefix of two characters; [inr None] is the default case. *)
Definition zero_prefix (options : str_to_num_options) (ch : Z) : or_return (option Z) :=
  let common (dont_allow_base : bool) (base : Z) :=
    if dont_allow_base then inl E_STR_TO_NUM_UNALLOWED_BASE else inr (Some base) in
  let prefix (dont_allow_prefix dont_allow_base : bool) (base : Z) :=
    if dont_allow_prefix then inl E_STR_TO_NUM_UNALLOWED_PREFIX
    else common dont_allow_base base in
  if ch =? 97 then prefix (dont_allow_0a_prefix options) (dont_allow_base_36 options) 36
  else if ch =? 65 then prefix (dont_allow_0A_prefix options) (dont_allow_base_36 options) 36
  else if ch =? 98 then prefix (dont_allow_0b_prefix options) (dont_allow_base_2 options) 2
  else if ch =? 66 then prefix (dont_allow_0B_prefix options) (dont_allow_base_2 options) 2
  else if ch =? 111 then prefix (dont_allow_0o_prefix options) (dont_allow_base_8 options) 8
  else if ch =? 79 then prefix (dont_allow_0O_prefix options) (dont_allow_base_8 options) 8
  else if ch =? 120 then prefix (dont_allow_0x_prefix options) (dont_allow_base_16 options) 16
  else if ch =? 88 then prefix (dont_allow_0X_prefix options) (dont_allow_base_16 options) 16
  else inr None.

(** The digit is multiplied in and added in place, so that [*result_out] holds
    a wrapped value after an overflow. *)
Definition push_digit {E} (base digit : Z) (o : outs E) : bool * outs E :=
  let '(ok, r) := check_mul 64 (result_out o) base in
  if negb ok then (false, set_result r o)
  else
    let '(ok, r) := check_add 64 r digit in (ok, set_result r o).

(** The code after the loop. *)
Definition finish_number {E} (is_signed is_neg found_digit : bool) (o : outs E) :
    str_to_num_result * outs E :=
  if negb found_digit then (E_STR_TO_NUM_NO_DIGITS, o)
  else if is_signed && (result_out o >? INT64_MAX) then (E_STR_TO_NUM_OVERFLOW, o)
  else if is_neg then
    let '(ok, r) := check_sub_s 64 0 (result_out o) in
    let o := set_result (u64 r) o in
    if (ok : bool) then (E_STR_TO_NUM_UNDERFLOW, o) else (E_STR_TO_NUM_OK, o)
  else (E_STR_TO_NUM_OK, o).

(** *** convert_cstr_to_64int *)
Definition cstr_char (string : list Z) : outcome Z := deref (head string).
Definition cstr_next (string : list Z) : outcome (list Z) :=
  match string with [] => Undef | _ :: rest => Ok rest end.

Fixpoint cstr_skip_whitespace (string : list Z) : outcome (or_return (list Z)) :=
  match string with
  | [] => Undef
  | ch :: rest =>
      s ← isspace ch;
      if s =? 0 then Ok (inr string)
      else
        ch ← cstr_char rest;
        if ch =? 0 then Ok (inl E_STR_TO_NUM_NO_DIGITS) else cstr_skip_whitespace rest
  end.

Definition cstr_whitespace (options : str_to_num_options) (string : list Z) :
    outcome (or_return (list Z)) :=
  if skip_leading_whitespace options then cstr_skip_whitespace string else Ok (inr string).

(** The sign: is the number negative, and where it goes on. *)
Definition cstr_sign (options : str_to_num_options) (is_signed : bool) (string : list Z) :
    outcome (or_return (bool * list Z)) :=
  ch ← cstr_char string;
  if ch =? 45 then
    if negb is_signed then Ok (inl E_STR_TO_NUM_NEG_UNSIGNED)
    else
      string ← cstr_next string;
      ch ← cstr_char string;
      if ch =? 0 then Ok (inl E_STR_TO_NUM_NO_DIGITS) else Ok (inr (true, string))
  else if ch =? 43 then
    if dont_allow_pos_sign options then Ok (inl E_STR_TO_NUM_UNALLOWED_POS_SIGN)
    else
      string ← cstr_next string;
      ch ← cstr_char string;
      if ch =? 0 then Ok (inl E_STR_TO_NUM_NO_DIGITS) else Ok (inr (false, string))
  else Ok (inr (false, string)).

(** [*end_out] is [None] for NULL. *)
Abbreviation cstr_end := (option (list Z)).

Fixpoint cstr_digits (options : str_to_num_options) (base : Z) (found_digit : bool)
    (string : list Z) (o : outs cstr_end) : outcome (or_return bool * outs cstr_end) :=
  match string with
  | [] => Undef
  | ch :: rest =>
      if ch =? 0 then Ok (inr found_digit, set_end None o)
      else
        digit ← digit_of ch;
        if digit >=? base then
          if negb (dont_parse_to_end options) then Ok (inl E_STR_TO_NUM_INVALID_CHAR, o)
          else Ok (inr found_digit, set_end (Some string) o)
        else
          let '(ok, o) := push_digit base digit o in
          if negb ok then Ok (inl E_STR_TO_NUM_OVERFLOW, o)
          else cstr_digits options base true rest o
  end.

Definition cstr_number (options : str_to_num_options) (is_signed is_neg : bool) (base : Z)
    (found_zero : bool) (string : list Z) (o : outs cstr_end) :
    outcome (str_to_num_result * outs cstr_end) :=
  let o := set_result 0 o in
  '(r, o) ← cstr_digits options base found_zero string o;
  match r with
  | inl e => Ok (e, o)
  | inr found_digit => Ok (finish_number is_signed is_neg found_digit o)
  end.

(** From the optional prefix on. *)
Definition cstr_prefixed (options : str_to_num_options) (is_signed is_neg : bool)
    (string : list Z) (o : outs cstr_end) : outcome (str_to_num_result * outs cstr_end) :=
  let base := default_base options in
  ch ← cstr_char string;
  if ch =? 48 then
    string ← cstr_next string;
    ch ← cstr_char string;
    if ch =? 0 then Ok (E_STR_TO_NUM_OK, Outs (Some None) 0)
    else
      match zero_prefix options ch with
      | inl e => Ok (e, o)
      | inr (Some base) =>
          string ← cstr_next string;
          cstr_number options is_signed is_neg base false string o
      | inr None => cstr_number options is_signed is_neg 8 true string o
      end
  else cstr_number options is_signed is_neg base false string o.

Definition convert_cstr_to_64int (string : list Z) (options : str_to_num_options)
    (is_signed : bool) (o : outs cstr_end) : outcome (str_to_num_result * outs cstr_end) :=
  ch ← cstr_char string;
  if ch =? 0 then Ok (E_STR_TO_NUM_NO_DIGITS, o)
  else
    r ← cstr_whitespace options string;
    match r with
    | inl e => Ok (e, o)
    | inr string =>
        r ← cstr_sign options is_signed string;
        match r with
        | inl e => Ok (e, o)
        | inr (is_neg, string) => cstr_prefixed options is_signed is_neg string o
        end
    end.

(** *** convert_sv_to_64int

    [*sv.begin] is only read while the view is not empty. *)
Definition sv_char (sv : string_view) : outcome Z := deref (head sv).

Fixpoint sv_skip_whitespace (sv : string_view) : outcome (or_return string_view) :=
  match sv with
  | [] => Undef
  | ch :: rest =>
      s ← isspace ch;
      if s =? 0 then Ok (inr sv)
      else
        match rest with
        | [] => Ok (inl E_STR_TO_NUM_NO_DIGITS)
        | _ :: _ => sv_skip_whitespace rest
        end
  end.

Definition sv_whitespace (options : str_to_num_options) (sv : string_view) :
    outcome (or_return string_view) :=
  if skip_leading_whitespace options then sv_skip_whitespace sv else Ok (inr sv).

Definition sv_sign (options : str_to_num_options) (is_signed : bool) (sv : string_view) :
    outcome (or_return (bool * string_view)) :=
  ch ← sv_char sv;
  if ch =? 45 then
    if negb is_signed then Ok (inl E_STR_TO_NUM_NEG_UNSIGNED)
    else
      let sv := sv_drop_front sv in
      if (length sv =? 0)%nat then Ok (inl E_STR_TO_NUM_NO_DIGITS) else Ok (inr (true, sv))
  else if ch =? 43 then
    if dont_allow_pos_sign options then Ok (inl E_STR_TO_NUM_UNALLOWED_POS_SIGN)
    else
      let sv := sv_drop_front sv in
      if (length sv =? 0)%nat then Ok (inl E_STR_TO_NUM_NO_DIGITS) else Ok (inr (false, sv))
  else Ok (inr (false, sv)).

Fixpoint sv_digits (options : str_to_num_options) (base : Z) (found_digit : bool)
    (sv : string_view) (o : outs string_view) :
    outcome (or_return bool * outs string_view) :=
  match sv with
  | [] => Ok (inr found_digit, set_end SV_EMPTY o)
  | ch :: rest =>
      digit ← digit_of ch;
      if digit >=? base then
        if negb (dont_parse_to_end options) then Ok (inl E_STR_TO_NUM_INVALID_CHAR, o)
        else Ok (inr found_digit, set_end sv o)
      else
        let '(ok, o) := push_digit base digit o in
        if negb ok then Ok (inl E_STR_TO_NUM_OVERFLOW, o)
        else sv_digits options base true rest o
  end.

Definition sv_number (options : str_to_num_options) (is_signed is_negative : bool) (base : Z)
    (found_zero : bool) (sv : string_view) (o : outs string_view) :
    outcome (str_to_num_result * outs string_view) :=
  let o := set_result 0 o in
  '(r, o) ← sv_digits options base found_zero sv o;
  match r with
  | inl e => Ok (e, o)
  | inr found_digit => Ok (finish_number is_signed is_negative found_digit o)
  end.

Definition sv_prefixed (options : str_to_num_options) (is_signed is_negative : bool)
    (sv : string_view) (o : outs string_view) :
    outcome (str_to_num_result * outs string_view) :=
  let base := default_base options in
  ch ← sv_char sv;
  if ch =? 48 then
    let sv := sv_drop_front sv in
    if (length sv =? 0)%nat then Ok (E_STR_TO_NUM_OK, Outs (Some sv) 0)
    else
      ch ← sv_char sv;
      match zero_prefix options ch with
      | inl e => Ok (e, o)
      | inr (Some base) =>
          sv_number options is_signed is_negative base false (sv_drop_front sv) o
      | inr None => sv_number options is_signed is_negative 8 true sv o
      end
  else sv_number options is_signed is_negative base false sv o.

Definition convert_sv_to_64int (sv : string_view) (options : str_to_num_options)
    (is_signed : bool) (o : outs string_view) :
    outcome (str_to_num_result * outs string_view) :=
  if (length sv =? 0)%nat then Ok (E_STR_TO_NUM_NO_DIGITS, o)
  else
    r ← sv_whitespace options sv;
    match r with
    | inl e => Ok (e, o)
    | inr sv =>
        r ← sv_sign options is_signed sv;
        match r with
        | inl e => Ok (e, o)
        | inr (is_negative, sv) => sv_prefixed options is_signed is_negative sv o
        end
    end.

Definition cstr_to_unsigned (c_str : list Z) (options : str_to_num_options)
    (o : outs cstr_end) := convert_cstr_to_64int c_str options false o.
Definition cstr_to_signed (c_str : list Z) (options : str_to_num_options)
    (o : outs cstr_end) := convert_cstr_to_64int c_str options true o.
Definition sv_to_unsigned (sv : string_view) (options : str_to_num_options)
    (o : outs string_view) := convert_sv_to_64int sv options false o.
Definition sv_to_signed (sv : string_view) (options : str_to_num_options)
    (o : outs string_view) := convert_sv_to_64int sv options true o.

(** *** strtoul

    [endptr] says whether the caller gave a pointer; storing through NULL is
    [Undef].  ULONG_MAX is returned for every error. *)
Definition strtoul_options (base : Z) : str_to_num_options :=
  let init (default_base : Z)
      (no_base_2 no_base_8 no_base_10 no_base_16 no_0b no_0o no_0O : bool) :=
    STR_TO_NUM_OPTIONS default_base no_base_2 no_base_8 no_base_10 no_base_16 false
      true true no_0b no_0b no_0o no_0O false false false false false false false in
  if base =? 0 then init 10 false false false false true true true
  else if base =? 2 then init (u8 base) false true true true false true true
  else if base =? 8 then init (u8 base) true false true true true false true
  else if base =? 10 then init (u8 base) true true false true true true true
  else if base =? 16 then init (u8 base) true true true false true true true
  else init (u8 base) true true true true true true true.

Definition strtoul (str : list Z) (endptr : bool) (base : Z) : outcome (Z * outs cstr_end) :=
  '(error, o) ← cstr_to_unsigned str (strtoul_options base) (Outs None 0);
  match end_out o with
  | Some _ => if negb endptr then Undef
              else if bool_decide (error = E_STR_TO_NUM_OK) then Ok (result_out o, o)
              else Ok (UINT64_MAX, o)
  | None => if bool_decide (error = E_STR_TO_NUM_OK) then Ok (result_out o, o)
            else Ok (UINT64_MAX, o)
  end.

(** ** Printing

    The caller's buffer of [MAX_CONVERT_CAP] characters is filled from its
    end; [i] is the [uint8_t] index of the last character written. *)
Definition MAX_BINARY_CONVERT_CAP : Z := 68.
Definition MAX_OCTAL_CONVERT_CAP : Z := 26.
Definition MAX_DECIMAL_CONVERT_CAP : Z := 22.
Definition MAX_HEXADECIMAL_CONVERT_CAP : Z := 20.
Definition MAX_ALPHABETIC_CONVERT_CAP : Z := 20.
Definition MAX_CONVERT_CAP : Z := MAX_BINARY_CONVERT_CAP.

Record num_to_str_options := NUM_TO_STR_OPTIONS {
  include_prefix : bool;
  include_pos_sign : bool;
  capitalize : bool;
  capitalize_prefix : bool;
  use_0_octal_prefix : bool
}.
Definition NUM_TO_STR_OPTIONS_INIT : num_to_str_options :=
  NUM_TO_STR_OPTIONS false false false false false.

(** [buffer[i] = c] *)
Definition put (buffer : list Z) (i c : Z) : outcome (list Z) :=
  if (0 <=? i) && (i <? Z.of_nat (length buffer)) then Ok (<[Z.to_nat i := c]> buffer)
  else Undef.

(** [chars[digit]] of one of the two strings of lib/util.c. *)
Definition char_codes (s : string) : list Z :=
  map (fun c => Z.of_nat (Ascii.nat_of_ascii c)) (String.list_ascii_of_string s).
Definition digit_char (options : num_to_str_options) (digit : Z) : outcome Z :=
  deref (char_codes (if capitalize options then get_alphanumeric_upper_string
                     else get_alphanumeric_lower_string) !! Z.to_nat digit).

(** [sv_create_end(buffer + i, buffer + end)] *)
Definition sv_create_end (buffer : list Z) (i end_ : Z) : outcome string_view :=
  c_assert (i <=? end_);;
  Ok (take (Z.to_nat (end_ - i)) (drop (Z.to_nat i) buffer)).

(** The [mod_block] both printers pass to the macros: the prefix. *)
Definition put_prefix (base : Z) (options : num_to_str_options) (i : Z) (buffer : list Z) :
    outcome (list Z * Z) :=
  if include_prefix options then
    buffer ← put buffer (i - 2) 48;
    let letter (upper lower : Z) := if capitalize_prefix options then upper else lower in
    '(buffer, i) ←
      (if base =? NUMERIC_BASE_2 then b ← put buffer (i - 1) (letter 66 98); Ok (b, i)
       else if base =? NUMERIC_BASE_8 then
         if negb (use_0_octal_prefix options) then
           b ← put buffer (i - 1) (letter 79 111); Ok (b, i)
         else Ok (buffer, u8 (i + 1))
       else if base =? NUMERIC_BASE_10 then Ok (buffer, i)
       else if base =? NUMERIC_BASE_16 then b ← put buffer (i - 1) (letter 88 120); Ok (b, i)
       else if base =? NUMERIC_BASE_36 then b ← put buffer (i - 1) (letter 65 97); Ok (b, i)
       else Ok (buffer, i));
    Ok (buffer, u8 (i - 2))
  else Ok (buffer, i).

(** The [do ... while (true)] of LOOP_OVER_POSITIVE_INT. *)
Fixpoint positive_digits (fuel : nat) (base : Z) (options : num_to_str_options)
    (number i : Z) (buffer : list Z) : outcome (list Z * Z) :=
  match fuel with
  | O => OutOfFuel
  | S fuel =>
      c ← digit_char options (number `mod` base);
      buffer ← put buffer i c;
      if number <? base then Ok (buffer, i)
      else
        c_assert (negb (i =? 0));;
        positive_digits fuel base options (number / base) (i - 1) buffer
  end.

(** A 64-bit number has at most 64 digits. *)
Definition digits_fuel : nat := 65.

Definition LOOP_OVER_POSITIVE_INT (base : Z) (options : num_to_str_options)
    (number i : Z) (buffer : list Z) : outcome (list Z * Z) :=
  buffer ← put buffer (i + 1) 0;
  '(buffer, i) ← positive_digits digits_fuel base options number i buffer;
  '(buffer, i) ← put_prefix base options i buffer;
  if include_pos_sign options then
    let i := u8 (i - 1) in
    buffer ← put buffer i 43; Ok (buffer, i)
  else Ok (buffer, i).

Definition unsigned_final_index (base : Z) : Z :=
  if base =? NUMERIC_BASE_2 then MAX_BINARY_CONVERT_CAP - 1
  else if base =? NUMERIC_BASE_8 then MAX_OCTAL_CONVERT_CAP - 1
  else if base =? NUMERIC_BASE_10 then MAX_DECIMAL_CONVERT_CAP - 1
  else if base =? NUMERIC_BASE_16 then MAX_HEXADECIMAL_CONVERT_CAP - 1
  else if base =? NUMERIC_BASE_36 then MAX_CONVERT_CAP
  else 0.

Definition unsigned_to_string_view (number base : Z) (buffer : list Z)
    (options : num_to_str_options) : outcome (list Z * string_view) :=
  let final_index := unsigned_final_index base in
  let i := u8 (final_index - 1) in
  '(buffer, i) ← LOOP_OVER_POSITIVE_INT base options number i buffer;
  sv ← sv_create_end buffer i final_index;
  Ok (buffer, sv).

(** The [do ... while (number != 0)] of LOOP_OVER_SIGNED_INT; [%] and [/] of C
    round towards zero. *)
Fixpoint negative_digits (fuel : nat) (base : Z) (options : num_to_str_options)
    (number i : Z) (buffer : list Z) : outcome (list Z * Z) :=
  match fuel with
  | O => OutOfFuel
  | S fuel =>
      c ← digit_char options (0 - Z.rem number base);
      buffer ← put buffer i c;
      c_assert (negb (i =? 0));;
      let i := i - 1 in
      if number >? 0 - base then Ok (buffer, i)
      else
        let number := Z.quot number base in
        if negb (number =? 0) then negative_digits fuel base options number i buffer
        else Ok (buffer, i)
  end.

Definition LOOP_OVER_SIGNED_INT (base : Z) (options : num_to_str_options)
    (number i : Z) (buffer : list Z) : outcome (list Z * Z) :=
  if number <? 0 then
    buffer ← put buffer (i + 1) 0;
    '(buffer, i) ← negative_digits digits_fuel base options number i buffer;
    '(buffer, i) ← put_prefix base options i buffer;
    buffer ← put buffer i 45;
    Ok (buffer, i)
  else LOOP_OVER_POSITIVE_INT base options number i buffer.

Definition signed_final_index (base : Z) : Z :=
  if base =? NUMERIC_BASE_2 then MAX_BINARY_CONVERT_CAP - 1
  else if base =? NUMERIC_BASE_8 then MAX_OCTAL_CONVERT_CAP - 1
  else if base =? NUMERIC_BASE_10 then MAX_DECIMAL_CONVERT_CAP - 1
  else if base =? NUMERIC_BASE_16 then MAX_HEXADECIMAL_CONVERT_CAP - 1
  else if base =? NUMERIC_BASE_36 then MAX_ALPHABETIC_CONVERT_CAP - 1
  else 0.

Definition signed_to_string_view (number base : Z) (buffer : list Z)
    (options : num_to_str_options) : outcome (list Z * string_view) :=
  let final_index := signed_final_index base in
  let i := u8 (final_index - 1) in
  '(buffer, i) ← LOOP_OVER_SIGNED_INT base options number i buffer;
  sv ← sv_create_end buffer i final_index;
  Ok (buffer, sv).
