(* ===== verification/ConvertThms.v ===== *)
(** * What the number conversions guarantee

    Properties of Ctype.v and Convert.v. *)
From S2P Require Import Prelude CArith Ctype Convert.

(** ** Characters as digits *)

(** The value of a character as a digit in any base; 255 for the others. *)
Definition digit_val (c : Z) : Z :=
  if is_digit_b c then c - 48
  else if is_upper_b c then c - 55
  else if is_lower_b c then c - 87
  else 255.

Lemma digit_of_eq : forall c, ascii c -> digit_of c = Ok (digit_val c).
Proof. by_table digit_of digit_val. Qed.

Lemma digit_char_eq options d : 0 <= d < 36 ->
  exists c, digit_char options d = Ok c /\ ascii c /\ digit_val c = d /\ (c = 48 <-> d = 0).
Proof.
  intros Hd.
  assert (forallb (fun d => match digit_char options d with
    | Ok c => bool_decide (0 <= c < 128) && (digit_val c =? d) &&
              Bool.eqb (c =? 48) (d =? 0)
    | _ => false end) (seqZ 0 36) = true) as H
    by (unfold digit_char; destruct (capitalize options); vm_compute; reflexivity).
  rewrite forallb_forall in H. specialize (H d).
  destruct (digit_char options d) as [c| | |];
    try (discriminate H; apply list_elem_of_In, elem_of_seqZ; lia).
  assert (In d (seqZ 0 36)) as Hin by (apply list_elem_of_In, elem_of_seqZ; lia).
  specialize (H Hin). apply andb_prop in H as [H H3]. apply andb_prop in H as [H1 H2].
  apply bool_decide_eq_true in H1. apply Z.eqb_eq in H2. apply Bool.eqb_prop in H3.
  exists c. split_and!; [done|done|done|].
  destruct (Z.eqb_spec c 48), (Z.eqb_spec d 0); naive_solver.
Qed.

(** Numerals of a base and the number they stand for. *)
Definition digit_in (base c : Z) : Prop := ascii c /\ digit_val c < base.
Definition value_from (base acc : Z) (s : list Z) : Z :=
  foldl (fun acc c => acc * base + digit_val c) acc s.
Definition value (base : Z) (s : list Z) : Z := value_from base 0 s.
Definition numeral (base : Z) (s : list Z) : Prop := s <> [] /\ Forall (digit_in base) s.

Lemma digit_val_nonneg c : 0 <= digit_val c.
Proof.
  unfold digit_val, is_digit_b, is_upper_b, is_lower_b, between.
  zcases; simpl; lia.
Qed.

Lemma value_from_ge base acc s : 1 <= base -> 0 <= acc -> acc <= value_from base acc s.
Proof.
  intros Hb. revert acc. induction s as [|c s IH]; intros acc Ha; [simpl; lia|].
  pose proof (digit_val_nonneg c). unfold value_from in *. cbn [foldl].
  specialize (IH (acc * base + digit_val c)). nia.
Qed.

Lemma value_from_app base acc s t :
  value_from base acc (s ++ t) = value_from base (value_from base acc s) t.
Proof. apply foldl_app. Qed.

(** ** The two parsers agree *)

(** A string view as the C string that starts where it starts. *)
Definition to_cstr_end (rest : list Z) (sv : string_view) : cstr_end :=
  match sv with [] => None | _ => Some (sv ++ 0 :: rest) end.
Definition to_cstr {A} (rest : list Z) (r : A * outs string_view) : A * outs cstr_end :=
  (fst r, Outs (to_cstr_end rest <$> end_out (snd r)) (result_out (snd r))).
Definition cstr_outs (rest : list Z) (o : outs string_view) : outs cstr_end :=
  snd (to_cstr rest (tt, o)).

Definition nonzero (s : list Z) : Prop := Forall (fun c => c <> 0) s.

(** Carry a result of the view parser over to the string parser. *)
Definition over {A B} (f : A -> B) (m : outcome A) : outcome B := a ← m; Ok (f a).

Lemma push_digit_cstr rest base d o :
  push_digit base d (cstr_outs rest o) =
    (fst (push_digit base d o), cstr_outs rest (snd (push_digit base d o))).
Proof.
  unfold push_digit. change (result_out (cstr_outs rest o)) with (result_out o).
  destruct (check_mul 64 (result_out o) base) as [[] r]; [|done]. cbn [negb].
  by destruct (check_add 64 r d).
Qed.

Lemma digits_cstr_sv options base rest : forall s found o, nonzero s ->
  cstr_digits options base found (s ++ 0 :: rest) (cstr_outs rest o) =
    over (to_cstr rest) (sv_digits options base found s o).
Proof.
  induction s as [|c s IH]; intros found o Hs; [reflexivity|].
  apply Forall_cons in Hs as [Hc Hs].
  cbn [app cstr_digits sv_digits]. rewrite (proj2 (Z.eqb_neq c 0)) by done.
  destruct (digit_of c) as [d| | |]; try reflexivity. simpl.
  destruct (d >=? base); [by destruct (dont_parse_to_end options)|].
  rewrite push_digit_cstr. destruct (push_digit base d o) as [[] o']; simpl; [|done].
  by apply IH.
Qed.

Lemma finish_number_cstr rest sg neg found o :
  finish_number sg neg found (cstr_outs rest o) = to_cstr rest (finish_number sg neg found o).
Proof.
  unfold finish_number. change (result_out (cstr_outs rest o)) with (result_out o).
  destruct found; [|done]. cbn [negb].
  destruct (sg && _); [done|]. destruct neg; [|done].
  by destruct (check_sub_s 64 0 (result_out o)) as [[] r].
Qed.

Lemma number_cstr_sv options sg neg base fz rest s o : nonzero s ->
  cstr_number options sg neg base fz (s ++ 0 :: rest) (cstr_outs rest o) =
    over (to_cstr rest) (sv_number options sg neg base fz s o).
Proof.
  intros Hs. unfold cstr_number, sv_number.
  change (set_result 0 (cstr_outs rest o)) with (cstr_outs rest (set_result 0 o)).
  rewrite digits_cstr_sv by done.
  destruct (sv_digits options base fz s (set_result 0 o)) as [[[e|found] o']| | |]; try done.
  cbn [mbind outcome_bind over to_cstr fst snd].
  change (Outs _ _) with (cstr_outs rest o'). by rewrite finish_number_cstr.
Qed.

(** What a view becomes for the string parser when the parser goes on. *)
Definition to_string {A} (f : A -> A) (r : or_return A) : or_return A :=
  match r with inl e => inl e | inr a => inr (f a) end.

Lemma skip_cstr_sv rest s : s <> [] -> nonzero s ->
  cstr_skip_whitespace (s ++ 0 :: rest) =
    over (to_string (fun s => s ++ 0 :: rest)) (sv_skip_whitespace s).
Proof.
  induction s as [|c s IH]; intros Hne Hs; [done|]. apply Forall_cons in Hs as [_ Hs].
  cbn [app cstr_skip_whitespace sv_skip_whitespace].
  destruct (isspace c) as [x| | |]; try reflexivity. simpl.
  destruct (x =? 0); [done|]. destruct s as [|d s]; [done|].
  unfold cstr_char. simpl. apply Forall_cons in Hs as Hs'. destruct Hs' as [Hd _].
  rewrite (proj2 (Z.eqb_neq d 0)) by done. by apply IH.
Qed.

Lemma skip_sv_inv s s' : nonzero s -> s <> [] ->
  sv_skip_whitespace s = Ok (inr s') -> nonzero s' /\ s' <> [].
Proof.
  induction s as [|c s IH]; intros Hs Hne; [done|]. cbn [sv_skip_whitespace].
  destruct (isspace c) as [x| | |]; try discriminate. simpl.
  destruct (x =? 0); [by intros [= <-]|].
  destruct s as [|d s]; [discriminate|]. apply Forall_cons in Hs as [_ Hs]. auto.
Qed.

Lemma whitespace_cstr_sv options rest s : s <> [] -> nonzero s ->
  cstr_whitespace options (s ++ 0 :: rest) =
    over (to_string (fun s => s ++ 0 :: rest)) (sv_whitespace options s).
Proof.
  intros. unfold cstr_whitespace, sv_whitespace.
  destruct (skip_leading_whitespace options); [by apply skip_cstr_sv|done].
Qed.

Lemma sv_whitespace_inv options s s' : nonzero s -> s <> [] ->
  sv_whitespace options s = Ok (inr s') -> nonzero s' /\ s' <> [].
Proof.
  intros. unfold sv_whitespace in *.
  destruct (skip_leading_whitespace options); [by apply (skip_sv_inv s)|by simplify_eq].
Qed.

Lemma sign_cstr_sv options sg rest s : s <> [] -> nonzero s ->
  cstr_sign options sg (s ++ 0 :: rest) =
    over (to_string (fun p => (fst p, snd p ++ 0 :: rest))) (sv_sign options sg s).
Proof.
  intros Hne Hs. destruct s as [|c s]; [done|]. apply Forall_cons in Hs as [_ Hs].
  unfold cstr_sign, sv_sign, cstr_char, sv_char. simpl.
  assert (forall b, (ch ← deref (head (s ++ 0 :: rest));
    if ch =? 0 then Ok (inl E_STR_TO_NUM_NO_DIGITS) else Ok (inr (b, s ++ 0 :: rest))) =
    over (to_string (fun p : bool * list Z => (fst p, snd p ++ 0 :: rest)))
      (if (length s =? 0)%nat then Ok (inl E_STR_TO_NUM_NO_DIGITS) else Ok (inr (b, s)))) as H.
  { intros b. destruct s as [|d s]; [done|]. simpl. apply Forall_cons in Hs as [Hd _].
    by rewrite (proj2 (Z.eqb_neq d 0)). }
  destruct (c =? 45); [destruct sg; [apply H|done]|].
  destruct (c =? 43); [|done]. destruct (dont_allow_pos_sign options); [done|apply H].
Qed.

Lemma sv_sign_inv options sg s neg s' : nonzero s -> sv_sign options sg s = Ok (inr (neg, s')) ->
  nonzero s' /\ s' <> [].
Proof.
  destruct s as [|c s]; [discriminate|]. intros Hs. apply Forall_cons in Hs as Hs'.
  destruct Hs' as [_ Hs']. unfold sv_sign, sv_char. simpl.
  destruct (c =? 45); [destruct sg; [|discriminate]; destruct s; [discriminate|]; by intros [= _ <-]|].
  destruct (c =? 43); [|by intros [= _ <-]].
  destruct (dont_allow_pos_sign options); [discriminate|]. destruct s; [discriminate|].
  by intros [= _ <-].
Qed.

Lemma prefixed_cstr_sv options sg neg rest s o : s <> [] -> nonzero s ->
  cstr_prefixed options sg neg (s ++ 0 :: rest) (cstr_outs rest o) =
    over (to_cstr rest) (sv_prefixed options sg neg s o).
Proof.
  intros Hne Hs. destruct s as [|d s]; [done|].
  unfold cstr_prefixed, sv_prefixed, cstr_char, sv_char. simpl.
  apply Forall_cons in Hs as Hs'. destruct Hs' as [_ Hs'].
  destruct (d =? 48); [|by apply (number_cstr_sv options sg neg _ _ rest (d :: s))].
  destruct s as [|x s]; [done|]. simpl. apply Forall_cons in Hs' as Hx.
  destruct Hx as [Hx Hs2]. rewrite (proj2 (Z.eqb_neq x 0)) by done.
  destruct (zero_prefix options x) as [e|[b|]]; [done| |].
  - by apply number_cstr_sv.
  - by apply (number_cstr_sv options sg neg 8 true rest (x :: s)).
Qed.

Lemma convert_cstr_sv options sg rest s o : nonzero s ->
  convert_cstr_to_64int (s ++ 0 :: rest) options sg (cstr_outs rest o) =
    over (to_cstr rest) (convert_sv_to_64int s options sg o).
Proof.
  intros Hs. unfold convert_cstr_to_64int, convert_sv_to_64int.
  destruct s as [|c s]; [done|]. apply Forall_cons in Hs as Hs'. destruct Hs' as [Hc _].
  change (cstr_char ((c :: s) ++ 0 :: rest)) with (Ok c). rewrite outcome_bind_ok.
  rewrite (proj2 (Z.eqb_neq c 0)) by done. cbn [length Nat.eqb].
  rewrite whitespace_cstr_sv by done.
  destruct (sv_whitespace options (c :: s)) as [[e|s1]| | |] eqn:E1; try done.
  apply sv_whitespace_inv in E1 as [Hs1 Hne1]; [|done..].
  cbn [over mbind outcome_bind to_string]. rewrite sign_cstr_sv by done.
  destruct (sv_sign options sg s1) as [[e|[neg s2]]| | |] eqn:E2; try done.
  apply sv_sign_inv in E2 as [Hs2 Hne2]; [|done]. cbn [over mbind outcome_bind to_string fst snd].
  by apply prefixed_cstr_sv.
Qed.

(** ** The view parser always answers on ASCII text *)
Definition all_ascii_s (s : list Z) : Prop := Forall ascii s.

Lemma isspace_ok c : ascii c -> exists x, isspace c = Ok x.
Proof. intros Hc. eexists. by apply isspace_eq. Qed.

Lemma digits_ok options base : forall s found o, all_ascii_s s ->
  exists r o', sv_digits options base found s o = Ok (r, o').
Proof.
  induction s as [|c s IH]; intros found o Hs; cbn [sv_digits]; [eauto|].
  apply Forall_cons in Hs as [Hc Hs]. rewrite digit_of_eq by done. rewrite outcome_bind_ok.
  destruct (_ >=? base); [destruct (dont_parse_to_end options); eauto|].
  destruct (push_digit base _ o) as [[] o']; simpl; eauto.
Qed.

Lemma number_ok options sg neg base fz s o : all_ascii_s s ->
  exists r, sv_number options sg neg base fz s o = Ok r.
Proof.
  intros Hs. unfold sv_number.
  destruct (digits_ok options base s fz (set_result 0 o) Hs) as ([e|f] & o' & ->); simpl; eauto.
Qed.

Lemma whitespace_ok options s : s <> [] -> all_ascii_s s ->
  exists r, sv_whitespace options s = Ok r /\
  match r with inr s' => s' <> [] /\ all_ascii_s s' | inl _ => True end.
Proof.
  unfold sv_whitespace. destruct (skip_leading_whitespace options); [|by eexists].
  induction s as [|c s IH]; intros Hne Hs; [done|]. cbn [sv_skip_whitespace].
  apply Forall_cons in Hs as Hs'. destruct Hs' as [Hc Hs'].
  destruct (isspace_ok c Hc) as [x ->]. rewrite outcome_bind_ok.
  destruct (x =? 0); [by eexists|]. destruct s as [|d s]; [by eexists|]. by apply IH.
Qed.

Lemma sign_ok options sg s : s <> [] -> all_ascii_s s ->
  exists r, sv_sign options sg s = Ok r /\
  match r with inr (_, s') => s' <> [] /\ all_ascii_s s' | inl _ => True end.
Proof.
  destruct s as [|c s]; intros Hne Hs; [done|]. unfold sv_sign, sv_char. simpl.
  apply Forall_cons in Hs as Hs'. destruct Hs' as [_ Hs'].
  destruct (c =? 45); [destruct sg; [destruct s|]; by eexists|].
  destruct (c =? 43); [destruct (dont_allow_pos_sign options); [|destruct s]; by eexists|].
  by eexists.
Qed.

Lemma prefixed_ok options sg neg s o : s <> [] -> all_ascii_s s ->
  exists r, sv_prefixed options sg neg s o = Ok r.
Proof.
  intros Hne Hs. destruct s as [|d s]; [done|]. unfold sv_prefixed, sv_char. simpl.
  apply Forall_cons in Hs as Hs'. destruct Hs' as [_ Hs'].
  destruct (d =? 48); [|by apply number_ok]. destruct s as [|x s]; [simpl; eauto|].
  simpl. apply Forall_cons in Hs' as Hs3. destruct Hs3 as [_ Hs3].
  destruct (zero_prefix options x) as [e|[b|]]; [eauto| |]; by apply number_ok.
Qed.

Lemma convert_sv_ok s options sg o : all_ascii_s s ->
  exists r, convert_sv_to_64int s options sg o = Ok r.
Proof.
  intros Hs. unfold convert_sv_to_64int. destruct s as [|c s]; [simpl; eauto|].
  cbn [length Nat.eqb].
  destruct (whitespace_ok options (c :: s)) as ([e|s1] & -> & H1); [done..|simpl; eauto|].
  rewrite outcome_bind_ok. destruct H1 as [Hne1 Hs1].
  destruct (sign_ok options sg s1) as ([e|[neg s2]] & -> & H2); [done..|simpl; eauto|].
  rewrite outcome_bind_ok. destruct H2. by apply prefixed_ok.
Qed.

(** ** Numerals are read as their value *)

(** What stops the digits: the end, or a character that is not a digit. *)
Definition stops (base : Z) (t : list Z) : Prop :=
  match t with [] => True | c :: _ => ascii c /\ base <= digit_val c end.

(** The answer for a number of value [v] followed by [t]. *)
Definition read_result (options : str_to_num_options) (v : Z) (t : list Z)
    (r : str_to_num_result) (o : outs string_view) : Prop :=
  if v <? 2 ^ 64 then
    if (length t =? 0)%nat || dont_parse_to_end options
    then r = E_STR_TO_NUM_OK /\ o = Outs (Some t) v
    else r = E_STR_TO_NUM_INVALID_CHAR
  else r = E_STR_TO_NUM_OVERFLOW.

Lemma push_digit_spec {E} base d (o : outs E) : 1 <= base -> 0 <= d -> 0 <= result_out o ->
  if result_out o * base + d <? 2 ^ 64
  then push_digit base d o = (true, set_result (result_out o * base + d) o)
  else fst (push_digit base d o) = false.
Proof.
  intros Hb Hd Hr. unfold push_digit, check_mul, check_add.
  destruct (Z.ltb_spec (result_out o * base) (2 ^ 64)) as [Hm|Hm]; cbn [negb].
  - rewrite wrap_small by (unfold_ints; nia).
    destruct (Z.ltb_spec (result_out o * base + d) (2 ^ 64)); [|done].
    rewrite wrap_small by (unfold_ints; nia). done.
  - destruct (Z.ltb_spec (result_out o * base + d) (2 ^ 64)); [lia|done].
Qed.

Lemma digits_spec options base : 1 <= base -> forall s t found o,
  Forall (digit_in base) s -> stops base t -> 0 <= result_out o < 2 ^ 64 ->
  exists r o', sv_digits options base found (s ++ t) o = Ok (r, o') /\
  let v := value_from base (result_out o) s in
  match r with
  | inr f => v < 2 ^ 64 /\ f = (found || negb (length s =? 0)%nat) /\ o' = Outs (Some t) v /\
             (length t =? 0)%nat || dont_parse_to_end options = true
  | inl e => if v <? 2 ^ 64
             then e = E_STR_TO_NUM_INVALID_CHAR /\
                  (length t =? 0)%nat || dont_parse_to_end options = false
             else e = E_STR_TO_NUM_OVERFLOW
  end.
Proof.
  intros Hb. induction s as [|c s IH]; intros t found o Hs Ht Hr.
  - destruct t as [|c t]; cbn [app sv_digits].
    + do 2 eexists. split; [done|]. simpl. rewrite orb_false_r. split_and!; [lia|done..].
    + destruct Ht as [Hc Hv]. rewrite digit_of_eq by done. rewrite outcome_bind_ok, Z.geb_leb.
      rewrite (proj2 (Z.leb_le base (digit_val c))) by done. simpl.
      destruct (dont_parse_to_end options); simpl; do 2 eexists; (split; [done|]); simpl.
      * rewrite orb_false_r. split_and!; [lia|done..].
      * destruct (Z.ltb_spec (result_out o) (2 ^ 64)); [done|lia].
  - apply Forall_cons in Hs as [[Hc Hv] Hs]. cbn [app sv_digits].
    rewrite digit_of_eq by done. rewrite outcome_bind_ok, Z.geb_leb.
    rewrite (proj2 (Z.leb_gt base (digit_val c))) by done.
    pose proof (digit_val_nonneg c) as Hd.
    pose proof (push_digit_spec base (digit_val c) o Hb Hd ltac:(lia)) as Hp.
    unfold value_from. cbn [foldl]. fold (value_from base (result_out o * base + digit_val c) s).
    destruct (Z.ltb_spec (result_out o * base + digit_val c) (2 ^ 64)).
    + rewrite Hp. cbn [negb].
      destruct (IH t true (set_result (result_out o * base + digit_val c) o) Hs Ht)
        as (r & o' & -> & Hres); [simpl; nia|].
      do 2 eexists. split; [done|]. simpl in Hres. destruct r; [done|].
      simpl. by rewrite orb_true_r.
    + destruct (push_digit base (digit_val c) o) as [ok o'] eqn:E. simpl in Hp. subst ok.
      simpl. do 2 eexists. split; [done|]. simpl.
      pose proof (value_from_ge base (result_out o * base + digit_val c) s Hb ltac:(nia)).
      destruct (Z.ltb_spec (value_from base (result_out o * base + digit_val c) s) (2 ^ 64));
        [lia|done].
Qed.

(** Reading an unsigned number once the base is known. *)
Lemma number_spec options base fz s t o : 1 <= base -> numeral base s -> stops base t ->
  exists r o', sv_number options false false base fz (s ++ t) o = Ok (r, o') /\
  read_result options (value base s) t r o'.
Proof.
  intros Hb [Hne Hs] Ht. unfold sv_number, read_result, value.
  destruct (digits_spec options base Hb s t fz (set_result 0 o) Hs Ht) as (r & o' & -> & Hres);
    [simpl; lia|].
  rewrite outcome_bind_ok. change (result_out (set_result 0 o)) with 0 in Hres.
  destruct r as [e|f]; simpl in Hres.
  - do 2 eexists. split; [done|]. destruct (_ <? _); [|done].
    destruct Hres as [-> ->]. done.
  - destruct Hres as (Hlt & -> & -> & ->). unfold finish_number.
    destruct s; [done|]. cbn [length Nat.eqb negb andb]. rewrite orb_true_r.
    do 2 eexists. split; [done|]. by rewrite (proj2 (Z.ltb_lt _ _)).
Qed.

(** A text that starts with a digit or a plus sign. *)
Lemma digit_not_special base c : digit_in base c -> base <= 36 ->
  isspace c = Ok 0 /\ c <> 45 /\ c <> 43.
Proof.
  intros [Hc Hv] Hb. rewrite isspace_eq by done. unfold ascii in Hc.
  unfold digit_val, is_digit_b, is_upper_b, is_lower_b, between in *.
  assert (48 <= c) as H48.
  { destruct (Z.leb_spec 48 c); [done|]. simpl in Hv.
    destruct (Z.leb_spec 65 c); [lia|]. destruct (Z.leb_spec 97 c); [lia|]. simpl in Hv. lia. }
  rewrite (proj2 (Z.leb_gt c 13)), (proj2 (Z.eqb_neq c 32)) by lia.
  rewrite andb_false_r. split_and!; [done|lia|lia].
Qed.

Lemma convert_digit_first options sg s o base c : digit_in base c -> base <= 36 ->
  convert_sv_to_64int (c :: s) options sg o = sv_prefixed options sg false (c :: s) o.
Proof.
  intros Hc Hb. destruct (digit_not_special base c Hc Hb) as (Hsp & H1 & H2).
  unfold convert_sv_to_64int. cbn [length Nat.eqb].
  assert (sv_whitespace options (c :: s) = Ok (inr (c :: s))) as ->.
  { unfold sv_whitespace. destruct (skip_leading_whitespace options); [|done].
    cbn [sv_skip_whitespace]. by rewrite Hsp. }
  rewrite outcome_bind_ok. unfold sv_sign, sv_char. simpl.
  by rewrite (proj2 (Z.eqb_neq c 45)), (proj2 (Z.eqb_neq c 43)) by done.
Qed.

Lemma convert_sign_first options sg s o sign : s <> [] ->
  sign = 43 /\ dont_allow_pos_sign options = false \/ sign = 45 /\ sg = true ->
  convert_sv_to_64int (sign :: s) options sg o = sv_prefixed options sg (sign =? 45) s o.
Proof.
  intros Hne Hsign. unfold convert_sv_to_64int. cbn [length Nat.eqb].
  assert (sv_whitespace options (sign :: s) = Ok (inr (sign :: s))) as ->.
  { unfold sv_whitespace. destruct (skip_leading_whitespace options); [|done].
    by destruct Hsign as [[-> _]|[-> _]]. }
  rewrite outcome_bind_ok. unfold sv_sign, sv_char. destruct s as [|d s]; [done|].
  by destruct Hsign as [[-> H]|[-> ->]]; simpl; [rewrite H|].
Qed.

(** Without a prefix: [s] is a numeral of the default base and does not begin
    with a zero that could start one. *)
Definition no_leading_zero (s t : list Z) : Prop :=
  head s = Some 48 -> s = [48] /\ t = [].

Lemma prefixed_plain options s t o : let base := default_base options in
  1 <= base -> numeral base s -> stops base t -> no_leading_zero s t ->
  exists r o', sv_prefixed options false false (s ++ t) o = Ok (r, o') /\
  read_result options (value base s) t r o'.
Proof.
  intros base Hb [Hne Hs] Ht Hz. destruct s as [|c s]; [done|].
  unfold sv_prefixed, sv_char. simpl. destruct (Z.eqb_spec c 48) as [->|Hc].
  - destruct (Hz eq_refl) as [[= ->] ->]. simpl. do 2 eexists. split; [done|].
    unfold value. simpl. done.
  - by apply (number_spec options base false (c :: s) t o Hb).
Qed.

(** ** Printing *)

(** [s] stands in the buffer from index [i] on. *)
Definition at_ (buffer : list Z) (i : Z) (s : list Z) : Prop :=
  exists p q, buffer = p ++ s ++ q /\ Z.of_nat (length p) = i.

Lemma put_ok buffer i c : 0 <= i < Z.of_nat (length buffer) ->
  put buffer i c = Ok (<[Z.to_nat i := c]> buffer).
Proof.
  intros Hi. unfold put. rewrite (proj2 (Z.leb_le 0 i)), (proj2 (Z.ltb_lt i _)) by lia. done.
Qed.

Lemma at_bounds buffer i s : at_ buffer i s ->
  0 <= i /\ i + Z.of_nat (length s) <= Z.of_nat (length buffer).
Proof. intros (p & q & -> & <-). rewrite !length_app. lia. Qed.

(** Writing just below a text extends it downwards. *)
Lemma put_front buffer i s c : at_ buffer (i + 1) s -> 0 <= i ->
  exists buffer', put buffer i c = Ok buffer' /\ at_ buffer' i (c :: s) /\
  length buffer' = length buffer.
Proof.
  intros (p & q & -> & Hp) Hi.
  destruct p as [|x p] using rev_ind; [simpl in Hp; lia|]. clear IHp.
  rewrite length_app in Hp. simpl in Hp.
  rewrite put_ok by (rewrite !length_app; simpl; lia).
  eexists. split; [done|]. split; [|by rewrite length_insert].
  exists p, q. split; [|lia]. rewrite <- !app_assoc.
  replace (Z.to_nat i) with (length p + 0)%nat by lia. by rewrite insert_app_r.
Qed.

(** Writing further below leaves it alone. *)
Lemma put_below buffer i s j c : at_ buffer i s -> 0 <= j < i ->
  exists buffer', put buffer j c = Ok buffer' /\ at_ buffer' i s /\
  length buffer' = length buffer /\ buffer' !! Z.to_nat j = Some c.
Proof.
  intros (p & q & -> & Hp) Hj.
  rewrite put_ok by (rewrite !length_app; simpl; lia).
  eexists. split; [done|]. rewrite insert_app_l by lia. split_and!.
  - exists (<[Z.to_nat j := c]> p), q. split; [done|]. by rewrite length_insert.
  - by rewrite !length_app, length_insert.
  - rewrite lookup_app_l by (rewrite length_insert; lia).
    apply list_lookup_insert_eq. lia.
Qed.

Lemma at_cons buffer i s c : at_ buffer (i + 1) s -> 0 <= i ->
  buffer !! Z.to_nat i = Some c -> at_ buffer i (c :: s).
Proof.
  intros (p & q & -> & Hp) Hi Hl.
  destruct p as [|x p] using rev_ind; [simpl in Hp; lia|]. clear IHp.
  rewrite length_app in Hp. simpl in Hp. rewrite <- app_assoc in Hl.
  rewrite lookup_app_r in Hl by lia. replace (Z.to_nat i - length p)%nat with 0%nat in Hl by lia.
  injection Hl as ->. exists p, q. split; [by rewrite <- app_assoc|lia].
Qed.

Lemma view_at buffer i s e t : at_ buffer i (s ++ t) -> i + Z.of_nat (length s) = e ->
  sv_create_end buffer i e = Ok s.
Proof.
  intros (p & q & -> & Hp) <-. unfold sv_create_end.
  rewrite (proj2 (Z.leb_le i _)) by lia. simpl. f_equal.
  replace (Z.to_nat i) with (length p) by lia.
  rewrite drop_app_length. replace (Z.to_nat _) with (length s) by lia.
  by rewrite <- app_assoc, take_app_length.
Qed.

(** The digits a loop of a printer leaves: a numeral for [n] without a leading
    zero, of at most [k] digits. *)
Definition printed (base n : Z) (k : nat) (ds : list Z) : Prop :=
  numeral base ds /\ value base ds = n /\ (length ds <= k)%nat /\
  (head ds = Some 48 -> ds = [48]).

Lemma printed_one options base n : 2 <= base <= 36 -> 0 <= n < base ->
  exists c, digit_char options n = Ok c /\ printed base n 1 [c].
Proof.
  intros Hb Hn. destruct (digit_char_eq options n) as (c & Hc & Ha & Hv & Hz); [lia|].
  exists c. split; [done|]. split_and!.
  - split; [done|]. apply Forall_singleton. split; [done|lia].
  - unfold value, value_from. simpl. lia.
  - simpl. lia.
  - simpl. by intros [= ->].
Qed.

Lemma printed_snoc options base n k ds : 2 <= base <= 36 -> base <= n ->
  printed base (n / base) k ds ->
  exists c, digit_char options (n `mod` base) = Ok c /\ printed base n (S k) (ds ++ [c]).
Proof.
  intros Hb Hn ([Hne Hds] & Hv & Hl & Hz).
  pose proof (Z.mod_pos_bound n base ltac:(lia)). pose proof (Z.div_mod n base ltac:(lia)).
  destruct (digit_char_eq options (n `mod` base)) as (c & Hc & Ha & Hcv & _); [lia|].
  exists c. split; [done|]. split_and!.
  - split; [by destruct ds|]. apply Forall_app. split; [done|].
    apply Forall_singleton. split; [done|lia].
  - unfold value in *. rewrite value_from_app, Hv. unfold value_from. simpl. lia.
  - rewrite length_app. simpl. lia.
  - destruct ds as [|d ds]; [done|]. simpl. intros [= ->].
    specialize (Hz eq_refl) as [= ->]. exfalso. unfold value, value_from in Hv. simpl in Hv.
    change (digit_val 48) with 0 in Hv.
    assert (1 <= n / base) by (apply Z.div_le_lower_bound; lia). lia.
Qed.

(** The digits themselves. *)
Definition digit_text (options : num_to_str_options) (d : Z) : Z :=
  match digit_char options d with Ok c => c | _ => 0 end.
Fixpoint num_text (fuel : nat) (options : num_to_str_options) (base n : Z) : list Z :=
  match fuel with
  | O => []
  | S fuel =>
      if n <? base then [digit_text options n]
      else num_text fuel options base (n / base) ++ [digit_text options (n `mod` base)]
  end.

Lemma digit_text_eq options d c : digit_char options d = Ok c -> digit_text options d = c.
Proof. unfold digit_text. by intros ->. Qed.

Lemma num_text_last options base n fuel c : n < base -> digit_char options n = Ok c ->
  num_text (S fuel) options base n = [c].
Proof. intros Hn Hc. simpl. by rewrite (proj2 (Z.ltb_lt n base)), (digit_text_eq _ _ _ Hc). Qed.

Lemma num_text_snoc options base n fuel c : base <= n -> digit_char options (n `mod` base) = Ok c ->
  num_text (S fuel) options base n = num_text fuel options base (n / base) ++ [c].
Proof.
  intros Hn Hc. cbn [num_text]. by rewrite (proj2 (Z.ltb_ge n base)), (digit_text_eq _ _ _ Hc).
Qed.

Lemma positive_digits_spec options base : 2 <= base <= 36 -> forall k n i buffer s fuel,
  0 <= n < base ^ Z.of_nat (S k) -> (k < fuel)%nat -> Z.of_nat k <= i ->
  at_ buffer (i + 1) s ->
  exists buffer' i' ds, positive_digits fuel base options n i buffer = Ok (buffer', i') /\
  printed base n (S k) ds /\ at_ buffer' i' (ds ++ s) /\
  i' = i + 1 - Z.of_nat (length ds) /\ length buffer' = length buffer /\
  ds = num_text fuel options base n.
Proof.
  intros Hb. induction k as [|k IH]; intros n i buffer s fuel Hn Hf Hi Hat;
    (destruct fuel as [|fuel]; [lia|]); cbn [positive_digits];
    pose proof (Z.mod_pos_bound n base ltac:(lia)).
  - change (base ^ Z.of_nat 1) with (base ^ 1) in Hn. rewrite Z.pow_1_r in Hn.
    rewrite Z.mod_small by lia. destruct (printed_one options base n Hb Hn) as (c & Hc & Hp). rewrite Hc.
    destruct (put_front buffer i s c Hat ltac:(lia)) as (b & Hput & Hatb & Hlb).
    rewrite outcome_bind_ok, Hput, outcome_bind_ok, (proj2 (Z.ltb_lt n base)) by lia.
    exists b, i, [c]. rewrite (num_text_last options base n fuel c) by (done || lia).
    split_and!; [done|done|done|simpl; lia|done|done].
  - destruct (Z.ltb_spec n base) as [Hlt|Hge].
    + rewrite Z.mod_small by lia.
      destruct (printed_one options base n Hb ltac:(lia)) as (c & Hc & Hp). rewrite Hc.
      destruct (put_front buffer i s c Hat ltac:(lia)) as (b & Hput & Hatb & Hlb).
      rewrite outcome_bind_ok, Hput, outcome_bind_ok.
      exists b, i, [c]. destruct Hp as (P1 & P2 & P3 & P4).
      rewrite (num_text_last options base n fuel c) by (done || lia).
      split_and!; [done|split_and!; [done..|lia|done]|done|simpl; lia|done|done].
    + pose proof (Z.div_mod n base ltac:(lia)).
      destruct (digit_char_eq options (n `mod` base)) as (c & Hc & _); [lia|].
      destruct (put_front buffer i s c Hat ltac:(lia)) as (b & Hput & Hatb & Hlb).
      rewrite Hc, outcome_bind_ok, Hput, outcome_bind_ok.
      rewrite (proj2 (Z.eqb_neq i 0)) by lia. cbn [negb c_assert]. rewrite outcome_bind_ok.
      assert (0 <= n / base < base ^ Z.of_nat (S k)) as Hdiv.
      { split; [apply Z.div_pos; lia|]. apply Z.div_lt_upper_bound; [lia|].
        rewrite Nat2Z.inj_succ, Z.pow_succ_r in Hn by lia. lia. }
      destruct (IH (n / base) (i - 1) b (c :: s) fuel Hdiv) as (b' & i' & ds & -> & Hp & Ha & -> & Hl' & Hds);
        [lia|lia|by replace (i - 1 + 1) with i by lia|].
      destruct (printed_snoc options base n (S k) ds Hb Hge Hp) as (c' & Hc' & Hp').
      assert (c' = c) as -> by congruence.
      exists b', (i - 1 + 1 - Z.of_nat (length ds)), (ds ++ [c]). rewrite length_app.
      rewrite (num_text_snoc options base n fuel c), <- Hds by (done || lia).
      split_and!; [done|done| |simpl; lia|congruence|done].
      by rewrite <- app_assoc.
Qed.

Lemma rem_quot_neg n base : n < 0 -> 0 < base ->
  0 - Z.rem n base = (- n) `mod` base /\ Z.quot n base = - (- n / base).
Proof.
  intros Hn Hb. split.
  - replace n with (- - n) at 1 by lia. rewrite Z.rem_opp_l by lia.
    rewrite Z.rem_mod_nonneg by lia. lia.
  - replace n with (- - n) at 1 by lia. rewrite Z.quot_opp_l by lia.
    by rewrite Z.quot_div_nonneg by lia.
Qed.

Lemma negative_digits_spec options base : 2 <= base <= 36 -> forall k n i buffer s fuel,
  n < 0 -> - n < base ^ Z.of_nat (S k) -> (k < fuel)%nat -> Z.of_nat (S k) <= i ->
  at_ buffer (i + 1) s ->
  exists buffer' i' ds, negative_digits fuel base options n i buffer = Ok (buffer', i') /\
  printed base (- n) (S k) ds /\ at_ buffer' (i' + 1) (ds ++ s) /\
  i' = i - Z.of_nat (length ds) /\ length buffer' = length buffer /\
  ds = num_text fuel options base (- n).
Proof.
  intros Hb. induction k as [|k IH]; intros n i buffer s fuel Hn Hlt Hf Hi Hat;
    (destruct fuel as [|fuel]; [lia|]); cbn [negative_digits];
    destruct (rem_quot_neg n base Hn ltac:(lia)) as [-> Hq];
    pose proof (Z.mod_pos_bound (- n) base ltac:(lia));
    rewrite Z.gtb_ltb.
  - change (base ^ Z.of_nat 1) with (base ^ 1) in Hlt. rewrite Z.pow_1_r in Hlt.
    rewrite Z.mod_small by lia.
    destruct (printed_one options base (- n) Hb ltac:(lia)) as (c & Hc & Hp). rewrite Hc.
    destruct (put_front buffer i s c Hat ltac:(lia)) as (b & Hput & Hatb & Hlb).
    rewrite outcome_bind_ok, Hput, outcome_bind_ok, (proj2 (Z.eqb_neq i 0)) by lia.
    cbn [negb c_assert]. rewrite outcome_bind_ok, (proj2 (Z.ltb_lt (0 - base) n)) by lia.
    exists b, (i - 1), [c]. rewrite (num_text_last options base (- n) fuel c) by (done || lia).
    split_and!; [done|done|by replace (i - 1 + 1) with i by lia|simpl; lia|done|done].
  - destruct (digit_char_eq options ((- n) `mod` base)) as (c & Hc & _); [lia|].
    destruct (put_front buffer i s c Hat ltac:(lia)) as (b & Hput & Hatb & Hlb).
    rewrite Hc, outcome_bind_ok, Hput, outcome_bind_ok, (proj2 (Z.eqb_neq i 0)) by lia.
    cbn [negb c_assert]. rewrite outcome_bind_ok.
    destruct (Z.ltb_spec (0 - base) n) as [Hsm|Hge].
    + rewrite Z.mod_small in Hc by lia.
      destruct (printed_one options base (- n) Hb ltac:(lia)) as (c' & Hc' & Hp).
      assert (c' = c) as -> by congruence. destruct Hp as (P1 & P2 & P3 & P4).
      exists b, (i - 1), [c]. rewrite (num_text_last options base (- n) fuel c) by (done || lia).
      split_and!; [done|split_and!; [done..|lia|done]| |simpl; lia|done|done].
      by replace (i - 1 + 1) with i by lia.
    + assert (1 <= - n / base) by (apply Z.div_le_lower_bound; lia).
      rewrite Hq. rewrite (proj2 (Z.eqb_neq _ 0)) by lia. cbn [negb].
      assert (- - (- n / base) < base ^ Z.of_nat (S k)) as Hdiv.
      { rewrite Z.opp_involutive. apply Z.div_lt_upper_bound; [lia|].
        rewrite Nat2Z.inj_succ, Z.pow_succ_r in Hlt by lia. lia. }
      destruct (IH (- (- n / base)) (i - 1) b (c :: s) fuel ltac:(lia) Hdiv)
        as (b' & i' & ds & -> & Hp & Ha & -> & Hl' & Hds);
        [lia|lia|by replace (i - 1 + 1) with i by lia|].
      rewrite Z.opp_involutive in Hp, Hds.
      destruct (printed_snoc options base (- n) (S k) ds Hb ltac:(lia) Hp) as (c' & Hc' & Hp').
      assert (c' = c) as -> by congruence.
      exists b', (i - 1 - Z.of_nat (length ds)), (ds ++ [c]). rewrite length_app.
      rewrite (num_text_snoc options base (- n) fuel c), <- Hds by (done || lia).
      split_and!; [done|done| |simpl; lia|congruence|done].
      by rewrite <- app_assoc.
Qed.

(** The prefix that the options ask for, where the code writes it in full. *)
Definition prefix_text (base : Z) (options : num_to_str_options) : list Z :=
  if include_prefix options then
    let letter (upper lower : Z) := if capitalize_prefix options then upper else lower in
    [48; if base =? 2 then letter 66 98 else if base =? 8 then letter 79 111
         else if base =? 16 then letter 88 120 else letter 65 97]
  else [].
Definition prefix_written (base : Z) (options : num_to_str_options) : Prop :=
  include_prefix options = true ->
  base = 2 \/ base = 8 /\ use_0_octal_prefix options = false \/ base = 16.

Lemma put_prefix_spec base options i buffer s : prefix_written base options ->
  2 <= i < 256 -> at_ buffer i s ->
  exists buffer' i', put_prefix base options i buffer = Ok (buffer', i') /\
  at_ buffer' i' (prefix_text base options ++ s) /\
  i' = i - Z.of_nat (length (prefix_text base options)) /\ length buffer' = length buffer.
Proof.
  intros Hw Hi Hat. unfold put_prefix, prefix_text.
  destruct (include_prefix options) eqn:Hinc.
  2:{ exists buffer, i. simpl. split_and!; [done|done|lia|done]. }
  destruct (put_below buffer i s (i - 2) 48 Hat ltac:(lia)) as (b & -> & Hatb & Hlb & Hb2).
  rewrite outcome_bind_ok.
  assert (forall c, exists b', put b (i - 1) c = Ok b' /\ at_ b' (i - 2) (48 :: c :: s) /\
    length b' = length buffer) as Hput.
  { intros c. destruct (put_front b (i - 1) s c) as (b' & Hp & Ha & Hl);
      [by replace (i - 1 + 1) with i by lia|lia|].
    exists b'. split; [done|]. split; [|congruence]. apply at_cons; [|lia|].
    - by replace (i - 2 + 1) with (i - 1) by lia.
    - rewrite put_ok in Hp by (apply at_bounds in Hatb; lia). injection Hp as <-.
      rewrite list_lookup_insert_ne by lia. done. }
  assert (u8 (i - 2) = i - 2) as Hu by (apply wrap_small; unfold_ints; lia).
  unfold NUMERIC_BASE_2, NUMERIC_BASE_8, NUMERIC_BASE_16.
  destruct (Hw Hinc) as [->|[[-> Hoct]| ->]]; simpl; try rewrite Hoct; simpl.
  - destruct (Hput (if capitalize_prefix options then 66 else 98)) as (b' & -> & Ha & Hl).
    simpl. rewrite Hu. do 2 eexists. split; [done|]. split_and!; [done|lia|done].
  - destruct (Hput (if capitalize_prefix options then 79 else 111)) as (b' & -> & Ha & Hl).
    simpl. rewrite Hu. do 2 eexists. split; [done|]. split_and!; [done|lia|done].
  - destruct (Hput (if capitalize_prefix options then 88 else 120)) as (b' & -> & Ha & Hl).
    simpl. rewrite Hu. do 2 eexists. split; [done|]. split_and!; [done|lia|done].
Qed.

(** The digits of a 64-bit number fit the room each base is given. *)
Definition max_digits (base : Z) : nat :=
  if base =? 2 then 64 else if base =? 8 then 22 else if base =? 10 then 20 else 16.
Definition printable_base (base : Z) : Prop :=
  base = 2 \/ base = 8 \/ base = 10 \/ base = 16.

Lemma unsigned_room base : printable_base base ->
  2 <= base <= 36 /\ 2 ^ 64 <= base ^ Z.of_nat (max_digits base) /\
  unsigned_final_index base = signed_final_index base /\
  Z.of_nat (max_digits base) <= unsigned_final_index base - 1 /\
  (base <> 10 -> Z.of_nat (max_digits base) <= unsigned_final_index base - 3) /\
  unsigned_final_index base <= 67 /\ (1 <= max_digits base < digits_fuel)%nat.
Proof. intros [->|[->|[->| ->]]]; split_and!; vm_compute; lia || congruence. Qed.

Definition sign_text (options : num_to_str_options) : list Z :=
  if include_pos_sign options then [43] else [].

Lemma positive_spec base options n buffer : printable_base base ->
  prefix_written base options -> 0 <= n < 2 ^ 64 -> 68 <= Z.of_nat (length buffer) ->
  exists buffer' i ds,
    LOOP_OVER_POSITIVE_INT base options n (unsigned_final_index base - 1) buffer =
      Ok (buffer', i) /\ printed base n (max_digits base) ds /\
    at_ buffer' i ((sign_text options ++ prefix_text base options ++ ds) ++ [0]) /\
    i + Z.of_nat (length (sign_text options ++ prefix_text base options ++ ds)) =
      unsigned_final_index base /\ length buffer' = length buffer /\
    ds = num_text digits_fuel options base n.
Proof.
  intros Hb Hw Hn Hlen.
  destruct (unsigned_room base Hb) as (Hb36 & Hpow & _ & Hroom & Hroom' & Hfin & Hmax).
  set (f := unsigned_final_index base) in *.
  unfold LOOP_OVER_POSITIVE_INT. replace (f - 1 + 1) with f by lia.
  rewrite put_ok by lia. rewrite outcome_bind_ok.
  set (b0 := <[Z.to_nat f := 0]> buffer).
  assert (length b0 = length buffer) as Hl0 by (unfold b0; by rewrite length_insert).
  assert (at_ b0 f [0]) as Hat.
  { exists (take (Z.to_nat f) buffer), (drop (S (Z.to_nat f)) buffer). split.
    - unfold b0. rewrite insert_take_drop by lia. done.
    - rewrite length_take. lia. }
  destruct (max_digits base) as [|k] eqn:Hk; [lia|].
  destruct (positive_digits_spec options base Hb36 k n (f - 1) b0 [0] digits_fuel)
    as (b1 & i1 & ds & -> & Hp & Ha1 & Hi1 & Hl1 & Hdt); [lia|lia|lia|by replace (f - 1 + 1) with f by lia|].
  rewrite outcome_bind_ok. pose proof Hp as (_ & _ & Hds & _).
  assert (exists b2 i2, put_prefix base options i1 b1 = Ok (b2, i2) /\
    at_ b2 i2 (prefix_text base options ++ ds ++ [0]) /\
    i2 = i1 - Z.of_nat (length (prefix_text base options)) /\ length b2 = length b1 /\
    1 <= i2 < 256) as (b2 & i2 & -> & Ha2 & Hi2 & Hl2 & Hr2).
  { unfold put_prefix, prefix_text. destruct (include_prefix options) eqn:Hinc.
    - destruct (put_prefix_spec base options i1 b1 (ds ++ [0]) Hw) as (b2 & i2 & H1 & H2 & H3 & H4);
        [destruct (Hw Hinc) as [->|[[-> _]| ->]]; lia|done|].
      unfold put_prefix, prefix_text in *. rewrite Hinc in *.
      exists b2, i2. split_and!; [done..| |];
        destruct (Hw Hinc) as [->|[[-> _]| ->]]; simpl in H3; lia.
    - exists b1, i1. simpl. split_and!; [done|done|lia|done|lia|lia]. }
  rewrite outcome_bind_ok. unfold sign_text.
  destruct (include_pos_sign options).
  - assert (u8 (i2 - 1) = i2 - 1) as -> by (apply wrap_small; unfold_ints; lia).
    destruct (put_front b2 (i2 - 1) (prefix_text base options ++ ds ++ [0]) 43)
      as (b3 & -> & Ha3 & Hl3); [by replace (i2 - 1 + 1) with i2 by lia|lia|].
    exists b3, (i2 - 1), ds. split_and!; [done|done| | |congruence|done].
    + by rewrite <- !app_assoc.
    + rewrite !length_app. simpl. lia.
  - exists b2, i2, ds. split_and!; [done|done| | |congruence|done].
    + by rewrite <- !app_assoc.
    + rewrite !length_app. simpl. lia.
Qed.

Lemma signed_negative_spec base options n buffer : printable_base base ->
  include_prefix options = false -> - 2 ^ 63 <= n < 0 -> 68 <= Z.of_nat (length buffer) ->
  exists buffer' ds,
  signed_to_string_view n base buffer options = Ok (buffer', 45 :: ds) /\
  length buffer' = length buffer /\ printed base (- n) (max_digits base) ds /\
  ds = num_text digits_fuel options base (- n).
Proof.
  intros Hb Hinc Hn Hlen.
  destruct (unsigned_room base Hb) as (Hb36 & Hpow & Hfin & Hr1 & _ & Hr2 & Hm).
  set (f := unsigned_final_index base) in *.
  unfold signed_to_string_view, LOOP_OVER_SIGNED_INT. rewrite <- Hfin.
  rewrite (wrap_small 8) by (unfold_ints; lia). rewrite (proj2 (Z.ltb_lt n 0)) by lia.
  replace (f - 1 + 1) with f by lia. rewrite put_ok by lia. rewrite outcome_bind_ok.
  destruct (max_digits base) as [|k] eqn:Hk; [lia|].
  destruct (negative_digits_spec options base Hb36 k n (f - 1) (<[Z.to_nat f := 0]> buffer) [0]
    digits_fuel) as (b1 & i1 & ds & -> & Hp & Ha & Hi & Hl & Hdt); [lia..| |].
  { replace (f - 1 + 1) with f by lia.
    exists (take (Z.to_nat f) buffer), (drop (S (Z.to_nat f)) buffer). split.
    - rewrite insert_take_drop by lia. done.
    - rewrite length_take. lia. }
  rewrite length_insert in Hl. rewrite outcome_bind_ok. unfold put_prefix.
  rewrite Hinc, outcome_bind_ok. pose proof Hp as (_ & _ & Hds & _).
  destruct (put_front b1 i1 (ds ++ [0]) 45 Ha ltac:(lia)) as (b2 & -> & Ha2 & Hl2).
  rewrite !outcome_bind_ok. exists b2, ds.
  rewrite (view_at b2 i1 (45 :: ds) f [0]); [|done|simpl; lia].
  rewrite outcome_bind_ok. split_and!; [done|congruence|done|done].
Qed.

(** The whole text of a number, for any buffer that is large enough. *)
Lemma unsigned_view base options n buffer : printable_base base ->
  prefix_written base options -> in_u 64 n -> 68 <= Z.of_nat (length buffer) ->
  let ds := num_text digits_fuel options base n in
  exists buffer', unsigned_to_string_view n base buffer options =
    Ok (buffer', sign_text options ++ prefix_text base options ++ ds) /\
  length buffer' = length buffer /\ printed base n (max_digits base) ds.
Proof.
  intros Hb Hw Hn Hlen ds.
  destruct (positive_spec base options n buffer Hb Hw Hn Hlen)
    as (b & i & ds' & Hloop & Hp & Hat & Hi & Hl & Hdt).
  destruct (unsigned_room base Hb) as (_ & _ & _ & Hr1 & _ & Hr2 & _).
  unfold unsigned_to_string_view. rewrite (wrap_small 8) by (unfold_ints; lia).
  exists b. rewrite Hloop, outcome_bind_ok, (view_at b i _ _ [0] Hat Hi), outcome_bind_ok.
  subst ds'. done.
Qed.

Lemma signed_view base options n buffer : printable_base base ->
  include_prefix options = false -> in_s 64 n -> 68 <= Z.of_nat (length buffer) ->
  let ds := num_text digits_fuel options base (Z.abs n) in
  exists buffer', signed_to_string_view n base buffer options =
    Ok (buffer', (if n <? 0 then [45] else sign_text options) ++ ds) /\
  length buffer' = length buffer /\ printed base (Z.abs n) (max_digits base) ds.
Proof.
  intros Hb Hinc Hn Hlen ds. unfold ds, in_s in *.
  destruct (Z.ltb_spec n 0) as [Hneg|Hpos].
  - destruct (signed_negative_spec base options n buffer Hb Hinc) as (b & ds' & -> & Hl & Hp & ->);
      [lia|lia|]. exists b. rewrite Z.abs_neq by lia. done.
  - destruct (unsigned_room base Hb) as (_ & _ & Hfin & Hr1 & _ & Hr2 & _).
    unfold signed_to_string_view, LOOP_OVER_SIGNED_INT. rewrite <- Hfin.
    rewrite (wrap_small 8) by (unfold_ints; lia). rewrite (proj2 (Z.ltb_ge n 0)) by lia.
    destruct (positive_spec base options n buffer Hb) as (b & i & ds' & -> & Hp & Ha & Hi & Hl & ->);
      [intros E; congruence|lia|lia|].
    assert (prefix_text base options = []) as E by (unfold prefix_text; by rewrite Hinc).
    rewrite E in *. exists b. rewrite outcome_bind_ok, (view_at b i _ _ [0] Ha Hi).
    rewrite outcome_bind_ok, Z.abs_eq by lia. done.
Qed.

(** An option set that refuses nothing. *)
Definition accepts_all (options : str_to_num_options) : Prop :=
  dont_allow_pos_sign options = false /\
  dont_allow_base_2 options = false /\ dont_allow_base_8 options = false /\
  dont_allow_base_16 options = false /\
  dont_allow_0b_prefix options = false /\ dont_allow_0B_prefix options = false /\
  dont_allow_0o_prefix options = false /\ dont_allow_0O_prefix options = false /\
  dont_allow_0x_prefix options = false /\ dont_allow_0X_prefix options = false.

Lemma digit_not_sign base ds c : numeral base ds -> base <= 36 -> head ds = Some c ->
  digit_in base c.
Proof. intros [Hne Hds] Hb. destruct ds; [done|]. intros [= ->]. by apply Forall_cons in Hds as [? _]. Qed.

(** Reading back what a printer wrote, from the prefix on. *)
Lemma prefixed_printed popts options base n k ds o : printable_base base ->
  accepts_all popts -> prefix_written base options -> default_base popts = base ->
  printed base n k ds -> n < 2 ^ 64 ->
  sv_prefixed popts false false (prefix_text base options ++ ds) o =
    Ok (E_STR_TO_NUM_OK, Outs (Some []) n).
Proof.
  intros Hb Hacc Hw Hdef (Hnum & Hval & _ & Hz) Hn.
  assert (1 <= base <= 36) as Hb36 by (destruct Hb as [->|[->|[->| ->]]]; lia).
  assert (forall r o', read_result popts (value base ds) [] r o' ->
    (r, o') = (E_STR_TO_NUM_OK, Outs (Some []) n)) as Hread.
  { intros r o'. unfold read_result. rewrite Hval, (proj2 (Z.ltb_lt _ _)) by done. simpl.
    by intros [-> ->]. }
  unfold prefix_text. destruct (include_prefix options) eqn:Hinc.
  - destruct (number_spec popts base false ds [] o ltac:(lia) Hnum I) as (r & o' & Heq & Hr).
    rewrite app_nil_r in Heq. apply Hread in Hr.
    destruct Hacc as (_ & A2 & A8 & A16 & Ab & AB & Ao & AO & Ax & AX).
    unfold sv_prefixed, sv_char, zero_prefix. rewrite <- Hr, <- Heq.
    destruct (Hw Hinc) as [->|[[-> _]| ->]]; simpl; destruct (capitalize_prefix options); simpl;
      rewrite ?A2, ?A8, ?A16, ?Ab, ?AB, ?Ao, ?AO, ?Ax, ?AX; reflexivity.
  - destruct (prefixed_plain popts ds [] o) as (r & o' & Heq & Hr);
      [rewrite Hdef; lia|by rewrite Hdef|done|intros H; by split; [apply Hz|]|].
    rewrite app_nil_r in Heq. rewrite Hdef in Hr. apply Hread in Hr. simpl. by rewrite Heq, Hr.
Qed.

Lemma prefix_or_digit base options n k ds : printable_base base -> prefix_written base options ->
  printed base n k ds -> exists c rest, prefix_text base options ++ ds = c :: rest /\ digit_in base c.
Proof.
  intros Hb Hw ([Hne Hds] & _). unfold prefix_text. destruct (include_prefix options).
  - do 2 eexists. split; [done|]. split; [unfold ascii; lia|].
    destruct Hb as [->|[->|[->| ->]]]; reflexivity.
  - destruct ds as [|c ds]; [done|]. apply Forall_cons in Hds as [Hc _]. simpl. eauto.
Qed.

(** A negative number is read as its digits; then the sign is looked at. *)
Lemma prefixed_negative popts base ds o : let v := value base ds in
  1 <= base -> default_base popts = base -> numeral base ds ->
  head ds <> Some 48 -> 0 <= v ->
  exists o', sv_prefixed popts true true ds o =
    Ok (if v <=? INT64_MAX then E_STR_TO_NUM_UNDERFLOW else E_STR_TO_NUM_OVERFLOW, o').
Proof.
  intros v Hb Hdef [Hne Hds] Hz Hv. unfold sv_prefixed, sv_char.
  destruct ds as [|c ds]; [done|]. cbn [head deref]. cbn [mbind outcome_bind].
  rewrite (proj2 (Z.eqb_neq c 48)) by naive_solver. rewrite Hdef. unfold sv_number.
  destruct (digits_spec popts base Hb (c :: ds) [] false (set_result 0 o) Hds I)
    as (r & o' & Heq & Hres); [simpl; lia|]. rewrite app_nil_r in Heq.
  rewrite Heq, outcome_bind_ok. change (result_out (set_result 0 o)) with 0 in Hres.
  fold (value base (c :: ds)) in Hres. fold v in Hres. destruct r as [e|f]; simpl in Hres.
  - destruct (Z.ltb_spec v (2 ^ 64)); [by destruct Hres|]. subst e. exists o'.
    destruct (Z.leb_spec v INT64_MAX); [lia|done].
  - destruct Hres as (Hlt & -> & -> & _). unfold finish_number. cbn [result_out andb negb].
    rewrite Z.gtb_ltb. destruct (Z.ltb_spec INT64_MAX v), (Z.leb_spec v INT64_MAX); try lia; [eauto|].
    unfold check_sub_s, fits_s.
    rewrite (proj2 (Z.leb_le (- 2 ^ (64 - 1)) (0 - v))), (proj2 (Z.ltb_lt (0 - v) _)) by lia.
    simpl. eauto.
Qed.

(** ** Properties *)

(** C9: the parser of C strings and the parser of string views are the same
    function: on a terminated string they give the same result code, the same
    number and the same rest (NULL where the view is empty), whatever follows
    the terminator; and both always answer on ASCII text. *)
Theorem cstr_sv_parsers_agree s rest options is_signed o : nonzero s ->
  convert_cstr_to_64int (s ++ 0 :: rest) options is_signed (cstr_outs rest o) =
    over (to_cstr rest) (convert_sv_to_64int s options is_signed o) /\
  (all_ascii_s s -> exists r, convert_sv_to_64int s options is_signed o = Ok r).
Proof.
  intros Hs. split; [by apply convert_cstr_sv|]. apply convert_sv_ok.
Qed.

Lemma cstr_sv_parsers_agree_witness :
  convert_cstr_to_64int ([32; 43; 49] ++ 0 :: [5]) (strtoul_options 10) true
    (cstr_outs [5] (Outs None 3)) =
    over (to_cstr [5]) (convert_sv_to_64int [32; 43; 49] (strtoul_options 10) true (Outs None 3)) /\
  (all_ascii_s [32; 43; 49] -> exists r,
    convert_sv_to_64int [32; 43; 49] (strtoul_options 10) true (Outs None 3) = Ok r).
Proof.
  apply (cstr_sv_parsers_agree [32; 43; 49] [5] (strtoul_options 10) true (Outs None 3)).
  repeat constructor; discriminate.
Defined.



(** C11: what [unsigned_to_string_view] writes in base 2, 8, 10 or 16, with
    any combination of sign, letter case and (outside base 10 and the one-digit
    octal prefix) prefix, [sv_to_unsigned] reads back as the same number; the
    writing stays inside the buffer and leaves it terminated. *)
Theorem unsigned_print_parse popts options base n buffer o :
  printable_base base -> prefix_written base options -> accepts_all popts ->
  default_base popts = base -> 0 <= n < 2 ^ 64 -> Z.of_nat (length buffer) = MAX_CONVERT_CAP ->
  exists buffer' sv, unsigned_to_string_view n base buffer options = Ok (buffer', sv) /\
  length buffer' = length buffer /\
  buffer' !! Z.to_nat (unsigned_final_index base) = Some 0 /\
  sv_to_unsigned sv popts o = Ok (E_STR_TO_NUM_OK, Outs (Some []) n).
Proof.
  intros Hb Hw Hacc Hdef Hn Hlen. change MAX_CONVERT_CAP with 68 in Hlen.
  destruct (positive_spec base options n buffer Hb Hw Hn ltac:(lia))
    as (b & i & ds & Hloop & Hp & Hat & Hi & Hl & _).
  set (sv := sign_text options ++ prefix_text base options ++ ds) in *.
  exists b, sv. unfold unsigned_to_string_view.
  destruct (unsigned_room base Hb) as (Hb36 & _ & _ & Hr1 & _ & Hr2 & _).
  rewrite (wrap_small 8) by (unfold_ints; lia). rewrite Hloop, outcome_bind_ok.
  rewrite (view_at b i sv _ [0] Hat Hi), outcome_bind_ok. split_and!; [done|done| |].
  - destruct Hat as (p & q & -> & Hpi). rewrite <- app_assoc, app_assoc.
    rewrite lookup_app_r by (rewrite length_app; lia). rewrite length_app.
    by replace (_ - _)%nat with 0%nat by lia.
  - unfold sv_to_unsigned, sv, sign_text.
    pose proof (prefixed_printed popts options base n _ ds o Hb Hacc Hw Hdef Hp ltac:(lia)) as Hread.
    destruct (prefix_or_digit base options n _ ds Hb Hw Hp) as (c & rest & E & Hc).
    destruct (include_pos_sign options); simpl.
    + rewrite convert_sign_first; [done|by rewrite E|left; by destruct Hacc].
    + rewrite E in *. rewrite (convert_digit_first popts false rest o base c Hc) by lia. done.
Qed.

Definition permissive (base : Z) : str_to_num_options :=
  STR_TO_NUM_OPTIONS base false false false false false false false false false false false
    false false false false false false false.
Definition ex_buffer : list Z := repeat 1 68.

Lemma unsigned_print_parse_witness :
  exists buffer' sv,
  unsigned_to_string_view 48879 16 ex_buffer (NUM_TO_STR_OPTIONS true true false true false) =
    Ok (buffer', sv) /\
  length buffer' = length ex_buffer /\
  buffer' !! Z.to_nat (unsigned_final_index 16) = Some 0 /\
  sv_to_unsigned sv (permissive 16) (Outs None 0) = Ok (E_STR_TO_NUM_OK, Outs (Some []) 48879).
Proof.
  apply (unsigned_print_parse (permissive 16) (NUM_TO_STR_OPTIONS true true false true false)
    16 48879 ex_buffer (Outs None 0)).
  - do 3 right. reflexivity.
  - intros _. right. right. reflexivity.
  - repeat split.
  - reflexivity.
  - lia.
  - reflexivity.
Defined.

(** without a prefix [signed_to_string_view] writes every 64-bit number,
    the most negative one included, as its sign and the canonical numeral of
    its absolute value, inside the buffer. *)
Theorem signed_print_spec options base n buffer :
  printable_base base -> include_prefix options = false -> in_s 64 n ->
  Z.of_nat (length buffer) = MAX_CONVERT_CAP ->
  exists buffer' ds,
  signed_to_string_view n base buffer options =
    Ok (buffer', (if n <? 0 then [45] else sign_text options) ++ ds) /\
  length buffer' = length buffer /\ printed base (Z.abs n) (max_digits base) ds.
Proof.
  intros Hb Hinc Hn Hlen. change MAX_CONVERT_CAP with 68 in Hlen.
  destruct (signed_view base options n buffer Hb Hinc Hn ltac:(lia)) as (b & H1 & H2 & H3).
  by exists b, (num_text digits_fuel options base (Z.abs n)).
Qed.

Lemma signed_print_spec_witness :
  exists buffer' ds,
  signed_to_string_view (- 2 ^ 63) 10 ex_buffer NUM_TO_STR_OPTIONS_INIT =
    Ok (buffer', (if - 2 ^ 63 <? 0 then [45] else sign_text NUM_TO_STR_OPTIONS_INIT) ++ ds) /\
  length buffer' = length ex_buffer /\ printed 10 (Z.abs (- 2 ^ 63)) (max_digits 10) ds.
Proof.
  apply (signed_print_spec NUM_TO_STR_OPTIONS_INIT 10 (- 2 ^ 63) ex_buffer).
  - right. right. left. reflexivity.
  - reflexivity.
  - split; vm_compute; congruence.
  - reflexivity.
Defined.

(** [sv_to_signed] never accepts a negative number: what
    [signed_to_string_view] writes for one is answered with an underflow, or
    with an overflow for the most negative one. *)
Theorem sv_to_signed_refuses_negatives popts options base n buffer o :
  printable_base base -> include_prefix options = false -> default_base popts = base ->
  - 2 ^ 63 <= n < 0 -> Z.of_nat (length buffer) = MAX_CONVERT_CAP ->
  exists buffer' sv o', signed_to_string_view n base buffer options = Ok (buffer', sv) /\
  sv_to_signed sv popts o =
    Ok (if n =? - 2 ^ 63 then E_STR_TO_NUM_OVERFLOW else E_STR_TO_NUM_UNDERFLOW, o').
Proof.
  intros Hb Hinc Hdef Hn Hlen.
  destruct (signed_negative_spec base options n buffer Hb Hinc Hn ltac:(change MAX_CONVERT_CAP with 68 in Hlen; lia))
    as (b & ds & -> & Hl & (Hnum & Hv & _ & Hz) & _).
  assert (1 <= base) by (destruct Hb as [->|[->|[->| ->]]]; lia).
  assert (head ds <> Some 48) as Hne.
  { intros E. rewrite (Hz E) in Hv. unfold value, value_from in Hv. simpl in Hv.
    change (digit_val 48) with 0 in Hv. lia. }
  destruct (prefixed_negative popts base ds o) as [o' Hread]; [done..|lia|].
  exists b, (45 :: ds), o'. split; [done|]. unfold sv_to_signed.
  rewrite convert_sign_first; [|by destruct Hnum|by right].
  simpl (45 =? 45). rewrite Hread, Hv.
  destruct (Z.leb_spec (- n) INT64_MAX), (Z.eqb_spec n (- 2 ^ 63)); try lia; done.
Qed.

Lemma sv_to_signed_refuses_negatives_witness :
  exists buffer' sv o',
  signed_to_string_view (-5) 10 ex_buffer NUM_TO_STR_OPTIONS_INIT = Ok (buffer', sv) /\
  sv_to_signed sv (permissive 10) (Outs None 0) =
    Ok (if -5 =? - 2 ^ 63 then E_STR_TO_NUM_OVERFLOW else E_STR_TO_NUM_UNDERFLOW, o').
Proof.
  apply (sv_to_signed_refuses_negatives (permissive 10) NUM_TO_STR_OPTIONS_INIT 10 (-5)
    ex_buffer (Outs None 0)); [right; right; left; reflexivity|reflexivity..|lia|reflexivity].
Defined.

(** the printers fail outside the cases of the previous properties: base
    36 always stores its terminator past the buffer; a base-10 prefix, an octal
    prefix of one digit and the prefix of a negative number leave a character
    of the text unwritten (here the 1 the buffer was filled with), and a
    20-digit number with a prefix stores below the buffer. *)
Theorem printers_leave_buffer n buffer options :
  Z.of_nat (length buffer) = MAX_CONVERT_CAP ->
  unsigned_to_string_view n 36 buffer options = Undef /\
  (let view (r : outcome (list Z * string_view)) := over snd r in
   let prefixed := NUM_TO_STR_OPTIONS true false false false true in
   view (unsigned_to_string_view 7 10 ex_buffer prefixed) = Ok [48; 1; 55] /\
   view (unsigned_to_string_view 7 8 ex_buffer prefixed) = Ok [1; 55] /\
   view (signed_to_string_view (-7) 16 ex_buffer prefixed) = Ok [45; 120; 1; 55] /\
   view (unsigned_to_string_view (10 ^ 19) 10 ex_buffer prefixed) = Undef).
Proof.
  intros Hlen. split.
  - unfold unsigned_to_string_view, LOOP_OVER_POSITIVE_INT.
    change (unsigned_final_index 36) with 68. change (u8 (68 - 1) + 1) with 68.
    assert (put buffer 68 0 = Undef) as ->; [|done].
    unfold put. rewrite Hlen. done.
  - vm_compute. done.
Qed.

Lemma printers_leave_buffer_witness :
  unsigned_to_string_view 5 36 ex_buffer NUM_TO_STR_OPTIONS_INIT = Undef /\
  (let view (r : outcome (list Z * string_view)) := over snd r in
   let prefixed := NUM_TO_STR_OPTIONS true false false false true in
   view (unsigned_to_string_view 7 10 ex_buffer prefixed) = Ok [48; 1; 55] /\
   view (unsigned_to_string_view 7 8 ex_buffer prefixed) = Ok [1; 55] /\
   view (signed_to_string_view (-7) 16 ex_buffer prefixed) = Ok [45; 120; 1; 55] /\
   view (unsigned_to_string_view (10 ^ 19) 10 ex_buffer prefixed) = Undef).
Proof. apply (printers_leave_buffer 5 ex_buffer NUM_TO_STR_OPTIONS_INIT). reflexivity. Defined.

(** on ASCII characters every predicate of lib/ctype.c is the class of
    the C locale and the case conversions are what they should be; on any
    other [char] the table is indexed out of its bounds. *)
Theorem ctype_spec c :
  (ascii c ->
   let digit := is_digit_b c in let upper := is_upper_b c in let lower := is_lower_b c in
   let graph := between 33 126 c in let alpha := upper || lower in
   isdigit c = Ok (Z.b2z digit) /\ isupper c = Ok (Z.b2z upper) /\
   islower c = Ok (Z.b2z lower) /\ isalpha c = Ok (Z.b2z alpha) /\
   isalnum c = Ok (Z.b2z (alpha || digit)) /\
   isxdigit c = Ok (Z.b2z (digit || between 65 70 c || between 97 102 c)) /\
   isspace c = Ok (Z.b2z (between 9 13 c || (c =? 32))) /\
   iscntrl c = Ok (Z.b2z (between 0 31 c || (c =? 127))) /\
   isgraph c = Ok (Z.b2z graph) /\ isprint c = Ok (Z.b2z (graph || (c =? 32))) /\
   ispunct c = Ok (Z.b2z (graph && negb (alpha || digit))) /\
   tolower c = Ok (if upper then c + 32 else c) /\
   toupper c = Ok (if lower then c - 32 else c)) /\
  (~ ascii c -> forall desc, ctype_test desc c = Undef).
Proof.
  split.
  - intros Hc. cbv zeta.
    split_and!; revert c Hc;
      [exact isdigit_eq|exact isupper_eq|exact islower_eq|..|by_table tolower
        (fun c => if is_upper_b c then c + 32 else c)|by_table toupper
        (fun c => if is_lower_b c then c - 32 else c)].
    + by_table isalpha (fun c => Z.b2z (is_upper_b c || is_lower_b c)).
    + by_table isalnum (fun c => Z.b2z (is_upper_b c || is_lower_b c || is_digit_b c)).
    + by_table isxdigit (fun c => Z.b2z (is_digit_b c || between 65 70 c || between 97 102 c)).
    + exact isspace_eq.
    + by_table iscntrl (fun c => Z.b2z (between 0 31 c || (c =? 127))).
    + by_table isgraph (fun c => Z.b2z (between 33 126 c)).
    + by_table isprint (fun c => Z.b2z (between 33 126 c || (c =? 32))).
    + by_table ispunct (fun c => Z.b2z (between 33 126 c &&
        negb (is_upper_b c || is_lower_b c || is_digit_b c))).
  - intros Hc desc. unfold ctype_test. simpl. by rewrite ctype_entry_out.
Qed.

Lemma ctype_spec_witness : isdigit 55 = Ok 1 /\ ctype_test DIGIT (-1) = Undef.
Proof.
  split.
  - apply (ctype_spec 55). unfold ascii. lia.
  - apply (ctype_spec (-1)). unfold ascii. lia.
Defined.
