(* ===== verification/Buffer.v ===== *)
(** * Buffers, arrays and strings: lib/adt/{mutable,growable}_buffer.c, array.c
    and string.c

    A buffer is the address it begins at, the address its capacity ends at, the
    number of bytes used and the object behind it: the bytes that may be
    accessed from its beginning on, as [uint8_t].  An access outside of them is [Undef]; what
    [memcpy], [memmove] and [memset] do inside is shown in MemThms.v.  C strings
    and string views are lists as in Convert.v. *)
From S2P Require Import Prelude CArith Range Convert.

(** ** Accesses to an object *)
Definition read_bytes (data : list Z) (i n : Z) : outcome (list Z) :=
  if (0 <=? i) && (i + n <=? Z.of_nat (length data))
  then Ok (take (Z.to_nat n) (drop (Z.to_nat i) data))
  else if n =? 0 then Ok [] else Undef.
Definition write_bytes (data : list Z) (i : Z) (bs : list Z) : outcome (list Z) :=
  if (0 <=? i) && (i + Z.of_nat (length bs) <=? Z.of_nat (length data))
  then Ok (take (Z.to_nat i) data ++ bs ++ drop (Z.to_nat i + length bs) data)
  else match bs with [] => Ok data | _ => Undef end.

(** [distance] as a [uint32_t]. *)
Definition distance32 (begin end_ : Z) : Z := u32 (u64 (end_ - begin)).

(** ** mutable_buffer.c *)
Record mutable_buffer := {
  mb_begin : Z;
  mb_end : Z;
  mb_index : Z;
  mb_data : list Z;
}.
Definition mb_with (index : Z) (data : list Z) (mb : mutable_buffer) : mutable_buffer :=
  {| mb_begin := mb_begin mb; mb_end := mb_end mb; mb_index := index; mb_data := data |}.

Definition mbuffer_open_static (buffer : Z) (data : list Z) (used capacity : Z) : outcome mutable_buffer :=
  c_assert (used <=? capacity);;
  _ ← check_add_assert 64 buffer used;
  Ok {| mb_begin := buffer; mb_end := u64 (buffer + capacity); mb_index := used; mb_data := data |}.
Definition mbuffer_open := mbuffer_open_static.

Definition mbuffer_current_ptr (mb : mutable_buffer) : Z := u64 (mb_begin mb + mb_index mb).
Definition mbuffer_free_space (mb : mutable_buffer) : Z := distance32 (mb_end mb) (mbuffer_current_ptr mb).
Definition mbuffer_used_size (mb : mutable_buffer) : Z := mb_index mb.
Definition mbuffer_capacity (mb : mutable_buffer) : Z := distance32 (mb_end mb) (mb_begin mb).
Definition mbuffer_can_add_size (mb : mutable_buffer) (size : Z) : bool := size <=? mbuffer_free_space mb.
Definition mbuffer_empty (mb : mutable_buffer) : bool := mbuffer_used_size mb =? 0.
Definition mbuffer_full (mb : mutable_buffer) : bool := mbuffer_used_size mb =? mbuffer_capacity mb.

(** The length to append and where; the index is moved already. *)
Definition preprocess_for_append (mb : mutable_buffer) (length : Z) : Z * Z * mutable_buffer :=
  let free_space := mbuffer_free_space mb in
  let length := if length >=? free_space then free_space else length in
  let ptr := mb_index mb in
  (length, ptr, mb_with (u32 (mb_index mb + length)) (mb_data mb) mb).

(** It does not move the index. *)
Definition mbuffer_increment_ptr (mb : mutable_buffer) (bad_amt : Z) : Z :=
  Z.min (mbuffer_free_space mb) bad_amt.
Definition mbuffer_decrement_ptr (mb : mutable_buffer) (bad_amt : Z) : Z * mutable_buffer :=
  let decrement_amt := Z.min (mbuffer_used_size mb) bad_amt in
  (decrement_amt, mb_with (u32 (mb_index mb - decrement_amt)) (mb_data mb) mb).

Definition mbuffer_append_byte (mb : mutable_buffer) (byte count : Z) : outcome (Z * mutable_buffer) :=
  let '(count, ptr, mb) := preprocess_for_append mb count in
  data ← write_bytes (mb_data mb) ptr (replicate (Z.to_nat count) (u8 byte));
  Ok (count, mb_with (mb_index mb) data mb).
(** [data] are the bytes readable at the argument. *)
Definition mbuffer_append_data (mb : mutable_buffer) (src : list Z) (length : Z) :
    outcome (Z * mutable_buffer) :=
  let '(length, ptr, mb) := preprocess_for_append mb length in
  bs ← read_bytes src 0 length;
  data ← write_bytes (mb_data mb) ptr bs;
  Ok (length, mb_with (mb_index mb) data mb).
Definition mbuffer_append_sv (mb : mutable_buffer) (sv : string_view) : outcome (Z * mutable_buffer) :=
  mbuffer_append_data mb (map u8 sv) (u32 (Z.of_nat (length sv))).
Definition mbuffer_truncate (mb : mutable_buffer) (new_used_size : Z) : bool * mutable_buffer :=
  if new_used_size >? mbuffer_used_size mb then (false, mb)
  else (true, mb_with new_used_size (mb_data mb) mb).

(** ** growable_buffer.c

    The heap is kmalloc's: [malloc_size] gives an address and the bytes of the
    block, or NULL, and the heap; [free] takes an address. *)
Record growable_buffer := {
  gb_begin : Z;
  gb_end : Z;
  gb_index : Z;
  gb_is_alloc : bool;
  gb_data : list Z;
}.
Definition GBUFFER_INIT : growable_buffer :=
  {| gb_begin := 0; gb_end := 0; gb_index := 0; gb_is_alloc := false; gb_data := [] |}.
Definition gb_with (index : Z) (data : list Z) (gb : growable_buffer) : growable_buffer :=
  {| gb_begin := gb_begin gb; gb_end := gb_end gb; gb_index := index;
     gb_is_alloc := gb_is_alloc gb; gb_data := data |}.

Definition gbuffer_free_space (gb : growable_buffer) : Z :=
  distance32 (u64 (gb_begin gb + gb_index gb)) (gb_end gb).
Definition gbuffer_used_size (gb : growable_buffer) : Z := gb_index gb.
Definition gbuffer_capacity (gb : growable_buffer) : Z := distance32 (gb_begin gb) (gb_end gb).
Definition gbuffer_empty (gb : growable_buffer) : bool := gbuffer_used_size gb =? 0.
Definition gbuffer_current_ptr (gb : growable_buffer) : Z := u64 (gb_begin gb + gb_index gb).

Definition gbuffer_open (buffer : Z) (data : list Z) (used capacity : Z) (is_alloc : bool) : growable_buffer :=
  {| gb_begin := buffer; gb_end := u64 (buffer + capacity); gb_index := used;
     gb_is_alloc := is_alloc; gb_data := data |}.
Definition GBUFFER_FROM_PTR (ptr : Z) (data : list Z) (capacity : Z) : growable_buffer :=
  gbuffer_open ptr data 0 capacity false.
Definition gbuffer_open_mbuffer (mb : mutable_buffer) (is_alloc : bool) : growable_buffer :=
  gbuffer_open (mb_begin mb) (mb_data mb) (mbuffer_used_size mb) (mbuffer_capacity mb) is_alloc.
Definition gbuffer_get_mutable_buffer (gb : growable_buffer) : outcome mutable_buffer :=
  mbuffer_open (gb_begin gb) (gb_data gb) (gb_index gb) (gbuffer_capacity gb).

(** The index of the byte. *)
Definition gbuffer_at (gb : growable_buffer) (byte_index : Z) : outcome Z :=
  c_assert (index_in_bounds byte_index (gbuffer_capacity gb));; Ok byte_index.

(** It stores the amount instead of adding it. *)
Definition gbuffer_increment_ptr (gb : growable_buffer) (amount : Z) : Z * growable_buffer :=
  let delta := Z.min (gbuffer_free_space gb) amount in
  (delta, gb_with delta (gb_data gb) gb).
Definition gbuffer_decrement_ptr (gb : growable_buffer) (amt : Z) : Z * growable_buffer :=
  let delta := Z.min (gb_index gb) amt in
  (delta, gb_with (u32 (gb_index gb - delta)) (gb_data gb) gb).

Definition gbuffer_remove_index (gb : growable_buffer) (index : Z) : outcome growable_buffer :=
  let used := gb_index gb in
  c_assert (index_in_bounds index used);;
  data ← (if negb (index =? used - 1) then
            bs ← read_bytes (gb_data gb) (index + 1) (used - index);
            write_bytes (gb_data gb) index bs
          else Ok (gb_data gb));
  Ok (gb_with (used - 1) data gb).
Definition gbuffer_remove_range (gb : growable_buffer) (r : range) : outcome growable_buffer :=
  let used := gb_index gb in
  c_assert (index_range_in_bounds r used);;
  end_ ← (e ← range_get_end_assert r; Ok (u32 e));
  data ← (if negb (end_ =? u32 (used - 1)) then
            bs ← read_bytes (gb_data gb) end_ (u32 (used - end_));
            write_bytes (gb_data gb) (front r) bs
          else Ok (gb_data gb));
  Ok (gb_with (u32 (used - 1)) data gb).
Definition gbuffer_truncate (gb : growable_buffer) (byte_index : Z) : growable_buffer :=
  gb_with (Z.min (gb_index gb) byte_index) (gb_data gb) gb.
Definition gbuffer_take_data (gb : growable_buffer) : Z * list Z * growable_buffer :=
  (gb_begin gb, gb_data gb, GBUFFER_INIT).
Definition gbuffer_clear (gb : growable_buffer) : growable_buffer := gb_with 0 (gb_data gb) gb.

(** A [struct string] is its buffer. *)
Abbreviation kstring := growable_buffer.

Section heap.
Context {H : Type}.
Context (malloc_size : Z -> H -> outcome (option (Z * list Z) * H)).
Context (free : Z -> H -> outcome H).

Definition gbuffer_alloc (capacity : Z) (h : H) : outcome (growable_buffer * H) :=
  '(block, h) ← malloc_size capacity h;
  let '(begin, data) := default (0, []) block in
  Ok ({| gb_begin := begin; gb_end := u64 (begin + Z.of_nat (length data)); gb_index := 0;
         gb_is_alloc := true; gb_data := data |}, h).
(** The copy does not count as used. *)
Definition gbuffer_alloc_copy (src : list Z) (size : Z) (h : H) : outcome (growable_buffer * H) :=
  '(gb, h) ← gbuffer_alloc size h;
  if negb (gb_begin gb =? 0) then
    bs ← read_bytes src 0 size;
    data ← write_bytes (gb_data gb) 0 bs;
    Ok (gb_with (gb_index gb) data gb, h)
  else Ok (gb, h).

Definition gbuffer_ensure_can_add_capacity (gb : growable_buffer) (add : Z) (h : H) :
    outcome (bool * growable_buffer * H) :=
  if gbuffer_free_space gb >=? add then Ok (true, gb, h)
  else
    realloc_size ← check_add_assert 32 (gbuffer_capacity gb) add;
    '(block, h) ← malloc_size realloc_size h;
    let '(new_alloc, new_data) := default (0, []) block in
    let realloc_size :=
      match block with Some _ => Z.of_nat (length new_data) | None => realloc_size end in
    '(new_data, h) ←
      (if gb_is_alloc gb then
         bs ← read_bytes (gb_data gb) 0 (gbuffer_used_size gb);
         new_data ← write_bytes new_data 0 bs;
         h ← free (gb_begin gb) h;
         Ok (new_data, h)
       else Ok (new_data, h));
    Ok (true, {| gb_begin := new_alloc; gb_end := u64 (new_alloc + realloc_size);
                 gb_index := gb_index gb; gb_is_alloc := true; gb_data := new_data |}, h).

Definition gbuffer_append_data (gb : growable_buffer) (src : list Z) (length : Z) (h : H) :
    outcome (Z * growable_buffer * H) :=
  '(ok, gb, h) ← gbuffer_ensure_can_add_capacity gb length h;
  if negb ok then Ok (0, gb, h)
  else
    bs ← read_bytes src 0 length;
    data ← write_bytes (gb_data gb) (gb_index gb) bs;
    Ok (length, gb_with (u32 (gb_index gb + length)) data gb, h).
Definition gbuffer_append_byte (gb : growable_buffer) (byte count : Z) (h : H) :
    outcome (Z * growable_buffer * H) :=
  '(ok, gb, h) ← gbuffer_ensure_can_add_capacity gb count h;
  if negb ok then Ok (0, gb, h)
  else
    data ← write_bytes (gb_data gb) (gb_index gb) (replicate (Z.to_nat count) (u8 byte));
    Ok (count, gb_with (u32 (gb_index gb + count)) data gb, h).
Definition gbuffer_append_gbuffer_data (gb append : growable_buffer) (h : H) :
    outcome (bool * growable_buffer * H) :=
  '(n, gb, h) ← gbuffer_append_data gb (gb_data append) (gb_index append) h;
  Ok (n =? gb_index append, gb, h).
Definition gbuffer_append_sv (gb : growable_buffer) (sv : string_view) (h : H) :
    outcome (Z * growable_buffer * H) :=
  gbuffer_append_data gb (map u8 sv) (u32 (Z.of_nat (length sv))) h.

Definition gbuffer_destroy (gb : growable_buffer) (h : H) : outcome (growable_buffer * H) :=
  h ← (if gb_is_alloc gb then free (gb_begin gb) h
       else _ ← write_bytes (gb_data gb) 0 (replicate (Z.to_nat (gbuffer_capacity gb)) 0); Ok h);
  Ok (GBUFFER_INIT, h).

(** ** array.c *)
Record array := { gbuffer : growable_buffer; object_size : Z }.
Definition with_gbuffer (a : array) (gb : growable_buffer) : array :=
  {| gbuffer := gb; object_size := object_size a |}.

Definition array_init (object_size : Z) : array :=
  {| gbuffer := GBUFFER_INIT; object_size := object_size |}.
Definition array_alloc (obj_size item_cap : Z) (h : H) : outcome (array * H) :=
  capacity ← check_mul_assert 32 obj_size item_cap;
  '(gb, h) ← gbuffer_alloc capacity h;
  Ok ({| gbuffer := gb; object_size := obj_size |}, h).
Definition array_append (a : array) (item : list Z) (h : H) : outcome (bool * array * H) :=
  '(n, gb, h) ← gbuffer_append_data (gbuffer a) item (object_size a) h;
  Ok (n =? object_size a, with_gbuffer a gb, h).

(** [C] divides by the object size: zero is undefined. *)
Definition array_item_count (a : array) : outcome Z :=
  if object_size a =? 0 then Undef else Ok (gbuffer_used_size (gbuffer a) / object_size a).
Definition array_free_count (a : array) : outcome Z :=
  if object_size a =? 0 then Undef else Ok (gbuffer_free_space (gbuffer a) / object_size a).
Definition array_empty (a : array) : bool := gbuffer_empty (gbuffer a).

(** The range has the end of the item where its size should be. *)
Definition array_remove_index (a : array) (index : Z) : outcome array :=
  byte_index ← check_mul_assert 32 index (object_size a);
  end_ ← check_add_assert 64 byte_index (object_size a);
  gb ← gbuffer_remove_range (gbuffer a) (RANGE_INIT byte_index end_);
  Ok (with_gbuffer a gb).
Definition array_remove_range (a : array) (r : range) : outcome (bool * array) :=
  match range_multiply r (object_size a) with
  | None => Ok (false, a)
  | Some byte_range =>
      gb ← gbuffer_remove_range (gbuffer a) byte_range; Ok (true, with_gbuffer a gb)
  end.

(** Pointers into the array, as byte indices. *)
Definition array_at (a : array) (index : Z) : outcome Z :=
  n ← array_item_count a;
  c_assert (index_in_bounds index n);;
  check_mul_assert 64 index (object_size a).
Definition array_front (a : array) : outcome Z := c_assert (negb (array_empty a));; Ok 0.
Definition array_back (a : array) : outcome Z :=
  c_assert (negb (array_empty a));; Ok (gb_index (gbuffer a) - object_size a).
Definition array_take_data (a : array) : Z * list Z * array :=
  let '(p, data, gb) := gbuffer_take_data (gbuffer a) in (p, data, with_gbuffer a gb).

(** The bytes copied to [item]. *)
Definition array_take_item (a : array) (index : Z) : outcome (list Z * array) :=
  n ← array_item_count a;
  c_assert (index_in_bounds index n);;
  let byte_index := u64 (object_size a * index) in
  src ← gbuffer_at (gbuffer a) (u32 byte_index);
  item ← read_bytes (gb_data (gbuffer a)) src (object_size a);
  gb ← gbuffer_remove_range (gbuffer a) (RANGE_INIT byte_index (object_size a));
  Ok (item, with_gbuffer a gb).
Definition array_take_range (a : array) (r : range) : outcome (list Z * array) :=
  n ← array_item_count a;
  c_assert (index_range_in_bounds r n);;
  let byte_index := u64 (object_size a * front r) in
  let range_size := u64 (object_size a * size r) in
  src ← gbuffer_at (gbuffer a) (u32 byte_index);
  items ← read_bytes (gb_data (gbuffer a)) src range_size;
  gb ← gbuffer_remove_range (gbuffer a) (RANGE_INIT byte_index range_size);
  Ok (items, with_gbuffer a gb).
Definition array_destroy (a : array) (h : H) : outcome (array * H) :=
  '(gb, h) ← gbuffer_destroy (gbuffer a) h; Ok (with_gbuffer a gb, h).

(** ** string.c: a [struct string] is its buffer *)
Definition STRING_EMPTY : kstring := GBUFFER_INIT.

Definition set_null_terminator (s : kstring) : outcome kstring :=
  data ← write_bytes (gb_data s) (gb_index s) [0]; Ok (gb_with (gb_index s) data s).
Definition string_length (s : kstring) : Z := gbuffer_used_size s.
Definition prepare_append (s : kstring) (length : Z) (h : H) : outcome (bool * kstring * H) :=
  gbuffer_ensure_can_add_capacity s (u32 (length + 1)) h.

(** The answer is whether it is not NULL. *)
Definition string_append_char (s : kstring) (ch amount : Z) (h : H) : outcome (bool * kstring * H) :=
  '(ok, s, h) ← prepare_append s amount h;
  if negb ok then Ok (false, s, h)
  else
    '(n, s, h) ← gbuffer_append_byte s (u8 ch) amount h;
    if negb (n =? amount) then Ok (false, s, h)
    else s ← set_null_terminator s; Ok (true, s, h).
Definition string_append_sv (s : kstring) (sv : string_view) (h : H) : outcome (bool * kstring * H) :=
  '(ok, s, h) ← prepare_append s (u32 (Z.of_nat (length sv))) h;
  if negb ok then Ok (false, s, h)
  else
    '(n, s, h) ← gbuffer_append_sv s sv h;
    if negb (n =? Z.of_nat (length sv)) then Ok (false, s, h)
    else s ← set_null_terminator s; Ok (true, s, h).
Definition string_alloc (sv : string_view) (h : H) : outcome (kstring * H) :=
  '(_, s, h) ← string_append_sv STRING_EMPTY sv h; Ok (s, h).
(** It makes room for itself, not for [append], and gives up on success. *)
Definition string_append (s append : kstring) (h : H) : outcome (bool * kstring * H) :=
  '(ok, s, h) ← prepare_append s (string_length s) h;
  if negb ok then Ok (false, s, h)
  else
    '(b, s, h) ← gbuffer_append_gbuffer_data s append h;
    if (b : bool) then Ok (false, s, h)
    else s ← set_null_terminator s; Ok (true, s, h).

Definition string_front (s : kstring) : outcome Z :=
  if negb (gbuffer_empty s) then c ← deref (gb_data s !! 0%nat); Ok (i8 c) else Ok 0.
Definition string_back (s : kstring) : outcome Z :=
  let length := string_length s in
  if negb (length =? 0) then c ← deref (gb_data s !! Z.to_nat (length - 1)); Ok (i8 c) else Ok 0.
Definition string_remove_index (s : kstring) (index : Z) : outcome kstring := gbuffer_remove_index s index.
Definition string_remove_range (s : kstring) (r : range) : outcome kstring := gbuffer_remove_range s r.

(** [strchr] on the bytes of the buffer. *)
Fixpoint find_char (data : list Z) (ch i : Z) : outcome Z :=
  match data with
  | [] => Undef
  | c :: data =>
      if i8 c =? 0 then Ok (-1) else if i8 c =? ch then Ok i else find_char data ch (i + 1)
  end.
Definition string_find_char (s : kstring) (ch : Z) : outcome Z := find_char (gb_data s) ch 0.

(** [strncmp] on the bytes from two pointers on. *)
Fixpoint bytes_ncmp (n : nat) (s t : list Z) : outcome Z :=
  ch ← deref (head s);
  jch ← deref (head t);
  match n with
  | O => Ok (i8 ch - i8 jch)
  | S n =>
      if (i8 ch =? 0) || (i8 jch =? 0) then Ok (i8 ch - i8 jch)
      else bytes_ncmp n (tail s) (tail t)
  end.

(** [sv] are the bytes from the beginning of the view on, its [length] apart. *)
Fixpoint find_sv (rounds : nat) (data sv : list Z) (length i : Z) : outcome Z :=
  match rounds with
  | O => Ok (-1)
  | S rounds =>
      r ← bytes_ncmp (Z.to_nat length) data sv;
      if r =? 0 then Ok i else find_sv rounds (tail data) sv length (i + 1)
  end.
Definition string_find_sv (s : kstring) (sv : list Z) (length : Z) : outcome Z :=
  let string_len := u32 (string_length s) in
  if (string_len =? 0) || (length =? 0) then Ok (-1)
  else if length >? string_len then Ok (-1)
  else find_sv (Z.to_nat (string_len - length + 1)) (gb_data s) sv length 0.
Definition string_to_sv (s : kstring) : outcome string_view :=
  if string_length s =? 0 then Ok SV_EMPTY
  else bs ← read_bytes (gb_data s) 0 (string_length s); Ok (map i8 bs).
Definition string_find_string (s find : kstring) : outcome Z :=
  if string_length find =? 0 then string_find_sv s [0] 0
  else string_find_sv s (gb_data find) (string_length find).
Definition string_destroy (s : kstring) (h : H) : outcome (kstring * H) := gbuffer_destroy s h.
End heap.
