(* ===== verification/BufferInv.v ===== *)
(** * Well-formed buffers and what appending does

    [Malloc] is what the buffers need of the heap: a request up to a limit
    gives a new block of at least the size, whose address the caller then owns
    and may give back.  [gb_wf] is the shape of a buffer in such a heap. *)
From S2P Require Import Prelude CArith Convert Buffer.

(** ** Accesses *)
Lemma read_bytes_ok data i n : 0 <= i -> 0 <= n -> i + n <= Z.of_nat (length data) ->
  read_bytes data i n = Ok (take (Z.to_nat n) (drop (Z.to_nat i) data)).
Proof.
  intros Hi Hn Hl. unfold read_bytes.
  by rewrite (proj2 (Z.leb_le 0 i)), (proj2 (Z.leb_le _ (Z.of_nat _))) by lia.
Qed.
Lemma read_bytes_prefix data n : 0 <= n <= Z.of_nat (length data) ->
  read_bytes data 0 n = Ok (take (Z.to_nat n) data).
Proof. intros H. rewrite read_bytes_ok by lia. done. Qed.

Lemma write_bytes_ok data i bs : 0 <= i -> i + Z.of_nat (length bs) <= Z.of_nat (length data) ->
  write_bytes data i bs =
    Ok (take (Z.to_nat i) data ++ bs ++ drop (Z.to_nat i + length bs) data).
Proof.
  intros Hi Hl. unfold write_bytes.
  by rewrite (proj2 (Z.leb_le 0 i)), (proj2 (Z.leb_le _ (Z.of_nat _))) by lia.
Qed.
Lemma write_bytes_undef data i bs : bs <> [] -> Z.of_nat (length data) < i + Z.of_nat (length bs) ->
  write_bytes data i bs = Undef.
Proof.
  intros Hne Hl. unfold write_bytes. rewrite (proj2 (Z.leb_gt _ (Z.of_nat (length data)))) by lia.
  rewrite andb_false_r. by destruct bs.
Qed.

(** What a write leaves: as many bytes, the text before it and itself. *)
Definition spliced (data : list Z) (i : Z) (bs : list Z) : list Z :=
  take (Z.to_nat i) data ++ bs ++ drop (Z.to_nat i + length bs) data.
Lemma spliced_length data i bs : 0 <= i -> i + Z.of_nat (length bs) <= Z.of_nat (length data) ->
  length (spliced data i bs) = length data.
Proof. intros Hi Hl. unfold spliced. rewrite !length_app, length_take, length_drop. lia. Qed.
Lemma spliced_take data i bs : 0 <= i -> i + Z.of_nat (length bs) <= Z.of_nat (length data) ->
  take (Z.to_nat (i + Z.of_nat (length bs))) (spliced data i bs) = take (Z.to_nat i) data ++ bs.
Proof.
  intros Hi Hl. unfold spliced. rewrite app_assoc, take_app_le by (rewrite length_app, length_take; lia).
  apply take_ge. rewrite length_app, length_take. lia.
Qed.
Lemma spliced_before data i bs n : 0 <= i -> i + Z.of_nat (length bs) <= Z.of_nat (length data) ->
  (n <= Z.to_nat i)%nat -> take n (spliced data i bs) = take n data.
Proof.
  intros Hi Hl Hn. unfold spliced. rewrite take_app_le by (rewrite length_take; lia).
  rewrite take_take. by rewrite Nat.min_l.
Qed.
Lemma spliced_lookup data i b : 0 <= i < Z.of_nat (length data) ->
  spliced data i [b] !! Z.to_nat i = Some b.
Proof.
  intros Hi. unfold spliced. rewrite lookup_app_r by (rewrite length_take; lia).
  rewrite length_take. by replace (_ - _)%nat with 0%nat by lia.
Qed.

Lemma distance32_eq begin n : 0 <= n < 2 ^ 32 -> distance32 begin (begin + n) = n.
Proof.
  intros Hn. unfold distance32. replace (begin + n - begin) with n by lia.
  rewrite (wrap_small 64), wrap_small; [done|unfold_ints; lia..].
Qed.

(** ** The heap *)
Class Malloc {H : Type}
    (malloc_size : Z -> H -> outcome (option (Z * list Z) * H)) (free : Z -> H -> outcome H) := {
  malloc_limit : Z;
  malloc_limit_32 : malloc_limit < 2 ^ 32;
  (** the addresses of the blocks that are owned *)
  heap_owns : H -> list Z -> Prop;
  heap_owns_perm h l l' : l ≡ₚ l' -> heap_owns h l -> heap_owns h l';
  malloc_size_ok n h l : heap_owns h l -> 0 < n <= malloc_limit ->
    exists p data h', malloc_size n h = Ok (Some (p, data), h') /\ heap_owns h' (p :: l) /\
      0 < p /\ p + Z.of_nat (length data) < 2 ^ 64 /\ n <= Z.of_nat (length data) < 2 ^ 32;
  free_ok p h l : heap_owns h (p :: l) -> exists h', free p h = Ok h' /\ heap_owns h' l;
}.

Section gbuffer.
Context {H : Type}.
Context {malloc_size : Z -> H -> outcome (option (Z * list Z) * H)}.
Context {free : Z -> H -> outcome H}.
Context {heap : Malloc malloc_size free}.

Lemma heap_owns_swap h p q l : heap_owns h (p :: q :: l) -> heap_owns h (q :: p :: l).
Proof. apply heap_owns_perm. constructor. Qed.

(** A buffer that the heap gave, or an empty one. *)
Record gb_wf (gb : growable_buffer) : Prop := {
  wf_begin : 0 <= gb_begin gb;
  wf_top : gb_begin gb + Z.of_nat (length (gb_data gb)) < 2 ^ 64;
  wf_end : gb_end gb = gb_begin gb + Z.of_nat (length (gb_data gb));
  wf_index : 0 <= gb_index gb <= Z.of_nat (length (gb_data gb));
  wf_size : Z.of_nat (length (gb_data gb)) < 2 ^ 32;
  wf_alloc : gb_is_alloc gb = true \/ gb_data gb = [];
}.
Definition gb_owned (gb : growable_buffer) : list Z := if gb_is_alloc gb then [gb_begin gb] else [].
(** In the heap [h], in which also [l] is owned. *)
Definition gb_in (gb : growable_buffer) (h : H) (l : list Z) : Prop :=
  gb_wf gb /\ heap_owns h (gb_owned gb ++ l).
(** The bytes appended so far. *)
Definition gb_bytes (gb : growable_buffer) : list Z := take (Z.to_nat (gb_index gb)) (gb_data gb).

Lemma gb_init_in h l : heap_owns h l -> gb_in GBUFFER_INIT h l.
Proof. intros Hh. split; [|done]. constructor; simpl; lia || tauto. Qed.

Lemma gb_capacity gb : gb_wf gb -> gbuffer_capacity gb = Z.of_nat (length (gb_data gb)).
Proof.
  intros W. unfold gbuffer_capacity. rewrite (wf_end _ W). apply distance32_eq. destruct W; lia.
Qed.
Lemma gb_free_space gb : gb_wf gb ->
  gbuffer_free_space gb = Z.of_nat (length (gb_data gb)) - gb_index gb.
Proof.
  intros W. unfold gbuffer_free_space. rewrite (wf_end _ W). pose proof W as [].
  rewrite (wrap_small 64) by (unfold_ints; lia).
  replace (gb_begin gb + Z.of_nat (length (gb_data gb))) with
    (gb_begin gb + gb_index gb + (Z.of_nat (length (gb_data gb)) - gb_index gb)) by lia.
  apply distance32_eq. lia.
Qed.

(** Making room keeps the bytes, and does not fail while twice the text that
    will be there fits the limit. *)
Lemma ensure_spec gb add h l : gb_in gb h l -> 0 < add ->
  gb_index gb + 2 * add <= malloc_limit -> malloc_limit < 2 ^ 32 ->
  exists gb' h', gbuffer_ensure_can_add_capacity malloc_size free gb add h = Ok (true, gb', h') /\
  gb_in gb' h' l /\ gb_index gb' = gb_index gb /\ gb_bytes gb' = gb_bytes gb /\
  gb_index gb + add <= Z.of_nat (length (gb_data gb')).
Proof.
  intros [W Hh] Hadd Hlim Hl32. unfold gbuffer_ensure_can_add_capacity.
  rewrite (gb_free_space gb W), (gb_capacity gb W), Z.geb_leb. pose proof (wf_index _ W) as Hi.
  set (n := Z.of_nat (length (gb_data gb))) in *.
  destruct (Z.leb_spec add (n - gb_index gb)) as [Hfit|Hfit].
  { exists gb, h. split_and!; try done; fold n; lia. }
  unfold check_add_assert, check_add.
  rewrite (proj2 (Z.ltb_lt (n + add) _)) by lia. cbn [c_assert]. rewrite !outcome_bind_ok, wrap_small by (unfold_ints; lia).
  destruct (malloc_size_ok (n + add) h (gb_owned gb ++ l) Hh) as (p & data & h1 & -> & Hh1 & Hp & Htop & Hsz);
    [lia|]. rewrite outcome_bind_ok. cbn [default from_option id].
  rewrite (wrap_small 64) by (unfold_ints; lia).
  unfold gb_owned in *. destruct (gb_is_alloc gb) eqn:Ha; cbn [app] in *.
  - unfold gbuffer_used_size. rewrite read_bytes_prefix, outcome_bind_ok by (fold n; lia).
    assert (length (take (Z.to_nat (gb_index gb)) (gb_data gb)) = Z.to_nat (gb_index gb)) as Hlen
      by (rewrite length_take; lia).
    rewrite write_bytes_ok, outcome_bind_ok by lia. fold (spliced data 0 (take (Z.to_nat (gb_index gb)) (gb_data gb))).
    destruct (free_ok (gb_begin gb) h1 (p :: l)) as (h2 & -> & Hh2); [by apply heap_owns_swap|].
    rewrite !outcome_bind_ok.
    pose proof (spliced_length data 0 (take (Z.to_nat (gb_index gb)) (gb_data gb)) ltac:(lia) ltac:(lia)) as Hsl.
    eexists _, _. split; [done|]. split; [split; [constructor; simpl; rewrite ?Hsl; lia || tauto|done]|].
    cbn. rewrite Hsl. split_and!; [done| |lia]. unfold gb_bytes. cbn.
    pose proof (spliced_take data 0 (take (Z.to_nat (gb_index gb)) (gb_data gb)) ltac:(lia) ltac:(lia)) as Hst.
    rewrite Hlen in Hst. rewrite Z2Nat.id in Hst by lia. exact Hst.
  - rewrite outcome_bind_ok. destruct (wf_alloc _ W) as [E|E]; [congruence|].
    assert (gb_index gb = 0) as Hi0 by (unfold n in *; rewrite E in *; simpl in *; lia).
    eexists _, _. split; [done|]. split; [split; [constructor; simpl; lia || tauto|done]|].
    cbn. split_and!; [done| |lia]. unfold gb_bytes. cbn. rewrite Hi0. done.
Qed.

Lemma gb_with_wf gb i data : gb_wf gb -> length data = length (gb_data gb) ->
  0 <= i <= Z.of_nat (length data) -> gb_wf (gb_with i data gb).
Proof.
  intros [] Hl Hi. constructor; simpl; rewrite ?Hl in *; try done.
  destruct wf_alloc0 as [|E]; [by left|right]. rewrite E in Hl. by destruct data.
Qed.

(** A write behind the used bytes, counted or not. *)
Lemma write_wf gb bs h l : gb_in gb h l ->
  gb_index gb + Z.of_nat (length bs) <= Z.of_nat (length (gb_data gb)) ->
  let data := spliced (gb_data gb) (gb_index gb) bs in
  write_bytes (gb_data gb) (gb_index gb) bs = Ok data /\
  gb_in (gb_with (u32 (gb_index gb + Z.of_nat (length bs))) data gb) h l /\
  gb_in (gb_with (gb_index gb) data gb) h l /\
  gb_bytes (gb_with (u32 (gb_index gb + Z.of_nat (length bs))) data gb) = gb_bytes gb ++ bs /\
  gb_bytes (gb_with (gb_index gb) data gb) = gb_bytes gb /\
  u32 (gb_index gb + Z.of_nat (length bs)) = gb_index gb + Z.of_nat (length bs) /\
  length data = length (gb_data gb).
Proof.
  intros [W Hh] Hl data. pose proof W as [].
  pose proof (spliced_length (gb_data gb) (gb_index gb) bs ltac:(lia) Hl) as Hsl. fold data in Hsl.
  assert (u32 (gb_index gb + Z.of_nat (length bs)) = gb_index gb + Z.of_nat (length bs)) as ->
    by (apply wrap_small; unfold_ints; lia).
  split_and!; [by apply write_bytes_ok; lia| | | | |done|done].
  - split; [apply gb_with_wf; [done|done|lia]|done].
  - split; [apply gb_with_wf; [done|done|lia]|done].
  - apply spliced_take; lia.
  - unfold gb_bytes. cbn. apply spliced_before; lia.
Qed.

Lemma append_data_spec gb src n h l : gb_in gb h l -> 0 <= n <= Z.of_nat (length src) ->
  gb_index gb + 2 * n <= malloc_limit -> malloc_limit < 2 ^ 32 ->
  exists gb' h', gbuffer_append_data malloc_size free gb src n h = Ok (n, gb', h') /\
  gb_in gb' h' l /\ gb_bytes gb' = gb_bytes gb ++ take (Z.to_nat n) src /\
  gb_index gb' = gb_index gb + n.
Proof.
  intros Hin Hn Hlim Hl32. unfold gbuffer_append_data.
  assert (exists gb1 h1, gbuffer_ensure_can_add_capacity malloc_size free gb n h = Ok (true, gb1, h1) /\
    gb_in gb1 h1 l /\ gb_index gb1 = gb_index gb /\ gb_bytes gb1 = gb_bytes gb /\
    gb_index gb + n <= Z.of_nat (length (gb_data gb1))) as (gb1 & h1 & -> & Hin1 & Hi1 & Hb1 & Hr).
  { destruct (decide (n = 0)) as [->|]; [|apply ensure_spec; (done || lia)].
    pose proof Hin as [W _]. pose proof (wf_index _ W).
    exists gb, h. unfold gbuffer_ensure_can_add_capacity. rewrite (gb_free_space gb W), Z.geb_leb.
    rewrite (proj2 (Z.leb_le 0 _)) by lia. split_and!; (done || lia). }
  rewrite outcome_bind_ok. cbn [negb]. rewrite read_bytes_prefix, outcome_bind_ok by lia.
  assert (Z.of_nat (length (take (Z.to_nat n) src)) = n) as Hlen by (rewrite length_take; lia).
  destruct (write_wf gb1 (take (Z.to_nat n) src) h1 l Hin1) as (-> & Hin2 & _ & Hb2 & _ & Hu & _); [lia|].
  rewrite outcome_bind_ok. rewrite Hlen in *. eexists _, _. split; [done|]. split; [done|].
  split; [by rewrite Hb2, Hb1|]. cbn. by rewrite Hu, Hi1.
Qed.

Lemma append_byte_spec gb byte n h l : gb_in gb h l -> 0 <= n ->
  gb_index gb + 2 * n <= malloc_limit -> malloc_limit < 2 ^ 32 ->
  exists gb' h', gbuffer_append_byte malloc_size free gb byte n h = Ok (n, gb', h') /\
  gb_in gb' h' l /\ gb_bytes gb' = gb_bytes gb ++ replicate (Z.to_nat n) (u8 byte) /\
  gb_index gb' = gb_index gb + n.
Proof.
  intros Hin Hn Hlim Hl32.
  destruct (append_data_spec gb (replicate (Z.to_nat n) (u8 byte)) n h l Hin)
    as (gb' & h' & E & H1 & H2 & H3); [rewrite length_replicate; lia|done|done|].
  unfold gbuffer_append_data in E. unfold gbuffer_append_byte.
  bind_inv E x Hx. rewrite Hx, outcome_bind_ok. destruct x as [[ok gb1] h1].
  rewrite take_replicate, Nat.min_id in H2. exists gb', h'.
  destruct ok; cbn [negb] in *; [|by split_and!].
  rewrite read_bytes_prefix, outcome_bind_ok in E by (rewrite length_replicate; lia).
  rewrite take_replicate, Nat.min_id in E. by split_and!.
Qed.

(** Appending where there is room already. *)
Lemma ensure_room gb n h : gb_wf gb -> gb_index gb + n <= Z.of_nat (length (gb_data gb)) ->
  gbuffer_ensure_can_add_capacity malloc_size free gb n h = Ok (true, gb, h).
Proof.
  intros W Hr. unfold gbuffer_ensure_can_add_capacity. rewrite (gb_free_space gb W), Z.geb_leb.
  by rewrite (proj2 (Z.leb_le n _)) by lia.
Qed.

(** The byte behind the text is there and is zero. *)
Definition terminated (s : kstring) : Prop := gb_data s !! Z.to_nat (gb_index s) = Some 0.

Lemma set_null_terminator_spec s h l : gb_in s h l ->
  gb_index s + 1 <= Z.of_nat (length (gb_data s)) ->
  exists s', set_null_terminator s = Ok s' /\ gb_in s' h l /\ terminated s' /\
  gb_bytes s' = gb_bytes s /\ gb_index s' = gb_index s.
Proof.
  intros Hin Hr. unfold set_null_terminator.
  destruct (write_wf s [0] h l Hin) as (-> & _ & Hin' & _ & Hb & _ & _); [simpl; lia|].
  rewrite outcome_bind_ok. eexists. split; [done|]. split; [done|]. split; [|by split].
  unfold terminated. cbn. apply spliced_lookup. pose proof Hin as [[] _]. lia.
Qed.

(** Both ways to append to a string: make room for the text and the
    terminator, write the text, count it, terminate it. *)
Lemma append_terminated s bs h l : gb_in s h l ->
  gb_index s + 2 * (Z.of_nat (length bs) + 1) <= malloc_limit -> malloc_limit < 2 ^ 32 ->
  exists s1 h1 s', prepare_append malloc_size free s (Z.of_nat (length bs)) h = Ok (true, s1, h1) /\
  gb_wf s1 /\ gb_index s1 + Z.of_nat (length bs) <= Z.of_nat (length (gb_data s1)) /\
  write_bytes (gb_data s1) (gb_index s1) bs = Ok (spliced (gb_data s1) (gb_index s1) bs) /\
  set_null_terminator (gb_with (u32 (gb_index s1 + Z.of_nat (length bs)))
    (spliced (gb_data s1) (gb_index s1) bs) s1) = Ok s' /\
  gb_in s' h1 l /\ terminated s' /\ gb_bytes s' = gb_bytes s ++ bs /\
  gb_index s' = gb_index s + Z.of_nat (length bs).
Proof.
  intros Hin Hlim Hl32. unfold prepare_append. pose proof Hin as [[] _].
  rewrite wrap_small by (unfold_ints; lia).
  destruct (ensure_spec s (Z.of_nat (length bs) + 1) h l Hin) as (s1 & h1 & E & Hin1 & Hi1 & Hb1 & Hr1); [lia..|].
  destruct (write_wf s1 bs h1 l Hin1) as (Ew & Hin2 & _ & Hb2 & _ & Hu & Hlen); [lia|].
  destruct (set_null_terminator_spec _ h1 l Hin2) as (s' & Es & Hin3 & Ht & Hb3 & Hi3).
  { cbn. rewrite Hu, Hlen. lia. }
  exists s1, h1, s'. split; [done|]. split; [apply Hin1|]. split; [lia|]. split; [done|]. split; [done|].
  split_and!; [done|done|by rewrite Hb3, Hb2, Hb1|]. rewrite Hi3. cbn. by rewrite Hu, Hi1.
Qed.

Lemma string_append_sv_spec s sv h l : gb_in s h l ->
  gb_index s + 2 * (Z.of_nat (length sv) + 1) <= malloc_limit -> malloc_limit < 2 ^ 32 ->
  exists s' h', string_append_sv malloc_size free s sv h = Ok (true, s', h') /\ gb_in s' h' l /\
  terminated s' /\ gb_bytes s' = gb_bytes s ++ map u8 sv /\
  gb_index s' = gb_index s + Z.of_nat (length sv).
Proof.
  intros Hin Hlim Hl32. pose proof Hin as [[] _].
  assert (u32 (Z.of_nat (length sv)) = Z.of_nat (length sv)) as Hu by (apply wrap_small; unfold_ints; lia).
  destruct (append_terminated s (map u8 sv) h l Hin) as
    (s1 & h1 & s' & E & W & Hr & Ew & Es & Hin' & Ht & Hb & Hi); [rewrite length_map; lia|done|].
  rewrite length_map in *. exists s', h1. split; [|by split_and!].
  unfold string_append_sv, gbuffer_append_sv, gbuffer_append_data. rewrite Hu, E, outcome_bind_ok.
  cbn [negb]. rewrite ensure_room, !outcome_bind_ok by done. cbn [negb].
  rewrite read_bytes_prefix by (rewrite length_map; lia). rewrite Nat2Z.id, outcome_bind_ok.
  rewrite take_ge by (rewrite length_map; lia). rewrite Ew, outcome_bind_ok.
  rewrite outcome_bind_ok, Z.eqb_refl. cbn [negb]. by rewrite Es.
Qed.

Lemma string_append_char_spec s ch n h l : gb_in s h l -> 0 <= n ->
  gb_index s + 2 * (n + 1) <= malloc_limit -> malloc_limit < 2 ^ 32 ->
  exists s' h', string_append_char malloc_size free s ch n h = Ok (true, s', h') /\ gb_in s' h' l /\
  terminated s' /\ gb_bytes s' = gb_bytes s ++ replicate (Z.to_nat n) (u8 ch) /\
  gb_index s' = gb_index s + n.
Proof.
  intros Hin Hn Hlim Hl32. pose proof Hin as [[] _].
  destruct (append_terminated s (replicate (Z.to_nat n) (u8 ch)) h l Hin) as
    (s1 & h1 & s' & E & W & Hr & Ew & Es & Hin' & Ht & Hb & Hi); [rewrite length_replicate; lia|done|].
  rewrite length_replicate, Z2Nat.id in * by lia. exists s', h1. split; [|by split_and!].
  unfold string_append_char, gbuffer_append_byte. rewrite E, outcome_bind_ok.
  cbn [negb]. rewrite ensure_room, !outcome_bind_ok by done. cbn [negb].
  rewrite wrap_wrap, Ew, outcome_bind_ok by lia.
  rewrite outcome_bind_ok, Z.eqb_refl. cbn [negb]. by rewrite Es.
Qed.

(** What string_to_sv sees. *)
Lemma string_to_sv_spec s h l : gb_in s h l -> string_to_sv s = Ok (map i8 (gb_bytes s)).
Proof.
  intros [[] _]. unfold string_to_sv, string_length, gbuffer_used_size, gb_bytes.
  destruct (Z.eqb_spec (gb_index s) 0) as [->|]; [done|]. by rewrite read_bytes_prefix by lia.
Qed.

Lemma map_replicate {A B} (f : A -> B) n x : map f (replicate n x) = replicate n (f x).
Proof. by induction n; simpl; f_equal. Qed.
Lemma i8_u8 x : in_s 8 x -> i8 (u8 x) = x.
Proof.
  intros Hx. transitivity (i8 x); [|by apply swrap_small].
  unfold wrap, swrap. by rewrite Zplus_mod_idemp_l.
Qed.
Lemma map_i8_u8 s : Forall (in_s 8) s -> map i8 (map u8 s) = s.
Proof.
  induction 1 as [|x s Hx Hs IH]; [done|]. cbn. by rewrite i8_u8, IH.
Qed.
End gbuffer.

(** ** Mutable buffers: as long as the text fits *)
Definition mb_capacity (mb : mutable_buffer) : Z := mb_end mb - mb_begin mb.
Record mb_wf (mb : mutable_buffer) : Prop := {
  mwf_begin : 0 <= mb_begin mb;
  mwf_end : mb_end mb < 2 ^ 64;
  mwf_capacity : mb_capacity mb <= 2 ^ 31;
  mwf_index : 0 <= mb_index mb <= mb_capacity mb;
  mwf_data : mb_capacity mb <= Z.of_nat (length (mb_data mb));
}.
Definition mb_bytes (mb : mutable_buffer) : list Z := take (Z.to_nat (mb_index mb)) (mb_data mb).

(** The free space is computed the wrong way round. *)
Lemma mb_free_space mb : mb_wf mb ->
  mbuffer_free_space mb =
    if mb_index mb =? mb_capacity mb then 0 else 2 ^ 32 - (mb_capacity mb - mb_index mb).
Proof.
  intros [Hb He Hc Hi Hd]. unfold mbuffer_free_space, distance32, mbuffer_current_ptr, mb_capacity in *.
  rewrite (wrap_small 64 (_ + _)) by (unfold_ints; lia).
  destruct (Z.eqb_spec (mb_index mb) (mb_end mb - mb_begin mb)) as [E|E].
  - by replace (mb_begin mb + mb_index mb - mb_end mb) with 0 by lia.
  - unfold wrap. change (2 ^ 64) with 18446744073709551616 in *. change (2 ^ 32) with 4294967296.
    change (2 ^ 31) with 2147483648 in *. Z.to_euclidean_division_equations. lia.
Qed.

Lemma preprocess_fits mb n : mb_wf mb -> 0 <= n <= mb_capacity mb - mb_index mb ->
  preprocess_for_append mb n = (n, mb_index mb, mb_with (mb_index mb + n) (mb_data mb) mb).
Proof.
  intros W Hn. pose proof W as [Hb He Hc Hi Hd]. unfold preprocess_for_append.
  rewrite (mb_free_space mb W), Z.geb_leb.
  assert ((if (if mb_index mb =? mb_capacity mb then 0 else 2 ^ 32 - (mb_capacity mb - mb_index mb)) <=? n
    then (if mb_index mb =? mb_capacity mb then 0 else 2 ^ 32 - (mb_capacity mb - mb_index mb)) else n) = n) as ->
    by (zcases; lia).
  by rewrite wrap_small by (unfold_ints; lia).
Qed.

Lemma mb_write mb bs : mb_wf mb -> Z.of_nat (length bs) <= mb_capacity mb - mb_index mb ->
  let data := spliced (mb_data mb) (mb_index mb) bs in
  let mb' := mb_with (mb_index mb + Z.of_nat (length bs)) data mb in
  write_bytes (mb_data mb) (mb_index mb) bs = Ok data /\ mb_wf mb' /\ mb_bytes mb' = mb_bytes mb ++ bs.
Proof.
  intros W Hr data mb'. pose proof W as [Hb He Hc Hi Hd]. split_and!.
  - apply write_bytes_ok; lia.
  - constructor; cbn; unfold mb_capacity in *; cbn; try lia.
    unfold data. rewrite spliced_length by lia. lia.
  - unfold mb_bytes. cbn. apply spliced_take; lia.
Qed.

Lemma mbuffer_append_data_spec mb src n : mb_wf mb -> 0 <= n <= mb_capacity mb - mb_index mb ->
  n <= Z.of_nat (length src) ->
  exists mb', mbuffer_append_data mb src n = Ok (n, mb') /\ mb_wf mb' /\
  mb_bytes mb' = mb_bytes mb ++ take (Z.to_nat n) src /\ mb_index mb' = mb_index mb + n /\
  mb_capacity mb' = mb_capacity mb.
Proof.
  intros W Hn Hs. unfold mbuffer_append_data. rewrite preprocess_fits by done.
  rewrite read_bytes_prefix, outcome_bind_ok by lia.
  assert (Z.of_nat (length (take (Z.to_nat n) src)) = n) as Hl by (rewrite length_take; lia).
  destruct (mb_write mb (take (Z.to_nat n) src) W) as (E & W' & Hb); [lia|].
  cbn [mb_with mb_data mb_index]. rewrite E, outcome_bind_ok. rewrite Hl in *.
  eexists. split; [done|]. by split_and!.
Qed.

Lemma mbuffer_append_byte_spec mb byte n : mb_wf mb -> 0 <= n <= mb_capacity mb - mb_index mb ->
  exists mb', mbuffer_append_byte mb byte n = Ok (n, mb') /\ mb_wf mb' /\
  mb_bytes mb' = mb_bytes mb ++ replicate (Z.to_nat n) (u8 byte) /\ mb_index mb' = mb_index mb + n /\
  mb_capacity mb' = mb_capacity mb.
Proof.
  intros W Hn. unfold mbuffer_append_byte. rewrite preprocess_fits by done.
  destruct (mb_write mb (replicate (Z.to_nat n) (u8 byte)) W) as (E & W' & Hb);
    [rewrite length_replicate; lia|].
  cbn [mb_with mb_data mb_index]. rewrite E, outcome_bind_ok.
  rewrite length_replicate, Z2Nat.id in * by lia.
  eexists. split; [done|]. by split_and!.
Qed.
