(* ===== verification/BufferThms.v ===== *)
(** * What the buffers guarantee

    Properties of Buffer.v. *)
From S2P Require Import Prelude CArith Range Convert Buffer BufferInv.

(** gbuffer_append_data adds the bytes at the end and keeps the ones that
    are there, growing the buffer if it must; the buffer stays well-formed, what
    it owns in the heap is its own block and nothing else changes hands. *)
Theorem gbuffer_append_data_spec {H : Type}
    (malloc_size : Z -> H -> outcome (option (Z * list Z) * H)) (free : Z -> H -> outcome H)
    (heap : Malloc malloc_size free) gb src n h l :
  gb_in gb h l -> 0 <= n <= Z.of_nat (length src) -> gb_index gb + 2 * n <= malloc_limit ->
  exists gb' h', gbuffer_append_data malloc_size free gb src n h = Ok (n, gb', h') /\
  gb_in gb' h' l /\ gb_bytes gb' = gb_bytes gb ++ take (Z.to_nat n) src /\
  gb_index gb' = gb_index gb + n.
Proof. intros Hin Hn Hl. apply append_data_spec; [done..|apply malloc_limit_32]. Qed.

(** A heap of one size of block. *)
Definition unit_malloc (n : Z) (h : unit) : outcome (option (Z * list Z) * unit) :=
  Ok (if n <=? 2048 then Some (4096, replicate (Z.to_nat n) 0) else None, tt).
Definition unit_free (p : Z) (h : unit) : outcome unit := Ok tt.
#[export] Program Instance unit_heap : Malloc unit_malloc unit_free := {
  malloc_limit := 2048;
  heap_owns _ _ := True;
}.
Next Obligation. lia. Qed.
Next Obligation. done. Qed.
Next Obligation.
  intros n h l _ Hn. unfold unit_malloc. rewrite (proj2 (Z.leb_le n 2048)) by lia.
  eexists _, _, _. split; [done|]. rewrite length_replicate. split_and!; (done || lia).
Qed.
Next Obligation. intros p [] l _. by exists tt. Qed.

(** A buffer of eight bytes with "abcdef" in it. *)
Definition ex_gb : growable_buffer :=
  {| gb_begin := 4096; gb_end := 4104; gb_index := 6; gb_is_alloc := true;
     gb_data := char_codes "abcdef" ++ [0; 9] |}.
Lemma ex_gb_in : gb_in ex_gb tt [].
Proof. split; [|exact I]. constructor; cbn; lia || tauto. Qed.

Lemma gbuffer_append_data_spec_witness :
  exists gb' h', gbuffer_append_data unit_malloc unit_free ex_gb (char_codes "ghijk") 5 tt = Ok (5, gb', h') /\
  gb_in gb' h' [] /\ gb_bytes gb' = gb_bytes ex_gb ++ take 5 (char_codes "ghijk") /\ gb_index gb' = 6 + 5.
Proof.
  apply (gbuffer_append_data_spec unit_malloc unit_free unit_heap ex_gb (char_codes "ghijk") 5 tt []).
  - exact ex_gb_in.
  - split; vm_compute; congruence.
  - vm_compute. congruence.
Defined.

(** ** Removing *)

(** What memmove makes of the bytes behind a removed range, of which all but
    one count. *)
Definition closed_up (b : list Z) (i e : nat) : list Z :=
  take (length b - 1) (if (e =? length b - 1)%nat then b
                       else take i b ++ drop e b ++ drop (i + (length b - e)) b).

Lemma drop_take_prefix {A} (l : list A) (u e : nat) : (e <= u)%nat ->
  take (u - e) (drop e l) = drop e (take u l).
Proof.
  intros H. replace (take (u - e) (drop e l)) with (take (u - e) (drop e (take u l))); [|].
  - apply take_ge. rewrite length_drop, length_take. lia.
  - rewrite skipn_firstn_comm, firstn_firstn. by rewrite Nat.min_id.
Qed.

Lemma closed_up_one b i : (i + 1 < length b)%nat -> (i + 1 <> length b - 1)%nat ->
  closed_up b i (i + 1) = take i b ++ drop (i + 1) b.
Proof.
  intros Hi Hne. unfold closed_up. rewrite (proj2 (Nat.eqb_neq _ _)) by done.
  rewrite app_assoc, take_app_le by (rewrite length_app, length_take, length_drop; lia).
  apply take_ge. rewrite length_app, length_take, length_drop. lia.
Qed.

Lemma remove_range_core gb r : gb_wf gb -> 0 <= front r -> 0 <= size r ->
  0 < front r + size r <= gb_index gb ->
  exists gb', gbuffer_remove_range gb r = Ok gb' /\ gb_index gb' = gb_index gb - 1 /\
  gb_bytes gb' = closed_up (gb_bytes gb) (Z.to_nat (front r)) (Z.to_nat (front r + size r)).
Proof.
  intros [] Hf Hs He. unfold gbuffer_remove_range, index_range_in_bounds, range_get_end_assert,
    range_get_end, check_add, ordinal_in_bounds.
  rewrite (proj2 (Z.ltb_lt (front r + size r) _)) by lia. cbn [negb].
  rewrite (wrap_small 64) by (unfold_ints; lia).
  rewrite (proj2 (Z.eqb_neq (front r + size r) 0)), (proj2 (Z.leb_le _ (gb_index gb))) by lia.
  cbn [negb andb c_assert]. rewrite !outcome_bind_ok.
  set (e := front r + size r) in *. set (u := gb_index gb) in *.
  rewrite (wrap_small 32 e), (wrap_small 32 (u - 1)), (wrap_small 32 (u - e)) by (unfold_ints; lia).
  assert (length (gb_bytes gb) = Z.to_nat u) as Hlen by (unfold gb_bytes; rewrite length_take; lia).
  unfold closed_up. rewrite Hlen.
  destruct (Z.eqb_spec e (u - 1)) as [E|E]; cbn [negb].
  - rewrite outcome_bind_ok. eexists. split; [done|]. split; [done|].
    rewrite (proj2 (Nat.eqb_eq _ _)) by lia. unfold gb_bytes. cbn. fold u.
    rewrite take_take, Nat.min_l by lia. f_equal. lia.
  - rewrite (proj2 (Nat.eqb_neq _ _)) by lia.
    rewrite read_bytes_ok, outcome_bind_ok by lia.
    assert (take (Z.to_nat (u - e)) (drop (Z.to_nat e) (gb_data gb)) = drop (Z.to_nat e) (gb_bytes gb)) as ->.
    { unfold gb_bytes. fold u. rewrite <- drop_take_prefix by lia. f_equal. lia. }
    assert (length (drop (Z.to_nat e) (gb_bytes gb)) = Z.to_nat (u - e)) as Hl
      by (rewrite length_drop, Hlen; lia).
    rewrite write_bytes_ok, outcome_bind_ok by lia. eexists. split; [done|]. split; [done|].
    unfold gb_bytes at 1. cbn. rewrite Hl.
    replace (Z.to_nat (u - 1)) with (Z.to_nat u - 1)%nat by lia.
    set (d := take (Z.to_nat (front r)) (gb_data gb) ++ _).
    transitivity (take (Z.to_nat u - 1) (take (Z.to_nat u) d)); [by rewrite take_take, Nat.min_l by lia|].
    f_equal. unfold d. rewrite app_assoc, take_app.
    rewrite take_ge by (rewrite length_app, length_take, Hl; lia). rewrite <- app_assoc. f_equal; [|f_equal].
    + unfold gb_bytes. fold u. rewrite take_take, Nat.min_l by lia. done.
    + rewrite length_app, length_take, Hl. unfold gb_bytes. fold u.
      replace (Z.to_nat (front r) `min` length (gb_data gb))%nat with (Z.to_nat (front r)) by lia.
      rewrite (drop_take_prefix (gb_data gb) (Z.to_nat u)) by lia.
      f_equal. lia.
Qed.

(** gbuffer_remove_range closes the gap of the range but always takes just
    one byte off the length: it is right for a range of one byte with at least
    two bytes behind it, leaves stale bytes at the end for a longer range, and
    with exactly one byte behind the range removes that byte instead of the
    range. *)
Theorem gbuffer_remove_range_spec gb r :
  gb_wf gb -> 0 <= front r -> 0 <= size r -> 0 < front r + size r <= gb_index gb ->
  exists gb', gbuffer_remove_range gb r = Ok gb' /\ gb_index gb' = gb_index gb - 1 /\
  gb_bytes gb' = closed_up (gb_bytes gb) (Z.to_nat (front r)) (Z.to_nat (front r + size r)) /\
  (size r = 1 -> front r + 2 < gb_index gb ->
   gb_bytes gb' = take (Z.to_nat (front r)) (gb_bytes gb) ++ drop (Z.to_nat (front r) + 1) (gb_bytes gb)) /\
  (front r + size r = gb_index gb - 1 ->
   gb_bytes gb' = take (Z.to_nat (gb_index gb - 1)) (gb_bytes gb)).
Proof.
  intros W Hf Hs He. destruct (remove_range_core gb r W Hf Hs He) as (gb' & E & Hi & Hb).
  pose proof W as [].
  assert (length (gb_bytes gb) = Z.to_nat (gb_index gb)) as Hlen by (unfold gb_bytes; rewrite length_take; lia).
  exists gb'. split_and!; [done..| |].
  - intros H1 H2. rewrite Hb, H1. rewrite <- closed_up_one by lia. f_equal. lia.
  - intros H1. rewrite Hb. unfold closed_up. rewrite Hlen, (proj2 (Nat.eqb_eq _ _)) by lia. f_equal. lia.
Qed.

Lemma gbuffer_remove_range_spec_witness :
  exists gb', gbuffer_remove_range ex_gb (RANGE_INIT 1 3) = Ok gb' /\ gb_index gb' = 6 - 1 /\
  gb_bytes gb' = closed_up (char_codes "abcdef") 1 4 /\
  (3 = 1 -> 1 + 2 < 6 -> gb_bytes gb' = take 1 (char_codes "abcdef") ++ drop 2 (char_codes "abcdef")) /\
  (1 + 3 = 6 - 1 -> gb_bytes gb' = take 5 (char_codes "abcdef")).
Proof.
  apply (gbuffer_remove_range_spec ex_gb (RANGE_INIT 1 3)).
  - exact (proj1 ex_gb_in).
  - vm_compute. congruence.
  - vm_compute. congruence.
  - split; vm_compute; congruence.
Defined.

(** Outcome of a run that starts from a string. *)
Definition find_in (text find : string) : outcome Z :=
  '(s, _) ← string_alloc unit_malloc unit_free (char_codes text) tt;
  string_find_sv s (char_codes find ++ [0]) (Z.of_nat (length (char_codes find))).

(** where the containers do not do what their names say: the search
    for a text finds any other text of its length at the end of the string;
    string_append reports failure when it has succeeded; a buffer that the
    caller provided loses its bytes when it grows; gbuffer_remove_index reads
    behind a full buffer; gbuffer_increment_ptr stores the amount; removing the
    second item of an array of two fails an assertion; the capacity of a mutable
    buffer is the negated one; what gbuffer_alloc_copy copied does not count. *)
Theorem containers_differ :
  find_in "hello" "lo" = Ok 3 /\ find_in "hello" "he" = Ok 3 /\ find_in "hello" "xyz" = Ok 2 /\
  (exists s, string_append unit_malloc unit_free ex_gb ex_gb tt = Ok (false, s, tt) /\
    gb_bytes s = char_codes "abcdefabcdef") /\
  (exists gb, gbuffer_append_data unit_malloc unit_free
      (gbuffer_open 4096 (char_codes "ab" ++ [7; 7]) 2 4 false) (char_codes "cde") 3 tt = Ok (3, gb, tt) /\
    gb_bytes gb = [0; 0] ++ char_codes "cde") /\
  gbuffer_remove_index (gbuffer_open 4096 (char_codes "abcd") 4 4 true) 1 = Undef /\
  gb_index (snd (gbuffer_increment_ptr ex_gb 1)) = 1 /\
  array_remove_index {| gbuffer := ex_gb; object_size := 3 |} 1 = Panic /\
  mbuffer_capacity {| mb_begin := 4096; mb_end := 4104; mb_index := 0; mb_data := repeat 0 8 |} = 2 ^ 32 - 8 /\
  (exists gb, gbuffer_alloc_copy unit_malloc (char_codes "ab") 2 tt = Ok (gb, tt) /\ gb_bytes gb = []).
Proof.
  split_and!; try (vm_compute; reflexivity); eexists; (split; vm_compute; reflexivity).
Qed.
