(* ===== verification/Bitmap.v ===== *)
(** * Bits of words and bitmaps: lib/bits.[ch] and lib/adt/bitmap.[ch]

    A bitmap is a growable buffer (Buffer.v).  Words of 1, 2, 4 and 8 bytes are
    read from its bytes with the least significant byte first.  [ptr] is a byte
    index, so that [bit_index_of_ptr] is 8 times it; [distance(ptr, end)] is
    taken modulo 2^64, and a word that is not inside the object is [Undef]. *)
From S2P Require Import Prelude CArith Range Convert Buffer.

(** ** lib/bits.h *)

(** [__builtin_ctzll] and [__builtin_clz(ll)] of a number that is not zero. *)
Fixpoint ctz (fuel : nat) (n : Z) : Z :=
  match fuel with
  | O => 0
  | S fuel => if Z.odd n then 0 else 1 + ctz fuel (Z.div2 n)
  end.
Definition clz (w n : Z) : Z := w - 1 - Z.log2 n.

(** [w] is the width of the type; a shift by the width of the promoted type or
    more is undefined. *)
Definition shift_ok (w start_index : Z) : bool := (0 <=? start_index) && (start_index <? Z.max 32 w).
Definition count_lsb_zero_bits (w bad_number start_index : Z) : outcome Z :=
  if negb (shift_ok w start_index) then Undef
  else
    let number := wrap w (Z.shiftr bad_number start_index) in
    Ok (u8 (if number =? 0 then w - start_index else ctz (Z.to_nat w) number)).
Definition count_lsb_one_bits (w number start_index : Z) : outcome Z :=
  count_lsb_zero_bits w (wrap w (Z.lnot number)) start_index.
Definition count_msb_zero_bits (w bad_number start_index : Z) : outcome Z :=
  if negb (shift_ok w start_index) then Undef
  else
    let number := wrap w (Z.shiftl bad_number start_index) in
    Ok (u8 (if number =? 0 then w - start_index else clz (Z.max 32 w) number)).
Definition count_msb_one_bits (w number start_index : Z) : outcome Z :=
  count_msb_zero_bits w (wrap w (Z.lnot number)) start_index.
Definition FIND_BIT_INVALID : Z := UINT64_MAX.

(** ** lib/bits.c *)
Definition find_lsb_one_bit (number start_index : Z) : outcome Z :=
  n ← count_lsb_zero_bits 64 number start_index; Ok (u8 (n + start_index)).
Definition find_lsb_zero_bit (number start_index : Z) : outcome Z :=
  n ← count_lsb_one_bits 64 number start_index; Ok (u8 (n + start_index)).
Definition find_msb_zero_bit (number start_index : Z) : outcome Z :=
  n ← count_msb_zero_bits 64 number start_index; Ok (u8 (n + start_index)).
Definition find_msb_one_bit (number start_index : Z) : outcome Z :=
  n ← count_msb_one_bits 64 number start_index; Ok (u8 (n + start_index)).

Definition get_range_of_lsb_one_bits (number start_index end_index : Z) : outcome range :=
  first_bit_index ← find_lsb_one_bit number start_index;
  if (first_bit_index =? FIND_BIT_INVALID) || negb (index_in_bounds first_bit_index end_index)
  then Ok RANGE_EMPTY
  else
    one_count ← count_lsb_one_bits 64 number first_bit_index;
    let result := RANGE_INIT first_bit_index one_count in
    let '(ok, result_end) := range_get_end result in
    Ok (if (ok : bool) then
          if result_end >? end_index then RANGE_INIT first_bit_index (u64 (end_index - first_bit_index))
          else result
        else RANGE_INIT first_bit_index (u64 (end_index - first_bit_index))).
Definition get_range_of_lsb_zero_bits (number start_index end_index : Z) : outcome range :=
  get_range_of_lsb_one_bits (wrap 64 (Z.lnot number)) start_index end_index.
Definition get_next_range_of_lsb_zero_bits (number : Z) (prev : range) (end_index : Z) : outcome range :=
  prev_end ← range_get_end_assert prev;
  if prev_end =? 64 then Ok RANGE_EMPTY else get_range_of_lsb_zero_bits number prev_end end_index.
Definition get_next_range_of_lsb_one_bits (number : Z) (prev : range) (end_index : Z) : outcome range :=
  prev_end ← range_get_end_assert prev;
  if prev_end =? 64 then Ok RANGE_EMPTY else get_range_of_lsb_one_bits number prev_end end_index.

(** ** Words in memory *)
Fixpoint le_word (bs : list Z) : Z :=
  match bs with [] => 0 | b :: bs => b + 256 * le_word bs end.
Fixpoint le_bytes (n : nat) (w : Z) : list Z :=
  match n with O => [] | S n => w `mod` 256 :: le_bytes n (w / 256) end.
Definition load_word (n : Z) (data : list Z) (ptr : Z) : outcome Z :=
  if ptr + n <=? Z.of_nat (length data)
  then bs ← read_bytes data ptr n; Ok (le_word bs) else Undef.
Definition store_word (n : Z) (data : list Z) (ptr w : Z) : outcome (list Z) :=
  write_bytes data ptr (le_bytes (Z.to_nat n) w).

(** ** lib/macros.h *)
Definition bits_to_bytes_noround (bits : Z) : Z := bits / 8.
Definition bits_to_bytes_roundup (bits : Z) : Z :=
  if negb (bits `mod` 8 =? 0) then u64 (bits_to_bytes_noround bits + 1) else bits_to_bytes_noround bits.
Definition bytes_to_bits (n : Z) : Z := u64 (n * 8).
Definition mask_for_n_bits (n : Z) : outcome Z :=
  if n =? 64 then Ok UINT64_MAX
  else if (0 <? n) && (n <? 64) then Ok (Z.shiftr UINT64_MAX (64 - n)) else Undef.
(** On a byte. *)
Definition set_bits_for_mask (byte mask : Z) (value : bool) : Z :=
  if value then u8 (Z.lor byte mask) else Z.land byte (u8 (Z.lnot mask)).
Definition update_byte (data : list Z) (ptr : Z) (f : Z -> Z) : outcome (list Z) :=
  b ← load_word 1 data ptr; store_word 1 data ptr (f b).

(** ** bitmap.c *)
Abbreviation bitmap := growable_buffer.
Definition BITMAP_INIT : bitmap := GBUFFER_INIT.
Definition bitmap_with (b : bitmap) (data : list Z) : bitmap := gb_with (gb_index b) data b.
Definition bitmap_open (buffer : Z) (data : list Z) (byte_count : Z) : bitmap :=
  gbuffer_open buffer data (u32 byte_count) (u32 byte_count) false.
Definition bitmap_capacity (b : bitmap) : Z := bytes_to_bits (gbuffer_capacity b).
(** The bytes between [begin] and [end]. *)
Definition byte_size (b : bitmap) : Z := u64 (gb_end b - gb_begin b).

Definition bitmap_at (b : bitmap) (index : Z) : outcome bool :=
  byte ← load_word 1 (gb_data b) (bits_to_bytes_noround index);
  Ok (negb (Z.land byte (Z.shiftl 1 (index `mod` 8)) =? 0)).
Definition bitmap_set (b : bitmap) (index : Z) (value : bool) : outcome bitmap :=
  data ← update_byte (gb_data b) (bits_to_bytes_noround index)
           (fun byte => set_bits_for_mask byte (Z.shiftl 1 (index `mod` 8)) value);
  Ok (bitmap_with b data).

Definition bitmap_set_range (b : bitmap) (r : range) (value : bool) : outcome bitmap :=
  let bit_index := front r in
  let ptr := bits_to_bytes_noround bit_index in
  let bits_left := size r in
  let first_byte_bit_index := bit_index `mod` 8 in
  '(data, ptr, bits_left) ←
    (if negb (first_byte_bit_index =? 0) then
       let first_byte_bit_count := Z.min bits_left (8 - first_byte_bit_index) in
       mask ← mask_for_n_bits first_byte_bit_count;
       let first_byte_mask := u8 (u64 (Z.shiftl mask first_byte_bit_index)) in
       data ← update_byte (gb_data b) ptr (fun byte => set_bits_for_mask byte first_byte_mask value);
       Ok (data, ptr + 1, bits_left - first_byte_bit_count)
     else Ok (gb_data b, ptr, bits_left));
  let memset_byte_count := bits_to_bytes_noround bits_left in
  '(data, ptr, bits_left) ←
    (if negb (memset_byte_count =? 0) then
       data ← write_bytes data ptr (replicate (Z.to_nat memset_byte_count) (if value then 255 else 0));
       Ok (data, ptr + memset_byte_count, u64 (bits_left - bytes_to_bits memset_byte_count))
     else Ok (data, ptr, bits_left));
  data ← (if negb (bits_left =? 0) then
            mask ← mask_for_n_bits bits_left;
            update_byte data ptr (fun byte => set_bits_for_mask byte mask value)
          else Ok data);
  Ok (bitmap_with b data).

Definition bitmap_set_all (b : bitmap) (value : bool) : outcome bitmap :=
  data ← write_bytes (gb_data b) 0
           (replicate (Z.to_nat (gbuffer_capacity b)) (if value then 255 else 0));
  Ok (bitmap_with b data).

(** [membuf_*_is_all] on words of [n] bytes (lib/memory.c). *)
Fixpoint words_are_all (count : nat) (n : Z) (data : list Z) (ptr v : Z) : outcome bool :=
  match count with
  | O => Ok true
  | S count =>
      w ← load_word n data ptr;
      if negb (w =? v) then Ok false else words_are_all count n data (ptr + n) v
  end.

(** CHECK_MEMBUF_ALL_BITS_OF_VALUE: [inl] returns.  [ptr] stays where it is,
    and the number of words is kept in 8 bits. *)
Definition check_membuf (n : Z) (data : list Z) (ptr : Z) (value : bool) (count : Z) : outcome (bool + Z) :=
  let word_count := u8 (bits_to_bytes_noround count / n) in
  if negb (word_count =? 0) then
    all ← words_are_all (Z.to_nat word_count) n data ptr (if value then 2 ^ (8 * n) - 1 else 0);
    if negb all then Ok (inl false)
    else
      let count := u64 (count - bytes_to_bits (n * word_count)) in
      if count =? 0 then Ok (inl true) else Ok (inr count)
  else Ok (inr count).
Definition bool_or (r : outcome (bool + Z)) (f : Z -> outcome bool) : outcome bool :=
  x ← r; match x with inl b => Ok b | inr count => f count end.

Definition bitmap_has (b : bitmap) (r : range) (value : bool) : outcome bool :=
  c_assert (negb (range_empty r));;
  c_assert (index_range_in_bounds r (bitmap_capacity b));;
  let data := gb_data b in
  let ptr := bits_to_bytes_noround (front r) in
  let value_bits := if value then 255 else 0 in
  let first_byte_bit_index := front r `mod` 8 in
  first ←
    (if negb (first_byte_bit_index =? 0) then
       byte ← load_word 1 data ptr;
       let bits_count := Z.min (size r) (8 - first_byte_bit_index) in
       mask ← mask_for_n_bits bits_count;
       if negb (Z.land (Z.shiftr byte first_byte_bit_index) mask =? Z.land value_bits mask)
       then Ok (inl false)
       else
         let count := size r - bits_count in
         if count =? 0 then Ok (inl true) else Ok (inr (count, ptr + 1))
     else Ok (inr (size r, ptr)));
  match first with
  | inl result => Ok result
  | inr (count, ptr) =>
      bool_or (check_membuf 8 data ptr value count) (fun count =>
      bool_or (check_membuf 4 data ptr value count) (fun count =>
      bool_or (check_membuf 2 data ptr value count) (fun count =>
      bool_or (check_membuf 1 data ptr value count) (fun count =>
        byte ← load_word 1 data ptr;
        mask ← mask_for_n_bits count;
        Ok (Z.land byte mask =? Z.land value_bits mask)))))
  end.

(** ** Searching

    A loop over the words of each size, the largest first.  The state of a
    search is [A]; [visit] is the loop body: it answers with [inl] when the
    function returns. *)
Fixpoint for_words {A R} (fuel : nat) (n : Z) (visit : Z -> Z -> Z -> A -> outcome (R + A))
    (b : bitmap) (ptr start_index : Z) (a : A) : outcome (R + Z * Z * A) :=
  match fuel with
  | O => OutOfFuel
  | S fuel =>
      if u64 (byte_size b - ptr) >=? n then
        word ← load_word n (gb_data b) ptr;
        r ← visit ptr word start_index a;
        match r with
        | inl result => Ok (inl result)
        | inr a => for_words fuel n visit b (ptr + n) 0 a
        end
      else Ok (inr (ptr, start_index, a))
  end.
Definition word_fuel (b : bitmap) : nat := S (length (gb_data b)).
Fixpoint for_types {A R} (sizes : list Z) (visit : Z -> Z -> Z -> Z -> A -> outcome (R + A))
    (b : bitmap) (ptr start_index : Z) (a : A) : outcome (R + A) :=
  match sizes with
  | [] => Ok (inr a)
  | n :: sizes =>
      r ← for_words (word_fuel b) n (visit n) b ptr start_index a;
      match r with
      | inl result => Ok (inl result)
      | inr (ptr, start_index, a) => for_types sizes visit b ptr start_index a
      end
  end.
Definition word_sizes : list Z := [8; 4; 2; 1].

(** [find_single_unset] and [find_single_set]: the state is
    [bit_index_in_word] and [bit_index_of_ptr] is 8 times the place reached. *)
Definition single_visit (find : Z -> Z -> outcome Z) (invert : bool) (change : Z -> Z -> Z)
    (b : bitmap) (n ptr word start_index : Z) (a : Z * Z) : outcome (Z * bitmap + Z * Z) :=
  bit ← find word start_index;
  if bit <? 8 * n then
    data ← (if (invert : bool) then store_word n (gb_data b) ptr (change word (Z.shiftl 1 bit))
            else Ok (gb_data b));
    Ok (inl (u64 (bit + bytes_to_bits ptr), bitmap_with b data))
  else Ok (inr (bit, ptr + n)).
Definition find_single (find : Z -> Z -> outcome Z) (change : Z -> Z -> Z)
    (b : bitmap) (start_index : Z) (invert : bool) : outcome (Z * bitmap) :=
  let ptr := bits_to_bytes_noround start_index in
  r ← for_types word_sizes (single_visit find invert change b) b ptr (start_index `mod` 8) (0, ptr);
  match r with
  | inl result => Ok result
  | inr (bit_index_in_word, ptr) => Ok (u64 (bit_index_in_word + bytes_to_bits ptr), b)
  end.
Definition find_single_unset := find_single find_lsb_zero_bit Z.lor.
Definition find_single_set := find_single find_lsb_one_bit (fun w m => Z.land w (wrap 64 (Z.lnot m))).

(** [current_range_start_index] and [current_range_zero_count]. *)
Record current := { range_start : Z; zero_count : Z }.

(** What the code does with a range of zero bits: it is too short and the next
    one is tried, it is too short and at the end of the word, or it is taken:
    the answer and the front of the range to invert. *)
Inductive verdict :=
| TooShort
| AtEnd (c : current)
| Taken (result front : Z).

Fixpoint for_zero_ranges (fuel : nat) (word end_index : Z) (judge : range -> outcome verdict)
    (iter : range) : outcome verdict :=
  match fuel with
  | O => OutOfFuel
  | S fuel =>
      if range_empty iter then Ok TooShort
      else
        v ← judge iter;
        match v with
        | TooShort =>
            next ← get_next_range_of_lsb_zero_bits word iter end_index;
            for_zero_ranges fuel word end_index judge next
        | _ => Ok v
        end
  end.
(** A word has at most 32 ranges. *)
Definition range_fuel : nat := 34.

Definition multiple_visit (lsb_count : Z -> Z -> Z -> outcome Z) (judge : Z -> Z -> Z -> range -> outcome verdict)
    (b : bitmap) (count : Z) (invert value : bool)
    (n ptr word start_index : Z) (c : current) : outcome (Z * bitmap + current) :=
  let take result front :=
    b ← (if (invert : bool) then bitmap_set_range b (RANGE_INIT front count) value else Ok b);
    Ok (inl (result, b)) in
  let search start_index c :=
    iter ← get_range_of_lsb_zero_bits word start_index (8 * n);
    v ← for_zero_ranges range_fuel word (8 * n) (judge n ptr start_index) iter;
    match v with
    | TooShort => Ok (inr c)
    | AtEnd c => Ok (inr c)
    | Taken result front => take result front
    end in
  if negb (zero_count c =? 0) then
    lsb ← lsb_count (8 * n) word 0;
    let lsb_zero_count := Z.min (8 * n) lsb in
    if u64 (zero_count c + lsb_zero_count) >=? count then take (range_start c) start_index
    else if lsb_zero_count =? 8 * n then
      Ok (inr {| range_start := range_start c; zero_count := u64 (zero_count c + lsb_zero_count) |})
    else search lsb_zero_count {| range_start := 0; zero_count := 0 |}
  else search start_index c.
Definition find_multiple (lsb_count : Z -> Z -> Z -> outcome Z)
    (judge : Z -> Z -> Z -> range -> outcome verdict)
    (missing : Z) (b : bitmap) (count ptr start_index : Z) (invert value : bool) : outcome (Z * bitmap) :=
  r ← for_types word_sizes (multiple_visit lsb_count judge b count invert value) b ptr start_index
        {| range_start := 0; zero_count := 0 |};
  match r with inl result => Ok result | inr _ => Ok (missing, b) end.

Definition judge_range (count n ptr start_index : Z) (iter : range) : outcome verdict :=
  if size iter <? count then
    e ← range_get_end_assert iter;
    if e =? 8 * n
    then Ok (AtEnd {| range_start := u64 (bytes_to_bits ptr + front iter); zero_count := size iter |})
    else Ok TooShort
  else Ok (Taken (u64 (bytes_to_bits ptr + front iter)) start_index).
(** The failure is answered with [true], the index 1; and [find_multiple_set]
    looks for zeros. *)
Definition find_multiple_unset (b : bitmap) (count start_index : Z) (set : bool) : outcome (Z * bitmap) :=
  find_multiple count_lsb_one_bits (judge_range count) 1 b count
    (bits_to_bytes_noround start_index) (start_index `mod` 8) set true.
Definition find_multiple_set (b : bitmap) (count start_index : Z) (unset : bool) : outcome (Z * bitmap) :=
  find_multiple count_lsb_zero_bits (judge_range count) 1 b count
    (bits_to_bytes_noround start_index) (start_index `mod` 8) unset false.

Definition bitmap_find (b : bitmap) (count start_index : Z) (expected_value invert : bool) :
    outcome (Z * bitmap) :=
  if negb (count =? 1) then
    if expected_value then find_multiple_set b count start_index invert
    else find_multiple_unset b count start_index invert
  else if expected_value then find_single_set b start_index invert
  else find_single_unset b start_index invert.

Definition judge_mult (count mult n ptr start_index : Z) (bad_iter : range) : outcome verdict :=
  let iter := RANGE_INIT (u64 (bytes_to_bits ptr + front bad_iter)) (size bad_iter) in
  rounded ← range_round_up_subrange iter mult;
  let iter := default iter rounded in
  if size iter <? count then
    e ← range_get_end_assert iter;
    if e =? 8 * n
    then Ok (AtEnd {| range_start := u64 (bytes_to_bits ptr + front iter); zero_count := size iter |})
    else Ok TooShort
  else Ok (Taken (front iter) (front iter)).
Definition find_unset_at_mult (b : bitmap) (count mult start_index : Z) (set : bool) : outcome (Z * bitmap) :=
  '(ok, start_index) ← round_up start_index mult start_index;
  if negb ok then Ok (0, b)
  else
    find_multiple count_lsb_zero_bits (judge_mult count mult) FIND_BIT_INVALID b count
      (bits_to_bytes_noround start_index) (start_index `mod` 8) set true.

(** The range that is looked at is always the empty one. *)
Definition judge_empty (count n ptr start_index : Z) (bad_iter : range) : outcome verdict :=
  let iter := RANGE_EMPTY in
  if size iter <? count then
    e ← range_get_end_assert iter;
    if e =? 8 * n
    then Ok (AtEnd {| range_start := u64 (bytes_to_bits ptr + front iter); zero_count := size iter |})
    else Ok TooShort
  else Ok (Taken (u64 (bytes_to_bits ptr + front iter)) start_index).
Definition find_set_at_mult (b : bitmap) (count mult start_index : Z) (unset : bool) : outcome (Z * bitmap) :=
  let ptr := bits_to_bytes_noround start_index in
  '(ok, start_index) ← round_up (start_index `mod` 8) mult (start_index `mod` 8);
  if negb ok then Ok (0, b)
  else find_multiple count_lsb_zero_bits (judge_empty count) FIND_BIT_INVALID b count ptr start_index unset false.
Definition bitmap_find_at_mult (b : bitmap) (count mult start_index : Z) (expected_value invert : bool) :
    outcome (Z * bitmap) :=
  if expected_value then find_set_at_mult b count mult start_index invert
  else find_unset_at_mult b count mult start_index invert.

Section heap.
Context {H : Type}.
Context (malloc_size : Z -> H -> outcome (option (Z * list Z) * H)).
Context (free : Z -> H -> outcome H).
Definition bitmap_alloc (bit_count : Z) (h : H) : outcome (bitmap * H) :=
  gbuffer_alloc malloc_size (u32 (bits_to_bytes_roundup bit_count)) h.
Definition bitmap_destroy (b : bitmap) (h : H) : outcome (bitmap * H) := gbuffer_destroy free b h.
End heap.
