(* ===== verification/BitmapInv.v ===== *)
(** * Bitmaps as sequences of bits

    [bit data i] is bit [i] of the bytes [data].  The lemmas say which bits the
    words that the code reads and writes consist of, and what the searches in
    one word find. *)
From S2P Require Import Prelude CArith Range Convert Buffer BufferInv Bitmap.

(** ** Bits *)
Definition bit (data : list Z) (i : Z) : bool :=
  match data !! Z.to_nat (i / 8) with Some b => Z.testbit b (i `mod` 8) | None => false end.
Definition bytes_ok (data : list Z) : Prop := Forall (in_u 8) data.
Definition bit_size (data : list Z) : Z := 8 * Z.of_nat (length data).

Lemma div8_add p k : 0 <= k < 8 -> (8 * p + k) / 8 = p /\ (8 * p + k) `mod` 8 = k.
Proof. intros Hk. Z.to_euclidean_division_equations. lia. Qed.
Lemma bit_split i : i = 8 * (i / 8) + i `mod` 8 /\ 0 <= i `mod` 8 < 8.
Proof. Z.to_euclidean_division_equations. lia. Qed.

Lemma bit_at data p b k : data !! Z.to_nat p = Some b -> 0 <= k < 8 -> bit data (8 * p + k) = Z.testbit b k.
Proof. intros Hb Hk. unfold bit. destruct (div8_add p k Hk) as [-> ->]. by rewrite Hb. Qed.

(** Only the bits of [lo, hi) change: they get the value. *)
Definition set_bits (data : list Z) (lo hi : Z) (value : bool) (data' : list Z) : Prop :=
  length data' = length data /\ bytes_ok data' /\
  forall i, 0 <= i < bit_size data ->
    bit data' i = if (lo <=? i) && (i <? hi) then value else bit data i.

Lemma set_bits_nothing data lo hi value : bytes_ok data -> hi <= lo -> set_bits data lo hi value data.
Proof.
  intros Hd H. split_and!; [done|done|]. intros i Hi. zcases; simpl; try done. lia.
Qed.
Lemma set_bits_seq d1 d2 d3 lo mid hi value : lo <= mid <= hi ->
  set_bits d1 lo mid value d2 -> set_bits d2 mid hi value d3 -> set_bits d1 lo hi value d3.
Proof.
  intros Hm (L1 & _ & B1) (L2 & O2 & B2). split_and!; [congruence|done|]. intros i Hi.
  rewrite B2, B1 by (unfold bit_size in *; rewrite ?L1; lia). zcases; simpl; done || lia.
Qed.

Lemma write_byte data ptr x : 0 <= ptr < Z.of_nat (length data) ->
  write_bytes data ptr [x] = Ok (<[Z.to_nat ptr := x]> data).
Proof.
  intros Hp. rewrite write_bytes_ok by (simpl; lia). f_equal.
  rewrite insert_take_drop by lia. by replace (Z.to_nat ptr + length [x])%nat with (S (Z.to_nat ptr)) by (simpl; lia).
Qed.

Lemma le_word_byte b : le_word [b] = b.
Proof. simpl. lia. Qed.

Lemma update_byte_ok data ptr f b : data !! Z.to_nat ptr = Some b -> 0 <= ptr -> in_u 8 (f b) ->
  update_byte data ptr f = Ok (<[Z.to_nat ptr := f b]> data).
Proof.
  intros Hb Hp Hf. pose proof (lookup_lt_Some _ _ _ Hb) as Hl. unfold update_byte, load_word.
  rewrite (proj2 (Z.leb_le (ptr + 1) _)) by lia. rewrite read_bytes_ok by lia. rewrite outcome_bind_ok.
  change (Z.to_nat 1) with 1%nat. rewrite (drop_S _ b _ Hb).
  cbn [take]. rewrite outcome_bind_ok. simpl (take 0 _). rewrite le_word_byte. unfold store_word.
  change (Z.to_nat 1) with 1%nat. cbn [le_bytes].
  rewrite Z.mod_small by exact Hf. apply write_byte. lia.
Qed.

(** Changing one byte. *)
Lemma set_bits_byte data ptr b b' lo hi value : bytes_ok data -> data !! Z.to_nat ptr = Some b -> 0 <= ptr ->
  in_u 8 b' -> 0 <= lo -> hi <= 8 ->
  (forall k, 0 <= k < 8 -> Z.testbit b' k = if (lo <=? k) && (k <? hi) then value else Z.testbit b k) ->
  set_bits data (8 * ptr + lo) (8 * ptr + hi) value (<[Z.to_nat ptr := b']> data).
Proof.
  intros Hd Hb Hp Hb' Hlo Hhi Hbits. pose proof (lookup_lt_Some _ _ _ Hb) as Hl.
  split_and!; [apply length_insert|by apply Forall_insert|]. intros i Hi.
  destruct (bit_split i) as [Ei Hk]. rewrite Ei. set (p := i / 8) in *. set (k := i `mod` 8) in *.
  assert (0 <= p) by (unfold p; apply Z.div_pos; lia).
  destruct (decide (p = ptr)) as [->|Hne].
  - rewrite (bit_at _ ptr b' k) by (done || by apply list_lookup_insert_eq).
    rewrite (bit_at _ ptr b k) by done. rewrite Hbits by done. zcases; simpl; done || lia.
  - unfold bit. destruct (div8_add p k Hk) as [-> ->]. rewrite list_lookup_insert_ne by lia.
    zcases; simpl; done || lia.
Qed.

Lemma set_bits_for_mask_ok b mask value : in_u 8 b ->
  in_u 8 (set_bits_for_mask b mask value) /\
  forall k, 0 <= k < 8 ->
    Z.testbit (set_bits_for_mask b mask value) k = if Z.testbit mask k then value else Z.testbit b k.
Proof.
  intros Hb. unfold set_bits_for_mask. destruct value.
  - split; [apply wrap_in_u; lia|]. intros k Hk. unfold wrap.
    rewrite Z.mod_pow2_bits_low, Z.lor_spec by lia. destruct (Z.testbit mask k); [apply orb_true_r|apply orb_false_r].
  - split.
    + assert (in_u 8 (u8 (Z.lnot mask))) as Hm by (apply wrap_in_u; lia). unfold in_u in *. split.
      * apply Z.land_nonneg. lia.
      * destruct (Z.eq_dec (Z.land b (u8 (Z.lnot mask))) 0) as [->|]; [lia|].
        apply Z.log2_lt_cancel. rewrite Z.log2_pow2 by lia.
        pose proof (Z.log2_land b (u8 (Z.lnot mask)) ltac:(lia) ltac:(lia)).
        pose proof (Z.log2_le_mono b 255 ltac:(lia)). change (Z.log2 255) with 7 in *. lia.
    + intros k Hk. unfold wrap. rewrite Z.land_spec, Z.mod_pow2_bits_low, Z.lnot_spec by lia.
      destruct (Z.testbit mask k); [apply andb_false_r|apply andb_true_r].
Qed.

Lemma mask_ok n : 0 < n <= 64 -> mask_for_n_bits n = Ok (Z.ones n).
Proof.
  intros Hn. unfold mask_for_n_bits. destruct (Z.eqb_spec n 64) as [->|Hne]; [done|].
  rewrite (proj2 (Z.ltb_lt 0 n)), (proj2 (Z.ltb_lt n 64)) by lia. cbn [andb]. f_equal.
  change UINT64_MAX with (Z.ones 64). rewrite Z.shiftr_div_pow2 by lia.
  rewrite Z.ones_div_pow2 by lia. f_equal. lia.
Qed.

(** The three stages of bitmap_set_range. *)
Lemma set_mask data ptr lo n mask value : bytes_ok data -> 0 <= ptr < Z.of_nat (length data) ->
  0 <= lo -> lo + n <= 8 ->
  (forall k, 0 <= k < 8 -> Z.testbit mask k = (lo <=? k) && (k <? lo + n)) ->
  exists data', update_byte data ptr (fun byte => set_bits_for_mask byte mask value) = Ok data' /\
  set_bits data (8 * ptr + lo) (8 * ptr + lo + n) value data'.
Proof.
  intros Hd Hp Hlo Hn Hm.
  destruct (lookup_lt_is_Some_2 data (Z.to_nat ptr)) as [b Hb]; [lia|].
  assert (in_u 8 b) as Hbu by (eapply Forall_lookup_1; eassumption).
  destruct (set_bits_for_mask_ok b mask value Hbu) as [Hu Hbits].
  rewrite (update_byte_ok data ptr _ b Hb) by (done || lia). eexists. split; [done|].
  rewrite <- Z.add_assoc. apply (set_bits_byte data ptr b); try (done || lia).
  intros k Hk. rewrite Hbits, Hm by done. done.
Qed.

Lemma set_fill data ptr n (value : bool) : bytes_ok data -> 0 <= ptr -> 0 <= n ->
  ptr + n <= Z.of_nat (length data) ->
  exists data', write_bytes data ptr (replicate (Z.to_nat n) (if value then 255 else 0)) = Ok data' /\
  set_bits data (8 * ptr) (8 * (ptr + n)) value data'.
Proof.
  intros Hd Hp Hn Hl. set (v := if (value : bool) then 255 else 0).
  rewrite write_bytes_ok by (rewrite ?length_replicate; lia). eexists. split; [done|].
  fold (spliced data ptr (replicate (Z.to_nat n) v)).
  assert (length (spliced data ptr (replicate (Z.to_nat n) v)) = length data) as Hlen
    by (apply spliced_length; rewrite ?length_replicate; lia).
  split_and!; [done| |].
  - unfold spliced. apply Forall_app. split; [by apply Forall_take|]. apply Forall_app.
    split; [|by apply Forall_drop]. apply Forall_replicate. unfold v, in_u. destruct value; lia.
  - intros i Hi. destruct (bit_split i) as [Ei Hk]. set (p := i / 8) in *. set (k := i `mod` 8) in *.
    assert (0 <= p) by (unfold p; apply Z.div_pos; lia). unfold bit_size in Hi. unfold bit. fold p k.
    unfold spliced. rewrite length_replicate.
    destruct (Z.leb_spec (8 * ptr) i); [destruct (Z.ltb_spec i (8 * (ptr + n)))|]; cbn [andb].
    + rewrite lookup_app_r by (rewrite length_take; lia).
      rewrite lookup_app_l by (rewrite length_replicate, length_take; lia).
      rewrite lookup_replicate_2 by (rewrite length_take; lia). unfold v.
      destruct value; [|apply Z.testbit_0_l]. change 255 with (Z.ones 8).
      apply Z.ones_spec_low. lia.
    + rewrite app_assoc, lookup_app_r by (rewrite length_app, length_take, length_replicate; lia).
      rewrite lookup_drop, length_app, length_take, length_replicate.
      replace (Z.to_nat ptr + Z.to_nat n + (Z.to_nat p - (Z.to_nat ptr `min` length data + Z.to_nat n)))%nat
        with (Z.to_nat p) by lia. done.
    + rewrite lookup_app_l by (rewrite length_take; lia). rewrite lookup_take_lt by lia. done.
Qed.

Lemma bitmap_set_range_ok b r value : bytes_ok (gb_data b) -> 0 <= front r -> 0 < size r ->
  front r + size r <= bit_size (gb_data b) -> bit_size (gb_data b) < 2 ^ 63 ->
  exists data', bitmap_set_range b r value = Ok (bitmap_with b data') /\
  set_bits (gb_data b) (front r) (front r + size r) value data'.
Proof.
  intros Hd Hf Hs Hl Hsz. unfold bitmap_set_range, bits_to_bytes_noround, bit_size in *.
  destruct (bit_split (front r)) as [Ef Hk]. set (p := front r / 8) in *. set (k := front r `mod` 8) in *.
  assert (0 <= p) by (unfold p; apply Z.div_pos; lia).
  assert (exists d1 p1 n1,
    (if negb (k =? 0) then
       mask ← mask_for_n_bits (Z.min (size r) (8 - k));
       data ← update_byte (gb_data b) p (fun byte =>
         set_bits_for_mask byte (u8 (u64 (Z.shiftl mask k))) value);
       Ok (data, p + 1, size r - Z.min (size r) (8 - k))
     else Ok (gb_data b, p, size r)) = Ok (d1, p1, n1) /\
    set_bits (gb_data b) (front r) (front r + size r - n1) value d1 /\
    0 <= n1 <= size r /\ (n1 = 0 \/ 8 * p1 + n1 = front r + size r) /\ 0 <= p1)
    as (d1 & p1 & n1 & -> & S1 & Hn1 & Hp1 & Hp1').
  { destruct (Z.eqb_spec k 0) as [E|E]; cbn [negb].
    - exists (gb_data b), p, (size r). split; [done|].
      split; [apply set_bits_nothing; [done|lia]|]. split; [lia|]. split; [right; lia|lia].
    - set (n := Z.min (size r) (8 - k)).
      assert (0 < n <= size r /\ n <= 8 - k /\ (n = size r \/ n = 8 - k)) as Hn
        by (unfold n; destruct (Z.min_spec (size r) (8 - k)); lia). clearbody n.
      rewrite mask_ok, outcome_bind_ok by lia.
      destruct (set_mask (gb_data b) p k n (u8 (u64 (Z.shiftl (Z.ones n) k))) value Hd)
        as (d1 & -> & S1); [lia..| |].
      { intros j Hj. unfold wrap. rewrite !Z.mod_pow2_bits_low by lia. rewrite Z.shiftl_spec by lia.
        zcases; cbn [andb].
        - rewrite Z.ones_spec_low by lia. done.
        - rewrite Z.testbit_neg_r by lia. done.
        - rewrite Z.ones_spec_high by lia. done.
        - lia. }
      rewrite outcome_bind_ok. exists d1, (p + 1), (size r - n). split; [done|].
      split; [rewrite Ef; by replace (8 * p + k + size r - (size r - n)) with (8 * p + k + n) by lia|].
      split; [lia|]. split; lia. }
  rewrite outcome_bind_ok. pose proof S1 as (L1 & O1 & _).
  destruct (bit_split n1) as [En Hm]. set (q := n1 / 8) in *. set (m := n1 `mod` 8) in *.
  assert (0 <= q) by (unfold q; apply Z.div_pos; lia).
  assert (exists d2 p2, (if negb (q =? 0) then
      data ← write_bytes d1 p1 (replicate (Z.to_nat q) (if value then 255 else 0));
      Ok (data, p1 + q, u64 (n1 - bytes_to_bits q))
    else Ok (d1, p1, n1)) = Ok (d2, p2, m) /\
    set_bits d1 (front r + size r - n1) (front r + size r - m) value d2 /\
    (m = 0 \/ 8 * p2 + m = front r + size r) /\ 0 <= p2) as (d2 & p2 & -> & S2 & Hp2 & Hp2').
  { destruct (Z.eqb_spec q 0) as [E|E]; cbn [negb].
    - exists d1, p1. replace m with n1 by lia. split; [done|].
      split; [apply set_bits_nothing; [done|lia]|]. split; [lia|lia].
    - destruct (set_fill d1 p1 q value O1) as (d2 & -> & S2); [lia|lia|rewrite L1; lia|].
      rewrite outcome_bind_ok. unfold bytes_to_bits.
      rewrite (wrap_small 64 (q * 8)), wrap_small by (unfold_ints; lia).
      exists d2, (p1 + q). replace (n1 - q * 8) with m by lia. split; [done|].
      split; [|split; [right; lia|lia]].
      replace (front r + size r - n1) with (8 * p1) by lia.
      by replace (front r + size r - m) with (8 * (p1 + q)) by lia. }
  rewrite outcome_bind_ok. pose proof S2 as (L2 & O2 & _).
  assert (exists d3, (if negb (m =? 0) then
      mask ← mask_for_n_bits m; update_byte d2 p2 (fun byte => set_bits_for_mask byte mask value)
    else Ok d2) = Ok d3 /\
    set_bits d2 (front r + size r - m) (front r + size r) value d3) as (d3 & -> & S3).
  { destruct (Z.eqb_spec m 0) as [E|E]; cbn [negb].
    - exists d2. split; [done|]. apply set_bits_nothing; [done|lia].
    - rewrite mask_ok, outcome_bind_ok by lia.
      destruct (set_mask d2 p2 0 m (Z.ones m) value O2) as (d3 & -> & S3); [rewrite L2, L1; lia|lia|lia| |].
      { intros j Hj. zcases; cbn [andb]; [apply Z.ones_spec_low; lia|lia|apply Z.ones_spec_high; lia|lia]. }
      exists d3. split; [done|]. rewrite Z.add_0_r in S3.
      replace (front r + size r - m) with (8 * p2) by lia. by replace (front r + size r) with (8 * p2 + m) by lia. }
  rewrite outcome_bind_ok. exists d3. split; [done|].
  eapply set_bits_seq; [|exact S1|]; [lia|]. eapply set_bits_seq; [|exact S2|exact S3]. lia.
Qed.

(** ** Words *)
Lemma le_word_bound bs : bytes_ok bs -> 0 <= le_word bs < 2 ^ (8 * Z.of_nat (length bs)).
Proof.
  induction 1 as [|b bs Hb Hbs IH]; [done|]. cbn [le_word length]. unfold in_u in Hb.
  replace (8 * Z.of_nat (S (length bs))) with (8 + 8 * Z.of_nat (length bs)) by lia.
  rewrite Z.pow_add_r by lia. change (2 ^ 8) with 256 in *. nia.
Qed.
Lemma le_word_bit bs k : bytes_ok bs -> 0 <= k -> Z.testbit (le_word bs) k = bit bs k.
Proof.
  intros Hbs. revert k. induction Hbs as [|b bs Hb Hbs IH]; intros k Hk.
  - unfold bit. simpl. by rewrite Z.testbit_0_l.
  - cbn [le_word]. unfold in_u in Hb. unfold bit in *.
    assert (Z.testbit (b + 256 * le_word bs) k = if k <? 8 then Z.testbit b k else Z.testbit (le_word bs) (k - 8)) as ->.
    { destruct (Z.ltb_spec k 8).
      - rewrite <- (Z.mod_pow2_bits_low _ 8 k) by lia. f_equal. change (2 ^ 8) with 256 in *.
        rewrite Z.mul_comm, Z_mod_plus_full. by apply Z.mod_small.
      - transitivity (Z.testbit ((b + 256 * le_word bs) / 2 ^ 8) (k - 8)).
        + rewrite Z.div_pow2_bits by lia. f_equal. lia.
        + f_equal. change (2 ^ 8) with 256 in *. rewrite Z.mul_comm, Z.div_add, Z.div_small by lia. lia. }
    destruct (Z.ltb_spec k 8).
    + rewrite Z.div_small, Z.mod_small by lia. done.
    + rewrite IH by lia. replace (k / 8) with ((k - 8) / 8 + 1) by (Z.to_euclidean_division_equations; lia).
      replace (k `mod` 8) with ((k - 8) `mod` 8) by (Z.to_euclidean_division_equations; lia).
      assert (0 <= (k - 8) / 8) by (apply Z.div_pos; lia).
      by replace (Z.to_nat ((k - 8) / 8 + 1)) with (S (Z.to_nat ((k - 8) / 8))) by lia.
Qed.

Lemma load_word_ok n data ptr : bytes_ok data -> 0 <= ptr -> 0 <= n -> ptr + n <= Z.of_nat (length data) ->
  exists w, load_word n data ptr = Ok w /\ 0 <= w < 2 ^ (8 * n) /\
  forall k, 0 <= k < 8 * n -> Z.testbit w k = bit data (8 * ptr + k).
Proof.
  intros Hd Hp Hn Hl. unfold load_word. rewrite (proj2 (Z.leb_le _ _) Hl).
  rewrite read_bytes_ok, outcome_bind_ok by lia. set (bs := take (Z.to_nat n) (drop (Z.to_nat ptr) data)).
  assert (bytes_ok bs) as Hbs by (by apply Forall_take, Forall_drop).
  assert (Z.of_nat (length bs) = n) as Hlen by (unfold bs; rewrite length_take, length_drop; lia).
  exists (le_word bs). split; [done|]. split; [rewrite <- Hlen; by apply le_word_bound|].
  intros k Hk. rewrite le_word_bit by (done || lia). unfold bit, bs.
  destruct (bit_split k) as [Ek Hk8]. assert (0 <= k / 8) by (apply Z.div_pos; lia).
  replace (8 * ptr + k) with (8 * (ptr + k / 8) + k `mod` 8) by lia.
  destruct (div8_add (ptr + k / 8) _ Hk8) as [-> ->].
  rewrite lookup_take_lt by lia. rewrite lookup_drop.
  by replace (Z.to_nat ptr + Z.to_nat (k / 8))%nat with (Z.to_nat (ptr + k / 8)) by lia.
Qed.

(** ** The first bit of a word *)
Lemma ctz_spec fuel n : 0 < n < 2 ^ Z.of_nat fuel ->
  0 <= ctz fuel n < Z.of_nat fuel /\ Z.testbit n (ctz fuel n) = true /\
  forall k, 0 <= k < ctz fuel n -> Z.testbit n k = false.
Proof.
  revert n. induction fuel as [|fuel IH]; intros n Hn; [simpl in Hn; lia|]. cbn [ctz].
  rewrite Nat2Z.inj_succ, Z.pow_succ_r in Hn by lia.
  destruct (Z.odd n) eqn:Ho.
  - split; [lia|]. split; [by rewrite Z.bit0_odd|lia].
  - pose proof (Z.div2_odd n) as Hd. rewrite Ho in Hd. cbn [Z.b2z] in Hd.
    destruct (IH (Z.div2 n)) as (H1 & H2 & H3); [lia|]. split; [lia|].
    assert (forall k, 0 <= k -> Z.testbit n (1 + k) = Z.testbit (Z.div2 n) k) as Hs
      by (intros k Hk; rewrite Z.div2_spec, Z.shiftr_spec by lia; f_equal; lia).
    split; [rewrite Hs by lia; done|]. intros k Hk. destruct (Z.eq_dec k 0) as [->|Hne].
    + by rewrite Z.bit0_odd.
    + replace k with (1 + (k - 1)) by lia. rewrite Hs by lia. apply H3. lia.
Qed.

(** [r] is the first place from [start] on, below [top], with a bit of the
    value, or [top]. *)
Definition first_from (f : Z -> bool) (value : bool) (start top r : Z) : Prop :=
  start <= r <= top /\ (forall k, start <= k < r -> f k = negb value) /\ (r < top -> f r = value).

Lemma count_lsb_zero_spec number start : 0 <= number < 2 ^ 64 -> 0 <= start < 64 ->
  exists n, count_lsb_zero_bits 64 number start = Ok n /\
  first_from (Z.testbit number) true start 64 (n + start) /\ 0 <= n <= 64.
Proof.
  intros Hn Hs. unfold count_lsb_zero_bits, shift_ok.
  rewrite (proj2 (Z.leb_le 0 start)), (proj2 (Z.ltb_lt start _)) by lia. cbn [andb negb].
  assert (0 <= Z.shiftr number start < 2 ^ 64) as Hr.
  { rewrite Z.shiftr_div_pow2 by lia. pose proof (pow2_pos start ltac:(lia)). split.
    - apply Z.div_pos; lia.
    - apply Z.div_lt_upper_bound; nia. }
  rewrite (wrap_small 64 (Z.shiftr _ _)) by exact Hr. set (m := Z.shiftr number start) in *.
  assert (forall k, 0 <= k -> Z.testbit m k = Z.testbit number (k + start)) as Hm
    by (intros k Hk; unfold m; by rewrite Z.shiftr_spec by lia).
  destruct (Z.eqb_spec m 0) as [E|E].
  - exists (64 - start). rewrite wrap_small by (unfold_ints; lia). split; [done|]. split; [|lia].
    split; [lia|]. split; [|lia]. intros k Hk. replace k with (k - start + start) by lia.
    rewrite <- Hm, E by lia. apply Z.testbit_0_l.
  - destruct (ctz_spec (Z.to_nat 64) m) as (H1 & H2 & H3); [rewrite Z2Nat.id; lia|].
    rewrite Z2Nat.id in H1 by lia.
    set (c := ctz (Z.to_nat 64) m) in *. exists c. rewrite wrap_small by (unfold_ints; lia).
    split; [done|]. assert (c + start < 64) as Hc.
    { destruct (Z.lt_ge_cases (c + start) 64); [done|]. exfalso. rewrite Hm in H2 by lia.
      rewrite Z.bits_above_log2 in H2; [done|lia|]. destruct (Z.eq_dec number 0) as [->|]; [simpl; lia|].
      apply Z.log2_lt_pow2; [lia|]. apply (Z.lt_le_trans _ (2 ^ 64)); [lia|]. apply pow2_le. lia. }
    split; [|lia]. split; [lia|]. split; [|intros _; by rewrite <- Hm by lia].
    intros k Hk. replace k with (k - start + start) by lia. rewrite <- Hm by lia. apply H3. lia.
Qed.

Lemma lnot_64 number : 0 <= number < 2 ^ 64 -> 0 <= wrap 64 (Z.lnot number) < 2 ^ 64 /\
  forall k, 0 <= k < 64 -> Z.testbit (wrap 64 (Z.lnot number)) k = negb (Z.testbit number k).
Proof.
  intros Hn. split; [exact (wrap_in_u 64 _ ltac:(lia))|]. intros k Hk. unfold wrap.
  by rewrite Z.mod_pow2_bits_low, Z.lnot_spec by lia.
Qed.

Lemma first_from_ext f g v w start top r : (forall k, start <= k < top -> f k = xorb (negb (eqb v w)) (g k)) ->
  first_from f v start top r -> first_from g w start top r.
Proof.
  intros H (H1 & H2 & H3). split; [done|]. split.
  - intros k Hk. specialize (H2 k Hk). rewrite H in H2 by lia. destruct v, w, (g k); done.
  - intros Hk. specialize (H3 Hk). rewrite H in H3 by lia. destruct v, w, (g r); done.
Qed.

Definition find_lsb (value : bool) := if value then find_lsb_one_bit else find_lsb_zero_bit.
Lemma find_lsb_spec value number start : 0 <= number < 2 ^ 64 -> 0 <= start < 64 ->
  exists r, find_lsb value number start = Ok r /\ first_from (Z.testbit number) value start 64 r.
Proof.
  intros Hn Hs. destruct value; cbn [find_lsb]; unfold find_lsb_one_bit, find_lsb_zero_bit.
  - destruct (count_lsb_zero_spec number start Hn Hs) as (n & -> & Hf & Hr).
    rewrite outcome_bind_ok. eexists. split; [done|].
    rewrite wrap_small; [done|]. destruct Hf as [? _]. unfold_ints; lia.
  - unfold count_lsb_one_bits. destruct (lnot_64 number Hn) as [Hn' Hbits].
    destruct (count_lsb_zero_spec _ start Hn' Hs) as (n & -> & Hf & Hr).
    rewrite outcome_bind_ok. eexists. split; [done|].
    rewrite wrap_small by (destruct Hf as [? _]; unfold_ints; lia).
    eapply first_from_ext; [|exact Hf]. intros k Hk. rewrite Hbits by lia. simpl. by destruct (Z.testbit number k).
Qed.
