(* ===== verification/BitmapThms.v ===== *)
(** * Properties of bitmaps

    A bitmap is in order when its object is exactly what lies between the two
    pointers; [bit data i] (BitmapInv.v) is then its [i]th bit. *)
From S2P Require Import Prelude CArith Range Convert Buffer BufferInv Bitmap BitmapInv.

Definition bitmap_ok (b : bitmap) : Prop :=
  bytes_ok (gb_data b) /\ bit_size (gb_data b) < 2 ^ 35 /\
  u64 (gb_end b - gb_begin b) = Z.of_nat (length (gb_data b)).

(** ** Words are written bit by bit *)
Lemma le_bytes_length n w : length (le_bytes n w) = n.
Proof. revert w. induction n as [|n IH]; intros w; simpl; [done|by rewrite IH]. Qed.
Lemma le_bytes_ok n w : bytes_ok (le_bytes n w).
Proof.
  revert w. induction n as [|n IH]; intros w; simpl; constructor; [|apply IH].
  apply (Z.mod_pos_bound w 256). lia.
Qed.
Lemma le_bytes_bit n w k : 0 <= k < 8 * Z.of_nat n -> bit (le_bytes n w) k = Z.testbit w k.
Proof.
  revert w k. induction n as [|n IH]; intros w k Hk; [lia|]. cbn [le_bytes].
  destruct (Z.ltb_spec k 8).
  - unfold bit. rewrite (Z.div_small k), (Z.mod_small k) by lia. simpl. change 256 with (2 ^ 8).
    by rewrite Z.mod_pow2_bits_low by lia.
  - replace (Z.testbit w k) with (Z.testbit (w / 256) (k - 8))
      by (change 256 with (2 ^ 8); rewrite Z.div_pow2_bits by lia; f_equal; lia).
    rewrite <- IH by lia. unfold bit.
    replace (k / 8) with ((k - 8) / 8 + 1) by (Z.to_euclidean_division_equations; lia).
    replace (k `mod` 8) with ((k - 8) `mod` 8) by (Z.to_euclidean_division_equations; lia).
    assert (0 <= (k - 8) / 8) by (apply Z.div_pos; lia).
    by replace (Z.to_nat ((k - 8) / 8 + 1)) with (S (Z.to_nat ((k - 8) / 8))) by lia.
Qed.

Lemma spliced_bit data ptr bs i : 0 <= ptr -> ptr + Z.of_nat (length bs) <= Z.of_nat (length data) ->
  0 <= i -> bit (spliced data ptr bs) i =
    if (8 * ptr <=? i) && (i <? 8 * (ptr + Z.of_nat (length bs))) then bit bs (i - 8 * ptr) else bit data i.
Proof.
  intros Hp Hl Hi. destruct (bit_split i) as [Ei Hk]. set (p := i / 8) in *. set (k := i `mod` 8) in *.
  assert (0 <= p) by (unfold p; apply Z.div_pos; lia). unfold bit at 1 3. fold p k. unfold spliced.
  destruct (Z.leb_spec (8 * ptr) i); [destruct (Z.ltb_spec i (8 * (ptr + Z.of_nat (length bs))))|]; cbn [andb].
  - unfold bit. replace (i - 8 * ptr) with (8 * (p - ptr) + k) by lia.
    destruct (div8_add (p - ptr) k Hk) as [-> ->].
    rewrite lookup_app_r by (rewrite length_take; lia).
    rewrite lookup_app_l by (rewrite length_take; lia). rewrite length_take.
    by replace (Z.to_nat p - Z.to_nat ptr `min` length data)%nat with (Z.to_nat (p - ptr)) by lia.
  - rewrite app_assoc, lookup_app_r by (rewrite length_app, length_take; lia).
    rewrite lookup_drop, length_app, length_take.
    by replace (Z.to_nat ptr + length bs + (Z.to_nat p - (Z.to_nat ptr `min` length data + length bs)))%nat
      with (Z.to_nat p) by lia.
  - rewrite lookup_app_l by (rewrite length_take; lia). by rewrite lookup_take_lt by lia.
Qed.

(** A word in which one bit is changed is written back. *)
Lemma store_word_bit n data ptr w w' k value : bytes_ok data -> 0 <= ptr -> 0 <= n ->
  ptr + n <= Z.of_nat (length data) -> 0 <= k < 8 * n ->
  (forall j, 0 <= j < 8 * n -> Z.testbit w j = bit data (8 * ptr + j)) ->
  (forall j, 0 <= j < 8 * n -> Z.testbit w' j = if j =? k then value else Z.testbit w j) ->
  exists data', store_word n data ptr w' = Ok data' /\
  set_bits data (8 * ptr + k) (8 * ptr + k + 1) value data'.
Proof.
  intros Hd Hp Hn Hl Hk Hw Hw'. unfold store_word.
  rewrite write_bytes_ok by (rewrite ?le_bytes_length; lia). eexists. split; [done|].
  fold (spliced data ptr (le_bytes (Z.to_nat n) w')).
  split_and!.
  - apply spliced_length; rewrite ?le_bytes_length; lia.
  - unfold spliced. apply Forall_app. split; [by apply Forall_take|]. apply Forall_app.
    split; [apply le_bytes_ok|by apply Forall_drop].
  - intros i Hi. rewrite spliced_bit by (rewrite ?le_bytes_length; lia). rewrite le_bytes_length, Z2Nat.id by lia.
    destruct (Z.leb_spec (8 * ptr) i); [destruct (Z.ltb_spec i (8 * (ptr + n)))|]; cbn [andb].
    + rewrite le_bytes_bit, Hw', Hw by lia. replace (8 * ptr + (i - 8 * ptr)) with i by lia.
      destruct (Z.eqb_spec (i - 8 * ptr) k); zcases; simpl; done || lia.
    + zcases; simpl; done || lia.
    + zcases; simpl; done || lia.
Qed.

(** ** The search for one bit *)
Definition change (value : bool) : Z -> Z -> Z :=
  if value then fun w m => Z.land w (wrap 64 (Z.lnot m)) else Z.lor.
Lemma change_bit value w k j : 0 <= k < 64 -> 0 <= j < 64 ->
  Z.testbit (change value w (Z.shiftl 1 k)) j = if j =? k then negb value else Z.testbit w j.
Proof.
  intros Hk Hj. assert (Z.testbit (Z.shiftl 1 k) j = (j =? k)) as Hm.
  { rewrite Z.shiftl_spec by lia. destruct (Z.eqb_spec j k) as [->|Hne]; [by rewrite Z.sub_diag|].
    destruct (Z.lt_ge_cases j k); [by rewrite Z.testbit_neg_r by lia|].
    apply Z.bits_above_log2; simpl; lia. }
  destruct value; cbn [change negb].
  - rewrite Z.land_spec. unfold wrap. rewrite Z.mod_pow2_bits_low, Z.lnot_spec, Hm by lia.
    destruct (j =? k); [apply andb_false_r|apply andb_true_r].
  - rewrite Z.lor_spec, Hm. destruct (j =? k); [apply orb_true_r|apply orb_false_r].
Qed.

(** What is left of the bitmap when the bit [r] was found. *)
Definition inverted (b : bitmap) (invert value : bool) (r : Z) (b' : bitmap) : Prop :=
  if invert then exists data', b' = bitmap_with b data' /\ set_bits (gb_data b) r (r + 1) (negb value) data'
  else b' = b.
Lemma bitmap_with_same b : bitmap_with b (gb_data b) = b.
Proof. by destruct b. Qed.

Lemma first_from_word data value n w ptr s r : 0 <= s < 8 -> 8 * n <= 64 -> 8 <= 8 * n ->
  (forall k, 0 <= k < 8 * n -> Z.testbit w k = bit data (8 * ptr + k)) ->
  first_from (Z.testbit w) value s 64 r ->
  (r < 8 * n -> first_from (bit data) value (8 * ptr + s) (8 * (ptr + n)) (8 * ptr + r)) /\
  (8 * n <= r -> forall k, 8 * ptr + s <= k < 8 * (ptr + n) -> bit data k = negb value).
Proof.
  intros Hs Hn1 Hn2 Hw (H1 & H2 & H3). split.
  - intros Hr. split; [lia|]. split.
    + intros k Hk. replace k with (8 * ptr + (k - 8 * ptr)) by lia. rewrite <- Hw by lia. apply H2. lia.
    + intros _. rewrite <- Hw by lia. apply H3. lia.
  - intros Hr k Hk. replace k with (8 * ptr + (k - 8 * ptr)) by lia. rewrite <- Hw by lia. apply H2. lia.
Qed.

Section single.
Context (b : bitmap) (Hb : bitmap_ok b) (value invert : bool) (start : Z) (Hstart : 0 <= start).
Abbreviation data := (gb_data b).
Abbreviation len := (Z.of_nat (length data)).

(** The place reached: every bit before it was looked at. *)
Definition seen (ptr s : Z) (a : Z * Z) : Prop :=
  0 <= ptr <= len /\ 0 <= s < 8 /\ start <= 8 * ptr + s /\ (s = 0 \/ ptr < len) /\
  (forall k, start <= k < 8 * ptr + s -> bit data k = negb value) /\ 0 <= a.1 <= 64 /\ a.2 = ptr.
Definition found (x : Z * bitmap) : Prop :=
  x.1 < bit_size data /\ first_from (bit data) value start (bit_size data) x.1 /\
  inverted b invert value x.1 x.2.

Lemma single_visit_spec n w ptr s a : 1 <= n <= 8 -> seen ptr s a -> ptr + n <= len ->
  load_word n data ptr = Ok w ->
  exists res, single_visit (find_lsb value) invert (change value) b n ptr w s a = Ok res /\
  match res with inl x => found x | inr a => seen (ptr + n) 0 a end.
Proof.
  intros Hn (Hp & Hs & Hge & Hs0 & Hseen & Ha) Hl Hw.
  destruct Hb as (Hd & Hsize & Hbs). unfold bit_size in *.
  destruct (load_word_ok n data ptr Hd) as (w' & Hw' & Hwr & Hwb); [lia..|].
  rewrite Hw in Hw'. injection Hw' as <-.
  assert (w < 2 ^ 64) as Hw64 by (pose proof (pow2_le (8 * n) 64 ltac:(lia)); lia).
  unfold single_visit.
  destruct (find_lsb_spec value w s) as (r & -> & Hf); [lia|lia|]. rewrite outcome_bind_ok.
  pose proof Hf as [Hr _].
  destruct (first_from_word data value n w ptr s r) as [Hyes Hno]; [lia..|done|done|].
  destruct (Z.ltb_spec r (8 * n)).
  - specialize (Hyes ltac:(lia)).
    assert (first_from (bit data) value start (8 * len) (8 * ptr + r)) as Hff.
    { destruct Hyes as (Y1 & Y2 & Y3). split; [lia|]. split; [|intros _; apply Y3; lia].
      intros k Hk. destruct (Z.lt_ge_cases k (8 * ptr + s)); [apply Hseen; lia|apply Y2; lia]. }
    assert (u64 (r + bytes_to_bits ptr) = 8 * ptr + r) as Er.
    { unfold bytes_to_bits. rewrite (wrap_small 64 (ptr * 8)), wrap_small by (unfold_ints; lia). lia. }
    destruct invert eqn:Hi.
    + destruct (store_word_bit n data ptr w (change value w (Z.shiftl 1 r)) r (negb value) Hd)
        as (data' & -> & Hset); [lia..|done| |].
      { intros j Hj. apply change_bit; lia. }
      rewrite outcome_bind_ok. eexists. split; [done|]. cbn [fst snd]. rewrite Er.
      split; [unfold bit_size; simpl; lia|]. split; [exact Hff|]. unfold inverted. rewrite Hi. by exists data'.
    + rewrite outcome_bind_ok. eexists. split; [done|]. cbn [fst snd]. rewrite Er.
      split; [unfold bit_size; simpl; lia|]. split; [exact Hff|].
      unfold inverted. rewrite Hi. apply bitmap_with_same.
  - eexists. split; [done|]. split_and!; simpl; try lia.
    intros k Hk. destruct (Z.lt_ge_cases k (8 * ptr + s)); [apply Hseen; lia|apply Hno; lia].
Qed.

Lemma for_words_single fuel n ptr s a : 1 <= n <= 8 -> seen ptr s a -> len - ptr < Z.of_nat fuel ->
  exists res, for_words fuel n (single_visit (find_lsb value) invert (change value) b n) b ptr s a = Ok res /\
  match res with inl x => found x | inr (ptr, s, a) => seen ptr s a /\ len - ptr < n end.
Proof.
  intros Hn. revert ptr s a. induction fuel as [|fuel IH]; intros ptr s a Hseen Hfuel.
  { destruct Hseen. lia. }
  pose proof Hb as (Hd & Hsize & Hbs). pose proof Hseen as (Hp & _). cbn [for_words].
  assert (u64 (byte_size b - ptr) = len - ptr) as ->.
  { unfold byte_size. rewrite Hbs. unfold bit_size in *. apply wrap_small. unfold_ints. lia. }
  destruct (Z.geb_spec (len - ptr) n).
  - destruct (load_word_ok n data ptr Hd) as (w & Hw & _); [lia..|]. rewrite Hw, outcome_bind_ok.
    destruct (single_visit_spec n w ptr s a Hn Hseen) as (res & -> & Hres); [lia|done|].
    rewrite outcome_bind_ok. destruct res as [x|a'].
    + eexists. by split.
    + destruct (IH (ptr + n) 0 a' Hres) as (res & -> & Hr); [lia|]. by exists res.
  - eexists. split; [done|]. simpl. split; [done|lia].
Qed.

Lemma for_types_single sizes ptr s a : Forall (fun n => 1 <= n <= 8) sizes -> seen ptr s a ->
  exists res, for_types sizes (single_visit (find_lsb value) invert (change value) b) b ptr s a = Ok res /\
  match res with
  | inl x => found x
  | inr a => (forall k, start <= k < 8 * a.2 -> bit data k = negb value) /\ 0 <= a.1 <= 64 /\
      0 <= a.2 <= len /\ (last sizes = Some 1 -> a.2 = len)
  end.
Proof.
  intros Hsz. revert ptr s a. induction Hsz as [|n sizes Hn Hsz IH]; intros ptr s a Hseen; cbn [for_types].
  - destruct Hseen as (H1 & H2 & H3 & H4 & H5 & H6 & H7). eexists. split; [done|]. simpl. rewrite H7.
    split; [|split; [lia|split; [lia|done]]]. intros k Hk. apply H5. lia.
  - destruct (for_words_single (word_fuel b) n ptr s a Hn Hseen) as (res & -> & Hres).
    { unfold word_fuel. destruct Hseen. lia. }
    rewrite outcome_bind_ok. destruct res as [x|[[ptr' s'] a']]; [by exists (inl x)|].
    destruct Hres as [Hseen' Hlt]. destruct (IH ptr' s' a' Hseen') as (res & Hr & Hres).
    exists res. split; [done|]. destruct res as [x|a'']; [done|].
    destruct Hres as (R1 & R2 & R3 & R4). do 3 (split; [done|]). intros Hlast.
    destruct sizes as [|m sizes]; [|by apply R4].
    simpl in Hlast. injection Hlast as ->. cbn [for_types] in Hr. injection Hr as <-.
    destruct Hseen' as (S1 & _ & _ & _ & _ & _ & S7). lia.
Qed.
End single.

Definition find_one (value : bool) : bitmap -> Z -> bool -> outcome (Z * bitmap) :=
  if value then find_single_set else find_single_unset.
Lemma find_one_spec b value start invert : bitmap_ok b -> 0 <= start <= bit_size (gb_data b) ->
  exists r b', find_one value b start invert = Ok (r, b') /\
  first_from (bit (gb_data b)) value start (bit_size (gb_data b)) (Z.min r (bit_size (gb_data b))) /\
  (if r <? bit_size (gb_data b) then inverted b invert value r b'
   else r <= bit_size (gb_data b) + 64 /\ b' = b).
Proof.
  intros Hb Hst. pose proof Hb as (Hd & Hsize & Hbs). destruct (bit_split start) as [Es Hm].
  assert (find_one value b start invert =
    find_single (find_lsb value) (change value) b start invert) as -> by (by destruct value).
  unfold find_single, bits_to_bytes_noround. unfold bit_size in *.
  assert (0 <= start / 8) by (apply Z.div_pos; lia).
  destruct (for_types_single b Hb value invert start ltac:(lia) word_sizes (start / 8) (start `mod` 8) (0, start / 8))
    as (res & -> & Hres); [repeat constructor; lia| |].
  { split_and!; simpl; try lia. }
  rewrite outcome_bind_ok. destruct res as [[r b']|[bi ptr]].
  - destruct Hres as (R1 & R2 & R3). simpl in R1, R2, R3. unfold bit_size in *. exists r, b'. split; [done|].
    rewrite Z.min_l by lia. split; [done|]. by rewrite (proj2 (Z.ltb_lt r _)) by lia.
  - destruct Hres as (R1 & R2 & R3 & R4). simpl in R1, R2, R3, R4. specialize (R4 eq_refl). subst ptr.
    unfold bytes_to_bits. rewrite (wrap_small 64 (_ * 8)), wrap_small by (unfold_ints; lia).
    eexists _, _. split; [done|]. rewrite Z.min_r by lia.
    rewrite (proj2 (Z.ltb_ge _ _)) by lia. split; [|split; [lia|done]].
    split; [lia|]. split; [|lia]. intros k Hk. apply R1. lia.
Qed.

(** ** Are all bits of a range the value *)
Definition all_bits (data : list Z) (lo n : Z) (value : bool) : bool :=
  forallb (fun k => eqb (bit data k) value) (seqZ lo n).
Lemma all_bits_iff data lo n value :
  all_bits data lo n value = true <-> forall k, lo <= k < lo + n -> bit data k = value.
Proof.
  unfold all_bits. rewrite forallb_forall. split.
  - intros H k Hk. apply eqb_prop, H. apply list_elem_of_In, elem_of_seqZ. lia.
  - intros H k Hk. apply list_elem_of_In, elem_of_seqZ in Hk. rewrite H by lia. apply eqb_reflx.
Qed.
Lemma all_bits_eq data lo n value (b : bool) :
  (b = true <-> forall k, lo <= k < lo + n -> bit data k = value) -> all_bits data lo n value = b.
Proof. intros H. apply eq_bool_prop_intro. rewrite !Is_true_true, all_bits_iff. by symmetry. Qed.
Lemma all_bits_split data lo n m value : 0 <= n -> 0 <= m ->
  all_bits data lo (n + m) value = all_bits data lo n value && all_bits data (lo + n) m value.
Proof.
  intros Hn Hm. apply all_bits_eq. rewrite andb_true_iff, !all_bits_iff. split.
  - intros [H1 H2] k Hk. destruct (Z.lt_ge_cases k (lo + n)); [apply H1|apply H2]; lia.
  - intros H. split; intros k Hk; apply H; lia.
Qed.
Lemma all_bits_prefix data lo n m value : m <= n ->
  all_bits data lo n value = true -> all_bits data lo m value = true.
Proof. rewrite !all_bits_iff. intros Hm H k Hk. apply H. lia. Qed.

(** The lowest [n] bits of two numbers. *)
Lemma bits_eqb n w v : 0 <= n -> 0 <= w < 2 ^ n -> 0 <= v < 2 ^ n ->
  (w =? v) = true <-> forall k, 0 <= k < n -> Z.testbit w k = Z.testbit v k.
Proof.
  intros Hn Hw Hv. rewrite Z.eqb_eq. split; [by intros ->|]. intros H. apply Z.bits_inj'. intros k Hk.
  destruct (Z.lt_ge_cases k n); [by apply H|].
  rewrite <- (Z.mod_small w (2 ^ n)), <- (Z.mod_small v (2 ^ n)) by lia.
  by rewrite !Z.mod_pow2_bits_high by lia.
Qed.
Lemma land_ones_bit w n k : 0 <= k < n -> Z.testbit (Z.land w (Z.ones n)) k = Z.testbit w k.
Proof. intros Hk. rewrite Z.land_spec, Z.ones_spec_low by lia. apply andb_true_r. Qed.
Lemma land_ones_range w n : 0 <= n -> 0 <= Z.land w (Z.ones n) < 2 ^ n.
Proof. intros Hn. rewrite Z.land_ones by done. apply Z.mod_pos_bound. by apply pow2_pos. Qed.
Lemma value_bits_bit (value : bool) n k : 0 <= k < n -> Z.testbit (if value then Z.ones n else 0) k = value.
Proof. intros Hk. destruct value; [by apply Z.ones_spec_low|apply Z.testbit_0_l]. Qed.

Section has.
Context (data : list Z) (Hd : bytes_ok data) (value : bool).
Abbreviation len := (Z.of_nat (length data)).

Lemma words_are_all_spec count n ptr : 1 <= n <= 8 -> 0 <= ptr -> ptr + n * Z.of_nat count <= len ->
  words_are_all count n data ptr (if value then 2 ^ (8 * n) - 1 else 0) =
  Ok (all_bits data (8 * ptr) (8 * n * Z.of_nat count) value).
Proof.
  intros Hn. revert ptr. induction count as [|count IH]; intros ptr Hp Hl; cbn [words_are_all].
  { f_equal. symmetry. apply all_bits_eq. split; [|done]. intros _ k Hk. lia. }
  destruct (load_word_ok n data ptr Hd) as (w & -> & Hw & Hbits); [lia..|]. rewrite outcome_bind_ok.
  replace (8 * n * Z.of_nat (S count)) with (8 * n + 8 * n * Z.of_nat count) by lia.
  rewrite all_bits_split by lia. replace (2 ^ (8 * n) - 1) with (Z.ones (8 * n)) by (rewrite Z.ones_equiv; lia).
  rewrite (all_bits_eq data (8 * ptr) (8 * n) value (w =? if value then Z.ones (8 * n) else 0)).
  - destruct (w =? _); [|done]. cbn [negb andb]. replace (2 ^ (8 * n) - 1) with (Z.ones (8 * n)) in IH by (rewrite Z.ones_equiv; lia).
    rewrite IH by lia. do 2 f_equal. lia.
  - pose proof (pow2_pos (8 * n) ltac:(lia)).
    rewrite (bits_eqb (8 * n)) by (destruct value; rewrite ?Z.ones_equiv; lia). split; intros H' k Hk.
    + specialize (H' (k - 8 * ptr) ltac:(lia)). rewrite Hbits, value_bits_bit in H' by lia. rewrite <- H'. f_equal. lia.
    + rewrite Hbits, value_bits_bit by lia. apply H'. lia.
Qed.

(** [count mod (8 * n)] bits are left after the words of [n] bytes. *)
Lemma check_membuf_spec n ptr count : 1 <= n <= 8 -> 0 <= ptr -> 0 < count < 2048 * n ->
  8 * ptr + count <= bit_size data ->
  check_membuf n data ptr value count =
  Ok (if count <? 8 * n then inr count
      else if negb (all_bits data (8 * ptr) (8 * n * (count / (8 * n))) value) then inl false
      else if count `mod` (8 * n) =? 0 then inl true else inr (count `mod` (8 * n))).
Proof.
  intros Hn Hp Hc Hl. unfold bit_size in Hl. unfold check_membuf, bits_to_bytes_noround.
  rewrite Z.div_div by lia. pose proof (Z.div_mod count (8 * n) ltac:(lia)) as Hdm.
  pose proof (Z.mod_pos_bound count (8 * n) ltac:(lia)) as Hm.
  set (q := count / (8 * n)) in *. set (m := count `mod` (8 * n)) in *.
  assert (0 <= q < 256) as Hq by nia. rewrite (wrap_small 8 q) by (unfold_ints; lia).
  destruct (Z.ltb_spec count (8 * n)) as [Hlt|Hge].
  - replace q with 0 by nia. done.
  - rewrite (proj2 (Z.eqb_neq q 0)) by nia. cbn [negb].
    rewrite words_are_all_spec by nia. rewrite outcome_bind_ok, Z2Nat.id by lia.
    destruct (all_bits _ _ _ _); [|done]. cbn [negb]. unfold bytes_to_bits.
    rewrite (wrap_small 64 (n * q * 8)), wrap_small by (unfold_ints; nia).
    replace (count - n * q * 8) with m by lia. by destruct (Z.eqb_spec m 0).
Qed.

(** One size of words, and what follows. *)
Definition look (n : Z) (next : Z -> Z) (count : Z) : Z :=
  if count <? 8 * n then next count else 8 * n * (count / (8 * n)).
Lemma stage n ptr count f next : 1 <= n <= 8 -> 0 <= ptr -> 0 < count < 2048 * n ->
  8 * ptr + count <= bit_size data ->
  (forall c, 0 < c < 8 * n -> 8 * ptr + c <= bit_size data ->
     f c = Ok (all_bits data (8 * ptr) (next c) value) /\ next c <= c) ->
  bool_or (check_membuf n data ptr value count) f = Ok (all_bits data (8 * ptr) (look n next count) value) /\
  look n next count <= count.
Proof.
  intros Hn Hp Hc Hl Hf. unfold bool_or, look. rewrite check_membuf_spec by done. rewrite outcome_bind_ok.
  pose proof (Z.div_mod count (8 * n) ltac:(lia)) as Hdm. pose proof (Z.mod_pos_bound count (8 * n) ltac:(lia)) as Hm.
  destruct (Z.ltb_spec count (8 * n)) as [Hlt|Hge]; [by apply Hf; lia|]. split; [|lia].
  destruct (all_bits _ _ _ _) eqn:E; [|done]. cbn [negb].
  destruct (Z.eqb_spec (count `mod` (8 * n)) 0); [done|].
  assert (1 <= count / (8 * n)) by nia.
  destruct (Hf (count `mod` (8 * n))) as [-> Hle]; [lia|lia|]. f_equal.
  eapply all_bits_prefix; [|exact E]. nia.
Qed.

(** The bits looked at where the first byte is done. *)
Definition looked : Z -> Z := look 8 (look 4 (look 2 (look 1 id))).
Lemma last_byte ptr c : 0 <= ptr -> 0 < c < 8 -> 8 * ptr + c <= bit_size data ->
  (byte ← load_word 1 data ptr; mask ← mask_for_n_bits c;
   Ok (Z.land byte mask =? Z.land (if value then 255 else 0) mask)) = Ok (all_bits data (8 * ptr) c value).
Proof.
  intros Hp Hc Hl. unfold bit_size in Hl.
  destruct (load_word_ok 1 data ptr Hd) as (w & -> & Hw & Hbits); [lia..|].
  rewrite outcome_bind_ok, mask_ok, outcome_bind_ok by lia. f_equal. symmetry. apply all_bits_eq.
  rewrite (bits_eqb c) by (try apply land_ones_range; lia). change 255 with (Z.ones 8). split; intros H k Hk.
  - specialize (H (k - 8 * ptr) ltac:(lia)). rewrite !land_ones_bit, Hbits, value_bits_bit in H by lia.
    rewrite <- H. f_equal. lia.
  - rewrite !land_ones_bit, Hbits, value_bits_bit by lia. apply H. lia.
Qed.
Lemma after_first_byte ptr count : 0 <= ptr -> 0 < count < 2 ^ 14 -> 8 * ptr + count <= bit_size data ->
  bool_or (check_membuf 8 data ptr value count) (fun count =>
  bool_or (check_membuf 4 data ptr value count) (fun count =>
  bool_or (check_membuf 2 data ptr value count) (fun count =>
  bool_or (check_membuf 1 data ptr value count) (fun count =>
    byte ← load_word 1 data ptr;
    mask ← mask_for_n_bits count;
    Ok (Z.land byte mask =? Z.land (if value then 255 else 0) mask))))) =
  Ok (all_bits data (8 * ptr) (looked count) value).
Proof.
  intros Hp Hc Hl. change (2 ^ 14) with 16384 in Hc.
  apply (stage 8 ptr count _ _ ltac:(lia) Hp ltac:(lia) Hl). intros c1 H1 L1.
  apply (stage 4 ptr c1 _ _ ltac:(lia) Hp ltac:(lia) L1). intros c2 H2 L2.
  apply (stage 2 ptr c2 _ _ ltac:(lia) Hp ltac:(lia) L2). intros c3 H3 L3.
  apply (stage 1 ptr c3 _ _ ltac:(lia) Hp ltac:(lia) L3). intros c4 H4 L4.
  split; [|unfold id; lia]. by apply last_byte.
Qed.
End has.

(** The bits that [bitmap_has] looks at, from the front of the range on. *)
Definition has_looked (r : range) : Z :=
  let k := front r `mod` 8 in
  if k =? 0 then looked (size r)
  else if size r <=? 8 - k then size r else 8 - k + looked (size r - (8 - k)).
Lemma bitmap_has_looked b r value : bitmap_ok b -> 0 <= front r -> 0 < size r < 2 ^ 14 ->
  front r + size r <= bit_size (gb_data b) ->
  bitmap_has b r value = Ok (all_bits (gb_data b) (front r) (has_looked r) value).
Proof.
  intros (Hd & Hsize & Hbs) Hf Hs Hl. unfold bitmap_has.
  assert (index_range_in_bounds r (bitmap_capacity b) = true) as ->.
  { unfold index_range_in_bounds, range_get_end, check_add, bitmap_capacity, bytes_to_bits, gbuffer_capacity, distance32.
    rewrite Hbs. unfold bit_size in *. rewrite (wrap_small 32), (wrap_small 64 (_ * 8)) by (unfold_ints; lia).
    rewrite (proj2 (Z.ltb_lt _ _)) by lia. cbn [negb]. rewrite wrap_small by (unfold_ints; lia).
    unfold ordinal_in_bounds. by rewrite (proj2 (Z.eqb_neq _ 0)), (proj2 (Z.leb_le _ _)) by lia. }
  unfold range_empty. rewrite (proj2 (Z.eqb_neq (size r) 0)) by lia. cbn [negb c_assert]. rewrite !outcome_bind_ok.
  unfold bits_to_bytes_noround, has_looked. destruct (bit_split (front r)) as [Ef Hk].
  set (p := front r / 8) in *. set (k := front r `mod` 8) in *.
  assert (0 <= p) by (unfold p; apply Z.div_pos; lia).
  destruct (Z.eqb_spec k 0) as [E|E]; cbn [negb].
  { rewrite outcome_bind_ok. replace (front r) with (8 * p) by lia. apply after_first_byte; [done|lia..]. }
  unfold bit_size in *.
  destruct (load_word_ok 1 (gb_data b) p Hd) as (w & -> & Hw & Hbits); [lia..|]. rewrite outcome_bind_ok.
  set (n := Z.min (size r) (8 - k)).
  assert (0 < n <= 8 - k /\ (size r <= 8 - k -> n = size r) /\ (8 - k < size r -> n = 8 - k)) as Hn by (unfold n; lia).
  clearbody n. rewrite mask_ok, outcome_bind_ok by lia.
  assert ((Z.land (Z.shiftr w k) (Z.ones n) =? Z.land (if value then 255 else 0) (Z.ones n)) =
    all_bits (gb_data b) (front r) n value) as ->.
  { symmetry. apply all_bits_eq. rewrite (bits_eqb n) by (try apply land_ones_range; lia).
    change 255 with (Z.ones 8). split; intros H' j Hj.
    - specialize (H' (j - front r) ltac:(lia)). rewrite !land_ones_bit, value_bits_bit, Z.shiftr_spec, Hbits in H' by lia.
      rewrite <- H'. f_equal. lia.
    - rewrite !land_ones_bit, value_bits_bit, Z.shiftr_spec, Hbits by lia. apply H'. lia. }
  destruct (Z.leb_spec (size r) (8 - k)) as [Hle|Hgt].
  - replace n with (size r) by lia. destruct (all_bits _ _ _ _); cbn [negb]; [|done].
    rewrite Z.sub_diag. done.
  - replace n with (8 - k) by lia.
    assert (0 <= looked (size r - (8 - k))) as Hlk.
    { unfold looked, look, id. repeat case_match; try lia; apply Z.mul_nonneg_nonneg; try lia; apply Z.div_pos; lia. }
    rewrite all_bits_split by lia. destruct (all_bits _ _ (8 - k) _); cbn [negb andb]; [|done].
    rewrite (proj2 (Z.eqb_neq _ 0)) by lia. rewrite outcome_bind_ok.
    replace (front r + (8 - k)) with (8 * (p + 1)) by lia. apply after_first_byte; [done|lia..|unfold bit_size; lia].
Qed.

(** ** The search for several bits

    In a bitmap of ones there is no range of zeros in any word. *)
Definition all_ones (data : list Z) : Prop := forall i, 0 <= i < bit_size data -> bit data i = true.

Lemma no_zero_range n w s : In n word_sizes -> 0 <= s < 8 -> 0 <= w < 2 ^ (8 * n) ->
  (forall k, 0 <= k < 8 * n -> Z.testbit w k = true) ->
  get_range_of_lsb_zero_bits w s (8 * n) = Ok RANGE_EMPTY.
Proof.
  intros Hn Hs Hw Hbits. unfold get_range_of_lsb_zero_bits, get_range_of_lsb_one_bits.
  assert (8 <= 8 * n <= 64) as Hn64 by (simpl in Hn; lia).
  assert (0 <= w < 2 ^ 64) as Hw64 by (pose proof (pow2_le (8 * n) 64 ltac:(lia)); lia).
  destruct (lnot_64 w Hw64) as [Hr Hb].
  destruct (find_lsb_spec true _ s Hr) as (r & Hfind & H1 & H2 & H3); [lia|].
  cbn [find_lsb] in Hfind. rewrite Hfind, outcome_bind_ok.
  assert (8 * n <= r).
  { destruct (Z.lt_ge_cases r (8 * n)); [|done]. exfalso. specialize (H3 ltac:(lia)).
    rewrite Hb, Hbits in H3 by lia. done. }
  unfold index_in_bounds. rewrite (proj2 (Z.ltb_ge r (8 * n))) by lia. by rewrite orb_true_r.
Qed.

Section multiple.
Context (b : bitmap) (Hb : bitmap_ok b) (Hones : all_ones (gb_data b)).
Context (lsb_count : Z -> Z -> Z -> outcome Z) (judge : Z -> Z -> Z -> range -> outcome verdict).
Context (count : Z) (invert value : bool).
Abbreviation len := (Z.of_nat (length (gb_data b))).
Abbreviation c0 := {| range_start := 0; zero_count := 0 |}.
Abbreviation visit := (multiple_visit lsb_count judge b count invert value).

Lemma visit_ones n ptr w s : In n word_sizes -> 0 <= s < 8 -> 0 <= w < 2 ^ (8 * n) ->
  (forall k, 0 <= k < 8 * n -> Z.testbit w k = true) -> visit n ptr w s c0 = Ok (inr c0).
Proof.
  intros Hn Hs Hw Hbits. unfold multiple_visit. cbn [zero_count negb Z.eqb].
  by rewrite (no_zero_range n w s Hn Hs Hw Hbits).
Qed.
Lemma for_words_ones fuel n ptr s : In n word_sizes -> 0 <= ptr <= len -> 0 <= s < 8 ->
  len - ptr < Z.of_nat fuel ->
  exists ptr' s', for_words fuel n (visit n) b ptr s c0 = Ok (inr (ptr', s', c0)) /\ ptr <= ptr' <= len /\ 0 <= s' < 8.
Proof.
  intros Hn. revert ptr s. induction fuel as [|fuel IH]; intros ptr s Hp Hs Hfuel; [lia|].
  pose proof Hb as (Hd & Hsize & Hbs). cbn [for_words].
  assert (u64 (byte_size b - ptr) = len - ptr) as ->.
  { unfold byte_size. rewrite Hbs. unfold bit_size in *. apply wrap_small. unfold_ints. lia. }
  assert (1 <= n <= 8) as Hn8 by (simpl in Hn; lia).
  destruct (Z.geb_spec (len - ptr) n); [|exists ptr, s; split; [done|lia]].
  destruct (load_word_ok n (gb_data b) ptr Hd) as (w & -> & Hw & Hbits); [lia..|].
  rewrite outcome_bind_ok, visit_ones, outcome_bind_ok; [|done|done|done|].
  - destruct (IH (ptr + n) 0) as (ptr' & s' & -> & ? & ?); [lia..|]. exists ptr', s'. split; [done|lia].
  - intros k Hk. rewrite Hbits by lia. apply Hones. unfold bit_size. lia.
Qed.
Lemma for_types_ones sizes ptr s : incl sizes word_sizes -> 0 <= ptr <= len -> 0 <= s < 8 ->
  for_types sizes visit b ptr s c0 = Ok (inr c0).
Proof.
  revert ptr s. induction sizes as [|n sizes IH]; intros ptr s Hsz Hp Hs; [done|]. cbn [for_types].
  destruct (for_words_ones (word_fuel b) n ptr s) as (ptr' & s' & -> & ? & ?); [apply Hsz; by left|lia..|unfold word_fuel; lia|].
  rewrite outcome_bind_ok. apply IH; [|lia..]. intros m Hm. apply Hsz. by right.
Qed.
End multiple.

(** The failure of a search for several bits is answered with the index 1, and
    several ones are not found in a bitmap that has nothing else. *)
Lemma find_multiple_ones b count start value invert : bitmap_ok b -> all_ones (gb_data b) -> count <> 1 ->
  0 <= start <= bit_size (gb_data b) -> bitmap_find b count start value invert = Ok (1, b).
Proof.
  intros Hb Hones Hc Hst. unfold bitmap_find. rewrite (proj2 (Z.eqb_neq count 1)) by done. cbn [negb].
  destruct (bit_split start) as [Es Hm]. unfold bit_size in Hst.
  assert (0 <= start / 8) by (apply Z.div_pos; lia).
  destruct value; unfold find_multiple_set, find_multiple_unset, find_multiple, bits_to_bytes_noround;
    rewrite for_types_ones; done || lia || by intros ?.
Qed.

(** ** Single bits *)
Lemma bitmap_at_bit b i : bitmap_ok b -> 0 <= i < bit_size (gb_data b) -> bitmap_at b i = Ok (bit (gb_data b) i).
Proof.
  intros (Hd & _ & _) Hi. unfold bitmap_at, bits_to_bytes_noround. destruct (bit_split i) as [Ei Hk].
  assert (0 <= i / 8) by (apply Z.div_pos; lia). unfold bit_size in Hi.
  destruct (load_word_ok 1 (gb_data b) (i / 8) Hd) as (w & -> & Hw & Hbits); [lia..|].
  rewrite outcome_bind_ok. f_equal. replace (bit (gb_data b) i) with (Z.testbit w (i `mod` 8)) by (rewrite Hbits by lia; by rewrite <- Ei).
  rewrite Z.shiftl_1_l.
  set (k := i `mod` 8) in *. destruct (Z.testbit w k) eqn:Hbit.
  - destruct (Z.eqb_spec (Z.land w (2 ^ k)) 0) as [E|]; [|done].
    assert (Z.testbit (Z.land w (2 ^ k)) k = true) as Ht by (by rewrite Z.land_spec, Hbit, Z.pow2_bits_true by lia).
    rewrite E, Z.testbit_0_l in Ht. done.
  - assert (Z.land w (2 ^ k) = 0) as ->; [|done]. apply Z.bits_inj'. intros j Hj.
    rewrite Z.land_spec, Z.testbit_0_l. destruct (Z.eq_dec j k) as [->|]; [by rewrite Hbit|].
    rewrite Z.pow2_bits_false by lia. apply andb_false_r.
Qed.
Lemma bitmap_set_single b i value : 0 <= i -> bitmap_set b i value = bitmap_set_range b (RANGE_INIT i 1) value.
Proof.
  intros Hi. destruct (bit_split i) as [Ei Hk]. unfold bitmap_set, bitmap_set_range. cbn [front size].
  set (k := i `mod` 8) in *. destruct (Z.eqb_spec k 0) as [E|E]; cbn [negb].
  - rewrite E, outcome_bind_ok. change (bits_to_bytes_noround 1) with 0. cbn [Z.eqb negb]. rewrite outcome_bind_ok.
    cbn [Z.eqb negb]. change (mask_for_n_bits 1) with (Ok 1). by rewrite outcome_bind_ok.
  - rewrite Z.min_l by lia. change (mask_for_n_bits 1) with (Ok 1). rewrite outcome_bind_ok.
    rewrite (wrap_small 64), (wrap_small 8); [by destruct (update_byte _ _ _)| |].
    all: rewrite Z.shiftl_1_l; pose proof (Z.pow_le_mono_r 2 k 7 ltac:(lia) ltac:(lia)); pose proof (pow2_pos k ltac:(lia));
      unfold_ints; lia.
Qed.
Lemma bitmap_with_ok b data' : bitmap_ok b -> length data' = length (gb_data b) -> bytes_ok data' ->
  bitmap_ok (bitmap_with b data').
Proof.
  intros (H1 & H2 & H3) Hl Hd. unfold bitmap_ok, bitmap_with, gb_with, bit_size in *. cbn [gb_data gb_end gb_begin].
  by rewrite Hl.
Qed.
Lemma looked_nonneg c : 0 <= c -> 0 <= looked c.
Proof. intros Hc. unfold looked, look, id. repeat case_match; try lia; apply Z.mul_nonneg_nonneg; try lia; apply Z.div_pos; lia. Qed.
Lemma looked_le c : 0 < c -> looked c <= c.
Proof. intros Hc. unfold looked, look, id. repeat case_match; try lia; Z.to_euclidean_division_equations; lia. Qed.
Lemma has_looked_le r : 0 < size r -> has_looked r <= size r.
Proof.
  intros Hs. unfold has_looked. case_match; [by apply looked_le|]. case_match; [lia|].
  pose proof (looked_le (size r - (8 - front r `mod` 8)) ltac:(lia)). lia.
Qed.

(** ** Properties *)

(** for every bitmap whose object is exactly its capacity and every
    non-empty range inside it, bitmap_set_range does not fail, and afterwards
    bitmap_at answers the value for the bits of the range and what it answered
    before for every other bit; the bitmap keeps its size, and bitmap_set is
    the range of one bit. *)
Theorem bitmap_set_range_spec (b : bitmap) (r : range) (value : bool) :
  bitmap_ok b -> 0 <= front r -> 0 < size r -> front r + size r <= bit_size (gb_data b) ->
  (exists b', bitmap_set_range b r value = Ok b' /\ bitmap_ok b' /\ bitmap_capacity b' = bitmap_capacity b /\
    forall i, 0 <= i < bit_size (gb_data b) ->
      bitmap_at b' i = if bool_decide (in_range r i) then Ok value else bitmap_at b i) /\
  bitmap_set b (front r) value = bitmap_set_range b (RANGE_INIT (front r) 1) value.
Proof.
  intros Hb Hf Hs Hl. pose proof Hb as (Hd & Hsize & Hbs). split; [|by apply bitmap_set_single].
  destruct (bitmap_set_range_ok b r value Hd Hf Hs Hl) as (data' & -> & Hlen & Hok & Hbits); [lia|].
  exists (bitmap_with b data'). assert (bitmap_ok (bitmap_with b data')) as Hb' by (by apply bitmap_with_ok).
  split; [done|]. split; [done|]. split; [done|]. intros i Hi.
  rewrite (bitmap_at_bit b) by done. rewrite (bitmap_at_bit (bitmap_with b data'));
    [|done|unfold bit_size in *; simpl; rewrite Hlen; lia].
  cbn [bitmap_with gb_with gb_data]. rewrite Hbits by done. unfold in_range.
  case_bool_decide; zcases; simpl; done || lia.
Qed.

Definition sample : bitmap := bitmap_open 4096 [15; 0; 255; 255; 255; 255; 255; 255; 255; 255; 0; 7] 12.
Lemma sample_ok : bitmap_ok sample.
Proof. split_and!; [repeat constructor; unfold_ints; lia|done|done]. Qed.
Lemma bitmap_set_range_spec_witness :
  (exists b', bitmap_set_range sample (RANGE_INIT 5 85) true = Ok b' /\ bitmap_ok b' /\ bitmap_capacity b' = 96 /\
    forall i, 0 <= i < 96 -> bitmap_at b' i = if bool_decide (in_range (RANGE_INIT 5 85) i) then Ok true else bitmap_at sample i) /\
  bitmap_set sample 5 true = bitmap_set_range sample (RANGE_INIT 5 1) true.
Proof. apply (bitmap_set_range_spec sample (RANGE_INIT 5 85) true sample_ok); vm_compute; done. Defined.

(** C29: a search for one bit from any place of a bitmap on terminates without
    reading outside of it, over all sizes of words, and answers the first
    index from there on whose bit has the value, which it inverts when asked
    and leaves every other bit alone; when there is none the answer lies at or
    behind the capacity, up to 64 further (it is not FIND_BIT_INVALID), and
    nothing is changed. *)
Theorem bitmap_find_one_spec (b : bitmap) (start_index : Z) (value invert : bool) :
  bitmap_ok b -> 0 <= start_index <= bit_size (gb_data b) ->
  exists r b', bitmap_find b 1 start_index value invert = Ok (r, b') /\
  first_from (bit (gb_data b)) value start_index (bit_size (gb_data b)) (Z.min r (bit_size (gb_data b))) /\
  (if r <? bit_size (gb_data b) then
     (if invert then exists data', b' = bitmap_with b data' /\ set_bits (gb_data b) r (r + 1) (negb value) data'
      else b' = b)
   else r <= bit_size (gb_data b) + 64 /\ b' = b).
Proof.
  intros Hb Hst. destruct (find_one_spec b value start_index invert Hb Hst) as (r & b' & H1 & H2 & H3).
  exists r, b'. split; [|by split]. rewrite <- H1. by destruct value.
Qed.
Lemma bitmap_find_one_spec_witness :
  exists r b', bitmap_find sample 1 16 false true = Ok (r, b') /\
  first_from (bit (gb_data sample)) false 16 96 (Z.min r 96) /\
  (if r <? 96 then exists data', b' = bitmap_with sample data' /\ set_bits (gb_data sample) r (r + 1) true data'
   else r <= 160 /\ b' = sample).
Proof. apply (bitmap_find_one_spec sample 16 false true sample_ok); vm_compute; done. Defined.

(** bitmap_has on a range of fewer than 2^14 bits neither fails nor reads
    outside the bitmap, and answers whether the bits it looks at have the
    value: those of the first byte when the range starts inside one, and then
    only the whole words of 64 bits, or 32, 16, 8 or fewer than 8 bits when
    there is no longer one.  So [false] is always right, and [true] is right
    for ranges that end there. *)
Theorem bitmap_has_spec (b : bitmap) (r : range) (value : bool) :
  bitmap_ok b -> 0 <= front r -> 0 < size r < 2 ^ 14 -> front r + size r <= bit_size (gb_data b) ->
  exists answer, bitmap_has b r value = Ok answer /\
  (answer = true <-> forall i, front r <= i < front r + has_looked r -> bit (gb_data b) i = value) /\
  (answer = false -> exists i, in_range r i /\ bit (gb_data b) i = negb value).
Proof.
  intros Hb Hf Hs Hl. rewrite (bitmap_has_looked b r value) by done. eexists. split; [done|].
  split; [by rewrite all_bits_iff|]. intros Ha. unfold all_bits in Ha.
  apply not_true_iff_false in Ha. rewrite forallb_forall in Ha.
  destruct (decide (Forall (fun k => bit (gb_data b) k = value) (seqZ (front r) (has_looked r)))) as [Hall|Hn].
  - exfalso. apply Ha. intros k Hk. rewrite Forall_forall in Hall.
    rewrite Hall by (by apply list_elem_of_In). apply eqb_reflx.
  - apply not_Forall_Exists in Hn; [|apply _]. apply Exists_exists in Hn as (k & Hk & Hne).
    apply elem_of_seqZ in Hk. pose proof (has_looked_le r ltac:(lia)). exists k.
    split; [unfold in_range; lia|]. simpl in Hne. by destruct (bit _ k), value.
Qed.
Lemma bitmap_has_spec_witness :
  exists answer, bitmap_has sample (RANGE_INIT 16 72) true = Ok answer /\
  (answer = true <-> forall i, 16 <= i < 16 + has_looked (RANGE_INIT 16 72) -> bit (gb_data sample) i = true) /\
  (answer = false -> exists i, in_range (RANGE_INIT 16 72) i /\ bit (gb_data sample) i = negb true).
Proof. apply (bitmap_has_spec sample (RANGE_INIT 16 72) true sample_ok); vm_compute; done. Defined.
(** The last 8 of the 72 bits are zeros. *)
Lemma bitmap_has_wrong : bitmap_has sample (RANGE_INIT 16 72) true = Ok true /\ bitmap_at sample 87 = Ok false.
Proof. by vm_compute. Qed.
