(* ===== verification/Format.v ===== *)
(** * Formatted output: lib/parse_printf.c and format.c

    The format is a C string, a list as in Convert.v.  A [va_list] is the list
    of the arguments still to come, by the type they were passed with; taking
    one by another type is undefined.  The callbacks that write are parameters
    with a state of their own; [should_continue] is passed to them and comes
    back. *)
From S2P Require Import Prelude CArith Convert Buffer.

(** ** Arguments *)
Inductive arg :=
| VInt (n : Z)                     (* int and unsigned *)
| VLong (n : Z)                    (* the 64-bit integer types *)
| VStr (s : option (list Z))       (* const char *: NULL, or the bytes it points to *)
| VPtr (p : Z)                     (* const void * *)
| VOut (p : Z).                    (* a pointer to an integer, for %n *)
Abbreviation va_list := (list arg).

Definition va_int (l : va_list) : outcome (Z * va_list) :=
  match l with VInt n :: l => Ok (i32 n, l) | _ => Undef end.
Definition va_unsigned (l : va_list) : outcome (Z * va_list) :=
  match l with VInt n :: l => Ok (u32 n, l) | _ => Undef end.
Definition va_long (l : va_list) : outcome (Z * va_list) :=
  match l with VLong n :: l => Ok (u64 n, l) | _ => Undef end.
Definition va_str (l : va_list) : outcome (option (list Z) * va_list) :=
  match l with VStr s :: l => Ok (s, l) | _ => Undef end.
Definition va_ptr (l : va_list) : outcome (Z * va_list) :=
  match l with VPtr p :: l => Ok (p, l) | _ => Undef end.
Definition va_out (l : va_list) : outcome (Z * va_list) :=
  match l with VOut p :: l => Ok (p, l) | _ => Undef end.

(** ** C strings (kernel/stdlib.c, on lists) *)
Fixpoint str_chr (str : list Z) (ch : Z) : outcome (option (list Z)) :=
  match str with
  | [] => Undef
  | c :: rest =>
      if c =? 0 then Ok None else if c =? ch then Ok (Some str) else str_chr rest ch
  end.
Fixpoint str_len (str : list Z) : outcome Z :=
  match str with
  | [] => Undef
  | c :: rest => if c =? 0 then Ok 0 else n ← str_len rest; Ok (1 + n)
  end.
(** It looks at the character behind the last one it counts. *)
Fixpoint str_nlen (limit : nat) (str : list Z) : outcome Z :=
  match str with
  | [] => Undef
  | c :: rest =>
      match limit with
      | O => Ok 0
      | S limit => if c =? 0 then Ok 0 else n ← str_nlen limit rest; Ok (1 + n)
      end
  end.

(** ** lib/parse_printf.h *)
Record printf_spec_info := {
  add_one_space_for_sign : bool;
  left_justify : bool;
  add_pos_sign : bool;
  add_base_prefix : bool;
  leftpad_zeros : bool;
  spec : Z;
  width : Z;
  precision : Z;
  length_sv : string_view;
}.
Definition PRINTF_SPEC_INFO_INIT : printf_spec_info :=
  {| add_one_space_for_sign := false; left_justify := false; add_pos_sign := false;
     add_base_prefix := false; leftpad_zeros := false; spec := 0; width := 0; precision := 0;
     length_sv := SV_EMPTY |}.

Definition with_flags (sp lj ps bp lz : bool) (i : printf_spec_info) : printf_spec_info :=
  {| add_one_space_for_sign := sp || add_one_space_for_sign i; left_justify := lj || left_justify i;
     add_pos_sign := ps || add_pos_sign i; add_base_prefix := bp || add_base_prefix i;
     leftpad_zeros := lz || leftpad_zeros i; spec := spec i; width := width i;
     precision := precision i; length_sv := length_sv i |}.
Definition with_spec (c : Z) (i : printf_spec_info) : printf_spec_info :=
  {| add_one_space_for_sign := add_one_space_for_sign i; left_justify := left_justify i;
     add_pos_sign := add_pos_sign i; add_base_prefix := add_base_prefix i;
     leftpad_zeros := leftpad_zeros i; spec := c; width := width i;
     precision := precision i; length_sv := length_sv i |}.
Definition with_width (n : Z) (i : printf_spec_info) : printf_spec_info :=
  {| add_one_space_for_sign := add_one_space_for_sign i; left_justify := left_justify i;
     add_pos_sign := add_pos_sign i; add_base_prefix := add_base_prefix i;
     leftpad_zeros := leftpad_zeros i; spec := spec i; width := n;
     precision := precision i; length_sv := length_sv i |}.
Definition with_precision (n : Z) (i : printf_spec_info) : printf_spec_info :=
  {| add_one_space_for_sign := add_one_space_for_sign i; left_justify := left_justify i;
     add_pos_sign := add_pos_sign i; add_base_prefix := add_base_prefix i;
     leftpad_zeros := leftpad_zeros i; spec := spec i; width := width i;
     precision := n; length_sv := length_sv i |}.
Definition with_length (sv : string_view) (i : printf_spec_info) : printf_spec_info :=
  {| add_one_space_for_sign := add_one_space_for_sign i; left_justify := left_justify i;
     add_pos_sign := add_pos_sign i; add_base_prefix := add_base_prefix i;
     leftpad_zeros := leftpad_zeros i; spec := spec i; width := width i;
     precision := precision i; length_sv := sv |}.

(** ** Parsing a specifier

    [None] is the answer [false]: the specifier is incomplete. *)
Definition flag_of (c : Z) : option (printf_spec_info -> printf_spec_info) :=
  if c =? 32 then Some (with_flags true false false false false)
  else if c =? 45 then Some (with_flags false true false false false)
  else if c =? 43 then Some (with_flags false false true false false)
  else if c =? 35 then Some (with_flags false false false true false)
  else if c =? 48 then Some (with_flags false false false false true)
  else None.

Fixpoint parse_flags (curr_spec : printf_spec_info) (iter : list Z) :
    outcome (option (printf_spec_info * list Z)) :=
  match iter with
  | [] => Undef
  | c :: rest =>
      match flag_of c with
      | None => Ok (Some (curr_spec, iter))
      | Some f =>
          next ← deref (head rest);
          if next =? 0 then Ok None else parse_flags (f curr_spec) rest
      end
  end.

(** The number and [*iter_out]: it is not written when the string ends. *)
Fixpoint read_int (result : Z) (iter : list Z) : outcome (Z * option (list Z)) :=
  match iter with
  | [] => Undef
  | c :: rest =>
      if c =? 0 then Ok (result, None)
      else
        let digit := u8 (c - 48) in
        if digit >=? 10 then Ok (result, Some iter)
        else
          let '(ok, r) := check_mul_s 32 result 10 in
          if negb ok then Ok (-1, Some iter)
          else
            let '(ok, r) := check_add_s 32 r digit in
            if negb ok then Ok (-1, Some iter) else read_int r rest
  end.
Definition read_int_from_fmt_string (c_str : list Z) : outcome (Z * list Z) :=
  '(n, iter_out) ← read_int 0 c_str; Ok (n, default c_str iter_out).

Definition parse_width (curr_spec : printf_spec_info) (l : va_list) (iter : list Z) :
    outcome (option (printf_spec_info * va_list * list Z)) :=
  c ← cstr_char iter;
  '(ok, curr_spec, l, iter) ←
    (if negb (c =? 42) then
       '(width, iter) ← read_int_from_fmt_string iter;
       if width =? -1 then Ok (false, curr_spec, l, iter)
       else Ok (true, with_width (u32 width) curr_spec, l, iter)
     else
       '(value, l) ← va_int l;
       iter ← cstr_next iter;
       Ok (true, with_width (if value >=? 0 then value else 0) curr_spec, l, iter));
  if negb ok then Ok None
  else
    c ← cstr_char iter;
    if c =? 0 then Ok None else Ok (Some (curr_spec, l, iter)).

Definition parse_precision (curr_spec : printf_spec_info) (iter : list Z) (l : va_list) :
    outcome (option (printf_spec_info * va_list * list Z)) :=
  c ← cstr_char iter;
  if negb (c =? 46) then Ok (Some (with_precision (-1) curr_spec, l, iter))
  else
    iter ← cstr_next iter;
    c ← cstr_char iter;
    if c =? 0 then Ok None
    else if c =? 42 then
      next ← cstr_next iter;
      n ← cstr_char next;
      if n =? 0 then Ok None
      else '(p, l) ← va_int l; Ok (Some (with_precision p curr_spec, l, next))
    else
      '(p, iter) ← read_int_from_fmt_string iter;
      if p =? -1 then Ok None
      else
        c ← cstr_char iter;
        if c =? 0 then Ok None else Ok (Some (with_precision p curr_spec, l, iter)).

(** The specifier, the number, whether it is zero, the arguments and [*iter_out]. *)
Abbreviation length_result := (option (printf_spec_info * Z * bool * va_list * list Z)).
Definition got (sv : string_view) (number : Z) (curr_spec : printf_spec_info) (l : va_list)
    (iter : list Z) : length_result :=
  Some (with_length sv curr_spec, number, number =? 0, l, iter).

Definition parse_length (curr_spec : printf_spec_info) (iter : list Z) (l : va_list)
    (number : Z) (is_zero : bool) : outcome length_result :=
  c ← cstr_char iter;
  if c =? 0 then Ok None
  else if c =? 104 then
    iter ← cstr_next iter;
    d ← cstr_char iter;
    if d =? 0 then Ok None
    else if d =? 104 then
      '(n, l) ← va_int l; iter ← cstr_next iter;
      Ok (got [104; 104] (u64 (i8 n)) curr_spec l iter)
    else '(n, l) ← va_int l; Ok (got [104] (u64 (swrap 16 n)) curr_spec l iter)
  else if c =? 108 then
    iter ← cstr_next iter;
    d ← cstr_char iter;
    if d =? 0 then Ok None
    else if d =? 108 then
      '(n, l) ← va_long l; iter ← cstr_next iter;
      Ok (got [108; 108] n curr_spec l iter)
    else '(n, l) ← va_long l; Ok (got [108] n curr_spec l iter)
  else if (c =? 106) || (c =? 122) || (c =? 116) then
    '(n, l) ← va_long l;
    iter ← cstr_next iter;
    Ok (got [c] n curr_spec l iter)
  else Ok (Some (with_length SV_EMPTY curr_spec, number, is_zero, l, iter)).

(** ** Converting an argument *)
Inductive handle_spec_result :=
| E_HANDLE_SPEC_OK | E_HANDLE_SPEC_REACHED_END | E_HANDLE_SPEC_CONTINUE.

(** What [handle_spec] changes; [stores] are the integers written by [%n], by
    address and size. *)
Record spec_state := {
  conv_buffer : list Z;
  args : va_list;
  stores : list (Z * Z * Z);
  parsed : string_view;
  is_zero : bool;
  is_null : bool;
}.
Definition with_parsed (buffer : list Z) (sv : string_view) (st : spec_state) : spec_state :=
  {| conv_buffer := buffer; args := args st; stores := stores st; parsed := sv;
     is_zero := is_zero st; is_null := is_null st |}.
Definition with_null (sv : string_view) (st : spec_state) : spec_state :=
  {| conv_buffer := conv_buffer st; args := args st; stores := stores st; parsed := sv;
     is_zero := is_zero st; is_null := true |}.
Definition with_args (l : va_list) (st : spec_state) : spec_state :=
  {| conv_buffer := conv_buffer st; args := l; stores := stores st; parsed := parsed st;
     is_zero := is_zero st; is_null := is_null st |}.
Definition with_zero (b : bool) (st : spec_state) : spec_state :=
  {| conv_buffer := conv_buffer st; args := args st; stores := stores st; parsed := parsed st;
     is_zero := b; is_null := is_null st |}.
Definition with_store (p size v : Z) (st : spec_state) : spec_state :=
  {| conv_buffer := conv_buffer st; args := args st; stores := stores st ++ [(p, size, v)];
     parsed := parsed st; is_zero := is_zero st; is_null := is_null st |}.

(** [if (length_sv.length == 0) { number = va_arg(...); *is_zero_out = ... }] *)
Definition spec_number (signed : bool) (info : printf_spec_info) (number : Z) (st : spec_state) :
    outcome (Z * spec_state) :=
  match length_sv info with
  | [] =>
      '(n, l) ← (if signed then va_int (args st) else va_unsigned (args st));
      let n := u64 n in
      Ok (n, with_zero (n =? 0) (with_args l st))
  | _ => Ok (number, st)
  end.

Definition print_unsigned (base : Z) (options : num_to_str_options) (info : printf_spec_info)
    (number : Z) (st : spec_state) : outcome (handle_spec_result * spec_state) :=
  '(number, st) ← spec_number false info number st;
  '(buffer, sv) ← unsigned_to_string_view number base (conv_buffer st) options;
  Ok (E_HANDLE_SPEC_OK, with_parsed buffer sv st).

Definition capital : num_to_str_options := NUM_TO_STR_OPTIONS false false true false false.
Definition capital_prefixed : num_to_str_options := NUM_TO_STR_OPTIONS true false true false false.
Definition pos_sign (b : bool) : num_to_str_options := NUM_TO_STR_OPTIONS false b false false false.

Definition NULL_TEXT : string_view := char_codes "(null)".
Definition NIL_TEXT : string_view := char_codes "(nil)".

Definition print_str (info : printf_spec_info) (st : spec_state) :
    outcome (handle_spec_result * spec_state) :=
  '(str, l) ← va_str (args st);
  let st := with_args l st in
  match str with
  | None => Ok (E_HANDLE_SPEC_OK, with_null NULL_TEXT st)
  | Some str =>
      length ← (if negb (precision info =? -1)
                then str_nlen (Z.to_nat (u64 (precision info))) str
                else str_len str);
      Ok (E_HANDLE_SPEC_OK, with_parsed (conv_buffer st) (take (Z.to_nat length) str) st)
  end.

Definition print_ptr (st : spec_state) : outcome (handle_spec_result * spec_state) :=
  '(p, l) ← va_ptr (args st);
  let st := with_args l st in
  if negb (p =? 0) then
    '(buffer, sv) ← unsigned_to_string_view p NUMERIC_BASE_16 (conv_buffer st) capital_prefixed;
    Ok (E_HANDLE_SPEC_OK, with_parsed buffer sv st)
  else Ok (E_HANDLE_SPEC_OK, with_null NIL_TEXT st).

(** [%lln] stores a [signed char]. *)
Definition store_count (info : printf_spec_info) (written_out : Z) (st : spec_state) :
    outcome (handle_spec_result * spec_state) :=
  let put size :=
    '(p, l) ← va_out (args st);
    Ok (E_HANDLE_SPEC_CONTINUE, with_store p size (wrap (8 * size) written_out) (with_args l st)) in
  match length_sv info with
  | [] => put 4
  | c :: rest =>
      if c =? 104 then
        match rest with
        | [] => put 2
        | [d] => if d =? 104 then put 1 else Ok (E_HANDLE_SPEC_OK, st)
        | _ => Ok (E_HANDLE_SPEC_OK, st)
        end
      else if c =? 108 then
        match rest with
        | [] => put 8
        | [d] => if d =? 108 then put 1 else Ok (E_HANDLE_SPEC_OK, st)
        | _ => Ok (E_HANDLE_SPEC_OK, st)
        end
      else if (c =? 106) || (c =? 122) || (c =? 116) then put 8
      else Ok (E_HANDLE_SPEC_OK, st)
  end.

Definition print_char (c : Z) (st : spec_state) : outcome (handle_spec_result * spec_state) :=
  buffer ← put (conv_buffer st) 0 c;
  Ok (E_HANDLE_SPEC_OK, with_parsed buffer [c] st).

Definition handle_spec (info : printf_spec_info) (number written_out : Z) (st : spec_state) :
    outcome (handle_spec_result * spec_state) :=
  let c := spec info in
  if c =? 0 then Ok (E_HANDLE_SPEC_REACHED_END, st)
  else if c =? 98 then print_unsigned NUMERIC_BASE_2 NUM_TO_STR_OPTIONS_INIT info number st
  else if c =? 66 then print_unsigned NUMERIC_BASE_2 capital info number st
  else if (c =? 100) || (c =? 105) then
    '(number, st) ← spec_number true info number st;
    '(buffer, sv) ← signed_to_string_view (i64 number) NUMERIC_BASE_10 (conv_buffer st)
                      (pos_sign (add_pos_sign info));
    Ok (E_HANDLE_SPEC_OK, with_parsed buffer sv st)
  else if c =? 117 then print_unsigned NUMERIC_BASE_10 NUM_TO_STR_OPTIONS_INIT info number st
  else if c =? 111 then print_unsigned NUMERIC_BASE_8 NUM_TO_STR_OPTIONS_INIT info number st
  else if c =? 120 then print_unsigned NUMERIC_BASE_16 NUM_TO_STR_OPTIONS_INIT info number st
  else if c =? 88 then print_unsigned NUMERIC_BASE_16 capital info number st
  else if c =? 99 then
    '(n, l) ← va_int (args st); print_char (i8 n) (with_args l st)
  else if c =? 115 then print_str info st
  else if c =? 112 then print_ptr st
  else if c =? 110 then store_count info written_out st
  else if c =? 37 then print_char 37 st
  else Ok (E_HANDLE_SPEC_CONTINUE, st).

Definition is_int_specifier (spec : Z) : bool :=
  (spec =? 98) || (spec =? 66) || (spec =? 100) || (spec =? 105) || (spec =? 111) ||
  (spec =? 117) || (spec =? 120) || (spec =? 88).

(** ** Writing *)

(** What is written so far, the text still to write, whether to go on and the
    callbacks' state. *)
Abbreviation writer S := (Z * string_view * bool * S)%type.

Section write.
Context {S : Type}.
(** [printf_write_char_callback_t] and [printf_write_sv_callback_t]: the number
    of characters written, whether to go on, and the state behind [cb_info]. *)
Context (write_char_cb : option printf_spec_info -> Z -> Z -> bool -> S -> outcome (Z * bool * S)).
Context (write_sv_cb : option printf_spec_info -> string_view -> bool -> S -> outcome (Z * bool * S)).

Definition write_prefix_for_spec (info : printf_spec_info) (cont : bool) (s : S) : outcome (Z * bool * S) :=
  if negb (add_base_prefix info) then Ok (0, cont, s)
  else
    let c := spec info in
    if c =? 98 then write_sv_cb (Some info) [48; 98] cont s
    else if c =? 66 then write_sv_cb (Some info) [48; 66] cont s
    else if c =? 111 then write_char_cb (Some info) 48 1 cont s
    else if c =? 120 then write_sv_cb (Some info) [48; 120] cont s
    else if c =? 88 then write_sv_cb (Some info) [48; 88] cont s
    else Ok (0, cont, s).

(** [if (!cont_out)] tests the pointer: there is no early return. *)
Definition pad_with_lead_zeros (info : printf_spec_info) (parsed : string_view) (zero_count : Z)
    (is_null : bool) (cont : bool) (s : S) : outcome (Z * string_view * bool * S) :=
  '(out, cont, s) ← (if negb is_null then write_prefix_for_spec info cont s else Ok (0, cont, s));
  if zero_count =? 0 then Ok (out, parsed, cont, s)
  else
    front ← sv_char parsed;
    '(out, parsed, cont, s) ←
      (if (front =? 43) || (front =? 45) then
         '(n, cont, s) ← write_char_cb (Some info) front 1 cont s;
         Ok (u64 (out + n), sv_drop_front parsed, cont, s)
       else Ok (out, parsed, cont, s));
    '(n, cont, s) ← write_char_cb (Some info) 48 zero_count cont s;
    Ok (u64 (out + n), parsed, cont, s).

Definition call_cb (info : option printf_spec_info) (sv : string_view) (cont : bool) (s : S) :
    outcome (Z * bool * S) :=
  match sv with
  | [] => Ok (0, cont, s)
  | [ch] => write_char_cb info ch 1 cont s
  | _ => write_sv_cb info sv cont s
  end.

(** The widths: the zeros and the spaces to write around [parsed], and whether
    to write it. *)
Definition padding (info : printf_spec_info) (parsed : string_view) (is_zero : bool) :
    outcome (Z * Z * bool) :=
  let should_write_parsed := negb (is_zero && (precision info =? 0)) in
  let parsed_length := u8 (Z.of_nat (length parsed)) in
  let parsed_length :=
    if negb should_write_parsed then 0
    else if add_base_prefix info then
      if spec info =? 111 then u8 (parsed_length + 1)
      else if (spec info =? 120) || (spec info =? 88) then u8 (parsed_length + 2)
      else parsed_length
    else parsed_length in
  '(padded_zero_count, space_pad_count, parsed_length) ←
    (if is_int_specifier (spec info) then
       front ← sv_char parsed;
       let signed := (front =? 45) || (front =? 43) in
       let '(padded_zero_count, parsed_length) :=
         if negb (precision info =? -1) then
           let total := u8 (Z.of_nat (length parsed)) in
           let total_digit_count := if signed then u8 (total - 1) else total in
           if total_digit_count <? precision info then
             let zeros := u32 (precision info - total_digit_count) in
             (zeros, u8 (parsed_length + zeros))
           else (0, parsed_length)
         else (0, parsed_length) in
       let space_pad_count :=
         if negb (parsed_length =? 0) && add_one_space_for_sign info && negb signed then 1 else 0 in
       Ok (padded_zero_count, space_pad_count, parsed_length)
     else Ok (0, 0, parsed_length));
  if parsed_length <? width info then
    let pad_with_zeros :=
      leftpad_zeros info && is_int_specifier (spec info) && (precision info =? -1) &&
      negb (left_justify info) in
    if pad_with_zeros
    then Ok (u32 (width info - parsed_length), space_pad_count, should_write_parsed)
    else Ok (padded_zero_count, u32 (space_pad_count + (width info - parsed_length)), should_write_parsed)
  else Ok (padded_zero_count, space_pad_count, should_write_parsed).

(** One of the three parts of a conversion: it is skipped once a callback has
    said to stop. *)
Definition write_zeros (info : printf_spec_info) (zeros : Z) (is_null : bool) (w : writer S) : outcome (writer S) :=
  let '(written, parsed, cont, s) := w in
  if negb cont then Ok w
  else '(n, parsed, cont, s) ← pad_with_lead_zeros info parsed zeros is_null cont s;
       Ok (u64 (written + n), parsed, cont, s).
Definition write_parsed (info : printf_spec_info) (should_write : bool) (w : writer S) : outcome (writer S) :=
  let '(written, parsed, cont, s) := w in
  if negb cont then Ok w
  else if should_write then
    '(n, cont, s) ← call_cb (Some info) parsed cont s; Ok (u64 (written + n), parsed, cont, s)
  else Ok w.
Definition write_spaces (info : printf_spec_info) (spaces : Z) (w : writer S) : outcome (writer S) :=
  let '(written, parsed, cont, s) := w in
  if negb cont then Ok w
  else if negb (spaces =? 0) then
    '(n, cont, s) ← write_char_cb (Some info) 32 spaces cont s; Ok (u64 (written + n), parsed, cont, s)
  else Ok w.
Definition write_conversion (info : printf_spec_info) (st : spec_state) (written : Z) (s : S) :
    outcome (Z * bool * S) :=
  '(zeros, spaces, should_write) ← padding info (parsed st) (is_zero st);
  let w := (written, parsed st, true, s) in
  w ← (if left_justify info then
         w ← write_zeros info zeros (is_null st) w;
         w ← write_parsed info should_write w;
         write_spaces info spaces w
       else
         w ← write_spaces info spaces w;
         w ← write_zeros info zeros (is_null st) w;
         write_parsed info should_write w);
  let '(written, _, cont, s) := w in Ok (written, cont, s).

(** ** parse_printf *)

(** The text between two suffixes of the format. *)
Definition text_between (start iter : list Z) : outcome string_view :=
  c_assert (length iter <=? length start)%nat;; Ok (take (length start - length iter) start).

(** What a specifier comes to: the function returns, the loop goes on at a
    place of the format, or a callback stops it in front of the specifier. *)
Inductive round :=
| Return
| Continue (iter unformatted_start : list Z).

(** The state of a run: what is written, the arguments, the conversion buffer,
    the stores and the callbacks' state. *)
Record run := {
  written_out : Z;
  list_struct : va_list;
  buffer : list Z;
  stored : list (Z * Z * Z);
  out : S;
}.

(** The loop body behind the '%'. *)
Definition format_spec (iter : list Z) (r : run) : outcome (round * run) :=
  c ← cstr_char iter;
  if c =? 0 then Ok (Return, r)
  else
    f ← parse_flags PRINTF_SPEC_INFO_INIT iter;
    match f with
    | None => Ok (Return, r)
    | Some (info, iter) =>
    f ← parse_width info (list_struct r) iter;
    match f with
    | None => Ok (Return, r)
    | Some (info, l, iter) =>
    f ← parse_precision info iter l;
    match f with
    | None => Ok (Return, r)
    | Some (info, l, iter) =>
    f ← parse_length info iter l 0 false;
    match f with
    | None => Ok (Return, r)
    | Some (info, number, is_zero, l, iter) =>
    c ← cstr_char iter;
    let info := with_spec c info in
    let st := {| conv_buffer := buffer r; args := l; stores := stored r; parsed := SV_EMPTY;
                 is_zero := is_zero; is_null := false |} in
    '(res, st) ← handle_spec info number (written_out r) st;
    let r := {| written_out := written_out r; list_struct := args st; buffer := conv_buffer st;
                stored := stores st; out := out r |} in
    match res with
    | E_HANDLE_SPEC_REACHED_END => Ok (Return, r)
    | E_HANDLE_SPEC_CONTINUE => next ← cstr_next iter; Ok (Continue iter next, r)
    | E_HANDLE_SPEC_OK =>
        iter ← cstr_next iter;
        '(written, cont, s) ← write_conversion info st (written_out r) (out r);
        let r := {| written_out := written; list_struct := list_struct r; buffer := buffer r;
                    stored := stored r; out := s |} in
        Ok (if (cont : bool) then Continue iter iter else Return, r)
    end
    end end end end.

Definition with_written (n : Z) (s : S) (r : run) : run :=
  {| written_out := n; list_struct := list_struct r; buffer := buffer r; stored := stored r; out := s |}.

(** The text that is left. *)
Definition format_rest (unformatted_start : list Z) (cont : bool) (r : run) : outcome run :=
  c ← cstr_char unformatted_start;
  if negb (c =? 0) then
    n ← str_len unformatted_start;
    '(n, _, s) ← call_cb None (take (Z.to_nat n) unformatted_start) cont (out r);
    Ok (with_written (u64 (written_out r + n)) s r)
  else Ok r.

Fixpoint format_loop (fuel : nat) (iter unformatted_start : list Z) (r : run) : outcome run :=
  match fuel with
  | O => OutOfFuel
  | Datatypes.S fuel =>
      found ← str_chr iter 37;
      match found with
      | None => format_rest unformatted_start true r
      | Some iter =>
          text ← text_between unformatted_start iter;
          '(n, cont, s) ← call_cb None text true (out r);
          let r := with_written (u64 (written_out r + n)) s r in
          if negb cont then format_rest unformatted_start false r
          else
            iter ← cstr_next iter;
            '(next, r) ← format_spec iter r;
            match next with
            | Return => Ok r
            | Continue iter unformatted_start => format_loop fuel iter unformatted_start r
            end
      end
  end.

Definition parse_printf (fmt : list Z) (l : va_list) (s : S) : outcome run :=
  format_loop (length fmt) fmt fmt
    {| written_out := 0; list_struct := l; buffer := replicate (Z.to_nat (MAX_CONVERT_CAP + 3)) 0;
       stored := []; out := s |}.
End write.
Arguments run S : clear implicits.

(** ** format.c *)
Definition buffer_char_callback (_ : option printf_spec_info) (ch amount : Z) (cont : bool)
    (mb : mutable_buffer) : outcome (Z * bool * mutable_buffer) :=
  '(appended, mb) ← mbuffer_append_byte mb ch (u32 amount);
  Ok (appended, if negb (appended =? amount) then false else cont, mb).
Definition buffer_sv_callback (_ : option printf_spec_info) (sv : string_view) (cont : bool)
    (mb : mutable_buffer) : outcome (Z * bool * mutable_buffer) :=
  '(appended, mb) ← mbuffer_append_sv mb sv;
  Ok (appended, if negb (appended =? Z.of_nat (length sv)) then false else cont, mb).
(** [base] and [data]: the address of the buffer and the object it is in. *)
Definition vformat_to_buffer (base : Z) (data : list Z) (buffer_length : Z) (fmt : list Z) (l : va_list) :
    outcome (Z * mutable_buffer) :=
  mb ← mbuffer_open base data 0 (u32 buffer_length);
  r ← parse_printf buffer_char_callback buffer_sv_callback fmt l mb;
  Ok (written_out r, out r).

Section heap.
Context {H : Type}.
Context (malloc_size : Z -> H -> outcome (option (Z * list Z) * H)).
Context (free : Z -> H -> outcome H).

Definition string_char_callback (_ : option printf_spec_info) (ch amount : Z) (cont : bool)
    (s : kstring * H) : outcome (Z * bool * (kstring * H)) :=
  '(ok, str, h) ← string_append_char malloc_size free (fst s) ch (u32 amount) (snd s);
  if negb ok then Ok (0, false, (str, h)) else Ok (amount, cont, (str, h)).
Definition string_sv_callback (_ : option printf_spec_info) (sv : string_view) (cont : bool)
    (s : kstring * H) : outcome (Z * bool * (kstring * H)) :=
  '(ok, str, h) ← string_append_sv malloc_size free (fst s) sv (snd s);
  if negb ok then Ok (0, false, (str, h)) else Ok (Z.of_nat (length sv), cont, (str, h)).
Definition vformat_to_string (str : kstring) (fmt : list Z) (l : va_list) (h : H) :
    outcome (Z * kstring * H) :=
  r ← parse_printf string_char_callback string_sv_callback fmt l (str, h);
  Ok (written_out r, fst (out r), snd (out r)).
End heap.
