(* ===== verification/FormatInv.v ===== *)
(** * Sinks, and what the parts of parse_printf do

    [Sink] is what the callbacks of parse_printf promise: they append to a text
    that has room.  [conv] is a conversion specification with its argument,
    [show] its format text and [render] what C makes of it.  The lemmas follow
    the functions of Format.v on the text of a [conv]. *)
From S2P Require Import Prelude CArith Ctype Convert ConvertThms Buffer Format.

(** ** Sinks *)
Definition text_ok (s : list Z) : Prop := Forall (in_s 8) s.
Lemma text_ok_cons c s : text_ok (c :: s) <-> in_s 8 c /\ text_ok s.
Proof. apply Forall_cons. Qed.
Lemma text_ok_app s t : text_ok (s ++ t) <-> text_ok s /\ text_ok t.
Proof. apply Forall_app. Qed.

Ltac text_ok_solve := repeat constructor; vm_compute; congruence.

Class Sink {S : Type}
    (char_cb : option printf_spec_info -> Z -> Z -> bool -> S -> outcome (Z * bool * S))
    (sv_cb : option printf_spec_info -> string_view -> bool -> S -> outcome (Z * bool * S)) := {
  sink_ok : S -> Prop;
  contents : S -> list Z;
  room : S -> Z;
  sink_room s : sink_ok s -> room s < 2 ^ 32;
  sink_char info ch n s : sink_ok s -> in_s 8 ch -> 0 <= n <= room s ->
    exists s', char_cb info ch n true s = Ok (n, true, s') /\ sink_ok s' /\
      contents s' = contents s ++ replicate (Z.to_nat n) ch /\ room s' = room s - n;
  sink_sv info sv s : sink_ok s -> text_ok sv -> Z.of_nat (length sv) <= room s ->
    exists s', sv_cb info sv true s = Ok (Z.of_nat (length sv), true, s') /\ sink_ok s' /\
      contents s' = contents s ++ sv /\ room s' = room s - Z.of_nat (length sv);
}.

Section sink.
Context {S : Type}.
Context {char_cb : option printf_spec_info -> Z -> Z -> bool -> S -> outcome (Z * bool * S)}.
Context {sv_cb : option printf_spec_info -> string_view -> bool -> S -> outcome (Z * bool * S)}.
Context {sink : Sink char_cb sv_cb}.

(** From [s] to [s'] the text [t] is written. *)
Definition writes (s s' : S) (t : list Z) : Prop :=
  sink_ok s' /\ contents s' = contents s ++ t /\ room s' = room s - Z.of_nat (length t).

Lemma writes_nil s : sink_ok s -> writes s s [].
Proof. intros H. split_and!; [done|by rewrite app_nil_r|simpl; lia]. Qed.
Lemma writes_app s1 s2 s3 t u : writes s1 s2 t -> writes s2 s3 u -> writes s1 s3 (t ++ u).
Proof.
  intros (_ & C1 & R1) (O2 & C2 & R2). split_and!; [done| |].
  - by rewrite C2, C1, app_assoc.
  - rewrite length_app. lia.
Qed.

(** A part of a conversion: it writes [t], counts it and goes on. *)
Definition emits (m : S -> outcome (Z * bool * S)) (t : list Z) : Prop :=
  forall s, sink_ok s -> Z.of_nat (length t) <= room s ->
  exists s', m s = Ok (Z.of_nat (length t), true, s') /\ writes s s' t.

Lemma emits_char info ch n : in_s 8 ch -> 0 <= n ->
  emits (char_cb info ch n true) (replicate (Z.to_nat n) ch).
Proof.
  intros Hc Hn s Hs Hr. rewrite length_replicate in Hr.
  destruct (sink_char info ch n s Hs Hc) as (s' & -> & H1 & H2 & H3); [lia|].
  exists s'. rewrite length_replicate, Z2Nat.id by lia. split; [done|].
  split_and!; [done..|]. by rewrite length_replicate, Z2Nat.id.
Qed.
Lemma emits_sv info sv : text_ok sv -> emits (sv_cb info sv true) sv.
Proof.
  intros Hc s Hs Hr. destruct (sink_sv info sv s Hs Hc Hr) as (s' & -> & H1 & H2 & H3).
  by exists s'.
Qed.

Lemma emits_call_cb info sv : text_ok sv -> emits (call_cb char_cb sv_cb info sv true) sv.
Proof.
  intros Hc. destruct sv as [|c [|d sv]].
  - intros s Hs _. exists s. split; [done|]. by apply writes_nil.
  - apply text_ok_cons in Hc as [Hc _]. apply (emits_char info c 1 Hc). lia.
  - by apply emits_sv.
Qed.

(** ** Writing a conversion *)
Definition prefix_of_spec (info : printf_spec_info) : list Z :=
  if negb (add_base_prefix info) then []
  else
    let c := spec info in
    if c =? 98 then [48; 98] else if c =? 66 then [48; 66] else if c =? 111 then [48]
    else if c =? 120 then [48; 120] else if c =? 88 then [48; 88] else [].

Lemma emits_prefix info : emits (write_prefix_for_spec char_cb sv_cb info true) (prefix_of_spec info).
Proof.
  unfold write_prefix_for_spec, prefix_of_spec.
  assert (emits (fun s => Ok (0, true, s)) []) as Hnil
    by (intros s Hs _; exists s; split; [done|by apply writes_nil]).
  destruct (negb _); [done|].
  repeat match goal with |- context [?a =? ?b] => destruct (a =? b) end;
    try (apply emits_sv; text_ok_solve); try done.
  apply (emits_char _ 48 1); [split; lia|lia].
Qed.

(** The sign that comes before padding zeros, and the rest. *)
Definition split_sign (parsed : list Z) : list Z * list Z :=
  match parsed with
  | c :: rest => if (c =? 43) || (c =? 45) then ([c], rest) else ([], parsed)
  | [] => ([], [])
  end.
Definition zeros_text (info : printf_spec_info) (parsed : list Z) (zeros : Z) (is_null : bool) : list Z :=
  (if is_null then [] else prefix_of_spec info) ++
  (if zeros =? 0 then [] else fst (split_sign parsed) ++ replicate (Z.to_nat zeros) 48).
Definition after_zeros (parsed : list Z) (zeros : Z) : list Z :=
  if zeros =? 0 then parsed else snd (split_sign parsed).

Lemma room_le s s' t : writes s s' t -> sink_ok s -> room s' = room s - Z.of_nat (length t) /\ sink_ok s'.
Proof. by intros (? & ? & ?). Qed.

Lemma pad_with_lead_zeros_spec info parsed zeros is_null s :
  let t := zeros_text info parsed zeros is_null in
  sink_ok s -> text_ok parsed -> 0 <= zeros -> (zeros <> 0 -> parsed <> []) ->
  Z.of_nat (length t) <= room s ->
  exists s', pad_with_lead_zeros char_cb sv_cb info parsed zeros is_null true s =
    Ok (Z.of_nat (length t), after_zeros parsed zeros, true, s') /\ writes s s' t.
Proof.
  intros t Hs Hp Hz Hne Hr. unfold t, zeros_text, after_zeros in *. unfold pad_with_lead_zeros.
  pose proof (sink_room s Hs). rewrite length_app in Hr.
  assert (exists s1, (if negb is_null then write_prefix_for_spec char_cb sv_cb info true s
                      else Ok (0, true, s)) =
    Ok (Z.of_nat (length (if is_null then [] else prefix_of_spec info)), true, s1) /\
    writes s s1 (if is_null then [] else prefix_of_spec info)) as (s1 & -> & W1).
  { destruct is_null; simpl; [exists s; split; [done|by apply writes_nil]|].
    destruct (emits_prefix info s Hs) as (s' & ? & ?); [lia|]. eauto. }
  rewrite outcome_bind_ok. set (pre := if is_null then [] else prefix_of_spec info) in *.
  destruct (room_le _ _ _ W1 Hs) as [R1 O1].
  destruct (Z.eqb_spec zeros 0) as [->|Hnz].
  { exists s1. rewrite app_nil_r. done. }
  destruct parsed as [|c parsed]; [by destruct Hne|]. apply text_ok_cons in Hp as [Hc Hp].
  rewrite length_app, length_replicate in Hr. cbn [sv_char head deref].
  unfold sv_char. cbn [head deref]. rewrite outcome_bind_ok. cbn [split_sign] in *.
  assert (forall t1 s2, writes s s2 t1 -> Z.of_nat (length t1) + zeros <= room s -> exists s',
    (let '(n, cont, s) := ((zeros, true, s') : Z * bool * S) in
     char_cb (Some info) 48 zeros true s2 = Ok (n, cont, s)) /\
    writes s s' (t1 ++ replicate (Z.to_nat zeros) 48)) as Hzeros.
  { intros t1 s2 W Hroom. destruct (room_le _ _ _ W Hs) as [R2 O2].
    destruct (emits_char (Some info) 48 zeros ltac:(split; lia) Hz s2 O2) as (s' & E & W');
      [rewrite length_replicate; lia|].
    rewrite length_replicate, Z2Nat.id in E by lia.
    exists s'. split; [done|]. by apply (writes_app _ _ _ _ _ W). }
  destruct ((c =? 43) || (c =? 45)) eqn:Hsign; cbn [fst snd] in *.
  - destruct (emits_char (Some info) c 1 Hc ltac:(lia) s1 O1) as (s2 & E & W2); [simpl in *; lia|].
    simpl in E. rewrite E, outcome_bind_ok.
    destruct (Hzeros (pre ++ [c]) s2) as (s3 & E3 & W3);
      [by apply (writes_app _ _ _ _ _ W1)|rewrite length_app; simpl in *; lia|].
    simpl in E3. cbn [outcome_bind]. rewrite outcome_bind_ok. cbn beta iota. rewrite E3, outcome_bind_ok.
    exists s3. split; [|by rewrite app_assoc]. rewrite !length_app, length_replicate. simpl in *.
    rewrite (wrap_small 64 (_ + 1)), (wrap_small 64) by (unfold_ints; lia). repeat f_equal. lia.
  - destruct (Hzeros pre s1 W1) as (s3 & E3 & W3); [simpl in *; lia|].
    rewrite outcome_bind_ok. cbn beta iota. simpl in E3. rewrite E3, outcome_bind_ok.
    exists s3. split; [|done]. rewrite !length_app, length_replicate. simpl in *.
    rewrite (wrap_small 64) by (unfold_ints; lia). repeat f_equal. lia.
Qed.

(** All of it, in the order the justification asks for. *)
Definition layout (info : printf_spec_info) (parsed : list Z) (is_null : bool)
    (zeros spaces : Z) (should : bool) : list Z :=
  let front := zeros_text info parsed zeros is_null in
  let body := if should then after_zeros parsed zeros else [] in
  let pad := replicate (Z.to_nat spaces) 32 in
  if left_justify info then front ++ body ++ pad else pad ++ front ++ body.

Lemma text_ok_after parsed zeros : text_ok parsed -> text_ok (after_zeros parsed zeros).
Proof.
  intros H. unfold after_zeros. case_match; [done|]. destruct parsed as [|c p]; [done|].
  pose proof H as [? ?]%text_ok_cons. simpl. by case_match.
Qed.

(** One part of the conversion takes the writer on by a text. *)
Definition step_writes (m : writer S -> outcome (writer S)) (p p' : list Z) (t : list Z) : Prop :=
  forall n s, sink_ok s -> Z.of_nat (length t) <= room s -> 0 <= n ->
  n + Z.of_nat (length t) < 2 ^ 64 ->
  exists s', m (n, p, true, s) = Ok (n + Z.of_nat (length t), p', true, s') /\ writes s s' t.

Lemma step_writes_seq m1 m2 p1 p2 p3 t1 t2 : step_writes m1 p1 p2 t1 -> step_writes m2 p2 p3 t2 ->
  step_writes (fun w => w ← m1 w; m2 w) p1 p3 (t1 ++ t2).
Proof.
  intros H1 H2 n s Hs Hr Hn Hb. rewrite length_app in *.
  destruct (H1 n s Hs) as (s1 & -> & W1); [lia..|]. rewrite outcome_bind_ok.
  destruct (room_le _ _ _ W1 Hs) as [R1 O1].
  destruct (H2 (n + Z.of_nat (length t1)) s1 O1) as (s2 & -> & W2); [lia..|].
  exists s2. split; [by rewrite Nat2Z.inj_add, Z.add_assoc|]. by apply (writes_app _ _ _ _ _ W1).
Qed.

Lemma write_zeros_spec info parsed zeros is_null : text_ok parsed -> 0 <= zeros ->
  (zeros <> 0 -> parsed <> []) ->
  step_writes (write_zeros char_cb sv_cb info zeros is_null) parsed (after_zeros parsed zeros)
    (zeros_text info parsed zeros is_null).
Proof.
  intros Hp Hz Hne n s Hs Hr Hn Hb. unfold write_zeros. cbn [negb].
  destruct (pad_with_lead_zeros_spec info parsed zeros is_null s Hs Hp Hz Hne Hr) as (s' & -> & W).
  rewrite outcome_bind_ok. exists s'. by rewrite wrap_small by (unfold_ints; lia).
Qed.

Lemma write_parsed_spec info should parsed : text_ok parsed ->
  step_writes (write_parsed char_cb sv_cb info should) parsed parsed (if should then parsed else []).
Proof.
  intros Hp n s Hs Hr Hn Hb. unfold write_parsed. cbn [negb]. destruct should.
  - destruct (emits_call_cb (Some info) parsed Hp s Hs Hr) as (s' & -> & W).
    rewrite outcome_bind_ok. exists s'. by rewrite wrap_small by (unfold_ints; lia).
  - exists s. split; [by rewrite Z.add_0_r|by apply writes_nil].
Qed.

Lemma write_spaces_spec info spaces parsed : 0 <= spaces ->
  step_writes (write_spaces char_cb info spaces) parsed parsed (replicate (Z.to_nat spaces) 32).
Proof.
  intros Hsp n s Hs Hr Hn Hb. unfold write_spaces. cbn [negb].
  destruct (Z.eqb_spec spaces 0) as [->|Hnz]; cbn [negb].
  - exists s. split; [by rewrite Z.add_0_r|by apply writes_nil].
  - destruct (emits_char (Some info) 32 spaces ltac:(split; lia) Hsp s Hs Hr) as (s' & -> & W).
    rewrite outcome_bind_ok. exists s'. by rewrite wrap_small by (unfold_ints; lia).
Qed.

Lemma write_conversion_spec info st written zeros spaces should s :
  padding info (parsed st) (is_zero st) = Ok (zeros, spaces, should) ->
  text_ok (parsed st) -> 0 <= zeros -> 0 <= spaces -> (zeros <> 0 -> parsed st <> []) ->
  let t := layout info (parsed st) (is_null st) zeros spaces should in
  sink_ok s -> Z.of_nat (length t) <= room s -> 0 <= written ->
  written + Z.of_nat (length t) < 2 ^ 64 ->
  exists s', write_conversion char_cb sv_cb info st written s =
    Ok (written + Z.of_nat (length t), true, s') /\ writes s s' t.
Proof.
  intros Hpad Hp Hz Hsp Hne t Hs Hr Hw Hb. unfold write_conversion. rewrite Hpad, outcome_bind_ok.
  pose proof (write_zeros_spec info (parsed st) zeros (is_null st) Hp Hz Hne) as Wz.
  pose proof (write_parsed_spec info should _ (text_ok_after _ zeros Hp)) as Wp.
  pose proof (write_spaces_spec info spaces) as Wsp. unfold t, layout in *.
  destruct (left_justify info).
  - destruct (step_writes_seq _ _ _ _ _ _ _ Wz
      (step_writes_seq _ _ _ _ _ _ _ Wp (Wsp _ Hsp)) written s Hs Hr Hw Hb) as (s' & E & W).
    rewrite E, outcome_bind_ok. by exists s'.
  - destruct (step_writes_seq _ _ _ _ _ _ _ (Wsp _ Hsp)
      (step_writes_seq _ _ _ _ _ _ _ Wz Wp) written s Hs Hr Hw Hb) as (s' & E & W).
    rewrite E, outcome_bind_ok. by exists s'.
Qed.
End sink.
