(* ===== verification/FormatConv.v ===== *)
(** * Conversion specifications

    [conv] is a conversion specification of printf with its argument, [show]
    its text in the format, [arguments] what it takes from the list and
    [render] what the C standard makes of it; [conv_ok] says which of them the
    code gets right.  The lemmas follow the functions of Format.v that parse a
    specification, convert its argument and compute its padding. *)
From S2P Require Import Prelude CArith Ctype Convert ConvertThms Buffer Format FormatInv.

(** ** Data *)
Inductive amount :=
| NoAmount
| Amount (n : Z)     (* written out *)
| Star (n : Z).      (* '*': the next argument *)
Inductive size_mod := SNone | SHH | SH | SL | SLL | SJ | SZ | ST.
#[export] Instance size_mod_eq_dec : EqDecision size_mod.
Proof. solve_decision. Defined.
Inductive radix := Bin | BinUpper | Oct | Dec | Hex | HexUpper.
Inductive conv_kind :=
| Signed (i : bool) (v : Z)              (* %d or %i *)
| Unsigned (r : radix) (v : Z)
| Character (v : Z)
| Str (s rest : list Z)                  (* the string, and what is behind it in memory *)
| NullStr
| Pointer (p : Z)
| Percent.
Record conv := {
  c_flags : list Z;
  c_width : amount;
  c_precision : amount;
  c_size : size_mod;
  c_kind : conv_kind;
}.

(** ** The text and the arguments *)
Definition show_num (n : Z) : list Z := num_text digits_fuel NUM_TO_STR_OPTIONS_INIT 10 n.
Definition show_amount (a : amount) : list Z :=
  match a with NoAmount => [] | Amount n => show_num n | Star _ => [42] end.
Definition show_precision (a : amount) : list Z :=
  match a with NoAmount => [] | _ => 46 :: show_amount a end.
Definition show_size (m : size_mod) : list Z :=
  match m with
  | SNone => [] | SHH => [104; 104] | SH => [104] | SL => [108] | SLL => [108; 108]
  | SJ => [106] | SZ => [122] | ST => [116]
  end.
Definition radix_letter (r : radix) : Z :=
  match r with Bin => 98 | BinUpper => 66 | Oct => 111 | Dec => 117 | Hex => 120 | HexUpper => 88 end.
Definition letter (k : conv_kind) : Z :=
  match k with
  | Signed i _ => if i then 105 else 100
  | Unsigned r _ => radix_letter r
  | Character _ => 99
  | Str _ _ | NullStr => 115
  | Pointer _ => 112
  | Percent => 37
  end.
Definition show (c : conv) : list Z :=
  c_flags c ++ show_amount (c_width c) ++ show_precision (c_precision c) ++
  show_size (c_size c) ++ [letter (c_kind c)].

Definition amount_args (a : amount) : list arg := match a with Star n => [VInt n] | _ => [] end.
Definition number_arg (m : size_mod) (v : Z) : arg :=
  match m with SNone | SHH | SH => VInt v | _ => VLong v end.
Definition kind_args (m : size_mod) (k : conv_kind) : list arg :=
  match k with
  | Signed _ v | Unsigned _ v => [number_arg m v]
  | Character v => [VInt v]
  | Str s rest => [VStr (Some (s ++ 0 :: rest))]
  | NullStr => [VStr None]
  | Pointer p => [VPtr p]
  | Percent => []
  end.
Definition arguments (c : conv) : list arg :=
  amount_args (c_width c) ++ amount_args (c_precision c) ++ kind_args (c_size c) (c_kind c).

(** ** What the standard says *)
Definition has_flag (f : Z) (c : conv) : bool := existsb (Z.eqb f) (c_flags c).
Definition width_of (c : conv) : Z :=
  match c_width c with NoAmount => 0 | Amount n | Star n => n end.
Definition precision_of (c : conv) : option Z :=
  match c_precision c with NoAmount => None | Amount n | Star n => Some n end.
Definition signed_value (m : size_mod) (v : Z) : Z :=
  match m with SNone => i32 v | SHH => i8 v | SH => swrap 16 v | _ => i64 v end.
Definition unsigned_value (m : size_mod) (v : Z) : Z :=
  match m with SNone => u32 v | SHH => u8 v | SH => u16 v | _ => u64 v end.
Definition radix_base (r : radix) : Z :=
  match r with Bin | BinUpper => 2 | Oct => 8 | Dec => 10 | Hex | HexUpper => 16 end.
Definition radix_digits (r : radix) (n : Z) : list Z :=
  num_text digits_fuel (match r with BinUpper | HexUpper => capital | _ => NUM_TO_STR_OPTIONS_INIT end)
    (radix_base r) n.

Definition spaces (n : Z) : list Z := replicate (Z.to_nat n) 32.
Definition zeros (n : Z) : list Z := replicate (Z.to_nat n) 48.

(** The digits of a number: a precision is a least number of them, and none
    are written for a zero with precision zero. *)
Definition int_digits (precision : option Z) (n : Z) (digits : list Z) : list Z :=
  match precision with
  | None => digits
  | Some p => if (p =? 0) && (n =? 0) then []
              else zeros (p - Z.of_nat (length digits)) ++ digits
  end.

(** A field: a sign or prefix and a body, as wide as asked for. *)
Definition field (left zero_pad : bool) (width : Z) (sign body : list Z) : list Z :=
  let missing := width - Z.of_nat (length sign + length body) in
  if left then sign ++ body ++ spaces missing
  else if zero_pad then sign ++ zeros missing ++ body
  else spaces missing ++ sign ++ body.

Definition int_field (c : conv) (n : Z) (sign digits : list Z) : list Z :=
  field (has_flag 45 c) (has_flag 48 c && bool_decide (precision_of c = None)) (width_of c)
    sign (int_digits (precision_of c) n digits).
Definition text_field (c : conv) (text : list Z) : list Z :=
  field (has_flag 45 c) false (width_of c) [] text.

Definition signed_sign (c : conv) (n : Z) : list Z :=
  if n <? 0 then [45] else if has_flag 43 c then [43] else [].
Definition radix_prefix (c : conv) (r : radix) : list Z :=
  if has_flag 35 c then match r with Hex => [48; 120] | HexUpper => [48; 88] | _ => [] end else [].

Definition render (c : conv) : list Z :=
  match c_kind c with
  | Signed _ v =>
      let n := signed_value (c_size c) v in
      int_field c n (signed_sign c n) (num_text digits_fuel NUM_TO_STR_OPTIONS_INIT 10 (Z.abs n))
  | Unsigned r v =>
      let n := unsigned_value (c_size c) v in int_field c n (radix_prefix c r) (radix_digits r n)
  | Character v => text_field c [i8 v]
  | Str s _ =>
      text_field c (match precision_of c with None => s | Some p => take (Z.to_nat p) s end)
  | NullStr => text_field c NULL_TEXT
  | Pointer p =>
      text_field c (if p =? 0 then NIL_TEXT
                    else [48; 120] ++ num_text digits_fuel capital_prefixed 16 p)
  | Percent => text_field c [37]
  end.

(** ** Where the code is right *)
Definition is_flag (f : Z) : bool := (f =? 45) || (f =? 43) || (f =? 35) || (f =? 48).
Definition amount_ok (least : Z) (a : amount) : Prop :=
  match a with NoAmount => True | Amount n => least <= n < 2 ^ 31 | Star n => 0 <= n < 2 ^ 31 end.
Definition narrow_ok (m : size_mod) (v : Z) : Prop :=
  match m with SHH => u8 v < 2 ^ 7 | SH => u16 v < 2 ^ 15 | _ => True end.
Definition kind_ok (c : conv) : Prop :=
  let wide := width_of c <> 0 in
  let short := wide -> default 0 (precision_of c) < 250 in
  match c_kind c with
  | Signed _ v =>
      short /\
      ~ (signed_value (c_size c) v = 0 /\ precision_of c = Some 0 /\ has_flag 43 c = true)
  | Unsigned r v =>
      short /\ narrow_ok (c_size c) v /\
      (has_flag 35 c = true ->
       match r with
       | Dec => True
       | Hex | HexUpper => unsigned_value (c_size c) v <> 0
       | _ => False
       end)
  | Str s _ =>
      c_size c = SNone /\ (wide -> Z.of_nat (length s) < 256) /\ text_ok s /\ Forall (fun x => x <> 0) s
  | Pointer p => c_size c = SNone /\ in_u 64 p
  | _ => c_size c = SNone
  end.
Definition conv_ok (c : conv) : Prop :=
  Forall (fun f => is_flag f = true) (c_flags c) /\ amount_ok 1 (c_width c) /\
  amount_ok 0 (c_precision c) /\ kind_ok c.

(** ** Parsing *)

(** The specification as parse_printf gathers it. *)
Definition size_sv (m : size_mod) : list Z := show_size m.
Definition info_of (c : conv) : printf_spec_info :=
  {| add_one_space_for_sign := false; left_justify := has_flag 45 c; add_pos_sign := has_flag 43 c;
     add_base_prefix := has_flag 35 c; leftpad_zeros := has_flag 48 c; spec := letter (c_kind c);
     width := width_of c; precision := default (-1) (precision_of c); length_sv := show_size (c_size c) |}.

(** A text that neither flags nor a number runs into. *)
Definition plain_head (l : list Z) : Prop :=
  exists x rest, l = x :: rest /\ x <> 0 /\ flag_of x = None /\ u8 (x - 48) >= 10.

Lemma parse_flags_spec flags info rest : Forall (fun f => is_flag f = true) flags ->
  (exists x r, rest = x :: r /\ x <> 0 /\ flag_of x = None) ->
  let on f := existsb (Z.eqb f) flags in
  parse_flags info (flags ++ rest) =
    Ok (Some (with_flags false (on 45) (on 43) (on 35) (on 48) info, rest)).
Proof.
  intros Hf (x & r & -> & Hx & Hn). revert info. induction Hf as [|f flags Hf Hfs IH]; intros info.
  - simpl. rewrite Hn. destruct info as [[] [] [] [] []]; done.
  - assert (exists y r', flags ++ x :: r = y :: r' /\ y <> 0) as (y & r' & E & Hy).
    { destruct Hfs as [|y ys Hy]; [by eauto|]. exists y, (ys ++ x :: r). split; [done|].
      intros ->. discriminate Hy. }
    assert (forall g, flag_of f = Some g ->
      parse_flags info ((f :: flags) ++ x :: r) = parse_flags (g info) (flags ++ x :: r)) as Hstep.
    { intros g Hg. cbn [app parse_flags]. rewrite Hg, E. cbn [head deref].
      by rewrite outcome_bind_ok, (proj2 (Z.eqb_neq y 0) Hy). }
    unfold is_flag in Hf.
    destruct (Z.eqb_spec f 45) as [->|]; [|destruct (Z.eqb_spec f 43) as [->|];
      [|destruct (Z.eqb_spec f 35) as [->|]; [|destruct (Z.eqb_spec f 48) as [->|]; [|discriminate]]]];
      (rewrite (Hstep _ eq_refl), IH; do 3 f_equal; unfold with_flags; simpl; f_equal;
       rewrite ?orb_true_r; try done; by destruct (existsb _ flags)).
Qed.

(** *** Numbers *)
Lemma digit_10_range c : digit_in 10 c -> 48 <= c <= 57 /\ digit_val c = c - 48.
Proof.
  intros [Ha Hd]. unfold digit_val, is_digit_b, is_upper_b, is_lower_b, between, ascii in *.
  revert Hd. zcases; simpl; lia.
Qed.

Lemma read_int_spec ds : forall acc rest, Forall (digit_in 10) ds -> plain_head rest -> 0 <= acc ->
  value_from 10 acc ds < 2 ^ 31 ->
  read_int acc (ds ++ rest) = Ok (value_from 10 acc ds, Some rest).
Proof.
  induction ds as [|c ds IH]; intros acc rest Hds Hrest Hacc Hv.
  - destruct Hrest as (x & r & -> & Hx & _ & Hd). simpl.
    rewrite (proj2 (Z.eqb_neq x 0) Hx), Z.geb_leb, (proj2 (Z.leb_le 10 _)) by lia. done.
  - apply Forall_cons in Hds as [Hc Hds]. destruct (digit_10_range c Hc) as [Hr Hcv].
    pose proof (value_from_ge 10 (acc * 10 + digit_val c) ds ltac:(lia) ltac:(lia)).
    unfold value_from in *. cbn [app read_int foldl] in *.
    rewrite (proj2 (Z.eqb_neq c 0)) by lia.
    rewrite (wrap_small 8) by (unfold_ints; lia).
    rewrite Z.geb_leb, (proj2 (Z.leb_gt 10 _)) by lia.
    unfold check_mul_s, check_add_s, fits_s. rewrite Hcv in *.
    rewrite !(swrap_small 32) by (unfold_ints; lia).
    change (2 ^ (32 - 1)) with (2 ^ 31).
    rewrite (proj2 (Z.leb_le _ (acc * 10))), (proj2 (Z.ltb_lt (acc * 10) _)) by lia.
    rewrite (proj2 (Z.leb_le _ (_ + _))), (proj2 (Z.ltb_lt (_ + _) _)) by lia.
    cbn [andb negb]. apply IH; [done..|lia|done].
Qed.

Lemma show_num_spec n : 0 <= n < 2 ^ 31 -> printed 10 n 20 (show_num n).
Proof.
  intros Hn. destruct (unsigned_view 10 NUM_TO_STR_OPTIONS_INIT n ex_buffer) as (b & _ & _ & H).
  - do 2 right. by left.
  - done.
  - unfold in_u. lia.
  - done.
  - done.
Qed.

Lemma read_show_num n rest : 0 <= n < 2 ^ 31 -> plain_head rest ->
  read_int_from_fmt_string (show_num n ++ rest) = Ok (n, rest).
Proof.
  intros Hn Hr. destruct (show_num_spec n Hn) as ([_ Hds] & Hv & _ & _). unfold value in Hv.
  unfold read_int_from_fmt_string. rewrite read_int_spec by (done || lia).
  by rewrite outcome_bind_ok, Hv.
Qed.

Lemma read_no_num rest : plain_head rest -> read_int_from_fmt_string rest = Ok (0, rest).
Proof.
  intros Hr. unfold read_int_from_fmt_string.
  pose proof (read_int_spec [] 0 rest (Forall_nil_2 _) Hr ltac:(lia) ltac:(done)) as E.
  simpl in E. by rewrite E, outcome_bind_ok.
Qed.

Lemma show_num_head n : 0 <= n < 2 ^ 31 ->
  exists x r, show_num n = x :: r /\ 48 <= x <= 57 /\ (1 <= n -> x <> 48).
Proof.
  intros Hn. destruct (show_num_spec n Hn) as ([Hne Hds] & Hv & _ & Hz).
  destruct (show_num n) as [|x r]; [done|]. exists x, r. split; [done|].
  apply Forall_cons in Hds as [Hx _]. split; [by apply digit_10_range|].
  intros Hn1 ->. specialize (Hz eq_refl). injection Hz as ->. vm_compute in Hv. lia.
Qed.

(** *** The parts of a specification *)
Definition after_precision (c : conv) (rest : list Z) : list Z :=
  show_size (c_size c) ++ letter (c_kind c) :: rest.
Definition after_width (c : conv) (rest : list Z) : list Z :=
  show_precision (c_precision c) ++ after_precision c rest.

Lemma show_split c rest :
  show c ++ rest = c_flags c ++ show_amount (c_width c) ++ after_width c rest.
Proof. unfold show, after_width, after_precision. by rewrite <- !app_assoc. Qed.

Ltac head_solve := eexists _, _; split; [reflexivity|]; vm_compute; repeat split; congruence.

Lemma after_precision_head c rest : exists x r, after_precision c rest = x :: r /\
  x <> 0 /\ flag_of x = None /\ u8 (x - 48) >= 10 /\ x <> 42 /\ x <> 46.
Proof.
  unfold after_precision. destruct (c_size c); [|head_solve..].
  destruct (c_kind c) as [[]|[]| | | | |]; head_solve.
Qed.

Lemma after_width_head c rest : exists x r, after_width c rest = x :: r /\
  x <> 0 /\ flag_of x = None /\ u8 (x - 48) >= 10 /\ x <> 42.
Proof.
  unfold after_width. destruct (c_precision c); [|head_solve..].
  destruct (after_precision_head c rest) as (x & r & -> & ?); naive_solver.
Qed.

Definition with_widths (c : conv) (i : printf_spec_info) : printf_spec_info := with_width (width_of c) i.

Lemma parse_width_spec c info l rest : amount_ok 1 (c_width c) ->
  parse_width info (amount_args (c_width c) ++ l) (show_amount (c_width c) ++ after_width c rest) =
    Ok (Some (with_width (width_of c) info, l, after_width c rest)).
Proof.
  intros Hok. destruct (after_width_head c rest) as (x & r & E & Hx & Hf & Hd & Hs).
  assert (plain_head (after_width c rest)) as Hplain by (exists x, r; by split_and!).
  unfold parse_width, width_of. destruct (c_width c) as [|n|n]; simpl in Hok; cbn [show_amount amount_args app].
  - rewrite E at 1. cbn [cstr_char head deref]. unfold cstr_char. cbn [head deref].
    rewrite outcome_bind_ok, (proj2 (Z.eqb_neq x 42) Hs). cbn [negb].
    rewrite (read_no_num _ Hplain), outcome_bind_ok, E.
    change (0 =? -1) with false. cbn iota. rewrite !outcome_bind_ok. cbn [negb].
    cbn [head deref]. rewrite outcome_bind_ok. by rewrite (proj2 (Z.eqb_neq x 0) Hx).
  - destruct (show_num_head n ltac:(lia)) as (y & ys & Ey & Hy & _).
    rewrite Ey at 1. unfold cstr_char. cbn [app head deref].
    rewrite outcome_bind_ok, (proj2 (Z.eqb_neq y 42)) by lia. cbn [negb].
    rewrite read_show_num by (done || lia). rewrite outcome_bind_ok.
    rewrite (proj2 (Z.eqb_neq n (-1))) by lia. rewrite outcome_bind_ok. cbn [negb].
    rewrite E. cbn [head deref]. rewrite outcome_bind_ok, (proj2 (Z.eqb_neq x 0) Hx).
    by rewrite wrap_small by (unfold_ints; lia).
  - unfold cstr_char. cbn [head deref Z.eqb Pos.eqb negb va_int cstr_next].
    rewrite !outcome_bind_ok. cbn [Z.eqb Pos.eqb negb]. rewrite swrap_small by (unfold_ints; lia).
    rewrite !outcome_bind_ok. cbn [negb]. rewrite E. cbn [head deref].
    rewrite outcome_bind_ok, (proj2 (Z.eqb_neq x 0) Hx), Z.geb_leb, (proj2 (Z.leb_le 0 n)) by lia. done.
Qed.

Lemma parse_precision_spec c info l rest : amount_ok 0 (c_precision c) ->
  parse_precision info (after_width c rest) (amount_args (c_precision c) ++ l) =
    Ok (Some (with_precision (default (-1) (precision_of c)) info, l, after_precision c rest)).
Proof.
  intros Hok. destruct (after_precision_head c rest) as (x & r & E & Hx & Hf & Hd & Hs & Hp).
  assert (plain_head (after_precision c rest)) as Hplain by (exists x, r; by split_and!).
  unfold parse_precision, precision_of, after_width, cstr_char.
  destruct (c_precision c) as [|n|n]; simpl in Hok; cbn [show_precision show_amount amount_args app].
  - rewrite E. cbn [head deref]. rewrite outcome_bind_ok, (proj2 (Z.eqb_neq x 46) Hp). done.
  - destruct (show_num_head n ltac:(lia)) as (y & ys & Ey & Hy & _).
    cbn [head deref Z.eqb Pos.eqb negb cstr_next]. rewrite !outcome_bind_ok.
    cbn [Z.eqb Pos.eqb negb]. rewrite Ey at 1. cbn [app head deref]. rewrite !outcome_bind_ok.
    rewrite (proj2 (Z.eqb_neq y 0)), (proj2 (Z.eqb_neq y 42)) by lia.
    rewrite read_show_num by (done || lia). rewrite outcome_bind_ok.
    rewrite (proj2 (Z.eqb_neq n (-1))) by lia.
    rewrite E. cbn [head deref]. by rewrite outcome_bind_ok, (proj2 (Z.eqb_neq x 0) Hx).
  - cbn [head deref Z.eqb Pos.eqb negb cstr_next]. rewrite !outcome_bind_ok.
    cbn [Z.eqb Pos.eqb negb head deref cstr_next]. rewrite !outcome_bind_ok.
    cbn [Z.eqb Pos.eqb negb]. rewrite E. cbn [head deref].
    rewrite outcome_bind_ok, (proj2 (Z.eqb_neq x 0) Hx). cbn [va_int]. rewrite outcome_bind_ok.
    by rewrite swrap_small by (unfold_ints; lia).
Qed.

(** The number that parse_length finds, if there is a length. *)
Definition length_number (c : conv) : Z :=
  match c_size c, c_kind c with
  | SNone, _ => 0
  | m, (Signed _ v | Unsigned _ v) => u64 (signed_value m v)
  | _, _ => 0
  end.
Definition is_number (k : conv_kind) : bool :=
  match k with Signed _ _ | Unsigned _ _ => true | _ => false end.
Definition rest_args (c : conv) : list arg :=
  match c_size c with SNone => kind_args SNone (c_kind c) | _ => [] end.

Lemma u64_i64 v : u64 (i64 v) = u64 v.
Proof.
  unfold wrap, swrap. change (2 ^ (64 - 1)) with (2 ^ 63).
  rewrite Zminus_mod_idemp_l. f_equal. lia.
Qed.

Lemma i8_i32 v : i8 (i32 v) = i8 v.
Proof.
  unfold swrap. change (2 ^ 8) with 256. change (2 ^ (8 - 1)) with 128.
  change (2 ^ 32) with 4294967296. change (2 ^ (32 - 1)) with 2147483648.
  Z.to_euclidean_division_equations. lia.
Qed.
Lemma i16_i32 v : swrap 16 (i32 v) = swrap 16 v.
Proof.
  unfold swrap. change (2 ^ 16) with 65536. change (2 ^ (16 - 1)) with 32768.
  change (2 ^ 32) with 4294967296. change (2 ^ (32 - 1)) with 2147483648.
  Z.to_euclidean_division_equations. lia.
Qed.

Lemma parse_length_spec c info l rest :
  (c_size c = SNone \/ is_number (c_kind c) = true) ->
  parse_length info (after_precision c rest) (kind_args (c_size c) (c_kind c) ++ l) 0 false =
    Ok (Some (with_length (show_size (c_size c)) info, length_number c,
              match c_size c with SNone => false | _ => length_number c =? 0 end,
              rest_args c ++ l, letter (c_kind c) :: rest)).
Proof.
  intros H. unfold after_precision, length_number, rest_args.
  destruct (c_size c) eqn:Hm.
  1:{ destruct (c_kind c) as [[] v|[] v| | | | |]; reflexivity. }
  all: destruct H as [H|H]; [discriminate|].
  all: destruct (c_kind c) as [[] v|[] v| | | | |]; try discriminate H;
    unfold parse_length, cstr_char, got; cbn -[i8 i32 swrap u64]; rewrite ?u64_i64, ?i8_i32, ?i16_i32; reflexivity.
Qed.

(** ** Converting the argument *)
Definition value_of (c : conv) : Z :=
  match c_kind c with
  | Signed _ v => signed_value (c_size c) v
  | Unsigned _ v => unsigned_value (c_size c) v
  | _ => 0
  end.
Definition is_null_of (k : conv_kind) : bool :=
  match k with NullStr => true | Pointer p => p =? 0 | _ => false end.
Definition converted (c : conv) : list Z :=
  match c_kind c with
  | Signed _ v =>
      signed_sign c (value_of c) ++ num_text digits_fuel NUM_TO_STR_OPTIONS_INIT 10 (Z.abs (value_of c))
  | Unsigned r v => radix_digits r (value_of c)
  | Character v => [i8 v]
  | Str s _ => match precision_of c with None => s | Some p => take (Z.to_nat p) s end
  | NullStr => NULL_TEXT
  | Pointer p =>
      if p =? 0 then NIL_TEXT else [48; 120] ++ num_text digits_fuel capital_prefixed 16 p
  | Percent => [37]
  end.

Lemma i64_u64 x : in_s 64 x -> i64 (u64 x) = x.
Proof.
  intros Hx. transitivity (i64 x); [|by apply swrap_small].
  unfold wrap, swrap. by rewrite Zplus_mod_idemp_l.
Qed.
Lemma u64_zero x : in_s 64 x -> (u64 x =? 0) = (x =? 0).
Proof.
  intros Hx. destruct (Z.eqb_spec (u64 x) 0) as [E|E], (Z.eqb_spec x 0) as [->|F]; try done.
  exfalso. apply F. rewrite <- (i64_u64 x Hx), E. done.
Qed.
Lemma swrap_in_s w z : 0 < w -> in_s w (swrap w z).
Proof.
  intros Hw. unfold in_s, swrap. pose proof (Z.mod_pos_bound (z + 2 ^ (w - 1)) (2 ^ w) ltac:(auto with osdb lia)).
  replace (2 ^ w) with (2 * 2 ^ (w - 1)) in * by (rewrite <- pow2_succ by lia; f_equal; lia). lia.
Qed.
Lemma signed_value_in m v : in_s 64 (signed_value m v).
Proof.
  assert (forall w, 0 < w <= 64 -> in_s 64 (swrap w v)) as H.
  { intros w Hw. pose proof (swrap_in_s w v ltac:(lia)) as Hs. unfold in_s in *.
    pose proof (pow2_le (w - 1) (64 - 1) ltac:(lia)). lia. }
  destruct m; apply H; lia.
Qed.
Lemma unsigned_value_in m v : in_u 64 (unsigned_value m v).
Proof.
  assert (forall w, 0 < w <= 64 -> in_u 64 (wrap w v)) as H.
  { intros w Hw. pose proof (wrap_in_u w v ltac:(lia)) as Hs. unfold in_u in *.
    pose proof (pow2_le w 64 ltac:(lia)). lia. }
  destruct m; apply H; lia.
Qed.

(** Without a length the number is the next argument; a length has found it. *)
Lemma narrow_number m v : m <> SNone -> narrow_ok m v -> u64 (signed_value m v) = unsigned_value m v.
Proof.
  intros Hm Hn. destruct m; simpl in *; try (apply u64_i64); [done| |].
  - pose proof (wrap_in_u 8 v ltac:(lia)). unfold_ints. unfold wrap, swrap in *.
    change (2 ^ 8) with 256 in *. change (2 ^ (8 - 1)) with 128 in *. change (2 ^ 7) with 128 in *.
    change (2 ^ 64) with 18446744073709551616. Z.to_euclidean_division_equations. lia.
  - pose proof (wrap_in_u 16 v ltac:(lia)). unfold_ints. unfold wrap, swrap in *.
    change (2 ^ 16) with 65536 in *. change (2 ^ (16 - 1)) with 32768 in *.
    change (2 ^ 15) with 32768 in *.
    change (2 ^ 64) with 18446744073709551616. Z.to_euclidean_division_equations. lia.
Qed.

(** A state in front of the conversion of [c], and one behind it. *)
Definition st_before (c : conv) (l : list arg) (st : spec_state) : Prop :=
  args st = rest_args c ++ l /\
  is_zero st = match c_size c with SNone => false | _ => length_number c =? 0 end /\
  is_null st = false /\ 68 <= Z.of_nat (length (conv_buffer st)).
Definition st_after (c : conv) (l : list arg) (st st' : spec_state) : Prop :=
  args st' = l /\ stores st' = stores st /\ parsed st' = converted c /\
  is_zero st' = is_number (c_kind c) && (value_of c =? 0) /\ is_null st' = is_null_of (c_kind c) /\
  length (conv_buffer st') = length (conv_buffer st).

Lemma spec_number_signed c l st i v : c_kind c = Signed i v -> st_before c l st ->
  exists st', spec_number true (info_of c) (length_number c) st = Ok (u64 (value_of c), st') /\
  args st' = l /\ stores st' = stores st /\ is_zero st' = (value_of c =? 0) /\ is_null st' = false /\
  conv_buffer st' = conv_buffer st.
Proof.
  intros Hk (Ha & Hz & Hn & _). unfold spec_number, rest_args, length_number, value_of in *.
  rewrite Hk in *. pose proof (u64_zero _ (signed_value_in (c_size c) v)) as Hu.
  cbn [info_of length_sv]. destruct (c_size c) eqn:Hm; cbn [show_size];
    [|exists st; rewrite Hz, Hu; by split_and!..].
  rewrite Ha. cbn [kind_args number_arg app va_int]. rewrite outcome_bind_ok.
  eexists. split; [done|]. cbn. by split_and!.
Qed.

Lemma spec_number_unsigned c l st r v : c_kind c = Unsigned r v -> narrow_ok (c_size c) v ->
  st_before c l st ->
  exists st', spec_number false (info_of c) (length_number c) st = Ok (value_of c, st') /\
  args st' = l /\ stores st' = stores st /\ is_zero st' = (value_of c =? 0) /\ is_null st' = false /\
  conv_buffer st' = conv_buffer st.
Proof.
  intros Hk Hnar (Ha & Hz & Hn & _). unfold spec_number, rest_args, length_number, value_of in *.
  rewrite Hk in *. cbn [info_of length_sv].
  destruct (decide (c_size c = SNone)) as [Hm|Hm].
  - rewrite Hm in *. cbn [show_size kind_args number_arg app va_unsigned] in *.
    rewrite Ha. cbn [app va_unsigned]. rewrite outcome_bind_ok.
    assert (u64 (u32 v) = u32 v) as E.
    { apply wrap_small, (unsigned_value_in SNone). }
    eexists. rewrite E. split; [done|]. cbn. by split_and!.
  - pose proof (narrow_number _ _ Hm Hnar) as E.
    destruct (c_size c) eqn:Hs; cbn [show_size]; try done; rewrite E in *;
      exists st; rewrite Hz; by split_and!.
Qed.

Lemma prefix_written_none base options : include_prefix options = false -> prefix_written base options.
Proof. intros H E. congruence. Qed.

Lemma print_unsigned_spec c l st r v options : c_kind c = Unsigned r v -> narrow_ok (c_size c) v ->
  include_prefix options = false -> include_pos_sign options = false ->
  st_before c l st ->
  exists st', print_unsigned (radix_base r) options (info_of c) (length_number c) st =
    Ok (E_HANDLE_SPEC_OK, st') /\
  args st' = l /\ stores st' = stores st /\
  parsed st' = num_text digits_fuel options (radix_base r) (value_of c) /\
  is_zero st' = (value_of c =? 0) /\ is_null st' = false /\
  length (conv_buffer st') = length (conv_buffer st).
Proof.
  intros Hk Hnar Hinc Hpos Hst. unfold print_unsigned.
  destruct (spec_number_unsigned c l st r v Hk Hnar Hst) as (st1 & -> & A & B & C & D & E).
  rewrite outcome_bind_ok. destruct Hst as (_ & _ & _ & Hlen).
  destruct (unsigned_view (radix_base r) options (value_of c) (conv_buffer st1)) as (b & -> & Hl & _).
  - unfold printable_base. destruct r; simpl; lia.
  - by apply prefix_written_none.
  - unfold value_of. rewrite Hk. apply unsigned_value_in.
  - by rewrite E.
  - rewrite outcome_bind_ok. eexists. split; [done|]. unfold sign_text, prefix_text.
    rewrite Hinc, Hpos. cbn. rewrite Hl, E. by split_and!.
Qed.

Lemma print_char_spec x st l : args st = l -> 68 <= Z.of_nat (length (conv_buffer st)) ->
  exists st', print_char x st = Ok (E_HANDLE_SPEC_OK, st') /\ args st' = l /\
  stores st' = stores st /\ parsed st' = [x] /\ is_zero st' = is_zero st /\
  is_null st' = is_null st /\ length (conv_buffer st') = length (conv_buffer st).
Proof.
  intros Ha Hl. unfold print_char. rewrite put_ok by lia. rewrite outcome_bind_ok.
  eexists. split; [done|]. cbn. rewrite length_insert. by split_and!.
Qed.

Lemma str_len_spec s rest : Forall (fun x => x <> 0) s ->
  str_len (s ++ 0 :: rest) = Ok (Z.of_nat (length s)).
Proof.
  induction 1 as [|x s Hx Hs IH]; [done|]. cbn [app str_len].
  rewrite (proj2 (Z.eqb_neq x 0) Hx), IH, outcome_bind_ok. simpl length. by rewrite Nat2Z.inj_succ, Z.add_1_l.
Qed.
Lemma str_nlen_spec s rest : Forall (fun x => x <> 0) s -> forall n,
  str_nlen n (s ++ 0 :: rest) = Ok (Z.of_nat (length (take n s))).
Proof.
  induction 1 as [|x s Hx Hs IH]; intros [|n]; [done..|]. cbn [app str_nlen take].
  rewrite (proj2 (Z.eqb_neq x 0) Hx), IH, outcome_bind_ok.
  simpl length. by rewrite Nat2Z.inj_succ, Z.add_1_l.
Qed.

Lemma print_str_spec c l st s rest : c_kind c = Str s rest -> kind_ok c -> amount_ok 0 (c_precision c) ->
  args st = VStr (Some (s ++ 0 :: rest)) :: l ->
  exists st', print_str (info_of c) st = Ok (E_HANDLE_SPEC_OK, st') /\ args st' = l /\
  stores st' = stores st /\ parsed st' = converted c /\ is_zero st' = is_zero st /\
  is_null st' = is_null st /\ conv_buffer st' = conv_buffer st.
Proof.
  intros Hk Hok Hp Ha. unfold kind_ok, converted in *. rewrite Hk in *.
  destruct Hok as (_ & _ & _ & Hnz). unfold print_str. rewrite Ha. cbn [va_str].
  rewrite outcome_bind_ok. cbn [info_of precision].
  assert (forall n, (n <= length s)%nat -> take n (s ++ 0 :: rest) = take n s) as Htake.
  { intros n Hn. by rewrite take_app_le. }
  destruct (precision_of c) as [p|] eqn:Hpr; cbn [default from_option id].
  - assert (0 <= p < 2 ^ 31) as Hp31
      by (unfold precision_of in Hpr; destruct (c_precision c); simplify_eq; simpl in Hp; lia).
    rewrite (proj2 (Z.eqb_neq p (-1))) by lia. cbn [negb].
    rewrite wrap_small by (unfold_ints; lia). rewrite str_nlen_spec, outcome_bind_ok by done.
    eexists. split; [done|]. cbn. split_and!; try done.
    rewrite Nat2Z.id, length_take, Htake by lia.
    destruct (decide (Z.to_nat p <= length s)%nat); [by rewrite Nat.min_l|].
    rewrite Nat.min_r by lia. rewrite !take_ge by lia. done.
  - cbn [Z.eqb negb Pos.eqb]. rewrite str_len_spec, outcome_bind_ok by done.
    eexists. split; [done|]. cbn. split_and!; try done.
    rewrite Nat2Z.id, Htake by lia. by rewrite take_ge.
Qed.

Lemma handle_spec_spec c l st written : conv_ok c -> st_before c l st ->
  exists st', handle_spec (info_of c) (length_number c) written st = Ok (E_HANDLE_SPEC_OK, st') /\
  st_after c l st st'.
Proof.
  intros (_ & _ & Hp & Hok) Hst. pose proof Hst as (Ha & Hz & Hn & Hlen).
  unfold handle_spec, st_after, rest_args in *. cbn [info_of spec].
  destruct (c_kind c) as [i v|r v|v|s rest| |p|] eqn:Hk; cbn [letter].
  - assert (exists st', ('(number, st) ← spec_number true (info_of c) (length_number c) st;
      '(buffer, sv) ← signed_to_string_view (i64 number) NUMERIC_BASE_10 (conv_buffer st)
                        (pos_sign (add_pos_sign (info_of c)));
      Ok (E_HANDLE_SPEC_OK, with_parsed buffer sv st)) = Ok (E_HANDLE_SPEC_OK, st') /\
      st_after c l st st') as (st' & E & H).
    { destruct (spec_number_signed c l st i v Hk Hst) as (st1 & -> & A & B & C & D & E).
      rewrite outcome_bind_ok.
      assert (in_s 64 (value_of c)) as Hin by (unfold value_of; rewrite Hk; apply signed_value_in).
      rewrite (i64_u64 _ Hin).
      destruct (signed_view 10 (pos_sign (has_flag 43 c)) (value_of c) (conv_buffer st1))
        as (b & Eb & Hl & _); [do 2 right; by left|done|done|by rewrite E|].
      unfold NUMERIC_BASE_10. cbn [info_of add_pos_sign]. rewrite Eb, outcome_bind_ok.
      eexists. split; [done|]. unfold st_after, converted. rewrite Hk. cbn. rewrite Hl, E.
      split_and!; done. }
    unfold st_after in H. rewrite Hk in H. exists st'. split; [|done].
    destruct i; exact E.
  - unfold kind_ok in Hok. rewrite Hk in Hok. destruct Hok as (_ & Hnar & _).
    unfold converted. rewrite Hk. unfold radix_digits.
    destruct (print_unsigned_spec c l st r v
      (match r with BinUpper | HexUpper => capital | _ => NUM_TO_STR_OPTIONS_INIT end) Hk Hnar)
      as (st' & E & H); [by destruct r|by destruct r|done|].
    exists st'. split; [destruct r; exact E|]. cbn [is_number andb is_null_of]. naive_solver.
  - unfold kind_ok in Hok. rewrite Hk in Hok. rewrite Hok in *. cbn [kind_args app] in Ha.
    cbn. rewrite Ha. cbn [va_int]. rewrite outcome_bind_ok.
    destruct (print_char_spec (i8 (i32 v)) (with_args l st) l eq_refl Hlen) as (st' & -> & H).
    exists st'. split; [done|]. unfold converted. rewrite Hk, <- i8_i32. cbn in H.
    rewrite Hn, Hz in H. naive_solver.
  - pose proof Hok as Hok'. unfold kind_ok in Hok'. rewrite Hk in Hok'. destruct Hok' as [Hs _].
    rewrite Hs in *. cbn.
    destruct (print_str_spec c l st s rest Hk Hok Hp Ha) as (st' & -> & H1 & H2 & H3 & H4 & H5 & H6).
    exists st'. rewrite H6, H4, H5, Hz, Hn. by split_and!.
  - unfold kind_ok in Hok. rewrite Hk in Hok. rewrite Hok in *. cbn. unfold print_str. rewrite Ha.
    cbn. eexists. split; [done|]. unfold converted. rewrite Hk. cbn. by split_and!.
  - unfold kind_ok in Hok. rewrite Hk in Hok. destruct Hok as [Hs Hp64]. rewrite Hs in *.
    cbn -[print_ptr Z.eqb]. cbn. unfold print_ptr. rewrite Ha. cbn [va_ptr kind_args app]. rewrite outcome_bind_ok.
    unfold converted. rewrite Hk. destruct (Z.eqb_spec p 0) as [->|Hp0]; cbn [negb].
    + eexists. split; [done|]. cbn. by split_and!.
    + destruct (unsigned_view 16 capital_prefixed p (conv_buffer st)) as (b & E & Hl & _);
        [by do 3 right|intros _; by do 2 right|done|done|].
      cbn [with_args conv_buffer]. unfold NUMERIC_BASE_16. rewrite E, outcome_bind_ok.
      eexists. split; [done|]. cbn. rewrite Hl. by split_and!.
  - unfold kind_ok in Hok. rewrite Hk in Hok. rewrite Hok in *. cbn [kind_args app] in Ha. cbn.
    destruct (print_char_spec 37 st l Ha Hlen) as (st' & -> & H).
    exists st'. split; [done|]. unfold converted. rewrite Hk. rewrite Hn, Hz in H. naive_solver.
Qed.

(** ** Padding *)
Lemma width_range c : conv_ok c -> 0 <= width_of c < 2 ^ 31.
Proof.
  intros (_ & Hw & _). unfold width_of. destruct (c_width c); simpl in Hw; lia.
Qed.
Lemma precision_range c p : conv_ok c -> precision_of c = Some p -> 0 <= p < 2 ^ 31.
Proof.
  intros (_ & _ & Hp & _) E. unfold precision_of in E. destruct (c_precision c); simplify_eq; simpl in Hp; lia.
Qed.

(** What padding_spec says of a conversion. *)
Definition padded (c : conv) : Prop :=
  exists zs sps should,
  padding (info_of c) (converted c) (is_number (c_kind c) && (value_of c =? 0)) = Ok (zs, sps, should) /\
  0 <= zs /\ 0 <= sps /\ (zs <> 0 -> converted c <> []) /\
  layout (info_of c) (converted c) (is_null_of (c_kind c)) zs sps should = render c.

Lemma spaces_neg n : n <= 0 -> spaces n = [].
Proof. intros H. unfold spaces. by replace (Z.to_nat n) with 0%nat by lia. Qed.
Lemma zeros_neg n : n <= 0 -> zeros n = [].
Proof. intros H. unfold zeros. by replace (Z.to_nat n) with 0%nat by lia. Qed.

Lemma padded_text c : conv_ok c -> is_number (c_kind c) = false ->
  (width_of c <> 0 -> Z.of_nat (length (converted c)) < 256) ->
  render c = text_field c (converted c) -> padded c.
Proof.
  intros Hok Hk Hlen Hr. pose proof (width_range c Hok) as Hw. unfold padded. rewrite Hr, Hk.
  assert (is_int_specifier (letter (c_kind c)) = false /\ prefix_of_spec (info_of c) = []) as [Hi Hpre].
  { unfold prefix_of_spec. cbn [info_of add_base_prefix spec].
    destruct (c_kind c), (has_flag 35 c); done. }
  unfold padding. cbn [info_of precision add_base_prefix spec width leftpad_zeros left_justify andb negb].
  rewrite Hi, outcome_bind_ok, andb_false_r. cbn [andb].
  set (L := Z.of_nat (length (converted c))) in *.
  assert ((if has_flag 35 c
    then if letter (c_kind c) =? 111 then u8 (u8 L + 1)
         else if (letter (c_kind c) =? 120) || (letter (c_kind c) =? 88) then u8 (u8 L + 2) else u8 L
    else u8 L) = u8 L) as -> by (destruct (has_flag 35 c), (c_kind c); done).
  pose proof (wrap_in_u 8 L ltac:(lia)) as Hu8. unfold in_u in Hu8.
  assert (forall sps, sps = Z.max 0 (width_of c - L) ->
    layout (info_of c) (converted c) (is_null_of (c_kind c)) 0 sps true = text_field c (converted c)) as Hlay.
  { intros sps ->. unfold layout, zeros_text, after_zeros, text_field, field. rewrite Hpre.
    cbn [Z.eqb app info_of left_justify]. rewrite app_nil_r. replace (if is_null_of (c_kind c) then [] else []) with (@nil Z)
      by (by destruct (is_null_of _)). cbn [app length Nat.add].
    fold L. unfold spaces. replace (Z.to_nat (Z.max 0 (width_of c - L))) with (Z.to_nat (width_of c - L)) by lia.
    done. }
  destruct (Z.ltb_spec (u8 L) (width_of c)) as [Hlt|Hge].
  - assert (u8 L = L) as E by (apply wrap_small; unfold_ints; lia). rewrite E in *.
    rewrite wrap_small by (unfold_ints; lia).
    eexists _, _, _. split; [done|]. split_and!; [lia|lia|done|]. apply Hlay. lia.
  - eexists _, _, _. split; [done|]. split_and!; [lia|lia|done|]. apply Hlay.
    destruct (decide (width_of c = 0)) as [E|E]; [lia|].
    rewrite wrap_small in Hge by (unfold_ints; lia). lia.
Qed.

(** A number is a sign, a prefix and digits. *)
Record number_text (c : conv) (sign prefix digits : list Z) : Prop := {
  nt_kind : is_number (c_kind c) = true;
  nt_text : converted c = sign ++ digits;
  nt_sign : sign = [] \/ sign = [43] \/ sign = [45];
  nt_digits : exists x r, digits = x :: r /\ x <> 43 /\ x <> 45;
  nt_count : (length digits <= 64)%nat;
  nt_prefix : prefix_of_spec (info_of c) = prefix;
  nt_one : sign = [] \/ prefix = [];
  nt_length : prefix = [] \/ length prefix = 2%nat;
  nt_counted : (if has_flag 35 c
    then if letter (c_kind c) =? 111 then 1
         else if (letter (c_kind c) =? 120) || (letter (c_kind c) =? 88) then 2 else 0
    else 0) = Z.of_nat (length prefix);
  nt_zero : value_of c = 0 -> precision_of c = Some 0 -> sign = [] /\ prefix = [];
  nt_short : width_of c <> 0 -> default 0 (precision_of c) < 250;
  nt_render : render c = int_field c (value_of c) (sign ++ prefix) digits;
}.

Lemma u8_add a b : u8 (u8 a + b) = u8 (a + b).
Proof. unfold wrap. by rewrite Zplus_mod_idemp_l. Qed.

Lemma layout_number c sign prefix digits zs sps : number_text c sign prefix digits -> 0 <= zs ->
  layout (info_of c) (converted c) false zs sps true =
    (if has_flag 45 c then prefix ++ sign ++ zeros zs ++ digits ++ spaces sps
     else spaces sps ++ prefix ++ sign ++ zeros zs ++ digits).
Proof.
  intros H Hz. destruct (nt_digits _ _ _ _ H) as (x & r & Ed & Hx1 & Hx2).
  unfold layout, zeros_text, after_zeros. rewrite (nt_prefix _ _ _ _ H), (nt_text _ _ _ _ H).
  assert (split_sign (sign ++ digits) = (sign, digits)) as ->.
  { rewrite Ed. destruct (nt_sign _ _ _ _ H) as [->|[->| ->]]; try done. simpl.
    by rewrite (proj2 (Z.eqb_neq x 43) Hx1), (proj2 (Z.eqb_neq x 45) Hx2). }
  cbn [fst snd info_of left_justify]. unfold spaces, zeros.
  destruct (Z.eqb_spec zs 0) as [->|Hnz]; destruct (has_flag 45 c); cbn [Z.to_nat replicate app];
    rewrite <- ?app_assoc, ?app_nil_r; done.
Qed.

Lemma front_number c sign prefix digits : number_text c sign prefix digits ->
  exists front, sv_char (converted c) = Ok front /\
  ((front =? 45) || (front =? 43)) = negb (bool_decide (sign = [])).
Proof.
  intros H. destruct (nt_digits _ _ _ _ H) as (x & r & Ed & Hx1 & Hx2).
  rewrite (nt_text _ _ _ _ H), Ed.
  destruct (nt_sign _ _ _ _ H) as [->|[->| ->]]; (eexists; split; [reflexivity|]); try done.
  by rewrite (proj2 (Z.eqb_neq x 43) Hx1), (proj2 (Z.eqb_neq x 45) Hx2).
Qed.

(** The zeros a precision asks for, and the length of the text with them. *)
Definition precision_zeros (c : conv) (digits : list Z) : Z :=
  Z.max 0 (default 0 (precision_of c) - Z.of_nat (length digits)).
Definition written_length (c : conv) (sign prefix digits : list Z) : Z :=
  Z.of_nat (length sign + length prefix + length digits) + precision_zeros c digits.

Lemma padding_number c sign prefix digits : conv_ok c -> number_text c sign prefix digits ->
  let should := negb ((value_of c =? 0) && (default (-1) (precision_of c) =? 0)) in
  let w := width_of c in
  let len := if should then u8 (written_length c sign prefix digits) else 0 in
  padding (info_of c) (converted c) (is_number (c_kind c) && (value_of c =? 0)) =
    Ok (if len <? w then
          if has_flag 48 c && bool_decide (precision_of c = None) && negb (has_flag 45 c)
          then (u32 (w - len), 0, should)
          else (precision_zeros c digits, u32 (w - len), should)
        else (precision_zeros c digits, 0, should)).
Proof.
  intros Hok H should w len. destruct (front_number _ _ _ _ H) as (front & Ef & Hfront).
  assert (is_int_specifier (letter (c_kind c)) = true) as Hi.
  { pose proof (nt_kind _ _ _ _ H). destruct (c_kind c) as [[]|[]| | | | |]; done. }
  unfold padding. cbn [info_of precision add_base_prefix spec width leftpad_zeros left_justify
    add_one_space_for_sign]. rewrite (nt_kind _ _ _ _ H), Hi, Ef, outcome_bind_ok. cbn [andb].
  set (L := Z.of_nat (length (converted c))).
  assert (L = Z.of_nat (length sign) + Z.of_nat (length digits)) as HL
    by (unfold L; rewrite (nt_text _ _ _ _ H), length_app; lia).
  pose proof (nt_count _ _ _ _ H) as Hcount. destruct (nt_digits _ _ _ _ H) as (x & r & Ed & _).
  assert (1 <= length digits)%nat as Hdig by (rewrite Ed; simpl; lia).
  assert (length sign = if bool_decide (sign = []) then 0%nat else 1%nat) as Hsg
    by (by destruct (nt_sign _ _ _ _ H) as [->|[->| ->]]).
  fold should. fold w.
  assert ((if negb should then 0
    else if has_flag 35 c
      then if letter (c_kind c) =? 111 then u8 (u8 L + 1)
           else if (letter (c_kind c) =? 120) || (letter (c_kind c) =? 88) then u8 (u8 L + 2) else u8 L
      else u8 L) = if should then u8 (L + Z.of_nat (length prefix)) else 0) as ->.
  { destruct should; [cbn [negb]|done]. rewrite <- (nt_counted _ _ _ _ H).
    destruct (has_flag 35 c), (letter (c_kind c) =? 111),
      ((letter (c_kind c) =? 120) || (letter (c_kind c) =? 88)); rewrite ?u8_add, ?Z.add_0_r; done. }
  assert ((if (front =? 45) || (front =? 43) then u8 (u8 L - 1) else u8 L) = Z.of_nat (length digits)) as ->.
  { rewrite Hfront, (wrap_small 8 L) by (unfold_ints; destruct (bool_decide _); lia).
    case_bool_decide; cbn [negb]; [lia|]. rewrite wrap_small; [lia|unfold_ints; lia]. }
  unfold precision_zeros, written_length in *.
  destruct (precision_of c) as [p|] eqn:Hp; cbn [default from_option id] in *.
  - pose proof (precision_range c p Hok Hp) as Hpr.
    rewrite (proj2 (Z.eqb_neq p (-1))) by lia. cbn [negb andb].
    rewrite (bool_decide_eq_false_2 (Some p = None)) by done. rewrite !andb_false_r. cbn [andb].
    destruct (Z.ltb_spec (Z.of_nat (length digits)) p) as [Hlt|Hge].
    + assert (should = true) as Hs by (unfold should; rewrite (proj2 (Z.eqb_neq p 0)), andb_false_r; done || lia).
      rewrite outcome_bind_ok, Hs. unfold len. rewrite Hs, u8_add, (wrap_small 32 (p - _)) by (unfold_ints; lia).
      unfold precision_zeros. rewrite Hp. cbn [default from_option id].
      rewrite Z.max_r by lia.
      replace (L + Z.of_nat (length prefix) + (p - Z.of_nat (length digits))) with
        (Z.of_nat (length sign + length prefix + length digits) + (p - Z.of_nat (length digits))) by lia.
      rewrite andb_false_r. by destruct (_ <? w).
    + rewrite outcome_bind_ok, Z.max_l by lia. unfold len, precision_zeros. rewrite Hp. cbn [default from_option id].
      rewrite Z.max_l, Z.add_0_r by lia. rewrite andb_false_r.
      replace (L + Z.of_nat (length prefix)) with (Z.of_nat (length sign + length prefix + length digits)) by lia.
      by destruct (_ <? w).
  - rewrite (bool_decide_eq_true_2 (@None Z = None)) by done.
    cbn [Z.eqb Pos.eqb negb andb]. rewrite outcome_bind_ok, !andb_true_r, andb_false_r.
    unfold len, precision_zeros. rewrite Hp. cbn [default from_option id]. rewrite !Z.max_l, !Z.add_0_r by lia.
    replace (L + Z.of_nat (length prefix)) with (Z.of_nat (length sign + length prefix + length digits)) by lia.
    destruct (_ <? w); [|done]. by destruct (has_flag 48 c && negb (has_flag 45 c)).
Qed.

Lemma int_digits_zeros c n digits : (n <> 0 \/ precision_of c <> Some 0) ->
  int_digits (precision_of c) n digits = zeros (precision_zeros c digits) ++ digits.
Proof.
  intros H. unfold int_digits, precision_zeros. destruct (precision_of c) as [p|]; cbn [default from_option id].
  - assert ((p =? 0) && (n =? 0) = false) as ->.
    { destruct (Z.eqb_spec p 0) as [->|], (Z.eqb_spec n 0) as [->|]; try done. destruct H; done. }
    destruct (Z.max_spec 0 (p - Z.of_nat (length digits))) as [[_ ->]|[? ->]]; [done|].
    by rewrite !zeros_neg by lia.
  - rewrite Z.max_l by lia. by rewrite zeros_neg.
Qed.

Lemma should_false c sign prefix digits : number_text c sign prefix digits -> conv_ok c ->
  value_of c = 0 -> precision_of c = Some 0 -> padded c.
Proof.
  intros H Hok Hv Hp. destruct (nt_zero _ _ _ _ H Hv Hp) as [-> ->].
  pose proof (padding_number c [] [] digits Hok H) as E. cbv zeta in E.
  pose proof (width_range c Hok) as Hw. destruct (nt_digits _ _ _ _ H) as (x & r & Ed & _).
  unfold precision_zeros in E. rewrite Hv, Hp in E. cbn [default from_option id Z.eqb andb negb] in E.
  rewrite (bool_decide_eq_false_2 (Some 0 = None)), andb_false_r, Z.max_l in E by (done || lia).
  cbn [andb] in E. unfold padded. rewrite Hv.
  assert (forall sps, sps = width_of c ->
    layout (info_of c) (converted c) (is_null_of (c_kind c)) 0 sps false = render c) as Hlay.
  { intros sps ->. rewrite (nt_render _ _ _ _ H), Hv. unfold int_field, int_digits, field, layout, zeros_text.
    rewrite (nt_prefix _ _ _ _ H), Hp, (bool_decide_eq_false_2 (Some 0 = None)) by done.
    replace (if is_null_of (c_kind c) then [] else []) with (@nil Z) by (by destruct (is_null_of _)).
    rewrite andb_false_r. cbn [Z.eqb andb app length info_of left_justify Nat.add]. rewrite Z.sub_0_r, !app_nil_r.
    by destruct (has_flag 45 c). }
  destruct (Z.ltb_spec 0 (width_of c)).
  - rewrite Z.sub_0_r, wrap_small in E by (unfold_ints; lia).
    exists 0, (width_of c), false. split_and!; [exact E|lia|lia|done|by apply Hlay].
  - exists 0, 0, false. split_and!; [exact E|lia|lia|done|apply Hlay; lia].
Qed.

Lemma padded_number c sign prefix digits : number_text c sign prefix digits -> conv_ok c -> padded c.
Proof.
  intros H Hok.
  destruct (decide (value_of c = 0 /\ precision_of c = Some 0)) as [[Hv Hp]|Hnz];
    [by apply (should_false c sign prefix digits)|].
  pose proof (padding_number c sign prefix digits Hok H) as E. cbv zeta in E.
  pose proof (width_range c Hok) as Hw. pose proof (nt_short _ _ _ _ H) as Hshort.
  pose proof (nt_count _ _ _ _ H) as Hc.
  assert ((value_of c =? 0) && (default (-1) (precision_of c) =? 0) = false) as Hs.
  { destruct (Z.eqb_spec (value_of c) 0) as [Hv|]; [|done]. cbn [andb]. apply Z.eqb_neq.
    intros E'. apply Hnz. split; [done|]. destruct (precision_of c); cbn in E'; [congruence|lia]. }
  rewrite Hs in E. cbn [negb] in E. set (W := written_length c sign prefix digits) in *.
  set (P := precision_zeros c digits) in *. assert (0 <= P) as HP by (unfold P, precision_zeros; lia).
  assert (width_of c <> 0 -> u8 W = W) as HW.
  { intros Hw0. specialize (Hshort Hw0). apply wrap_small. unfold_ints. unfold W, P, written_length, precision_zeros in *.
    destruct (nt_sign _ _ _ _ H) as [->|[->| ->]], (nt_length _ _ _ _ H) as [->|E2], (nt_one _ _ _ _ H);
      simplify_eq; rewrite ?E2; simpl; lia. }
  assert (0 <= u8 W) by (pose proof (wrap_in_u 8 W ltac:(lia)); unfold_ints; lia).
  assert (is_null_of (c_kind c) = false) as Hnull
    by (pose proof (nt_kind _ _ _ _ H); by destruct (c_kind c)).
  assert (forall zs sps, 0 <= zs -> layout (info_of c) (converted c) (is_null_of (c_kind c)) zs sps true =
    (if has_flag 45 c then (sign ++ prefix) ++ zeros zs ++ digits ++ spaces sps
     else spaces sps ++ (sign ++ prefix) ++ zeros zs ++ digits)) as Hlay.
  { intros zs sps Hzs. rewrite Hnull, (layout_number c sign prefix digits) by done.
    destruct (nt_one _ _ _ _ H) as [->| ->]; cbn [app]; by rewrite ?app_nil_r. }
  assert (render c = field (has_flag 45 c) (has_flag 48 c && bool_decide (precision_of c = None))
    (width_of c) (sign ++ prefix) (zeros P ++ digits)) as Hrender.
  { rewrite (nt_render _ _ _ _ H). unfold int_field. rewrite int_digits_zeros; [done|].
    destruct (decide (value_of c = 0)); [right|by left]. naive_solver. }
  assert (Z.of_nat (length (sign ++ prefix) + length (zeros P ++ digits)) = W) as HlenW.
  { unfold W, written_length, zeros. fold P. rewrite !length_app, length_replicate. lia. }
  assert (converted c <> []) as Hne.
  { rewrite (nt_text _ _ _ _ H). destruct (nt_digits _ _ _ _ H) as (x & r & -> & _). by destruct sign. }
  unfold padded, field in *. rewrite HlenW in Hrender.
  destruct (Z.ltb_spec (u8 W) (width_of c)) as [Hlt|Hge].
  - rewrite HW in * by lia. rewrite wrap_small in E by (unfold_ints; lia).
    destruct (has_flag 48 c && bool_decide (precision_of c = None)) eqn:Hz0.
    + apply andb_prop in Hz0 as [_ Hz0]. apply bool_decide_eq_true in Hz0.
      assert (P = 0) as HP0 by (unfold P, precision_zeros; rewrite Hz0; cbn; lia).
      destruct (has_flag 45 c); cbn [andb negb] in E; do 3 eexists; (split; [exact E|]);
        (split; [lia|]); (split; [lia|]); (split; [done|]); rewrite Hlay, Hrender by lia.
      * by rewrite <- (app_assoc (zeros P)).
      * rewrite HP0, (zeros_neg 0), spaces_neg by lia. done.
    + cbn [andb] in E. do 3 eexists; (split; [exact E|]);
        (split; [lia|]); (split; [lia|]); (split; [done|]); rewrite Hlay, Hrender by lia.
      by destruct (has_flag 45 c); rewrite <- ?app_assoc.
  - assert (width_of c - W <= 0) as Hmiss by (destruct (decide (width_of c = 0)) as [E0|E0];
      [unfold W, written_length; lia|rewrite HW in Hge by lia; lia]).
    do 3 eexists; (split; [exact E|]); (split; [lia|]); (split; [lia|]); (split; [done|]).
    rewrite Hlay, Hrender by lia. rewrite (spaces_neg (width_of c - W)), (zeros_neg (width_of c - W)) by lia.
    rewrite spaces_neg by lia. rewrite !app_nil_r.
    destruct (has_flag 45 c), (has_flag 48 c && bool_decide (precision_of c = None)); cbn [app];
      rewrite <- ?app_assoc; done.
Qed.

(** *** Which texts the conversions give *)
Lemma printed_digits options base n : printable_base base -> include_prefix options = false ->
  in_u 64 n -> printed base n (max_digits base) (num_text digits_fuel options base n).
Proof.
  intros Hb Hinc Hn.
  destruct (unsigned_view base options n ex_buffer Hb (prefix_written_none _ _ Hinc) Hn) as (b & _ & _ & H);
    done.
Qed.

Lemma printed_head base n k ds : base <= 36 -> printed base n k ds ->
  exists x r, ds = x :: r /\ x <> 43 /\ x <> 45.
Proof.
  intros Hb ([Hne Hds] & _). destruct ds as [|x r]; [done|]. exists x, r. split; [done|].
  apply Forall_cons in Hds as [[_ Hx] _]. split; intros ->.
  - change (digit_val 43) with 255 in Hx. lia.
  - change (digit_val 45) with 255 in Hx. lia.
Qed.

Lemma printed_text_ok base n k ds : printed base n k ds -> text_ok ds.
Proof.
  intros ([_ Hds] & _). apply (Forall_impl _ _ _ Hds). intros x [Hx _]. unfold ascii, in_s in *. lia.
Qed.

Lemma max_digits_64 base : printable_base base -> (max_digits base <= 64)%nat.
Proof. intros [->|[->|[->| ->]]]; vm_compute; lia. Qed.

Lemma signed_text c i v : conv_ok c -> c_kind c = Signed i v ->
  number_text c (signed_sign c (value_of c)) []
    (num_text digits_fuel NUM_TO_STR_OPTIONS_INIT 10 (Z.abs (value_of c))) /\ text_ok (converted c).
Proof.
  intros (_ & _ & _ & Hok) Hk. unfold kind_ok in Hok. rewrite Hk in Hok. destruct Hok as [Hshort Hplus].
  assert (value_of c = signed_value (c_size c) v) as Hv by (unfold value_of; by rewrite Hk).
  assert (printable_base 10) as H10 by (do 2 right; by left).
  pose proof (signed_value_in (c_size c) v) as Hin. rewrite <- Hv in *.
  assert (in_u 64 (Z.abs (value_of c))) as Habs
    by (unfold_ints; change (2 ^ (64 - 1)) with (2 ^ 63) in *; lia).
  pose proof (printed_digits NUM_TO_STR_OPTIONS_INIT 10 _ H10 eq_refl Habs) as Hp.
  assert (converted c = signed_sign c (value_of c) ++
    num_text digits_fuel NUM_TO_STR_OPTIONS_INIT 10 (Z.abs (value_of c))) as Hconv
    by (unfold converted; by rewrite Hk).
  assert (signed_sign c (value_of c) = [] \/ signed_sign c (value_of c) = [43] \/
          signed_sign c (value_of c) = [45]) as Hsign.
  { unfold signed_sign. destruct (_ <? _); [tauto|]. destruct (has_flag 43 c); tauto. }
  split.
  - constructor; rewrite ?Hk; try done; try tauto.
    + eapply (printed_head 10); [lia|exact Hp].
    + destruct Hp as (_ & _ & Hl & _). pose proof (max_digits_64 10 H10). lia.
    + unfold prefix_of_spec. cbn [info_of spec add_base_prefix]. rewrite Hk.
      by destruct (has_flag 35 c), i.
    + by destruct (has_flag 35 c), i.
    + intros E1 E2. split; [|done]. unfold signed_sign. rewrite E1. cbn [Z.ltb Z.compare].
      destruct (has_flag 43 c) eqn:E3; [|done]. by destruct Hplus.
    + unfold render. rewrite Hk. by rewrite <- Hv, app_nil_r.
  - rewrite Hconv. apply text_ok_app. split; [|by eapply printed_text_ok].
    destruct Hsign as [->|[->| ->]]; text_ok_solve.
Qed.

Lemma unsigned_text c r v : conv_ok c -> c_kind c = Unsigned r v ->
  number_text c [] (radix_prefix c r) (radix_digits r (value_of c)) /\ text_ok (converted c).
Proof.
  intros (_ & _ & _ & Hok) Hk. unfold kind_ok in Hok. rewrite Hk in Hok.
  destruct Hok as (Hshort & Hnar & Halt).
  assert (value_of c = unsigned_value (c_size c) v) as Hv by (unfold value_of; by rewrite Hk).
  pose proof (unsigned_value_in (c_size c) v) as Hin. rewrite <- Hv in *.
  assert (printable_base (radix_base r)) as Hb by (unfold printable_base; destruct r; simpl; lia).
  assert (printed (radix_base r) (value_of c) (max_digits (radix_base r)) (radix_digits r (value_of c))) as Hp
    by (unfold radix_digits; apply printed_digits; [done|by destruct r|done]).
  assert (converted c = radix_digits r (value_of c)) as Hconv by (unfold converted; by rewrite Hk).
  split.
  - constructor; rewrite ?Hk; try done; try tauto.
    + eapply (printed_head (radix_base r)); [destruct r; simpl; lia|exact Hp].
    + destruct Hp as (_ & _ & Hl & _). pose proof (max_digits_64 _ Hb). lia.
    + unfold prefix_of_spec, radix_prefix. cbn [info_of spec add_base_prefix]. rewrite Hk.
      destruct (has_flag 35 c); [|done]. by destruct r; try (by destruct Halt).
    + unfold radix_prefix. destruct (has_flag 35 c); [|tauto]. destruct r; tauto.
    + unfold radix_prefix. destruct (has_flag 35 c); [|done]. by destruct r; try (by destruct Halt).
    + intros E1 E2. split; [done|]. unfold radix_prefix. destruct (has_flag 35 c) eqn:E3; [|done].
      specialize (Halt eq_refl). by destruct r.
    + unfold render. rewrite Hk. by rewrite <- Hv.
  - rewrite Hconv. by eapply printed_text_ok.
Qed.

Lemma converted_ok c : conv_ok c -> padded c /\ text_ok (converted c).
Proof.
  intros Hok. pose proof Hok as (_ & _ & _ & Hkind). unfold kind_ok in Hkind.
  destruct (c_kind c) as [i v|r v|v|s rest| |p|] eqn:Hk.
  - destruct (signed_text c i v Hok Hk) as [H ?]. split; [by eapply padded_number|done].
  - destruct (unsigned_text c r v Hok Hk) as [H ?]. split; [by eapply padded_number|done].
  - split; [|unfold converted; rewrite Hk; constructor; [apply (swrap_in_s 8); lia|constructor]].
    apply padded_text; unfold render, converted; rewrite ?Hk; try done.
  - destruct Hkind as (_ & Hlen & Ht & _). split.
    + apply padded_text; unfold render, converted; rewrite ?Hk; try done.
      intros Hw. specialize (Hlen Hw). destruct (precision_of c); [|done]. rewrite length_take. lia.
    + unfold converted. rewrite Hk. destruct (precision_of c); [|done]. by apply Forall_take.
  - split; [apply padded_text; unfold render, converted; rewrite ?Hk; done|].
    unfold converted. rewrite Hk. text_ok_solve.
  - destruct Hkind as [_ Hp].
    assert (p <> 0 -> printed 16 p (max_digits 16) (num_text digits_fuel capital_prefixed 16 p)) as Hpr.
    { intros _. destruct (unsigned_view 16 capital_prefixed p ex_buffer) as (b & _ & _ & H);
        [by do 3 right|intros _; by do 2 right|done|done|done]. }
    split.
    + apply padded_text; unfold render, converted; rewrite ?Hk; try done.
      intros _. destruct (Z.eqb_spec p 0) as [|Hp0]; [done|]. destruct (Hpr Hp0) as (_ & _ & Hl & _).
      rewrite length_app. pose proof (max_digits_64 16 ltac:(by do 3 right)). simpl length at 1. lia.
    + unfold converted. rewrite Hk. destruct (Z.eqb_spec p 0) as [|Hp0]; [text_ok_solve|].
      apply text_ok_app. split; [text_ok_solve|]. by eapply printed_text_ok, Hpr.
  - split; [apply padded_text; unfold render, converted; rewrite ?Hk; done|].
    unfold converted. rewrite Hk. text_ok_solve.
Qed.
