(* ===== verification/FormatThms.v ===== *)
(** * What formatting guarantees

    Properties of Format.v: parse_printf writes what the standard says for
    every format whose conversions are [conv_ok], into any [Sink]; a buffer and
    a string are sinks; and where the code differs. *)
From S2P Require Import Prelude CArith Convert ConvertThms Buffer BufferInv Format FormatInv FormatConv.

(** ** Formats *)

(** A format: pieces of text, each with a conversion behind it, and a last
    piece. *)
Definition plain (t : list Z) : Prop := Forall (fun x => in_s 8 x /\ x <> 0 /\ x <> 37) t.
Definition format := list (list Z * conv).
Definition item_text (i : list Z * conv) : list Z := fst i ++ 37 :: show (snd i).
Definition item_out (i : list Z * conv) : list Z := fst i ++ render (snd i).
Definition item_ok (i : list Z * conv) : Prop := plain (fst i) /\ conv_ok (snd i).
Definition format_text (items : format) (last : list Z) : list Z := concat (map item_text items) ++ last.
Definition format_args (items : format) : list arg := concat (map (fun i => arguments (snd i)) items).
Definition formatted (items : format) (last : list Z) : list Z := concat (map item_out items) ++ last.

Lemma plain_text_ok t : plain t -> text_ok t.
Proof. intros H. apply (Forall_impl _ _ _ H). tauto. Qed.

Lemma str_chr_percent t rest : plain t -> str_chr (t ++ 37 :: rest) 37 = Ok (Some (37 :: rest)).
Proof.
  induction 1 as [|x t (Hx & H0 & Hp) Ht IH]; [done|]. cbn [app str_chr].
  by rewrite (proj2 (Z.eqb_neq x 0) H0), (proj2 (Z.eqb_neq x 37) Hp).
Qed.
Lemma str_chr_none t rest : plain t -> str_chr (t ++ 0 :: rest) 37 = Ok None.
Proof.
  induction 1 as [|x t (Hx & H0 & Hp) Ht IH]; [done|]. cbn [app str_chr].
  by rewrite (proj2 (Z.eqb_neq x 0) H0), (proj2 (Z.eqb_neq x 37) Hp).
Qed.
Lemma text_between_app t u : text_between (t ++ u) u = Ok t.
Proof.
  unfold text_between. rewrite length_app.
  rewrite (proj2 (Nat.leb_le _ _)) by lia. cbn [c_assert]. rewrite outcome_bind_ok.
  replace (length t + length u - length u)%nat with (length t) by lia. by rewrite take_app_length.
Qed.

Lemma show_head c rest : conv_ok c -> exists x r, show c ++ rest = x :: r /\ x <> 0 /\
  (exists y s, show_amount (c_width c) ++ after_width c rest = y :: s /\ y <> 0 /\ flag_of y = None).
Proof.
  intros (Hf & Hw & _). rewrite show_split.
  assert (exists y s, show_amount (c_width c) ++ after_width c rest = y :: s /\ y <> 0 /\
    flag_of y = None) as (y & s & E & Hy & Hn).
  { destruct (c_width c) as [|n|n]; simpl in Hw.
    - destruct (after_width_head c rest) as (x & r & -> & ? & ? & _). eauto.
    - destruct (show_num_head n ltac:(lia)) as (x & r & Ex & Hx & H48). cbn [show_amount]. rewrite Ex.
      exists x, (r ++ after_width c rest). split; [done|]. split; [lia|]. specialize (H48 ltac:(lia)).
      unfold flag_of. repeat (rewrite (proj2 (Z.eqb_neq x _)) by lia). done.
    - exists 42, (after_width c rest). done. }
  rewrite E. destruct Hf as [|f fs Hf Hfs]; cbn [app].
  - eauto 10.
  - eexists _, _. split; [done|]. split; [intros ->; discriminate Hf|eauto].
Qed.

Section sink.
Context {S : Type}.
Context {char_cb : option printf_spec_info -> Z -> Z -> bool -> S -> outcome (Z * bool * S)}.
Context {sv_cb : option printf_spec_info -> string_view -> bool -> S -> outcome (Z * bool * S)}.
Context {sink : Sink char_cb sv_cb}.

(** From [r] to [r'] the text [t] is written and the arguments [l] are left. *)
Definition run_writes (r r' : run S) (t : list Z) (l : list arg) : Prop :=
  writes (out r) (out r') t /\ written_out r' = written_out r + Z.of_nat (length t) /\
  list_struct r' = l /\ stored r' = stored r /\
  length (buffer r') = length (buffer r).
(** There is room for a text, and what is written is counted without overflow. *)
Definition run_ready (r : run S) (t : list Z) : Prop :=
  sink_ok (out r) /\ Z.of_nat (length t) <= room (out r) /\ 0 <= written_out r /\
  written_out r + room (out r) < 2 ^ 64 /\ 68 <= Z.of_nat (length (buffer r)).

Lemma run_writes_app r1 r2 r3 t u l1 l2 : run_writes r1 r2 t l1 -> run_writes r2 r3 u l2 ->
  run_writes r1 r3 (t ++ u) l2.
Proof.
  intros (W1 & N1 & _ & S1 & B1) (W2 & N2 & L2 & S2 & B2).
  split; [by eapply writes_app|]. rewrite length_app. split_and!; [lia|done|congruence|congruence].
Qed.
Lemma run_ready_app r r' t u l : run_ready r (t ++ u) -> run_writes r r' t l -> run_ready r' u.
Proof.
  intros (O & R & W0 & Wb & B) ((O' & _ & R') & N & _ & _ & B'). rewrite length_app in R.
  split_and!; [done|lia|lia|lia|congruence].
Qed.

Lemma format_spec_spec c l rest r : conv_ok c -> list_struct r = arguments c ++ l ->
  run_ready r (render c) ->
  exists r', format_spec char_cb sv_cb (show c ++ rest) r = Ok (Continue rest rest, r') /\
  run_writes r r' (render c) l.
Proof.
  intros Hok Hl (O & R & W0 & Wb & B). pose proof Hok as (Hf & Hw & Hp & Hk).
  destruct (show_head c rest Hok) as (x & y & E & Hx & Hhead).
  unfold format_spec. assert (cstr_char (show c ++ rest) = Ok x) as -> by (rewrite E; done).
  rewrite outcome_bind_ok, (proj2 (Z.eqb_neq x 0) Hx), show_split.
  rewrite parse_flags_spec, outcome_bind_ok by done. rewrite Hl. unfold arguments.
  rewrite <- !app_assoc, parse_width_spec, outcome_bind_ok by done.
  rewrite parse_precision_spec, outcome_bind_ok by done.
  rewrite parse_length_spec, outcome_bind_ok.
  2:{ unfold kind_ok in Hk. destruct (c_kind c); tauto. }
  cbn [cstr_char head deref]. unfold cstr_char. cbn [head deref]. rewrite outcome_bind_ok.
  match goal with |- context [with_spec _ ?i] =>
    replace (with_spec (letter (c_kind c)) i) with (info_of c)
      by (unfold with_spec, info_of, with_flags, has_flag; cbn; by rewrite !orb_false_r) end.
  match goal with |- context [handle_spec _ _ _ ?st0] => set (st := st0) end.
  destruct (handle_spec_spec c l st (written_out r) Hok) as (st' & -> & Ha & Hs & Hpa & Hz & Hn & Hb);
    [by split_and!|].
  rewrite outcome_bind_ok. cbn [cstr_next]. rewrite outcome_bind_ok. cbn [written_out out].
  destruct (converted_ok c Hok) as [(zs & sps & sh & Hpad & H0 & H1 & Hne & Hlay) Htext].
  rewrite <- Hpa, <- Hz in Hpad. rewrite <- Hpa in Htext, Hne. rewrite <- Hpa, <- Hn in Hlay.
  destruct (write_conversion_spec (info_of c) st' (written_out r) zs sps sh (out r)
    Hpad Htext H0 H1 Hne O) as (s' & -> & W); [try rewrite Hlay; done || lia..|].
  rewrite outcome_bind_ok, Hlay in *. eexists. split; [done|].
  split; [done|]. by split_and!.
Qed.

(** Text goes to the sink as it is. *)
Lemma text_written t r : text_ok t -> run_ready r t ->
  exists s', call_cb char_cb sv_cb None t true (out r) = Ok (Z.of_nat (length t), true, s') /\
  run_writes r (with_written (u64 (written_out r + Z.of_nat (length t))) s' r) t (list_struct r).
Proof.
  intros Ht (O & R & W0 & Wb & B). destruct (emits_call_cb None t Ht (out r) O R) as (s' & E & W).
  exists s'. split; [done|]. split; [done|]. cbn.
  rewrite wrap_small by (unfold_ints; lia). by split_and!.
Qed.

Lemma format_loop_spec last mem l : plain last -> forall items r fuel,
  Forall item_ok items -> (length items < fuel)%nat ->
  list_struct r = format_args items ++ l -> run_ready r (formatted items last) ->
  let fmt := format_text items last ++ 0 :: mem in
  exists r', format_loop char_cb sv_cb fuel fmt fmt r = Ok r' /\
  run_writes r r' (formatted items last) l.
Proof.
  intros Hlast. induction items as [|[t c] items IH]; intros r fuel Hok Hfuel Hl Hr;
    (destruct fuel as [|fuel]; [lia|]); cbn [format_loop].
  - unfold format_text, formatted, format_args in *. cbn [map concat app] in *.
    rewrite str_chr_none, outcome_bind_ok by done. unfold format_rest.
    destruct (text_written last r (plain_text_ok _ Hlast) Hr) as (s' & E & W).
    destruct last as [|x last'] eqn:El.
    + exists r. split; [done|]. destruct Hr as (O & _). split; [by apply writes_nil|].
      cbn. split_and!; (done || lia).
    + unfold cstr_char. cbn [app head deref]. rewrite outcome_bind_ok.
      apply Forall_cons in Hlast as [(_ & Hx & _) Hlast].
      rewrite (proj2 (Z.eqb_neq x 0) Hx). cbn [negb].
      change (x :: last' ++ 0 :: mem) with ((x :: last') ++ 0 :: mem).
      rewrite str_len_spec, outcome_bind_ok.
      2:{ constructor; [done|]. apply (Forall_impl _ _ _ Hlast). naive_solver. }
      rewrite Nat2Z.id, take_app_length, E, outcome_bind_ok. eexists. split; [done|]. by rewrite <- Hl.
  - apply Forall_cons in Hok as [[Ht Hc] Hok]. cbn [fst snd] in *.
    unfold format_text, formatted, format_args in *. cbn [map concat] in *.
    change (item_text (t, c)) with (t ++ 37 :: show c) in *.
    change (item_out (t, c)) with (t ++ render c) in *. cbn [fst snd] in *.
    rewrite <- ?app_assoc in *. cbn [app] in *. rewrite <- ?app_assoc in *.
    set (rest := concat (map item_text items) ++ last ++ 0 :: mem) in *.
    rewrite str_chr_percent, outcome_bind_ok, text_between_app, outcome_bind_ok by done.
    assert (run_ready r t) as Hr1.
    { destruct Hr as (O & R & H'). rewrite length_app in R. split_and!; (done || lia || apply H'). }
    destruct (text_written t r (plain_text_ok _ Ht) Hr1) as (s1 & -> & W1).
    rewrite outcome_bind_ok. cbn [negb cstr_next]. rewrite outcome_bind_ok.
    set (r1 := with_written _ s1 r) in *. pose proof (run_ready_app _ _ _ _ _ Hr W1) as Hr2.
    assert (run_ready r1 (render c)) as Hr2'.
    { destruct Hr2 as (O & R & H'). rewrite length_app in R. split_and!; (done || lia || apply H'). }
    destruct (format_spec_spec c (concat (map (fun i => arguments (snd i)) items) ++ l) rest r1 Hc)
      as (r2 & -> & W2); [exact Hl|done|]. rewrite outcome_bind_ok.
    pose proof (run_ready_app _ _ _ _ _ Hr2 W2) as Hr3.
    destruct (IH r2 fuel Hok) as (r3 & E3 & W3); [simpl in *; lia|apply W2|done|].
    fold rest in E3.
    rewrite E3. exists r3. split; [done|]. eapply run_writes_app; [exact W1|].
    eapply run_writes_app; [exact W2|exact W3].
Qed.

Lemma format_text_fuel items last mem : (length items < length (format_text items last ++ 0%Z :: mem))%nat.
Proof.
  assert (length items <= length (concat (map item_text items)))%nat.
  { induction items as [|[t c] items IH]; [done|].
    change (concat (map item_text ((t, c) :: items)))
      with ((t ++ 37 :: show c) ++ concat (map item_text items)).
    rewrite !length_app. simpl length. lia. }
  unfold format_text. rewrite !length_app. simpl length. lia.
Qed.

(** The whole function, for any sink. *)
Lemma parse_printf_ok items last mem l s : Forall item_ok items -> plain last ->
  sink_ok s -> Z.of_nat (length (formatted items last)) <= room s ->
  exists r, parse_printf char_cb sv_cb (format_text items last ++ 0 :: mem) (format_args items ++ l) s = Ok r /\
  written_out r = Z.of_nat (length (formatted items last)) /\ list_struct r = l /\ stored r = [] /\
  writes s (out r) (formatted items last).
Proof.
  intros Hi Hl Hs Hr. pose proof (sink_room s Hs).
  edestruct (format_loop_spec last mem l Hl items) as (r & E & W & N & L & St & B);
    [exact Hi|apply format_text_fuel| | |exists r; split; [exact E|]]; cbn.
  - done.
  - split_and!; (done || cbn; lia).
  - by split_and!.
Qed.
End sink.

(** ** Strings are sinks *)
Lemma text_ok_bytes s : text_ok s -> map i8 (map u8 s) = s.
Proof. apply map_i8_u8. Qed.

Section string.
Context {H : Type}.
Context {malloc_size : Z -> H -> outcome (option (Z * list Z) * H)}.
Context {free : Z -> H -> outcome H}.
Context {heap : Malloc malloc_size free}.
(** What else is owned in the heap. *)
Context (others : list Z).

(** A string as the functions of string.c leave it. *)
Definition string_in (s : kstring) (h : H) : Prop :=
  gb_in s h others /\ (gb_is_alloc s = true -> terminated s).
Definition string_room (s : kstring) : Z := (malloc_limit - 2) / 2 - gb_index s.

Lemma string_in_index s h : string_in s h -> 0 <= gb_index s.
Proof. intros [[[] _] _]. lia. Qed.

Lemma string_room_ok s n : 0 <= n <= string_room s -> gb_index s + 2 * (n + 1) <= malloc_limit - gb_index s.
Proof. unfold string_room. intros Hn. pose proof (Z.mul_div_le (malloc_limit - 2) 2). lia. Qed.

#[export] Program Instance string_sink :
    Sink (string_char_callback malloc_size free) (string_sv_callback malloc_size free) := {
  sink_ok s := string_in (fst s) (snd s);
  contents s := map i8 (gb_bytes (fst s));
  room s := string_room (fst s);
}.
Next Obligation.
  intros [s h] Hs. pose proof (string_in_index _ _ Hs). pose proof malloc_limit_32.
  cbn in *. unfold string_room. pose proof (Z.mul_div_le (malloc_limit - 2) 2). lia.
Qed.
Next Obligation.
  intros info ch n [s h] Hs Hch Hn. cbn [fst snd] in *. pose proof (string_in_index _ _ Hs).
  pose proof (string_room_ok s n Hn). pose proof malloc_limit_32.
  destruct (string_append_char_spec s ch n h others) as (s' & h' & E & Hin & Ht & Hb & Hi); [apply Hs|lia..|].
  exists (s', h'). unfold string_char_callback. cbn [fst snd].
  rewrite wrap_small, E, outcome_bind_ok by (unfold_ints; lia). cbn [negb].
  split; [done|]. split; [by split|]. split; [|unfold string_room; lia].
  by rewrite Hb, map_app, map_replicate, i8_u8.
Qed.
Next Obligation.
  intros info sv [s h] Hs Hsv Hn. cbn [fst snd] in *. pose proof (string_in_index _ _ Hs).
  pose proof (string_room_ok s _ ltac:(split; [|exact Hn]; lia)). pose proof malloc_limit_32.
  destruct (string_append_sv_spec s sv h others) as (s' & h' & E & Hin & Ht & Hb & Hi); [apply Hs|lia..|].
  exists (s', h'). unfold string_sv_callback. cbn [fst snd]. rewrite E, outcome_bind_ok. cbn [negb].
  split; [done|]. split; [by split|]. split; [|unfold string_room; lia].
  by rewrite Hb, map_app, text_ok_bytes.
Qed.
End string.

(** ** Buffers are sinks, while the text fits *)
#[export] Program Instance buffer_sink : Sink buffer_char_callback buffer_sv_callback := {
  sink_ok := mb_wf;
  contents mb := map i8 (mb_bytes mb);
  room mb := mb_capacity mb - mb_index mb;
}.
Next Obligation. intros mb []. cbn in *. lia. Qed.
Next Obligation.
  intros info ch n mb Hs Hch Hn. pose proof Hs as [].
  destruct (mbuffer_append_byte_spec mb ch n Hs Hn) as (mb' & E & W & Hb & Hi & Hc).
  exists mb'. unfold buffer_char_callback. rewrite (wrap_small 32 n), E, outcome_bind_ok by (unfold_ints; lia).
  rewrite Z.eqb_refl. cbn [negb]. split; [done|]. split; [done|]. split; [|lia].
  by rewrite Hb, map_app, map_replicate, i8_u8.
Qed.
Next Obligation.
  intros info sv mb Hs Hsv Hn. pose proof Hs as [].
  destruct (mbuffer_append_data_spec mb (map u8 sv) (Z.of_nat (length sv)) Hs) as (mb' & E & W & Hb & Hi & Hc);
    [lia|by rewrite length_map|].
  exists mb'. unfold buffer_sv_callback, mbuffer_append_sv.
  rewrite (wrap_small 32 (Z.of_nat _)), E, outcome_bind_ok by (unfold_ints; lia).
  rewrite Z.eqb_refl. cbn [negb]. split; [done|]. split; [done|]. split; [|lia].
  rewrite Hb, map_app, Nat2Z.id, take_ge by (by rewrite length_map). by rewrite text_ok_bytes.
Qed.

(** ** A format and a heap for the examples *)

(** "x=%-5d|%+05d|%.3u|%#x|%s|%*c|%%" *)
Definition ex_conv (flags : list Z) (w p : amount) (k : conv_kind) : conv :=
  {| c_flags := flags; c_width := w; c_precision := p; c_size := SNone; c_kind := k |}.
Definition ex_items : format :=
  [(char_codes "x=", ex_conv [45] (Amount 5) NoAmount (Signed false (-42)));
   (char_codes "|", ex_conv [43; 48] (Amount 5) NoAmount (Signed false 42));
   (char_codes "|", ex_conv [] NoAmount (Amount 3) (Unsigned Dec 7));
   (char_codes "|", ex_conv [35] NoAmount NoAmount (Unsigned Hex 48879));
   (char_codes "|", ex_conv [] NoAmount NoAmount (Str (char_codes "abc") []));
   (char_codes "|", ex_conv [] (Star 3) NoAmount (Character 33));
   (char_codes "|", ex_conv [] NoAmount NoAmount Percent)].

Example ex_format_text : format_text ex_items [] = char_codes "x=%-5d|%+05d|%.3u|%#x|%s|%*c|%%".
Proof. reflexivity. Qed.
Example ex_formatted : formatted ex_items [] = char_codes "x=-42  |+0042|007|0xbeef|abc|  !|%".
Proof. reflexivity. Qed.

Lemma ex_items_ok : Forall item_ok ex_items.
Proof.
  repeat (constructor; [split; [repeat constructor; (vm_compute; congruence)|]|]); [..|constructor].
  all: split_and!; [repeat constructor|cbn; lia || done|cbn; lia || done|].
  all: vm_compute; repeat split; try congruence; try discriminate; try (intros; lia || discriminate).
  all: try (repeat constructor; congruence); try naive_solver.
Qed.

(** Blocks of zeros at one address, up to 2048 bytes. *)
Definition ex_malloc (n : Z) (h : unit) : outcome (option (Z * list Z) * unit) :=
  Ok (if n <=? 2048 then Some (4096, replicate (Z.to_nat n) 0) else None, tt).
Definition ex_free (p : Z) (h : unit) : outcome unit := Ok tt.
#[export] Program Instance ex_heap : Malloc ex_malloc ex_free := {
  malloc_limit := 2048;
  heap_owns _ _ := True;
}.
Next Obligation. lia. Qed.
Next Obligation. done. Qed.
Next Obligation.
  intros n h l _ Hn. unfold ex_malloc. rewrite (proj2 (Z.leb_le n 2048)) by lia.
  eexists _, _, _. split; [done|]. rewrite length_replicate. split_and!; (done || lia).
Qed.
Next Obligation. intros p [] l _. by exists tt. Qed.

(** ** Properties *)



(** [format_to_buffer] writes the same text to the beginning of a buffer
    that the text fits in, and nothing that was there before counts. *)
Theorem vformat_to_buffer_spec base data capacity items last mem args :
  Forall item_ok items -> plain last ->
  0 <= base -> base + capacity < 2 ^ 64 -> 0 <= capacity <= 2 ^ 31 ->
  capacity <= Z.of_nat (length data) -> Z.of_nat (length (formatted items last)) <= capacity ->
  let n := length (formatted items last) in
  exists mb, vformat_to_buffer base data capacity (format_text items last ++ 0 :: mem)
    (format_args items ++ args) = Ok (Z.of_nat n, mb) /\
  mb_index mb = Z.of_nat n /\ map i8 (take n (mb_data mb)) = formatted items last.
Proof.
  intros Hi Hl Hb Htop Hcap Hdata Hfit n.
  set (mb0 := {| mb_begin := base; mb_end := base + capacity; mb_index := 0; mb_data := data |}).
  assert (mb_wf mb0) as W0 by (constructor; unfold mb_capacity; cbn; lia).
  destruct (parse_printf_ok (sink := buffer_sink) items last mem args mb0 Hi Hl W0)
    as (r & E & W & _ & _ & Hok & Hc & Hr); [cbn; unfold mb_capacity; cbn; lia|].
  unfold vformat_to_buffer, mbuffer_open, mbuffer_open_static.
  rewrite (wrap_small 32) by (unfold_ints; lia). rewrite (proj2 (Z.leb_le 0 capacity)) by lia.
  cbn [c_assert]. rewrite outcome_bind_ok. unfold check_add_assert, check_add.
  rewrite (proj2 (Z.ltb_lt (base + 0) _)) by lia. cbn [c_assert]. rewrite !outcome_bind_ok.
  rewrite (wrap_small 64) by (unfold_ints; lia). fold mb0. rewrite E, outcome_bind_ok, W.
  exists (out r). split; [done|]. change (map i8 (mb_bytes (out r)) = formatted items last) in Hc.
  assert (mb_index (out r) = Z.of_nat n) as Hidx.
  { apply (f_equal length) in Hc. unfold mb_bytes in Hc. rewrite length_map, length_take in Hc.
    pose proof (Hok : mb_wf (out r)) as [_ _ _ Hoi Hod]. fold n in Hc. lia. }
  split; [done|]. rewrite <- Hc. unfold mb_bytes. rewrite Hidx, Nat2Z.id. done.
Qed.

Lemma vformat_to_buffer_spec_witness :
  exists mb, vformat_to_buffer 4096 (repeat 255 40) 40
    (char_codes "x=%-5d|%+05d|%.3u|%#x|%s|%*c|%%" ++ [0]) (format_args ex_items ++ []) = Ok (34, mb) /\
  mb_index mb = 34 /\
  map i8 (take 34 (mb_data mb)) = char_codes "x=-42  |+0042|007|0xbeef|abc|  !|%".
Proof.
  apply (vformat_to_buffer_spec 4096 (repeat 255 40) 40 ex_items [] [] []).
  - exact ex_items_ok.
  - constructor.
  - lia.
  - reflexivity.
  - lia.
  - reflexivity || (vm_compute; congruence).
  - vm_compute. congruence.
Defined.

(** format_to_buffer does not stop at the end of the buffer: a text longer
    than the capacity is written in full behind it, as far as the memory goes.
    (The free space is the distance from the end back to the current position,
    as a 32-bit number.) *)
Theorem vformat_to_buffer_overruns base data capacity t mem args :
  plain t -> 0 <= base -> base + capacity < 2 ^ 64 -> 0 < capacity < Z.of_nat (length t) ->
  Z.of_nat (length t) <= 2 ^ 31 ->
  vformat_to_buffer base data capacity (t ++ 0 :: mem) args =
    if Z.of_nat (length t) <=? Z.of_nat (length data)
    then Ok (Z.of_nat (length t),
             {| mb_begin := base; mb_end := base + capacity; mb_index := Z.of_nat (length t);
                mb_data := map u8 t ++ drop (length t) data |})
    else Undef.
Proof.
  intros Ht Hb Htop Hcap Hlen.
  unfold vformat_to_buffer, mbuffer_open, mbuffer_open_static.
  rewrite (wrap_small 32) by (unfold_ints; lia). rewrite (proj2 (Z.leb_le 0 capacity)) by lia.
  cbn [c_assert]. rewrite outcome_bind_ok. unfold check_add_assert, check_add.
  rewrite (proj2 (Z.ltb_lt (base + 0) _)) by lia. cbn [c_assert]. rewrite !outcome_bind_ok.
  rewrite (wrap_small 64) by (unfold_ints; lia).
  set (mb := {| mb_begin := base; mb_end := base + capacity; mb_index := 0; mb_data := data |}).
  assert (mbuffer_free_space mb = 2 ^ 32 - capacity) as Hfree.
  { unfold mbuffer_free_space, distance32, mbuffer_current_ptr. cbn.
    rewrite Z.add_0_r, (wrap_small 64 base) by (unfold_ints; lia).
    unfold wrap. change (2 ^ 64) with 18446744073709551616 in *. change (2 ^ 32) with 4294967296.
    change (2 ^ 31) with 2147483648 in *. Z.to_euclidean_division_equations. lia. }
  unfold parse_printf. destruct (length (t ++ 0 :: mem)) as [|fuel] eqn:Hf;
    [rewrite length_app in Hf; simpl in Hf; lia|]. cbn [format_loop].
  rewrite str_chr_none, outcome_bind_ok by done. unfold format_rest, cstr_char.
  destruct t as [|x [|y t]]; [simpl in *; lia|simpl in *; lia|]. cbn [app head deref].
  rewrite outcome_bind_ok. pose proof Ht as [(_ & Hx & _) _]%Forall_cons.
  rewrite (proj2 (Z.eqb_neq x 0) Hx). cbn [negb].
  change (x :: y :: t ++ 0 :: mem) with ((x :: y :: t) ++ 0 :: mem).
  set (u := x :: y :: t) in *.
  rewrite str_len_spec, outcome_bind_ok, Nat2Z.id, take_app_length
    by (apply (Forall_impl _ _ _ Ht); naive_solver).
  change (call_cb buffer_char_callback buffer_sv_callback None u true
    (out {| written_out := 0; list_struct := args; buffer := replicate (Z.to_nat (MAX_CONVERT_CAP + 3)) 0;
            stored := []; out := mb |})) with (buffer_sv_callback None u true mb).
  unfold buffer_sv_callback, mbuffer_append_sv, mbuffer_append_data, preprocess_for_append.
  rewrite (wrap_small 32 (Z.of_nat _)) by (unfold_ints; lia). rewrite Hfree, Z.geb_leb.
  rewrite (proj2 (Z.leb_gt _ (Z.of_nat (length u)))) by lia. cbn [mb mb_index mb_with mb_data].
  rewrite Z.add_0_l, (wrap_small 32 (Z.of_nat _)) by (unfold_ints; lia).
  rewrite read_bytes_prefix, outcome_bind_ok by (rewrite length_map; lia).
  rewrite Nat2Z.id, take_ge by (by rewrite length_map).
  destruct (Z.leb_spec (Z.of_nat (length u)) (Z.of_nat (length data))).
  - rewrite write_bytes_ok by (rewrite ?length_map; lia). rewrite !outcome_bind_ok.
    cbn [with_written written_out out]. rewrite Z.add_0_l, wrap_small by (unfold_ints; lia).
    by rewrite length_map.
  - rewrite write_bytes_undef; [done|done|rewrite length_map; lia].
Qed.

Lemma vformat_to_buffer_overruns_witness :
  vformat_to_buffer 4096 (repeat 1 8) 4 (char_codes "hello" ++ [0]) [] =
    (if 5 <=? 8 then Ok (5, {| mb_begin := 4096; mb_end := 4096 + 4; mb_index := 5;
                               mb_data := map u8 (char_codes "hello") ++ drop 5 (repeat 1 8) |})
     else Undef).
Proof.
  apply (vformat_to_buffer_overruns 4096 (repeat 1 8) 4 (char_codes "hello") [] []).
  - repeat constructor; vm_compute; congruence.
  - lia.
  - lia.
  - split; reflexivity.
  - vm_compute. congruence.
Defined.

(** A sink that only remembers the text. *)
Definition trace_char (_ : option printf_spec_info) (ch n : Z) (cont : bool) (s : list Z) :
    outcome (Z * bool * list Z) := Ok (n, cont, s ++ replicate (Z.to_nat n) ch).
Definition trace_sv (_ : option printf_spec_info) (sv : string_view) (cont : bool) (s : list Z) :
    outcome (Z * bool * list Z) := Ok (Z.of_nat (length sv), cont, s ++ sv).
Definition text_of (fmt : string) (args : list arg) : outcome (list Z) :=
  r ← parse_printf trace_char trace_sv (char_codes fmt ++ [0]) args []; Ok (out r).

(** conversions outside of [conv_ok] for which parse_printf does not write
    what the standard asks for: a narrow unsigned number with its top bit set
    is sign-extended to 64 bits; zero gets a base prefix, and an octal prefix
    is added to zeros that are there already; the sign of a zero with precision
    zero is dropped; the space flag makes a field one column too wide; a
    negative '*' width is taken for none; a number at the end of the format is
    read as specifier and text; a text of 256 characters or more is padded by
    its length modulo 256; %n with a length takes two arguments, and %lln stores
    one byte. *)
Theorem printf_divergences :
  text_of "%hhu" [VInt 200] = Ok (char_codes "18446744073709551560") /\
  text_of "%hx" [VInt 65535] = Ok (char_codes "ffffffffffffffff") /\
  text_of "%#x" [VInt 0] = Ok (char_codes "0x0") /\
  text_of "%#.3o" [VInt 8] = Ok (char_codes "0010") /\
  text_of "%+.0d" [VInt 0] = Ok [] /\
  text_of "% 3d" [VInt 5] = Ok (char_codes "   5") /\
  text_of "%*d" [VInt (-5); VInt 7] = Ok (char_codes "7") /\
  text_of "%12" [] = Ok (char_codes "2") /\
  text_of "%301s" [VStr (Some (replicate 300 97 ++ [0]))] =
    Ok (replicate 257 32 ++ replicate 300 97) /\
  text_of "%ln" [VOut 4096] = Undef /\
  (exists r, parse_printf trace_char trace_sv (char_codes "abc%lln" ++ [0]) [VLong 0; VOut 4096] [] = Ok r /\
   stored r = [(4096, 1, 3)]).
Proof. vm_compute. split_and!; try reflexivity. eexists. split; reflexivity. Qed.
