(* ===== verification/Walker.v ===== *)
(** * The page-table walker: kernel/mm/walker.c

    With the page-table entries of arch/x86_64/mm/types.[ch], phys_to_pfn of
    kernel/mm/section.c and kernel/mm/hhdm.c.  The walker runs on the state of
    the physical allocator: the entries of a table are the 512 words of its
    page frame.  A [pte_t *] to the start of a table is the physical address
    behind it in the direct map ([phys_to_virt] adds HHDM_OFFSET and
    [virt_to_phys] takes it off again), [None] for NULL. *)
From S2P Require Import Prelude CArith Range PageAlloc.

(** ** arch/x86_64/mm/types.h, mm/mm_types.h *)
Definition PGT_LEVEL_COUNT : Z := 5.
Definition PGT_PTE_COUNT : Z := 512.
Definition PML1_MASK : Z := 0x1ff.
Definition PTE_PHYS_MASK : Z := 0x0000fffffffff000.
Definition INVALID_PHYS : Z := UINT64_MAX.

(** Both tables are indexed by level. *)
Definition PT_LEVEL_MASKS : list Z :=
  [2 ^ 12 - 1; PML1_MASK; PML1_MASK; PML1_MASK; PML1_MASK; PML1_MASK].
Definition PAGE_SHIFTS : list Z := [12; 21; 30; 39; 48].

Definition __PTE_PRESENT : Z := Z.shiftl 1 0.
Definition __PTE_WRITE : Z := Z.shiftl 1 1.
Definition __PTE_LARGE : Z := Z.shiftl 1 7.
Definition PGT_FLAGS : Z := Z.lor __PTE_PRESENT __PTE_WRITE.

Definition pte_to_phys (pte : Z) : Z := Z.land pte PTE_PHYS_MASK.
Definition phys_create_pte (phys : Z) : Z := phys.
Definition pte_is_present (pte : Z) : bool := negb (Z.land pte __PTE_PRESENT =? 0).
Definition pte_is_large (pte : Z) : bool := negb (Z.land pte __PTE_LARGE =? 0).

Definition virt_to_pt_index (virt level : Z) : outcome Z :=
  shift ← nth_entry PAGE_SHIFTS (level - 1);
  mask ← nth_entry PT_LEVEL_MASKS level;
  Ok (Z.land (Z.shiftr virt shift) mask).

(** What the code reads of the machine: PAGING_MODE, HHDM_OFFSET and
    largepage_level_info_list, which the boot code adjusts. *)
Record paging := {
  has_5lvl_paging : bool;
  HHDM_OFFSET : Z;
  level_info : list largepage_level_info
}.

Definition pgt_get_top_level (cfg : paging) : Z := if has_5lvl_paging cfg then 5 else 4.
Definition pte_level_can_have_large (cfg : paging) (level : Z) : outcome bool :=
  info ← nth_entry (level_info cfg) level; Ok (lp_is_supported info).

(** ** section.c, hhdm.c and memory *)
Definition sec_range (s : page_section) : range := RANGE_INIT (range_front s) (range_size s).

Fixpoint find_pfn (secs : list page_section) (phys : Z) : option Z :=
  match secs with
  | [] => None
  | s :: secs =>
      if range_has_loc (sec_range s) phys
      then Some (u64 (pfn s + Z.shiftr (u64 (phys - range_front s)) PAGE_SHIFT))
      else find_pfn secs phys
  end.
Definition phys_to_pfn (phys : Z) (st : mm) : outcome Z :=
  match find_pfn (sections st) phys with Some p => Ok p | None => Panic end.

(** A pointer into the direct map; the assertion is the one on the sum. *)
Abbreviation pte_ptr := (option Z).
Definition phys_to_virt (cfg : paging) (phys : Z) : outcome pte_ptr :=
  check_add_assert 64 (HHDM_OFFSET cfg) phys;; Ok (Some phys).
Definition pte_to_virt (cfg : paging) (pte : Z) : outcome pte_ptr :=
  phys_to_virt cfg (pte_to_phys pte).
Definition virt_to_page (table : pte_ptr) (st : mm) : outcome Z :=
  match table with Some phys => phys_to_pfn phys st | None => Panic end.

(** [pte_read(&table[index])] and [pte_write]: memory that is in no section
    has no frame. *)
Definition table_frame (table : pte_ptr) (st : mm) : outcome (Z * list Z) :=
  phys ← deref table;
  p ← deref (find_pfn (sections st) phys);
  entries ← deref (frames st !! p);
  Ok (p, entries).
Definition pte_read (table : pte_ptr) (index : Z) (st : mm) : outcome Z :=
  '(_, entries) ← table_frame table st; nth_entry entries index.
Definition pte_write (table : pte_ptr) (index value : Z) (st : mm) : outcome mm :=
  '(p, entries) ← table_frame table st;
  entries ← set_entry index value entries;
  Ok (set_frames (<[p := entries]> (frames st)) st).

(** [ref_up]/[ref_down] on [page->table.refcount]. *)
Definition table_refcount (p : Z) (st : mm) : outcome Z :=
  pg ← get_page p st;
  match data pg with Table_page r => Ok r | _ => Undef end.
Definition table_ref_up (p : Z) (st : mm) : outcome mm :=
  r ← table_refcount p st; r ← ref_up r; page_set_data p (Table_page r) st.
Definition table_ref_down (p : Z) (st : mm) : outcome (bool * mm) :=
  r ← table_refcount p st;
  '(zero, r) ← ref_down r;
  st ← page_set_data p (Table_page r) st; Ok (zero, st).

(** ** The walker *)
Definition PTWALKER_DONE : Z := -1.

Inductive pt_walker_result :=
| E_PT_WALKER_OK
| E_PT_WALKER_REACHED_END
| E_PT_WALKER_ALLOC_FAIL
| E_PT_WALKER_BAD_INCR.

#[export] Instance pt_walker_result_eq_dec : EqDecision pt_walker_result.
Proof. solve_decision. Defined.

Section walker.
(** [cb_info] is handed on to the callbacks; NULL is [None].  The callbacks
    do not look at the walker they are given. *)
Context {C : Type}.
Definition ptwalker_alloc_pgtable_t : Type := Z -> option C -> mm -> outcome (Z * mm).
Definition ptwalker_free_pgtable_t : Type := Z -> option C -> mm -> outcome mm.

Record pt_walker := {
  tables : list pte_ptr;
  indices : list Z;
  level : Z;
  top_level : Z;
  alloc_pgtable : option ptwalker_alloc_pgtable_t;
  free_pgtable : option ptwalker_free_pgtable_t
}.

Definition with_tables (t : list pte_ptr) (w : pt_walker) : pt_walker :=
  {| tables := t; indices := indices w; level := level w; top_level := top_level w;
     alloc_pgtable := alloc_pgtable w; free_pgtable := free_pgtable w |}.
Definition with_indices (i : list Z) (w : pt_walker) : pt_walker :=
  {| tables := tables w; indices := i; level := level w; top_level := top_level w;
     alloc_pgtable := alloc_pgtable w; free_pgtable := free_pgtable w |}.
Definition with_level (l : Z) (w : pt_walker) : pt_walker :=
  {| tables := tables w; indices := indices w; level := l; top_level := top_level w;
     alloc_pgtable := alloc_pgtable w; free_pgtable := free_pgtable w |}.

(** [walker->tables[i]] and [walker->indices[i]] *)
Definition get_table (i : Z) (w : pt_walker) : outcome pte_ptr := nth_entry (tables w) i.
Definition get_index (i : Z) (w : pt_walker) : outcome Z := nth_entry (indices w) i.
Definition set_table (i : Z) (t : pte_ptr) (w : pt_walker) : outcome pt_walker :=
  ts ← set_entry i t (tables w); Ok (with_tables ts w).
Definition set_index (i x : Z) (w : pt_walker) : outcome pt_walker :=
  ixs ← set_entry i x (indices w); Ok (with_indices ixs w).
Definition set_slot (i : Z) (t : pte_ptr) (x : Z) (w : pt_walker) : outcome pt_walker :=
  w ← set_table i t w; set_index i x w.

(** The entry the walker is at in [level]. *)
Definition read_at (level : Z) (w : pt_walker) (st : mm) : outcome Z :=
  t ← get_table (level - 1) w; i ← get_index (level - 1) w; pte_read t i st.

(** The loop of [ptwalker_create_for_pagemap], from level [n] down. *)
Fixpoint create_levels (cfg : paging) (virt_addr : Z) (n : nat) (prev_table : pte_ptr)
    (w : pt_walker) (st : mm) : outcome pt_walker :=
  match n with
  | O => Ok w
  | S n' =>
      let level := Z.of_nat n in
      '(table, w) ←
        (match prev_table with
         | None => Ok (None, w)
         | Some _ =>
             let parent_level := level + 1 in
             index ← get_index (parent_level - 1) w;
             entry ← pte_read prev_table index st;
             if negb (pte_is_present entry) then Ok (None, w)
             else
               large ← pte_level_can_have_large cfg parent_level;
               if negb large || negb (pte_is_large entry) then
                 table ← pte_to_virt cfg entry; Ok (table, with_level level w)
               else Ok (None, with_level parent_level w)
         end);
      i ← virt_to_pt_index virt_addr level;
      w ← set_slot (level - 1) table i w;
      create_levels cfg virt_addr n' table w st
  end.

(** The slots above the top level, which exist with 4-level paging. *)
Fixpoint clear_above (fuel : nat) (index : Z) (w : pt_walker) : outcome pt_walker :=
  if index =? PGT_LEVEL_COUNT then Ok w
  else
    match fuel with
    | O => OutOfFuel
    | S fuel => w ← set_slot index None 0 w; clear_above fuel (index + 1) w
    end.

(** An uninitialised [struct pt_walker]. *)
Definition raw_walker : pt_walker :=
  {| tables := replicate 5 None; indices := replicate 5 0; level := 0; top_level := 0;
     alloc_pgtable := None; free_pgtable := None |}.

Record pagemap := { root : Z }.
Definition get_root_phys (pm : pagemap) (virt_addr : Z) : Z := root pm.

Definition ptwalker_create_for_pagemap (cfg : paging) (pm : pagemap) (virt_addr : Z)
    (alloc : option ptwalker_alloc_pgtable_t) (free : option ptwalker_free_pgtable_t)
    (st : mm) : outcome pt_walker :=
  let root_phys := get_root_phys pm virt_addr in
  a ← has_align root_phys PAGE_SIZE; c_assert a;;
  a ← has_align virt_addr PAGE_SIZE; c_assert a;;
  let top := pgt_get_top_level cfg in
  let w := {| tables := tables raw_walker; indices := indices raw_walker;
              level := top; top_level := top; alloc_pgtable := alloc;
              free_pgtable := free |} in
  t ← phys_to_virt cfg root_phys;
  i ← virt_to_pt_index virt_addr top;
  w ← set_slot (top - 1) t i w;
  w ← create_levels cfg virt_addr (Z.to_nat (top - 1)) t w st;
  clear_above 5 top w.

Definition ptwalker_create_from_toplevel (cfg : paging) (root_phys top_level root_index : Z)
    (alloc : option ptwalker_alloc_pgtable_t) (free : option ptwalker_free_pgtable_t) :
    outcome pt_walker :=
  let w := {| tables := replicate 5 None; indices := replicate 5 0;
              level := top_level; top_level := top_level; alloc_pgtable := alloc;
              free_pgtable := free |} in
  t ← phys_to_virt cfg root_phys;
  set_slot (top_level - 1) t root_index w.

(** [for (level--; level >= 1; level--)], started with [level = n + 1]. *)
Fixpoint reset_levels (n : nat) (w : pt_walker) : outcome pt_walker :=
  match n with
  | O => Ok w
  | S n' => w ← set_slot (Z.of_nat n') None 0 w; reset_levels n' w
  end.
Definition reset_levels_lower_than (level : Z) (w : pt_walker) : outcome pt_walker :=
  reset_levels (Z.to_nat (level - 1)) w.

(** The loop of [setup_levels_lower_than] at [level = n]. *)
Fixpoint setup_levels (cfg : paging) (n : nat) (entry : Z) (w : pt_walker) (st : mm) :
    outcome pt_walker :=
  match n with
  | O => Ok (with_level 1 w)
  | S n' =>
      let level := Z.of_nat n in
      table ← pte_to_virt cfg entry;
      w ← set_slot (level - 1) table 0 w;
      entry ← pte_read table 0 st;
      if negb (pte_is_present entry) then Ok (with_level level w)
      else
        large ← pte_level_can_have_large cfg level;
        if large && pte_is_large entry then Ok (with_level level w)
        else setup_levels cfg n' entry w st
  end.
Definition setup_levels_lower_than (cfg : paging) (parent_level first_entry : Z)
    (w : pt_walker) (st : mm) : outcome pt_walker :=
  setup_levels cfg (Z.to_nat (parent_level - 1)) first_entry w st.

(** *** Dropping and allocating tables *)
Fixpoint deref_levels (fuel : nat) (free : ptwalker_free_pgtable_t) (cb_info : option C)
    (level : Z) (table : pte_ptr) (w : pt_walker) (st : mm) : outcome (Z * mm) :=
  if level <=? top_level w then
    match fuel with
    | O => OutOfFuel
    | S fuel =>
        pt ← virt_to_page table st;
        '(zero, st) ← table_ref_down pt st;
        if negb zero then Ok (level, st)
        else
          '(table, st) ←
            (if negb (level =? top_level w) then
               table ← get_table level w;
               i ← get_index level w;
               st ← pte_write table i 0 st; Ok (table, st)
             else Ok (table, st));
          st ← free pt cb_info st;
          deref_levels fuel free cb_info (level + 1) table w st
    end
  else Ok (level, st).

Definition ptwalker_deref_from_level (w : pt_walker) (lvl : Z) (free_cb_info : option C)
    (st : mm) : outcome (pt_walker * mm) :=
  if (lvl <? level w) || (lvl >? top_level w) then Ok (w, st)
  else
    match free_pgtable w with
    | None => Panic
    | Some free =>
        table ← get_table (lvl - 1) w;
        '(lvl, st) ← deref_levels 5 free free_cb_info lvl table w st;
        Ok (with_level lvl w, st)
    end.

Definition ptwalker_drop_lowest (w : pt_walker) (free_cb_info : option C) (st : mm) :
    outcome (pt_walker * mm) :=
  w ← set_slot (level w - 1) None 0 w;
  ptwalker_deref_from_level w (u8 (level w + 1)) free_cb_info st.

Definition alloc_table_at_pte (cfg : paging) (alloc : ptwalker_alloc_pgtable_t)
    (w : pt_walker) (parent_table : pte_ptr) (index level : Z) (alloc_cb_info : option C)
    (st : mm) : outcome (bool * pt_walker * mm) :=
  '(phys, st) ← alloc level alloc_cb_info st;
  if phys =? INVALID_PHYS then Ok (false, w, st)
  else
    t ← phys_to_virt cfg phys;
    w ← set_table (level - 1) t w;
    st ← pte_write parent_table index (Z.lor (phys_create_pte phys) PGT_FLAGS) st;
    Ok (true, w, st).

Fixpoint alloc_levels (cfg : paging) (fuel : nat) (alloc : ptwalker_alloc_pgtable_t)
    (level last_level : Z) (alloc_last_level should_ref : bool)
    (alloc_cb_info free_cb_info : option C) (w : pt_walker) (st : mm) :
    outcome (pt_walker_result * pt_walker * mm) :=
  match fuel with
  | O => OutOfFuel
  | S fuel =>
      parent_table ← get_table level w;
      index ← get_index level w;
      '(ok, w, st) ← alloc_table_at_pte cfg alloc w parent_table index level alloc_cb_info st;
      if negb ok then
        '(w, st) ← ptwalker_drop_lowest (with_level (level + 1) w) free_cb_info st;
        Ok (E_PT_WALKER_ALLOC_FAIL, w, st)
      else
        st ← (if (should_ref : bool) then
                pt ← virt_to_page parent_table st; table_ref_up pt st
              else Ok st);
        let level := level - 1 in
        if (level =? last_level) && negb alloc_last_level then
          Ok (E_PT_WALKER_OK, with_level (level + 1) w, st)
        else if level <? last_level then
          Ok (E_PT_WALKER_OK, with_level (level + 1) w, st)
        else
          alloc_levels cfg fuel alloc level last_level alloc_last_level should_ref
            alloc_cb_info free_cb_info w st
  end.

Definition alloc_levels_down_to (cfg : paging) (w : pt_walker)
    (parent_level last_level : Z) (alloc_last_level should_ref : bool)
    (alloc_cb_info free_cb_info : option C) (st : mm) :
    outcome (pt_walker_result * pt_walker * mm) :=
  match alloc_pgtable w with
  | None => Panic
  | Some alloc =>
      let level := u8 (parent_level - 1) in
      if (level =? last_level) && negb alloc_last_level then
        Ok (E_PT_WALKER_OK, with_level (level + 1) w, st)
      else
        alloc_levels cfg 255 alloc level last_level alloc_last_level should_ref
          alloc_cb_info free_cb_info w st
  end.

Definition ptwalker_fill_in_to (cfg : paging) (w : pt_walker) (lvl : Z)
    (should_ref : bool) (alloc_cb_info free_cb_info : option C) (st : mm) :
    outcome (pt_walker_result * pt_walker * mm) :=
  if level w <=? lvl then Ok (E_PT_WALKER_OK, w, st)
  else
    alloc_levels_down_to cfg w (u8 (level w)) lvl true should_ref alloc_cb_info
      free_cb_info st.

(** *** Moving *)

(** The entry that was moved to in [level] decides where the walker ends. *)
Definition enter_present (cfg : paging) (level entry : Z) (w : pt_walker) (st : mm) :
    outcome pt_walker :=
  can_have_large ← pte_level_can_have_large cfg level;
  if negb can_have_large then setup_levels_lower_than cfg level entry w st
  else if pte_is_large entry then
    w ← reset_levels_lower_than level w; Ok (with_level level w)
  else setup_levels_lower_than cfg level entry w st.

(** The [do] loop of [ptwalker_next_with_options]: [inl] is a [return],
    [inr level] the [break] at a level whose entry is not present. *)
Fixpoint next_climb (cfg : paging) (fuel : nat) (level : Z) (w : pt_walker) (st : mm) :
    outcome ((pt_walker_result + Z) * pt_walker) :=
  match fuel with
  | O => OutOfFuel
  | S fuel =>
      let level := level + 1 in
      if level >? top_level w then
        w ← set_index (level - 1) 0 w;
        w ← reset_levels_lower_than level (with_level PTWALKER_DONE w);
        Ok (inl E_PT_WALKER_REACHED_END, w)
      else
        index ← get_index (level - 1) w;
        let index := u16 (index + 1) in
        w ← set_index (level - 1) index w;
        if index =? PGT_PTE_COUNT then next_climb cfg fuel level w st
        else
          entry ← read_at level w st;
          if negb (pte_is_present entry) then
            w ← reset_levels_lower_than level w; Ok (inr level, w)
          else
            w ← enter_present cfg level entry w st; Ok (inl E_PT_WALKER_OK, w)
  end.

Definition ptwalker_next_with_options (cfg : paging) (w : pt_walker) (lvl : Z)
    (alloc_parents alloc_level should_ref : bool) (alloc_cb_info free_cb_info : option C)
    (st : mm) : outcome (pt_walker_result * pt_walker * mm) :=
  if (level w >? lvl) || (lvl >? top_level w) then Ok (E_PT_WALKER_BAD_INCR, w, st)
  else
    index ← get_index (lvl - 1) w;
    let index := u16 (index + 1) in
    w ← set_index (lvl - 1) index w;
    if index <? PGT_PTE_COUNT then
      if lvl =? 1 then Ok (E_PT_WALKER_OK, w, st)
      else
        entry ← read_at lvl w st;
        if negb (pte_is_present entry) then
          w ← reset_levels_lower_than lvl w; Ok (E_PT_WALKER_OK, w, st)
        else
          w ← enter_present cfg lvl entry w st; Ok (E_PT_WALKER_OK, w, st)
    else
      '(r, w) ← next_climb cfg 6 lvl w st;
      match r with
      | inl r => Ok (r, w, st)
      | inr level =>
          if negb alloc_parents then Ok (E_PT_WALKER_OK, with_level level w, st)
          else
            alloc_levels_down_to cfg w level lvl alloc_level should_ref alloc_cb_info
              free_cb_info st
      end.

Definition ptwalker_next (cfg : paging) (w : pt_walker) (st : mm) :
    outcome (pt_walker_result * pt_walker * mm) :=
  ptwalker_next_with_options cfg w (u8 (level w)) true true true None None st.

(** The [do] loop of [ptwalker_prev_with_options]; here the entry is
    entered without asking whether it is present when the level has no large
    pages. *)
Fixpoint prev_climb (cfg : paging) (fuel : nat) (level : Z) (w : pt_walker) (st : mm) :
    outcome ((pt_walker_result + Z) * pt_walker) :=
  match fuel with
  | O => OutOfFuel
  | S fuel =>
      let level := level + 1 in
      if level >? top_level w then
        w ← set_index (level - 1) 0 w;
        w ← reset_levels_lower_than level (with_level PTWALKER_DONE w);
        Ok (inl E_PT_WALKER_REACHED_END, w)
      else
        index ← get_index (level - 1) w;
        if index =? 0 then
          w ← set_index (level - 1) (PGT_PTE_COUNT - 1) w;
          prev_climb cfg fuel level w st
        else
          w ← set_index (level - 1) (index - 1) w;
          entry ← read_at level w st;
          can_have_large ← pte_level_can_have_large cfg level;
          if negb can_have_large then
            w ← setup_levels_lower_than cfg level entry w st; Ok (inl E_PT_WALKER_OK, w)
          else if negb (pte_is_present entry) then
            w ← reset_levels_lower_than level w; Ok (inr level, w)
          else if pte_is_large entry then
            w ← reset_levels_lower_than level w;
            Ok (inl E_PT_WALKER_OK, with_level level w)
          else
            w ← setup_levels_lower_than cfg level entry w st; Ok (inl E_PT_WALKER_OK, w)
  end.

Definition ptwalker_prev_with_options (cfg : paging) (w : pt_walker) (lvl : Z)
    (alloc_parents alloc_level should_ref : bool) (alloc_cb_info free_cb_info : option C)
    (st : mm) : outcome (pt_walker_result * pt_walker * mm) :=
  if (level w >? lvl) || (lvl >? top_level w) then Ok (E_PT_WALKER_BAD_INCR, w, st)
  else
    w ← (if level w <? lvl then reset_levels_lower_than lvl w else Ok w);
    index ← get_index (lvl - 1) w;
    if negb (index =? 0) then
      w ← set_index (lvl - 1) (index - 1) w;
      if lvl =? 1 then Ok (E_PT_WALKER_OK, w, st)
      else
        entry ← read_at lvl w st;
        if negb (pte_is_present entry) then
          w ← reset_levels_lower_than lvl w; Ok (E_PT_WALKER_OK, w, st)
        else
          w ← enter_present cfg lvl entry w st; Ok (E_PT_WALKER_OK, w, st)
    else
      w ← set_index (lvl - 1) (PGT_PTE_COUNT - 1) w;
      '(r, w) ← prev_climb cfg 6 lvl w st;
      match r with
      | inl r => Ok (r, w, st)
      | inr level =>
          if negb alloc_parents then Ok (E_PT_WALKER_OK, with_level level w, st)
          else
            alloc_levels_down_to cfg w level lvl alloc_level should_ref alloc_cb_info
              free_cb_info st
      end.

Definition ptwalker_prev (cfg : paging) (w : pt_walker) (st : mm) :
    outcome (pt_walker_result * pt_walker * mm) :=
  ptwalker_prev_with_options cfg w 1 true true true None None st.

(** *** Reading *)
Fixpoint virt_addr_from (fuel : nat) (level : Z) (w : pt_walker) (result : Z) : outcome Z :=
  if level <=? top_level w then
    match fuel with
    | O => OutOfFuel
    | S fuel =>
        index ← get_index (level - 1) w;
        mask ← nth_entry PT_LEVEL_MASKS level;
        shift ← nth_entry PAGE_SHIFTS (level - 1);
        virt_addr_from fuel (level + 1) w
          (Z.lor result (u64 (Z.shiftl (Z.land index mask) shift)))
    end
  else Ok result.
Definition ptwalker_get_virt_addr (w : pt_walker) : outcome Z :=
  virt_addr_from 5 (u8 (level w)) w 0.

Definition ptwalker_points_to_largepage (cfg : paging) (w : pt_walker) (st : mm) :
    outcome bool :=
  if level w <=? 1 then Ok false
  else
    can_have_large ← pte_level_can_have_large cfg (level w);
    if negb can_have_large then Ok false
    else pte ← read_at (level w) w st; Ok (pte_is_large pte).
End walker.
Arguments pt_walker : clear implicits.
Arguments ptwalker_alloc_pgtable_t : clear implicits.
Arguments ptwalker_free_pgtable_t : clear implicits.

(** ** The default callbacks and the translation of an address *)
Definition ptwalker_alloc_pgtable_cb {C} (lock : lock_oracle) : ptwalker_alloc_pgtable_t C :=
  fun level cb_info st =>
    '(table, st) ← alloc_table lock st;
    match table with
    | Some page => phys ← page_to_phys page st; Ok (phys, st)
    | None => Ok (INVALID_PHYS, st)
    end.
Definition ptwalker_free_pgtable_cb {C} : ptwalker_free_pgtable_t C :=
  fun page cb_info st => free_pages page 0 st.

Definition ptwalker_default_for_pagemap {C} (lock : lock_oracle) (cfg : paging)
    (pm : pagemap) (virt_addr : Z) (st : mm) : outcome (pt_walker C) :=
  ptwalker_create_for_pagemap cfg pm virt_addr (Some (ptwalker_alloc_pgtable_cb lock))
    (Some ptwalker_free_pgtable_cb) st.

(** [get_cpu_info()->pagemap] is the argument [pm]. *)
Definition ptwalker_default {C} (lock : lock_oracle) (cfg : paging) (pm : pagemap)
    (virt_addr : Z) (st : mm) : outcome (pt_walker C) :=
  ptwalker_default_for_pagemap lock cfg pm virt_addr st.
Definition ptwalker_create {C} (cfg : paging) (pm : pagemap) (virt_addr : Z)
    (alloc : option (ptwalker_alloc_pgtable_t C)) (free : option (ptwalker_free_pgtable_t C))
    (st : mm) : outcome (pt_walker C) :=
  ptwalker_create_for_pagemap cfg pm virt_addr alloc free st.

(** lib/macros.h *)
Definition mask_for_n_bits (n : Z) : Z :=
  if n =? 64 then UINT64_MAX else Z.shiftr UINT64_MAX (64 - n).

Definition ptwalker_virt_get_phys (lock : lock_oracle) (cfg : paging) (pm : pagemap)
    (virt : Z) (st : mm) : outcome Z :=
  walker ← ptwalker_default_for_pagemap (C := unit) lock cfg pm virt st;
  can_have_large ←
    (if level walker >? 1 then pte_level_can_have_large cfg (level walker) else Ok true);
  if negb can_have_large then Ok INVALID_PHYS
  else
    pte ← read_at (level walker) walker st;
    if negb (pte_is_present pte) then Ok INVALID_PHYS
    else if negb (level walker =? 1) && negb (pte_is_large pte) then Ok INVALID_PHYS
    else
      shift ← nth_entry PAGE_SHIFTS (level walker - 1);
      let offset := Z.land virt (mask_for_n_bits shift) in
      Ok (u64 (pte_to_phys pte + offset)).
