(* ===== verification/WalkerInv.v ===== *)
(** * The walker and the tables it walks

    The reference walk of the page tables, the relation "the walker stands at
    an address" and the lemmas that the operations of Walker.v keep it. *)
From S2P Require Import Prelude CArith Range PageAlloc Walker.

(** ** Indices and sizes of the levels *)
Definition level_shift (n : Z) : Z := 3 + 9 * n.
Definition level_size (n : Z) : Z := 2 ^ level_shift n.
Definition pt_index (virt n : Z) : Z := (virt / level_size n) `mod` 512.

Lemma level_size_pos n : 0 <= n -> 0 < level_size n.
Proof. intros. apply pow2_pos. unfold level_shift. lia. Qed.

Lemma level_size_succ n : 0 <= n -> level_size (n + 1) = 512 * level_size n.
Proof.
  intros. unfold level_size, level_shift. replace (3 + 9 * (n + 1)) with (9 + (3 + 9 * n)) by lia.
  rewrite Z.pow_add_r by lia. done.
Qed.

Lemma shift_entry n : 1 <= n <= 5 -> nth_entry PAGE_SHIFTS (n - 1) = Ok (level_shift n).
Proof.
  intros H. assert (n = 1 \/ n = 2 \/ n = 3 \/ n = 4 \/ n = 5) as Hc by lia.
  by destruct Hc as [->|[->|[->|[->| ->]]]].
Qed.

Lemma mask_entry n : 1 <= n <= 5 -> nth_entry PT_LEVEL_MASKS n = Ok 511.
Proof.
  intros H. assert (n = 1 \/ n = 2 \/ n = 3 \/ n = 4 \/ n = 5) as Hc by lia.
  by destruct Hc as [->|[->|[->|[->| ->]]]].
Qed.

Lemma land_511 z : Z.land z 511 = z `mod` 512.
Proof. change 511 with (Z.ones 9). by rewrite Z.land_ones by lia. Qed.

Lemma virt_to_pt_index_eq virt n : 1 <= n <= 5 -> virt_to_pt_index virt n = Ok (pt_index virt n).
Proof.
  intros H. unfold virt_to_pt_index. rewrite shift_entry, mask_entry by done.
  rewrite !outcome_bind_ok, land_511, Z.shiftr_div_pow2 by (unfold level_shift; lia). done.
Qed.

Lemma pt_index_bounds virt n : 0 <= pt_index virt n < 512.
Proof. apply Z.mod_pos_bound. lia. Qed.

Lemma div_level_succ virt n : 0 <= n -> virt / level_size (n + 1) = virt / level_size n / 512.
Proof.
  intros Hn. pose proof (level_size_pos n Hn). rewrite level_size_succ by done.
  rewrite (Z.mul_comm 512). by rewrite Z.div_div by lia.
Qed.

(** The address one step further at level [n]: the next multiple of its size. *)
Definition next_virt (n virt : Z) : Z := (virt / level_size n + 1) * level_size n.

Lemma next_virt_div n virt : 0 <= n -> next_virt n virt / level_size n = virt / level_size n + 1.
Proof. intros Hn. pose proof (level_size_pos n Hn). unfold next_virt. by rewrite Z.div_mul by lia. Qed.

(** The carry into the level above. *)
Lemma next_virt_carry n virt : 0 <= n -> pt_index virt n = 511 ->
  next_virt n virt = next_virt (n + 1) virt.
Proof.
  intros Hn Hi. unfold next_virt. rewrite div_level_succ, level_size_succ by done.
  unfold pt_index in Hi. pose proof (Z.div_mod (virt / level_size n) 512 ltac:(lia)). nia.
Qed.

Lemma pt_index_next_same n virt : 0 <= n -> pt_index virt n <> 511 ->
  pt_index (next_virt n virt) n = pt_index virt n + 1.
Proof.
  intros Hn Hi. unfold pt_index in *. rewrite next_virt_div by done.
  set (q := virt / level_size n) in *.
  pose proof (Z.div_mod q 512 ltac:(lia)). pose proof (Z.mod_pos_bound q 512 ltac:(lia)).
  symmetry. apply (Z.mod_unique _ _ (q / 512)); lia.
Qed.

Lemma div_next_above n virt d : 0 <= n -> pt_index virt n <> 511 -> 0 < d ->
  next_virt n virt / level_size (n + d) = virt / level_size (n + d).
Proof.
  intros Hn Hi Hd. replace d with (Z.of_nat (Z.to_nat (d - 1)) + 1) by lia.
  induction (Z.to_nat (d - 1)) as [|m IH].
  - simpl. rewrite !div_level_succ, next_virt_div by lia. unfold pt_index in Hi.
    set (q := virt / level_size n) in *.
    pose proof (Z.div_mod q 512 ltac:(lia)). pose proof (Z.mod_pos_bound q 512 ltac:(lia)).
    symmetry. apply (Z.div_unique _ _ _ (q `mod` 512 + 1)); lia.
  - replace (n + (Z.of_nat (S m) + 1)) with (n + (Z.of_nat m + 1) + 1) by lia.
    by rewrite !div_level_succ, IH by lia.
Qed.

Lemma pt_index_next_above n k virt : 0 <= n -> pt_index virt n <> 511 -> n < k ->
  pt_index (next_virt n virt) k = pt_index virt k.
Proof.
  intros Hn Hi Hk. unfold pt_index. replace k with (n + (k - n)) by lia.
  by rewrite div_next_above by lia.
Qed.

Lemma level_size_add k d : 0 <= k -> 0 <= d -> level_size (k + d) = 2 ^ (9 * d) * level_size k.
Proof.
  intros. unfold level_size, level_shift.
  replace (3 + 9 * (k + d)) with (9 * d + (3 + 9 * k)) by lia.
  by rewrite Z.pow_add_r by lia.
Qed.

Lemma pt_index_next_below n k virt : 0 <= k -> k < n -> pt_index (next_virt n virt) k = 0.
Proof.
  intros Hk Hn. unfold pt_index, next_virt.
  replace n with (k + 1 + (n - k - 1)) by lia. set (q := virt / _ + 1).
  rewrite (level_size_add (k + 1)) by lia. rewrite level_size_succ by lia.
  pose proof (level_size_pos k Hk).
  replace (q * (2 ^ (9 * (n - k - 1)) * (512 * level_size k)))
    with (q * 2 ^ (9 * (n - k - 1)) * 512 * level_size k) by lia.
  rewrite Z.div_mul by lia. by rewrite Z.mod_mul.
Qed.

Lemma next_virt_end n virt : 1 <= n <= 4 -> 0 <= virt < 2 ^ 48 -> pt_index virt n <> 511 ->
  next_virt n virt < 2 ^ 48.
Proof.
  intros Hn Hv Hi. pose proof (level_size_pos n ltac:(lia)).
  assert (2 ^ 48 = level_size (n + (5 - n))) as E by (replace (n + (5 - n)) with 5 by lia; done).
  pose proof (div_next_above n virt (5 - n) ltac:(lia) Hi ltac:(lia)) as Hd. rewrite <- E in Hd.
  rewrite (Z.div_small virt) in Hd by lia.
  apply Z.div_small_iff in Hd; [|lia]. lia.
Qed.

Lemma land_low_high a b k : 0 <= k -> 0 <= a < 2 ^ k -> Z.land a (b * 2 ^ k) = 0.
Proof.
  intros Hk Ha. apply Z.bits_inj'. intros i Hi. rewrite Z.land_spec, Z.bits_0.
  destruct (Z.ltb_spec i k).
  - rewrite Z.mul_pow2_bits_low by lia. apply andb_false_r.
  - rewrite <- (Z.mod_small a (2 ^ k)) by lia. by rewrite Z.mod_pow2_bits_high by lia.
Qed.

(** Only the low 48 bits of an address have indices. *)
Lemma mod_div_index virt k : 1 <= k <= 4 ->
  (virt `mod` 2 ^ 48 / level_size k) `mod` 512 = (virt / level_size k) `mod` 512.
Proof.
  intros Hk. pose proof (level_size_pos k ltac:(lia)).
  assert (2 ^ 48 = level_size k * (512 * 2 ^ (9 * (4 - k)))) as E.
  { rewrite Z.mul_assoc, (Z.mul_comm _ 512), <- level_size_succ by lia. rewrite Z.mul_comm.
    rewrite <- level_size_add by lia. by replace (k + 1 + (4 - k)) with 5 by lia. }
  set (m := 2 ^ (9 * (4 - k))) in *. assert (0 < m) by (apply pow2_pos; lia).
  rewrite E, Z.rem_mul_r by lia. rewrite (Z.mul_comm (level_size k)), Z.div_add by lia.
  rewrite (Z.div_small (virt `mod` level_size k)) by (apply Z.mod_pos_bound; lia).
  rewrite Z.add_0_l. rewrite Z.rem_mul_r by lia.
  rewrite (Z.mul_comm 512), Z.mod_add by lia. by rewrite Z.mod_mod by lia.
Qed.

(** ** The reference walk *)
Definition can_large (cfg : paging) (n : Z) : bool :=
  match level_info cfg !! Z.to_nat n with Some i => lp_is_supported i | None => false end.
Definition stops (cfg : paging) (n e : Z) : bool :=
  negb (pte_is_present e) || can_large cfg n && pte_is_large e.

(** The level and the entry at which the walk of [virt] from a table of level
    [n] ends. *)
Fixpoint pt_walk (cfg : paging) (st : mm) (n : nat) (table virt : Z) : outcome (Z * Z) :=
  match n with
  | O => Undef
  | S n' =>
      e ← pte_read (Some table) (pt_index virt (Z.of_nat n)) st;
      if (n =? 1)%nat || stops cfg (Z.of_nat n) e then Ok (Z.of_nat n, e)
      else pt_walk cfg st n' (pte_to_phys e) virt
  end.

(** The physical address the tables map [virt] to. *)
Definition pt_translate (cfg : paging) (st : mm) (root virt : Z) : outcome (option Z) :=
  '(n, e) ← pt_walk cfg st 4 root virt;
  Ok (if pte_is_present e && ((n =? 1) || pte_is_large e && can_large cfg n)
      then Some (pte_to_phys e + virt `mod` level_size n) else None).

(** 4-level paging, and a table of level properties that covers every level. *)
Definition cfg_ok (cfg : paging) : Prop :=
  has_5lvl_paging cfg = false /\ length (level_info cfg) = 5%nat.

(** All the memory of the sections is in the direct map. *)
Definition direct_map_ok (cfg : paging) (st : mm) : Prop :=
  0 <= HHDM_OFFSET cfg /\
  forall phys p, in_u 64 phys -> find_pfn (sections st) phys = Some p ->
  HHDM_OFFSET cfg + phys < 2 ^ 64.

Lemma can_have_large_ok cfg n : cfg_ok cfg -> 0 <= n < 5 ->
  pte_level_can_have_large cfg n = Ok (can_large cfg n).
Proof.
  intros [_ Hl] Hn. unfold pte_level_can_have_large, can_large, nth_entry.
  rewrite (proj2 (Z.ltb_ge n 0)) by lia.
  destruct (lookup_lt_is_Some_2 (level_info cfg) (Z.to_nat n) ltac:(lia)) as [i ->]. done.
Qed.

Lemma pte_to_phys_bounds e : 0 <= pte_to_phys e < 2 ^ 48.
Proof.
  unfold pte_to_phys. assert (Z.land e PTE_PHYS_MASK = Z.land e PTE_PHYS_MASK `mod` 2 ^ 48) as ->.
  { rewrite <- Z.land_ones by lia. by rewrite <- Z.land_assoc. }
  by apply Z.mod_pos_bound.
Qed.

Lemma pte_to_phys_u e : in_u 64 (pte_to_phys e).
Proof. pose proof (pte_to_phys_bounds e). unfold_ints. lia. Qed.

Lemma pte_read_mapped cfg table i st e : direct_map_ok cfg st -> in_u 64 table ->
  pte_read (Some table) i st = Ok e -> phys_to_virt cfg table = Ok (Some table).
Proof.
  intros [H0 Hm] Hu Hr. unfold pte_read, table_frame in Hr. simpl in Hr.
  destruct (find_pfn (sections st) table) as [p|] eqn:E; [|done].
  unfold phys_to_virt, check_add_assert, check_add.
  rewrite (proj2 (Z.ltb_lt _ _)) by (by eapply Hm). done.
Qed.

Lemma pt_walk_mapped cfg st n table virt r : direct_map_ok cfg st -> in_u 64 table ->
  pt_walk cfg st n table virt = Ok r -> phys_to_virt cfg table = Ok (Some table).
Proof.
  intros Hd Hu H. destruct n as [|n]; [done|]. cbn [pt_walk] in H. bind_inv H e He.
  by eapply pte_read_mapped.
Qed.

Lemma pt_walk_level cfg st : forall n table virt l e,
  pt_walk cfg st n table virt = Ok (l, e) -> 1 <= l <= Z.of_nat n.
Proof.
  induction n as [|n IH]; intros table virt l e H; [done|]. cbn [pt_walk] in H.
  bind_inv H e' He. destruct (_ || _).
  - injection H as <- <-. lia.
  - apply IH in H. lia.
Qed.

(** ** The walker stands at an address *)
Section walker_inv.
Context {C : Type} (cfg : paging) (st : mm).
Implicit Types (w : pt_walker C) (n : nat).

Definition shape w : Prop :=
  length (tables w) = 5%nat /\ length (indices w) = 5%nat /\ top_level w = 4.

(** From level [n] with table [t] down to where the walk of [virt] stops. *)
Fixpoint synced n (t virt : Z) w : Prop :=
  match n with
  | O => False
  | S n' =>
      tables w !! n' = Some (Some t) /\
      indices w !! n' = Some (pt_index virt (Z.of_nat n)) /\
      exists e, pte_read (Some t) (pt_index virt (Z.of_nat n)) st = Ok e /\
      if (n =? 1)%nat || stops cfg (Z.of_nat n) e then level w = Z.of_nat n
      else synced n' (pte_to_phys e) virt w
  end.

(** The same down to the table [tk] of level [k], without the slot index of
    level [k] itself. *)
Fixpoint path n (t virt : Z) (k : nat) w (tk : Z) : Prop :=
  match n with
  | O => False
  | S n' =>
      tables w !! n' = Some (Some t) /\
      if (n =? k)%nat then tk = t
      else
        indices w !! n' = Some (pt_index virt (Z.of_nat n)) /\
        exists e, pte_read (Some t) (pt_index virt (Z.of_nat n)) st = Ok e /\
        (n =? 1)%nat || stops cfg (Z.of_nat n) e = false /\ path n' (pte_to_phys e) virt k w tk
  end.

(** Two walkers with the same slots from index [k] on. *)
Definition agree_from (k : nat) w w' : Prop :=
  (forall i, (k <= i)%nat -> tables w' !! i = tables w !! i) /\
  (forall i, (k <= i)%nat -> indices w' !! i = indices w !! i).

Lemma synced_path n t virt w : synced n t virt w ->
  exists k tk, level w = Z.of_nat k /\ (1 <= k <= n)%nat /\ path n t virt k w tk /\
  indices w !! (k - 1)%nat = Some (pt_index virt (Z.of_nat k)) /\ synced k tk virt w.
Proof.
  revert t. induction n as [|n IH]; intros t H; [done|]. pose proof H as H0.
  cbn [synced] in H. destruct H as (H1 & H2 & e & H3 & H4).
  destruct ((S n =? 1)%nat || stops cfg (Z.of_nat (S n)) e) eqn:E.
  - exists (S n), t. split_and!; [done|lia|lia| | |done].
    + cbn [path]. by rewrite Nat.eqb_refl.
    + by replace (S n - 1)%nat with n by lia.
  - destruct (IH _ H4) as (k & tk & K1 & K2 & K3 & K4 & K5).
    exists k, tk. split_and!; [done|lia|lia| |done|done].
    cbn [path]. split; [done|]. destruct (Nat.eqb_spec (S n) k); [lia|]. eauto.
Qed.

Lemma path_synced n t virt k w tk : path n t virt k w tk -> synced k tk virt w ->
  synced n t virt w.
Proof.
  revert t. induction n as [|n IH]; intros t Hp Hs; [done|]. cbn [path] in Hp.
  destruct Hp as [H1 H2]. destruct (Nat.eqb_spec (S n) k) as [<-|]; [by subst|].
  destruct H2 as (H2 & e & H3 & H4 & H5). cbn [synced].
  split_and!; [done..|]. exists e. rewrite H4. eauto.
Qed.

Lemma path_le n t virt k w tk : path n t virt k w tk -> (k <= n)%nat.
Proof.
  revert t. induction n as [|n IH]; intros t Hp; [done|]. cbn [path] in Hp.
  destruct Hp as [_ H]. destruct (Nat.eqb_spec (S n) k); [lia|].
  destruct H as (_ & e & _ & _ & H). apply IH in H. lia.
Qed.

Lemma path_agree n t virt virt' k w w' tk : path n t virt k w tk ->
  (forall j, (k < j)%nat -> pt_index virt' (Z.of_nat j) = pt_index virt (Z.of_nat j)) ->
  (forall i, (k <= S i)%nat -> tables w' !! i = tables w !! i) ->
  (forall i, (k <= i)%nat -> indices w' !! i = indices w !! i) ->
  path n t virt' k w' tk.
Proof.
  intros Hp Hv Ht Hi. revert t Hp. induction n as [|n IH]; intros t Hp; [done|].
  pose proof (path_le _ _ _ _ _ _ Hp).
  cbn [path] in *. rewrite Ht by lia. destruct Hp as [H1 H2]. split; [done|].
  destruct (Nat.eqb_spec (S n) k); [done|]. destruct H2 as (H2 & e & H3 & H4 & H5).
  rewrite Hi, Hv by lia. eauto 6.
Qed.

(** One level up the path. *)
Lemma path_up n t virt k w tk : path n t virt k w tk -> (k < n)%nat ->
  exists tk', path n t virt (S k) w tk' /\
  indices w !! k = Some (pt_index virt (Z.of_nat (S k))) /\
  exists e, pte_read (Some tk') (pt_index virt (Z.of_nat (S k))) st = Ok e.
Proof.
  revert t. induction n as [|n IH]; intros t Hp Hk; [done|]. cbn [path] in Hp.
  destruct Hp as [H1 H2]. destruct (Nat.eqb_spec (S n) k); [lia|].
  destruct H2 as (H2 & e & H3 & H4 & H5). destruct (decide (n = k)) as [->|].
  - exists t. cbn [path]. rewrite Nat.eqb_refl. eauto 6.
  - destruct (IH _ H5 ltac:(lia)) as (tk' & P1 & P2 & P3). exists tk'. split_and!; [|done|done].
    cbn [path]. split; [done|]. destruct (Nat.eqb_spec (S n) (S k)); [lia|]. eauto 6.
Qed.

Lemma path_table n t virt k w tk : path n t virt k w tk -> (1 <= k)%nat ->
  tables w !! (k - 1)%nat = Some (Some tk).
Proof.
  revert t. induction n as [|n IH]; intros t Hp Hk; [done|]. cbn [path] in Hp.
  destruct Hp as [H1 H2]. destruct (Nat.eqb_spec (S n) k) as [<-|].
  - subst. by replace (S n - 1)%nat with n by lia.
  - destruct H2 as (H2 & e & H3 & H4 & H5). eauto.
Qed.
(** *** Writing slots *)
Definition keeps (k : nat) w w' : Prop :=
  shape w' /\ agree_from k w w' /\ alloc_pgtable w' = alloc_pgtable w /\
  free_pgtable w' = free_pgtable w.

Lemma keeps_refl k w : shape w -> keeps k w w.
Proof. intros. split; [done|]. split; [by split|done]. Qed.

Lemma keeps_trans k k' w w' w'' : (k' <= k)%nat -> keeps k' w w' -> keeps k w' w'' ->
  keeps k w w''.
Proof.
  intros Hk (_ & [A1 A2] & A3 & A4) (B0 & [B1 B2] & B3 & B4).
  split; [done|]. split; [|split; congruence].
  split; intros i Hi; [rewrite B1, A1 by lia|rewrite B2, A2 by lia]; done.
Qed.

Lemma keeps_level k w w' l : keeps k w w' -> keeps k w (with_level l w').
Proof. done. Qed.
Lemma keeps_level_l k w w' l : keeps k (with_level l w) w' -> keeps k w w'.
Proof. done. Qed.

Lemma set_index_ok w i x : shape w -> (i < 5)%nat ->
  exists w', set_index (Z.of_nat i) x w = Ok w' /\ tables w' = tables w /\
  indices w' = <[i := x]> (indices w) /\ level w' = level w /\ keeps (S i) w w' /\
  indices w' !! i = Some x.
Proof.
  intros (Ht & Hi & Htop) H. unfold set_index. rewrite set_entry_ok by lia.
  eexists. split; [done|]. simpl. split_and!; [done..| |apply list_lookup_insert_eq; lia].
  split; [split_and!; simpl; [done|by rewrite length_insert|done]|].
  split; [|done]. split; [done|]. intros j Hj. simpl. by rewrite list_lookup_insert_ne by lia.
Qed.

Lemma set_slot_ok w i t x : shape w -> (i < 5)%nat ->
  exists w', set_slot (Z.of_nat i) t x w = Ok w' /\ level w' = level w /\ keeps (S i) w w' /\
  tables w' !! i = Some t /\ indices w' !! i = Some x.
Proof.
  intros (Ht & Hi & Htop) H. unfold set_slot, set_table, set_index.
  rewrite set_entry_ok by lia. rewrite !outcome_bind_ok. simpl indices.
  rewrite set_entry_ok by lia. eexists. split; [done|]. simpl.
  split_and!; [done| |apply list_lookup_insert_eq; lia..].
  split; [split_and!; simpl; [by rewrite length_insert..|done]|].
  split; [|done]. split; intros j Hj; simpl; by rewrite list_lookup_insert_ne by lia.
Qed.

Lemma reset_levels_ok n w : shape w -> (n <= 5)%nat ->
  exists w', reset_levels n w = Ok w' /\ level w' = level w /\ keeps n w w'.
Proof.
  revert w. induction n as [|n IH]; intros w Hw Hn.
  - exists w. split_and!; [done..|by apply keeps_refl].
  - cbn [reset_levels]. destruct (set_slot_ok w n None 0 Hw ltac:(lia)) as (w1 & -> & L1 & K1 & _).
    rewrite outcome_bind_ok. destruct (IH w1 (proj1 K1) ltac:(lia)) as (w2 & -> & L2 & K2).
    exists w2. split_and!; [done|congruence|]. eapply keeps_trans; [|done|].
    + done.
    + destruct K2 as (S2 & [A1 A2] & K2). split; [done|]. split; [|done].
      split; intros i Hi; [apply A1|apply A2]; lia.
Qed.

Lemma reset_lower_ok k w : shape w -> (1 <= k <= 5)%nat ->
  exists w', reset_levels_lower_than (Z.of_nat k) w = Ok w' /\ level w' = level w /\
  keeps (k - 1) w w'.
Proof.
  intros Hw Hk. unfold reset_levels_lower_than.
  replace (Z.to_nat (Z.of_nat k - 1)) with (k - 1)%nat by lia. by apply reset_levels_ok; [|lia].
Qed.

(** *** Creating a walker *)
Lemma create_none virt n w : shape w -> (n <= 4)%nat ->
  exists w', create_levels cfg virt n None w st = Ok w' /\ level w' = level w /\ keeps n w w'.
Proof.
  revert w. induction n as [|n IH]; intros w Hw Hn.
  - exists w. split_and!; [done..|by apply keeps_refl].
  - cbn [create_levels]. rewrite outcome_bind_ok, virt_to_pt_index_eq, outcome_bind_ok by lia.
    replace (Z.of_nat (S n) - 1) with (Z.of_nat n) by lia.
    destruct (set_slot_ok w n None (pt_index virt (Z.of_nat (S n))) Hw ltac:(lia))
      as (w1 & -> & L1 & K1 & _). rewrite outcome_bind_ok.
    destruct (IH w1 (proj1 K1) ltac:(lia)) as (w2 & -> & L2 & K2).
    exists w2. split_and!; [done|congruence|]. eapply keeps_trans; [done|done|].
    destruct K2 as (S2 & [A1 A2] & K2). split; [done|]. split; [|done].
    split; intros i Hi; [apply A1|apply A2]; lia.
Qed.

Hypothesis Hcfg : cfg_ok cfg.
Hypothesis Hmap : direct_map_ok cfg st.

Lemma keeps_weaken k k' w w' : (k <= k')%nat -> keeps k w w' -> keeps k' w w'.
Proof.
  intros Hk (S2 & [A1 A2] & K2). split; [done|]. split; [|done].
  split; intros i Hi; [apply A1|apply A2]; lia.
Qed.

(** The entry of a level that the walk reads, and what it does with it. *)
Lemma pt_walk_S n t virt r : pt_walk cfg st (S n) t virt = Ok r ->
  exists e, pte_read (Some t) (pt_index virt (Z.of_nat (S n))) st = Ok e /\
  if (S n =? 1)%nat || stops cfg (Z.of_nat (S n)) e then True
  else pt_walk cfg st n (pte_to_phys e) virt = Ok r.
Proof.
  cbn [pt_walk]. intros H. bind_inv H e He. exists e. split; [done|]. by destruct (_ || _).
Qed.

Lemma create_levels_ok virt n : forall t w r, shape w -> (n <= 3)%nat ->
  tables w !! n = Some (Some t) -> indices w !! n = Some (pt_index virt (Z.of_nat (S n))) ->
  level w = Z.of_nat (S n) -> pt_walk cfg st (S n) t virt = Ok r ->
  exists w', create_levels cfg virt n (Some t) w st = Ok w' /\
  synced (S n) t virt w' /\ keeps n w w'.
Proof.
  induction n as [|n IH]; intros t w r Hw Hn Ht Hi Hl Hr;
    destruct (pt_walk_S _ _ _ _ Hr) as (e & He & Hrest).
  - exists w. split_and!; [done| |by apply keeps_refl]. cbn [synced]. split_and!; [done..|].
    exists e. done.
  - cbn [create_levels]. unfold get_index.
    replace (Z.of_nat (S n) + 1 - 1) with (Z.of_nat (S n)) by lia.
    rewrite (nth_entry_ok _ _ _ Hi), outcome_bind_ok, He, outcome_bind_ok.
    replace (Z.of_nat (S n) + 1) with (Z.of_nat (S (S n))) by lia.
    replace (Z.of_nat (S n) - 1) with (Z.of_nat n) by lia.
    rewrite (can_have_large_ok cfg _ Hcfg) by lia.
    assert ((S (S n) =? 1)%nat = false) as E1 by done.
    rewrite E1 in Hrest. simpl orb in Hrest. unfold stops in Hrest.
    assert (forall w1, shape w1 -> level w1 = Z.of_nat (S (S n)) -> keeps (S n) w w1 ->
      stops cfg (Z.of_nat (S (S n))) e = true ->
      exists w', (i ← virt_to_pt_index virt (Z.of_nat (S n));
        w ← set_slot (Z.of_nat n) None i w1; create_levels cfg virt n None w st) = Ok w' /\
      synced (S (S n)) t virt w' /\ keeps (S n) w w') as Hstop.
    { intros w1 Hw1 Hl1 K1 Hs. rewrite virt_to_pt_index_eq, outcome_bind_ok by lia.
      destruct (set_slot_ok w1 n None (pt_index virt (Z.of_nat (S n))) Hw1 ltac:(lia))
        as (w2 & -> & L2 & K2 & _). rewrite outcome_bind_ok.
      destruct (create_none virt n w2 (proj1 K2) ltac:(lia)) as (w3 & -> & L3 & K3).
      exists w3. assert (keeps (S n) w w3) as K.
      { eapply keeps_trans; [done|done|]. eapply keeps_trans; [done|done|].
        apply (keeps_weaken n); [lia|done]. }
      split_and!; [done| |done]. destruct K as (_ & [A1 A2] & _).
      cbn [synced]. rewrite A1, A2 by lia. split_and!; [done..|]. exists e. split; [done|].
      rewrite Hs, orb_true_r. congruence. }
    destruct (pte_is_present e) eqn:Hp; cbn [negb].
    + rewrite outcome_bind_ok. destruct (can_large cfg (Z.of_nat (S (S n))) && pte_is_large e) eqn:Hlg.
      * assert (negb (can_large cfg (Z.of_nat (S (S n)))) || negb (pte_is_large e) = false) as ->
          by (by rewrite <- negb_andb, Hlg). rewrite outcome_bind_ok.
        apply Hstop; [done|done|by apply keeps_level, keeps_refl|]. unfold stops. by rewrite Hp, Hlg.
      * assert (negb (can_large cfg (Z.of_nat (S (S n)))) || negb (pte_is_large e) = true) as ->
          by (by rewrite <- negb_andb, Hlg). cbn [negb orb] in Hrest.
        unfold pte_to_virt.
        rewrite (pt_walk_mapped cfg st _ _ _ _ Hmap (pte_to_phys_u e) Hrest), !outcome_bind_ok.
        rewrite virt_to_pt_index_eq, outcome_bind_ok by lia.
        destruct (set_slot_ok (with_level (Z.of_nat (S n)) w) n (Some (pte_to_phys e))
          (pt_index virt (Z.of_nat (S n)))) as (w2 & -> & L2 & K2 & T2 & I2); [done|lia|].
        rewrite outcome_bind_ok.
        destruct (IH (pte_to_phys e) w2 r (proj1 K2)) as (w3 & -> & Hs3 & K3); [lia|done..|].
        assert (keeps (S n) w w3) as K.
        { eapply keeps_trans; [done|exact K2|]. apply (keeps_weaken n); [lia|done]. }
        exists w3. split_and!; [done| |done]. destruct K as (_ & [A1 A2] & _).
        cbn [synced]. rewrite A1, A2 by lia. split_and!; [done..|]. exists e. split; [done|].
        unfold stops. rewrite Hp, Hlg, E1. done.
    + rewrite outcome_bind_ok. apply Hstop; [done|done|by apply keeps_refl|].
      unfold stops. by rewrite Hp.
Qed.

(** *** Following the first entries down *)
Lemma setup_levels_ok virt n : forall e w r, shape w -> (n <= 4)%nat ->
  (forall j, 1 <= j <= Z.of_nat n -> pt_index virt j = 0) ->
  pt_walk cfg st n (pte_to_phys e) virt = Ok r ->
  exists w', setup_levels cfg n e w st = Ok w' /\
  synced n (pte_to_phys e) virt w' /\ keeps n w w'.
Proof.
  induction n as [|n IH]; intros e w r Hw Hn Hz Hr; [done|].
  destruct (pt_walk_S _ _ _ _ Hr) as (e' & He & Hrest). cbn [setup_levels].
  unfold pte_to_virt. rewrite (pt_walk_mapped cfg st _ _ _ _ Hmap (pte_to_phys_u e) Hr), outcome_bind_ok.
  replace (Z.of_nat (S n) - 1) with (Z.of_nat n) by lia.
  destruct (set_slot_ok w n (Some (pte_to_phys e)) 0 Hw ltac:(lia)) as (w1 & -> & L1 & K1 & T1 & I1).
  rewrite Hz in He by lia. rewrite outcome_bind_ok, He, outcome_bind_ok.
  assert (forall w2, level w2 = Z.of_nat (S n) -> keeps n w1 w2 ->
    (S n =? 1)%nat || stops cfg (Z.of_nat (S n)) e' = true ->
    synced (S n) (pte_to_phys e) virt w2 /\ keeps (S n) w w2) as Hstop.
  { intros w2 L2 K2 Hs. split; [|eapply keeps_trans; [done|done|by apply (keeps_weaken n); [lia|]]].
    destruct K2 as (_ & [A1 A2] & _). cbn [synced]. rewrite A1, A2, Hz by lia.
    split_and!; [done..|]. exists e'. rewrite Hs. done. }
  rewrite (can_have_large_ok cfg _ Hcfg) by lia.
  destruct (pte_is_present e') eqn:Hp; cbn [negb].
  - rewrite outcome_bind_ok. unfold stops in *. rewrite Hp in *. simpl negb in *. simpl orb in *.
    destruct (can_large cfg (Z.of_nat (S n)) && pte_is_large e') eqn:Hlg.
    + eexists. split; [done|]. apply Hstop; [done|by apply keeps_level, keeps_refl, K1|].
      by rewrite orb_true_r.
    + destruct n as [|n].
      * cbn [setup_levels]. eexists. split; [done|].
        apply Hstop; [done|by apply keeps_level, keeps_refl, K1|done].
      * cbn [Nat.eqb orb negb] in Hrest. destruct (IH e' w1 r (proj1 K1)) as (w2 & -> & S2 & K2);
          [lia|intros; apply Hz; lia|done|].
        exists w2. split; [done|].
        split; [|eapply keeps_trans; [done|done|by apply (keeps_weaken (S n)); [lia|]]].
        destruct K2 as (_ & [A1 A2] & _).
        change (synced (S (S n)) (pte_to_phys e) virt w2) with
          (tables w2 !! S n = Some (Some (pte_to_phys e)) /\
           indices w2 !! S n = Some (pt_index virt (Z.of_nat (S (S n)))) /\
           exists e0, pte_read (Some (pte_to_phys e)) (pt_index virt (Z.of_nat (S (S n)))) st = Ok e0 /\
           if (S (S n) =? 1)%nat || stops cfg (Z.of_nat (S (S n))) e0
           then level w2 = Z.of_nat (S (S n)) else synced (S n) (pte_to_phys e0) virt w2).
        rewrite A1, A2, Hz by lia. split_and!; [done..|]. exists e'. split; [done|].
        unfold stops. rewrite Hp, Hlg. done.
  - eexists. split; [done|]. apply Hstop; [done|by apply keeps_level, keeps_refl, K1|].
    unfold stops. rewrite Hp. by rewrite orb_true_r.
Qed.

(** *** Moving to the next entry *)
Lemma path_walk n t virt k w tk : path n t virt k w tk ->
  pt_walk cfg st n t virt = pt_walk cfg st k tk virt.
Proof.
  revert t. induction n as [|n IH]; intros t Hp; [done|].
  cbn [path] in Hp. destruct Hp as [H1 H2].
  destruct (Nat.eqb_spec (S n) k) as [<-|]; [by subst|].
  destruct H2 as (H2 & e & H3 & H4 & H5). cbn [pt_walk].
  rewrite H3, outcome_bind_ok, H4. by apply IH.
Qed.

Lemma synced_at n t virt w e : tables w !! n = Some (Some t) ->
  indices w !! n = Some (pt_index virt (Z.of_nat (S n))) ->
  pte_read (Some t) (pt_index virt (Z.of_nat (S n))) st = Ok e ->
  (S n =? 1)%nat || stops cfg (Z.of_nat (S n)) e = true -> level w = Z.of_nat (S n) ->
  synced (S n) t virt w.
Proof. intros. cbn [synced]. split_and!; [done..|]. exists e. rewrite H2. done. Qed.

Lemma synced_below n t virt w e : tables w !! n = Some (Some t) ->
  indices w !! n = Some (pt_index virt (Z.of_nat (S n))) ->
  pte_read (Some t) (pt_index virt (Z.of_nat (S n))) st = Ok e ->
  (S n =? 1)%nat || stops cfg (Z.of_nat (S n)) e = false -> synced n (pte_to_phys e) virt w ->
  synced (S n) t virt w.
Proof. intros. cbn [synced]. split_and!; [done..|]. exists e. rewrite H2. done. Qed.

Lemma read_at_ok n t virt w : tables w !! n = Some (Some t) ->
  indices w !! n = Some (pt_index virt (Z.of_nat (S n))) ->
  read_at (Z.of_nat (S n)) w st = pte_read (Some t) (pt_index virt (Z.of_nat (S n))) st.
Proof.
  intros Ht Hi. unfold read_at, get_table, get_index.
  replace (Z.of_nat (S n) - 1) with (Z.of_nat n) by lia.
  by rewrite (nth_entry_ok _ _ _ Ht), (nth_entry_ok _ _ _ Hi).
Qed.

Lemma enter_present_ok virt n e t w r : shape w -> (1 <= n <= 3)%nat ->
  tables w !! n = Some (Some t) -> indices w !! n = Some (pt_index virt (Z.of_nat (S n))) ->
  (forall j, 1 <= j <= Z.of_nat n -> pt_index virt j = 0) ->
  pte_read (Some t) (pt_index virt (Z.of_nat (S n))) st = Ok e -> pte_is_present e = true ->
  pt_walk cfg st (S n) t virt = Ok r ->
  exists w', enter_present cfg (Z.of_nat (S n)) e w st = Ok w' /\
  synced (S n) t virt w' /\ keeps n w w'.
Proof.
  intros Hw Hn Ht Hi Hz He Hp Hr. destruct (pt_walk_S _ _ _ _ Hr) as (e' & He' & Hrest).
  assert (e' = e) as -> by congruence. unfold enter_present, setup_levels_lower_than.
  rewrite (can_have_large_ok cfg _ Hcfg), outcome_bind_ok by lia.
  replace (Z.to_nat (Z.of_nat (S n) - 1)) with n by lia.
  assert ((S n =? 1)%nat = false) as E1 by (apply Nat.eqb_neq; lia).
  rewrite E1 in Hrest. cbn [orb] in Hrest.
  assert (stops cfg (Z.of_nat (S n)) e = can_large cfg (Z.of_nat (S n)) && pte_is_large e) as Es
    by (unfold stops; by rewrite Hp).
  assert (stops cfg (Z.of_nat (S n)) e = false -> exists w',
    setup_levels cfg n e w st = Ok w' /\ synced (S n) t virt w' /\ keeps n w w') as Hdown.
  { intros Hs. rewrite Hs in Hrest.
    destruct (setup_levels_ok virt n e w r Hw ltac:(lia) Hz Hrest) as (w' & H1 & H2 & H3).
    exists w'. split_and!; [done| |done]. destruct H3 as (_ & [A1 A2] & _).
    eapply synced_below; [by rewrite A1 by lia|by rewrite A2 by lia|done| |done].
    by rewrite E1, Hs. }
  destruct (can_large cfg (Z.of_nat (S n))) eqn:Hlg; cbn [negb]; [|apply Hdown; by rewrite Es].
  destruct (pte_is_large e) eqn:Hle; [|apply Hdown; by rewrite Es].
  destruct (reset_lower_ok (S n) w Hw ltac:(lia)) as (w1 & -> & L1 & K1).
  rewrite outcome_bind_ok. replace (S n - 1)%nat with n in K1 by lia.
  eexists. split; [done|]. split; [|by apply keeps_level].
  destruct K1 as (_ & [A1 A2] & _). apply (synced_at _ _ _ _ e); simpl;
    [by rewrite A1 by lia|by rewrite A2 by lia|done|by rewrite Es, orb_true_r|done].
Qed.

(** What a move to [virt] answers, before any allocation. *)
Definition moved (t virt : Z) (res : pt_walker_result + Z) w : Prop :=
  shape w /\
  match res with
  | inl E_PT_WALKER_OK => synced 4 t virt w
  | inr l => synced 4 t virt (with_level l w)
  | inl _ => False
  end.

(** The end of both branches of [ptwalker_next_with_options]: the slot of
    level [S n] has been moved to [virt]. *)
Lemma arrive_ok virt n t tk w r : shape w -> (1 <= n <= 3)%nat ->
  path 4 t virt (S n) w tk -> indices w !! n = Some (pt_index virt (Z.of_nat (S n))) ->
  (forall j, 1 <= j <= Z.of_nat n -> pt_index virt j = 0) ->
  pt_walk cfg st 4 t virt = Ok r ->
  exists e, read_at (Z.of_nat (S n)) w st = Ok e /\
  if pte_is_present e
  then exists w', enter_present cfg (Z.of_nat (S n)) e w st = Ok w' /\
       moved t virt (inl E_PT_WALKER_OK) w'
  else exists w', reset_levels_lower_than (Z.of_nat (S n)) w = Ok w' /\
       level w' = level w /\ moved t virt (inr (Z.of_nat (S n))) w'.
Proof.
  intros Hw Hn Hp Hi Hz Hr. pose proof (path_table _ _ _ _ _ _ Hp ltac:(lia)) as Ht.
  replace (S n - 1)%nat with n in Ht by lia.
  rewrite (path_walk _ _ _ _ _ _ Hp) in Hr.
  destruct (pt_walk_S _ _ _ _ Hr) as (e & He & _).
  exists e. rewrite (read_at_ok n tk virt w Ht Hi). split; [done|].
  assert (forall w', keeps n w w' -> synced (S n) tk virt w' -> synced 4 t virt w') as Hsync.
  { intros w' (_ & [A1 A2] & _) Hs. apply (path_synced _ _ _ (S n) w' tk); [|done].
    eapply path_agree; [done|done| |]; intros; [apply A1|apply A2]; lia. }
  destruct (pte_is_present e) eqn:Hpr.
  - destruct (enter_present_ok virt n e tk w r Hw Hn Ht Hi Hz He Hpr Hr) as (w' & -> & Hs & K).
    exists w'. split; [done|]. split; [apply K|]. by apply Hsync.
  - destruct (reset_lower_ok (S n) w Hw ltac:(lia)) as (w1 & -> & L1 & K1).
    replace (S n - 1)%nat with n in K1 by lia.
    exists w1. split_and!; [done..|]. split; [apply K1|].
    apply Hsync; [by apply keeps_level|]. destruct K1 as (_ & [A1 A2] & _).
    apply (synced_at _ _ _ _ e); simpl; [by rewrite A1 by lia|by rewrite A2 by lia|done| |done].
    unfold stops. by rewrite Hpr, orb_true_r.
Qed.

Lemma u16_index virt (n : Z) : u16 (pt_index virt n + 1) = pt_index virt n + 1.
Proof. apply wrap_small. pose proof (pt_index_bounds virt n). unfold_ints. lia. Qed.

Lemma next_climb_ok t virt : 0 <= virt < 2 ^ 48 -> forall fuel k w tk, shape w ->
  path 4 t virt k w tk -> (1 <= k <= 4)%nat -> (4 - k < fuel)%nat ->
  pt_index virt (Z.of_nat k) = 511 ->
  let virt' := next_virt (Z.of_nat k) virt in
  if virt' <? 2 ^ 48 then
    forall r, pt_walk cfg st 4 t virt' = Ok r ->
    exists res w', next_climb cfg fuel (Z.of_nat k) w st = Ok (res, w') /\ moved t virt' res w'
  else exists w', next_climb cfg fuel (Z.of_nat k) w st = Ok (inl E_PT_WALKER_REACHED_END, w') /\
       level w' = PTWALKER_DONE.
Proof.
  intros Hv. induction fuel as [|fuel IH]; intros k w tk Hw Hp Hk Hf Hc; [lia|].
  intros virt'. cbn [next_climb]. replace (Z.of_nat k + 1) with (Z.of_nat (S k)) by lia.
  pose proof Hw as (Hlt & Hli & Htop). rewrite Htop.
  destruct (decide (k = 4%nat)) as [->|Hk4].
  - assert (virt' = 2 ^ 48) as ->.
    { unfold virt'. rewrite next_virt_carry by (done || lia). unfold next_virt.
      change (Z.of_nat 4 + 1) with 5. change (level_size 5) with (2 ^ 48).
      rewrite Z.div_small by lia. done. }
    change (2 ^ 48 <? 2 ^ 48) with false. change (Z.of_nat 5 >? 4) with true. cbv beta iota.
    change (Z.of_nat 5 - 1) with (Z.of_nat 4).
    destruct (set_index_ok w 4 0 Hw ltac:(lia)) as (w1 & -> & _ & _ & _ & K1 & _).
    rewrite outcome_bind_ok.
    destruct (reset_lower_ok 5 (with_level PTWALKER_DONE w1) (proj1 K1) ltac:(lia))
      as (w2 & -> & L2 & _). eexists. split; [done|]. done.
  - assert ((Z.of_nat (S k) >? 4) = false) as -> by (rewrite Z.gtb_ltb; apply Z.ltb_ge; lia).
    destruct (path_up _ _ _ _ _ _ Hp ltac:(lia)) as (tk' & Hp' & Hi' & _).
    replace (Z.of_nat (S k) - 1) with (Z.of_nat k) by lia.
    unfold get_index at 1 2. rewrite (nth_entry_ok _ _ _ Hi'), !outcome_bind_ok, u16_index.
    destruct (set_index_ok w k (pt_index virt (Z.of_nat (S k)) + 1) Hw ltac:(lia))
      as (w1 & -> & T1 & I1 & L1 & K1 & G1). rewrite !outcome_bind_ok.
    assert (virt' = next_virt (Z.of_nat (S k)) virt) as Ev.
    { unfold virt'. rewrite next_virt_carry by (done || lia). f_equal. lia. }
    assert (path 4 t virt (S k) w1 tk') as Hp1.
    { eapply path_agree; [done|done| |]; intros i Hi; [by rewrite T1|].
      destruct K1 as (_ & [_ A2] & _). apply A2. lia. }
    destruct (Z.eqb_spec (pt_index virt (Z.of_nat (S k)) + 1) PGT_PTE_COUNT) as [Ec|Ec];
      unfold PGT_PTE_COUNT in Ec.
    + specialize (IH (S k) w1 tk' (proj1 K1) Hp1 ltac:(lia) ltac:(lia) ltac:(lia)).
      cbv zeta in IH. by rewrite <- Ev in IH.
    + assert (pt_index virt (Z.of_nat (S k)) <> 511) as Hne by lia.
      pose proof (pt_index_next_same _ virt (ltac:(lia) : 0 <= Z.of_nat (S k)) Hne) as Esame.
      pose proof (next_virt_end (Z.of_nat (S k)) virt ltac:(lia) Hv Hne) as Hend.
      rewrite <- Ev in Esame, Hend. rewrite (proj2 (Z.ltb_lt _ _)) by done. intros r Hr.
      destruct (arrive_ok virt' k t tk' w1 r (proj1 K1)) as (e & -> & Harr);
        [lia| | | |done|].
      * eapply path_agree; [done| |done..]. intros j Hj. rewrite Ev.
        apply pt_index_next_above; lia.
      * by rewrite Esame.
      * intros j Hj. rewrite Ev. apply pt_index_next_below; lia.
      * rewrite outcome_bind_ok. destruct (pte_is_present e); cbn [negb].
        -- destruct Harr as (w2 & -> & Hm). rewrite outcome_bind_ok. eauto.
        -- destruct Harr as (w2 & -> & _ & Hm). rewrite outcome_bind_ok. eauto.
Qed.

Lemma next_ok t virt w sr ai fi al : 0 <= virt < 2 ^ 48 -> shape w -> synced 4 t virt w ->
  let virt' := next_virt (level w) virt in
  if virt' <? 2 ^ 48 then
    forall r, pt_walk cfg st 4 t virt' = Ok r ->
    exists w', ptwalker_next_with_options cfg w (level w) false al sr ai fi st =
      Ok (E_PT_WALKER_OK, w', st) /\ shape w' /\ synced 4 t virt' w'
  else exists w', ptwalker_next_with_options cfg w (level w) false al sr ai fi st =
      Ok (E_PT_WALKER_REACHED_END, w', st) /\ level w' = PTWALKER_DONE.
Proof.
  intros Hv Hw Hs virt'. pose proof Hw as (_ & _ & Htop).
  destruct (synced_path _ _ _ _ Hs) as (k & tk & Hl & Hk & Hp & Hi & _).
  unfold virt'. rewrite Hl in *. clear virt'. destruct k as [|k]; [lia|].
  replace (S k - 1)%nat with k in Hi by lia. set (virt' := next_virt (Z.of_nat (S k)) virt).
  unfold ptwalker_next_with_options. rewrite Hl, Htop.
  assert ((Z.of_nat (S k) >? Z.of_nat (S k)) || (Z.of_nat (S k) >? 4) = false) as ->.
  { rewrite !Z.gtb_ltb. rewrite Z.ltb_irrefl. simpl. apply Z.ltb_ge. lia. }
  replace (Z.of_nat (S k) - 1) with (Z.of_nat k) by lia.
  unfold get_index at 1 2. rewrite (nth_entry_ok _ _ _ Hi), !outcome_bind_ok, u16_index.
  destruct (set_index_ok w k (pt_index virt (Z.of_nat (S k)) + 1) Hw ltac:(lia))
    as (w1 & -> & T1 & I1 & L1 & K1 & G1). rewrite !outcome_bind_ok.
  assert (path 4 t virt (S k) w1 tk) as Hp1.
  { eapply path_agree; [done|done| |]; intros i Hi'; [by rewrite T1|].
    destruct K1 as (_ & [_ A2] & _). apply A2. lia. }
  destruct (decide (pt_index virt (Z.of_nat (S k)) = 511)) as [E|Hne].
  - rewrite E. simpl (511 + 1 <? _). cbv iota.
    pose proof (next_climb_ok t virt Hv 6 (S k) w1 tk (proj1 K1) Hp1 ltac:(lia) ltac:(lia) E) as H.
    cbv zeta in H. fold virt' in H. destruct (virt' <? 2 ^ 48).
    + intros r Hr. destruct (H r Hr) as (res & w2 & -> & Hsh & Hm). rewrite outcome_bind_ok.
      destruct res as [[]|l]; try done; eexists; (split; [done|]); done.
    + destruct H as (w2 & -> & L2). rewrite outcome_bind_ok. eauto.
  - pose proof (pt_index_bounds virt (Z.of_nat (S k))).
    pose proof (pt_index_next_same _ virt (ltac:(lia) : 0 <= Z.of_nat (S k)) Hne) as Esame.
    pose proof (next_virt_end (Z.of_nat (S k)) virt ltac:(lia) Hv Hne) as Hend.
    fold virt' in Esame, Hend. rewrite (proj2 (Z.ltb_lt virt' _)) by done. intros r Hr.
    unfold PGT_PTE_COUNT. rewrite (proj2 (Z.ltb_lt _ 512)) by lia.
    assert (path 4 t virt' (S k) w1 tk) as Hp2.
    { eapply path_agree; [done| |done..]. intros j Hj. apply pt_index_next_above; lia. }
    destruct (Z.eqb_spec (Z.of_nat (S k)) 1) as [E1|E1].
    + assert (k = 0%nat) as -> by lia. eexists. split; [done|]. split; [apply K1|].
      apply (path_synced _ _ _ 1 _ tk); [done|].
      rewrite (path_walk _ _ _ _ _ _ Hp2) in Hr.
      destruct (pt_walk_S _ _ _ _ Hr) as (e & He & _).
      apply (synced_at 0 _ _ _ e); [|by rewrite Esame|done|done|congruence].
      by apply (path_table _ _ _ _ _ _ Hp2).
    + destruct (arrive_ok virt' k t tk w1 r (proj1 K1)) as (e & -> & Harr);
        [lia|done|by rewrite Esame| |done|].
      * intros j Hj. apply pt_index_next_below; lia.
      * rewrite outcome_bind_ok. destruct (pte_is_present e); cbn [negb].
        -- destruct Harr as (w2 & -> & Hsh & Hm). rewrite outcome_bind_ok. eauto.
        -- destruct Harr as (w2 & -> & L2 & Hsh & Hm). rewrite outcome_bind_ok.
           eexists. split; [done|]. split; [done|].
           assert (with_level (Z.of_nat (S k)) w2 = w2) as <-; [|done].
           destruct w2. unfold with_level. simpl in *. f_equal. congruence.
Qed.
End walker_inv.

(** ** Creating a walker and reading its address *)
Section walker_create.
Context {C : Type} (cfg : paging) (st : mm).
Implicit Types (w : pt_walker C) (n : nat).
Hypothesis Hcfg : cfg_ok cfg.
Hypothesis Hmap : direct_map_ok cfg st.

Lemma synced_ext n t virt w w' : synced cfg st n t virt w -> level w' = level w ->
  (forall i, (i < n)%nat -> tables w' !! i = tables w !! i /\ indices w' !! i = indices w !! i) ->
  synced cfg st n t virt w'.
Proof.
  revert t. induction n as [|n IH]; intros t Hs Hl Ha; [done|]. cbn [synced] in *.
  destruct Hs as (H1 & H2 & e & H3 & H4). destruct (Ha n ltac:(lia)) as [-> ->].
  split_and!; [done..|]. exists e. split; [done|]. destruct (_ || _); [congruence|].
  apply IH; [done..|]. intros i Hi. apply Ha. lia.
Qed.

Lemma synced_level n t virt w l e : synced cfg st n t virt w ->
  pt_walk cfg st n t virt = Ok (l, e) ->
  level w = l /\ read_at l w st = Ok e.
Proof.
  revert t. induction n as [|n IH]; intros t Hs Hr; [done|].
  pose proof Hs as (H1 & H2 & e' & H3 & H4). cbn [pt_walk] in Hr.
  rewrite H3, outcome_bind_ok in Hr. destruct (_ || _); [|by eapply IH].
  injection Hr as <- <-. split; [done|]. by rewrite (read_at_ok st n t virt w H1 H2).
Qed.

Lemma synced_indices n t virt w : synced cfg st n t virt w -> forall k : nat,
  level w <= Z.of_nat k -> (1 <= k <= n)%nat ->
  indices w !! (k - 1)%nat = Some (pt_index virt (Z.of_nat k)).
Proof.
  revert t. induction n as [|n IH]; intros t Hs k Hl Hk; [lia|].
  destruct Hs as (H1 & H2 & e' & H3 & H4). destruct (decide (k = S n)) as [->|].
  - by replace (S n - 1)%nat with n by lia.
  - destruct (_ || _); [lia|]. eapply IH; [done|done|lia].
Qed.

Lemma has_align_page (n : Z) : in_u 64 n -> has_align n PAGE_SIZE = Ok (n `mod` PAGE_SIZE =? 0).
Proof. apply (has_align_eq n 12). lia. Qed.

Lemma clear_above_ok w : shape w ->
  exists w', clear_above 5 4 w = Ok w' /\ level w' = level w /\ shape w' /\
  forall i, (i < 4)%nat -> tables w' !! i = tables w !! i /\ indices w' !! i = indices w !! i.
Proof.
  intros (Ht & Hi & Htop). destruct w as [ts ixs lv tp al fr]. simpl in *.
  unfold set_slot, set_table, set_index. simpl. unfold set_entry. rewrite Ht. simpl. rewrite Hi.
  simpl. eexists. split; [done|]. simpl. split_and!; [done|..].
  - split_and!; simpl; [by rewrite length_insert..|done].
  - intros i Hi'. by rewrite !list_lookup_insert_ne by lia.
Qed.

Lemma create_ok pm virt al fr l e : in_u 64 (root pm) -> root pm `mod` PAGE_SIZE = 0 ->
  in_u 64 virt -> virt `mod` PAGE_SIZE = 0 ->
  pt_walk cfg st 4 (root pm) virt = Ok (l, e) ->
  exists w : pt_walker C, ptwalker_create_for_pagemap cfg pm virt al fr st = Ok w /\
  shape w /\ synced cfg st 4 (root pm) virt w.
Proof.
  intros Hru Hra Hvu Hva Hr. unfold ptwalker_create_for_pagemap, get_root_phys.
  rewrite !has_align_page, Hra, Hva by done. rewrite !outcome_bind_ok. simpl c_assert.
  rewrite !outcome_bind_ok. unfold pgt_get_top_level. rewrite (proj1 Hcfg).
  rewrite (pt_walk_mapped cfg st 4 _ _ _ Hmap Hru Hr), outcome_bind_ok.
  rewrite virt_to_pt_index_eq, outcome_bind_ok by lia.
  set (w0 := Build_pt_walker _ _ _ _ _ _). change (4 - 1) with (Z.of_nat 3).
  destruct (set_slot_ok w0 3 (Some (root pm)) (pt_index virt 4)) as (w1 & -> & L1 & K1 & T1 & I1);
    [done|lia|]. rewrite outcome_bind_ok. change (Z.to_nat (Z.of_nat 3)) with 3%nat.
  destruct (create_levels_ok cfg st Hcfg Hmap virt 3 (root pm) w1 (l, e) (proj1 K1))
    as (w2 & -> & S2 & K2); [lia|done..|]. rewrite outcome_bind_ok.
  destruct (clear_above_ok w2 (proj1 K2)) as (w3 & -> & L3 & S3 & A3).
  exists w3. split_and!; [done..|]. by apply (synced_ext 4 _ _ w2).
Qed.

(** The address in the slots from the current level up. *)
Lemma lor_shift a b k : 0 <= k -> 0 <= a < 2 ^ k -> Z.lor a (Z.shiftl b k) = a + b * 2 ^ k.
Proof.
  intros Hk Ha. rewrite Z.shiftl_mul_pow2 by lia. symmetry.
  rewrite <- Z.lxor_lor.
  - apply Z.add_nocarry_lxor. by apply land_low_high.
  - by apply land_low_high.
Qed.

Lemma virt_addr_from_ok virt w : shape w -> forall fuel k r,
  (5 - k <= fuel)%nat -> (1 <= k <= 5)%nat ->
  (forall j : nat, (k <= j <= 4)%nat ->
     indices w !! (j - 1)%nat = Some (pt_index virt (Z.of_nat j))) ->
  0 <= r < level_size (Z.of_nat k) ->
  virt_addr_from fuel (Z.of_nat k) w r =
    Ok (r + (virt `mod` 2 ^ 48) / level_size (Z.of_nat k) * level_size (Z.of_nat k)).
Proof.
  intros (Hlt & Hli & Htop). induction fuel as [|fuel IH]; intros k r Hf Hk Hi Hr.
  - assert (k = 5%nat) as -> by lia. cbn [virt_addr_from]. rewrite Htop.
    change (Z.of_nat 5 <=? 4) with false. cbv iota. change (level_size (Z.of_nat 5)) with (2 ^ 48).
    rewrite Z.div_small by (apply Z.mod_pos_bound; lia). f_equal. lia.
  - cbn [virt_addr_from]. rewrite Htop. destruct (Z.leb_spec (Z.of_nat k) 4) as [Hk4|Hk4].
    + unfold get_index. replace (Z.of_nat k - 1) with (Z.of_nat (k - 1)) by lia.
      rewrite (nth_entry_ok _ _ _ (Hi k ltac:(lia))), outcome_bind_ok.
      rewrite mask_entry, outcome_bind_ok by lia.
      replace (Z.of_nat (k - 1)) with (Z.of_nat k - 1) by lia.
      rewrite shift_entry, outcome_bind_ok by lia.
      pose proof (pt_index_bounds virt (Z.of_nat k)) as Hb.
      rewrite land_511, Z.mod_small by done.
      pose proof (level_size_pos (Z.of_nat k) ltac:(lia)) as Hpos.
      assert (level_size (Z.of_nat k) * 512 <= 2 ^ 48) as Hle.
      { rewrite Z.mul_comm, <- level_size_succ by lia. apply pow2_le. unfold level_shift. lia. }
      rewrite wrap_small.
      2:{ rewrite Z.shiftl_mul_pow2 by (unfold level_shift; lia).
          fold (level_size (Z.of_nat k)). unfold_ints. nia. }
      rewrite lor_shift by (unfold level_size, level_shift in *; lia).
      fold (level_size (Z.of_nat k)). replace (Z.of_nat k + 1) with (Z.of_nat (S k)) by lia.
      rewrite IH; [|lia|lia|intros j Hj; apply Hi; lia|].
      * f_equal. rewrite <- Z.add_assoc. f_equal. rewrite Nat2Z.inj_succ. unfold Z.succ.
        rewrite div_level_succ, level_size_succ by lia. unfold pt_index.
        rewrite <- (mod_div_index virt (Z.of_nat k)) by lia.
        set (q := virt `mod` 2 ^ 48 / level_size (Z.of_nat k)).
        pose proof (Z.div_mod q 512 ltac:(lia)). nia.
      * rewrite Nat2Z.inj_succ. unfold Z.succ. rewrite level_size_succ by lia. nia.
    + assert (k = 5%nat) as -> by lia. change (level_size (Z.of_nat 5)) with (2 ^ 48).
      rewrite Z.div_small by (apply Z.mod_pos_bound; lia). f_equal. lia.
Qed.

Lemma get_virt_addr_ok t virt w : shape w -> synced cfg st 4 t virt w ->
  ptwalker_get_virt_addr w =
    Ok ((virt `mod` 2 ^ 48) / level_size (level w) * level_size (level w)).
Proof.
  intros Hw Hs. destruct (synced_path _ _ _ _ _ _ Hs) as (k & tk & Hl & Hk & _).
  unfold ptwalker_get_virt_addr. rewrite Hl. rewrite wrap_small by (unfold_ints; lia).
  rewrite virt_addr_from_ok with (virt := virt); [done|done|lia|lia| |].
  - intros j Hj. apply (synced_indices _ _ _ _ Hs); lia.
  - pose proof (level_size_pos (Z.of_nat k) ltac:(lia)). lia.
Qed.
End walker_create.
