(* ===== verification/WalkerThms.v ===== *)
(** * What the page-table walker guarantees

    Properties of Walker.v, with 4-level paging unless they say otherwise. *)
From S2P Require Import Prelude CArith Range PageAlloc Walker WalkerInv.

(** ** Lemmas *)
Lemma mask_bits k : 0 < k < 64 -> mask_for_n_bits k = Z.ones k.
Proof.
  intros Hk. unfold mask_for_n_bits. rewrite (proj2 (Z.eqb_neq k 64)) by lia.
  rewrite Z.shiftr_div_pow2 by lia. change UINT64_MAX with (Z.ones 64).
  rewrite Z.ones_div_pow2 by lia. f_equal. lia.
Qed.

Lemma create_unaligned {C} cfg pm virt (al : option (ptwalker_alloc_pgtable_t C)) fr st :
  in_u 64 (root pm) -> root pm `mod` PAGE_SIZE = 0 -> in_u 64 virt -> virt `mod` PAGE_SIZE <> 0 ->
  ptwalker_create_for_pagemap cfg pm virt al fr st = Panic.
Proof.
  intros Hru Hra Hvu Hva. unfold ptwalker_create_for_pagemap, get_root_phys.
  rewrite !has_align_page, Hra by done. rewrite !outcome_bind_ok. simpl c_assert.
  rewrite !outcome_bind_ok, (proj2 (Z.eqb_neq _ 0)) by done. done.
Qed.

(** The answer of [ptwalker_virt_get_phys] for an aligned address. *)
Lemma virt_get_phys_eq lock cfg pm virt st r : cfg_ok cfg -> direct_map_ok cfg st ->
  in_u 64 (root pm) -> root pm `mod` PAGE_SIZE = 0 -> in_u 64 virt -> virt `mod` PAGE_SIZE = 0 ->
  pt_translate cfg st (root pm) virt = Ok r ->
  ptwalker_virt_get_phys lock cfg pm virt st = Ok (default INVALID_PHYS r).
Proof.
  intros Hcfg Hmap Hru Hra Hvu Hva Hr. unfold pt_translate in Hr. bind_inv Hr res Hwalk. destruct res as [l e].
  injection Hr as <-. pose proof (pt_walk_level _ _ _ _ _ _ _ Hwalk) as Hl.
  unfold ptwalker_virt_get_phys, ptwalker_default_for_pagemap.
  destruct (create_ok (C := unit) cfg st Hcfg Hmap pm virt (Some (ptwalker_alloc_pgtable_cb lock))
    (Some ptwalker_free_pgtable_cb) l e Hru Hra Hvu Hva Hwalk) as (w & -> & Hw & Hs).
  destruct (synced_level _ _ _ _ _ _ _ _ Hs Hwalk) as [Hlw He]. rewrite outcome_bind_ok, Hlw, He.
  rewrite (can_have_large_ok cfg l Hcfg) by lia.
  assert (forall x, (shift ← nth_entry PAGE_SHIFTS (l - 1);
    Ok (u64 (pte_to_phys e + Z.land virt (mask_for_n_bits shift)))) = Ok x ->
    x = pte_to_phys e + virt `mod` level_size l) as Hoff.
  { intros x. rewrite shift_entry, outcome_bind_ok by lia.
    rewrite mask_bits, Z.land_ones by (unfold level_shift; lia). fold (level_size l).
    intros [= <-]. apply wrap_small. pose proof (pte_to_phys_bounds e).
    pose proof (level_size_pos l ltac:(lia)). pose proof (Z.mod_pos_bound virt (level_size l) ltac:(lia)).
    assert (level_size l <= 2 ^ 39) by (apply pow2_le; unfold level_shift; lia). unfold_ints. lia. }
  rewrite shift_entry, outcome_bind_ok in * by lia. specialize (Hoff _ eq_refl).
  rewrite Z.gtb_ltb. destruct (Z.ltb_spec 1 l) as [H1|H1].
  - rewrite !outcome_bind_ok, (proj2 (Z.eqb_neq l 1)) by lia. cbn [orb negb andb].
    destruct (can_large cfg l), (pte_is_present e), (pte_is_large e); cbn [orb negb andb default];
      by rewrite ?Hoff.
  - assert (l = 1) as -> by lia. rewrite !outcome_bind_ok. cbn [orb negb andb].
    destruct (pte_is_present e); cbn [orb negb andb default Z.eqb Pos.eqb]; by rewrite ?Hoff.
Qed.

(** ** A small address space, for the examples

    Sixteen pages from physical address 0x100000 on; page 0 holds the root. *)
Definition ex_cfg : paging :=
  {| has_5lvl_paging := false; HHDM_OFFSET := 0xffff800000000000;
     level_info := largepage_level_info_list |}.
Definition ex_sec : page_section :=
  {| sec_zone := 0; range_front := 0x100000; range_size := 0x10000; pfn := 0;
     freelist_list := []; min_order := 0; max_order := 0; total_free := 0 |}.
Definition ex_phys (p : Z) : Z := 0x100000 + 4096 * p.
Definition ex_entry (p : Z) : Z := Z.lor (ex_phys p) 3.
(** A table with the given entries. *)
Definition ex_frame (es : list (Z * Z)) : list Z :=
  foldr (fun e fr => <[Z.to_nat (fst e) := snd e]> fr) (replicate 512 0) es.
Definition ex_state (fs : list (Z * list (Z * Z))) : mm :=
  {| pages := ∅;
     frames := list_to_map (map (fun f => (fst f, ex_frame (snd f))) fs);
     sections := [ex_sec]; zones := []; page_end := 16 |}.

(** Addresses 0, 0x1000 and 0x200000 (a large page) are mapped. *)
Definition ex_tables : mm :=
  ex_state [(0, [(0, ex_entry 1)]); (1, [(0, ex_entry 2)]);
            (2, [(0, ex_entry 3); (1, 0x40000083)]); (3, [(0, ex_entry 9); (1, ex_entry 10)])].
Definition ex_pagemap : pagemap := {| root := ex_phys 0 |}.
Definition ex_lock : nat -> bool := fun _ => true.
Definition ex_walker (virt : Z) : outcome (pt_walker unit) :=
  ptwalker_create_for_pagemap ex_cfg ex_pagemap virt None None ex_tables.

Lemma ex_direct_map : direct_map_ok ex_cfg ex_tables.
Proof.
  split; [discriminate|]. intros phys p Hu.
  unfold ex_tables, ex_state, sections, find_pfn.
  destruct (range_has_loc (sec_range ex_sec) phys) eqn:E; [|discriminate]. intros _.
  rewrite range_has_loc_spec in E by (done || vm_compute; split_and!; congruence).
  apply bool_decide_eq_true in E. unfold in_range, sec_range, ex_sec in E. simpl in E.
  unfold HHDM_OFFSET, ex_cfg. lia.
Qed.

(** ** Properties *)

(** C12: [ptwalker_virt_get_phys] is the translation the tables define: for a
    page-aligned address whose tables are in memory it answers the physical
    address of the 4 KiB or large page that maps it, and INVALID_PHYS when
    none does; for any other address it fails an assertion. *)
Theorem virt_get_phys_translates lock cfg pm virt st : cfg_ok cfg -> direct_map_ok cfg st ->
  in_u 64 (root pm) -> root pm `mod` PAGE_SIZE = 0 -> in_u 64 virt ->
  if virt `mod` PAGE_SIZE =? 0 then
    forall r, pt_translate cfg st (root pm) virt = Ok r ->
    ptwalker_virt_get_phys lock cfg pm virt st = Ok (default INVALID_PHYS r)
  else ptwalker_virt_get_phys lock cfg pm virt st = Panic.
Proof.
  intros Hcfg Hmap Hru Hra Hvu. destruct (Z.eqb_spec (virt `mod` PAGE_SIZE) 0) as [Hva|Hva].
  - intros r. by apply virt_get_phys_eq.
  - unfold ptwalker_virt_get_phys, ptwalker_default_for_pagemap. by rewrite create_unaligned.
Qed.

Lemma virt_get_phys_translates_witness :
  if 0x200000 `mod` PAGE_SIZE =? 0 then
    forall r, pt_translate ex_cfg ex_tables (ex_phys 0) 0x200000 = Ok r ->
    ptwalker_virt_get_phys ex_lock ex_cfg ex_pagemap 0x200000 ex_tables = Ok (default INVALID_PHYS r)
  else ptwalker_virt_get_phys ex_lock ex_cfg ex_pagemap 0x200000 ex_tables = Panic.
Proof.
  apply (virt_get_phys_translates ex_lock ex_cfg ex_pagemap 0x200000 ex_tables).
  - split; reflexivity.
  - exact ex_direct_map.
  - split; [discriminate|reflexivity].
  - reflexivity.
  - split; [discriminate|reflexivity].
Defined.

(** The translation is not vacuous. *)
Example ex_translate : pt_translate ex_cfg ex_tables (ex_phys 0) 0x1000 = Ok (Some (ex_phys 10)) /\
  pt_translate ex_cfg ex_tables (ex_phys 0) 0x200000 = Ok (Some 0x40000000) /\
  pt_translate ex_cfg ex_tables (ex_phys 0) 0x400000 = Ok None.
Proof. by vm_compute. Qed.

(** a walker created for an address stands where the walk of that address
    ends: [ptwalker_get_virt_addr] gives back the low 48 bits of the address
    rounded down to the size of that level, and [ptwalker_points_to_largepage]
    tells whether a large page is there. *)
Theorem create_for_pagemap_spec {C} cfg pm virt (al : option (ptwalker_alloc_pgtable_t C)) fr
    st l e : cfg_ok cfg -> direct_map_ok cfg st ->
  in_u 64 (root pm) -> root pm `mod` PAGE_SIZE = 0 -> in_u 64 virt -> virt `mod` PAGE_SIZE = 0 ->
  pt_walk cfg st 4 (root pm) virt = Ok (l, e) ->
  exists w, ptwalker_create_for_pagemap cfg pm virt al fr st = Ok w /\
  shape w /\ synced cfg st 4 (root pm) virt w /\ level w = l /\
  ptwalker_get_virt_addr w = Ok (virt `mod` 2 ^ 48 / level_size l * level_size l) /\
  ptwalker_points_to_largepage cfg w st =
    Ok (negb (l =? 1) && can_large cfg l && pte_is_large e).
Proof.
  intros Hcfg Hmap Hru Hra Hvu Hva Hwalk.
  destruct (create_ok cfg st Hcfg Hmap pm virt al fr l e Hru Hra Hvu Hva Hwalk)
    as (w & Hw & Hsh & Hs).
  destruct (synced_level _ _ _ _ _ _ _ _ Hs Hwalk) as [Hl He].
  pose proof (pt_walk_level _ _ _ _ _ _ _ Hwalk) as Hb.
  exists w. split_and!; [done..| |].
  - rewrite (get_virt_addr_ok cfg st _ _ _ Hsh Hs). by rewrite Hl.
  - unfold ptwalker_points_to_largepage. rewrite Hl, He.
    destruct (Z.leb_spec l 1).
    + assert (l = 1) as -> by lia. done.
    + rewrite (proj2 (Z.eqb_neq l 1)), (can_have_large_ok cfg l Hcfg) by lia.
      rewrite outcome_bind_ok. by destruct (can_large cfg l).
Qed.

Lemma create_for_pagemap_spec_witness :
  exists w, ptwalker_create_for_pagemap (C := unit) ex_cfg ex_pagemap 0x1000 None None ex_tables =
    Ok w /\
  shape w /\ synced ex_cfg ex_tables 4 (root ex_pagemap) 0x1000 w /\ level w = 1 /\
  ptwalker_get_virt_addr w = Ok (0x1000 `mod` 2 ^ 48 / level_size 1 * level_size 1) /\
  ptwalker_points_to_largepage ex_cfg w ex_tables =
    Ok (negb (1 =? 1) && can_large ex_cfg 1 && pte_is_large (ex_entry 10)).
Proof.
  apply (create_for_pagemap_spec ex_cfg ex_pagemap 0x1000 None None ex_tables 1 (ex_entry 10)).
  - split; reflexivity.
  - exact ex_direct_map.
  - split; [discriminate|reflexivity].
  - reflexivity.
  - split; [discriminate|reflexivity].
  - reflexivity.
  - vm_compute. reflexivity.
Defined.

(** C13: from any address of the low half, [ptwalker_next_with_options] at the
    walker's own level, without allocating, moves the walker to the next
    multiple of the size of that level - over any number of table ends - and
    leaves it where the walk of that address stops; past the last address it
    reports the end.  The tables are not changed. *)
Theorem next_moves_one_step {C} cfg st root virt (w : pt_walker C) al sr ai fi :
  cfg_ok cfg -> direct_map_ok cfg st -> 0 <= virt < 2 ^ 48 ->
  shape w -> synced cfg st 4 root virt w ->
  let virt' := next_virt (level w) virt in
  if virt' <? 2 ^ 48 then
    forall r, pt_walk cfg st 4 root virt' = Ok r ->
    exists w', ptwalker_next_with_options cfg w (level w) false al sr ai fi st =
      Ok (E_PT_WALKER_OK, w', st) /\ shape w' /\ synced cfg st 4 root virt' w' /\
    ptwalker_get_virt_addr w' = Ok (virt' / level_size (level w') * level_size (level w'))
  else exists w', ptwalker_next_with_options cfg w (level w) false al sr ai fi st =
      Ok (E_PT_WALKER_REACHED_END, w', st) /\ level w' = PTWALKER_DONE.
Proof.
  intros Hcfg Hmap Hv Hw Hs virt'.
  pose proof (next_ok cfg st Hcfg Hmap root virt w sr ai fi al Hv Hw Hs) as H. cbv zeta in H.
  fold virt' in H. destruct (Z.ltb_spec virt' (2 ^ 48)) as [Hlt|]; [|done].
  intros r Hr. destruct (H r Hr) as (w' & Hn & Hw' & Hs'). exists w'. split_and!; [done..|].
  rewrite (get_virt_addr_ok cfg st _ _ _ Hw' Hs'), Z.mod_small; [done|].
  destruct (synced_path _ _ _ _ _ _ Hs) as (k & _ & Hl & _).
  assert (0 <= virt'); [|lia]. unfold virt', next_virt. rewrite Hl.
  pose proof (level_size_pos (Z.of_nat k) ltac:(lia)).
  pose proof (Z.div_pos virt (level_size (Z.of_nat k)) ltac:(lia) ltac:(lia)). nia.
Qed.

Definition ex_at_0x1000 : pt_walker unit :=
  {| tables := [Some (ex_phys 3); Some (ex_phys 2); Some (ex_phys 1); Some (ex_phys 0); None];
     indices := [1; 0; 0; 0; 0]; level := 1; top_level := 4;
     alloc_pgtable := None; free_pgtable := None |}.

Lemma next_moves_one_step_witness :
  let virt' := next_virt (level ex_at_0x1000) 0x1000 in
  if virt' <? 2 ^ 48 then
    forall r, pt_walk ex_cfg ex_tables 4 (ex_phys 0) virt' = Ok r ->
    exists w', ptwalker_next_with_options ex_cfg ex_at_0x1000 (level ex_at_0x1000)
        false true true None None ex_tables = Ok (E_PT_WALKER_OK, w', ex_tables) /\
    shape w' /\ synced ex_cfg ex_tables 4 (ex_phys 0) virt' w' /\
    ptwalker_get_virt_addr w' = Ok (virt' / level_size (level w') * level_size (level w'))
  else exists w', ptwalker_next_with_options ex_cfg ex_at_0x1000 (level ex_at_0x1000)
        false true true None None ex_tables = Ok (E_PT_WALKER_REACHED_END, w', ex_tables) /\
    level w' = PTWALKER_DONE.
Proof.
  apply (next_moves_one_step ex_cfg ex_tables (ex_phys 0) 0x1000 ex_at_0x1000 true true None None).
  - split; reflexivity.
  - exact ex_direct_map.
  - lia.
  - split_and!; reflexivity.
  - repeat (eexists || split); vm_compute; reflexivity.
Defined.

(** A gigabyte whose last page is mapped, followed by one with an empty table;
    page 5 is a zeroed page that the callback hands out. *)
Definition ex_stale : mm :=
  ex_state [(0, [(0, ex_entry 1)]); (1, [(0, ex_entry 2); (1, ex_entry 4)]);
            (2, [(511, ex_entry 3)]); (3, [(511, ex_entry 9)]); (4, []); (5, [])].
Definition ex_alloc : ptwalker_alloc_pgtable_t unit := fun _ _ st => Ok (ex_phys 5, st).
(** The level and the lowest index after a call, with its result code. *)
Definition summary (r : outcome (pt_walker_result * pt_walker unit * mm)) :
    outcome (pt_walker_result * Z * Z) :=
  '(e, w, _) ← r; i ← get_index 0 w; Ok (e, level w, i).

Definition ex_below (virt : Z) (st : mm) : outcome (pt_walker unit) :=
  ptwalker_create_for_pagemap ex_cfg ex_pagemap virt (Some ex_alloc) None st.

(** Two mapped two-megabyte regions. *)
Definition ex_prev : mm :=
  ex_state [(0, [(0, ex_entry 1)]); (1, [(0, ex_entry 2); (1, ex_entry 5)]);
            (2, [(0, ex_entry 3); (1, ex_entry 4)]); (3, [(511, ex_entry 9)]);
            (4, [(0, ex_entry 10)]); (5, [(0, ex_entry 6)]); (6, [])].

(** The first gigabyte is absent, the second has tables. *)
Definition ex_gap : mm :=
  ex_state [(0, [(0, ex_entry 1)]); (1, [(1, ex_entry 4)]); (4, [(0, ex_entry 5)]); (5, [])].

(** the walker loses its place in two ways.  Moving forward out of a full
    table into a region whose first entry is empty leaves the index 512 in the
    lowest slot; [ptwalker_fill_in_to] then allocates the tables down to it but
    keeps the index, so the entry the walker stands at is outside its table.
    Moving backwards over the start of a table ends at the first page of the
    region below instead of its last one, and enters an absent entry of a level
    without large pages as if it were a table. *)
Theorem walker_loses_place :
  (w ← ex_below 0x3ffff000 ex_stale;
   summary (ptwalker_next_with_options ex_cfg w 1 false false false None None ex_stale)) =
    Ok (E_PT_WALKER_OK, 2, 512) /\
  (w ← ex_below 0x3ffff000 ex_stale;
   '(_, w, st) ← ptwalker_next_with_options ex_cfg w 1 false false false None None ex_stale;
   summary (ptwalker_fill_in_to ex_cfg w 1 false None None st)) = Ok (E_PT_WALKER_OK, 1, 512) /\
  (w ← ex_below 0x3ffff000 ex_stale;
   '(_, w, st) ← ptwalker_next_with_options ex_cfg w 1 false false false None None ex_stale;
   '(_, w, st) ← ptwalker_fill_in_to ex_cfg w 1 false None None st;
   read_at 1 w st) = Undef /\
  (w ← ex_below 0x200000 ex_prev;
   '(_, w, _) ← ptwalker_prev ex_cfg w ex_prev; ptwalker_get_virt_addr w) = Ok 0 /\
  (w ← ex_below 0x40000000 ex_gap; ptwalker_prev ex_cfg w ex_gap) = Undef.
Proof. vm_compute. split_and!; reflexivity. Qed.

(** with 5-level paging, creating a walker for an address whose top-level
    entry is present indexes largepage_level_info_list, which has one entry per
    level from 0 to 4, with 5. *)
Theorem five_level_paging_undefined {C} cfg pm virt (al : option (ptwalker_alloc_pgtable_t C)) fr
    st e : has_5lvl_paging cfg = true -> length (level_info cfg) = 5%nat -> direct_map_ok cfg st ->
  in_u 64 (root pm) -> root pm `mod` PAGE_SIZE = 0 -> in_u 64 virt -> virt `mod` PAGE_SIZE = 0 ->
  pte_read (Some (root pm)) (pt_index virt 5) st = Ok e -> pte_is_present e = true ->
  ptwalker_create_for_pagemap cfg pm virt al fr st = Undef.
Proof.
  intros H5 Hlen Hmap Hru Hra Hvu Hva He Hp. unfold ptwalker_create_for_pagemap, get_root_phys.
  assert (pte_level_can_have_large cfg 5 = Undef) as Hlarge.
  { unfold pte_level_can_have_large, nth_entry. simpl.
    rewrite lookup_ge_None_2 by (rewrite Hlen; lia). done. }
  rewrite !has_align_page, Hra, Hva by done. rewrite !outcome_bind_ok. simpl c_assert.
  rewrite !outcome_bind_ok. unfold pgt_get_top_level. rewrite H5. cbv iota.
  rewrite (pte_read_mapped cfg _ _ _ _ Hmap Hru He), outcome_bind_ok.
  rewrite virt_to_pt_index_eq, outcome_bind_ok by lia.
  set (w0 := Build_pt_walker _ _ _ _ _ _). unfold set_slot, set_table, set_index. simpl.
  unfold get_index. simpl. rewrite He, outcome_bind_ok, Hp. cbn [negb].
  change (Z.of_nat 4 + 1) with 5. by rewrite Hlarge.
Qed.

Definition ex_cfg5 : paging :=
  {| has_5lvl_paging := true; HHDM_OFFSET := 0xffff800000000000;
     level_info := largepage_level_info_list |}.

Lemma five_level_paging_undefined_witness :
  ptwalker_create_for_pagemap (C := unit) ex_cfg5 ex_pagemap 0x1000 None None ex_tables = Undef.
Proof.
  apply (five_level_paging_undefined ex_cfg5 ex_pagemap 0x1000 None None ex_tables (ex_entry 1)).
  - reflexivity.
  - reflexivity.
  - exact ex_direct_map.
  - split; [discriminate|reflexivity].
  - reflexivity.
  - split; [discriminate|reflexivity].
  - reflexivity.
  - vm_compute. reflexivity.
  - reflexivity.
Defined.
