(* ===== verification/PgMap.v ===== *)
(** * Mapping and unmapping: kernel/mm/pgmap.c

    With kernel/mm/pageop.c, arch/x86_64/mm/tlb.c, pte_flags_equal and
    pte_is_dirty of arch/x86_64/mm/types.c, arch/x86_64/mm/vma.c and the flags
    of page.c, on the walker of Walker.v.  Flushing the TLB has no effect on the
    state.  As in the code, [pgmap_with_ptwalker] has no way to answer false:
    what it cannot do makes it panic. *)
From S2P Require Import Prelude CArith Range PageAlloc Walker.

(** ** arch/x86_64/mm/types.h *)
Definition __PTE_USER : Z := Z.shiftl 1 2.
Definition __PTE_PWT : Z := Z.shiftl 1 3.
Definition __PTE_PCD : Z := Z.shiftl 1 4.
Definition __PTE_WC : Z := Z.lor __PTE_PWT __PTE_PCD.
Definition __PTE_DIRTY : Z := Z.shiftl 1 6.
Definition __PTE_GLOBAL : Z := Z.shiftl 1 8.
Definition __PTE_NOEXEC : Z := Z.shiftl 1 63.
Definition PTE_LARGE_FLAGS (level : Z) : Z := Z.lor __PTE_PRESENT __PTE_LARGE.
Definition PTE_LEAF_FLAGS : Z := __PTE_PRESENT.
Definition LARGEPAGE_LEVELS : list Z := [2; 3].
Definition PAGE_SIZE_2MIB : Z := 2 ^ 21.
Definition PAGE_SIZE_1GIB : Z := 2 ^ 30.
(** The array of the macro: a level of 0 indexes it with -1. *)
Definition PAGE_SIZE_AT_LEVEL (level : Z) : outcome Z :=
  nth_entry [PAGE_SIZE; PAGE_SIZE_2MIB; PAGE_SIZE_1GIB; PAGE_SIZE_1GIB * PGT_PTE_COUNT;
             PAGE_SIZE_1GIB * PGT_PTE_COUNT * PGT_PTE_COUNT] (level - 1).

Definition pte_is_dirty (pte : Z) : bool := negb (Z.land pte __PTE_DIRTY =? 0).
Definition pte_flags_equal (pte level flags : Z) : bool :=
  let mask :=
    Z.lor (Z.lor (Z.lor (Z.lor (Z.lor (Z.lor __PTE_PRESENT __PTE_WRITE) __PTE_USER) __PTE_PWT)
      __PTE_PCD) __PTE_GLOBAL) __PTE_NOEXEC in
  Z.land pte mask =? flags.

(** mm_types.h *)
Definition phys_to_page (phys : Z) (st : mm) : outcome Z := phys_to_pfn phys st.
Definition pte_to_page (pte : Z) (st : mm) : outcome Z := phys_to_pfn (pte_to_phys pte) st.

(** page.c: the flags of a page *)
Definition PAGE_IS_DIRTY : Z := Z.shiftl 1 0.
Definition with_flags (f : Z) (pg : page) : page :=
  {| flags := f; state := state pg; section := section pg; data := data pg |}.
Definition page_get_flags (p : Z) (st : mm) : outcome Z := pg ← get_page p st; Ok (flags pg).
Definition page_set_flag (p flag : Z) (st : mm) : outcome mm :=
  update_page (fun pg => with_flags (Z.lor (flags pg) flag) pg) p st.
Definition page_has_flag (p flag : Z) (st : mm) : outcome bool :=
  f ← page_get_flags p st; Ok (negb (Z.land f flag =? 0)).
Definition page_clear_flag (p flag : Z) (st : mm) : outcome mm :=
  update_page (fun pg => with_flags (Z.land (flags pg) (u32 (Z.lnot flag))) pg) p st.

(** ** pageop.c *)
Record pageop := {
  op_pagemap : pagemap;
  flush_range : range;
  delayed_free : list Z
}.
Definition with_flush_range (r : range) (op : pageop) : pageop :=
  {| op_pagemap := op_pagemap op; flush_range := r; delayed_free := delayed_free op |}.
Definition with_delayed (l : list Z) (op : pageop) : pageop :=
  {| op_pagemap := op_pagemap op; flush_range := flush_range op; delayed_free := l |}.

Definition pageop_init (pm : pagemap) (r : range) : pageop :=
  {| op_pagemap := pm; flush_range := r; delayed_free := [] |}.

Definition free_page (page : Z) (st : mm) : outcome mm := free_pages page 0 st.

(** [list_foreach] reads the link in the page after [free_page] has returned;
    the link is a member of the union that a free page does not have. *)
Fixpoint free_all_pages (l : list Z) (st : mm) : outcome mm :=
  match l with
  | [] => Ok st
  | p :: l =>
      st ← free_page p st;
      pg ← get_page p st;
      deref (refcount_of (data pg));;
      free_all_pages l st
  end.

(** tlb.c: every page is taken off the list before it is freed. *)
Fixpoint free_listed (l : list Z) (st : mm) : outcome mm :=
  match l with [] => Ok st | p :: l => st ← free_page p st; free_listed l st end.
Definition tlb_flush_range (r : range) : outcome unit := range_get_end_assert r;; Ok tt.
Definition tlb_flush_pageop (op : pageop) (st : mm) : outcome (pageop * mm) :=
  tlb_flush_range (flush_range op);;
  st ← free_listed (delayed_free op) st; Ok (with_delayed [] op, st).

Section pgmap.
(** [get_cpu_info()->pagemap], the lock oracle of the page allocator, the
    paging mode, and the callback that takes pages from the early allocator
    (kernel/mm/early.c). *)
Context (cpu_pagemap : pagemap) (lock : lock_oracle) (cfg : paging).
Context (ptwalker_early_alloc_pgtable_cb : ptwalker_alloc_pgtable_t pageop).

Definition pageop_finish (op : pageop) (st : mm) : outcome (pageop * mm) :=
  if range_empty (flush_range op) then
    st ← free_all_pages (delayed_free op) st; Ok (op, st)
  else
    '(op, st) ← (if root cpu_pagemap =? root (op_pagemap op) then tlb_flush_pageop op st
                 else Ok (op, st));
    st ← free_all_pages (delayed_free op) st;
    Ok (with_flush_range RANGE_EMPTY op, st).

Definition pageop_setup_for_address (op : pageop) (virt : Z) (st : mm) : outcome (pageop * mm) :=
  let r := flush_range op in
  if u64 (virt + PAGE_SIZE) =? front r then
    Ok (with_flush_range (RANGE_INIT virt (size r)) op, st)
  else if range_has_loc r virt then Ok (op, st)
  else
    let '(ok, end_) := range_get_end r in
    if ok && (virt =? end_) then
      Ok (with_flush_range (RANGE_INIT (front r) (u64 (size r + PAGE_SIZE))) op, st)
    else
      '(op, st) ← pageop_finish op st;
      Ok (with_flush_range (RANGE_INIT virt PAGE_SIZE) op, st).

Definition pageop_setup_for_range (op : pageop) (virt : range) (st : mm) : outcome (pageop * mm) :=
  let r := flush_range op in
  inside ← range_has r virt;
  if (inside : bool) then Ok (op, st)
  else
    let '(ok, virt_end) := range_get_end virt in
    if ok && (front r =? virt_end) then
      Ok (with_flush_range (RANGE_INIT (front virt) (size r)) op, st)
    else
      let '(ok, flush_end) := range_get_end r in
      if ok && (front virt =? flush_end) then
        Ok (with_flush_range (RANGE_INIT (front r) (u64 (size r + size virt))) op, st)
      else
        '(op, st) ← pageop_finish op st; Ok (with_flush_range virt op, st).

(** [if (ref_down(&page->largehead.refcount) && should_free_pages) list_add(...)],
    and the same for [page->used.refcount]. *)
Definition drop_large (page : Z) (should_free_pages : bool) (op : pageop) (st : mm) :
    outcome (pageop * mm) :=
  pg ← get_page page st;
  match data pg with
  | Largehead pr r l =>
      '(zero, r) ← ref_down r;
      st ← page_set_data page (Largehead pr r l) st;
      Ok (if (zero : bool) && should_free_pages then with_delayed (page :: delayed_free op) op
          else op, st)
  | _ => Undef
  end.
Definition drop_used (page : Z) (should_free_pages : bool) (op : pageop) (st : mm) :
    outcome (pageop * mm) :=
  '(zero, st) ← page_ref_down page st;
  Ok (if (zero : bool) && should_free_pages then with_delayed (page :: delayed_free op) op
      else op, st).

(** The loop over the entries of a table that is taken out. *)
Fixpoint flush_entries (fuel : nat) (should_free_pages : bool) (w : pt_walker pageop)
    (op : pageop) (st : mm) : outcome (pageop * mm) :=
  match fuel with
  | O => OutOfFuel
  | S fuel =>
      entry ← read_at (level w) w st;
      page ← pte_to_page entry st;
      '(op, st) ← (if pte_is_large entry then drop_large page should_free_pages op st
                   else drop_used page should_free_pages op st);
      '(w, st) ← ptwalker_deref_from_level w (level w) (Some op) st;
      '(result, w, st) ← ptwalker_next cfg w st;
      match result with
      | E_PT_WALKER_OK => flush_entries fuel should_free_pages w op st
      | E_PT_WALKER_REACHED_END => Ok (op, st)
      | _ => Panic
      end
  end.

Definition pageop_flush_pte_in_current_range (op : pageop) (pte level : Z)
    (should_free_pages : bool) (st : mm) : outcome (pageop * mm) :=
  let pte_phys := pte_to_phys pte in
  pte_page ← phys_to_page pte_phys st;
  s ← page_get_state pte_page st;
  if negb (bool_decide (s = PAGE_STATE_TABLE)) then
    '(_, l, st) ← deref_page pte_page (delayed_free op) st; Ok (with_delayed l op, st)
  else
    w ← ptwalker_create_from_toplevel cfg pte_phys level 0 None None;
    flush_entries (Z.to_nat (PGT_PTE_COUNT ^ level)) should_free_pages w op st.

(** ** pgmap.c *)
Inductive map_result := MAP_DONE | MAP_CONTINUE | MAP_RESTART.
Inductive override_result := OVERRIDE_OK | OVERRIDE_DONE.

Record current_split_info := {
  phys_range : range;
  split_virt_addr : Z;
  is_active : bool
}.
Definition CURRENT_SPLIT_INFO_INIT : current_split_info :=
  {| phys_range := RANGE_EMPTY; split_virt_addr := 0; is_active := false |}.

Record pgmap_options := {
  pte_flags : Z;
  alloc_pgtable_cb_info : option pageop;
  free_pgtable_cb_info : option pageop;
  supports_largepage_at_level_mask : Z;
  opt_free_pages : bool;
  is_in_early : bool;
  is_overwrite : bool
}.
Definition should_ref (options : pgmap_options) : bool := negb (is_in_early options).

(** What the functions share: the walker, what [curr_split] and [pageop]
    point to (NULL for the first, uninitialised for the second are [None])
    and memory. *)
Record map_state := {
  walker : pt_walker pageop;
  curr_split : option current_split_info;
  op : option pageop;
  mem : mm
}.
Definition set_walker (w : pt_walker pageop) (st : mm) (s : map_state) : map_state :=
  {| walker := w; curr_split := curr_split s; op := op s; mem := st |}.
Definition set_op (o : pageop) (st : mm) (s : map_state) : map_state :=
  {| walker := walker s; curr_split := curr_split s; op := Some o; mem := st |}.
Definition set_split (c : option current_split_info) (s : map_state) : map_state :=
  {| walker := walker s; curr_split := c; op := op s; mem := mem s |}.
Definition set_mem (st : mm) (s : map_state) : map_state := set_walker (walker s) st s.

(** [walker->tables[level - 1][walker->indices[level - 1]] = value] *)
Definition write_at (level value : Z) (s : map_state) : outcome map_state :=
  t ← get_table (level - 1) (walker s);
  i ← get_index (level - 1) (walker s);
  st ← pte_write t i value (mem s); Ok (set_mem st s).
Definition read_entry (level : Z) (s : map_state) : outcome Z :=
  read_at level (walker s) (mem s).

(** The calls of the walker; any result but OK is a panic. *)
Definition fill_in_to (options : pgmap_options) (level : Z) (s : map_state) : outcome map_state :=
  '(result, w, st) ← ptwalker_fill_in_to cfg (walker s) level (should_ref options)
    (alloc_pgtable_cb_info options) (free_pgtable_cb_info options) (mem s);
  c_assert (bool_decide (result = E_PT_WALKER_OK));; Ok (set_walker w st s).
Definition next_at (options : pgmap_options) (level : Z) (s : map_state) : outcome map_state :=
  '(result, w, st) ← ptwalker_next_with_options cfg (walker s) level false false
    (should_ref options) (alloc_pgtable_cb_info options) (free_pgtable_cb_info options) (mem s);
  c_assert (bool_decide (result = E_PT_WALKER_OK));; Ok (set_walker w st s).

Fixpoint clear_slots (n : nat) (i : Z) (w : pt_walker pageop) : outcome (pt_walker pageop) :=
  match n with O => Ok w | S n => w ← set_slot i None 0 w; clear_slots n (i + 1) w end.

Definition split_large_page (level : Z) (options : pgmap_options) (s : map_state) :
    outcome map_state :=
  cs ← deref (curr_split s);
  c_assert (negb (is_active cs));;
  let wl := Walker.level (walker s) in
  entry ← read_entry wl s;
  s ← write_at wl 0 s;
  '(w, st) ← ptwalker_deref_from_level (walker s) wl (op s) (mem s);
  let s := set_walker w st s in
  virt_addr ← ptwalker_get_virt_addr (walker s);
  page_size ← PAGE_SIZE_AT_LEVEL (Walker.level (walker s));
  let cs := {| phys_range := RANGE_INIT (pte_to_phys entry) page_size;
               split_virt_addr := virt_addr; is_active := is_active cs |} in
  s ← (if negb (is_in_early options) then
         o ← deref (op s);
         '(o, st) ← pageop_flush_pte_in_current_range o entry (Walker.level (walker s))
           (opt_free_pages options) (mem s);
         Ok (set_op o st s)
       else Ok s);
  w ← clear_slots (Z.to_nat level) 0 (walker s);
  Ok (set_split (Some {| phys_range := phys_range cs; split_virt_addr := split_virt_addr cs;
                         is_active := true |}) (set_walker w (mem s) s)).

(** [*offset_in] is passed and returned. *)
Definition override_pte (phys_begin virt_begin offset_in size level new_pte_value : Z)
    (options : pgmap_options) (s : map_state) : outcome (override_result * Z * map_state) :=
  let wl := Walker.level (walker s) in
  if level >? wl then
    entry ← read_entry level s;
    s ← write_at level new_pte_value s;
    o ← deref (op s);
    '(o, st) ← pageop_flush_pte_in_current_range o entry level (opt_free_pages options) (mem s);
    Ok (OVERRIDE_OK, offset_in, set_op o st s)
  else
    large ← (if level <? wl then ptwalker_points_to_largepage cfg (walker s) (mem s) else Ok false);
    if (level <? wl) && negb large then
      s ← fill_in_to options level s;
      s ← write_at level new_pte_value s;
      Ok (OVERRIDE_OK, offset_in, s)
    else
      entry ← read_entry wl s;
      if negb (level <? wl) && negb (pte_is_present entry) then
        s ← write_at level new_pte_value s; Ok (OVERRIDE_OK, offset_in, s)
      else
        let phys_addr := u64 (phys_begin + offset_in) in
        if (pte_to_phys entry =? phys_addr) && pte_flags_equal entry wl (pte_flags options) then
          page_size ← PAGE_SIZE_AT_LEVEL wl;
          let offset_in := u64 (offset_in + page_size) in
          if offset_in >=? size then Ok (OVERRIDE_DONE, offset_in, s)
          else
            '(result, w, st) ← ptwalker_next_with_options cfg (walker s) (u8 wl) false false
              (should_ref options) None None (mem s);
            c_assert (bool_decide (result = E_PT_WALKER_OK));;
            Ok (OVERRIDE_OK, u64 (phys_addr - phys_begin), set_walker w st s)
        else
          s ← (if level <? wl then split_large_page level options s else Ok s);
          s ← write_at level new_pte_value s;
          Ok (OVERRIDE_OK, offset_in, s).

Definition leaf_entry (phys : Z) (options : pgmap_options) : Z :=
  Z.lor (Z.lor (phys_create_pte phys) PTE_LEAF_FLAGS) (pte_flags options).
Definition large_entry (phys level : Z) (options : pgmap_options) : Z :=
  Z.lor (Z.lor (phys_create_pte phys) (PTE_LARGE_FLAGS level)) (pte_flags options).

(** *** Small pages *)

(** The inner loop of the overwriting branch of [map_normal]; [None] is the
    [break] at the end of a table. *)
Fixpoint override_pages (fuel : nat) (phys_begin virt_begin offset_in offset size : Z)
    (options : pgmap_options) (s : map_state) :
    outcome (option (map_result * Z) * Z * map_state) :=
  match fuel with
  | O => OutOfFuel
  | S fuel =>
      let new_pte_value := leaf_entry (u64 (phys_begin + offset)) options in
      '(r, offset, s) ← override_pte phys_begin virt_begin offset size 1 new_pte_value options s;
      match r with
      | OVERRIDE_DONE => Ok (Some (MAP_DONE, offset_in), offset, s)
      | OVERRIDE_OK =>
          s ← next_at options 1 s;
          let offset := u64 (offset + PAGE_SIZE) in
          if offset =? size then Ok (Some (MAP_DONE, offset), offset, s)
          else
            i0 ← get_index 0 (walker s);
            if i0 =? 0 then
              i1 ← get_index 1 (walker s);
              if i1 =? 0 then Ok (Some (MAP_RESTART, offset), offset, s)
              else Ok (None, offset, s)
            else override_pages fuel phys_begin virt_begin offset_in offset size options s
      end
  end.
Fixpoint override_tables (fuel : nat) (phys_begin virt_begin offset_in offset size : Z)
    (options : pgmap_options) (s : map_state) : outcome (map_result * Z * map_state) :=
  match fuel with
  | O => OutOfFuel
  | S fuel =>
      s ← fill_in_to options 1 s;
      '(r, offset, s) ← override_pages 512 phys_begin virt_begin offset_in offset size options s;
      match r with
      | Some (r, offset_in) => Ok (r, offset_in, s)
      | None => override_tables fuel phys_begin virt_begin offset_in offset size options s
      end
  end.

(** The inner loop of the other branch: whether it stopped at the end of the
    table, the index after the last entry, and the next physical address. *)
Fixpoint write_pages (fuel : nat) (table : pte_ptr) (pte phys_addr phys_end : Z)
    (options : pgmap_options) (st : mm) : outcome (bool * Z * Z * mm) :=
  match fuel with
  | O => OutOfFuel
  | S fuel =>
      st ← pte_write table pte (leaf_entry phys_addr options) st;
      let phys_addr := u64 (phys_addr + PAGE_SIZE) in
      let pte := pte + 1 in
      if pte =? PGT_PTE_COUNT then Ok (true, pte, phys_addr, st)
      else if phys_addr =? phys_end then Ok (false, pte, phys_addr, st)
      else write_pages fuel table pte phys_addr phys_end options st
  end.
Fixpoint write_tables (fuel : nat) (phys_begin phys_addr phys_end : Z)
    (options : pgmap_options) (s : map_state) : outcome (map_result * Z * map_state) :=
  match fuel with
  | O => OutOfFuel
  | S fuel =>
      s ← fill_in_to options 1 s;
      table ← get_table 0 (walker s);
      i ← get_index 0 (walker s);
      '(at_end, pte, phys_addr, st) ← write_pages 512 table i phys_addr phys_end options (mem s);
      if (at_end : bool) then
        w ← set_index 0 (PGT_PTE_COUNT - 1) (walker s);
        s ← next_at options 1 (set_walker w st s);
        i1 ← get_index 1 (walker s);
        if i1 =? 0 then Ok (MAP_RESTART, u64 (phys_addr - phys_begin), s)
        else write_tables fuel phys_begin phys_addr phys_end options s
      else
        w ← set_index 0 pte (walker s);
        Ok (MAP_DONE, u64 (phys_addr - phys_begin), set_walker w st s)
  end.

(** A table of level 1 has 512 entries, and the loop over tables returns when
    the index of level 2 is back to 0. *)
Definition map_normal (phys_begin virt_begin offset_in size : Z) (options : pgmap_options)
    (s : map_state) : outcome (map_result * Z * map_state) :=
  if offset_in >=? size then Ok (MAP_DONE, offset_in, s)
  else if is_overwrite options then
    override_tables 513 phys_begin virt_begin offset_in offset_in size options s
  else
    write_tables 513 phys_begin (u64 (phys_begin + offset_in)) (u64 (phys_begin + size)) options s.

(** *** Large pages *)

(** In the overwriting functions the local [offset] and [*offset_in] are two
    variables. *)
Fixpoint top_level_override (fuel : nat) (phys_begin virt_begin offset_in offset size : Z)
    (level largepage_size : Z) (options : pgmap_options) (s : map_state) :
    outcome (map_result * Z * map_state) :=
  match fuel with
  | O => OutOfFuel
  | S fuel =>
      let new_pte_value := large_entry (u64 (phys_begin + offset)) level options in
      '(r, offset_in, s) ←
        override_pte phys_begin virt_begin offset_in size level new_pte_value options s;
      match r with
      | OVERRIDE_DONE => Ok (MAP_DONE, offset_in, s)
      | OVERRIDE_OK =>
          s ← next_at options level s;
          let offset := u64 (offset + largepage_size) in
          if offset =? size then Ok (MAP_DONE, offset, s)
          else if u64 (offset + largepage_size) <=? size then
            top_level_override fuel phys_begin virt_begin offset_in offset size level
              largepage_size options s
          else Ok (MAP_CONTINUE, offset, s)
      end
  end.
Definition map_large_at_top_level_overwrite (phys_begin virt_begin offset_in size : Z)
    (options : pgmap_options) (s : map_state) : outcome (map_result * Z * map_state) :=
  let level := top_level (walker s) in
  largepage_size ← PAGE_SIZE_AT_LEVEL level;
  top_level_override 513 phys_begin virt_begin offset_in offset_in size level largepage_size
    options s.

Fixpoint write_top_level (fuel : nat) (table : pte_ptr) (pte phys_addr phys_end : Z)
    (level largepage_size : Z) (options : pgmap_options) (st : mm) : outcome (Z * Z * mm) :=
  match fuel with
  | O => OutOfFuel
  | S fuel =>
      st ← pte_write table pte (large_entry phys_addr level options) st;
      let phys_addr := u64 (phys_addr + largepage_size) in
      if phys_addr =? phys_end then Ok (pte, phys_addr, st)
      else
        let pte := pte + 1 in
        if u64 (phys_addr + largepage_size) <=? phys_end then
          write_top_level fuel table pte phys_addr phys_end level largepage_size options st
        else Ok (pte, phys_addr, st)
  end.
Definition map_large_at_top_level_no_overwrite (phys_begin offset_in size : Z)
    (options : pgmap_options) (s : map_state) : outcome (map_result * Z * map_state) :=
  let level := top_level (walker s) in
  largepage_size ← PAGE_SIZE_AT_LEVEL level;
  table ← get_table (level - 1) (walker s);
  i ← get_index (level - 1) (walker s);
  '(pte, phys_addr, st) ← write_top_level 513 table i (u64 (phys_begin + offset_in))
    (u64 (phys_begin + size)) level largepage_size options (mem s);
  w ← set_index (level - 1) pte (walker s);
  Ok (MAP_CONTINUE, u64 (phys_addr - phys_begin), set_walker w st s).

Fixpoint level_override (fuel : nat) (phys_begin virt_begin offset_in offset size : Z)
    (level largepage_size : Z) (options : pgmap_options) (s : map_state) :
    outcome (map_result * Z * map_state) :=
  match fuel with
  | O => OutOfFuel
  | S fuel =>
      let new_pte_value := large_entry (u64 (phys_begin + offset)) level options in
      '(r, offset_in, s) ←
        override_pte phys_begin virt_begin offset_in size level new_pte_value options s;
      match r with
      | OVERRIDE_DONE => Ok (MAP_DONE, offset_in, s)
      | OVERRIDE_OK =>
          s ← next_at options level s;
          let offset := u64 (offset + largepage_size) in
          if offset =? size then Ok (MAP_DONE, offset, s)
          else
            i ← get_index (Walker.level (walker s) - 1) (walker s);
            if i =? 0 then
              i' ← get_index (Walker.level (walker s)) (walker s);
              if i' =? 0 then Ok (MAP_RESTART, offset, s) else Ok (MAP_CONTINUE, offset, s)
            else if u64 (offset + largepage_size) <=? size then
              level_override fuel phys_begin virt_begin offset_in offset size level
                largepage_size options s
            else Ok (MAP_CONTINUE, offset, s)
      end
  end.
Definition map_large_at_level_overwrite (phys_begin virt_begin offset_in size level : Z)
    (options : pgmap_options) (s : map_state) : outcome (map_result * Z * map_state) :=
  largepage_size ← PAGE_SIZE_AT_LEVEL level;
  s ← fill_in_to options level s;
  level_override 513 phys_begin virt_begin offset_in offset_in size level largepage_size options s.

(** How the inner loop of the other function ends. *)
Inductive large_exit := Range_end | Table_end | No_room.
Fixpoint write_large (fuel : nat) (table : pte_ptr) (pte phys_addr phys_end : Z)
    (level largepage_size : Z) (options : pgmap_options) (st : mm) :
    outcome (large_exit * Z * Z * mm) :=
  match fuel with
  | O => OutOfFuel
  | S fuel =>
      st ← pte_write table pte (large_entry phys_addr level options) st;
      let phys_addr := u64 (phys_addr + largepage_size) in
      if phys_addr =? phys_end then Ok (Range_end, pte, phys_addr, st)
      else
        let pte := pte + 1 in
        if pte =? PGT_PTE_COUNT then Ok (Table_end, pte, phys_addr, st)
        else if u64 (phys_addr + largepage_size) >? phys_end then Ok (No_room, pte, phys_addr, st)
        else write_large fuel table pte phys_addr phys_end level largepage_size options st
  end.
Fixpoint write_large_tables (fuel : nat) (phys_begin phys_addr phys_end level largepage_size : Z)
    (options : pgmap_options) (s : map_state) : outcome (map_result * Z * map_state) :=
  match fuel with
  | O => OutOfFuel
  | S fuel =>
      s ← fill_in_to options level s;
      table ← get_table (level - 1) (walker s);
      i ← get_index (level - 1) (walker s);
      '(r, pte, phys_addr, st) ← write_large 512 table i phys_addr phys_end level largepage_size
        options (mem s);
      match r with
      | Range_end =>
          w ← set_index (level - 1) pte (walker s);
          Ok (MAP_DONE, u64 (phys_addr - phys_begin), set_walker w st s)
      | No_room =>
          w ← set_index (level - 1) pte (walker s);
          Ok (MAP_CONTINUE, u64 (phys_addr - phys_begin), set_walker w st s)
      | Table_end =>
          w ← set_index (level - 1) (PGT_PTE_COUNT - 1) (walker s);
          s ← next_at options level (set_walker w st s);
          i ← get_index (Walker.level (walker s)) (walker s);
          if i =? 0 then Ok (MAP_RESTART, u64 (phys_addr - phys_begin), s)
          else write_large_tables fuel phys_begin phys_addr phys_end level largepage_size options s
      end
  end.
Definition map_large_at_level_no_overwrite (phys_begin offset_in size level : Z)
    (options : pgmap_options) (s : map_state) : outcome (map_result * Z * map_state) :=
  largepage_size ← PAGE_SIZE_AT_LEVEL level;
  write_large_tables 513 phys_begin (u64 (phys_begin + offset_in)) (u64 (phys_begin + size)) level
    largepage_size options s.

Definition map_large_at_level (phys_begin virt_begin offset_in size level : Z)
    (options : pgmap_options) (s : map_state) : outcome (map_result * Z * map_state) :=
  if negb (level =? pgt_get_top_level cfg) then
    if negb (is_overwrite options) then
      map_large_at_level_no_overwrite phys_begin offset_in size level options s
    else map_large_at_level_overwrite phys_begin virt_begin offset_in size level options s
  else if negb (is_overwrite options) then
    map_large_at_top_level_no_overwrite phys_begin offset_in size options s
  else map_large_at_top_level_overwrite phys_begin virt_begin offset_in size options s.

(** *** Ranges *)

(** The first level with an index that is not 0; 0 when there is none. *)
Fixpoint find_largepage_level (fuel : nat) (level : Z) (w : pt_walker pageop) : outcome Z :=
  if level <=? top_level w then
    match fuel with
    | O => OutOfFuel
    | S fuel =>
        i ← get_index (level - 1) w;
        if negb (i =? 0) then Ok level else find_largepage_level fuel (level + 1) w
    end
  else Ok 0.

(** The loop over LARGEPAGE_LEVELS, from its end; the levels are given in that
    order.  [inl] is [MAP_DONE] or [MAP_RESTART], [inr] the end of the loop. *)
Fixpoint try_large_levels (levels : list Z) (highest_largepage_level : Z) (phys : range)
    (virt_begin offset : Z) (options : pgmap_options) (s : map_state) :
    outcome ((map_result + unit) * Z * map_state) :=
  match levels with
  | [] => Ok (inr tt, offset, s)
  | level :: levels =>
      let skip := try_large_levels levels highest_largepage_level phys virt_begin offset options s in
      if level >? highest_largepage_level then skip
      else if Z.land (supports_largepage_at_level_mask options) (Z.shiftl 1 level) =? 0 then skip
      else
        largepage_size ← PAGE_SIZE_AT_LEVEL level;
        aligned ← has_align (u64 (front phys + offset)) largepage_size;
        if negb aligned || (u64 (offset + largepage_size) >? size phys) then skip
        else
          '(r, offset, s) ← map_large_at_level (front phys) virt_begin offset (size phys) level
            options s;
          match r with
          | MAP_CONTINUE =>
              try_large_levels levels highest_largepage_level phys virt_begin offset options s
          | r => Ok (inl r, offset, s)
          end
  end.

(** [for (; page != end; page++) ref_up(&page->largetail.refcount)] *)
Fixpoint ref_up_pages (n : nat) (p : Z) (st : mm) : outcome mm :=
  match n with
  | O => Ok st
  | S n =>
      pg ← get_page p st;
      r ← deref (refcount_of (data pg));
      r ← ref_up r;
      st ← page_set_data p (with_refcount r (data pg)) st;
      ref_up_pages n (p + 1) st
  end.

(** [finish_split_info] and [pgmap_with_ptwalker] call each other; [rec] is
    the second. *)
Definition finish_split_info (rec : range -> Z -> map_state -> outcome (bool * map_state))
    (virt : Z) (options : pgmap_options) (s : map_state) : outcome map_state :=
  cs ← deref (curr_split s);
  if negb (is_active cs) then Ok s
  else
    virt_end ← check_add_assert 64 (split_virt_addr cs) (size (phys_range cs));
    walker_virt_addr ← ptwalker_get_virt_addr (walker s);
    if walker_virt_addr >=? virt_end then
      if negb (front (phys_range cs) =? 0) && opt_free_pages options then
        p ← phys_to_page (front (phys_range cs)) (mem s);
        o ← deref (op s);
        '(_, l, st) ← deref_page p (delayed_free o) (mem s);
        Ok (set_op (with_delayed l o) st s)
      else Ok s
    else
      begin ← phys_to_page (front (phys_range cs)) (mem s);
      let end_ := begin + PAGE_COUNT (size (phys_range cs)) in
      let page := begin + PAGE_COUNT (virt_end - walker_virt_addr) in
      st ← ref_up_pages (Z.to_nat (end_ - page)) page (mem s);
      rest ← range_from_index (phys_range cs) (virt_end - walker_virt_addr);
      '(_, s') ← rec rest virt (set_split (Some CURRENT_SPLIT_INFO_INIT) (set_mem st s));
      Ok (set_split (Some {| phys_range := phys_range cs; split_virt_addr := split_virt_addr cs;
                             is_active := false |}) s').

(** [loop] bounds the rounds of the [do] loop, each of which ends at the end of
    the range or at an address that is a multiple of 1 GiB; [fuel] bounds the
    mutual recursion. *)
Fixpoint map_rounds (rec : range -> Z -> map_state -> outcome (bool * map_state)) (loop : nat)
    (phys : range) (virt_begin offset : Z) (options : pgmap_options) (s : map_state) :
    outcome (bool * map_state) :=
  match loop with
  | O => OutOfFuel
  | S loop =>
      highest ← find_largepage_level 6 1 (walker s);
      '(r, offset, s) ←
        (if highest >? 1 then
           try_large_levels (reverse LARGEPAGE_LEVELS) highest phys virt_begin offset options s
         else Ok (inr tt, offset, s));
      let finish offset s :=
        s ← finish_split_info rec (u64 (virt_begin + offset)) options s; Ok (true, s) in
      match r with
      | inl MAP_DONE => finish offset s
      | inl _ => map_rounds rec loop phys virt_begin offset options s
      | inr _ =>
          '(r, offset, s) ← map_normal (front phys) virt_begin offset (size phys) options s;
          match r with
          | MAP_DONE => finish offset s
          | _ =>
              if offset <? size phys then map_rounds rec loop phys virt_begin offset options s
              else finish offset s
          end
      end
  end.

Fixpoint pgmap_with_ptwalker (fuel : nat) (options : pgmap_options) (phys : range)
    (virt_begin : Z) (s : map_state) : outcome (bool * map_state) :=
  match fuel with
  | O => OutOfFuel
  | S fuel =>
      map_rounds (pgmap_with_ptwalker fuel options) (Z.to_nat (size phys / PAGE_SIZE_1GIB + 2))
        phys virt_begin 0 options s
  end.

(** [curr_split] is NULL where the code passes NULL. *)
Definition map_with (options : pgmap_options) (phys : range) (virt_begin : Z)
    (split : option current_split_info) (w : pt_walker pageop) (o : option pageop) (st : mm) :
    outcome (bool * map_state) :=
  pgmap_with_ptwalker 3 options phys virt_begin
    {| walker := w; curr_split := split; op := o; mem := st |}.

Definition finish_op (o : option pageop) (st : mm) : outcome mm :=
  o ← deref o; '(_, st) ← pageop_finish o st; Ok st.

Definition default_walker (pm : pagemap) (virt_addr : Z) (st : mm) : outcome (pt_walker pageop) :=
  ptwalker_default_for_pagemap lock cfg pm virt_addr st.

(** The large page at which the walker of [pgmap_at] stands may begin below
    [virt_addr].  [inl] is an early [return] of the function, [inr] the range
    and the address that are left. *)
Definition enter_large_page (phys : range) (virt_addr : Z) (options : pgmap_options)
    (s : map_state) : outcome ((bool + range * Z) * map_state) :=
  walker_virt_addr ← ptwalker_get_virt_addr (walker s);
  if walker_virt_addr <? virt_addr then
    let offset := u64 (virt_addr - walker_virt_addr) in
    let wl := Walker.level (walker s) in
    entry ← read_entry wl s;
    if (front phys >=? offset) && (pte_to_phys entry =? u64 (front phys - offset)) &&
       pte_flags_equal entry wl (pte_flags options)
    then
      page_size ← PAGE_SIZE_AT_LEVEL wl;
      let offset := u64 (u64 (walker_virt_addr + page_size) - virt_addr) in
      if negb (range_has_index phys offset) then Ok (inl true, s)
      else
        phys ← range_from_index phys offset;
        Ok (inr (phys, u64 (virt_addr + offset)), s)
    else
      s ← split_large_page wl options s;
      cs ← deref (curr_split s);
      '(result, s') ← map_with options (RANGE_INIT (front (phys_range cs)) offset) walker_virt_addr
        None (walker s) (op s) (mem s);
      if negb result then st ← finish_op (op s') (mem s'); Ok (inl false, set_mem st s')
      else
        rest ← range_from_index (phys_range cs) offset;
        Ok (inr (phys, virt_addr),
            set_split (Some {| phys_range := rest; split_virt_addr := virt_addr;
                               is_active := is_active cs |}) s')
  else Ok (inr (phys, virt_addr), s).

Definition pgmap_at (pm : pagemap) (phys : range) (virt_addr : Z) (options : pgmap_options)
    (st : mm) : outcome (bool * mm) :=
  if range_empty phys then Ok (false, st)
  else if range_overflows phys then Ok (false, st)
  else
    aligned ← range_has_align phys PAGE_SIZE;
    if negb aligned then Ok (false, st)
    else
      let virt_range := RANGE_INIT virt_addr (size phys) in
      if range_overflows virt_range then Ok (false, st)
      else
        aligned ← range_has_align virt_range PAGE_SIZE;
        if negb aligned then Ok (false, st)
        else
          w ← (if is_in_early options then
                 ptwalker_create_for_pagemap cfg pm virt_addr
                   (Some ptwalker_early_alloc_pgtable_cb) None st
               else default_walker pm virt_addr st);
          let o := if is_overwrite options then Some (pageop_init pm virt_range) else None in
          let s := {| walker := w; curr_split := Some CURRENT_SPLIT_INFO_INIT; op := o;
                      mem := st |} in
          large ← (if is_overwrite options then ptwalker_points_to_largepage cfg w st
                   else Ok false);
          '(r, s) ← (if (large : bool) then enter_large_page phys virt_addr options s
                     else Ok (inr (phys, virt_addr), s));
          match r with
          | inl result => Ok (result, mem s)
          | inr (phys, virt_addr) =>
              '(result, s) ← map_with options phys virt_addr (curr_split s) (walker s) (op s) (mem s);
              st ← (if is_overwrite options then finish_op (op s) (mem s) else Ok (mem s));
              Ok (result, st)
          end.

Record pgunmap_options := { unmap_free_pages : bool; dont_split_large_pages : bool }.

(** The level whose entries [pgunmap_at] clears first. *)
Fixpoint unmap_level (fuel : nat) (iter level top size : Z) : outcome Z :=
  if iter <=? top then
    match fuel with
    | O => OutOfFuel
    | S fuel =>
        page_size ← PAGE_SIZE_AT_LEVEL iter;
        if size <? page_size then Ok (iter - 1) else unmap_level fuel (iter + 1) level top size
    end
  else Ok level.
(** [while (virt_range.size - offset < PAGE_SIZE_AT_LEVEL(level)) level--;] *)
Fixpoint lower_level (fuel : nat) (level rest : Z) : outcome Z :=
  page_size ← PAGE_SIZE_AT_LEVEL level;
  if rest <? page_size then
    match fuel with O => OutOfFuel | S fuel => lower_level fuel (level - 1) rest end
  else Ok level.

(** One entry; false is the way out that finishes the [pageop] and returns
    false. *)
Definition unmap_entry (virt_range : range) (offset level : Z) (map_options : pgmap_options)
    (unmap_options : pgunmap_options) (s : map_state) : outcome (bool * map_state) :=
  let wl := Walker.level (walker s) in
  if level <? wl then
    if dont_split_large_pages unmap_options then Ok (false, s)
    else
      entry ← read_entry level s;
      if negb (pte_is_large entry) then Ok (false, s)
      else
        s ← write_at level 0 s;
        '(w, st) ← ptwalker_deref_from_level (walker s) wl (op s) (mem s);
        st ← (if pte_is_dirty entry then p ← pte_to_page entry st; page_set_flag p PAGE_IS_DIRTY st
              else Ok st);
        '(result, s) ← map_with map_options
          (RANGE_INIT (pte_to_phys entry) (u64 (size virt_range - offset)))
          (u64 (front virt_range + offset)) None w (op s) st;
        Ok (result, s)
  else
    entry ← read_entry level s;
    s ← write_at level 0 s;
    s ← (if unmap_free_pages unmap_options then
           o ← deref (op s);
           '(o, st) ← pageop_flush_pte_in_current_range o entry level true (mem s);
           Ok (set_op o st s)
         else Ok s);
    '(w, st) ← ptwalker_deref_from_level (walker s) wl (op s) (mem s);
    Ok (true, set_walker w st s).

Fixpoint unmap_entries (fuel : nat) (virt_range : range) (offset level : Z)
    (map_options : pgmap_options) (unmap_options : pgunmap_options) (s : map_state) :
    outcome (bool * mm) :=
  match fuel with
  | O => OutOfFuel
  | S fuel =>
      let leave s := st ← finish_op (op s) (mem s); Ok (false, st) in
      let wl := Walker.level (walker s) in
      can_have_large ← (if wl >? 1 then pte_level_can_have_large cfg wl else Ok true);
      if negb can_have_large then leave s
      else
        '(going_on, s) ← unmap_entry virt_range offset level map_options unmap_options s;
        if negb going_on then leave s
        else
          page_size ← PAGE_SIZE_AT_LEVEL level;
          let offset := u64 (offset + page_size) in
          if offset =? size virt_range then st ← finish_op (op s) (mem s); Ok (true, st)
          else
            '(result, w, st) ← ptwalker_next cfg (with_level level (walker s)) (mem s);
            if negb (bool_decide (result = E_PT_WALKER_OK)) then Ok (false, st)
            else
              level ← lower_level 5 level (u64 (size virt_range - offset));
              unmap_entries fuel virt_range offset level map_options unmap_options
                (set_walker w st s)
  end.

Definition pgunmap_at (pm : pagemap) (virt_range : range) (map_options : pgmap_options)
    (unmap_options : pgunmap_options) (st : mm) : outcome (bool * mm) :=
  aligned ← range_has_align virt_range PAGE_SIZE;
  if negb aligned then Ok (false, st)
  else
    w ← default_walker pm (front virt_range) st;
    let wl := Walker.level w in
    level ← unmap_level 5 (wl + 1) wl (top_level w) (size virt_range);
    unmap_entries (Z.to_nat (size virt_range / PAGE_SIZE + 1)) virt_range 0 level map_options
      unmap_options
      {| walker := w; curr_split := None; op := Some (pageop_init pm virt_range); mem := st |}.

(** ** arch/x86_64/mm/vma.c *)
Definition PROT_WRITE : Z := Z.shiftl 1 1.
Definition PROT_EXEC : Z := Z.shiftl 1 2.
Inductive vma_cachekind :=
| VMA_CACHEKIND_WRITEBACK
| VMA_CACHEKIND_WRITETHROUGH
| VMA_CACHEKIND_WRITECOMBINING
| VMA_CACHEKIND_NO_CACHE.

(** [is_kernel] is [pagemap == &kernel_pagemap]. *)
Definition flags_from_info (is_kernel : bool) (prot : Z) (cachekind : vma_cachekind) : Z :=
  let result := Z.lor __PTE_PRESENT (if is_kernel then __PTE_GLOBAL else __PTE_USER) in
  let result := if negb (Z.land prot PROT_WRITE =? 0) then Z.lor result __PTE_WRITE else result in
  let result := if Z.land prot PROT_EXEC =? 0 then Z.lor result __PTE_NOEXEC else result in
  match cachekind with
  | VMA_CACHEKIND_WRITEBACK => result
  | VMA_CACHEKIND_WRITETHROUGH => Z.lor result __PTE_PWT
  | VMA_CACHEKIND_WRITECOMBINING => Z.lor result __PTE_WC
  | VMA_CACHEKIND_NO_CACHE => Z.lor result __PTE_PCD
  end.

Definition mapping_options (is_kernel supports_1gib_pages : bool) (prot : Z)
    (cachekind : vma_cachekind) (overwrite : bool) : pgmap_options :=
  {| pte_flags := flags_from_info is_kernel prot cachekind;
     alloc_pgtable_cb_info := None; free_pgtable_cb_info := None;
     supports_largepage_at_level_mask :=
       Z.lor (Z.shiftl 1 2) (Z.shiftl (Z.b2z supports_1gib_pages) 3);
     opt_free_pages := false; is_in_early := false; is_overwrite := overwrite |}.
Definition arch_make_mapping (is_kernel supports_1gib_pages : bool) (pm : pagemap)
    (phys : range) (virt_addr prot : Z) (cachekind : vma_cachekind) (overwrite : bool)
    (st : mm) : outcome (bool * mm) :=
  '(_, st) ← pgmap_at pm phys virt_addr
    (mapping_options is_kernel supports_1gib_pages prot cachekind overwrite) st;
  Ok (true, st).
Definition arch_unmap_mapping (pm : pagemap) (virt_range : range) (map_options : pgmap_options)
    (options : pgunmap_options) (st : mm) : outcome (bool * mm) :=
  pgunmap_at pm virt_range map_options options st.
End pgmap.
