(* ===== verification/PgTables.v ===== *)
(** * Page tables as a tree

    What a write to one entry does to the walks of all addresses, provided
    every table is entered through one entry only; what the function that
    provides tables promises to the walker, and what filling in and moving do
    to the tables and to the walker. *)
From S2P Require Import Prelude CArith Range PageAlloc PageBlocks PageAllocInv Walker WalkerInv PgMap.

(** ** Addresses below a level *)
Definition in48 (x : Z) : Prop := 0 <= x < 2 ^ 48.
(** Two addresses that use the same entry of a table of level [k]. *)
Definition same_at (k : nat) (x y : Z) : Prop :=
  x / level_size (Z.of_nat k) = y / level_size (Z.of_nat k).

#[export] Instance same_at_dec k x y : Decision (same_at k x y).
Proof. unfold same_at. apply _. Defined.

Lemma same_at_refl k x : same_at k x x.
Proof. done. Qed.
Lemma same_at_sym k x y : same_at k x y -> same_at k y x.
Proof. done. Qed.
Lemma same_at_trans k x y z : same_at k x y -> same_at k y z -> same_at k x z.
Proof. unfold same_at. congruence. Qed.

Lemma same_at_up k j x y : (k <= j)%nat -> same_at k x y -> same_at j x y.
Proof.
  intros Hk H. induction Hk as [|j Hj IH]; [done|]. unfold same_at in *.
  replace (Z.of_nat (S j)) with (Z.of_nat j + 1) by lia. rewrite !div_level_succ by lia.
  by rewrite IH.
Qed.

Lemma same_at_index k j x y : same_at k x y -> (k <= j)%nat ->
  pt_index x (Z.of_nat j) = pt_index y (Z.of_nat j).
Proof. intros H Hj. unfold pt_index. apply (same_at_up _ j) in H; [|done]. by rewrite H. Qed.

(** One level down the entries are told apart by the index. *)
Lemma same_at_down k x y : same_at (S k) x y ->
  pt_index x (Z.of_nat k) = pt_index y (Z.of_nat k) -> same_at k x y.
Proof.
  unfold same_at, pt_index. replace (Z.of_nat (S k)) with (Z.of_nat k + 1) by lia.
  rewrite !div_level_succ by lia. intros H1 H2.
  rewrite (Z.div_mod (x / level_size (Z.of_nat k)) 512), (Z.div_mod (y / level_size (Z.of_nat k)) 512) by lia.
  lia.
Qed.

Lemma same_at_top x y : in48 x -> in48 y -> same_at 5 x y.
Proof. intros Hx Hy. unfold same_at. change (level_size (Z.of_nat 5)) with (2 ^ 48). by rewrite !Z.div_small. Qed.

(** A step that changes no index above [j] stays in the table of level [j]. *)
Lemma same_at_next k j x : (k <= j)%nat -> 0 <= x ->
  pt_index (next_virt (Z.of_nat k) x) (Z.of_nat j) <> 0 ->
  same_at (S j) x (next_virt (Z.of_nat k) x).
Proof.
  intros Hk Hx Hi. unfold same_at. set (x' := next_virt (Z.of_nat k) x) in *.
  assert (x < x' <= x + level_size (Z.of_nat j)) as Hx'.
  { pose proof (level_size_pos (Z.of_nat k) ltac:(lia)).
    assert (level_size (Z.of_nat k) <= level_size (Z.of_nat j)).
    { apply pow2_le. unfold level_shift. lia. }
    unfold x', next_virt. pose proof (Z.div_mod x (level_size (Z.of_nat k)) ltac:(lia)).
    pose proof (Z.mod_pos_bound x (level_size (Z.of_nat k)) ltac:(lia)). nia. }
  unfold pt_index in Hi. replace (Z.of_nat (S j)) with (Z.of_nat j + 1) by lia.
  rewrite !div_level_succ by lia. set (s := level_size (Z.of_nat j)) in *.
  assert (0 < s) by (apply level_size_pos; lia).
  assert (x / s <= x' / s <= x / s + 1) as Hq.
  { split; [apply Z.div_le_mono; lia|]. rewrite <- (Z.div_add x 1 s) by lia.
    apply Z.div_le_mono; lia. }
  pose proof (Z.div_mod (x' / s) 512 ltac:(lia)). pose proof (Z.mod_pos_bound (x' / s) 512 ltac:(lia)).
  pose proof (Z.div_mod (x / s) 512 ltac:(lia)). pose proof (Z.mod_pos_bound (x / s) 512 ltac:(lia)).
  lia.
Qed.

Section tree.
Context (cfg : paging).

(** ** The tables on the way of an address *)

(** From the table [t] of level [n], the walk of [x] comes to the table [u] of
    level [k]. *)
Inductive visits (st : mm) (x : Z) : nat -> Z -> nat -> Z -> Prop :=
| visits_here n t : (1 <= n)%nat -> visits st x n t n t
| visits_down n t e k u : (1 <= n)%nat ->
    pte_read (Some t) (pt_index x (Z.of_nat (S n))) st = Ok e ->
    stops cfg (Z.of_nat (S n)) e = false ->
    visits st x n (pte_to_phys e) k u -> visits st x (S n) t k u.

Lemma visits_level st x n t k u : visits st x n t k u -> (1 <= k <= n)%nat.
Proof. induction 1; lia. Qed.

Lemma visits_inv st x n t k u : visits st x (S n) t k u -> (k <= n)%nat ->
  exists e, pte_read (Some t) (pt_index x (Z.of_nat (S n))) st = Ok e /\
  stops cfg (Z.of_nat (S n)) e = false /\ visits st x n (pte_to_phys e) k u.
Proof. intros H Hk. inversion H; subst; [lia|]. eauto. Qed.

Lemma visits_self st x n t u : visits st x n t n u -> u = t.
Proof.
  intros H. inversion H as [|n' ? ? ? ? ? ? ? Hv]; subst; [done|]. apply visits_level in Hv. lia.
Qed.

Lemma visits_fun st x n t k u u' : visits st x n t k u -> visits st x n t k u' -> u' = u.
Proof.
  induction 1 as [|n t e k u Hn He Hs Hv IH]; intros H'; [by apply visits_self in H'|].
  pose proof (visits_level _ _ _ _ _ _ Hv).
  destruct (visits_inv _ _ _ _ _ _ H' ltac:(lia)) as (e' & He' & _ & Hv').
  assert (e' = e) as -> by congruence. by apply IH.
Qed.

Lemma visits_same st x y n t k u : visits st x n t k u -> same_at (S k) x y -> visits st y n t k u.
Proof.
  induction 1 as [|n t e k u Hn He Hs Hv IH]; intros H'; [by constructor|].
  pose proof (visits_level _ _ _ _ _ _ Hv).
  apply (visits_down st y n t e k u); [done| |done|by apply IH].
  by rewrite <- (same_at_index (S k) (S n) x y) by (done || lia).
Qed.

Lemma visits_trans st x n t k u j s : visits st x n t k u -> visits st x k u j s ->
  visits st x n t j s.
Proof. induction 1 as [|n t e k u Hn He Hs Hv IH]; intros H'; [done|]. econstructor; eauto. Qed.

Lemma visits_step st x n t k u e : visits st x n t (S k) u -> (1 <= k)%nat ->
  pte_read (Some u) (pt_index x (Z.of_nat (S k))) st = Ok e ->
  stops cfg (Z.of_nat (S k)) e = false -> visits st x n t k (pte_to_phys e).
Proof. intros Hv Hk He Hs. eapply visits_trans; [done|]. econstructor; [done..|]. by constructor. Qed.

Lemma visits_walk st x n t k u : visits st x n t k u -> pt_walk cfg st n t x = pt_walk cfg st k u x.
Proof.
  induction 1 as [|n t e k u Hn He Hs Hv IH]; [done|]. cbn [pt_walk].
  rewrite He, outcome_bind_ok, Hs, (proj2 (Nat.eqb_neq (S n) 1)) by lia. done.
Qed.

Lemma visits_suffix st x n t k u j s : visits st x n t k u -> visits st x n t j s ->
  (j <= k)%nat -> visits st x k u j s.
Proof.
  induction 1 as [|n t e k u Hn He Hs Hv IH]; intros H' Hj; [done|].
  pose proof (visits_level _ _ _ _ _ _ Hv).
  destruct (visits_inv _ _ _ _ _ _ H' ltac:(lia)) as (e' & He' & _ & Hv').
  assert (e' = e) as -> by congruence. by apply IH.
Qed.

(** An entry at which the walk ends. *)
Definition ends (k : nat) (e : Z) : Prop := k = 1%nat \/ stops cfg (Z.of_nat k) e = true.

Lemma visits_ends st x n t k u e j s : visits st x n t k u ->
  pte_read (Some u) (pt_index x (Z.of_nat k)) st = Ok e -> ends k e ->
  visits st x n t j s -> (k <= j)%nat.
Proof.
  intros Hk He Hend Hj. destruct (decide (k <= j)%nat) as [|Hlt]; [done|]. exfalso.
  pose proof (visits_suffix _ _ _ _ _ _ _ _ Hk Hj ltac:(lia)) as H.
  pose proof (visits_level _ _ _ _ _ _ Hj). destruct k as [|k]; [lia|].
  destruct (visits_inv _ _ _ _ _ _ H ltac:(lia)) as (e' & He' & Hs & _).
  destruct Hend as [?|Hend]; [lia|]. congruence.
Qed.

Lemma walk_ends st x n t k u e : visits st x n t k u ->
  pte_read (Some u) (pt_index x (Z.of_nat k)) st = Ok e -> ends k e ->
  pt_walk cfg st n t x = Ok (Z.of_nat k, e).
Proof.
  intros Hk He Hend. rewrite (visits_walk _ _ _ _ _ _ Hk).
  pose proof (visits_level _ _ _ _ _ _ Hk). destruct k as [|k]; [lia|].
  cbn [pt_walk]. rewrite He, outcome_bind_ok. destruct Hend as [->| ->]; [done|].
  by rewrite orb_true_r.
Qed.

(** Two memories that agree on the entries the walk of [x] reads. *)
Lemma visits_agree st st' x n t k u :
  (forall j s, visits st x n t j s -> (k < j)%nat ->
     pte_read (Some s) (pt_index x (Z.of_nat j)) st' = pte_read (Some s) (pt_index x (Z.of_nat j)) st) ->
  visits st x n t k u -> visits st' x n t k u.
Proof.
  intros Ha H. revert Ha. induction H as [|n t e k u Hn He Hs Hv IH]; intros Ha; [by constructor|].
  pose proof (visits_level _ _ _ _ _ _ Hv).
  apply (visits_down st' x n t e k u); [done| |done|].
  - rewrite Ha; [done|constructor; lia|lia].
  - apply IH. intros j s Hj Hlt. apply Ha; [|done]. by econstructor.
Qed.

Lemma walk_agree st st' x : forall n t,
  (forall j s, visits st x n t j s ->
     pte_read (Some s) (pt_index x (Z.of_nat j)) st' = pte_read (Some s) (pt_index x (Z.of_nat j)) st) ->
  pt_walk cfg st' n t x = pt_walk cfg st n t x.
Proof.
  induction n as [|n IH]; intros t Ha; [done|]. cbn [pt_walk].
  rewrite (Ha (S n) t) by (constructor; lia).
  destruct (pte_read (Some t) _ st) as [e| | |] eqn:He; [|done..]. rewrite !outcome_bind_ok.
  destruct ((S n =? 1)%nat || stops cfg (Z.of_nat (S n)) e) eqn:E; [done|].
  apply orb_false_iff in E as [E1%Nat.eqb_neq E2]. apply IH. intros j s Hj. apply Ha.
  econstructor; [lia|done..].
Qed.

Lemma visits_back st st' x n t k u :
  (forall j s, visits st x n t j s -> (k < j)%nat ->
     pte_read (Some s) (pt_index x (Z.of_nat j)) st' = pte_read (Some s) (pt_index x (Z.of_nat j)) st) ->
  visits st' x n t k u -> visits st x n t k u.
Proof.
  intros Ha H. revert Ha. induction H as [|n t e k u Hn He Hs Hv IH]; intros Ha; [by constructor|].
  pose proof (visits_level _ _ _ _ _ _ Hv).
  rewrite (Ha (S n) t) in He; [|apply visits_here; lia|lia]. eapply visits_down; [done..|].
  apply IH. intros j s Hj Hlt. apply Ha; [|done]. by econstructor.
Qed.

(** The walks only look at the frames and where they are. *)
Lemma pte_read_ext st st' t i : frames st' = frames st -> sections st' = sections st ->
  pte_read t i st' = pte_read t i st.
Proof. intros E1 E2. unfold pte_read, table_frame. by rewrite E1, E2. Qed.

Lemma visits_ext st st' x n t k u : frames st' = frames st -> sections st' = sections st ->
  visits st' x n t k u <-> visits st x n t k u.
Proof.
  intros E1 E2. split; intros Hv; [eapply visits_back, Hv|eapply visits_agree, Hv];
    intros; by apply pte_read_ext.
Qed.

Lemma walk_ext st st' n t x : frames st' = frames st -> sections st' = sections st ->
  pt_walk cfg st' n t x = pt_walk cfg st n t x.
Proof. intros E1 E2. apply walk_agree. intros. by apply pte_read_ext. Qed.
End tree.

(** ** Entries of tables *)
Definition absent (fr : list Z) : Z :=
  Z.of_nat (length (filter (fun e => pte_is_present e = false) fr)).

Lemma absent_nonneg fr : 0 <= absent fr.
Proof. unfold absent. lia. Qed.

Lemma absent_insert fr i e0 e : fr !! i = Some e0 ->
  absent (<[i := e]> fr) =
    absent fr - (if pte_is_present e0 then 0 else 1) + (if pte_is_present e then 0 else 1).
Proof.
  unfold absent. revert i. induction fr as [|x fr IH]; intros [|i] Hi; simplify_eq/=.
  - rewrite !filter_cons. destruct (pte_is_present e0), (pte_is_present e);
      repeat case_decide; simpl in *; (done || lia).
  - rewrite !filter_cons. specialize (IH _ Hi). case_decide; simpl; lia.
Qed.

(** Storing one entry of the table in page [p]. *)
Definition put_entry (p i e : Z) (st : mm) : mm :=
  set_frames (alter (<[Z.to_nat i := e]>) p (frames st)) st.

Record is_table (st : mm) (t p : Z) (fr : list Z) : Prop := {
  it_pfn : find_pfn (sections st) t = Some p;
  it_frame : frames st !! p = Some fr;
  it_length : length fr = 512%nat;
}.

Lemma table_frame_ok st t p fr : is_table st t p fr -> table_frame (Some t) st = Ok (p, fr).
Proof. intros [H1 H2 _]. unfold table_frame. simpl. by rewrite H1; simpl; rewrite H2. Qed.

Lemma pte_read_ok st t p fr i : is_table st t p fr -> 0 <= i < 512 ->
  exists e, fr !! Z.to_nat i = Some e /\ pte_read (Some t) i st = Ok e.
Proof.
  intros Ht Hi. destruct (lookup_lt_is_Some_2 fr (Z.to_nat i)) as [e He].
  { rewrite (it_length _ _ _ _ Ht). lia. }
  exists e. split; [done|]. unfold pte_read. rewrite (table_frame_ok _ _ _ _ Ht), outcome_bind_ok.
  unfold nth_entry. rewrite (proj2 (Z.ltb_ge i 0)) by lia. by rewrite He.
Qed.

Lemma pte_write_ok st t p fr i e : is_table st t p fr -> 0 <= i < 512 ->
  pte_write (Some t) i e st = Ok (put_entry p i e st).
Proof.
  intros Ht Hi. unfold pte_write. rewrite (table_frame_ok _ _ _ _ Ht), outcome_bind_ok.
  rewrite <- (Z2Nat.id i) at 1 by lia. rewrite set_entry_ok by (rewrite (it_length _ _ _ _ Ht); lia).
  rewrite outcome_bind_ok. unfold put_entry. f_equal. f_equal. apply map_eq. intros q.
  destruct (decide (q = p)) as [->|].
  - by rewrite lookup_insert_eq, lookup_alter_eq, (it_frame _ _ _ _ Ht).
  - by rewrite lookup_insert_ne, lookup_alter_ne by done.
Qed.

Lemma is_table_put st t p fr q i e : is_table st t p fr ->
  is_table (put_entry q i e st) t p (if decide (p = q) then <[Z.to_nat i := e]> fr else fr).
Proof.
  intros [H1 H2 H3]. split; [done| |].
  - simpl. case_decide; subst; [by rewrite lookup_alter_eq, H2|by rewrite lookup_alter_ne].
  - case_decide; [by rewrite length_insert|done].
Qed.

Lemma pte_read_put st s p i j e : 0 <= i < 512 -> 0 <= j < 512 ->
  (forall fr, frames st !! p = Some fr -> length fr = 512%nat) -> is_Some (frames st !! p) ->
  pte_read (Some s) j (put_entry p i e st) =
    if decide (find_pfn (sections st) s = Some p /\ j = i) then Ok e else pte_read (Some s) j st.
Proof.
  intros Hi Hj Hl [fr Hfr]. specialize (Hl fr Hfr). unfold pte_read, table_frame. simpl.
  destruct (find_pfn (sections st) s) as [q|]; [|by case_decide; [naive_solver|]]. simpl.
  destruct (decide (q = p)) as [->|Hne].
  - rewrite lookup_alter_eq, Hfr. simpl. unfold nth_entry.
    rewrite (proj2 (Z.ltb_ge j 0)) by lia. case_decide as Hd.
    + destruct Hd as [_ ->]. by rewrite list_lookup_insert_eq by lia.
    + rewrite list_lookup_insert_ne; [done|]. intros ?. apply Hd. split; [done|lia].
  - rewrite lookup_alter_ne by done. rewrite decide_False; [done|]. intros [? _]. congruence.
Qed.

(** ** The entries the code makes *)
Lemma phys_mask phys : 0 <= phys < 2 ^ 48 -> phys `mod` PAGE_SIZE = 0 -> pte_to_phys phys = phys.
Proof.
  intros Hb Ha. unfold pte_to_phys. change PTE_PHYS_MASK with (Z.shiftl (Z.ones 36) 12).
  rewrite (Z.div_mod phys PAGE_SIZE) at 1 by done. rewrite Ha, Z.add_0_r.
  change PAGE_SIZE with (2 ^ 12). rewrite (Z.mul_comm (2 ^ 12)), <- Z.shiftl_mul_pow2 by lia.
  rewrite <- Z.shiftl_land, Z.land_ones by lia. rewrite Z.mod_small.
  - rewrite Z.shiftl_mul_pow2 by lia. rewrite (Z.div_mod phys (2 ^ 12)) at 2 by done.
    change PAGE_SIZE with (2 ^ 12) in Ha. lia.
  - split; [apply Z.div_pos; lia|]. apply Z.div_lt_upper_bound; lia.
Qed.

Lemma entry_phys phys b c : 0 <= phys < 2 ^ 48 -> phys `mod` PAGE_SIZE = 0 ->
  Z.land b PTE_PHYS_MASK = 0 -> Z.land c PTE_PHYS_MASK = 0 ->
  pte_to_phys (Z.lor (Z.lor (phys_create_pte phys) b) c) = phys.
Proof.
  intros Hb Ha H1 H2. unfold pte_to_phys, phys_create_pte. rewrite !Z.land_lor_distr_l, H1, H2.
  rewrite !Z.lor_0_r. by apply phys_mask.
Qed.

Lemma has_bit e n : 0 <= n -> negb (Z.land e (Z.shiftl 1 n) =? 0) = Z.testbit e n.
Proof.
  intros Hn. rewrite Z.shiftl_1_l. destruct (Z.testbit e n) eqn:E.
  - apply negb_true_iff, Z.eqb_neq. intros H.
    assert (Z.testbit (Z.land e (2 ^ n)) n = false) as Hf by (by rewrite H, Z.bits_0).
    by rewrite Z.land_spec, E, Z.pow2_bits_true in Hf.
  - apply negb_false_iff, Z.eqb_eq. apply Z.bits_inj'. intros i Hi. rewrite Z.land_spec, Z.bits_0.
    rewrite Z.pow2_bits_eqb by done. destruct (Z.eqb_spec n i) as [->|]; [by rewrite E|].
    by rewrite andb_false_r.
Qed.

(** The low bits of an aligned address are clear. *)
Lemma aligned_bit phys n k : phys `mod` 2 ^ k = 0 -> 0 <= n < k -> Z.testbit phys n = false.
Proof. intros Ha Hn. rewrite <- (Z.mod_pow2_bits_low phys k n) by lia. by rewrite Ha, Z.bits_0. Qed.

Lemma present_bit e : pte_is_present e = Z.testbit e 0.
Proof. unfold pte_is_present. by apply (has_bit e 0). Qed.
Lemma large_bit e : pte_is_large e = Z.testbit e 7.
Proof. unfold pte_is_large. by apply (has_bit e 7). Qed.

Lemma table_entry_ok phys : 0 <= phys < 2 ^ 48 -> phys `mod` PAGE_SIZE = 0 ->
  let e := Z.lor (phys_create_pte phys) PGT_FLAGS in
  pte_to_phys e = phys /\ pte_is_present e = true /\ pte_is_large e = false.
Proof.
  intros Hb Ha e. split_and!.
  - unfold e. rewrite <- (Z.lor_0_r (phys_create_pte phys)). by apply entry_phys.
  - unfold e. by rewrite present_bit, Z.lor_spec, orb_true_r.
  - unfold e, phys_create_pte. rewrite large_bit, Z.lor_spec, (aligned_bit phys 7 12); [done|done|lia].
Qed.

Lemma leaf_entry_ok phys o : 0 <= phys < 2 ^ 48 -> phys `mod` PAGE_SIZE = 0 ->
  Z.land (pte_flags o) PTE_PHYS_MASK = 0 ->
  pte_to_phys (leaf_entry phys o) = phys /\ pte_is_present (leaf_entry phys o) = true.
Proof.
  intros Hb Ha Hf. split; [by apply entry_phys|]. unfold leaf_entry.
  by rewrite present_bit, !Z.lor_spec, orb_true_r.
Qed.

Lemma large_entry_ok phys level o : 0 <= phys < 2 ^ 48 -> phys `mod` PAGE_SIZE = 0 ->
  Z.land (pte_flags o) PTE_PHYS_MASK = 0 ->
  let e := large_entry phys level o in
  pte_to_phys e = phys /\ pte_is_present e = true /\ pte_is_large e = true.
Proof.
  intros Hb Ha Hf e. split_and!; [by apply entry_phys|..]; unfold e, large_entry.
  - by rewrite present_bit, !Z.lor_spec, orb_true_r.
  - by rewrite large_bit, !Z.lor_spec, orb_true_r.
Qed.

(** ** What the walker needs of the function that provides tables *)

(** [phys], in page [p], is a new empty table. *)
Record new_table (in_use : mm -> Z -> Prop) (phys p : Z) (st st' : mm) : Prop := {
  nt_pfn : find_pfn (sections st') phys = Some p;
  nt_phys : 0 <= phys < 2 ^ 48 /\ phys `mod` PAGE_SIZE = 0;
  nt_sections : forall x, find_pfn (sections st') x = find_pfn (sections st) x;
  nt_zero : frames st' !! p = Some (replicate 512 0);
  nt_frames : forall q, q <> p -> frames st' !! q = frames st !! q;
  nt_page : exists pg, pages st' !! p = Some pg /\ data pg = Table_page 0;
  nt_pages : forall q, in_use st q -> pages st' !! q = pages st !! q;
  nt_fresh : ~ in_use st p;
  nt_use : forall q, in_use st' q <-> in_use st q \/ q = p;
}.

(** [pa_ready] is the invariant of the provider, [pa_in_use] the pages it has
    handed out, [pa_exhausted] the states in which it has nothing left. *)
Class PgtableAlloc {C} (alloc : ptwalker_alloc_pgtable_t C) := {
  pa_ready : mm -> Prop;
  pa_in_use : mm -> Z -> Prop;
  pa_exhausted : mm -> Prop;
  pa_alloc : forall level cb_info st, pa_ready st ->
    (alloc level cb_info st = Ok (INVALID_PHYS, st) /\ pa_exhausted st) \/
    (exists phys p st', alloc level cb_info st = Ok (phys, st') /\ pa_ready st' /\
       new_table pa_in_use phys p st st');
  pa_frames : forall st f, pa_ready st -> pa_ready (set_frames f st);
  pa_frames_use : forall st f q, pa_in_use (set_frames f st) q <-> pa_in_use st q;
  pa_data : forall st q pg d, pa_ready st -> pa_in_use st q -> pages st !! q = Some pg ->
    pa_ready (set_pages (<[q := with_data d pg]> (pages st)) st);
  pa_data_use : forall st m q, pa_in_use (set_pages m st) q <-> pa_in_use st q;
}.

Section tables.
Context {C : Type} (alloc : ptwalker_alloc_pgtable_t C) `{PA : !PgtableAlloc alloc}.
Context (cfg : paging) (root : Z).
Implicit Types (k : nat).

(** A table of the pagemap: its page counts the tables below it, and has room
    to count one for every absent entry. *)
Record table_ok (st : mm) (t p : Z) (fr : list Z) : Prop := {
  to_table : is_table st t p fr;
  to_use : pa_in_use st p;
  to_page : exists pg r, pages st !! p = Some pg /\ data pg = Table_page r /\
    0 <= r /\ r + absent fr < REFCOUNT_MAX;
}.

Abbreviation at_level st x k t := (visits cfg st x 4 root k t).

(** Every table is in a page of its own and is reached in one way only. *)
Record pt_ok (st : mm) : Prop := {
  po_ready : pa_ready st;
  po_map : direct_map_ok cfg st;
  po_table : forall x k t, in48 x -> at_level st x k t -> exists p fr, table_ok st t p fr;
  po_tree : forall x y k j t u p, in48 x -> in48 y -> at_level st x k t -> at_level st y j u ->
    find_pfn (sections st) t = Some p -> find_pfn (sections st) u = Some p ->
    k = j /\ same_at (S k) x y;
}.

Lemma table_ok_put st t p fr q i e : table_ok st t p fr ->
  (p = q -> forall e0, fr !! Z.to_nat i = Some e0 ->
     pte_is_present e0 = true -> pte_is_present e = true) ->
  table_ok (put_entry q i e st) t p (if decide (p = q) then <[Z.to_nat i := e]> fr else fr).
Proof.
  intros [H1 H2 (pg & r & H3 & H4 & H5 & H6)] He. split.
  - by apply is_table_put.
  - by apply pa_frames_use.
  - exists pg, r. split_and!; [done..|]. case_decide; [|done].
    destruct (fr !! Z.to_nat i) as [e0|] eqn:E.
    + rewrite (absent_insert _ _ e0) by done. specialize (He ltac:(done) e0 eq_refl).
      destruct (pte_is_present e0); [rewrite He by done; lia|].
      destruct (pte_is_present e); lia.
    + by rewrite list_insert_ge by (by apply lookup_ge_None).
Qed.

(** A table on the way of [y] is read in another entry than the one written on
    the way of [x]. *)
Lemma put_reads st x k t p e y j s : pt_ok st -> in48 x -> in48 y ->
  at_level st x k t -> find_pfn (sections st) t = Some p -> at_level st y j s ->
  pte_read (Some s) (pt_index y (Z.of_nat j)) (put_entry p (pt_index x (Z.of_nat k)) e st) =
    if decide (j = k /\ same_at k x y) then Ok e
    else pte_read (Some s) (pt_index y (Z.of_nat j)) st.
Proof.
  intros Hok Hx Hy Ht Hp Hs. destruct (po_table _ Hok x k t Hx Ht) as (p' & fr & Htab).
  assert (p' = p) as -> by (pose proof (it_pfn _ _ _ _ (to_table _ _ _ _ Htab)); congruence).
  pose proof (to_table _ _ _ _ Htab) as [I1 I2 I3].
  rewrite pte_read_put; [|apply pt_index_bounds..|intros ? E; by simplify_eq|by eexists].
  apply decide_ext. split.
  - intros [E Ei]. destruct (po_tree _ Hok y x j k s t p Hy Hx Hs Ht E Hp) as [-> Hsame].
    split; [done|]. by apply same_at_sym, same_at_down.
  - intros [-> Hsame]. apply (visits_same _ _ x y) in Ht; [|by eapply same_at_up, Hsame; lia].
    assert (s = t) as -> by (by eapply visits_fun). split; [done|].
    symmetry. by apply (same_at_index k).
Qed.

Lemma pt_ok_table st x k t p : pt_ok st -> in48 x -> at_level st x k t ->
  find_pfn (sections st) t = Some p -> exists fr, table_ok st t p fr.
Proof.
  intros Hok Hx Ht Hp. destruct (po_table _ Hok x k t Hx Ht) as (p' & fr & Htab).
  assert (p' = p) as -> by (pose proof (it_pfn _ _ _ _ (to_table _ _ _ _ Htab)); congruence). eauto.
Qed.

(** Replacing an entry at which walks end by another one. *)
Lemma put_leaf st x k t p e0 e : pt_ok st -> in48 x -> at_level st x k t ->
  find_pfn (sections st) t = Some p ->
  pte_read (Some t) (pt_index x (Z.of_nat k)) st = Ok e0 -> ends cfg k e0 ->
  ends cfg k e -> pte_is_present e = true ->
  let st' := put_entry p (pt_index x (Z.of_nat k)) e st in
  pt_ok st' /\
  (forall y j s, in48 y -> at_level st' y j s <-> at_level st y j s) /\
  (forall y, in48 y -> pt_walk cfg st' 4 root y =
     if decide (same_at k x y) then Ok (Z.of_nat k, e) else pt_walk cfg st 4 root y).
Proof.
  intros Hok Hx Ht Hp He0 Hend0 Hend Hpres st'.
  assert (forall y j s, in48 y -> at_level st y j s ->
    pte_read (Some s) (pt_index y (Z.of_nat j)) st' =
    if decide (j = k /\ same_at k x y) then Ok e else pte_read (Some s) (pt_index y (Z.of_nat j)) st)
    as Hread by (intros; eapply put_reads; done).
  assert (forall y, same_at k x y -> at_level st y k t) as Hty.
  { intros y Hy. eapply visits_same; [done|]. eapply same_at_up, Hy. lia. }
  assert (forall y, in48 y -> same_at k x y -> at_level st' y k t) as Hty'.
  { intros y Hy Hsame. eapply visits_agree, Hty, Hsame. intros j s Hj Hlt.
    rewrite Hread by done. rewrite decide_False by lia. done. }
  assert (forall y j s, in48 y -> at_level st' y j s <-> at_level st y j s) as Hiff.
  { intros y j s Hy. destruct (decide (same_at k x y)) as [Hs|Hs].
    - assert (pte_read (Some t) (pt_index y (Z.of_nat k)) st = Ok e0) as Hr0.
      { by rewrite <- (same_at_index k k x y). }
      assert (pte_read (Some t) (pt_index y (Z.of_nat k)) st' = Ok e) as Hr1.
      { rewrite Hread by auto. by rewrite decide_True. }
      split; intros Hv.
      + pose proof (visits_ends _ _ _ _ _ _ _ _ _ _ (Hty' y Hy Hs) Hr1 Hend Hv).
        eapply visits_back, Hv. intros i u Hu Hlt. rewrite Hread by done.
        by rewrite decide_False by lia.
      + pose proof (visits_ends _ _ _ _ _ _ _ _ _ _ (Hty y Hs) Hr0 Hend0 Hv).
        eapply visits_agree, Hv. intros i u Hu Hlt. rewrite Hread by done.
        by rewrite decide_False by lia.
    - split; intros Hv; [eapply visits_back, Hv|eapply visits_agree, Hv];
        intros i u Hu Hlt; rewrite Hread by done; by rewrite decide_False by tauto. }
  split_and!; [|done|].
  - split.
    + apply pa_frames, Hok.
    + exact (po_map _ Hok).
    + intros y j s Hy Hv%Hiff; [|done]. destruct (po_table _ Hok y j s Hy Hv) as (q & fr & Htab).
      exists q. eexists. apply table_ok_put; [done|]. done.
    + intros y z j i s u q Hy Hz Hv%Hiff Hu%Hiff; [|done..]. by apply (po_tree _ Hok).
  - intros y Hy. case_decide as Hs.
    + apply (walk_ends cfg st' y 4 root k t e); [by apply Hty'| |done].
      rewrite Hread by auto. by rewrite decide_True.
    + apply walk_agree. intros j s Hv. rewrite Hread by done. by rewrite decide_False by tauto.
Qed.

(** A new table does not disturb the others. *)
Lemma new_table_keeps st st' phys p : pt_ok st -> pa_ready st' ->
  new_table pa_in_use phys p st st' ->
  pt_ok st' /\
  (forall y j s, in48 y -> at_level st' y j s <-> at_level st y j s) /\
  (forall y, in48 y -> pt_walk cfg st' 4 root y = pt_walk cfg st 4 root y) /\
  (forall t q fr, table_ok st t q fr -> table_ok st' t q fr).
Proof.
  intros Hok Hready Hn.
  assert (forall t q fr, table_ok st t q fr -> table_ok st' t q fr) as Htab.
  { intros t q fr [[I1 I2 I3] U (pg & r & P)]. assert (q <> p) as Hqp.
    { intros ->. by apply (nt_fresh _ _ _ _ _ Hn). }
    split; [split| |].
    - by rewrite (nt_sections _ _ _ _ _ Hn).
    - by rewrite (nt_frames _ _ _ _ _ Hn).
    - done.
    - apply (nt_use _ _ _ _ _ Hn). by left.
    - exists pg, r. by rewrite (nt_pages _ _ _ _ _ Hn). }
  assert (forall y j s, in48 y -> at_level st y j s ->
    pte_read (Some s) (pt_index y (Z.of_nat j)) st' = pte_read (Some s) (pt_index y (Z.of_nat j)) st)
    as Hread.
  { intros y j s Hy Hv. destruct (po_table _ Hok y j s Hy Hv) as (q & fr & T).
    unfold pte_read. rewrite (table_frame_ok st s q fr) by apply T.
    by rewrite (table_frame_ok st' s q fr) by apply Htab, T. }
  assert (forall y j s, in48 y -> at_level st' y j s <-> at_level st y j s) as Hiff.
  { intros y j s Hy. split; intros Hv; [eapply visits_back, Hv|eapply visits_agree, Hv];
      intros i u Hu Hlt; by apply Hread. }
  split_and!; [|done| |done].
  - split.
    + done.
    + destruct (po_map _ Hok) as [M1 M2]. split; [done|]. intros x q Hx.
      rewrite (nt_sections _ _ _ _ _ Hn). by apply M2.
    + intros y j s Hy Hv%Hiff; [|done]. destruct (po_table _ Hok y j s Hy Hv) as (q & fr & T). eauto.
    + intros y z j i s u q Hy Hz Hv%Hiff Hu%Hiff; [|done..].
      rewrite !(nt_sections _ _ _ _ _ Hn). by apply (po_tree _ Hok).
  - intros y Hy. apply walk_agree. intros j s Hv. by apply Hread.
Qed.

Lemma pte_read_zero st t p j : is_table st t p (replicate 512 0) -> 0 <= j < 512 ->
  pte_read (Some t) j st = Ok 0.
Proof.
  intros Ht Hj. destruct (pte_read_ok _ _ _ _ j Ht Hj) as (e & He & Hr).
  apply lookup_replicate in He as [-> _]. done.
Qed.

Lemma absent_zeros : absent (replicate 512 0) = 512.
Proof. by vm_compute. Qed.

(** Entering a new table in the place of an absent entry. *)
Lemma link_table st x k t p fr phys q : pt_ok st -> in48 x -> (1 <= k)%nat ->
  at_level st x (S k) t -> table_ok st t p fr ->
  (exists e0, pte_read (Some t) (pt_index x (Z.of_nat (S k))) st = Ok e0 /\ pte_is_present e0 = false) ->
  table_ok st phys q (replicate 512 0) -> 0 <= phys < 2 ^ 48 -> phys `mod` PAGE_SIZE = 0 ->
  (forall y j s, in48 y -> at_level st y j s -> find_pfn (sections st) s <> Some q) ->
  let e := Z.lor (phys_create_pte phys) PGT_FLAGS in
  let st' := put_entry p (pt_index x (Z.of_nat (S k))) e st in
  pt_ok st' /\ at_level st' x (S k) t /\ at_level st' x k phys /\
  (forall y, in48 y -> pt_walk cfg st' 4 root y =
     if decide (same_at (S k) x y) then Ok (Z.of_nat k, 0) else pt_walk cfg st 4 root y) /\
  (forall y j s, in48 y -> at_level st y j s -> at_level st' y j s).
Proof.
  intros Hok Hx Hk Ht Htab (e0 & He0 & Habs) Hnew Hb Ha Hfresh e st'.
  destruct (table_entry_ok phys Hb Ha) as (E1 & E2 & E3). fold e in E1, E2, E3.
  assert (stops cfg (Z.of_nat (S k)) e = false) as Hgo.
  { unfold stops. by rewrite E2, E3, andb_false_r. }
  assert (ends cfg (S k) e0) as Hend0 by (right; unfold stops; by rewrite Habs).
  pose proof (it_pfn _ _ _ _ (to_table _ _ _ _ Htab)) as Hp.
  assert (forall y j s, in48 y -> at_level st y j s ->
    pte_read (Some s) (pt_index y (Z.of_nat j)) st' =
    if decide (j = S k /\ same_at (S k) x y) then Ok e
    else pte_read (Some s) (pt_index y (Z.of_nat j)) st)
    as Hread by (intros; eapply put_reads; done).
  assert (q <> p) as Hqp.
  { intros ->. by apply (Hfresh x (S k) t). }
  assert (table_ok st' phys q (replicate 512 0)) as Hnew'.
  { pose proof (table_ok_put st phys q _ p (pt_index x (Z.of_nat (S k))) e Hnew) as T.
    rewrite decide_False in T by done. by apply T. }
  assert (forall y, same_at (S k) x y -> at_level st y (S k) t) as Hty.
  { intros y Hy. eapply visits_same; [done|]. eapply same_at_up, Hy. lia. }
  assert (forall y j s, in48 y -> at_level st y j s -> at_level st' y j s) as Hfwd.
  { intros y j s Hy Hv. eapply visits_agree, Hv. intros i u Hu Hlt. rewrite Hread by done.
    rewrite decide_False; [done|]. intros [-> Hsame].
    assert (S k <= j)%nat; [|lia]. eapply (visits_ends cfg); [by apply Hty| |done|done].
    by rewrite <- (same_at_index (S k) (S k) x y). }
  assert (forall y, in48 y -> same_at (S k) x y -> at_level st' y k phys) as Hnewv.
  { intros y Hy Hs. rewrite <- E1. eapply visits_step; [by apply Hfwd, Hty|done| |done].
    rewrite Hread by auto. by rewrite decide_True. }
  assert (forall y, in48 y -> pte_read (Some phys) (pt_index y (Z.of_nat k)) st' = Ok 0) as Hz.
  { intros y Hy. eapply pte_read_zero; [apply Hnew'|apply pt_index_bounds]. }
  assert (ends cfg k 0) as Hend by (right; done).
  assert (forall y j s, in48 y -> at_level st' y j s ->
    at_level st y j s \/ (same_at (S k) x y /\ j = k /\ s = phys)) as Hback.
  { intros y j s Hy Hv. destruct (decide (same_at (S k) x y)) as [Hs|Hs].
    - pose proof (visits_ends _ _ _ _ _ _ _ _ _ _ (Hnewv y Hy Hs) (Hz y Hy) Hend Hv).
      destruct (decide (j = k)) as [->|].
      + right. split_and!; [done..|]. by eapply visits_fun; [apply Hnewv|].
      + left. eapply visits_back, Hv. intros i u Hu Hlt. rewrite Hread by done.
        by rewrite decide_False by lia.
    - left. eapply visits_back, Hv. intros i u Hu Hlt. rewrite Hread by done.
      by rewrite decide_False by tauto. }
  split_and!; [|by apply Hfwd|by apply Hnewv| |done].
  - split.
    + apply pa_frames, Hok.
    + exact (po_map _ Hok).
    + intros y j s Hy [Hv|(_ & -> & ->)]%Hback; [| |done].
      * destruct (po_table _ Hok y j s Hy Hv) as (q' & fr' & T).
        exists q'. eexists. by apply table_ok_put.
      * eauto.
    + pose proof (it_pfn _ _ _ _ (to_table _ _ _ _ Hnew)) as Hq.
      intros y z j i s u r Hy Hz' [Hv|(Hs1 & -> & ->)]%Hback [Hu|(Hs2 & -> & ->)]%Hback Hr1 Hr2;
        try done.
      * by apply (po_tree _ Hok y z j i s u r).
      * exfalso. apply (Hfresh y j s Hy Hv). simpl in Hr1, Hr2. congruence.
      * exfalso. apply (Hfresh z i u Hz' Hu). simpl in Hr1, Hr2. congruence.
      * split; [done|]. by eapply same_at_trans; [apply same_at_sym|].
  - intros y Hy. case_decide as Hs.
    + apply (walk_ends cfg st' y 4 root k phys 0); [by apply Hnewv|by apply Hz|done].
    + apply walk_agree. intros j s Hv. rewrite Hread by done. by rewrite decide_False by tauto.
Qed.

(** Counting one more table in a page. *)
Lemma count_table st x k t p fr r : pt_ok st -> in48 x -> at_level st x k t ->
  is_table st t p fr -> 
  (exists pg, pages st !! p = Some pg /\ data pg = Table_page r) -> 0 <= r ->
  r + 1 + absent fr < REFCOUNT_MAX ->
  exists st', table_ref_up p st = Ok st' /\ pt_ok st' /\ frames st' = frames st /\
    sections st' = sections st.
Proof.
  intros Hok Hx Ht Htab (pg & Hpg & Hd) Hr Hroom.
  destruct (pt_ok_table st x k t p Hok Hx Ht (it_pfn _ _ _ _ Htab)) as (fr' & [T1 T2 T3]).
  assert (fr' = fr) as -> by (pose proof (it_frame _ _ _ _ T1); pose proof (it_frame _ _ _ _ Htab); congruence).
  pose proof (absent_nonneg fr).
  unfold table_ref_up, table_refcount, get_page. rewrite Hpg. simpl. rewrite Hd. simpl.
  unfold ref_up, refcount_increment. rewrite (proj2 (Z.ltb_ge r 0)) by lia.
  rewrite (proj2 (Z.eqb_neq r REFCOUNT_MAX)) by (unfold REFCOUNT_MAX in *; lia).
  rewrite (swrap_small 32) by (unfold REFCOUNT_MAX in *; unfold_ints; lia).
  rewrite outcome_bind_ok. unfold page_set_data, update_page, get_page. rewrite Hpg. simpl.
  eexists. split; [done|]. split_and!; [|done..]. split.
  - by apply pa_data; [apply Hok|..].
  - exact (po_map _ Hok).
  - intros y j s Hy Hv. apply (visits_ext cfg st) in Hv; [|done..].
    destruct (po_table _ Hok y j s Hy Hv) as (q & fr' & [U1 U2 (pg' & r' & U3)]).
    exists q, fr'. split; [|by apply pa_data_use|].
    + by destruct U1.
    + simpl. destruct (decide (q = p)) as [->|].
      * exists (with_data (Table_page (r + 1)) pg), (r + 1). rewrite lookup_insert_eq.
        assert (fr' = fr) as -> by (destruct U1, Htab; congruence).
        split_and!; [done..|lia|lia].
      * exists pg', r'. by rewrite lookup_insert_ne.
  - intros y z j i s u q Hy Hz Hv Hu. apply (visits_ext cfg st) in Hv, Hu; [|done..].
    by apply (po_tree _ Hok).
Qed.

(** ** The walker in the tree *)

(** The slots of the walker from level [k] up are those of the walk of [x],
    the indices all those of [x]. *)
Definition slots (st : mm) (x : Z) (k : nat) (w : pt_walker C) : Prop :=
  (forall j, (k <= j <= 4)%nat ->
     exists u, tables w !! (j - 1)%nat = Some (Some u) /\ at_level st x j u) /\
  (forall j, (1 <= j <= 4)%nat -> indices w !! (j - 1)%nat = Some (pt_index x (Z.of_nat j))).

(** The walker stands where the walk of [x] ends. *)
Record stands (st : mm) (x : Z) (k : nat) (w : pt_walker C) : Prop := {
  sd_shape : shape w;
  sd_level : level w = Z.of_nat k;
  sd_range : (1 <= k <= 4)%nat;
  sd_slots : slots st x k w;
  sd_alloc : alloc_pgtable w = Some alloc;
}.

(** What filling in tables from level [k0 - 1] down to [last] does to the
    walks: the ones that ended at the absent entry of [x] now end further down,
    at an absent entry again. *)
Definition grown (x : Z) (k0 last : nat) (st st' : mm) : Prop :=
  (forall y, in48 y ->
     if decide (same_at k0 x y) then
       exists l : nat, pt_walk cfg st' 4 root y = Ok (Z.of_nat l, 0) /\ (last <= l < k0)%nat /\
         same_at (S l) x y /\ (l = last \/ ~ same_at l x y)
     else pt_walk cfg st' 4 root y = pt_walk cfg st 4 root y) /\
  (forall y j s, in48 y -> at_level st y j s -> at_level st' y j s).

Definition no_entry (st : mm) (x : Z) (k : nat) : Prop :=
  exists u e, at_level st x k u /\ pte_read (Some u) (pt_index x (Z.of_nat k)) st = Ok e /\
    pte_is_present e = false.

Lemma phys_to_virt_ok st phys p : direct_map_ok cfg st -> 0 <= phys < 2 ^ 48 ->
  find_pfn (sections st) phys = Some p -> phys_to_virt cfg phys = Ok (Some phys).
Proof.
  intros [M1 M2] Hb Hp. unfold phys_to_virt, check_add_assert, check_add.
  rewrite (proj2 (Z.ltb_lt _ _)); [done|]. apply (M2 phys p); [|done]. unfold_ints. lia.
Qed.

Lemma slots_table st x k w : slots st x (S k) w -> (S k <= 4)%nat -> exists u,
  get_table (Z.of_nat k) w = Ok (Some u) /\
  get_index (Z.of_nat k) w = Ok (pt_index x (Z.of_nat (S k))) /\ at_level st x (S k) u.
Proof.
  intros [H1 H2] Hk. destruct (H1 (S k) ltac:(lia)) as (u & Hu & Hv).
  specialize (H2 (S k) ltac:(lia)). replace (S k - 1)%nat with k in * by lia.
  exists u. unfold get_table, get_index. by rewrite (nth_entry_ok _ _ _ Hu), (nth_entry_ok _ _ _ H2).
Qed.

(** One round of the loop of [alloc_levels_down_to]. *)
Lemma alloc_one st x k w (count : bool) ai : pt_ok st -> in48 x -> shape w -> (1 <= k <= 3)%nat ->
  slots st x (S k) w -> no_entry st x (S k) ->
  exists t, get_table (Z.of_nat k) w = Ok (Some t) /\
  get_index (Z.of_nat k) w = Ok (pt_index x (Z.of_nat (S k))) /\
  ((alloc_table_at_pte cfg alloc w (Some t) (pt_index x (Z.of_nat (S k))) (Z.of_nat k) ai st =
      Ok (false, w, st) /\ pa_exhausted st) \/
   (exists w' st1 st2, alloc_table_at_pte cfg alloc w (Some t) (pt_index x (Z.of_nat (S k)))
      (Z.of_nat k) ai st = Ok (true, w', st1) /\
    (if count then pt ← virt_to_page (Some t) st1; table_ref_up pt st1 else Ok st1) = Ok st2 /\
    pt_ok st2 /\ shape w' /\ slots st2 x k w' /\ no_entry st2 x k /\ grown x (S k) k st st2 /\
    alloc_pgtable w' = alloc_pgtable w)).
Proof.
  intros Hok Hx Hw Hk Hsl (t & e0 & Ht & He0 & Habs).
  destruct (slots_table _ _ _ _ Hsl ltac:(lia)) as (t' & Gt & Gi & Ht').
  assert (t' = t) as -> by (by eapply visits_fun). exists t. split_and!; [done..|].
  unfold alloc_table_at_pte.
  destruct (pa_alloc (Z.of_nat k) ai st (po_ready _ Hok)) as [[-> He]|(phys & q & st0 & -> & Hr & Hn)].
  { left. rewrite outcome_bind_ok. by split. }
  right. rewrite outcome_bind_ok. destruct (nt_phys _ _ _ _ _ Hn) as [Hb Ha].
  rewrite (proj2 (Z.eqb_neq phys INVALID_PHYS)) by (unfold INVALID_PHYS; lia).
  destruct (new_table_keeps st st0 phys q Hok Hr Hn) as (Hok0 & Hiff0 & Hwalk0 & Htab0).
  rewrite (phys_to_virt_ok st0 phys q) by (done || apply Hok0 || apply Hn). rewrite outcome_bind_ok.
  destruct Hw as (W1 & W2 & W3). unfold set_table.
  replace (Z.of_nat k - 1) with (Z.of_nat (k - 1)) by lia.
  rewrite set_entry_ok by lia. rewrite !outcome_bind_ok.
  destruct (po_table _ Hok x (S k) t Hx Ht) as (p & fr & Htab).
  pose proof (Htab0 _ _ _ Htab) as Htab1.
  rewrite (pte_write_ok st0 t p fr) by (apply Htab1 || apply pt_index_bounds). rewrite outcome_bind_ok.
  set (e := Z.lor (phys_create_pte phys) PGT_FLAGS).
  assert (table_ok st0 phys q (replicate 512 0)) as Hnew.
  { split.
    - split; [apply Hn|apply Hn|done].
    - apply (nt_use _ _ _ _ _ Hn). by right.
    - destruct (nt_page _ _ _ _ _ Hn) as (pg & P1 & P2). exists pg, 0. rewrite absent_zeros.
      split_and!; [done..|]. unfold REFCOUNT_MAX. lia. }
  destruct (pte_read_ok _ _ _ _ (pt_index x (Z.of_nat (S k))) (to_table _ _ _ _ Htab) (pt_index_bounds _ _))
    as (e1 & Hfr & Hr1). assert (e1 = e0) as -> by congruence.
  destruct (link_table st0 x k t p fr phys q Hok0 Hx ltac:(lia) (proj2 (Hiff0 x _ _ Hx) Ht) Htab1)
    as (Hok1 & Hv1 & Hv2 & Hwalk & Hmono); [|done..| |].
  { exists e0. split; [|done]. unfold pte_read in *.
    rewrite (table_frame_ok st0 t p fr) by apply Htab1.
    by rewrite (table_frame_ok st t p fr) in He0 by apply Htab. }
  { intros y j s Hy Hv%Hiff0 E; [|done]. destruct (po_table _ Hok y j s Hy Hv) as (q' & fr' & T).
    apply (nt_fresh _ _ _ _ _ Hn). rewrite (nt_sections _ _ _ _ _ Hn) in E.
    pose proof (it_pfn _ _ _ _ (to_table _ _ _ _ T)).
    assert (q' = q) as <- by congruence. apply T. }
  fold e in Hok1, Hv1, Hv2, Hwalk, Hmono.
  set (st1 := put_entry p (pt_index x (Z.of_nat (S k))) e st0) in *.
  set (w' := with_tables _ w). exists w', st1.
  assert (exists st2, (if count then pt ← virt_to_page (Some t) st1; table_ref_up pt st1 else Ok st1)
    = Ok st2 /\ pt_ok st2 /\ frames st2 = frames st1 /\ sections st2 = sections st1)
    as (st2 & E2 & Hok2 & F2 & S2).
  { destruct count; [|by eexists]. unfold virt_to_page, phys_to_pfn.
    assert (find_pfn (sections st1) t = Some p) as -> by apply Htab1. rewrite outcome_bind_ok.
    destruct (table_entry_ok phys Hb Ha) as (_ & Ep & _). fold e in Ep.
    pose proof Htab1 as [T1 T2 (pg & r & P1 & P2 & P3 & P4)].
    eapply (count_table st1 x (S k) t p (<[Z.to_nat (pt_index x (Z.of_nat (S k))) := e]> fr) r);
      [done..| |eauto|done|].
    - pose proof (is_table_put st0 t p fr p (pt_index x (Z.of_nat (S k))) e T1) as T.
      by rewrite decide_True in T.
    - rewrite (absent_insert _ _ e0), Ep, Habs by done. lia. }
  exists st2.
  assert (forall y j s, at_level st2 y j s <-> at_level st1 y j s) as Hext by (intros; by apply visits_ext).
  destruct Hsl as [Hs1 Hs2].
  split_and!; [done..| | | | |done].
  - unfold w'. split_and!; simpl; [by rewrite length_insert|done|done].
  - split; [|done]. intros j Hj. unfold w'. simpl. destruct (decide (j = k)) as [->|].
    + exists phys. rewrite list_lookup_insert_eq by lia. split; [done|]. by apply Hext.
    + destruct (Hs1 j ltac:(lia)) as (u & Hu & Huv). exists u.
      rewrite list_lookup_insert_ne by lia. split; [done|]. apply Hext, Hmono, Hiff0; done.
  - exists phys, 0. split_and!; [by apply Hext| |done]. rewrite (pte_read_ext st1) by done.
    assert (q <> p) as Hqp.
    { intros ->. apply (nt_fresh _ _ _ _ _ Hn), Htab. }
    apply (pte_read_zero st1 phys q); [|apply pt_index_bounds].
    pose proof (is_table_put st0 phys q _ p (pt_index x (Z.of_nat (S k))) e (to_table _ _ _ _ Hnew)) as T.
    by rewrite decide_False in T.
  - split.
    + intros y Hy. rewrite (walk_ext cfg st1) by done. rewrite Hwalk, Hwalk0 by done.
      case_decide; [|done]. exists k. split; [done|]. split; [lia|]. split; [done|by left].
    + intros y j s Hy Hv. apply Hext, Hmono, Hiff0; done.
Qed.

Lemma grown_trans x k last st st1 st2 : in48 x -> (last <= k)%nat -> grown x (S k) k st st1 -> grown x k last st1 st2 ->
  grown x (S k) last st st2.
Proof.
  intros Hx Hk [G1 G2] [H1 H2]. split; [|auto]. intros y Hy. specialize (G1 y Hy). specialize (H1 y Hy).
  destruct (decide (same_at k x y)) as [Hs|Hs].
  - rewrite decide_True by (eapply same_at_up, Hs; lia). destruct H1 as (l & Hl & Hb & Hj1 & Hj2).
    exists l. split; [done|]. split; [lia|]. by split.
  - rewrite H1. case_decide as Hs'; [|done]. destruct G1 as (l & Hl & Hb & Hj).
    assert (l = k) as -> by lia. exists k. split; [done|]. split; [lia|]. split; [done|by right].
Qed.

(** The answer of a call of the walker, as pgmap.c takes it. *)
Definition result_is_ok (r : outcome (pt_walker_result * pt_walker C * mm)) : bool :=
  match r with Ok (E_PT_WALKER_OK, _, _) => true | _ => false end.

(** Why a call that needs tables may fail. *)
Definition ran_out (x : Z) (k0 last : nat) (st : mm) : Prop :=
  exists st1, pt_ok st1 /\ pa_exhausted st1 /\
    (st1 = st \/ exists k, (last <= k < k0)%nat /\ grown x k0 k st st1).

Lemma alloc_levels_ok x (last : nat) count ai fi : in48 x -> (1 <= last)%nat ->
  forall d fuel st w, pt_ok st -> shape w -> (last + d <= 3)%nat -> (d < fuel)%nat ->
  slots st x (S (last + d)) w -> no_entry st x (S (last + d)) -> alloc_pgtable w = Some alloc ->
  let r := alloc_levels cfg fuel alloc (Z.of_nat (last + d)) (Z.of_nat last) true count ai fi w st in
  (exists w' st', r = Ok (E_PT_WALKER_OK, w', st') /\ pt_ok st' /\ stands st' x last w' /\
     no_entry st' x last /\ grown x (S (last + d)) last st st') \/
  (result_is_ok r = false /\ ran_out x (S (last + d)) last st).
Proof.
  intros Hx Hlast. induction d as [|d IH]; intros [|fuel] st w Hok Hw Hd Hf Hsl Hno Hal; [lia| |lia|];
    cbv zeta; cbn [alloc_levels].
  - replace (last + 0)%nat with last in * by lia.
    destruct (alloc_one st x last w count ai Hok Hx Hw ltac:(lia) Hsl Hno)
      as (t & -> & -> & [[E He]|(w' & st1 & st2 & E & E2 & Hok2 & Hw2 & Hsl2 & Hno2 & Hg & Hal2)]);
      rewrite !outcome_bind_ok, E, outcome_bind_ok.
    + right. split; [|exists st; auto]. simpl. by destruct (ptwalker_drop_lowest _ _ _) as [[??]| | |].
    + left. cbn [negb]. rewrite E2, outcome_bind_ok.
      rewrite (proj2 (Z.eqb_neq _ _)), (proj2 (Z.ltb_lt (Z.of_nat last - 1) _)) by lia.
      cbn [andb]. replace (Z.of_nat last - 1 + 1) with (Z.of_nat last) by lia.
      eexists _, st2. split_and!; [done..| |done|done].
      split; [done..|lia|done|simpl; congruence].
  - destruct (alloc_one st x (last + S d) w count ai Hok Hx Hw ltac:(lia) Hsl Hno)
      as (t & -> & -> & [[E He]|(w' & st1 & st2 & E & E2 & Hok2 & Hw2 & Hsl2 & Hno2 & Hg & Hal2)]);
      rewrite !outcome_bind_ok, E, outcome_bind_ok.
    + right. split; [|exists st; auto]. simpl. by destruct (ptwalker_drop_lowest _ _ _) as [[??]| | |].
    + cbn [negb]. rewrite E2, outcome_bind_ok.
      replace (Z.of_nat (last + S d) - 1) with (Z.of_nat (last + d)) by lia.
      rewrite (proj2 (Z.ltb_ge (Z.of_nat (last + d)) _)) by lia. rewrite andb_false_r.
      replace (last + S d)%nat with (S (last + d)) in * by lia.
      specialize (IH fuel st2 w' Hok2 Hw2 ltac:(lia) ltac:(lia) Hsl2 Hno2 ltac:(congruence)).
      destruct IH as [(w3 & st3 & -> & Hok3 & Hs3 & Hno3 & Hg3)|(Hr & st3 & Hok3 & He3 & Hc3)].
      * left. exists w3, st3. split_and!; [done..|]. eapply grown_trans; [done| |done..]. lia.
      * right. split; [done|]. exists st3. split_and!; [done..|]. right.
        destruct Hc3 as [->|(k & Hk & Hg3)].
        -- exists (S (last + d)). split; [lia|done].
        -- exists k. split; [lia|]. eapply grown_trans; [done| |done..]. lia.
Qed.

(** [ptwalker_fill_in_to]: nothing to do, or a chain of new tables. *)
Lemma fill_ok x k last count ai fi st w : in48 x -> (1 <= last <= k)%nat -> pt_ok st ->
  stands st x k w -> (last < k)%nat -> no_entry st x k ->
  let r := ptwalker_fill_in_to cfg w (Z.of_nat last) count ai fi st in
  (exists w' st', r = Ok (E_PT_WALKER_OK, w', st') /\ pt_ok st' /\ stands st' x last w' /\
     no_entry st' x last /\ grown x k last st st') \/
  (result_is_ok r = false /\ ran_out x k last st).
Proof.
  intros Hx Hlast Hok [Hw Hl Hk Hsl Hal] Hlt Hno. cbv zeta.
  assert (exists d, k = S (last + d)) as [d ->] by (exists (k - 1 - last)%nat; lia).
  unfold ptwalker_fill_in_to.
  rewrite Hl, (proj2 (Z.leb_gt _ _)) by lia. unfold alloc_levels_down_to. rewrite Hal.
  rewrite (wrap_small 8 (Z.of_nat (S _))), (wrap_small 8 (Z.of_nat (S _) - 1)) by (unfold_ints; lia).
  rewrite andb_false_r. replace (Z.of_nat (S (last + d)) - 1) with (Z.of_nat (last + d)) by lia.
  apply alloc_levels_ok; (done || lia).
Qed.
End tables.

(** ** The slots below the walker *)
Section low.
Context {C : Type}.
Implicit Types w : pt_walker C.

Definition zero_at w (j : nat) : Prop := indices w !! (j - 1)%nat = Some 0.
(** Slots are only cleared below level [m]; the callbacks stay. *)
Definition clears (m : nat) w w' : Prop :=
  alloc_pgtable w' = alloc_pgtable w /\
  forall j, (1 <= j < m)%nat -> zero_at w j -> zero_at w' j.

Lemma clears_refl m w : clears m w w.
Proof. by split. Qed.
Lemma clears_trans m w w' w'' : clears m w w' -> clears m w' w'' -> clears m w w''.
Proof. intros [A1 A2] [B1 B2]. split; [congruence|auto]. Qed.
Lemma clears_weaken m m' w w' : (m' <= m)%nat -> clears m w w' -> clears m' w w'.
Proof. intros Hm [A1 A2]. split; [done|]. intros j Hj. apply A2. lia. Qed.

Lemma set_entry_inv {A} (i : nat) (x : A) l l' : set_entry (Z.of_nat i) x l = Ok l' ->
  l' = <[i := x]> l /\ (i < length l)%nat.
Proof.
  unfold set_entry. destruct ((0 <=? Z.of_nat i) && (Z.of_nat i <? Z.of_nat (length l))) eqn:E; [|done].
  intros [= <-]. rewrite Nat2Z.id. split; [done|]. bool_props. lia.
Qed.

Lemma set_slot_inv (i : nat) t x w w' : set_slot (Z.of_nat i) t x w = Ok w' ->
  indices w' = <[i := x]> (indices w) /\ (i < length (indices w))%nat /\ level w' = level w /\
  alloc_pgtable w' = alloc_pgtable w.
Proof.
  unfold set_slot, set_table, set_index. intros H. bind_inv H w1 H1. bind_inv H1 ts Hts.
  injection H1 as <-. bind_inv H ixs Hi. injection H as <-. by apply set_entry_inv in Hi as [-> ?].
Qed.

Lemma set_index_inv (i : nat) x w w' : set_index (Z.of_nat i) x w = Ok w' ->
  indices w' = <[i := x]> (indices w) /\ (i < length (indices w))%nat /\ level w' = level w /\
  alloc_pgtable w' = alloc_pgtable w.
Proof.
  unfold set_index. intros H. bind_inv H ixs Hi. injection H as <-.
  by apply set_entry_inv in Hi as [-> ?].
Qed.

Lemma zero_insert w w' (i : nat) : indices w' = <[i := 0]> (indices w) ->
  (i < length (indices w))%nat -> zero_at w' (S i) /\ forall j, zero_at w j -> zero_at w' j.
Proof.
  intros E Hi. unfold zero_at. rewrite E. split.
  - replace (S i - 1)%nat with i by lia. by apply list_lookup_insert_eq.
  - intros j Hj. destruct (decide ((j - 1)%nat = i)) as [->|]; [by apply list_lookup_insert_eq|].
    by rewrite list_lookup_insert_ne.
Qed.

Lemma reset_levels_inv n w w' : reset_levels n w = Ok w' ->
  level w' = level w /\ (forall m, clears m w w') /\ forall j, (1 <= j <= n)%nat -> zero_at w' j.
Proof.
  revert w. induction n as [|n IH]; intros w H.
  - injection H as <-. split_and!; [done|by split|]. lia.
  - cbn [reset_levels] in H. bind_inv H w1 H1. apply set_slot_inv in H1 as (E1 & E2 & E3 & E4).
    destruct (zero_insert _ _ _ E1 E2) as [Z1 Z2].
    destruct (IH _ H) as (L & K & Hz). split_and!; [congruence| |].
    + intros m. eapply clears_trans; [|apply K]. by split; [|auto].
    + intros j Hj. destruct (decide (j = S n)) as [->|]; [|apply Hz; lia].
      apply (K (S (S n))); [lia|done].
Qed.

Lemma reset_lower_inv (k : nat) w w' : reset_levels_lower_than (Z.of_nat k) w = Ok w' ->
  level w' = level w /\ (forall m, clears m w w') /\ forall j, (1 <= j < k)%nat -> zero_at w' j.
Proof.
  unfold reset_levels_lower_than. intros H. apply reset_levels_inv in H as (L & K & Hz).
  split_and!; [done..|]. intros j Hj. apply Hz. lia.
Qed.

(** Where [setup_levels] ends, its slots are at index 0. *)
Lemma setup_levels_inv cfg n e w st w' : setup_levels cfg n e w st = Ok w' -> (1 <= n)%nat ->
  (forall m, clears m w w') /\
  exists l : nat, level w' = Z.of_nat l /\ (1 <= l <= n)%nat /\ zero_at w' l.
Proof.
  revert e w. induction n as [|n IH]; intros e w H Hn; [lia|]. cbn [setup_levels] in H.
  replace (Z.of_nat (S n) - 1) with (Z.of_nat n) in H by lia.
  bind_inv H t Ht. bind_inv H w1 H1. apply set_slot_inv in H1 as (E1 & E2 & E3 & E4).
  destruct (zero_insert _ _ _ E1 E2) as [Z1 Z2].
  assert (forall m, clears m w w1) as K1 by (split; [done|auto]).
  bind_inv H e' He. destruct (negb (pte_is_present e')).
  { injection H as <-. split; [exact K1|]. exists (S n). simpl. split_and!; [done|lia..|done]. }
  bind_inv H large Hl. destruct (large && pte_is_large e').
  { injection H as <-. split; [exact K1|]. exists (S n). simpl. split_and!; [done|lia..|done]. }
  destruct n as [|n].
  - injection H as <-. split; [exact K1|]. exists 1%nat. simpl. split_and!; [done|lia..|done].
  - destruct (IH _ _ H ltac:(lia)) as (K2 & l & L & Hb & Hz).
    split; [intros m; by eapply clears_trans|]. exists l. split_and!; [done|lia..|done].
Qed.

(** What is left in the lower slots after moving to an entry of level [c]:
    nothing if the walker stays at that level. *)
Definition arrived (c : nat) (l : Z) w' : Prop :=
  exists l' : nat, l = Z.of_nat l' /\ (1 <= l' <= c)%nat /\
  (l' = c -> forall j, (1 <= j < c)%nat -> zero_at w' j) /\ ((l' < c)%nat -> zero_at w' l').

Lemma enter_present_inv cfg (c : nat) e w st w' : enter_present cfg (Z.of_nat c) e w st = Ok w' ->
  (2 <= c)%nat -> (forall m, clears m w w') /\ arrived c (level w') w'.
Proof.
  intros H Hc. unfold enter_present in H. bind_inv H large Hl.
  assert (forall w0, setup_levels_lower_than cfg (Z.of_nat c) e w st = Ok w0 -> w0 = w' ->
    (forall m, clears m w w') /\ arrived c (level w') w') as Hsetup.
  { intros w0 H0 ->. unfold setup_levels_lower_than in H0.
    apply setup_levels_inv in H0 as (K & l & L & Hb & Hz); [|lia]. split; [done|].
    exists l. split_and!; [done|lia..|done]. }
  destruct large; cbn [negb] in H; [|by eapply Hsetup]. destruct (pte_is_large e); [|by eapply Hsetup].
  bind_inv H w1 H1. injection H as <-. apply reset_lower_inv in H1 as (L & K & Hz).
  split; [exact K|]. exists c. split_and!; [done|lia..|done|lia].
Qed.

Lemma next_climb_inv cfg st : forall fuel (k : nat) w res w',
  next_climb cfg fuel (Z.of_nat k) w st = Ok (res, w') -> (1 <= k)%nat ->
  clears k w w' /\
  match res with
  | inl E_PT_WALKER_OK => exists c, (k < c)%nat /\ arrived c (level w') w'
  | inr l => exists c, (k < c)%nat /\ arrived c l w'
  | _ => True
  end.
Proof.
  induction fuel as [|fuel IH]; intros k w res w' H Hk; [done|]. cbn [next_climb] in H.
  replace (Z.of_nat k + 1) with (Z.of_nat (S k)) in H by lia.
  replace (Z.of_nat (S k) - 1) with (Z.of_nat k) in H by lia.
  assert (forall x w1, set_index (Z.of_nat k) x w = Ok w1 -> clears k w w1) as Hset.
  { intros x w1 (E1 & E2 & E3 & E4)%set_index_inv. split; [done|]. intros j Hj. unfold zero_at.
    rewrite E1, list_lookup_insert_ne by lia. done. }
  destruct (Z.of_nat (S k) >? top_level w).
  { bind_inv H w1 H1. bind_inv H w2 H2. injection H as <- <-.
    apply reset_lower_inv in H2 as (_ & K2 & _). split; [|done].
    eapply clears_trans; [by eapply Hset|]. apply (K2 k). }
  bind_inv H i Hi. bind_inv H w1 H1. apply Hset in H1.
  destruct (_ =? PGT_PTE_COUNT).
  { destruct (IH _ _ _ _ H ltac:(lia)) as [K2 Hr]. split.
    - eapply clears_trans; [done|]. eapply clears_weaken, K2. lia.
    - destruct res as [[]|l]; try done; destruct Hr as (c & Hc & Hr); exists c; (split; [lia|done]). }
  bind_inv H e He. destruct (negb (pte_is_present e)).
  - bind_inv H w2 H2. injection H as <- <-. apply reset_lower_inv in H2 as (L & K2 & Hz). split.
    + eapply clears_trans; [done|]. apply K2.
    + exists (S k). split; [lia|]. exists (S k). split_and!; [done|lia..|done|lia].
  - bind_inv H w2 H2. injection H as <- <-. apply enter_present_inv in H2 as (K2 & Ha); [|lia]. split.
    + eapply clears_trans; [done|]. apply K2.
    + exists (S k). split; [lia|done].
Qed.

Lemma next_inv cfg (k : nat) w count ai fi st w' st' :
  ptwalker_next_with_options cfg w (Z.of_nat k) false false count ai fi st =
    Ok (E_PT_WALKER_OK, w', st') -> (1 <= k)%nat -> indices w !! (k - 1)%nat = Some 511 ->
  clears k w w' /\ exists c, (k < c)%nat /\ arrived c (level w') w'.
Proof.
  intros H Hk Hi. unfold ptwalker_next_with_options in H. destruct (_ || _); [done|].
  unfold get_index in H. replace (Z.of_nat k - 1) with (Z.of_nat (k - 1)) in H by lia.
  rewrite (nth_entry_ok _ _ _ Hi), outcome_bind_ok in H. change (u16 (511 + 1)) with 512 in H.
  bind_inv H w1 H1. apply set_index_inv in H1 as (E1 & E2 & E3 & E4).
  assert (clears k w w1) as K1.
  { split; [done|]. intros j Hj. unfold zero_at. by rewrite E1, list_lookup_insert_ne by lia. }
  simpl (512 <? PGT_PTE_COUNT) in H. cbv iota in H. bind_inv H r Hr. destruct r as [res w2].
  apply next_climb_inv in Hr as [K2 Ha]; [|done].
  destruct res as [[]|l]; simplify_eq/=; (split; [by eapply clears_trans|done]).
Qed.
End low.

(** ** Moving in the tree *)
Section moving.
Context {C : Type} (alloc : ptwalker_alloc_pgtable_t C) `{PA : !PgtableAlloc alloc}.
Context (cfg : paging) (root : Z).
Implicit Types (w : pt_walker C).
Hypothesis Hcfg : cfg_ok cfg.
Abbreviation at_level st x k t := (visits cfg st x 4 root k t).

(** The walk of [x] ends at level [k]. *)
Definition ends_at (st : mm) (x : Z) (k : nat) : Prop :=
  exists u e, at_level st x k u /\ pte_read (Some u) (pt_index x (Z.of_nat k)) st = Ok e /\
    ends cfg k e.

Lemma walk_total st x : pt_ok alloc cfg root st -> in48 x ->
  exists k u e, at_level st x k u /\ pte_read (Some u) (pt_index x (Z.of_nat k)) st = Ok e /\
    ends cfg k e.
Proof.
  intros Hok Hx. assert (forall n t, at_level st x n t -> exists k u e, at_level st x k u /\
    pte_read (Some u) (pt_index x (Z.of_nat k)) st = Ok e /\ ends cfg k e) as H.
  { induction n as [|n IH]; intros t Ht; [apply visits_level in Ht; lia|].
    destruct (po_table _ _ _ _ Hok _ _ _ Hx Ht) as (p & fr & T).
    destruct (pte_read_ok _ _ _ _ (pt_index x (Z.of_nat (S n))) (to_table _ _ _ _ _ T) (pt_index_bounds _ _))
      as (e & _ & He).
    destruct (decide (n = 0%nat)) as [->|Hn]; [exists 1%nat, t, e; split_and!; [done..|by left]|].
    destruct (stops cfg (Z.of_nat (S n)) e) eqn:E; [exists (S n), t, e; split_and!; [done..|by right]|].
    eapply IH, visits_step; [done|lia|done..]. }
  apply (H 4%nat root). constructor. lia.
Qed.

Lemma ends_at_walk st x k : ends_at st x k -> exists e, pt_walk cfg st 4 root x = Ok (Z.of_nat k, e).
Proof. intros (u & e & Hv & He & Hend). exists e. by eapply walk_ends. Qed.

Lemma walk_ends_at st x k e : pt_ok alloc cfg root st -> in48 x ->
  pt_walk cfg st 4 root x = Ok (Z.of_nat k, e) -> exists u, at_level st x k u /\
  pte_read (Some u) (pt_index x (Z.of_nat k)) st = Ok e /\ ends cfg k e.
Proof.
  intros Hok Hx Hw. destruct (walk_total st x Hok Hx) as (k' & u & e' & Hv & He & Hend).
  rewrite (walk_ends _ _ _ _ _ _ _ _ Hv He Hend) in Hw. injection Hw as E <-.
  apply Nat2Z.inj in E as <-. eauto.
Qed.

(** [synced] of WalkerInv.v in terms of slots. *)
Lemma synced_slots st x w : forall n t, synced cfg st n t x w ->
  exists k : nat, level w = Z.of_nat k /\ (1 <= k <= n)%nat /\
  (forall j, (k <= j <= n)%nat -> (exists u, tables w !! (j - 1)%nat = Some (Some u) /\
     visits cfg st x n t j u)) /\
  exists u e, visits cfg st x n t k u /\ pte_read (Some u) (pt_index x (Z.of_nat k)) st = Ok e /\
    ends cfg k e.
Proof.
  induction n as [|n IH]; intros t Hs; [done|]. cbn [synced] in Hs.
  destruct Hs as (Ht & Hi & e & He & Hs).
  destruct ((S n =? 1)%nat || stops cfg (Z.of_nat (S n)) e) eqn:E.
  - exists (S n). split_and!; [done|lia..| |].
    + intros j Hj. assert (j = S n) as -> by lia. exists t. replace (S n - 1)%nat with n by lia.
      split; [done|]. constructor. lia.
    + exists t, e. split_and!; [constructor; lia|done|].
      apply orb_true_iff in E as [E%Nat.eqb_eq|E]; [left|right]; done.
  - apply orb_false_iff in E as [E1%Nat.eqb_neq E2].
    destruct (IH _ Hs) as (k & L & Hk & Hsl & u & e' & Hv & He' & Hend).
    exists k. split_and!; [done|lia..| |].
    + intros j Hj. destruct (decide (j = S n)) as [->|].
      * exists t. replace (S n - 1)%nat with n by lia. split; [done|]. constructor. lia.
      * destruct (Hsl j ltac:(lia)) as (s & Hs1 & Hs2). exists s. split; [done|].
        econstructor; [lia|done..].
    + exists u, e'. split_and!; [|done..]. econstructor; [lia|done..].
Qed.

Lemma slots_synced st x w (k : nat) : level w = Z.of_nat k -> forall n t, (1 <= k <= n)%nat ->
  (forall j, (k <= j <= n)%nat -> exists u, tables w !! (j - 1)%nat = Some (Some u) /\
     visits cfg st x n t j u) ->
  (forall j, (k <= j <= n)%nat -> indices w !! (j - 1)%nat = Some (pt_index x (Z.of_nat j))) ->
  (exists u e, visits cfg st x n t k u /\ pte_read (Some u) (pt_index x (Z.of_nat k)) st = Ok e /\
    ends cfg k e) -> synced cfg st n t x w.
Proof.
  intros L. induction n as [|n IH]; intros t Hk Hsl Hi (u & e & Hv & He & Hend); [lia|].
  cbn [synced]. destruct (Hsl (S n) ltac:(lia)) as (t' & Ht & Hv').
  apply visits_self in Hv' as ->. specialize (Hi (S n) ltac:(lia)) as Hin.
  replace (S n - 1)%nat with n in Ht, Hin by lia. split_and!; [done..|].
  destruct (decide (k = S n)) as [->|].
  - apply visits_self in Hv as ->. exists e. split; [done|].
    destruct Hend as [[= ->]|E]; [done|]. by rewrite E, orb_true_r.
  - destruct (visits_inv _ _ _ _ _ _ _ Hv ltac:(lia)) as (e' & He' & Hs & Hv2). exists e'. split; [done|].
    rewrite Hs, (proj2 (Nat.eqb_neq (S n) 1)) by lia. simpl. apply IH; [lia| | |eauto].
    + intros j Hj. destruct (Hsl j ltac:(lia)) as (s & Hs1 & Hs2). exists s. split; [done|].
      destruct (visits_inv _ _ _ _ _ _ _ Hs2 ltac:(lia)) as (e2 & He2 & _ & Hv3).
      assert (e2 = e') as -> by congruence. done.
    + intros j Hj. apply Hi. lia.
Qed.

Lemma stands_synced st x k w : stands alloc cfg root st x k w -> ends_at st x k ->
  synced cfg st 4 root x w.
Proof.
  intros [S1 S2 S3 [S4 S5] S6] He. apply (slots_synced st x w k S2 4 root); [done|done| |done].
  intros j Hj. apply S5. lia.
Qed.

Lemma synced_stands st x w : shape w -> synced cfg st 4 root x w -> alloc_pgtable w = Some alloc ->
  (forall j : nat, (1 <= j)%nat -> Z.of_nat j < level w ->
     indices w !! (j - 1)%nat = Some (pt_index x (Z.of_nat j))) ->
  exists k, stands alloc cfg root st x k w /\ ends_at st x k.
Proof.
  intros Hw Hs Hal Hi. destruct (synced_slots _ _ _ _ _ Hs) as (k & L & Hk & Hsl & He).
  exists k. split; [|done]. split; [done..| |done]. split; [done|].
  intros j Hj. destruct (decide (j < k)%nat); [apply Hi; lia|].
  apply (synced_indices cfg st _ _ _ _ Hs); [|done]. lia.
Qed.

(** One step forward out of a table: the walker stands at the next address
    unless the walk of it stops in a table the walker has just entered. *)
Lemma next_stands st x k w count ai fi : pt_ok alloc cfg root st -> in48 x ->
  stands alloc cfg root st x k w -> ends_at st x k -> pt_index x (Z.of_nat k) = 511 ->
  (forall j : nat, (1 <= j < k)%nat -> pt_index x (Z.of_nat j) = 0) ->
  let x' := next_virt (Z.of_nat k) x in in48 x' ->
  exists l w', ptwalker_next_with_options cfg w (Z.of_nat k) false false count ai fi st =
    Ok (E_PT_WALKER_OK, w', st) /\ ends_at st x' l /\ level w' = Z.of_nat l /\ shape w' /\
  (((l <= k)%nat \/ pt_index x' (Z.of_nat l) <> 0) -> stands alloc cfg root st x' l w').
Proof.
  intros Hok Hx Hst He H511 Hlow x' Hx'. pose proof Hst as [S1 S2 S3 [S4 S5] S6].
  pose proof (stands_synced _ _ _ _ Hst He) as Hs.
  pose proof (next_ok cfg st Hcfg (po_map _ _ _ _ Hok) root x w count ai fi false Hx S1 Hs) as Hn.
  cbv zeta in Hn. rewrite S2 in Hn. fold x' in Hn. rewrite (proj2 (Z.ltb_lt _ _)) in Hn by apply Hx'.
  destruct (walk_total st x' Hok Hx') as (l & u & e & Hv & Hr & Hend).
  destruct (Hn _ (walk_ends _ _ _ _ _ _ _ _ Hv Hr Hend)) as (w' & Hw' & Hsh & Hs').
  pose proof (S5 k S3) as Hik. rewrite H511 in Hik.
  pose proof (next_inv _ _ _ _ _ _ _ _ _ Hw' ltac:(lia) Hik) as ([Kal Kz] & c & Hc & l' & L' & Hl' & Ha1 & Ha2).
  destruct (synced_level cfg st _ _ _ _ _ _ Hs' (walk_ends _ _ _ _ _ _ _ _ Hv Hr Hend)) as [Hl _].
  assert (l' = l) as -> by (rewrite Hl in L'; by apply Nat2Z.inj in L').
  exists l, w'. split_and!; [done|by exists u, e|done|done|]. intros Hcond.
  assert (forall j : nat, (1 <= j)%nat -> Z.of_nat j < level w' ->
    indices w' !! (j - 1)%nat = Some (pt_index x' (Z.of_nat j))) as Hi.
  { intros j Hj Hjl. rewrite Hl in Hjl. pose proof (visits_level _ _ _ _ _ _ _ Hv).
    assert (indices w' !! (l - 1)%nat = Some (pt_index x' (Z.of_nat l))) as Hil.
    { apply (synced_indices cfg st _ _ _ _ Hs'); [lia|lia]. }
    assert (zero_at w' j) as Hz.
    { destruct (decide (l = c)) as [->|]; [apply Ha1; [done|lia]|].
      assert (l <= k)%nat.
      { destruct Hcond as [|Hne]; [done|]. exfalso. apply Hne.
        pose proof (Ha2 ltac:(lia)) as Hzl. unfold zero_at in Hzl. congruence. }
      apply Kz; [lia|]. unfold zero_at. rewrite (S5 j) by lia. by rewrite Hlow by lia. }
    unfold zero_at in Hz. rewrite Hz. f_equal. symmetry.
    destruct (decide (j < k)%nat); [apply pt_index_next_below; lia|].
    destruct (decide (pt_index x' (Z.of_nat j) = 0)) as [|Hne]; [done|]. exfalso.
    pose proof (same_at_next k j x ltac:(lia) ltac:(destruct Hx; lia) Hne) as Hsame. fold x' in Hsame.
    assert (same_at l x' x) as Hup by (apply same_at_sym; eapply same_at_up, Hsame; lia).
    destruct He as (u0 & e0 & Hv0 & _).
    assert (l <= k)%nat; [|lia]. eapply (visits_ends cfg); [| |done|exact Hv0].
    - eapply visits_same; [done|]. eapply same_at_up, Hup. lia.
    - by rewrite <- (same_at_index l l x' x). }
  destruct (synced_stands st x' w' Hsh Hs' ltac:(congruence) Hi) as (k' & Hst' & He').
  assert (k' = l) as ->; [|done]. destruct Hst' as [_ L2 _ _ _]. rewrite Hl in L2. lia.
Qed.

(** *** A new walker *)
Lemma create_levels_inv virt st : forall n prev (w w' : pt_walker C),
  create_levels cfg virt n prev w st = Ok w' -> (n <= 4)%nat ->
  alloc_pgtable w' = alloc_pgtable w /\
  (forall j : nat, (n <= j)%nat -> indices w' !! j = indices w !! j) /\
  forall j : nat, (1 <= j <= n)%nat -> indices w' !! (j - 1)%nat = Some (pt_index virt (Z.of_nat j)).
Proof.
  induction n as [|n IH]; intros prev w w' H Hn.
  - injection H as <-. split_and!; [done..|lia].
  - cbn [create_levels] in H. bind_inv H r Hr. destruct r as [t w1].
    assert (indices w1 = indices w /\ alloc_pgtable w1 = alloc_pgtable w) as [I1 A1].
    { destruct prev; [|by injection Hr as <- <-]. bind_inv Hr i Hi. bind_inv Hr e He.
      destruct (negb (pte_is_present e)); [by injection Hr as <- <-|]. bind_inv Hr b Hb.
      destruct (negb b || negb (pte_is_large e)); [|by injection Hr as <- <-].
      bind_inv Hr t' Ht'. by injection Hr as <- <-. }
    bind_inv H i Hi. rewrite virt_to_pt_index_eq in Hi by lia. injection Hi as <-.
    bind_inv H w2 H2. replace (Z.of_nat (S n) - 1) with (Z.of_nat n) in H2 by lia.
    apply set_slot_inv in H2 as (E1 & E2 & E3 & E4).
    destruct (IH _ _ _ H ltac:(lia)) as (A & K & Hi). split_and!; [congruence| |].
    + intros j Hj. rewrite K, E1 by lia. by rewrite list_lookup_insert_ne, I1 by lia.
    + intros j Hj. destruct (decide (j = S n)) as [->|]; [|apply Hi; lia].
      replace (S n - 1)%nat with n by lia. rewrite K, E1 by lia. by apply list_lookup_insert_eq.
Qed.

Lemma pt_index_48 virt (j : nat) : (1 <= j <= 4)%nat ->
  pt_index (virt `mod` 2 ^ 48) (Z.of_nat j) = pt_index virt (Z.of_nat j).
Proof. intros Hj. apply mod_div_index. lia. Qed.

Lemma walk_index st x y : forall n t,
  (forall j, (1 <= j <= n)%nat -> pt_index x (Z.of_nat j) = pt_index y (Z.of_nat j)) ->
  pt_walk cfg st n t x = pt_walk cfg st n t y.
Proof.
  induction n as [|n IH]; intros t Hi; [done|]. cbn [pt_walk]. rewrite (Hi (S n)) by lia.
  destruct (pte_read _ _ st) as [e| | |]; [|done..]. rewrite !outcome_bind_ok.
  destruct (_ || _); [done|]. apply IH. intros j Hj. apply Hi. lia.
Qed.

Lemma synced_index st x y w : forall n t,
  (forall j, (1 <= j <= n)%nat -> pt_index x (Z.of_nat j) = pt_index y (Z.of_nat j)) ->
  synced cfg st n t x w -> synced cfg st n t y w.
Proof.
  induction n as [|n IH]; intros t Hi; [done|]. cbn [synced]. rewrite (Hi (S n)) by lia.
  intros (H1 & H2 & e & H3 & H4). split_and!; [done..|]. exists e. split; [done|].
  destruct (_ || _); [done|]. apply IH; [|done]. intros j Hj. apply Hi. lia.
Qed.

Lemma create_inv pm virt fr st (w : pt_walker C) : in_u 64 virt ->
  ptwalker_create_for_pagemap cfg pm virt (Some alloc) fr st = Ok w ->
  alloc_pgtable w = Some alloc /\
  forall j : nat, (1 <= j <= 4)%nat -> indices w !! (j - 1)%nat = Some (pt_index virt (Z.of_nat j)).
Proof.
  intros Hu H. unfold ptwalker_create_for_pagemap, pgt_get_top_level in H. rewrite (proj1 Hcfg) in H.
  bind_inv H a1 G1. bind_inv H a2 G2. bind_inv H a3 G3. bind_inv H a4 G4. bind_inv H t G5.
  bind_inv H i Hi. rewrite virt_to_pt_index_eq in Hi by lia. injection Hi as <-.
  bind_inv H w1 H1. change (4 - 1) with (Z.of_nat 3) in H1.
  apply set_slot_inv in H1 as (E1 & E2 & E3 & E4).
  bind_inv H w2 H2. apply create_levels_inv in H2 as (A2 & K2 & I2); [|simpl; lia].
  change (Z.to_nat (4 - 1)) with 3%nat in *.
  unfold clear_above in H. change (4 =? PGT_LEVEL_COUNT) with false in H. cbv iota in H.
  bind_inv H w3 H3. change 4 with (Z.of_nat 4) in H3. apply set_slot_inv in H3 as (F1 & F2 & F3 & F4).
  change (Z.of_nat 4 + 1 =? PGT_LEVEL_COUNT) with true in H. injection H as <-.
  split; [simpl in *; congruence|]. intros j Hj. rewrite F1, list_lookup_insert_ne by lia.
  destruct (decide (j = 4%nat)) as [->|]; [|apply I2; lia].
  rewrite K2 by lia. by rewrite E1.
Qed.

Lemma create_stands pm virt fr st : root = Walker.root pm -> pt_ok alloc cfg root st ->
  in_u 64 root -> root `mod` PAGE_SIZE = 0 -> in_u 64 virt -> virt `mod` PAGE_SIZE = 0 ->
  exists k (w : pt_walker C),
    ptwalker_create_for_pagemap cfg pm virt (Some alloc) fr st = Ok w /\
    stands alloc cfg root st (virt `mod` 2 ^ 48) k w /\ ends_at st (virt `mod` 2 ^ 48) k.
Proof.
  intros Er Hok Hru Hra Hvu Hva. set (x := virt `mod` 2 ^ 48).
  assert (in48 x) as Hx by (apply Z.mod_pos_bound; lia).
  destruct (walk_total st x Hok Hx) as (k & u & e & Hv & He & Hend).
  pose proof (walk_ends _ _ _ _ _ _ _ _ Hv He Hend) as Hwalk.
  assert (forall j, (1 <= j <= 4)%nat -> pt_index virt (Z.of_nat j) = pt_index x (Z.of_nat j)) as Hidx.
  { intros j Hj. symmetry. by apply pt_index_48. }
  rewrite <- (walk_index st virt x) in Hwalk by done. rewrite Er in Hru, Hra, Hwalk.
  destruct (create_ok cfg st Hcfg (po_map _ _ _ _ Hok) pm virt (Some alloc) fr _ _ Hru Hra Hvu Hva Hwalk)
    as (w & Hw & Hsh & Hs).
  destruct (create_inv _ _ _ _ _ Hvu Hw) as [Ha Hi]. rewrite <- Er in Hs.
  apply (synced_index st virt x w 4 _ Hidx) in Hs.
  destruct (synced_level _ _ _ _ _ _ _ _ Hs (walk_ends _ _ _ _ _ _ _ _ Hv He Hend)) as [Hl _].
  destruct (synced_stands st x w Hsh Hs Ha) as (k' & Hst & He').
  { intros j Hj Hjl. pose proof (visits_level _ _ _ _ _ _ _ Hv). rewrite <- Hidx by lia. apply Hi. lia. }
  exists k', w. done.
Qed.
End moving.
