(* ===== verification/PgMapInv.v ===== *)
(** * The loops of pgmap.c

    What the functions that map a range without overwriting do to the walks of
    all addresses, on the tree of PgTables.v. *)
From S2P Require Import Prelude CArith Range PageAlloc PageBlocks PageAllocInv Walker WalkerInv PgMap PgTables.

(** ** Steps of the size of a level *)
Definition lsize (k : nat) : Z := level_size (Z.of_nat k).

Lemma lsize_pos k : 0 < lsize k.
Proof. apply level_size_pos. lia. Qed.
Lemma lsize_succ k : lsize (S k) = 512 * lsize k.
Proof. unfold lsize. rewrite <- level_size_succ by lia. f_equal. lia. Qed.

Lemma page_size_at k : (1 <= k <= 5)%nat -> PAGE_SIZE_AT_LEVEL (Z.of_nat k) = Ok (lsize k).
Proof.
  intros Hk. assert (k = 1 \/ k = 2 \/ k = 3 \/ k = 4 \/ k = 5)%nat as H by lia.
  by destruct H as [->|[->|[->|[->| ->]]]].
Qed.

Lemma aligned_next k x : x `mod` lsize k = 0 -> next_virt (Z.of_nat k) x = x + lsize k.
Proof.
  intros Ha. pose proof (lsize_pos k). unfold next_virt. fold (lsize k).
  pose proof (Z.div_mod x (lsize k) ltac:(lia)). lia.
Qed.

Lemma aligned_add k x : x `mod` lsize k = 0 -> (x + lsize k) `mod` lsize k = 0.
Proof. intros Ha. pose proof (lsize_pos k). rewrite Z.add_mod, Ha, Z.mod_same by lia. by rewrite Z.mod_0_l by lia. Qed.

Lemma same_at_aligned k x y : x `mod` lsize k = 0 -> same_at k x y <-> x <= y < x + lsize k.
Proof.
  intros Ha. pose proof (lsize_pos k). unfold same_at. fold (lsize k).
  pose proof (Z.div_mod x (lsize k) ltac:(lia)). pose proof (Z.div_mod y (lsize k) ltac:(lia)).
  pose proof (Z.mod_pos_bound y (lsize k) ltac:(lia)). split; [intros E; rewrite <- E in *; lia|].
  intros Hy. nia.
Qed.

(** Not the last entry of its table: the next one is in the same table. *)
Lemma next_entry k x : x `mod` lsize k = 0 -> pt_index x (Z.of_nat k) <> 511 ->
  pt_index (x + lsize k) (Z.of_nat k) = pt_index x (Z.of_nat k) + 1 /\
  same_at (S k) x (x + lsize k).
Proof.
  intros Ha Hi. rewrite <- aligned_next by done. split; [by apply pt_index_next_same; [lia|]|].
  unfold same_at. replace (Z.of_nat (S k)) with (Z.of_nat k + 1) by lia.
  symmetry. by apply div_next_above; [lia| |lia].
Qed.

(** The entries up to the end of the table are below 2^48. *)
Lemma in_table k x c : in48 x -> (1 <= k <= 4)%nat -> x `mod` lsize k = 0 -> 0 <= c ->
  pt_index x (Z.of_nat k) + c <= 512 -> x + c * lsize k <= 2 ^ 48.
Proof.
  intros Hx Hk Ha Hc Hi. pose proof (lsize_pos k).
  assert (2 ^ 48 = level_size (Z.of_nat k + 1 + Z.of_nat (4 - k))) as E.
  { replace (Z.of_nat k + 1 + Z.of_nat (4 - k)) with 5 by lia. done. }
  rewrite level_size_add, level_size_succ in E by lia. fold (lsize k) in E.
  pose proof (pow2_pos (9 * Z.of_nat (4 - k)) ltac:(lia)). set (m := 2 ^ (9 * Z.of_nat (4 - k))) in *.
  unfold pt_index in Hi. fold (lsize k) in Hi.
  pose proof (Z.div_mod x (lsize k) ltac:(lia)). set (q := x / lsize k) in *.
  pose proof (Z.div_mod q 512 ltac:(lia)). pose proof (Z.mod_pos_bound q 512 ltac:(lia)).
  assert (q / 512 < m); [|unfold in48 in Hx; nia].
  apply Z.div_lt_upper_bound; [lia|]. unfold in48 in Hx. nia.
Qed.

(** The checks of [pgmap_at] on its arguments. *)
Definition map_args_ok (phys : range) (virt : Z) : bool :=
  bool_decide (0 < size phys /\ front phys + size phys < 2 ^ 64 /\ front phys `mod` PAGE_SIZE = 0 /\
    size phys `mod` PAGE_SIZE = 0 /\ virt + size phys < 2 ^ 64 /\ virt `mod` PAGE_SIZE = 0).

Lemma range_aligned r : in_u 64 (front r) -> in_u 64 (size r) ->
  range_has_align r PAGE_SIZE = Ok ((front r `mod` PAGE_SIZE =? 0) && (size r `mod` PAGE_SIZE =? 0)).
Proof.
  intros Hf Hs. unfold range_has_align. change PAGE_SIZE with (2 ^ 12).
  rewrite !has_align_eq by (done || lia). rewrite outcome_bind_ok. by case_match.
Qed.

Lemma pgmap_at_checks cpu lock cfg early pm phys virt o st : in_u 64 (front phys) ->
  in_u 64 (size phys) -> in_u 64 virt -> map_args_ok phys virt = false ->
  pgmap_at cpu lock cfg early pm phys virt o st = Ok (false, st).
Proof.
  intros Hf Hs Hv Hb. unfold pgmap_at, range_empty, range_overflows, range_get_end, check_add.
  apply bool_decide_eq_false in Hb. cbn [fst].
  destruct (Z.eqb_spec (size phys) 0) as [|E1]; [done|].
  destruct (Z.ltb_spec (front phys + size phys) (2 ^ 64)) as [E2|]; [|done]. cbn [negb].
  rewrite (range_aligned phys), outcome_bind_ok by done.
  destruct (Z.eqb_spec (front phys `mod` PAGE_SIZE) 0) as [E3|]; [|done].
  destruct (Z.eqb_spec (size phys `mod` PAGE_SIZE) 0) as [E4|]; [|done]. cbn [negb andb front size].
  destruct (Z.ltb_spec (virt + size phys) (2 ^ 64)) as [E5|]; [|done]. cbn [negb].
  rewrite range_aligned, outcome_bind_ok by done. cbn [front size].
  destruct (Z.eqb_spec (virt `mod` PAGE_SIZE) 0) as [E6|]; [|done].
  exfalso. apply Hb. unfold_ints. split_and!; try done; lia.
Qed.

Lemma pgmap_at_enters cpu lock cfg early pm phys virt o st w : in_u 64 (front phys) ->
  in_u 64 (size phys) -> in_u 64 virt -> map_args_ok phys virt = true -> is_overwrite o = false ->
  ptwalker_create_for_pagemap cfg pm virt
    (Some (if is_in_early o then early else ptwalker_alloc_pgtable_cb lock))
    (if is_in_early o then None else Some ptwalker_free_pgtable_cb) st = Ok w ->
  pgmap_at cpu lock cfg early pm phys virt o st =
    ('(result, s) ← map_with cfg o phys virt (Some CURRENT_SPLIT_INFO_INIT) w None st;
     Ok (result, mem s)).
Proof.
  intros Hf Hs Hv Hb Hov Hw. unfold pgmap_at, range_empty, range_overflows, range_get_end, check_add.
  apply bool_decide_eq_true in Hb as (E1 & E2 & E3 & E4 & E5 & E6). cbn [fst].
  rewrite (proj2 (Z.eqb_neq (size phys) 0)), (proj2 (Z.ltb_lt _ _) E2) by lia. cbn [negb].
  rewrite (range_aligned phys), outcome_bind_ok, E3, E4 by done. cbn [negb andb front size Z.eqb].
  rewrite (proj2 (Z.ltb_lt _ _) E5). cbn [negb].
  rewrite range_aligned, outcome_bind_ok by done. cbn [front size].
  rewrite E4, E6, Hov. cbn [negb andb Z.eqb].
  assert ((if is_in_early o then ptwalker_create_for_pagemap cfg pm virt (Some early) None st
    else default_walker lock cfg pm virt st) = Ok w) as ->.
  { unfold default_walker, ptwalker_default_for_pagemap. by destruct (is_in_early o). }
  rewrite !outcome_bind_ok. simpl.
  by destruct (map_with _ _ _ _ _ _ _ _) as [[] | | |].
Qed.

Section loops.
Context (alloc : ptwalker_alloc_pgtable_t pageop) `{PA : !PgtableAlloc alloc}.
Context (cfg : paging) (root : Z) (o : pgmap_options).
Implicit Types (w : pt_walker pageop).
Hypothesis Hcfg : cfg_ok cfg.
Hypothesis Hflags : Z.land (pte_flags o) PTE_PHYS_MASK = 0.
Abbreviation at_level st x k t := (visits cfg st x 4 root k t).
Abbreviation pt_ok := (pt_ok alloc cfg root).
Abbreviation walk st x := (pt_walk cfg st 4 root x).

(** [c] entries of level [k] from [x] on, with the given values. *)
Definition filled (k : nat) (x c : Z) (entry : Z -> Z) (st st' : mm) : Prop :=
  pt_ok st' /\
  (forall y j s, in48 y -> at_level st' y j s <-> at_level st y j s) /\
  (forall y, in48 y -> walk st' y =
     if decide (x <= y < x + c * lsize k) then Ok (Z.of_nat k, entry ((y - x) / lsize k))
     else walk st y).

Lemma filled_one k x t e e0 st p : pt_ok st -> in48 x -> x `mod` lsize k = 0 ->
  at_level st x k t -> find_pfn (sections st) t = Some p ->
  pte_read (Some t) (pt_index x (Z.of_nat k)) st = Ok e0 -> ends cfg k e0 ->
  ends cfg k (e 0) -> pte_is_present (e 0) = true ->
  filled k x 1 e st (put_entry p (pt_index x (Z.of_nat k)) (e 0) st).
Proof.
  intros Hok Hx Ha Ht Hp He0 Hend0 Hend Hpres.
  destruct (put_leaf alloc cfg root st x k t p e0 (e 0)) as (H1 & H2 & H3); [done..|].
  split_and!; [done..|]. intros y Hy. rewrite H3 by done. rewrite Z.mul_1_l.
  case_decide as Hs; rewrite same_at_aligned in Hs by done; [rewrite decide_True|rewrite decide_False]; [|done..].
  rewrite Z.div_small by lia. done.
Qed.

Lemma filled_more k x c e st st1 st2 : 0 <= c -> filled k x 1 e st st1 ->
  filled k (x + lsize k) c (fun i => e (i + 1)) st1 st2 -> filled k x (c + 1) e st st2.
Proof.
  intros Hc (A1 & A2 & A3) (B1 & B2 & B3). pose proof (lsize_pos k). split_and!; [done| |].
  - intros y j s Hy. rewrite B2, A2 by done. done.
  - intros y Hy. rewrite B3, A3 by done. repeat case_decide; try lia; try done; try nia.
    replace (y - x) with (y - (x + lsize k) + 1 * lsize k) by lia. by rewrite Z.div_add by lia.
Qed.

Definition leaf_at (phys i : Z) : Z := leaf_entry (phys + i * PAGE_SIZE) o.

(** A range of physical pages below 2^48. *)
Definition phys_ok (phys pe : Z) : Prop :=
  0 <= phys /\ phys `mod` PAGE_SIZE = 0 /\ pe `mod` PAGE_SIZE = 0 /\ pe <= 2 ^ 48.

Lemma phys_step phys pe : phys_ok phys pe -> phys < pe ->
  u64 (phys + PAGE_SIZE) = phys + PAGE_SIZE /\ phys + PAGE_SIZE <= pe /\ phys_ok (phys + PAGE_SIZE) pe.
Proof.
  intros (H1 & H2 & H3 & H4) Hlt. change PAGE_SIZE with 4096 in *.
  assert (phys + 4096 <= pe) as Hle.
  { pose proof (Z.div_mod phys 4096 ltac:(lia)). pose proof (Z.div_mod pe 4096 ltac:(lia)). lia. }
  unfold phys_ok. change PAGE_SIZE with 4096.
  split_and!; [apply wrap_small; unfold_ints; lia|done|lia| |done|done].
  rewrite Z.add_mod, H2 by lia. done.
Qed.

Lemma write_pages_ok t pe : forall fuel st x phys, pt_ok st -> in48 x -> x `mod` PAGE_SIZE = 0 ->
  at_level st x 1 t -> phys_ok phys pe -> phys < pe -> 512 - pt_index x 1 <= Z.of_nat fuel ->
  exists c st', write_pages fuel (Some t) (pt_index x 1) phys pe o st =
    Ok (pt_index x 1 + c =? 512, pt_index x 1 + c, phys + c * PAGE_SIZE, st') /\
  1 <= c /\ pt_index x 1 + c <= 512 /\ phys + c * PAGE_SIZE <= pe /\
  (pt_index x 1 + c = 512 \/ phys + c * PAGE_SIZE = pe) /\ filled 1 x c (leaf_at phys) st st'.
Proof.
  induction fuel as [|fuel IH]; intros st x phys Hok Hx Ha Ht Hph Hlt Hf.
  { pose proof (pt_index_bounds x 1). lia. }
  pose proof (pt_index_bounds x 1) as Hb. change PAGE_SIZE with (lsize 1) in Ha.
  destruct (po_table _ _ _ _ Hok x 1 t Hx Ht) as (p & fr & T).
  destruct (pte_read_ok _ _ _ _ (pt_index x 1) (to_table _ _ _ _ _ T) Hb) as (e0 & _ & He0).
  destruct (phys_step _ _ Hph Hlt) as (Hu & Hle & Hph'). pose proof Hph as (P1 & P2 & P3 & P4).
  destruct (leaf_entry_ok phys o ltac:(lia) P2 Hflags) as [_ Hpres].
  cbn [write_pages]. rewrite (pte_write_ok st t p fr) by (apply T || done). rewrite outcome_bind_ok, Hu.
  assert (filled 1 x 1 (leaf_at phys) st
    (put_entry p (pt_index x 1) (leaf_entry phys o) st)) as Hone.
  { assert (leaf_at phys 0 = leaf_entry phys o) as <- by (unfold leaf_at; f_equal; lia).
    apply (filled_one 1 x t _ e0); [done..|apply T|done|by left|by left|].
    unfold leaf_at. by rewrite Z.add_0_r. }
  set (st1 := put_entry _ _ _ _) in *. change PGT_PTE_COUNT with 512.
  destruct (Z.eqb_spec (pt_index x 1 + 1) 512) as [E|E].
  - exists 1, st1. rewrite (proj2 (Z.eqb_eq _ _) E), Z.mul_1_l. split_and!; [done|lia..|by left|done].
  - destruct (Z.eqb_spec (phys + PAGE_SIZE) pe) as [Epe|Epe].
    + exists 1, st1. rewrite (proj2 (Z.eqb_neq _ _) E), Z.mul_1_l.
      split_and!; [done|lia..|by right|done].
    + destruct (next_entry 1 x Ha) as [Hi Hs]; [change (Z.of_nat 1) with 1; lia|].
      change (Z.of_nat 1) with 1 in Hi.
      pose proof (in_table 1 x 2 Hx ltac:(lia) Ha ltac:(lia)) as Hend.
      change (pt_index x (Z.of_nat 1)) with (pt_index x 1) in Hend. specialize (Hend ltac:(lia)).
      pose proof Hone as (Hok1 & Hv1 & _). pose proof (lsize_pos 1).
      assert (in48 (x + lsize 1)) as Hx1 by (unfold in48 in *; lia).
      destruct (IH st1 (x + lsize 1) (phys + PAGE_SIZE)) as (c & st' & Hw & C1 & C2 & C3 & C4 & Hfill);
        [done|done|by apply (aligned_add 1)| |done|lia|lia|].
      { apply Hv1; [done|]. eapply visits_same; [done|]. done. }
      rewrite <- Hi, Hw. exists (c + 1), st'. rewrite Hi in *.
      replace (pt_index x 1 + (c + 1)) with (pt_index x 1 + 1 + c) by lia.
      replace (phys + (c + 1) * PAGE_SIZE) with (phys + PAGE_SIZE + c * PAGE_SIZE) by lia.
      split_and!; [done|lia..|done|]. eapply filled_more; [lia|done|].
      destruct Hfill as (F1 & F2 & F3). split_and!; [done..|]. intros y Hy. rewrite F3 by done.
      unfold leaf_at. case_decide; [|done]. do 3 f_equal. lia.
Qed.

(** ** What stays of the walk of an address *)

(** The walk is the same, or it ended at an absent entry and now ends at one
    further down. *)
Definition kept (st st' : mm) (y : Z) : Prop :=
  walk st' y = walk st y \/
  exists (k l : nat) e, walk st y = Ok (Z.of_nat k, e) /\ pte_is_present e = false /\
    walk st' y = Ok (Z.of_nat l, 0) /\ (l < k)%nat.

(** No large page is mapped at [y]. *)
Definition open (st : mm) (y : Z) : Prop :=
  forall (k : nat) e, walk st y = Ok (Z.of_nat k, e) -> k = 1%nat \/ pte_is_present e = false.

(** A walker that leaves a table for [g] does not keep a stale slot. *)
Definition quiet (st : mm) (g : Z) : Prop :=
  forall (k : nat) e, walk st g = Ok (Z.of_nat k, e) -> (k <= 1)%nat \/ pt_index g (Z.of_nat k) <> 0.

Lemma kept_refl st y : kept st st y.
Proof. by left. Qed.

Lemma walk_level_nat st y l e : walk st y = Ok (l, e) -> exists k : nat, l = Z.of_nat k.
Proof. intros H%pt_walk_level. exists (Z.to_nat l). lia. Qed.

Lemma kept_trans st st1 st2 y : kept st st1 y -> kept st1 st2 y -> kept st st2 y.
Proof.
  intros [A|(k & l & e & A1 & A2 & A3 & A4)] [B|(k' & l' & e' & B1 & B2 & B3 & B4)].
  - left. congruence.
  - right. exists k', l', e'. split_and!; [congruence|done..].
  - right. exists k, l, e. split_and!; [done..|congruence|done].
  - right. exists k, l', e. rewrite A3 in B1. injection B1 as E _. apply Nat2Z.inj in E.
    split_and!; [done..|lia].
Qed.

Lemma kept_open st st' y : kept st st' y -> open st y -> open st' y.
Proof.
  intros [A|(k & l & e & A1 & A2 & A3 & A4)] Ho k' e' Hw; [rewrite A in Hw; by apply (Ho k')|].
  rewrite A3 in Hw. injection Hw as _ <-. by right.
Qed.

Lemma kept_deep st st' y (k : nat) e : kept st st' y -> walk st' y = Ok (Z.of_nat k, e) ->
  exists k' e', walk st y = Ok (Z.of_nat k', e') /\ (k <= k')%nat.
Proof.
  intros [A|(k' & l & e' & A1 & A2 & A3 & A4)] Hw; [exists k, e; by rewrite <- A|].
  rewrite A3 in Hw. injection Hw as E _. apply Nat2Z.inj in E. exists k', e'. split; [done|lia].
Qed.

Lemma grown_kept x k0 last st st' y : grown cfg root x k0 last st st' -> in48 x -> in48 y ->
  (exists e, walk st x = Ok (Z.of_nat k0, e) /\ pte_is_present e = false) ->
  no_entry cfg root st x k0 -> kept st st' y.
Proof.
  intros [G _] Hx Hy _ (u & e & Hv & He & Habs). specialize (G y Hy). case_decide as Hs; [|by left].
  destruct G as (l & Hl & Hb & _). right. exists k0, l, e. split_and!; [|done|done|lia].
  apply (walk_ends cfg st y 4 root k0 u); [| |right; unfold stops; by rewrite Habs].
  - eapply visits_same; [done|]. eapply same_at_up, Hs. lia.
  - by rewrite <- (same_at_index k0 k0 x y).
Qed.

Lemma index_after (l : nat) x g : in48 x -> x < g -> same_at (S l) x g -> ~ same_at l x g ->
  pt_index g (Z.of_nat l) <> 0.
Proof.
  unfold same_at, pt_index. replace (Z.of_nat (S l)) with (Z.of_nat l + 1) by lia.
  rewrite !div_level_succ by lia. intros Hx Hlt H1 H2.
  assert (x / level_size (Z.of_nat l) <= g / level_size (Z.of_nat l)).
  { apply Z.div_le_mono; [apply level_size_pos|]; lia. }
  set (a := x / _) in *. set (b := g / level_size (Z.of_nat l)) in *.
  pose proof (Z.div_mod a 512 ltac:(lia)). pose proof (Z.div_mod b 512 ltac:(lia)).
  pose proof (Z.mod_pos_bound a 512 ltac:(lia)). lia.
Qed.

Lemma grown_quiet x k0 st st' g : grown cfg root x k0 1 st st' -> in48 x -> in48 g -> x < g ->
  quiet st g -> quiet st' g.
Proof.
  intros [G _] Hx Hg Hlt Hq k e Hw. specialize (G g Hg). case_decide as Hs.
  - destruct G as (l & Hl & Hb & Hup & Hor). rewrite Hl in Hw. injection Hw as E _.
    apply Nat2Z.inj in E as ->. destruct Hor as [->|Hn]; [by left|]. right.
    by apply (index_after k x g).
  - rewrite G in Hw. by apply (Hq k e).
Qed.

(** ** Filling in and moving, as pgmap.c calls them *)

(** Tables are missing for an address of the range and cannot be had. *)
Definition starved (st : mm) (x xe : Z) : Prop :=
  exists y (k : nat) e st1, x <= y < xe /\ walk st y = Ok (Z.of_nat k, e) /\ (1 < k)%nat /\
    pt_ok st1 /\ pa_exhausted st1 /\
    forall z, in48 z -> ~ x <= z < y -> kept st st1 z.

(** What the functions do not touch besides the walker and memory. *)
Definition same_frame (s s' : map_state) : Prop := curr_split s' = curr_split s /\ op s' = op s.

Lemma fill_in_to_ok x k s : in48 x -> pt_ok (mem s) -> stands alloc cfg root (mem s) x k (walker s) ->
  ends_at cfg root (mem s) x k -> open (mem s) x ->
  (exists s', fill_in_to cfg o 1 s = Ok s' /\ same_frame s s' /\ pt_ok (mem s') /\
     stands alloc cfg root (mem s') x 1 (walker s') /\
     (forall y, in48 y -> kept (mem s) (mem s') y) /\
     (forall g, in48 g -> x < g -> quiet (mem s) g -> quiet (mem s') g)) \/
  (is_ok (fill_in_to cfg o 1 s) = false /\ starved (mem s) x (x + 1)).
Proof.
  intros Hx Hok Hst Hends Hopen. pose proof Hends as (u & e & Hv & He & Hend).
  pose proof (walk_ends _ _ _ _ _ _ _ _ Hv He Hend) as Hwalk.
  unfold fill_in_to. destruct (decide (k = 1%nat)) as [->|Hk].
  - left. unfold ptwalker_fill_in_to. rewrite (sd_level _ _ _ _ _ _ _ Hst), Z.leb_refl, outcome_bind_ok.
    simpl. eexists. split; [done|]. destruct s. split_and!; [done..| |done]. intros. apply kept_refl.
  - pose proof (sd_range _ _ _ _ _ _ _ Hst) as Hr.
    assert (no_entry cfg root (mem s) x k) as Hno.
    { exists u, e. split_and!; [done..|]. by destruct (Hopen _ _ Hwalk). }
    destruct (fill_ok alloc cfg root x k 1 (should_ref o) (alloc_pgtable_cb_info o)
      (free_pgtable_cb_info o) (mem s) (walker s) Hx ltac:(lia) Hok Hst ltac:(lia) Hno)
      as [(w' & st' & E & Hok' & Hst' & Hno' & Hg)|(E & st1 & Hok1 & Hex & Hor)];
      change (Z.of_nat 1) with 1 in E.
    + left. rewrite E, outcome_bind_ok. simpl. eexists. split; [done|]. split_and!; [done..| |].
      * intros y Hy. eapply grown_kept; eauto. exists e. split; [done|].
        by destruct (Hopen _ _ Hwalk).
      * intros g Hg' Hlt. by eapply grown_quiet.
    + right. split.
      * destruct (ptwalker_fill_in_to _ _ _ _ _ _ _) as [[[[] w'] st']| | |]; done.
      * exists x, k, e, st1. split_and!; [lia|lia|done|lia|done|done|].
        intros z Hz _. destruct Hor as [->|(k' & Hk' & Hg)]; [apply kept_refl|].
        eapply grown_kept; eauto. exists e. split; [done|]. by destruct (Hopen _ _ Hwalk).
Qed.

(** ** Mapping small pages *)

(** After mapping [x, x') to the pages from [phys] on. *)
Definition mapped (x x' phys : Z) (st st' : mm) : Prop :=
  forall y, in48 y ->
    if decide (x <= y < x') then walk st' y = Ok (1, leaf_at phys ((y - x) / PAGE_SIZE))
    else kept st st' y.

(** The addresses from [x] on stay places where the walker can go on. *)
Definition calm (x : Z) (st st' : mm) : Prop :=
  forall g, in48 g -> x <= g -> quiet st g -> quiet st' g.

Definition GIB : Z := 2 ^ 30.
(** What mapping the range [x, xe) with small pages needs: no large page in it,
    no stale slot at a multiple of 1 GiB, and an end that is not the end of a
    table of level 1 - unless it is that of a table of level 2. *)
Record can_map (st : mm) (x xe : Z) : Prop := {
  cm_start : 0 <= x /\ x `mod` PAGE_SIZE = 0;
  cm_end : x < xe < 2 ^ 48;
  cm_open : forall y, x <= y < xe -> open st y;
  cm_quiet : forall g, x < g <= xe -> g `mod` GIB = 0 -> quiet st g;
  cm_tail : xe `mod` 2 ^ 21 <> 0 \/ xe `mod` GIB = 0;
}.

Lemma leaf_present phys i : pte_is_present (leaf_at phys i) = true.
Proof. unfold leaf_at, leaf_entry. by rewrite present_bit, !Z.lor_spec, orb_true_r. Qed.

Lemma can_map_later st st' x x' xe phys : can_map st x xe -> x <= x' < xe -> x' `mod` PAGE_SIZE = 0 ->
  mapped x x' phys st st' -> calm x' st st' -> can_map st' x' xe.
Proof.
  intros [C1 C2 C3 C4 C5] Hx' Ha Hm Hc. split; [lia|lia| | |done].
  - intros y Hy. specialize (Hm y ltac:(unfold in48; lia)). rewrite decide_False in Hm by lia.
    eapply kept_open, C3; [done|lia].
  - intros g Hg Hgib. apply Hc; [unfold in48; lia|lia|]. apply C4; [lia|done].
Qed.

Lemma mapped_trans x x1 x2 phys st st1 st2 : x <= x1 <= x2 -> (x1 - x) `mod` PAGE_SIZE = 0 ->
  mapped x x1 phys st st1 -> mapped x1 x2 (phys + (x1 - x)) st1 st2 -> mapped x x2 phys st st2.
Proof.
  intros Hx Ha H1 H2 y Hy. specialize (H1 y Hy). specialize (H2 y Hy).
  destruct (decide (x <= y < x1)) as [Hin|Hin].
  - rewrite decide_False in H2 by lia. rewrite decide_True by lia.
    destruct H2 as [->|(k & l & e & A & B & _)]; [done|].
    rewrite H1 in A. injection A as _ <-. by rewrite leaf_present in B.
  - destruct (decide (x1 <= y < x2)).
    + rewrite decide_True by lia. rewrite H2. unfold leaf_at. do 3 f_equal.
      change PAGE_SIZE with 4096 in *. pose proof (Z.div_mod (x1 - x) 4096 ltac:(lia)) as E.
      rewrite Ha, Z.add_0_r in E.
      replace (y - x) with (y - x1 + (x1 - x) / 4096 * 4096) by lia. rewrite Z.div_add by lia. lia.
    + rewrite decide_False by lia. by eapply kept_trans.
Qed.

Lemma starved_later x x' xe phys st st' : x <= x' -> mapped x x' phys st st' -> in48 xe -> 0 <= x ->
  starved st' x' xe -> starved st x xe.
Proof.
  intros Hx Hm Hxe H0 (y & k & e & st1 & Hy & Hw & Hk & Hok & Hex & Hkept).
  assert (forall z, in48 z -> ~ x <= z < x' -> kept st st' z) as Hkk.
  { intros z Hz Hn. specialize (Hm z Hz). by rewrite decide_False in Hm. }
  destruct (kept_deep st st' y k e) as (k' & e' & Hw' & Hle); [|done|].
  { apply Hkk; [unfold in48 in *; lia|lia]. }
  exists y, k', e', st1. split_and!; [lia|lia|done|lia|done|done|].
  intros z Hz Hn. eapply kept_trans; [apply Hkk; [done|lia]|]. apply Hkept; [done|lia].
Qed.

(** The walker at the last entry of the table it has filled. *)
Lemma stands_end st st' x c w : in48 x -> stands alloc cfg root st x 1 w -> x `mod` PAGE_SIZE = 0 ->
  pt_index x 1 + c = 512 -> 1 <= c ->
  (forall y j s, in48 y -> at_level st' y j s <-> at_level st y j s) ->
  let x1 := x + (c - 1) * PAGE_SIZE in
  same_at 2 x x1 /\ in48 x1 /\ pt_index x1 1 = 511 /\ next_virt 1 x1 = x + c * PAGE_SIZE /\
  exists w', set_index 0 511 w = Ok w' /\ stands alloc cfg root st' x1 1 w'.
Proof.
  intros Hx Hst Ha Hc H1 Hv x1. change PAGE_SIZE with (lsize 1) in *.
  assert (forall i : nat, Z.of_nat i + pt_index x 1 < 512 -> same_at 2 x (x + Z.of_nat i * lsize 1) /\
    in48 (x + Z.of_nat i * lsize 1) /\ (x + Z.of_nat i * lsize 1) `mod` lsize 1 = 0 /\
    pt_index (x + Z.of_nat i * lsize 1) 1 = pt_index x 1 + Z.of_nat i) as Hi.
  { induction i as [|i IH]; intros Hlt.
    - replace (x + Z.of_nat 0 * lsize 1) with x by lia. split_and!; [done..|lia].
    - destruct (IH ltac:(lia)) as (I1 & I2 & I3 & I4).
      replace (x + Z.of_nat (S i) * lsize 1) with (x + Z.of_nat i * lsize 1 + lsize 1) by lia.
      destruct (next_entry 1 _ I3) as [N1 N2]; [change (Z.of_nat 1) with 1; lia|].
      change (Z.of_nat 1) with 1 in N1. pose proof (lsize_pos 1).
      pose proof (in_table 1 _ 2 I2 ltac:(lia) I3 ltac:(lia)) as Hend.
      change (Z.of_nat 1) with 1 in Hend. specialize (Hend ltac:(lia)).
      split_and!; [by eapply same_at_trans|unfold in48 in *; lia|by apply (aligned_add 1)|lia]. }
  destruct (Hi (Z.to_nat (c - 1)) ltac:(lia)) as (I1 & I2 & I3 & I4).
  rewrite Z2Nat.id in * by lia. fold x1 in I1, I2, I3, I4.
  split_and!; [done|done|lia| |].
  { change 1 with (Z.of_nat 1) at 1. rewrite aligned_next by done. unfold x1. lia. }
  destruct Hst as [S1 S2 S3 [S4 S5] S6].
  destruct (set_index_ok w 0 511 S1 ltac:(lia)) as (w' & E & T & I & L & K & _).
  change (Z.of_nat 0) with 0 in E. exists w'. split; [done|].
  split; [apply K|congruence|done| |by destruct K as (_ & _ & -> & _)]. split.
  - intros j Hj. destruct (S4 j Hj) as (u & Hu & Huv). exists u. rewrite T. split; [done|].
    apply Hv; [done|]. eapply visits_same; [done|]. eapply same_at_up, I1. lia.
  - intros j Hj. rewrite I. destruct (decide (j = 1%nat)) as [->|].
    + change (Z.of_nat 1) with 1. rewrite I4. destruct S1 as (_ & Hlen & _).
      rewrite list_lookup_insert_eq by lia. f_equal. lia.
    + rewrite list_lookup_insert_ne, S5 by lia. f_equal. apply (same_at_index 2); [done|lia].
Qed.

Lemma index_zero_aligned (k : nat) x : x `mod` lsize k = 0 -> pt_index x (Z.of_nat k) = 0 ->
  x `mod` lsize (S k) = 0.
Proof.
  intros Ha Hi. pose proof (lsize_pos k). unfold pt_index in Hi. fold (lsize k) in Hi.
  pose proof (Z.div_mod x (lsize k) ltac:(lia)). pose proof (Z.div_mod (x / lsize k) 512 ltac:(lia)).
  rewrite lsize_succ. apply Z.mod_divide; [lia|]. exists (x / lsize k / 512). lia.
Qed.

Lemma aligned_index_zero (k j : nat) x : x `mod` lsize k = 0 -> (j < k)%nat ->
  pt_index x (Z.of_nat j) = 0.
Proof.
  intros Ha Hj. pose proof (lsize_pos k). pose proof (Z.div_mod x (lsize k) ltac:(lia)) as E.
  rewrite Ha, Z.add_0_r in E. unfold pt_index. fold (lsize j). pose proof (lsize_pos j).
  assert (exists m, lsize k = m * 512 * lsize j) as [m Hm].
  { clear -Hj. induction Hj as [|k Hk [m IH]].
    - exists 1. rewrite lsize_succ. lia.
    - exists (512 * m). rewrite lsize_succ, IH. lia. }
  rewrite E, Hm. replace (m * 512 * lsize j * (x / (m * 512 * lsize j)))
    with (m * (x / (m * 512 * lsize j)) * 512 * lsize j) by lia.
  rewrite Z.div_mul by lia. by apply Z.mod_mul.
Qed.

(** Moving on from the last entry of a table of level 1. *)
Lemma next_at_ok x1 s : pt_ok (mem s) -> in48 x1 -> stands alloc cfg root (mem s) x1 1 (walker s) ->
  pt_index x1 1 = 511 -> let x' := next_virt 1 x1 in in48 x' ->
  (x' `mod` GIB = 0 -> quiet (mem s) x') ->
  exists l s', next_at cfg o 1 s = Ok s' /\ mem s' = mem s /\ same_frame s s' /\
    ends_at cfg root (mem s) x' l /\ stands alloc cfg root (mem s) x' l (walker s').
Proof.
  intros Hok Hx Hst H511 x' Hx' Hq.
  assert (ends_at cfg root (mem s) x1 1) as Hends.
  { destruct (sd_slots _ _ _ _ _ _ _ Hst) as [S4 _]. destruct (S4 1%nat ltac:(lia)) as (u & _ & Hv).
    destruct (po_table _ _ _ _ Hok _ _ _ Hx Hv) as (p & fr & T).
    destruct (pte_read_ok _ _ _ _ (pt_index x1 1) (to_table _ _ _ _ _ T) (pt_index_bounds _ _)) as (e & _ & He).
    exists u, e. split_and!; [done..|by left]. }
  destruct (next_stands alloc cfg root Hcfg (mem s) x1 1 (walker s) (should_ref o)
    (alloc_pgtable_cb_info o) (free_pgtable_cb_info o) Hok Hx Hst Hends H511)
    as (l & w' & E & Hends' & Hl & Hsh & Hstands); [lia|done|].
  change (Z.of_nat 1) with 1 in *. fold x' in Hends', Hstands.
  exists l, (set_walker w' (mem s) s). unfold next_at. rewrite E, outcome_bind_ok. simpl.
  split_and!; [done..|]. apply Hstands. clear Hstands.
  assert (x' `mod` lsize 2 = 0) as Ha2.
  { unfold x'. rewrite next_virt_carry by (lia || done). unfold next_virt. by apply Z.mod_mul. }
  destruct (Z.eqb_spec (pt_index x' 2) 0) as [H0|H0].
  - change 2 with (Z.of_nat 2) in H0. pose proof (index_zero_aligned 2 x' Ha2 H0) as Ha3.
    destruct (ends_at_walk _ _ _ _ _ Hends') as [e He]. by apply (Hq Ha3 l e).
  - destruct Hends' as (u & e & Hv & He & Hend).
    pose proof (visits_level _ _ _ _ _ _ _ Hv) as Hlb.
    assert (l <= 2)%nat as Hl2.
    { destruct (decide (l <= 2)%nat) as [|Hgt]; [done|]. exfalso.
      pose proof (same_at_next 1 2 x1 ltac:(lia) ltac:(destruct Hx; lia) H0) as Hsame.
      change (next_virt (Z.of_nat 1) x1) with x' in Hsame.
      destruct (sd_slots _ _ _ _ _ _ _ Hst) as [S4 _]. destruct (S4 1%nat ltac:(lia)) as (u1 & _ & Hv1).
      assert (l <= 1)%nat; [|lia].
      eapply (visits_ends cfg (mem s) x1 4 root l u); [| |done|exact Hv1].
      - eapply visits_same; [done|]. apply same_at_sym. eapply same_at_up, Hsame. lia.
      - rewrite (same_at_index 3 l x1 x'); [done|done|lia]. }
    destruct (decide (l = 2%nat)) as [->|]; [by right|left; lia].
Qed.

(** Where the function that maps small pages stops. *)
Definition stopped (m : map_result) (x' xe : Z) (s' : map_state) : Prop :=
  match m with
  | MAP_DONE => x' = xe
  | MAP_CONTINUE => False
  | MAP_RESTART => x' `mod` GIB = 0 /\ exists k, stands alloc cfg root (mem s') x' k (walker s') /\
      ends_at cfg root (mem s') x' k
  end.

Lemma filled_mapped x c phys st st' : filled 1 x c (leaf_at phys) st st' ->
  mapped x (x + c * PAGE_SIZE) phys st st' /\ calm (x + c * PAGE_SIZE) st st'.
Proof.
  intros (_ & _ & F). split.
  - intros y Hy. specialize (F y Hy). change (lsize 1) with PAGE_SIZE in F.
    case_decide; [done|by left].
  - intros g Hg Hlt Hq k e Hw. rewrite F in Hw by done. case_decide.
    + injection Hw as E _. left. lia.
    + by apply (Hq k e).
Qed.

Lemma mapped_after_kept x x' phys st st1 st2 : (forall y, in48 y -> kept st st1 y) ->
  mapped x x' phys st1 st2 -> mapped x x' phys st st2.
Proof.
  intros Hk Hm y Hy. specialize (Hm y Hy). case_decide; [done|]. by eapply kept_trans; [apply Hk|].
Qed.

(** The result of mapping from [x] on. *)
Definition small_done (phys_begin phys x xe : Z) (s : map_state)
    (r : outcome (map_result * Z * map_state)) : Prop :=
  (exists m x' s', r = Ok (m, phys + (x' - x) - phys_begin, s') /\ x < x' <= xe /\
     same_frame s s' /\ pt_ok (mem s') /\ mapped x x' phys (mem s) (mem s') /\
     calm x' (mem s) (mem s') /\ stopped m x' xe s') \/
  (is_ok r = false /\ starved (mem s) x xe).

Lemma starved_widen st x x' xe : x' <= xe -> starved st x x' -> starved st x xe.
Proof. intros Hle (y & k & e & st1 & Hy & H). exists y, k, e, st1. split; [lia|done]. Qed.

Lemma small_done_later pb phys x x1 xe s s1 r :
  mapped x x1 phys (mem s) (mem s1) -> calm x1 (mem s) (mem s1) -> same_frame s s1 ->
  0 <= x <= x1 -> (x1 - x) `mod` PAGE_SIZE = 0 -> in48 xe ->
  small_done pb (phys + (x1 - x)) x1 xe s1 r -> small_done pb phys x xe s r.
Proof.
  intros Hm Hc [Hf1 Hf2] Hx Ha Hxe [(m & x2 & s2 & -> & Hx2 & [Hg1 Hg2] & Hok & Hm2 & Hc2 & Hstop)|[E Hs]].
  - left. exists m, x2, s2. split_and!; [do 3 f_equal; lia|lia|lia|split; congruence|done| | |done].
    + eapply mapped_trans; [|done..]. lia.
    + intros g Hg Hlt Hq. apply Hc2; [done|lia|]. apply Hc; [done|lia|done].
  - right. split; [done|]. eapply (starved_later x x1); [lia|done|done|lia|done].
Qed.

(** Moving on within the table of level 2. *)
Lemma next_table x x1 x' : in48 x1 -> same_at 2 x x1 -> pt_index x1 1 = 511 -> next_virt 1 x1 = x' ->
  pt_index x' 2 <> 0 -> pt_index x' 2 = pt_index x 2 + 1.
Proof.
  intros Hx1 Hsame H511 Hnext H0. change 2 with (Z.of_nat 2) at 2.
  rewrite (same_at_index 2 2 x x1) by done. change (Z.of_nat 2) with 2.
  rewrite <- Hnext, next_virt_carry in * by (lia || done). change (1 + 1) with 2 in *.
  destruct (decide (pt_index x1 2 = 511)) as [E|E]; [|by apply pt_index_next_same].
  exfalso. apply H0. rewrite next_virt_carry by (lia || done).
  apply (aligned_index_zero 3 2); [|lia]. unfold next_virt. by apply Z.mod_mul.
Qed.

Lemma phys_steps phys pe c : phys_ok phys pe -> 0 <= c -> phys + c * PAGE_SIZE <= pe ->
  phys_ok (phys + c * PAGE_SIZE) pe /\ 0 <= pe.
Proof.
  intros (H1 & H2 & H3 & H4) Hc Hle. change PAGE_SIZE with 4096 in *.
  unfold phys_ok. change PAGE_SIZE with 4096. split_and!; [lia| |done..|lia].
  by rewrite Z.mod_add.
Qed.

Lemma write_tables_ok pb xe pe : in48 xe -> 0 <= pb -> forall fuel x phys k s,
  can_map (mem s) x xe -> pt_ok (mem s) -> stands alloc cfg root (mem s) x k (walker s) ->
  ends_at cfg root (mem s) x k -> phys_ok phys pe -> pb <= phys -> pe - phys = xe - x ->
  512 - pt_index x 2 < Z.of_nat fuel ->
  small_done pb phys x xe s (write_tables cfg fuel pb phys pe o s).
Proof.
  intros Hxe Hpb. induction fuel as [|fuel IH]; intros x phys k s Hcan Hok Hst Hends Hph Hle Hsz Hf.
  { pose proof (pt_index_bounds x 2). lia. }
  pose proof Hcan as [[C1 Ca] C2 C3 C4 C5]. assert (in48 x) as Hx by (unfold in48; lia).
  cbn [write_tables].
  destruct (fill_in_to_ok x k s Hx Hok Hst Hends (C3 x ltac:(lia)))
    as [(s1 & -> & Hfr1 & Hok1 & Hst1 & Hk1 & Hq1)|[E Hs]].
  2:{ right. split; [by destruct (fill_in_to _ _ _ _)|]. eapply starved_widen, Hs. lia. }
  rewrite outcome_bind_ok. destruct (sd_slots _ _ _ _ _ _ _ Hst1) as [S4 S5].
  destruct (S4 1%nat ltac:(lia)) as (t & Ht & Hv). pose proof (S5 1%nat ltac:(lia)) as Hi.
  change (1 - 1)%nat with 0%nat in Ht, Hi. change (Z.of_nat 1) with 1 in Hi.
  assert (get_table 0 (walker s1) = Ok (Some t)) as -> by exact (nth_entry_ok _ 0%nat _ Ht).
  assert (get_index 0 (walker s1) = Ok (pt_index x 1)) as -> by exact (nth_entry_ok _ 0%nat _ Hi).
  rewrite !outcome_bind_ok.
  destruct (write_pages_ok t pe 512 (mem s1) x phys Hok1 Hx Ca Hv Hph ltac:(lia))
    as (c & st2 & E & Hc1 & Hc2 & Hc3 & Hc4 & Hfill); [pose proof (pt_index_bounds x 1); lia|].
  rewrite E, outcome_bind_ok. clear E. pose proof Hfill as (Hok2 & Hv2 & _).
  destruct (filled_mapped _ _ _ _ _ Hfill) as [Hm2 Hcalm2].
  pose proof (mapped_after_kept _ _ _ _ _ _ Hk1 Hm2) as Hm. set (x' := x + c * PAGE_SIZE) in *.
  assert (x < x' <= xe) as Hx' by (unfold x'; change PAGE_SIZE with 4096 in *; lia).
  assert (calm x' (mem s) st2) as Hcalm.
  { intros g Hg Hlt Hq. apply Hcalm2; [done..|]. apply Hq1; [done|lia|done]. }
  pose proof Hph as (P1 & P2 & P3 & P4).
  assert (u64 (phys + c * PAGE_SIZE - pb) = phys + (x' - x) - pb) as Hoff.
  { rewrite wrap_small by (unfold_ints; change PAGE_SIZE with 4096 in *; lia). unfold x'. lia. }
  destruct (Z.eqb_spec (pt_index x 1 + c) 512) as [Eend|Eend].
  2:{ left. destruct Hc4 as [|Hc4]; [done|].
    destruct (set_index_ok (walker s1) 0 (pt_index x 1 + c) (sd_shape _ _ _ _ _ _ _ Hst1) ltac:(lia))
      as (w' & Ew & _). change (Z.of_nat 0) with 0 in Ew. rewrite Ew, outcome_bind_ok, Hoff.
    exists MAP_DONE, x', (set_walker w' st2 s1). split_and!; [done|lia|lia|done..|].
    simpl. unfold x'. lia. }
  destruct (stands_end (mem s1) st2 x c (walker s1) Hx Hst1 Ca Eend Hc1 Hv2)
    as (Hsame & Hx1 & H511 & Hnext & w' & Ew & Hst2).
  set (x1 := x + (c - 1) * PAGE_SIZE) in *. fold x' in Hnext.
  change (PGT_PTE_COUNT - 1) with 511. rewrite Ew, outcome_bind_ok.
  destruct (next_at_ok x1 (set_walker w' st2 s1) Hok2 Hx1 Hst2 H511)
    as (l & s3 & E3 & M3 & Fr3 & Hends3 & Hst3).
  { rewrite Hnext. unfold in48. lia. }
  { rewrite Hnext. intros Hg. simpl. apply Hcalm; [unfold in48; lia|lia|]. apply C4; [lia|done]. }
  rewrite Hnext in Hends3, Hst3. simpl in M3, Hends3, Hst3. rewrite E3, outcome_bind_ok.
  assert (same_frame s s3) as Hfr3 by (destruct Hfr1, Fr3; split; simpl in *; congruence).
  rewrite <- M3 in *. clear M3.
  destruct (sd_slots _ _ _ _ _ _ _ Hst3) as [_ S6]. specialize (S6 2%nat ltac:(lia)).
  change (2 - 1)%nat with 1%nat in S6. change (Z.of_nat 2) with 2 in S6.
  assert (get_index 1 (walker s3) = Ok (pt_index x' 2)) as -> by exact (nth_entry_ok _ 1%nat _ S6).
  rewrite outcome_bind_ok.
  assert (x' `mod` lsize 2 = 0) as Ha2.
  { rewrite <- Hnext, next_virt_carry by (lia || done). unfold next_virt. by apply Z.mod_mul. }
  destruct (Z.eqb_spec (pt_index x' 2) 0) as [H0|H0].
  - left. rewrite Hoff. exists MAP_RESTART, x', s3. split_and!; [done|lia|lia|done..|].
    split; [|by exists l]. change 2 with (Z.of_nat 2) in H0. exact (index_zero_aligned 2 x' Ha2 H0).
  - assert (x' <> xe) as Hne.
    { intros Exe. rewrite <- Exe in C5. destruct C5 as [C5|C5]; [done|].
      apply H0. exact (aligned_index_zero 3 2 x' C5 ltac:(lia)). }
    assert (pt_index x' 2 = pt_index x 2 + 1) as Hidx by exact (next_table x x1 x' Hx1 Hsame H511 Hnext H0).
    destruct (phys_steps _ _ c Hph ltac:(lia) Hc3) as [Hph' _].
    eapply small_done_later; [exact Hm|exact Hcalm|exact Hfr3|lia| |exact Hxe|].
    { unfold x'. replace (x + c * PAGE_SIZE - x) with (c * PAGE_SIZE) by lia. apply Z.mod_mul. done. }
    replace (phys + (x' - x)) with (phys + c * PAGE_SIZE) by (unfold x'; lia).
    apply (IH x' (phys + c * PAGE_SIZE) l s3); [|done|done|done|done|unfold x' in *; lia..].
    eapply can_map_later; [done|lia| |exact Hm|exact Hcalm]. unfold x'. by rewrite Z.mod_add, Ca.
Qed.

(** ** The rounds of [pgmap_with_ptwalker] *)

(** No large page of level [L] can map the range. *)
Definition no_large (phys x size : Z) (L : nat) : Prop :=
  Z.land (supports_largepage_at_level_mask o) (Z.shiftl 1 (Z.of_nat L)) = 0 \/ size < lsize L \/
  (phys - x) `mod` lsize L <> 0.

Lemma find_largepage_ok st x k w : stands alloc cfg root st x k w -> forall fuel (l : nat),
  (1 <= l)%nat -> (5 < fuel + l)%nat -> x `mod` lsize l = 0 ->
  exists h : nat, find_largepage_level fuel (Z.of_nat l) w = Ok (Z.of_nat h) /\
    (h = 0%nat \/ x `mod` lsize h = 0).
Proof.
  intros Hst. destruct (sd_shape _ _ _ _ _ _ _ Hst) as (_ & _ & Htop).
  destruct (sd_slots _ _ _ _ _ _ _ Hst) as [_ S5].
  induction fuel as [|fuel IH]; intros l Hl Hf Ha; cbn [find_largepage_level]; rewrite Htop;
    destruct (Z.leb_spec (Z.of_nat l) 4); try lia; try (exists 0%nat; split; [done|by left]).
  specialize (S5 l ltac:(lia)).
  assert (get_index (Z.of_nat l - 1) w = Ok (pt_index x (Z.of_nat l))) as ->.
  { replace (Z.of_nat l - 1) with (Z.of_nat (l - 1)) by lia. exact (nth_entry_ok _ _ _ S5). }
  rewrite outcome_bind_ok. destruct (Z.eqb_spec (pt_index x (Z.of_nat l)) 0) as [E|E].
  - simpl. replace (Z.of_nat l + 1) with (Z.of_nat (S l)) by lia.
    apply IH; [lia|lia|]. by apply index_zero_aligned.
  - exists l. split; [done|by right].
Qed.

Lemma aligned_down (k j : nat) x : x `mod` lsize k = 0 -> (j <= k)%nat -> x `mod` lsize j = 0.
Proof.
  intros Ha Hj. pose proof (lsize_pos k). pose proof (lsize_pos j). apply Z.mod_divide; [lia|].
  apply Z.mod_divide in Ha; [|lia]. etrans; [|exact Ha]. clear -Hj.
  induction Hj as [|k Hk IH]; [done|]. etrans; [exact IH|]. exists 512. apply lsize_succ.
Qed.

Lemma skip_large_levels phys vb off h s x : in_u 64 (front phys + off) -> 0 <= off < size phys ->
  size phys < 2 ^ 63 -> (h = 0%nat \/ x `mod` lsize h = 0) -> forall levels : list nat,
  Forall (fun L => (2 <= L <= 3)%nat /\ no_large (front phys + off) x (size phys) L) levels ->
  try_large_levels cfg (Z.of_nat <$> levels) (Z.of_nat h) phys vb off o s = Ok (inr tt, off, s).
Proof.
  intros Hu Hoff Hsz Hh. induction levels as [|L levels IH]; intros HL; [done|].
  apply Forall_cons in HL as [[Hr HL] HLs]. cbn [fmap list_fmap try_large_levels].
  destruct (Z.of_nat L >? Z.of_nat h) eqn:Ex; [by apply IH|].
  rewrite Z.gtb_ltb in Ex. apply Z.ltb_ge in Ex.
  case_match eqn:Em; [by apply IH|].
  rewrite page_size_at by lia. rewrite outcome_bind_ok, (wrap_small _ _ Hu).
  destruct HL as [HL|HL]; [by rewrite HL in Em|].
  assert (lsize L = 2 ^ (12 + 9 * (Z.of_nat L - 1))) as El.
  { assert (L = 2 \/ L = 3)%nat as [->| ->] by lia; done. }
  assert (lsize L <= 2 ^ 30) as Hl by (rewrite El; apply Z.pow_le_mono_r; lia). pose proof (lsize_pos L).
  rewrite El. rewrite has_align_eq by (done || lia). rewrite outcome_bind_ok, <- El.
  destruct HL as [HL|HL].
  - rewrite wrap_small by (unfold_ints; lia).
    rewrite (proj2 (Z.gtb_lt (off + lsize L) (size phys))) by lia. rewrite orb_true_r. by apply IH.
  - assert (x `mod` lsize L = 0) as Hx by (destruct Hh as [->|Hh]; [lia|eapply aligned_down; [done|lia]]).
    destruct (Z.eqb_spec ((front phys + off) `mod` lsize L) 0) as [E|E]; [|by apply IH].
    exfalso. apply HL. by rewrite Zminus_mod, E, Hx.
Qed.

(** The result of mapping the whole range. *)
Definition all_mapped (phys x xe : Z) (s : map_state) (r : outcome (bool * map_state)) : Prop :=
  (exists s', r = Ok (true, s') /\ same_frame s s' /\ pt_ok (mem s') /\
     mapped x xe phys (mem s) (mem s')) \/
  (is_ok r = false /\ starved (mem s) x xe).

Lemma all_mapped_later phys x x1 xe s s1 r :
  mapped x x1 phys (mem s) (mem s1) -> same_frame s s1 ->
  0 <= x <= x1 -> (x1 - x) `mod` PAGE_SIZE = 0 -> x1 <= xe -> in48 xe ->
  all_mapped (phys + (x1 - x)) x1 xe s1 r -> all_mapped phys x xe s r.
Proof.
  intros Hm [Hf1 Hf2] Hx Ha Hle Hxe [(s2 & -> & [Hg1 Hg2] & Hok & Hm2)|[E Hs]].
  - left. exists s2. split_and!; [done|split; congruence|done|].
    eapply mapped_trans; [|done..]. lia.
  - right. split; [done|]. eapply (starved_later x x1); [lia|done|done|lia|done].
Qed.

Definition no_split (s : map_state) : Prop :=
  exists cs, curr_split s = Some cs /\ is_active cs = false.

Lemma finish_nothing rec virt s : no_split s -> finish_split_info rec virt o s = Ok s.
Proof. intros (cs & E & Ha). unfold finish_split_info. rewrite E. simpl. by rewrite Ha. Qed.

Lemma mapped_aligned x x' : x `mod` PAGE_SIZE = 0 -> x' `mod` PAGE_SIZE = 0 -> (x' - x) `mod` PAGE_SIZE = 0.
Proof. intros H H'. by rewrite Zminus_mod, H, H'. Qed.

Lemma map_rounds_ok rec phys vb x0 : is_overwrite o = false ->
  let pe := front phys + size phys in let xe := x0 + size phys in
  phys_ok (front phys) pe -> 0 <= size phys -> x0 `mod` PAGE_SIZE = 0 ->
  no_large (front phys) x0 (size phys) 2 -> no_large (front phys) x0 (size phys) 3 ->
  forall loop off k s, 0 <= off < size phys -> off `mod` PAGE_SIZE = 0 -> no_split s ->
  can_map (mem s) (x0 + off) xe -> pt_ok (mem s) ->
  stands alloc cfg root (mem s) (x0 + off) k (walker s) ->
  ends_at cfg root (mem s) (x0 + off) k -> (xe - 1) / GIB - (x0 + off) / GIB < Z.of_nat loop ->
  all_mapped (front phys + off) (x0 + off) xe s (map_rounds cfg rec loop phys vb off o s).
Proof.
  intros Hov pe xe Hph Hsz Hx0 HL2 HL3. induction loop as [|loop IH];
    intros off k s Hoff Hoa Hns Hcan Hok Hst Hends Hf.
  { pose proof (Z.div_le_mono (x0 + off) (xe - 1) GIB ltac:(done) ltac:(unfold xe; lia)). lia. }
  pose proof Hcan as [[C1 Ca] C2 _ _ _]. pose proof Hph as (P1 & P2 & P3 & P4).
  assert (in48 (x0 + off)) as Hx by (unfold in48; lia). assert (in48 xe) as Hxe by (unfold in48; lia).
  cbn [map_rounds].
  destruct (find_largepage_ok _ _ _ _ Hst 6 1 ltac:(lia) ltac:(lia) Ca) as (h & Eh & Hh).
  change (Z.of_nat 1) with 1 in Eh. rewrite Eh, outcome_bind_ok. clear Eh.
  assert (try_large_levels cfg (reverse LARGEPAGE_LEVELS) (Z.of_nat h) phys vb off o s = Ok (inr tt, off, s)) as El.
  { apply (skip_large_levels phys vb off h s (x0 + off)) with (levels := [3; 2]%nat);
      [unfold_ints; lia|done|lia|done|].
    repeat apply Forall_cons_2; [..|apply Forall_nil_2]; (split; [lia|]); unfold no_large in *;
      by replace (front phys + off - (x0 + off)) with (front phys - x0) by lia. }
  assert ((if Z.of_nat h >? 1 then try_large_levels cfg (reverse LARGEPAGE_LEVELS) (Z.of_nat h) phys vb off o s
    else Ok (inr tt, off, s)) = Ok (inr tt, off, s)) as -> by (case_match; done).
  rewrite outcome_bind_ok. unfold map_normal. destruct (Z.geb_spec off (size phys)); [lia|].
  rewrite Hov, !wrap_small by (unfold_ints; lia). fold pe.
  destruct (write_tables_ok (front phys) xe pe Hxe ltac:(lia) 513 (x0 + off) (front phys + off) k s)
    as [(m & x' & s' & -> & Hx' & Hfr & Hok' & Hm & Hc & Hstop)|[E Hs]];
    [done..| |lia|unfold pe, xe; lia|pose proof (pt_index_bounds (x0 + off) 2); lia| |].
  { split_and!; [lia| |done|done]. by rewrite Z.add_mod, P2, Hoa. }
  2:{ right. split; [by destruct (write_tables _ _ _ _ _ _ _)|done]. }
  rewrite outcome_bind_ok.
  assert (no_split s') as Hns' by (destruct Hns as (cs & ? & ?), Hfr as [? _]; exists cs; split; congruence).
  rewrite (finish_nothing _ _ _ Hns'), outcome_bind_ok.
  replace (front phys + off + (x' - (x0 + off)) - front phys) with (x' - x0) by lia.
  destruct m; [|done|].
  - simpl in Hstop. subst x'. left. exists s'. done.
  - destruct Hstop as (Hg & l & Hst' & Hends').
    destruct (Z.ltb_spec (x' - x0) (size phys)).
    + assert (x' `mod` PAGE_SIZE = 0) as Ha' by (apply (aligned_down 3 1 x' Hg); lia).
      assert ((x' - x0) `mod` PAGE_SIZE = 0) as Hoa' by (by apply mapped_aligned).
      eapply all_mapped_later; [exact Hm|done|lia|by apply mapped_aligned|lia|done|].
      remember (x' - x0) as off' eqn:Eo. assert (x' = x0 + off') as -> by lia. clear Eo.
      replace (front phys + off + (x0 + off' - (x0 + off))) with (front phys + off') by lia.
      apply (IH off' l s'); [lia|done|done| |done|done|done|].
      * eapply can_map_later; [done|unfold xe; lia|done|exact Hm|done].
      * assert ((x0 + off) / GIB < (x0 + off') / GIB); [|lia].
        apply (Z.mul_lt_mono_pos_l GIB); [done|].
        pose proof (Z.div_mod (x0 + off') GIB ltac:(done)) as E. rewrite Hg, Z.add_0_r in E.
        pose proof (Z.mul_div_le (x0 + off) GIB ltac:(done)). lia.
    + assert (x' = xe) as -> by (unfold xe in *; lia). left. exists s'. done.
Qed.

Lemma rounds_enough x size : 0 < size ->
  (x + size - 1) / GIB - x / GIB < Z.of_nat (Z.to_nat (size / PAGE_SIZE_1GIB + 2)).
Proof.
  intros Hs. change PAGE_SIZE_1GIB with GIB.
  pose proof (Z.div_pos size GIB ltac:(lia) ltac:(done)). rewrite Z2Nat.id by lia.
  pose proof (Z.div_mod x GIB ltac:(done)). pose proof (Z.mod_pos_bound x GIB ltac:(done)).
  pose proof (Z.div_mod size GIB ltac:(done)). pose proof (Z.mod_pos_bound size GIB ltac:(done)).
  assert ((x + size - 1) / GIB < x / GIB + size / GIB + 2); [|lia].
  apply Z.div_lt_upper_bound; [done|]. lia.
Qed.

(** ** pgmap_at *)
Section at_.
Context (cpu_pagemap : pagemap) (lock : lock_oracle).
Context (early : ptwalker_alloc_pgtable_t pageop) (pm : pagemap).
Hypothesis Halloc : alloc = if is_in_early o then early else ptwalker_alloc_pgtable_cb lock.
Hypothesis Hroot : root = Walker.root pm /\ in_u 64 root /\ root `mod` PAGE_SIZE = 0.

Lemma pgmap_at_ok phys virt st : is_overwrite o = false ->
  map_args_ok phys virt = true -> in_u 64 virt -> 0 <= front phys -> front phys + size phys <= 2 ^ 48 ->
  let x := virt `mod` 2 ^ 48 in
  no_large (front phys) x (size phys) 2 -> no_large (front phys) x (size phys) 3 ->
  can_map st x (x + size phys) -> pt_ok st ->
  let r := pgmap_at cpu_pagemap lock cfg early pm phys virt o st in
  (exists st', r = Ok (true, st') /\ pt_ok st' /\ mapped x (x + size phys) (front phys) st st') \/
  (is_ok r = false /\ starved st x (x + size phys)).
Proof.
  intros Hov Hargs Hvu Hf Hpe x HL2 HL3 Hcan Hok r.
  pose proof Hargs as Ha. apply bool_decide_eq_true in Ha as (A1 & A2 & A3 & A4 & A5 & A6).
  destruct Hroot as (R1 & R2 & R3). pose proof Hcan as [[C1 C2] C3 _ _ _].
  destruct (create_stands alloc cfg root Hcfg pm virt
    (if is_in_early o then None else Some ptwalker_free_pgtable_cb) st) as (k & w & Ew & Hst & Hends);
    [done..|]. fold x in Hst, Hends.
  rewrite Halloc in Ew. unfold r.
  rewrite (pgmap_at_enters _ _ _ _ _ _ _ _ _ w) by (unfold_ints; done || lia).
  unfold map_with. cbn [pgmap_with_ptwalker].
  set (s := {| walker := w; curr_split := _; op := _; mem := _ |}).
  destruct (map_rounds_ok (pgmap_with_ptwalker cfg 2 o) phys virt x Hov)
    with (loop := Z.to_nat (size phys / PAGE_SIZE_1GIB + 2)) (off := 0) (k := k) (s := s)
    as [(s' & E & _ & Hok' & Hm)|[E Hs]]; rewrite ?Z.add_0_r in *; try done.
  - split_and!; [lia|done| |lia]. by rewrite Z.add_mod, A3, A4.
  - lia.
  - by eexists.
  - apply rounds_enough. lia.
  - left. exists (mem s'). by setoid_rewrite E.
  - right. split; [|done]. by destruct (map_rounds _ _ _ _ _ _ _ _).
Qed.
End at_.
End loops.
