(* ===== verification/PgAlloc.v ===== *)
(** * The page allocator as the provider of tables

    [ptwalker_alloc_pgtable_cb] (kernel/mm/walker.c) takes its pages from
    [alloc_pages]; what PgTables.v asks of such a function ([PgtableAlloc]) is
    proved of it here, from the theorems on the allocator. *)
From S2P Require Import Prelude CArith Range PageAlloc PageBlocks PageAllocInv Walker WalkerInv PgMap PgTables.

(** ** What no operation of the allocator changes *)
Definition place (s : page_section) : nat * Z * Z * Z :=
  (sec_zone s, range_front s, range_size s, pfn s).
Definition layout (st : mm) : list (nat * Z * Z * Z) * gmap Z nat * Z :=
  (place <$> sections st, section <$> pages st, page_end st).

(** An operation that keeps it, without or with a result of its own. *)
Definition steady (st : mm) (r : outcome mm) : Prop := forall st', r = Ok st' -> layout st' = layout st.
Definition steady_result {A} (st : mm) (r : outcome (A * mm)) : Prop :=
  forall a st', r = Ok (a, st') -> layout st' = layout st.

Create HintDb steady.

Lemma steady_refl st : steady st (Ok st).
Proof. by intros st' [= <-]. Qed.
Lemma steady_bind st r f : steady st r -> (forall st1, steady st1 (f st1)) -> steady st (r ≫= f).
Proof.
  intros Hr Hf st' H. bind_inv H st1 H1. rewrite (Hf st1 st' H). by apply Hr.
Qed.
Lemma steady_read {A} st (r : outcome A) f : (forall a, steady st (f a)) -> steady st (r ≫= f).
Proof. intros Hf st' H. bind_inv H a H1. by apply (Hf a). Qed.
Lemma steady_result_read {A B} st (r : outcome A) (f : A -> outcome (B * mm)) :
  (forall a, steady_result st (f a)) -> steady_result st (r ≫= f).
Proof. intros Hf b st' H. bind_inv H a H1. by apply (Hf a b). Qed.
Lemma steady_result_bind {B} st r (f : mm -> outcome (B * mm)) :
  steady st r -> (forall st1, steady_result st1 (f st1)) -> steady_result st (r ≫= f).
Proof. intros Hr Hf b st' H. bind_inv H st1 H1. rewrite (Hf st1 b st' H). by apply Hr. Qed.
Lemma steady_result_bind2 {A B} st (r : outcome (A * mm)) (f : A * mm -> outcome (B * mm)) :
  steady_result st r -> (forall a st1, steady_result st1 (f (a, st1))) -> steady_result st (r ≫= f).
Proof. intros Hr Hf b st' H. bind_inv H p H1. destruct p as [a st1]. rewrite (Hf a st1 b st' H). by apply (Hr a). Qed.
Lemma steady_result_ok {A} (a : A) st : steady_result st (Ok (a, st)).
Proof. by intros a' st' [= _ <-]. Qed.

Lemma steady_page f p st : (forall pg, section (f pg) = section pg) -> steady st (update_page f p st).
Proof.
  intros Hf st' H. unfold update_page, get_page in H. destruct (pages st !! p) as [pg|] eqn:E; [|done].
  simpl in H. injection H as <-. unfold layout. simpl. f_equal. f_equal.
  rewrite fmap_insert, Hf. apply insert_id. by rewrite lookup_fmap, E.
Qed.
Lemma steady_section f i st : (forall s, place (f s) = place s) -> steady st (update_section f i st).
Proof.
  intros Hf st' H. unfold update_section, get_section in H. destruct (sections st !! i) as [s|] eqn:E; [|done].
  simpl in H. injection H as <-. unfold layout. simpl. f_equal. f_equal.
  rewrite list_fmap_insert, Hf. apply list_insert_id. by rewrite list_lookup_fmap, E.
Qed.
Lemma steady_zone f z st : steady st (update_zone f z st).
Proof.
  intros st' H. unfold update_zone, get_zone in H. destruct (zones st !! z) eqn:E; [|done].
  simpl in H. by injection H as <-.
Qed.
Lemma steady_for body n : (forall p st, steady st (body p st)) -> forall p st, steady st (for_pages n p body st).
Proof.
  intros Hb. induction n as [|n IH]; intros p st; [apply steady_refl|]. simpl.
  by apply steady_bind; [|intros; apply IH].
Qed.
Lemma steady_state p s st : steady st (page_set_state p s st).
Proof. by apply steady_page. Qed.
Lemma steady_data p d st : steady st (page_set_data p d st).
Proof. by apply steady_page. Qed.
#[export] Hint Resolve steady_refl steady_result_ok steady_page steady_section steady_zone steady_state
  steady_data : steady.

Ltac keep_layout :=
  repeat first [ progress auto with steady
               | apply steady_bind; [|intros] | apply steady_result_bind; [|intros]
               | apply steady_result_bind2; [|intros] | apply steady_for; intros
               | apply steady_read; intros | apply steady_result_read; intros
               | case_match ].

Lemma steady_push i order p st : steady st (freelist_push i order p st).
Proof. unfold freelist_push, set_freelist. keep_layout. Qed.
Lemma steady_incr i order st : steady st (freelist_count_incr i order st).
Proof. unfold freelist_count_incr, set_freelist. keep_layout. Qed.
#[export] Hint Resolve steady_push steady_incr : steady.

Lemma place_tighten order s : place (tighten_orders order (reset_orders_if_empty s)) = place s.
Proof. unfold tighten_orders, reset_orders_if_empty. by repeat case_match. Qed.
Lemma place_finish order s : place (finish_alloc order s) = place s.
Proof. unfold finish_alloc. by repeat case_match. Qed.
#[export] Hint Resolve place_tighten place_finish : steady.

Lemma steady_add_higher i order p st : steady st (add_to_freelist_order_from_higher i order p st).
Proof. unfold add_to_freelist_order_from_higher. keep_layout. Qed.
Lemma steady_take i order p n st : steady st (take_off_freelist_order i order p n st).
Proof.
  unfold take_off_freelist_order, take_off_freelist_to_add_later, set_freelist. keep_layout. done.
Qed.
#[export] Hint Resolve steady_add_higher steady_take : steady.
Lemma steady_get i order n st : steady_result st (get_from_freelist_order i order n st).
Proof. unfold get_from_freelist_order. keep_layout. Qed.
#[export] Hint Resolve steady_get : steady.
Lemma steady_take_first i mo order : forall fuel o st,
  steady_result st (take_first_order fuel i o mo order st).
Proof. induction fuel as [|fuel IH]; intros o st; simpl; keep_layout; done. Qed.
Lemma steady_split i order p : forall n st, steady st (split_block n i order p st).
Proof. induction n as [|n IH]; intros st; simpl; keep_layout. Qed.
Lemma steady_off p order s st : steady st (setup_pages_off_freelist p order s st).
Proof. unfold setup_pages_off_freelist. keep_layout; done. Qed.
#[export] Hint Resolve steady_take_first steady_split steady_off : steady.
Lemma steady_sections lock order s : forall secs st,
  steady_result st (try_alloc_pages_from_sections lock order s secs st).
Proof. induction secs as [|i secs IH]; intros st; simpl; keep_layout. Qed.
#[export] Hint Resolve steady_sections : steady.
Lemma steady_from_zone lock z order s st : steady_result st (try_alloc_pages_from_zone lock z order s st).
Proof. unfold try_alloc_pages_from_zone. keep_layout. Qed.
#[export] Hint Resolve steady_from_zone : steady.

Lemma steady_frames fr st : steady st (Ok (set_frames fr st)).
Proof. by intros st' [= <-]. Qed.
Lemma steady_zero p n st : steady st (zero_multiple_pages p n st).
Proof. unfold zero_multiple_pages. apply steady_read. intros. apply steady_frames. Qed.
Lemma steady_zero_one p st : steady st (zero_page p st).
Proof. apply steady_frames. Qed.
#[export] Hint Resolve steady_zero steady_zero_one : steady.
Lemma steady_setup p s flags order info st : steady_result st (setup_alloced_page p s flags order info st).
Proof. unfold setup_alloced_page. keep_layout; done. Qed.

Lemma steady_walk try setup : (forall z st, steady_result st (try z st)) ->
  (forall p st, steady_result st (setup p st)) ->
  forall fuel z st, steady_result st (walk_zones fuel try setup z st).
Proof.
  intros Ht Hs. induction fuel as [|fuel IH]; intros [z|] st; simpl; keep_layout; done.
Qed.
Lemma alloc_pages_layout lock s flags order st : steady_result st (alloc_pages lock s flags order st).
Proof.
  unfold alloc_pages. case_match; [auto with steady|].
  apply steady_walk; intros; [auto with steady|apply steady_setup].
Qed.

(** ** The sections in the physical address space *)
Record phys_places (st : mm) : Prop := {
  pp_whole : forall i s, sections st !! i = Some s -> range_size s = PAGE_SIZE * npages s;
  pp_below : forall i s, sections st !! i = Some s -> range_front s + range_size s <= 2 ^ 48;
  pp_apart : forall i j s s' x, sections st !! i = Some s -> sections st !! j = Some s' ->
    range_front s <= x < range_front s + range_size s ->
    range_front s' <= x < range_front s' + range_size s' -> i = j;
}.

Lemma layout_section st st' i s' : layout st' = layout st -> sections st' !! i = Some s' ->
  exists s, sections st !! i = Some s /\ same_place s s'.
Proof.
  intros E Hs'. injection E as E _ _. assert (place <$> sections st !! i = Some (place s')) as H.
  { by rewrite <- list_lookup_fmap, <- E, list_lookup_fmap, Hs'. }
  apply fmap_Some in H as (s & Hs & Ep). exists s. injection Ep as E1 E2 E3 E4. by split.
Qed.

Lemma layout_page st st' q pg' : layout st' = layout st -> pages st' !! q = Some pg' ->
  exists pg, pages st !! q = Some pg /\ section pg = section pg'.
Proof.
  intros E Hq. injection E as _ E _. assert (section <$> pages st !! q = Some (section pg')) as H.
  { by rewrite <- lookup_fmap, <- E, lookup_fmap, Hq. }
  apply fmap_Some in H as (pg & Hpg & Ep). by exists pg.
Qed.

Lemma layout_find_pfn st st' x : layout st' = layout st -> find_pfn (sections st') x = find_pfn (sections st) x.
Proof.
  intros E. injection E as E _ _. revert E. generalize (sections st') (sections st).
  induction l as [|s l IH]; intros [|s' l'] E; try done. injection E as E1 E2 E3 E4 E5.
  simpl. unfold sec_range. rewrite E2, E3, E4. case_match; [done|by apply IH].
Qed.

Lemma layout_phys st st' : layout st' = layout st -> mm_phys st -> mm_phys st'.
Proof.
  intros E [H1 H2 H3]. split.
  - intros i s' q pg' Hs' Hq Hpg'. destruct (layout_section _ _ _ _ E Hs') as (s & Hs & P).
    destruct (layout_page _ _ _ _ E Hpg') as (pg & Hpg & <-).
    apply (H1 i s q); [done| |done]. by rewrite <- (same_place_in_section s s').
  - intros i s' Hs'. destruct (layout_section _ _ _ _ E Hs') as (s & Hs & P).
    rewrite (same_place_npages _ _ P), (pl_front _ _ P), (pl_pfn _ _ P). by apply (H2 i).
  - intros i s' Hs'. destruct (layout_section _ _ _ _ E Hs') as (s & Hs & P).
    injection E as _ _ ->. rewrite (same_place_npages _ _ P), (pl_pfn _ _ P). by apply (H3 i).
Qed.

Lemma layout_places st st' : layout st' = layout st -> phys_places st -> phys_places st'.
Proof.
  intros E [H1 H2 H3]. split.
  - intros i s' Hs'. destruct (layout_section _ _ _ _ E Hs') as (s & Hs & P).
    rewrite (same_place_npages _ _ P), (pl_size _ _ P). by apply (H1 i).
  - intros i s' Hs'. destruct (layout_section _ _ _ _ E Hs') as (s & Hs & P).
    rewrite (pl_front _ _ P), (pl_size _ _ P). by apply (H2 i).
  - intros i j s' s1' x Hs' Hs1'. destruct (layout_section _ _ _ _ E Hs') as (s & Hs & P).
    destruct (layout_section _ _ _ _ E Hs1') as (s1 & Hs1 & P1).
    rewrite (pl_front _ _ P), (pl_size _ _ P), (pl_front _ _ P1), (pl_size _ _ P1).
    by apply (H3 i j s s1 x).
Qed.

Lemma find_pfn_first l i s x : l !! i = Some s -> range_has_loc (sec_range s) x = true ->
  (forall j s', (j < i)%nat -> l !! j = Some s' -> range_has_loc (sec_range s') x = false) ->
  find_pfn l x = Some (u64 (pfn s + Z.shiftr (u64 (x - range_front s)) PAGE_SHIFT)).
Proof.
  revert i. induction l as [|s' l IH]; intros [|i] Hi Hx Hn; simplify_eq/=; [by rewrite Hx|].
  rewrite (Hn 0%nat s') by (done || lia). apply (IH i); [done..|]. intros j t Hj Ht.
  apply (Hn (S j)); [lia|done].
Qed.

Lemma has_loc_section st i s x : mm_phys st -> phys_places st -> sections st !! i = Some s ->
  0 <= x < 2 ^ 48 ->
  (range_has_loc (sec_range s) x = true <-> range_front s <= x < range_front s + range_size s).
Proof.
  intros Hph [_ P2 _] Hs Hx. destruct (mp_range _ Hph i s Hs) as (R1 & _). pose proof (P2 i s Hs).
  unfold range_has_loc, sec_range. simpl. rewrite andb_true_iff, Z.geb_le, Z.ltb_lt.
  split; intros [H1 H2]; rewrite wrap_small in * by (unfold_ints; lia); lia.
Qed.

(** The page behind an address of a section. *)
Lemma find_pfn_phys st i s q : mm_phys st -> phys_places st -> sections st !! i = Some s ->
  in_section s q -> find_pfn (sections st) (phys_of s q) = Some q /\ 0 <= phys_of s q < 2 ^ 48 /\
  phys_of s q `mod` PAGE_SIZE = 0.
Proof.
  intros Hph Hp Hs Hq. unfold in_section in Hq.
  destruct (mp_range _ Hph i s Hs) as (R1 & R2 & [c Hc] & R4 & R5). pose proof (pp_whole _ Hp i s Hs) as Hw.
  pose proof (pp_below _ Hp i s Hs) as Hb.
  assert (phys_of s q = range_front s + 4096 * (q - pfn s)) as Ex by done.
  change PAGE_SIZE with 4096 in *. set (x := phys_of s q) in *.
  assert (range_front s <= x < range_front s + range_size s) as Hx by lia.
  split_and!; [|lia|lia|].
  2:{ rewrite Ex, Hc. replace (c * 4096 + 4096 * (q - pfn s)) with ((c + (q - pfn s)) * 4096) by lia.
      by apply Z.mod_mul. }
  rewrite (find_pfn_first _ i s x Hs).
  - rewrite (wrap_small 64 (x - _)) by (unfold_ints; lia).
    rewrite Z.shiftr_div_pow2 by done. change (2 ^ PAGE_SHIFT) with 4096.
    replace (x - range_front s) with ((q - pfn s) * 4096) by lia. rewrite Z.div_mul by done.
    f_equal. rewrite wrap_small by (unfold_ints; lia). lia.
  - apply (has_loc_section st i); [done..|lia|done].
  - intros j s' Hj Hs'. apply not_true_iff_false. intros Hl.
    apply (has_loc_section st j) in Hl; [|done..|lia].
    pose proof (pp_apart _ Hp i j s s' x Hs Hs' Hx Hl). lia.
Qed.

(** ** The instance *)
Definition buddy_ready (st : mm) : Prop := mm_wf st /\ mm_phys st /\ phys_places st.
Definition buddy_in_use (st : mm) (q : Z) : Prop := forall i, ~ mm_free st i q.
Definition buddy_exhausted (lock : lock_oracle) (st : mm) : Prop :=
  forall z zn i, zone_chain st page_zone_default z -> zones st !! z = Some zn ->
    i ∈ section_list zn -> ~ can_serve lock 0 i st.

Lemma in_block_zero p q : in_block 0 p q <-> q = p.
Proof. unfold in_block. simpl. lia. Qed.

Lemma buddy_alloc {C} lock level (cb_info : option C) st : buddy_ready st ->
  (ptwalker_alloc_pgtable_cb lock level cb_info st = Ok (INVALID_PHYS, st) /\ buddy_exhausted lock st) \/
  (exists phys p st', ptwalker_alloc_pgtable_cb lock level cb_info st = Ok (phys, st') /\
     buddy_ready st' /\ new_table buddy_in_use phys p st st').
Proof.
  intros (Hwf & Hph & Hp). unfold ptwalker_alloc_pgtable_cb, alloc_table.
  destruct (alloc_pages_ok lock PAGE_STATE_TABLE 1 0 st Hwf ltac:(done) allocatable_table)
    as [[-> Hn]|(p & st' & E & A & Ho)].
  { left. split; [done|]. destruct Hn as [Hn|Hn]; [done|]. done. }
  right. pose proof (alloc_pages_layout lock PAGE_STATE_TABLE 1 0 st _ _ E) as HL.
  rewrite E, outcome_bind_ok. clear E. pose proof (al_wf _ _ _ _ _ A) as Hwf'.
  pose proof (layout_phys _ _ HL Hph) as Hph'. pose proof (layout_places _ _ HL Hp) as Hp'.
  destruct (allocated_section lock 0 p st st' Hwf ltac:(lia) A) as (i & s & Hs & B1 & B2 & Hfree & _).
  assert (in_section s p) as Hin by (unfold in_section; simpl in B2; lia).
  destruct (page_to_phys_ok st' i s p Hwf' Hph' Hs Hin) as [-> _]. rewrite outcome_bind_ok.
  destruct (find_pfn_phys st' i s p Hph' Hp' Hs Hin) as (F1 & F2 & F3).
  exists (phys_of s p), p, st'. split_and!; [done|done|]. destruct Ho as [O1 _ O3 O4].
  split; [done|done| | | | | | |].
  - intros x. by apply layout_find_pfn.
  - apply O3. simpl. lia.
  - intros q Hq. apply O4. simpl. lia.
  - destruct O1 as (pg & Hpg & _ & Hd). by exists pg.
  - intros q Hq. by apply (al_kept _ _ _ _ _ A).
  - intros Hu. destruct (al_was _ _ _ _ _ A) as (j & _ & Hj). apply (Hu j), Hj. by apply in_block_zero.
  - intros q. unfold buddy_in_use. setoid_rewrite (al_free _ _ _ _ _ A). setoid_rewrite in_block_zero.
    split.
    + intros H. destruct (decide (q = p)) as [->|Hne]; [by right|]. left. intros j Hj. by apply (H j).
    + intros [H| ->] j [Hj Hne]; [by apply (H j)|done].
Qed.

#[export] Instance buddy_tables {C} (lock : lock_oracle) :
  PgtableAlloc (C := C) (ptwalker_alloc_pgtable_cb lock).
Proof.
  refine {| pa_ready := buddy_ready; pa_in_use := buddy_in_use; pa_exhausted := buddy_exhausted lock |}.
  - apply buddy_alloc.
  - intros st f (H1 & H2 & H3). split_and!.
    + apply (mm_wf_pages st (pages st) f); done.
    + by destruct H2.
    + by destruct H3.
  - done.
  - intros st q pg d (H1 & H2 & H3) Hu Hq. split_and!.
    + assert (mm_wf (set_frames (frames st) (set_pages (<[q := with_data d pg]> (pages st)) st))) as H;
        [apply mm_wf_pages; [done| |]|exact H].
      * intros i q' Hf. apply lookup_insert_ne. intros <-. by apply (Hu i).
      * intros q' Hs. destruct (decide (q = q')) as [->|]; [by rewrite lookup_insert_eq; eauto|].
        by rewrite lookup_insert_ne.
    + eapply layout_phys; [|done]. unfold layout. simpl. f_equal. f_equal.
      rewrite fmap_insert. apply insert_id. by rewrite lookup_fmap, Hq.
    + by destruct H3.
  - done.
Defined.
