(* ===== verification/PgMapThms.v ===== *)
(** * What mapping a range guarantees

    Properties of PgMap.v, with 4-level paging; the lemmas are in PgTables.v
    and PgMapInv.v, the provider of tables is that of PgAlloc.v. *)
From S2P Require Import Prelude CArith Range PageAlloc PageBlocks PageAllocInv PageAllocThms Walker WalkerInv WalkerThms PgMap PgTables PgMapInv PgAlloc.

(** ** Lemmas *)

(** A pagemap whose root has just been allocated. *)
Lemma empty_root_ok {C} (alloc : ptwalker_alloc_pgtable_t C) `{PA : !PgtableAlloc alloc} cfg phys p st st' :
  pa_ready st' -> new_table pa_in_use phys p st st' -> direct_map_ok cfg st ->
  pt_ok alloc cfg phys st' /\ forall x, pt_walk cfg st' 4 phys x = Ok (4, 0).
Proof.
  intros Hr N Hmap0.
  assert (direct_map_ok cfg st') as Hmap.
  { split; [apply Hmap0|]. intros x q Hx Hq. rewrite (nt_sections _ _ _ _ _ N) in Hq. by apply (proj2 Hmap0 x q). }
  assert (is_table st' phys p (replicate 512 0)) as T.
  { split; [apply N|apply N|by rewrite length_replicate]. }
  assert (forall x k t, visits cfg st' x 4 phys k t -> k = 4%nat /\ t = phys) as Hv.
  { intros x k t H. pose proof (visits_level _ _ _ _ _ _ _ H). destruct (decide (k = 4%nat)) as [->|].
    - split; [done|]. by apply visits_self in H.
    - destruct (visits_inv _ _ _ _ _ _ _ H ltac:(lia)) as (e & He & Hs & _).
      rewrite (pte_read_zero _ _ _ _ T) in He by apply pt_index_bounds. by simplify_eq. }
  split; [split|].
  - done.
  - done.
  - intros x k t _ [-> ->]%Hv. exists p, (replicate 512 0). split; [done| |].
    + apply N. by right.
    + destruct (nt_page _ _ _ _ _ N) as (pg & Hpg & Hd). exists pg, 0. by rewrite absent_zeros.
  - intros x y k j t u q Hx Hy [-> ->]%Hv [-> ->]%Hv _ _. split; [done|]. by apply same_at_top.
  - intros x. cbn [pt_walk]. rewrite (pte_read_zero _ _ _ _ T) by apply pt_index_bounds. done.
Qed.

Lemma places_direct_map cfg st : phys_places st -> mm_phys st -> 0 <= HHDM_OFFSET cfg ->
  (forall i s, sections st !! i = Some s -> HHDM_OFFSET cfg + range_front s + range_size s <= 2 ^ 64) ->
  direct_map_ok cfg st.
Proof.
  intros Hp Hph Hh Hend. split; [lia|]. intros phys p Hu.
  assert (forall l, (forall s, s ∈ l -> s ∈ sections st) -> find_pfn l phys = Some p ->
    HHDM_OFFSET cfg + phys < 2 ^ 64) as H; [|by apply H].
  induction l as [|s l IH]; intros Hl Hf; [done|]. simpl in Hf.
  destruct (range_has_loc (sec_range s) phys) eqn:E.
  - assert (s ∈ sections st) as [i Hi]%list_elem_of_lookup by (apply Hl; by left).
    pose proof (pp_below _ Hp i s Hi). pose proof (Hend i s Hi). destruct (mp_range _ Hph i s Hi) as (R & _).
    unfold range_has_loc, sec_range in E. simpl in E. apply andb_prop in E as [E1 E2].
    apply Z.geb_le in E1. apply Z.ltb_lt in E2. rewrite wrap_small in E2 by (unfold_ints; lia). lia.
  - apply IH; [|done]. intros s' Hs'. apply Hl. by right.
Qed.

Section translate.
Context (alloc : ptwalker_alloc_pgtable_t pageop) `{PA : !PgtableAlloc alloc}.
Context (cfg : paging) (root : Z) (o : pgmap_options).
Hypothesis Hflags : Z.land (pte_flags o) PTE_PHYS_MASK = 0.

Lemma walk_48 st v : pt_walk cfg st 4 root v = pt_walk cfg st 4 root (v `mod` 2 ^ 48).
Proof. symmetry. apply walk_index. intros j Hj. apply pt_index_48. lia. Qed.

Lemma translate_mapped x xe phys st st' v : mapped cfg root o x xe phys st st' ->
  phys_ok phys (phys + (xe - x)) -> x `mod` PAGE_SIZE = 0 -> v `mod` PAGE_SIZE = 0 ->
  x <= v `mod` 2 ^ 48 < xe ->
  pt_translate cfg st' root v = Ok (Some (phys + (v `mod` 2 ^ 48 - x))).
Proof.
  intros Hm (P1 & P2 & P3 & P4) Hx Hv Hy. set (y := v `mod` 2 ^ 48) in *.
  assert (in48 y) as Hy48 by (apply Z.mod_pos_bound; lia).
  assert (y `mod` PAGE_SIZE = 0) as Hya.
  { change (2 ^ 48) with (2 ^ 36 * PAGE_SIZE) in y. unfold y.
    rewrite (Z.mul_comm _ PAGE_SIZE), Z.rem_mul_r by done.
    rewrite Hv, Z.add_0_l, Z.mul_comm. by apply Z.mod_mul. }
  specialize (Hm y Hy48). rewrite decide_True in Hm by done.
  unfold pt_translate. rewrite walk_48. fold y. rewrite Hm, outcome_bind_ok.
  assert ((y - x) / PAGE_SIZE * PAGE_SIZE = y - x) as E.
  { pose proof (mapped_aligned x y Hx Hya) as H. pose proof (Z.div_mod (y - x) PAGE_SIZE ltac:(done)). lia. }
  destruct (leaf_entry_ok (phys + (y - x)) o) as [L1 L2]; [lia| |done|].
  { by rewrite Z.add_mod, P2, mapped_aligned. }
  unfold leaf_at. rewrite E, L1, L2. cbn [orb andb Z.eqb Pos.eqb].
  change (level_size 1) with PAGE_SIZE. rewrite Hv. do 2 f_equal. lia.
Qed.

Lemma translate_kept x xe phys st st' v r : mapped cfg root o x xe phys st st' ->
  ~ x <= v `mod` 2 ^ 48 < xe -> pt_translate cfg st root v = Ok r ->
  pt_translate cfg st' root v = Ok r.
Proof.
  intros Hm Hy. specialize (Hm (v `mod` 2 ^ 48) (Z.mod_pos_bound v (2 ^ 48) ltac:(lia))).
  rewrite decide_False in Hm by done. unfold pt_translate. rewrite !(walk_48 _ v).
  destruct Hm as [->|(k & l & e & -> & He & -> & _)]; [done|].
  rewrite !outcome_bind_ok, He. done.
Qed.

Lemma translate_total st v : pt_ok alloc cfg root st -> exists r, pt_translate cfg st root v = Ok r.
Proof.
  intros Hok. unfold pt_translate. rewrite walk_48.
  destruct (walk_total alloc cfg root st (v `mod` 2 ^ 48) Hok) as (k & u & e & Hv & He & Hend);
    [apply Z.mod_pos_bound; lia|].
  rewrite (walk_ends _ _ _ _ _ _ _ _ Hv He Hend), outcome_bind_ok. eauto.
Qed.
End translate.

(** What the theorems on [pgmap_at] with tables of the page allocator ask for:
    a walk that can be followed, a page-aligned range, and that it is to be
    mapped with small pages only. *)
Record map_request (lock : lock_oracle) (cfg : paging) (pm : pagemap) (phys : range) (virt : Z)
    (o : pgmap_options) (st : mm) : Prop := {
  mr_cfg : cfg_ok cfg;
  mr_root : in_u 64 (root pm) /\ root pm `mod` PAGE_SIZE = 0;
  mr_tables : pt_ok (C := pageop) (ptwalker_alloc_pgtable_cb lock) cfg (root pm) st;
  mr_options : is_overwrite o = false /\ is_in_early o = false /\ Z.land (pte_flags o) PTE_PHYS_MASK = 0;
  mr_args : map_args_ok phys virt = true /\ in_u 64 virt /\
    0 <= front phys /\ front phys + size phys <= 2 ^ 48;
  mr_small : let x := virt `mod` 2 ^ 48 in
    no_large o (front phys) x (size phys) 2 /\ no_large o (front phys) x (size phys) 3;
  mr_can_map : let x := virt `mod` 2 ^ 48 in can_map cfg (root pm) st x (x + size phys);
}.
Abbreviation mapped_48 cfg pm o phys virt :=
  (mapped cfg (root pm) o (virt `mod` 2 ^ 48) (virt `mod` 2 ^ 48 + size phys) (front phys)).

Lemma pgmap_at_request cpu lock cfg early pm phys virt o st :
  map_request lock cfg pm phys virt o st ->
  let x := virt `mod` 2 ^ 48 in let r := pgmap_at cpu lock cfg early pm phys virt o st in
  (exists st', r = Ok (true, st') /\ pt_ok (C := pageop) (ptwalker_alloc_pgtable_cb lock) cfg (root pm) st' /\
     mapped_48 cfg pm o phys virt st st') \/
  (is_ok r = false /\
   starved (ptwalker_alloc_pgtable_cb lock) cfg (root pm) st x (x + size phys)).
Proof.
  intros [H1 H2 H3 (H4 & H5 & H6) (H7 & H8 & H9 & H10) [H11 H12] H13].
  apply (pgmap_at_ok (ptwalker_alloc_pgtable_cb lock) cfg (root pm) o H1 H6); try done.
  by rewrite H5.
Qed.

Lemma pgmap_at_done cpu lock cfg early pm phys virt o st st' :
  map_request lock cfg pm phys virt o st ->
  pgmap_at cpu lock cfg early pm phys virt o st = Ok (true, st') ->
  pt_ok (C := pageop) (ptwalker_alloc_pgtable_cb lock) cfg (root pm) st' /\
  mapped_48 cfg pm o phys virt st st'.
Proof.
  intros Hr E. destruct (pgmap_at_request cpu lock cfg early pm phys virt o st Hr) as [(st1 & E1 & H)|[E1 _]];
    rewrite E in E1; [|done]. by injection E1 as <-.
Qed.

(** ** A pagemap with an empty root, for the examples

    64 pages from physical address 0 on. *)
Lemma ex_full_section (i : nat) s : sections (ex_full 64) !! i = Some s ->
  i = 0%nat /\ range_front s = 0 /\ range_size s = 0x40000.
Proof.
  assert ((fun s => (range_front s, range_size s)) <$> sections (ex_full 64) = [(0, 0x40000)]) as E
    by (vm_compute; reflexivity).
  revert i s E. generalize (sections (ex_full 64)). intros [|s0 [|s1 l]] [|i] s E Hs; by simplify_eq/=.
Qed.

Lemma ex_full_places : phys_places (ex_full 64).
Proof.
  split.
  - intros i s (_ & _ & Hs)%ex_full_section. unfold npages. by rewrite Hs.
  - intros i s (_ & Hf & Hs)%ex_full_section. rewrite Hf, Hs. lia.
  - intros i j s s' x (-> & _)%ex_full_section (-> & _)%ex_full_section. done.
Qed.

Lemma ex_full_ready : buddy_ready (ex_full 64).
Proof.
  split_and!; [apply ex_full_wf; lia| |exact ex_full_places].
  apply (one_section_phys _ 64); [lia| | | |].
  - apply (bool_decide_eq_true_1 _). vm_compute. reflexivity.
  - vm_compute. reflexivity.
  - vm_compute. reflexivity.
  - vm_compute. reflexivity.
Qed.

Definition ex_root : Z * mm :=
  ok_or (0, ex_full 64) (ptwalker_alloc_pgtable_cb (C := pageop) ex_lock 4 None (ex_full 64)).
Definition ex_pm : pagemap := {| root := fst ex_root |}.

Lemma ex_root_ok : pt_ok (C := pageop) (ptwalker_alloc_pgtable_cb ex_lock) ex_cfg (root ex_pm) (snd ex_root) /\
  forall x, pt_walk ex_cfg (snd ex_root) 4 (root ex_pm) x = Ok (4, 0).
Proof.
  destruct (buddy_alloc (C := pageop) ex_lock 4 None (ex_full 64) ex_full_ready)
    as [[E _]|(phys & p & st' & E & Hr & N)].
  { apply (f_equal (fun r => match r with Ok (phys, _) => phys | _ => 0 end)) in E.
    vm_compute in E. discriminate. }
  assert (ex_root = (phys, st')) as Er by (unfold ex_root; rewrite E; reflexivity).
  clear E. unfold ex_pm. rewrite Er. clear Er. cbn [fst snd root].
  apply (empty_root_ok _ _ _ p (ex_full 64)); [exact Hr|exact N|].
  apply places_direct_map; [exact ex_full_places|apply ex_full_ready|done|].
  intros i s (_ & -> & ->)%ex_full_section. simpl. lia.
Qed.

(** Two pages at virtual address 0x400000. *)
Definition ex_options : pgmap_options :=
  {| pte_flags := __PTE_WRITE; alloc_pgtable_cb_info := None; free_pgtable_cb_info := None;
     supports_largepage_at_level_mask := 0; opt_free_pages := false; is_in_early := false;
     is_overwrite := false |}.
Definition ex_phys_range : range := RANGE_INIT 0x10000000 0x2000.
Definition ex_early : ptwalker_alloc_pgtable_t pageop := fun _ _ _ => Panic.

Lemma ex_request : map_request ex_lock ex_cfg ex_pm ex_phys_range 0x400000 ex_options (snd ex_root).
Proof.
  destruct ex_root_ok as [Hok Hw]. split.
  - by split.
  - split; [split; [vm_compute; discriminate|vm_compute; reflexivity]|vm_compute; reflexivity].
  - exact Hok.
  - done.
  - split_and!; done.
  - split; by left.
  - split.
    + done.
    + done.
    + intros y _ k e He. rewrite Hw in He. simplify_eq. by right.
    + intros g Hg Hm. change (0x400000 `mod` 2 ^ 48) with 0x400000 in Hg. simpl in Hg.
      apply Z.mod_divide in Hm as [c ->]; [|done]. change GIB with 1073741824 in Hg. lia.
    + left. done.
Qed.

(** ** Properties *)


(** [pgmap_at] of the examples, and the state it leaves. *)
Definition ex_mapped (phys : range) (virt : Z) (st : mm) : outcome (bool * mm) :=
  pgmap_at ex_pm ex_lock ex_cfg ex_early ex_pm phys virt ex_options st.
Definition ex_after (r : outcome (bool * mm)) : mm := snd (ok_or (false, ex_full 64) r).


Lemma mapped_ok r : match r with Ok (b, _) => b | _ => false end = true -> r = Ok (true, ex_after r).
Proof. by destruct r as [[[] st]| | |]. Qed.



(** [pgmap_at] turns an empty range, one whose end overflows, and one that
    is not page-aligned at either side away before it touches anything: the
    answer is false and memory is as before, whatever the options. *)
Theorem pgmap_at_rejects cpu lock cfg early pm phys virt o st :
  in_u 64 (front phys) -> in_u 64 (size phys) -> in_u 64 virt ->
  size phys = 0 \/ 2 ^ 64 <= front phys + size phys \/ 2 ^ 64 <= virt + size phys \/
  front phys `mod` PAGE_SIZE <> 0 \/ size phys `mod` PAGE_SIZE <> 0 \/ virt `mod` PAGE_SIZE <> 0 ->
  pgmap_at cpu lock cfg early pm phys virt o st = Ok (false, st).
Proof.
  intros Hf Hs Hv H. apply pgmap_at_checks; [done..|]. apply bool_decide_eq_false.
  intros (H1 & H2 & H3 & H4 & H5 & H6). destruct H as [H|[H|[H|[H|[H|H]]]]]; lia || done.
Qed.

Lemma pgmap_at_rejects_witness :
  pgmap_at ex_pm ex_lock ex_cfg ex_early ex_pm (RANGE_INIT 0x1000 0xfffffffffffff000) 0x400000 ex_options
    (snd ex_root) = Ok (false, snd ex_root).
Proof.
  apply (pgmap_at_rejects ex_pm ex_lock ex_cfg ex_early ex_pm); [split; [discriminate|reflexivity]..|].
  right. left. reflexivity.
Defined.

(** The first entry that [pgunmap_at] clears in such a table. *)
Lemma unmap_first_fails cpu cfg n r off mo uo w cs o st t p pg fr i : is_table st t p fr ->
  pages st !! p = Some pg -> data pg = Table_page 0 -> unmap_free_pages uo = false ->
  level w = 1 -> top_level w = 4 -> get_table 0 w = Ok (Some t) -> get_index 0 w = Ok i -> 0 <= i < 512 ->
  unmap_entries cpu cfg (S n) r off 1 mo uo {| walker := w; curr_split := cs; op := o; mem := st |} = Panic.
Proof.
  intros T Hpg Hd Hfree Hl Htop Ht Hi Hb. destruct (pte_read_ok _ _ _ _ i T Hb) as (e & _ & He).
  cbn [unmap_entries walker]. rewrite Hl. change (1 >? 1) with false. cbv iota. rewrite outcome_bind_ok.
  cbn [negb]. unfold unmap_entry, read_entry, read_at, write_at.
  cbn [walker mem]. change (1 - 1) with 0. rewrite Hl, Ht, Hi, !outcome_bind_ok, He.
  change (1 <? 1) with false. cbv iota. rewrite outcome_bind_ok, (pte_write_ok st t p fr) by done.
  rewrite !outcome_bind_ok, Hfree, outcome_bind_ok. unfold ptwalker_deref_from_level. cbn [walker set_mem set_walker op mem].
  rewrite Hl, Htop. change ((1 <? 1) || (1 >? 4)) with false. cbv iota.
  destruct (free_pgtable w) as [fg|]; [|done]. change (1 - 1) with 0. rewrite Ht, outcome_bind_ok.
  cbn [deref_levels]. rewrite Htop. change (1 <=? 4) with true. cbv iota.
  unfold virt_to_page, phys_to_pfn, table_ref_down, table_refcount, get_page. cbn [sections put_entry pages set_frames].
  rewrite (it_pfn _ _ _ _ T), outcome_bind_ok, Hpg. cbn [deref]. by rewrite outcome_bind_ok, Hd.
Qed.

(** C16: a page that is mapped by a table whose page counts no table below it -
    as every level-1 table that [pgmap_at] has filled does, since leaf entries
    are not counted - cannot be unmapped: [pgunmap_at] drops a reference of
    the table for every entry it clears, and fails the assertion of
    [ref_down] at the first one. *)
Theorem pgunmap_at_fails cpu lock cfg pm r o uo st t p pg : cfg_ok cfg ->
  in_u 64 (root pm) -> root pm `mod` PAGE_SIZE = 0 ->
  pt_ok (C := pageop) (ptwalker_alloc_pgtable_cb lock) cfg (root pm) st ->
  in_u 64 (front r) -> front r `mod` PAGE_SIZE = 0 -> size r `mod` PAGE_SIZE = 0 ->
  0 < size r < PAGE_SIZE_2MIB ->
  visits cfg st (front r `mod` 2 ^ 48) 4 (root pm) 1 t -> find_pfn (sections st) t = Some p ->
  pages st !! p = Some pg -> data pg = Table_page 0 -> unmap_free_pages uo = false ->
  pgunmap_at cpu lock cfg pm r o uo st = Panic.
Proof.
  intros Hcfg Hru Hra Hok Hfu Hfa Hsa Hsz Hv Hp Hpg Hd Hfree. set (x := front r `mod` 2 ^ 48) in *.
  assert (in48 x) as Hx by (apply Z.mod_pos_bound; lia).
  destruct (create_stands (C := pageop) (ptwalker_alloc_pgtable_cb lock) cfg (root pm) Hcfg pm (front r)
    (Some ptwalker_free_pgtable_cb) st) as (k & w & Ew & Hst & Hends); [done..|]. fold x in Hst, Hends.
  assert (k = 1%nat) as ->.
  { destruct Hends as (u & e & Hu & He & Hend). pose proof (visits_level _ _ _ _ _ _ _ Hu).
    pose proof (visits_ends _ _ _ _ _ _ _ _ _ _ Hu He Hend Hv). lia. }
  destruct (sd_shape _ _ _ _ _ _ _ Hst) as (_ & _ & Htop).
  destruct (sd_slots _ _ _ _ _ _ _ Hst) as [S4 S5]. pose proof (sd_level _ _ _ _ _ _ _ Hst) as Hl.
  destruct (S4 1%nat ltac:(lia)) as (t' & Ht & Hv'). pose proof (S5 1%nat ltac:(lia)) as Hi.
  assert (t' = t) as -> by (by eapply visits_fun).
  destruct (po_table _ _ _ _ Hok _ _ _ Hx Hv) as (p' & fr & [T _ _]).
  assert (p' = p) as -> by (pose proof (it_pfn _ _ _ _ T); congruence).
  unfold pgunmap_at. rewrite range_aligned by (unfold_ints; change PAGE_SIZE_2MIB with (2 ^ 21) in *; lia).
  rewrite Hfa, Hsa. cbn [Z.eqb andb negb]. rewrite outcome_bind_ok. cbn [negb].
  unfold default_walker, ptwalker_default_for_pagemap. rewrite Ew, outcome_bind_ok, Hl, Htop.
  assert (unmap_level 5 (Z.of_nat 1 + 1) (Z.of_nat 1) 4 (size r) = Ok 1) as ->.
  { simpl. by rewrite (proj2 (Z.ltb_lt _ _)) by lia. }
  rewrite outcome_bind_ok.
  replace (Z.to_nat (size r / PAGE_SIZE + 1)) with (S (Z.to_nat (size r / PAGE_SIZE)))
    by (pose proof (Z.div_pos (size r) PAGE_SIZE ltac:(lia) ltac:(done)); lia).
  apply (unmap_first_fails _ _ _ _ _ _ _ _ _ _ _ t p pg fr (pt_index x 1)); try done.
  - exact (nth_entry_ok _ 0%nat _ Ht).
  - exact (nth_entry_ok _ 0%nat _ Hi).
  - apply pt_index_bounds.
Qed.

Definition ex_two_pages : mm := ex_after (ex_mapped ex_phys_range 0x400000 (snd ex_root)).
Definition ex_unmap : pgunmap_options := {| unmap_free_pages := false; dont_split_large_pages := false |}.
(** The level-1 table that maps them. *)
Definition ex_leaf_table : Z :=
  let entry t i := match pte_read (Some t) i ex_two_pages with Ok e => pte_to_phys e | _ => 0 end in
  entry (entry (entry (root ex_pm) 0) 0) 2.
Definition ex_leaf_page : Z :=
  match find_pfn (sections ex_two_pages) ex_leaf_table with Some p => p | None => 0 end.

Lemma ex_two_pages_ok :
  pt_ok (C := pageop) (ptwalker_alloc_pgtable_cb ex_lock) ex_cfg (root ex_pm) ex_two_pages.
Proof.
  apply (pgmap_at_done ex_pm ex_lock ex_cfg ex_early ex_pm ex_phys_range 0x400000 ex_options (snd ex_root)
    _ ex_request).
  apply mapped_ok. vm_compute. reflexivity.
Qed.

Lemma pgunmap_at_fails_witness :
  pgunmap_at ex_pm ex_lock ex_cfg ex_pm (RANGE_INIT 0x400000 0x1000) ex_options ex_unmap ex_two_pages = Panic.
Proof.
  apply (pgunmap_at_fails ex_pm ex_lock ex_cfg ex_pm _ _ _ ex_two_pages ex_leaf_table ex_leaf_page
    (ok_or {| flags := 0; state := PAGE_STATE_USED; section := 0; data := Used 0 |}
      (get_page ex_leaf_page ex_two_pages))).
  - by split.
  - split; [vm_compute; discriminate|vm_compute; reflexivity].
  - vm_compute. reflexivity.
  - exact ex_two_pages_ok.
  - split; [discriminate|reflexivity].
  - reflexivity.
  - reflexivity.
  - split; reflexivity.
  - do 3 (eapply visits_down; [lia|vm_compute; reflexivity|reflexivity|]).
    apply (visits_here ex_cfg ex_two_pages _ 1 ex_leaf_table). lia.
  - vm_compute. reflexivity.
  - vm_compute. reflexivity.
  - vm_compute. reflexivity.
  - reflexivity.
Defined.

(** a range of small pages that ends where its level-1 table ends is not
    stopped there: unless the next address is a multiple of 1 GiB, the next
    table is filled as well, since only after an entry that is not the last
    of its table is the end of the range looked for.  Mapping the one page
    at 0x3fdff000 maps the 512 pages after it too. *)
Theorem pgmap_at_overruns_table_end :
  exists st', ex_mapped (RANGE_INIT 0x10000000 0x1000) 0x3fdff000 (snd ex_root) = Ok (true, st') /\
  ptwalker_virt_get_phys ex_lock ex_cfg ex_pm 0x3fe00000 (snd ex_root) = Ok INVALID_PHYS /\
  ptwalker_virt_get_phys ex_lock ex_cfg ex_pm 0x3fe00000 st' = Ok 0x10001000 /\
  ptwalker_virt_get_phys ex_lock ex_cfg ex_pm 0x3ffff000 st' = Ok 0x10200000.
Proof.
  exists (ex_after (ex_mapped (RANGE_INIT 0x10000000 0x1000) 0x3fdff000 (snd ex_root))).
  split; [apply mapped_ok; vm_compute; reflexivity|]. split_and!; vm_compute; reflexivity.
Qed.

(** Large pages of 2 MiB are allowed. *)
Definition ex_large_options : pgmap_options :=
  {| pte_flags := __PTE_WRITE; alloc_pgtable_cb_info := None; free_pgtable_cb_info := None;
     supports_largepage_at_level_mask := 4; opt_free_pages := false; is_in_early := false;
     is_overwrite := false |}.

(** after a large page the walker is not moved down into the table of the
    next entry, so the small pages at the end of the range go to a new table
    that takes the place of the one that was there.  With the pages at
    0x400000 and 0x401000 mapped, mapping a large page at 0x200000 and one
    small page after it unmaps 0x401000, which is not in the range. *)
Theorem pgmap_at_unmaps_neighbour :
  exists st', pgmap_at ex_pm ex_lock ex_cfg ex_early ex_pm (RANGE_INIT 0x20000000 0x201000) 0x200000
    ex_large_options ex_two_pages = Ok (true, st') /\
  ptwalker_virt_get_phys ex_lock ex_cfg ex_pm 0x401000 ex_two_pages = Ok 0x10001000 /\
  ptwalker_virt_get_phys ex_lock ex_cfg ex_pm 0x401000 st' = Ok INVALID_PHYS /\
  ptwalker_virt_get_phys ex_lock ex_cfg ex_pm 0x200000 st' = Ok 0x20000000 /\
  ptwalker_virt_get_phys ex_lock ex_cfg ex_pm 0x400000 st' = Ok 0x20200000.
Proof.
  exists (ex_after (pgmap_at ex_pm ex_lock ex_cfg ex_early ex_pm (RANGE_INIT 0x20000000 0x201000) 0x200000
    ex_large_options ex_two_pages)).
  split; [apply mapped_ok; vm_compute; reflexivity|]. split_and!; vm_compute; reflexivity.
Qed.
