(* ===== verification/Early.v ===== *)
(** * The early page allocator: kernel/mm/early.c

    Before the buddy allocator runs, free memory is a set of areas; the first
    page of an area holds its [freepages_info].  An info is named by its
    physical address (the direct map turns it into the pointer that the code
    compares), and the two intrusive lists are the sequences of the infos that
    they thread, as in PageAlloc.v: [None] is the list's head where a place is
    meant.  Zeroing a page that holds an info destroys the info: an access to
    it afterwards is [Undef].

    The second half works on the vmemmap and the sections of PageAlloc.v; a
    [struct page *] is its page-frame number. *)
From S2P Require Import Prelude CArith Range PageAlloc Walker.

Record freepages_info := {
  avail_page_count : Z;
  total_page_count : Z;
}.
Definition with_counts (avail total : Z) : freepages_info :=
  {| avail_page_count := avail; total_page_count := total |}.
Record early := {
  g_freepage_list : list Z;
  g_asc_freelist : list Z;
  infos : gmap Z freepages_info;
  g_total_free_pages : Z;
  g_total_free_pages_remaining : Z;
}.
Definition early_init : early :=
  {| g_freepage_list := []; g_asc_freelist := []; infos := ∅;
     g_total_free_pages := 0; g_total_free_pages_remaining := 0 |}.
Definition set_freepage_list (l : list Z) (e : early) : early :=
  {| g_freepage_list := l; g_asc_freelist := g_asc_freelist e; infos := infos e;
     g_total_free_pages := g_total_free_pages e; g_total_free_pages_remaining := g_total_free_pages_remaining e |}.
Definition set_asc_freelist (l : list Z) (e : early) : early :=
  {| g_freepage_list := g_freepage_list e; g_asc_freelist := l; infos := infos e;
     g_total_free_pages := g_total_free_pages e; g_total_free_pages_remaining := g_total_free_pages_remaining e |}.
Definition set_infos (m : gmap Z freepages_info) (e : early) : early :=
  {| g_freepage_list := g_freepage_list e; g_asc_freelist := g_asc_freelist e; infos := m;
     g_total_free_pages := g_total_free_pages e; g_total_free_pages_remaining := g_total_free_pages_remaining e |}.
Definition set_totals (total remaining : Z) (e : early) : early :=
  {| g_freepage_list := g_freepage_list e; g_asc_freelist := g_asc_freelist e; infos := infos e;
     g_total_free_pages := total; g_total_free_pages_remaining := remaining |}.
Definition get_info (p : Z) (e : early) : outcome freepages_info := deref (infos e !! p).
Definition put_info (p : Z) (i : freepages_info) (e : early) : early := set_infos (<[p := i]> (infos e)) e.

(** ** Lists *)
Fixpoint insert_after (place : Z) (x : Z) (l : list Z) : outcome (list Z) :=
  match l with
  | [] => Undef
  | y :: l => if y =? place then Ok (y :: x :: l) else l ← insert_after place x l; Ok (y :: l)
  end.
Definition list_add_at (place : option Z) (x : Z) (l : list Z) : outcome (list Z) :=
  match place with None => Ok (x :: l) | Some p => insert_after p x l end.
(** An element that is in no list has NULL for its links after the first
    [list_delete]. *)
Definition list_del (x : Z) (l : list Z) : outcome (list Z) :=
  if decide (x ∈ l) then Ok (filter (.≠ x) l) else Undef.
(** [list_next] of a place and [list_prev] of an element. *)
Fixpoint list_next_of (x : Z) (l : list Z) : option Z :=
  match l with
  | [] => None
  | y :: l => if y =? x then head l else list_next_of x l
  end.
Definition list_next_at (place : option Z) (l : list Z) : option Z :=
  match place with None => head l | Some p => list_next_of p l end.
Fixpoint list_prev_from (prev : option Z) (x : Z) (l : list Z) : option Z :=
  match l with
  | [] => None
  | y :: l => if y =? x then prev else list_prev_from (Some y) x l
  end.
Definition list_prev_of (x : Z) (l : list Z) : option Z := list_prev_from None x l.

(** [list_foreach] that keeps the last element before the one it stops at. *)
Fixpoint last_before (stop : Z -> outcome bool) (prev : option Z) (l : list Z) : outcome (option Z) :=
  match l with
  | [] => Ok prev
  | iter :: l =>
      b ← stop iter;
      if (b : bool) then Ok prev else last_before stop (Some iter) l
  end.

(** ** Claiming and allocating *)
Definition add_to_asc_list (info : Z) (e : early) : outcome early :=
  prev ← last_before (fun iter =>
           i ← get_info info e; j ← get_info iter e;
           Ok (avail_page_count i <? avail_page_count j)) None (g_asc_freelist e);
  l ← list_add_at prev info (g_asc_freelist e);
  Ok (set_asc_freelist l e).

(** The area of [prev] ends where the page at [info] begins. *)
Definition ends_at (p : Z) (i : freepages_info) (next : Z) : bool :=
  u64 (p + u64 (Z.shiftl (avail_page_count i) PAGE_SHIFT)) =? next.
Definition grow_info (n : Z) (i : freepages_info) : freepages_info :=
  with_counts (u64 (avail_page_count i + n)) (u64 (total_page_count i + n)).

Definition merge_with_next (info page_count : Z) (prev : option Z) (e : early) : outcome early :=
  match list_next_at prev (g_freepage_list e) with
  | None => Ok e
  | Some next =>
      i ← get_info info e;
      if ends_at info i next
      then
        l ← list_del next (g_freepage_list e);
        Ok (set_freepage_list l (put_info info (grow_info page_count i) e))
      else Ok e
  end.
Definition link_area (prev : option Z) (info : Z) (e : early) : outcome early :=
  l ← list_add_at prev info (g_freepage_list e);
  add_to_asc_list info (set_freepage_list l e).

Definition claim_pages (memmap : range) (e : early) : outcome early :=
  let info := front memmap in
  let page_count := PAGE_COUNT (size memmap) in
  let e := set_totals (u64 (g_total_free_pages e + page_count))
             (u64 (g_total_free_pages_remaining e + page_count)) e in
  let e := put_info info (with_counts page_count page_count) e in
  match last (g_freepage_list e) with
  | None => link_area None info e
  | Some tail =>
      '(prev, e) ←
        (if tail >? info then
           prev ← last_before (fun iter => Ok (info <? iter)) None (g_freepage_list e);
           e ← merge_with_next info page_count prev e;
           Ok (prev, e)
         else Ok (Some tail, e));
      match prev with
      | None => link_area None info e
      | Some p =>
          i ← get_info p e;
          if ends_at p i info then Ok (put_info p (grow_info page_count i) e)
          else link_area prev info e
      end
  end.

(** [zero_multiple_pages] on the pages from [phys] on. *)
Definition in_pages (phys n p : Z) : bool := (phys <=? p) && (p <? phys + n * PAGE_SIZE).
Definition zero_pages (phys n : Z) (e : early) : early :=
  set_infos (filter (fun x => in_pages phys n (fst x) = false) (infos e)) e.
Definition drop_area (info : Z) (e : early) : outcome early :=
  asc ← list_del info (g_asc_freelist e);
  l ← list_del info (g_freepage_list e);
  Ok (set_freepage_list l (set_asc_freelist asc e)).

Definition early_alloc_page (e : early) : outcome (Z * early) :=
  match g_asc_freelist e with
  | [] => Ok (INVALID_PHYS, e)
  | info :: _ =>
      i ← get_info info e;
      let avail := u64 (avail_page_count i - 1) in
      let e := put_info info (with_counts avail (total_page_count i)) e in
      e ← (if avail =? 0 then drop_area info e else Ok e);
      let free_page := u64 (info + u64 (Z.shiftl avail PAGE_SHIFT)) in
      let e := zero_pages free_page 1 e in
      Ok (free_page, set_totals (g_total_free_pages e) (u64 (g_total_free_pages_remaining e - 1)) e)
  end.

(** The first area with room: its info, the place and whether pages are left
    behind it. *)
Fixpoint find_area (alloc_amount : Z) (l : list Z) (e : early) : outcome (option (Z * Z * bool)) :=
  match l with
  | [] => Ok None
  | info :: l =>
      i ← get_info info e;
      if avail_page_count i <? alloc_amount then find_area alloc_amount l e
      else
        let last_phys := u64 (info + u64 (Z.shiftl (avail_page_count i - alloc_amount) PAGE_SHIFT)) in
        let boundary := u32 (Z.shiftl alloc_amount PAGE_SHIFT) in
        aligned ← has_align last_phys boundary;
        if (aligned : bool) then Ok (Some (info, last_phys, false))
        else
          last_phys ← align_down last_phys boundary;
          if last_phys <? info then find_area alloc_amount l e
          else Ok (Some (info, last_phys, true))
  end.

(** An area that shrank moves to its place in the second list. *)
Definition resort (info : Z) (e : early) : outcome early :=
  match list_prev_of info (g_asc_freelist e) with
  | None => Ok e
  | Some prev =>
      i ← get_info info e; j ← get_info prev e;
      if avail_page_count j >? avail_page_count i
      then l ← list_del info (g_asc_freelist e); add_to_asc_list info (set_asc_freelist l e)
      else Ok e
  end.

Definition alloc_in_middle (info free_page alloc_amount : Z) (e : early) : outcome early :=
  i ← get_info info e;
  let avail := PAGE_COUNT (u64 (free_page - info)) in
  let e := put_info info (with_counts avail (u64 (avail + PAGE_COUNT alloc_amount))) e in
  '(prev, e) ←
    (if negb (avail =? 0) then e ← resort info e; Ok (Some info, e)
     else e' ← drop_area info e; Ok (list_prev_of info (g_freepage_list e), e'));
  let new_info := u64 (free_page + u32 (Z.shiftl alloc_amount PAGE_SHIFT)) in
  let new_info_count := u64 (avail_page_count i - avail - alloc_amount) in
  if negb (new_info_count =? 0) then
    link_area prev new_info (put_info new_info (with_counts new_info_count new_info_count) e)
  else Ok e.
Definition alloc_at_end (info alloc_amount : Z) (e : early) : outcome early :=
  i ← get_info info e;
  let avail := u64 (avail_page_count i - alloc_amount) in
  let e := put_info info (with_counts avail (total_page_count i)) e in
  if avail =? 0 then drop_area info e else resort info e.

Definition early_alloc_large_page (alloc_amount : Z) (e : early) : outcome (Z * early) :=
  match g_asc_freelist e with
  | [] => Ok (INVALID_PHYS, e)
  | _ =>
      area ← find_area alloc_amount (g_asc_freelist e) e;
      match area with
      | None => Ok (INVALID_PHYS, e)
      | Some (info, free_page, is_in_middle) =>
          e ← (if (is_in_middle : bool) then alloc_in_middle info free_page alloc_amount e
               else alloc_at_end info alloc_amount e);
          let e := zero_pages free_page alloc_amount e in
          Ok (free_page, set_totals (g_total_free_pages e)
                           (u64 (g_total_free_pages_remaining e - alloc_amount)) e)
      end
  end.

(** mm_early_init *)
Definition MM_MEMMAP_KIND_USABLE : Z := 1.
Record mm_memmap := { mm_range : range; kind : Z }.
Fixpoint claim_usable (memmaps : list mm_memmap) (structpage_page_count : Z) (e : early) : outcome (Z * early) :=
  match memmaps with
  | [] => Ok (structpage_page_count, e)
  | m :: memmaps =>
      c_assert (negb (kind m =? 0));;
      '(n, e) ←
        (if kind m =? MM_MEMMAP_KIND_USABLE then
           e ← claim_pages (mm_range m) e;
           Ok (u64 (structpage_page_count + PAGE_COUNT (size (mm_range m))), e)
         else Ok (structpage_page_count, e));
      range_get_end_assert (mm_range m);;
      claim_usable memmaps n e
  end.
Definition mm_early_init (memmaps : list mm_memmap) (e : early) : outcome (Z * early) :=
  claim_usable memmaps 0 e.

(** ** Handing the areas over *)
Definition phys_to_page (phys : Z) (st : mm) : outcome Z := phys_to_pfn phys st.

(** [for (; page != end; page++) page->state = PAGE_STATE_SYSTEM_CRUCIAL]; a
    run past the vmemmap ends at the first page that is not in it. *)
Fixpoint mark_until (fuel : nat) (page end_ : Z) (st : mm) : outcome mm :=
  match fuel with
  | O => OutOfFuel
  | S fuel =>
      if page =? end_ then Ok st
      else st ← page_set_state page PAGE_STATE_SYSTEM_CRUCIAL st; mark_until fuel (page + 1) end_ st
  end.
Definition mark_fuel (st : mm) : nat := S (base.size (pages st)).
(** The loop from [avail_page_count] to [total_page_count]. *)
Fixpoint mark_count (fuel : nat) (page i total : Z) (st : mm) : outcome (Z * mm) :=
  match fuel with
  | O => OutOfFuel
  | S fuel =>
      if i =? total then Ok (page, st)
      else
        st ← page_set_state page PAGE_STATE_SYSTEM_CRUCIAL st;
        mark_count fuel (page + 1) (u64 (i + 1)) total st
  end.

Section crucial.
Context (memmap : page_section) (e : early).
Definition memmap_range : range := RANGE_INIT (range_front memmap) (range_size memmap).

(** The [while (true)] loop on the infos from [iter] on. *)
Fixpoint mark_areas (start page : Z) (iter : Z) (rest : list Z) (st : mm) : outcome mm :=
  i ← get_info iter e;
  let page := page + avail_page_count i in
  '(page, st) ← mark_count (mark_fuel st) page (avail_page_count i) (total_page_count i) st;
  let memmap_end := start + PAGE_COUNT (range_size memmap) in
  match rest with
  | [] => mark_until (mark_fuel st) page memmap_end st
  | iter :: rest =>
      if negb (range_has_loc memmap_range iter) then mark_until (mark_fuel st) page memmap_end st
      else
        end_ ← phys_to_page iter st;
        st ← mark_until (mark_fuel st) page end_ st;
        mark_areas start end_ iter rest st
  end.
Fixpoint find_in_memmap (l : list Z) (st : mm) : outcome mm :=
  match l with
  | [] =>
      page ← phys_to_page (range_front memmap) st;
      mark_until (mark_fuel st) page (page + PAGE_COUNT (range_size memmap)) st
  | iter :: l =>
      if negb (range_has_loc memmap_range iter) then find_in_memmap l st
      else
        start ← phys_to_page (range_front memmap) st;
        unusable_end ← phys_to_page iter st;
        st ← mark_until (mark_fuel st) start unusable_end st;
        mark_areas start unusable_end iter l st
  end.
Definition mark_crucial_pages (st : mm) : outcome mm := find_in_memmap (g_freepage_list e) st.

(** [page->section = section] up to [end_]. *)
Definition with_section (n : nat) (pg : page) : page :=
  {| flags := flags pg; state := state pg; PageAlloc.section := n; data := data pg |}.
Fixpoint set_sections_until (fuel : nat) (page end_ : Z) (n : nat) (st : mm) : outcome mm :=
  match fuel with
  | O => OutOfFuel
  | S fuel =>
      if page =? end_ then Ok st
      else
        c_assert (page <? page_end st);;
        st ← update_page (with_section n) page st;
        set_sections_until fuel (page + 1) end_ n st
  end.
Fixpoint set_section_of_areas (l : list Z) (n : nat) (st : mm) : outcome mm :=
  match l with
  | [] => Ok st
  | iter :: l =>
      i ← get_info iter e;
      let page_phys := iter in
      let bytes := u64 (Z.shiftl (avail_page_count i) PAGE_SHIFT) in
      let back_phys := u64 (u64 (iter + bytes) - PAGE_SIZE) in
      if negb (range_has_loc memmap_range iter) && negb (range_has_loc memmap_range back_phys)
      then set_section_of_areas l n st
      else
        let iter_phys := if negb (range_has_loc memmap_range iter) then range_front memmap else iter in
        memmap_end ← range_get_end_assert memmap_range;
        let end_phys := Z.min memmap_end (u64 (iter_phys + bytes)) in
        page ← phys_to_page page_phys st;
        back ← phys_to_page (u64 (end_phys - PAGE_SIZE)) st;
        st ← set_sections_until (mark_fuel st) page (back + 1) n st;
        set_section_of_areas l n st
  end.
(** [page_section_t] is 8 bits wide. *)
Definition set_section_for_pages (number : Z) (st : mm) : outcome mm :=
  set_section_of_areas (g_freepage_list e) (Z.to_nat (u8 number)) st.
End crucial.

(** [jorder]: the largest order, from [n] down, whose last page is in the
    section; -1 when there is none. *)
Fixpoint drop_to_section (n : nat) (page : Z) (i : nat) (st : mm) : outcome Z :=
  j ← page_to_section (page + (2 ^ Z.of_nat n - 1)) st;
  if bool_decide (i = j) then Ok (Z.of_nat n)
  else match n with O => Ok (-1) | S m => drop_to_section m page i st end.

(** The inner loop that frees [avail_in_section] pages. *)
Fixpoint free_in_section (fuel : nat) (page : Z) (i : nat) (jorder avail_in_section : Z) (st : mm) :
    outcome (Z * mm) :=
  match fuel with
  | O => OutOfFuel
  | S fuel =>
      st ← early_free_pages_from_section page i (u8 jorder) st;
      let freed_count := 2 ^ jorder in
      let page := page + freed_count in
      let avail_in_section := u64 (avail_in_section - freed_count) in
      if avail_in_section =? 0 then
        st ← update_section (finish_free_range jorder) i st; Ok (page, st)
      else
        let jorder := drop_order (Z.to_nat jorder) avail_in_section in
        if jorder <? 0 then Ok (page, st)
        else free_in_section fuel page i jorder avail_in_section st
  end.

(** The blocks of one area; a shift by -1 is undefined. *)
Fixpoint free_area (fuel : nat) (page : Z) (i : nat) (iorder avail : Z) (st : mm) : outcome mm :=
  match fuel with
  | O => OutOfFuel
  | S fuel =>
      let iorder := if iorder <? 0 then iorder else drop_order (Z.to_nat iorder) avail in
      jorder ← (if iorder <? 0 then Ok iorder else drop_to_section (Z.to_nat iorder) page i st);
      if jorder <? 0 then Undef
      else
        let total_in_section := 2 ^ jorder in
        '(page, st) ← free_in_section (Z.to_nat (2 ^ jorder)) page i jorder total_in_section st;
        let avail := u64 (avail - total_in_section) in
        if avail =? 0 then Ok st else free_area fuel page i iorder avail st
  end.

Fixpoint free_areas (l : list Z) (free_page_count : Z) (e : early) (st : mm) : outcome (Z * early * mm) :=
  match l with
  | [] => Ok (free_page_count, e, st)
  | iter :: l =>
      i ← get_info iter e;
      page ← phys_to_page iter st;
      sec ← page_to_section page st;
      st ← free_area (S (Z.to_nat (avail_page_count i))) page sec (MAX_ORDER - 1) (avail_page_count i) st;
      fl ← list_del iter (g_freepage_list e);
      free_areas l (u64 (free_page_count + avail_page_count i)) (set_freepage_list fl e) st
  end.
Definition free_all_pages (e : early) (st : mm) : outcome (Z * early * mm) :=
  free_areas (rev (g_asc_freelist e)) 0 e st.
