(* ===== verification/EarlyInv.v ===== *)
(** * Invariant of the early allocator

    [areas lo l hi m]: the infos of [l] describe non-empty, page-aligned areas
    in ascending order between [lo] and [hi].  [early_ok] says that the list by
    address is such a sequence, that the other list holds the same infos and
    that the count of pages is right; [early_free e x] that the byte at [x] is
    in one of the areas. *)
From S2P Require Import Prelude CArith Range PageAlloc Walker Early.

Abbreviation avail i := (avail_page_count i).
Definition area_end (p : Z) (i : freepages_info) : Z := p + PAGE_SIZE * avail i.
Definition claim_end (p : Z) (i : freepages_info) : Z := p + PAGE_SIZE * total_page_count i.

Definition ADDR_MAX : Z := 2 ^ 52.
Fixpoint areas (lo : Z) (l : list Z) (hi : Z) (m : gmap Z freepages_info) : Prop :=
  match l with
  | [] => lo <= hi
  | p :: l => lo <= p /\ (PAGE_SIZE | p) /\
      exists i, m !! p = Some i /\ 0 < avail i <= total_page_count i /\ areas (claim_end p i) l hi m
  end.
Definition in_area (m : gmap Z freepages_info) (p x : Z) : Prop :=
  exists i, m !! p = Some i /\ p <= x < area_end p i.
Definition free_in (l : list Z) (m : gmap Z freepages_info) (x : Z) : Prop := exists p, p ∈ l /\ in_area m p x.
Fixpoint sum_avail (l : list Z) (m : gmap Z freepages_info) : Z :=
  match l with [] => 0 | p :: l => match m !! p with Some i => avail i | None => 0 end + sum_avail l m end.

Record early_ok (e : early) : Prop := {
  eo_areas : areas 0 (g_freepage_list e) ADDR_MAX (infos e);
  eo_asc : g_asc_freelist e ≡ₚ g_freepage_list e;
  eo_total : g_total_free_pages_remaining e = sum_avail (g_freepage_list e) (infos e);
}.
Definition early_free (e : early) (x : Z) : Prop := free_in (g_freepage_list e) (infos e) x.

(** ** Sequences of areas *)
Lemma area_claim p i : 0 < avail i <= total_page_count i -> p < area_end p i <= claim_end p i.
Proof. unfold area_end, claim_end. change PAGE_SIZE with 4096. lia. Qed.
Lemma areas_mono lo lo' l hi hi' m : lo' <= lo -> hi <= hi' -> areas lo l hi m -> areas lo' l hi' m.
Proof.
  revert lo lo'. induction l as [|p l IH]; intros lo lo' Hlo Hhi; simpl; [lia|].
  intros (H1 & H2 & i & H3 & H4 & H5). split; [lia|]. split; [done|]. exists i. split_and!; try done; try lia.
  by apply (IH (claim_end p i)).
Qed.
Lemma areas_le lo l hi m : areas lo l hi m -> lo <= hi.
Proof.
  revert lo. induction l as [|p l IH]; intros lo; simpl; [done|].
  intros (H1 & H2 & i & H3 & H4 & H5). apply IH in H5. pose proof (area_claim p i H4). lia.
Qed.
Lemma areas_ext lo l hi m m' : (forall p, p ∈ l -> m' !! p = m !! p) -> areas lo l hi m -> areas lo l hi m'.
Proof.
  revert lo. induction l as [|p l IH]; intros lo E; simpl; [done|].
  intros (H1 & H2 & i & H3 & H4 & H5). split; [done|]. split; [done|]. exists i.
  rewrite E by (by left). split_and!; try done; try lia. apply IH; [|done]. intros q Hq. apply E. by right.
Qed.
Lemma areas_app lo l1 l2 hi m : areas lo (l1 ++ l2) hi m <-> exists mid, areas lo l1 mid m /\ areas mid l2 hi m.
Proof.
  revert lo. induction l1 as [|p l1 IH]; intros lo; simpl.
  - split.
    + intros H. exists lo. split; [lia|done].
    + intros (mid & H1 & H2). by apply (areas_mono mid lo _ hi hi); [| |].
  - split.
    + intros (H1 & H2 & i & H3 & H4 & (mid & H6 & H7)%IH). exists mid. split; [|done]. eauto 10.
    + intros (mid & (H1 & H2 & i & H3 & H4 & H6) & H7). split; [done|]. split; [done|]. exists i.
      split_and!; try done; try lia. apply IH. eauto.
Qed.
Lemma areas_range lo l hi m p : areas lo l hi m -> p ∈ l ->
  exists i, m !! p = Some i /\ 0 < avail i <= total_page_count i /\ claim_end p i <= hi /\ (PAGE_SIZE | p) /\
    lo <= p /\ area_end p i <= hi.
Proof.
  intros H (l1 & l2 & ->)%list_elem_of_split. apply areas_app in H as (mid & H1 & H2). simpl in H2.
  destruct H2 as (H2 & H3 & i & H4 & H5 & H7). exists i. pose proof (area_claim p i H5).
  apply areas_le in H1. apply areas_le in H7. split_and!; done || lia.
Qed.
Lemma areas_nodup lo l hi m : areas lo l hi m -> NoDup l.
Proof.
  revert lo. induction l as [|p l IH]; intros lo; simpl; [intros _; apply NoDup_nil_2|].
  intros (H1 & H2 & i & H3 & H4 & H5). apply NoDup_cons. split; [|by apply (IH _ H5)].
  intros Hp. destruct (areas_range _ _ _ _ _ H5 Hp) as (j & _ & _ & _ & _ & Hle & _).
  pose proof (area_claim p i H4). lia.
Qed.

Lemma free_in_app l1 l2 m x : free_in (l1 ++ l2) m x <-> free_in l1 m x \/ free_in l2 m x.
Proof. unfold free_in. setoid_rewrite elem_of_app. naive_solver. Qed.
Lemma free_in_cons p l m x : free_in (p :: l) m x <-> in_area m p x \/ free_in l m x.
Proof. unfold free_in. setoid_rewrite elem_of_cons. naive_solver. Qed.
Lemma free_in_nil m x : ~ free_in [] m x.
Proof. intros (p & Hp & _). by apply elem_of_nil in Hp. Qed.
Lemma free_in_ext l m m' x : (forall p, p ∈ l -> m' !! p = m !! p) -> free_in l m' x <-> free_in l m x.
Proof.
  intros E. unfold free_in, in_area. split; intros (p & Hp & i & Hi & Hx); exists p; (split; [done|]); exists i;
    (split; [|done]); [by rewrite <- E|by rewrite E].
Qed.
Lemma free_in_range lo l hi m x : areas lo l hi m -> free_in l m x -> lo <= x < hi.
Proof.
  intros H (p & Hp & i & Hi & Hx). destruct (areas_range _ _ _ _ _ H Hp) as (j & Hj & ? & ? & ? & ? & ?).
  rewrite Hi in Hj. injection Hj as <-. lia.
Qed.
Lemma sum_avail_app l1 l2 m : sum_avail (l1 ++ l2) m = sum_avail l1 m + sum_avail l2 m.
Proof. induction l1 as [|p l1 IH]; simpl; [done|]. rewrite IH. lia. Qed.
Lemma sum_avail_ext l m m' : (forall p, p ∈ l -> m' !! p = m !! p) -> sum_avail l m' = sum_avail l m.
Proof.
  induction l as [|p l IH]; intros E; simpl; [done|]. rewrite E by (by left). rewrite IH; [done|].
  intros q Hq. apply E. by right.
Qed.
Lemma sum_avail_bound lo l hi m : areas lo l hi m -> 0 <= PAGE_SIZE * sum_avail l m <= hi - lo.
Proof.
  revert lo. induction l as [|p l IH]; intros lo; simpl; [lia|].
  intros (H1 & H2 & i & -> & H4 & H6). apply IH in H6. unfold claim_end in *. change PAGE_SIZE with 4096 in *. lia.
Qed.

(** ** The lists *)
Lemma last_before_spec stop prev l : (forall q, q ∈ l -> exists b, stop q = Ok b) ->
  exists l1 l2, l = l1 ++ l2 /\ last_before stop prev l = Ok (match last l1 with Some q => Some q | None => prev end) /\
    (forall q, q ∈ l1 -> stop q = Ok false) /\ (forall q l2', l2 = q :: l2' -> stop q = Ok true).
Proof.
  revert prev. induction l as [|p l IH]; intros prev Hs; cbn [last_before].
  - exists [], []. split_and!; try done. intros q Hq. by apply elem_of_nil in Hq.
  - destruct (Hs p) as [b Hb]; [by left|]. rewrite Hb, outcome_bind_ok. destruct b.
    + exists [], (p :: l). split_and!; try done; [intros q Hq; by apply elem_of_nil in Hq|]. by intros q l2' [= <- <-].
    + destruct (IH (Some p)) as (l1 & l2 & -> & -> & H1 & H2); [intros q Hq; apply Hs; by right|].
      exists (p :: l1), l2. split_and!; try done.
      * f_equal. rewrite last_cons. by destruct (last l1).
      * intros q Hq. apply elem_of_cons in Hq as [->|Hq]; [done|by apply H1].
Qed.

Lemma insert_after_split l1 p l2 x : p ∉ l1 -> insert_after p x (l1 ++ p :: l2) = Ok (l1 ++ p :: x :: l2).
Proof.
  induction l1 as [|y l1 IH]; intros Hp; cbn [app insert_after].
  - by rewrite Z.eqb_refl.
  - apply not_elem_of_cons in Hp as [Hne Hp]. rewrite (proj2 (Z.eqb_neq y p)) by done.
    by rewrite IH.
Qed.
Lemma list_add_at_last l1 l2 x : NoDup (l1 ++ l2) -> list_add_at (last l1) x (l1 ++ l2) = Ok (l1 ++ x :: l2).
Proof.
  intros Hnd. destruct (last l1) as [p|] eqn:E; simpl.
  - apply last_Some in E as [l1' ->]. rewrite <- !app_assoc. simpl. apply insert_after_split.
    rewrite <- app_assoc in Hnd. apply NoDup_app in Hnd as (_ & Hnd & _). intros Hp. apply (Hnd p Hp). by left.
  - apply last_None in E as ->. done.
Qed.
Lemma list_del_split l1 p l2 : NoDup (l1 ++ p :: l2) -> list_del p (l1 ++ p :: l2) = Ok (l1 ++ l2).
Proof.
  intros Hnd. unfold list_del. rewrite decide_True by (apply elem_of_app; right; by left). f_equal.
  apply NoDup_app in Hnd as (_ & Hd & Hc). apply NoDup_cons in Hc as [Hc _].
  assert (forall l : list Z, p ∉ l -> filter (.≠ p) l = l) as Hf.
  { induction l as [|y l IH]; intros Hp; [done|]. apply not_elem_of_cons in Hp as [Hne Hp].
    rewrite filter_cons_True by done. by rewrite IH. }
  rewrite filter_app, filter_cons_False by (by intros ?). rewrite !Hf; [done|done|].
  intros Hp. apply (Hd p Hp). by left.
Qed.
Lemma list_del_perm p l l' : NoDup l -> p ∈ l' -> l ≡ₚ l' -> exists l0, list_del p l = Ok l0 /\ p :: l0 ≡ₚ l /\ NoDup l0.
Proof.
  intros Hnd Hp Hperm. rewrite <- Hperm in Hp. apply list_elem_of_split in Hp as (l1 & l2 & ->).
  rewrite list_del_split by done. exists (l1 ++ l2). split; [done|]. split.
  - by rewrite Permutation_middle.
  - rewrite <- Permutation_middle in Hnd. by apply NoDup_cons in Hnd as [_ Hnd].
Qed.

Lemma get_info_ok p i e : infos e !! p = Some i -> get_info p e = Ok i.
Proof. intros H. unfold get_info. by rewrite H. Qed.

(** Putting an info on the list by size only changes that list. *)
Lemma add_to_asc_list_ok info e : is_Some (infos e !! info) -> NoDup (g_asc_freelist e) ->
  (forall q, q ∈ g_asc_freelist e -> is_Some (infos e !! q)) ->
  exists asc, add_to_asc_list info e = Ok (set_asc_freelist asc e) /\ asc ≡ₚ info :: g_asc_freelist e.
Proof.
  intros [i Hi] Hnd Hq. unfold add_to_asc_list.
  destruct (last_before_spec (fun iter => i ← get_info info e; j ← get_info iter e;
      Ok (avail i <? avail j)) None (g_asc_freelist e)) as (l1 & l2 & El & -> & _ & _).
  { intros q Hin. destruct (Hq q Hin) as [j Hj]. rewrite (get_info_ok _ _ _ Hi), (get_info_ok _ _ _ Hj). simpl. eauto. }
  rewrite outcome_bind_ok.
  assert (match last l1 with Some q => Some q | None => None end = last l1) as -> by (by destruct (last l1)).
  rewrite El in Hnd |- *. rewrite list_add_at_last by done. rewrite outcome_bind_ok.
  exists (l1 ++ info :: l2). split; [done|]. by rewrite Permutation_middle.
Qed.

(** ** Replacing one area by others inside it *)
Lemma replaced e e' l1 p i l2 new n a b : early_ok e -> g_freepage_list e = l1 ++ p :: l2 -> infos e !! p = Some i ->
  g_freepage_list e' = l1 ++ new ++ l2 -> g_asc_freelist e' ≡ₚ g_freepage_list e' ->
  (forall q, q ∈ l1 ++ l2 -> infos e' !! q = infos e !! q) ->
  areas p new (claim_end p i) (infos e') ->
  (forall x, free_in new (infos e') x <-> p <= x < area_end p i /\ ~ a <= x < b) ->
  p <= a /\ b <= area_end p i ->
  sum_avail new (infos e') = avail i - n ->
  g_total_free_pages_remaining e' = g_total_free_pages_remaining e - n ->
  early_ok e' /\ forall x, early_free e' x <-> early_free e x /\ ~ a <= x < b.
Proof.
  intros [Ha Hasc Hsum] El Hi El' Hasc' Hsame Hnew Hfree Hab Hn Hrem.
  rewrite El in Ha, Hsum. apply areas_app in Ha as (mid & A1 & A2). simpl in A2.
  destruct A2 as (A2 & A3 & i' & A4 & A5 & A7). rewrite Hi in A4. injection A4 as <-.
  pose proof (area_claim p i A5) as Hac.
  assert (forall q, q ∈ l1 -> infos e' !! q = infos e !! q) as S1 by (intros q Hq; apply Hsame, elem_of_app; by left).
  assert (forall q, q ∈ l2 -> infos e' !! q = infos e !! q) as S2 by (intros q Hq; apply Hsame, elem_of_app; by right).
  split.
  - split; [| done |].
    + rewrite El'. apply areas_app. exists mid. split; [by apply (areas_ext _ _ _ _ _ S1)|].
      apply areas_app. exists (claim_end p i). split; [by eapply areas_mono; [..|exact Hnew]; [|done]|].
      by apply (areas_ext _ _ _ _ _ S2).
    + rewrite El', Hrem, Hsum, !sum_avail_app, Hn. simpl. rewrite Hi.
      rewrite (sum_avail_ext _ _ _ S1), (sum_avail_ext _ _ _ S2). lia.
  - intros x. unfold early_free. rewrite El, El', !free_in_app, free_in_cons.
    rewrite (free_in_ext _ _ _ x S1), (free_in_ext _ _ _ x S2), Hfree.
    assert (in_area (infos e) p x <-> p <= x < area_end p i) as ->.
    { unfold in_area. rewrite Hi. split; [by intros (? & [= <-] & ?)|eauto]. }
    assert (free_in l1 (infos e) x -> x < p) as F1 by (intros F; apply (free_in_range _ _ _ _ _ A1) in F; lia).
    assert (free_in l2 (infos e) x -> claim_end p i <= x) as F2 by (intros F; apply (free_in_range _ _ _ _ _ A7) in F; lia).
    split; [intros [?|[[? ?]|?]]|intros [[?|[?|?]] ?]]; try tauto; (split; [tauto|]).
    + specialize (F1 H). lia.
    + specialize (F2 H). lia.
Qed.

(** ** The operations *)
Lemma early_at e l1 p l2 : early_ok e -> g_freepage_list e = l1 ++ p :: l2 -> exists i,
  infos e !! p = Some i /\ 0 < avail i <= total_page_count i /\
  claim_end p i <= ADDR_MAX /\ (PAGE_SIZE | p) /\ 0 <= p /\ area_end p i <= ADDR_MAX /\
  (forall q, q ∈ l1 -> q < p) /\ (forall q, q ∈ l2 -> claim_end p i <= q) /\ NoDup (l1 ++ p :: l2) /\
  avail i <= g_total_free_pages_remaining e < 2 ^ 52.
Proof.
  intros [Ha _ Hsum] El. pose proof (areas_nodup _ _ _ _ Ha) as Hnd. rewrite El in Ha, Hnd, Hsum.
  pose proof Ha as Hr. apply areas_app in Ha as (mid & A1 & A2). simpl in A2.
  destruct A2 as (A2 & A3 & i & A4 & A5 & A7). exists i. pose proof (areas_le _ _ _ _ A1). pose proof (areas_le _ _ _ _ A7).
  pose proof (area_claim p i A5). split_and!; try done; try lia.
  - intros q Hq. destruct (areas_range _ _ _ _ _ A1 Hq) as (j & _ & Hj & _ & _ & ? & ?). pose proof (area_claim q j Hj). lia.
  - intros q Hq. destruct (areas_range _ _ _ _ _ A7 Hq) as (j & _ & ? & _ & _ & ? & ?). lia.
  - rewrite Hsum, sum_avail_app. simpl. rewrite A4.
    apply sum_avail_bound in A1. apply sum_avail_bound in A7. unfold claim_end in *. change PAGE_SIZE with 4096 in *. lia.
  - rewrite Hsum. apply sum_avail_bound in Hr. unfold ADDR_MAX in *. change PAGE_SIZE with 4096 in *. lia.
Qed.
Lemma early_in e p : early_ok e -> p ∈ g_asc_freelist e -> exists l1 l2, g_freepage_list e = l1 ++ p :: l2.
Proof. intros [_ Hp _] Hin. rewrite Hp in Hin. by apply list_elem_of_split. Qed.
Lemma zero_lookup a n e q : in_pages a n q = false -> infos (zero_pages a n e) !! q = infos e !! q.
Proof.
  intros Hq. simpl. destruct (infos e !! q) as [i|] eqn:E.
  - by apply map_lookup_filter_Some.
  - apply map_lookup_filter_None. by left.
Qed.
Lemma in_pages_false a n q : q < a \/ a + n * PAGE_SIZE <= q -> in_pages a n q = false.
Proof. intros H. unfold in_pages. zcases; simpl; done || lia. Qed.

Lemma asc_infos e : early_ok e -> forall q, q ∈ g_asc_freelist e -> is_Some (infos e !! q).
Proof.
  intros [Ha Hp _] q Hq. rewrite Hp in Hq. destruct (areas_range _ _ _ _ _ Ha Hq) as (i & -> & _). by eexists.
Qed.
Lemma asc_nodup e : early_ok e -> NoDup (g_asc_freelist e).
Proof. intros [Ha Hp _]. rewrite Hp. by eapply areas_nodup. Qed.

Lemma single_area p j m : (PAGE_SIZE | p) -> 0 < avail j <= total_page_count j -> m !! p = Some j ->
  areas p [p] (claim_end p j) m.
Proof. intros Hal Hj Hm. simpl. split; [lia|]. split; [done|]. exists j. split_and!; done || lia. Qed.
Lemma free_single p j m x : m !! p = Some j -> free_in [p] m x <-> p <= x < area_end p j.
Proof.
  intros Hm. rewrite free_in_cons. unfold in_area. rewrite Hm. split.
  - intros [(? & [= <-] & ?)|H]; [done|by apply free_in_nil in H].
  - intros H. left. eauto.
Qed.

(** The last [n] pages of an area are taken. *)
Lemma cut_end e e1 l1 p l2 i n : early_ok e -> g_freepage_list e = l1 ++ p :: l2 -> infos e !! p = Some i ->
  0 < n <= avail i ->
  g_freepage_list e1 = l1 ++ (if avail i - n =? 0 then [] else [p]) ++ l2 ->
  g_asc_freelist e1 ≡ₚ g_freepage_list e1 ->
  infos e1 = <[p := with_counts (avail i - n) (total_page_count i)]> (infos e) ->
  g_total_free_pages_remaining e1 = g_total_free_pages_remaining e ->
  let a := p + PAGE_SIZE * (avail i - n) in
  let e' := set_totals (g_total_free_pages e1) (u64 (g_total_free_pages_remaining e1 - n)) (zero_pages a n e1) in
  early_ok e' /\ forall x, early_free e' x <-> early_free e x /\ ~ a <= x < a + PAGE_SIZE * n.
Proof.
  intros He El Hi Hn El1 Hasc Hinfos Hrem a e'.
  destruct (early_at e l1 p l2 He El) as (i' & Hi' & Ht & Htb & Hal & Hp0 & Hend & Hlt & Hgt & Hnd & Hr).
  rewrite Hi in Hi'. injection Hi' as <-.
  assert (p ∉ l1 ++ l2) as Hnp by (rewrite <- Permutation_middle in Hnd; by apply NoDup_cons in Hnd as [? _]).
  assert (a + PAGE_SIZE * n = area_end p i) as Ea by (unfold a, area_end; lia). rewrite Ea.
  assert (p <= a) as Hpa by (unfold a; change PAGE_SIZE with 4096; lia).
  set (new := if avail i - n =? 0 then [] else [p]) in *.
  assert (avail i - n <> 0 -> infos e' !! p = Some (with_counts (avail i - n) (total_page_count i))) as Hp'.
  { intros Hne. unfold e'. cbn [infos set_totals].
    rewrite zero_lookup by (apply in_pages_false; unfold a; change PAGE_SIZE with 4096; lia).
    by rewrite Hinfos, lookup_insert_eq. }
  apply (replaced e e' l1 p i l2 new n); try done.
  - intros q Hq. unfold e'. cbn [infos set_totals].
    rewrite zero_lookup; [rewrite Hinfos; by rewrite lookup_insert_ne by (by intros ->)|].
    apply in_pages_false. apply elem_of_app in Hq as [Hq|Hq]; [specialize (Hlt q Hq)|specialize (Hgt q Hq)]; [left; lia|].
    right. pose proof (area_claim p i Ht). change PAGE_SIZE with 4096 in *. lia.
  - unfold new. destruct (Z.eqb_spec (avail i - n) 0).
    + simpl. pose proof (area_claim p i Ht). lia.
    + apply (single_area p (with_counts (avail i - n) (total_page_count i))); [done|simpl; lia|by apply Hp'].
  - intros x. unfold new. destruct (Z.eqb_spec (avail i - n) 0) as [E|E].
    + assert (a = p) by (unfold a; rewrite E; lia). split; [intros Hf; by apply free_in_nil in Hf|lia].
    + rewrite (free_single _ _ _ _ (Hp' E)).
      change (area_end p (with_counts (avail i - n) (total_page_count i))) with a. change PAGE_SIZE with 4096 in *. lia.
  - unfold new. destruct (Z.eqb_spec (avail i - n) 0) as [E|E]; [simpl; lia|]. cbn [sum_avail]. rewrite (Hp' E). cbn [avail_page_count with_counts]. lia.
  - unfold e'. cbn [g_total_free_pages_remaining set_totals]. rewrite Hrem. apply wrap_small. unfold_ints. lia.
Qed.

Lemma drop_area_ok e l1 p l2 asc : g_freepage_list e = l1 ++ p :: l2 -> NoDup (l1 ++ p :: l2) ->
  g_asc_freelist e = asc -> asc ≡ₚ l1 ++ p :: l2 ->
  exists asc', drop_area p e = Ok (set_freepage_list (l1 ++ l2) (set_asc_freelist asc' e)) /\ asc' ≡ₚ l1 ++ l2.
Proof.
  intros El Hnd Easc Hperm. unfold drop_area. rewrite Easc, El.
  destruct (list_del_perm p asc (l1 ++ p :: l2)) as (asc' & -> & Hp & _); [by rewrite Hperm| |done|].
  { apply elem_of_app. right. by left. }
  rewrite outcome_bind_ok, list_del_split, outcome_bind_ok by done. exists asc'. split; [done|].
  rewrite Hperm, <- Permutation_middle in Hp. by apply Permutation_cons_inv in Hp.
Qed.

(** [resort] changes the order of the second list at most. *)
Lemma list_prev_from_in prev x l q : list_prev_from prev x l = Some q -> (prev = Some q \/ q ∈ l) /\ x ∈ l.
Proof.
  revert prev. induction l as [|y l IH]; intros prev; cbn [list_prev_from]; [done|].
  destruct (Z.eqb_spec y x) as [->|Hne].
  - intros ->. split; [by left|by left].
  - intros [[H|H] Hx]%IH; (split; [|by right]); right; [injection H as <-; by left|by right].
Qed.
Lemma resort_ok p e : is_Some (infos e !! p) -> NoDup (g_asc_freelist e) ->
  (forall q, q ∈ g_asc_freelist e -> is_Some (infos e !! q)) ->
  exists asc, resort p e = Ok (set_asc_freelist asc e) /\ asc ≡ₚ g_asc_freelist e.
Proof.
  intros [i Hi] Hnd Hq. unfold resort.
  assert (set_asc_freelist (g_asc_freelist e) e = e) as Hsame by (by destruct e).
  destruct (list_prev_of p (g_asc_freelist e)) as [prev|] eqn:E.
  - apply list_prev_from_in in E as [[E|E] Hp]; [done|]. destruct (Hq prev E) as [j Hj].
    rewrite (get_info_ok _ _ _ Hi), (get_info_ok _ _ _ Hj), !outcome_bind_ok.
    destruct (avail j >? avail i).
    + destruct (list_del_perm p (g_asc_freelist e) (g_asc_freelist e) Hnd Hp ltac:(done)) as (l0 & -> & Hp0 & Hnd0).
      rewrite outcome_bind_ok.
      destruct (add_to_asc_list_ok p (set_asc_freelist l0 e)) as (asc & -> & Hasc); [by eexists|done| |].
      { intros q Hin. apply Hq. rewrite <- Hp0. by right. }
      exists asc. split; [done|]. rewrite Hasc. done.
    + exists (g_asc_freelist e). by rewrite Hsame.
  - exists (g_asc_freelist e). by rewrite Hsame.
Qed.

Lemma shift_ok n : 0 <= n < 2 ^ 52 -> u64 (Z.shiftl n PAGE_SHIFT) = PAGE_SIZE * n.
Proof.
  intros Hn. rewrite Z.shiftl_mul_pow2 by (unfold PAGE_SHIFT; lia). change (2 ^ PAGE_SHIFT) with 4096.
  change PAGE_SIZE with 4096. rewrite wrap_small by (unfold_ints; lia). lia.
Qed.
Lemma add_ok p n : 0 <= p -> 0 <= n -> p + PAGE_SIZE * n <= ADDR_MAX -> u64 (p + PAGE_SIZE * n) = p + PAGE_SIZE * n.
Proof. intros Hp Hn Hend. unfold ADDR_MAX in *. change PAGE_SIZE with 4096 in *. apply wrap_small. unfold_ints. lia. Qed.
Lemma put_info_lookup p j e : forall q, q <> p -> infos (put_info p j e) !! q = infos e !! q.
Proof. intros q Hq. simpl. by rewrite lookup_insert_ne. Qed.

(** [taken a n e e']: the pages at [a] are no longer free, and nothing else
    changed. *)
Definition taken (a n : Z) (e e' : early) : Prop :=
  early_ok e' /\ (forall x, early_free e' x <-> early_free e x /\ ~ a <= x < a + PAGE_SIZE * n) /\
  (forall x, a <= x < a + PAGE_SIZE * n -> early_free e x) /\
  g_total_free_pages e' = g_total_free_pages e /\
  g_total_free_pages_remaining e' = g_total_free_pages_remaining e - n.

Lemma free_at e l1 p l2 i x : g_freepage_list e = l1 ++ p :: l2 -> infos e !! p = Some i -> p <= x < area_end p i ->
  early_free e x.
Proof.
  intros El Hi Hx. exists p. rewrite El. split; [apply elem_of_app; right; by left|]. by exists i.
Qed.

Lemma alloc_at_end_ok e l1 p l2 i n : early_ok e -> g_freepage_list e = l1 ++ p :: l2 -> infos e !! p = Some i ->
  0 < n <= avail i ->
  exists e1, alloc_at_end p n e = Ok e1 /\
  let a := p + PAGE_SIZE * (avail i - n) in
  taken a n e (set_totals (g_total_free_pages e1) (u64 (g_total_free_pages_remaining e1 - n)) (zero_pages a n e1)).
Proof.
  intros He El Hi Hn. destruct (early_at e l1 p l2 He El) as (i' & Hi' & Ht & Htb & Hal & Hp0 & Hend & Hlt & Hgt & Hnd & Hr).
  rewrite Hi in Hi'. injection Hi' as <-. unfold alloc_at_end.
  rewrite (get_info_ok _ _ _ Hi), outcome_bind_ok. rewrite wrap_small by (unfold_ints; lia).
  set (e0 := put_info p (with_counts (avail i - n) (total_page_count i)) e).
  assert (exists e1, (if avail i - n =? 0 then drop_area p e0 else resort p e0) = Ok e1 /\
    g_freepage_list e1 = l1 ++ (if avail i - n =? 0 then [] else [p]) ++ l2 /\
    g_asc_freelist e1 ≡ₚ g_freepage_list e1 /\ infos e1 = infos e0 /\
    g_total_free_pages e1 = g_total_free_pages e /\
    g_total_free_pages_remaining e1 = g_total_free_pages_remaining e) as (e1 & -> & L1 & L2 & L3 & L4 & L5).
  { destruct (Z.eqb_spec (avail i - n) 0).
    - destruct (drop_area_ok e0 l1 p l2 (g_asc_freelist e) El Hnd eq_refl) as (asc' & -> & Hasc).
      { rewrite (eo_asc e He). by rewrite El. }
      eexists. split; [done|]. by split_and!.
    - destruct (resort_ok p e0) as (asc & -> & Hasc).
      + simpl. rewrite lookup_insert_eq. by eexists.
      + exact (asc_nodup e He).
      + intros q Hq. simpl. destruct (decide (q = p)) as [->|]; [rewrite lookup_insert_eq; by eexists|].
        rewrite lookup_insert_ne by done. by apply (asc_infos e He).
      + eexists. split; [done|]. split_and!; try done. simpl. rewrite Hasc. apply (eo_asc e He). }
  exists e1. split; [done|]. set (a := p + PAGE_SIZE * (avail i - n)). cbv zeta.
  destruct (cut_end e e1 l1 p l2 i n He El Hi Hn L1 L2 L3 L5) as [C1 C2]. split; [exact C1|].
  split; [exact C2|]. split; [|split; [done|]].
  - intros x Hx. apply (free_at e l1 p l2 i); try done. unfold a, area_end in *. change PAGE_SIZE with 4096 in *. lia.
  - cbn [g_total_free_pages_remaining set_totals]. rewrite L5. apply wrap_small. unfold_ints. lia.
Qed.

Lemma early_alloc_page_ok e : early_ok e ->
  exists r e', early_alloc_page e = Ok (r, e') /\
  ((g_freepage_list e = [] /\ r = INVALID_PHYS /\ e' = e) \/
   ((PAGE_SIZE | r) /\ 0 <= r < ADDR_MAX /\ taken r 1 e e')).
Proof.
  intros He. unfold early_alloc_page. destruct (g_asc_freelist e) as [|p asc] eqn:Easc.
  - eexists _, _. split; [done|]. left. split_and!; try done. apply Permutation_nil.
    rewrite <- (eo_asc e He). by rewrite Easc.
  - destruct (early_in e p He) as (l1 & l2 & El); [rewrite Easc; by left|].
    destruct (early_at e l1 p l2 He El) as (i & Hi & Ht & Htb & Hal & Hp0 & Hend & Hlt & Hgt & Hnd & Hr).
    rewrite (get_info_ok _ _ _ Hi), outcome_bind_ok. rewrite (wrap_small 64 (_ - 1)) by (unfold_ints; lia).
    set (e0 := put_info p (with_counts (avail i - 1) (total_page_count i)) e).
    assert (exists e1, (if avail i - 1 =? 0 then drop_area p e0 else Ok e0) = Ok e1 /\
      g_freepage_list e1 = l1 ++ (if avail i - 1 =? 0 then [] else [p]) ++ l2 /\
      g_asc_freelist e1 ≡ₚ g_freepage_list e1 /\ infos e1 = infos e0 /\
      g_total_free_pages e1 = g_total_free_pages e /\
      g_total_free_pages_remaining e1 = g_total_free_pages_remaining e) as (e1 & -> & L1 & L2 & L3 & L4 & L5).
    { destruct (Z.eqb_spec (avail i - 1) 0).
      - destruct (drop_area_ok e0 l1 p l2 (g_asc_freelist e) El Hnd eq_refl) as (asc' & -> & Hasc).
        { rewrite (eo_asc e He). by rewrite El. }
        eexists. split; [done|]. by split_and!.
      - eexists. split; [done|]. split_and!; try done. apply (eo_asc e He). }
    rewrite outcome_bind_ok. rewrite shift_ok by lia.
    unfold area_end in Hend. rewrite add_ok by (change PAGE_SIZE with 4096 in *; lia).
    destruct (cut_end e e1 l1 p l2 i 1 He El Hi ltac:(lia) L1 L2 L3 L5) as [C1 C2].
    eexists _, _. split; [done|]. right. split; [|split; [|split; [exact C1|split; [exact C2|split; [|split; [done|]]]]]].
    + apply Z.divide_add_r; [done|]. by apply Z.divide_factor_l.
    + change PAGE_SIZE with 4096 in *. lia.
    + intros x Hx. apply (free_at e l1 p l2 i); try done. unfold area_end in *. change PAGE_SIZE with 4096 in *. lia.
    + cbn [g_total_free_pages_remaining set_totals zero_pages set_infos]. rewrite L5. apply wrap_small. unfold_ints. lia.
Qed.

Lemma list_prev_split p l1 l2 : p ∉ l1 -> list_prev_of p (l1 ++ p :: l2) = last l1.
Proof.
  intros Hp. unfold list_prev_of. cut (forall prev, list_prev_from prev p (l1 ++ p :: l2) =
    match last l1 with Some q => Some q | None => prev end); [intros ->; by destruct (last l1)|].
  induction l1 as [|y l1 IH]; intros prev; cbn [app list_prev_from]; [by rewrite Z.eqb_refl|].
  apply not_elem_of_cons in Hp as [Hne Hp]. rewrite (proj2 (Z.eqb_neq y p)) by done.
  rewrite IH by done. rewrite last_cons. by destruct (last l1).
Qed.

(** A new area joins the lists behind [la]. *)
Lemma link_area_ok np j la lb e : NoDup (la ++ lb) -> g_freepage_list e = la ++ lb -> infos e !! np = Some j ->
  NoDup (g_asc_freelist e) -> (forall q, q ∈ g_asc_freelist e -> is_Some (infos e !! q)) ->
  exists asc, link_area (last la) np e = Ok (set_asc_freelist asc (set_freepage_list (la ++ np :: lb) e)) /\
    asc ≡ₚ np :: g_asc_freelist e.
Proof.
  intros Hnd El Hj Hnda Hasc. unfold link_area. rewrite El, list_add_at_last, outcome_bind_ok by done.
  destruct (add_to_asc_list_ok np (set_freepage_list (la ++ np :: lb) e)) as (asc & -> & Hp); [by eexists|done|done|].
  by exists asc.
Qed.

Section middle.
Context (e : early) (l1 l2 : list Z) (p k n : Z) (i : freepages_info).
Context (He : early_ok e) (El : g_freepage_list e = l1 ++ p :: l2) (Hi : infos e !! p = Some i).
Context (Hk : 0 <= k) (Hn : 0 < n) (Hroom : k + n < avail i).
Abbreviation kept := (if k =? 0 then [] else [p]).
Abbreviation np := (p + 4096 * (k + n)).

(** The infos after the two stores. *)
Definition middle_infos (tot : Z) : gmap Z freepages_info :=
  <[np := with_counts (avail i - k - n) (avail i - k - n)]> (<[p := with_counts k tot]> (infos e)).

Lemma cut_middle e1 tot : k <= tot <= k + n ->
  g_freepage_list e1 = l1 ++ (kept ++ [np]) ++ l2 -> g_asc_freelist e1 ≡ₚ g_freepage_list e1 ->
  infos e1 = middle_infos tot -> g_total_free_pages_remaining e1 = g_total_free_pages_remaining e ->
  let a := p + PAGE_SIZE * k in
  let e' := set_totals (g_total_free_pages e1) (u64 (g_total_free_pages_remaining e1 - n)) (zero_pages a n e1) in
  early_ok e' /\ forall x, early_free e' x <-> early_free e x /\ ~ a <= x < a + PAGE_SIZE * n.
Proof.
  intros Htot El1 Hasc Hinfos Hrem a e'.
  destruct (early_at e l1 p l2 He El) as (i' & Hi' & Ht & Htb & Hal & Hp0 & Hend & Hlt & Hgt & Hnd & Hr).
  rewrite Hi in Hi'. injection Hi' as <-.
  assert (p ∉ l1 ++ l2) as Hnp by (rewrite <- Permutation_middle in Hnd; by apply NoDup_cons in Hnd as [? _]).
  pose proof (area_claim p i Ht) as Hac. unfold area_end in *. change PAGE_SIZE with 4096 in *.
  assert (forall q, q < a \/ np <= q -> infos e' !! q = middle_infos tot !! q) as Hl.
  { intros q Hq. unfold e'. cbn [infos set_totals]. rewrite zero_lookup; [by rewrite Hinfos|].
    apply in_pages_false. unfold a in *. change PAGE_SIZE with 4096. lia. }
  assert (infos e' !! np = Some (with_counts (avail i - k - n) (avail i - k - n))) as Hnew
    by (rewrite Hl by lia; apply lookup_insert_eq).
  assert (k <> 0 -> infos e' !! p = Some (with_counts k tot)) as Hp'.
  { intros Hne. rewrite Hl by (unfold a; lia). unfold middle_infos. rewrite lookup_insert_ne by lia. apply lookup_insert_eq. }
  assert (4096 | np) as Haln by (apply Z.divide_add_r; [done|apply Z.divide_factor_l]).
  assert (forall lo m, lo <= np -> m !! np = Some (with_counts (avail i - k - n) (avail i - k - n)) ->
    areas lo [np] (claim_end p i) m) as Hanew.
  { intros lo m Hlo Hm. cbn [areas]. split; [done|]. split; [done|]. eexists. split; [exact Hm|].
    unfold claim_end in *. cbn [avail_page_count total_page_count with_counts]. change PAGE_SIZE with 4096 in *. lia. }
  apply (replaced e e' l1 p i l2 (kept ++ [np]) n); try done.
  - intros q Hq. rewrite Hl.
    + unfold middle_infos. rewrite !lookup_insert_ne; [done|by intros ->|].
      apply elem_of_app in Hq as [Hq|Hq]; [specialize (Hlt q Hq)|specialize (Hgt q Hq)]; lia.
    + apply elem_of_app in Hq as [Hq|Hq]; [specialize (Hlt q Hq)|specialize (Hgt q Hq)]; unfold a; lia.
  - apply areas_app. exists (if k =? 0 then p else claim_end p (with_counts k tot)).
    destruct (Z.eqb_spec k 0) as [E|E]; (split; [|apply Hanew; [unfold claim_end; simpl; change PAGE_SIZE with 4096; lia|done]]); [simpl; lia|].
    apply (single_area p (with_counts k tot)); [done|simpl; lia|by apply Hp'].
  - intros x. rewrite free_in_app, (free_single _ _ _ x Hnew). unfold area_end. cbn [avail_page_count with_counts].
    change PAGE_SIZE with 4096. destruct (Z.eqb_spec k 0) as [E|E].
    + split; [intros [H|H]; [by apply free_in_nil in H|unfold a; lia]|]. intros [H1 H2]. right. unfold a in H2. lia.
    + rewrite (free_single _ _ _ x (Hp' E)). unfold area_end. cbn [avail_page_count with_counts].
      change PAGE_SIZE with 4096. unfold a. lia.
  - unfold area_end, a. change PAGE_SIZE with 4096. lia.
  - rewrite sum_avail_app. cbn [sum_avail]. rewrite Hnew. cbn [avail_page_count with_counts].
    destruct (Z.eqb_spec k 0) as [E|E]; cbn [sum_avail]; [lia|]. rewrite (Hp' E). cbn [avail_page_count with_counts]. lia.
  - unfold e'. cbn [g_total_free_pages_remaining set_totals]. rewrite Hrem. apply wrap_small. unfold_ints. lia.
Qed.
End middle.

Lemma alloc_in_middle_ok e l1 p l2 i k n : early_ok e -> g_freepage_list e = l1 ++ p :: l2 ->
  infos e !! p = Some i -> 0 <= k -> 0 < n < 2 ^ 20 -> k + n < avail i ->
  exists e1, alloc_in_middle p (p + PAGE_SIZE * k) n e = Ok e1 /\
  let a := p + PAGE_SIZE * k in
  taken a n e (set_totals (g_total_free_pages e1) (u64 (g_total_free_pages_remaining e1 - n)) (zero_pages a n e1)).
Proof.
  intros He El Hi Hk Hn Hroom.
  destruct (early_at e l1 p l2 He El) as (i' & Hi' & Ht & Htb & Hal & Hp0 & Hend & Hlt & Hgt & Hnd & Hr).
  rewrite Hi in Hi'. injection Hi' as <-. pose proof (area_claim p i Ht) as Hac. unfold area_end in Hend, Hac.
  assert (p ∉ l1) as Hnp by (apply NoDup_app in Hnd as (_ & Hd & _); intros Hin; apply (Hd p Hin); by left).
  assert (PAGE_COUNT (u64 (p + PAGE_SIZE * k - p)) = k) as Ek.
  { replace (p + PAGE_SIZE * k - p) with (PAGE_SIZE * k) by lia. unfold PAGE_COUNT, ADDR_MAX in *.
    change PAGE_SIZE with 4096 in *. rewrite wrap_small by (unfold_ints; lia). rewrite Z.mul_comm. by apply Z.div_mul. }
  assert (0 <= PAGE_COUNT n <= n) as Hpc by (unfold PAGE_COUNT; change PAGE_SIZE with 4096; Z.to_euclidean_division_equations; lia).
  unfold alloc_in_middle. rewrite (get_info_ok _ _ _ Hi), outcome_bind_ok, Ek.
  rewrite (wrap_small 64 (k + PAGE_COUNT n)) by (unfold_ints; lia).
  set (tot := k + PAGE_COUNT n). set (e0 := put_info p (with_counts k tot) e).
  assert (forall q, q ∈ g_asc_freelist e -> is_Some (infos e0 !! q)) as Hq0.
  { intros q Hq. simpl. destruct (decide (q = p)) as [->|]; [rewrite lookup_insert_eq; by eexists|].
    rewrite lookup_insert_ne by done. by apply (asc_infos e He). }
  set (la := if k =? 0 then l1 else l1 ++ [p]).
  assert (exists e2 asc, (if negb (k =? 0) then e1 ← resort p e0; Ok (Some p, e1)
     else e' ← drop_area p e0; Ok (list_prev_of p (g_freepage_list e0), e')) =
     Ok (last la, e2) /\ e2 = set_asc_freelist asc (set_freepage_list (la ++ l2) e0) /\
     asc ≡ₚ la ++ l2 /\ (forall q, q ∈ asc -> is_Some (infos e0 !! q))) as (e2 & asc & -> & -> & Hasc & Hq2).
  { unfold la. destruct (Z.eqb_spec k 0); cbn [negb].
    - destruct (drop_area_ok e0 l1 p l2 (g_asc_freelist e) El Hnd eq_refl) as (asc' & -> & Hasc).
      { rewrite (eo_asc e He). by rewrite El. }
      rewrite outcome_bind_ok. change (g_freepage_list e0) with (g_freepage_list e). rewrite El, list_prev_split by done.
      eexists _, asc'. split; [done|]. split; [done|]. split; [done|]. intros q Hq. apply Hq0.
      rewrite (eo_asc e He), El, <- Permutation_middle. right. by rewrite <- Hasc.
    - destruct (resort_ok p e0) as (asc & -> & Hasc); [simpl; rewrite lookup_insert_eq; by eexists|exact (asc_nodup e He)|done|].
      rewrite outcome_bind_ok, last_snoc. eexists _, asc. split; [done|]. rewrite <- app_assoc. cbn [app].
      split; [by rewrite <- El; unfold e0; destruct e|]. split; [rewrite Hasc; change (g_asc_freelist e0) with (g_asc_freelist e); rewrite (eo_asc e He); by rewrite El|].
      intros q Hq. apply Hq0. by rewrite Hasc in Hq. }
  rewrite outcome_bind_ok. unfold ADDR_MAX in *. change PAGE_SIZE with 4096 in *.
  assert (u32 (Z.shiftl n PAGE_SHIFT) = 4096 * n) as Esh.
  { rewrite Z.shiftl_mul_pow2 by (unfold PAGE_SHIFT; lia). change (2 ^ PAGE_SHIFT) with 4096. rewrite wrap_small by (unfold_ints; lia). lia. }
  rewrite Esh. replace (p + 4096 * k + 4096 * n) with (p + 4096 * (k + n)) by lia.
  rewrite (wrap_small 64 (p + _)), (wrap_small 64 (avail i - k - n)) by (unfold_ints; lia).
  rewrite (proj2 (Z.eqb_neq (avail i - k - n) 0)) by lia. cbn [negb].
  set (np := p + 4096 * (k + n)). set (j := with_counts (avail i - k - n) (avail i - k - n)).
  assert (np ∉ asc) as Hnpa.
  { intros Hin. rewrite Hasc in Hin. assert (np ∈ l1 \/ np = p \/ np ∈ l2) as Hc.
    { unfold la in Hin. destruct (k =? 0); rewrite ?elem_of_app, ?list_elem_of_singleton in Hin; tauto. }
    unfold area_end, np in *. change PAGE_SIZE with 4096 in *.
    destruct Hc as [Hc|[Hc|Hc]]; [apply Hlt in Hc|..|apply Hgt in Hc]; lia. }
  assert (NoDup (la ++ l2)) as Hndl.
  { unfold la. destruct (k =? 0); [|by rewrite <- app_assoc]. rewrite <- Permutation_middle in Hnd. by apply NoDup_cons in Hnd as [_ ?]. }
  destruct (link_area_ok np j la l2 (put_info np j (set_asc_freelist asc (set_freepage_list (la ++ l2) e0))))
    as (asc' & -> & Hasc'); [done|done|simpl; apply lookup_insert_eq|simpl; by rewrite Hasc| |].
  { intros q Hq. simpl in Hq |- *. destruct (decide (q = np)) as [->|]; [rewrite lookup_insert_eq; by eexists|].
    rewrite lookup_insert_ne by done. by apply Hq2. }
  eexists. split; [done|]. cbv zeta.
  set (e1 := set_asc_freelist asc' _).
  destruct (cut_middle e l1 l2 p k n i He El Hi Hk ltac:(lia) Hroom e1 tot) as [C1 C2]; try done; [unfold tot; lia|..].
  - unfold e1, la, np. simpl. destruct (k =? 0); cbn [app]; [done|]. by rewrite <- app_assoc.
  - unfold e1. simpl. rewrite Hasc'. simpl. rewrite Hasc. by rewrite Permutation_middle.
  - change PAGE_SIZE with 4096 in *. split; [exact C1|]. split; [exact C2|]. split; [|split; [done|]].
    + intros x Hx. apply (free_at e l1 p l2 i); try done. unfold area_end. change PAGE_SIZE with 4096 in *. lia.
    + cbn [g_total_free_pages_remaining set_totals]. apply wrap_small. unfold e1. simpl. unfold_ints. lia.
Qed.

(** The highest aligned block of an area. *)
Definition aligned_block (n p : Z) (i : freepages_info) (a : Z) : Prop :=
  (PAGE_SIZE * n | a) /\ p <= a /\ a + PAGE_SIZE * n <= area_end p i.
Lemma find_area_ok e o l : early_ok e -> 0 <= o < 20 -> (forall q, q ∈ l -> q ∈ g_freepage_list e) ->
  exists r, find_area (2 ^ o) l e = Ok r /\
  match r with
  | None => forall p i a, p ∈ l -> infos e !! p = Some i -> ~ aligned_block (2 ^ o) p i a
  | Some (p, a, in_middle) => exists i k, p ∈ l /\ infos e !! p = Some i /\ aligned_block (2 ^ o) p i a /\
      0 <= k /\ a = p + PAGE_SIZE * k /\ if (in_middle : bool) then k + 2 ^ o < avail i else k + 2 ^ o = avail i
  end.
Proof.
  intros He Ho. set (n := 2 ^ o). assert (1 <= n < 2 ^ 20) as Hn.
  { unfold n. pose proof (pow2_pos o ltac:(lia)). pose proof (pow2_lt o 20 ltac:(lia) ltac:(lia)). lia. }
  assert (4096 * n = 2 ^ (o + 12)) as E12 by (rewrite Z.pow_add_r by lia; change (2 ^ 12) with 4096; unfold n; lia).
  induction l as [|p l IH]; intros Hl; cbn [find_area].
  { eexists. split; [done|]. intros p i a Hp. by apply elem_of_nil in Hp. }
  destruct IH as (rl & Hrl & Hres); [intros q Hq; apply Hl; by right|].
  assert (p ∈ g_freepage_list e) as Hp by (apply Hl; by left).
  destruct (areas_range _ _ _ _ _ (eo_areas e He) Hp) as (i & Hi & Ht & Htb & Hal & Hp0 & Hend).
  rewrite (get_info_ok _ _ _ Hi), outcome_bind_ok. unfold area_end, ADDR_MAX in Hend. change PAGE_SIZE with 4096 in *.
  assert (Hskip : (forall a, ~ aligned_block n p i a) -> exists r, find_area n l e = Ok r /\
    match r with
    | None => forall q j a, q ∈ p :: l -> infos e !! q = Some j -> ~ aligned_block n q j a
    | Some (q, a, mid) => exists j k, q ∈ p :: l /\ infos e !! q = Some j /\ aligned_block n q j a /\
        0 <= k /\ a = q + 4096 * k /\ if (mid : bool) then k + n < avail j else k + n = avail j
    end).
  { intros Hno. exists rl. split; [done|]. destruct rl as [[[q a] mid]|].
    - destruct Hres as (j & k & Hq & Hrest). exists j, k. split; [by right|done].
    - intros q j a Hq Hj. apply elem_of_cons in Hq as [->|Hq]; [rewrite Hi in Hj; injection Hj as <-; apply Hno|by eapply Hres]. }
  destruct (Z.ltb_spec (avail i) n).
  { apply Hskip. intros a (_ & H1 & H2). unfold area_end in H2. change PAGE_SIZE with 4096 in *. lia. }
  rewrite shift_ok by lia. change PAGE_SIZE with 4096.
  assert (u64 (p + 4096 * (avail i - n)) = p + 4096 * (avail i - n)) as -> by (apply wrap_small; unfold_ints; lia).
  set (top := p + 4096 * (avail i - n)) in *.
  assert (u32 (Z.shiftl n PAGE_SHIFT) = 2 ^ (o + 12)) as ->.
  { rewrite Z.shiftl_mul_pow2 by (unfold PAGE_SHIFT; lia). change (2 ^ PAGE_SHIFT) with 4096. rewrite wrap_small by (unfold_ints; lia). lia. }
  rewrite has_align_eq, outcome_bind_ok by (unfold_ints; lia).
  assert (forall a k, (2 ^ (o + 12) | a) -> 0 <= k -> a = p + 4096 * k -> k + n <= avail i -> aligned_block n p i a) as Hblock.
  { intros a k Ha Hk Hak Hkn. unfold aligned_block, area_end. change PAGE_SIZE with 4096. rewrite E12. split_and!; [done|lia|lia]. }
  pose proof (pow2_pos (o + 12) ltac:(lia)) as Hpos.
  destruct (Z.eqb_spec (top `mod` 2 ^ (o + 12)) 0) as [E|E].
  - eexists. split; [done|]. exists i, (avail i - n). split; [by left|]. split; [done|].
    split; [|split; [lia|split; [reflexivity|lia]]]. apply (Hblock _ (avail i - n)); [|lia|reflexivity|lia].
    apply Z.mod_divide; [lia|exact E].
  - rewrite align_down_eq, outcome_bind_ok by (unfold_ints; lia). set (down := top / 2 ^ (o + 12) * 2 ^ (o + 12)) in *.
    assert (down < top < down + 2 ^ (o + 12)) as Hdown.
    { pose proof (Z.div_mod top (2 ^ (o + 12)) ltac:(lia)). pose proof (Z.mod_pos_bound top (2 ^ (o + 12)) Hpos). unfold down. lia. }
    assert (2 ^ (o + 12) | down) as Hdiv by apply Z.divide_factor_r.
    destruct (Z.ltb_spec down p).
    + apply Hskip. intros a (Ha & H1 & H2). unfold area_end in H2. change PAGE_SIZE with 4096 in *. rewrite E12 in Ha.
      assert (a <= top) as Hat by (unfold top; lia). clearbody down. destruct Ha as [c ->], Hdiv as [d ->].
      assert (c < d + 1) as Hcd by (apply (Z.mul_lt_mono_pos_r (2 ^ (o + 12))); lia).
      pose proof (Z.mul_le_mono_nonneg_r c d (2 ^ (o + 12)) ltac:(lia) ltac:(lia)). lia.
    + assert (4096 | down) as [d Hd] by (rewrite <- E12 in Hdiv; etrans; [|exact Hdiv]; apply Z.divide_factor_l).
      destruct Hal as [c Hc]. eexists. split; [done|]. exists i, (d - c).
      assert (d - c + n < avail i) by (unfold top in *; lia).
      split; [by left|]. split; [done|]. split; [|split; [lia|split; [lia|done]]].
      apply (Hblock _ (d - c)); [done|lia|lia|lia].
Qed.

Lemma early_alloc_large_page_ok e o : early_ok e -> 0 <= o < 20 ->
  exists r e', early_alloc_large_page (2 ^ o) e = Ok (r, e') /\
  ((r = INVALID_PHYS /\ e' = e /\
    forall p i a, p ∈ g_freepage_list e -> infos e !! p = Some i -> ~ aligned_block (2 ^ o) p i a) \/
   ((PAGE_SIZE * 2 ^ o | r) /\ 0 <= r < ADDR_MAX /\ taken r (2 ^ o) e e')).
Proof.
  intros He Ho. pose proof (pow2_pos o ltac:(lia)) as Hpos. pose proof (pow2_lt o 20 ltac:(lia) ltac:(lia)) as Hlt20.
  unfold early_alloc_large_page.
  destruct (find_area_ok e o (g_asc_freelist e) He Ho) as (r & Hr & Hres); [intros q Hq; by rewrite <- (eo_asc e He)|].
  destruct (g_asc_freelist e) as [|h asc] eqn:Easc.
  { eexists _, _. split; [done|]. left. split_and!; try done. intros p i a Hp.
    rewrite <- (eo_asc e He), Easc in Hp. by apply elem_of_nil in Hp. }
  rewrite Hr, outcome_bind_ok. destruct r as [[[p a] mid]|].
  - destruct Hres as (i & k & Hp & Hi & (Hdiv & Hpa & Hae) & Hk & -> & Hroom).
    destruct (early_in e p He) as (l1 & l2 & El); [by rewrite Easc|].
    destruct (early_at e l1 p l2 He El) as (i' & Hi' & Ht & Htb & Hal & Hp0 & Hend & Hrest).
    rewrite Hi in Hi'. injection Hi' as <-.
    assert (exists e1, (if mid then alloc_in_middle p (p + PAGE_SIZE * k) (2 ^ o) e else alloc_at_end p (2 ^ o) e) = Ok e1 /\
      let a := p + PAGE_SIZE * k in
      taken a (2 ^ o) e (set_totals (g_total_free_pages e1) (u64 (g_total_free_pages_remaining e1 - 2 ^ o)) (zero_pages a (2 ^ o) e1)))
      as (e1 & -> & Htaken).
    { destruct mid.
      - by apply (alloc_in_middle_ok e l1 p l2 i k).
      - replace k with (avail i - 2 ^ o) by lia. apply (alloc_at_end_ok e l1 p l2 i); [done..|lia]. }
    rewrite outcome_bind_ok. eexists _, _. split; [done|]. right. split; [done|].
    split; [|exact Htaken]. unfold area_end in *. change PAGE_SIZE with 4096 in *. lia.
  - eexists _, _. split; [done|]. left. split_and!; try done. intros p i a Hp. apply Hres.
    by rewrite <- Easc, (eo_asc e He).
Qed.

(** ** Claiming in ascending order *)
Definition claimed_below (e : early) (f : Z) : Prop :=
  forall p i, p ∈ g_freepage_list e -> infos e !! p = Some i -> claim_end p i <= f.

Lemma areas_upto lo l hi f m : areas lo l hi m -> (forall p i, p ∈ l -> m !! p = Some i -> claim_end p i <= f) ->
  lo <= f -> areas lo l f m.
Proof.
  revert lo. induction l as [|p l IH]; intros lo; cbn [areas]; [done|].
  intros (H1 & H2 & i & H3 & H4 & H6) Hf Hlo. split; [done|]. split; [done|]. exists i. split_and!; try done; try lia.
  apply IH; [done| |].
  - intros q j Hq. apply Hf. by right.
  - apply (Hf p i); [by left|done].
Qed.

Section claim.
Context (e : early) (f n : Z).
Context (He : early_ok e) (Hal : (PAGE_SIZE | f)) (Hf0 : 0 <= f) (Hn : 0 < n).
Context (Hmax : f + PAGE_SIZE * n <= ADDR_MAX) (Hbelow : claimed_below e f).
Context (Htot : 0 <= g_total_free_pages e < 2 ^ 63).
Abbreviation L := (g_freepage_list e).

(** The state once the totals and the info are stored. *)
Definition claim_start : early :=
  put_info f (with_counts n n) (set_totals (g_total_free_pages e + n) (g_total_free_pages_remaining e + n) e).
Definition claimed (e' : early) : Prop :=
  early_ok e' /\ (forall x, early_free e' x <-> early_free e x \/ f <= x < f + PAGE_SIZE * n) /\
  claimed_below e' (f + PAGE_SIZE * n) /\ g_total_free_pages e' = g_total_free_pages e + n /\
  g_total_free_pages_remaining e' = g_total_free_pages_remaining e + n.

Lemma claim_areas : areas 0 L f (infos e).
Proof. apply (areas_upto 0 L ADDR_MAX); [apply He|exact Hbelow|done]. Qed.
Lemma claim_before p i : p ∈ L -> infos e !! p = Some i -> p < f /\ area_end p i <= claim_end p i <= f.
Proof.
  intros Hp Hi. destruct (areas_range _ _ _ _ _ claim_areas Hp) as (j & Hj & Hc & H & _).
  rewrite Hi in Hj. injection Hj as <-. pose proof (area_claim p i Hc). lia.
Qed.
Lemma claim_fresh : f ∉ L.
Proof.
  intros Hin. destruct (areas_range _ _ _ _ _ claim_areas Hin) as (j & Hj & _). destruct (claim_before f j Hin Hj). lia.
Qed.
Lemma claim_same q : q ∈ L -> infos claim_start !! q = infos e !! q.
Proof. intros Hq. simpl. rewrite lookup_insert_ne; [done|]. intros E. apply claim_fresh. by rewrite E. Qed.
Lemma claim_info : infos claim_start !! f = Some (with_counts n n).
Proof. apply lookup_insert_eq. Qed.
Lemma claim_remaining : 0 <= PAGE_SIZE * g_total_free_pages_remaining e <= f.
Proof. pose proof (sum_avail_bound _ _ _ _ claim_areas) as H. rewrite <- (eo_total e He) in H. lia. Qed.

Lemma claim_append : exists e', link_area (last L) f claim_start = Ok e' /\ claimed e'.
Proof.
  destruct (link_area_ok f (with_counts n n) L [] claim_start) as (asc & -> & Hasc).
  - rewrite app_nil_r. eapply areas_nodup, claim_areas.
  - by rewrite app_nil_r.
  - apply claim_info.
  - exact (asc_nodup e He).
  - intros q Hq. rewrite claim_same; [exact (asc_infos e He q Hq)|]. by rewrite <- (eo_asc e He).
  - eexists. split; [done|]. split; [split|split; [|split; [|split; [done|done]]]].
    + change (areas 0 (L ++ [f]) ADDR_MAX (infos claim_start)). apply areas_app. exists f.
      split; [apply (areas_ext _ _ _ _ _ claim_same), claim_areas|].
      apply (areas_mono f f [f] (claim_end f (with_counts n n))); [done|unfold claim_end; simpl; lia|].
      apply single_area; [done|simpl; lia|apply claim_info].
    + change (asc ≡ₚ L ++ [f]). rewrite Hasc. change (g_asc_freelist claim_start) with (g_asc_freelist e).
      rewrite (eo_asc e He). by rewrite Permutation_app_comm.
    + change (g_total_free_pages_remaining e + n = sum_avail (L ++ [f]) (infos claim_start)).
      rewrite sum_avail_app, (sum_avail_ext _ _ _ claim_same). cbn [sum_avail]. rewrite claim_info, (eo_total e He).
      cbn [avail_page_count with_counts]. lia.
    + intros x. change (free_in (L ++ [f]) (infos claim_start) x <-> free_in L (infos e) x \/ f <= x < f + PAGE_SIZE * n).
      by rewrite free_in_app, (free_in_ext _ _ _ x claim_same), (free_single _ _ _ x claim_info).
    + intros p i Hp Hi. change (p ∈ L ++ [f]) in Hp. change (infos claim_start !! p = Some i) in Hi.
      apply elem_of_app in Hp as [Hp|Hp%list_elem_of_singleton].
      * rewrite claim_same in Hi by done. pose proof (Hbelow p i Hp Hi). change PAGE_SIZE with 4096. lia.
      * subst p. rewrite claim_info in Hi. injection Hi as <-. done.
Qed.

(** The last area grows. *)
Lemma claim_grow l tail i : L = l ++ [tail] -> infos e !! tail = Some i -> area_end tail i = f ->
  total_page_count i = avail i /\ claimed (put_info tail (with_counts (avail i + n) (avail i + n)) claim_start).
Proof.
  intros El Hi Hend. pose proof claim_areas as Ha. rewrite El in Ha.
  assert (tail ∈ L) as Htail by (rewrite El; apply elem_of_app; right; by left).
  destruct (claim_before tail i Htail Hi) as [Hlt Hle].
  destruct (areas_range _ _ _ _ _ claim_areas Htail) as (i' & Hi' & Hti & _ & Htal & Ht0 & _).
  rewrite Hi in Hi'. injection Hi' as <-.
  assert (total_page_count i = avail i) as Etot by (unfold area_end, claim_end in *; change PAGE_SIZE with 4096 in *; lia).
  split; [done|]. set (g := with_counts (avail i + n) (avail i + n)). set (e' := put_info tail g claim_start).
  assert (infos e' !! tail = Some g) as Hg by apply lookup_insert_eq.
  assert (forall q, q ∈ l -> infos e' !! q = infos e !! q) as Hsame.
  { intros q Hq. unfold e'. rewrite put_info_lookup; [apply claim_same; rewrite El; apply elem_of_app; by left|].
    apply areas_nodup in Ha. apply NoDup_app in Ha as (_ & Hd & _). intros ->. apply (Hd tail Hq). by left. }
  apply areas_app in Ha as (mid & A1 & Hmid & _).
  assert (claim_end tail g = f + PAGE_SIZE * n) as Eg.
  { unfold claim_end. cbn [total_page_count g with_counts]. unfold area_end in Hend. change PAGE_SIZE with 4096 in *. lia. }
  split; [split|split; [|split; [|split; [done|done]]]].
  - change (areas 0 L ADDR_MAX (infos e')). rewrite El. apply areas_app. exists mid.
    split; [by apply (areas_ext _ _ _ _ _ Hsame)|].
    apply (areas_mono tail mid [tail] (claim_end tail g)); [done|lia|]. apply single_area; [done|simpl; lia|done].
  - apply (eo_asc e He).
  - change (g_total_free_pages_remaining e + n = sum_avail L (infos e')).
    rewrite (eo_total e He), El, !sum_avail_app, (sum_avail_ext _ _ _ Hsame). cbn [sum_avail]. rewrite Hg, Hi.
    cbn [avail_page_count g with_counts]. lia.
  - intros x. change (free_in L (infos e') x <-> free_in L (infos e) x \/ f <= x < f + PAGE_SIZE * n). rewrite El.
    rewrite !free_in_app, (free_in_ext _ _ _ x Hsame), (free_single _ _ _ x Hg), (free_single _ _ _ x Hi).
    change (area_end tail g) with (claim_end tail g). rewrite Eg, Hend.
    assert (tail <= x < f + PAGE_SIZE * n <-> tail <= x < f \/ f <= x < f + PAGE_SIZE * n) as ->; [|tauto].
    change PAGE_SIZE with 4096 in *. lia.
  - intros p ip Hp Hip. change (p ∈ L) in Hp. change (infos e' !! p = Some ip) in Hip. rewrite El in Hp.
    apply elem_of_app in Hp as [Hp|Hp%list_elem_of_singleton].
    + rewrite Hsame in Hip by done.
      assert (p ∈ L) as Hp' by (rewrite El; apply elem_of_app; by left).
      pose proof (Hbelow p ip Hp' Hip). change PAGE_SIZE with 4096. lia.
    + subst p. rewrite Hg in Hip. injection Hip as <-. lia.
Qed.
End claim.

Lemma claim_pages_ok e f sz : early_ok e -> (PAGE_SIZE | f) -> 0 <= f -> 0 < PAGE_COUNT sz ->
  f + PAGE_SIZE * PAGE_COUNT sz <= ADDR_MAX -> claimed_below e f -> 0 <= g_total_free_pages e < 2 ^ 63 ->
  exists e', claim_pages (RANGE_INIT f sz) e = Ok e' /\ claimed e f (PAGE_COUNT sz) e'.
Proof.
  intros He Hal Hf0 Hn Hmax Hbelow Htot. set (n := PAGE_COUNT sz) in *.
  pose proof (claim_remaining e f He Hf0 Hbelow) as Hrem.
  destruct (claim_append e f n He Hal Hf0 Hn Hmax Hbelow) as (e' & Happ & Hclaimed).
  unfold ADDR_MAX in Hmax. change PAGE_SIZE with 4096 in *.
  unfold claim_pages. cbn [front size]. fold n. rewrite !wrap_small by (unfold_ints; lia).
  change (put_info f (with_counts n n) _) with (claim_start e f n).
  change (g_freepage_list (claim_start e f n)) with (g_freepage_list e).
  destruct (last (g_freepage_list e)) as [tail|] eqn:Elast; [|by exists e'].
  pose proof Elast as Elast'. apply last_Some in Elast' as [l El].
  assert (tail ∈ g_freepage_list e) as Htail by (rewrite El; apply elem_of_app; right; by left).
  destruct (areas_range _ _ _ _ _ (eo_areas e He) Htail) as (i & Hi & Hti & Htm & Htal & Ht0 & Htend).
  destruct (claim_before e f He Hf0 Hbelow tail i Htail Hi) as [Hlt Hle].
  rewrite Z.gtb_ltb, (proj2 (Z.ltb_ge f tail)) by lia.
  rewrite outcome_bind_ok, (get_info_ok tail i), outcome_bind_ok by (by rewrite (claim_same e f n He Hf0 Hbelow)).
  unfold ends_at. unfold area_end, claim_end, ADDR_MAX in Htm, Htend, Hle. change PAGE_SIZE with 4096 in *.
  rewrite shift_ok by lia. change PAGE_SIZE with 4096. rewrite (wrap_small 64 (tail + _)) by (unfold_ints; lia).
  destruct (Z.eqb_spec (tail + 4096 * avail i) f) as [E|E]; [|by exists e'].
  destruct (claim_grow e f n He Hf0 Hn Hmax Hbelow Htot l tail i El Hi E) as [Etot Hg].
  unfold grow_info. rewrite Etot, !wrap_small by (unfold_ints; lia). by eexists.
Qed.
