(* ===== verification/EarlyFree.v ===== *)
(** * Handing the areas over to the buddy allocator

    [free_all_pages] puts every area of the early allocator on the free lists
    of its section, in blocks as large as they fit, and keeps the invariant
    [mm_wf] of the page allocator. *)
From S2P Require Import Prelude CArith Range PageAlloc PageBlocks PageAllocInv Walker WalkerInv PgMap PgTables PgAlloc Early EarlyInv.

(** Where the sections lie; a page's back pointer is only right for the pages
    of the areas ([tail_page]). *)
Definition phys_ranges (st : mm) : Prop := forall i s, sections st !! i = Some s ->
  0 <= range_front s /\ range_front s + PAGE_SIZE * npages s <= 2 ^ 52 /\
  (PAGE_SIZE | range_front s) /\ 0 <= pfn s /\ pfn s + npages s <= 2 ^ 52.
Definition only_ranges (st : mm) : mm :=
  {| pages := ∅; frames := ∅; sections := sections st; zones := []; page_end := 2 ^ 52 |}.
Lemma phys_ranges_phys st : phys_ranges st -> mm_phys (only_ranges st).
Proof.
  intros H. split.
  - intros i s q pg _ _ Hq. done.
  - exact H.
  - intros i s Hs. apply (H i s Hs).
Qed.
Lemma find_page st i s q : phys_ranges st -> phys_places st -> sections st !! i = Some s ->
  in_section s q -> find_pfn (sections st) (phys_of s q) = Some q.
Proof.
  intros Hr [P1 P2 P3] Hs Hq.
  by destruct (find_pfn_phys (only_ranges st) i s q (phys_ranges_phys st Hr) (Build_phys_places (only_ranges st) P1 P2 P3) Hs Hq).
Qed.
Lemma layout_ranges st st' : layout st' = layout st -> phys_ranges st -> phys_ranges st'.
Proof.
  intros E H i s' Hs'. destruct (layout_section _ _ _ _ E Hs') as (s & Hs & P).
  rewrite (same_place_npages _ _ P), (pl_front _ _ P), (pl_pfn _ _ P). by apply (H i).
Qed.
Definition tail_page (st : mm) (k : nat) (q : Z) : Prop :=
  exists pg, pages st !! q = Some pg /\ state pg = PAGE_STATE_FREE_LIST_TAIL /\ section pg = k.

(** ** One block *)
Lemma early_add_eq i o p s st : sections st !! i = Some s -> lists_wf s ->
  0 <= o < MAX_ORDER -> (forall q, in_block o p q -> is_Some (pages st !! q)) ->
  is_Some (zones st !! sec_zone s) ->
  early_add_to_freelist_order i o p st =
    Ok (set_sections (<[i := push_block o p (add_total (2 ^ o) s)]> (sections st))
          (set_zones (zone_add (2 ^ o) (sec_zone s) (zones st))
            (set_pages (mark_higher o p (pages st)) st))).
Proof.
  intros Hs Hwf Ho Hm Hz. pose proof (pow2_pos o ltac:(lia)).
  destruct (lookup_freelist s o Hwf Ho) as [fl Hl].
  unfold early_add_to_freelist_order.
  rewrite <- outcome_bind_assoc, mark_head_ok by (apply Hm; unfold in_block; lia). simpl.
  erewrite freelist_push_ok by done. simpl.
  rewrite (for_pages_upd _ (fun _ pg => with_data (Freelist_tail p) pg)); [|done|].
  2:{ intros q Hq. simpl. apply alter_mapped, Hm. unfold in_block. lia. }
  simpl. unfold get_section. simpl. erewrite list_lookup_inserted by done. simpl.
  rewrite update_zone_ok by done. simpl.
  erewrite update_section_ok by (simpl; by apply list_lookup_inserted with s). simpl.
  erewrite freelist_count_incr_ok.
  2:{ simpl. eapply list_lookup_inserted, list_lookup_inserted, Hs. }
  2:{ simpl. by apply list_lookup_inserted with fl. }
  simpl. unfold push_block, zone_add, add_total, set_sections, set_pages, set_zones.
  rewrite (list_alter_lookup _ (freelist_list _) _ fl) by done. simpl.
  rewrite !list_insert_insert_eq. done.
Qed.

(** The block in its section, once the bounds on the orders are adjusted. *)
Lemma early_block_sec i o page s st : mm_wf st -> sections st !! i = Some s -> 0 <= o < MAX_ORDER ->
  pfn s <= page -> page + 2 ^ o <= pfn s + npages s ->
  (forall q, in_block o page q -> ~ PageBlocks.free_page s q /\ has_state (pages st) q PAGE_STATE_FREE_LIST_TAIL) ->
  let s' := finish_free_range o (push_block o page (add_total (2 ^ o) s)) in
  sec_wf (mark_higher o page (pages st)) s' /\ same_place s s' /\ total_free s' = total_free s + 2 ^ o /\
  forall q, PageBlocks.free_page s' q <-> PageBlocks.free_page s q \/ in_block o page q.
Proof.
  intros Hwf Hs Ho Hlo Hhi Hfree s'. destruct (mw_secs st Hwf i s Hs) as [B1 B2 B3 B4 B5].
  pose proof (bw_lists _ _ B1) as Hl. pose proof (pow2_pos o ltac:(lia)).
  assert (forall q, in_block o page q -> is_Some (pages st !! q)) as Hm.
  { intros q Hq. apply (bw_mapped _ _ B1). unfold in_block, in_section in *. lia. }
  assert (forall q, in_block o page q -> ~ PageBlocks.free_page s q) as Hnf by (intros q Hq; by apply Hfree).
  set (s1 := push_block o page (add_total (2 ^ o) s)).
  assert (same_lists (push_block o page s) s1) as Hsl by by split.
  assert (blocks_wf (mark_higher o page (pages st)) (push_block o page s)) as Hwf'.
  { apply (blocks_wf_push (pages st)); try done.
    - apply marked_mark_higher; [lia|done|]. intros q Hq. apply Hfree. unfold in_block. lia.
    - intros q Hq. apply lookup_mark_higher_out; [lia|done]. }
  pose proof (sec_total_bound _ _ Hwf') as Hb. rewrite total_push in Hb by done.
  pose proof (sec_total_bound _ _ B1) as Hb0.
  assert (total_free s1 = total_of s + 2 ^ o) as E.
  { simpl. rewrite B2, wrap_small by (unfold_ints; lia). done. }
  destruct (finish_free_fields o s1 Ho) as (E1 & E2 & E3 & E4); [done|done|].
  pose proof (same_lists_finish_free o s1) as Hsl2.
  split_and!.
  - split.
    + apply (blocks_wf_ext _ s1); [done|]. by apply (blocks_wf_ext _ (push_block o page s)).
    + unfold s'. fold s1. rewrite E3, E. rewrite (same_lists_total _ _ Hsl2), (same_lists_total _ _ Hsl), total_push by done. done.
    + intros o' p Hb'%(same_lists_block _ _ _ _ Hsl2)%(same_lists_block _ _ _ _ Hsl). unfold s'. fold s1. rewrite E1.
      apply (block_push s) in Hb' as [[-> ->]|Hb']; [lia| |done..]. specialize (B3 o' p Hb'). simpl. lia.
    + unfold s'. fold s1. rewrite E1. simpl. lia.
    + unfold s'. fold s1. rewrite E2. simpl. unfold MAX_ORDER in *. lia.
  - by apply (same_place_trans _ s1).
  - unfold s'. fold s1. by rewrite E3, E, B2.
  - intros q. unfold s'. fold s1. rewrite (same_lists_free_page _ _ _ Hsl2), (same_lists_free_page _ _ _ Hsl), free_page_push by done. tauto.
Qed.

Lemma early_block_step i o page st s : mm_wf st -> sections st !! i = Some s -> 0 <= o < MAX_ORDER ->
  pfn s <= page -> page + 2 ^ o <= pfn s + npages s ->
  (forall q, in_block o page q -> ~ mm_free st i q /\ has_state (pages st) q PAGE_STATE_FREE_LIST_TAIL) ->
  exists st', free_in_section (Z.to_nat (2 ^ o)) page i o (2 ^ o) st = Ok (page + 2 ^ o, st') /\
  range_freed i page (2 ^ o) st st'.
Proof.
  intros Hwf Hs Ho Hlo Hhi Hfree. pose proof (pow2_pos o ltac:(lia)).
  destruct (mw_secs st Hwf i s Hs) as [B1 _ _ _ _].
  assert (forall q, in_block o page q -> ~ PageBlocks.free_page s q /\ has_state (pages st) q PAGE_STATE_FREE_LIST_TAIL) as Hfree'.
  { intros q Hq. destruct (Hfree q Hq) as [H1 H2]. split; [|done]. intros Hf. apply H1. by exists s. }
  destruct (early_block_sec i o page s st Hwf Hs Ho Hlo Hhi Hfree') as (S1 & S2 & S3 & S4).
  set (s' := finish_free_range o _) in *.
  destruct (Z.to_nat (2 ^ o)) as [|fuel] eqn:Ef; [lia|]. cbn [free_in_section].
  unfold early_free_pages_from_section. rewrite (wrap_small 8 o) by (unfold_ints; unfold MAX_ORDER in *; lia).
  rewrite (early_add_eq i o page s).
  2: done. 2: apply (bw_lists _ _ B1). 2: done.
  2:{ intros q Hq. apply (bw_mapped _ _ B1). unfold in_block, in_section in *. lia. }
  2: by apply (mw_zone st Hwf i).
  rewrite outcome_bind_ok. rewrite Z.sub_diag. change (u64 0 =? 0) with true. cbv iota.
  erewrite update_section_ok by (simpl; by apply list_lookup_inserted with s). rewrite outcome_bind_ok.
  fold s'. eexists. split; [done|]. cbn [set_sections sections set_zones set_pages]. rewrite list_insert_insert_eq.
  split.
  - apply (mm_wf_step st i s s' (mark_higher o page (pages st)) (2 ^ o) (frames st)); try done; [|lia].
    eapply touches_mono; [| |apply touches_mark_higher]; lia.
  - intros j q. unfold mm_free. simpl. destruct (decide (j = i)) as [->|].
    + rewrite (list_lookup_inserted _ _ s) by done. unfold in_block in S4. split.
      * intros (? & [= <-] & [Hq|Hq]%S4); [left; by eauto|by right].
      * intros [(? & ? & Hq)|[_ Hq]]; simplify_eq; exists s'; (split; [done|apply S4; auto]).
    + rewrite list_lookup_insert_ne by done. naive_solver.
  - apply touches_mark_higher. lia.
  - by eapply same_places_insert.
  - done.
  - simpl. unfold zone_add. by rewrite length_alter.
Qed.

(** ** One area *)
Lemma range_freed_trans i page a b st1 st2 st3 : 0 <= a -> 0 <= b ->
  range_freed i page a st1 st2 -> range_freed i (page + a) b st2 st3 -> range_freed i page (a + b) st1 st3.
Proof.
  intros Ha Hb [W1 F1 T1 P1 [R1 R1'] Z1] [W2 F2 T2 P2 [R2 R2'] Z2]. split; try done.
  - intros j q. rewrite F2, F1. split; [intros [[?|[? ?]]|[? ?]]|intros [?|[? ?]]]; try tauto; [right; lia..|].
    destruct (Z.lt_ge_cases q (page + a)); [left; right; lia|right; lia].
  - eapply touches_trans; [eapply touches_mono; [| |exact T1]|eapply touches_mono; [| |exact T2]]; lia.
  - by eapply same_places_trans.
  - split; congruence.
  - congruence.
Qed.

Lemma steady_early_add i order p st : steady st (early_add_to_freelist_order i order p st).
Proof. unfold early_add_to_freelist_order. keep_layout. Qed.
#[export] Hint Resolve steady_early_add : steady.
Lemma place_finish_free order s : place (finish_free_range order s) = place s.
Proof. unfold finish_free_range. by repeat case_match. Qed.
#[export] Hint Resolve place_finish_free : steady.
Lemma free_in_section_layout i : forall fuel page j a st, steady_result st (free_in_section fuel page i j a st).
Proof. induction fuel as [|fuel IH]; intros; simpl; unfold early_free_pages_from_section; keep_layout; done. Qed.

Lemma free_area_ok i : forall fuel page iorder avail s st, mm_wf st ->
  sections st !! i = Some s -> 0 <= iorder < MAX_ORDER -> 0 < avail < Z.of_nat fuel -> avail < 2 ^ 64 ->
  pfn s <= page -> page + avail <= pfn s + npages s ->
  (forall q, page <= q < page + avail -> ~ mm_free st i q /\ tail_page st i q) ->
  exists st', free_area fuel page i iorder avail st = Ok st' /\ range_freed i page avail st st' /\ layout st' = layout st.
Proof.
  induction fuel as [|fuel IH]; intros page iorder avail s st Hwf Hs Hio Ha Ha64 Hlo Hhi Hfree; [lia|].
  cbn [free_area]. rewrite (proj2 (Z.ltb_ge iorder 0)) by lia.
  destruct (drop_order_spec (Z.to_nat iorder) avail) as (D1 & D2 & _); [lia|].
  set (o := drop_order (Z.to_nat iorder) avail) in *. rewrite Z2Nat.id in D1 by lia.
  pose proof (pow2_pos o ltac:(lia)) as Hpos. rewrite (proj2 (Z.ltb_ge o 0)) by lia.
  assert (drop_to_section (Z.to_nat o) page i st = Ok o) as ->.
  { assert (page_to_section (page + (2 ^ Z.of_nat (Z.to_nat o) - 1)) st = Ok i) as Hsec.
    { rewrite Z2Nat.id by lia. destruct (Hfree (page + (2 ^ o - 1)) ltac:(lia)) as (_ & pg & Hpg & _ & Hsec).
      unfold page_to_section, get_page. rewrite Hpg. simpl. by f_equal. }
    destruct (Z.to_nat o) eqn:E; cbn [drop_to_section]; rewrite Hsec, outcome_bind_ok, bool_decide_eq_true_2, <- E, ?Z2Nat.id by (done || lia);
      rewrite ?E; f_equal; lia. }
  rewrite outcome_bind_ok, (proj2 (Z.ltb_ge o 0)) by lia.
  destruct (early_block_step i o page st s) as (st1 & Hst1 & R1); [done..|lia|done|lia| |].
  { intros q Hq. destruct (Hfree q) as (Hf & pg & Hpg & Hst & _); [unfold in_block in Hq; lia|]. split; [done|]. by exists pg. }
  rewrite Hst1, outcome_bind_ok. pose proof (free_in_section_layout i _ _ _ _ _ _ _ Hst1) as L1.
  rewrite (wrap_small 64 (avail - 2 ^ o)) by (unfold_ints; lia).
  destruct (Z.eqb_spec (avail - 2 ^ o) 0).
  { exists st1. split; [done|]. split; [|done]. by replace avail with (2 ^ o) by lia. }
  destruct (rf_places _ _ _ _ _ R1 i s Hs) as (s1 & Hs1 & P1).
  destruct (IH (page + 2 ^ o) o (avail - 2 ^ o) s1 st1) as (st2 & -> & R2 & L2).
  - apply R1.
  - done.
  - lia.
  - lia.
  - lia.
  - rewrite (pl_pfn _ _ P1). lia.
  - rewrite (pl_pfn _ _ P1), (same_place_npages _ _ P1). lia.
  - intros q Hq. destruct (Hfree q ltac:(lia)) as [F1 F2]. split.
    + intros [F|[_ F]]%(rf_free _ _ _ _ _ R1); [done|lia].
    + destruct F2 as (pg & Hpg & Hst). exists pg. split; [|done]. rewrite (proj1 (rf_touch _ _ _ _ _ R1)); [done|lia].
  - exists st2. split; [done|]. split; [|congruence].
    replace avail with (2 ^ o + (avail - 2 ^ o)) by lia. apply (range_freed_trans i page _ _ st st1); [lia|lia|done|done].
Qed.

(** ** All areas *)
Lemma areas_disjoint lo l hi m p p' x : areas lo l hi m -> p ∈ l -> p' ∈ l ->
  in_area m p x -> in_area m p' x -> p = p'.
Proof.
  revert lo. induction l as [|y l IH]; intros lo Ha Hp Hp'; [by apply elem_of_nil in Hp|].
  destruct Ha as (H1 & H2 & i & H3 & H4 & H6). pose proof (area_claim y i H4).
  assert (forall q, q ∈ l -> in_area m q x -> in_area m y x -> False) as Hno.
  { intros q Hq Hqx (i' & Hi' & Hyx). rewrite H3 in Hi'. injection Hi' as <-.
    assert (free_in l m x) as Hf by (by exists q). apply (free_in_range _ _ _ _ _ H6) in Hf. lia. }
  apply elem_of_cons in Hp as [->|Hp], Hp' as [->|Hp']; intros A B; [done| | |by apply (IH _ H6)]; exfalso; eauto.
Qed.

Record ready (l : list Z) (m : gmap Z freepages_info) (st : mm) : Prop := {
  re_place : forall p i, p ∈ l -> m !! p = Some i -> exists k s, sections st !! k = Some s /\
    range_front s <= p /\ area_end p i <= range_front s + range_size s;
  re_pages : forall k s q, sections st !! k = Some s -> in_section s q -> free_in l m (phys_of s q) ->
    ~ mm_free st k q /\ tail_page st k q;
}.

(** The page of an address in a section, and the other way round. *)
Lemma phys_of_page st k s p : phys_ranges st -> phys_places st -> sections st !! k = Some s -> (PAGE_SIZE | p) ->
  range_front s <= p < range_front s + range_size s ->
  exists q, in_section s q /\ phys_of s q = p.
Proof.
  intros Hph Hpl Hs [c Hc] Hp. destruct (Hph k s Hs) as (_ & _ & [d Hd] & _).
  pose proof (pp_whole st Hpl k s Hs) as Hw. change PAGE_SIZE with 4096 in *.
  exists (pfn s + (c - d)). unfold in_section, phys_of. change PAGE_SIZE with 4096. lia.
Qed.

(** Exactly the addresses in [F] became free; the other pages stay. *)
Definition gives (F : Z -> Prop) (st st' : mm) : Prop := forall j sj q, sections st !! j = Some sj -> in_section sj q ->
  (mm_free st' j q <-> mm_free st j q \/ F (phys_of sj q)) /\ (~ F (phys_of sj q) -> pages st' !! q = pages st !! q).

Lemma gives_none F st : (forall x, ~ F x) -> gives F st st.
Proof. intros H j sj q _ _. split; [|done]. split; [by left|]. intros [?|[]%H]; done. Qed.
Lemma gives_trans F G H st1 st2 st3 : (forall x, H x <-> F x \/ G x) -> layout st2 = layout st1 ->
  gives F st1 st2 -> gives G st2 st3 -> gives H st1 st3.
Proof.
  intros HFG L G1 G2 j sj q Hj Hq. destruct (G1 j sj q Hj Hq) as [F1 F2].
  destruct (layout_section st2 st1 j sj (eq_sym L) Hj) as (sj' & Hj' & [Q1 Q2 Q3 Q4]).
  assert (same_place sj sj') as P by (by split).
  destruct (G2 j sj' q Hj') as [F3 F4]; [by rewrite (same_place_in_section _ _ _ P)|].
  assert (phys_of sj' q = phys_of sj q) as E by (unfold phys_of; by rewrite (pl_front _ _ P), (pl_pfn _ _ P)).
  rewrite E in F3, F4. rewrite HFG. split; [tauto|]. intros Hno. rewrite F4, F2; tauto.
Qed.

(** Freeing the pages of one area makes exactly its addresses free. *)
Lemma freed_area st st' k s first n m p i : mm_wf st -> phys_ranges st -> phys_places st ->
  sections st !! k = Some s -> m !! p = Some i -> avail i = n -> phys_of s first = p ->
  range_front s <= p -> area_end p i <= range_front s + range_size s ->
  range_freed k first n st st' -> gives (in_area m p) st st'.
Proof.
  intros Hwf Hph Hpl Hs Hi Hn Hfirst Hlo Hhi R j sj q Hj Hq. rewrite (rf_free _ _ _ _ _ R).
  assert (in_area m p (phys_of sj q) <-> p <= phys_of sj q < area_end p i) as ->.
  { unfold in_area. rewrite Hi. split; [by intros (? & [= <-] & ?)|eauto]. }
  pose proof (pp_whole st Hpl j sj Hj) as Hw.
  assert (range_front sj <= phys_of sj q < range_front sj + range_size sj) as Hqr.
  { unfold phys_of, in_section in *. change PAGE_SIZE with 4096 in *. lia. }
  assert (in_section s first -> first + n <= pfn s + npages s -> first <= q < first + n -> j = k) as Hjk.
  { intros H1 H2 H3. apply (mw_disj st Hwf j k sj s q Hj Hs Hq). unfold in_section in *. lia. }
  pose proof (pp_whole st Hpl k s Hs) as Hws.
  enough (j = k /\ first <= q < first + n <-> p <= phys_of sj q < area_end p i) as Hiff.
  { split; [tauto|]. intros Hno. apply (proj1 (rf_touch _ _ _ _ _ R)). intros Hr. apply Hno, Hiff. split; [|done].
    apply Hjk; unfold in_section, phys_of, area_end in *; change PAGE_SIZE with 4096 in *; lia. }
  unfold phys_of, area_end in *. change PAGE_SIZE with 4096 in *. split.
  - intros [-> H]. rewrite Hs in Hj. injection Hj as <-. lia.
  - intros H. assert (j = k) as -> by (eapply (pp_apart st Hpl j k sj s _ Hj Hs Hqr); lia).
    rewrite Hs in Hj. injection Hj as <-. lia.
Qed.

Lemma free_all_area e p l m st : early_ok e -> infos e = m -> p ∈ g_freepage_list e -> incl (p :: l) (g_freepage_list e) ->
  NoDup (p :: l) -> mm_wf st -> phys_ranges st -> phys_places st -> ready (p :: l) m st ->
  exists i page sec st', m !! p = Some i /\ 0 < avail i < 2 ^ 52 /\ phys_to_page p st = Ok page /\ page_to_section page st = Ok sec /\
  free_area (S (Z.to_nat (avail i))) page sec (MAX_ORDER - 1) (avail i) st = Ok st' /\
  mm_wf st' /\ layout st' = layout st /\ ready l m st' /\ gives (in_area m p) st st'.
Proof.
  intros He <- Hp Hincl Hnd Hwf Hph Hpl Hready.
  destruct (areas_range _ _ _ _ _ (eo_areas e He) Hp) as (i & Hi & Ht & Htm & Hal & Hp0 & Hend).
  destruct (re_place _ _ _ Hready p i) as (k & s & Hs & Hlo & Hhi); [by left|done|].
  unfold area_end, ADDR_MAX in Hend. unfold claim_end, ADDR_MAX in Htm. pose proof Hhi as Hhi'. unfold area_end in Hhi'. change PAGE_SIZE with 4096 in *.
  destruct (phys_of_page st k s p) as (first & Hin & Hfirst); [done..|lia|].
  pose proof (pp_whole st Hpl k s Hs) as Hw. change PAGE_SIZE with 4096 in *.
  pose proof (find_page st k s first Hph Hpl Hs Hin) as Hfind.
  destruct (free_area_ok k (S (Z.to_nat (avail i))) first (MAX_ORDER - 1) (avail i) s st) as (st' & Hst' & R & L);
    [done..|unfold MAX_ORDER; lia|lia|lia| | | |].
  { unfold in_section in Hin. lia. }
  { unfold in_section, phys_of in *. change PAGE_SIZE with 4096 in *. lia. }
  { intros q Hq. assert (in_section s q) as Hqs by (unfold in_section, phys_of in *; change PAGE_SIZE with 4096 in *; lia).
    apply (re_pages _ _ _ Hready k s q Hs Hqs). exists p. split; [by left|]. exists i. split; [done|].
    unfold area_end, phys_of in *. change PAGE_SIZE with 4096 in *. lia. }
  destruct (re_pages _ _ _ Hready k s first Hs Hin) as (_ & pg & Hpg & _ & Hsec).
  { exists p. split; [by left|]. exists i. split; [done|]. unfold area_end. change PAGE_SIZE with 4096. lia. }
  exists i, first, k, st'. split; [done|]. split; [lia|].
  split; [unfold phys_to_page, phys_to_pfn; by rewrite <- Hfirst, Hfind|].
  split; [unfold page_to_section, get_page; rewrite Hpg; simpl; by f_equal|].
  split; [done|]. split; [apply R|]. split; [done|].
  pose proof (freed_area st st' k s first (avail i) (infos e) p i Hwf Hph Hpl Hs Hi eq_refl Hfirst Hlo Hhi R) as Hfree.
  split; [|exact Hfree]. split.
  - intros p' i' Hp' Hi'. destruct (re_place _ _ _ Hready p' i') as (k' & s' & Hs' & H1 & H2); [by right|done|].
    destruct (rf_places _ _ _ _ _ R k' s' Hs') as (s2 & Hs2 & P2). exists k', s2.
    by rewrite (pl_front _ _ P2), (pl_size _ _ P2).
  - intros k' s2 q Hs2 Hq Hf. destruct (layout_section _ _ _ _ L Hs2) as (s' & Hs' & P2).
    rewrite (same_place_in_section _ _ _ P2) in Hq.
    assert (phys_of s2 q = phys_of s' q) as Eph by (unfold phys_of; by rewrite (pl_front _ _ P2), (pl_pfn _ _ P2)).
    rewrite Eph in Hf.
    destruct (re_pages _ _ _ Hready k' s' q Hs' Hq) as [F1 F2].
    { destruct Hf as (p' & Hp' & Hx). exists p'. split; [by right|done]. }
    assert (~ in_area (infos e) p (phys_of s' q)) as Hout.
    { intros Hx. destruct Hf as (p' & Hp' & Hx'). apply NoDup_cons in Hnd as [Hnd _]. apply Hnd.
      assert (p = p') as ->; [|done]. eapply (areas_disjoint _ _ _ _ p p' _ (eo_areas e He)); try done.
      apply list_elem_of_In, Hincl, list_elem_of_In. by right. }
    split.
    + intros [F|F]%(proj1 (Hfree k' s' q Hs' Hq)); done.
    + destruct F2 as (pg' & Hpg' & Hst2). exists pg'. split; [|done]. rewrite (proj1 (rf_touch _ _ _ _ _ R)); [done|].
      intros Hr. assert (mm_free st' k' q) as Hf'.
      { apply (rf_free _ _ _ _ _ R). right. split; [|done].
        apply (mw_disj st Hwf k' k s' s q Hs' Hs Hq). unfold in_section, phys_of in *. change PAGE_SIZE with 4096 in *. lia. }
      apply (proj1 (Hfree k' s' q Hs' Hq)) in Hf' as [F|F]; done.
Qed.

Lemma free_areas_ok e : forall (l : list Z) (e1 : early) (st : mm) (total : Z), early_ok e -> infos e1 = infos e -> l ≡ₚ g_freepage_list e1 ->
  incl l (g_freepage_list e) -> NoDup l -> mm_wf st -> phys_ranges st -> phys_places st -> ready l (infos e) st ->
  0 <= total -> total + sum_avail l (infos e) < 2 ^ 64 ->
  exists e' st', free_areas l total e1 st = Ok (total + sum_avail l (infos e), e', st') /\
  g_freepage_list e' = [] /\ mm_wf st' /\ layout st' = layout st /\ gives (free_in l (infos e)) st st'.
Proof.
  induction l as [|p l IH]; intros e1 st total He Hinf Hperm Hincl Hnd Hwf Hph Hpl Hready Ht0 Htot; cbn [free_areas].
  - exists e1, st. split; [do 2 f_equal; simpl; f_equal; lia|]. split; [by apply Permutation_nil|]. do 2 (split; [done|]).
    apply gives_none. apply free_in_nil.
  - assert (p ∈ g_freepage_list e) as Hp by (apply list_elem_of_In, Hincl; by left).
    destruct (free_all_area e p l (infos e) st He eq_refl Hp Hincl Hnd Hwf Hph Hpl Hready)
      as (i & page & sec & st1 & Hi & Hai & Hpage & Hsec & Hfree & Hwf1 & L1 & Hready1 & F1).
    rewrite (get_info_ok p i e1), outcome_bind_ok by (by rewrite Hinf). rewrite Hpage, outcome_bind_ok, Hsec, outcome_bind_ok, Hfree, outcome_bind_ok.
    destruct (list_del_perm p (g_freepage_list e1) (p :: l)) as (fl & -> & Hfl & _); [by rewrite <- Hperm|by left|by rewrite Hperm|].
    rewrite outcome_bind_ok. cbn [sum_avail] in Htot |- *. rewrite Hi in Htot |- *.
    assert (0 <= sum_avail l (infos e)) as Hsl.
    { clear -He Hincl. assert (incl l (g_freepage_list e)) as Hl by (intros x Hx; apply Hincl; by right). clear Hincl.
      induction l as [|y l IH]; simpl; [lia|]. assert (incl l (g_freepage_list e)) as Hl' by (intros x Hx; apply Hl; by right).
      specialize (IH Hl'). destruct (areas_range _ _ _ _ y (eo_areas e He)) as (i & -> & ? & _); [|lia].
      apply list_elem_of_In, Hl. by left. }
    rewrite wrap_small by (unfold_ints; lia). apply NoDup_cons in Hnd as [_ Hnd'].
    destruct (IH (set_freepage_list fl e1) st1 (total + avail i)) as (e' & st' & -> & E1 & E2 & E3 & E4); try done; try lia.
    + simpl. rewrite <- Hperm in Hfl. apply Permutation_cons_inv in Hfl. by symmetry.
    + intros x Hx. apply Hincl. by right.
    + by apply (layout_ranges st).
    + by apply (layout_places st).
    + exists e', st'. split; [do 2 f_equal; f_equal; lia|]. split; [done|]. split; [done|]. split; [congruence|].
      by eapply gives_trans; [intros x; apply free_in_cons| | |].
Qed.

Lemma free_all_pages_ok e st : early_ok e -> mm_wf st -> phys_ranges st -> phys_places st ->
  ready (g_freepage_list e) (infos e) st ->
  exists e' st', free_all_pages e st = Ok (g_total_free_pages_remaining e, e', st') /\
  g_freepage_list e' = [] /\ mm_wf st' /\ layout st' = layout st /\ gives (early_free e) st st'.
Proof.
  intros He Hwf Hph Hpl [R1 R2]. unfold free_all_pages.
  assert (rev (g_asc_freelist e) ≡ₚ g_freepage_list e) as Hperm by (rewrite <- (eo_asc e He); symmetry; apply Permutation_rev).
  assert (forall x, x ∈ rev (g_asc_freelist e) <-> x ∈ g_freepage_list e) as Hin by (intros x; by rewrite Hperm).
  assert (forall x, free_in (rev (g_asc_freelist e)) (infos e) x <-> early_free e x) as Hfree.
  { intros x. unfold early_free, free_in. split; intros (p & Hp & Hx); exists p; (split; [by apply Hin|done]). }
  assert (forall l l', l ≡ₚ l' -> sum_avail l (infos e) = sum_avail l' (infos e)) as Hsum
    by (induction 1; simpl; lia).
  assert (0 <= sum_avail (g_freepage_list e) (infos e) < 2 ^ 52) as Hb.
  { pose proof (sum_avail_bound _ _ _ _ (eo_areas e He)). unfold ADDR_MAX in *. change PAGE_SIZE with 4096 in *. lia. }
  destruct (free_areas_ok e (rev (g_asc_freelist e)) e st 0) as (e' & st' & -> & E1 & E2 & E3 & E4); try done.
  - intros x Hx. apply list_elem_of_In, Hin, list_elem_of_In, Hx.
  - rewrite Hperm. by eapply areas_nodup, (eo_areas e He).
  - split; [intros p i Hp; apply R1; by apply Hin|]. intros k s q Hs Hq Hf. apply (R2 k s q Hs Hq). by apply Hfree.
  - rewrite (Hsum _ _ Hperm). lia.
  - exists e', st'. rewrite (Hsum _ _ Hperm), Z.add_0_l, <- (eo_total e He). split; [done|]. do 3 (split; [done|]).
    intros j sj q Hj Hq. rewrite <- Hfree. by apply (E4 j sj q).
Qed.
