(* ===== verification/EarlyMark.v ===== *)
(** * Marking the pages of a section

    [mark_crucial_pages] gives the state PAGE_STATE_SYSTEM_CRUCIAL to exactly
    the pages of a section that are in no area, and [set_section_for_pages]
    the number of the section to exactly those that are in one, when every
    area lies inside one section or outside of it. *)
From S2P Require Import Prelude CArith Range PageAlloc PageBlocks PageAllocInv Walker PgAlloc Early EarlyInv EarlyFree.

(** ** Changing the entries of a set of pages *)
Definition changed (f : page -> page) (P : Z -> bool) (st st' : mm) : Prop :=
  exists m, st' = set_pages m st /\
  forall q, m !! q = if P q then f <$> (pages st !! q) else pages st !! q.

Lemma changed_none f P st : (forall q, P q = false) -> changed f P st st.
Proof. intros H. exists (pages st). split; [by destruct st|]. intros q. by rewrite H. Qed.
Lemma changed_trans f P Q st1 st2 st3 : (forall pg, f (f pg) = f pg) ->
  changed f P st1 st2 -> changed f Q st2 st3 -> changed f (fun q => P q || Q q) st1 st3.
Proof.
  intros Hf (m2 & -> & H2) (m3 & -> & H3). exists m3. split; [done|]. intros q. rewrite H3. simpl. rewrite H2.
  destruct (P q), (Q q); try done. simpl. destruct (pages st1 !! q); simpl; [by rewrite Hf|done].
Qed.
Lemma changed_ext f P Q st st' : (forall q, is_Some (pages st !! q) -> P q = Q q) -> changed f P st st' -> changed f Q st st'.
Proof.
  intros E (m & -> & H). exists m. split; [done|]. intros q. rewrite H.
  destruct (pages st !! q) eqn:Eq; [rewrite (E q) by (by rewrite Eq); done|by destruct (P q), (Q q)].
Qed.
Lemma changed_mapped f P st st' q : changed f P st st' -> is_Some (pages st' !! q) <-> is_Some (pages st !! q).
Proof. intros (m & -> & H). simpl. rewrite H. destruct (P q); [|done]. by rewrite fmap_is_Some. Qed.
Lemma changed_sections f P st st' : changed f P st st' -> sections st' = sections st /\ page_end st' = page_end st.
Proof. by intros (m & -> & H). Qed.

Lemma update_page_changed f p st : is_Some (pages st !! p) ->
  exists st', update_page f p st = Ok st' /\ changed f (fun q => q =? p) st st'.
Proof.
  intros [pg Hp]. unfold update_page, get_page. rewrite Hp. simpl. eexists. split; [done|].
  eexists. split; [done|]. intros q. destruct (Z.eqb_spec q p) as [->|Hne].
  - by rewrite lookup_insert_eq, Hp.
  - by rewrite lookup_insert_ne.
Qed.

(** The fuel of the loops: a run of mapped pages is no longer than the vmemmap. *)
Lemma mapped_run (m : gmap Z page) a b : a <= b -> (forall q, a <= q < b -> is_Some (m !! q)) -> b - a <= Z.of_nat (base.size m).
Proof.
  intros Hab H. set (X := list_to_set (seqZ a (b - a)) : gset Z).
  assert (X ⊆ dom m) as Hsub.
  { intros q. unfold X. rewrite elem_of_list_to_set, elem_of_seqZ. intros Hq. apply elem_of_dom, H. lia. }
  apply subseteq_size in Hsub. rewrite size_dom in Hsub. unfold X in Hsub.
  rewrite size_list_to_set in Hsub by apply NoDup_seqZ. rewrite length_seqZ in Hsub. lia.
Qed.

Definition between (a b q : Z) : bool := (a <=? q) && (q <? b).
Definition crucial : page -> page := with_state PAGE_STATE_SYSTEM_CRUCIAL.

Lemma mark_until_ok fuel page end_ st : page <= end_ -> end_ - page < Z.of_nat fuel ->
  (forall q, page <= q < end_ -> is_Some (pages st !! q)) ->
  exists st', mark_until fuel page end_ st = Ok st' /\ changed crucial (between page end_) st st'.
Proof.
  revert page st. induction fuel as [|fuel IH]; intros page st Hle Hf Hm; [lia|]. cbn [mark_until].
  destruct (Z.eqb_spec page end_) as [->|Hne].
  - exists st. split; [done|]. apply changed_none. intros q. unfold between. zcases; simpl; done || lia.
  - destruct (update_page_changed crucial page st) as (st1 & H1 & C1); [apply Hm; lia|].
    unfold page_set_state. fold crucial. rewrite H1, outcome_bind_ok.
    destruct (IH (page + 1) st1) as (st2 & -> & C2); [lia|lia| |].
    { intros q Hq. apply (changed_mapped _ _ _ _ _ C1), Hm. lia. }
    exists st2. split; [done|]. eapply changed_ext; [|eapply (changed_trans crucial); [done|exact C1|exact C2]].
    intros q _. unfold between. zcases; simpl; done || lia.
Qed.
Lemma mark_count_ok fuel page i total st : 0 <= i <= total -> total < 2 ^ 64 -> total - i < Z.of_nat fuel ->
  (forall q, page <= q < page + (total - i) -> is_Some (pages st !! q)) ->
  exists st', mark_count fuel page i total st = Ok (page + (total - i), st') /\
  changed crucial (between page (page + (total - i))) st st'.
Proof.
  revert page i st. induction fuel as [|fuel IH]; intros page i st Hi Ht Hf Hm; [lia|]. cbn [mark_count].
  destruct (Z.eqb_spec i total) as [->|Hne].
  - exists st. rewrite Z.sub_diag, Z.add_0_r. split; [done|]. apply changed_none. intros q. unfold between. zcases; simpl; done || lia.
  - destruct (update_page_changed crucial page st) as (st1 & H1 & C1); [apply Hm; lia|].
    unfold page_set_state. fold crucial. rewrite H1, outcome_bind_ok. rewrite wrap_small by (unfold_ints; lia).
    destruct (IH (page + 1) (i + 1) st1) as (st2 & -> & C2); [lia|lia|lia| |].
    { intros q Hq. apply (changed_mapped _ _ _ _ _ C1), Hm. lia. }
    exists st2. split; [do 2 f_equal; lia|]. eapply changed_ext; [|eapply (changed_trans crucial); [done|exact C1|exact C2]].
    intros q _. unfold between. zcases; simpl; done || lia.
Qed.

(** ** The areas of one section *)
Definition in_areab (m : gmap Z freepages_info) (p x : Z) : bool :=
  match m !! p with Some i => (p <=? x) && (x <? area_end p i) | None => false end.
Definition free_inb (l : list Z) (m : gmap Z freepages_info) (x : Z) : bool := existsb (fun p => in_areab m p x) l.
Lemma free_inb_iff l m x : free_inb l m x = true <-> free_in l m x.
Proof.
  unfold free_inb. rewrite existsb_exists. unfold free_in, in_area, in_areab. split.
  - intros (p & Hp & Hx). exists p. split; [by apply list_elem_of_In|]. destruct (m !! p) as [i|]; [|done].
    exists i. split; [done|]. apply andb_prop in Hx as [H1 H2]. lia.
  - intros (p & Hp & i & Hi & Hx). exists p. split; [by apply list_elem_of_In|]. rewrite Hi.
    apply andb_true_intro. split; [apply Z.leb_le|apply Z.ltb_lt]; lia.
Qed.
Lemma free_inb_below lo l hi m x : areas lo l hi m -> x < lo \/ hi <= x -> free_inb l m x = false.
Proof.
  intros Ha Hx. apply not_true_iff_false. rewrite free_inb_iff. intros Hf.
  apply (free_in_range _ _ _ _ _ Ha) in Hf. lia.
Qed.

Section section.
Context (st0 : mm) (k : nat) (s : page_section) (e : early).
Context (Hranges : phys_ranges st0) (Hplaces : phys_places st0) (Hs : sections st0 !! k = Some s).
Context (Hnp : 0 <= npages s) (Hmapped : forall q, in_section s q -> is_Some (pages st0 !! q)).
Abbreviation m := (infos e).
Abbreviation lo := (range_front s).
Abbreviation hi := (range_front s + range_size s).

(** An area with what was claimed for it lies inside the section or outside. *)
Definition placed (p : Z) : Prop := forall i, m !! p = Some i ->
  (lo <= p /\ claim_end p i <= hi) \/ claim_end p i <= lo \/ hi <= p.

Definition page_at (x : Z) : Z := pfn s + (x - lo) / PAGE_SIZE.
Definition crucial_in (l : list Z) (from q : Z) : bool :=
  between from (pfn s + npages s) q && negb (free_inb l m (phys_of s q)).

Lemma section_facts : 0 <= lo /\ hi <= 2 ^ 48 /\ (PAGE_SIZE | lo) /\ range_size s = PAGE_SIZE * npages s /\ 0 <= npages s /\ 0 <= pfn s.
Proof.
  destruct (Hranges k s Hs) as (R1 & R2 & R3 & R4 & R5).
  split_and!; try done; [apply (pp_below st0 Hplaces k s Hs)|apply (pp_whole st0 Hplaces k s Hs)].
Qed.

Lemma page_at_spec x : (PAGE_SIZE | x) -> lo <= x < hi ->
  in_section s (page_at x) /\ phys_of s (page_at x) = x /\
  forall st, sections st = sections st0 -> phys_to_page x st = Ok (page_at x).
Proof.
  intros [c ->] Hx. destruct section_facts as (F1 & F2 & [d Hd] & F4 & F5 & F6).
  assert (page_at (c * PAGE_SIZE) = pfn s + (c - d)) as Ep.
  { unfold page_at. rewrite Hd. replace (c * PAGE_SIZE - d * PAGE_SIZE) with ((c - d) * PAGE_SIZE) by lia. by rewrite Z.div_mul. }
  assert (in_section s (page_at (c * PAGE_SIZE))) as Hin.
  { rewrite Ep. unfold in_section. change PAGE_SIZE with 4096 in *. lia. }
  assert (phys_of s (page_at (c * PAGE_SIZE)) = c * PAGE_SIZE) as Eph.
  { unfold phys_of. rewrite Ep, Hd. change PAGE_SIZE with 4096. lia. }
  split_and!; try done. intros st Est. unfold phys_to_page, phys_to_pfn.
  pose proof (find_page st0 k s _ Hranges Hplaces Hs Hin) as Hf. rewrite Eph in Hf. by rewrite Est, Hf.
Qed.

Lemma has_loc_iff x : 0 <= x < 2 ^ 63 -> range_has_loc (memmap_range s) x = true <-> lo <= x < hi.
Proof.
  intros Hx. destruct section_facts as (F1 & F2 & _ & F4 & F5 & _). unfold memmap_range, range_has_loc. simpl.
  rewrite andb_true_iff, Z.geb_le, Z.ltb_lt.
  split; intros [H1 H2]; rewrite wrap_small in * by (unfold_ints; lia); lia.
Qed.

(** Distances between pages and between addresses. *)
Lemma page_at_add x n : (PAGE_SIZE | x) -> page_at (x + PAGE_SIZE * n) = page_at x + n.
Proof.
  intros [c ->]. destruct section_facts as (_ & _ & [d Hd] & _). unfold page_at. rewrite Hd.
  replace (c * PAGE_SIZE + PAGE_SIZE * n - d * PAGE_SIZE) with ((c - d + n) * PAGE_SIZE) by lia.
  replace (c * PAGE_SIZE - d * PAGE_SIZE) with ((c - d) * PAGE_SIZE) by lia. rewrite !Z.div_mul by done. lia.
Qed.
Lemma page_at_front : page_at lo = pfn s.
Proof. unfold page_at. rewrite Z.sub_diag. change (0 `div` PAGE_SIZE) with 0. lia. Qed.
Lemma page_at_le x q : (PAGE_SIZE | x) -> page_at x <= q <-> x <= phys_of s q.
Proof.
  intros [c ->]. destruct section_facts as (_ & _ & [d Hd] & _). unfold page_at, phys_of. rewrite Hd.
  replace (c * PAGE_SIZE - d * PAGE_SIZE) with ((c - d) * PAGE_SIZE) by lia. rewrite Z.div_mul by done.
  change PAGE_SIZE with 4096. lia.
Qed.

(** *** Marking from one area on *)
Definition steady_pages (st : mm) : Prop := sections st = sections st0 /\ forall q, in_section s q -> is_Some (pages st !! q).
Lemma steady_changed f P st st' : changed f P st st' -> steady_pages st -> steady_pages st'.
Proof.
  intros C [H1 H2]. destruct (changed_sections _ _ _ _ C) as [E _]. split; [congruence|].
  intros q Hq. apply (changed_mapped _ _ _ _ _ C). by apply H2.
Qed.
Lemma mark_run page end_ st : steady_pages st -> pfn s <= page -> page <= end_ <= pfn s + npages s ->
  exists st', mark_until (mark_fuel st) page end_ st = Ok st' /\ changed crucial (between page end_) st st' /\ steady_pages st'.
Proof.
  intros Hst Hlo Hhi. assert (forall q, page <= q < end_ -> is_Some (pages st !! q)) as Hm.
  { intros q Hq. apply Hst. unfold in_section. lia. }
  pose proof (mapped_run _ page end_ ltac:(lia) Hm).
  destruct (mark_until_ok (mark_fuel st) page end_ st) as (st' & H1 & C); [lia|unfold mark_fuel; lia|done|].
  exists st'. split; [done|]. split; [done|]. by eapply steady_changed.
Qed.

Lemma area_inside p i : placed p -> m !! p = Some i -> 0 < avail i <= total_page_count i -> (PAGE_SIZE | p) -> lo <= p < hi ->
  page_at p + total_page_count i <= pfn s + npages s /\ pfn s <= page_at p /\
  forall q, page_at p <= q -> in_areab m p (phys_of s q) = (q <? page_at p + avail i).
Proof.
  intros Hpl Hi Ht Hal Hp. destruct section_facts as (F1 & F2 & F3 & F4 & F5 & F6).
  pose proof (area_claim p i Ht) as Hac.
  assert (claim_end p i <= hi) as Hin by (destruct (Hpl i Hi) as [?|[?|?]]; lia).
  split_and!.
  - rewrite <- page_at_add by done. apply page_at_le; [by apply Z.divide_add_r; [|apply Z.divide_factor_l]|].
    unfold claim_end, phys_of in *. change PAGE_SIZE with 4096 in *. lia.
  - destruct (page_at_spec p Hal Hp) as (H1 & _). unfold in_section in H1. lia.
  - intros q Hq. unfold in_areab. rewrite Hi. apply (page_at_le p q Hal) in Hq. rewrite (proj2 (Z.leb_le _ _) Hq). cbn [andb].
    assert (area_end p i <= phys_of s q <-> page_at p + avail i <= q) as Hiff.
    { rewrite <- page_at_add by done. symmetry. apply page_at_le. by apply Z.divide_add_r; [|apply Z.divide_factor_l]. }
    destruct (Z.ltb_spec (phys_of s q) (area_end p i)), (Z.ltb_spec q (page_at p + avail i)); done || lia.
Qed.

Lemma mark_areas_ok rest : forall iter a b st, steady_pages st -> 0 <= a -> b <= ADDR_MAX ->
  areas a (iter :: rest) b m -> (forall p, p ∈ iter :: rest -> placed p) -> lo <= iter < hi ->
  exists st', mark_areas s e (pfn s) (page_at iter) iter rest st = Ok st' /\
  changed crucial (crucial_in (iter :: rest) (page_at iter)) st st' /\ steady_pages st'.
Proof.
  induction rest as [|iter' rest IH]; intros iter a b st Hst Ha Hb Hareas Hpl Hiter;
    destruct Hareas as (A1 & A2 & i & Hi & Ht & Hrest); cbn [mark_areas];
    rewrite (get_info_ok _ _ _ Hi), outcome_bind_ok;
    (destruct (area_inside iter i) as (I1 & I2 & I3); [apply Hpl; by left|done..|]);
    pose proof (areas_le _ _ _ _ Hrest) as Hcb.
  all: assert (exists st1, mark_count (mark_fuel st) (page_at iter + avail i) (avail i) (total_page_count i) st =
      Ok (page_at iter + total_page_count i, st1) /\
      changed crucial (between (page_at iter + avail i) (page_at iter + total_page_count i)) st st1 /\ steady_pages st1)
      as (st1 & -> & C1 & Hst1).
  1,3: assert (forall q, page_at iter + avail i <= q < page_at iter + total_page_count i -> is_Some (pages st !! q)) as Hm
      by (intros q Hq; apply Hst; unfold in_section; lia);
    pose proof (mapped_run (pages st) (page_at iter + avail i) (page_at iter + total_page_count i) ltac:(lia) Hm);
    (destruct (mark_count_ok (mark_fuel st) (page_at iter + avail i) (avail i) (total_page_count i) st) as (st1 & H1 & C1);
      [lia|unfold claim_end, ADDR_MAX in *; change PAGE_SIZE with 4096 in *; lia|unfold mark_fuel; lia|intros q Hq; apply Hm; lia|]);
    replace (page_at iter + avail i + (total_page_count i - avail i)) with (page_at iter + total_page_count i) in * by lia;
    exists st1; (split; [done|]); (split; [done|]); by eapply steady_changed.
  all: rewrite outcome_bind_ok; change (PAGE_COUNT (range_size s)) with (npages s).
  - destruct (mark_run (page_at iter + total_page_count i) (pfn s + npages s) st1) as (st2 & -> & C2 & Hst2); [done|lia|lia|].
    exists st2. split; [done|]. split; [|done].
    eapply changed_ext; [|eapply (changed_trans crucial); [done|exact C1|exact C2]].
    intros q _. unfold crucial_in, between, free_inb. cbn [existsb].
    destruct (Z.leb_spec (page_at iter) q); [rewrite I3 by done|]; zcases; simpl; done || lia.
  - destruct (range_has_loc (memmap_range s) iter') eqn:Hloc; cbn [negb].
    + pose proof Hrest as (B1 & B2 & i' & Hi' & Ht' & Hrest'). pose proof (areas_le _ _ _ _ Hrest') as Hcb'.
      pose proof (area_claim iter' i' Ht') as Hac'. pose proof (area_claim iter i Ht) as Hac.
      apply has_loc_iff in Hloc; [|unfold ADDR_MAX in *; lia].
      destruct (page_at_spec iter' B2 Hloc) as (Pin & Pph & Pto). rewrite Pto, outcome_bind_ok by apply Hst1.
      assert (page_at iter + total_page_count i <= page_at iter') as Hord.
      { rewrite <- page_at_add by done. apply page_at_le; [by apply Z.divide_add_r; [|apply Z.divide_factor_l]|]. by rewrite Pph. }
      unfold in_section in Pin.
      destruct (mark_run (page_at iter + total_page_count i) (page_at iter') st1) as (st2 & -> & C2 & Hst2); [done|lia|lia|].
      rewrite outcome_bind_ok.
      destruct (IH iter' (claim_end iter i) b st2 Hst2) as (st3 & -> & C3 & Hst3); [lia|done|done|intros p Hp; apply Hpl; by right|done|].
      exists st3. split; [done|]. split; [|done].
      eapply changed_ext; [|eapply (changed_trans crucial); [done|eapply (changed_trans crucial); [done|exact C1|exact C2]|exact C3]].
      intros q _. unfold crucial_in, free_inb. cbn [existsb]. fold (free_inb rest m (phys_of s q)).
      assert (q < page_at iter' -> in_areab m iter' (phys_of s q) || free_inb rest m (phys_of s q) = false) as Hbelow.
      { intros Hq. apply (free_inb_below iter' (iter' :: rest) b m); [split; [lia|]; split; [done|]; eauto|]. left.
        destruct (Z.lt_ge_cases (phys_of s q) iter') as [?|Hge]; [done|]. apply (page_at_le iter' q B2) in Hge. lia. }
      unfold between. destruct (Z.leb_spec (page_at iter) q); [rewrite I3 by done|].
      * destruct (Z.lt_ge_cases q (page_at iter')) as [Hq|Hq]; [rewrite Hbelow by done|]; zcases; simpl; done || lia.
      * zcases; simpl; done || lia.
    + destruct (mark_run (page_at iter + total_page_count i) (pfn s + npages s) st1) as (st2 & -> & C2 & Hst2); [done|lia|lia|].
      exists st2. split; [done|]. split; [|done].
      eapply changed_ext; [|eapply (changed_trans crucial); [done|exact C1|exact C2]].
      intros q _. unfold crucial_in, free_inb. cbn [existsb]. change (in_areab m iter' (phys_of s q) || existsb _ rest) with (free_inb (iter' :: rest) m (phys_of s q)).
      pose proof Hrest as (B1 & _ & i' & Hi' & Ht' & Hrest'). pose proof (areas_le _ _ _ _ Hrest') as Hcb'.
      pose proof (area_claim iter' i' Ht') as Hac'. pose proof (area_claim iter i Ht) as Hac.
      assert (hi <= iter') as Hbeyond.
      { apply not_true_iff_false in Hloc. rewrite has_loc_iff in Hloc by (unfold ADDR_MAX in *; lia). lia. }
      assert (q < pfn s + npages s -> free_inb (iter' :: rest) m (phys_of s q) = false) as Hno.
      { intros Hq. apply (free_inb_below iter' (iter' :: rest) b m); [split; [lia|]; split; [apply Hrest|]; eauto|]. left.
        destruct section_facts as (_ & _ & _ & F4 & _). unfold phys_of. change PAGE_SIZE with 4096 in *. lia. }
      unfold between. destruct (Z.leb_spec (page_at iter) q); [rewrite I3 by done|].
      * destruct (Z.ltb_spec q (pfn s + npages s)); [rewrite Hno by done|]; zcases; simpl; done || lia.
      * zcases; simpl; done || lia.
Qed.

(** *** The whole section *)
Lemma outside_free p q i : placed p -> m !! p = Some i -> 0 < avail i <= total_page_count i -> ~ lo <= p < hi ->
  in_section s q -> in_areab m p (phys_of s q) = false.
Proof.
  intros Hpl Hi Ht Hp Hq. destruct section_facts as (_ & _ & _ & F4 & F5 & _). unfold in_areab. rewrite Hi.
  pose proof (area_claim p i Ht). unfold in_section, phys_of in *. change PAGE_SIZE with 4096 in *.
  destruct (Hpl i Hi) as [?|[?|?]]; zcases; simpl; done || lia.
Qed.

Lemma find_in_memmap_ok (Hpos : 0 < npages s) l : forall a b st, steady_pages st -> 0 <= a -> b <= ADDR_MAX -> areas a l b m ->
  (forall p, p ∈ l -> placed p) ->
  exists st', find_in_memmap s e l st = Ok st' /\ changed crucial (crucial_in l (pfn s)) st st' /\ steady_pages st'.
Proof.
  destruct section_facts as (F1 & F2 & F3 & F4 & F5 & F6).
  assert (lo <= lo < hi) as Hlohi by (rewrite F4; change PAGE_SIZE with 4096; lia).
  destruct (page_at_spec lo F3 Hlohi) as (_ & _ & Pto). rewrite page_at_front in Pto.
  induction l as [|iter l IH]; intros a b st Hst Ha Hb Hareas Hpl; cbn [find_in_memmap].
  - rewrite Pto, outcome_bind_ok by apply Hst. change (PAGE_COUNT (range_size s)) with (npages s).
    destruct (mark_run (pfn s) (pfn s + npages s) st) as (st' & -> & C & Hst'); [done|lia|lia|].
    exists st'. split; [done|]. split; [|done]. eapply changed_ext; [|exact C]. intros q _. unfold crucial_in. simpl. by rewrite andb_true_r.
  - pose proof Hareas as (A1 & A2 & i & Hi & Ht & Hrest). pose proof (areas_le _ _ _ _ Hrest) as Hcb.
    pose proof (area_claim iter i Ht) as Hac. unfold ADDR_MAX in Hb.
    destruct (range_has_loc (memmap_range s) iter) eqn:Hloc; cbn [negb].
    + apply has_loc_iff in Hloc; [|lia]. destruct (page_at_spec iter A2 Hloc) as (Pin & Pph & Pto').
      rewrite Pto, outcome_bind_ok, Pto', outcome_bind_ok by apply Hst. unfold in_section in Pin.
      destruct (mark_run (pfn s) (page_at iter) st) as (st1 & -> & C1 & Hst1); [done|lia|lia|]. rewrite outcome_bind_ok.
      destruct (mark_areas_ok l iter a b st1) as (st2 & -> & C2 & Hst2); [done..|].
      exists st2. split; [done|]. split; [|done].
      eapply changed_ext; [|eapply (changed_trans crucial); [done|exact C1|exact C2]].
      intros q _. unfold crucial_in.
      assert (q < page_at iter -> free_inb (iter :: l) m (phys_of s q) = false) as Hbelow.
      { intros Hq. apply (free_inb_below iter _ b); [split; [lia|]; split; [done|]; eauto|]. left.
        destruct (Z.lt_ge_cases (phys_of s q) iter) as [?|Hge]; [done|]. apply (page_at_le iter q A2) in Hge. lia. }
      unfold between. destruct (Z.lt_ge_cases q (page_at iter)); [rewrite Hbelow by done|]; zcases; simpl; rewrite ?andb_true_r; done || lia.
    + destruct (IH (claim_end iter i) b st) as (st' & -> & C & Hst'); [done|lia|done|done|intros p Hp; apply Hpl; by right|].
      exists st'. split; [done|]. split; [|done]. eapply changed_ext; [|exact C]. intros q _. unfold crucial_in, free_inb. cbn [existsb].
      destruct (between (pfn s) (pfn s + npages s) q) eqn:Hq; [|done]. cbn [andb].
      apply not_true_iff_false in Hloc. rewrite has_loc_iff in Hloc by lia.
      rewrite (outside_free iter q i); [done|apply Hpl; by left|done..|].
      unfold between in Hq. apply andb_prop in Hq as [Hq1 Hq2]. unfold in_section. lia.
Qed.

(** *** Section numbers *)
Lemma set_sections_until_ok fuel page end_ n st : page <= end_ -> end_ <= page_end st -> end_ - page < Z.of_nat fuel ->
  (forall q, page <= q < end_ -> is_Some (pages st !! q)) ->
  exists st', set_sections_until fuel page end_ n st = Ok st' /\ changed (with_section n) (between page end_) st st'.
Proof.
  revert page st. induction fuel as [|fuel IH]; intros page st Hle Hpe Hf Hm; [lia|]. cbn [set_sections_until].
  destruct (Z.eqb_spec page end_) as [->|Hne].
  - exists st. split; [done|]. apply changed_none. intros q. unfold between. zcases; simpl; done || lia.
  - rewrite (c_assert_true (page <? page_end st)), outcome_bind_ok by (apply Z.ltb_lt; lia).
    destruct (update_page_changed (with_section n) page st) as (st1 & H1 & C1); [apply Hm; lia|].
    rewrite H1, outcome_bind_ok. destruct (changed_sections _ _ _ _ C1) as [_ Epe].
    destruct (IH (page + 1) st1) as (st2 & -> & C2); [lia|lia|lia| |].
    { intros q Hq. apply (changed_mapped _ _ _ _ _ C1), Hm. lia. }
    exists st2. split; [done|]. eapply changed_ext; [|eapply (changed_trans (with_section n)); [done|exact C1|exact C2]].
    intros q _. unfold between. zcases; simpl; done || lia.
Qed.

Definition area_page_of (l : list Z) (q : Z) : bool :=
  between (pfn s) (pfn s + npages s) q && free_inb l m (phys_of s q).
Lemma set_section_of_areas_ok n l : forall a b st, steady_pages st -> pfn s + npages s <= page_end st ->
  0 <= a -> b <= ADDR_MAX -> areas a l b m -> (forall p, p ∈ l -> placed p) ->
  exists st', set_section_of_areas s e l n st = Ok st' /\ changed (with_section n) (area_page_of l) st st' /\ steady_pages st'.
Proof.
  destruct section_facts as (F1 & F2 & F3 & F4 & F5 & F6).
  induction l as [|iter l IH]; intros a b st Hst Hpe Ha Hb Hareas Hpl; cbn [set_section_of_areas].
  - exists st. split; [done|]. split; [|done]. apply changed_none. intros q. unfold area_page_of. simpl. apply andb_false_r.
  - destruct Hareas as (A1 & A2 & i & Hi & Ht & Hrest). pose proof (areas_le _ _ _ _ Hrest) as Hcb.
    pose proof (area_claim iter i Ht) as Hac. rewrite (get_info_ok _ _ _ Hi), outcome_bind_ok.
    assert (placed iter) as Hpi by (apply Hpl; by left).
    unfold ADDR_MAX, claim_end, area_end in Hb, Hcb, Hac. change PAGE_SIZE with 4096 in Hb, Hcb, Hac.
    rewrite shift_ok by lia. change PAGE_SIZE with 4096.
    rewrite (wrap_small 64 (iter + 4096 * avail i)), (wrap_small 64 (_ - 4096)) by (unfold_ints; lia).
    assert (forall st, steady_pages st -> pfn s + npages s <= page_end st -> exists st', set_section_of_areas s e l n st = Ok st' /\
      changed (with_section n) (area_page_of l) st st' /\ steady_pages st') as Hnext.
    { intros st2 Hst2 Hpe2. apply (IH (claim_end iter i) b); [done|done|unfold claim_end; change PAGE_SIZE with 4096; lia|done|done|].
      intros p Hp. apply Hpl. by right. }
    destruct (range_has_loc (memmap_range s) iter) eqn:Hloc; cbn [negb andb].
    + apply has_loc_iff in Hloc; [|lia]. destruct (area_inside iter i) as (I1 & I2 & I3); [done..|].
      destruct (page_at_spec iter A2 Hloc) as (Pin & Pph & Pto).
      assert (area_end iter i <= hi) as Hend.
      { pose proof (area_claim iter i Ht). destruct (Hpi i Hi) as [?|[?|?]]; lia. }
      unfold range_get_end_assert, range_get_end, check_add, memmap_range. cbn [front size].
      rewrite (proj2 (Z.ltb_lt _ _)) by lia. cbn [c_assert]. rewrite !outcome_bind_ok.
      rewrite (wrap_small 64 hi) by (unfold_ints; lia). unfold area_end in Hend. change PAGE_SIZE with 4096 in Hend.
      rewrite ?(wrap_small 64 (iter + 4096 * avail i)) by (unfold_ints; lia). rewrite Z.min_r by lia. rewrite Pto, outcome_bind_ok by apply Hst.
      assert (4096 * avail i - 4096 = 4096 * (avail i - 1)) as Eb by lia.
      replace (iter + 4096 * avail i - 4096) with (iter + PAGE_SIZE * (avail i - 1)) by (change PAGE_SIZE with 4096; lia).
      destruct (page_at_spec (iter + PAGE_SIZE * (avail i - 1))) as (_ & _ & Pb);
        [by apply Z.divide_add_r; [|apply Z.divide_factor_l]|change PAGE_SIZE with 4096; lia|].
      rewrite wrap_small by (unfold_ints; change PAGE_SIZE with 4096; lia).
      rewrite Pb, outcome_bind_ok, page_at_add by (done || apply Hst).
      replace (page_at iter + (avail i - 1) + 1) with (page_at iter + avail i) by lia.
      assert (forall q, page_at iter <= q < page_at iter + avail i -> is_Some (pages st !! q)) as Hm
        by (intros q Hq; apply Hst; unfold in_section; lia).
      pose proof (mapped_run (pages st) (page_at iter) (page_at iter + avail i) ltac:(lia) Hm).
      destruct (set_sections_until_ok (mark_fuel st) (page_at iter) (page_at iter + avail i) n st) as (st1 & -> & C1);
        [lia|lia|unfold mark_fuel; lia|done|]. rewrite outcome_bind_ok.
      pose proof (steady_changed _ _ _ _ C1 Hst) as Hst1. destruct (changed_sections _ _ _ _ C1) as [_ Epe].
      destruct (Hnext st1 Hst1) as (st2 & -> & C2 & Hst2); [lia|].
      exists st2. split; [done|]. split; [|done].
      eapply changed_ext; [|eapply (changed_trans (with_section n)); [done|exact C1|exact C2]].
      intros q _. unfold area_page_of, free_inb, between. cbn [existsb].
      destruct (Z.leb_spec (page_at iter) q); [rewrite I3 by done|].
      * zcases; simpl; done || lia.
      * assert (in_areab m iter (phys_of s q) = false) as ->; [|done].
        unfold in_areab. rewrite Hi. destruct (Z.leb_spec iter (phys_of s q)) as [Hge|]; [|done].
        apply (page_at_le iter q A2) in Hge. lia.
    + apply not_true_iff_false in Hloc. rewrite has_loc_iff in Hloc by lia.
      assert (range_has_loc (memmap_range s) (iter + 4096 * avail i - 4096) = false) as ->.
      { apply not_true_iff_false. rewrite has_loc_iff by lia. destruct (Hpi i Hi) as [?|[Hx|?]]; [lia| |lia].
        unfold claim_end in Hx. change PAGE_SIZE with 4096 in Hx. lia. }
      cbn [negb andb]. destruct (Hnext st Hst Hpe) as (st' & -> & C & Hst'). exists st'. split; [done|]. split; [|done].
      eapply changed_ext; [|exact C]. intros q _. unfold area_page_of, free_inb. cbn [existsb].
      destruct (between (pfn s) (pfn s + npages s) q) eqn:Hq; [|done]. cbn [andb].
      rewrite (outside_free iter q i); [done..|]. unfold between in Hq. apply andb_prop in Hq as [Hq1 Hq2]. unfold in_section. lia.
Qed.
End section.
