(* ===== verification/Boot.v ===== *)
(** * The memory map at boot: kernel/boot.c and the end of kernel/mm/early.c

    [boot_init] turns the bootloader's entries into the list of memory maps
    and the array of sections; [mm_early_post_arch_init] prepares the sections
    and starts the buddy allocator.  An entry of the array is a [boot_section]:
    until the zones are set up the free lists are empty, and the zone may be
    NULL.  The arrays have 255 entries; [memmove] leaves the entries it moved
    from behind, as in C. *)
From S2P Require Import Prelude CArith Range PageAlloc Walker Early.

Record boot_section := {
  bs_zone : option nat;
  bs_range : range;
  bs_pfn : Z;
}.
Definition no_section : boot_section := {| bs_zone := None; bs_range := RANGE_EMPTY; bs_pfn := 0 |}.
Definition with_bs_zone (z : option nat) (s : boot_section) : boot_section :=
  {| bs_zone := z; bs_range := bs_range s; bs_pfn := bs_pfn s |}.
Definition with_bs_range (r : range) (s : boot_section) : boot_section :=
  {| bs_zone := bs_zone s; bs_range := r; bs_pfn := bs_pfn s |}.
Definition with_bs_pfn (pfn : Z) (s : boot_section) : boot_section :=
  {| bs_zone := bs_zone s; bs_range := bs_range s; bs_pfn := pfn |}.
Record boot := {
  mm_memmap_list : list mm_memmap;
  mm_page_section_list : list boot_section;
  mm_page_section_count : Z;
  section_mask : Z;
}.
Definition MAX_MEMMAPS : nat := 255.
Definition set_section_list (l : list boot_section) (count : Z) (b : boot) : boot :=
  {| mm_memmap_list := mm_memmap_list b; mm_page_section_list := l; mm_page_section_count := count;
     section_mask := section_mask b |}.
Definition set_mask (mask : Z) (b : boot) : boot :=
  {| mm_memmap_list := mm_memmap_list b; mm_page_section_list := mm_page_section_list b;
     mm_page_section_count := mm_page_section_count b; section_mask := mask |}.
Definition get_boot_section (i : nat) (b : boot) : outcome boot_section := deref (mm_page_section_list b !! i).
Definition put_boot_section (i : nat) (s : boot_section) (b : boot) : boot :=
  set_section_list (<[i := s]> (mm_page_section_list b)) (mm_page_section_count b) b.

(** ** boot.c *)
Record limine_memmap_entry := { base : Z; length_ : Z; type_ : Z }.
Definition LIMINE_MEMMAP_USABLE : Z := 0.

Definition page_section_init (zone : option nat) (r : range) (pfn : Z) : boot_section :=
  {| bs_zone := zone; bs_range := r; bs_pfn := pfn |}.

(** The range of an entry behind the ones that were taken, [None] when the
    last of them contains it. *)
Definition fix_overlap (prev : option mm_memmap) (r : range) : outcome (option range) :=
  match prev with
  | None => Ok (Some r)
  | Some prev =>
      if range_overlaps (mm_range prev) r then
        has ← range_has (mm_range prev) r;
        if (has : bool) then Ok None
        else
          prev_end ← range_get_end_assert (mm_range prev);
          r ← range_from_loc r prev_end;
          Ok (Some r)
      else Ok (Some r)
  end.
(** [acc] are the memory maps so far, [secs] the sections. *)
Fixpoint import_entries (entries : list limine_memmap_entry) (acc : list mm_memmap)
    (secs : list boot_section) (pfn : Z) : outcome (list mm_memmap * list boot_section) :=
  match entries with
  | [] => Ok (acc, secs)
  | entry :: entries =>
      if Nat.eqb (length acc) MAX_MEMMAPS then Panic
      else
        aligned ← range_align_out (RANGE_INIT (base entry) (length_ entry)) PAGE_SIZE;
        match aligned with
        | None => Panic
        | Some r =>
            fixed ← fix_overlap (last acc) r;
            match fixed with
            | None => import_entries entries acc secs pfn
            | Some r =>
                let acc := acc ++ [{| mm_range := r; kind := u32 (type_ entry + 1) |}] in
                if type_ entry =? LIMINE_MEMMAP_USABLE
                then import_entries entries acc (secs ++ [page_section_init None r pfn]) (u64 (pfn + PAGE_COUNT (size r)))
                else import_entries entries acc secs pfn
            end
        end
  end.
Definition boot_init (entries : list limine_memmap_entry) : outcome boot :=
  '(memmaps, secs) ← import_entries entries [] [] 0;
  Ok {| mm_memmap_list := memmaps;
        mm_page_section_list := secs ++ replicate (MAX_MEMMAPS - length secs) no_section;
        mm_page_section_count := Z.of_nat (length secs); section_mask := 0 |}.

(** [memmove(memmap, memmap + 1, (count - (index + 1)) * sizeof)] *)
Definition remove_entry (index count : nat) (l : list boot_section) : list boot_section :=
  take index l ++ take (count - (index + 1)) (drop (index + 1) l) ++ drop (count - 1) l.
(** [memmove(section + 1, section, (count - index) * sizeof)] *)
Definition insert_entry (index count : nat) (l : list boot_section) : outcome (list boot_section) :=
  if (count <? length l)%nat
  then Ok (take (index + 1) l ++ take (count - index) (drop index l) ++ drop (count + 1) l) else Undef.

(** The inner [do ... while (true)]: [inl] returns from the function. *)
Fixpoint merge_at (fuel : nat) (index : nat) (b : boot) : outcome (boot + boot) :=
  match fuel with
  | O => OutOfFuel
  | S fuel =>
      memmap ← get_boot_section index b;
      prev ← get_boot_section (index - 1) b;
      prev_end ← range_get_end_assert (bs_range prev);
      if negb (prev_end =? front (bs_range memmap)) then Ok (inr b)
      else
        let prev := with_bs_range (RANGE_INIT (front (bs_range prev))
                      (u64 (size (bs_range prev) + size (bs_range memmap)))) prev in
        let b := put_boot_section (index - 1) prev b in
        let count := mm_page_section_count b in
        let b := set_section_list (remove_entry index (Z.to_nat count) (mm_page_section_list b)) (u8 (count - 1)) b in
        if Z.of_nat index =? mm_page_section_count b then Ok (inl b) else merge_at fuel index b
  end.
Fixpoint merge_from (fuel : nat) (index : nat) (b : boot) : outcome boot :=
  match fuel with
  | O => OutOfFuel
  | S fuel =>
      if Z.of_nat index =? mm_page_section_count b then Ok b
      else
        r ← merge_at (S MAX_MEMMAPS) index b;
        match r with inl b => Ok b | inr b => merge_from fuel (S index) b end
  end.
Definition boot_merge_usable_memmaps (b : boot) : outcome boot := merge_from (S MAX_MEMMAPS) 1 b.

(** It does not lower the count. *)
Definition boot_remove_section (i : nat) (b : boot) : boot :=
  let count := mm_page_section_count b in
  set_mask (Z.shiftr (section_mask b) 1)
    (set_section_list (take i (mm_page_section_list b) ++
       take (Z.to_nat count - i) (drop (i + 1) (mm_page_section_list b)) ++
       drop (Z.to_nat count) (mm_page_section_list b)) count b).
Definition boot_add_section_at (i : nat) (b : boot) : outcome boot :=
  let count := mm_page_section_count b in
  l ← insert_entry i (Z.to_nat count) (mm_page_section_list b);
  Ok (set_mask (u64 (Z.lor (Z.shiftl (section_mask b) 1) 1)) (set_section_list l (u8 (count + 1)) b)).
Fixpoint recalculate_pfns (pfn : Z) (n : nat) (l : list boot_section) : list boot_section :=
  match n, l with
  | S n, s :: l => with_bs_pfn pfn s :: recalculate_pfns (u64 (pfn + PAGE_COUNT (size (bs_range s)))) n l
  | _, _ => l
  end.
Definition boot_recalculate_pfns (b : boot) : boot :=
  set_section_list (recalculate_pfns 0 (Z.to_nat (mm_page_section_count b)) (mm_page_section_list b))
    (mm_page_section_count b) b.

(** ** Zones *)
Definition phys_to_zone (phys : Z) : nat := if phys <? gib 4 then page_zone_low4g else page_zone_default.

Definition split_section_at_boundary (i : nat) (zone : nat) (boundary : Z) (b : boot) : outcome boot :=
  section ← get_boot_section i b;
  let new_section_pfn := bs_pfn section in
  new_section_range ← range_create_end (front (bs_range section)) boundary;
  r ← range_from_loc (bs_range section) boundary;
  let section := with_bs_range r (with_bs_pfn (u64 (bs_pfn section + PAGE_COUNT (size new_section_range))) section) in
  b ← boot_add_section_at i (put_boot_section i section b);
  Ok (put_boot_section i (page_section_init (Some zone) new_section_range new_section_pfn) b).

(** The halving search for the last place that is in the zone. *)
Fixpoint search_boundary (fuel : nat) (begin_zone : nat) (search_front mid_index : Z) : outcome Z :=
  match fuel with
  | O => OutOfFuel
  | S fuel =>
      if mid_index =? 0 then Ok search_front
      else
        let search_front :=
          if bool_decide (phys_to_zone (u64 (search_front + mid_index)) = begin_zone)
          then u64 (search_front + mid_index) else search_front in
        search_boundary fuel begin_zone search_front (mid_index / 2)
  end.
Definition search_fuel : nat := 65.

Fixpoint split_from (fuel : nat) (i : Z) (b : boot) : outcome boot :=
  match fuel with
  | O => OutOfFuel
  | S fuel =>
      if i =? mm_page_section_count b then Ok b
      else
        section ← get_boot_section (Z.to_nat i) b;
        let begin_zone := phys_to_zone (front (bs_range section)) in
        end_ ← range_get_end_assert (bs_range section);
        let back_zone := phys_to_zone (u64 (end_ - PAGE_SIZE)) in
        let zone := match bs_zone section with None => Some begin_zone | z => z end in
        let b := put_boot_section (Z.to_nat i) (with_bs_zone zone section) b in
        if Nat.eqb begin_zone back_zone then split_from fuel (u8 (i + 1)) b
        else
          search_front ← search_boundary search_fuel begin_zone (front (bs_range section)) (size (bs_range section) / 2);
          boundary ← align_up_assert search_front PAGE_SIZE;
          b ← split_section_at_boundary (Z.to_nat i) begin_zone boundary b;
          split_from fuel (u8 (i + 1)) b
  end.
Definition split_sections_for_zones (b : boot) : outcome boot := split_from (2 * S MAX_MEMMAPS) 0 b.

(** ** The sections as the page allocator sees them *)
Definition to_section (s : boot_section) : page_section :=
  {| sec_zone := default page_zone_default (bs_zone s); range_front := front (bs_range s);
     range_size := size (bs_range s); pfn := bs_pfn s;
     freelist_list := replicate (Z.to_nat MAX_ORDER) {| page_list := []; count := 0 |};
     min_order := 0; max_order := 0; total_free := 0 |}.
Definition boot_sections (b : boot) : list boot_section :=
  take (Z.to_nat (mm_page_section_count b)) (mm_page_section_list b).
Definition with_boot (b : boot) (st : mm) : mm := set_sections (to_section <$> boot_sections b) st.

(** [list_add(&section->zone->section_list, ...)] for every section. *)
Fixpoint add_to_zones (i : nat) (secs : list boot_section) (zs : list page_zone) : outcome (list page_zone) :=
  match secs with
  | [] => Ok zs
  | s :: secs =>
      z ← deref (bs_zone s);
      zn ← deref (zs !! z);
      let zn := {| section_list := i :: section_list zn; fallback_zone := fallback_zone zn;
                   zone_total_free := zone_total_free zn |} in
      add_to_zones (S i) secs (<[z := zn]> zs)
  end.
Definition setup_zone_section_list (b : boot) (st : mm) : outcome mm :=
  zs ← add_to_zones 0 (boot_sections b) (zones st); Ok (set_zones zs st).

Fixpoint mark_all (secs : list page_section) (e : early) (st : mm) : outcome mm :=
  match secs with
  | [] => Ok st
  | s :: secs => st ← mark_crucial_pages s e st; mark_all secs e st
  end.
Fixpoint set_section_numbers (secs : list page_section) (number : Z) (e : early) (st : mm) : outcome mm :=
  match secs with
  | [] => Ok st
  | s :: secs => st ← set_section_for_pages s e number st; set_section_numbers secs (u64 (number + 1)) e st
  end.

(** [begin] and [end] are computed before sections are merged and split. *)
Definition mm_early_post_arch_init (b : boot) (e : early) (st : mm) : outcome (Z * boot * early * mm) :=
  let old_count := Z.to_nat (mm_page_section_count b) in
  let st := with_boot b st in
  st ← mark_all (sections st) e st;
  b ← boot_merge_usable_memmaps b;
  b ← split_sections_for_zones b;
  let st := with_boot b st in
  st ← setup_zone_section_list b st;
  st ← set_section_numbers (to_section <$> take old_count (mm_page_section_list b)) 0 e st;
  '(free_page_count, e, st) ← free_all_pages e st;
  Ok (free_page_count, b, e, st).

(** The zones of arch/x86_64/mm/zone.c. *)
Definition boot_zones : list page_zone :=
  [ {| section_list := []; fallback_zone := Some page_zone_low4g; zone_total_free := 0 |};
    {| section_list := []; fallback_zone := None; zone_total_free := 0 |} ].
