(* ===== verification/BootInv.v ===== *)
(** * The sections at boot

    [sections_ok] is what the later stages need of the array of sections: whole
    pages, apart from each other.  The lemmas follow
    [mm_early_post_arch_init] through its stages for sections that are neither
    merged nor split. *)
From S2P Require Import Prelude CArith Range PageAlloc PageBlocks PageAllocInv Walker PgAlloc Early EarlyInv EarlyFree EarlyMark Boot.

Definition bs_pages (s : boot_section) : Z := PAGE_COUNT (size (bs_range s)).
Definition bs_end (s : boot_section) : Z := front (bs_range s) + size (bs_range s).
Record sections_ok (l : list boot_section) : Prop := {
  so_place : forall i s, l !! i = Some s -> 0 <= front (bs_range s) /\ (PAGE_SIZE | front (bs_range s)) /\
    size (bs_range s) = PAGE_SIZE * bs_pages s /\ 0 < bs_pages s /\ bs_end s <= 2 ^ 48 /\
    0 <= bs_pfn s /\ bs_pfn s + bs_pages s <= 2 ^ 52;
  so_apart : forall i j s s' x, l !! i = Some s -> l !! j = Some s' ->
    front (bs_range s) <= x < bs_end s -> front (bs_range s') <= x < bs_end s' -> i = j;
  so_pfns : forall i j s s' q, l !! i = Some s -> l !! j = Some s' ->
    bs_pfn s <= q < bs_pfn s + bs_pages s -> bs_pfn s' <= q < bs_pfn s' + bs_pages s' -> i = j;
  so_total : sum_npages (to_section <$> l) <= 2 ^ 52;
}.

Lemma lookup_to_section (l : list boot_section) (i : nat) s : (to_section <$> l) !! i = Some s -> exists b, l !! i = Some b /\ s = to_section b.
Proof. rewrite list_lookup_fmap. intros (b & Hb & ->)%fmap_Some. by exists b. Qed.

Lemma sections_ranges l st : sections_ok l -> sections st = to_section <$> l -> phys_ranges st /\ phys_places st.
Proof.
  intros Hl Es. split; [|split].
  - intros i s Hs. rewrite Es in Hs. apply lookup_to_section in Hs as (b & Hb & ->).
    destruct (so_place l Hl i b Hb) as (H1 & H2 & H3 & H4 & H5 & H6 & H7). unfold bs_end in H5.
    unfold npages. simpl. fold (bs_pages b). split_and!; try done; lia.
  - intros i s Hs. rewrite Es in Hs. apply lookup_to_section in Hs as (b & Hb & ->). apply (so_place l Hl i b Hb).
  - intros i s Hs. rewrite Es in Hs. apply lookup_to_section in Hs as (b & Hb & ->). apply (so_place l Hl i b Hb).
  - intros i j s s' x Hs Hs'. rewrite Es in Hs, Hs'. apply lookup_to_section in Hs as (b & Hb & ->).
    apply lookup_to_section in Hs' as (b' & Hb' & ->). apply (so_apart l Hl i j b b' x Hb Hb').
Qed.

(** ** The stages that change nothing *)
Definition not_adjacent (l : list boot_section) : Prop :=
  forall i s s', l !! i = Some s -> l !! S i = Some s' -> bs_end s <> front (bs_range s').
Definition one_zone (s : boot_section) : Prop :=
  phys_to_zone (front (bs_range s)) = phys_to_zone (bs_end s - PAGE_SIZE).

Lemma boot_sections_lookup b i s : boot_sections b !! i = Some s <->
  (i < Z.to_nat (mm_page_section_count b))%nat /\ mm_page_section_list b !! i = Some s.
Proof. unfold boot_sections. rewrite lookup_take_Some. tauto. Qed.

Lemma end_assert_ok s : 0 <= front (bs_range s) -> 0 <= size (bs_range s) -> bs_end s <= 2 ^ 48 ->
  range_get_end_assert (bs_range s) = Ok (bs_end s).
Proof.
  intros H1 H2 H3. unfold range_get_end_assert, range_get_end, check_add. unfold bs_end in *.
  rewrite (proj2 (Z.ltb_lt _ _)) by lia. simpl. by rewrite wrap_small by (unfold_ints; lia).
Qed.
Lemma sections_end l i s : sections_ok l -> l !! i = Some s -> range_get_end_assert (bs_range s) = Ok (bs_end s).
Proof.
  intros Hl Hs. destruct (so_place l Hl i s Hs) as (H1 & H2 & H3 & H4 & H5 & _).
  apply end_assert_ok; [done| |done]. rewrite H3. change PAGE_SIZE with 4096. lia.
Qed.

Section merge.
Context (b : boot) (Hl : sections_ok (boot_sections b)) (Hna : not_adjacent (boot_sections b)).
Abbreviation n := (Z.to_nat (mm_page_section_count b)).
Context (Hc : 0 < mm_page_section_count b <= 255) (Hlen : (n <= length (mm_page_section_list b))%nat).

Lemma merge_at_nothing fuel index : (1 <= index < n)%nat -> merge_at (S fuel) index b = Ok (inr b).
Proof.
  intros Hi. cbn [merge_at].
  destruct (lookup_lt_is_Some_2 (mm_page_section_list b) index) as [s' Hs']; [lia|].
  destruct (lookup_lt_is_Some_2 (mm_page_section_list b) (index - 1)) as [s Hs]; [lia|].
  unfold get_boot_section. rewrite Hs', Hs. cbn [deref]. rewrite !outcome_bind_ok.
  assert (boot_sections b !! (index - 1)%nat = Some s) as Hb by (apply boot_sections_lookup; split; [lia|done]).
  assert (boot_sections b !! S (index - 1) = Some s') as Hb'.
  { apply boot_sections_lookup. split; [lia|]. by replace (S (index - 1)) with index by lia. }
  rewrite (sections_end _ _ s Hl Hb), outcome_bind_ok.
  by rewrite (proj2 (Z.eqb_neq _ _)) by (by apply (Hna (index - 1)%nat)).
Qed.
Lemma merge_from_nothing k : forall fuel index, (1 <= index)%nat -> (index + k = n)%nat -> (k < fuel)%nat ->
  merge_from fuel index b = Ok b.
Proof.
  induction k as [|k IH]; intros [|fuel] index H1 H2 H3; try lia; cbn [merge_from].
  - by rewrite (proj2 (Z.eqb_eq _ _)) by lia.
  - rewrite (proj2 (Z.eqb_neq _ _)) by lia. rewrite merge_at_nothing, outcome_bind_ok by lia. apply IH; lia.
Qed.
Lemma merge_nothing : boot_merge_usable_memmaps b = Ok b.
Proof. unfold boot_merge_usable_memmaps. apply (merge_from_nothing (n - 1)); unfold MAX_MEMMAPS; lia. Qed.
End merge.

(** Every section gets its zone. *)
Definition zoned (s : boot_section) : boot_section := with_bs_zone (Some (phys_to_zone (front (bs_range s)))) s.
Section split.
Context (b : boot) (Hl : sections_ok (boot_sections b)) (Hone : Forall one_zone (boot_sections b)).
Context (Hnone : Forall (fun s => bs_zone s = None) (boot_sections b)).
Abbreviation n := (Z.to_nat (mm_page_section_count b)).
Context (Hc : 0 <= mm_page_section_count b <= 255) (Hlen : (n <= length (mm_page_section_list b))%nat).

(** The first [i] sections have their zones. *)
Definition zoned_upto (i : nat) (b1 : boot) : Prop :=
  mm_page_section_count b1 = mm_page_section_count b /\
  length (mm_page_section_list b1) = length (mm_page_section_list b) /\
  forall j, (j < n)%nat -> mm_page_section_list b1 !! j =
    (if (j <? i)%nat then zoned <$> (mm_page_section_list b !! j) else mm_page_section_list b !! j).

Lemma split_step i b1 fuel : (i < n)%nat -> zoned_upto i b1 ->
  exists b2, split_from (S fuel) (Z.of_nat i) b1 = split_from fuel (Z.of_nat (S i)) b2 /\ zoned_upto (S i) b2.
Proof.
  intros Hi (Ec & Elen & Hj). cbn [split_from]. rewrite Ec, (proj2 (Z.eqb_neq _ _)) by lia. rewrite Nat2Z.id.
  destruct (lookup_lt_is_Some_2 (mm_page_section_list b) i) as [s Hs]; [lia|].
  assert (boot_sections b !! i = Some s) as Hbs by (apply boot_sections_lookup; split; [lia|done]).
  unfold get_boot_section. rewrite Hj, (proj2 (Nat.ltb_ge i i)), Hs by lia. cbn [deref]. rewrite outcome_bind_ok.
  rewrite (sections_end _ i s Hl Hbs), outcome_bind_ok.
  destruct (so_place _ Hl i s Hbs) as (P1 & P2 & P3 & P4 & P5 & _).
  assert (u64 (bs_end s - PAGE_SIZE) = bs_end s - PAGE_SIZE) as ->.
  { apply wrap_small. unfold bs_end in *. change PAGE_SIZE with 4096 in *. unfold_ints. lia. }
  pose proof (Forall_lookup_1 _ _ _ _ Hone Hbs) as H1. unfold one_zone in H1. rewrite <- H1, Nat.eqb_refl.
  pose proof (Forall_lookup_1 _ _ _ _ Hnone Hbs) as H2. simpl in H2. rewrite H2.
  rewrite wrap_small by (unfold_ints; lia). replace (Z.of_nat i + 1) with (Z.of_nat (S i)) by lia.
  eexists. split; [done|]. split; [done|]. split; [simpl; by rewrite length_insert|].
  intros j Hlt. simpl. destruct (decide (j = i)) as [->|Hne].
  - rewrite list_lookup_insert_eq by lia. rewrite (proj2 (Nat.ltb_lt i (S i))) by lia. by rewrite Hs.
  - rewrite list_lookup_insert_ne by done. rewrite Hj by done.
    destruct (Nat.ltb_spec j i), (Nat.ltb_spec j (S i)); done || lia.
Qed.
Lemma split_from_nothing k : forall fuel i b1, (i + k = n)%nat -> zoned_upto i b1 -> (k < fuel)%nat ->
  exists b', split_from fuel (Z.of_nat i) b1 = Ok b' /\ zoned_upto n b'.
Proof.
  induction k as [|k IH]; intros [|fuel] i b1 Hi Hz Hf; try lia.
  - exists b1. assert (i = n) as -> by lia. split; [|done]. cbn [split_from]. destruct Hz as [-> _].
    by rewrite (proj2 (Z.eqb_eq _ _)) by lia.
  - destruct (split_step i b1 fuel) as (b2 & -> & Hz2); [lia|done|]. apply IH; [lia|done|lia].
Qed.
Lemma split_nothing : exists b', split_sections_for_zones b = Ok b' /\ boot_sections b' = zoned <$> boot_sections b /\
  mm_page_section_count b' = mm_page_section_count b /\
  length (mm_page_section_list b') = length (mm_page_section_list b).
Proof.
  destruct (split_from_nothing n (2 * S MAX_MEMMAPS) 0 b) as (b' & Hb' & Ec & Elen & Hj);
    [lia|split; [done|]; split; [done|]; by intros j Hlt|unfold MAX_MEMMAPS; lia|].
  exists b'. split; [exact Hb'|]. split; [|done]. apply list_eq. intros j. rewrite list_lookup_fmap.
  unfold boot_sections. rewrite Ec. destruct (Nat.lt_ge_cases j n).
  - rewrite !lookup_take_lt by done. rewrite Hj by done. by rewrite (proj2 (Nat.ltb_lt j n)) by done.
  - by rewrite !lookup_take_ge by lia.
Qed.
End split.
