(* ===== verification/BootStages.v ===== *)
(** * The stages of mm_early_post_arch_init

    The zones get the sections' indices; the pages of the sections are marked
    and numbered; the allocator that results is empty and well-formed, and
    [free_all_pages] fills it. *)
From S2P Require Import Prelude CArith Range PageAlloc PageBlocks PageAllocInv Walker PgAlloc Early EarlyInv EarlyFree EarlyMark Boot BootInv.

(** ** The zones' lists *)
Lemma add_to_zones_ok secs : forall i zs,
  (forall s, s ∈ secs -> exists z, bs_zone s = Some z /\ (z < length zs)%nat) ->
  exists zs', add_to_zones i secs zs = Ok zs' /\ length zs' = length zs /\
  forall z zn', zs' !! z = Some zn' -> exists zn, zs !! z = Some zn /\ fallback_zone zn' = fallback_zone zn /\
    zone_total_free zn' = zone_total_free zn /\
    forall j, j ∈ section_list zn' -> j ∈ section_list zn \/
      exists k s, j = (i + k)%nat /\ secs !! k = Some s /\ bs_zone s = Some z.
Proof.
  induction secs as [|s secs IH]; intros i zs H; cbn [add_to_zones].
  - exists zs. split; [done|]. split; [done|]. intros z zn Hz. exists zn. split_and!; try done. by left.
  - destruct (H s) as (z & Hz & Hlt); [by left|]. rewrite Hz. cbn [deref]. rewrite outcome_bind_ok.
    destruct (lookup_lt_is_Some_2 zs z Hlt) as [zn Hzn]. rewrite Hzn. cbn [deref]. rewrite outcome_bind_ok.
    set (zn1 := {| section_list := i :: section_list zn; fallback_zone := fallback_zone zn;
                   zone_total_free := zone_total_free zn |}).
    destruct (IH (S i) (<[z := zn1]> zs)) as (zs' & -> & El & Hzs').
    { intros x Hx. rewrite length_insert. apply H. by right. }
    rewrite length_insert in El. exists zs'. split; [done|]. split; [done|].
    intros y zn' Hy. destruct (Hzs' y zn' Hy) as (zn0 & H0 & Ef & Et & Hj).
    destruct (decide (y = z)) as [E|Hne].
    + rewrite E, list_lookup_insert_eq in H0 by done. injection H0 as <-. exists zn. rewrite E. split_and!; try done.
      intros j Hin. destruct (Hj j Hin) as [[->|?]%elem_of_cons|(k & x & -> & Hk & Hx)]; [|by left|].
      * right. exists 0%nat, s. split_and!; [lia|done|done].
      * right. exists (S k), x. split_and!; [lia|done|congruence].
    + rewrite list_lookup_insert_ne in H0 by done. exists zn0. split_and!; try done.
      intros j Hin. destruct (Hj j Hin) as [?|(k & x & -> & Hk & Hx)]; [by left|].
      right. exists (S k), x. split_and!; [lia|done..].
Qed.

(** ** Marking and numbering every section *)
Section stages.
Context (st0 : mm) (e : early).
Context (Hranges : phys_ranges st0) (Hplaces : phys_places st0) (He : early_ok e).
Context (Hnp : forall k s, sections st0 !! k = Some s -> 0 < npages s).
Context (Hmapped : forall k s q, sections st0 !! k = Some s -> in_section s q -> is_Some (pages st0 !! q)).
Context (Hplaced : forall k s p, sections st0 !! k = Some s -> p ∈ g_freepage_list e -> placed s e p).
Definition kept (st : mm) : Prop :=
  sections st = sections st0 /\ page_end st = page_end st0 /\ forall q, is_Some (pages st0 !! q) -> is_Some (pages st !! q).
Lemma kept_steady k s st : kept st -> sections st0 !! k = Some s -> steady_pages st0 s st.
Proof. intros (H1 & _ & H2) Hs. split; [done|]. intros q Hq. apply H2. by eapply Hmapped. Qed.
Lemma kept_changed f P st st' : changed f P st st' -> kept st -> kept st'.
Proof.
  intros C (H1 & H2 & H3). destruct (changed_sections _ _ _ _ C) as [E1 E2]. split; [congruence|]. split; [congruence|].
  intros q Hq. apply (changed_mapped _ _ _ _ _ C). by apply H3.
Qed.

Definition crucial_of (s : page_section) (q : Z) : bool := crucial_in s e (g_freepage_list e) (pfn s) q.
Lemma mark_all_ok l : (forall s, s ∈ l -> exists k, sections st0 !! k = Some s) -> forall st, kept st ->
  exists st', mark_all l e st = Ok st' /\ changed crucial (fun q => existsb (fun s => crucial_of s q) l) st st' /\ kept st'.
Proof.
  induction l as [|s l IH]; intros Hl st Hst; cbn [mark_all existsb].
  - exists st. split; [done|]. split; [|done]. by apply changed_none.
  - destruct (Hl s) as [k Hk]; [by left|]. pose proof (Hnp k s Hk) as Hn.
    destruct (find_in_memmap_ok st0 k s e Hranges Hplaces Hk ltac:(lia) Hn (g_freepage_list e) 0 ADDR_MAX st)
      as (st1 & H1 & C1 & _); [by eapply kept_steady|done|done|apply (eo_areas e He)|intros p; by apply (Hplaced k)|].
    unfold mark_crucial_pages. rewrite H1, outcome_bind_ok.
    destruct (IH ltac:(intros x Hx; apply Hl; by right) st1) as (st2 & -> & C2 & Hst2); [by eapply kept_changed|].
    exists st2. split; [done|]. split; [|done]. by eapply (changed_trans crucial).
Qed.

Definition area_of (s : page_section) (q : Z) : bool := area_page_of s e (g_freepage_list e) q.
Definition apart (l : list page_section) : Prop := forall i j s s' q, l !! i = Some s -> l !! j = Some s' ->
  in_section s q -> in_section s' q -> i = j.
Lemma area_of_in s q : area_of s q = true -> in_section s q.
Proof. intros [H _]%andb_prop. apply andb_prop in H as [H1 H2]. unfold in_section. lia. Qed.

(** The pages of the areas in the [j]-th section of [l] have the number [n + j]. *)
Definition numbered (n : nat) (l : list page_section) (st st' : mm) : Prop := exists m, st' = set_pages m st /\
  (forall q, (forall s, s ∈ l -> area_of s q = false) -> m !! q = pages st !! q) /\
  (forall j s q, l !! j = Some s -> area_of s q = true -> m !! q = with_section (n + j) <$> (pages st !! q)).
Lemma set_section_numbers_ok l : (forall s, s ∈ l -> exists k, sections st0 !! k = Some s) -> apart l ->
  (forall s, s ∈ l -> pfn s + npages s <= page_end st0) -> forall n st, kept st -> (n + length l <= 256)%nat ->
  exists st', set_section_numbers l (Z.of_nat n) e st = Ok st' /\ numbered n l st st' /\ kept st'.
Proof.
  intros Hl Ha Hend. induction l as [|s l IH]; intros n st Hst Hlen; cbn [set_section_numbers].
  - exists st. split; [done|]. split; [|done]. exists (pages st). split; [by destruct st|]. split; [done|]. by intros j s q Hj.
  - destruct (Hl s) as [k Hk]; [by left|]. pose proof (Hnp k s Hk) as Hn. simpl in Hlen.
    assert (s ∈ s :: l) as Hs by (by left).
    destruct (set_section_of_areas_ok st0 k s e Hranges Hplaces Hk ltac:(lia) n (g_freepage_list e) 0 ADDR_MAX st)
      as (st1 & H1 & C1 & _);
      [by eapply kept_steady|destruct Hst as (_ & -> & _); by apply Hend|done|done|apply (eo_areas e He)|intros p; by apply (Hplaced k)|].
    unfold set_section_for_pages. rewrite (wrap_small 8) by (unfold_ints; lia). rewrite Nat2Z.id, H1, outcome_bind_ok.
    rewrite wrap_small by (unfold_ints; lia). replace (Z.of_nat n + 1) with (Z.of_nat (S n)) by lia.
    destruct (IH ltac:(intros x Hx; apply Hl; by right) ltac:(intros i j x y q Hi Hj Hx Hy; assert (S i = S j); [by apply (Ha _ _ x y q)|lia])
      ltac:(intros x Hx; apply Hend; by right) (S n) st1) as (st2 & -> & (m2 & -> & N1 & N2) & Hst2); [by eapply kept_changed|lia|].
    exists (set_pages m2 st1). split; [done|]. split; [|done]. destruct C1 as (m1 & -> & Hm1). exists m2. split; [done|]. split.
    + intros q Hq. rewrite N1 by (intros x Hx; apply Hq; by right). simpl. rewrite Hm1.
      pose proof (Hq s Hs) as Eq. unfold area_of in Eq. by rewrite Eq.
    + intros [|j] x q Hj Hx.
      * injection Hj as <-. rewrite N1; [|].
        -- simpl. rewrite Hm1, Nat.add_0_r. unfold area_of in Hx. by rewrite Hx.
        -- intros y (i & Hi)%list_elem_of_lookup. destruct (area_of y q) eqn:Ey; [|done].
           assert (0%nat = S i); [|lia]. apply (Ha 0%nat (S i) s y q); try done; by apply area_of_in.
      * rewrite (N2 j x q Hj Hx). simpl. rewrite Hm1. replace (n + S j)%nat with (S n + j)%nat by lia.
        destruct (area_page_of s e (g_freepage_list e) q) eqn:Es; [|done].
        assert (0%nat = S j); [|lia]. apply (Ha 0%nat (S j) s x q); [done..|by apply area_of_in|by apply area_of_in].
Qed.
End stages.
