(* ===== verification/BootMap.v ===== *)
(** * The memory map as boot_init reads it

    For entries that start no earlier than the last memory map taken
    ([orderly]), the loop of [boot_init] produces ascending memory maps that
    cover exactly what the entries cover, and the sections are the usable ones
    with consecutive page-frame numbers. *)
From S2P Require Import Prelude CArith Range PageAlloc PageBlocks PageAllocInv Walker AddrSpaceInv Early EarlyInv Boot BootInv.

(** The entry's range after alignment, and the entries that are considered. *)
Definition aligned (en : limine_memmap_entry) : range :=
  RANGE_INIT (base en / PAGE_SIZE * PAGE_SIZE) (ceil_mult (length_ en) PAGE_SIZE).
Definition entry_ok (en : limine_memmap_entry) : Prop :=
  0 <= base en /\ 0 < length_ en /\ range_end (aligned en) <= 2 ^ 48 /\ 0 <= type_ en < 2 ^ 31.
(** [lo] and [hi] are the front and the end of the last memory map. *)
Fixpoint orderly (lo hi : Z) (l : list limine_memmap_entry) : Prop :=
  match l with
  | [] => True
  | en :: l => lo <= front (aligned en) /\
      if range_end (aligned en) <=? hi then orderly lo hi l
      else orderly (Z.max (front (aligned en)) hi) (range_end (aligned en)) l
  end.

(** Whole pages, not empty, one behind the other. *)
Fixpoint ascending (lo : Z) (l : list range) (hi : Z) : Prop :=
  match l with
  | [] => lo <= hi
  | r :: l => lo <= front r /\ (PAGE_SIZE | front r) /\ (PAGE_SIZE | size r) /\ 0 < size r /\ ascending (range_end r) l hi
  end.
(** The sections of the usable memory maps. *)
Fixpoint usable_sections (pfn : Z) (l : list mm_memmap) : list boot_section :=
  match l with
  | [] => []
  | m :: l =>
      if kind m =? MM_MEMMAP_KIND_USABLE
      then page_section_init None (mm_range m) pfn :: usable_sections (pfn + PAGE_COUNT (size (mm_range m))) l
      else usable_sections pfn l
  end.
Fixpoint usable_pages (l : list mm_memmap) : Z :=
  match l with
  | [] => 0
  | m :: l => (if kind m =? MM_MEMMAP_KIND_USABLE then PAGE_COUNT (size (mm_range m)) else 0) + usable_pages l
  end.

Lemma aligned_ok en : entry_ok en -> range_align_out (RANGE_INIT (base en) (length_ en)) PAGE_SIZE = Ok (Some (aligned en)) /\
  0 <= front (aligned en) /\ (PAGE_SIZE | front (aligned en)) /\ (PAGE_SIZE | size (aligned en)) /\ 0 < size (aligned en) /\
  range_end (aligned en) <= 2 ^ 48.
Proof.
  intros (H1 & H2 & H3 & H4). destruct (ceil_mult_spec (length_ en) PAGE_SIZE ltac:(done)) as [Hc Hd].
  unfold range_end, aligned in *. cbn [front size] in *.
  pose proof (Z.div_mod (base en) PAGE_SIZE ltac:(done)). pose proof (Z.mod_pos_bound (base en) PAGE_SIZE ltac:(done)).
  assert (0 <= base en / PAGE_SIZE) by (by apply Z.div_pos).
  change (2 ^ 48) with 281474976710656 in *. change PAGE_SIZE with (2 ^ 12) in *.
  assert (in_u 64 (base en)) by (unfold_ints; lia). assert (in_u 64 (length_ en)) by (unfold_ints; lia).
  split_and!; try done; try lia; [|apply Z.divide_factor_r].
  unfold range_align_out. cbn [front size]. rewrite align_up_eq, align_down_eq by (done || lia).
  by rewrite (proj2 (Z.ltb_lt (ceil_mult _ _) _)) by lia.
Qed.

Lemma ascending_app lo l r hi : ascending lo l (front r) -> (PAGE_SIZE | front r) -> (PAGE_SIZE | size r) -> 0 < size r ->
  range_end r <= hi -> ascending lo (l ++ [r]) hi.
Proof.
  revert lo. induction l as [|x l IH]; intros lo; cbn [ascending app]; [done|].
  intros (H1 & H2 & H3 & H4 & H5) D1 D2 D3 D4. split_and!; try done. by apply IH.
Qed.
Lemma ascending_le lo l hi : ascending lo l hi -> lo <= hi.
Proof.
  revert lo. induction l as [|r l IH]; intros lo; simpl; [done|]. intros (H1 & _ & _ & H4 & H5%IH). unfold range_end in *. lia.
Qed.
Lemma ascending_mono lo l hi hi' : ascending lo l hi -> hi <= hi' -> ascending lo l hi'.
Proof.
  revert lo. induction l as [|r l IH]; intros lo; simpl; [lia|]. intros (?&?&?&?&?) ?. split_and!; try done. by apply IH.
Qed.
Lemma ascending_in lo l hi i r : ascending lo l hi -> l !! i = Some r ->
  lo <= front r /\ range_end r <= hi /\ (PAGE_SIZE | front r) /\ (PAGE_SIZE | size r) /\ 0 < size r.
Proof.
  revert lo i. induction l as [|x l IH]; intros lo i; [done|]. intros (H1 & H2 & H3 & H4 & H5).
  pose proof (ascending_le _ _ _ H5). destruct i as [|i]; simpl.
  - intros [= <-]. done.
  - intros Hr. destruct (IH _ _ H5 Hr) as (H6 & H7 & H8 & H9 & H10). unfold range_end in *. split_and!; done || lia.
Qed.
Lemma ascending_apart lo l hi i j r r' x : ascending lo l hi -> l !! i = Some r -> l !! j = Some r' ->
  x ∈ r -> x ∈ r' -> i = j.
Proof.
  revert lo i j. induction l as [|y l IH]; intros lo i j; [done|]. intros (H1 & H2 & H3 & H4 & H5).
  assert (forall k z, l !! k = Some z -> x ∈ z -> x ∈ y -> False) as Hno.
  { intros k z Hz Hx Hy. destruct (ascending_in _ _ _ _ _ H5 Hz) as (H6 & _). unfold elem_of, elem_of_range, in_range, range_end in *. lia. }
  destruct i as [|i], j as [|j]; simpl; intros Hi Hj Hx Hx'; simplify_eq; try done; [by destruct (Hno j r')|by destruct (Hno i r)|].
  f_equal. by apply (IH _ i j H5).
Qed.

(** ** The overlap with the last memory map *)
Lemma fix_overlap_ok prev en : entry_ok en -> 0 <= front (mm_range prev) -> 0 < size (mm_range prev) ->
  range_end (mm_range prev) <= 2 ^ 48 -> front (mm_range prev) <= front (aligned en) ->
  let f := Z.max (front (aligned en)) (range_end (mm_range prev)) in
  fix_overlap (Some prev) (aligned en) =
    Ok (if range_end (aligned en) <=? range_end (mm_range prev) then None else Some (RANGE_INIT f (range_end (aligned en) - f))).
Proof.
  intros Hen Hf Hs Hend Hle f. destruct (aligned_ok en Hen) as (_ & A1 & _ & _ & A4 & A5).
  unfold fix_overlap.
  set (r := aligned en) in *. set (p := mm_range prev) in *. clearbody r p. unfold range_end in *.
  assert (range_wf p) as Hp by (unfold range_wf; lia). assert (range_wf r) as Hr by (unfold range_wf; lia).
  assert (in_u 64 (front r)) as Ur by (unfold_ints; lia).
  pose proof (range_overlaps_iff p r Hp Hr) as Hov.
  pose proof (range_has_loc_iff p (front r) Hp Ur) as Hloc. unfold elem_of, elem_of_range, in_range in *.
  destruct (range_overlaps p r) eqn:Eov.
  - assert (front r < front p + size p) as Hin by (destruct (proj1 Hov eq_refl); lia).
    unfold range_has, range_index_for_loc. rewrite (proj2 Hloc) by lia. simpl. rewrite sub_small by lia.
    unfold range_has_index, index_in_bounds. rewrite (proj2 (Z.ltb_lt _ _)) by lia. simpl. rewrite sub_small by lia.
    destruct (Z.geb_spec (size p - (front r - front p)) (size r)), (Z.leb_spec (front r + size r) (front p + size p)); try lia; [done|].
    unfold range_get_end_assert, range_get_end, check_add. rewrite (proj2 (Z.ltb_lt _ _)) by lia. simpl.
    rewrite wrap_small by (unfold_ints; lia). unfold range_from_loc.
    rewrite (proj2 (range_has_loc_iff r (front p + size p) Hr ltac:(unfold_ints; lia))) by (unfold elem_of, elem_of_range, in_range; lia).
    simpl. rewrite (sub_small (front p + size p)), sub_small by lia. unfold f. rewrite Z.max_r by lia. do 2 f_equal. f_equal. lia.
  - assert (front p + size p <= front r) as Hab.
    { destruct (Z.le_gt_cases (front p + size p) (front r)) as [?|H]; [done|]. assert (false = true); [|done]. apply Hov. left. lia. }
    rewrite (proj2 (Z.leb_gt _ _)) by lia. unfold f. rewrite Z.max_l by lia. destruct r; simpl. do 2 f_equal. f_equal. lia.
Qed.

(** ** The loop *)
Lemma usable_sections_app p l m : usable_sections p (l ++ [m]) = usable_sections p l ++
  (if kind m =? MM_MEMMAP_KIND_USABLE then [page_section_init None (mm_range m) (p + usable_pages l)] else []).
Proof.
  revert p. induction l as [|x l IH]; intros p; cbn [usable_sections usable_pages app].
  - rewrite Z.add_0_r. by destruct (kind m =? _).
  - destruct (kind x =? _); rewrite IH; [|done]. by rewrite Z.add_assoc.
Qed.
Lemma usable_pages_app l m : usable_pages (l ++ [m]) =
  usable_pages l + if kind m =? MM_MEMMAP_KIND_USABLE then PAGE_COUNT (size (mm_range m)) else 0.
Proof. induction l as [|x l IH]; cbn [usable_pages app]; [lia|]. rewrite IH. lia. Qed.
Lemma page_count_pos n : 0 < n -> (PAGE_SIZE | n) -> 0 < PAGE_COUNT n /\ n = PAGE_SIZE * PAGE_COUNT n.
Proof.
  intros Hn [c ->]. unfold PAGE_COUNT.
  rewrite Z.div_mul by done. change PAGE_SIZE with 4096 in *. lia.
Qed.
Lemma usable_pages_bound lo l hi : ascending lo (mm_range <$> l) hi -> 0 <= PAGE_SIZE * usable_pages l <= hi - lo.
Proof.
  revert lo. induction l as [|m l IH]; intros lo; cbn [usable_pages]; [simpl; lia|]. rewrite fmap_cons.
  intros (H1 & H2 & H3 & H4 & H5%IH). destruct (page_count_pos _ H4 H3) as [H6 H7]. unfold range_end in *.
  destruct (kind m =? _); lia.
Qed.

(** What has been read: [lo] and [hi] are the front and the end of the last. *)
Record read_upto (lo hi : Z) (acc : list mm_memmap) : Prop := {
  ru_last : match last acc with None => lo = 0 /\ hi = 0 | Some p => lo = front (mm_range p) /\ hi = range_end (mm_range p) end;
  ru_ascending : ascending 0 (mm_range <$> acc) hi;
  ru_hi : hi <= 2 ^ 48;
}.
Definition covered (l : list mm_memmap) (x : Z) : Prop := exists m, m ∈ l /\ x ∈ mm_range m.
Definition entries_cover (l : list limine_memmap_entry) (x : Z) : Prop := exists en, en ∈ l /\ x ∈ aligned en.

Lemma read_lo lo hi acc : read_upto lo hi acc -> 0 <= lo <= hi.
Proof.
  intros [H1 H2 H3]. destruct (last acc) as [p|] eqn:E; [|lia]. destruct H1 as [-> ->].
  apply last_Some in E as [l ->]. rewrite fmap_app in H2.
  destruct (ascending_in _ _ _ (length (mm_range <$> l)) (mm_range p) H2) as (H4 & _ & _ & _ & H5);
    [by rewrite lookup_app_r, Nat.sub_diag|]. unfold range_end. lia.
Qed.
Lemma read_fix lo hi acc en : read_upto lo hi acc -> entry_ok en -> lo <= front (aligned en) ->
  fix_overlap (last acc) (aligned en) = Ok (if range_end (aligned en) <=? hi then None
    else Some (RANGE_INIT (Z.max (front (aligned en)) hi) (range_end (aligned en) - Z.max (front (aligned en)) hi))).
Proof.
  intros Hr Hen Hlo. pose proof (read_lo _ _ _ Hr) as Hlh. destruct Hr as [H1 H2 H3].
  destruct (aligned_ok en Hen) as (_ & A1 & A2 & A3 & A4 & A5). destruct (last acc) as [p|] eqn:E.
  - destruct H1 as [-> ->]. apply last_Some in E as [l ->]. rewrite fmap_app in H2.
    destruct (ascending_in _ _ _ (length (mm_range <$> l)) (mm_range p) H2) as (H4 & H5 & _ & _ & H6);
      [by rewrite lookup_app_r, Nat.sub_diag|]. apply fix_overlap_ok; done || lia.
  - destruct H1 as [-> ->]. unfold range_end in *. rewrite (proj2 (Z.leb_gt _ _)), Z.max_l by lia.
    unfold fix_overlap. do 2 f_equal. destruct (aligned en). simpl. f_equal. lia.
Qed.
Lemma read_next lo hi acc en t : read_upto lo hi acc -> entry_ok en -> hi < range_end (aligned en) ->
  let f := Z.max (front (aligned en)) hi in
  read_upto f (range_end (aligned en)) (acc ++ [{| mm_range := RANGE_INIT f (range_end (aligned en) - f); kind := t |}]).
Proof.
  intros Hr Hen Hlt f. pose proof (read_lo _ _ _ Hr) as Hlh. destruct (aligned_ok en Hen) as (_ & A1 & A2 & A3 & A4 & A5).
  assert ((PAGE_SIZE | hi)) as Hd.
  { destruct Hr as [H1 H2 _]. destruct (last acc) as [p|] eqn:E; [|destruct H1 as [_ ->]; apply Z.divide_0_r].
    destruct H1 as [_ ->]. apply last_Some in E as [l ->]. rewrite fmap_app in H2.
    destruct (ascending_in _ _ _ (length (mm_range <$> l)) (mm_range p) H2) as (_ & _ & ? & ? & _);
      [by rewrite lookup_app_r, Nat.sub_diag|]. by apply Z.divide_add_r. }
  assert ((PAGE_SIZE | f)) as Hf by (unfold f; destruct (Z.max_spec (front (aligned en)) hi) as [[_ ->]|[_ ->]]; done).
  split; [|rewrite fmap_app; apply ascending_app|done].
  - rewrite last_snoc. simpl. split; [done|]. unfold range_end. simpl. lia.
  - simpl. destruct Hr as [_ H2 _]. revert H2. generalize (mm_range <$> acc) as l. generalize 0 as z.
    assert (hi <= f) as Hle by (unfold f; lia). clearbody f. intros z l. revert z.
    induction l as [|r l IH]; intros z; simpl; [lia|]. intros (?&?&?&?&?). split_and!; try done. by apply IH.
  - done.
  - simpl. apply Z.divide_sub_r; [by apply Z.divide_add_r|done].
  - simpl. unfold f, range_end in *. lia.
  - unfold range_end. simpl. lia.
Qed.

(** Every memory map is a part of an entry of its kind. *)
Definition from_entry (l : list limine_memmap_entry) (m : mm_memmap) : Prop :=
  exists en, en ∈ l /\ kind m = type_ en + 1 /\ forall x, x ∈ mm_range m -> x ∈ aligned en.
Lemma import_entries_ok entries : forall lo hi acc, Forall entry_ok entries -> orderly lo hi entries -> read_upto lo hi acc ->
  (length acc + length entries <= MAX_MEMMAPS)%nat ->
  exists acc' lo' hi', import_entries entries acc (usable_sections 0 acc) (usable_pages acc) =
    Ok (acc', usable_sections 0 acc') /\ read_upto lo' hi' acc' /\ (length acc' <= MAX_MEMMAPS)%nat /\
  (forall x, covered acc' x <-> covered acc x \/ entries_cover entries x) /\
  (forall m, m ∈ acc' -> m ∈ acc \/ from_entry entries m).
Proof.
  induction entries as [|en entries IH]; intros lo hi acc Hok Hord Hr Hlen; cbn [import_entries].
  - exists acc, lo, hi. split; [done|]. split; [done|]. split; [simpl in Hlen; lia|]. split; [|by left].
    intros x. split; [by left|]. intros [?|(en & Hen & _)]; [done|]. by apply elem_of_nil in Hen.
  - apply Forall_cons in Hok as [Hen Hok]. destruct Hord as [Hlo Hord]. cbn [length] in Hlen.
    destruct (aligned_ok en Hen) as (-> & A1 & A2 & A3 & A4 & A5).
    destruct (Nat.eqb_spec (length acc) MAX_MEMMAPS) as [E|_]; [lia|]. rewrite outcome_bind_ok.
    rewrite (read_fix lo hi acc en Hr Hen Hlo), outcome_bind_ok.
    assert (forall l x, entries_cover (en :: l) x <-> x ∈ aligned en \/ entries_cover l x) as Hcons.
    { intros l x. unfold entries_cover. setoid_rewrite elem_of_cons. naive_solver. }
    assert (forall m, from_entry entries m -> from_entry (en :: entries) m) as Hfrom.
    { intros m (y & Hy & H). exists y. split; [by right|done]. }
    assert (forall x, lo <= x < hi -> covered acc x) as Hlast.
    { intros x Hx. pose proof (ru_last _ _ _ Hr) as H1. destruct (last acc) as [p|] eqn:E; [|lia]. destruct H1 as [-> ->].
      exists p. split; [apply last_Some in E as [l ->]; apply elem_of_app; right; by left|exact Hx]. }
    destruct (Z.leb_spec (range_end (aligned en)) hi) as [Hle|Hgt].
    + destruct (IH lo hi acc) as (acc' & lo' & hi' & -> & R & El & Hcov & Hm); [done|done|done|lia|].
      exists acc', lo', hi'. do 3 (split; [done|]). split; [|intros m Hin; destruct (Hm m Hin); auto].
      intros x. rewrite Hcov, Hcons. enough (x ∈ aligned en -> covered acc x) by tauto.
      intros Hx. apply Hlast. unfold elem_of, elem_of_range, in_range, range_end in *. lia.
    + set (f := Z.max (front (aligned en)) hi) in *. set (r := RANGE_INIT f (range_end (aligned en) - f)).
      assert (u32 (type_ en + 1) = type_ en + 1) as -> by (apply wrap_small; destruct Hen as (_ & _ & _ & ?); unfold_ints; lia).
      set (m := {| mm_range := r; kind := type_ en + 1 |}).
      pose proof (read_next lo hi acc en (type_ en + 1) Hr Hen Hgt : read_upto f _ (acc ++ [m])) as Hr'.
      assert (usable_pages (acc ++ [m]) = if type_ en =? LIMINE_MEMMAP_USABLE then u64 (usable_pages acc + PAGE_COUNT (size r)) else usable_pages acc) as Ep.
      { pose proof (usable_pages_bound _ _ _ (ru_ascending _ _ _ Hr')) as Hb. rewrite usable_pages_app in Hb |- *.
        pose proof (usable_pages_bound _ _ _ (ru_ascending _ _ _ Hr)) as Hb0. pose proof (ru_hi _ _ _ Hr).
        cbn [kind mm_range m] in Hb |- *. unfold MM_MEMMAP_KIND_USABLE, LIMINE_MEMMAP_USABLE in *. change PAGE_SIZE with 4096 in *.
        destruct (Z.eqb_spec (type_ en + 1) 1), (Z.eqb_spec (type_ en) 0); try lia.
        symmetry. apply wrap_small. unfold_ints. lia. }
      assert (usable_sections 0 (acc ++ [m]) = if type_ en =? LIMINE_MEMMAP_USABLE
        then usable_sections 0 acc ++ [page_section_init None r (usable_pages acc)] else usable_sections 0 acc) as Es.
      { rewrite usable_sections_app. cbn [kind mm_range m]. unfold MM_MEMMAP_KIND_USABLE, LIMINE_MEMMAP_USABLE.
        destruct (Z.eqb_spec (type_ en + 1) 1), (Z.eqb_spec (type_ en) 0); try lia; by rewrite ?app_nil_r. }
      destruct (IH f (range_end (aligned en)) (acc ++ [m])) as (acc' & lo' & hi' & Himp & R & El & Hcov & Hm);
        [done|done|done|rewrite length_app; simpl; lia|].
      exists acc', lo', hi'. split; [|split; [done|split; [done|split]]].
      * rewrite Ep, Es in Himp. by destruct (type_ en =? LIMINE_MEMMAP_USABLE).
      * intros x. rewrite Hcov, Hcons. assert (covered (acc ++ [m]) x <-> covered acc x \/ x ∈ r) as ->.
        { unfold covered. setoid_rewrite elem_of_app. setoid_rewrite list_elem_of_singleton. naive_solver. }
        assert (x ∈ r -> x ∈ aligned en) as H1 by (unfold elem_of, elem_of_range, in_range, r, f, range_end in *; simpl; lia).
        enough (x ∈ aligned en -> covered acc x \/ x ∈ r) by tauto.
        intros Hx. destruct (Z.lt_ge_cases x hi) as [Hh|Hh]; [left; apply Hlast|right];
          unfold elem_of, elem_of_range, in_range, r, f, range_end in *; simpl in *; lia.
      * intros y Hy. destruct (Hm y Hy) as [[?|E]%elem_of_app|?]; auto. apply list_elem_of_singleton in E as ->.
        right. exists en. split; [by left|]. split; [done|]. intros x.
        unfold elem_of, elem_of_range, in_range, m, r, f, range_end in *; simpl; lia.
Qed.

(** ** The sections *)
Lemma usable_sections_lookup lo l hi p i s : ascending lo (mm_range <$> l) hi -> 0 <= p ->
  usable_sections p l !! i = Some s -> lo <= front (bs_range s) /\ bs_end s <= hi /\ (PAGE_SIZE | front (bs_range s)) /\
  0 < bs_pages s /\ size (bs_range s) = PAGE_SIZE * bs_pages s /\ p <= bs_pfn s /\ bs_pfn s + bs_pages s <= p + usable_pages l /\
  bs_zone s = None.
Proof.
  revert lo p i. induction l as [|m l IH]; intros lo p i; [done|]. rewrite fmap_cons. intros (H1 & H2 & H3 & H4 & H5) Hp.
  pose proof (ascending_le _ _ _ H5). destruct (page_count_pos _ H4 H3) as [H6 H7]. cbn [usable_sections usable_pages].
  pose proof (usable_pages_bound _ _ _ H5) as Hb. change PAGE_SIZE with 4096 in Hb.
  assert (0 <= usable_pages l) by lia. unfold range_end in *.
  destruct (kind m =? _); [destruct i as [|i]; cbn [lookup list_lookup]|]; intros Hs.
  - injection Hs as <-. unfold bs_end, bs_pages. cbn [page_section_init bs_range bs_pfn bs_zone]. split_and!; done || lia.
  - destruct (IH _ (p + PAGE_COUNT (size (mm_range m))) i H5) as (?&?&?&?&?&?&?&?); [lia|done|]. split_and!; done || lia.
  - destruct (IH _ p i H5) as (?&?&?&?&?&?&?&?); [lia|done|]. split_and!; done || lia.
Qed.
Lemma usable_sections_apart lo l hi p i j s s' : ascending lo (mm_range <$> l) hi -> 0 <= p -> (i < j)%nat ->
  usable_sections p l !! i = Some s -> usable_sections p l !! j = Some s' ->
  bs_end s <= front (bs_range s') /\ bs_pfn s + bs_pages s <= bs_pfn s'.
Proof.
  revert lo p i j. induction l as [|m l IH]; intros lo p i j; [done|]. rewrite fmap_cons. intros (H1 & H2 & H3 & H4 & H5) Hp Hij.
  destruct (page_count_pos _ H4 H3) as [H6 _]. cbn [usable_sections].
  destruct (kind m =? _); [destruct i as [|i], j as [|j]; try lia; cbn [lookup list_lookup]|]; intros Hs Hs'.
  - injection Hs as <-. destruct (usable_sections_lookup _ _ _ (p + PAGE_COUNT (size (mm_range m))) _ _ H5 ltac:(lia) Hs') as (?&_&_&_&_&?&_).
    unfold bs_end, bs_pages, range_end in *. cbn [page_section_init bs_range bs_pfn]. lia.
  - apply (IH _ (p + PAGE_COUNT (size (mm_range m))) i j H5); [lia|lia|done|done].
  - apply (IH _ p i j H5); done.
Qed.
Lemma usable_sections_ok l hi : ascending 0 (mm_range <$> l) hi -> hi <= 2 ^ 48 -> sections_ok (usable_sections 0 l).
Proof.
  intros Ha Hhi. pose proof (usable_pages_bound _ _ _ Ha) as Hb. change PAGE_SIZE with 4096 in Hb.
  assert (forall i j s s', usable_sections 0 l !! i = Some s -> usable_sections 0 l !! j = Some s' ->
    i = j \/ (bs_end s <= front (bs_range s') /\ bs_pfn s + bs_pages s <= bs_pfn s') \/
    (bs_end s' <= front (bs_range s) /\ bs_pfn s' + bs_pages s' <= bs_pfn s)) as Hap.
  { intros i j s s' Hs Hs'. destruct (Nat.lt_trichotomy i j) as [H|[H|H]]; [|by left|].
    - right. left. by apply (usable_sections_apart 0 l hi 0 i j).
    - right. right. by apply (usable_sections_apart 0 l hi 0 j i). }
  split.
  - intros i s Hs. destruct (usable_sections_lookup 0 l hi 0 i s Ha ltac:(lia) Hs) as (?&?&?&?&?&?&?&_).
    split_and!; done || lia.
  - intros i j s s' x Hs Hs' Hx Hx'. destruct (Hap i j s s' Hs Hs') as [?|[[? _]|[? _]]]; [done|lia..].
  - intros i j s s' x Hs Hs' Hx Hx'. destruct (Hap i j s s' Hs Hs') as [?|[[_ ?]|[_ ?]]]; [done|lia..].
  - enough (forall p, sum_npages (to_section <$> usable_sections p l) = usable_pages l) as -> by lia.
    clear. induction l as [|m l IH]; intros p; [done|]. cbn [usable_sections usable_pages].
    destruct (kind m =? _); [|by rewrite IH]. rewrite fmap_cons. cbn [sum_npages]. by rewrite IH.
Qed.

Lemma boot_init_ok entries : Forall entry_ok entries -> orderly 0 0 entries -> (length entries <= MAX_MEMMAPS)%nat ->
  exists b, boot_init entries = Ok b /\ ascending 0 (mm_range <$> mm_memmap_list b) (2 ^ 48) /\
  (forall x, covered (mm_memmap_list b) x <-> entries_cover entries x) /\
  (forall m, m ∈ mm_memmap_list b -> from_entry entries m) /\
  boot_sections b = usable_sections 0 (mm_memmap_list b) /\ sections_ok (boot_sections b).
Proof.
  intros Hok Hord Hlen.
  destruct (import_entries_ok entries 0 0 []) as (acc & lo & hi & Himp & R & El & Hcov & Hm); [done|done|by split|simpl; lia|].
  cbn [usable_sections usable_pages] in Himp. unfold boot_init. rewrite Himp. cbn [outcome_bind mbind]. eexists. split; [done|].
  cbn [mm_memmap_list]. pose proof (ru_hi _ _ _ R) as Hhi. pose proof (ru_ascending _ _ _ R) as Ha.
  assert (boot_sections {| mm_memmap_list := acc; mm_page_section_list := usable_sections 0 acc ++ replicate (MAX_MEMMAPS - length (usable_sections 0 acc)) no_section;
    mm_page_section_count := Z.of_nat (length (usable_sections 0 acc)); section_mask := 0 |} = usable_sections 0 acc) as Es.
  { unfold boot_sections. cbn [mm_page_section_list mm_page_section_count]. by rewrite Nat2Z.id, take_app_length. }
  rewrite Es. split_and!; try done.
  - by apply (ascending_mono 0 _ hi).
  - intros x. rewrite Hcov. split; [|by right]. intros [(m & Hx & _)|?]; [by apply elem_of_nil in Hx|done].
  - intros m Hin. destruct (Hm m Hin) as [Hx|?]; [by apply elem_of_nil in Hx|done].
  - by apply (usable_sections_ok acc hi).
Qed.

(** ** The usable memory maps become the early allocator's areas *)
Definition usable_at (l : list mm_memmap) (x : Z) : Prop :=
  exists m, m ∈ l /\ kind m = MM_MEMMAP_KIND_USABLE /\ x ∈ mm_range m.
Lemma usable_at_sections p l x : usable_at l x <-> exists s, s ∈ usable_sections p l /\ x ∈ bs_range s.
Proof.
  unfold usable_at. revert p. induction l as [|m l IH]; intros p; cbn [usable_sections].
  - split; [intros (m & Hm & _)|intros (s & Hs & _)]; by apply elem_of_nil in Hm || apply elem_of_nil in Hs.
  - setoid_rewrite elem_of_cons. destruct (Z.eqb_spec (kind m) MM_MEMMAP_KIND_USABLE) as [E|E].
    + setoid_rewrite elem_of_cons. specialize (IH (p + PAGE_COUNT (size (mm_range m)))). split.
      * intros (y & [->|Hy] & Hk & Hx); [eexists; split; [by left|done]|].
        destruct (proj1 IH) as (s & Hs & Hxs); [by exists y|]. exists s. by split; [right|].
      * intros (s & [->|Hs] & Hx); [exists m; by split; [left|]|].
        destruct (proj2 IH) as (y & Hy & H); [by exists s|]. exists y. by split; [right|].
    + rewrite <- IH. split.
      * intros (y & [->|Hy] & Hk & Hx); [done|]. by exists y.
      * intros (y & Hy & H). exists y. by split; [right|].
Qed.

Lemma claim_usable_ok l : forall lo hi n e, ascending lo (mm_range <$> l) hi -> 0 <= lo -> hi <= 2 ^ 48 ->
  Forall (fun m => kind m <> 0) l -> early_ok e -> claimed_below e lo -> PAGE_SIZE * n <= lo -> 0 <= n ->
  PAGE_SIZE * g_total_free_pages e <= lo -> 0 <= g_total_free_pages e ->
  exists e', claim_usable l n e = Ok (n + usable_pages l, e') /\ early_ok e' /\
  (forall x, early_free e' x <-> early_free e x \/ usable_at l x) /\
  g_total_free_pages e' = g_total_free_pages e + usable_pages l /\
  g_total_free_pages_remaining e' = g_total_free_pages_remaining e + usable_pages l.
Proof.
  induction l as [|m l IH]; intros lo hi n e Ha Hlo Hhi Hk He Hbelow Hn Hn0 Ht Ht0; cbn [claim_usable usable_pages].
  - exists e. split; [do 2 f_equal; lia|]. split; [done|]. split; [|lia]. intros x. split; [by left|].
    intros [?|(y & Hy & _)]; [done|]. by apply elem_of_nil in Hy.
  - rewrite fmap_cons in Ha. destruct Ha as (A1 & A2 & A3 & A4 & A5). apply Forall_cons in Hk as [Hm Hk].
    destruct (page_count_pos _ A4 A3) as [P1 P2]. pose proof (ascending_le _ _ _ A5) as Hle. unfold range_end in Hle.
    change PAGE_SIZE with 4096 in *. rewrite (c_assert_true (negb (kind m =? 0))), outcome_bind_ok by (by apply negb_true_iff, Z.eqb_neq).
    assert (range_get_end_assert (mm_range m) = Ok (range_end (mm_range m))) as Hend.
    { unfold range_get_end_assert, range_get_end, check_add. rewrite (proj2 (Z.ltb_lt _ _)) by lia. simpl.
      by rewrite wrap_small by (unfold_ints; lia). }
    assert (forall l x, usable_at (m :: l) x <-> (kind m = MM_MEMMAP_KIND_USABLE /\ x ∈ mm_range m) \/ usable_at l x) as Hcons.
    { intros l' x. unfold usable_at. setoid_rewrite elem_of_cons. naive_solver. }
    assert (range_end (mm_range m) = front (mm_range m) + 4096 * PAGE_COUNT (size (mm_range m))) as Ee by (unfold range_end; lia).
    destruct (Z.eqb_spec (kind m) MM_MEMMAP_KIND_USABLE) as [E|E].
    + destruct (claim_pages_ok e (front (mm_range m)) (size (mm_range m))) as (e1 & Hc & C1 & C2 & C3 & C4 & C5);
        [done|done|lia|lia|unfold ADDR_MAX; change PAGE_SIZE with 4096; lia|by intros p i Hp Hi; pose proof (Hbelow p i Hp Hi); lia|lia|].
      destruct (mm_range m) as [f sz] eqn:Em. cbn [front size] in *. rewrite Hc, outcome_bind_ok, wrap_small by (unfold_ints; lia).
      rewrite outcome_bind_ok, Hend, outcome_bind_ok.
      destruct (IH (range_end (RANGE_INIT f sz)) hi (n + PAGE_COUNT sz) e1 A5) as (e' & -> & R1 & R2 & R3 & R4); try done; try lia.
      { rewrite Ee. exact C3. }
      exists e'. split; [do 2 f_equal; lia|]. split; [done|]. split; [|lia]. intros x. rewrite R2, C2, Hcons.
      assert (x ∈ mm_range m <-> f <= x < f + 4096 * PAGE_COUNT sz) as Hx.
      { rewrite Em. unfold elem_of, elem_of_range, in_range. cbn [front size]. lia. }
      rewrite <- Em, Hx. change PAGE_SIZE with 4096. tauto.
    + rewrite outcome_bind_ok, Hend, outcome_bind_ok.
      destruct (IH (range_end (mm_range m)) hi n e A5) as (e' & -> & R1 & R2 & R3 & R4); try done; try lia.
      { intros p i Hp Hi. pose proof (Hbelow p i Hp Hi). lia. }
      exists e'. split; [done|]. split; [done|]. split; [|lia]. intros x. rewrite R2, Hcons. tauto.
Qed.
