(* ===== verification/BootThms.v ===== *)
(** * Theorems about the hand-over to the buddy allocator *)
From S2P Require Import Prelude CArith Range PageAlloc PageBlocks PageAllocInv Walker PgAlloc Early EarlyInv EarlyFree EarlyMark Boot BootInv BootStages.

(** ** The state before mm_early_post_arch_init

    The sections lie apart, do not adjoin and each lies in one zone; every area
    lies in a section; the vmemmap holds fresh entries for the sections. *)
Record boot_ready (b : boot) (e : early) (st : mm) : Prop := {
  br_count : 0 < mm_page_section_count b <= 255;
  br_length : length (mm_page_section_list b) = 255%nat;
  br_sections : sections_ok (boot_sections b);
  br_apart : not_adjacent (boot_sections b);
  br_zone : Forall one_zone (boot_sections b);
  br_fresh : Forall (fun s => bs_zone s = None) (boot_sections b);
  br_zones : zones st = boot_zones;
  br_early : early_ok e;
  br_areas : forall p i, p ∈ g_freepage_list e -> infos e !! p = Some i ->
    exists s, s ∈ boot_sections b /\ front (bs_range s) <= p /\ claim_end p i <= bs_end s;
  br_pages : forall s q, s ∈ boot_sections b -> bs_pfn s <= q < bs_pfn s + bs_pages s ->
    exists pg, pages st !! q = Some pg /\ state pg = PAGE_STATE_FREE_LIST_TAIL;
  br_end : forall s, s ∈ boot_sections b -> bs_pfn s + bs_pages s <= page_end st;
}.

Section handover.
Context (b : boot) (e : early) (st : mm) (Hb : boot_ready b e st).
Abbreviation L := (boot_sections b).

Lemma sections_ok_zoned : sections_ok (zoned <$> L).
Proof.
  destruct (br_sections _ _ _ Hb) as [H1 H2 H3 H4]. split.
  - intros i s Hs. rewrite list_lookup_fmap in Hs. apply fmap_Some in Hs as (x & Hx & ->). exact (H1 i x Hx).
  - intros i j s s' x Hs Hs'. rewrite list_lookup_fmap in Hs, Hs'. apply fmap_Some in Hs as (y & Hy & ->).
    apply fmap_Some in Hs' as (y' & Hy' & ->). exact (H2 i j y y' x Hy Hy').
  - intros i j s s' x Hs Hs'. rewrite list_lookup_fmap in Hs, Hs'. apply fmap_Some in Hs as (y & Hy & ->).
    apply fmap_Some in Hs' as (y' & Hy' & ->). exact (H3 i j y y' x Hy Hy').
  - etrans; [|exact H4]. generalize L as l. induction l as [|s l IH]; [done|]. rewrite !fmap_cons. cbn [sum_npages].
    change (npages (to_section (zoned s))) with (npages (to_section s)). lia.
Qed.

(** What holds of the sections of either stage. *)
Section stage.
Context (st0 : mm) (l : list boot_section) (Hl : sections_ok l) (Es : sections st0 = to_section <$> l).
Context (Esame : forall k s, l !! k = Some s -> exists x, L !! k = Some x /\ bs_range s = bs_range x /\ bs_pfn s = bs_pfn x).
Context (Esame' : forall k x, L !! k = Some x -> exists s, l !! k = Some s /\ bs_range s = bs_range x /\ bs_pfn s = bs_pfn x).
Lemma stage_section k s : sections st0 !! k = Some s -> exists x, L !! k = Some x /\ x ∈ L /\
  range_front s = front (bs_range x) /\ range_size s = size (bs_range x) /\ pfn s = bs_pfn x /\ npages s = bs_pages x.
Proof.
  intros Hs. rewrite Es in Hs. apply lookup_to_section in Hs as (y & Hy & ->). destruct (Esame k y Hy) as (x & Hx & E1 & E2).
  exists x. split; [done|]. split; [by eapply list_elem_of_lookup_2|]. unfold npages, bs_pages. simpl. by rewrite E1, E2.
Qed.
Lemma stage_npages k s : sections st0 !! k = Some s -> 0 < npages s.
Proof.
  intros Hs. destruct (stage_section k s Hs) as (x & Hx & _ & _ & _ & _ & ->). apply (so_place _ (br_sections _ _ _ Hb) k x Hx).
Qed.
Lemma stage_mapped k s q : pages st0 = pages st -> sections st0 !! k = Some s -> in_section s q ->
  exists pg, pages st0 !! q = Some pg /\ state pg = PAGE_STATE_FREE_LIST_TAIL.
Proof.
  intros Ep Hs Hq. destruct (stage_section k s Hs) as (x & _ & Hx & _ & _ & E1 & E2). rewrite Ep.
  apply (br_pages _ _ _ Hb x q Hx). unfold in_section in Hq. by rewrite E1, E2 in Hq.
Qed.
Lemma stage_home p i : p ∈ g_freepage_list e -> infos e !! p = Some i ->
  exists k s, sections st0 !! k = Some s /\ range_front s <= p /\ claim_end p i <= range_front s + range_size s.
Proof.
  intros Hp Hi. destruct (br_areas _ _ _ Hb p i Hp Hi) as (x & (k & Hx)%list_elem_of_lookup & H1 & H2).
  destruct (Esame' k x Hx) as (s & Hs & E1 & E2). exists k, (to_section s). simpl. rewrite E1.
  split; [by rewrite Es, list_lookup_fmap, Hs|]. split; [done|]. exact H2.
Qed.
Lemma stage_placed k s p : sections st0 !! k = Some s -> p ∈ g_freepage_list e -> placed s e p.
Proof.
  intros Hs Hp i Hi. destruct (stage_home p i Hp Hi) as (j & s' & Hs' & H1 & H2).
  destruct (sections_ranges l st0 Hl Es) as [_ Hpl].
  destruct (areas_range _ _ _ _ p (eo_areas e (br_early _ _ _ Hb)) Hp) as (i' & Hi' & Ht & _).
  rewrite Hi in Hi'. injection Hi' as <-. pose proof (area_claim p i Ht) as Hac.
  destruct (decide (k = j)) as [->|Hne]; [rewrite Hs in Hs'; injection Hs' as <-; by left|right].
  pose proof (stage_npages k s Hs) as Hn. pose proof (pp_whole st0 Hpl k s Hs) as Hw. change PAGE_SIZE with 4096 in Hw.
  destruct (Z.le_gt_cases (claim_end p i) (range_front s)) as [?|H3]; [by left|].
  destruct (Z.le_gt_cases (range_front s + range_size s) p) as [?|H4]; [by right|]. exfalso. apply Hne.
  apply (pp_apart st0 Hpl k j s s' (Z.max p (range_front s)) Hs Hs'); lia.
Qed.
Lemma stage_apart k j s s' q : sections st0 !! k = Some s -> sections st0 !! j = Some s' ->
  in_section s q -> in_section s' q -> k = j.
Proof.
  intros Hs Hs' Hq Hq'. destruct (stage_section k s Hs) as (x & Hx & _ & _ & _ & E1 & E2).
  destruct (stage_section j s' Hs') as (y & Hy & _ & _ & _ & E3 & E4). unfold in_section in *. rewrite E1, E2 in Hq. rewrite E3, E4 in Hq'.
  by apply (so_pfns _ (br_sections _ _ _ Hb) k j x y q).
Qed.
End stage.

(** The allocator before the areas are freed. *)
Lemma fresh_free st0 l k q : sections st0 = to_section <$> l -> ~ mm_free st0 k q.
Proof.
  intros Es (s & Hs & o & p & (Ho & fl & Hfl & Hp) & _). rewrite Es in Hs. apply lookup_to_section in Hs as (x & _ & ->).
  cbn [to_section freelist_list] in Hfl. apply lookup_replicate in Hfl as [-> _]. by apply elem_of_nil in Hp.
Qed.
Lemma fresh_section m (x : boot_section) : 0 <= bs_pages x <= 2 ^ 52 ->
  (forall q, in_section (to_section x) q -> is_Some (m !! q)) -> sec_wf m (to_section x).
Proof.
  intros Hn Hm. assert (forall o p, ~ block (to_section x) o p) as Hno.
  { intros o p (Ho & fl & Hfl & Hp). cbn [to_section freelist_list] in Hfl. apply lookup_replicate in Hfl as [-> _]. by apply elem_of_nil in Hp. }
  split; [split; [split| | |]| | | |]; try (intros o p ? H; by apply Hno in H) || (intros o p H; by apply Hno in H).
  - done.
  - intros k fl Hfl. cbn [to_section freelist_list] in Hfl. apply lookup_replicate in Hfl as [-> _]. constructor.
  - intros k fl Hfl. cbn [to_section freelist_list] in Hfl. by apply lookup_replicate in Hfl as [-> _].
  - intros o p o' p' q H. by apply Hno in H.
  - done.
  - done.
  - done.
  - done.
  - simpl. done.
Qed.
Lemma zone_sum_fresh z (l : list boot_section) : zone_sum z (to_section <$> l) = 0.
Proof. induction l as [|x l IH]; [done|]. rewrite fmap_cons. cbn [zone_sum]. rewrite IH. by case_decide. Qed.
Lemma phys_to_zone_lt x : (phys_to_zone x < 2)%nat.
Proof. unfold phys_to_zone, page_zone_low4g, page_zone_default. case_match; lia. Qed.

Lemma fresh_wf st0 zs : sections st0 = to_section <$> (zoned <$> L) ->
  (forall k s q, sections st0 !! k = Some s -> in_section s q -> is_Some (pages st0 !! q)) ->
  add_to_zones 0 (zoned <$> L) boot_zones = Ok zs -> zones st0 = zs -> mm_wf st0.
Proof.
  intros Es Hm Hz Ez. pose proof sections_ok_zoned as Hl.
  destruct (add_to_zones_ok (zoned <$> L) 0 boot_zones) as (zs' & Hz' & Elen & Hzs).
  { intros s (x & -> & Hx)%list_elem_of_fmap. exists (phys_to_zone (front (bs_range x))). split; [done|]. apply phys_to_zone_lt. }
  rewrite Hz in Hz'. injection Hz' as <-. rewrite <- Ez in Elen, Hzs. clear Hz. 
  assert (forall z zn, zones st0 !! z = Some zn -> zone_total_free zn = 0 /\
    (forall f, fallback_zone zn = Some f -> z = 0%nat /\ f = 1%nat)) as Hzone.
  { intros z zn Hzn. destruct (Hzs z zn Hzn) as (zn0 & H0 & -> & -> & _).
    destruct z as [|[|z]]; [injection H0 as <-; split; [done|]; by intros f [= <-]|injection H0 as <-; by split|done]. }
  split.
  - intros i s Hs. pose proof (Hm i s) as Hmi. specialize (fun q => Hmi q Hs). rewrite Es in Hs.
    apply lookup_to_section in Hs as (x & Hx & ->). apply fresh_section; [|done].
    destruct (so_place _ Hl i x Hx) as (_ & _ & _ & H4 & _ & H6 & H7). lia.
  - intros i j s s' q Hs Hs' Hq Hq'. rewrite Es in Hs, Hs'. apply lookup_to_section in Hs as (x & Hx & ->).
    apply lookup_to_section in Hs' as (y & Hy & ->). exact (so_pfns _ Hl i j x y q Hx Hy Hq Hq').
  - intros i s Hs. rewrite Es in Hs. apply lookup_to_section in Hs as (x & Hx & ->). rewrite list_lookup_fmap in Hx.
    apply fmap_Some in Hx as (y & Hy & ->). apply lookup_lt_is_Some. simpl. rewrite Elen. apply phys_to_zone_lt.
  - intros z zn i Hzn Hi. destruct (Hzs z zn Hzn) as (zn0 & H0 & _ & _ & Hj).
    destruct (Hj i Hi) as [Hin|(k & x & -> & Hx & Hxz)].
    + destruct z as [|[|z]]; [injection H0 as <-|injection H0 as <-|done]; by apply elem_of_nil in Hin.
    + exists (to_section x). rewrite Es, list_lookup_fmap. simpl. rewrite Hx. simpl. by rewrite Hxz.
  - intros z zn Hzn. rewrite Es, zone_sum_fresh. by apply Hzone in Hzn as [-> _].
  - rewrite Es. apply (so_total _ Hl).
  - intros z zn f Hzn Hf. rewrite Elen. apply Hzone in Hzn as [_ Hzn]. apply Hzn in Hf as [-> ->]. simpl. lia.
  - apply lookup_lt_is_Some. rewrite Elen. unfold page_zone_default. simpl. lia.
Qed.

(** The pages after marking and numbering. *)
Abbreviation secs0 := (to_section <$> L).
Abbreviation secs1 := (to_section <$> (zoned <$> L)).
Abbreviation F := (g_freepage_list e).
Lemma secs1_lookup k : secs1 !! k = to_section <$> (zoned <$> L !! k).
Proof. by rewrite !list_lookup_fmap. Qed.
(** Page [q] of section [k] is in an area. *)
Definition in_area_at (x : boot_section) (q : Z) : bool := free_inb F (infos e) (front (bs_range x) + PAGE_SIZE * (q - bs_pfn x)).
Lemma area_of_at s x q : range_front s = front (bs_range x) -> pfn s = bs_pfn x -> npages s = bs_pages x ->
  bs_pfn x <= q < bs_pfn x + bs_pages x -> area_of e s q = in_area_at x q /\ crucial_of e s q = negb (in_area_at x q).
Proof.
  intros E1 E2 E3 Hq. unfold area_of, area_page_of, crucial_of, crucial_in, in_area_at, phys_of, between. rewrite E1, E2, E3.
  rewrite (proj2 (Z.leb_le _ _)), (proj2 (Z.ltb_lt _ _)) by lia. done.
Qed.
Lemma outside_at s x q : pfn s = bs_pfn x -> npages s = bs_pages x -> ~ bs_pfn x <= q < bs_pfn x + bs_pages x ->
  area_of e s q = false /\ crucial_of e s q = false.
Proof.
  intros E2 E3 Hq. unfold area_of, area_page_of, crucial_of, crucial_in, between. rewrite E2, E3.
  destruct (Z.leb_spec (bs_pfn x) q), (Z.ltb_spec q (bs_pfn x + bs_pages x)); simpl; done || lia.
Qed.
Lemma only_section k j x y q : L !! k = Some x -> L !! j = Some y -> bs_pfn x <= q < bs_pfn x + bs_pages x -> k <> j ->
  ~ bs_pfn y <= q < bs_pfn y + bs_pages y.
Proof. intros Hx Hy Hq Hne Hq'. apply Hne. exact (so_pfns _ (br_sections _ _ _ Hb) k j x y q Hx Hy Hq Hq'). Qed.
Lemma crucial_at k x q : L !! k = Some x -> bs_pfn x <= q < bs_pfn x + bs_pages x ->
  existsb (fun s => crucial_of e s q) secs0 = negb (in_area_at x q).
Proof.
  intros Hx Hq. apply eq_bool_prop_intro. rewrite !Is_true_true, existsb_exists. split.
  - intros (s & Hs & Hc). apply list_elem_of_In, list_elem_of_fmap in Hs as (y & -> & (j & Hy)%list_elem_of_lookup).
    destruct (decide (k = j)) as [->|Hne].
    + rewrite Hx in Hy. injection Hy as <-. by destruct (area_of_at (to_section x) x q) as [_ <-].
    + pose proof (only_section k j x y q Hx Hy Hq Hne) as Hno. by destruct (outside_at (to_section y) y q eq_refl eq_refl Hno) as [_ E]; rewrite E in Hc.
  - intros H. exists (to_section x). split; [apply list_elem_of_In, list_elem_of_fmap; exists x; split; [done|by eapply list_elem_of_lookup_2]|].
    by destruct (area_of_at (to_section x) x q) as [_ ->].
Qed.
Lemma numbered_at k x q st1 st2 : L !! k = Some x -> bs_pfn x <= q < bs_pfn x + bs_pages x -> numbered e 0 secs1 st1 st2 ->
  pages st2 !! q = if in_area_at x q then with_section k <$> (pages st1 !! q) else pages st1 !! q.
Proof.
  intros Hx Hq (m & -> & N1 & N2). simpl. assert (secs1 !! k = Some (to_section (zoned x))) as Hk by (by rewrite secs1_lookup, Hx).
  destruct (area_of_at (to_section (zoned x)) x q) as [E _]; [done..|]. destruct (in_area_at x q).
  - by rewrite (N2 k _ q Hk E).
  - apply N1. intros s (j & Hs)%list_elem_of_lookup. rewrite secs1_lookup in Hs. destruct (L !! j) as [y|] eqn:Hy; [|done].
    injection Hs as <-. destruct (decide (k = j)) as [->|Hne].
    + rewrite Hx in Hy. injection Hy as <-. done.
    + by apply (outside_at (to_section (zoned y)) y q); [..|apply (only_section k j x y q)].
Qed.

(** *** The stages one after the other *)
Lemma same_stage0 k s : L !! k = Some s -> exists x, L !! k = Some x /\ bs_range s = bs_range x /\ bs_pfn s = bs_pfn x.
Proof. intros Hs. by exists s. Qed.
Lemma same_stage0' k x : L !! k = Some x -> exists s, L !! k = Some s /\ bs_range s = bs_range x /\ bs_pfn s = bs_pfn x.
Proof. intros Hx. by exists x. Qed.
Lemma same_stage1 k s : (zoned <$> L) !! k = Some s -> exists x, L !! k = Some x /\ bs_range s = bs_range x /\ bs_pfn s = bs_pfn x.
Proof. rewrite list_lookup_fmap. intros (x & Hx & ->)%fmap_Some. by exists x. Qed.
Lemma same_stage1' k x : L !! k = Some x -> exists s, (zoned <$> L) !! k = Some s /\ bs_range s = bs_range x /\ bs_pfn s = bs_pfn x.
Proof. intros Hx. exists (zoned x). by rewrite list_lookup_fmap, Hx. Qed.

Lemma marked_stage : exists st1, mark_all (sections (with_boot b st)) e (with_boot b st) = Ok st1 /\
  changed crucial (fun q => existsb (fun s => crucial_of e s q) secs0) (with_boot b st) st1.
Proof.
  pose proof (br_sections _ _ _ Hb) as Hl. pose proof (sections_ranges L (with_boot b st) Hl eq_refl) as [Hr Hp].
  destruct (mark_all_ok (with_boot b st) e Hr Hp (br_early _ _ _ Hb)) with (l := secs0) (st := with_boot b st)
    as (st1 & H1 & C & _).
  - intros k s. by apply (stage_npages (with_boot b st) L eq_refl same_stage0).
  - intros k s q Hs Hq. destruct (stage_mapped (with_boot b st) L eq_refl same_stage0 k s q eq_refl Hs Hq) as (pg & -> & _). by eexists.
  - intros k s p. by apply (stage_placed (with_boot b st) L Hl eq_refl same_stage0 same_stage0').
  - by intros s (k & Hk)%list_elem_of_lookup; exists k.
  - by split.
  - by exists st1.
Qed.
Lemma numbered_stage st2 : sections st2 = secs1 -> page_end st2 = page_end st ->
  (forall q, is_Some (pages st !! q) -> is_Some (pages st2 !! q)) ->
  exists st3, set_section_numbers secs1 0 e st2 = Ok st3 /\ numbered e 0 secs1 st2 st3.
Proof.
  intros Es Epe Hm. pose proof sections_ok_zoned as Hl. pose proof (sections_ranges (zoned <$> L) st2 Hl Es) as [Hr Hp].
  pose proof (stage_section st2 _ Es same_stage1) as Hsec.
  destruct (set_section_numbers_ok st2 e Hr Hp (br_early _ _ _ Hb)) with (l := secs1) (n := 0%nat) (st := st2)
    as (st3 & H1 & C & _).
  - intros k s. by apply (stage_npages st2 _ Es same_stage1).
  - intros k s q Hs Hq. destruct (Hsec k s Hs) as (x & _ & Hx & _ & _ & E1 & E2). apply Hm.
    destruct (br_pages _ _ _ Hb x q Hx) as (pg & -> & _); [unfold in_section in Hq; by rewrite E1, E2 in Hq|by eexists].
  - intros k s p. by apply (stage_placed st2 _ Hl Es same_stage1 same_stage1').
  - intros s (k & Hk)%list_elem_of_lookup. exists k. by rewrite Es.
  - intros i j s s' q Hi Hj. rewrite <- Es in Hi, Hj. by apply (stage_apart st2 _ Es same_stage1 i j s s' q).
  - intros s (k & Hk)%list_elem_of_lookup. rewrite <- Es in Hk. destruct (Hsec k s Hk) as (x & _ & Hx & _ & _ & -> & ->).
    rewrite Epe. by apply (br_end _ _ _ Hb).
  - by split.
  - rewrite !length_fmap. unfold boot_sections. rewrite length_take. pose proof (br_count _ _ _ Hb). lia.
  - by exists st3.
Qed.

(** What is in the pages before the areas are freed. *)
Lemma page_before k x q st1 st2 st3 : L !! k = Some x -> bs_pfn x <= q < bs_pfn x + bs_pages x ->
  changed crucial (fun q => existsb (fun s => crucial_of e s q) secs0) (with_boot b st) st1 -> pages st2 = pages st1 ->
  numbered e 0 secs1 st2 st3 -> exists pg, pages st3 !! q = Some pg /\
  if in_area_at x q then state pg = PAGE_STATE_FREE_LIST_TAIL /\ PageAlloc.section pg = k else state pg = PAGE_STATE_SYSTEM_CRUCIAL.
Proof.
  intros Hx Hq (m & -> & Hm) E2 N. rewrite (numbered_at k x q st2 st3 Hx Hq N), E2. simpl.
  rewrite Hm, (crucial_at k x q Hx Hq). simpl.
  destruct (br_pages _ _ _ Hb x q) as (pg & -> & Est); [by eapply list_elem_of_lookup_2|done|].
  destruct (in_area_at x q); simpl; eexists; done.
Qed.

Lemma handover_ok : exists b' e' st', mm_early_post_arch_init b e st = Ok (g_total_free_pages_remaining e, b', e', st') /\
  boot_sections b' = zoned <$> L /\ g_freepage_list e' = [] /\ mm_wf st' /\ place <$> sections st' = place <$> secs1 /\
  forall k x q, L !! k = Some x -> bs_pfn x <= q < bs_pfn x + bs_pages x ->
    (mm_free st' k q <-> in_area_at x q = true) /\
    (in_area_at x q = false -> exists pg, pages st' !! q = Some pg /\ state pg = PAGE_STATE_SYSTEM_CRUCIAL).
Proof.
  pose proof (br_count _ _ _ Hb) as Hc. pose proof (br_length _ _ _ Hb) as Hlen. pose proof (br_sections _ _ _ Hb) as Hl.
  unfold mm_early_post_arch_init. destruct marked_stage as (st1 & -> & C1). rewrite outcome_bind_ok.
  rewrite (merge_nothing b Hl (br_apart _ _ _ Hb)), outcome_bind_ok by lia.
  destruct (split_nothing b Hl (br_zone _ _ _ Hb) (br_fresh _ _ _ Hb)) as (b' & Hb' & Es & Ec & Elen); [lia|lia|].
  rewrite Hb', outcome_bind_ok. rewrite <- Ec. fold (boot_sections b'). unfold setup_zone_section_list, with_boot at 1 2. rewrite Es.
  assert (zones st1 = boot_zones) as Ez by (destruct C1 as (m & -> & _); apply (br_zones _ _ _ Hb)).
  cbn [set_sections zones]. rewrite Ez.
  destruct (add_to_zones_ok (zoned <$> L) 0 boot_zones) as (zs & Hzs & _ & _).
  { intros s (x & -> & Hx)%list_elem_of_fmap. exists (phys_to_zone (front (bs_range x))). split; [done|]. apply phys_to_zone_lt. }
  rewrite Hzs, !outcome_bind_ok. set (st2 := set_zones zs _).
  destruct (numbered_stage st2) as (st3 & -> & N); [done|by destruct (changed_sections _ _ _ _ C1)| |].
  { intros q Hq. by apply (changed_mapped _ _ _ _ _ C1). }
  rewrite outcome_bind_ok. pose proof N as (m3 & E3 & _).
  assert (sections st3 = secs1) as Es3 by (by rewrite E3).
  pose proof sections_ok_zoned as Hlz. destruct (sections_ranges _ st3 Hlz Es3) as [Hr3 Hp3].
  pose proof (fun k x q H1 H2 => page_before k x q st1 st2 st3 H1 H2 C1 eq_refl N) as Hpage.
  assert (mm_wf st3) as Hwf3.
  { apply (fresh_wf st3 zs Es3); [|done|by rewrite E3]. intros k s q Hs Hq.
    destruct (stage_section st3 _ Es3 same_stage1 k s Hs) as (x & Hx & _ & _ & _ & E4 & E5).
    destruct (Hpage k x q Hx) as (pg & -> & _); [unfold in_section in Hq; by rewrite E4, E5 in Hq|by eexists]. }
  destruct (free_all_pages_ok e st3 (br_early _ _ _ Hb) Hwf3 Hr3 Hp3) as (e' & st' & -> & F1 & F2 & F3 & F4).
  { split.
    - intros p i Hp Hi. destruct (stage_home st3 _ Es3 same_stage1' p i Hp Hi) as (k & s & Hs & H1 & H2). exists k, s.
      split; [done|]. split; [done|]. destruct (areas_range _ _ _ _ p (eo_areas e (br_early _ _ _ Hb)) Hp) as (i' & Hi' & Ht & _).
      rewrite Hi in Hi'. injection Hi' as <-. pose proof (area_claim p i Ht). lia.
    - intros k s q Hs Hq Hf. split; [by eapply fresh_free|].
      destruct (stage_section st3 _ Es3 same_stage1 k s Hs) as (x & Hx & _ & E6 & _ & E4 & E5).
      destruct (Hpage k x q Hx) as (pg & Hpg & Hin); [unfold in_section in Hq; by rewrite E4, E5 in Hq|].
      apply free_inb_iff in Hf. unfold phys_of in Hf. rewrite E6, E4 in Hf. unfold in_area_at in Hin. rewrite Hf in Hin. by exists pg. }
  rewrite outcome_bind_ok. exists b', e', st'. split; [done|]. split; [done|]. split; [done|]. split; [done|]. split.
  { injection F3 as -> _ _. by rewrite Es3. }
  intros k x q Hx Hq. assert (sections st3 !! k = Some (to_section (zoned x))) as Hk by (by rewrite Es3, secs1_lookup, Hx).
  destruct (F4 k _ q Hk Hq) as [G1 G2]. unfold early_free in G1, G2. rewrite <- free_inb_iff in G1, G2.
  change (free_inb _ _ (phys_of _ q)) with (in_area_at x q) in G1, G2.
  pose proof (fresh_free st3 _ k q Es3) as Hno. split; [tauto|].
  intros Hout. destruct (Hpage k x q Hx Hq) as (pg & Hpg & Hst). rewrite Hout in Hst. exists pg. split; [|done].
  rewrite G2; [done|]. by rewrite Hout.
Qed.
End handover.
