(* ===== verification/EarlyThms.v ===== *)
(** * Theorems about the early allocator and the boot-time memory set-up *)
From S2P Require Import Prelude CArith Range PageAlloc PageBlocks PageAllocInv Walker PgAlloc AddrSpaceInv Early EarlyInv EarlyFree EarlyMark Boot BootInv BootStages BootMap BootThms.

(** ** The memory map *)


(** C31: after [boot_init] and [mm_early_init] the early allocator is in a
    well-formed state, its free memory is exactly the memory of the sections,
    and the counts are the number of their pages. *)
Theorem mm_early_init_spec entries : Forall entry_ok entries -> orderly 0 0 entries -> (length entries <= MAX_MEMMAPS)%nat ->
  exists b e, boot_init entries = Ok b /\
  let n := usable_pages (mm_memmap_list b) in
  mm_early_init (mm_memmap_list b) early_init = Ok (n, e) /\ early_ok e /\
  (forall x, early_free e x <-> exists s, s ∈ boot_sections b /\ x ∈ bs_range s) /\
  g_total_free_pages e = n /\ g_total_free_pages_remaining e = n.
Proof.
  intros Hok Hord Hlen. destruct (boot_init_ok entries Hok Hord Hlen) as (b & Hb & Ha & _ & Hm & Es & _). exists b.
  destruct (claim_usable_ok (mm_memmap_list b) 0 (2 ^ 48) 0 early_init Ha) as (e & He & H1 & H2 & H3 & H4); try done.
  - apply Forall_forall. intros m Hin. destruct (Hm m Hin) as (en & Hen & -> & _).
    destruct (proj1 (Forall_forall _ _) Hok en Hen) as (_ & _ & _ & ?). lia.
  - exists e. split; [done|]. cbn zeta. split; [exact He|]. split; [done|]. split; [|done].
    intros x. rewrite H2, Es, <- usable_at_sections. split; [|by right].
    intros [F|?]; [by apply free_in_nil in F|done].
Qed.
Lemma mm_early_init_spec_witness :
  let entries := [{| base := 8192; length_ := 16384; type_ := 0 |}; {| base := 16384; length_ := 12288; type_ := 1 |}] in
  exists b e, boot_init entries = Ok b /\
  let n := usable_pages (mm_memmap_list b) in
  mm_early_init (mm_memmap_list b) early_init = Ok (n, e) /\ early_ok e /\
  (forall x, early_free e x <-> exists s, s ∈ boot_sections b /\ x ∈ bs_range s) /\
  g_total_free_pages e = n /\ g_total_free_pages_remaining e = n.
Proof.
  intros entries. apply mm_early_init_spec.
  - repeat (apply Forall_cons_2; [split_and!; by vm_compute|]). apply Forall_nil_2.
  - by vm_compute.
  - vm_compute. lia.
Defined.

(** ** Allocating *)

(** A state that both allocation functions can work on. *)
Definition sample_early : early :=
  {| g_freepage_list := [8192; 65536]; g_asc_freelist := [8192; 65536];
     infos := {[ 8192 := with_counts 3 3; 65536 := with_counts 40 40 ]};
     g_total_free_pages := 43; g_total_free_pages_remaining := 43 |}.
Lemma sample_early_ok : early_ok sample_early.
Proof.
  split; [|done|done]. change ADDR_MAX with 4503599627370496. cbn [areas sample_early g_freepage_list infos].
  split; [lia|]. split; [by exists 2|]. exists (with_counts 3 3). split; [done|]. split; [cbn; lia|].
  split; [vm_compute; discriminate|]. split; [by exists 16|]. exists (with_counts 40 40). split; [done|]. split; [cbn; lia|].
  vm_compute. discriminate.
Qed.

(** [early_alloc_page] fails exactly when no area is left, and otherwise
    returns an aligned page that was free; afterwards the state is well-formed
    and the free memory is what it was without that page. *)
Theorem early_alloc_page_spec e : early_ok e ->
  exists r e', early_alloc_page e = Ok (r, e') /\
  ((g_freepage_list e = [] /\ r = INVALID_PHYS /\ e' = e) \/
   ((PAGE_SIZE | r) /\ 0 <= r < ADDR_MAX /\ taken r 1 e e')).
Proof. exact (early_alloc_page_ok e). Qed.
Lemma early_alloc_page_spec_witness : exists r e', early_alloc_page sample_early = Ok (r, e') /\
  ((g_freepage_list sample_early = [] /\ r = INVALID_PHYS /\ e' = sample_early) \/
   ((PAGE_SIZE | r) /\ 0 <= r < ADDR_MAX /\ taken r 1 sample_early e')).
Proof. apply early_alloc_page_spec. exact sample_early_ok. Defined.

(** [early_alloc_large_page] of a power of two of pages fails exactly when
    no area has an aligned block of that size, and otherwise returns such a
    block of free memory; what the area had before and behind the block stays
    free, and the state stays well-formed. *)
Theorem early_alloc_large_page_spec e o : early_ok e -> 0 <= o < 20 ->
  exists r e', early_alloc_large_page (2 ^ o) e = Ok (r, e') /\
  ((r = INVALID_PHYS /\ e' = e /\
    forall p i a, p ∈ g_freepage_list e -> infos e !! p = Some i -> ~ aligned_block (2 ^ o) p i a) \/
   ((PAGE_SIZE * 2 ^ o | r) /\ 0 <= r < ADDR_MAX /\ taken r (2 ^ o) e e')).
Proof. exact (early_alloc_large_page_ok e o). Qed.
Lemma early_alloc_large_page_spec_witness : exists r e', early_alloc_large_page (2 ^ 4) sample_early = Ok (r, e') /\
  ((r = INVALID_PHYS /\ e' = sample_early /\
    forall p i a, p ∈ g_freepage_list sample_early -> infos sample_early !! p = Some i -> ~ aligned_block (2 ^ 4) p i a) \/
   ((PAGE_SIZE * 2 ^ 4 | r) /\ 0 <= r < ADDR_MAX /\ taken r (2 ^ 4) sample_early e')).
Proof. apply early_alloc_large_page_spec; [exact sample_early_ok|lia]. Defined.
(** The block is taken out of the middle of the second area. *)
Example early_alloc_large_page_middle : exists e', early_alloc_large_page 16 sample_early = Ok (131072, e') /\
  g_freepage_list e' = [8192; 65536; 196608].
Proof. eexists. vm_compute. done. Qed.

(** ** Handing the memory over *)


(** A section of four pages of which the last is taken. *)
Definition sample_section : boot_section := page_section_init None (RANGE_INIT 1048576 16384) 0.
Definition sample_boot : boot :=
  {| mm_memmap_list := [{| mm_range := RANGE_INIT 1048576 16384; kind := MM_MEMMAP_KIND_USABLE |}];
     mm_page_section_list := sample_section :: replicate 254 no_section;
     mm_page_section_count := 1; section_mask := 0 |}.
Definition sample_left : early :=
  {| g_freepage_list := [1048576]; g_asc_freelist := [1048576]; infos := {[ 1048576 := with_counts 3 4 ]};
     g_total_free_pages := 4; g_total_free_pages_remaining := 3 |}.
Definition fresh_page : page := {| flags := 0; state := PAGE_STATE_FREE_LIST_TAIL; PageAlloc.section := 0; data := Freelist_tail 0 |}.
Definition sample_vmemmap : mm :=
  {| pages := list_to_map ((fun q => (q, fresh_page)) <$> seqZ 0 4); frames := ∅; sections := []; zones := boot_zones; page_end := 4 |}.
Lemma sample_boot_sections : boot_sections sample_boot = [sample_section].
Proof. reflexivity. Qed.
Lemma sample_ready : boot_ready sample_boot sample_left sample_vmemmap.
Proof.
  assert (forall i s, [sample_section] !! i = Some s -> i = 0%nat /\ s = sample_section) as H1.
  { intros [|i] s; [by intros [= <-]|done]. }
  assert (forall s, s ∈ [sample_section] -> s = sample_section) as H2 by (intros s; apply list_elem_of_singleton).
  assert (bs_pages sample_section = 4) as E1 by reflexivity. assert (bs_end sample_section = 1064960) as E2 by reflexivity.
  split; try rewrite sample_boot_sections.
  - simpl. lia.
  - reflexivity.
  - split.
    + intros i s [-> ->]%H1. rewrite E1, E2. simpl. change PAGE_SIZE with 4096. split_and!; try lia. by exists 256.
    + intros i j s s' x [-> _]%H1 [-> _]%H1 _ _. done.
    + intros i j s s' x [-> _]%H1 [-> _]%H1 _ _. done.
    + by vm_compute.
  - intros [|i] s s' _ Hs'; [done|done].
  - by apply Forall_singleton.
  - by apply Forall_singleton.
  - reflexivity.
  - split; [|done|done]. change ADDR_MAX with 4503599627370496. cbn [areas sample_left g_freepage_list infos].
    split; [lia|]. split; [by exists 256|]. exists (with_counts 3 4). split; [done|]. split; [cbn; lia|]. vm_compute. discriminate.
  - intros p i ->%list_elem_of_singleton Hi. vm_compute in Hi. injection Hi as <-.
    exists sample_section. split; [by left|]. vm_compute. split; discriminate.
  - intros s q ->%H2 Hq. rewrite E1 in Hq. simpl in Hq. exists fresh_page. split; [|done].
    assert (q = 0 \/ q = 1 \/ q = 2 \/ q = 3) as [->|[->|[->| ->]]] by lia; reflexivity.
  - intros s ->%H2. rewrite E1. simpl. lia.
Qed.

(** ** Where the code does something else *)

(** A claim below an adjoining area merges them, but leaves the upper area's
    info on the second list: its pages are handed out twice. *)
Example claim_below_gives_pages_twice :
  (e ← claim_pages (RANGE_INIT 2097152 65536) early_init; e ← claim_pages (RANGE_INIT 2031616 65536) e;
   '(a, e) ← early_alloc_large_page 8 e; '(b, _) ← early_alloc_large_page 16 e; Ok (a, b)) = Ok (2129920, 2097152).
Proof. vm_compute. reflexivity. Qed.

(** [range_from_loc] fails for an entry that ends where the last one ends but
    starts before it. *)
Example boot_init_rejects_overlap :
  boot_init [{| base := 0; length_ := 8192; type_ := 1 |}; {| base := 4096; length_ := 12288; type_ := 1 |};
             {| base := 4096; length_ := 12288; type_ := 1 |}] = Panic.
Proof. vm_compute. reflexivity. Qed.

(** Two adjoining memory maps: the area that was merged from them ends behind
    the first section, and marking its pages runs past the vmemmap's entries
    of both sections. *)
Definition adjoining : list limine_memmap_entry :=
  [{| base := 0; length_ := 8192; type_ := 0 |}; {| base := 8192; length_ := 8192; type_ := 0 |}].
Example adjoining_sections_overrun :
  (b ← boot_init adjoining; '(_, e) ← mm_early_init (mm_memmap_list b) early_init;
   mm_early_post_arch_init b e sample_vmemmap;; Ok tt) = Undef.
Proof. vm_compute. reflexivity. Qed.

(** A section that crosses the boundary is split at 4 GiB, but the upper part
    keeps the zone of the lower one. *)
Example split_keeps_the_zone :
  (b ← boot_init [{| base := gib 4 - 8192; length_ := 16384; type_ := 0 |}]; b ← split_sections_for_zones b;
   Ok (map (fun s => (front (bs_range s), bs_pfn s, bs_zone s)) (boot_sections b))) =
  Ok [(gib 4 - 8192, 0, Some page_zone_low4g); (gib 4, 2, Some page_zone_low4g)].
Proof. vm_compute. reflexivity. Qed.
