(* ===== verification/Slab.v ===== *)
(** * Object slabs and kmalloc: kernel/mm/slab.c and kmalloc.c

    A slab is a block of pages from the page allocator, cut into objects of
    one size; a free object holds the index of the next free one.  A pointer
    into the direct map is written [PAGE_SIZE * page + offset] for the page
    frame it points into: the direct map and the frames of a section are both
    contiguous, so that pointer arithmetic within a slab is the same, and
    [page_to_virt] and [virt_to_page] become [frame_addr] and [addr_frame].
    The allocator's list of slabs is the sequence it holds.  The lock is left
    out. *)
From S2P Require Import Prelude CArith PageAlloc.

(** ** Memory *)
Definition frame_addr (page : Z) : Z := PAGE_SIZE * page.
Definition addr_frame (mem : Z) : Z := mem / PAGE_SIZE.

(** The 64-bit word that holds an address, and the 32 bits at the address. *)
Definition word_index (addr : Z) : Z := addr `mod` PAGE_SIZE / 8.
Definition load32 (addr : Z) (st : mm) : outcome Z :=
  entries ← deref (frames st !! addr_frame addr);
  w ← nth_entry entries (word_index addr);
  Ok (u32 (Z.shiftr w (8 * (addr `mod` 8)))).
Definition store32 (addr value : Z) (st : mm) : outcome mm :=
  entries ← deref (frames st !! addr_frame addr);
  w ← nth_entry entries (word_index addr);
  let shift := 8 * (addr `mod` 8) in
  let w := Z.lor (Z.ldiff w (Z.shiftl UINT32_MAX shift)) (Z.shiftl value shift) in
  entries ← set_entry (word_index addr) w entries;
  Ok (set_frames (<[addr_frame addr := entries]> (frames st)) st).

(** [bzero] and [memcpy] of kernel/stdlib.c on whole words. *)
Definition store64 (addr value : Z) (st : mm) : outcome mm :=
  entries ← deref (frames st !! addr_frame addr);
  entries ← set_entry (word_index addr) value entries;
  Ok (set_frames (<[addr_frame addr := entries]> (frames st)) st).
Definition load64 (addr : Z) (st : mm) : outcome Z :=
  entries ← deref (frames st !! addr_frame addr); nth_entry entries (word_index addr).
Fixpoint zero_words (n : nat) (addr : Z) (st : mm) : outcome mm :=
  match n with
  | O => Ok st
  | S n => st ← store64 addr 0 st; zero_words n (addr + 8) st
  end.
Definition bzero_words (mem size : Z) (st : mm) : outcome mm := zero_words (Z.to_nat (size / 8)) mem st.
Fixpoint copy_words (n : nat) (dst src : Z) (st : mm) : outcome mm :=
  match n with
  | O => Ok st
  | S n => w ← load64 src st; st ← store64 dst w st; copy_words n (dst + 8) (src + 8) st
  end.
Definition memcpy_words (dst src size : Z) (st : mm) : outcome mm :=
  copy_words (Z.to_nat (size / 8)) dst src st.

(** ** kernel/mm/slab.h *)
Record slab_allocator := {
  slab_head_list : list Z;
  object_size : Z;
  object_count_per_slab : Z;
  sa_alloc_flags : Z;
  slab_order : Z;
  sa_flags : Z;
  free_obj_count : Z;
  slab_count : Z
}.

(** The page allocator, the slab allocators (a pointer to one of these is its
    index) and the flag of kmalloc.c. *)
Record heap := {
  hp_mm : mm;
  allocators : list slab_allocator;
  kmalloc_is_initialized : bool
}.

Definition set_mm (st : mm) (h : heap) : heap :=
  {| hp_mm := st; allocators := allocators h;
     kmalloc_is_initialized := kmalloc_is_initialized h |}.
Definition with_slabs (l : list Z) (a : slab_allocator) : slab_allocator :=
  {| slab_head_list := l; object_size := object_size a;
     object_count_per_slab := object_count_per_slab a; sa_alloc_flags := sa_alloc_flags a;
     slab_order := slab_order a; sa_flags := sa_flags a; free_obj_count := free_obj_count a;
     slab_count := slab_count a |}.
Definition with_counts (objs slabs : Z) (a : slab_allocator) : slab_allocator :=
  {| slab_head_list := slab_head_list a; object_size := object_size a;
     object_count_per_slab := object_count_per_slab a; sa_alloc_flags := sa_alloc_flags a;
     slab_order := slab_order a; sa_flags := sa_flags a; free_obj_count := u32 objs;
     slab_count := u32 slabs |}.
Definition get_allocator (ai : nat) (h : heap) : outcome slab_allocator :=
  deref (allocators h !! ai).
Definition set_allocator (ai : nat) (a : slab_allocator) (h : heap) : heap :=
  {| hp_mm := hp_mm h; allocators := <[ai := a]> (allocators h);
     kmalloc_is_initialized := kmalloc_is_initialized h |}.

(** ** slab_allocator_init *)
Definition MIN_OBJ_PER_SLAB : Z := 4.

Fixpoint init_order (fuel : nat) (order min_size_for_slab : Z) : outcome Z :=
  if Z.shiftl PAGE_SIZE order <? min_size_for_slab then
    match fuel with
    | O => OutOfFuel
    | S fuel => init_order fuel (order + 1) min_size_for_slab
    end
  else Ok order.

(** [None] is the answer [false]; [slab_count] is not initialised. *)
Definition slab_allocator_init (a : slab_allocator) (object_size_arg alloc_flags flags : Z) :
    outcome (option slab_allocator) :=
  r ← align_up object_size_arg 16;
  match r with
  | None => Ok None
  | Some object_size =>
      order ← init_order 32 0 (object_size * MIN_OBJ_PER_SLAB);
      Ok (Some {| slab_head_list := [];
                  object_size := u32 object_size;
                  object_count_per_slab := u32 (Z.shiftl PAGE_SIZE order / object_size);
                  sa_alloc_flags := alloc_flags;
                  slab_order := order;
                  sa_flags := flags;
                  free_obj_count := 0;
                  slab_count := slab_count a |})
  end.

(** ** The slab union of [struct page] *)
Definition slab_head (p : Z) (st : mm) : outcome (nat * Z * Z) :=
  pg ← get_page p st;
  match data pg with
  | Slab_head (Some a) (Some count) (Some first) => Ok (a, count, first)
  | _ => Undef
  end.
Definition set_slab_head (p : Z) (a : nat) (count first : Z) (st : mm) : outcome mm :=
  page_set_data p (Slab_head (Some a) (Some count) (Some first)) st.
(** [page->slab.allocator], which heads and tails share *)
Definition page_slab_allocator (p : Z) (st : mm) : outcome nat :=
  pg ← get_page p st;
  match data pg with
  | Slab_head a _ _ | Slab_tail a _ => deref a
  | _ => Undef
  end.
Definition set_tail_allocator (a : nat) (p : Z) (st : mm) : outcome mm :=
  pg ← get_page p st;
  match data pg with
  | Slab_tail _ h => page_set_data p (Slab_tail (Some a) h) st
  | _ => Undef
  end.

(** ** alloc_slab_page *)

(** Links the objects from [i] to the last one, [n] steps away. *)
Fixpoint link_objects (n : nat) (i object_byte_index object_size page_virt : Z) (st : mm) :
    outcome mm :=
  match n with
  | O => store32 (page_virt + object_byte_index) UINT32_MAX st
  | S n =>
      st ← store32 (page_virt + object_byte_index) (i + 1) st;
      link_objects n (i + 1) (object_byte_index + object_size) object_size page_virt st
  end.

Definition alloc_slab_page (lock : lock_oracle) (ai : nat) (h : heap) :
    outcome (option Z * heap) :=
  a ← get_allocator ai h;
  '(head, st) ← alloc_pages lock PAGE_STATE_SLAB_HEAD 1 (slab_order a) (hp_mm h);
  match head with
  | None => Ok (None, set_mm st h)
  | Some head =>
      let end_ := head + (2 ^ slab_order a - 1) in
      st ← for_pages (Z.to_nat (end_ - (head + 1))) (head + 1) (set_tail_allocator ai) st;
      let a := with_slabs (head :: slab_head_list a) a in
      st ← set_slab_head head ai (object_count_per_slab a) 0 st;
      let a := with_counts (free_obj_count a + object_count_per_slab a) (slab_count a + 1) a in
      st ← link_objects (Z.to_nat (u32 (object_count_per_slab a - 1))) 0 0 (object_size a)
             (frame_addr head) st;
      Ok (Some head, set_allocator ai a (set_mm st h))
  end.

(** ** slab_alloc, slab_free *)
Definition get_free_index (page free_object : Z) (a : slab_allocator) : outcome Z :=
  if object_size a =? 0 then Undef
  else Ok ((free_object - frame_addr page) / object_size a).

Definition get_free_ptr (page first_free_index : Z) (a : slab_allocator) : outcome (option Z) :=
  if first_free_index =? UINT32_MAX then Ok None
  else
    byte_index ← check_mul_assert 32 first_free_index (object_size a);
    Ok (Some (frame_addr page + byte_index)).

(** [list_delete] of a slab; one that is in no list has no meaning here. *)
Definition slab_list_delete (page : Z) (a : slab_allocator) : outcome slab_allocator :=
  if decide (page ∈ slab_head_list a)
  then Ok (with_slabs (list_difference (slab_head_list a) [page]) a) else Undef.

(** [slab_alloc] once it has a slab with a free object. *)
Definition slab_take_object (ai : nat) (page : Z) (h : heap) : outcome (option Z * heap) :=
  a ← get_allocator ai h;
  let a := with_counts (free_obj_count a - 1) (slab_count a) a in
  '(owner, count, first) ← slab_head page (hp_mm h);
  let count := u32 (count - 1) in
  a ← (if count =? 0 then slab_list_delete page a else Ok a);
  result ← get_free_ptr page first a;
  first ← (match result with
           | Some obj => load32 obj (hp_mm h)
           | None => Ok UINT32_MAX
           end);
  st ← set_slab_head page owner count first (hp_mm h);
  Ok (result, set_allocator ai a (set_mm st h)).

Definition slab_alloc (lock : lock_oracle) (ai : nat) (h : heap) : outcome (option Z * heap) :=
  a ← get_allocator ai h;
  match slab_head_list a with
  | [] =>
      '(page, h) ← alloc_slab_page lock ai h;
      match page with
      | None => Ok (None, h)
      | Some page => slab_take_object ai page h
      end
  | page :: _ => slab_take_object ai page h
  end.

Definition slab_head_of (mem : Z) (st : mm) : outcome Z :=
  let page := addr_frame mem in
  s ← page_get_state page st;
  if decide (s = PAGE_STATE_SLAB_HEAD) then Ok page
  else
    pg ← get_page page st;
    match data pg with Slab_tail _ head => Ok head | _ => Undef end.

Definition slab_free (mem : Z) (h : heap) : outcome heap :=
  head ← slab_head_of mem (hp_mm h);
  ai ← page_slab_allocator head (hp_mm h);
  a ← get_allocator ai h;
  st ← bzero_words mem (object_size a) (hp_mm h);
  let a := with_counts (free_obj_count a + 1) (slab_count a) a in
  '(owner, count, first) ← slab_head head st;
  let count := u32 (count + 1) in
  if negb (count =? 1) && (count =? object_count_per_slab a) then
    a ← slab_list_delete head a;
    let a := with_counts (free_obj_count a - object_count_per_slab a) (slab_count a - 1) a in
    st ← set_slab_head head owner count first st;
    st ← free_pages head (slab_order a) st;
    Ok (set_allocator ai a (set_mm st h))
  else
    let a := if negb (count =? 1) then a else with_slabs (head :: slab_head_list a) a in
    st ← store32 mem first st;
    index ← get_free_index head mem a;
    st ← set_slab_head head owner count (u32 index) st;
    Ok (set_allocator ai a (set_mm st h)).

Definition slab_object_size (mem : option Z) (h : heap) : outcome Z :=
  match mem with
  | None => Panic
  | Some mem =>
      let page := addr_frame mem in
      s ← page_get_state page (hp_mm h);
      c_assert (bool_decide (s = PAGE_STATE_SLAB_HEAD) || bool_decide (s = PAGE_STATE_SLAB_TAIL));;
      ai ← page_slab_allocator page (hp_mm h);
      a ← get_allocator ai h;
      Ok (object_size a)
  end.

(** ** kernel/mm/kmalloc.c: the first 16 allocators are [kmalloc_slabs] *)
Definition KMALLOC_MAX : Z := 8192.
Definition kmalloc_sizes : list Z :=
  [16; 32; 64; 96; 128; 192; 256; 384; 512; 768; 1024; 1536; 2048; 4096; 6102; 8192].

(** A zeroed [struct slab_allocator]. *)
Definition zeroed_allocator : slab_allocator :=
  {| slab_head_list := []; object_size := 0; object_count_per_slab := 0; sa_alloc_flags := 0;
     slab_order := 0; sa_flags := 0; free_obj_count := 0; slab_count := 0 |}.

Fixpoint kmalloc_init_from (sizes : list Z) : outcome (list slab_allocator) :=
  match sizes with
  | [] => Ok []
  | size :: sizes =>
      r ← slab_allocator_init zeroed_allocator size 0 0;
      match r with
      | None => Panic
      | Some a => rest ← kmalloc_init_from sizes; Ok (a :: rest)
      end
  end.
Definition kmalloc_init (st : mm) : outcome heap :=
  slabs ← kmalloc_init_from kmalloc_sizes;
  Ok {| hp_mm := st; allocators := slabs; kmalloc_is_initialized := true |}.
Definition kmalloc_initialized (h : heap) : bool := kmalloc_is_initialized h.

(** [while (allocator->object_size < size) allocator++]; past the array is
    [Undef]. *)
Fixpoint find_allocator (slabs : list slab_allocator) (ai : nat) (size : Z) : outcome nat :=
  match slabs with
  | [] => Undef
  | a :: slabs => if object_size a <? size then find_allocator slabs (S ai) size else Ok ai
  end.

Definition kmalloc (lock : lock_oracle) (size : Z) (h : heap) : outcome (option Z * heap) :=
  c_assert (kmalloc_is_initialized h);;
  if size =? 0 then Ok (None, h)
  else if size >? KMALLOC_MAX then Ok (None, h)
  else ai ← find_allocator (allocators h) 0 size; slab_alloc lock ai h.

(** [*size_out] is written for a result that is not NULL. *)
Definition kmalloc_size (lock : lock_oracle) (size : Z) (h : heap) :
    outcome (option (Z * Z) * heap) :=
  c_assert (kmalloc_is_initialized h);;
  if size =? 0 then Ok (None, h)
  else if size >? KMALLOC_MAX then Ok (None, h)
  else
    ai ← find_allocator (allocators h) 0 size;
    '(result, h) ← slab_alloc lock ai h;
    match result with
    | Some mem => a ← get_allocator ai h; Ok (Some (mem, object_size a), h)
    | None => Ok (None, h)
    end.

Definition kfree (buffer : Z) (h : heap) : outcome heap :=
  c_assert (kmalloc_is_initialized h);; slab_free buffer h.

Definition krealloc (lock : lock_oracle) (buffer : option Z) (size : Z) (h : heap) :
    outcome (option Z * heap) :=
  c_assert (kmalloc_is_initialized h);;
  match buffer with
  | None => if size =? 0 then Ok (None, h) else kmalloc lock size h
  | Some mem =>
      if size =? 0 then h ← kfree mem h; Ok (None, h)
      else
        buffer_size ← slab_object_size buffer h;
        if size <=? buffer_size then Ok (buffer, h)
        else
          '(ret, h) ← kmalloc lock size h;
          match ret with
          | None => Ok (None, h)
          | Some ret =>
              st ← memcpy_words ret mem buffer_size (hp_mm h);
              h ← kfree mem (set_mm st h);
              Ok (Some ret, h)
          end
  end.
