(* ===== verification/SlabInv.v ===== *)
(** * The objects of a slab as a list of free indices

    Memory lemmas for Slab.v, the invariant of the slab heap, and the
    specification of every step of slab.c on it. *)
From S2P Require Import Prelude CArith PageAlloc PageBlocks PageAllocInv Slab.

(** ** Words of memory *)

(** The frame of the address is there. *)
Definition mapped (st : mm) (addr : Z) : Prop :=
  exists es, frames st !! addr_frame addr = Some es /\ length es = 512%nat.

(** Only the contents of frames differ, and every frame is still there. *)
Definition same_but_words (st st' : mm) : Prop :=
  (exists fr, st' = set_frames fr st) /\ (forall a, mapped st a -> mapped st' a).

Lemma same_words_refl st : same_but_words st st.
Proof. split; [|done]. exists (frames st). by destruct st. Qed.

Lemma same_words_trans st1 st2 st3 :
  same_but_words st1 st2 -> same_but_words st2 st3 -> same_but_words st1 st3.
Proof. intros [[f1 ->] H1] [[f2 ->] H2]. split; [by exists f2|auto]. Qed.

Lemma word_index_bounds addr : 0 <= word_index addr < 512.
Proof.
  unfold word_index. pose proof (Z.mod_pos_bound addr PAGE_SIZE ltac:(done)).
  change PAGE_SIZE with 4096 in *. split; [apply Z.div_pos; lia|].
  apply Z.div_lt_upper_bound; lia.
Qed.

Lemma word_address addr : addr / 8 = 512 * addr_frame addr + word_index addr.
Proof.
  unfold addr_frame, word_index. change PAGE_SIZE with 4096.
  pose proof (Z.div_mod addr 4096 ltac:(lia)) as H. rewrite H at 1.
  replace (4096 * (addr / 4096) + addr `mod` 4096)
    with (addr `mod` 4096 + 512 * (addr / 4096) * 8) by lia.
  rewrite Z.div_add by lia. lia.
Qed.

(** Reading the word of an address after a word was written. *)
Lemma word_written st addr es w a : frames st !! addr_frame addr = Some es ->
  length es = 512%nat ->
  let st' := set_frames (<[addr_frame addr := <[Z.to_nat (word_index addr) := w]> es]>
                           (frames st)) st in
  set_entry (word_index addr) w es = Ok (<[Z.to_nat (word_index addr) := w]> es) /\
  same_but_words st st' /\
  load64 a st' = if a / 8 =? addr / 8 then Ok w else load64 a st.
Proof.
  intros He Hl st'. pose proof (word_index_bounds addr). pose proof (word_index_bounds a).
  split_and!.
  - replace (word_index addr) with (Z.of_nat (Z.to_nat (word_index addr))) at 1 by lia.
    rewrite set_entry_ok by lia. done.
  - split; [by eexists|]. intros x (es' & Hx & Hlx). unfold mapped, st'. simpl.
    destruct (decide (addr_frame addr = addr_frame x)) as [E|].
    + rewrite <- E, lookup_insert_eq. eexists. split; [done|]. by rewrite length_insert.
    + rewrite lookup_insert_ne by done. eauto.
  - rewrite !word_address. unfold load64, st'. simpl.
    destruct (decide (addr_frame addr = addr_frame a)) as [E|].
    + rewrite <- E, lookup_insert_eq, He. simpl. unfold nth_entry.
      rewrite (proj2 (Z.ltb_ge (word_index a) 0)) by lia.
      destruct (Z.eqb_spec (512 * addr_frame addr + word_index a)
                           (512 * addr_frame addr + word_index addr)) as [Ew|].
      * replace (word_index a) with (word_index addr) by lia.
        by rewrite list_lookup_insert_eq by lia.
      * by rewrite list_lookup_insert_ne by lia.
    + rewrite lookup_insert_ne by done.
      destruct (Z.eqb_spec (512 * addr_frame a + word_index a)
                           (512 * addr_frame addr + word_index addr)); [lia|done].
Qed.

Lemma load64_mapped st a : mapped st a -> exists w, load64 a st = Ok w.
Proof.
  intros (es & He & Hl). pose proof (word_index_bounds a). unfold load64. rewrite He. simpl.
  destruct (lookup_lt_is_Some_2 es (Z.to_nat (word_index a)) ltac:(lia)) as [w Hw].
  exists w. unfold nth_entry. rewrite (proj2 (Z.ltb_ge _ 0)) by lia. by rewrite Hw.
Qed.

Lemma load32_eq addr st : addr `mod` 8 = 0 -> load32 addr st = (w ← load64 addr st; Ok (u32 w)).
Proof.
  intros Ha. unfold load32, load64. rewrite Ha.
  destruct (frames st !! addr_frame addr); [|done]. simpl.
  by destruct (nth_entry _ _).
Qed.

Lemma low_bits_written w v : in_u 32 v ->
  u32 (Z.lor (Z.ldiff w (Z.shiftl UINT32_MAX 0)) (Z.shiftl v 0)) = v.
Proof.
  intros Hv. rewrite !Z.shiftl_0_r. unfold wrap. rewrite <- Z.land_ones by lia.
  change UINT32_MAX with (Z.ones 32). unfold in_u in Hv.
  apply Z.bits_inj'. intros i Hi. rewrite Z.land_spec, Z.lor_spec, Z.ldiff_spec.
  destruct (Z.ltb_spec i 32).
  - rewrite Z.ones_spec_low by lia. by rewrite andb_false_r, andb_true_r.
  - rewrite Z.ones_spec_high by lia. rewrite andb_false_r.
    rewrite <- (Z.mod_small v (2 ^ 32)) by lia. by rewrite Z.mod_pow2_bits_high by lia.
Qed.

Lemma store32_ok addr v st : mapped st addr -> addr `mod` 8 = 0 -> in_u 32 v ->
  exists st', store32 addr v st = Ok st' /\ same_but_words st st' /\
  load32 addr st' = Ok v /\
  (forall a, a / 8 <> addr / 8 -> load64 a st' = load64 a st).
Proof.
  intros Hm Ha Hv. pose proof Hm as (es & He & Hl).
  destruct (load64_mapped st addr Hm) as [w Hw]. unfold load64 in Hw. rewrite He in Hw. simpl in Hw.
  unfold store32. rewrite He. simpl. rewrite Hw. simpl. rewrite Ha. change (8 * 0) with 0.
  set (w' := Z.lor _ _).
  pose proof (fun a => word_written st addr es w' a He Hl) as H. cbv zeta in H.
  destruct (H addr) as (-> & Hs & Hla). simpl. eexists. split; [done|]. split_and!; [done| |].
  - rewrite load32_eq, Hla, Z.eqb_refl by done. simpl. unfold w'. by rewrite low_bits_written.
  - intros a Hne. destruct (H a) as (_ & _ & ->). by rewrite (proj2 (Z.eqb_neq _ _)).
Qed.

Lemma store64_ok addr v st : mapped st addr ->
  exists st', store64 addr v st = Ok st' /\ same_but_words st st' /\
  (forall a, a / 8 <> addr / 8 -> load64 a st' = load64 a st).
Proof.
  intros (es & He & Hl). unfold store64. rewrite He. simpl.
  pose proof (fun a => word_written st addr es v a He Hl) as H. cbv zeta in H.
  destruct (H addr) as (-> & Hs & _). simpl. eexists. split; [done|]. split; [done|].
  intros a Hne. destruct (H a) as (_ & _ & ->). by rewrite (proj2 (Z.eqb_neq _ _)).
Qed.

Lemma zero_words_ok n : forall addr st, addr `mod` 8 = 0 ->
  (forall i, 0 <= i < Z.of_nat n -> mapped st (addr + 8 * i)) ->
  exists st', zero_words n addr st = Ok st' /\ same_but_words st st' /\
  (forall a, ~ addr / 8 <= a / 8 < addr / 8 + Z.of_nat n -> load64 a st' = load64 a st).
Proof.
  induction n as [|n IH]; intros addr st Ha Hm.
  - exists st. split_and!; [done|apply same_words_refl|done].
  - cbn [zero_words]. destruct (store64_ok addr 0 st) as (st1 & -> & S1 & L1).
    { specialize (Hm 0 ltac:(lia)). by rewrite Z.add_0_r in Hm. }
    rewrite outcome_bind_ok. destruct (IH (addr + 8) st1) as (st2 & -> & S2 & L2).
    { rewrite <- Z.add_mod_idemp_l, Ha by lia. done. }
    { intros i Hi. apply S1. replace (addr + 8 + 8 * i) with (addr + 8 * (i + 1)) by lia.
      apply Hm. lia. }
    exists st2. split_and!; [done|by eapply same_words_trans|].
    intros a Hna. replace ((addr + 8) / 8) with (addr / 8 + 1) in L2
      by (replace (addr + 8) with (addr + 1 * 8) by lia; by rewrite Z.div_add by lia).
    rewrite L2 by lia. apply L1. lia.
Qed.

(** ** One slab *)

(** The object of index [i] of the slab with head page [p]. *)
Definition obj (p : Z) (a : slab_allocator) (i : Z) : Z := frame_addr p + i * object_size a.

(** What [slab_allocator_init] sets up, for sizes that matter. *)
Record class_ok (a : slab_allocator) : Prop := {
  co_size : 16 <= object_size a;
  co_align : object_size a `mod` 16 = 0;
  co_order : 0 <= slab_order a < MAX_ORDER;
  co_count : 1 <= object_count_per_slab a < 2 ^ 32 - 1;
  co_fits : object_count_per_slab a * object_size a <= PAGE_SIZE * 2 ^ slab_order a;
  co_bytes : object_count_per_slab a * object_size a < 2 ^ 32;
}.

(** The run of pages of the slab. *)
Definition in_slab (a : slab_allocator) (p q : Z) : Prop := p <= q < p + 2 ^ slab_order a.

Definition first_of (l : list Z) : Z := default UINT32_MAX (head l).

(** The free objects are linked in the order of the list. *)
Fixpoint chain (st : mm) (a : slab_allocator) (p : Z) (l : list Z) : Prop :=
  match l with
  | [] => True
  | i :: l => load32 (obj p a i) st = Ok (first_of l) /\ chain st a p l
  end.

Definition valid_index (a : slab_allocator) (i : Z) : Prop := 0 <= i < object_count_per_slab a.

Record slab_ok (st : mm) (ai : nat) (a : slab_allocator) (p : Z) (l : list Z) : Prop := {
  so_head : page_is (pages st) p PAGE_STATE_SLAB_HEAD
              (Slab_head (Some ai) (Some (Z.of_nat (length l))) (Some (first_of l)));
  so_tails : forall q, p < q < p + 2 ^ slab_order a ->
    exists o, page_is (pages st) q PAGE_STATE_SLAB_TAIL (Slab_tail o p);
  so_nodup : NoDup l;
  so_valid : Forall (valid_index a) l;
  so_chain : chain st a p l;
  so_mapped : forall q, in_slab a p q ->
    exists es, frames st !! q = Some es /\ length es = 512%nat;
}.

Section slab.
Context (a : slab_allocator) (Ha : class_ok a).

Lemma obj_aligned p i : obj p a i `mod` 16 = 0.
Proof.
  unfold obj, frame_addr. change PAGE_SIZE with (256 * 16).
  pose proof (co_align a Ha) as Hal. apply Z.mod_divide in Hal as [k ->]; [|lia].
  replace (256 * 16 * p + i * (k * 16)) with ((256 * p + i * k) * 16) by lia.
  by rewrite Z.mod_mul.
Qed.

Lemma obj_aligned8 p i : obj p a i `mod` 8 = 0.
Proof.
  pose proof (obj_aligned p i) as H. apply Z.mod_divide in H as [k H]; [|lia].
  rewrite H. replace (k * 16) with (k * 2 * 8) by lia. by rewrite Z.mod_mul.
Qed.

(** The bytes of an object lie in the pages of its slab. *)
Lemma obj_in_slab p i d : valid_index a i -> 0 <= d < object_size a ->
  in_slab a p (addr_frame (obj p a i + d)).
Proof.
  unfold valid_index, in_slab, addr_frame, obj, frame_addr. intros Hi Hd.
  pose proof (co_fits a Ha). pose proof (co_size a Ha).
  change PAGE_SIZE with 4096 in *.
  replace (4096 * p + i * object_size a + d) with (i * object_size a + d + p * 4096) by lia.
  rewrite Z.div_add by lia.
  assert (0 <= i * object_size a + d < 4096 * 2 ^ slab_order a) as Hb by nia.
  pose proof (Z.div_pos (i * object_size a + d) 4096 ltac:(lia) ltac:(lia)).
  pose proof (Z.div_lt_upper_bound (i * object_size a + d) 4096 (2 ^ slab_order a)
    ltac:(lia) ltac:(lia)). lia.
Qed.

Lemma slab_mapped st p : (forall q, in_slab a p q ->
    exists es, frames st !! q = Some es /\ length es = 512%nat) ->
  forall i d, valid_index a i -> 0 <= d < object_size a -> mapped st (obj p a i + d).
Proof. intros Hm i d Hi Hd. by apply Hm, obj_in_slab. Qed.

Lemma slab_mapped0 st p : (forall q, in_slab a p q ->
    exists es, frames st !! q = Some es /\ length es = 512%nat) ->
  forall i, valid_index a i -> mapped st (obj p a i).
Proof.
  intros Hm i Hi. pose proof (co_size a Ha). pose proof (slab_mapped st p Hm i 0 Hi ltac:(lia)) as H'.
  by rewrite Z.add_0_r in H'.
Qed.

(** The words of one object. *)
Lemma obj_words p i : obj p a i / 8 = 512 * p + i * (object_size a / 8).
Proof.
  unfold obj, frame_addr. pose proof (co_align a Ha) as Hal.
  apply Z.mod_divide in Hal as [k ->]; [|lia]. change PAGE_SIZE with 4096.
  replace (k * 16 / 8) with (k * 2) by (replace (k * 16) with (k * 2 * 8) by lia; by rewrite Z.div_mul).
  replace (4096 * p + i * (k * 16)) with ((512 * p + i * (k * 2)) * 8) by lia.
  by rewrite Z.div_mul.
Qed.

Lemma obj_size_words : 2 <= object_size a / 8.
Proof. apply Z.div_le_lower_bound; [lia|]. pose proof (co_size a Ha). lia. Qed.

Lemma obj_words_ne p i j : i <> j ->
  ~ obj p a i / 8 <= obj p a j / 8 < obj p a i / 8 + object_size a / 8.
Proof. intros Hne. rewrite !obj_words. pose proof obj_size_words. nia. Qed.

(** A chain survives writes elsewhere. *)
Lemma chain_ext st st' p l :
  (forall i, i ∈ l -> load64 (obj p a i) st' = load64 (obj p a i) st) ->
  chain st a p l -> chain st' a p l.
Proof.
  induction l as [|i l IH]; intros He; [done|]. cbn [chain]. intros [H1 H2]. split.
  - rewrite load32_eq in H1 |- * by apply obj_aligned8. by rewrite He by left.
  - apply IH; [|done]. intros j Hj. apply He. by right.
Qed.

Lemma get_free_ptr_ok p i : valid_index a i -> get_free_ptr p i a = Ok (Some (obj p a i)).
Proof.
  intros [H1 H2]. unfold get_free_ptr. pose proof (co_count a Ha). pose proof (co_bytes a Ha).
  pose proof (co_size a Ha). rewrite (proj2 (Z.eqb_neq i _)) by lia.
  unfold check_mul_assert, check_mul.
  assert (i * object_size a < 2 ^ 32) by nia.
  rewrite (proj2 (Z.ltb_lt _ _)) by done. simpl. rewrite wrap_small by (unfold_ints; nia). done.
Qed.

Lemma get_free_index_ok p i : get_free_index p (obj p a i) a = Ok i.
Proof.
  unfold get_free_index, obj. pose proof (co_size a Ha).
  rewrite (proj2 (Z.eqb_neq _ 0)) by lia.
  replace (frame_addr p + i * object_size a - frame_addr p) with (i * object_size a) by lia.
  by rewrite Z.div_mul by lia.
Qed.

(** Linking the objects of a new slab. *)
Lemma link_objects_ok p : forall n i st, 0 <= i ->
  (forall j, i <= j <= i + Z.of_nat n -> mapped st (obj p a j)) -> i + Z.of_nat n < 2 ^ 32 - 1 ->
  exists st', link_objects n i (i * object_size a) (object_size a) (frame_addr p) st = Ok st' /\
  same_but_words st st' /\ chain st' a p (seqZ i (Z.of_nat n + 1)) /\
  (forall x, (forall j, i <= j <= i + Z.of_nat n -> x / 8 <> obj p a j / 8) ->
     load64 x st' = load64 x st).
Proof.
  induction n as [|n IH]; intros i st Hi Hm Hn; cbn [link_objects];
    fold (obj p a i).
  - destruct (store32_ok (obj p a i) UINT32_MAX st) as (st' & -> & S1 & L1 & K1);
      [apply Hm; lia|apply obj_aligned8|unfold_ints; lia|].
    exists st'. split_and!; [done..| |].
    + change (Z.of_nat 0 + 1) with 1. rewrite seqZ_cons by lia. by split.
    + intros x Hx. apply K1, Hx. lia.
  - destruct (store32_ok (obj p a i) (i + 1) st) as (st1 & -> & S1 & L1 & K1);
      [apply Hm; lia|apply obj_aligned8|unfold_ints; lia|]. rewrite outcome_bind_ok.
    replace (i * object_size a + object_size a) with ((i + 1) * object_size a) by lia.
    destruct (IH (i + 1) st1) as (st2 & -> & S2 & C2 & K2);
      [lia|intros j Hj; apply S1, Hm; lia|lia|].
    assert (forall j, j <> i -> obj p a i / 8 <> obj p a j / 8) as Hne.
    { intros j Hj. pose proof (obj_words_ne p j i Hj). pose proof obj_size_words. lia. }
    exists st2. split_and!; [done|by eapply same_words_trans| |].
    + rewrite seqZ_cons by lia. replace (Z.pred (Z.of_nat (S n) + 1)) with (Z.of_nat n + 1) by lia.
      unfold Z.succ. split; [|done]. rewrite load32_eq in L1 |- * by apply obj_aligned8.
      rewrite K2 by (intros j Hj; apply Hne; lia). rewrite L1.
      rewrite seqZ_cons by lia. done.
    + intros x Hx. rewrite K2 by (intros j Hj; apply Hx; lia). apply K1, Hx. lia.
Qed.
End slab.

(** ** A new slab *)
Lemma page_is_alter_ne m q s d f p : p <> q -> page_is m q s d -> page_is (alter f p m) q s d.
Proof. intros Hne (pg & Hpg & H). exists pg. by rewrite lookup_alter_ne. Qed.

Lemma page_is_some m q s d : page_is m q s d -> is_Some (m !! q).
Proof. intros (pg & -> & _). eauto. Qed.

Lemma set_slab_head_ok p s d ai c f st : page_is (pages st) p s d ->
  exists m', set_slab_head p ai c f st = Ok (set_pages m' st) /\
  touches p (p + 1) (pages st) m' /\
  page_is m' p s (Slab_head (Some ai) (Some c) (Some f)).
Proof.
  intros (pg & Hpg & Hs & _). unfold set_slab_head, page_set_data.
  rewrite update_page_ok by eauto. eexists. split; [done|]. split; [apply touches_alter|].
  eexists. rewrite lookup_alter_eq, Hpg. split; [done|]. done.
Qed.

Lemma set_tail_allocator_ok ai o p q st s : page_is (pages st) q s (Slab_tail o p) ->
  set_tail_allocator ai q st =
  Ok (set_pages (alter (with_data (Slab_tail (Some ai) p)) q (pages st)) st).
Proof.
  intros (pg & Hpg & _ & Hd). unfold set_tail_allocator, get_page. rewrite Hpg.
  cbn [deref]. rewrite outcome_bind_ok, Hd. unfold page_set_data. by rewrite update_page_ok.
Qed.

Lemma set_tails_ok ai p : forall n q st,
  (forall x, q <= x < q + Z.of_nat n -> page_is (pages st) x PAGE_STATE_SLAB_TAIL (Slab_tail None p)) ->
  exists m', for_pages n q (set_tail_allocator ai) st = Ok (set_pages m' st) /\
  touches q (q + Z.of_nat n) (pages st) m' /\
  forall x, q <= x < q + Z.of_nat n -> page_is m' x PAGE_STATE_SLAB_TAIL (Slab_tail (Some ai) p).
Proof.
  induction n as [|n IH]; intros q st Hx.
  - exists (pages st). split_and!; [by rewrite set_pages_id|done|lia].
  - cbn [for_pages]. destruct (Hx q ltac:(lia)) as (pg & Hpg & Hs & Hd).
    rewrite (set_tail_allocator_ok ai None p q st PAGE_STATE_SLAB_TAIL) by (apply Hx; lia).
    rewrite outcome_bind_ok.
    destruct (IH (q + 1) (set_pages (alter (with_data (Slab_tail (Some ai) p)) q (pages st)) st))
      as (m' & -> & T & P).
    { intros x Hq. simpl. apply page_is_alter_ne; [lia|]. apply Hx. lia. }
    exists m'. split; [done|]. simpl in T. split.
    + apply (touches_trans _ _ _ (alter (with_data (Slab_tail (Some ai) p)) q (pages st))).
      * apply (touches_mono q (q + 1)); [lia..|apply touches_alter].
      * by apply (touches_mono (q + 1) (q + 1 + Z.of_nat n)); [lia..|].
    + intros x Hxq. destruct (decide (x = q)) as [->|]; [|apply P; lia].
      destruct T as [T _]. unfold page_is. rewrite T by lia. rewrite lookup_alter_eq, Hpg.
      by eexists.
Qed.

(** The allocator is only changed in its list and its counts. *)
Definition same_class (a a' : slab_allocator) : Prop :=
  object_size a' = object_size a /\ slab_order a' = slab_order a /\
  object_count_per_slab a' = object_count_per_slab a.

Lemma class_ok_same a a' : same_class a a' -> class_ok a -> class_ok a'.
Proof. intros (E1 & E2 & E3) []. split; rewrite ?E1, ?E2, ?E3; done. Qed.

Lemma chain_same st a a' p l : same_class a a' -> chain st a p l -> chain st a' p l.
Proof.
  intros (E1 & _). induction l as [|i l IH]; [done|]. cbn [chain]. unfold obj in *.
  rewrite E1. intros [? ?]. auto.
Qed.

Lemma slab_ok_same st ai a a' p l : same_class a a' -> slab_ok st ai a p l -> slab_ok st ai a' p l.
Proof.
  intros Hc []. pose proof Hc as (E1 & E2 & E3). split; try done.
  - intros q. rewrite E2. auto.
  - eapply Forall_impl; [done|]. intros i. unfold valid_index. by rewrite E3.
  - by eapply chain_same.
  - intros q. unfold in_slab. rewrite E2. auto.
Qed.

(** The new slab is made of pages that were free; nothing else changes. *)
Record new_slab (ai : nat) (a : slab_allocator) (p : Z) (st st' : mm) : Prop := {
  ns_wf : mm_wf st';
  ns_was : exists j, forall q, in_slab a p q -> mm_free st j q;
  ns_free : forall j q, mm_free st' j q <-> mm_free st j q /\ ~ in_slab a p q;
  ns_pages : forall q, (forall j, ~ mm_free st j q) -> pages st' !! q = pages st !! q;
  ns_mapped : forall x, mapped st x -> mapped st' x;
  ns_words : forall x, ~ in_slab a p (addr_frame x) -> load64 x st' = load64 x st;
  ns_slab : slab_ok st' ai a p (seqZ 0 (object_count_per_slab a));
  ns_last : 0 < slab_order a ->
    page_is (pages st') (p + 2 ^ slab_order a - 1) PAGE_STATE_SLAB_TAIL (Slab_tail None p);
}.

Definition put_allocator (ai : nat) (a : slab_allocator) (st : mm) (h : heap) : heap :=
  {| hp_mm := st; allocators := <[ai := a]> (allocators h);
     kmalloc_is_initialized := kmalloc_is_initialized h |}.

Lemma alloc_slab_page_ok lock ai a h : mm_wf (hp_mm h) -> class_ok a ->
  allocators h !! ai = Some a ->
  alloc_slab_page lock ai h = Ok (None, h) \/
  exists p st' a', alloc_slab_page lock ai h =
    Ok (Some p, put_allocator ai a' st' h) /\
  new_slab ai a p (hp_mm h) st' /\
  a' = with_counts (free_obj_count a + object_count_per_slab a) (slab_count a + 1)
         (with_slabs (p :: slab_head_list a) a).
Proof.
  intros Hwf Hc Hai. unfold alloc_slab_page, get_allocator. rewrite Hai. cbn [deref].
  rewrite outcome_bind_ok. pose proof (co_order a Hc) as Ho. pose proof (co_count a Hc) as Hn.
  destruct (alloc_pages_ok lock PAGE_STATE_SLAB_HEAD 1 (slab_order a) (hp_mm h) Hwf ltac:(lia)
    ltac:(constructor)) as [[-> _]|(p & st1 & -> & A & H)].
  { left. rewrite outcome_bind_ok. by destruct h. }
  right. rewrite outcome_bind_ok. pose proof (pow2_pos (slab_order a) ltac:(lia)) as Hpos.
  destruct (set_tails_ok ai p (Z.to_nat (p + (2 ^ slab_order a - 1) - (p + 1))) (p + 1) st1)
    as (m2 & -> & T2 & P2).
  { intros x Hx. apply (ho_tails _ _ _ _ _ _ _ H PAGE_STATE_SLAB_TAIL eq_refl x). lia. }
  rewrite outcome_bind_ok.
  assert (page_is m2 p PAGE_STATE_SLAB_HEAD (Slab_head None None None)) as Hh2.
  { destruct T2 as [T2 _]. unfold page_is. rewrite T2 by lia. apply H. }
  destruct (set_slab_head_ok p _ _ ai (object_count_per_slab a) 0 (set_pages m2 st1) Hh2)
    as (m3 & E3 & T3 & P3). simpl in T3.
  cbn [object_count_per_slab object_size with_slabs with_counts free_obj_count slab_count].
  rewrite E3, outcome_bind_ok. set (st3 := set_pages m3 (set_pages m2 st1)).
  assert (forall q, in_slab a p q -> frames st3 !! q = Some (replicate 512 0)) as Hz.
  { intros q Hq. apply (ho_zero _ _ _ _ _ _ _ H). by unfold zeroed. }
  assert (forall q, in_slab a p q -> exists es, frames st3 !! q = Some es /\ length es = 512%nat) as Hz'.
  { intros q Hq. rewrite Hz by done. by eexists. }
  set (n := Z.to_nat (u32 (object_count_per_slab a - 1))).
  assert (Z.of_nat n = object_count_per_slab a - 1) as En.
  { unfold n. rewrite wrap_small by (unfold_ints; lia). lia. }
  destruct (link_objects_ok a Hc p n 0 st3) as (st4 & E4 & [[fr ->] M4] & C4 & K4); [lia| |lia|].
  { intros j Hj. apply slab_mapped0; [done..|]. unfold valid_index. lia. }
  rewrite Z.mul_0_l in E4. rewrite E4, outcome_bind_ok.
  eexists _, _, _. split; [done|]. split; [|done].
  assert (touches p (p + 2 ^ slab_order a) (pages st1) m3) as T.
  { eapply touches_trans; [eapply touches_mono; [| |exact T2]; lia|].
    eapply touches_mono; [| |exact T3]; lia. }
  assert (forall j q, mm_free st1 j q -> ~ in_slab a p q) as Hnf.
  { intros j q [_ Hq]%(al_free _ _ _ _ _ A). done. }
  split.
  - apply (mm_wf_pages st1); [apply A| |].
    + intros i q Hq. apply T. by apply (Hnf i).
    + intros q Hq. by apply T.
  - destruct (al_was _ _ _ _ _ A) as (j & _ & Hj). by exists j.
  - intros j q. exact (al_free _ _ _ _ _ A j q).
  - intros q Hq. simpl. destruct T as [T _]. rewrite T; [by apply (al_kept _ _ _ _ _ A)|].
    intros Hin. destruct (al_was _ _ _ _ _ A) as (j & _ & Hj). by apply (Hq j), Hj.
  - intros x (es & He & Hl). apply M4. destruct (decide (in_slab a p (addr_frame x))) as [Hin|Hin];
      [by apply Hz'|]. exists es. split; [|done]. simpl. rewrite <- He.
    apply (ho_frames _ _ _ _ _ _ _ H). done.
  - intros x Hx. rewrite K4.
    + unfold load64. simpl. by rewrite (ho_frames _ _ _ _ _ _ _ H).
    + intros j Hj E. apply Hx. rewrite !word_address in E.
      pose proof (word_index_bounds x). pose proof (word_index_bounds (obj p a j)).
      replace (addr_frame x) with (addr_frame (obj p a j)) by lia.
      pose proof (obj_in_slab a Hc p j 0) as Hin. rewrite Z.add_0_r in Hin. apply Hin.
      * unfold valid_index. lia.
      * pose proof (co_size a Hc). lia.
  - replace (object_count_per_slab a) with (Z.of_nat n + 1) by lia. split.
    + simpl. rewrite length_seqZ. replace (Z.of_nat (Z.to_nat (Z.of_nat n + 1)))
        with (object_count_per_slab a) by lia.
      unfold first_of. rewrite seqZ_cons by lia. done.
    + intros q Hq. destruct (decide (q = p + 2 ^ slab_order a - 1)) as [->|Hlast].
      * exists None. simpl. destruct T3 as [T3 _], T2 as [T2 _].
        unfold page_is. rewrite T3, T2 by lia.
        apply (ho_tails _ _ _ _ _ _ _ H PAGE_STATE_SLAB_TAIL eq_refl). lia.
      * exists (Some ai). simpl. destruct T3 as [T3 _]. unfold page_is. rewrite T3 by lia.
        apply P2. lia.
    + apply NoDup_seqZ.
    + apply Forall_forall. intros x Hx%elem_of_seqZ. unfold valid_index. lia.
    + done.
    + intros q Hq. destruct (Hz' q Hq) as (es & He & Hl).
      destruct (M4 (frame_addr q)) as (es' & He' & Hl').
      * unfold mapped, addr_frame, frame_addr. rewrite (Z.mul_comm PAGE_SIZE), Z.div_mul by done.
        eauto.
      * unfold addr_frame, frame_addr in He'.
        rewrite (Z.mul_comm PAGE_SIZE), Z.div_mul in He' by done. eauto.
  - intros Hord. simpl. pose proof (pow2_lt 0 (slab_order a) ltac:(lia) Hord) as H1.
    change (2 ^ 0) with 1 in H1. destruct T3 as [T3 _], T2 as [T2 _].
    unfold page_is. rewrite T3, T2 by lia.
    apply (ho_tails _ _ _ _ _ _ _ H PAGE_STATE_SLAB_TAIL eq_refl). lia.
Qed.

(** ** The heap *)

(** The slabs: the head page of each, its allocator and its free objects. *)
Abbreviation slabs := (gmap Z (nat * list Z)).

Definition free_in (ai : nat) (x : nat * list Z) : Z :=
  if decide (x.1 = ai) then Z.of_nat (length x.2) else 0.
Definition free_total (ai : nat) (S : slabs) : Z :=
  map_fold (fun _ x n => free_in ai x + n) 0 S.

Lemma free_in_own ai l : free_in ai (ai, l) = Z.of_nat (length l).
Proof. unfold free_in. by rewrite decide_True. Qed.

Lemma free_in_other ai x : ai <> x.1 -> free_in ai x = 0.
Proof. intros H. unfold free_in. by rewrite decide_False. Qed.

Lemma free_total_fresh ai S p x : S !! p = None ->
  free_total ai (<[p := x]> S) = free_in ai x + free_total ai S.
Proof.
  intros Hp. unfold free_total. rewrite map_fold_insert_L; [done| |done]. intros. lia.
Qed.

Lemma free_total_put ai S p x :
  free_total ai (<[p := x]> S) =
  free_total ai S + free_in ai x - default 0 (free_in ai <$> S !! p).
Proof.
  destruct (S !! p) as [y|] eqn:E; simpl; [|rewrite free_total_fresh by done; lia].
  rewrite <- insert_delete_eq, free_total_fresh by apply lookup_delete_eq.
  rewrite <- (insert_delete_id S p y E) at 2.
  rewrite free_total_fresh by apply lookup_delete_eq. lia.
Qed.

Record heap_ok (h : heap) (S : slabs) : Prop := {
  hk_mm : mm_wf (hp_mm h);
  hk_class : forall ai a, allocators h !! ai = Some a -> class_ok a;
  hk_slab : forall p ai l, S !! p = Some (ai, l) ->
    exists a, allocators h !! ai = Some a /\ slab_ok (hp_mm h) ai a p l;
  hk_list : forall ai a p, allocators h !! ai = Some a ->
    p ∈ slab_head_list a <-> exists l, S !! p = Some (ai, l) /\ l <> [];
  hk_nodup : forall ai a, allocators h !! ai = Some a -> NoDup (slab_head_list a);
  hk_count : forall ai a, allocators h !! ai = Some a ->
    free_obj_count a = u32 (free_total ai S);
  hk_disj : forall p p' ai ai' l l' a a' q, S !! p = Some (ai, l) -> S !! p' = Some (ai', l') ->
    allocators h !! ai = Some a -> allocators h !! ai' = Some a' ->
    in_slab a p q -> in_slab a' p' q -> p = p';
  hk_used : forall p ai l a q j, S !! p = Some (ai, l) -> allocators h !! ai = Some a ->
    in_slab a p q -> ~ mm_free (hp_mm h) j q;
}.

(** A slab whose run and whose free objects are as before is still well-formed. *)
Lemma slab_ok_ext st st' ai a p l : class_ok a -> slab_ok st ai a p l ->
  (forall q, in_slab a p q -> pages st' !! q = pages st !! q) ->
  (forall x, mapped st x -> mapped st' x) ->
  (forall x, in_slab a p (addr_frame x) -> load64 x st' = load64 x st) ->
  slab_ok st' ai a p l.
Proof.
  intros Hc [S1 S2 S3 S4 S5 S6] Hp Hm Hw. pose proof (co_order a Hc) as Ho.
  pose proof (pow2_pos (slab_order a) ltac:(lia)). split; try done.
  - unfold page_is. rewrite Hp by (unfold in_slab; lia). apply S1.
  - intros q Hq. unfold page_is. rewrite Hp by (unfold in_slab; lia). by apply S2.
  - apply (chain_ext a Hc st); [|done]. intros i Hi. apply Hw.
    pose proof (proj1 (Forall_forall _ _) S4 i Hi) as Hv. pose proof (co_size a Hc).
    pose proof (obj_in_slab a Hc p i 0 Hv ltac:(lia)) as Hin. by rewrite Z.add_0_r in Hin.
  - intros q Hq. destruct (Hm (frame_addr q)) as (es & He & Hl);
      unfold mapped, addr_frame, frame_addr in *;
      rewrite (Z.mul_comm PAGE_SIZE), Z.div_mul in * by done; eauto.
Qed.

(** One operation on the slab [p] of the allocator [ai]. *)
Record heap_step (h : heap) (S : slabs) (ai : nat) (a a' : slab_allocator) (p : Z)
    (l : list Z) (st' : mm) : Prop := {
  hs_class : same_class a a';
  hs_nodup : NoDup (slab_head_list a');
  hs_list : forall q, q ∈ slab_head_list a' <->
    if decide (q = p) then l <> [] else q ∈ slab_head_list a;
  hs_owner : forall x, S !! p = Some x -> x.1 = ai;
  hs_count : free_obj_count a' = u32 (free_obj_count a + Z.of_nat (length l)
    - default 0 (free_in ai <$> S !! p));
  hs_mm : mm_wf st';
  hs_free : forall j q, mm_free st' j q -> mm_free (hp_mm h) j q /\ ~ in_slab a p q;
  hs_pages : forall q, (forall j, ~ mm_free (hp_mm h) j q) -> ~ in_slab a p q ->
    pages st' !! q = pages (hp_mm h) !! q;
  hs_mapped : forall x, mapped (hp_mm h) x -> mapped st' x;
  hs_words : forall x, ~ in_slab a p (addr_frame x) -> load64 x st' = load64 x (hp_mm h);
  hs_others : forall p' ai' a0 l' q, p' <> p -> S !! p' = Some (ai', l') ->
    allocators h !! ai' = Some a0 -> in_slab a0 p' q -> ~ in_slab a p q;
  hs_slab : slab_ok st' ai a p l;
}.

(** An allocator after the step, and what it was before. *)
Lemma put_lookup h ai a a' st j b : allocators h !! ai = Some a -> same_class a a' ->
  allocators (put_allocator ai a' st h) !! j = Some b ->
  exists b0, allocators h !! j = Some b0 /\ same_class b0 b /\
  (j = ai /\ b0 = a /\ b = a' \/ j <> ai /\ b = b0).
Proof.
  intros Ha Hc Hj. simpl in Hj. destruct (decide (j = ai)) as [->|].
  - rewrite (list_lookup_inserted _ _ a) in Hj by done. simplify_eq. exists a. split_and!; [done..|by left].
  - rewrite list_lookup_insert_ne in Hj by done. exists b. split_and!; [done..|].
    right. done.
Qed.

Lemma in_slab_same a a' p q : same_class a a' -> in_slab a' p q <-> in_slab a p q.
Proof. intros (_ & E & _). unfold in_slab. by rewrite E. Qed.

Lemma heap_put h S ai a a' p l st' : heap_ok h S -> allocators h !! ai = Some a ->
  heap_step h S ai a a' p l st' ->
  heap_ok (put_allocator ai a' st' h) (<[p := (ai, l)]> S).
Proof.
  intros [K1 K2 K3 K4 K5 K6 K7 K8] Ha [T1 T2 T3 T4 T5 T6 T7 T8 T9 T10 T11 T12].
  pose proof (fun j b => put_lookup h ai a a' st' j b Ha T1) as Hput.
  split; [done|..].
  - intros j b (b0 & Hb0 & Hc & _)%Hput. apply (class_ok_same b0); eauto.
  - intros p' ai' l' Hp'. destruct (decide (p' = p)) as [->|Hne].
    + rewrite lookup_insert_eq in Hp'. simplify_eq. exists a'. split.
      * simpl. by apply list_lookup_inserted with a.
      * by apply (slab_ok_same _ _ a).
    + rewrite lookup_insert_ne in Hp' by done. destruct (K3 p' ai' l' Hp') as (b & Hb & Hs).
      assert (slab_ok st' ai' b p' l') as Hs'.
      { apply (slab_ok_ext (hp_mm h)); [by eauto|done| |done|].
        - intros q Hq. apply T8; [|by eauto]. intros j. by apply (K8 p' ai' l' b).
        - intros x Hx. apply T10. by apply (T11 p' ai' b l'). }
      simpl. destruct (decide (ai' = ai)) as [->|].
      * assert (b = a) as -> by congruence. exists a'. split; [by apply list_lookup_inserted with a|].
        by apply (slab_ok_same _ _ a).
      * exists b. by rewrite list_lookup_insert_ne.
  - intros j b q (b0 & Hb0 & Hc & [(-> & -> & ->)|(Hne & ->)])%Hput.
    + rewrite T3. destruct (decide (q = p)) as [->|].
      * rewrite lookup_insert_eq. split; [by eauto|]. intros (l0 & ? & ?). by simplify_eq.
      * rewrite lookup_insert_ne by done. by apply K4.
    + rewrite (K4 j b0 q Hb0). destruct (decide (q = p)) as [->|].
      * rewrite lookup_insert_eq. split; [|intros (? & ? & _); by simplify_eq].
        intros (l0 & Hl0 & _). by apply T4 in Hl0.
      * by rewrite lookup_insert_ne.
  - intros j b (b0 & Hb0 & Hc & [(-> & -> & ->)|(Hne & ->)])%Hput; [done|by eauto].
  - intros j b (b0 & Hb0 & Hc & [(-> & -> & ->)|(Hne & ->)])%Hput; rewrite free_total_put.
    + rewrite T5, (K6 ai a Ha), free_in_own.
      unfold wrap. rewrite <- Zminus_mod_idemp_l, Zplus_mod_idemp_l, Zminus_mod_idemp_l. done.
    + rewrite (K6 j b0 Hb0), (free_in_other j (ai, l)) by done.
      destruct (S !! p) as [x|] eqn:E; simpl; [|by rewrite Z.add_0_r, Z.sub_0_r].
      rewrite free_in_other by (rewrite (T4 x eq_refl); done). by rewrite Z.add_0_r, Z.sub_0_r.
  - intros p1 p2 a1 a2 l1 l2 b1 b2 q H1 H2 (c1 & Hc1 & E1 & _)%Hput (c2 & Hc2 & E2 & _)%Hput.
    rewrite (in_slab_same _ _ _ _ E1), (in_slab_same _ _ _ _ E2). intros Q1 Q2.
    destruct (decide (p1 = p)) as [->|N1], (decide (p2 = p)) as [->|N2];
      rewrite ?lookup_insert_eq in *; rewrite ?lookup_insert_ne in * by done; simplify_eq; [done|..].
    + by destruct (T11 p2 a2 c2 l2 q N2 H2 Hc2 Q2).
    + by destruct (T11 p1 a1 c1 l1 q N1 H1 Hc1 Q1).
    + by apply (K7 p1 p2 a1 a2 l1 l2 c1 c2 q).
  - intros p1 a1 l1 b1 q j H1 (c1 & Hc1 & E1 & _)%Hput. rewrite (in_slab_same _ _ _ _ E1).
    intros Q1 [Hf Hn]%T7. destruct (decide (p1 = p)) as [->|N1].
    + rewrite lookup_insert_eq in H1. by simplify_eq.
    + rewrite lookup_insert_ne in H1 by done. by apply (K8 p1 a1 l1 c1 q j).
Qed.

(** ** Taking an object *)
Lemma slab_free_le a l : NoDup l -> Forall (valid_index a) l ->
  Z.of_nat (length l) <= Z.max 0 (object_count_per_slab a).
Proof.
  intros Hnd Hv. assert (l ⊆+ seqZ 0 (object_count_per_slab a)) as Hsub.
  { apply NoDup_submseteq; [done|]. intros x Hx. apply elem_of_seqZ.
    apply (proj1 (Forall_forall _ _) Hv x) in Hx. unfold valid_index in Hx. lia. }
  apply submseteq_length in Hsub. rewrite length_seqZ in Hsub. lia.
Qed.

Lemma slab_head_ok st p s ai c f : page_is (pages st) p s (Slab_head (Some ai) (Some c) (Some f)) ->
  slab_head p st = Ok (ai, c, f).
Proof. intros (pg & Hpg & _ & Hd). unfold slab_head, get_page. rewrite Hpg. simpl. by rewrite Hd. Qed.

(** Only the entry of a slab's head page changes. *)
Lemma head_step h S ai a p l0 m' s d : heap_ok h S -> S !! p = Some (ai, l0) ->
  allocators h !! ai = Some a -> touches p (p + 1) (pages (hp_mm h)) m' -> page_is m' p s d ->
  forall fr, let st' := set_frames fr (set_pages m' (hp_mm h)) in
  mm_wf st' /\
  (forall j q, mm_free st' j q -> mm_free (hp_mm h) j q /\ ~ in_slab a p q) /\
  (forall q, (forall j, ~ mm_free (hp_mm h) j q) -> ~ in_slab a p q ->
    pages st' !! q = pages (hp_mm h) !! q).
Proof.
  intros K Hp Ha [T1 T2] Hh fr st'. pose proof (hk_class h S K ai a Ha) as Hc.
  pose proof (co_order a Hc). pose proof (pow2_pos (slab_order a) ltac:(lia)).
  assert (in_slab a p p) as Hin by (unfold in_slab; lia).
  assert (forall j q, mm_free (hp_mm h) j q -> ~ in_slab a p q) as Hn.
  { intros j q Hf Hq. by apply (hk_used h S K p ai l0 a q j Hp Ha Hq). }
  split_and!.
  - apply mm_wf_pages; [apply K| |done]. intros j q Hf. apply T1. intros Hq.
    apply (Hn j q Hf). unfold in_slab. lia.
  - intros j q Hf. split; [exact Hf|]. by apply (Hn j).
  - intros q _ Hq. simpl. apply T1. unfold in_slab in *. lia.
Qed.

Lemma hs_others_known h S ai a p l : heap_ok h S -> S !! p = Some (ai, l) ->
  allocators h !! ai = Some a ->
  forall p' ai' a0 l' q, p' <> p -> S !! p' = Some (ai', l') ->
    allocators h !! ai' = Some a0 -> in_slab a0 p' q -> ~ in_slab a p q.
Proof.
  intros K Hp Ha p' ai' a0 l' q Hne Hp' Ha' Hq Hq'. apply Hne.
  by apply (hk_disj h S K p' p ai' ai l' l a0 a q).
Qed.

(** Taking the slab off the list when its last object goes. *)
Lemma take_list_ok a p (l : list Z) : NoDup (slab_head_list a) -> p ∈ slab_head_list a ->
  exists a', (if Z.of_nat (length l) =? 0 then slab_list_delete p a else Ok a) = Ok a' /\
  same_class a a' /\ NoDup (slab_head_list a') /\
  free_obj_count a' = free_obj_count a /\
  forall q, q ∈ slab_head_list a' <-> if decide (q = p) then l <> [] else q ∈ slab_head_list a.
Proof.
  intros Hnd Hin. destruct l as [|i l]; simpl.
  - unfold slab_list_delete. rewrite decide_True by done. eexists. split; [done|]. simpl.
    split_and!; [done|by apply NoDup_list_difference|done|].
    intros q. rewrite list_elem_of_difference, list_elem_of_singleton.
    destruct (decide (q = p)); naive_solver.
  - exists a. split_and!; [done..|]. intros q. destruct (decide (q = p)) as [->|]; [|done].
    split; [intros _; discriminate|done].
Qed.

Lemma slab_take_ok h S ai a p i l : heap_ok h S -> S !! p = Some (ai, i :: l) ->
  allocators h !! ai = Some a ->
  exists a' m', let st' := set_pages m' (hp_mm h) in
  slab_take_object ai p h = Ok (Some (obj p a i), put_allocator ai a' st' h) /\
  same_class a a' /\ heap_ok (put_allocator ai a' st' h) (<[p := (ai, l)]> S).
Proof.
  intros K Hp Ha. destruct (hk_slab h S K p ai (i :: l) Hp) as (a0 & Ha0 & Hs).
  assert (a0 = a) as -> by congruence. pose proof (hk_class h S K ai a Ha) as Hc.
  pose proof Hs as [S1 S2 S3 S4 S5 S6]. pose proof (co_count a Hc).
  pose proof (slab_free_le a (i :: l) S3 S4) as Hle. cbn [length] in Hle.
  unfold slab_take_object, get_allocator. rewrite Ha. cbn [deref]. rewrite outcome_bind_ok.
  rewrite (slab_head_ok _ _ _ _ _ _ S1), outcome_bind_ok. cbv beta iota zeta.
  replace (u32 (Z.of_nat (length (i :: l)) - 1)) with (Z.of_nat (length l))
    by (rewrite wrap_small by (unfold_ints; cbn [length]; lia); cbn [length]; lia).
  set (a1 := with_counts (free_obj_count a - 1) (slab_count a) a).
  destruct (take_list_ok a1 p l) as (a' & -> & C1 & C2 & C3 & C4).
  { exact (hk_nodup h S K ai a Ha). }
  { apply (hk_list h S K ai a p Ha). by exists (i :: l). }
  rewrite outcome_bind_ok. assert (same_class a a') as Hcc by apply C1.
  change (first_of (i :: l)) with i.
  pose proof (proj1 (Forall_cons _ _ _) S4) as [Hvi Hvl]. apply NoDup_cons in S3 as [Hil Hnl].
  rewrite (get_free_ptr_ok a' (class_ok_same a a' Hcc Hc) p i)
    by (unfold valid_index; by rewrite (proj2 (proj2 Hcc))).
  replace (obj p a' i) with (obj p a i) by (unfold obj; by rewrite (proj1 Hcc)).
  rewrite outcome_bind_ok. destruct S5 as [L S5]. rewrite L, outcome_bind_ok.
  destruct (set_slab_head_ok p _ _ ai (Z.of_nat (length l)) (first_of l) _ S1) as (m' & -> & T & P).
  rewrite outcome_bind_ok. exists a', m'. cbv zeta. split_and!; [done..|].
  destruct (head_step h S ai a p (i :: l) m' _ _ K Hp Ha T P (frames (hp_mm h))) as (H1 & H2 & H3).
  apply (heap_put h S ai a); [done..|]. split; try done.
  - by rewrite Hp; intros x [= <-].
  - rewrite C3, Hp. unfold a1. simpl. rewrite free_in_own. f_equal. cbn [length]. lia.
  - by apply (hs_others_known h S ai a p (i :: l)).
  - split; try done.
    + intros q Hq. destruct T as [T _]. unfold page_is. simpl. rewrite T by lia. by apply S2.
    + by apply (chain_ext a Hc (hp_mm h)).
Qed.

(** A new slab in the heap. *)
Lemma new_slab_heap h S ai a p st' : heap_ok h S -> allocators h !! ai = Some a ->
  new_slab ai a p (hp_mm h) st' ->
  let a' := with_counts (free_obj_count a + object_count_per_slab a) (slab_count a + 1)
              (with_slabs (p :: slab_head_list a) a) in
  S !! p = None /\
  heap_ok (put_allocator ai a' st' h) (<[p := (ai, seqZ 0 (object_count_per_slab a))]> S).
Proof.
  intros K Ha [N1 [j0 N2] N3 N4 N5 N6 N7 _] a'. pose proof (hk_class h S K ai a Ha) as Hc.
  pose proof (co_order a Hc). pose proof (pow2_pos (slab_order a) ltac:(lia)).
  pose proof (co_count a Hc).
  assert (forall p' ai' a0 l' q, S !! p' = Some (ai', l') -> allocators h !! ai' = Some a0 ->
            in_slab a0 p' q -> ~ in_slab a p q) as Hdis.
  { intros p' ai' a0 l' q Hp' Ha' Hq Hq'. by apply (hk_used h S K p' ai' l' a0 q j0), N2. }
  assert (S !! p = None) as Hp.
  { destruct (S !! p) as [[ai' l']|] eqn:E; [|done].
    destruct (hk_slab h S K p ai' l' E) as (a0 & Ha0 & _). pose proof (hk_class h S K ai' a0 Ha0) as Hc0.
    pose proof (co_order a0 Hc0). pose proof (pow2_pos (slab_order a0) ltac:(lia)).
    by destruct (Hdis p ai' a0 l' p E Ha0); unfold in_slab; lia. }
  assert (p ∉ slab_head_list a) as Hpl.
  { intros (l & Hl & _)%(hk_list h S K ai a p Ha). congruence. }
  split; [done|]. apply (heap_put h S ai a); [done..|]. split; try done.
  - simpl. apply NoDup_cons. split; [done|]. exact (hk_nodup h S K ai a Ha).
  - intros q. simpl. rewrite elem_of_cons. destruct (decide (q = p)) as [->|].
    + split; [|by left]. rewrite seqZ_cons by lia. discriminate.
    + naive_solver.
  - by rewrite Hp.
  - rewrite Hp. simpl. rewrite length_seqZ. f_equal. lia.
  - intros j q Hf. by apply N3.
  - intros q Hq _. by apply N4.
  - intros p' ai' a0 l' q _. apply Hdis.
Qed.

Lemma put_allocator_twice ai a1 a2 st1 st2 h :
  put_allocator ai a2 st2 (put_allocator ai a1 st1 h) = put_allocator ai a2 st2 h.
Proof. unfold put_allocator. simpl. by rewrite list_insert_insert_eq. Qed.

(** Where [slab_alloc] takes the object from: a slab with free objects, or a
    new one. *)
Definition slab_source (h : heap) (S S1 : slabs) (ai : nat) (a : slab_allocator) (st1 : mm) : Prop :=
  (S1 = S /\ st1 = hp_mm h) \/
  (slab_head_list a = [] /\ exists p, S !! p = None /\ new_slab ai a p (hp_mm h) st1 /\
    S1 = <[p := (ai, seqZ 0 (object_count_per_slab a))]> S).

Lemma slab_alloc_ok lock ai a h S : heap_ok h S -> allocators h !! ai = Some a ->
  slab_alloc lock ai h = Ok (None, h) /\ slab_head_list a = [] \/
  exists S1 st1 p i l a' m', let h' := put_allocator ai a' (set_pages m' st1) h in
    slab_alloc lock ai h = Ok (Some (obj p a i), h') /\
    slab_source h S S1 ai a st1 /\ S1 !! p = Some (ai, i :: l) /\
    same_class a a' /\ heap_ok h' (<[p := (ai, l)]> S1).
Proof.
  intros K Ha. pose proof (hk_class h S K ai a Ha) as Hc.
  unfold slab_alloc, get_allocator. rewrite Ha. cbn [deref]. rewrite outcome_bind_ok.
  destruct (slab_head_list a) as [|p ps] eqn:Hps.
  - destruct (alloc_slab_page_ok lock ai a h) as [->|(p & st' & a1 & -> & N & ->)]; [apply K|done..| |].
    { left. by rewrite outcome_bind_ok. }
    right. rewrite outcome_bind_ok.
    destruct (new_slab_heap h S ai a p st' K Ha N) as [Hp K1]. rewrite Hps in K1 |- *.
    set (a1 := with_counts _ _ _) in *. pose proof (co_count a Hc).
    rewrite (seqZ_cons 0) in K1 by lia.
    destruct (slab_take_ok (put_allocator ai a1 st' h) _ ai a1 p 0
      (seqZ (Z.succ 0) (Z.pred (object_count_per_slab a))) K1) as (a' & m' & E & C & K2).
    { apply lookup_insert_eq. }
    { simpl. by apply list_lookup_inserted with a. }
    rewrite put_allocator_twice in E, K2.
    eexists _, st', p, 0, _, a', m'. cbv zeta. split; [exact E|]. split_and!; [| |done|exact K2].
    + right. split; [done|]. exists p. split_and!; [done..|]. by rewrite (seqZ_cons 0) by lia.
    + by rewrite lookup_insert_eq.
  - right. destruct (proj1 (hk_list h S K ai a p Ha)) as (l & Hl & Hne); [rewrite Hps; by left|].
    destruct l as [|i l]; [done|].
    destruct (slab_take_ok h S ai a p i l K Hl Ha) as (a' & m' & E & C & K1).
    exists S, (hp_mm h), p, i, l, a', m'. split_and!; [done|by left|done..].
Qed.

(** ** Giving an object back *)
Lemma slab_head_of_ok st ai a p l i : class_ok a -> slab_ok st ai a p l -> valid_index a i ->
  slab_head_of (obj p a i) st = Ok p.
Proof.
  intros Hc [S1 S2 _ _ _ _] Hi. pose proof (co_size a Hc).
  pose proof (obj_in_slab a Hc p i 0 Hi ltac:(lia)) as Hin. rewrite Z.add_0_r in Hin.
  unfold slab_head_of, page_get_state, get_page.
  destruct (decide (addr_frame (obj p a i) = p)) as [->|Hne].
  - destruct S1 as (pg & -> & Hs & _). cbn [deref]. rewrite !outcome_bind_ok, Hs. done.
  - destruct (S2 (addr_frame (obj p a i))) as (o & pg & -> & Hs & Hd);
      [unfold in_slab in Hin; lia|].
    cbn [deref]. rewrite !outcome_bind_ok, Hs. simpl. by rewrite Hd.
Qed.

Lemma page_slab_allocator_ok st ai a p l : slab_ok st ai a p l ->
  page_slab_allocator p st = Ok ai.
Proof.
  intros [(pg & Hpg & _ & Hd) _ _ _ _ _]. unfold page_slab_allocator, get_page. rewrite Hpg.
  cbn [deref]. by rewrite outcome_bind_ok, Hd.
Qed.

(** The bytes of an object are overwritten, and its link is set. *)
Lemma free_memory_ok st a p i v : class_ok a -> valid_index a i -> in_u 32 v ->
  (forall q, in_slab a p q -> exists es, frames st !! q = Some es /\ length es = 512%nat) ->
  exists st1 fr, bzero_words (obj p a i) (object_size a) st = Ok st1 /\ same_but_words st st1 /\
  forall st2, frames st2 = frames st1 -> exists st3, store32 (obj p a i) v st2 = Ok st3 /\
    st3 = set_frames fr st2 /\ (forall x, mapped st1 x -> mapped st3 x) /\
    load32 (obj p a i) st3 = Ok v /\
    forall x, ~ obj p a i / 8 <= x / 8 < obj p a i / 8 + object_size a / 8 ->
      load64 x st3 = load64 x st.
Proof.
  intros Hc Hi Hv Hm. pose proof (co_size a Hc). pose proof (obj_size_words a Hc).
  pose proof (Z.mul_div_le (object_size a) 8 ltac:(lia)).
  destruct (zero_words_ok (Z.to_nat (object_size a / 8)) (obj p a i) st) as (st1 & E1 & S1 & L1).
  { by apply obj_aligned8. }
  { intros k Hk. apply (slab_mapped a Hc st p Hm); [done|lia]. }
  rewrite Z2Nat.id in L1 by lia.
  assert (mapped st1 (obj p a i)) as Hm1 by (apply S1, (slab_mapped0 a Hc st p Hm); done).
  destruct (store32_ok (obj p a i) v st1) as (s3 & E3 & [[fr ->] M3] & L3 & K3);
    [done|by apply obj_aligned8|done|].
  exists st1, fr. split_and!; [done..|]. intros st2 Ef. exists (set_frames fr st2).
  split_and!; try done.
  - revert E3. unfold store32. rewrite Ef. destruct (deref _); [|done..]. cbn [mbind outcome_bind].
    destruct (nth_entry _ _); [|done..]. cbn [mbind outcome_bind].
    destruct (set_entry _ _ _); [|done..]. cbn [mbind outcome_bind]. intros [= <-]. done.
  - intros x Hx. change (load64 x (set_frames fr st2)) with (load64 x (set_frames fr st1)).
    rewrite K3 by lia. by apply L1.
Qed.

(** The list of slabs gets a slab back that was full. *)
Definition free_list_after (p : Z) (l : list Z) (a : slab_allocator) : slab_allocator :=
  match l with [] => with_slabs (p :: slab_head_list a) a | _ => a end.

Lemma slab_free_unfold h S ai a p i l : heap_ok h S -> S !! p = Some (ai, l) ->
  allocators h !! ai = Some a -> valid_index a i ->
  l = [] \/ Z.of_nat (length l) + 1 < object_count_per_slab a ->
  exists st', let a' := free_list_after p l (with_counts (free_obj_count a + 1) (slab_count a) a) in
  slab_free (obj p a i) h = Ok (put_allocator ai a' st' h) /\
  (exists fr m', st' = set_frames fr (set_pages m' (hp_mm h)) /\
    touches p (p + 1) (pages (hp_mm h)) m' /\
    page_is m' p PAGE_STATE_SLAB_HEAD
      (Slab_head (Some ai) (Some (Z.of_nat (length l) + 1)) (Some i))) /\
  (forall x, mapped (hp_mm h) x -> mapped st' x) /\
  load32 (obj p a i) st' = Ok (first_of l) /\
  forall x, ~ obj p a i / 8 <= x / 8 < obj p a i / 8 + object_size a / 8 ->
    load64 x st' = load64 x (hp_mm h).
Proof.
  intros K Hp Ha Hi Hroom. destruct (hk_slab h S K p ai l Hp) as (a0 & Ha0 & Hs).
  assert (a0 = a) as -> by congruence. pose proof (hk_class h S K ai a Ha) as Hc.
  pose proof Hs as [S1 S2 S3 S4 S5 S6]. pose proof (co_count a Hc).
  pose proof (slab_free_le a l S3 S4) as Hle.
  assert (in_u 32 (first_of l)) as Hfirst.
  { destruct l as [|j l]; unfold first_of; simpl; [unfold_ints; lia|].
    apply Forall_cons in S4 as [[? ?] _]. unfold_ints. lia. }
  destruct (free_memory_ok (hp_mm h) a p i (first_of l) Hc Hi Hfirst S6)
    as (st1 & fr & E1 & [(fr1 & ->) M1] & Hst).
  unfold slab_free. rewrite (slab_head_of_ok _ ai a p l i Hc Hs Hi), outcome_bind_ok.
  rewrite (page_slab_allocator_ok _ ai a p l Hs), outcome_bind_ok.
  unfold get_allocator. rewrite Ha. cbn [deref]. rewrite outcome_bind_ok, E1, outcome_bind_ok.
  set (st1 := set_frames fr1 (hp_mm h)) in *.
  rewrite (slab_head_ok st1 _ _ _ _ _ S1), outcome_bind_ok. cbv beta iota zeta.
  replace (u32 (Z.of_nat (length l) + 1)) with (Z.of_nat (length l) + 1)
    by (rewrite wrap_small by (unfold_ints; lia); lia).
  replace (negb (Z.of_nat (length l) + 1 =? 1) && (Z.of_nat (length l) + 1 =?
      object_count_per_slab (with_counts (free_obj_count a + 1) (slab_count a) a))) with false.
  2: { symmetry. apply andb_false_iff. cbn [object_count_per_slab with_counts].
       destruct Hroom as [->|]; [left; done|right; apply Z.eqb_neq; lia]. }
  destruct (Hst st1 eq_refl) as (st3 & -> & E3 & M3 & L3 & K3). rewrite outcome_bind_ok.
  replace (if negb (Z.of_nat (length l) + 1 =? 1) then _ else _)
    with (free_list_after p l (with_counts (free_obj_count a + 1) (slab_count a) a)).
  2: { destruct l; [done|]. rewrite (proj2 (Z.eqb_neq _ 1)) by (cbn [length]; lia). done. }
  set (a' := free_list_after _ _ _).
  assert (get_free_index p (obj p a i) a' = Ok i) as ->.
  { rewrite <- (get_free_index_ok a Hc p i). unfold a', free_list_after. by destruct l. }
  rewrite outcome_bind_ok. replace (u32 i) with i
    by (unfold valid_index in Hi; rewrite wrap_small; [done|unfold_ints; lia]).
  assert (page_is (pages st3) p PAGE_STATE_SLAB_HEAD
    (Slab_head (Some ai) (Some (Z.of_nat (length l))) (Some (first_of l)))) as S1' by by rewrite E3.
  destruct (set_slab_head_ok p _ _ ai (Z.of_nat (length l) + 1) i st3 S1') as (m' & -> & T & P).
  rewrite outcome_bind_ok. exists (set_pages m' st3). cbv zeta. split; [done|]. split_and!.
  - exists fr, m'. split_and!; [by rewrite E3|by rewrite E3 in T|done].
  - intros x Hx. by apply M3, M1.
  - exact L3.
  - exact K3.
Qed.

Lemma slab_free_ok h S ai a p i l : heap_ok h S -> S !! p = Some (ai, l) ->
  allocators h !! ai = Some a -> valid_index a i -> i ∉ l ->
  l = [] \/ Z.of_nat (length l) + 1 < object_count_per_slab a ->
  exists st', let a' := free_list_after p l (with_counts (free_obj_count a + 1) (slab_count a) a) in
  slab_free (obj p a i) h = Ok (put_allocator ai a' st' h) /\
  heap_ok (put_allocator ai a' st' h) (<[p := (ai, i :: l)]> S) /\
  forall x, ~ obj p a i / 8 <= x / 8 < obj p a i / 8 + object_size a / 8 ->
    load64 x st' = load64 x (hp_mm h).
Proof.
  intros K Hp Ha Hi Hil Hroom. pose proof (hk_class h S K ai a Ha) as Hc.
  destruct (slab_free_unfold h S ai a p i l K Hp Ha Hi Hroom)
    as (st' & E & (fr & m' & -> & T & P) & M & L & W).
  eexists. cbv zeta. split; [exact E|]. split; [|exact W].
  destruct (hk_slab h S K p ai l Hp) as (a0 & Ha0 & [S1 S2 S3 S4 S5 S6]).
  assert (a0 = a) as -> by congruence. pose proof (co_size a Hc).
  destruct (head_step h S ai a p l m' _ _ K Hp Ha T P fr) as (H1 & H2 & H3).
  apply (heap_put h S ai a); [done..|]. split; try done.
  - by destruct l.
  - pose proof (hk_nodup h S K ai a Ha). destruct l as [|j l]; [|done]. simpl.
    apply NoDup_cons. split; [|done]. intros (l' & Hl' & Hne)%(hk_list h S K ai a p Ha).
    rewrite Hp in Hl'. by simplify_eq.
  - intros q. destruct l as [|j l]; simpl; [rewrite elem_of_cons|]; destruct (decide (q = p)) as [->|].
    + split; [discriminate|by left].
    + naive_solver.
    + split; [discriminate|]. intros _. apply (hk_list h S K ai a p Ha). by exists (j :: l).
    + done.
  - by rewrite Hp; intros x [= <-].
  - rewrite Hp. simpl. rewrite free_in_own. destruct l; simpl; f_equal; lia.
  - intros x Hx. apply W. intros Hw. apply Hx.
    assert (x / 8 = (obj p a i + (x - obj p a i)) / 8) by (f_equal; lia).
    rewrite <- (Zplus_minus (obj p a i) x). apply obj_in_slab; [done..|].
    pose proof (obj_aligned8 a Hc p i) as H8. pose proof (Z.mul_div_le (object_size a) 8 ltac:(lia)).
    pose proof (Z.div_mod (obj p a i) 8 ltac:(lia)). pose proof (Z.div_mod x 8 ltac:(lia)).
    pose proof (Z.mod_pos_bound x 8 ltac:(lia)). lia.
  - by apply (hs_others_known h S ai a p l).
  - split; try done.
    + replace (Z.of_nat (length (i :: l))) with (Z.of_nat (length l) + 1) by (cbn [length]; lia).
      exact P.
    + intros q Hq. destruct T as [T _]. unfold page_is. simpl. rewrite T by lia. by apply S2.
    + by apply NoDup_cons.
    + by apply Forall_cons.
    + split; [exact L|]. apply (chain_ext a Hc (hp_mm h)); [|done]. intros j Hj. apply W.
      apply obj_words_ne; [done|]. by intros ->.
    + intros q Hq. destruct (S6 q Hq) as (es & He & Hl).
      destruct (M (frame_addr q)) as (es' & He' & Hl');
        unfold mapped, addr_frame, frame_addr in *;
        rewrite (Z.mul_comm PAGE_SIZE), Z.div_mul in * by done; eauto.
Qed.

(** ** Objects in use *)

(** [size] bytes at [mem] are an object that has been handed out. *)
Definition live_at (h : heap) (S : slabs) (mem size : Z) : Prop :=
  exists p ai l a i, S !! p = Some (ai, l) /\ allocators h !! ai = Some a /\
  valid_index a i /\ (i ∉ l) /\ mem = obj p a i /\ size = object_size a.

(** The objects of one slab that are not on its free list. *)
Definition live_in (p : Z) (a : slab_allocator) (l : list Z) (mem size : Z) : Prop :=
  exists i, valid_index a i /\ (i ∉ l) /\ mem = obj p a i /\ size = object_size a.

Lemma live_split h S ai a p l m n : S !! p = Some (ai, l) -> allocators h !! ai = Some a ->
  live_at h S m n <-> live_in p a l m n \/ live_at h (delete p S) m n.
Proof.
  intros Hp Ha. split.
  - intros (p' & ai' & l' & a' & i & Hp' & Ha' & H). destruct (decide (p' = p)) as [->|].
    + left. simplify_eq. by exists i.
    + right. exists p', ai', l', a', i. by rewrite lookup_delete_ne.
  - intros [(i & H)|(p' & ai' & l' & a' & i & [Hne Hp']%lookup_delete_Some & Ha' & H)].
    + by exists p, ai, l, a, i.
    + by exists p', ai', l', a', i.
Qed.

Lemma live_put h S ai a a' p l st' m n : allocators h !! ai = Some a -> same_class a a' ->
  live_at (put_allocator ai a' st' h) (<[p := (ai, l)]> S) m n <->
  live_in p a l m n \/ live_at h (delete p S) m n.
Proof.
  intros Ha Hc. assert (forall p' i b b', same_class b b' -> obj p' b' i = obj p' b i) as Ho.
  { intros p' i b b' (E & _). unfold obj. by rewrite E. }
  assert (forall i b b', same_class b b' -> valid_index b' i <-> valid_index b i) as Hv.
  { intros i b b' (_ & _ & E). unfold valid_index. by rewrite E. }
  rewrite (live_split (put_allocator ai a' st' h) _ ai a' p l), delete_insert_eq
    by (apply lookup_insert_eq || by apply list_lookup_inserted with a).
  assert (live_in p a' l m n <-> live_in p a l m n) as ->.
  { unfold live_in. pose proof Hc as (E & _). rewrite E.
    split; intros (i & H1 & H2 & H3 & H4); exists i; rewrite (Hv i a a'), (Ho p i a a') in *; done. }
  split; (intros [?|(p' & ai' & l' & b' & i & H1 & H2 & H3 & H4 & -> & ->)]; [by left|right]).
  - apply (put_lookup h ai a a' st' ai' b' Ha Hc) in H2 as (b & Hb & Hcb & _).
    exists p', ai', l', b, i. rewrite (Ho p' i b b'), (proj1 Hcb) by done.
    split_and!; try done. by apply (Hv i b b').
  - destruct (decide (ai' = ai)) as [->|].
    + assert (b' = a) as -> by congruence. exists p', ai, l', a', i.
      rewrite (Ho p' i a a'), (proj1 Hc) by done. split_and!; try done.
      * simpl. by apply list_lookup_inserted with a.
      * by apply (Hv i a a').
    + exists p', ai', l', b', i. split_and!; try done. simpl. by rewrite list_lookup_insert_ne.
Qed.

Lemma live_in_take p a i l m n : class_ok a -> valid_index a i -> (i ∉ l) ->
  live_in p a l m n <-> live_in p a (i :: l) m n \/ (m = obj p a i /\ n = object_size a).
Proof.
  intros Hc Hi Hil. split.
  - intros (j & H1 & H2 & -> & ->). destruct (decide (j = i)) as [->|]; [by right|]. left.
    exists j. split_and!; try done. rewrite not_elem_of_cons. done.
  - intros [(j & H1 & [_ H2]%not_elem_of_cons & H3)|[-> ->]]; [by exists j|by exists i].
Qed.

Lemma obj_inj p a i j : class_ok a -> obj p a i = obj p a j -> i = j.
Proof. intros Hc. unfold obj. pose proof (co_size a Hc). nia. Qed.

(** Objects in use do not overlap. *)
Lemma live_disjoint h S m n m' n' : heap_ok h S -> live_at h S m n -> live_at h S m' n' ->
  m = m' /\ n = n' \/ m + n <= m' \/ m' + n' <= m.
Proof.
  intros K (p & ai & l & a & i & Hp & Ha & Hi & _ & -> & ->)
    (p' & ai' & l' & a' & i' & Hp' & Ha' & Hi' & _ & -> & ->).
  pose proof (hk_class h S K ai a Ha) as Hc. pose proof (hk_class h S K ai' a' Ha') as Hc'.
  pose proof (co_size a Hc). pose proof (co_size a' Hc').
  destruct (decide (p = p')) as [<-|Hne].
  - simplify_eq. unfold obj. destruct (decide (i = i')) as [->|]; [by left|right].
    assert (i < i' \/ i' < i) as [?|?] by lia; [left|right]; nia.
  - right. destruct (decide (obj p a i + object_size a <= obj p' a' i')) as [|H1]; [by left|].
    destruct (decide (obj p' a' i' + object_size a' <= obj p a i)) as [|H2]; [by right|].
    exfalso. apply Hne. set (x := Z.max (obj p a i) (obj p' a' i')).
    apply (hk_disj h S K p p' ai ai' l l' a a' (addr_frame x) Hp Hp' Ha Ha').
    + replace x with (obj p a i + (x - obj p a i)) by lia. apply obj_in_slab; [done..|lia].
    + replace x with (obj p' a' i' + (x - obj p' a' i')) by lia. apply obj_in_slab; [done..|lia].
Qed.
