(* ===== verification/SlabThms.v ===== *)
(** * What the slab allocator and kmalloc guarantee

    The properties of kernel/mm/slab.c and kmalloc.c, on the invariant of
    SlabInv.v, each with a concrete heap it applies to. *)
From S2P Require Import Prelude CArith PageAlloc PageBlocks PageAllocInv PageAllocThms Slab SlabInv.

(** An object that has just been handed out: [size] bytes at [mem], away from
    every object in use, with the contents of all other memory in use kept. *)
Record fresh_object (h : heap) (S : slabs) (mem size : Z) (h' : heap) (S' : slabs) : Prop := {
  fo_aligned : mem `mod` 16 = 0;
  fo_apart : forall m n, live_at h S m n -> m + n <= mem \/ mem + size <= m;
  fo_live : forall m n, live_at h' S' m n <-> live_at h S m n \/ (m = mem /\ n = size);
  fo_words : forall x, (forall j, ~ mm_free (hp_mm h) j (addr_frame x)) ->
    load64 x (hp_mm h') = load64 x (hp_mm h);
  fo_sizes : object_size <$> allocators h' = object_size <$> allocators h;
  fo_init : kmalloc_is_initialized h' = kmalloc_is_initialized h;
}.

Lemma source_live h S S1 ai a st1 m n : slab_source h S S1 ai a st1 ->
  allocators h !! ai = Some a -> live_at h S1 m n <-> live_at h S m n.
Proof.
  intros [[-> _]|(_ & p & Hp & _ & ->)] Ha; [done|].
  rewrite (live_split h _ ai a p (seqZ 0 (object_count_per_slab a)))
    by (done || apply lookup_insert_eq).
  rewrite delete_insert_id by done. split; [|by right]. intros [(i & Hi & Hn & _)|]; [|done].
  destruct Hn. apply elem_of_seqZ. unfold valid_index in Hi. lia.
Qed.

Lemma source_words h S S1 ai a st1 x : slab_source h S S1 ai a st1 ->
  (forall j, ~ mm_free (hp_mm h) j (addr_frame x)) -> load64 x st1 = load64 x (hp_mm h).
Proof.
  intros [[_ ->]|(_ & p & _ & N & _)] Hx; [done|].
  apply (ns_words _ _ _ _ _ N). intros Hin. destruct (ns_was _ _ _ _ _ N) as [j Hj].
  by apply (Hx j), Hj.
Qed.

(** The next free object of a slab is one of it, and not free twice. *)
Lemma source_valid h S S1 ai a st1 p i l : heap_ok h S -> allocators h !! ai = Some a ->
  slab_source h S S1 ai a st1 -> S1 !! p = Some (ai, i :: l) ->
  valid_index a i /\ (i ∉ l).
Proof.
  intros K Ha Hsrc Hp.
  assert (S !! p = Some (ai, i :: l) -> valid_index a i /\ (i ∉ l)) as Hold.
  { intros HS. destruct (hk_slab h S K p ai (i :: l) HS) as (b & Hb & Hsb). simplify_eq.
    pose proof (so_valid _ _ _ _ _ Hsb) as [Hv _]%Forall_cons.
    by pose proof (so_nodup _ _ _ _ _ Hsb) as [? _]%NoDup_cons. }
  destruct Hsrc as [[-> _]|(_ & p0 & Hp0 & _ & ->)]; [by apply Hold|].
  destruct (decide (p = p0)) as [->|Hne]; [|by rewrite lookup_insert_ne in Hp; auto].
  rewrite lookup_insert_eq in Hp. injection Hp as Hp.
  pose proof (NoDup_seqZ 0 (object_count_per_slab a)) as Hnd. rewrite Hp in Hnd.
  apply NoDup_cons in Hnd as [? _]. split; [|done].
  assert (i ∈ seqZ 0 (object_count_per_slab a)) as [? ?]%elem_of_seqZ by (rewrite Hp; by left).
  unfold valid_index. lia.
Qed.

(** Objects of different slabs have different addresses. *)
Lemma obj_other_slab h S p p' ai ai' l l' a a' i i' : heap_ok h S ->
  S !! p = Some (ai, l) -> S !! p' = Some (ai', l') ->
  allocators h !! ai = Some a -> allocators h !! ai' = Some a' ->
  valid_index a i -> valid_index a' i' -> obj p a i = obj p' a' i' -> p = p'.
Proof.
  intros K Hp Hp' Ha Ha' Hi Hi' E.
  pose proof (hk_class h S K ai a Ha) as Hc. pose proof (hk_class h S K ai' a' Ha') as Hc'.
  pose proof (co_size a Hc). pose proof (co_size a' Hc').
  pose proof (obj_in_slab a Hc p i 0 Hi ltac:(lia)) as H1.
  pose proof (obj_in_slab a' Hc' p' i' 0 Hi' ltac:(lia)) as H2. rewrite Z.add_0_r in H1, H2.
  apply (hk_disj h S K p p' ai ai' l l' a a' (addr_frame (obj p a i))); try done. by rewrite E.
Qed.

Lemma slab_alloc_fresh lock ai a h S : heap_ok h S -> allocators h !! ai = Some a ->
  slab_alloc lock ai h = Ok (None, h) /\ slab_head_list a = [] \/
  exists mem h' S', slab_alloc lock ai h = Ok (Some mem, h') /\ heap_ok h' S' /\
    fresh_object h S mem (object_size a) h' S'.
Proof.
  intros K Ha. pose proof (hk_class h S K ai a Ha) as Hc.
  destruct (slab_alloc_ok lock ai a h S K Ha)
    as [?|(S1 & st1 & p & i & l & a' & m' & E & Hsrc & Hp & C & K')]; [by left|right].
  cbv zeta in *. set (h' := put_allocator _ _ _ _) in *.
  assert (allocators h' !! ai = Some a') as Ha' by by apply list_lookup_inserted with a.
  destruct (hk_slab h' _ K' p ai l (lookup_insert_eq _ _ _)) as (a0 & Ha0 & Hs).
  assert (a0 = a') as -> by congruence.
  destruct (source_valid h S S1 ai a st1 p i l K Ha Hsrc Hp) as [Hi Hil].
  assert (forall m n, live_at h' (<[p := (ai, l)]> S1) m n <->
            live_at h S m n \/ (m = obj p a i /\ n = object_size a)) as Hlive.
  { intros m n. unfold h'. rewrite (live_put h S1 ai a a' p l) by done.
    rewrite (live_in_take p a i l) by done.
    rewrite <- (source_live h S S1 ai a st1) by done.
    rewrite (live_split h S1 ai a p (i :: l) m n) by done. tauto. }
  eexists _, h', _. split; [exact E|]. split; [exact K'|]. split.
  - by apply obj_aligned.
  - intros m n Hm. assert (live_at h' (<[p := (ai, l)]> S1) m n) as Hm' by (apply Hlive; by left).
    assert (live_at h' (<[p := (ai, l)]> S1) (obj p a i) (object_size a)) as Hx
      by (apply Hlive; by right).
    destruct (live_disjoint h' _ m n _ _ K' Hm' Hx) as [[-> ->]|?]; [exfalso|done].
    apply (source_live h S S1 ai a st1 _ _ Hsrc Ha) in Hm.
    rewrite (live_split h S1 ai a p (i :: l)) in Hm by done.
    destruct Hm as [(j & Hj & Hn & Ej & _)|(p' & ai' & l' & b & j & Hp' & Hb & Hj & _ & Ej & _)].
    + apply obj_inj in Ej as <-; [|done]. apply Hn. by left.
    + apply lookup_delete_Some in Hp' as [Hne Hp']. apply Hne.
      assert (exists b', allocators h' !! ai' = Some b' /\ same_class b b') as (b' & Hb' & Cb).
      { unfold h'. simpl. destruct (decide (ai' = ai)) as [->|].
        - exists a'. assert (b = a) as -> by congruence. done.
        - exists b. by rewrite list_lookup_insert_ne. }
      apply (obj_other_slab h' _ p p' ai ai' l l' a' b' i j K');
        [apply lookup_insert_eq|by rewrite lookup_insert_ne|done..| | |].
      * unfold valid_index. by rewrite (proj2 (proj2 C)).
      * unfold valid_index. by rewrite (proj2 (proj2 Cb)).
      * unfold obj in *. by rewrite (proj1 C), (proj1 Cb).
  - done.
  - intros x Hx. rewrite <- (source_words h S S1 ai a st1 x Hsrc Hx). done.
  - unfold h'. simpl. rewrite list_fmap_insert, (proj1 C). apply list_insert_id.
    by rewrite list_lookup_fmap, Ha.
  - done.
Qed.

(** ** Setting up an allocator *)
Lemma init_order_ok m : forall fuel order, 0 <= order ->
  m <= PAGE_SIZE * 2 ^ (order + Z.of_nat fuel) ->
  exists o, init_order fuel order m = Ok o /\ order <= o /\ m <= PAGE_SIZE * 2 ^ o /\
  (o = order \/ PAGE_SIZE * 2 ^ (o - 1) < m).
Proof.
  induction fuel as [|fuel IH]; intros order Ho Hm; cbn [init_order];
    rewrite Z.shiftl_mul_pow2 by lia; destruct (Z.ltb_spec (PAGE_SIZE * 2 ^ order) m) as [Hlt|Hge].
  - rewrite Z.add_0_r in Hm. lia.
  - exists order. split_and!; [done|lia|lia|by left].
  - destruct (IH (order + 1)) as (o & -> & H1 & H2 & H3); [lia| |].
    { by replace (order + 1 + Z.of_nat fuel) with (order + Z.of_nat (S fuel)) by lia. }
    exists o. split_and!; [done|lia|done|right].
    destruct H3 as [->|?]; [by replace (order + 1 - 1) with order by lia|done].
  - exists order. split_and!; [done|lia|lia|by left].
Qed.

(** The numbers of an allocator for objects of [size] bytes on slabs of order
    [o]. *)
Lemma class_bounds size o : 16 <= size <= 2 ^ 28 -> size `mod` 16 = 0 -> 0 <= o ->
  size * MIN_OBJ_PER_SLAB <= PAGE_SIZE * 2 ^ o ->
  (o = 0 \/ PAGE_SIZE * 2 ^ (o - 1) < size * MIN_OBJ_PER_SLAB) ->
  let n := PAGE_SIZE * 2 ^ o / size in
  o < MAX_ORDER /\ 4 <= n < 2 ^ 32 - 1 /\ n * size <= PAGE_SIZE * 2 ^ o /\ n * size < 2 ^ 32.
Proof.
  intros Hs Hm Ho Hmin Hmax n. unfold MIN_OBJ_PER_SLAB, MAX_ORDER in *.
  change PAGE_SIZE with (2 ^ 12) in *.
  assert (2 ^ 12 * 2 ^ o <= 2 ^ 31) as Hb.
  { destruct Hmax as [->|Hmax]; [done|].
    destruct (decide (o = 0)) as [->|]; [done|].
    replace o with (o - 1 + 1) by lia. rewrite pow2_succ by lia. lia. }
  pose proof (Z.mul_div_le (2 ^ 12 * 2 ^ o) size ltac:(lia)) as Hn.
  assert (4 <= n) as H4 by (apply Z.div_le_lower_bound; lia). fold n in Hn.
  split_and!; try nia. destruct (decide (o < 21)) as [|Hge]; [done|].
  pose proof (pow2_le 21 o ltac:(lia)). lia.
Qed.

(** The fields [slab_allocator_init] computes. *)
Record initialized (size : Z) (a : slab_allocator) : Prop := {
  in_class : class_ok a;
  in_size : object_size a = ceil_mult size 16;
  in_min : MIN_OBJ_PER_SLAB <= object_count_per_slab a;
  in_count : object_count_per_slab a = PAGE_SIZE * 2 ^ slab_order a / object_size a;
  in_order : slab_order a = 0 \/
    PAGE_SIZE * 2 ^ (slab_order a - 1) < object_size a * MIN_OBJ_PER_SLAB;
  in_empty : slab_head_list a = [] /\ free_obj_count a = 0;
}.

Lemma init_allocator_ok a size alloc_flags flags : 0 < size <= 2 ^ 28 ->
  exists a', slab_allocator_init a size alloc_flags flags = Ok (Some a') /\ initialized size a'.
Proof.
  intros Hs. unfold slab_allocator_init. change 16 with (2 ^ 4).
  pose proof (ceil_mult_spec size (2 ^ 4) ltac:(lia)) as [[Hl Hu] Hd].
  rewrite align_up_eq by (unfold_ints; lia). rewrite (proj2 (Z.ltb_lt (ceil_mult size (2 ^ 4)) _)) by lia.
  rewrite outcome_bind_ok. change (2 ^ 4) with 16 in *. set (osz := ceil_mult size 16) in *.
  assert (16 <= osz <= 2 ^ 28) as Hb.
  { destruct Hd as [k Hk]. assert (2 ^ 28 = 2 ^ 24 * 16) as E by done. lia. }
  assert (osz `mod` 16 = 0) as Hmod by (apply Z.mod_divide; [lia|done]).
  destruct (init_order_ok (osz * MIN_OBJ_PER_SLAB) 32 0 ltac:(lia)) as (o & -> & Ho & H1 & H2).
  { unfold MIN_OBJ_PER_SLAB. change PAGE_SIZE with 4096. change (0 + Z.of_nat 32) with 32. lia. }
  rewrite outcome_bind_ok. destruct (class_bounds osz o Hb Hmod Ho H1 H2) as (B1 & B2 & B3 & B4).
  rewrite Z.shiftl_mul_pow2 by lia. eexists. split; [done|].
  assert (u32 osz = osz) as E1 by (apply wrap_small; unfold_ints; lia).
  assert (u32 (PAGE_SIZE * 2 ^ o / osz) = PAGE_SIZE * 2 ^ o / osz) as E2
    by (apply wrap_small; unfold_ints; lia).
  split; simpl; rewrite ?E1, ?E2; try done.
  - split; simpl; rewrite ?E1, ?E2; (done || lia).
  - unfold MIN_OBJ_PER_SLAB. lia.
Qed.

(** ** The heap kmalloc starts with *)
Definition kmalloc_classes : list Z :=
  [16; 32; 64; 96; 128; 192; 256; 384; 512; 768; 1024; 1536; 2048; 4096; 6112; 8192].
Definition kmalloc_ready (h : heap) : Prop :=
  kmalloc_is_initialized h = true /\ take 16 (object_size <$> allocators h) = kmalloc_classes.

(** The allocators before any object is handed out. *)
Record all_empty (l : list slab_allocator) : Prop := {
  ae_class : Forall class_ok l;
  ae_list : Forall (fun a => slab_head_list a = [] /\ free_obj_count a = 0) l;
}.

Lemma empty_heap_ok h : mm_wf (hp_mm h) -> all_empty (allocators h) -> heap_ok h ∅.
Proof.
  intros Hwf [H1 H2]. rewrite Forall_lookup in H1, H2. split; try done.
  - intros ai a p Ha. destruct (H2 ai a Ha) as [-> _]. split; [by intros ?%elem_of_nil|].
    by intros (? & ? & _).
  - intros ai a Ha. destruct (H2 ai a Ha) as [-> _]. constructor.
  - intros ai a Ha. by destruct (H2 ai a Ha) as [_ ->].
Qed.

Lemma init_from_ok sizes : Forall (fun n => 0 < n <= 2 ^ 28) sizes ->
  exists l, kmalloc_init_from sizes = Ok l /\ all_empty l /\
  object_size <$> l = (fun n => ceil_mult n 16) <$> sizes.
Proof.
  induction 1 as [|n sizes Hn _ (l & E & [H1 H2] & Hl)]; [by exists []|].
  cbn [kmalloc_init_from]. destruct (init_allocator_ok zeroed_allocator n 0 0 Hn) as (a & -> & I).
  rewrite outcome_bind_ok, E, outcome_bind_ok. exists (a :: l). split; [done|]. split.
  - split; constructor; try done; apply I.
  - rewrite !fmap_cons, Hl. f_equal. apply I.
Qed.

Lemma kmalloc_init_ok st : mm_wf st ->
  exists h, kmalloc_init st = Ok h /\ hp_mm h = st /\ heap_ok h ∅ /\ kmalloc_ready h.
Proof.
  intros Hwf. unfold kmalloc_init. destruct (init_from_ok kmalloc_sizes) as (l & -> & Hl & Hs).
  { unfold kmalloc_sizes. repeat constructor; lia. }
  rewrite outcome_bind_ok. eexists. split; [done|]. split; [done|].
  split; [by apply empty_heap_ok|]. split; [done|]. cbn [allocators]. rewrite Hs. reflexivity.
Qed.

(** The search for the first class that is large enough. *)
Lemma find_allocator_ok size : forall l ai, Exists (fun a => size <= object_size a) l ->
  exists k a, find_allocator l ai size = Ok (ai + k)%nat /\ l !! k = Some a /\
  size <= object_size a /\ forall j b, (j < k)%nat -> l !! j = Some b -> object_size b < size.
Proof.
  intros l. induction l as [|b l IH]; intros ai Hex; [by apply Exists_nil in Hex|].
  cbn [find_allocator]. destruct (Z.ltb_spec (object_size b) size) as [Hlt|Hge].
  - apply Exists_cons in Hex as [|Hex]; [lia|].
    destruct (IH (S ai) Hex) as (k & a & -> & Ha & Hsz & Hmin). exists (S k), a.
    split; [f_equal; lia|]. split_and!; [done..|]. intros [|j] c Hj Hc; [by simplify_eq/=|].
    apply (Hmin j); [lia|done].
  - exists 0%nat, b. split; [f_equal; lia|]. split_and!; [done..|]. intros j c Hj. lia.
Qed.

Lemma ready_lookup h j : kmalloc_ready h -> (j < 16)%nat ->
  object_size <$> allocators h !! j = kmalloc_classes !! j.
Proof. intros [_ <-] Hj. by rewrite lookup_take_lt, list_lookup_fmap by done. Qed.

Lemma classes_sorted j k c d : (k <= j)%nat -> kmalloc_classes !! k = Some d ->
  kmalloc_classes !! j = Some c -> d <= c.
Proof.
  assert (Forall (fun k => Forall (fun j => (k <= j)%nat ->
    default 0 (kmalloc_classes !! k) <= default 0 (kmalloc_classes !! j)) (seq 0 16)) (seq 0 16)) as H
    by (apply (bool_decide_eq_true_1 _); vm_compute; reflexivity).
  rewrite Forall_forall in H. intros Hkj Hk Hj.
  specialize (H k). rewrite Forall_forall in H. specialize (H ltac:(apply elem_of_seq;
    apply lookup_lt_Some in Hk; simpl in Hk; lia) j ltac:(apply elem_of_seq;
    apply lookup_lt_Some in Hj; simpl in Hj; lia) Hkj). by rewrite Hk, Hj in H.
Qed.

Lemma kmalloc_class_ok h size : kmalloc_ready h -> 0 < size <= KMALLOC_MAX ->
  exists ai a, find_allocator (allocators h) 0 size = Ok ai /\ allocators h !! ai = Some a /\
  size <= object_size a /\ forall c, c ∈ kmalloc_classes -> size <= c -> object_size a <= c.
Proof.
  intros Hr Hs. unfold KMALLOC_MAX in Hs. pose proof (ready_lookup h 15 Hr ltac:(lia)) as Hlast.
  destruct (allocators h !! 15%nat) as [b|] eqn:Hb; [|done]. simpl in Hlast.
  assert (object_size b = 8192) as Hb' by congruence.
  destruct (find_allocator_ok size (allocators h) 0) as (k & a & E & Ha & Hsz & Hmin).
  { apply Exists_exists. exists b. split; [by eapply list_elem_of_lookup_2|lia]. }
  assert (k < 16)%nat as Hk.
  { apply Nat.nle_gt. intros Hge. assert (object_size b < size) by (apply (Hmin 15%nat); [lia|done]). lia. }
  exists k, a. split_and!; [done..|]. intros c (j & Hj)%list_elem_of_lookup_1 Hc.
  pose proof (ready_lookup h k Hr Hk) as Hka. rewrite Ha in Hka. simpl in Hka.
  destruct (decide (k <= j)%nat) as [Hkj|Hjk]; [by apply (classes_sorted j k)|].
  pose proof (ready_lookup h j Hr ltac:(lia)) as Hja. rewrite Hj in Hja.
  destruct (allocators h !! j) as [d|] eqn:Hd; [|done]. simpl in Hja.
  pose proof (Hmin j d ltac:(lia) Hd). injection Hja as Hja. lia.
Qed.

(** ** Properties *)


(** A heap on 64 free pages, and the heaps after a few calls. *)
Definition ex_heap : heap :=
  match kmalloc_init (ex_full 64) with
  | Ok h => h
  | _ => {| hp_mm := ex_full 64; allocators := []; kmalloc_is_initialized := false |}
  end.
Definition after_kmalloc (size : Z) (h : heap) : heap :=
  match kmalloc ex_lock size h with Ok (_, h) => h | _ => h end.

Lemma ex_heap_ok : heap_ok ex_heap ∅ /\ kmalloc_ready ex_heap.
Proof.
  unfold ex_heap. destruct (kmalloc_init_ok (ex_full 64)) as (h & -> & _ & H1 & H2);
    [apply ex_full_wf; lia|done].
Qed.

Definition ex_class (ai : nat) (h : heap) : slab_allocator :=
  default zeroed_allocator (allocators h !! ai).


(** The heap after one and after two objects of 2000 bytes. *)
Definition ex_heap1 : heap := after_kmalloc 2000 ex_heap.
Definition ex_heap2 : heap := after_kmalloc 2000 ex_heap1.

Lemma ex_heap1_ok : heap_ok ex_heap1 {[0 := (12%nat, [1; 2; 3])]}.
Proof.
  assert (kmalloc ex_lock 2000 ex_heap = slab_alloc ex_lock 12 ex_heap) as Ek
    by (vm_compute; reflexivity).
  assert (allocators ex_heap !! 12%nat = Some (ex_class 12 ex_heap)) as Ha
    by (vm_compute; reflexivity).
  assert (exists h, slab_alloc ex_lock 12 ex_heap = Ok (Some 0, h)) as [h0 E0]
    by (eexists; vm_compute; reflexivity).
  unfold ex_heap1, after_kmalloc. rewrite Ek.
  destruct (slab_alloc_ok ex_lock 12 _ ex_heap ∅ (proj1 ex_heap_ok) Ha)
    as [[E _]|(S1 & st1 & p & i & l & a' & m' & E & Hsrc & Hp & _ & K)]; [congruence|].
  cbv zeta in E, K. rewrite E in E0 |- *. injection E0 as Emem _.
  destruct Hsrc as [[-> _]|(_ & p0 & _ & _ & ->)]; [by rewrite lookup_empty in Hp|].
  destruct (decide (p = p0)) as [->|Hne].
  2: { rewrite lookup_insert_ne in Hp by done. by rewrite lookup_empty in Hp. }
  rewrite lookup_insert_eq in Hp.
  change (seqZ 0 (object_count_per_slab (ex_class 12 ex_heap))) with (seqZ 0 4) in Hp.
  injection Hp as <- <-.
  unfold obj, frame_addr in Emem. change PAGE_SIZE with 4096 in Emem.
  assert (p0 = 0) as -> by lia. by rewrite insert_insert_eq in K.
Qed.

Lemma ex_heap2_ok : heap_ok ex_heap2 {[0 := (12%nat, [2; 3])]}.
Proof.
  assert (kmalloc ex_lock 2000 ex_heap1 = slab_take_object 12 0 ex_heap1) as Ek
    by (vm_compute; reflexivity).
  assert (allocators ex_heap1 !! 12%nat = Some (ex_class 12 ex_heap1)) as Ha
    by (vm_compute; reflexivity).
  destruct (slab_take_ok ex_heap1 _ 12 _ 0 1 [2; 3] ex_heap1_ok (lookup_singleton_eq _ _) Ha)
    as (a' & m' & E & _ & K).
  unfold ex_heap2, after_kmalloc. rewrite Ek, E. by rewrite insert_singleton_eq in K.
Qed.





(** C20: for every object size up to 2^28 bytes [slab_allocator_init] succeeds:
    the size is rounded up to a multiple of 16, the slab is the smallest power
    of two of pages with room for four objects and holds as many as fit, and
    no arithmetic leaves its type.  The loop that looks for the order ends. *)
Theorem slab_allocator_init_ok a size alloc_flags flags : 0 < size <= 2 ^ 28 ->
  exists a', slab_allocator_init a size alloc_flags flags = Ok (Some a') /\ initialized size a'.
Proof. apply init_allocator_ok. Qed.

Lemma slab_allocator_init_ok_witness :
  exists a', slab_allocator_init zeroed_allocator 6102 0 0 = Ok (Some a') /\ initialized 6102 a'.
Proof. apply (slab_allocator_init_ok zeroed_allocator 6102 0 0). lia. Defined.

(** the loop of [alloc_slab_page] that sets [page->slab.allocator] stops
    one page short.  For every new slab of more than one page,
    [slab_object_size] and so [krealloc] of any address in its last page read
    a field that was never stored. *)
Theorem last_slab_page_has_no_allocator lock ai a h p h' mem size :
  kmalloc_is_initialized h = true -> mm_wf (hp_mm h) -> class_ok a ->
  allocators h !! ai = Some a -> 0 < slab_order a ->
  alloc_slab_page lock ai h = Ok (Some p, h') ->
  addr_frame mem = p + 2 ^ slab_order a - 1 -> size <> 0 ->
  slab_object_size (Some mem) h' = Undef /\ krealloc lock (Some mem) size h' = Undef.
Proof.
  intros Hi Hwf Hc Ha Ho E Hmem Hsz.
  destruct (alloc_slab_page_ok lock ai a h Hwf Hc Ha) as [E'|(q & st' & a' & E' & N & _)];
    rewrite E in E'; simplify_eq.
  assert (slab_object_size (Some mem) (put_allocator ai a' st' h) = Undef) as Hu.
  { destruct (ns_last _ _ _ _ _ N Ho) as (pg & Hpg & Hs & Hd).
    unfold slab_object_size, page_get_state, page_slab_allocator, get_page. simpl.
    rewrite Hmem, Hpg. simpl. rewrite Hs. simpl. by rewrite Hd. }
  split; [done|]. unfold krealloc. cbn [kmalloc_is_initialized put_allocator].
  rewrite Hi, (proj2 (Z.eqb_neq size 0)) by done. cbn [c_assert]. by rewrite outcome_bind_ok, Hu.
Qed.

Lemma last_slab_page_has_no_allocator_witness :
  exists h', alloc_slab_page ex_lock 12 ex_heap = Ok (Some 0, h') /\
  slab_object_size (Some 4096) h' = Undef /\ krealloc ex_lock (Some 4096) 4000 h' = Undef.
Proof.
  eexists. split; [vm_compute; reflexivity|].
  apply (last_slab_page_has_no_allocator ex_lock 12 (ex_class 12 ex_heap) ex_heap 0).
  - vm_compute. reflexivity.
  - apply (proj1 ex_heap_ok).
  - apply (hk_class ex_heap ∅ (proj1 ex_heap_ok) 12). vm_compute. reflexivity.
  - vm_compute. reflexivity.
  - vm_compute. reflexivity.
  - vm_compute. reflexivity.
  - vm_compute. reflexivity.
  - lia.
Defined.

(** when the last object of a slab is freed, [slab_free] hands the slab's
    order to [free_pages], which takes it for a number of pages.  Freeing the
    only 16-byte object of a heap writes outside the table of free lists;
    freeing the only 2000-byte object gives one page of the slab's two back
    and leaves the other one marked as a slab page. *)
Theorem last_object_loses_pages :
  (h ← (kmalloc ex_lock 16 ex_heap ≫= fun r => Ok (snd r)); kfree 0 h) = Undef /\
  exists h pg, (h ← (kmalloc ex_lock 2000 ex_heap ≫= fun r => Ok (snd r)); kfree 0 h) = Ok h /\
  (total_free <$> sections (hp_mm ex_heap)) = [64] /\ (total_free <$> sections (hp_mm h)) = [63] /\
  slab_head_list (ex_class 12 h) = [] /\
  pages (hp_mm h) !! 1 = Some pg /\ state pg = PAGE_STATE_SLAB_TAIL.
Proof.
  split; [vm_compute; reflexivity|]. eexists _, _. split; [vm_compute; reflexivity|].
  repeat (split; [vm_compute; reflexivity|]). vm_compute. reflexivity.
Qed.
