(* ===== verification/Vm.v ===== *)
(** * Virtual memory areas and mapped devices: vma.c, pagemap.c and mmio.c

    The functions of kernel/mm that allocate an object with kmalloc, put it
    into an address space and map it.  A [struct vm_area] or
    [struct mmio_region] is named by its address, as are the nodes in
    AddrSpace.v; its other fields are in a map of its own.  kmalloc returns
    zeroed memory, so fields that are not stored are 0.  A freed object is in no
    map; its list field keeps its links. *)
From stdpp Require Import functions.
From S2P Require Import Prelude CArith Range AvlTree AddrSpace PageAlloc Walker PgMap Slab.

Definition PROT_NONE : Z := 0.
Definition PROT_USER : Z := Z.shiftl 1 3.
Definition VMAP_BASE : Z := 0xffffd00000000000.
Definition VMAP_END : Z := 0xffffe00000000000.
Definition __ALLOC_ZERO : Z := Z.shiftl 1 0.

(** The fields behind the node. *)
Record vm_area := { vma_prot : Z; cachekind : vma_cachekind }.
Record mmio_region := { mmio_base : Z; mmio_size : Z; mmio_flags : Z }.
(** [sizeof]: a node has 80 bytes. *)
Definition sizeof_vm_area : Z := 80 + 8 + 8.
Definition sizeof_mmio_region : Z := 80 + 8 + 4 + 4.

(** The heap with the page allocator, an address space and what its nodes hold. *)
Record space (A : Type) := {
  sp_heap : heap;
  addrspace : address_space;
  objects : gmap positive A;
}.
Arguments sp_heap {A}. Arguments addrspace {A}. Arguments objects {A}.

Section space.
Context {A : Type} (lock : lock_oracle).
Definition set_heap (h : heap) (v : space A) : space A :=
  {| sp_heap := h; addrspace := addrspace v; objects := objects v |}.
Definition set_addrspace (t : address_space) (v : space A) : space A :=
  {| sp_heap := sp_heap v; addrspace := t; objects := objects v |}.
Definition set_objects (m : gmap positive A) (v : space A) : space A :=
  {| sp_heap := sp_heap v; addrspace := addrspace v; objects := m |}.
Definition memory (v : space A) : mm := hp_mm (sp_heap v).
Definition set_memory (st : mm) (v : space A) : space A := set_heap (set_mm st (sp_heap v)) v.

(** AVLNODE_INIT and ADDRSPACE_NODE_INIT, and the store to [node.range]. *)
Definition AVLNODE_INIT : avlnode := {| parent := None; left := None; right := None; height := 0 |}.
Definition init_node (node : positive) (r : range) (t : address_space) : outcome address_space :=
  d ← client t;
  let d := {| lists := list_init (Some node) (lists d);
              node_range := <[node := r]> (node_range d);
              largest_free_to_prev := <[node := 0]> (largest_free_to_prev d) |} in
  Ok (set_client (Ok d) (set_nodes (<[node := AVLNODE_INIT]> (nodes t)) t)).

(** An object of the heap with its node. *)
Definition alloc_object (size : Z) (r : range) (a : A) (v : space A) : outcome (option positive * space A) :=
  '(mem, h) ← kmalloc lock size (sp_heap v);
  let v := set_heap h v in
  match mem with
  | None => Ok (None, v)
  | Some mem =>
      let node := Z.to_pos mem in
      t ← init_node node r (addrspace v);
      Ok (Some node, set_objects (<[node := a]> (objects v)) (set_addrspace t v))
  end.
Definition free_object (node : positive) (v : space A) : outcome (space A) :=
  h ← kfree (Z.pos node) (sp_heap v);
  let t := set_nodes (delete node (nodes (addrspace v))) (addrspace v) in
  Ok (set_objects (delete node (objects v)) (set_addrspace t (set_heap h v))).
Definition range_of (node : positive) (v : space A) : outcome range :=
  d ← client (addrspace v); Ok (node_range d node).
End space.

(** ** kernel/mm/pagemap.c *)
Section vm.
Context (cpu_pagemap : pagemap) (lock : lock_oracle) (cfg : paging).
Context (ptwalker_early_alloc_pgtable_cb : ptwalker_alloc_pgtable_t pageop).
Context (supports_1gib_pages : bool).
Abbreviation make_mapping :=
  (arch_make_mapping cpu_pagemap lock cfg ptwalker_early_alloc_pgtable_cb).
Abbreviation unmap := (pgunmap_at cpu_pagemap lock cfg).
Abbreviation areas := (space vm_area).
Abbreviation regions := (space mmio_region).

(** [kernel] is [pagemap == &kernel_pagemap]. *)
Definition map_vma (kernel : bool) (pm : pagemap) (vma : positive) (phys_addr : Z) (v : areas) :
    outcome (bool * areas) :=
  a ← deref (objects v !! vma);
  r ← range_of vma v;
  '(map_result, st) ← make_mapping kernel supports_1gib_pages pm (RANGE_INIT phys_addr (size r))
                        (front r) (vma_prot a) (cachekind a) false (memory v);
  Ok (map_result, set_memory st v).

Definition pagemap_find_space_and_add_vma (kernel : bool) (pm : pagemap) (vma : positive)
    (in_range : range) (phys_addr align : Z) (v : areas) : outcome (bool * areas) :=
  '(addr, t) ← addrspace_find_space_and_add_node in_range vma align (addrspace v);
  let v := set_addrspace t v in
  if addr =? ADDRSPACE_INVALID_ADDR then Ok (false, v)
  else
    a ← deref (objects v !! vma);
    if vma_prot a =? PROT_NONE then Ok (true, v) else map_vma kernel pm vma phys_addr v.
Definition pagemap_add_vma (kernel : bool) (pm : pagemap) (vma : positive) (phys_addr : Z)
    (v : areas) : outcome (bool * areas) :=
  '(added, t) ← addrspace_add_node vma (addrspace v);
  let v := set_addrspace t v in
  if negb added then Ok (false, v)
  else
    a ← deref (objects v !! vma);
    if vma_prot a =? PROT_NONE then Ok (true, v) else map_vma kernel pm vma phys_addr v.

(** ** kernel/mm/vma.c *)
Definition vma_alloc (r : range) (prot : Z) (kind : vma_cachekind) (v : areas) :
    outcome (option positive * areas) :=
  alloc_object lock sizeof_vm_area r {| vma_prot := prot; cachekind := kind |} v.

(** What both functions do with the answer. *)
Definition keep_or_free (vma : positive) (r : outcome (bool * areas)) : outcome (option positive * areas) :=
  '(added, v) ← r;
  if (added : bool) then Ok (Some vma, v) else v ← free_object vma v; Ok (None, v).
Definition vma_create (kernel : bool) (pm : pagemap) (in_range : range) (phys size align prot : Z)
    (kind : vma_cachekind) (v : areas) : outcome (option positive * areas) :=
  aligned ← has_align phys PAGE_SIZE;
  c_assert aligned;;
  '(vma, v) ← vma_alloc (range_create_upto size) prot kind v;
  match vma with
  | None => Ok (None, v)
  | Some vma => keep_or_free vma (pagemap_find_space_and_add_vma kernel pm vma in_range phys align v)
  end.
Definition vma_create_at (kernel : bool) (pm : pagemap) (r : range) (phys_addr prot : Z)
    (kind : vma_cachekind) (v : areas) : outcome (option positive * areas) :=
  '(vma, v) ← vma_alloc r prot kind v;
  match vma with
  | None => Ok (None, v)
  | Some vma => keep_or_free vma (pagemap_add_vma kernel pm vma phys_addr v)
  end.

(** ** kernel/mm/mmio.c *)
Definition __MMIO_REGION_LOW4G : Z := Z.shiftl 1 0.
Definition __VMAP_MMIO_WT : Z := Z.shiftl 1 0.
Definition GUARD_PAGE_SIZE : Z := Z.min (kib 16) PAGE_SIZE.

Inductive prot_fail := PROT_FAIL_NONE | PROT_FAIL_PROT_NONE | PROT_FAIL_PROT_EXEC | PROT_FAIL_PROT_USER.
Definition verify_prot (prot : Z) : prot_fail :=
  if prot =? PROT_NONE then PROT_FAIL_PROT_NONE
  else if negb (Z.land prot PROT_EXEC =? 0) then PROT_FAIL_PROT_EXEC
  else if negb (Z.land prot PROT_USER =? 0) then PROT_FAIL_PROT_USER
  else PROT_FAIL_NONE.

(** [kernel_pagemap] is the pagemap of all regions; without a place for the
    region the object is not freed. *)
Definition map_mmio_region (kernel_pagemap : pagemap) (phys_range : range) (prot flags : Z)
    (v : regions) : outcome (option positive * regions) :=
  in_range ← range_create_end (VMAP_BASE + GUARD_PAGE_SIZE) VMAP_END;
  '(mmio, v) ← alloc_object lock sizeof_mmio_region (RANGE_INIT 0 (u64 (size phys_range + GUARD_PAGE_SIZE)))
                 {| mmio_base := 0; mmio_size := 0; mmio_flags := 0 |} v;
  match mmio with
  | None => Ok (None, v)
  | Some mmio =>
      '(virt_addr, t) ← addrspace_find_space_and_add_node in_range mmio PAGE_SIZE (addrspace v);
      let v := set_addrspace t v in
      if virt_addr =? ADDRSPACE_INVALID_ADDR then Ok (None, v)
      else
        '(map_success, st) ← make_mapping true supports_1gib_pages kernel_pagemap phys_range virt_addr prot
          (if negb (Z.land flags __VMAP_MMIO_WT =? 0) then VMA_CACHEKIND_WRITETHROUGH else VMA_CACHEKIND_NO_CACHE)
          false (memory v);
        let v := set_memory st v in
        if negb map_success then v ← free_object mmio v; Ok (None, v)
        else
          m ← deref (objects v !! mmio);
          let m := {| mmio_base := virt_addr; mmio_size := u32 (size phys_range); mmio_flags := mmio_flags m |} in
          Ok (Some mmio, set_objects (<[mmio := m]> (objects v)) v)
  end.

(** The size of the range is [PAGE_SIZE * order]. *)
Definition vmap_mmio_low4g (kernel_pagemap : pagemap) (prot order flags : Z) (v : regions) :
    outcome (option positive * regions) :=
  match verify_prot prot with
  | PROT_FAIL_NONE =>
      '(page, st) ← alloc_pages_from_zone lock page_zone_low4g PAGE_STATE_USED __ALLOC_ZERO order true (memory v);
      let v := set_memory st v in
      match page with
      | None => Ok (None, v)
      | Some page =>
          phys ← page_to_phys page (memory v);
          '(mmio, v) ← map_mmio_region kernel_pagemap (RANGE_INIT phys (u64 (PAGE_SIZE * order))) prot flags v;
          match mmio with
          | None => st ← free_pages page order (memory v); Ok (None, set_memory st v)
          | Some mmio => Ok (Some mmio, v)
          end
      end
  | _ => Ok (None, v)
  end.
Definition vmap_mmio (kernel_pagemap : pagemap) (phys_range : range) (prot flags : Z) (v : regions) :
    outcome (option positive * regions) :=
  if range_empty phys_range then Ok (None, v)
  else
    aligned ← range_has_align phys_range PAGE_SIZE;
    if negb aligned then Ok (None, v)
    else
      match verify_prot prot with
      | PROT_FAIL_NONE => map_mmio_region kernel_pagemap phys_range prot flags v
      | _ => Ok (None, v)
      end.

Definition mmio_region_get_range (m : mmio_region) : range := RANGE_INIT (mmio_base m) (mmio_size m).
(** [map_options] is NULL: [pgunmap_at] only looks at it where a large page may
    be split. *)
Definition vunmap_mmio (kernel_pagemap : pagemap) (map_options : pgmap_options) (region : positive) (v : regions) :
    outcome (bool * regions) :=
  m ← deref (objects v !! region);
  let options := {| unmap_free_pages := negb (Z.land (mmio_flags m) __MMIO_REGION_LOW4G =? 0);
                    dont_split_large_pages := true |} in
  '(result, st) ← unmap kernel_pagemap (mmio_region_get_range m) map_options options (memory v);
  let v := set_memory st v in
  if negb result then Ok (false, v)
  else
    t ← addrspace_remove_node region (addrspace v);
    v ← free_object region (set_addrspace t v);
    Ok (true, v).
End vm.
