(* ===== verification/VmThms.v ===== *)
(** * Theorems about virtual memory areas *)
From stdpp Require Import functions.
From S2P Require Import Prelude CArith Range AvlTree AvlTreeInv AddrSpace AddrSpaceInv AddrFind AddrSpaceThms PageAlloc PageAllocThms Walker WalkerInv WalkerThms PgMap PgTables PgMapInv PgAlloc PgMapThms Slab SlabThms Vm.

Section vm.
Context (cpu : pagemap) (lock : lock_oracle) (cfg : paging) (early : ptwalker_alloc_pgtable_t pageop).
Context (gib_pages kernel : bool) (pm : pagemap).
Abbreviation alloc := (ptwalker_alloc_pgtable_cb (C := pageop) lock).
Abbreviation options_of a := (mapping_options kernel gib_pages (vma_prot a) (cachekind a) false).

(** The pages of [phys] at [virt], with the flags of the area; everything else
    as before. *)
Definition area_mapped (a : vm_area) (virt size phys : Z) (st st' : mm) : Prop :=
  let x := virt `mod` 2 ^ 48 in
  pt_ok alloc cfg (Walker.root pm) st' /\
  forall y, in48 y ->
    if decide (x <= y < x + size)
    then pt_walk cfg st' 4 (Walker.root pm) y = Ok (1, leaf_entry (phys + (y - x) / PAGE_SIZE * PAGE_SIZE) (options_of a))
    else kept cfg (Walker.root pm) st st' y.
(** The tables for it could not be had. *)
Definition area_starved (virt size : Z) (st : mm) : Prop :=
  starved alloc cfg (Walker.root pm) st (virt `mod` 2 ^ 48) (virt `mod` 2 ^ 48 + size).

(** What [map_vma] is asked: an area with its object and range. *)
Lemma map_vma_ok vma phys v a d : objects v !! vma = Some a -> client (addrspace v) = Ok d ->
  let r := node_range d vma in
  map_request lock cfg pm (RANGE_INIT phys (size r)) (front r) (options_of a) (memory v) ->
  (exists st', map_vma cpu lock cfg early gib_pages kernel pm vma phys v = Ok (true, set_memory st' v) /\
     area_mapped a (front r) (size r) phys (memory v) st') \/
  (is_ok (map_vma cpu lock cfg early gib_pages kernel pm vma phys v) = false /\ area_starved (front r) (size r) (memory v)).
Proof.
  intros Ha Hd r Hr. unfold map_vma. rewrite Ha. cbn [deref]. rewrite outcome_bind_ok.
  unfold range_of. rewrite Hd, !outcome_bind_ok. fold r. unfold arch_make_mapping.
  destruct (pgmap_at_request cpu lock cfg early pm _ _ _ _ Hr) as [(st' & -> & Hok & Hm)|[E Hs]].
  - left. exists st'. rewrite !outcome_bind_ok. split; [done|]. split; [done|]. exact Hm.
  - right. split; [|exact Hs]. by destruct (pgmap_at _ _ _ _ _ _ _ _ _).
Qed.

(** The two ways on once the node is in the tree. *)
Definition area_added (a : vm_area) (r : range) (phys : Z) (v : space vm_area)
    (t' : address_space) (res : outcome (bool * space vm_area)) : Prop :=
  if vma_prot a =? PROT_NONE then res = Ok (true, set_addrspace t' v)
  else (exists st', res = Ok (true, set_memory st' (set_addrspace t' v)) /\
          area_mapped a (front r) (size r) phys (memory v) st') \/
       (is_ok res = false /\ area_starved (front r) (size r) (memory v)).

Lemma finish_adding vma phys v t' d' a : objects v !! vma = Some a -> client t' = Ok d' ->
  (vma_prot a <> PROT_NONE ->
   map_request lock cfg pm (RANGE_INIT phys (size (node_range d' vma))) (front (node_range d' vma)) (options_of a) (memory v)) ->
  area_added a (node_range d' vma) phys v t'
    (a ← deref (objects (set_addrspace t' v) !! vma);
     if vma_prot a =? PROT_NONE then Ok (true, set_addrspace t' v)
     else map_vma cpu lock cfg early gib_pages kernel pm vma phys (set_addrspace t' v)).
Proof.
  intros Ha Hd Hr. cbn [objects set_addrspace]. rewrite Ha. cbn [deref]. rewrite outcome_bind_ok. unfold area_added.
  destruct (Z.eqb_spec (vma_prot a) PROT_NONE) as [E|E]; [done|].
  by apply (map_vma_ok vma phys (set_addrspace t' v) a d' Ha Hd), Hr.
Qed.
End vm.

Lemma add_vma_cases cpu lock cfg early gib_pages kernel pm vma phys v tr d a :
  space_ok (addrspace v) tr d -> vma ∉ elems tr -> is_Some (nodes (addrspace v) !! vma) ->
  0 < size (node_range d vma) -> objects v !! vma = Some a ->
  (vma_prot a <> PROT_NONE ->
   map_request lock cfg pm (RANGE_INIT phys (size (node_range d vma))) (front (node_range d vma))
     (mapping_options kernel gib_pages (vma_prot a) (cachekind a) false) (memory v)) ->
  let res := pagemap_add_vma cpu lock cfg early gib_pages kernel pm vma phys v in
  (res = Ok (false, v) /\ exists q, q ∈ elems tr /\ overlap (node_range d vma) (node_range d q)) \/
  (res = Undef /\ exists q, head (elems tr) = Some q /\ range_end (node_range d vma) <= front (node_range d q)) \/
  exists l1 l2 t' tr' d', elems tr = l1 ++ l2 /\ space_ok t' tr' d' /\ elems tr' = l1 ++ vma :: l2 /\
    node_range d' = node_range d /\
    area_added lock cfg gib_pages kernel pm a (node_range d vma) phys v t' res.
Proof.
  intros Sp Hn Hm Hs Ha Hr res. unfold res, pagemap_add_vma.
  destruct (add_node_cases _ _ _ _ Sp Hn Hm Hs) as [[-> Hq]|(l1 & l2 & E & H1 & H2 & [(-> & Hb & ->)|(_ & t' & tr' & d' & -> & Sp' & E' & Er)])].
  - left. rewrite outcome_bind_ok. split; [by destruct v|done].
  - right. left. split; [done|]. destruct l2 as [|q l2]; [done|]. exists q. rewrite E. split; [done|]. apply H2. by left.
  - right. right. rewrite outcome_bind_ok. exists l1, l2, t', tr', d'. split_and!; try done. rewrite <- Er. rewrite <- Er in Hr.
    apply finish_adding; [done|apply Sp'|done].
Qed.

Lemma find_space_and_add_cases cpu lock cfg early gib_pages kernel pm vma in_range phys align k v tr d a addr prev :
  space_ok (addrspace v) tr d -> vma ∉ elems tr -> is_Some (nodes (addrspace v) !! vma) ->
  0 < size (node_range d vma) -> objects v !! vma = Some a ->
  range_wf in_range -> 0 <= k < 64 /\ align = 2 ^ k -> front in_range + align <= 2 ^ 64 ->
  (forall q, q ∈ elems tr -> range_end (node_range d q) + align <= 2 ^ 64) ->
  find_from_start in_range (size (node_range d vma)) align d (addrspace v) = Ok (addr, prev) ->
  (forall q n, prev = Some q -> nodes (addrspace v) !! q = Some n -> right n = None) ->
  (vma_prot a <> PROT_NONE -> addr <> ADDRSPACE_INVALID_ADDR ->
   map_request lock cfg pm (RANGE_INIT phys (size (node_range d vma))) addr
     (mapping_options kernel gib_pages (vma_prot a) (cachekind a) false) (memory v)) ->
  let res := pagemap_find_space_and_add_vma cpu lock cfg early gib_pages kernel pm vma in_range phys align v in
  (addr = ADDRSPACE_INVALID_ADDR /\ res = Ok (false, v)) \/
  exists l1 l2 t' tr' d', elems tr = l1 ++ l2 /\ hole_at in_range (size (node_range d vma)) align d l1 l2 addr /\
    space_ok t' tr' d' /\ elems tr' = l1 ++ vma :: l2 /\
    node_range d' = <[vma := RANGE_INIT addr (size (node_range d vma))]> (node_range d) /\
    area_added lock cfg gib_pages kernel pm a (RANGE_INIT addr (size (node_range d vma))) phys v t' res.
Proof.
  intros Sp Hn Hm Hs Ha Wi Hk Hf He Hfind Hright Hr res. unfold res, pagemap_find_space_and_add_vma.
  destruct (find_space_cases _ _ _ _ in_range align k Sp Hn Hm Hs Wi Hk Hf He) as (addr' & prev' & E & H).
  rewrite Hfind in E. injection E as <- <-.
  destruct H as [[-> ->]|(l1 & l2 & E & Hp & Ho & Hadd)].
  - left. rewrite outcome_bind_ok. split; [done|]. by destruct v.
  - right. destruct (Hadd Hright) as (t' & tr' & d' & -> & Sp' & E' & Er). rewrite outcome_bind_ok.
    assert (addr <> ADDRSPACE_INVALID_ADDR) as Hvalid.
    { destruct Ho as (_ & _ & Ho & _). unfold ADDRSPACE_INVALID_ADDR, UINT64_MAX. lia. }
    rewrite (proj2 (Z.eqb_neq _ _) Hvalid). exists l1, l2, t', tr', d'. split_and!; try done.
    assert (node_range d' vma = RANGE_INIT addr (size (node_range d vma))) as En by (rewrite Er; apply fn_lookup_insert).
    rewrite <- En. apply finish_adding; [done|apply Sp'|]. rewrite En. intros Hp'. by apply Hr.
Qed.

(** ** Properties *)


(** An empty address space and an area of two pages, on the memory of the
    examples of [pgmap_at]. *)
Definition ex_area : vm_area := {| vma_prot := PROT_WRITE; cachekind := VMA_CACHEKIND_WRITEBACK |}.
Definition ex_data : addrspace_node :=
  {| lists := unlinked; node_range := <[1%positive := RANGE_INIT 0 0x2000]> (fun _ => RANGE_EMPTY);
     largest_free_to_prev := fun _ => 0 |}.
Definition ex_areas : space vm_area :=
  {| sp_heap := {| hp_mm := snd ex_root; allocators := []; kmalloc_is_initialized := false |};
     addrspace := {| nodes := {[1%positive := AVLNODE_INIT]}; AvlTree.root := None; client := Ok ex_data |};
     objects := {[1%positive := ex_area]} |}.
Lemma ex_areas_ok : space_ok (addrspace ex_areas) Leaf ex_data.
Proof.
  assert (forall q, node_range ex_data q = RANGE_EMPTY \/ node_range ex_data q = RANGE_INIT 0 0x2000) as H.
  { intros q. destruct (decide (q = 1%positive)) as [->|Hne]; [right; reflexivity|left; by apply fn_lookup_insert_ne]. }
  split.
  - split; simpl; [done|done|done|constructor].
  - done.
  - done.
  - by split.
  - intros q. done.
  - intros q. destruct (H q) as [-> | ->]; by split_and!.
  - intros q ?%elem_of_nil. done.
  - constructor.
Qed.
Lemma ex_area_request : map_request ex_lock ex_cfg ex_pm (RANGE_INIT 0x10000000 0x2000) 0x400000
  (mapping_options false false PROT_WRITE VMA_CACHEKIND_WRITEBACK false) (snd ex_root).
Proof.
  destruct ex_request as [H1 H2 H3 _ H4 _ H5]. split; [done|done|done|by split_and!|done| |done].
  split; right; left; by vm_compute.
Qed.

(** ** Mapped devices: where the code does something else *)
Definition to_low4g (s : page_section) : page_section :=
  {| sec_zone := page_zone_low4g; range_front := range_front s; range_size := range_size s; pfn := pfn s;
     freelist_list := freelist_list s; min_order := min_order s; max_order := max_order s; total_free := total_free s |}.
Definition in_low4g (st : mm) : mm :=
  set_zones [ {| section_list := []; fallback_zone := Some page_zone_low4g; zone_total_free := 0 |};
              {| section_list := [0%nat]; fallback_zone := None; zone_total_free := 63 |} ]
    (set_sections (to_low4g <$> sections st) st).
Definition ex_regions : outcome (space mmio_region) :=
  h ← kmalloc_init (in_low4g (snd ex_root));
  Ok {| sp_heap := h; addrspace := ADDRSPACE_INIT ∅; objects := ∅ |}.
Abbreviation ex_low4g order := (vmap_mmio_low4g ex_pm ex_lock ex_cfg ex_early false ex_pm PROT_WRITE order 0).

(** Of the two pages of order 1 one is mapped, of the single page of order 0
    none. *)
Example low4g_maps_order_pages :
  (v ← ex_regions; '(r, v) ← ex_low4g 1 v;
   w1 ← pt_walk ex_cfg (memory v) 4 (Walker.root ex_pm) (VMAP_BASE `mod` 2 ^ 48 + 0x1000);
   w2 ← pt_walk ex_cfg (memory v) 4 (Walker.root ex_pm) (VMAP_BASE `mod` 2 ^ 48 + 0x2000);
   Ok (mmio_size <$> (r ≫= fun r => objects v !! r), pte_is_present (snd w1), pte_is_present (snd w2))) =
  Ok (Some 0x1000, true, false).
Proof. vm_compute. reflexivity. Qed.
Example low4g_of_order_0_maps_nothing :
  (v ← ex_regions; '(r, v) ← ex_low4g 0 v;
   w ← pt_walk ex_cfg (memory v) 4 (Walker.root ex_pm) (VMAP_BASE `mod` 2 ^ 48 + 0x1000);
   Ok (mmio_size <$> (r ≫= fun r => objects v !! r), pte_is_present (snd w))) = Ok (Some 0, false).
Proof. vm_compute. reflexivity. Qed.

(** A range that does not fit: the object stays allocated. *)
Example map_mmio_region_keeps_object :
  (v ← ex_regions; '(r, v) ← vmap_mmio ex_pm ex_lock ex_cfg ex_early false ex_pm (RANGE_INIT 0 (2 ^ 47)) PROT_WRITE 0 v;
   Ok (r, length (map_to_list (objects v)))) = Ok (None, 1%nat).
Proof. vm_compute. reflexivity. Qed.
