(* ===== verification/Mem.v ===== *)
(** * Memory and string primitives: kernel/stdlib.c, lib/string.c, lib/memory.c

    A store of bytes at addresses; an address that is not in it is not mapped.
    The x86_64 build is modelled: [rep movsb] and [rep stos] copy and fill
    upwards, or downwards between [std] and [cld].  [char] is signed.  A loop
    over a string gets as fuel one more than the number of mapped bytes. *)
From S2P Require Import Prelude.

Abbreviation bytes := (gmap Z Z).

(** ** Little-endian accesses of [k] bytes *)
Definition load8 (a : Z) (m : bytes) : outcome Z := deref (m !! a).
Definition store8 (a v : Z) (m : bytes) : outcome bytes :=
  _ ← load8 a m; Ok (<[a := u8 v]> m).
Fixpoint load_n (k : nat) (a : Z) (m : bytes) : outcome Z :=
  match k with
  | O => Ok 0
  | S k => b ← load8 a m; v ← load_n k (a + 1) m; Ok (b + 256 * v)
  end.
Fixpoint store_n (k : nat) (a v : Z) (m : bytes) : outcome bytes :=
  match k with
  | O => Ok m
  | S k => m ← store8 a v m; store_n k (a + 1) (v / 256) m
  end.

(** [rep movsb] and [rep stosb] for [n] bytes; [step] is -1 when the direction
    flag is set. *)
Fixpoint rep_movsb (n : nat) (step dst src : Z) (m : bytes) : outcome bytes :=
  match n with
  | O => Ok m
  | S n =>
      b ← load8 src m;
      m ← store8 dst b m;
      rep_movsb n step (dst + step) (src + step) m
  end.
Fixpoint rep_stos (n k : nat) (dst v : Z) (m : bytes) : outcome bytes :=
  match n with
  | O => Ok m
  | S n => m ← store_n k dst v m; rep_stos n k (dst + Z.of_nat k) v m
  end.

(** ** Strings *)
Definition load_char (a : Z) (m : bytes) : outcome Z := c ← load8 a m; Ok (i8 c).

Definition string_fuel (m : bytes) : nat := S (size m).

Fixpoint strlen_loop (fuel : nat) (ch result iter : Z) (m : bytes) : outcome Z :=
  if ch =? 0 then Ok result
  else
    match fuel with
    | O => OutOfFuel
    | S fuel =>
        ch ← load_char (iter + 1) m;
        strlen_loop fuel ch (result + 1) (iter + 1) m
    end.
Definition strlen (str : Z) (m : bytes) : outcome Z :=
  ch ← load_char str m; strlen_loop (string_fuel m) ch 0 str m.

Fixpoint strnlen_loop (n : nat) (ch result iter : Z) (m : bytes) : outcome Z :=
  match n with
  | O => Ok result
  | S n =>
      if ch =? 0 then Ok result
      else ch ← load_char (iter + 1) m; strnlen_loop n ch (result + 1) (iter + 1) m
  end.
Definition strnlen (str limit : Z) (m : bytes) : outcome Z :=
  ch ← load_char str m; strnlen_loop (Z.to_nat limit) ch 0 str m.

Fixpoint strcmp_loop (fuel : nat) (ch jch iter jter : Z) (m : bytes) : outcome Z :=
  if negb (ch =? 0) && negb (jch =? 0) then
    match fuel with
    | O => OutOfFuel
    | S fuel =>
        ch ← load_char (iter + 1) m;
        jch ← load_char (jter + 1) m;
        strcmp_loop fuel ch jch (iter + 1) (jter + 1) m
    end
  else Ok (ch - jch).
Definition strcmp (str1 str2 : Z) (m : bytes) : outcome Z :=
  ch ← load_char str1 m;
  jch ← load_char str2 m;
  strcmp_loop (string_fuel m) ch jch str1 str2 m.

Fixpoint strncmp_loop (n : nat) (i ch jch iter jter : Z) (m : bytes) : outcome Z :=
  match n with
  | O => Ok (ch - jch)
  | S n =>
      if (ch =? 0) || (jch =? 0) then Ok (ch - jch)
      else
        ch ← load_char (iter + (i + 1)) m;
        jch ← load_char (jter + (i + 1)) m;
        strncmp_loop n (i + 1) ch jch iter jter m
  end.
Definition strncmp (str1 str2 length : Z) (m : bytes) : outcome Z :=
  ch ← load_char str1 m;
  jch ← load_char str2 m;
  strncmp_loop (Z.to_nat length) 0 ch jch str1 str2 m.

Fixpoint strchr_loop (fuel : nat) (iter ch : Z) (m : bytes) : outcome (option Z) :=
  c ← load_char iter m;
  if c =? 0 then Ok None
  else if c =? ch then Ok (Some iter)
  else
    match fuel with
    | O => OutOfFuel
    | S fuel => strchr_loop fuel (iter + 1) ch m
    end.
Definition strchr (str ch : Z) (m : bytes) : outcome (option Z) :=
  strchr_loop (string_fuel m) str ch m.

Fixpoint strrchr_loop (fuel : nat) (result : option Z) (iter ch : Z) (m : bytes) :
    outcome (option Z) :=
  c ← load_char iter m;
  if c =? 0 then Ok result
  else
    let result := if c =? ch then Some iter else result in
    match fuel with
    | O => OutOfFuel
    | S fuel => strrchr_loop fuel result (iter + 1) ch m
    end.
Definition strrchr (str ch : Z) (m : bytes) : outcome (option Z) :=
  strrchr_loop (string_fuel m) None str ch m.

(** ** memcmp

    [_memcmp_type] answers the result and what [left_out], [right_out] and
    [len_out] hold afterwards; they are the variables passed in, and are only
    stored to at the end. *)
Fixpoint memcmp_loop (fuel : nat) (k : nat) (left right len : Z) (m : bytes) :
    outcome (Z * option (Z * Z * Z)) :=
  match fuel with
  | O => OutOfFuel
  | S fuel =>
      left_ch ← load_n k left m;
      right_ch ← load_n k right m;
      if negb (left_ch =? right_ch) then Ok (i32 (left_ch - right_ch), None)
      else
        let left := left + Z.of_nat k in
        let right := right + Z.of_nat k in
        let len := len - Z.of_nat k in
        if len >=? Z.of_nat k then memcmp_loop fuel k left right len m
        else Ok (0, Some (left, right, len))
  end.
Definition memcmp_type (k : nat) (left right len : Z) (m : bytes) : outcome (Z * (Z * Z * Z)) :=
  if len <? Z.of_nat k then Ok (0, (left, right, len))
  else
    '(res, out) ← memcmp_loop (Z.to_nat len) k left right len m;
    Ok (res, default (left, right, len) out).

Definition memcmp (left right len : Z) (m : bytes) : outcome Z :=
  '(res, (left, right, len)) ← memcmp_type 8 left right len m;
  if negb (res =? 0) then Ok res
  else
    '(res, (left, right, len)) ← memcmp_type 4 left right len m;
    if negb (res =? 0) then Ok res
    else
      '(res, (left, right, len)) ← memcmp_type 2 left right len m;
      if negb (res =? 0) then Ok res
      else '(res, _) ← memcmp_type 1 left right len m; Ok res.

(** ** memcpy

    [_memcpy_type] answers the bytes left over, [*dst_out] and [*src_out]. *)
Fixpoint memcpy_type (fuel : nat) (k : nat) (dst src n : Z) (m : bytes) :
    outcome (Z * Z * Z * bytes) :=
  if n >=? Z.of_nat k then
    match fuel with
    | O => OutOfFuel
    | S fuel =>
        v ← load_n k src m;
        m ← store_n k dst v m;
        memcpy_type fuel k (dst + Z.of_nat k) (src + Z.of_nat k) (n - Z.of_nat k) m
    end
  else Ok (n, dst, src, m).

Definition REP_MOVSB_MIN : Z := 16.

(** The pointer returned and the store. *)
Definition memcpy (dst src n : Z) (m : bytes) : outcome (Z * bytes) :=
  let ret := dst in
  let fuel := Z.to_nat n in
  if n >=? REP_MOVSB_MIN then m ← rep_movsb (Z.to_nat n) 1 dst src m; Ok (ret, m)
  else if n >=? 8 then
    '(n, dst, src, m) ← memcpy_type fuel 8 dst src n m;
    '(n, dst, src, m) ← memcpy_type fuel 4 dst src n m;
    '(n, dst, src, m) ← memcpy_type fuel 2 dst src n m;
    '(_, _, _, m) ← memcpy_type fuel 1 dst src n m;
    Ok (ret, m)
  else if n >=? 4 then
    '(n, dst, src, m) ← memcpy_type fuel 4 dst src n m;
    '(n, dst, src, m) ← memcpy_type fuel 2 dst src n m;
    '(_, _, _, m) ← memcpy_type fuel 1 dst src n m;
    Ok (ret, m)
  else if n >=? 2 then
    '(n, dst, src, m) ← memcpy_type fuel 2 dst src n m;
    if n =? 0 then Ok (dst, m)
    else '(_, _, _, m) ← memcpy_type fuel 1 dst src n m; Ok (ret, m)
  else '(_, _, _, m) ← memcpy_type fuel 1 dst src n m; Ok (ret, m).

(** ** memmove *)
Fixpoint memcpy_bw_loop (fuel : nat) (k : nat) (dst src off : Z) (m : bytes) :
    outcome (Z * bytes) :=
  match fuel with
  | O => OutOfFuel
  | S fuel =>
      v ← load_n k (src + off) m;
      m ← store_n k (dst + off) v m;
      if off <? Z.of_nat k then Ok (off, m)
      else memcpy_bw_loop fuel k dst src (off - Z.of_nat k) m
  end.
Definition memcpy_bw_type (k : nat) (dst src n : Z) (m : bytes) : outcome (Z * bytes) :=
  if n >=? Z.of_nat k then memcpy_bw_loop (Z.to_nat n) k dst src (n - Z.of_nat k) m
  else Ok (n, m).

Definition memmove (dst src n : Z) (m : bytes) : outcome (Z * bytes) :=
  let ret := dst in
  let fuel := Z.to_nat n in
  if src >? dst then
    if n >=? REP_MOVSB_MIN then m ← rep_movsb (Z.to_nat n) (-1) dst src m; Ok (ret, m)
    else
      let diff := src - dst in
      if diff >=? 8 then '(_, m) ← memcpy dst src n m; Ok (ret, m)
      else if diff >=? 4 then
        '(n, dst, src, m) ← memcpy_type fuel 4 dst src n m;
        '(n, dst, src, m) ← memcpy_type fuel 2 dst src n m;
        '(_, _, _, m) ← memcpy_type fuel 1 dst src n m;
        Ok (ret, m)
      else if diff >=? 2 then
        '(n, dst, src, m) ← memcpy_type fuel 2 dst src n m;
        '(_, _, _, m) ← memcpy_type fuel 1 dst src n m;
        Ok (ret, m)
      else if diff >=? 1 then
        '(_, _, _, m) ← memcpy_type fuel 1 dst src n m; Ok (ret, m)
      else Ok (ret, m)
  else
    if n >=? REP_MOVSB_MIN then
      m ← rep_movsb (Z.to_nat n) (-1) (dst + (n - 1)) (src + (n - 1)) m; Ok (ret, m)
    else
      let diff := dst - src in
      if diff >=? 8 then
        '(n, m) ← memcpy_bw_type 8 dst src n m;
        '(n, m) ← memcpy_bw_type 4 dst src n m;
        '(n, m) ← memcpy_bw_type 2 dst src n m;
        '(_, m) ← memcpy_bw_type 1 dst src n m;
        Ok (ret, m)
      else if diff >=? 4 then
        '(n, m) ← memcpy_bw_type 4 dst src n m;
        '(n, m) ← memcpy_bw_type 2 dst src n m;
        '(_, m) ← memcpy_bw_type 1 dst src n m;
        Ok (ret, m)
      else if diff >=? 2 then
        '(n, m) ← memcpy_bw_type 2 dst src n m;
        '(_, m) ← memcpy_bw_type 1 dst src n m;
        Ok (ret, m)
      else if diff >=? 1 then
        '(_, m) ← memcpy_bw_type 1 dst src n m; Ok (ret, m)
      else Ok (ret, m).

(** ** Filling *)
Definition REP_MIN : Z := 16.

(** [for (i = 0; i != n; i++) dst[i] = val] and the loops
    [while (n >= sizeof(type))], which answer the address and what is left. *)
Fixpoint fill_bytes (n : nat) (dst v : Z) (m : bytes) : outcome bytes :=
  match n with
  | O => Ok m
  | S n => m ← store8 dst v m; fill_bytes n (dst + 1) v m
  end.
Fixpoint fill_type (fuel k : nat) (v dst n : Z) (m : bytes) : outcome (Z * Z * bytes) :=
  if n >=? Z.of_nat k then
    match fuel with
    | O => OutOfFuel
    | S fuel => m ← store_n k dst v m; fill_type fuel k v (dst + Z.of_nat k) (n - Z.of_nat k) m
    end
  else Ok (dst, n, m).

Definition memset (dst val n : Z) (m : bytes) : outcome (Z * bytes) :=
  if n >=? REP_MIN then m ← rep_stos (Z.to_nat n) 1 dst val m; Ok (dst, m)
  else m ← fill_bytes (Z.to_nat n) dst val m; Ok (dst, m).

(** The four loops of [bzero] and [memset_all_ones]. *)
Definition fill_words (v dst n : Z) (m : bytes) : outcome bytes :=
  let fuel := Z.to_nat n in
  '(dst, n, m) ← fill_type fuel 8 v dst n m;
  '(dst, n, m) ← fill_type fuel 4 v dst n m;
  '(dst, n, m) ← fill_type fuel 2 v dst n m;
  '(_, _, m) ← fill_type fuel 1 v dst n m;
  Ok m.
Definition bzero (dst n : Z) (m : bytes) : outcome bytes :=
  if n >=? REP_MIN then rep_stos (Z.to_nat n) 1 dst 0 m else fill_words 0 dst n m.
Definition memset_all_ones (dst n : Z) (m : bytes) : outcome (Z * bytes) :=
  if n >=? REP_MIN then m ← rep_stos (Z.to_nat n) 1 dst UINT8_MAX m; Ok (dst, m)
  else m ← fill_words UINT64_MAX dst n m; Ok (dst, m).

(** ** lib/memory.c *)
Fixpoint fill_array (n k : nat) (iter c : Z) (m : bytes) : outcome bytes :=
  match n with
  | O => Ok m
  | S n => m ← store_n k iter c m; fill_array n k (iter + Z.of_nat k) c m
  end.
Definition memset_array (k : nat) (buf count c : Z) (m : bytes) : outcome (Z * bytes) :=
  if count >? 32 then m ← rep_stos (Z.to_nat count) k buf c m; Ok (buf, m)
  else m ← fill_array (Z.to_nat count) k buf c m; Ok (buf, m).
Definition memset_16 := memset_array 2.
Definition memset_32 := memset_array 4.
Definition memset_64 := memset_array 8.

Fixpoint is_all (n k : nat) (iter c : Z) (m : bytes) : outcome bool :=
  match n with
  | O => Ok true
  | S n =>
      v ← load_n k iter m;
      if negb (v =? c) then Ok false else is_all n k (iter + Z.of_nat k) c m
  end.
Definition membuf_8_is_all (buf count c : Z) := is_all (Z.to_nat count) 1 buf c.
Definition membuf_16_is_all (buf count c : Z) := is_all (Z.to_nat count) 2 buf c.
Definition membuf_32_is_all (buf count c : Z) := is_all (Z.to_nat count) 4 buf c.
Definition membuf_64_is_all (buf count c : Z) := is_all (Z.to_nat count) 8 buf c.

Fixpoint memchr_loop (n : nat) (iter ch : Z) (m : bytes) : outcome (option Z) :=
  match n with
  | O => Ok None
  | S n =>
      b ← load8 iter m;
      if b =? ch then Ok (Some iter) else memchr_loop n (iter + 1) ch m
  end.
Definition memchr (ptr ch count : Z) (m : bytes) : outcome (option Z) :=
  memchr_loop (Z.to_nat count) ptr ch m.
