(* ===== verification/MemThms.v ===== *)
(** * What the memory and string primitives guarantee

    Accesses of several bytes as base-256 digits, copying and filling as
    relations between the stores before and after, and the properties of
    kernel/stdlib.c. *)
From S2P Require Import Prelude Mem.

Definition bytes_ok (m : bytes) : Prop := map_Forall (fun _ b => in_u 8 b) m.
Definition mapped (m : bytes) (a n : Z) : Prop := forall i, a <= i < a + n -> is_Some (m !! i).

(** Byte [i] of a number. *)
Definition byte_of (v i : Z) : Z := (v / 256 ^ i) `mod` 256.

Lemma byte_of_0 v : byte_of v 0 = u8 v.
Proof. unfold byte_of, wrap. rewrite Z.pow_0_r, Z.div_1_r. reflexivity. Qed.

Lemma byte_of_succ v i : 0 <= i -> byte_of v (i + 1) = byte_of (v / 256) i.
Proof.
  intros Hi. unfold byte_of. pose proof (Z.pow_pos_nonneg 256 i ltac:(lia) Hi).
  rewrite Z.div_div by lia. rewrite Z.pow_add_r, Z.pow_1_r by lia. do 2 f_equal. lia.
Qed.

Lemma byte_of_cons b v i : in_u 8 b -> 0 <= i ->
  byte_of (b + 256 * v) i = if i =? 0 then b else byte_of v (i - 1).
Proof.
  intros Hb Hi. unfold_ints. destruct (Z.eqb_spec i 0) as [->|].
  - rewrite byte_of_0. unfold wrap. change (2 ^ 8) with 256 in *.
    rewrite (Z.mul_comm 256), Z.mod_add, Z.mod_small; lia.
  - replace i with (i - 1 + 1) at 1 by lia. rewrite byte_of_succ by lia. f_equal.
    rewrite (Z.mul_comm 256), Z.div_add, Z.div_small by lia. lia.
Qed.

Lemma load8_ok m a : is_Some (m !! a) -> exists b, load8 a m = Ok b /\ m !! a = Some b.
Proof. intros [b Hb]. exists b. split; [|done]. unfold load8. by rewrite Hb. Qed.

Lemma store8_ok m a v : is_Some (m !! a) -> store8 a v m = Ok (<[a := u8 v]> m).
Proof. intros [b Hb]. unfold store8, load8. by rewrite Hb. Qed.

Lemma mapped_tail m a k : 0 <= k -> mapped m a (k + 1) -> is_Some (m !! a) /\ mapped m (a + 1) k.
Proof. intros Hk H. split; [apply H; lia|]. intros i Hi. apply H. lia. Qed.

Lemma mapped_sub m a n b k : mapped m a n -> a <= b -> b + k <= a + n -> mapped m b k.
Proof. intros H H1 H2 i Hi. apply H. lia. Qed.

Lemma load_n_ok m : bytes_ok m -> forall k a, mapped m a (Z.of_nat k) ->
  exists v, load_n k a m = Ok v /\ 0 <= v < 256 ^ Z.of_nat k /\
  forall i, 0 <= i < Z.of_nat k -> m !! (a + i) = Some (byte_of v i).
Proof.
  intros Hm. induction k as [|k IH]; intros a Ha; [by exists 0; split_and!; intros; try lia|].
  rewrite Nat2Z.inj_succ in Ha. apply mapped_tail in Ha as [H0 Ht]; [|lia].
  destruct (load8_ok m a H0) as (b & Eb & Hb). destruct (IH (a + 1) Ht) as (v & Ev & Hv & Hi).
  pose proof (map_Forall_lookup_1 _ _ _ _ Hm Hb) as Hb8. simpl in Hb8.
  cbn [load_n]. rewrite Eb, outcome_bind_ok, Ev, outcome_bind_ok.
  exists (b + 256 * v). split_and!; [done| | |].
  - unfold_ints. lia.
  - rewrite Nat2Z.inj_succ, Z.pow_succ_r by lia. unfold_ints. lia.
  - intros i Hk. rewrite byte_of_cons by (done || lia). destruct (Z.eqb_spec i 0) as [->|].
    + by rewrite Z.add_0_r.
    + rewrite <- Hi by lia. f_equal. lia.
Qed.

Lemma load_n_ext m a b : forall k, (forall i, 0 <= i < Z.of_nat k -> m !! (a + i) = m !! (b + i)) ->
  load_n k a m = load_n k b m.
Proof.
  intros k. revert a b. induction k as [|k IH]; intros a b H; [done|]. cbn [load_n].
  unfold load8. specialize (H 0) as H0. rewrite !Z.add_0_r in H0. rewrite H0 by lia.
  destruct (m !! b); [|done]. cbn [deref]. rewrite !outcome_bind_ok.
  rewrite (IH (a + 1) (b + 1)); [done|]. intros i Hi.
  replace (a + 1 + i) with (a + (i + 1)) by lia. replace (b + 1 + i) with (b + (i + 1)) by lia.
  apply H. lia.
Qed.

(** Accesses of one byte. *)
Lemma load_1 a m : load_n 1 a m = load8 a m.
Proof.
  cbn [load_n]. destruct (load8 a m) as [b| | |]; [|done..]. rewrite !outcome_bind_ok.
  f_equal. lia.
Qed.

Lemma store_1 a v m : store_n 1 a v m = store8 a v m.
Proof. cbn [store_n]. by destruct (store8 a v m). Qed.

(** A store whose bytes in [dst, dst + n) are given by a function. *)
Definition written (m m' : bytes) (dst n : Z) (f : Z -> option Z) : Prop :=
  forall a, m' !! a = if decide (dst <= a < dst + n) then f (a - dst) else m !! a.

Lemma written_mapped m m' dst n f a k : written m m' dst n f ->
  (forall i, 0 <= i < n -> is_Some (f i)) -> mapped m a k -> mapped m' a k.
Proof. intros W Hf H i Hi. rewrite W. case_decide; [apply Hf; lia|auto]. Qed.

Lemma written_bytes_ok m m' dst n f : written m m' dst n f ->
  (forall i b, 0 <= i < n -> f i = Some b -> in_u 8 b) -> bytes_ok m -> bytes_ok m'.
Proof.
  intros W Hf Hm a b Ha. rewrite W in Ha. case_decide; [by apply (Hf (a - dst)); [lia|]|].
  by apply (Hm a).
Qed.

Lemma store_n_ok : forall k dst v m, mapped m dst (Z.of_nat k) ->
  exists m', store_n k dst v m = Ok m' /\
  written m m' dst (Z.of_nat k) (fun i => Some (byte_of v i)).
Proof.
  induction k as [|k IH]; intros dst v m Hm.
  - exists m. split; [done|]. intros a. rewrite decide_False by lia. done.
  - rewrite Nat2Z.inj_succ in Hm. apply mapped_tail in Hm as [H0 Ht]; [|lia].
    cbn [store_n]. rewrite store8_ok, outcome_bind_ok by done.
    destruct (IH (dst + 1) (v / 256) (<[dst := u8 v]> m)) as (m' & E & W).
    { intros i Hi. rewrite lookup_insert_is_Some'. right. by apply Ht. }
    exists m'. split; [done|]. intros a. rewrite W.
    destruct (decide (a = dst)) as [->|].
    + rewrite decide_False, decide_True by lia. rewrite lookup_insert_eq, Z.sub_diag.
      by rewrite byte_of_0.
    + rewrite lookup_insert_ne by done. destruct (decide (dst + 1 <= a < dst + 1 + Z.of_nat k)).
      * rewrite decide_True by lia. f_equal.
        replace (a - dst) with (a - (dst + 1) + 1) by lia. by rewrite byte_of_succ by lia.
      * by rewrite decide_False by lia.
Qed.

(** ** Copying *)

(** [m'] is [m] with the [n] bytes at [src] also at [dst]. *)
Definition copied (m m' : bytes) (dst src n : Z) : Prop :=
  written m m' dst n (fun i => m !! (src + i)).

Lemma copy_chunk k dst src m : bytes_ok m -> mapped m dst (Z.of_nat k) -> mapped m src (Z.of_nat k) ->
  exists v m', load_n k src m = Ok v /\ store_n k dst v m = Ok m' /\
  copied m m' dst src (Z.of_nat k).
Proof.
  intros Hm Hd Hs. destruct (load_n_ok m Hm k src Hs) as (v & Ev & _ & Hv).
  destruct (store_n_ok k dst v m Hd) as (m' & Em & W). exists v, m'. split_and!; [done..|].
  intros a. rewrite W. case_decide; [|done]. by rewrite Hv by lia.
Qed.

Lemma copied_bytes_ok m m' dst src n : copied m m' dst src n -> bytes_ok m -> bytes_ok m'.
Proof. intros W Hm. eapply written_bytes_ok; [done| |done]. intros i b _ Hb. by apply (Hm (src + i)). Qed.

Lemma copied_mapped m m' dst src n a k : copied m m' dst src n -> mapped m src n ->
  mapped m a k -> mapped m' a k.
Proof. intros W Hs. eapply written_mapped; [done|]. intros i Hi. apply Hs. lia. Qed.

Lemma copied_0 m dst src : copied m m dst src 0.
Proof. intros a. by rewrite decide_False by lia. Qed.

(** Copying the next [k] bytes upwards, when the source is not below the
    destination or does not reach it. *)
Lemma copied_up m m1 m2 dst src i k : copied m m1 dst src i -> 0 <= i -> 0 <= k ->
  dst <= src \/ src + i + k <= dst ->
  copied m1 m2 (dst + i) (src + i) k -> copied m m2 dst src (i + k).
Proof.
  intros W1 Hi Hk Hd W2 a. rewrite W2.
  destruct (decide (dst + i <= a < dst + i + k)).
  - rewrite decide_True by lia. rewrite W1, decide_False by lia. f_equal. lia.
  - rewrite W1. destruct (decide (dst <= a < dst + i)).
    + by rewrite decide_True by lia.
    + by rewrite decide_False by lia.
Qed.

(** Copying the [k] bytes below, when the source is not above the destination. *)
Lemma copied_down m m1 m2 dst src i k n : copied m m1 (dst + (i + k)) (src + (i + k)) (n - (i + k)) ->
  0 <= i -> 0 <= k -> i + k <= n -> src <= dst ->
  copied m1 m2 (dst + i) (src + i) k -> copied m m2 (dst + i) (src + i) (n - i).
Proof.
  intros W1 Hi Hk Hn Hd W2 a. rewrite W2.
  destruct (decide (dst + i <= a < dst + i + k)).
  - rewrite decide_True by lia. rewrite W1, decide_False by lia. done.
  - rewrite W1. destruct (decide (dst + (i + k) <= a < dst + (i + k) + (n - (i + k)))).
    + rewrite decide_True by lia. f_equal. lia.
    + by rewrite decide_False by lia.
Qed.

Section copy.
Context (m0 : bytes) (dst src n : Z) (Hm0 : bytes_ok m0)
  (Hdst : mapped m0 dst n) (Hsrc : mapped m0 src n).

(** One step up from [i] bytes copied, with any access size. *)
Lemma step_up k i m : dst <= src \/ src + n <= dst -> copied m0 m dst src i -> 0 <= i ->
  i + Z.of_nat k <= n ->
  exists v m', load_n k (src + i) m = Ok v /\ store_n k (dst + i) v m = Ok m' /\
  copied m0 m' dst src (i + Z.of_nat k).
Proof.
  intros Hd W Hi Hk. assert (mapped m0 src i) as Hsi by (apply (mapped_sub m0 src n); [done|lia..]).
  destruct (copy_chunk k (dst + i) (src + i) m) as (v & m' & E1 & E2 & W').
  - by eapply copied_bytes_ok.
  - eapply copied_mapped; [done..|]. apply (mapped_sub m0 dst n); [done|lia..].
  - eapply copied_mapped; [done..|]. apply (mapped_sub m0 src n); [done|lia..].
  - exists v, m'. split_and!; [done..|]. apply (copied_up m0 m m'); (done || lia).
Qed.

Lemma memcpy_type_ok k : (0 < k)%nat -> dst <= src \/ src + n <= dst ->
  forall fuel i m, copied m0 m dst src i -> 0 <= i <= n -> n - i <= Z.of_nat fuel ->
  exists i' m', memcpy_type fuel k (dst + i) (src + i) (n - i) m =
    Ok (n - i', dst + i', src + i', m') /\
  copied m0 m' dst src i' /\ i <= i' <= n /\ n - i' < Z.of_nat k /\
  exists j, i' = i + Z.of_nat k * j.
Proof.
  intros Hk Hd. induction fuel as [|fuel IH]; intros i m W Hi Hf; cbn [memcpy_type].
  - exists i, m. rewrite Z.geb_leb, (proj2 (Z.leb_gt _ _)) by lia.
    split_and!; try (done || lia). exists 0. lia.
  - rewrite Z.geb_leb. destruct (Z.leb_spec (Z.of_nat k) (n - i)) as [Hle|Hgt].
    + destruct (step_up k i m Hd W ltac:(lia) ltac:(lia)) as (v & m1 & -> & E & W1).
      rewrite outcome_bind_ok, E, outcome_bind_ok.
      destruct (IH (i + Z.of_nat k) m1 W1 ltac:(lia) ltac:(lia)) as (i' & m' & E' & W' & ? & ? & j & Hj).
      exists i', m'. rewrite !Z.add_assoc, Z.sub_add_distr in E'. rewrite E'.
      split_and!; try (done || lia). exists (j + 1). lia.
    + exists i, m. split_and!; try (done || lia). exists 0. lia.
Qed.

Lemma rep_movsb_up_ok : dst <= src \/ src + n <= dst ->
  forall k i m, copied m0 m dst src i -> 0 <= i -> i + Z.of_nat k = n ->
  exists m', rep_movsb k 1 (dst + i) (src + i) m = Ok m' /\ copied m0 m' dst src n.
Proof.
  intros Hd. induction k as [|k IH]; intros i m W Hi Hk.
  - exists m. split; [done|]. by replace n with i by lia.
  - destruct (step_up 1 i m Hd W Hi ltac:(lia)) as (v & m1 & E1 & E2 & W1).
    rewrite load_1 in E1. rewrite store_1 in E2. cbn [rep_movsb].
    rewrite E1, outcome_bind_ok, E2, outcome_bind_ok.
    destruct (IH (i + 1) m1 W1 ltac:(lia) ltac:(lia)) as (m' & E & W').
    exists m'. by rewrite !Z.add_assoc in E.
Qed.

(** One step down to the last [i + k] bytes left. *)
Lemma step_down k i m : src <= dst -> 0 <= i -> i + Z.of_nat k <= n ->
  copied m0 m (dst + (i + Z.of_nat k)) (src + (i + Z.of_nat k)) (n - (i + Z.of_nat k)) ->
  exists v m', load_n k (src + i) m = Ok v /\ store_n k (dst + i) v m = Ok m' /\
  copied m0 m' (dst + i) (src + i) (n - i).
Proof.
  intros Hd Hi Hk W.
  assert (mapped m0 (src + (i + Z.of_nat k)) (n - (i + Z.of_nat k))) as Hsi
    by (apply (mapped_sub m0 src n); [done|lia..]).
  destruct (copy_chunk k (dst + i) (src + i) m) as (v & m' & E1 & E2 & W').
  - by eapply copied_bytes_ok.
  - eapply copied_mapped; [done..|]. apply (mapped_sub m0 dst n); [done|lia..].
  - eapply copied_mapped; [done..|]. apply (mapped_sub m0 src n); [done|lia..].
  - exists v, m'. split_and!; [done..|]. apply (copied_down m0 m m' dst src i (Z.of_nat k)); (done || lia).
Qed.

Lemma memcpy_bw_loop_ok k : (0 < k)%nat -> src <= dst ->
  forall fuel off m, 0 <= off -> off < Z.of_nat fuel -> off + Z.of_nat k <= n ->
  copied m0 m (dst + (off + Z.of_nat k)) (src + (off + Z.of_nat k)) (n - (off + Z.of_nat k)) ->
  exists i m', memcpy_bw_loop fuel k dst src off m = Ok (i, m') /\
  copied m0 m' (dst + i) (src + i) (n - i) /\ 0 <= i < Z.of_nat k /\ i <= n.
Proof.
  intros Hk Hd. induction fuel as [|fuel IH]; intros off m Ho Hf Hn W; [lia|]. cbn [memcpy_bw_loop].
  destruct (step_down k off m Hd Ho Hn W) as (v & m1 & -> & E & W1).
  rewrite outcome_bind_ok, E, outcome_bind_ok. destruct (Z.ltb_spec off (Z.of_nat k)).
  - exists off, m1. split_and!; (done || lia).
  - apply IH; try lia. by rewrite Z.sub_add.
Qed.

Lemma memcpy_bw_type_ok k i m : (0 < k)%nat -> src <= dst -> 0 <= i <= n ->
  copied m0 m (dst + i) (src + i) (n - i) ->
  exists i' m', memcpy_bw_type k dst src i m = Ok (i', m') /\
  copied m0 m' (dst + i') (src + i') (n - i') /\ 0 <= i' < Z.of_nat k /\ i' <= n.
Proof.
  intros Hk Hd Hi W. unfold memcpy_bw_type. rewrite Z.geb_leb.
  destruct (Z.leb_spec (Z.of_nat k) i) as [Hle|Hgt].
  - apply memcpy_bw_loop_ok; try lia. by rewrite Z.sub_add.
  - exists i, m. split_and!; (done || lia).
Qed.

Lemma rep_movsb_down_ok : src <= dst ->
  forall k i m, 0 <= i -> i = Z.of_nat k -> i <= n -> copied m0 m (dst + i) (src + i) (n - i) ->
  exists m', rep_movsb k (-1) (dst + (i - 1)) (src + (i - 1)) m = Ok m' /\ copied m0 m' dst src n.
Proof.
  intros Hd. induction k as [|k IH]; intros i m Hi -> Hn W.
  - exists m. split; [done|]. by rewrite !Z.add_0_r, Z.sub_0_r in W.
  - replace (Z.of_nat (S k) - 1) with (Z.of_nat k) by lia.
    destruct (step_down 1 (Z.of_nat k) m Hd ltac:(lia) ltac:(lia)) as (v & m1 & E1 & E2 & W1).
    { by replace (Z.of_nat k + Z.of_nat 1) with (Z.of_nat (S k)) by lia. }
    rewrite load_1 in E1. rewrite store_1 in E2. cbn [rep_movsb].
    rewrite E1, outcome_bind_ok, E2, outcome_bind_ok.
    destruct (IH (Z.of_nat k) m1 ltac:(lia) eq_refl ltac:(lia) W1) as (m' & E & W').
    exists m'. split; [|done]. rewrite <- E. f_equal; lia.
Qed.
End copy.

Section memcpy.
Context (m0 : bytes) (dst src n : Z) (Hm0 : bytes_ok m0)
  (Hdst : mapped m0 dst n) (Hsrc : mapped m0 src n) (Hd : dst <= src \/ src + n <= dst).

(** The last [n - i] bytes by accesses of four, two and one, and so on. *)
Lemma copy_rest1 i m : copied m0 m dst src i -> 0 <= i <= n -> forall fuel, n - i <= Z.of_nat fuel ->
  exists m', memcpy_type fuel 1 (dst + i) (src + i) (n - i) m = Ok (0, dst + n, src + n, m') /\
  copied m0 m' dst src n.
Proof.
  intros W Hi fuel Hf.
  destruct (memcpy_type_ok m0 dst src n Hm0 Hdst Hsrc 1 ltac:(lia) Hd fuel i m W Hi Hf)
    as (i' & m' & E & W' & ? & ? & _). assert (i' = n) as -> by lia.
  exists m'. by rewrite E, Z.sub_diag.
Qed.

Lemma copy_rest2 {A} i m fuel (g : bytes -> outcome A) : copied m0 m dst src i -> 0 <= i <= n ->
  n - i <= Z.of_nat fuel ->
  exists m', ('(n, dst, src, m) ← memcpy_type fuel 2 (dst + i) (src + i) (n - i) m;
    '(_, _, _, m) ← memcpy_type fuel 1 dst src n m; g m) = g m' /\ copied m0 m' dst src n.
Proof.
  intros W Hi Hf.
  destruct (memcpy_type_ok m0 dst src n Hm0 Hdst Hsrc 2 ltac:(lia) Hd fuel i m W Hi Hf)
    as (i1 & m1 & -> & W1 & ? & ? & _). rewrite outcome_bind_ok.
  destruct (copy_rest1 i1 m1 W1 ltac:(lia) fuel ltac:(lia)) as (m2 & -> & W2).
  rewrite outcome_bind_ok. by exists m2.
Qed.

Lemma copy_rest4 {A} i m fuel (g : bytes -> outcome A) : copied m0 m dst src i -> 0 <= i <= n ->
  n - i <= Z.of_nat fuel ->
  exists m', ('(n, dst, src, m) ← memcpy_type fuel 4 (dst + i) (src + i) (n - i) m;
    '(n, dst, src, m) ← memcpy_type fuel 2 dst src n m;
    '(_, _, _, m) ← memcpy_type fuel 1 dst src n m; g m) = g m' /\ copied m0 m' dst src n.
Proof.
  intros W Hi Hf.
  destruct (memcpy_type_ok m0 dst src n Hm0 Hdst Hsrc 4 ltac:(lia) Hd fuel i m W Hi Hf)
    as (i1 & m1 & -> & W1 & ? & ? & _). rewrite outcome_bind_ok.
  apply copy_rest2; (done || lia).
Qed.
End memcpy.

(** ** Properties of copying *)

Lemma memcpy_ok dst src n m : bytes_ok m -> 0 <= n -> mapped m dst n -> mapped m src n ->
  dst <= src \/ src + n <= dst ->
  exists m', memcpy dst src n m = Ok (if n =? 2 then dst + 2 else dst, m') /\
  copied m m' dst src n.
Proof.
  intros Hm Hn Hd Hs Hov. unfold memcpy, REP_MOVSB_MIN. rewrite !Z.geb_leb.
  pose proof (copied_0 m dst src) as W0.
  assert (n - 0 <= Z.of_nat (Z.to_nat n)) as Hf by lia.
  destruct (Z.leb_spec 16 n).
  { rewrite (proj2 (Z.eqb_neq n 2)) by lia.
    destruct (rep_movsb_up_ok m dst src n Hm Hd Hs Hov (Z.to_nat n) 0 m W0) as (m' & E & W); [lia..|].
    rewrite !Z.add_0_r in E. rewrite E, outcome_bind_ok. by exists m'. }
  destruct (Z.leb_spec 8 n).
  { rewrite (proj2 (Z.eqb_neq n 2)) by lia.
    destruct (memcpy_type_ok m dst src n Hm Hd Hs 8 ltac:(lia) Hov (Z.to_nat n) 0 m W0 ltac:(lia) Hf)
      as (i & m1 & E & W & ? & ? & _).
    rewrite !Z.add_0_r, Z.sub_0_r in E. rewrite E, outcome_bind_ok.
    apply (copy_rest4 m dst src n Hm Hd Hs Hov i m1 (Z.to_nat n) (fun m => Ok (dst, m))); (done || lia). }
  destruct (Z.leb_spec 4 n).
  { rewrite (proj2 (Z.eqb_neq n 2)) by lia.
    pose proof (copy_rest4 m dst src n Hm Hd Hs Hov 0 m (Z.to_nat n) (fun m => Ok (dst, m)) W0
      ltac:(lia) Hf) as H'. by rewrite !Z.add_0_r, Z.sub_0_r in H'. }
  destruct (Z.leb_spec 2 n).
  { destruct (memcpy_type_ok m dst src n Hm Hd Hs 2 ltac:(lia) Hov (Z.to_nat n) 0 m W0 ltac:(lia) Hf)
      as (i & m1 & E & W & ? & ? & j & Hj).
    rewrite !Z.add_0_r, Z.sub_0_r in E. rewrite E, outcome_bind_ok.
    destruct (Z.eqb_spec (n - i) 0), (Z.eqb_spec n 2); try lia.
    - exists m1. assert (i = n) as -> by lia. split; [|done]. do 2 f_equal. lia.
    - destruct (copy_rest1 m dst src n Hm Hd Hs Hov i m1 W ltac:(lia) (Z.to_nat n) ltac:(lia))
        as (m2 & -> & W2). rewrite outcome_bind_ok. by exists m2. }
  rewrite (proj2 (Z.eqb_neq n 2)) by lia.
  destruct (copy_rest1 m dst src n Hm Hd Hs Hov 0 m W0 ltac:(lia) (Z.to_nat n) ltac:(lia))
    as (m2 & E & W2). rewrite !Z.add_0_r, Z.sub_0_r in E. rewrite E, outcome_bind_ok. by exists m2.
Qed.

(** [memcpy] of ranges that are mapped, and either do not overlap or have
    the destination below the source, copies exactly the [n] bytes, whatever
    mixture of accesses it uses, and returns the destination; except that for
    [n = 2] it returns the end of the copy. *)
Theorem memcpy_spec dst src n m : bytes_ok m -> 0 <= n -> mapped m dst n -> mapped m src n ->
  dst <= src \/ src + n <= dst ->
  exists m', memcpy dst src n m = Ok (if n =? 2 then dst + 2 else dst, m') /\
  copied m m' dst src n.
Proof. apply memcpy_ok. Qed.

(** A store of the bytes 0 to 255 at the addresses 0 to 255. *)
Definition ex_bytes : bytes := list_to_map ((fun a => (a, a)) <$> seqZ 0 256).

Lemma ex_bytes_lookup a : 0 <= a < 256 -> ex_bytes !! a = Some a.
Proof.
  intros Ha. apply elem_of_list_to_map_1.
  - rewrite <- list_fmap_compose. rewrite (list_fmap_ext _ id), list_fmap_id by done. apply NoDup_seqZ.
  - apply list_elem_of_fmap. exists a. split; [done|]. by apply elem_of_seqZ.
Qed.

Lemma ex_mapped a n : 0 <= a -> a + n <= 256 -> mapped ex_bytes a n.
Proof. intros H1 H2 i Hi. rewrite ex_bytes_lookup by lia. eauto. Qed.

Lemma ex_bytes_ok : bytes_ok ex_bytes.
Proof. apply (bool_decide_eq_true_1 (map_Forall (fun _ b => 0 <= b < 256) _)). vm_compute. reflexivity. Qed.

Lemma memcpy_spec_witness :
  exists m', memcpy 3 10 13 ex_bytes = Ok (3, m') /\ copied ex_bytes m' 3 10 13.
Proof.
  apply (memcpy_spec 3 10 13 ex_bytes);
    [apply ex_bytes_ok|lia|apply ex_mapped; lia|apply ex_mapped; lia|lia].
Defined.

Section memmove.
Context (m0 : bytes) (dst src n : Z) (Hm0 : bytes_ok m0)
  (Hdst : mapped m0 dst n) (Hsrc : mapped m0 src n) (Hd : src <= dst).

Lemma bw_rest1 {A} i m (g : bytes -> outcome A) : copied m0 m (dst + i) (src + i) (n - i) ->
  0 <= i <= n ->
  exists m', ('(_, m) ← memcpy_bw_type 1 dst src i m; g m) = g m' /\ copied m0 m' dst src n.
Proof.
  intros W Hi.
  destruct (memcpy_bw_type_ok m0 dst src n Hm0 Hdst Hsrc 1 i m ltac:(lia) Hd Hi W)
    as (i' & m' & -> & W' & ? & _). assert (i' = 0) as -> by lia.
  rewrite outcome_bind_ok. exists m'. by rewrite !Z.add_0_r, Z.sub_0_r in W'.
Qed.

Lemma bw_rest2 {A} i m (g : bytes -> outcome A) : copied m0 m (dst + i) (src + i) (n - i) ->
  0 <= i <= n ->
  exists m', ('(n, m) ← memcpy_bw_type 2 dst src i m;
    '(_, m) ← memcpy_bw_type 1 dst src n m; g m) = g m' /\ copied m0 m' dst src n.
Proof.
  intros W Hi.
  destruct (memcpy_bw_type_ok m0 dst src n Hm0 Hdst Hsrc 2 i m ltac:(lia) Hd Hi W)
    as (i' & m' & -> & W' & ? & ?). rewrite outcome_bind_ok. apply bw_rest1; (done || lia).
Qed.

Lemma bw_rest4 {A} i m (g : bytes -> outcome A) : copied m0 m (dst + i) (src + i) (n - i) ->
  0 <= i <= n ->
  exists m', ('(n, m) ← memcpy_bw_type 4 dst src i m; '(n, m) ← memcpy_bw_type 2 dst src n m;
    '(_, m) ← memcpy_bw_type 1 dst src n m; g m) = g m' /\ copied m0 m' dst src n.
Proof.
  intros W Hi.
  destruct (memcpy_bw_type_ok m0 dst src n Hm0 Hdst Hsrc 4 i m ltac:(lia) Hd Hi W)
    as (i' & m' & -> & W' & ? & ?). rewrite outcome_bind_ok. apply bw_rest2; (done || lia).
Qed.
End memmove.

(** Nothing copied yet, from the top. *)
Lemma copied_top m dst src n : copied m m (dst + n) (src + n) (n - n).
Proof. rewrite Z.sub_diag. apply copied_0. Qed.

Lemma memmove_down_ok dst src n m : bytes_ok m -> 0 <= n -> mapped m dst n -> mapped m src n ->
  src <= dst -> exists m', memmove dst src n m = Ok (dst, m') /\ copied m m' dst src n.
Proof.
  intros Hm Hn Hd Hs Hov. unfold memmove, REP_MOVSB_MIN. rewrite Z.gtb_ltb, !Z.geb_leb.
  rewrite (proj2 (Z.ltb_ge dst src)) by lia. pose proof (copied_top m dst src n) as W0.
  destruct (Z.leb_spec 16 n).
  { destruct (rep_movsb_down_ok m dst src n Hm Hd Hs Hov (Z.to_nat n) n m) as (m' & -> & W);
      [lia|lia|lia|done|]. rewrite outcome_bind_ok. by exists m'. }
  destruct (Z.leb_spec 8 (dst - src)).
  { destruct (memcpy_bw_type_ok m dst src n Hm Hd Hs 8 n m ltac:(lia) Hov ltac:(lia) W0)
      as (i & m1 & -> & W & ? & ?). rewrite outcome_bind_ok.
    apply (bw_rest4 m dst src n Hm Hd Hs Hov i m1 (fun m => Ok (dst, m))); (done || lia). }
  destruct (Z.leb_spec 4 (dst - src)).
  { apply (bw_rest4 m dst src n Hm Hd Hs Hov n m (fun m => Ok (dst, m))); (done || lia). }
  destruct (Z.leb_spec 2 (dst - src)).
  { apply (bw_rest2 m dst src n Hm Hd Hs Hov n m (fun m => Ok (dst, m))); (done || lia). }
  destruct (Z.leb_spec 1 (dst - src)).
  { apply (bw_rest1 m dst src n Hm Hd Hs Hov n m (fun m => Ok (dst, m))); (done || lia). }
  assert (src = dst) as -> by lia. exists m. split; [done|]. intros a.
  case_decide; [f_equal; lia|done].
Qed.

Lemma memmove_up_ok dst src n m : bytes_ok m -> 0 <= n < 16 -> mapped m dst n -> mapped m src n ->
  dst < src -> exists m', memmove dst src n m = Ok (dst, m') /\ copied m m' dst src n.
Proof.
  intros Hm Hn Hd Hs Hov. unfold memmove, REP_MOVSB_MIN. rewrite Z.gtb_ltb, !Z.geb_leb.
  rewrite (proj2 (Z.ltb_lt dst src)), (proj2 (Z.leb_gt 16 n)) by lia.
  pose proof (copied_0 m dst src) as W0. assert (dst <= src \/ src + n <= dst) as Hov' by lia.
  assert (n - 0 <= Z.of_nat (Z.to_nat n)) as Hf by lia.
  destruct (Z.leb_spec 8 (src - dst)).
  { destruct (memcpy_ok dst src n m) as (m' & -> & W); [done|lia|done..|].
    rewrite outcome_bind_ok. by exists m'. }
  destruct (Z.leb_spec 4 (src - dst)).
  { pose proof (copy_rest4 m dst src n Hm Hd Hs Hov' 0 m (Z.to_nat n) (fun m => Ok (dst, m)) W0
      ltac:(lia) Hf) as H'. by rewrite !Z.add_0_r, Z.sub_0_r in H'. }
  destruct (Z.leb_spec 2 (src - dst)).
  { pose proof (copy_rest2 m dst src n Hm Hd Hs Hov' 0 m (Z.to_nat n) (fun m => Ok (dst, m)) W0
      ltac:(lia) Hf) as H'. by rewrite !Z.add_0_r, Z.sub_0_r in H'. }
  rewrite (proj2 (Z.leb_le 1 _)) by lia.
  destruct (copy_rest1 m dst src n Hm Hd Hs Hov' 0 m W0 ltac:(lia) (Z.to_nat n) Hf)
    as (m2 & E & W2). rewrite !Z.add_0_r, Z.sub_0_r in E. rewrite E, outcome_bind_ok. by exists m2.
Qed.

(** [rep movsb] downwards stores nothing above where it starts. *)
Lemma rep_movsb_down_above k : forall dst src m, bytes_ok m ->
  mapped m (dst - Z.of_nat k + 1) (Z.of_nat k) -> mapped m (src - Z.of_nat k + 1) (Z.of_nat k) ->
  exists m', rep_movsb k (-1) dst src m = Ok m' /\ (forall a, dst < a -> m' !! a = m !! a) /\
  ((0 < k)%nat -> m' !! dst = m !! src).
Proof.
  induction k as [|k IH]; intros dst src m Hm Hd Hs; [by exists m; split_and!; intros; try lia|].
  cbn [rep_movsb]. destruct (load8_ok m src) as (b & -> & Hb); [apply Hs; lia|].
  rewrite outcome_bind_ok, store8_ok, outcome_bind_ok by (apply Hd; lia).
  pose proof (map_Forall_lookup_1 _ _ _ _ Hm Hb) as Hb8. simpl in Hb8. rewrite wrap_small by done.
  destruct (IH (dst + -1) (src + -1) (<[dst := b]> m)) as (m' & E & H1 & _).
  - by apply map_Forall_insert_2.
  - intros i Hi. rewrite lookup_insert_is_Some'. right. apply Hd. lia.
  - intros i Hi. rewrite lookup_insert_is_Some'. right. apply Hs. lia.
  - exists m'. split_and!; [done| |].
    + intros a Ha. rewrite H1 by lia. by rewrite lookup_insert_ne by lia.
    + intros _. rewrite H1 by lia. by rewrite lookup_insert_eq.
Qed.

(** C21: [memmove] copies exactly the [n] bytes and returns the destination
    when the destination is not below the source, however the ranges overlap,
    and for fewer than 16 bytes also when it is below.  For 16 bytes or more
    moved down it copies the first byte only: everything else in the
    destination keeps its value, and the bytes before it are overwritten. *)
Theorem memmove_spec dst src n m : bytes_ok m -> 0 <= n -> mapped m dst n -> mapped m src n ->
  (src <= dst \/ n < 16 ->
   exists m', memmove dst src n m = Ok (dst, m') /\ copied m m' dst src n) /\
  (dst < src -> 16 <= n -> mapped m (dst - n + 1) n -> mapped m (src - n + 1) n ->
   exists m', memmove dst src n m = Ok (dst, m') /\ m' !! dst = m !! src /\
   forall a, dst < a -> m' !! a = m !! a).
Proof.
  intros Hm Hn Hd Hs. split.
  - intros H. destruct (decide (src <= dst)); [by apply memmove_down_ok|].
    apply memmove_up_ok; (done || lia).
  - intros Hov H16 Hd' Hs'. unfold memmove, REP_MOVSB_MIN. rewrite Z.gtb_ltb, Z.geb_leb.
    rewrite (proj2 (Z.ltb_lt dst src)), (proj2 (Z.leb_le 16 n)) by lia.
    destruct (rep_movsb_down_above (Z.to_nat n) dst src m) as (m' & -> & H1 & H2);
      [done|by rewrite Z2Nat.id by lia..|].
    rewrite outcome_bind_ok. exists m'. split_and!; [done| |done]. apply H2. lia.
Qed.

Lemma memmove_spec_witness :
  (20 <= 25 \/ 20 < 16 ->
   exists m', memmove 25 20 20 ex_bytes = Ok (25, m') /\ copied ex_bytes m' 25 20 20) /\
  (25 < 20 -> 16 <= 20 -> mapped ex_bytes (25 - 20 + 1) 20 -> mapped ex_bytes (20 - 20 + 1) 20 ->
   exists m', memmove 25 20 20 ex_bytes = Ok (25, m') /\ m' !! 25 = ex_bytes !! 20 /\
   forall a, 25 < a -> m' !! a = ex_bytes !! a).
Proof.
  apply (memmove_spec 25 20 20 ex_bytes);
    [apply ex_bytes_ok|lia|apply ex_mapped; lia|apply ex_mapped; lia].
Defined.

(** ** Comparing *)

(** Some byte of the two ranges differs. *)
Definition differ (m : bytes) (left right n : Z) : Prop :=
  exists i, 0 <= i < n /\ m !! (left + i) <> m !! (right + i).

Section compare.
Context (m : bytes) (Hm : bytes_ok m).

Lemma not_differ_0 l r n : n <= 0 -> ~ differ m l r n.
Proof. intros Hn (i & Hi & _). lia. Qed.

Lemma differ_split l r k n : 0 <= k <= n ->
  differ m l r n <-> differ m l r k \/ differ m (l + k) (r + k) (n - k).
Proof.
  intros Hk. split.
  - intros (i & Hi & Hne). destruct (decide (i < k)); [left; exists i; split; [lia|done]|right].
    exists (i - k). split; [lia|]. replace (l + k + (i - k)) with (l + i) by lia.
    by replace (r + k + (i - k)) with (r + i) by lia.
  - intros [(i & Hi & Hne)|(i & Hi & Hne)]; [exists i; split; [lia|done]|].
    exists (i + k). split; [lia|]. by rewrite (Z.add_comm i), !Z.add_assoc.
Qed.

(** Two accesses give different numbers exactly when some byte differs. *)
Lemma load_n_differ k l r : mapped m l (Z.of_nat k) -> mapped m r (Z.of_nat k) ->
  exists v w, load_n k l m = Ok v /\ load_n k r m = Ok w /\
  0 <= v < 256 ^ Z.of_nat k /\ 0 <= w < 256 ^ Z.of_nat k /\
  (v <> w <-> differ m l r (Z.of_nat k)).
Proof.
  intros Hl Hr. destruct (load_n_ok m Hm k l Hl) as (v & Ev & Hv & Bv).
  destruct (load_n_ok m Hm k r Hr) as (w & Ew & Hw & Bw). exists v, w. split_and!; try done; try lia.
  split.
  - intros Hne. destruct (decide (Forall (fun i => m !! (l + i) = m !! (r + i)) (seqZ 0 (Z.of_nat k))))
      as [Hall|Hn].
    + exfalso. apply Hne. rewrite (load_n_ext m l r) in Ev by
        (intros i Hi; apply (proj1 (Forall_forall _ _) Hall); apply elem_of_seqZ; lia). congruence.
    + apply not_Forall_Exists in Hn; [|apply _]. apply Exists_exists in Hn as (i & Hi%elem_of_seqZ & Hd).
      exists i. split; [lia|done].
  - intros (i & Hi & Hne) ->. apply Hne. by rewrite Bv, Bw.
Qed.

Definition mapped2 (l r n : Z) : Prop := mapped m l n /\ mapped m r n.

Lemma mapped2_tail l r k n : 0 <= k <= n -> mapped2 l r n -> mapped2 (l + k) (r + k) (n - k).
Proof.
  intros Hk [H1 H2]. split; [apply (mapped_sub m l n)|apply (mapped_sub m r n)]; (done || lia).
Qed.

(** The answers of [memcmp_type]: a difference was found, or the bytes passed
    over are equal and less than [k] are left, or (for a difference whose low
    32 bits are 0) nothing was passed over. *)
Definition cmp_answer (k : nat) (l r n res l' r' n' : Z) : Prop :=
  (res <> 0 /\ differ m l r n) \/
  (res = 0 /\ mapped2 l' r' n' /\ (differ m l' r' n' <-> differ m l r n) /\ 0 <= n' /\
   (n' < Z.of_nat k \/ (k = 8%nat /\ n' = n))).

Lemma i32_difference k v w : (k <= 4)%nat -> 0 <= v < 256 ^ Z.of_nat k -> 0 <= w < 256 ^ Z.of_nat k ->
  v <> w -> i32 (v - w) <> 0.
Proof.
  intros Hk Hv Hw Hne. assert (256 ^ Z.of_nat k <= 256 ^ 4) as Hp by (apply Z.pow_le_mono_r; lia).
  change (256 ^ 4) with (2 ^ 32) in Hp. unfold swrap.
  change (32 - 1) with 31. intros E.
  pose proof (Z.div_mod (v - w + 2 ^ 31) (2 ^ 32) ltac:(lia)) as Hdm.
  remember ((v - w + 2 ^ 31) / 2 ^ 32) as q. remember (2 ^ 32) as M. lia.
Qed.

Lemma memcmp_loop_ok k l0 r0 n0 : In k [1; 2; 4; 8]%nat ->
  forall fuel l r n, mapped2 l r n -> Z.of_nat k <= n -> n <= Z.of_nat fuel ->
  mapped2 l0 r0 n0 -> (differ m l r n <-> differ m l0 r0 n0) ->
  exists res out, memcmp_loop fuel k l r n m = Ok (res, out) /\
  forall l' r' n', default (l0, r0, n0) out = (l', r', n') ->
  0 <= n0 -> cmp_answer k l0 r0 n0 res l' r' n'.
Proof.
  intros Hk. assert (0 < k)%nat as Hk0 by (simpl in Hk; lia).
  induction fuel as [|fuel IH]; intros l r n Hmp Hkn Hf Hmp0 Hiff; [lia|]. cbn [memcmp_loop].
  destruct (load_n_differ k l r) as (v & w & -> & -> & Hv & Hw & Hd);
    [apply (mapped_sub m l n); [apply Hmp|lia..]|apply (mapped_sub m r n); [apply Hmp|lia..]|].
  rewrite !outcome_bind_ok. pose proof (differ_split l r (Z.of_nat k) n ltac:(lia)) as Hsp.
  destruct (Z.eqb_spec v w) as [Evw|Hne]; cbn [negb].
  - assert (~ differ m l r (Z.of_nat k)) as Hnd by (rewrite <- Hd; lia).
    assert (differ m (l + Z.of_nat k) (r + Z.of_nat k) (n - Z.of_nat k) <-> differ m l0 r0 n0) as Hiff'
      by (rewrite <- Hiff, Hsp; tauto).
    pose proof (mapped2_tail l r (Z.of_nat k) n ltac:(lia) Hmp) as Hmp'.
    rewrite Z.geb_leb. destruct (Z.leb_spec (Z.of_nat k) (n - Z.of_nat k)).
    + apply IH; (done || lia).
    + eexists _, _. split; [done|]. intros l' r' n' [= <- <- <-] Hn0. right.
      split_and!; try done; try lia; try apply Hiff'.
  - eexists _, None. split; [done|]. intros l' r' n' [= <- <- <-] Hn0.
    assert (differ m l0 r0 n0) as Hd0 by (apply Hiff, Hsp; left; by apply Hd).
    destruct (decide (i32 (v - w) = 0)) as [Ez|Hnz]; [|by left]. right.
    split_and!; try done; try apply Hmp0. right. split; [|done].
    simpl in Hk. destruct Hk as [<-|[<-|[<-|[<-|[]]]]]; try done; exfalso;
      (eapply (i32_difference _ v w); [|exact Hv|exact Hw|exact Hne|exact Ez]; lia).
Qed.

Lemma memcmp_type_ok k l r n : In k [1; 2; 4; 8]%nat -> mapped2 l r n -> 0 <= n ->
  exists res l' r' n', memcmp_type k l r n m = Ok (res, (l', r', n')) /\
  cmp_answer k l r n res l' r' n'.
Proof.
  intros Hk Hmp Hn. unfold memcmp_type. destruct (Z.ltb_spec n (Z.of_nat k)).
  - exists 0, l, r, n. split; [done|]. right. split_and!; (done || lia || apply Hmp).
  - destruct (memcmp_loop_ok k l r n Hk (Z.to_nat n) l r n Hmp) as (res & out & -> & H');
      [lia|lia|done|done|].
    rewrite outcome_bind_ok. destruct (default (l, r, n) out) as [[l' r'] n'] eqn:E.
    exists res, l', r', n'. split; [done|]. by apply H'.
Qed.
End compare.

(** One access size after another until nothing is left. *)
Lemma cmp_next m k l0 r0 n0 l r n : bytes_ok m -> In k [1; 2; 4]%nat ->
  mapped2 m l r n -> 0 <= n -> (differ m l r n <-> differ m l0 r0 n0) ->
  exists res l' r' n', memcmp_type k l r n m = Ok (res, (l', r', n')) /\
  (res <> 0 /\ differ m l0 r0 n0 \/
   res = 0 /\ mapped2 m l' r' n' /\ 0 <= n' < Z.of_nat k /\
   (differ m l' r' n' <-> differ m l0 r0 n0)).
Proof.
  intros Hm Hk Hmp Hn Hiff.
  destruct (memcmp_type_ok m Hm k l r n) as (res & l' & r' & n' & E & H');
    [simpl in *; tauto|done|done|].
  exists res, l', r', n'. split; [done|].
  destruct H' as [[H1 H2]|(-> & H1 & H2 & H3 & H4)]; [left; tauto|right].
  split_and!; try done; try (rewrite H2; done).
  destruct H4 as [|[-> _]]; [done|]. simpl in Hk. lia.
Qed.

(** C22: [memcmp] terminates on every pair of mapped ranges, and its answer is
    0 exactly when the ranges are equal byte by byte, although the difference
    of two 64-bit words is cut to 32 bits (a difference lost there is found by
    the passes with smaller accesses). *)
Theorem memcmp_spec left right n m : bytes_ok m -> 0 <= n ->
  mapped m left n -> mapped m right n ->
  exists res, memcmp left right n m = Ok res /\ (res = 0 <-> ~ differ m left right n).
Proof.
  intros Hm Hn Hl Hr. unfold memcmp.
  destruct (memcmp_type_ok m Hm 8 left right n) as (res & l & r & n1 & -> & H1);
    [simpl; tauto|done|done|]. rewrite outcome_bind_ok.
  destruct H1 as [[Hnz Hd]|(-> & Hmp & Hiff & Hn1 & _)].
  { rewrite (proj2 (Z.eqb_neq res 0)) by done. exists res. split; [done|tauto]. }
  rewrite Z.eqb_refl. cbn [negb].
  destruct (cmp_next m 4 left right n l r n1 Hm) as (res & l1 & r1 & n2 & -> & H1);
    [simpl; tauto|done..|]. rewrite outcome_bind_ok.
  destruct H1 as [[Hnz Hd]|(-> & Hmp1 & Hn2 & Hiff1)].
  { rewrite (proj2 (Z.eqb_neq res 0)) by done. exists res. split; [done|tauto]. }
  rewrite Z.eqb_refl. cbn [negb].
  destruct (cmp_next m 2 left right n l1 r1 n2 Hm) as (res & l2 & r2 & n3 & -> & H1);
    [simpl; tauto|done|lia|done|]. rewrite outcome_bind_ok.
  destruct H1 as [[Hnz Hd]|(-> & Hmp2 & Hn3 & Hiff2)].
  { rewrite (proj2 (Z.eqb_neq res 0)) by done. exists res. split; [done|tauto]. }
  rewrite Z.eqb_refl. cbn [negb].
  destruct (cmp_next m 1 left right n l2 r2 n3 Hm) as (res & l3 & r3 & n4 & -> & H1);
    [simpl; tauto|done|lia|done|]. rewrite outcome_bind_ok. exists res. split; [done|].
  destruct H1 as [[Hnz Hd]|(-> & _ & Hn4 & Hiff3)]; [tauto|].
  rewrite <- Hiff3. split; [|done]. intros _. apply not_differ_0. lia.
Qed.

Lemma memcmp_spec_witness :
  exists res, memcmp 10 20 9 ex_bytes = Ok res /\ (res = 0 <-> ~ differ ex_bytes 10 20 9).
Proof.
  apply (memcmp_spec 10 20 9 ex_bytes); [apply ex_bytes_ok|lia|apply ex_mapped; lia..].
Defined.

(** The sign is that of the little-endian numbers, not of the first byte that
    differs. *)
Lemma memcmp_sign_is_little_endian :
  memcmp 0 2 2 (<[0 := 1]> (<[1 := 2]> (<[2 := 2]> (<[3 := 1]> ∅)))) = Ok 255.
Proof. vm_compute. reflexivity. Qed.

(** ** Strings *)

(** The characters of the terminated string at [a]. *)
Definition cstr (m : bytes) (a : Z) (s : list Z) : Prop :=
  Forall (fun c => in_u 8 c /\ c <> 0) s /\
  forall i c, (s ++ [0]) !! i = Some c -> m !! (a + Z.of_nat i) = Some c.

Definition char_at (s : list Z) (i : nat) : Z := i8 (default 0 (s !! i)).

Lemma cstr_cons m a c s : cstr m a (c :: s) ->
  in_u 8 c /\ c <> 0 /\ m !! a = Some c /\ cstr m (a + 1) s.
Proof.
  intros [Hf Hl]. apply Forall_cons in Hf as [[H1 H2] Hf]. split_and!; try done.
  - specialize (Hl 0%nat c eq_refl). by rewrite Z.add_0_r in Hl.
  - split; [done|]. intros i x Hx. replace (a + 1 + Z.of_nat i) with (a + Z.of_nat (S i)) by lia.
    by apply Hl.
Qed.

Lemma cstr_nil m a : cstr m a [] -> m !! a = Some 0.
Proof. intros [_ Hl]. specialize (Hl 0%nat 0 eq_refl). by rewrite Z.add_0_r in Hl. Qed.

(** A string is shorter than the memory that holds it. *)
Lemma cstr_size m a s : cstr m a s -> (length s < size m)%nat.
Proof.
  intros [_ Hl].
  assert (((fun i => a + Z.of_nat i) <$> seq 0 (S (length s))) ⊆+ elements (dom m)) as Hsub.
  { apply NoDup_submseteq.
    - apply NoDup_fmap_2; [intros x y; lia|apply NoDup_seq].
    - intros x (i & -> & Hi%elem_of_seq)%list_elem_of_fmap. apply elem_of_elements, elem_of_dom.
      destruct (lookup_lt_is_Some_2 (s ++ [0]) i) as [c Hc]; [rewrite length_app; simpl; lia|].
      rewrite (Hl i c Hc). eauto. }
  apply submseteq_length in Hsub. rewrite length_fmap, length_seq in Hsub.
  rewrite <- size_dom. unfold size, set_size. simpl. lia.
Qed.

Lemma i8_zero c : in_u 8 c -> (i8 c =? 0) = (c =? 0).
Proof.
  intros Hc. unfold_ints. unfold swrap. change (2 ^ 8) with 256 in *. change (2 ^ (8 - 1)) with 128.
  apply eq_true_iff_eq. rewrite !Z.eqb_eq. split; [|by intros ->].
  intros E. pose proof (Z.div_mod (c + 128) 256 ltac:(lia)).
  pose proof (Z.mod_pos_bound (c + 128) 256 ltac:(lia)). lia.
Qed.

Lemma load_char_ok m a c : m !! a = Some c -> load_char a m = Ok (i8 c).
Proof. intros Hc. unfold load_char, load8. by rewrite Hc. Qed.

Lemma load_char_cstr m a s : cstr m a s -> load_char a m = Ok (char_at s 0).
Proof.
  intros Hs. apply load_char_ok. destruct s as [|c s]; [by apply cstr_nil|]. by apply cstr_cons in Hs as (_ & _ & -> & _).
Qed.

Lemma cstr_first m a s : cstr m a s -> (char_at s 0 =? 0) = match s with [] => true | _ => false end.
Proof.
  intros Hs. destruct s as [|c s]; [done|]. apply cstr_cons in Hs as (H1 & H2 & _).
  unfold char_at. simpl. rewrite i8_zero by done. by apply Z.eqb_neq.
Qed.

Lemma strlen_loop_ok m : forall s a n fuel, cstr m a s -> (length s <= fuel)%nat ->
  strlen_loop fuel (char_at s 0) n a m = Ok (n + Z.of_nat (length s)).
Proof.
  induction s as [|c s IH]; intros a n fuel Hs Hf.
  - destruct fuel; simpl; f_equal; lia.
  - pose proof (cstr_first m a _ Hs) as Hc. apply cstr_cons in Hs as (_ & _ & _ & Hs).
    destruct fuel as [|fuel]; [simpl in Hf; lia|]. cbn [strlen_loop]. rewrite Hc.
    rewrite (load_char_cstr m (a + 1) s), outcome_bind_ok, IH by (done || (simpl in Hf; lia)).
    f_equal. cbn [length]. lia.
Qed.

Lemma strnlen_loop_ok m : forall s a r n, cstr m a s ->
  strnlen_loop n (char_at s 0) r a m = Ok (r + Z.of_nat (Nat.min n (length s))).
Proof.
  induction s as [|c s IH]; intros a r n Hs.
  - destruct n; simpl; f_equal; lia.
  - pose proof (cstr_first m a _ Hs) as Hc. apply cstr_cons in Hs as (_ & _ & _ & Hs).
    destruct n as [|n]; [simpl; f_equal; lia|]. cbn [strnlen_loop]. rewrite Hc.
    rewrite (load_char_cstr m (a + 1) s), outcome_bind_ok, IH by done. f_equal. cbn [length]. lia.
Qed.

(** The last place a character occurs at in [s], starting to count at [a]. *)
Fixpoint last_index (ch : Z) (s : list Z) (a : Z) (r : option Z) : option Z :=
  match s with
  | [] => r
  | c :: s => last_index ch s (a + 1) (if i8 c =? ch then Some a else r)
  end.

Lemma strchr_loop_ok m ch : forall s a fuel, cstr m a s -> (length s <= fuel)%nat ->
  strchr_loop fuel a ch m =
  Ok ((fun p => a + Z.of_nat (fst p)) <$> list_find (fun c => i8 c = ch) s).
Proof.
  induction s as [|c s IH]; intros a fuel Hs Hf.
  - destruct fuel; cbn [strchr_loop]; by rewrite (load_char_cstr m a []).
  - pose proof (cstr_first m a _ Hs) as Hc. pose proof (load_char_cstr m a _ Hs) as Hl.
    apply cstr_cons in Hs as (_ & _ & _ & Hs).
    destruct fuel as [|fuel]; [simpl in Hf; lia|].
    cbn [strchr_loop]. rewrite Hl, outcome_bind_ok, Hc. unfold char_at. cbn [lookup list_lookup default].
    cbn [list_find]. destruct (decide (i8 c = ch)) as [E|E].
    + rewrite (proj2 (Z.eqb_eq _ _)) by done. simpl. do 2 f_equal. lia.
    + rewrite (proj2 (Z.eqb_neq _ _)) by done. rewrite IH by (done || (simpl in Hf; lia)).
      f_equal. destruct (list_find _ s) as [[i x]|]; simpl; [|done]. f_equal. lia.
Qed.

Lemma strrchr_loop_ok m ch : forall s a r fuel, cstr m a s -> (length s <= fuel)%nat ->
  strrchr_loop fuel r a ch m = Ok (last_index ch s a r).
Proof.
  induction s as [|c s IH]; intros a r fuel Hs Hf.
  - destruct fuel; cbn [strrchr_loop]; by rewrite (load_char_cstr m a []).
  - pose proof (cstr_first m a _ Hs) as Hc. pose proof (load_char_cstr m a _ Hs) as Hl.
    apply cstr_cons in Hs as (_ & _ & _ & Hs).
    destruct fuel as [|fuel]; [simpl in Hf; lia|].
    cbn [strrchr_loop]. rewrite Hl, outcome_bind_ok, Hc. unfold char_at. simpl.
    apply IH; [done|]. simpl in Hf. lia.
Qed.

(** on a terminated string [strlen] counts the characters before the
    terminator, [strnlen] at most [limit] of them, and [strchr] and [strrchr]
    find the first and the last place of a character (never the terminator);
    all of them end. *)
Theorem string_scans_spec str s limit ch m : cstr m str s -> 0 <= limit ->
  strlen str m = Ok (Z.of_nat (length s)) /\
  strnlen str limit m = Ok (Z.min limit (Z.of_nat (length s))) /\
  strchr str ch m =
    Ok ((fun p => str + Z.of_nat (fst p)) <$> list_find (fun c => i8 c = ch) s) /\
  strrchr str ch m = Ok (last_index ch s str None).
Proof.
  intros Hs Hl. pose proof (cstr_size m str s Hs) as Hsz. split_and!.
  - unfold strlen, string_fuel. rewrite (load_char_cstr m str s Hs), outcome_bind_ok.
    rewrite strlen_loop_ok by (done || lia). done.
  - unfold strnlen. rewrite (load_char_cstr m str s Hs), outcome_bind_ok.
    rewrite strnlen_loop_ok by done. f_equal. lia.
  - apply strchr_loop_ok; [done|unfold string_fuel; lia].
  - apply strrchr_loop_ok; [done|unfold string_fuel; lia].
Qed.

(** The strings at 10 and 20 in a small store: "abc" and "xbc". *)
Definition ex_strings : bytes :=
  list_to_map (zip (seqZ 10 5) [97; 98; 99; 0; 1] ++ zip (seqZ 20 5) [120; 98; 99; 0; 2]).

Lemma ex_cstr10 : cstr ex_strings 10 [97; 98; 99].
Proof.
  split; [repeat constructor; (unfold_ints; lia)|].
  intros i c Hc. do 4 (destruct i as [|i]; [injection Hc as <-; vm_compute; reflexivity|]). done.
Qed.

Lemma ex_cstr20 : cstr ex_strings 20 [120; 98; 99].
Proof.
  split; [repeat constructor; (unfold_ints; lia)|].
  intros i c Hc. do 4 (destruct i as [|i]; [injection Hc as <-; vm_compute; reflexivity|]). done.
Qed.

Lemma string_scans_spec_witness :
  strlen 10 ex_strings = Ok 3 /\ strnlen 10 2 ex_strings = Ok 2 /\
  strchr 10 98 ex_strings = Ok (Some 11) /\ strrchr 10 98 ex_strings = Ok (Some 11).
Proof. apply (string_scans_spec 10 [97; 98; 99] 2 98 ex_strings); [apply ex_cstr10|lia]. Defined.

(** ** Comparing strings *)
Lemma char_at_cons c s i : char_at (c :: s) (S i) = char_at s i.
Proof. done. Qed.

Lemma strcmp_loop_ok m : forall s t a b fuel, cstr m a s -> cstr m b t ->
  (length s <= fuel)%nat ->
  strcmp_loop fuel (char_at s 0) (char_at t 0) a b m =
  Ok (char_at s (Nat.min (length s) (length t)) - char_at t (Nat.min (length s) (length t))).
Proof.
  induction s as [|c s IH]; intros t a b fuel Hs Ht Hf.
  - destruct fuel; cbn [strcmp_loop]; by rewrite (cstr_first m a []).
  - pose proof (cstr_first m a _ Hs) as Hc. pose proof (cstr_first m b _ Ht) as Hd.
    apply cstr_cons in Hs as (_ & _ & _ & Hs).
    destruct fuel as [|fuel]; [simpl in Hf; lia|]. cbn [strcmp_loop]. rewrite Hc, Hd.
    destruct t as [|d t]; [done|]. apply cstr_cons in Ht as (_ & _ & _ & Ht). cbn [negb andb].
    rewrite (load_char_cstr m (a + 1) s Hs), outcome_bind_ok.
    rewrite (load_char_cstr m (b + 1) t Ht), outcome_bind_ok.
    rewrite (IH t (a + 1) (b + 1) fuel Hs Ht) by (simpl in Hf; lia). done.
Qed.

Lemma strncmp_loop_ok m : forall n s t a b i iter jter, cstr m a s -> cstr m b t ->
  a = iter + i -> b = jter + i ->
  strncmp_loop n i (char_at s 0) (char_at t 0) iter jter m =
  let k := Nat.min n (Nat.min (length s) (length t)) in Ok (char_at s k - char_at t k).
Proof.
  induction n as [|n IH]; intros s t a b i iter jter Hs Ht Ea Eb; [done|].
  cbn [strncmp_loop]. rewrite (cstr_first m a s Hs), (cstr_first m b t Ht).
  destruct s as [|c s]; [done|]. destruct t as [|d t]; [done|]. cbn [orb].
  apply cstr_cons in Hs as (_ & _ & _ & Hs). apply cstr_cons in Ht as (_ & _ & _ & Ht).
  rewrite (load_char_cstr m (iter + (i + 1)) s), outcome_bind_ok
    by (by replace (iter + (i + 1)) with (a + 1) by lia).
  rewrite (load_char_cstr m (jter + (i + 1)) t), outcome_bind_ok
    by (by replace (jter + (i + 1)) with (b + 1) by lia).
  rewrite (IH s t (a + 1) (b + 1)) by (done || lia). done.
Qed.

Lemma char_at_end m a s : cstr m a s -> forall i, (i <= length s)%nat ->
  char_at s i = 0 <-> i = length s.
Proof.
  intros Hs. revert a Hs. induction s as [|c s IH]; intros a Hs i Hi.
  - destruct i; [done|simpl in Hi; lia].
  - apply cstr_cons in Hs as (H1 & H2 & _ & Hs). destruct i as [|i].
    + unfold char_at. simpl. split; [|done]. intros E. pose proof (i8_zero c H1) as H'.
      rewrite E in H'. symmetry in H'. simpl in H'. apply Z.eqb_eq in H'. done.
    + rewrite char_at_cons, (IH (a + 1) Hs i) by (simpl in Hi; lia). simpl. lia.
Qed.

(** [strcmp] and [strncmp] do not stop at the first character that
    differs.  They compare the two characters at one place only, the end of
    the shorter string or the limit, so that [strcmp] answers 0 exactly for
    strings of the same length, whatever their characters. *)
Theorem strcmp_compares_lengths str1 str2 s t n m : cstr m str1 s -> cstr m str2 t ->
  0 <= n ->
  let k := Nat.min (length s) (length t) in
  strcmp str1 str2 m = Ok (char_at s k - char_at t k) /\
  (strcmp str1 str2 m = Ok 0 <-> length s = length t) /\
  strncmp str1 str2 n m =
    Ok (char_at s (Nat.min (Z.to_nat n) k) - char_at t (Nat.min (Z.to_nat n) k)).
Proof.
  intros Hs Ht Hn k.
  assert (strcmp str1 str2 m = Ok (char_at s k - char_at t k)) as E.
  { unfold strcmp, string_fuel. rewrite (load_char_cstr m str1 s Hs), outcome_bind_ok.
    rewrite (load_char_cstr m str2 t Ht), outcome_bind_ok.
    pose proof (cstr_size m str1 s Hs). by apply strcmp_loop_ok; [..|lia]. }
  split_and!; [done| |].
  - rewrite E. pose proof (char_at_end m str1 s Hs k ltac:(lia)) as H1.
    pose proof (char_at_end m str2 t Ht k ltac:(lia)) as H2. split.
    + intros [= H0]. destruct (Nat.lt_total (length s) (length t)) as [Hlt|[?|Hlt]]; [|done|].
      * assert (k = length s) as Ek by lia. rewrite (proj2 H1 Ek) in H0. lia.
      * assert (k = length t) as Ek by lia. rewrite (proj2 H2 Ek) in H0. lia.
    + intros El. rewrite (proj2 H1), (proj2 H2) by lia. done.
  - unfold strncmp. rewrite (load_char_cstr m str1 s Hs), outcome_bind_ok.
    rewrite (load_char_cstr m str2 t Ht), outcome_bind_ok.
    by apply (strncmp_loop_ok m _ s t str1 str2); [..|lia|lia].
Qed.

Lemma strcmp_compares_lengths_witness :
  strcmp 10 20 ex_strings = Ok (0 - 0) /\
  (strcmp 10 20 ex_strings = Ok 0 <-> 3%nat = 3%nat) /\
  strncmp 10 20 2 ex_strings = Ok (99 - 99).
Proof.
  apply (strcmp_compares_lengths 10 20 [97; 98; 99] [120; 98; 99] 2 ex_strings);
    [apply ex_cstr10|apply ex_cstr20|lia].
Defined.

(** ** Filling *)

(** Two stretches next to each other. *)
Lemma written_app m m1 m2 dst i k f f2 : written m m1 dst i f -> written m1 m2 (dst + i) k f2 ->
  0 <= i -> 0 <= k -> (forall j, i <= j < i + k -> f2 (j - i) = f j) ->
  written m m2 dst (i + k) f.
Proof.
  intros W1 W2 Hi Hk Hf a. rewrite W2.
  destruct (decide (dst + i <= a < dst + i + k)).
  - rewrite decide_True by lia. rewrite <- Hf by lia. f_equal. lia.
  - rewrite W1. destruct (decide (dst <= a < dst + i)); [by rewrite decide_True by lia|].
    by rewrite decide_False by lia.
Qed.

Lemma written_0 m dst f : written m m dst 0 f.
Proof. intros a. by rewrite decide_False by lia. Qed.

Lemma written_ext m m' dst n f g : (forall i, 0 <= i < n -> f i = g i) ->
  written m m' dst n f -> written m m' dst n g.
Proof. intros H W a. rewrite W. case_decide; [apply H; lia|done]. Qed.

Section fill.
Context (m0 : bytes) (dst n : Z) (Hdst : mapped m0 dst n).

(** The next access of a fill with the bytes of [v] over and over. *)
Lemma fill_step k v i m f : written m0 m dst i (fun j => Some (f j)) -> 0 <= i ->
  i + Z.of_nat k <= n -> (forall j, i <= j < i + Z.of_nat k -> byte_of v (j - i) = f j) ->
  exists m', store_n k (dst + i) v m = Ok m' /\
  written m0 m' dst (i + Z.of_nat k) (fun j => Some (f j)).
Proof.
  intros W Hi Hk Hf. destruct (store_n_ok k (dst + i) v m) as (m' & E & W').
  { eapply written_mapped; [done|by eauto|]. apply (mapped_sub m0 dst n); [done|lia..]. }
  exists m'. split; [done|]. eapply written_app; [done|done|lia|lia|]. simpl.
  intros j Hj. by rewrite Hf.
Qed.

Lemma rep_stos_ok k v : (0 < k)%nat -> forall c i m,
  written m0 m dst (Z.of_nat k * i) (fun j => Some (byte_of v (j `mod` Z.of_nat k))) -> 0 <= i ->
  Z.of_nat k * (i + Z.of_nat c) <= n ->
  exists m', rep_stos c k (dst + Z.of_nat k * i) v m = Ok m' /\
  written m0 m' dst (Z.of_nat k * (i + Z.of_nat c)) (fun j => Some (byte_of v (j `mod` Z.of_nat k))).
Proof.
  intros Hk. induction c as [|c IH]; intros i m W Hi Hc; cbn [rep_stos].
  - exists m. by rewrite Z.add_0_r.
  - destruct (fill_step k v (Z.of_nat k * i) m _ W) as (m1 & -> & W1); [nia|nia| |].
    { intros j Hj. f_equal. apply (Z.mod_unique_pos _ _ i); lia. }
    rewrite outcome_bind_ok. replace (Z.of_nat k * i + Z.of_nat k) with (Z.of_nat k * (i + 1)) in W1 by lia.
    destruct (IH (i + 1) m1 W1 ltac:(lia)) as (m' & E & W'); [nia|]. exists m'.
    rewrite <- E. split; [f_equal; lia|].
    by replace (i + Z.of_nat (S c)) with (i + 1 + Z.of_nat c) by lia.
Qed.

(** Filling with one byte by accesses of [k] bytes. *)
Lemma fill_type_ok k v b : (0 < k)%nat -> (forall i, 0 <= i < Z.of_nat k -> byte_of v i = b) ->
  forall fuel i m, written m0 m dst i (fun _ => Some b) -> 0 <= i <= n -> n - i <= Z.of_nat fuel ->
  exists i' m', fill_type fuel k v (dst + i) (n - i) m = Ok (dst + i', n - i', m') /\
  written m0 m' dst i' (fun _ => Some b) /\ i <= i' <= n /\ n - i' < Z.of_nat k.
Proof.
  intros Hk Hb. induction fuel as [|fuel IH]; intros i m W Hi Hf; cbn [fill_type]; rewrite Z.geb_leb.
  - rewrite (proj2 (Z.leb_gt _ _)) by lia. exists i, m. split_and!; (done || lia).
  - destruct (Z.leb_spec (Z.of_nat k) (n - i)).
    + destruct (fill_step k v i m (fun _ => b) W) as (m1 & -> & W1); [lia|lia| |].
      { intros j Hj. apply Hb. lia. }
      rewrite outcome_bind_ok.
      destruct (IH (i + Z.of_nat k) m1 W1 ltac:(lia) ltac:(lia)) as (i' & m' & E & W' & ? & ?).
      exists i', m'. rewrite Z.add_assoc, Z.sub_add_distr in E. rewrite E. split_and!; (done || lia).
    + exists i, m. split_and!; (done || lia).
Qed.

Lemma fill_bytes_ok v : forall k i m, written m0 m dst i (fun _ => Some (u8 v)) -> 0 <= i ->
  i + Z.of_nat k = n ->
  exists m', fill_bytes k (dst + i) v m = Ok m' /\ written m0 m' dst n (fun _ => Some (u8 v)).
Proof.
  induction k as [|k IH]; intros i m W Hi Hn; cbn [fill_bytes].
  - exists m. split; [done|]. by replace n with i by lia.
  - destruct (fill_step 1 v i m (fun _ => u8 v) W Hi ltac:(lia)) as (m1 & E & W1).
    { intros j Hj. replace (j - i) with 0 by lia. apply byte_of_0. }
    rewrite store_1 in E. rewrite E, outcome_bind_ok.
    destruct (IH (i + 1) m1 W1 ltac:(lia) ltac:(lia)) as (m' & E' & W'). exists m'.
    by rewrite Z.add_assoc in E'.
Qed.

Lemma fill_words_ok v b : (forall i, 0 <= i < 8 -> byte_of v i = b) -> 0 <= n ->
  exists m', fill_words v dst n m0 = Ok m' /\ written m0 m' dst n (fun _ => Some b).
Proof.
  intros Hb Hn. unfold fill_words.
  assert (forall k, In k [1; 2; 4; 8]%nat ->
    (0 < k)%nat /\ forall i, 0 <= i < Z.of_nat k -> byte_of v i = b) as Hk.
  { intros k Hk. simpl in Hk. split; [lia|]. intros i Hi. apply Hb. lia. }
  assert (n - 0 <= Z.of_nat (Z.to_nat n)) as Hf by lia.
  destruct (fill_type_ok 8 v b ltac:(lia) (proj2 (Hk 8%nat ltac:(simpl; tauto))) (Z.to_nat n) 0 m0
    (written_0 m0 dst _) ltac:(lia) Hf) as (i1 & m1 & E & W1 & ? & ?).
  rewrite Z.add_0_r, Z.sub_0_r in E. rewrite E, outcome_bind_ok.
  destruct (fill_type_ok 4 v b ltac:(lia) (proj2 (Hk 4%nat ltac:(simpl; tauto))) (Z.to_nat n) i1 m1
    W1 ltac:(lia) ltac:(lia)) as (i2 & m2 & -> & W2 & ? & ?). rewrite outcome_bind_ok.
  destruct (fill_type_ok 2 v b ltac:(lia) (proj2 (Hk 2%nat ltac:(simpl; tauto))) (Z.to_nat n) i2 m2
    W2 ltac:(lia) ltac:(lia)) as (i3 & m3 & -> & W3 & ? & ?). rewrite outcome_bind_ok.
  destruct (fill_type_ok 1 v b ltac:(lia) (proj2 (Hk 1%nat ltac:(simpl; tauto))) (Z.to_nat n) i3 m3
    W3 ltac:(lia) ltac:(lia)) as (i4 & m4 & -> & W4 & ? & ?). rewrite outcome_bind_ok.
  exists m4. split; [done|]. by replace n with i4 by lia.
Qed.
End fill.

Lemma rep_stosb_ok m dst n v : 0 <= n -> mapped m dst n ->
  exists m', rep_stos (Z.to_nat n) 1 dst v m = Ok m' /\ written m m' dst n (fun _ => Some (u8 v)).
Proof.
  intros Hn Hd.
  destruct (rep_stos_ok m dst n Hd 1 v ltac:(lia) (Z.to_nat n) 0 m) as (m' & E & W);
    [apply written_0|lia|lia|].
  rewrite Z.mul_0_r, Z.add_0_r in E. exists m'. split; [done|].
  replace (Z.of_nat 1 * (0 + Z.of_nat (Z.to_nat n))) with n in W by lia.
  eapply written_ext; [|exact W]. intros i Hi. simpl. by rewrite Z.mod_1_r, byte_of_0.
Qed.

Lemma all_ones_bytes i : 0 <= i < 8 -> byte_of UINT64_MAX i = 255.
Proof.
  intros Hi. assert (i = 0 \/ i = 1 \/ i = 2 \/ i = 3 \/ i = 4 \/ i = 5 \/ i = 6 \/ i = 7) as H by lia.
  by repeat (destruct H as [->|H]; [reflexivity|]); subst i.
Qed.

(** [memset], [bzero] and [memset_all_ones] set exactly the [n] bytes at
    the destination to the byte, to 0 and to 255, and [memset_16], [memset_32]
    and [memset_64] set exactly [count] elements; every other byte keeps its
    value and the destination is returned. *)
Theorem fill_spec dst n val m : 0 <= n -> mapped m dst n ->
  (exists m', memset dst val n m = Ok (dst, m') /\ written m m' dst n (fun _ => Some (u8 val))) /\
  (exists m', bzero dst n m = Ok m' /\ written m m' dst n (fun _ => Some 0)) /\
  (exists m', memset_all_ones dst n m = Ok (dst, m') /\ written m m' dst n (fun _ => Some 255)) /\
  (forall k count, In k [2; 4; 8]%nat -> 0 <= count -> n = Z.of_nat k * count ->
   exists m', memset_array k dst count val m = Ok (dst, m') /\
   written m m' dst n (fun i => Some (byte_of val (i `mod` Z.of_nat k)))).
Proof.
  intros Hn Hd. pose proof (fun v => rep_stosb_ok m dst n v Hn Hd) as Hrep. split_and!.
  - unfold memset. destruct (n >=? REP_MIN).
    + destruct (Hrep val) as (m' & -> & W). rewrite outcome_bind_ok. by exists m'.
    + destruct (fill_bytes_ok m dst n Hd val (Z.to_nat n) 0 m (written_0 m dst _)) as (m' & E & W);
        [lia|lia|]. rewrite Z.add_0_r in E. rewrite E, outcome_bind_ok. by exists m'.
  - unfold bzero. destruct (n >=? REP_MIN); [apply (Hrep 0)|].
    apply fill_words_ok; [done| |done]. intros i Hi. unfold byte_of. by rewrite Z.div_0_l by lia.
  - unfold memset_all_ones. destruct (n >=? REP_MIN).
    + destruct (Hrep UINT8_MAX) as (m' & -> & W). rewrite outcome_bind_ok. by exists m'.
    + destruct (fill_words_ok m dst n Hd UINT64_MAX 255 all_ones_bytes Hn) as (m' & -> & W).
      rewrite outcome_bind_ok. by exists m'.
  - intros k count Hk Hc ->. assert (0 < k)%nat as Hk0 by (simpl in Hk; lia).
    unfold memset_array. change fill_array with rep_stos.
    destruct (rep_stos_ok m dst _ Hd k val Hk0 (Z.to_nat count) 0 m) as (m' & E & W).
    { rewrite Z.mul_0_r. apply written_0. }
    { lia. }
    { rewrite Z2Nat.id by lia. lia. }
    rewrite Z.mul_0_r, Z.add_0_r in E. rewrite Z2Nat.id, Z.add_0_l in W by lia.
    rewrite E, outcome_bind_ok. exists m'. by destruct (count >? 32).
Qed.

Lemma fill_spec_witness :
  let m := ex_bytes in
  (exists m', memset 8 7 24 m = Ok (8, m') /\ written m m' 8 24 (fun _ => Some (u8 7))) /\
  (exists m', bzero 8 24 m = Ok m' /\ written m m' 8 24 (fun _ => Some 0)) /\
  (exists m', memset_all_ones 8 24 m = Ok (8, m') /\ written m m' 8 24 (fun _ => Some 255)) /\
  (forall k count, In k [2; 4; 8]%nat -> 0 <= count -> 24 = Z.of_nat k * count ->
   exists m', memset_array k 8 count 7 m = Ok (8, m') /\
   written m m' 8 24 (fun i => Some (byte_of 7 (i `mod` Z.of_nat k)))).
Proof. apply (fill_spec 8 24 7 ex_bytes); [lia|apply ex_mapped; lia]. Defined.

(** ** Searching *)

(** [memchr] finds the first byte with the value. *)
Lemma memchr_loop_ok m ch : forall n a, mapped m a (Z.of_nat n) ->
  exists r, memchr_loop n a ch m = Ok r /\
  match r with
  | Some b => a <= b < a + Z.of_nat n /\ m !! b = Some ch /\
      forall c, a <= c < b -> m !! c <> Some ch
  | None => forall b, a <= b < a + Z.of_nat n -> m !! b <> Some ch
  end.
Proof.
  induction n as [|n IH]; intros a Ha; cbn [memchr_loop]; [exists None; split; [done|lia]|].
  destruct (load8_ok m a (Ha a ltac:(lia))) as (b & -> & Hb). rewrite outcome_bind_ok.
  destruct (Z.eqb_spec b ch) as [->|Hne].
  - exists (Some a). split; [done|]. split_and!; [lia|lia|done|intros; lia].
  - destruct (IH (a + 1)) as (r & -> & Hr); [apply (mapped_sub m a _ (a + 1) _ Ha); lia|].
    exists r. split; [done|]. destruct r as [c|].
    + destruct Hr as (H1 & H2 & H3). split_and!; [lia|lia|done|]. intros d Hd.
      destruct (decide (d = a)) as [->|]; [congruence|apply H3; lia].
    + intros c Hcr. destruct (decide (c = a)) as [->|]; [congruence|apply Hr; lia].
Qed.

(** The [membuf] functions decide whether every element has the value. *)
Lemma is_all_ok m k ch : bytes_ok m -> forall n a, mapped m a (Z.of_nat k * Z.of_nat n) ->
  exists r, is_all n k a ch m = Ok r /\
  (r = true <-> forall i, 0 <= i < Z.of_nat n -> load_n k (a + Z.of_nat k * i) m = Ok ch).
Proof.
  intros Hm. induction n as [|n IH]; intros a Ha; cbn [is_all].
  { exists true. split; [done|]. split; [intros _ i Hi; lia|done]. }
  destruct (load_n_ok m Hm k a) as (v & Ev & _); [apply (mapped_sub m a _ _ _ Ha); lia|].
  rewrite Ev, outcome_bind_ok. destruct (Z.eqb_spec v ch) as [->|Hne]; cbn [negb].
  - destruct (IH (a + Z.of_nat k)) as (r & -> & Hr); [apply (mapped_sub m a _ _ _ Ha); lia|].
    exists r. split; [done|]. rewrite Hr. split; intros H i Hi.
    + destruct (decide (i = 0)) as [->|]; [by rewrite Z.mul_0_r, Z.add_0_r|].
      specialize (H (i - 1) ltac:(lia)). rewrite <- H. f_equal. lia.
    + specialize (H (i + 1) ltac:(lia)). rewrite <- H. f_equal. lia.
  - exists false. split; [done|]. split; [done|]. intros H. specialize (H 0 ltac:(lia)).
    rewrite Z.mul_0_r, Z.add_0_r in H. congruence.
Qed.
