(* ===== verification/Time.v ===== *)
(** * Calendar time: lib/time.[ch]

    Weekdays and months are the numbers of their enumerators: Sunday is 0 and
    January is 1. *)
From Stdlib Require Import String.
From S2P Require Import Prelude CArith.

(** ** Constants of time.h *)
Definition SECONDS_IN_MINUTE : Z := 60.
Definition MINUTES_IN_HOUR : Z := 60.
Definition HOURS_IN_DAY : Z := 24.
Definition SECONDS_IN_HOURS : Z := SECONDS_IN_MINUTE * MINUTES_IN_HOUR.
Definition SECONDS_IN_DAYS : Z := SECONDS_IN_HOURS * HOURS_IN_DAY.
Definition NANO_IN_SECONDS : Z := 1000 * 1000 * 1000.
Definition MIN_DAYS_IN_YEAR : Z := 365.
Definition WEEKDAY_COUNT : Z := 7.
Definition MONTH_COUNT : Z := 12.

Definition seconds_mod_days (seconds : Z) : Z := seconds `mod` SECONDS_IN_DAYS.
Definition seconds_to_days (seconds : Z) : Z := seconds / SECONDS_IN_DAYS.
Definition seconds_to_minutes (seconds : Z) : Z := seconds / SECONDS_IN_MINUTE.
Definition minutes_to_hours (minutes : Z) : Z := minutes / MINUTES_IN_HOUR.
Definition seconds_mod_minutes (seconds : Z) : Z := seconds `mod` SECONDS_IN_MINUTE.
Definition minutes_mod_hours (minutes : Z) : Z := minutes `mod` MINUTES_IN_HOUR.

Definition WEEKDAY_INVALID : Z := -1.
Definition WEEKDAY_SUNDAY : Z := 0.
Definition WEEKDAY_MONDAY : Z := 1.
Definition WEEKDAY_TUESDAY : Z := 2.
Definition WEEKDAY_WEDNESDAY : Z := 3.
Definition WEEKDAY_THURSDAY : Z := 4.
Definition WEEKDAY_FRIDAY : Z := 5.
Definition WEEKDAY_SATURDAY : Z := 6.

Definition MONTH_INVALID : Z := 0.
Definition MONTH_JANUARY : Z := 1.
Definition MONTH_FEBRUARY : Z := 2.
Definition MONTH_MARCH : Z := 3.
Definition MONTH_DECEMBER : Z := 12.

Definition weekday_is_valid (day : Z) : bool := (day >=? WEEKDAY_SUNDAY) && (day <=? WEEKDAY_SATURDAY).
Definition month_is_valid (month : Z) : bool := (month >=? MONTH_JANUARY) && (month <=? MONTH_DECEMBER).

Record tm := {
  tm_sec : Z; tm_min : Z; tm_hour : Z; tm_mday : Z; tm_mon : Z; tm_year : Z;
  tm_wday : Z; tm_yday : Z; tm_isdst : Z
}.
Record timespec := { tv_sec : Z; tv_nsec : Z }.

Definition timespec_add (left right : timespec) : timespec :=
  let sum := u64 (tv_nsec left + tv_nsec right) in
  if negb (sum / NANO_IN_SECONDS =? 0) then
    {| tv_nsec := sum `mod` NANO_IN_SECONDS; tv_sec := u64 (u64 (tv_sec left + 1) + tv_sec right) |}
  else {| tv_nsec := sum; tv_sec := u64 (tv_sec left + tv_sec right) |}.

Definition timespec_zero : timespec := {| tv_sec := 0; tv_nsec := 0 |}.
Definition timespec_sub (left right : timespec) : timespec :=
  let borrow := tv_nsec right >? tv_nsec left in
  if borrow && (tv_sec left =? 0) then timespec_zero
  else
    let nsec :=
      if borrow then u64 (NANO_IN_SECONDS - 1 - (tv_nsec right - tv_nsec left))
      else u64 (tv_nsec left - tv_nsec right) in
    let sec := if borrow then tv_sec left - 1 else tv_sec left in
    if tv_sec right >? sec then timespec_zero
    else {| tv_sec := u64 (sec - tv_sec right); tv_nsec := nsec |}.

(** ** time.c *)
Definition hour_12_to_24hour (hour : Z) (is_pm : bool) : Z :=
  if is_pm then hour `mod` 12 + 12 else hour `mod` 12.
Definition hour_24_to_12hour (hour : Z) : Z :=
  let result := hour `mod` 12 in if negb (result =? 0) then result else 12.
Definition hour_24_is_pm (hour : Z) : bool := hour >=? 12.

Definition weekday_to_decimal_monday_one (weekday : Z) : Z :=
  if negb (weekday =? WEEKDAY_SUNDAY) then u8 weekday else 7.

(** [MONTH_INVALID] and values outside the enumeration are [verify_not_reached]. *)
Definition month_get_day_count (month : Z) (in_leap_year : bool) : outcome Z :=
  if month =? MONTH_FEBRUARY then Ok (if in_leap_year then 29 else 28)
  else if existsb (Z.eqb month) [1; 3; 5; 7; 8; 10; 12] then Ok 31
  else if existsb (Z.eqb month) [4; 6; 9; 11] then Ok 30
  else Panic.

(** The subtraction is done in 32 bits without sign, the addition in 64. *)
Definition get_week_count_at_day (weekday days_since_jan_1 : Z) (is_monday_first : bool) : Z :=
  let delta :=
    if is_monday_first then
      (if negb (weekday =? WEEKDAY_SUNDAY) then WEEKDAY_COUNT + 1 else 1)
    else WEEKDAY_COUNT in
  u8 (u64 (u32 (days_since_jan_1 - u32 weekday) + delta) / 7).

Definition month_to_tm_mon (month : Z) : outcome Z :=
  c_assert (negb (month =? MONTH_INVALID));; Ok (month - 1).
Definition tm_mon_to_month (tm_mon : Z) : Z := tm_mon + 1.

Definition year_is_leap_year (year : Z) : bool :=
  (Z.land year 3 =? 0) && (negb (year `mod` 100 =? 0) || (year `mod` 400 =? 0)).
Definition year_get_day_count (year : Z) : Z :=
  MIN_DAYS_IN_YEAR + (if year_is_leap_year year then 1 else 0).
Definition year_to_tm_year (year : Z) : outcome Z :=
  c_assert (year <=? INT32_MAX);; Ok (year - 1900).
Definition tm_year_to_year (tm_year : Z) : outcome Z := check_add_assert 64 (u64 tm_year) 1900.

Definition weekday_prev (weekday : Z) : Z :=
  if negb (weekday =? WEEKDAY_SUNDAY) then weekday - 1 else WEEKDAY_SATURDAY.
Definition weekday_next (weekday : Z) : Z := u64 (weekday + 1) `mod` WEEKDAY_COUNT.

(** The characters of "bed=pen+mad.", with the terminator. *)
Definition month_keys : list Z := [98; 101; 100; 61; 112; 101; 110; 43; 109; 97; 100; 46; 0].
Definition day_of_month_to_weekday (year month day : Z) : outcome Z :=
  let year := if month <? MONTH_MARCH then u64 (year - 1) else year in
  key ← nth_entry month_keys (month - 1);
  Ok (u64 (u64 (u64 (u64 (u64 (year + year / 4) - year / 100) + year / 400) + key) + day) `mod` 7).

Definition days_preceding : list Z := [0; 31; 59; 90; 120; 151; 181; 212; 243; 273; 304; 334].
Definition day_of_month_to_day_of_year (day_in_month month : Z) (in_leap_year : bool) : outcome Z :=
  c_assert (month_is_valid month);;
  days ← nth_entry days_preceding (month - 1);
  let days := if in_leap_year && (month >? MONTH_FEBRUARY) then days + 1 else days in
  Ok (u16 (days + day_in_month)).

(** [tm_from_stamp]: the two loops take off whole years and whole months. *)
Fixpoint take_years (fuel : nat) (day_of_year year : Z) : outcome (Z * Z) :=
  if day_of_year >=? MIN_DAYS_IN_YEAR then
    match fuel with
    | O => OutOfFuel
    | S fuel => take_years fuel (day_of_year - year_get_day_count year) (year + 1)
    end
  else Ok (day_of_year, year).
Fixpoint take_months (fuel : nat) (day_of_month month : Z) (is_leap_year : bool) :
    outcome (Z * Z) :=
  count ← month_get_day_count month is_leap_year;
  if day_of_month >=? count then
    match fuel with
    | O => OutOfFuel
    | S fuel => take_months fuel (day_of_month - count) (month + 1) is_leap_year
    end
  else Ok (day_of_month, month).

Definition tm_from_stamp (timestamp : Z) : outcome tm :=
  let seconds_of_day := i32 (seconds_mod_days timestamp) in
  let minutes_of_day := seconds_to_minutes seconds_of_day in
  let hour_of_day := minutes_to_hours minutes_of_day in
  let seconds_of_minute := seconds_mod_minutes seconds_of_day in
  let minutes_of_hour := minutes_mod_hours minutes_of_day in
  let day_of_year := i32 (seconds_to_days timestamp) in
  '(day_of_year, year) ← take_years (Z.to_nat day_of_year) day_of_year 1970;
  let is_leap_year := year_is_leap_year year in
  '(day_of_month, month) ← take_months 12 day_of_year MONTH_JANUARY is_leap_year;
  mon ← month_to_tm_mon month;
  tm_year ← year_to_tm_year year;
  wday ← day_of_month_to_weekday year month (u8 day_of_month);
  Ok {| tm_sec := seconds_of_minute;
        tm_min := minutes_of_hour;
        tm_hour := hour_of_day;
        tm_mday := day_of_month + 1;
        tm_mon := mon;
        tm_year := tm_year;
        tm_wday := wday;
        tm_yday := day_of_year;
        tm_isdst := 0 |}.

(** [iso_8601_get_week_number] calls itself for the last day of the year
    before. *)
Definition fix_december (weekday month day_in_month week_number : Z) : Z :=
  if month =? MONTH_DECEMBER then
    if weekday =? WEEKDAY_MONDAY then
      if (day_in_month >=? 29) && (day_in_month <=? 31) then 1 else week_number
    else if weekday =? WEEKDAY_TUESDAY then
      if (day_in_month >=? 30) && (day_in_month <=? 31) then 1 else week_number
    else if weekday =? WEEKDAY_WEDNESDAY then
      if day_in_month =? 31 then 1 else week_number
    else week_number
  else week_number.

Fixpoint iso_8601_get_week_number (fuel : nat) (weekday month year day_in_month days_since_jan_1 : Z) :
    outcome Z :=
  c_assert (weekday_is_valid weekday);;
  c_assert (month_is_valid month);;
  let jan_1_weekday := weekday - days_since_jan_1 `mod` 7 in
  let jan_1_weekday := if jan_1_weekday <? 0 then jan_1_weekday + 7 else jan_1_weekday in
  let week_number := get_week_count_at_day weekday days_since_jan_1 true in
  week_number ←
    (if jan_1_weekday =? WEEKDAY_MONDAY then Ok week_number
     else if existsb (Z.eqb jan_1_weekday) [WEEKDAY_TUESDAY; WEEKDAY_WEDNESDAY; WEEKDAY_THURSDAY]
     then Ok (u8 (week_number + 1))
     else if negb (week_number =? 0) then Ok week_number
     else
       match fuel with
       | O => OutOfFuel
       | S fuel =>
           let year := u64 (year - 1) in
           iso_8601_get_week_number fuel (weekday_prev weekday) MONTH_DECEMBER year 31
             (year_get_day_count year - 1)
       end);
  Ok (fix_december weekday month day_in_month week_number).

(** ** Names *)
Definition weekday_names : list string :=
  ["Sunday"; "Monday"; "Tuesday"; "Wednesday"; "Thursday"; "Friday"; "Saturday"]%string.
Definition month_names : list string :=
  ["January"; "February"; "March"; "April"; "May"; "June"; "July"; "August"; "September";
   "October"; "November"; "December"]%string.
Definition weekday_names_upper : list string :=
  ["SUNDAY"; "MONDAY"; "TUESDAY"; "WEDNESDAY"; "THURSDAY"; "FRIDAY"; "SATURDAY"]%string.
Definition month_names_upper : list string :=
  ["JANUARY"; "FEBRUARY"; "MARCH"; "APRIL"; "MAY"; "JUNE"; "JULY"; "AUGUST"; "SEPTEMBER";
   "OCTOBER"; "NOVEMBER"; "DECEMBER"]%string.
Definition weekday_names_abbrev : list string :=
  ["Sun"; "Mon"; "Tue"; "Wed"; "Thu"; "Fri"; "Sat"]%string.
Definition month_names_abbrev : list string :=
  ["Jan"; "Feb"; "Mar"; "Apr"; "May"; "Jun"; "Jul"; "Aug"; "Sep"; "Oct"; "Nov"; "Dec"]%string.
Definition weekday_names_abbrev_upper : list string :=
  ["SUN"; "MON"; "TUE"; "WED"; "THU"; "FRI"; "SAT"]%string.
Definition month_names_abbrev_upper : list string :=
  ["JAN"; "FEB"; "MAR"; "APR"; "MAY"; "JUN"; "JUL"; "AUG"; "SEP"; "OCT"; "NOV"; "DEC"]%string.

(** A value with no case is [verify_not_reached]. *)
Definition name_of (names : list string) (i : Z) : outcome string :=
  if i <? 0 then Panic else match names !! Z.to_nat i with Some s => Ok s | None => Panic end.
Definition weekday_to_sv (day : Z) := name_of weekday_names day.
Definition weekday_to_sv_upper (day : Z) := name_of weekday_names_upper day.
Definition weekday_to_sv_abbrev (day : Z) := name_of weekday_names_abbrev day.
Definition weekday_to_sv_abbrev_upper (day : Z) := name_of weekday_names_abbrev_upper day.
Definition month_to_sv (month : Z) := name_of month_names (month - 1).
Definition month_to_sv_upper (month : Z) := name_of month_names_upper (month - 1).
Definition month_to_sv_abbrev (month : Z) := name_of month_names_abbrev (month - 1).
Definition month_to_sv_abbrev_upper (month : Z) := name_of month_names_abbrev_upper (month - 1).
