(* ===== verification/TimeThms.v ===== *)
(** * What the calendar functions guarantee

    A reference calendar (days before a year, leap years by the Gregorian
    rule) and the properties of lib/time.c against it. *)
From Stdlib Require Import String.
From S2P Require Import Prelude CArith Time.

(** ** The reference calendar *)

(** Leap years up to and including [year], and days from 1970-01-01 to the
    first of January of [year]. *)
Definition leap_years (year : Z) : Z := year / 4 - year / 100 + year / 400.
Definition days_before_year (year : Z) : Z :=
  365 * (year - 1970) + leap_years (year - 1) - leap_years 1969.

Lemma leap_year_iff y : 0 <= y ->
  year_is_leap_year y = true <-> y `mod` 4 = 0 /\ (y `mod` 100 <> 0 \/ y `mod` 400 = 0).
Proof.
  intros Hy. unfold year_is_leap_year. change 3 with (Z.ones 2). rewrite Z.land_ones by lia.
  rewrite andb_true_iff, orb_true_iff, negb_true_iff, !Z.eqb_eq, Z.eqb_neq. done.
Qed.

Lemma div_pred y k : 0 < k -> y / k = (y - 1) / k + (if y `mod` k =? 0 then 1 else 0).
Proof.
  intros Hk. pose proof (Z.div_mod y k ltac:(lia)). pose proof (Z.mod_pos_bound y k Hk).
  destruct (Z.eqb_spec (y `mod` k) 0) as [E|E].
  - rewrite <- (Z.div_unique (y - 1) k (y / k - 1) (k - 1)); lia.
  - rewrite <- (Z.div_unique (y - 1) k (y / k) (y `mod` k - 1)); lia.
Qed.

Lemma leap_years_step y : 0 <= y ->
  leap_years y = leap_years (y - 1) + (if year_is_leap_year y then 1 else 0).
Proof.
  intros Hy. unfold leap_years.
  rewrite (div_pred y 4), (div_pred y 100), (div_pred y 400) by lia.
  pose proof (leap_year_iff y Hy) as H.
  pose proof (Z.div_mod y 4 ltac:(lia)). pose proof (Z.div_mod y 100 ltac:(lia)).
  pose proof (Z.div_mod y 400 ltac:(lia)).
  pose proof (Z.mod_pos_bound y 4 ltac:(lia)). pose proof (Z.mod_pos_bound y 100 ltac:(lia)).
  pose proof (Z.mod_pos_bound y 400 ltac:(lia)).
  destruct (year_is_leap_year y).
  - destruct (proj1 H eq_refl) as [? ?]. zcases; lia.
  - assert (~ (y `mod` 4 = 0 /\ (y `mod` 100 <> 0 \/ y `mod` 400 = 0))) as Hn
      by (intros E; by apply H in E).
    zcases; lia.
Qed.

Lemma days_before_next y : 0 <= y ->
  days_before_year (y + 1) = days_before_year y + year_get_day_count y.
Proof.
  intros Hy. unfold days_before_year, year_get_day_count, MIN_DAYS_IN_YEAR.
  replace (y + 1 - 1) with y by lia. rewrite (leap_years_step y Hy). lia.
Qed.

Lemma day_count_bounds y : 365 <= year_get_day_count y <= 366.
Proof. unfold year_get_day_count, MIN_DAYS_IN_YEAR. destruct (year_is_leap_year y); lia. Qed.

(** ** Whole years *)

(** The year and the day of the year of a day, and what the loop makes of them:
    the last day of a leap year becomes day -1 of the next year. *)
Definition loop_year (e y : Z) : Z * Z := if e =? 365 then (-1, y + 1) else (e, y).

Lemma take_years_ok : forall fuel d y, 0 <= d -> d <= Z.of_nat fuel -> 0 <= y ->
  exists e y', take_years fuel d y = Ok (loop_year e y') /\ y <= y' /\
  0 <= e < year_get_day_count y' /\ days_before_year y' + e = days_before_year y + d.
Proof.
  induction fuel as [|fuel IH]; intros d y Hd Hf Hy.
  - exists 0, y. pose proof (day_count_bounds y). replace d with 0 by lia. split_and!; (done || lia).
  - cbn [take_years]. rewrite Z.geb_leb. unfold MIN_DAYS_IN_YEAR.
    pose proof (day_count_bounds y) as Hb. destruct (Z.leb_spec 365 d).
    + destruct (decide (d < year_get_day_count y)) as [Hlt|Hge].
      * exists d, y. replace d with 365 in * by lia. split_and!; try lia.
        replace (365 - year_get_day_count y) with (-1) by lia. by destruct fuel.
      * destruct (IH (d - year_get_day_count y) (y + 1)) as (e & y' & -> & H1 & H2 & H3); [lia..|].
        exists e, y'. rewrite days_before_next in H3 by lia. split_and!; (done || lia).
    + exists d, y. unfold loop_year. rewrite (proj2 (Z.eqb_neq d 365)) by lia.
      split_and!; (done || lia).
Qed.

(** ** Months: every day of both kinds of year is tried *)
Definition month_days_ok (leap : bool) (e : Z) : bool :=
  match take_months 12 e MONTH_JANUARY leap with
  | Ok (day, month) =>
      month_is_valid month &&
      match month_get_day_count month leap with
      | Ok count => (0 <=? day) && (day <? count)
      | _ => false
      end &&
      match day_of_month_to_day_of_year (day + 1) month leap with
      | Ok n => n =? e + 1
      | _ => false
      end &&
      match nth_entry month_keys (month - 1) with
      | Ok key =>
          (key + day - e + (if month <? MONTH_MARCH then 0 else if leap then 2 else 1)) `mod` 7 =? 0
      | _ => false
      end
  | _ => false
  end.

Lemma month_days_all leap : forallb (month_days_ok leap) (seqZ 0 365) = true.
Proof. by destruct leap; vm_compute. Qed.

Lemma take_months_ok leap e : 0 <= e < 365 ->
  exists day month count key, take_months 12 e MONTH_JANUARY leap = Ok (day, month) /\
  1 <= month <= 12 /\ month_get_day_count month leap = Ok count /\ 0 <= day < count /\
  day_of_month_to_day_of_year (day + 1) month leap = Ok (e + 1) /\
  nth_entry month_keys (month - 1) = Ok key /\
  (key + day - e + (if month <? MONTH_MARCH then 0 else if leap then 2 else 1)) `mod` 7 = 0.
Proof.
  intros He. pose proof (month_days_all leap) as H. rewrite forallb_forall in H.
  specialize (H e ltac:(apply list_elem_of_In, elem_of_seqZ; lia)). revert H. unfold month_days_ok.
  destruct (take_months 12 e MONTH_JANUARY leap) as [[day month]| | |]; try done.
  destruct (month_get_day_count month leap) as [count| | |] eqn:E1; try by rewrite andb_false_r.
  destruct (day_of_month_to_day_of_year (day + 1) month leap) as [n| | |] eqn:E2; try by rewrite ?andb_false_r.
  destruct (nth_entry month_keys (month - 1)) as [key| | |] eqn:E3; try by rewrite ?andb_false_r.
  unfold month_is_valid, MONTH_JANUARY, MONTH_DECEMBER.
  rewrite !andb_true_iff, Z.geb_leb, !Z.leb_le, Z.ltb_lt, !Z.eqb_eq.
  intros ((([? ?] & [? ?]) & En) & ?). subst n. exists day, month, count, key. split_and!; (done || lia).
Qed.

(** ** Weekdays *)
Lemma weekday_formula y month key day e : 1970 <= y < 2 ^ 32 -> 0 <= key < 256 -> 0 <= day < 256 ->
  nth_entry month_keys (month - 1) = Ok key ->
  (key + day - e + (if month <? MONTH_MARCH then 0 else if year_is_leap_year y then 2 else 1))
    `mod` 7 = 0 ->
  day_of_month_to_weekday y month day = Ok ((days_before_year y + e + 3) `mod` 7).
Proof.
  intros Hy Hk Hd Hkey Hm. unfold day_of_month_to_weekday. rewrite Hkey, outcome_bind_ok.
  pose proof (leap_years_step y ltac:(lia)) as Hl. unfold leap_years in Hl.
  pose proof (fun z => Z.div_le_upper_bound z 4 z ltac:(lia)).
  assert (forall z k, 0 <= z < 2 ^ 32 -> 0 < k -> 0 <= z / k <= z) as Hdiv.
  { intros z k Hz Hkp. split; [apply Z.div_pos; lia|]. apply Z.div_le_upper_bound; nia. }
  set (z := if month <? MONTH_MARCH then u64 (y - 1) else y).
  assert (z = if month <? MONTH_MARCH then y - 1 else y) as Ez.
  { unfold z. destruct (month <? MONTH_MARCH); [|done]. apply wrap_small. unfold_ints. lia. }
  assert (1969 <= z < 2 ^ 32) as Hz by (rewrite Ez; destruct (month <? MONTH_MARCH); lia).
  pose proof (Hdiv z 4 ltac:(lia) ltac:(lia)). pose proof (Hdiv z 100 ltac:(lia) ltac:(lia)).
  pose proof (Hdiv z 400 ltac:(lia) ltac:(lia)).
  assert (z / 100 <= z / 4) by (apply Z.div_le_compat_l; lia).
  rewrite (wrap_small 64 (z + z / 4)) by (unfold_ints; lia).
  rewrite (wrap_small 64 (z + z / 4 - z / 100)) by (unfold_ints; lia).
  rewrite (wrap_small 64 (z + z / 4 - z / 100 + z / 400)) by (unfold_ints; lia).
  rewrite (wrap_small 64 (z + z / 4 - z / 100 + z / 400 + key)) by (unfold_ints; lia).
  rewrite wrap_small by (unfold_ints; lia). f_equal.
  apply Z.mod_divide in Hm as [q Hq]; [|lia].
  unfold days_before_year, leap_years. change (1969 / 4 - 1969 / 100 + 1969 / 400) with 477.
  set (n := z + z / 4 - z / 100 + z / 400 + key + day).
  assert (exists c, n = 365 * (y - 1970) + ((y - 1) / 4 - (y - 1) / 100 + (y - 1) / 400) - 477 + e + 3 + c * 7)
    as [c ->].
  { exists (q - 52 * (y - 1970) + 349). unfold n. rewrite Ez. revert Hl Hq.
    by destruct (month <? MONTH_MARCH), (year_is_leap_year y); lia. }
  by rewrite Z.mod_add.
Qed.

Lemma key_bounds i key : nth_entry month_keys i = Ok key -> 0 <= key < 256.
Proof.
  unfold nth_entry. destruct (i <? 0); [done|]. intros H%deref_inv.
  apply list_elem_of_lookup_2 in H. unfold month_keys in H.
  repeat (apply elem_of_cons in H as [->|H]; [lia|]). by apply elem_of_nil in H.
Qed.

Lemma div_day z : 0 <= z -> z / 86400 * 86400 + z `mod` 86400 = z /\ 0 <= z `mod` 86400 < 86400.
Proof.
  intros Hz. pose proof (Z.div_mod z 86400 ltac:(lia)). pose proof (Z.mod_pos_bound z 86400 ltac:(lia)). lia.
Qed.

(** The broken-down time of the day [e] of the year [y] in the reference
    calendar. *)
Record is_day (y e : Z) (t : tm) : Prop := {
  id_year : tm_year t = y - 1900;
  id_yday : tm_yday t = e;
  id_month : 0 <= tm_mon t < 12;
  id_mday : exists count, month_get_day_count (tm_mon t + 1) (year_is_leap_year y) = Ok count /\
    1 <= tm_mday t <= count;
  id_day : day_of_month_to_day_of_year (tm_mday t) (tm_mon t + 1) (year_is_leap_year y) = Ok (e + 1);
}.

(** The time of day, which never depends on the date. *)
Record is_time (stamp : Z) (t : tm) : Prop := {
  it_sum : tm_hour t * 3600 + tm_min t * 60 + tm_sec t = stamp `mod` 86400;
  it_hour : 0 <= tm_hour t < 24;
  it_min : 0 <= tm_min t < 60;
  it_sec : 0 <= tm_sec t < 60;
}.

Lemma time_of_day stamp : 0 <= stamp ->
  let s := stamp `mod` 86400 in
  s / 60 / 60 * 3600 + (s / 60) `mod` 60 * 60 + s `mod` 60 = s /\
  0 <= s / 60 / 60 < 24 /\ 0 <= (s / 60) `mod` 60 < 60 /\ 0 <= s `mod` 60 < 60.
Proof.
  intros Hs s. destruct (div_day stamp Hs) as [_ Hb]. fold s in Hb.
  pose proof (Z.div_mod s 60 ltac:(lia)). pose proof (Z.mod_pos_bound s 60 ltac:(lia)).
  pose proof (Z.div_mod (s / 60) 60 ltac:(lia)). pose proof (Z.mod_pos_bound (s / 60) 60 ltac:(lia)).
  split_and!; lia.
Qed.

(** C23: [tm_from_stamp] terminates on every stamp whose day fits an [int].
    The time of day is always right.  On every day but the last of a leap year
    the date is the reference calendar's, month and day of the month included,
    and the weekday is that of the day before.  The last day of a leap year
    comes out as day 0 of January, day -1 of the next year. *)
Theorem tm_from_stamp_spec stamp : 0 <= stamp -> stamp / 86400 < 2 ^ 31 ->
  exists y e t, tm_from_stamp stamp = Ok t /\ is_time stamp t /\
  1970 <= y /\ 0 <= e < year_get_day_count y /\ days_before_year y + e = stamp / 86400 /\
  (e < 365 -> is_day y e t /\ tm_wday t = (stamp / 86400 + 3) `mod` 7) /\
  (e = 365 -> tm_year t = y + 1 - 1900 /\ tm_mon t = 0 /\ tm_mday t = 0 /\ tm_yday t = -1).
Proof.
  intros Hs Hd. pose proof (Z.div_pos stamp 86400 Hs ltac:(lia)) as Hd0.
  destruct (div_day stamp Hs) as [_ Hsod]. pose proof (time_of_day stamp Hs) as Ht.
  unfold tm_from_stamp, seconds_to_days, seconds_mod_days, seconds_to_minutes, minutes_to_hours,
    minutes_mod_hours, seconds_mod_minutes. change SECONDS_IN_DAYS with 86400.
  change SECONDS_IN_MINUTE with 60. change MINUTES_IN_HOUR with 60.
  rewrite (swrap_small 32 (stamp `mod` 86400)), (swrap_small 32 (stamp / 86400)) by (unfold_ints; lia).
  destruct (take_years_ok (Z.to_nat (stamp / 86400)) (stamp / 86400) 1970)
    as (e & y & -> & Hy & He & Hday); [lia..|].
  rewrite outcome_bind_ok. change (days_before_year 1970) with 0 in Hday.
  pose proof (day_count_bounds y).
  assert (y < 2 ^ 30) as Hyb.
  { unfold days_before_year, leap_years in Hday. change (1969 / 4 - 1969 / 100 + 1969 / 400) with 477 in Hday.
    assert (0 <= (y - 1) / 400) by (apply Z.div_pos; lia).
    assert ((y - 1) / 100 <= (y - 1) / 4) by (apply Z.div_le_compat_l; lia). lia. }
  unfold loop_year. destruct (Z.eqb_spec e 365) as [->|Hne].
  - assert (exists w, day_of_month_to_weekday (y + 1) 1 (u8 (-1)) = Ok w) as [w Hw] by (by eexists).
    assert (take_months 12 (-1) MONTH_JANUARY (year_is_leap_year (y + 1)) = Ok (-1, 1)) as ->
      by (by destruct (year_is_leap_year (y + 1))).
    rewrite outcome_bind_ok. change (month_to_tm_mon 1) with (Ok 0 : outcome Z). rewrite outcome_bind_ok.
    unfold year_to_tm_year. rewrite (proj2 (Z.leb_le (y + 1) _)) by lia. cbn [c_assert].
    rewrite !outcome_bind_ok, Hw, outcome_bind_ok. exists y, 365. eexists. split; [done|].
    split_and!; [split; apply Ht|lia|lia|lia|lia|lia|done].
  - destruct (take_months_ok (year_is_leap_year y) e ltac:(lia))
      as (day & month & count & key & -> & Hm & Hc & Hdc & Hdoy & Hkey & Hmod).
    rewrite outcome_bind_ok. unfold month_to_tm_mon, MONTH_INVALID.
    rewrite (proj2 (Z.eqb_neq month 0)) by lia. cbn [negb c_assert]. rewrite !outcome_bind_ok.
    unfold year_to_tm_year. rewrite (proj2 (Z.leb_le y _)) by lia. cbn [c_assert].
    rewrite !outcome_bind_ok. assert (count <= 31) as Hc31.
    { revert Hc. unfold month_get_day_count. repeat case_match; intros [= <-]; lia. }
    rewrite (wrap_small 8 day) by (unfold_ints; lia).
    rewrite (weekday_formula y month key day e) by (done || lia || by eapply key_bounds).
    rewrite outcome_bind_ok. exists y, e. eexists. split; [done|].
    split_and!; [split; apply Ht|lia|lia|lia|lia| |lia].
    intros _. split; [|simpl; f_equal; lia]. split; simpl; rewrite ?Z.sub_add; try (done || lia).
    exists count. split; [done|lia].
Qed.

Lemma tm_from_stamp_spec_witness :
  exists y e t, tm_from_stamp 951868800 = Ok t /\ is_time 951868800 t /\
  1970 <= y /\ 0 <= e < year_get_day_count y /\ days_before_year y + e = 951868800 / 86400 /\
  (e < 365 -> is_day y e t /\ tm_wday t = (951868800 / 86400 + 3) `mod` 7) /\
  (e = 365 -> tm_year t = y + 1 - 1900 /\ tm_mon t = 0 /\ tm_mday t = 0 /\ tm_yday t = -1).
Proof. apply (tm_from_stamp_spec 951868800); [lia|vm_compute; reflexivity]. Defined.

(** [get_week_count_at_day] is the usual week of the year when at least as
    many days have passed in the year as in the week; on the days before that
    the 32-bit subtraction wraps around, and the first of January, a Monday, is
    in week 37 instead of 1. *)
Theorem week_count_spec weekday days (is_monday_first : bool) :
  0 <= weekday <= 6 -> 0 <= days < 366 ->
  let delta := if is_monday_first then (if (weekday =? 0) then 1 else 8) else 7 in
  (weekday <= days ->
   get_week_count_at_day weekday days is_monday_first = (days - weekday + delta) / 7) /\
  (days < weekday ->
   get_week_count_at_day weekday days is_monday_first = ((2 ^ 32 + days - weekday + delta) / 7) `mod` 256) /\
  get_week_count_at_day WEEKDAY_MONDAY 0 true = 37.
Proof.
  intros Hw Hd delta. assert (delta = if is_monday_first then
      (if negb (weekday =? WEEKDAY_SUNDAY) then WEEKDAY_COUNT + 1 else 1) else WEEKDAY_COUNT) as Ed.
  { unfold delta, WEEKDAY_SUNDAY. destruct is_monday_first; [|done]. by destruct (weekday =? 0). }
  assert (1 <= delta <= 8) as Hb by (unfold delta; repeat case_match; lia).
  unfold get_week_count_at_day. rewrite <- Ed. rewrite (wrap_small 32 weekday) by (unfold_ints; lia).
  split_and!; [| |reflexivity]; intros Hlt.
  - rewrite (wrap_small 32) by (unfold_ints; lia). rewrite (wrap_small 64) by (unfold_ints; lia).
    apply wrap_small. unfold_ints. split; [apply Z.div_pos; lia|]. apply Z.div_lt_upper_bound; lia.
  - assert (u32 (days - weekday) = 2 ^ 32 + days - weekday) as ->.
    { unfold wrap. rewrite <- (Z.mod_unique_pos (days - weekday) (2 ^ 32) (-1) (2 ^ 32 + days - weekday)); lia. }
    rewrite (wrap_small 64) by (unfold_ints; lia). done.
Qed.

Lemma week_count_spec_witness :
  let delta := 8 in
  (3 <= 2 -> get_week_count_at_day 3 2 true = (2 - 3 + delta) / 7) /\
  (2 < 3 -> get_week_count_at_day 3 2 true = ((2 ^ 32 + 2 - 3 + delta) / 7) `mod` 256) /\
  get_week_count_at_day WEEKDAY_MONDAY 0 true = 37.
Proof. apply (week_count_spec 3 2 true); lia. Defined.

(** ** Time spans *)
Definition nanoseconds (t : timespec) : Z := tv_sec t * NANO_IN_SECONDS + tv_nsec t.
Definition timespec_ok (t : timespec) : Prop :=
  0 <= tv_sec t < 2 ^ 63 - 1 /\ 0 <= tv_nsec t < NANO_IN_SECONDS.

(** [timespec_add] adds two normalized spans and normalizes the sum.
    [timespec_sub] gives 0 when the second span is longer, and otherwise the
    difference when the nanoseconds need no borrow; with a borrow it is one
    nanosecond short. *)
Theorem timespec_spec left right : timespec_ok left -> timespec_ok right ->
  nanoseconds (timespec_add left right) = nanoseconds left + nanoseconds right /\
  0 <= tv_nsec (timespec_add left right) < NANO_IN_SECONDS /\
  (nanoseconds left < nanoseconds right -> timespec_sub left right = timespec_zero) /\
  (nanoseconds right <= nanoseconds left ->
   nanoseconds (timespec_sub left right) =
     nanoseconds left - nanoseconds right - (if tv_nsec right >? tv_nsec left then 1 else 0)).
Proof.
  unfold timespec_ok, nanoseconds. change NANO_IN_SECONDS with 1000000000.
  intros [Hl1 Hl2] [Hr1 Hr2]. destruct left as [ls ln], right as [rs rn]. simpl in *.
  assert (timespec_add {| tv_sec := ls; tv_nsec := ln |} {| tv_sec := rs; tv_nsec := rn |} =
    if ln + rn <? 1000000000 then {| tv_sec := ls + rs; tv_nsec := ln + rn |}
    else {| tv_sec := ls + 1 + rs; tv_nsec := ln + rn - 1000000000 |}) as ->.
  { unfold timespec_add. simpl. change NANO_IN_SECONDS with 1000000000.
    rewrite (wrap_small 64 (ln + rn)), (wrap_small 64 (ls + 1)), (wrap_small 64 (ls + rs)),
      (wrap_small 64 (ls + 1 + rs)) by (unfold_ints; lia).
    destruct (Z.ltb_spec (ln + rn) 1000000000).
    - by rewrite Z.div_small by lia.
    - rewrite <- (Z.div_unique (ln + rn) 1000000000 1 (ln + rn - 1000000000)) by lia.
      rewrite <- (Z.mod_unique_pos (ln + rn) 1000000000 1 (ln + rn - 1000000000)) by lia. done. }
  split; [by destruct (Z.ltb_spec (ln + rn) 1000000000); simpl; lia|].
  split; [by destruct (Z.ltb_spec (ln + rn) 1000000000); simpl; lia|].
  unfold timespec_sub. simpl. change NANO_IN_SECONDS with 1000000000. rewrite !Z.gtb_ltb.
  split; intros Hc.
  - destruct (Z.ltb_spec ln rn); simpl; destruct (Z.eqb_spec ls 0); simpl; try done.
    + by rewrite (proj2 (Z.ltb_lt (ls - 1) rs)) by lia.
    + by rewrite (proj2 (Z.ltb_lt ls rs)) by lia.
    + by rewrite (proj2 (Z.ltb_lt ls rs)) by lia.
  - destruct (Z.ltb_spec ln rn); simpl.
    + rewrite (proj2 (Z.eqb_neq ls 0)), (proj2 (Z.ltb_ge (ls - 1) rs)) by lia. simpl.
      rewrite !wrap_small by (unfold_ints; lia). lia.
    + rewrite (proj2 (Z.ltb_ge ls rs)) by lia. simpl. rewrite !wrap_small by (unfold_ints; lia). lia.
Qed.

Lemma timespec_spec_witness :
  let a := {| tv_sec := 3; tv_nsec := 5 |} in let b := {| tv_sec := 1; tv_nsec := 9 |} in
  nanoseconds (timespec_add a b) = nanoseconds a + nanoseconds b /\
  0 <= tv_nsec (timespec_add a b) < NANO_IN_SECONDS /\
  (nanoseconds a < nanoseconds b -> timespec_sub a b = timespec_zero) /\
  (nanoseconds b <= nanoseconds a ->
   nanoseconds (timespec_sub a b) =
     nanoseconds a - nanoseconds b - (if tv_nsec b >? tv_nsec a then 1 else 0)).
Proof. apply timespec_spec; (split; [simpl; lia|vm_compute; split; [discriminate|reflexivity]]). Defined.
