(* ===== verification/Strftime.v ===== *)
(** * Dates as text: lib/parse_strftime.c, strftime.c and kernel/time/kstrftime.c

    As in Format.v, the format is a C string with what is behind it in memory,
    and the callback that receives the text is a parameter with a state of its
    own.  A letter of a format is its character code; [chr] reads it off. *)
From Stdlib Require Import Ascii.
From S2P Require Import Prelude CArith Convert Buffer Format Time.

Definition chr (a : ascii) : Z := Z.of_nat (nat_of_ascii a).
Arguments chr a%_char.

(** ** lib/parse_strftime.h *)
Record strftime_modifiers := {
  locale_alt_repr : bool;
  locale_alt_numeric : bool;
  pad_spaces_to_number : bool;
  dont_pad_number : bool;
  pad_zeros : bool;
  capitalize_letters : bool;
  swap_letter_case : bool;
}.
Definition mods_only (repr numeric spaces none zeros capital swap : bool) : strftime_modifiers :=
  {| locale_alt_repr := repr; locale_alt_numeric := numeric; pad_spaces_to_number := spaces;
     dont_pad_number := none; pad_zeros := zeros; capitalize_letters := capital; swap_letter_case := swap |}.
Definition STRFTIME_MODIFIERS_INIT : strftime_modifiers :=
  mods_only false false false false false false false.
Record strftime_spec_info := { spec : Z; mods : strftime_modifiers }.

(** [parse_strftime_mods]: at most one modifier. *)
Definition parse_strftime_mods (iter : list Z) : outcome (strftime_modifiers * list Z) :=
  c ← cstr_char iter;
  let found m := iter ← cstr_next iter; Ok (m, iter) in
  if c =? chr "E" then found (mods_only true false false false false false false)
  else if c =? chr "O" then found (mods_only false true false false false false false)
  else if c =? chr "-" then found (mods_only false false true false false false false)
  else if c =? chr "_" then found (mods_only false false false true false false false)
  else if c =? chr "0" then found (mods_only false false false false true false false)
  else if c =? chr "^" then found (mods_only false false false false false true false)
  else if c =? chr "#" then found (mods_only false false false false false false true)
  else Ok (STRFTIME_MODIFIERS_INIT, iter).

Definition MAX_SECOND_NUMBER_LENGTH : Z := 2.
Definition MAX_MINUTE_NUMBER_LENGTH : Z := 2.
Definition MAX_HOUR_NUMBER_LENGTH : Z := 2.
Definition MAX_YEAR_DAY_NUMBER_LENGTH : Z := 3.
Definition MAX_DAY_OF_MONTH_NUMBER_LENGTH : Z := 2.
Definition MAX_MONTH_NUMBER_LENGTH : Z := 2.
Definition MAX_WEEK_NUMBER_LENGTH : Z := 2.
Definition MAX_WEEKDAY_NUMBER_LENGTH : Z := 1.

(** ** The text of one specifier *)

(** [PAD_WITH_CHAR_IF_NECESSARY] writes in front of the number, which ends at a
    fixed place of the buffer. *)
Fixpoint put_pads (n : nat) (ch begin : Z) (buffer : list Z) : outcome (Z * list Z) :=
  match n with
  | O => Ok (begin, buffer)
  | Datatypes.S n => buffer ← put buffer (begin - 1) ch; put_pads n ch (begin - 1) buffer
  end.
Definition PAD_WITH_CHAR_IF_NECESSARY (m : strftime_modifiers) (ch expected_len : Z)
    (buffer : list Z) (sv : string_view) : outcome string_view :=
  if negb (dont_pad_number m) then
    let pad_ch :=
      if pad_spaces_to_number m then chr " " else if pad_zeros m then chr "0" else ch in
    let sv_length := i8 (Z.of_nat (length sv)) in
    if sv_length <? expected_len then
      let sv_end := unsigned_final_index NUMERIC_BASE_10 in
      '(begin, buffer) ← put_pads (Z.to_nat (expected_len - sv_length)) pad_ch
                           (sv_end - Z.of_nat (length sv)) buffer;
      sv_create_end buffer begin sv_end
    else Ok sv
  else Ok sv.

Definition conv_buffer0 : list Z := replicate (Z.to_nat MAX_CONVERT_CAP) 0.
Definition number (n : Z) : outcome string_view :=
  '(_, sv) ← unsigned_to_string_view n NUMERIC_BASE_10 conv_buffer0 NUM_TO_STR_OPTIONS_INIT; Ok sv.
Definition padded_number (m : strftime_modifiers) (ch expected_len n : Z) : outcome string_view :=
  '(buffer, sv) ← unsigned_to_string_view n NUMERIC_BASE_10 conv_buffer0 NUM_TO_STR_OPTIONS_INIT;
  PAD_WITH_CHAR_IF_NECESSARY m ch expected_len buffer sv.

Definition GET_SV_FROM_FUNC (m : strftime_modifiers) (func func_upper : Z -> outcome string) (x : Z) :
    outcome string_view :=
  s ← (if capitalize_letters m then func_upper x else func x); Ok (char_codes s).
Definition weekday_name (m : strftime_modifiers) (func func_upper : Z -> outcome string) (t : tm) :
    outcome string_view :=
  if weekday_is_valid (tm_wday t) then GET_SV_FROM_FUNC m func func_upper (tm_wday t)
  else Ok (char_codes "?").
Definition month_name (m : strftime_modifiers) (func func_upper : Z -> outcome string) (t : tm) :
    outcome string_view :=
  let month := tm_mon_to_month (tm_mon t) in
  if month_is_valid month then GET_SV_FROM_FUNC m func func_upper month else Ok (char_codes "?").

(** One recursive call for December 31 of the year before is enough. *)
Definition week_of (t : tm) (month year : Z) : outcome Z :=
  iso_8601_get_week_number 1 (tm_wday t) month year (u8 (tm_mday t)) (u16 (tm_yday t)).
(** The year of [%G] and [%g]. *)
Definition week_based_year (t : tm) : outcome Z :=
  let month := tm_mon_to_month (tm_mon t) in
  year ← tm_year_to_year (tm_year t);
  week_number ← week_of t month year;
  Ok (if (month =? MONTH_DECEMBER) && (week_number =? 1) then u64 (year + 1)
      else if (month =? MONTH_JANUARY) && (week_number >=? 52) then u64 (year - 1)
      else year).

(** The specifiers that send one text, in the order of the switch.  Conversions of an [int] or an enum to
    the [uint64_t] that is printed go through the type in the cast. *)
Definition own_text_a_to_G (t : tm) (c : Z) (m : strftime_modifiers) : option (outcome string_view) :=
  if c =? chr "a" then Some (weekday_name m weekday_to_sv_abbrev weekday_to_sv_abbrev_upper t)
  else if c =? chr "A" then Some (weekday_name m weekday_to_sv weekday_to_sv_upper t)
  else if (c =? chr "b") || (c =? chr "h") then
    Some (month_name m month_to_sv_abbrev month_to_sv_abbrev_upper t)
  else if c =? chr "B" then Some (month_name m month_to_sv month_to_sv_upper t)
  else if c =? chr "C" then Some (year ← tm_year_to_year (tm_year t); number (year / 100))
  else if c =? chr "d" then Some (padded_number m (chr "0") 2 (u64 (tm_mday t)))
  else if c =? chr "e" then
    Some (padded_number m (chr " ") MAX_DAY_OF_MONTH_NUMBER_LENGTH (u64 (tm_mday t)))
  else if c =? chr "g" then
    Some (year ← week_based_year t; padded_number m (chr "0") 2 (year `mod` 100))
  else if c =? chr "G" then Some (year ← week_based_year t; number year)
  else None.
Definition own_text_H_to_S (t : tm) (c : Z) (m : strftime_modifiers) : option (outcome string_view) :=
  if c =? chr "H" then Some (padded_number m (chr "0") MAX_HOUR_NUMBER_LENGTH (u8 (tm_hour t)))
  else if c =? chr "I" then
    Some (padded_number m (chr "0") MAX_HOUR_NUMBER_LENGTH (hour_24_to_12hour (u8 (tm_hour t))))
  else if c =? chr "j" then
    Some (padded_number m (chr "0") MAX_YEAR_DAY_NUMBER_LENGTH (u16 (tm_yday t) + 1))
  else if c =? chr "m" then
    Some (padded_number m (chr "0") MAX_MONTH_NUMBER_LENGTH (u32 (tm_mon_to_month (tm_mon t))))
  else if c =? chr "M" then Some (padded_number m (chr "0") MAX_MINUTE_NUMBER_LENGTH (u16 (tm_min t)))
  else if c =? chr "n" then Some (Ok [10])
  else if c =? chr "p" then
    Some (Ok (char_codes (if hour_24_is_pm (u8 (tm_hour t)) then "PM" else "AM")))
  else if c =? chr "S" then Some (padded_number m (chr "0") MAX_SECOND_NUMBER_LENGTH (u64 (tm_sec t)))
  else None.
Definition own_text_t_to_Y (t : tm) (c : Z) (m : strftime_modifiers) : option (outcome string_view) :=
  if c =? chr "t" then Some (Ok [9])
  else if c =? chr "u" then
    Some (padded_number m (chr "0") MAX_WEEKDAY_NUMBER_LENGTH (weekday_to_decimal_monday_one (tm_wday t)))
  else if c =? chr "U" then
    Some (padded_number m (chr "0") MAX_WEEK_NUMBER_LENGTH
            (get_week_count_at_day (tm_wday t) (u16 (tm_yday t)) false))
  else if c =? chr "V" then
    Some (year ← tm_year_to_year (tm_year t);
          week_number ← week_of t (tm_mon_to_month (tm_mon t)) year;
          padded_number m (chr "0") MAX_WEEK_NUMBER_LENGTH week_number)
  else if c =? chr "w" then Some (padded_number m (chr "0") MAX_WEEKDAY_NUMBER_LENGTH (u8 (tm_wday t)))
  else if c =? chr "W" then
    Some (padded_number m (chr "0") MAX_WEEK_NUMBER_LENGTH
            (get_week_count_at_day (tm_wday t) (u16 (tm_yday t)) true))
  else if c =? chr "y" then
    Some (year ← tm_year_to_year (tm_year t); padded_number m (chr "0") 2 (year `mod` 100))
  else if c =? chr "Y" then Some (year ← tm_year_to_year (tm_year t); number year)
  else None.
Definition own_text_rest (t : tm) (c : Z) (m : strftime_modifiers) : option (outcome string_view) :=
  if c =? chr "k" then Some (padded_number m (chr " ") MAX_HOUR_NUMBER_LENGTH (u64 (tm_hour t)))
  else if c =? chr "l" then
    Some (padded_number m (chr " ") MAX_HOUR_NUMBER_LENGTH (hour_24_to_12hour (u8 (tm_hour t))))
  else if c =? chr "%" then Some (Ok (char_codes "%"))
  else None.

Definition own_text (t : tm) (info : strftime_spec_info) : option (outcome string_view) :=
  let c := spec info in
  let m := mods info in
  match own_text_a_to_G t c m with
  | Some text => Some text
  | None =>
      match own_text_H_to_S t c m with
      | Some text => Some text
      | None => match own_text_t_to_Y t c m with Some text => Some text | None => own_text_rest t c m end
      end
  end.

(** The specifiers that are made of others: their calls in order. *)
Inductive part :=
| RECURSIVE_CALL_FOR_SPEC (other_spec : ascii)
| SV_STATIC (text : string)
| SPACED_MONTH.
Arguments RECURSIVE_CALL_FOR_SPEC other_spec%_char.
Arguments SV_STATIC text%_string.
Definition parts_of (c : Z) : option (list part) :=
  let call := RECURSIVE_CALL_FOR_SPEC in
  if c =? chr "c" then
    Some [call "a"%char; SV_STATIC " "; call "b"%char; SV_STATIC " "; call "d"%char; SV_STATIC " ";
          call "T"%char; SV_STATIC " "; call "Y"%char]
  else if (c =? chr "D") || (c =? chr "x") then
    Some [call "m"%char; SV_STATIC "/"; call "d"%char; SV_STATIC "/"; call "y"%char]
  else if c =? chr "F" then
    Some [call "Y"%char; SV_STATIC "-"; call "m"%char; SV_STATIC "-"; call "d"%char]
  else if c =? chr "r" then
    Some [call "I"%char; SV_STATIC ":"; call "M"%char; SV_STATIC ":"; call "S"%char; SV_STATIC " "; call "p"%char]
  else if c =? chr "R" then Some [call "H"%char; SV_STATIC ":"; call "M"%char]
  else if (c =? chr "T") || (c =? chr "X") then
    Some [call "H"%char; SV_STATIC ":"; call "M"%char; SV_STATIC ":"; call "S"%char]
  else if c =? chr "v" then Some [call "d"%char; SV_STATIC "-"; SPACED_MONTH; call "Y"%char]
  else None.

(** ** Sending the texts *)
Section strftime.
Context {S : Type}.
(** [parse_strftime_sv_callback]. *)
Context (sv_cb : option strftime_spec_info -> string_view -> bool -> S -> outcome (Z * bool * S)).
Context (t : tm).

(** [*written_out], [*should_cont_out] and the state behind [sv_cb_info]. *)
Record progress := { written : Z; should_cont : bool; sink : S }.
Definition CALL_CALLBACK (info : option strftime_spec_info) (sv : string_view) (p : progress) :
    outcome progress :=
  '(n, cont, s) ← sv_cb info sv (should_cont p) (sink p);
  Ok {| written := u64 (written p + n); should_cont := cont; sink := s |}.

(** [goto done] once a callback has said to stop. *)
Fixpoint in_turn (steps : list (progress -> outcome progress)) (p : progress) : outcome progress :=
  match steps with
  | [] => Ok p
  | step :: steps =>
      p ← step p;
      if negb (should_cont p) then Ok p else in_turn steps p
  end.

Definition do_part (handle : strftime_spec_info -> progress -> outcome (bool * progress))
    (info : strftime_spec_info) (x : part) (p : progress) : outcome progress :=
  match x with
  | RECURSIVE_CALL_FOR_SPEC other_spec =>
      '(valid_spec, p) ← handle {| spec := chr other_spec; mods := mods info |} p;
      c_assert valid_spec;;
      Ok p
  | SV_STATIC text => CALL_CALLBACK (Some info) (char_codes text) p
  | SPACED_MONTH =>
      month_sv ← padded_number (mods info) (chr " ") 3 (u32 (tm_mon_to_month (tm_mon t)));
      CALL_CALLBACK (Some info) month_sv p
  end.

Fixpoint handle_strftime_spec (fuel : nat) (info : strftime_spec_info) (p : progress) :
    outcome (bool * progress) :=
  match fuel with
  | O => OutOfFuel
  | Datatypes.S fuel =>
      match parts_of (spec info) with
      | Some parts =>
          p ← in_turn (map (do_part (handle_strftime_spec fuel) info) parts) p;
          Ok (true, p)
      | None =>
          match own_text t info with
          | Some text => sv ← text; p ← CALL_CALLBACK (Some info) sv p; Ok (true, p)
          | None => Ok (false, p)
          end
      end
  end.
(** [%c] calls [%T], which calls [%H]. *)
Definition spec_depth : nat := 3.

(** The end of [parse_strftime_format]. *)
Definition strftime_rest (unformat_buffer_ptr : list Z) (p : progress) : outcome progress :=
  c ← cstr_char unformat_buffer_ptr;
  if negb (c =? 0) then
    n ← str_len unformat_buffer_ptr;
    CALL_CALLBACK None (take (Z.to_nat n) unformat_buffer_ptr) p
  else Ok p.

Definition continuing (p : progress) : progress :=
  {| written := written p; should_cont := true; sink := sink p |}.

(** [v_continue] is a second flag: when a specifier is stopped,
    [should_continue] is still true. *)
Fixpoint strftime_loop (fuel : nat) (iter unformat_buffer_ptr : list Z) (p : progress) : outcome progress :=
  match fuel with
  | O => OutOfFuel
  | Datatypes.S fuel =>
      found ← str_chr iter (chr "%");
      match found with
      | None => strftime_rest unformat_buffer_ptr p
      | Some orig_iter =>
          sv ← text_between unformat_buffer_ptr orig_iter;
          p ← match sv with [] => Ok p | _ => CALL_CALLBACK None sv p end;
          if negb (should_cont p) then strftime_rest unformat_buffer_ptr p
          else
            iter ← cstr_next orig_iter;
            '(m, iter) ← parse_strftime_mods iter;
            c ← cstr_char iter;
            '(valid_spec, p) ← handle_strftime_spec spec_depth {| spec := c; mods := m |} p;
            if negb (should_cont p) then strftime_rest unformat_buffer_ptr (continuing p)
            else
              iter ← cstr_next iter;
              strftime_loop fuel iter (if (valid_spec : bool) then iter else orig_iter) p
      end
  end.

(** The count is not returned. *)
Definition parse_strftime_format (format : list Z) (s : S) : outcome (Z * S) :=
  p ← strftime_loop (length format) format format {| written := 0; should_cont := true; sink := s |};
  Ok (0, sink p).
End strftime.
Arguments progress S : clear implicits.

(** ** strftime.c *)
Definition time_format_to_string_sv_callback (_ : option strftime_spec_info) (sv : string_view) (cont : bool)
    (mb : mutable_buffer) : outcome (Z * bool * mutable_buffer) :=
  '(result, mb) ← mbuffer_append_sv mb sv;
  Ok (result, if negb (result =? Z.of_nat (length sv)) || mbuffer_full mb then false else cont, mb).
(** [buffer_in] and [data]: the address of the buffer and the object it is in. *)
Definition time_format_to_string_buffer (buffer_in : Z) (data : list Z) (buffer_cap : Z) (format : list Z)
    (t : tm) : outcome (Z * list Z) :=
  if buffer_cap =? 0 then Ok (0, data)
  else
    mb ← mbuffer_open buffer_in data 0 (u32 buffer_cap);
    '(result, mb) ← parse_strftime_format time_format_to_string_sv_callback t format mb;
    data ← write_bytes (mb_data mb) (mb_index mb) [0];
    Ok (result, data).

Definition time_format_get_length_sv_callback (_ : option strftime_spec_info) (sv : string_view) (cont : bool)
    (s : unit) : outcome (Z * bool * unit) := Ok (Z.of_nat (length sv), cont, s).
Definition get_length_of_time_format (format : list Z) (t : tm) : outcome Z :=
  '(result, _) ← parse_strftime_format time_format_get_length_sv_callback t format tt; Ok result.

(** ** kernel/time/kstrftime.c *)
Section kernel.
Context {H : Type}.
Context (malloc_size : Z -> H -> outcome (option (Z * list Z) * H)).
Context (free : Z -> H -> outcome H).
(** Writing to the terminals (kernel/dev/printk.c). *)
Context {C : Type} (putk_sv : string_view -> C -> outcome C).

Definition kstrftime_sv_callback (_ : option strftime_spec_info) (sv : string_view) (cont : bool)
    (s : kstring * H) : outcome (Z * bool * (kstring * H)) :=
  '(ok, str, h) ← string_append_sv malloc_size free (fst s) sv (snd s);
  if negb ok then Ok (0, false, (str, h)) else Ok (Z.of_nat (length sv), cont, (str, h)).
Definition kstrftime (format : list Z) (t : tm) (h : H) : outcome (kstring * H) :=
  '(_, s) ← parse_strftime_format kstrftime_sv_callback t format (STRING_EMPTY, h); Ok s.

Definition time_print_format_callback (_ : option strftime_spec_info) (sv : string_view) (cont : bool)
    (c : C) : outcome (Z * bool * C) :=
  c ← putk_sv sv c; Ok (Z.of_nat (length sv), cont, c).
Definition printk_strftime (format : list Z) (t : tm) (c : C) : outcome C :=
  '(_, c) ← parse_strftime_format time_print_format_callback t format c; Ok c.
End kernel.
