(* ===== verification/StrftimeInv.v ===== *)
(** * Dates as the standard has them

    The text that the C standard (with the common extensions [%k] and [%l], and
    the modifiers [0] and [^]) gives to a conversion of strftime, and that the
    parts of Strftime.v compute it; ISO 8601 weeks by their Thursday. *)
From Stdlib Require Import Ascii.
From S2P Require Import Prelude CArith Convert Buffer Format FormatInv Time TimeThms Strftime.

(** ** ISO weeks *)

(** The day of the year of the Thursday of the same week, Monday to Sunday. *)
Definition thursday (weekday day_of_year : Z) : Z := day_of_year - (weekday + 6) `mod` 7 + 3.
Definition iso_week (y weekday day_of_year : Z) : Z * Z :=
  let th := thursday weekday day_of_year in
  if th <? 0 then (y - 1, (th + year_get_day_count (y - 1)) / 7 + 1)
  else if th >=? year_get_day_count y then (y + 1, (th - year_get_day_count y) / 7 + 1)
  else (y, th / 7 + 1).

(** The monday-first count of weeks. *)
Definition weeks_from_monday (w e : Z) : Z := (e + 7 - (w + 6) `mod` 7) / 7.
Lemma week_count_monday w e : 0 <= w <= 6 -> 0 <= e < 366 -> w <= e ->
  get_week_count_at_day w e true = weeks_from_monday w e.
Proof.
  intros Hw He Hwe. rewrite (proj1 (week_count_spec w e true Hw He)) by lia. unfold weeks_from_monday.
  destruct (Z.eqb_spec w 0) as [->|]; [change ((0 + 6) `mod` 7) with 6; f_equal; lia|].
  rewrite <- (Z.mod_unique_pos (w + 6) 7 1 (w - 1)) by lia. f_equal. lia.
Qed.
Lemma week_count_sunday w e : 0 <= w <= 6 -> 0 <= e < 366 -> w <= e ->
  get_week_count_at_day w e false = (e + 7 - w) / 7.
Proof. intros Hw He Hwe. rewrite (proj1 (week_count_spec w e false Hw He)) by lia. f_equal. lia. Qed.

Definition in_december (month mday e : Z) (leap : bool) : Prop :=
  let first := if leap then 335 else 334 in
  (month = 12 -> e = first + mday - 1) /\ (month <> 12 -> e < first).

Lemma fix_december_spec w month mday e leap n : 0 <= w <= 6 -> 1 <= mday <= 31 -> in_december month mday e leap ->
  n = thursday w e / 7 + 1 ->
  fix_december w month mday n =
    if thursday w e >=? (if leap then 366 else 365) then 1 else n.
Proof.
  intros Hw Hd [H12 Hn12] ->. unfold fix_december, thursday.
  unfold MONTH_DECEMBER, WEEKDAY_MONDAY, WEEKDAY_TUESDAY, WEEKDAY_WEDNESDAY. rewrite !Z.geb_leb.
  assert (w = 0 \/ w = 1 \/ w = 2 \/ w = 3 \/ w = 4 \/ w = 5 \/ w = 6) as Hcases by lia.
  repeat destruct Hcases as [->|Hcases]; try subst w.
  all: match goal with |- context [(?a + 6) `mod` 7] => let k := eval vm_compute in ((a + 6) `mod` 7) in
    change ((a + 6) `mod` 7) with k end.
  all: destruct (Z.eqb_spec month 12) as [E|E]; [rewrite (H12 E)|specialize (Hn12 E)].
  all: repeat match goal with |- context [?a =? ?b] => destruct (Z.eqb_spec a b) end.
  all: repeat match goal with |- context [?a <=? ?b] => destruct (Z.leb_spec a b) end.
  all: cbn [andb]; try done; destruct leap; try lia.
Qed.

(** The weekday of January 1 decides whether the days before the first Monday
    are a week of this year. *)
Definition jan_1 (w e : Z) : Z := if w - e `mod` 7 <? 0 then w - e `mod` 7 + 7 else w - e `mod` 7.
Lemma iso_week_by_jan_1 w e : 0 <= w <= 6 -> 0 <= jan_1 w e <= 6 /\
  thursday w e / 7 + 1 =
    weeks_from_monday w e + (if (2 <=? jan_1 w e) && (jan_1 w e <=? 4) then 1 else 0).
Proof.
  intros Hw. unfold jan_1, thursday, weeks_from_monday.
  pose proof (Z.div_mod e 7 ltac:(lia)) as He. pose proof (Z.mod_pos_bound e 7 ltac:(lia)) as Hr.
  set (q := e / 7) in *. set (r := e `mod` 7) in *. clearbody q r. rewrite He.
  assert (exists k, k = (w + 6) `mod` 7 /\ (w = 0 /\ k = 6 \/ 1 <= w /\ k = w - 1)) as (k & <- & Hk).
  { eexists. split; [done|]. destruct (decide (w = 0)) as [->|]; [by left|right]. split; [lia|].
    symmetry. apply (Z.mod_unique_pos _ 7 1); lia. }
  destruct (Z.ltb_spec (w - r) 0).
  all: split; [lia|].
  all: repeat match goal with |- context [?a <=? ?b] => destruct (Z.leb_spec a b) end; cbn [andb].
  all: Z.to_euclidean_division_equations; lia.
Qed.

Lemma weekday_valid w : 0 <= w <= 6 -> weekday_is_valid w = true.
Proof. intros. unfold weekday_is_valid, WEEKDAY_SUNDAY, WEEKDAY_SATURDAY. lia. Qed.
Lemma month_valid m : 1 <= m <= 12 -> month_is_valid m = true.
Proof. intros. unfold month_is_valid, MONTH_JANUARY, MONTH_DECEMBER. lia. Qed.

Lemma iso_8601_spec fuel w month year mday e leap : 0 <= w <= 6 -> 1 <= month <= 12 -> 1 <= mday <= 31 ->
  0 <= e < 366 -> in_december month mday e leap -> w <= e -> 0 <= thursday w e ->
  iso_8601_get_week_number (S fuel) w month year mday e =
    Ok (if thursday w e >=? (if leap then 366 else 365) then 1 else thursday w e / 7 + 1).
Proof.
  intros Hw Hm Hd He Hdec Hwe Hth. cbn [iso_8601_get_week_number].
  rewrite weekday_valid, month_valid by lia. cbn [c_assert]. rewrite !outcome_bind_ok.
  rewrite week_count_monday by lia. fold (jan_1 w e).
  rewrite <- (fix_december_spec w month mday e leap _ Hw Hd Hdec eq_refl).
  destruct (iso_week_by_jan_1 w e Hw) as [Hj ->].
  assert (0 <= weeks_from_monday w e < 255) as Hb.
  { unfold weeks_from_monday. pose proof (Z.mod_pos_bound (w + 6) 7). Z.to_euclidean_division_equations. lia. }
  assert (0 <= thursday w e / 7) as Hpos by (apply Z.div_pos; lia).
  destruct (iso_week_by_jan_1 w e Hw) as [_ Heq].
  unfold WEEKDAY_MONDAY, WEEKDAY_TUESDAY, WEEKDAY_WEDNESDAY, WEEKDAY_THURSDAY. cbn [existsb].
  assert (jan_1 w e = 0 \/ jan_1 w e = 1 \/ jan_1 w e = 2 \/ jan_1 w e = 3 \/ jan_1 w e = 4 \/
    jan_1 w e = 5 \/ jan_1 w e = 6) as Hcases by lia.
  repeat destruct Hcases as [Hcases|Hcases]; rewrite Hcases in *; cbn in Heq |- *.
  all: rewrite ?Z.add_0_r in *.
  all: rewrite ?(wrap_small 8) by (unfold_ints; lia); try done.
  all: by rewrite (proj2 (Z.eqb_neq _ 0)) by lia.
Qed.

(** ** What the conversions mean *)

(** A modifier: none, the two that choose the locale's own representation
    (which the C locale does not have), [0] and [^]. *)
Inductive modifier := NoModifier | Era | Alternative | Zeros | Capitals.
Definition show_modifier (o : modifier) : list Z :=
  match o with
  | NoModifier => [] | Era => char_codes "E" | Alternative => char_codes "O"
  | Zeros => char_codes "0" | Capitals => char_codes "^"
  end.
Definition mods_of (o : modifier) : strftime_modifiers :=
  match o with
  | NoModifier => STRFTIME_MODIFIERS_INIT
  | Era => mods_only true false false false false false false
  | Alternative => mods_only false true false false false false false
  | Zeros => mods_only false false false false true false false
  | Capitals => mods_only false false false false false true false
  end.

Definition dig (n : Z) : Z := 48 + n.
(** Two digits, or [lead] and one. *)
Definition two (lead n : Z) : list Z :=
  if n <? 10 then [lead; dig n] else [dig (n / 10); dig (n `mod` 10)].
Definition three (n : Z) : list Z := [dig (n / 100); dig ((n / 10) `mod` 10); dig (n `mod` 10)].
Definition four (n : Z) : list Z := two 48 (n / 100) ++ two 48 (n `mod` 100).

Definition capital (c : Z) : Z := if (97 <=? c) && (c <=? 122) then c - 32 else c.
Definition name (o : modifier) (names : list string) (i : Z) (len : nat) : list Z :=
  let text := take len (char_codes (default "" (names !! Z.to_nat i)%string)) in
  match o with Capitals => map capital text | _ => text end.
Definition blank (o : modifier) : Z := match o with Zeros => 48 | _ => 32 end.
Definition hour_12 (h : Z) : Z := if h `mod` 12 =? 0 then 12 else h `mod` 12.

(** A conversion with a text of its own, for the year [y]. *)
Definition single (o : modifier) (y : Z) (t : tm) (c : ascii) : list Z :=
  let week := iso_week y (tm_wday t) (tm_yday t) in
  match c with
  | "a"%char => name o weekday_names (tm_wday t) 3
  | "A"%char => name o weekday_names (tm_wday t) 9
  | "b"%char | "h"%char => name o month_names (tm_mon t) 3
  | "B"%char => name o month_names (tm_mon t) 9
  | "C"%char => two 48 (y / 100)
  | "d"%char => two 48 (tm_mday t)
  | "e"%char => two (blank o) (tm_mday t)
  | "g"%char => two 48 (fst week `mod` 100)
  | "G"%char => four (fst week)
  | "H"%char => two 48 (tm_hour t)
  | "I"%char => two 48 (hour_12 (tm_hour t))
  | "j"%char => three (tm_yday t + 1)
  | "k"%char => two (blank o) (tm_hour t)
  | "l"%char => two (blank o) (hour_12 (tm_hour t))
  | "m"%char => two 48 (tm_mon t + 1)
  | "M"%char => two 48 (tm_min t)
  | "n"%char => [10]
  | "p"%char => if tm_hour t <? 12 then char_codes "AM" else char_codes "PM"
  | "S"%char => two 48 (tm_sec t)
  | "t"%char => [9]
  | "u"%char => [dig (if tm_wday t =? 0 then 7 else tm_wday t)]
  | "U"%char => two 48 ((tm_yday t + 7 - tm_wday t) / 7)
  | "V"%char => two 48 (snd week)
  | "w"%char => [dig (tm_wday t)]
  | "W"%char => two 48 (weeks_from_monday (tm_wday t) (tm_yday t))
  | "y"%char => two 48 (y `mod` 100)
  | "Y"%char => four y
  | "%"%char => char_codes "%"
  | _ => []
  end.

(** A conversion that stands for others is a format. *)
Definition expansion (c : ascii) : option string :=
  match c with
  | "c"%char => Some "%a %b %e %H:%M:%S %Y"%string
  | "D"%char | "x"%char => Some "%m/%d/%y"%string
  | "F"%char => Some "%Y-%m-%d"%string
  | "r"%char => Some "%I:%M:%S %p"%string
  | "R"%char => Some "%H:%M"%string
  | "T"%char | "X"%char => Some "%H:%M:%S"%string
  | _ => None
  end.
Fixpoint fill (f : ascii -> list Z) (fmt : list ascii) : list Z :=
  match fmt with
  | [] => []
  | "%"%char :: c :: fmt => f c ++ fill f fmt
  | x :: fmt => chr x :: fill f fmt
  end.
Definition meaning (o : modifier) (y : Z) (t : tm) (c : ascii) : list Z :=
  match expansion c with
  | Some fmt => fill (single o y t) (String.list_ascii_of_string fmt)
  | None => single o y t c
  end.

(** ** The dates and conversions that are right *)

(** A broken-down time of the reference calendar in a year that is printed with
    four digits; seconds may be leap seconds. *)
Record tm_ok (y : Z) (t : tm) : Prop := {
  to_day : is_day y (tm_yday t) t;
  to_year : 1900 <= y < 9999;
  to_yday : 0 <= tm_yday t < year_get_day_count y;
  to_wday : 0 <= tm_wday t <= 6;
  to_hour : 0 <= tm_hour t < 24;
  to_min : 0 <= tm_min t < 60;
  to_sec : 0 <= tm_sec t <= 60;
}.

(** The conversions that the code has, but [%v]; the weeks only when at least
    as many days have passed in the year as in the week, those of ISO 8601
    only when the week belongs to this year or the next, and [%c] only when the
    day has two digits. *)
Definition letters : list ascii :=
  String.list_ascii_of_string "aAbhBCdeHIjklmMnpStuwyY%DxFrRTX".
Definition conversion_ok (t : tm) (c : ascii) : Prop :=
  c ∈ letters \/
  c ∈ String.list_ascii_of_string "UW" /\ tm_wday t <= tm_yday t \/
  c ∈ String.list_ascii_of_string "gGV" /\ tm_wday t <= tm_yday t /\ 0 <= thursday (tm_wday t) (tm_yday t) \/
  c = "c"%char /\ 10 <= tm_mday t.

(** ** Numbers: tables of the printers *)
Definition prints (m : outcome string_view) (text : list Z) : bool :=
  match m with Ok sv => bool_decide (sv = text) | _ => false end.
Lemma prints_ok m text : prints m text = true -> m = Ok text.
Proof. unfold prints. destruct m; try done. by intros ->%bool_decide_eq_true. Qed.

Definition zero_mods (zeros : bool) : strftime_modifiers := mods_only false false false false zeros false false.
Lemma padded_mods o ch len n :
  padded_number (mods_of o) ch len n = padded_number (zero_mods (match o with Zeros => true | _ => false end)) ch len n.
Proof. by destruct o. Qed.

Lemma table (f : Z -> bool) lo hi : forallb f (seqZ lo hi) = true -> forall n, lo <= n < lo + hi -> f n = true.
Proof. rewrite forallb_forall. intros H n Hn. apply H, list_elem_of_In, elem_of_seqZ. lia. Qed.

Lemma pad_two_table zeros ch : ch = 48 \/ ch = 32 ->
  forallb (fun n => prints (padded_number (zero_mods zeros) ch 2 n) (two (if zeros then 48 else ch) n))
    (seqZ 0 100) = true.
Proof. by intros [-> | ->]; destruct zeros; vm_compute. Qed.
Lemma pad_one_table zeros :
  forallb (fun n => prints (padded_number (zero_mods zeros) 48 1 n) [dig n]) (seqZ 0 10) = true.
Proof. by destruct zeros; vm_compute. Qed.
Lemma pad_three_table zeros :
  forallb (fun n => prints (padded_number (zero_mods zeros) 48 3 n) (three n)) (seqZ 0 1000) = true.
Proof. by destruct zeros; vm_compute. Qed.
Lemma number_two_table : forallb (fun n => prints (number n) (two 48 n)) (seqZ 10 90) = true.
Proof. by vm_compute. Qed.
Lemma number_four_table : forallb (fun n => prints (number n) (four n)) (seqZ 1000 9000) = true.
Proof. by vm_compute. Qed.

Lemma padded_two o n : 0 <= n < 100 -> padded_number (mods_of o) (chr "0") 2 n = Ok (two 48 n).
Proof.
  intros Hn. rewrite padded_mods. change (chr "0") with 48.
  set (z := match o with Zeros => true | _ => false end).
  rewrite (prints_ok _ _ (table _ 0 100 (pad_two_table z 48 (or_introl eq_refl)) n Hn)). by destruct z.
Qed.
Lemma padded_blank o n : 0 <= n < 100 -> padded_number (mods_of o) (chr " ") 2 n = Ok (two (blank o) n).
Proof.
  intros Hn. rewrite padded_mods. change (chr " ") with 32.
  rewrite (prints_ok _ _ (table _ 0 100 (pad_two_table _ 32 (or_intror eq_refl)) n Hn)). by destruct o.
Qed.
Lemma padded_one o n : 0 <= n < 10 -> padded_number (mods_of o) (chr "0") 1 n = Ok [dig n].
Proof.
  intros Hn. rewrite padded_mods. exact (prints_ok _ _ (table _ 0 10 (pad_one_table _) n Hn)).
Qed.
Lemma padded_three o n : 0 <= n < 1000 -> padded_number (mods_of o) (chr "0") 3 n = Ok (three n).
Proof.
  intros Hn. rewrite padded_mods. exact (prints_ok _ _ (table _ 0 1000 (pad_three_table _) n Hn)).
Qed.
Lemma number_two n : 10 <= n < 100 -> number n = Ok (two 48 n).
Proof. intros Hn. apply prints_ok, (table _ 10 90 number_two_table). lia. Qed.
Lemma number_four n : 1000 <= n < 10000 -> number n = Ok (four n).
Proof. intros Hn. apply prints_ok, (table _ 1000 9000 number_four_table). lia. Qed.

(** ** Names *)
Lemma weekday_names_table : forallb (fun w => forallb (fun o =>
    prints (weekday_name (mods_of o) weekday_to_sv_abbrev weekday_to_sv_abbrev_upper
      {| tm_sec := 0; tm_min := 0; tm_hour := 0; tm_mday := 0; tm_mon := 0; tm_year := 0; tm_wday := w; tm_yday := 0; tm_isdst := 0 |})
      (name o weekday_names w 3) &&
    prints (weekday_name (mods_of o) weekday_to_sv weekday_to_sv_upper
      {| tm_sec := 0; tm_min := 0; tm_hour := 0; tm_mday := 0; tm_mon := 0; tm_year := 0; tm_wday := w; tm_yday := 0; tm_isdst := 0 |})
      (name o weekday_names w 9)) [NoModifier; Era; Alternative; Zeros; Capitals]) (seqZ 0 7) = true.
Proof. by vm_compute. Qed.
Lemma month_names_table : forallb (fun w => forallb (fun o =>
    prints (month_name (mods_of o) month_to_sv_abbrev month_to_sv_abbrev_upper
      {| tm_sec := 0; tm_min := 0; tm_hour := 0; tm_mday := 0; tm_mon := w; tm_year := 0; tm_wday := 0; tm_yday := 0; tm_isdst := 0 |})
      (name o month_names w 3) &&
    prints (month_name (mods_of o) month_to_sv month_to_sv_upper
      {| tm_sec := 0; tm_min := 0; tm_hour := 0; tm_mday := 0; tm_mon := w; tm_year := 0; tm_wday := 0; tm_yday := 0; tm_isdst := 0 |})
      (name o month_names w 9)) [NoModifier; Era; Alternative; Zeros; Capitals]) (seqZ 0 12) = true.
Proof. by vm_compute. Qed.

(** The name of a day or month depends on nothing else of the time. *)
Lemma weekday_name_abbrev_ok o t : 0 <= tm_wday t <= 6 ->
  weekday_name (mods_of o) weekday_to_sv_abbrev weekday_to_sv_abbrev_upper t = Ok (name o weekday_names (tm_wday t) 3) /\
  weekday_name (mods_of o) weekday_to_sv weekday_to_sv_upper t = Ok (name o weekday_names (tm_wday t) 9).
Proof.
  intros Hw. pose proof (table _ 0 7 weekday_names_table (tm_wday t) ltac:(lia)) as H. cbv beta in H.
  rewrite forallb_forall in H. specialize (H o ltac:(destruct o; cbn; tauto)).
  apply andb_true_iff in H as [H1%prints_ok H2%prints_ok]. by split.
Qed.
Lemma month_name_ok o t : 0 <= tm_mon t < 12 ->
  month_name (mods_of o) month_to_sv_abbrev month_to_sv_abbrev_upper t = Ok (name o month_names (tm_mon t) 3) /\
  month_name (mods_of o) month_to_sv month_to_sv_upper t = Ok (name o month_names (tm_mon t) 9).
Proof.
  intros Hw. pose proof (table _ 0 12 month_names_table (tm_mon t) ltac:(lia)) as H. cbv beta in H.
  rewrite forallb_forall in H. specialize (H o ltac:(destruct o; cbn; tauto)).
  apply andb_true_iff in H as [H1%prints_ok H2%prints_ok]. by split.
Qed.

(** ** All texts are characters *)
Definition chars (l : list Z) : bool := forallb (fun c => (-128 <=? c) && (c <? 128)) l.
Lemma chars_ok l : chars l = true -> text_ok l.
Proof.
  unfold chars, text_ok. rewrite forallb_forall, Forall_forall. intros H x Hx%list_elem_of_In%H.
  unfold in_s. change (2 ^ (8 - 1)) with 128. lia.
Qed.
Lemma names_ok o names i len : names = weekday_names \/ names = month_names -> len = 3%nat \/ len = 9%nat ->
  text_ok (name o names i len).
Proof.
  intros Hn Hl. unfold name. destruct (names !! Z.to_nat i) as [s|] eqn:E; cbn [default from_option].
  2: { destruct Hl as [-> | ->], o; apply chars_ok; reflexivity. }
  apply list_elem_of_lookup_2 in E. destruct Hn as [-> | ->];
    repeat (apply elem_of_cons in E as [->|E]; [destruct Hl as [-> | ->], o; apply chars_ok; reflexivity|]);
    by apply elem_of_nil in E.
Qed.
Lemma text_ok_two lead n : lead = 48 \/ lead = 32 -> 0 <= n < 100 -> text_ok (two lead n).
Proof.
  intros Hl Hn. unfold two, dig. pose proof (Z.div_pos n 10). pose proof (Z.div_lt_upper_bound n 10 10).
  pose proof (Z.mod_pos_bound n 10). destruct (Z.ltb_spec n 10); repeat constructor;
    change (2 ^ (8 - 1)) with 128; lia.
Qed.
Lemma text_ok_three n : 0 <= n < 1000 -> text_ok (three n).
Proof.
  intros Hn. unfold three, dig. pose proof (Z.div_pos n 100). pose proof (Z.div_lt_upper_bound n 100 10).
  pose proof (Z.mod_pos_bound n 10). pose proof (Z.mod_pos_bound (n / 10) 10).
  repeat constructor; change (2 ^ (8 - 1)) with 128; lia.
Qed.
Lemma text_ok_four n : 0 <= n < 10000 -> text_ok (four n).
Proof.
  intros Hn. pose proof (Z.div_pos n 100). pose proof (Z.div_lt_upper_bound n 100 100).
  pose proof (Z.mod_pos_bound n 100). apply text_ok_app. split; apply text_ok_two; (lia || by left).
Qed.
Lemma text_ok_dig n : 0 <= n < 10 -> text_ok [dig n].
Proof. intros Hn. unfold dig. repeat constructor; change (2 ^ (8 - 1)) with 128; lia. Qed.

(** ** Bounds of a broken-down time *)
Lemma month_day_bound month leap count : month_get_day_count month leap = Ok count -> count <= 31.
Proof.
  unfold month_get_day_count. destruct (month =? MONTH_FEBRUARY); [destruct leap; intros [= <-]; lia|].
  destruct (existsb _ _); [intros [= <-]; lia|]. destruct (existsb _ _); [intros [= <-]; lia|done].
Qed.
Lemma leap_days y : year_get_day_count y = if year_is_leap_year y then 366 else 365.
Proof. unfold year_get_day_count. by destruct (year_is_leap_year y). Qed.

Lemma december_of y e t : is_day y e t -> 0 <= e < 366 ->
  in_december (tm_mon t + 1) (tm_mday t) e (year_is_leap_year y).
Proof.
  intros [_ _ Hm (count & Hc & Hd) Hday] He. set (leap := year_is_leap_year y) in *. clearbody leap.
  revert Hc Hday. unfold in_december, day_of_month_to_day_of_year.
  assert (exists k, tm_mon t + 1 = k /\ 1 <= k <= 12) as (k & -> & Hk) by (eexists; split; [done|lia]).
  assert (k = 1 \/ k = 2 \/ k = 3 \/ k = 4 \/ k = 5 \/ k = 6 \/ k = 7 \/ k = 8 \/ k = 9 \/ k = 10 \/ k = 11 \/ k = 12)
    as Hcases by lia.
  repeat destruct Hcases as [->|Hcases]; try subst k; destruct leap; cbn [andb]; intros [= <-].
  all: match goal with |- context [nth_entry days_preceding (?k - 1)] =>
    let v := eval vm_compute in (nth_entry days_preceding (k - 1)) in change (nth_entry days_preceding (k - 1)) with v;
    let b := eval vm_compute in (month_is_valid k) in change (month_is_valid k) with b;
    let b := eval vm_compute in (k >? MONTH_FEBRUARY) in change (k >? MONTH_FEBRUARY) with b end.
  all: cbn [c_assert]; rewrite !outcome_bind_ok, wrap_small by (unfold_ints; lia); intros [= Heq]; lia.
Qed.

(** ** Conversions with a text of their own *)
Definition shows (t : tm) (c : ascii) (o : modifier) (text : list Z) : Prop :=
  parts_of (chr c) = None /\ own_text t {| spec := chr c; mods := mods_of o |} = Some (Ok text) /\ text_ok text.
Lemma shows_by m t c o text : own_text t {| spec := chr c; mods := mods_of o |} = Some m -> m = Ok text ->
  parts_of (chr c) = None -> text_ok text -> shows t c o text.
Proof. by intros E ->. Qed.

Section date.
Context {y : Z} {t : tm} (Ht : tm_ok y t).

Lemma date_bounds : 1 <= tm_mday t <= 31 /\ 0 <= tm_yday t < 366 /\ tm_year t = y - 1900 /\ 0 <= tm_mon t < 12 /\
  0 <= tm_wday t <= 6 /\ 0 <= tm_hour t < 24 /\ 0 <= tm_min t < 60 /\ 0 <= tm_sec t <= 60 /\ 1900 <= y < 9999.
Proof.
  destruct Ht as [[Ey _ Hm (count & Hc & Hd) _] H1 H2 H3 H4 H5 H6]. apply month_day_bound in Hc.
  pose proof (day_count_bounds y). split_and!; (done || lia).
Qed.
Lemma year_ok : tm_year_to_year (tm_year t) = Ok y.
Proof.
  destruct date_bounds as (_ & _ & -> & _ & _ & _ & _ & _ & Hy).
  unfold tm_year_to_year, check_add_assert, check_add. rewrite (wrap_small 64 (y - 1900)) by (unfold_ints; lia).
  rewrite (proj2 (Z.ltb_lt (y - 1900 + 1900) _)) by lia. cbn [c_assert]. rewrite !outcome_bind_ok.
  rewrite wrap_small by (unfold_ints; lia). f_equal. lia.
Qed.
Lemma hour_12_ok : hour_24_to_12hour (u8 (tm_hour t)) = hour_12 (tm_hour t) /\ 1 <= hour_12 (tm_hour t) <= 12.
Proof.
  destruct date_bounds as (_ & _ & _ & _ & _ & Hh & _). rewrite wrap_small by (unfold_ints; lia).
  unfold hour_24_to_12hour, hour_12. pose proof (Z.mod_pos_bound (tm_hour t) 12).
  by destruct (Z.eqb_spec (tm_hour t `mod` 12) 0); cbn [negb]; (split; [done|lia]).
Qed.
End date.

(** The two ISO weeks that are right: of this year, or the first of the next. *)
Lemma iso_week_this y t : 0 <= thursday (tm_wday t) (tm_yday t) ->
  iso_week y (tm_wday t) (tm_yday t) =
    if thursday (tm_wday t) (tm_yday t) >=? year_get_day_count y
    then (y + 1, (thursday (tm_wday t) (tm_yday t) - year_get_day_count y) / 7 + 1)
    else (y, thursday (tm_wday t) (tm_yday t) / 7 + 1).
Proof. intros Hth. unfold iso_week. by rewrite (proj2 (Z.ltb_ge _ 0)) by lia. Qed.

Section weeks.
Context {y : Z} {t : tm} (Ht : tm_ok y t).
Context (Hwe : tm_wday t <= tm_yday t) (Hth : 0 <= thursday (tm_wday t) (tm_yday t)).

Lemma week_of_ok : exists w, week_of t (tm_mon t + 1) y = Ok w /\ w = snd (iso_week y (tm_wday t) (tm_yday t)) /\
  1 <= w <= 53 /\
  fst (iso_week y (tm_wday t) (tm_yday t)) =
    (if (tm_mon t + 1 =? 12) && (w =? 1) then y + 1 else if (tm_mon t + 1 =? 1) && (w >=? 52) then y - 1 else y).
Proof.
  destruct (date_bounds Ht) as (Hd & He & Ey & Hm & Hw & _). pose proof (to_yday _ _ Ht) as Hy.
  pose proof (december_of y (tm_yday t) t (to_day _ _ Ht) ltac:(lia)) as Hdec.
  unfold week_of. rewrite (wrap_small 8), (wrap_small 16) by (unfold_ints; lia).
  rewrite (iso_8601_spec _ _ _ _ _ _ (year_is_leap_year y)) by (done || lia).
  rewrite iso_week_this by done. rewrite <- leap_days. rewrite leap_days in *.
  set (th := thursday (tm_wday t) (tm_yday t)) in *.
  assert (tm_yday t - 3 <= th <= tm_yday t + 3) as Hb.
  { unfold th, thursday. pose proof (Z.mod_pos_bound (tm_wday t + 6) 7). lia. }
  clearbody th. destruct Hdec as [H12 Hn12]. rewrite !Z.geb_leb.
  eexists. split; [done|].
  assert (tm_mon t + 1 = 1 -> tm_yday t < 31) as Hjan.
  { intros E. pose proof (id_day _ _ _ (to_day _ _ Ht)) as H. rewrite E in H. revert H.
    unfold day_of_month_to_day_of_year. change (month_is_valid 1) with true. change (1 >? MONTH_FEBRUARY) with false.
    rewrite andb_false_r. change (nth_entry days_preceding (1 - 1)) with (Ok 0). cbn [c_assert].
    rewrite !outcome_bind_ok, wrap_small by (unfold_ints; lia). intros [= ?]. lia. }
  destruct (Z.leb_spec (if year_is_leap_year y then 366 else 365) th); cbn [fst snd].
  - split; [|split; [lia|]].
    + destruct (year_is_leap_year y); Z.to_euclidean_division_equations; lia.
    + rewrite (proj2 (Z.eqb_eq (tm_mon t + 1) 12)); [done|].
      destruct (decide (tm_mon t + 1 = 12)); [done|]. specialize (Hn12 ltac:(done)). destruct (year_is_leap_year y); lia.
  - assert (th / 7 <= 52) as Hq by (destruct (year_is_leap_year y); Z.to_euclidean_division_equations; lia).
    assert (0 <= th / 7) by (apply Z.div_pos; lia). split; [done|]. split; [lia|].
    destruct (Z.eqb_spec (tm_mon t + 1) 12) as [E|E]; cbn [andb].
    + rewrite (proj2 (Z.eqb_neq (th / 7 + 1) 1)).
      * by rewrite (proj2 (Z.eqb_neq (tm_mon t + 1) 1)) by lia.
      * specialize (H12 E). destruct (year_is_leap_year y); Z.to_euclidean_division_equations; lia.
    + destruct (Z.eqb_spec (tm_mon t + 1) 1) as [E1|E1]; [|done]. cbn [andb].
      rewrite Z.geb_leb, (proj2 (Z.leb_gt 52 (th / 7 + 1))); [done|]. specialize (Hjan E1).
      Z.to_euclidean_division_equations. lia.
Qed.
Lemma week_based_year_ok : week_based_year t = Ok (fst (iso_week y (tm_wday t) (tm_yday t))) /\
  y - 1 <= fst (iso_week y (tm_wday t) (tm_yday t)) <= y + 1.
Proof.
  destruct (date_bounds Ht) as (_ & _ & _ & _ & _ & _ & _ & _ & Hy).
  destruct week_of_ok as (w & Ew & _ & _ & Ef). unfold week_based_year, tm_mon_to_month.
  rewrite (year_ok Ht), outcome_bind_ok, Ew, outcome_bind_ok, Ef.
  change MONTH_DECEMBER with 12. change MONTH_JANUARY with 1.
  rewrite (wrap_small 64 (y + 1)), (wrap_small 64 (y - 1)) by (unfold_ints; lia).
  split; [done|]. destruct (_ && _); [lia|]. destruct (_ && _); lia.
Qed.
End weeks.

Ltac in_letters H := repeat (apply elem_of_cons in H as [->|H]); [..|by apply elem_of_nil in H].
Ltac shows_by := eapply shows_by; [reflexivity| |reflexivity|].

Section date.
Context {y : Z} {t : tm} (Ht : tm_ok y t) (o : modifier).

Lemma two_shows c n n' : own_text t {| spec := chr c; mods := mods_of o |} = Some (padded_number (mods_of o) (chr "0") 2 n') ->
  n' = n -> parts_of (chr c) = None -> 0 <= n < 100 -> shows t c o (two 48 n).
Proof.
  intros E -> Hp Hn. apply (shows_by _ _ _ _ _ E); [by apply padded_two|done|]. apply text_ok_two; [by left|done].
Qed.
Lemma blank_shows c n n' : own_text t {| spec := chr c; mods := mods_of o |} = Some (padded_number (mods_of o) (chr " ") 2 n') ->
  n' = n -> parts_of (chr c) = None -> 0 <= n < 100 -> shows t c o (two (blank o) n).
Proof.
  intros E -> Hp Hn. apply (shows_by _ _ _ _ _ E); [by apply padded_blank|done|].
  apply text_ok_two; [destruct o; auto|done].
Qed.
Lemma year_shows c f text : own_text t {| spec := chr c; mods := mods_of o |} = Some (year ← tm_year_to_year (tm_year t); f year) ->
  f y = Ok text -> parts_of (chr c) = None -> text_ok text -> shows t c o text.
Proof. intros E Hf. apply (shows_by _ _ _ _ _ E). by rewrite (year_ok Ht), outcome_bind_ok. Qed.

(** The conversions that are always right. *)
Lemma letters_show c : c ∈ String.list_ascii_of_string "aAbhBCdeHIjklmMnpStuwyY%" -> shows t c o (single o y t c).
Proof.
  destruct (date_bounds Ht) as (Hd & He & Ey & Hm & Hw & Hh & Hmin & Hs & Hy).
  destruct (hour_12_ok Ht) as [H12 H12b].
  destruct (weekday_name_abbrev_ok o t Hw) as [Hwa HwA]. destruct (month_name_ok o t Hm) as [Hma HmA].
  assert (10 <= y / 100 < 100) by (Z.to_euclidean_division_equations; lia).
  pose proof (Z.mod_pos_bound y 100 ltac:(lia)).
  intros Hc. cbn [String.list_ascii_of_string] in Hc. in_letters Hc; cbn [single].
  - shows_by; [exact Hwa|apply names_ok; auto].
  - shows_by; [exact HwA|apply names_ok; auto].
  - shows_by; [exact Hma|apply names_ok; auto].
  - shows_by; [exact Hma|apply names_ok; auto].
  - shows_by; [exact HmA|apply names_ok; auto].
  - eapply year_shows; [reflexivity|by apply number_two|reflexivity|apply text_ok_two; auto; lia].
  - eapply two_shows; [reflexivity|apply wrap_small; unfold_ints; lia|reflexivity|lia].
  - eapply blank_shows; [reflexivity|apply wrap_small; unfold_ints; lia|reflexivity|lia].
  - eapply two_shows; [reflexivity|apply wrap_small; unfold_ints; lia|reflexivity|lia].
  - eapply two_shows; [reflexivity|exact H12|reflexivity|lia].
  - shows_by; [rewrite wrap_small by (unfold_ints; lia); apply padded_three; lia|apply text_ok_three; lia].
  - eapply blank_shows; [reflexivity|apply wrap_small; unfold_ints; lia|reflexivity|lia].
  - eapply blank_shows; [reflexivity|exact H12|reflexivity|lia].
  - eapply two_shows; [reflexivity|apply wrap_small; unfold tm_mon_to_month; unfold_ints; lia|reflexivity|lia].
  - eapply two_shows; [reflexivity|apply wrap_small; unfold_ints; lia|reflexivity|lia].
  - shows_by; [reflexivity|by apply chars_ok].
  - assert (hour_24_is_pm (u8 (tm_hour t)) = negb (tm_hour t <? 12)) as E.
    { rewrite wrap_small by (unfold_ints; lia). unfold hour_24_is_pm. rewrite Z.geb_leb, Z.leb_antisym. done. }
    shows_by; [rewrite E; by destruct (tm_hour t <? 12)|]. destruct (tm_hour t <? 12); by apply chars_ok.
  - eapply two_shows; [reflexivity|apply wrap_small; unfold_ints; lia|reflexivity|lia].
  - shows_by; [reflexivity|by apply chars_ok].
  - assert (weekday_to_decimal_monday_one (tm_wday t) = if tm_wday t =? 0 then 7 else tm_wday t) as E.
    { unfold weekday_to_decimal_monday_one, WEEKDAY_SUNDAY. destruct (Z.eqb_spec (tm_wday t) 0); [done|].
      apply wrap_small. unfold_ints. lia. }
    shows_by; [rewrite E; apply padded_one|apply text_ok_dig]; destruct (tm_wday t =? 0); lia.
  - shows_by; [rewrite wrap_small by (unfold_ints; lia); apply padded_one; lia|apply text_ok_dig; lia].
  - eapply year_shows; [reflexivity|by apply padded_two|reflexivity|apply text_ok_two; auto].
  - eapply year_shows; [reflexivity|apply number_four; lia|reflexivity|apply text_ok_four; lia].
  - shows_by; [reflexivity|by apply chars_ok].
Qed.

Lemma week_letters_show c : c ∈ String.list_ascii_of_string "UW" -> tm_wday t <= tm_yday t ->
  shows t c o (single o y t c).
Proof.
  destruct (date_bounds Ht) as (Hd & He & Ey & Hm & Hw & Hh & Hmin & Hs & Hy).
  intros Hc Hwe. cbn [String.list_ascii_of_string] in Hc. in_letters Hc; cbn [single].
  - eapply two_shows; [reflexivity|rewrite wrap_small by (unfold_ints; lia); by apply week_count_sunday|reflexivity|].
    Z.to_euclidean_division_equations. lia.
  - eapply two_shows; [reflexivity|rewrite wrap_small by (unfold_ints; lia); by apply week_count_monday|reflexivity|].
    unfold weeks_from_monday. Z.to_euclidean_division_equations. lia.
Qed.

Lemma iso_letters_show c : c ∈ String.list_ascii_of_string "gGV" -> tm_wday t <= tm_yday t ->
  0 <= thursday (tm_wday t) (tm_yday t) -> shows t c o (single o y t c).
Proof.
  destruct (date_bounds Ht) as (Hd & He & Ey & Hm & Hw & Hh & Hmin & Hs & Hy).
  intros Hc Hwe Hth. destruct (week_of_ok Ht Hwe Hth) as (w & Ew & -> & Hw53 & _).
  destruct (week_based_year_ok Ht Hwe Hth) as [Eyear Hyear].
  pose proof (Z.mod_pos_bound (fst (iso_week y (tm_wday t) (tm_yday t))) 100 ltac:(lia)).
  cbn [String.list_ascii_of_string] in Hc. in_letters Hc; cbn [single].
  - shows_by; [rewrite Eyear, outcome_bind_ok; apply padded_two; done|apply text_ok_two; auto].
  - shows_by; [rewrite Eyear, outcome_bind_ok; apply number_four; lia|apply text_ok_four; lia].
  - shows_by; [rewrite (year_ok Ht), outcome_bind_ok; unfold tm_mon_to_month; rewrite Ew, outcome_bind_ok;
      apply padded_two; lia|apply text_ok_two; auto; lia].
Qed.
End date.
