(* ===== verification/StrftimeThms.v ===== *)
(** * What the formatting of dates guarantees

    Properties of Strftime.v: for every format of conversions that are
    [conversion_ok] the callback receives, piece by piece, the text that the
    standard describes ([meaning]); strings and buffers are such callbacks; and
    where the code differs. *)
From Stdlib Require Import Ascii.
From S2P Require Import Prelude CArith Convert Buffer BufferInv Format FormatInv FormatConv FormatThms Time TimeThms Strftime StrftimeInv.

(** What a callback of parse_strftime promises. *)
Class TextSink {S : Type}
    (sv_cb : option strftime_spec_info -> string_view -> bool -> S -> outcome (Z * bool * S)) := {
  ready : S -> Prop;
  received : S -> list Z;
  left_over : S -> Z;
  sink_receives info sv s : ready s -> text_ok sv -> Z.of_nat (length sv) <= left_over s ->
    exists n s', sv_cb info sv true s = Ok (n, true, s') /\ ready s' /\
      received s' = received s ++ sv /\ left_over s' = left_over s - Z.of_nat (length sv);
}.

Section sink.
Context {S : Type}.
Context {sv_cb : option strftime_spec_info -> string_view -> bool -> S -> outcome (Z * bool * S)}.
Context {text_sink : TextSink sv_cb}.

(** A step that sends [text] and goes on. *)
Definition going (p : progress S) : Prop := should_cont p = true /\ ready (sink p).
Definition sent (p p' : progress S) (text : list Z) : Prop :=
  going p' /\ received (sink p') = received (sink p) ++ text /\
  left_over (sink p') = left_over (sink p) - Z.of_nat (length text).
Definition sends (step : progress S -> outcome (progress S)) (text : list Z) : Prop :=
  forall p, going p -> Z.of_nat (length text) <= left_over (sink p) ->
  exists p', step p = Ok p' /\ sent p p' text.

Lemma sent_nil p : going p -> sent p p [].
Proof. intros H. split_and!; [done|by rewrite app_nil_r|simpl; lia]. Qed.
Lemma sent_app p1 p2 p3 t u : sent p1 p2 t -> sent p2 p3 u -> sent p1 p3 (t ++ u).
Proof.
  intros (_ & R1 & L1) (G & R2 & L2). split_and!; [done|by rewrite R2, R1, app_assoc|].
  rewrite length_app. lia.
Qed.

Lemma call_sends info sv : text_ok sv -> sends (CALL_CALLBACK sv_cb info sv) sv.
Proof.
  intros Hc p [Hcont Hr] Hlen. destruct (sink_receives info sv _ Hr Hc Hlen) as (n & s' & E & H1 & H2 & H3).
  unfold CALL_CALLBACK. rewrite Hcont, E, outcome_bind_ok. eexists. split; [done|]. by split_and!.
Qed.

Lemma in_turn_sends steps texts : Forall2 sends steps texts -> sends (in_turn steps) (concat texts).
Proof.
  induction 1 as [|step text steps texts Hs Hall IH]; intros p Hp Hlen.
  - exists p. split; [done|]. by apply sent_nil.
  - cbn [concat] in Hlen. rewrite length_app in Hlen. cbn [in_turn].
    destruct (Hs p Hp) as (p1 & -> & H1); [lia|]. rewrite outcome_bind_ok.
    pose proof H1 as ([Hc Hr] & _ & Hl). rewrite Hc. cbn [negb].
    destruct (IH p1 (conj Hc Hr)) as (p2 & -> & H2); [lia|]. exists p2. split; [done|]. by apply (sent_app p p1).
Qed.

Section date.
Context {y : Z} {t : tm} (Ht : tm_ok y t).

(** A conversion sends its text, given the depth for its recursive calls. *)
Definition converts (fuel : nat) (o : modifier) (c : ascii) (text : list Z) : Prop :=
  forall p, going p -> Z.of_nat (length text) <= left_over (sink p) ->
  exists p', handle_strftime_spec sv_cb t fuel {| spec := chr c; mods := mods_of o |} p = Ok (true, p') /\
    sent p p' text.

Lemma shows_converts fuel o c text : shows t c o text -> converts (Datatypes.S fuel) o c text.
Proof.
  intros (Hp & Ho & Ht') p Hg Hlen. cbn [handle_strftime_spec]. change (spec _) with (chr c).
  rewrite Hp, Ho, outcome_bind_ok.
  destruct (call_sends (Some {| spec := chr c; mods := mods_of o |}) text Ht' p Hg Hlen) as (p' & -> & H).
  exists p'. by split.
Qed.
Lemma parts_convert fuel o c parts texts : parts_of (chr c) = Some parts ->
  Forall2 (fun x text => sends (do_part sv_cb t (handle_strftime_spec sv_cb t fuel) {| spec := chr c; mods := mods_of o |} x) text)
    parts texts ->
  converts (Datatypes.S fuel) o c (concat texts).
Proof.
  intros Hp Hall p Hg Hlen. cbn [handle_strftime_spec]. change (spec _) with (chr c). rewrite Hp.
  edestruct (in_turn_sends (map (do_part sv_cb t (handle_strftime_spec sv_cb t fuel) {| spec := chr c; mods := mods_of o |}) parts) texts)
    as (p' & -> & H); [|done..|].
  { by apply Forall2_fmap_l. }
  exists p'. by split.
Qed.
Lemma recursive_sends fuel o c d text : converts fuel o d text ->
  sends (do_part sv_cb t (handle_strftime_spec sv_cb t fuel) {| spec := chr c; mods := mods_of o |}
    (RECURSIVE_CALL_FOR_SPEC d)) text.
Proof.
  intros Hd p Hg Hlen. destruct (Hd p Hg Hlen) as (p' & E & H). cbn [do_part mods]. rewrite E, outcome_bind_ok.
  exists p'. by split.
Qed.
Lemma static_sends fuel o c text : chars (char_codes text) = true ->
  sends (do_part sv_cb t (handle_strftime_spec sv_cb t fuel) {| spec := chr c; mods := mods_of o |}
    (SV_STATIC text)) (char_codes text).
Proof. intros H. apply call_sends. by apply chars_ok. Qed.

Lemma letter_converts fuel o c : c ∈ String.list_ascii_of_string "aAbhBCdeHIjklmMnpStuwyY%" ->
  converts (Datatypes.S fuel) o c (single o y t c).
Proof. intros H. apply shows_converts. by apply (letters_show Ht). Qed.

(** The conversions that stand for others; [solve_parts] goes through the calls. *)
Ltac solve_parts :=
  repeat (constructor; [first [by apply static_sends | by apply recursive_sends, letter_converts; set_solver]|]); constructor.
Lemma clock_converts fuel o c : c ∈ String.list_ascii_of_string "DxFrRTX" ->
  converts (Datatypes.S (Datatypes.S fuel)) o c (meaning o y t c).
Proof.
  intros Hc. cbn [String.list_ascii_of_string] in Hc. in_letters Hc.
  - apply (parts_convert _ o "D"%char _ [single o y t "m"%char; char_codes "/"; single o y t "d"%char; char_codes "/"; single o y t "y"%char] eq_refl).
    solve_parts.
  - apply (parts_convert _ o "x"%char _ [single o y t "m"%char; char_codes "/"; single o y t "d"%char; char_codes "/"; single o y t "y"%char] eq_refl).
    solve_parts.
  - apply (parts_convert _ o "F"%char _ [single o y t "Y"%char; char_codes "-"; single o y t "m"%char; char_codes "-"; single o y t "d"%char] eq_refl).
    solve_parts.
  - apply (parts_convert _ o "r"%char _ [single o y t "I"%char; char_codes ":"; single o y t "M"%char; char_codes ":"; single o y t "S"%char; char_codes " "; single o y t "p"%char] eq_refl).
    solve_parts.
  - apply (parts_convert _ o "R"%char _ [single o y t "H"%char; char_codes ":"; single o y t "M"%char] eq_refl). solve_parts.
  - apply (parts_convert _ o "T"%char _ [single o y t "H"%char; char_codes ":"; single o y t "M"%char; char_codes ":"; single o y t "S"%char] eq_refl).
    solve_parts.
  - apply (parts_convert _ o "X"%char _ [single o y t "H"%char; char_codes ":"; single o y t "M"%char; char_codes ":"; single o y t "S"%char] eq_refl).
    solve_parts.
Qed.

Lemma date_and_time_converts fuel o : 10 <= tm_mday t ->
  converts (Datatypes.S (Datatypes.S (Datatypes.S fuel))) o "c"%char (meaning o y t "c"%char).
Proof.
  intros Hd.
  assert (meaning o y t "c"%char = concat [single o y t "a"%char; char_codes " "; single o y t "b"%char; char_codes " ";
    single o y t "d"%char; char_codes " "; meaning o y t "T"%char; char_codes " "; single o y t "Y"%char]) as ->.
  { assert (single o y t "d"%char = single o y t "e"%char) as ->.
    { cbn [single]. unfold two. by rewrite (proj2 (Z.ltb_ge _ 10)). }
    unfold meaning. cbn [expansion String.list_ascii_of_string fill concat].
    repeat (rewrite <- ?app_assoc; cbn [app]). done. }
  eapply parts_convert; [reflexivity|].
  repeat (constructor; [first [by apply static_sends | apply recursive_sends; first [by apply clock_converts; set_solver | by apply letter_converts; set_solver]]|]).
  constructor.
Qed.

Lemma conversion_converts fuel o c : conversion_ok t c ->
  converts (Datatypes.S (Datatypes.S (Datatypes.S fuel))) o c (meaning o y t c).
Proof.
  intros [Hc|[[Hc Hwe]|[(Hc & Hwe & Hth)|[-> Hd]]]].
  - assert (c ∈ String.list_ascii_of_string "aAbhBCdeHIjklmMnpStuwyY%" \/ c ∈ String.list_ascii_of_string "DxFrRTX") as [H|H].
    { apply elem_of_app. exact Hc. }
    + assert (meaning o y t c = single o y t c) as ->; [|by apply letter_converts].
      clear Hc. cbn [String.list_ascii_of_string] in H. by in_letters H.
    + by apply clock_converts.
  - assert (meaning o y t c = single o y t c) as ->; [|by apply shows_converts, (week_letters_show Ht)].
    cbn [String.list_ascii_of_string] in Hc. by in_letters Hc.
  - assert (meaning o y t c = single o y t c) as ->; [|by apply shows_converts, (iso_letters_show Ht)].
    cbn [String.list_ascii_of_string] in Hc. by in_letters Hc.
  - by apply date_and_time_converts.
Qed.

(** ** The loop over the format *)

(** A piece of text, and a conversion behind it. *)
Record item := { text : list Z; modified : modifier; letter : ascii }.
Definition item_format (i : item) : list Z := text i ++ chr "%" :: show_modifier (modified i) ++ [chr (letter i)].
Definition item_meaning (i : item) : list Z := text i ++ meaning (modified i) y t (letter i).
Definition date_item_ok (i : item) : Prop := plain (text i) /\ conversion_ok t (letter i).
Definition date_format (items : list item) (last : list Z) : list Z := concat (map item_format items) ++ last.
Definition date_text (items : list item) (last : list Z) : list Z := concat (map item_meaning items) ++ last.

(** No letter of a conversion is a modifier or the end of the string. *)
Lemma letter_parsed o c rest : conversion_ok t c ->
  parse_strftime_mods (show_modifier o ++ chr c :: rest) = Ok (mods_of o, chr c :: rest).
Proof.
  intros Hc. assert (c ∈ String.list_ascii_of_string "aAbhBCdeHIjklmMnpStuwyY%DxFrRTXUWgGVc") as H.
  { destruct Hc as [Hc|[[Hc _]|[[Hc _]|[-> _]]]]; [..|set_solver];
      cbn [letters String.list_ascii_of_string] in Hc |- *; set_solver. }
  clear Hc. cbn [String.list_ascii_of_string] in H. destruct o; by in_letters H.
Qed.

Lemma piece_sent sv p : plain sv -> going p -> Z.of_nat (length sv) <= left_over (sink p) ->
  exists p', match sv with [] => Ok p | _ => CALL_CALLBACK sv_cb None sv p end = Ok p' /\ sent p p' sv.
Proof.
  intros Hsv Hg Hl. destruct sv as [|x sv]; [exists p; split; [done|by apply sent_nil]|].
  by apply call_sends; [apply plain_text_ok|..].
Qed.

Lemma strftime_loop_spec last mem : plain last -> forall items p fuel,
  Forall date_item_ok items -> going p -> Z.of_nat (length (date_text items last)) <= left_over (sink p) ->
  (length items < fuel)%nat ->
  exists p', strftime_loop sv_cb t fuel (date_format items last ++ 0 :: mem) (date_format items last ++ 0 :: mem) p = Ok p' /\
    sent p p' (date_text items last).
Proof.
  intros Hlast. induction items as [|i items IH]; intros p fuel Hall Hg Hl Hf; (destruct fuel as [|fuel]; [simpl in Hf; lia|]).
  - cbn [strftime_loop]. change (date_format [] last) with last. change (date_text [] last) with last in *.
    change (chr "%") with 37. rewrite str_chr_none, outcome_bind_ok by done. unfold strftime_rest, cstr_char.
    destruct last as [|x last].
    + exists p. split; [done|]. by apply sent_nil.
    + cbn [app head deref]. rewrite outcome_bind_ok. pose proof Hlast as [(_ & Hx & _) _]%Forall_cons.
      rewrite (proj2 (Z.eqb_neq x 0) Hx). cbn [negb]. change (x :: last ++ 0 :: mem) with ((x :: last) ++ 0 :: mem).
      rewrite str_len_spec, outcome_bind_ok, Nat2Z.id, take_app_length
        by (apply (Forall_impl _ _ _ Hlast); naive_solver).
      by apply call_sends; [apply plain_text_ok|..].
  - apply Forall_cons in Hall as [[Htext Hconv] Hall].
    assert (forall r, date_format (i :: items) last ++ r =
      text i ++ 37 :: show_modifier (modified i) ++ chr (letter i) :: date_format items last ++ r) as Efmt.
    { intros r. unfold date_format. cbn [map concat]. unfold item_format at 1.
      repeat (rewrite <- ?app_assoc; cbn [app]). done. }
    assert (date_text (i :: items) last =
      text i ++ meaning (modified i) y t (letter i) ++ date_text items last) as Etext.
    { unfold date_text. cbn [map concat]. unfold item_meaning at 1. by rewrite <- !app_assoc. }
    rewrite Etext, !length_app in Hl. cbn [strftime_loop]. rewrite Efmt. change (chr "%") with 37.
    rewrite str_chr_percent, outcome_bind_ok, text_between_app, outcome_bind_ok by done.
    destruct (piece_sent (text i) p Htext Hg) as (p1 & -> & H1); [lia|].
    rewrite outcome_bind_ok. pose proof H1 as ([Hc1 Hr1] & _ & Hl1). rewrite Hc1. cbn [negb].
    cbn [cstr_next]. rewrite outcome_bind_ok, letter_parsed, outcome_bind_ok by done.
    change (cstr_char (chr (letter i) :: ?r)) with (Ok (chr (letter i))). rewrite outcome_bind_ok.
    destruct (conversion_converts 0 (modified i) (letter i) Hconv p1 (conj Hc1 Hr1)) as (p2 & E2 & H2); [lia|].
    unfold spec_depth. rewrite E2, outcome_bind_ok. pose proof H2 as ([Hc2 Hr2] & _ & Hl2). rewrite Hc2. cbn [negb cstr_next].
    rewrite outcome_bind_ok. cbv iota.
    destruct (IH p2 fuel Hall (conj Hc2 Hr2)) as (p3 & E3 & H3); [lia|simpl in Hf; lia|].
    exists p3. split; [exact E3|]. rewrite Etext. apply (sent_app p p1); [done|]. by apply (sent_app p1 p2).
Qed.

Lemma date_format_fuel items last mem : (length items < length (date_format items last ++ 0%Z :: mem))%nat.
Proof.
  unfold date_format. induction items as [|i items IH]; [rewrite length_app; simpl; lia|]. cbn [map concat].
  unfold item_format at 1. repeat (rewrite <- ?app_assoc; cbn [app]).
  repeat (rewrite length_app in IH; cbn [length] in IH). repeat (rewrite length_app; cbn [length]). lia.
Qed.

Lemma parse_strftime_ok items last mem s : Forall date_item_ok items -> plain last -> ready s ->
  Z.of_nat (length (date_text items last)) <= left_over s ->
  exists s', parse_strftime_format sv_cb t (date_format items last ++ 0 :: mem) s = Ok (0, s') /\
    ready s' /\ received s' = received s ++ date_text items last /\
    left_over s' = left_over s - Z.of_nat (length (date_text items last)).
Proof.
  intros Hi Hlast Hs Hl. unfold parse_strftime_format.
  destruct (strftime_loop_spec last mem Hlast items {| written := 0; should_cont := true; sink := s |}
    (length (date_format items last ++ 0 :: mem)) Hi) as (p & -> & [_ Hr] & H2 & H3); [done|done|apply date_format_fuel|].
  rewrite outcome_bind_ok. exists (sink p). by split_and!.
Qed.
End date.
End sink.

(** ** The callbacks of the kernel and of the library *)

(** The text callback of a sink of format.c takes dates as well. *)
Definition text_sink_of {S : Type}
    {char_cb : option printf_spec_info -> Z -> Z -> bool -> S -> outcome (Z * bool * S)}
    {sv_cb : option printf_spec_info -> string_view -> bool -> S -> outcome (Z * bool * S)}
    (sink : Sink char_cb sv_cb) : TextSink (fun _ => sv_cb None).
Proof.
  refine {| ready := sink_ok; received := contents; left_over := room |}.
  intros _ sv s Hs Hsv Hl. destruct (sink_sv None sv s Hs Hsv Hl) as (s' & E & H). by eexists _, s'.
Defined.

#[export] Instance kstrftime_sink {H : Type} {malloc_size : Z -> H -> outcome (option (Z * list Z) * H)}
    {free : Z -> H -> outcome H} {heap : Malloc malloc_size free} others :
    TextSink (kstrftime_sv_callback malloc_size free) := text_sink_of (string_sink others).

Lemma not_full mb : mb_wf mb -> mb_index mb < mb_capacity mb -> mbuffer_full mb = false.
Proof.
  intros [] Hlt. unfold mbuffer_full, mbuffer_used_size, mbuffer_capacity, distance32. apply Z.eqb_neq.
  unfold mb_capacity, wrap in *. change (2 ^ 64) with 18446744073709551616 in *.
  change (2 ^ 32) with 4294967296 in *. change (2 ^ 31) with 2147483648 in *.
  Z.to_euclidean_division_equations. lia.
Qed.
(** Room for the terminator is kept. *)
#[export] Program Instance time_buffer_sink : TextSink time_format_to_string_sv_callback := {
  ready mb := mb_wf mb /\ mb_index mb < mb_capacity mb;
  received mb := map i8 (mb_bytes mb);
  left_over mb := mb_capacity mb - 1 - mb_index mb;
}.
Next Obligation.
  intros info sv mb [W Hlt] Hsv Hl. pose proof W as [].
  destruct (mbuffer_append_data_spec mb (map u8 sv) (Z.of_nat (length sv)) W) as (mb' & E & W' & Hb & Hi & Hc);
    [lia|by rewrite length_map|].
  exists (Z.of_nat (length sv)), mb'. unfold time_format_to_string_sv_callback, mbuffer_append_sv.
  rewrite (wrap_small 32 (Z.of_nat _)), E, outcome_bind_ok by (unfold_ints; lia).
  rewrite Z.eqb_refl, not_full by (done || lia). cbn [negb orb]. split; [done|]. split; [split; [done|lia]|].
  split; [|lia]. rewrite Hb, map_app, Nat2Z.id, take_ge by (by rewrite length_map). by rewrite text_ok_bytes.
Qed.

(** ** A date for the examples: Thursday, 29 February 2024, 14:05:09 *)
Definition ex_date : tm :=
  {| tm_sec := 9; tm_min := 5; tm_hour := 14; tm_mday := 29; tm_mon := 1; tm_year := 124; tm_wday := 4;
     tm_yday := 59; tm_isdst := 0 |}.
Lemma ex_date_ok : tm_ok 2024 ex_date.
Proof.
  constructor; cbn; try lia; [|split; reflexivity || lia].
  constructor; [done|done|cbn; lia|exists 29; split; [done|cbn; lia]|done].
Qed.
Definition ex_date_items : list item :=
  [{| text := []; modified := NoModifier; letter := "c" |};
   {| text := char_codes " is "; modified := Capitals; letter := "A" |};
   {| text := char_codes ", week "; modified := Era; letter := "V" |};
   {| text := char_codes " of "; modified := NoModifier; letter := "G" |};
   {| text := char_codes " at "; modified := Zeros; letter := "l" |};
   {| text := char_codes ":"; modified := NoModifier; letter := "M" |};
   {| text := char_codes " "; modified := NoModifier; letter := "p" |}]%char.
Example ex_date_format : date_format ex_date_items (char_codes ".") =
  char_codes "%c is %^A, week %EV of %G at %0l:%M %p.".
Proof. reflexivity. Qed.
Example ex_date_text : date_text (y := 2024) (t := ex_date) ex_date_items (char_codes ".") =
  char_codes "Thu Feb 29 14:05:09 2024 is THURSDAY, week 09 of 2024 at 02:05 PM.".
Proof. reflexivity. Qed.
Lemma ex_date_items_ok : Forall (date_item_ok (t := ex_date)) ex_date_items.
Proof.
  repeat (apply Forall_cons; split; [split; [repeat constructor; vm_compute; congruence|]|]); [..|by constructor];
    unfold conversion_ok; cbn [letter].
  - right; right; right. split; [done|cbn; lia].
  - left. set_solver.
  - right; right; left. split; [set_solver|]. split; vm_compute; congruence.
  - right; right; left. split; [set_solver|]. split; vm_compute; congruence.
  - left. set_solver.
  - left. set_solver.
  - left. set_solver.
Qed.

(** ** Properties *)

(** C34: kstrftime makes a new string with exactly the text that the C standard
    (with the modifiers [0] and [^] and the conversions [%k] and [%l]) gives to
    the format: for every valid date from 1900 on, every piece of text and
    every conversion that is [conversion_ok] on that date; nothing else in the
    heap is touched. *)
Theorem kstrftime_spec {H : Type}
    (malloc_size : Z -> H -> outcome (option (Z * list Z) * H)) (free : Z -> H -> outcome H)
    (heap : Malloc malloc_size free) others y t items last mem h :
  tm_ok y t -> Forall (date_item_ok (t := t)) items -> plain last -> string_in others STRING_EMPTY h ->
  2 * Z.of_nat (length (date_text (y := y) (t := t) items last)) + 2 <= malloc_limit ->
  exists s h', kstrftime malloc_size free (date_format items last ++ 0 :: mem) t h = Ok (s, h') /\
    string_in others s h' /\ string_to_sv s = Ok (date_text (y := y) (t := t) items last).
Proof.
  intros Ht Hi Hlast Hh Hroom.
  destruct (parse_strftime_ok (text_sink := kstrftime_sink others) Ht items last mem (STRING_EMPTY, h) Hi Hlast Hh)
    as ([s h'] & E & Hok & Hc & _).
  { cbn. unfold string_room. cbn.
    pose proof (Z.div_le_lower_bound (malloc_limit - 2) 2 (Z.of_nat (length (date_text (y := y) (t := t) items last)))). lia. }
  unfold kstrftime. rewrite E, outcome_bind_ok. exists s, h'. split; [done|]. split; [done|].
  rewrite (string_to_sv_spec s h' others) by apply Hok. by f_equal.
Qed.

Lemma kstrftime_spec_witness :
  exists s h', kstrftime ex_malloc ex_free (char_codes "%c is %^A, week %EV of %G at %0l:%M %p." ++ [0]) ex_date tt =
    Ok (s, h') /\ string_in [] s h' /\
    string_to_sv s = Ok (char_codes "Thu Feb 29 14:05:09 2024 is THURSDAY, week 09 of 2024 at 02:05 PM.").
Proof.
  apply (kstrftime_spec ex_malloc ex_free ex_heap [] 2024 ex_date ex_date_items (char_codes ".") [] tt).
  - exact ex_date_ok.
  - exact ex_date_items_ok.
  - repeat constructor; vm_compute; congruence.
  - split; [apply gb_init_in; exact I|discriminate].
  - vm_compute. discriminate.
Defined.

(** time_format_to_string_buffer writes the same text, and the terminator
    behind it, to a buffer with room for both; it always returns 0. *)
Theorem time_format_to_string_buffer_spec y t items last mem base data cap :
  tm_ok y t -> Forall (date_item_ok (t := t)) items -> plain last ->
  0 <= base -> base + cap < 2 ^ 64 -> cap <= 2 ^ 31 -> cap <= Z.of_nat (length data) ->
  Z.of_nat (length (date_text (y := y) (t := t) items last)) < cap ->
  exists data', time_format_to_string_buffer base data cap (date_format items last ++ 0 :: mem) t = Ok (0, data') /\
    map i8 (take (S (length (date_text (y := y) (t := t) items last))) data') =
      date_text (y := y) (t := t) items last ++ [0].
Proof.
  intros Ht Hi Hlast Hb Htop Hcap Hdata Hfit. set (text := date_text items last) in *.
  set (mb0 := {| mb_begin := base; mb_end := base + cap; mb_index := 0; mb_data := data |}).
  assert (mb_wf mb0) as W0 by (constructor; unfold mb_capacity; cbn; lia).
  destruct (parse_strftime_ok (text_sink := time_buffer_sink) Ht items last mem mb0 Hi Hlast)
    as (mb & E & [W Hlt] & Hc & Hl); [split; [done|]; unfold mb_capacity; cbn; lia| |].
  { change (Z.of_nat (length text) <= mb_capacity mb0 - 1 - mb_index mb0). unfold mb_capacity. cbn. lia. }
  change (map i8 (take (Z.to_nat (mb_index mb)) (mb_data mb)) = text) in Hc.
  unfold time_format_to_string_buffer. rewrite (proj2 (Z.eqb_neq cap 0)) by lia.
  unfold mbuffer_open, mbuffer_open_static. rewrite (wrap_small 32) by (unfold_ints; lia).
  rewrite (proj2 (Z.leb_le 0 cap)) by lia. cbn [c_assert]. rewrite outcome_bind_ok.
  unfold check_add_assert, check_add. rewrite (proj2 (Z.ltb_lt (base + 0) _)) by lia. cbn [c_assert].
  rewrite !outcome_bind_ok, (wrap_small 64) by (unfold_ints; lia). fold mb0. rewrite E, outcome_bind_ok.
  assert (mb_index mb = Z.of_nat (length text)) as Hidx.
  { apply (f_equal length) in Hc. rewrite length_map, length_take in Hc. destruct W. lia. }
  pose proof W as []. rewrite write_bytes_ok by (cbn; lia). rewrite outcome_bind_ok. eexists. split; [done|].
  rewrite Hidx, Nat2Z.id in Hc |- *.
  replace (S (length text)) with (length (take (length text) (mb_data mb)) + 1)%nat by (rewrite length_take; lia).
  rewrite take_app_add, map_app, Hc. done.
Qed.

Lemma time_format_to_string_buffer_spec_witness :
  exists data', time_format_to_string_buffer 4096 (repeat 255 80) 80
    (char_codes "%c is %^A, week %EV of %G at %0l:%M %p." ++ [0]) ex_date = Ok (0, data') /\
  map i8 (take 67 data') =
    char_codes "Thu Feb 29 14:05:09 2024 is THURSDAY, week 09 of 2024 at 02:05 PM." ++ [0].
Proof.
  apply (time_format_to_string_buffer_spec 2024 ex_date ex_date_items (char_codes ".") [] 4096 (repeat 255 80) 80).
  - exact ex_date_ok.
  - exact ex_date_items_ok.
  - repeat constructor; vm_compute; congruence.
  - lia.
  - lia.
  - lia.
  - vm_compute. congruence.
  - vm_compute. congruence.
Defined.

(** ** Where the code differs *)

(** A callback that remembers its texts and stops at the [limit]-th. *)
Definition trace_text (limit : nat) (_ : option strftime_spec_info) (sv : string_view) (cont : bool)
    (s : list (list Z)) : outcome (Z * bool * list (list Z)) :=
  Ok (Z.of_nat (length sv), if (length s =? limit)%nat then false else cont, s ++ [sv]).
Definition date_of (fmt : string) (t : tm) : outcome (list Z) :=
  '(_, texts) ← parse_strftime_format (trace_text 100) t (char_codes fmt ++ [0]) []; Ok (concat texts).
Definition on_day (mday mon year wday yday : Z) : tm :=
  {| tm_sec := 9; tm_min := 5; tm_hour := 4; tm_mday := mday; tm_mon := mon; tm_year := year; tm_wday := wday;
     tm_yday := yday; tm_isdst := 0 |}.

(** Formatting a date: [-] pads with spaces and [_] does not pad; [%c] pads the
    day with a zero; [%v] has no second dash and a number for the month; years
    before 1900 fail an assertion; the weeks of the first days of January are
    wrong; a lone [%] at the end reads behind the string; and after a specifier
    has been stopped the text in front of it is sent once more.  The length of
    the text is always given as 0. *)
Theorem strftime_divergences :
  date_of "%-d %_d" (on_day 5 0 124 5 4) = Ok (char_codes " 5 5") /\
  date_of "%c" (on_day 5 0 124 5 4) = Ok (char_codes "Fri Jan 05 04:05:09 2024") /\
  date_of "%v" (on_day 5 0 124 5 4) = Ok (char_codes "05-  12024") /\
  date_of "%Y" (on_day 5 0 (-1) 5 4) = Panic /\
  date_of "%W %V" (on_day 1 0 124 1 0) = Ok (char_codes "37 37") /\
  date_of "100%" (on_day 5 0 124 5 4) = Undef /\
  (parse_strftime_format (trace_text 1) (on_day 5 0 124 5 4) (char_codes "on %d." ++ [0]) [] =
    Ok (0, [char_codes "on "; char_codes "05"; char_codes "on %d."])) /\
  get_length_of_time_format (char_codes "%Y" ++ [0]) (on_day 5 0 124 5 4) = Ok 0.
Proof. vm_compute. repeat split. Qed.

(** A text that fills the buffer exactly gets its terminator behind it, and one
    that does not fit is written behind it. *)
Theorem time_format_to_string_buffer_overruns :
  time_format_to_string_buffer 4096 (repeat 255 8) 4 (char_codes "%Y" ++ [0]) (on_day 5 0 124 5 4) =
    Ok (0, char_codes "2024" ++ [0] ++ repeat 255 3) /\
  time_format_to_string_buffer 4096 (repeat 255 8) 4 (char_codes "%A" ++ [0]) (on_day 5 0 124 5 4) =
    Ok (0, char_codes "Friday" ++ [0; 255]) /\
  time_format_to_string_buffer 4096 (repeat 255 8) 4 (char_codes "%A" ++ [0]) (on_day 3 0 124 3 2) = Undef.
Proof. vm_compute. repeat split. Qed.
