(* ===== verification/Pci.v ===== *)
(** * PCI: kernel/dev/pci/pci.c, device.c and arch/x86_64/dev/pci/access.c

    The machine behind the ports and the mapped memory, the heap and the
    mapping of device memory are parameters; [W] is the state of the machine,
    [H] that of the heap and the mappings.  Printing is left out.  A
    [struct pci_device_info] is a value while [parse_function] fills it in, and
    an entry of a store, named by its address, from then on; the lists of
    devices hold these addresses, the first one first. *)
From S2P Require Import Prelude CArith Range PageAlloc Buffer Bitmap PgMap Vm.

(** ** dev/pci/structs.h *)
Definition PCI_MAX_BUS_COUNT : Z := 255.
Definition PCI_MAX_DEVICE_COUNT : Z := 32.
Definition PCI_MAX_FUNCTION_COUNT : Z := 8.
Definition PCI_BAR_COUNT_FOR_GENERAL : Z := 6.
Definition PCI_BAR_COUNT_FOR_BRIDGE : Z := 2.
Definition PCI_READ_FAIL : Z := UINT32_MAX.

Definition PCI_SPEC_DEVHDR_KIND_GENERAL : Z := 0.
Definition PCI_SPEC_DEVHDR_KIND_PCI_BRIDGE : Z := 1.
Definition PCI_SPEC_DEVHDR_KIND_CARDBUS_BRIDGE : Z := 2.
Definition __PCI_DEVHDR_MULTFUNC : Z := Z.shiftl 1 7.
Definition __PCI_DEVCMDREG_IOSPACE : Z := Z.shiftl 1 0.
Definition __PCI_DEVCMDREG_MEMSPACE : Z := Z.shiftl 1 1.
Definition __PCI_DEVSTATUS_CAPABILITIES : Z := Z.shiftl 1 4.
Definition PCI_DEVBAR_MEMSPACE_32B : Z := 0.
Definition PCI_DEVBAR_MEMSPACE_64B : Z := 2.
Definition __PCI_DEVBAR_MEMKIND_SHIFT : Z := 1.
Definition __PCI_DEVBAR_IO : Z := Z.shiftl 1 0.
Definition __PCI_DEVBAR_MEMKIND_MASK : Z := Z.shiftl 3 __PCI_DEVBAR_MEMKIND_SHIFT.
Definition __PCI_DEVBAR_PREFETCHABLE : Z := Z.shiftl 1 3.
Definition PCI_BAR_32B_ADDR_SIZE_MASK : Z := 0xfffffff0.
Definition PCI_BAR_PORT_ADDR_SIZE_MASK : Z := 0xfffffffc.

(** Fields of the packed structures: their offset and their size. *)
Record field := { offsetof : Z; sizeof_field : Z }.
Definition base_vendor_id : field := {| offsetof := 0; sizeof_field := 2 |}.
Definition base_device_id : field := {| offsetof := 2; sizeof_field := 2 |}.
Definition base_command : field := {| offsetof := 4; sizeof_field := 2 |}.
Definition base_status : field := {| offsetof := 6; sizeof_field := 2 |}.
Definition base_revision_id : field := {| offsetof := 8; sizeof_field := 1 |}.
Definition base_prog_if : field := {| offsetof := 9; sizeof_field := 1 |}.
Definition base_subclass : field := {| offsetof := 10; sizeof_field := 1 |}.
Definition base_class_code : field := {| offsetof := 11; sizeof_field := 1 |}.
Definition base_header_kind : field := {| offsetof := 14; sizeof_field := 1 |}.
Definition offsetof_bar_list : Z := 0x10.
Definition info_capabilities_offset : field := {| offsetof := 0x34; sizeof_field := 1 |}.
Definition info_interrupt_pin : field := {| offsetof := 0x3d; sizeof_field := 1 |}.
Definition info_data : field := {| offsetof := 0x40; sizeof_field := 4032 |}.
Definition sizeof_pci_spec_device_info : Z := 4096.
Definition bridge_secondary_bus_number : field := {| offsetof := 0x19; sizeof_field := 1 |}.

Definition sizeof_pci_spec_capability : Z := 2.
Definition cap_id : field := {| offsetof := 0; sizeof_field := 1 |}.
Definition cap_offset_to_next : field := {| offsetof := 1; sizeof_field := 1 |}.
Definition PCI_SPEC_CAP_ID_MSI : Z := 5.
Definition PCI_SPEC_CAP_ID_VENDOR_SPECIFIC : Z := 9.
Definition PCI_SPEC_CAP_ID_PCI_EXPRESS : Z := 16.
Definition PCI_SPEC_CAP_ID_MSI_X : Z := 17.
Definition __PCI_CAPMSI_CTRL_ENABLE : Z := Z.shiftl 1 0.
Definition __PCI_CAPMSI_CTRL_MULTIMSG_ENABLE : Z := Z.shiftl 7 4.
Definition __PCI_CAPMSI_CTRL_64BIT_CAPABLE : Z := Z.shiftl 1 7.
Definition __PCI_CAPMSI_CTRL_PER_VECTOR_MASK : Z := Z.shiftl 1 8.
Definition __PCI_CAP_MSIX_TABLE_SIZE_MASK : Z := Z.shiftl 1 10 - 1.
Definition __PCI_CAP_MSIX_CTRL_ENABLE : Z := Z.shiftl 1 15.
Definition __PCI_BARSPEC_TABLE_OFFSET_BIR : Z := 7.
Definition msi_msg_control : field := {| offsetof := 2; sizeof_field := 2 |}.
Definition msi_msg_address : field := {| offsetof := 4; sizeof_field := 4 |}.
Definition msi_bits64_msg_data : field := {| offsetof := 12; sizeof_field := 2 |}.
Definition msi_bits64_mask_bits : field := {| offsetof := 14; sizeof_field := 4 |}.
Definition msi_bits32_msg_data : field := {| offsetof := 8; sizeof_field := 2 |}.
Definition msi_bits32_mask_bits : field := {| offsetof := 10; sizeof_field := 4 |}.
Definition msix_msg_control : field := {| offsetof := 2; sizeof_field := 2 |}.
Definition msix_table_offset : field := {| offsetof := 8; sizeof_field := 4 |}.
Definition sizeof_msix_table_entry : Z := 16.

Definition rangeof_field (f : field) : range := RANGE_INIT (offsetof f) (sizeof_field f).

(** ** dev/pci/device.h *)
Record pci_config_space := { domain_segment : Z; bus : Z; device_slot : Z; function : Z }.
Inductive pci_device_msi_support :=
| PCI_DEVICE_MSI_SUPPORT_NONE | PCI_DEVICE_MSI_SUPPORT_MSI | PCI_DEVICE_MSI_SUPPORT_MSIX.
Definition msi_support_eqb (a b : pci_device_msi_support) : bool :=
  match a, b with
  | PCI_DEVICE_MSI_SUPPORT_NONE, PCI_DEVICE_MSI_SUPPORT_NONE
  | PCI_DEVICE_MSI_SUPPORT_MSI, PCI_DEVICE_MSI_SUPPORT_MSI
  | PCI_DEVICE_MSI_SUPPORT_MSIX, PCI_DEVICE_MSI_SUPPORT_MSIX => true
  | _, _ => false
  end.

(** A [struct mmio_region *]: its address, and the base that the region was
    given when it was mapped. *)
Record mmio_ptr := { region : positive; region_base : Z }.

Record pci_device_bar_info := {
  port_or_phys_range : range;
  bar_mmio : option mmio_ptr;
  index_in_mmio : Z;
  is_present : bool;
  is_mmio : bool;
  is_prefetchable : bool;
  is_64_bit : bool;
  is_mapped : bool;
}.
(** The zeroed memory of kmalloc. *)
Definition bar_zero : pci_device_bar_info :=
  {| port_or_phys_range := RANGE_EMPTY; bar_mmio := None; index_in_mmio := 0; is_present := false;
     is_mmio := false; is_prefetchable := false; is_64_bit := false; is_mapped := false |}.
Definition bar_present (r : range) (b : pci_device_bar_info) : pci_device_bar_info :=
  {| port_or_phys_range := r; bar_mmio := bar_mmio b; index_in_mmio := index_in_mmio b; is_present := true;
     is_mmio := is_mmio b; is_prefetchable := is_prefetchable b; is_64_bit := is_64_bit b; is_mapped := is_mapped b |}.
Definition bar_absent (b : pci_device_bar_info) : pci_device_bar_info :=
  {| port_or_phys_range := port_or_phys_range b; bar_mmio := bar_mmio b; index_in_mmio := index_in_mmio b;
     is_present := false; is_mmio := is_mmio b; is_prefetchable := is_prefetchable b; is_64_bit := is_64_bit b;
     is_mapped := is_mapped b |}.
Definition bar_64_bit (x : bool) (b : pci_device_bar_info) : pci_device_bar_info :=
  {| port_or_phys_range := port_or_phys_range b; bar_mmio := bar_mmio b; index_in_mmio := index_in_mmio b;
     is_present := is_present b; is_mmio := is_mmio b; is_prefetchable := is_prefetchable b; is_64_bit := x;
     is_mapped := is_mapped b |}.
Definition bar_memory (prefetchable : bool) (b : pci_device_bar_info) : pci_device_bar_info :=
  {| port_or_phys_range := port_or_phys_range b; bar_mmio := bar_mmio b; index_in_mmio := index_in_mmio b;
     is_present := is_present b; is_mmio := true; is_prefetchable := prefetchable; is_64_bit := is_64_bit b;
     is_mapped := is_mapped b |}.
Definition bar_mapped_at (p : mmio_ptr) (index : Z) (b : pci_device_bar_info) : pci_device_bar_info :=
  {| port_or_phys_range := port_or_phys_range b; bar_mmio := Some p; index_in_mmio := index;
     is_present := is_present b; is_mmio := is_mmio b; is_prefetchable := is_prefetchable b;
     is_64_bit := is_64_bit b; is_mapped := true |}.
Definition sizeof_pci_device_bar_info : Z := 32.

(** [pcie_msi_offset] and [pcie_msix_offset] are the same word of the union. *)
Record pci_device_info := {
  dev_domain : Z;
  config_space : pci_config_space;
  pcie_info : Z;
  dev_id : Z;
  vendor_id : Z;
  command : Z;
  status : Z;
  revision_id : Z;
  prog_if : Z;
  header_kind : Z;
  subclass : Z;
  dev_class : Z;
  irq_pin : Z;
  supports_pcie : bool;
  multifunction : bool;
  max_bar_count : Z;
  msi_support : pci_device_msi_support;
  pcie_msi_offset : Z;
  msix_table : bitmap;
  vendor_cap_list : array;
  bar_list : list pci_device_bar_info;
}.
Definition sizeof_pci_device_info : Z := 144.

(** [{ .domain = domain, .config_space = space }] *)
Definition device_at (domain : Z) (space : pci_config_space) : pci_device_info :=
  {| dev_domain := domain; config_space := space; pcie_info := 0; dev_id := 0; vendor_id := 0; command := 0;
     status := 0; revision_id := 0; prog_if := 0; header_kind := 0; subclass := 0; dev_class := 0; irq_pin := 0;
     supports_pcie := false; multifunction := false; max_bar_count := 0;
     msi_support := PCI_DEVICE_MSI_SUPPORT_NONE; pcie_msi_offset := 0; msix_table := GBUFFER_INIT;
     vendor_cap_list := {| gbuffer := GBUFFER_INIT; object_size := 0 |}; bar_list := [] |}.
Definition with_pcie_info (p : Z) (d : pci_device_info) : pci_device_info :=
  {| dev_domain := dev_domain d; config_space := config_space d; pcie_info := p; dev_id := dev_id d;
     vendor_id := vendor_id d; command := command d; status := status d; revision_id := revision_id d;
     prog_if := prog_if d; header_kind := header_kind d; subclass := subclass d; dev_class := dev_class d;
     irq_pin := irq_pin d; supports_pcie := supports_pcie d; multifunction := multifunction d;
     max_bar_count := max_bar_count d; msi_support := msi_support d; pcie_msi_offset := pcie_msi_offset d;
     msix_table := msix_table d; vendor_cap_list := vendor_cap_list d; bar_list := bar_list d |}.
Definition with_config_space (c : pci_config_space) (d : pci_device_info) : pci_device_info :=
  {| dev_domain := dev_domain d; config_space := c; pcie_info := pcie_info d; dev_id := dev_id d;
     vendor_id := vendor_id d; command := command d; status := status d; revision_id := revision_id d;
     prog_if := prog_if d; header_kind := header_kind d; subclass := subclass d; dev_class := dev_class d;
     irq_pin := irq_pin d; supports_pcie := supports_pcie d; multifunction := multifunction d;
     max_bar_count := max_bar_count d; msi_support := msi_support d; pcie_msi_offset := pcie_msi_offset d;
     msix_table := msix_table d; vendor_cap_list := vendor_cap_list d; bar_list := bar_list d |}.
(** The stores of the header fields in [parse_function], and the empty list of
    capabilities. *)
Definition with_header (id vendor cmd st rev prog kind sub cls pin : Z) (multi : bool) (d : pci_device_info) :
    pci_device_info :=
  {| dev_domain := dev_domain d; config_space := config_space d; pcie_info := pcie_info d; dev_id := id;
     vendor_id := vendor; command := cmd; status := st; revision_id := rev; prog_if := prog; header_kind := kind;
     subclass := sub; dev_class := cls; irq_pin := pin; supports_pcie := supports_pcie d; multifunction := multi;
     max_bar_count := max_bar_count d; msi_support := msi_support d; pcie_msi_offset := pcie_msi_offset d;
     msix_table := msix_table d; vendor_cap_list := array_init 1; bar_list := bar_list d |}.
Definition with_command (cmd : Z) (d : pci_device_info) : pci_device_info :=
  {| dev_domain := dev_domain d; config_space := config_space d; pcie_info := pcie_info d; dev_id := dev_id d;
     vendor_id := vendor_id d; command := cmd; status := status d; revision_id := revision_id d;
     prog_if := prog_if d; header_kind := header_kind d; subclass := subclass d; dev_class := dev_class d;
     irq_pin := irq_pin d; supports_pcie := supports_pcie d; multifunction := multifunction d;
     max_bar_count := max_bar_count d; msi_support := msi_support d; pcie_msi_offset := pcie_msi_offset d;
     msix_table := msix_table d; vendor_cap_list := vendor_cap_list d; bar_list := bar_list d |}.
Definition with_bars (count : Z) (bars : list pci_device_bar_info) (d : pci_device_info) : pci_device_info :=
  {| dev_domain := dev_domain d; config_space := config_space d; pcie_info := pcie_info d; dev_id := dev_id d;
     vendor_id := vendor_id d; command := command d; status := status d; revision_id := revision_id d;
     prog_if := prog_if d; header_kind := header_kind d; subclass := subclass d; dev_class := dev_class d;
     irq_pin := irq_pin d; supports_pcie := supports_pcie d; multifunction := multifunction d;
     max_bar_count := count; msi_support := msi_support d; pcie_msi_offset := pcie_msi_offset d;
     msix_table := msix_table d; vendor_cap_list := vendor_cap_list d; bar_list := bars |}.
(** What the capabilities change. *)
Definition with_caps (pcie : bool) (support : pci_device_msi_support) (offset : Z) (table : bitmap) (caps : array)
    (d : pci_device_info) : pci_device_info :=
  {| dev_domain := dev_domain d; config_space := config_space d; pcie_info := pcie_info d; dev_id := dev_id d;
     vendor_id := vendor_id d; command := command d; status := status d; revision_id := revision_id d;
     prog_if := prog_if d; header_kind := header_kind d; subclass := subclass d; dev_class := dev_class d;
     irq_pin := irq_pin d; supports_pcie := pcie; multifunction := multifunction d;
     max_bar_count := max_bar_count d; msi_support := support; pcie_msi_offset := offset;
     msix_table := table; vendor_cap_list := caps; bar_list := bar_list d |}.
Definition with_pcie (d : pci_device_info) : pci_device_info :=
  with_caps true (msi_support d) (pcie_msi_offset d) (msix_table d) (vendor_cap_list d) d.
Definition with_msi (support : pci_device_msi_support) (offset : Z) (table : bitmap) (d : pci_device_info) :
    pci_device_info :=
  with_caps (supports_pcie d) support offset table (vendor_cap_list d) d.
Definition with_cap_list (caps : array) (d : pci_device_info) : pci_device_info :=
  with_caps (supports_pcie d) (msi_support d) (pcie_msi_offset d) (msix_table d) caps d.

Record pci_domain := {
  device_list : list Z;
  bus_range : range;
  domain_mmio : option mmio_ptr;
  segment : Z;
}.
Definition sizeof_pci_domain : Z := 72.
Definition add_device (p : Z) (d : pci_domain) : pci_domain :=
  {| device_list := p :: device_list d; bus_range := bus_range d; domain_mmio := domain_mmio d; segment := segment d |}.

(** ** arch/x86_64/dev/pci/access.c and device.c *)
Definition PORT_PCI_CONFIG_ADDRESS : Z := 0xCF8.
Definition PORT_PCI_CONFIG_DATA : Z := 0xCFC.
Definition __PCI_CONFIG_ADDR_ENABLE : Z := Z.shiftl 1 31.
Definition IA32_MSR_APIC_BASE : Z := 0x1B.

Definition pci_device_get_index (domain : pci_domain) (d : pci_device_info) : Z :=
  Z.lor (Z.lor (u32 (Z.shiftl (u64 (bus (config_space d) - front (bus_range domain))) 20))
               (Z.shiftl (device_slot (config_space d)) 15))
        (Z.shiftl (function (config_space d)) 12).

Definition config_address (c : pci_config_space) (offset : Z) : outcome Z :=
  low ← align_down offset 4;
  Ok (u32 (Z.lor (Z.lor (Z.lor (Z.lor low (Z.shiftl (function c) 8)) (Z.shiftl (device_slot c) 11))
                        (Z.shiftl (bus c) 16)) __PCI_CONFIG_ADDR_ENABLE)).

Section access.
Context {W : Type}.
(** [port_in8/16/32] and [port_out...], [mmio_read...] and [mmio_write...]: the
    number of bytes, the port or the address, and the value. *)
Context (port_in : Z -> Z -> W -> outcome (Z * W)) (port_out : Z -> Z -> Z -> W -> outcome W).
Context (mmio_read : Z -> Z -> W -> outcome (Z * W)) (mmio_write : Z -> Z -> Z -> W -> outcome W).

Definition arch_pcie_read (d : pci_device_info) (offset access_size : Z) (w : W) : outcome (Z * W) :=
  if negb (index_range_in_bounds (RANGE_INIT offset access_size) sizeof_pci_spec_device_info)
  then Ok (PCI_READ_FAIL, w)
  else if existsb (Z.eqb access_size) [1; 2; 4] then mmio_read access_size (u64 (pcie_info d + offset)) w
  else Panic.
(** The value is known to fit the access. *)
Definition assert_fits (access_size value : Z) : outcome unit :=
  if (access_size =? 1) || (access_size =? 2) then c_assert (value <=? 2 ^ (8 * access_size) - 1) else Ok tt.
Definition arch_pcie_write (d : pci_device_info) (offset value access_size : Z) (w : W) : outcome (bool * W) :=
  if negb (index_range_in_bounds (RANGE_INIT offset access_size) sizeof_pci_spec_device_info)
  then Ok (false, w)
  else if existsb (Z.eqb access_size) [1; 2; 4] then
    assert_fits access_size value;;
    w ← mmio_write access_size (u64 (pcie_info d + offset)) value w;
    Ok (true, w)
  else Panic.

Definition seek_to_config_space (c : pci_config_space) (offset : Z) (w : W) : outcome W :=
  address ← config_address c offset;
  port_out 4 PORT_PCI_CONFIG_ADDRESS address w.
Definition arch_pci_read (d : pci_device_info) (offset access_size : Z) (w : W) : outcome (Z * W) :=
  if supports_pcie d then arch_pcie_read d offset access_size w
  else
    w ← seek_to_config_space (config_space d) offset w;
    if existsb (Z.eqb access_size) [1; 2; 4] then port_in access_size (PORT_PCI_CONFIG_DATA + Z.land offset 3) w
    else Panic.
Definition arch_pci_write (d : pci_device_info) (offset value access_size : Z) (w : W) : outcome (bool * W) :=
  if supports_pcie d then arch_pcie_write d offset value access_size w
  else
    w ← seek_to_config_space (config_space d) offset w;
    if existsb (Z.eqb access_size) [1; 2; 4] then
      assert_fits access_size value;;
      w ← port_out access_size (PORT_PCI_CONFIG_DATA + Z.land offset 3) value w;
      Ok (true, w)
    else Ok (false, w).

(** The macros of device.h; the offset of a capability is 8 or 64 bits wide,
    that of the field is added to it in the 32-bit parameter. *)
Definition pci_read_with_offset (d : pci_device_info) (offset : Z) (f : field) (w : W) : outcome (Z * W) :=
  arch_pci_read d (u32 (offset + offsetof f)) (sizeof_field f) w.
Definition pci_write_with_offset (d : pci_device_info) (offset : Z) (f : field) (value : Z) (w : W) : outcome W :=
  '(_, w) ← arch_pci_write d (u32 (offset + offsetof f)) (u32 value) (sizeof_field f) w; Ok w.
Definition pci_read (d : pci_device_info) (f : field) (w : W) : outcome (Z * W) := pci_read_with_offset d 0 f w.
Definition pci_write (d : pci_device_info) (f : field) (value : Z) (w : W) : outcome W :=
  pci_write_with_offset d 0 f value w.

(** ** pci.c: base address registers *)
Definition read_bar (d : pci_device_info) (index : Z) (w : W) : outcome (Z * W) :=
  arch_pci_read d (offsetof_bar_list + index * 4) 4 w.
Definition write_bar (d : pci_device_info) (index value : Z) (w : W) : outcome W :=
  '(_, w) ← arch_pci_write d (offsetof_bar_list + index * 4) value 4 w; Ok w.

Inductive parse_bar_result :=
| E_PARSE_BAR_OK
| E_PARSE_BAR_IGNORE
| E_PARSE_BAR_UNKNOWN_MEM_KIND
| E_PARSE_BAR_NO_REG_FOR_UPPER32
| E_PARSE_BAR_MMIO_MAP_FAIL.

(** Write all ones, read back, restore. *)
Definition bar_size_mask (d : pci_device_info) (index orig : Z) (w : W) : outcome (Z * W) :=
  w ← write_bar d index UINT32_MAX w;
  '(size, w) ← read_bar d index w;
  w ← write_bar d index orig w;
  Ok (size, w).
Definition pci_bar_parse_size (d : pci_device_info) (info : pci_device_bar_info) (base_addr bar_0_index bar_0_orig : Z)
    (w : W) : outcome (parse_bar_result * pci_device_bar_info * W) :=
  '(bar_0_size, w) ← bar_size_mask d bar_0_index bar_0_orig w;
  '(size, w) ←
    (if is_64_bit info then
       let bar_1_index := u32 (bar_0_index + 1) in
       '(bar_1_orig, w) ← read_bar d bar_1_index w;
       '(size_high, w) ← bar_size_mask d bar_1_index bar_1_orig w;
       let size := Z.lor (u64 (Z.shiftl size_high 32)) (Z.land bar_0_size PCI_BAR_32B_ADDR_SIZE_MASK) in
       Ok (u64 (u64 (Z.lnot size) + 1), w)
     else
       let size_low :=
         Z.land bar_0_size
           (if is_mmio info then PCI_BAR_32B_ADDR_SIZE_MASK else PCI_BAR_PORT_ADDR_SIZE_MASK) in
       Ok (u32 (u32 (Z.lnot size_low) + 1), w));
  if size =? 0 then Ok (E_PARSE_BAR_IGNORE, info, w)
  else Ok (E_PARSE_BAR_OK, bar_present (RANGE_INIT base_addr size) info, w).

(** The memory kinds; [index] comes back one higher after a 64-bit register. *)
Definition mmio_map (bar_0 : Z) (result : parse_bar_result * pci_device_bar_info * W) :
    parse_bar_result * pci_device_bar_info * W :=
  let '(res, bar, w) := result in
  match res with
  | E_PARSE_BAR_OK =>
      (E_PARSE_BAR_OK, bar_memory (negb (Z.land bar_0 __PCI_DEVBAR_PREFETCHABLE =? 0)) bar, w)
  | _ => (res, bar_64_bit false bar, w)
  end.
Definition pci_parse_bar (d : pci_device_info) (index : Z) (is_bridge : bool) (bar : pci_device_bar_info) (w : W) :
    outcome (parse_bar_result * pci_device_bar_info * Z * W) :=
  '(bar_0, w) ← read_bar d index w;
  if negb (Z.land bar_0 __PCI_DEVBAR_IO =? 0) then
    '(res, bar, w) ← pci_bar_parse_size d bar (Z.land bar_0 PCI_BAR_PORT_ADDR_SIZE_MASK) index bar_0 w;
    Ok (res, bar, index, w)
  else
    let base_addr := Z.land bar_0 PCI_BAR_32B_ADDR_SIZE_MASK in
    let memory_kind := Z.shiftr (Z.land bar_0 __PCI_DEVBAR_MEMKIND_MASK) __PCI_DEVBAR_MEMKIND_SHIFT in
    if memory_kind =? PCI_DEVBAR_MEMSPACE_32B then
      result ← pci_bar_parse_size d bar base_addr index bar_0 w;
      let '(res, bar, w) := mmio_map bar_0 result in Ok (res, bar, index, w)
    else if negb (memory_kind =? PCI_DEVBAR_MEMSPACE_64B) then
      Ok (E_PARSE_BAR_UNKNOWN_MEM_KIND, bar, index, w)
    else
      let last_index := if is_bridge then PCI_BAR_COUNT_FOR_BRIDGE - 1 else PCI_BAR_COUNT_FOR_GENERAL - 1 in
      if index =? last_index then Ok (E_PARSE_BAR_NO_REG_FOR_UPPER32, bar, index, w)
      else
        '(upper, w) ← read_bar d (index + 1) w;
        let base_addr := Z.lor base_addr (Z.shiftl upper 32) in
        result ← pci_bar_parse_size d (bar_64_bit true bar) base_addr index bar_0 w;
        let '(res, bar, w) := mmio_map bar_0 result in Ok (res, bar, u8 (index + 1), w).

(** ** Reading the memory or the ports behind a register *)
Definition pci_device_bar_read (access_size : Z) (bar : pci_device_bar_info) (offset : Z) (w : W) :
    outcome (Z * W) :=
  if negb (is_mapped bar) then Ok (2 ^ (8 * access_size) - 1, w)
  else if is_mmio bar then
    m ← deref (bar_mmio bar);
    mmio_read access_size (u64 (region_base m + index_in_mmio bar + offset)) w
  else port_in access_size (u16 (front (port_or_phys_range bar) + offset)) w.
Definition pci_device_bar_read8 := pci_device_bar_read 1.
Definition pci_device_bar_read16 := pci_device_bar_read 2.
Definition pci_device_bar_read32 := pci_device_bar_read 4.
Definition pci_device_bar_read64 (bar : pci_device_bar_info) (offset : Z) (w : W) : outcome (Z * W) :=
  c_assert (is_mmio bar);;
  if negb (is_mapped bar) then Ok (UINT64_MAX, w)
  else
    m ← deref (bar_mmio bar);
    mmio_read 8 (u64 (region_base m + index_in_mmio bar + offset)) w.

(** ** device.c: message-signalled interrupts *)
Definition bind_msi_to_vector (d : pci_device_info) (address vector : Z) (masked : bool) (w : W) : outcome W :=
  let at_ := pcie_msi_offset d in
  '(msg_control, w) ← pci_read_with_offset d at_ msi_msg_control w;
  let supports_masking := negb (Z.land msg_control __PCI_CAPMSI_CTRL_PER_VECTOR_MASK =? 0) in
  if masked && negb supports_masking then Ok w
  else
    w ← pci_write_with_offset d at_ msi_msg_address (u32 address) w;
    let is_64_bit := negb (Z.land msg_control __PCI_CAPMSI_CTRL_64BIT_CAPABLE =? 0) in
    w ← pci_write_with_offset d at_ (if is_64_bit then msi_bits64_msg_data else msi_bits32_msg_data) vector w;
    let msg_control :=
      Z.land (Z.lor msg_control __PCI_CAPMSI_CTRL_ENABLE) (u16 (Z.lnot __PCI_CAPMSI_CTRL_MULTIMSG_ENABLE)) in
    w ← pci_write_with_offset d at_ msi_msg_control msg_control w;
    if masked then
      if vector >=? 64 then Undef
      else pci_write_with_offset d at_ (if is_64_bit then msi_bits64_mask_bits else msi_bits32_mask_bits)
             (Z.shiftl 1 vector) w
    else Ok w.

(** The answer is the device with an entry of its table taken. *)
Definition bind_msix_to_vector (d : pci_device_info) (address vector : Z) (masked : bool) (w : W) :
    outcome (pci_device_info * W) :=
  '(msix_vector, table) ← bitmap_find (msix_table d) 1 0 false true;
  let d := with_msi (msi_support d) (pcie_msi_offset d) table d in
  if msix_vector =? FIND_BIT_INVALID then Ok (d, w)
  else
    let at_ := pcie_msi_offset d in
    '(msg_control, w) ← pci_read_with_offset d at_ msix_msg_control w;
    let table_size := Z.land msg_control __PCI_CAP_MSIX_TABLE_SIZE_MASK + 1 in
    if negb (index_in_bounds vector table_size) then Ok (d, w)
    else
      '(table_offset, w) ← pci_read_with_offset d at_ msix_table_offset w;
      let bar_index := u8 (Z.land table_offset __PCI_BARSPEC_TABLE_OFFSET_BIR) in
      if negb (index_in_bounds bar_index (max_bar_count d)) then Ok (d, w)
      else
        bar ← nth_entry (bar_list d) bar_index;
        if negb (is_present bar) then Ok (d, w)
        else if negb (is_mmio bar) then Ok (d, w)
        else
          m ← deref (bar_mmio bar);
          let table_addr :=
            u64 (region_base m + Z.land table_offset (u32 (Z.lnot __PCI_BARSPEC_TABLE_OFFSET_BIR))) in
          let entry := u64 (table_addr + sizeof_msix_table_entry * msix_vector) in
          w ← mmio_write 4 entry (u32 address) w;
          w ← mmio_write 4 (u64 (entry + 4)) 0 w;
          w ← mmio_write 4 (u64 (entry + 8)) vector w;
          w ← mmio_write 4 (u64 (entry + 12)) (Z.b2z masked) w;
          let msg_control := Z.lor msg_control __PCI_CAP_MSIX_CTRL_ENABLE in
          w ← pci_write_with_offset d at_ msix_msg_control msg_control w;
          Ok (d, w).

(** [lapic_id] is the field of [cpu]; [read_msr] the instruction. *)
Context (read_msr : Z -> W -> outcome (Z * W)).
Definition pci_device_bind_msi_to_vector (d : pci_device_info) (lapic_id vector : Z) (masked : bool) (w : W) :
    outcome (bool * pci_device_info * W) :=
  '(apic_base, w) ← read_msr IA32_MSR_APIC_BASE w;
  let msi_address := Z.lor (Z.land apic_base PAGE_SIZE) (u32 (Z.shiftl lapic_id 12)) in
  match msi_support d with
  | PCI_DEVICE_MSI_SUPPORT_NONE => Ok (false, d, w)
  | PCI_DEVICE_MSI_SUPPORT_MSI => w ← bind_msi_to_vector d msi_address vector masked w; Ok (true, d, w)
  | PCI_DEVICE_MSI_SUPPORT_MSIX =>
      '(d, w) ← bind_msix_to_vector d msi_address vector masked w; Ok (true, d, w)
  end.

Definition pci_device_enable_privl (d : pci_device_info) (privl : Z) (w : W) : outcome W :=
  '(old_command, w) ← pci_read d base_command w;
  pci_write d base_command (u16 (Z.lor old_command privl)) w.
End access.

(** ** pci.c: capabilities and devices *)

(** The list holds the offsets of the vendor-specific capabilities. *)
Definition visited_by (cap_offset visited : Z) : bool :=
  (visited =? cap_offset) || range_has_loc (RANGE_INIT visited sizeof_pci_spec_capability) cap_offset.
Definition validate_cap_offset (prev_cap_offsets : array) (cap_offset : Z) : outcome bool :=
  if index_in_bounds cap_offset (offsetof info_data) then Ok false
  else if negb (range_has_index_range (rangeof_field info_data) (RANGE_INIT cap_offset sizeof_pci_spec_capability))
  then Ok false
  else
    c_assert (object_size prev_cap_offsets =? 1);;
    count ← array_item_count prev_cap_offsets;
    offsets ← read_bytes (gb_data (gbuffer prev_cap_offsets)) 0 count;
    Ok (negb (existsb (visited_by cap_offset) offsets)).

Record pci_driver := {
  drv_match : Z; drv_vendor : Z; drv_class : Z; drv_subclass : Z; drv_prog_if : Z; drv_devices : list Z
}.
Definition PCI_DRIVER_MATCH_VENDOR_DEVICE : Z := 0.
Definition PCI_DRIVER_MATCH_VENDOR : Z := 1.
Definition __PCI_DRIVER_MATCH_CLASS : Z := Z.shiftl 1 1.
Definition __PCI_DRIVER_MATCH_SUBCLASS : Z := Z.shiftl 1 2.
Definition __PCI_DRIVER_MATCH_PROGIF : Z := Z.shiftl 1 3.
(** The conditions of [pci_init_drivers] in front of [init]. *)
Definition driver_matches (drv : pci_driver) (d : pci_device_info) : bool :=
  let wants flag := negb (Z.land (drv_match drv) flag =? 0) in
  if drv_match drv =? PCI_DRIVER_MATCH_VENDOR then vendor_id d =? drv_vendor drv
  else if drv_match drv =? PCI_DRIVER_MATCH_VENDOR_DEVICE then
    (vendor_id d =? drv_vendor drv) && existsb (Z.eqb (dev_id d)) (drv_devices drv)
  else
    negb (wants __PCI_DRIVER_MATCH_CLASS && negb (dev_class d =? drv_class drv)) &&
    negb (wants __PCI_DRIVER_MATCH_SUBCLASS && negb (subclass d =? drv_subclass drv)) &&
    negb (wants __PCI_DRIVER_MATCH_PROGIF && negb (prog_if d =? drv_prog_if drv)).

Definition PROT_READ : Z := Z.shiftl 1 0.

Section parse.
Context {W H : Type}.
Context (port_in : Z -> Z -> W -> outcome (Z * W)) (port_out : Z -> Z -> Z -> W -> outcome W).
Context (mmio_read : Z -> Z -> W -> outcome (Z * W)) (mmio_write : Z -> Z -> Z -> W -> outcome W).
Context (malloc_size : Z -> H -> outcome (option (Z * list Z) * H)) (free : Z -> H -> outcome H).
Context (kmalloc : Z -> H -> outcome (option Z * H)).
(** [vmap_mmio] and [vunmap_mmio] of mm/mmio.c, which are modelled in Vm.v. *)
Context (vmap_mmio : range -> Z -> Z -> H -> outcome (option mmio_ptr * H)).
Context (vunmap_mmio : mmio_ptr -> H -> outcome (bool * H)).
(** Whether the FADT lets devices use message-signalled interrupts. *)
Context (supports_msi : bool).

Abbreviation read := (pci_read port_in port_out mmio_read).
Abbreviation read_at := (pci_read_with_offset port_in port_out mmio_read).
Abbreviation write := (pci_write port_out mmio_write).

(** When the map fails the code of the error is returned, which is true. *)
Definition pci_map_bar (bar : pci_device_bar_info) (h : H) : outcome (bool * pci_device_bar_info * H) :=
  if negb (is_mmio bar) then Ok (false, bar, h)
  else if is_mapped bar then Ok (true, bar, h)
  else
    let flags := if is_prefetchable bar then __VMAP_MMIO_WT else 0 in
    let phys_range := port_or_phys_range bar in
    aligned ← range_align_out phys_range PAGE_SIZE;
    match aligned with
    | None => Ok (false, bar, h)
    | Some aligned_range =>
        '(mmio, h) ← vmap_mmio aligned_range (Z.lor PROT_READ PROT_WRITE) flags h;
        match mmio with
        | None => Ok (true, bar, h)
        | Some mmio => Ok (true, bar_mapped_at mmio (u32 (u64 (front phys_range - front aligned_range))) bar, h)
        end
    end.

(** One capability that passed the check. *)
Definition parse_msix (d : pci_device_info) (cap_offset : Z) (w : W) (h : H) : outcome (pci_device_info * W * H) :=
  if negb supports_msi then Ok (d, w, h)
  else if msi_support_eqb (msi_support d) PCI_DEVICE_MSI_SUPPORT_MSIX then Ok (d, w, h)
  else
    let d := with_msi (msi_support d) cap_offset (msix_table d) d in
    '(msg_control, w) ← read_at d cap_offset msix_msg_control w;
    let bitmap_size := Z.land msg_control __PCI_CAP_MSIX_TABLE_SIZE_MASK + 1 in
    '(b, h) ← bitmap_alloc malloc_size bitmap_size h;
    if gb_begin b =? 0 then Ok (d, w, h)
    else Ok (with_msi PCI_DEVICE_MSI_SUPPORT_MSIX cap_offset b d, w, h).
(** The answer [false]: the function returns. *)
Definition parse_capability (d : pci_device_info) (cap_offset : Z) (w : W) (h : H) :
    outcome (bool * pci_device_info * W * H) :=
  '(id, w) ← read_at d cap_offset cap_id w;
  if id =? PCI_SPEC_CAP_ID_MSI then
    Ok (true,
        if negb supports_msi then d
        else if msi_support_eqb (msi_support d) PCI_DEVICE_MSI_SUPPORT_MSIX then d
        else with_msi PCI_DEVICE_MSI_SUPPORT_MSI cap_offset (msix_table d) d, w, h)
  else if id =? PCI_SPEC_CAP_ID_MSI_X then
    '(d, w, h) ← parse_msix d cap_offset w h; Ok (true, d, w, h)
  else if id =? PCI_SPEC_CAP_ID_VENDOR_SPECIFIC then
    '(ok, caps, h) ← array_append malloc_size free (vendor_cap_list d) [cap_offset] h;
    Ok (ok, with_cap_list caps d, w, h)
  else if id =? PCI_SPEC_CAP_ID_PCI_EXPRESS then Ok (true, with_pcie d, w, h)
  else Ok (true, d, w, h).

(** [rounds] is [128 - i]; an offset that fails the check is tried again. *)
Fixpoint capability_loop (rounds : nat) (d : pci_device_info) (cap_offset : Z) (w : W) (h : H) :
    outcome (pci_device_info * W * H) :=
  if (cap_offset =? 0) || (cap_offset =? 0xff) then Ok (d, w, h)
  else
    match rounds with
    | O => Ok (d, w, h)
    | S rounds =>
        valid ← validate_cap_offset (vendor_cap_list d) cap_offset;
        if negb valid then capability_loop rounds d cap_offset w h
        else
          '(next, d, w, h) ← parse_capability d cap_offset w h;
          if negb next then Ok (d, w, h)
          else
            '(cap_offset, w) ← read_at d cap_offset cap_offset_to_next w;
            capability_loop rounds d (u8 cap_offset) w h
    end.
Definition MAX_CAPABILITIES : nat := 128.

Definition pci_parse_capabilities (d : pci_device_info) (w : W) (h : H) : outcome (pci_device_info * W * H) :=
  if Z.land (status d) __PCI_DEVSTATUS_CAPABILITIES =? 0 then Ok (d, w, h)
  else
    '(cap_offset, w) ← read d info_capabilities_offset w;
    let cap_offset := u8 cap_offset in
    if (cap_offset =? 0) || (cap_offset =? u8 PCI_READ_FAIL) then Ok (d, w, h)
    else if negb (range_has_index (rangeof_field info_data) cap_offset) then Ok (d, w, h)
    else capability_loop MAX_CAPABILITIES d cap_offset w h.

(** [free_inside_device_info]: the list of registers is not freed. *)
Fixpoint unmap_bars (count : nat) (bars : list pci_device_bar_info) (h : H) : outcome H :=
  match count with
  | O => Ok h
  | S count =>
      match bars with
      | [] => Undef
      | bar :: bars =>
          h ← (if is_mapped bar then m ← deref (bar_mmio bar); '(_, h) ← vunmap_mmio m h; Ok h else Ok h);
          unmap_bars count bars h
      end
  end.
Definition free_inside_device_info (d : pci_device_info) (h : H) : outcome H :=
  let bar_count :=
    if header_kind d =? PCI_SPEC_DEVHDR_KIND_PCI_BRIDGE then PCI_BAR_COUNT_FOR_BRIDGE
    else PCI_BAR_COUNT_FOR_GENERAL in
  h ← unmap_bars (Z.to_nat bar_count) (bar_list d) h;
  h ← (if msi_support_eqb (msi_support d) PCI_DEVICE_MSI_SUPPORT_MSIX
       then '(_, h) ← bitmap_destroy free (msix_table d) h; Ok h else Ok h);
  '(_, h) ← array_destroy free (vendor_cap_list d) h;
  Ok h.

(** Everything the driver keeps. *)
Record pci_state := {
  hw : W;
  heap : H;
  domains : gmap Z pci_domain;
  infos : gmap Z pci_device_info;
  g_domain_list : list Z;
  g_device_list : list Z;
  g_domain_count : Z;
}.
Definition with_machine (w : W) (h : H) (s : pci_state) : pci_state :=
  {| hw := w; heap := h; domains := domains s; infos := infos s; g_domain_list := g_domain_list s;
     g_device_list := g_device_list s; g_domain_count := g_domain_count s |}.
(** The copy to [info_out] and the two [list_add]. *)
Definition device_added (p : Z) (info : pci_device_info) (s : pci_state) : pci_state :=
  {| hw := hw s; heap := heap s; domains := alter (add_device p) (dev_domain info) (domains s);
     infos := <[p := info]> (infos s); g_domain_list := g_domain_list s; g_device_list := p :: g_device_list s;
     g_domain_count := g_domain_count s |}.
Definition domain_stored (p : Z) (dom : pci_domain) (s : pci_state) : pci_state :=
  {| hw := hw s; heap := heap s; domains := <[p := dom]> (domains s); infos := infos s;
     g_domain_list := g_domain_list s; g_device_list := g_device_list s; g_domain_count := g_domain_count s |}.
Definition domain_added (p : Z) (s : pci_state) : pci_state :=
  {| hw := hw s; heap := heap s; domains := domains s; infos := infos s; g_domain_list := p :: g_domain_list s;
     g_device_list := g_device_list s; g_domain_count := u64 (g_domain_count s + 1) |}.

(** The loop over the base address registers, of both kinds of header. *)
Fixpoint parse_bars (fuel : nat) (is_bridge : bool) (index : Z) (has_mmio_bar has_io_bar : bool)
    (d : pci_device_info) (w : W) : outcome (pci_device_info * bool * bool * W) :=
  if index =? max_bar_count d then Ok (d, has_mmio_bar, has_io_bar, w)
  else
    match fuel with
    | O => OutOfFuel
    | S fuel =>
        bar ← nth_entry (bar_list d) index;
        '(result, bar, last, w) ← pci_parse_bar port_in port_out mmio_read mmio_write d index is_bridge bar w;
        let store bar := bars ← set_entry index bar (bar_list d); Ok (with_bars (max_bar_count d) bars d) in
        match result with
        | E_PARSE_BAR_IGNORE =>
            d ← store (if is_bridge then bar else bar_absent bar);
            parse_bars fuel is_bridge (u8 (last + 1)) has_mmio_bar has_io_bar d w
        | E_PARSE_BAR_OK =>
            d ← store bar;
            parse_bars fuel is_bridge (u8 (last + 1)) (has_mmio_bar || is_mmio bar) (has_io_bar || negb (is_mmio bar)) d w
        | _ =>
            d ← store (if is_bridge then bar else bar_absent bar);
            Ok (d, has_mmio_bar, has_io_bar, w)
        end
    end.

(** The reads of [parse_function] in front of the registers; [None]: there is
    no device. *)
Definition read_header (info : pci_device_info) (w : W) : outcome (option pci_device_info * W) :=
  '(vendor, w) ← read info base_vendor_id w;
  if u16 vendor =? u16 PCI_READ_FAIL then Ok (None, w)
  else
    '(kind, w) ← read info base_header_kind w;
    let kind := u8 kind in
    let is_multi_function := negb (Z.land kind __PCI_DEVHDR_MULTFUNC =? 0) in
    let hdrkind := Z.land kind (u8 (Z.lnot __PCI_DEVHDR_MULTFUNC)) in
    '(pin, w) ← (if hdrkind =? PCI_SPEC_DEVHDR_KIND_GENERAL then read info info_interrupt_pin w else Ok (0, w));
    '(id, w) ← read info base_device_id w;
    '(cmd, w) ← read info base_command w;
    '(st, w) ← read info base_status w;
    '(rev, w) ← read info base_revision_id w;
    '(prog, w) ← read info base_prog_if w;
    '(cls, w) ← read info base_class_code w;
    '(sub, w) ← read info base_subclass w;
    Ok (Some (with_header (u16 id) (u16 vendor) (u16 cmd) (u16 st) (u8 rev) (u8 prog) hdrkind (u8 sub) (u8 cls)
                (u8 pin) is_multi_function info), w).

(** The list of registers, the capabilities and the registers; [None]: there is
    no memory. *)
Definition parse_registers (is_bridge : bool) (count : Z) (info : pci_device_info) (w : W) (h : H) :
    outcome (option (pci_device_info * bool * bool) * W * H) :=
  '(block, h) ← kmalloc (sizeof_pci_device_bar_info * count) h;
  match block with
  | None => Ok (None, w, h)
  | Some _ =>
      let info := with_bars count (replicate (Z.to_nat count) bar_zero) info in
      '(info, w, h) ← pci_parse_capabilities info w h;
      '(info, has_mmio_bar, has_io_bar, w) ← parse_bars (Z.to_nat count) is_bridge 0 false false info w;
      Ok (Some (info, has_mmio_bar, has_io_bar), w, h)
  end.

(** The end of [parse_function]. *)
Definition finish_function (info : pci_device_info) (has_mmio_bar has_io_bar : bool) (s : pci_state) :
    outcome pci_state :=
  let cmd := if has_mmio_bar then Z.lor (command info) __PCI_DEVCMDREG_MEMSPACE else command info in
  let cmd := if has_io_bar then Z.lor cmd __PCI_DEVCMDREG_IOSPACE else cmd in
  let info := with_command cmd info in
  w ← write info base_command cmd (hw s);
  '(block, h) ← kmalloc sizeof_pci_device_info (heap s);
  match block with
  | None => h ← free_inside_device_info info h; Ok (with_machine w h s)
  | Some p => Ok (device_added p info (with_machine w h s))
  end.

(** The slots and functions of a bus in the order of the two loops. *)
Definition functions_of_bus : list (Z * Z) :=
  slot ← seqZ 0 PCI_MAX_DEVICE_COUNT; func ← seqZ 0 PCI_MAX_FUNCTION_COUNT; [(slot, func)].
Definition at_function (c : pci_config_space) (b slot func : Z) : pci_config_space :=
  {| domain_segment := domain_segment c; bus := b; device_slot := slot; function := func |}.
(** The caller's [config_space] is written to: it comes back at the last
    function. *)
Fixpoint scan_functions (parse : pci_config_space -> pci_state -> outcome pci_state) (b : Z)
    (functions : list (Z * Z)) (c : pci_config_space) (s : pci_state) : outcome (pci_config_space * pci_state) :=
  match functions with
  | [] => Ok (c, s)
  | (slot, func) :: functions =>
      let c := at_function c b slot func in
      s ← parse c s;
      scan_functions parse b functions c s
  end.

(** [fuel] bounds the nesting of bridges. *)
Fixpoint parse_function (fuel : nat) (domain : Z) (space : pci_config_space) (s : pci_state) : outcome pci_state :=
  dom ← deref (domains s !! domain);
  m ← deref (domain_mmio dom);
  let info := device_at domain space in
  let info :=
    if negb (region_base m =? 0)
    then with_pcie_info (u64 (region_base m + pci_device_get_index dom info)) info else info in
  '(header, w) ← read_header info (hw s);
  match header with
  | None => Ok (with_machine w (heap s) s)
  | Some info =>
      let class_is_pci_bridge := (dev_class info =? 4) && (subclass info =? 6) in
      let hdrkind_is_pci_bridge := header_kind info =? PCI_SPEC_DEVHDR_KIND_PCI_BRIDGE in
      if negb (Bool.eqb hdrkind_is_pci_bridge class_is_pci_bridge) then Ok (with_machine w (heap s) s)
      else
        let new_command :=
          Z.land (command info) (u16 (Z.lnot (Z.lor __PCI_DEVCMDREG_IOSPACE __PCI_DEVCMDREG_MEMSPACE))) in
        w ← write info base_command new_command w;
        if header_kind info =? PCI_SPEC_DEVHDR_KIND_GENERAL then
          '(parsed, w, h) ← parse_registers false PCI_BAR_COUNT_FOR_GENERAL info w (heap s);
          match parsed with
          | None => Ok (with_machine w h s)
          | Some (info, has_mmio_bar, has_io_bar) =>
              finish_function info has_mmio_bar has_io_bar (with_machine w h s)
          end
        else if header_kind info =? PCI_SPEC_DEVHDR_KIND_PCI_BRIDGE then
          '(parsed, w, h) ← parse_registers true PCI_BAR_COUNT_FOR_BRIDGE info w (heap s);
          match parsed with
          | None => Ok (with_machine w h s)
          | Some (info, has_mmio_bar, has_io_bar) =>
              '(secondary, w) ← read info bridge_secondary_bus_number w;
              match fuel with
              | O => OutOfFuel
              | S fuel =>
                  '(c, s) ← scan_functions (parse_function fuel domain) (u8 secondary) functions_of_bus
                              (config_space info) (with_machine w h s);
                  finish_function (with_config_space c info) has_mmio_bar has_io_bar s
              end
          end
        else finish_function info false false (with_machine w (heap s) s)
  end.

Definition pci_parse_bus (fuel : nat) (domain : Z) (c : pci_config_space) (b : Z) (s : pci_state) :
    outcome (pci_config_space * pci_state) :=
  scan_functions (parse_function fuel domain) b functions_of_bus c s.

Fixpoint parse_buses (fuel : nat) (domain : Z) (buses : list Z) (c : pci_config_space) (s : pci_state) :
    outcome pci_state :=
  match buses with
  | [] => Ok s
  | b :: buses => '(c, s) ← pci_parse_bus fuel domain c b s; parse_buses fuel domain buses c s
  end.
Definition pci_parse_domain (fuel : nat) (domain : Z) (s : pci_state) : outcome pci_state :=
  dom ← deref (domains s !! domain);
  _ ← deref (domain_mmio dom);
  _ ← range_get_end_assert (bus_range dom);
  parse_buses fuel domain (seqZ 0 PCI_MAX_BUS_COUNT)
    {| domain_segment := segment dom; bus := 0; device_slot := 0; function := 0 |} s.

Definition pci_add_pcie_domain (buses : range) (base_addr seg : Z) (s : pci_state) :
    outcome (option Z * pci_state) :=
  '(block, h) ← kmalloc sizeof_pci_domain (heap s);
  match block with
  | None => Ok (None, with_machine (hw s) h s)
  | Some p =>
      bytes ← align_up_assert (u64 (Z.shiftl (size buses) 20)) PAGE_SIZE;
      '(mmio, h) ← vmap_mmio (RANGE_INIT base_addr bytes) (Z.lor PROT_READ PROT_WRITE) 0 h;
      let s := with_machine (hw s) h s in
      match mmio with
      | None => Ok (None, s)
      | Some m =>
          let dom := {| device_list := []; bus_range := buses; domain_mmio := Some m; segment := seg |} in
          Ok (Some p, domain_added p (domain_stored p dom s))
      end
  end.

(** [init] of a driver is a parameter. *)
Context (init : pci_driver -> Z -> pci_state -> outcome pci_state).
Fixpoint init_devices (drv : pci_driver) (devices : list Z) (s : pci_state) : outcome pci_state :=
  match devices with
  | [] => Ok s
  | p :: devices =>
      d ← deref (infos s !! p);
      s ← (if driver_matches drv d then init drv p s else Ok s);
      init_devices drv devices s
  end.
Fixpoint pci_init_drivers (drivers : list pci_driver) (s : pci_state) : outcome pci_state :=
  match drivers with
  | [] => Ok s
  | drv :: drivers => s ← init_devices drv (g_device_list s) s; pci_init_drivers drivers s
  end.

Fixpoint parse_domains (fuel : nat) (keys : list Z) (s : pci_state) : outcome pci_state :=
  match keys with
  | [] => Ok s
  | p :: keys => s ← pci_parse_domain fuel p s; parse_domains fuel keys s
  end.
Definition pci_init (fuel : nat) (drivers : list pci_driver) (s : pci_state) : outcome pci_state :=
  match g_domain_list s with
  | [] =>
      '(block, h) ← kmalloc sizeof_pci_domain (heap s);
      root ← match block with None => Panic | Some p => Ok p end;
      let dom := {| device_list := []; bus_range := RANGE_EMPTY; domain_mmio := None; segment := 0 |} in
      let s := domain_stored root dom (with_machine (hw s) h s) in
      let dev_0 := device_at root {| domain_segment := 0; bus := 0; device_slot := 0; function := 0 |} in
      '(first, w) ← read dev_0 base_vendor_id (hw s);
      let s := with_machine w (heap s) s in
      if first =? PCI_READ_FAIL then Ok s
      else s ← pci_parse_domain fuel root s; pci_init_drivers drivers s
  | keys => s ← parse_domains fuel keys s; pci_init_drivers drivers s
  end.
End parse.
