(* ===== verification/PciInv.v ===== *)
(** * Configuration space as the PCI specification has it

    [PciHost] is what the machine promises: a write to the address port selects
    a register of 32 bits, the data port reads and writes its bytes, of which
    only some bits can be written, and the mapped configuration space shows the
    same registers.  The lemmas follow the accesses of Pci.v on it: reading and
    writing fields, sizing base address registers, walking the capabilities. *)
From S2P Require Import Prelude CArith Range Buffer BufferInv Bitmap WalkerInv Pci.

(** [n] bytes of a register from byte [k] on, and the register with them
    replaced, as far as the bits of [mask] can be written. *)
Definition bytes_of (n k r : Z) : Z := (r / 2 ^ (8 * k)) `mod` 2 ^ (8 * n).
Definition replaced (n k v r : Z) : Z := r + (v - bytes_of n k r) * 2 ^ (8 * k).
Definition merged (mask old new : Z) : Z := Z.lor (Z.ldiff old mask) (Z.land new mask).

(** The addresses of registers. *)
Record space_ok (c : pci_config_space) : Prop := {
  so_bus : 0 <= bus c < 256;
  so_slot : 0 <= device_slot c < 32;
  so_function : 0 <= function c < 8;
}.
Definition function_address (c : pci_config_space) : Z :=
  function c * 2 ^ 8 + device_slot c * 2 ^ 11 + bus c * 2 ^ 16 + 2 ^ 31.
Definition register (c : pci_config_space) (offset : Z) : Z := offset / 4 * 4 + function_address c.
Definition fits (offset n : Z) : Prop :=
  0 <= offset /\ offset + n <= 256 /\ offset `mod` 4 + n <= 4 /\ (n = 1 \/ n = 2 \/ n = 4).

Class PciHost {W : Type}
    (port_in : Z -> Z -> W -> outcome (Z * W)) (port_out : Z -> Z -> Z -> W -> outcome W)
    (mmio_read : Z -> Z -> W -> outcome (Z * W)) (mmio_write : Z -> Z -> Z -> W -> outcome W) := {
  host_ok : W -> Prop;
  selected : W -> Z;
  cfg : W -> Z -> Z;
  writable : Z -> Z;
  (** [ecam p a]: the registers of the function at [a] are mapped at [p]. *)
  ecam : Z -> Z -> Prop;
  cfg_bounds w a : host_ok w -> 0 <= cfg w a < 2 ^ 32;
  writable_bounds a : 0 <= writable a < 2 ^ 32;
  ecam_bounds p a : ecam p a -> 0 <= p /\ p + 4096 <= 2 ^ 64;
  host_select w a : host_ok w -> 0 <= a < 2 ^ 32 ->
    exists w', port_out 4 PORT_PCI_CONFIG_ADDRESS a w = Ok w' /\ host_ok w' /\ selected w' = a /\
      forall b, cfg w' b = cfg w b;
  host_read w n k : host_ok w -> 0 <= k -> k + n <= 4 -> n = 1 \/ n = 2 \/ n = 4 ->
    exists w', port_in n (PORT_PCI_CONFIG_DATA + k) w = Ok (bytes_of n k (cfg w (selected w)), w') /\ host_ok w' /\
      forall b, cfg w' b = cfg w b;
  host_write w n k v : host_ok w -> 0 <= k -> k + n <= 4 -> n = 1 \/ n = 2 \/ n = 4 -> 0 <= v < 2 ^ (8 * n) ->
    exists w', port_out n (PORT_PCI_CONFIG_DATA + k) v w = Ok w' /\ host_ok w' /\
      forall b, cfg w' b =
        if b =? selected w then merged (writable b) (cfg w b) (replaced n k v (cfg w b)) else cfg w b;
  host_mmio_read w p c offset n : host_ok w -> ecam p (function_address c) -> fits offset n ->
    exists w', mmio_read n (p + offset) w =
      Ok (bytes_of n (offset `mod` 4) (cfg w (register c offset)), w') /\ host_ok w' /\
      forall b, cfg w' b = cfg w b;
  host_mmio_write w p c offset n v : host_ok w -> ecam p (function_address c) -> fits offset n ->
    0 <= v < 2 ^ (8 * n) ->
    exists w', mmio_write n (p + offset) v w = Ok w' /\ host_ok w' /\
      forall b, cfg w' b =
        if b =? register c offset then merged (writable b) (cfg w b) (replaced n (offset `mod` 4) v (cfg w b))
        else cfg w b;
}.

(** ** Addresses *)
Lemma lor_field a b k : 0 <= k -> 0 <= a < 2 ^ k -> Z.lor a (Z.shiftl b k) = a + b * 2 ^ k.
Proof. apply lor_shift. Qed.

Lemma config_address_ok c offset : space_ok c -> 0 <= offset < 256 ->
  config_address c offset = Ok (register c offset) /\ 0 <= register c offset < 2 ^ 32.
Proof.
  intros [Hb Hs Hf] Ho. unfold config_address.
  change 4 with (2 ^ 2) at 1. rewrite align_down_eq by (unfold_ints; lia). rewrite outcome_bind_ok.
  change (2 ^ 2) with 4.
  assert (0 <= offset / 4 * 4 <= 252 /\ offset / 4 * 4 < 2 ^ 8) as [Hl Hl2] by (Z.to_euclidean_division_equations; lia).
  unfold __PCI_CONFIG_ADDR_ENABLE.
  rewrite (lor_field (offset / 4 * 4)) by lia.
  rewrite (lor_field _ (device_slot c)) by lia. rewrite (lor_field _ (bus c)) by lia.
  rewrite (lor_field _ 1) by lia. rewrite wrap_small by (unfold_ints; lia).
  unfold register, function_address. split; [f_equal; lia|lia].
Qed.

(** Different functions and registers have different addresses. *)
Lemma register_inj c c' offset offset' : space_ok c -> space_ok c' -> 0 <= offset < 256 -> 0 <= offset' < 256 ->
  register c offset = register c' offset' ->
  bus c = bus c' /\ device_slot c = device_slot c' /\ function c = function c' /\ offset / 4 = offset' / 4.
Proof.
  intros [Hb Hs Hf] [Hb' Hs' Hf'] Ho Ho'. unfold register, function_address.
  assert (0 <= offset / 4 < 64) by (Z.to_euclidean_division_equations; lia).
  assert (0 <= offset' / 4 < 64) by (Z.to_euclidean_division_equations; lia). lia.
Qed.

(** ** Bytes of registers *)
Lemma bytes_of_bounds n k r : 0 <= n -> 0 <= bytes_of n k r < 2 ^ (8 * n).
Proof. intros Hn. apply Z.mod_pos_bound, pow2_pos. lia. Qed.
Lemma bytes_of_all r : 0 <= r < 2 ^ 32 -> bytes_of 4 0 r = r.
Proof. intros Hr. unfold bytes_of. change (2 ^ (8 * 0)) with 1. rewrite Z.div_1_r. by apply Z.mod_small. Qed.
Lemma replaced_all v r : 0 <= r < 2 ^ 32 -> replaced 4 0 v r = v.
Proof. intros Hr. unfold replaced. rewrite bytes_of_all by done. change (2 ^ (8 * 0)) with 1. lia. Qed.

Section host.
Context {W : Type}.
Context {port_in : Z -> Z -> W -> outcome (Z * W)} {port_out : Z -> Z -> Z -> W -> outcome W}.
Context {mmio_read : Z -> Z -> W -> outcome (Z * W)} {mmio_write : Z -> Z -> Z -> W -> outcome W}.
Context {host : PciHost port_in port_out mmio_read mmio_write}.

(** The same machine with the same registers. *)
Definition same_cfg (w w' : W) : Prop := host_ok w' /\ forall b, cfg w' b = cfg w b.
Lemma same_cfg_refl w : host_ok w -> same_cfg w w.
Proof. by split. Qed.
Lemma same_cfg_trans w1 w2 w3 : same_cfg w1 w2 -> same_cfg w2 w3 -> same_cfg w1 w3.
Proof. intros [_ E1] [H2 E2]. split; [done|]. intros b. by rewrite E2. Qed.

(** A device whose registers can be reached in the way it is accessed. *)
Definition reachable (d : pci_device_info) : Prop :=
  space_ok (config_space d) /\
  (supports_pcie d = true -> ecam (pcie_info d) (function_address (config_space d))).

Lemma size_listed n : n = 1 \/ n = 2 \/ n = 4 -> existsb (Z.eqb n) [1; 2; 4] = true.
Proof. by intros [->|[-> | ->]]. Qed.
Lemma fits_ecam offset n : fits offset n -> index_range_in_bounds (RANGE_INIT offset n) sizeof_pci_spec_device_info = true.
Proof.
  intros (H0 & H1 & H2 & Hn). unfold index_range_in_bounds, range_get_end, check_add. cbn.
  rewrite (proj2 (Z.ltb_lt (offset + n) _)) by lia. cbn [negb]. unfold ordinal_in_bounds, sizeof_pci_spec_device_info.
  rewrite wrap_small by (unfold_ints; lia). lia.
Qed.

Lemma arch_read_ok d offset n w : host_ok w -> reachable d -> fits offset n ->
  exists w', arch_pci_read port_in port_out mmio_read d offset n w =
    Ok (bytes_of n (offset `mod` 4) (cfg w (register (config_space d) offset)), w') /\ same_cfg w w'.
Proof.
  intros Hw [Hs He] Hf. pose proof Hf as (H0 & H1 & H2 & Hn). unfold arch_pci_read.
  destruct (supports_pcie d).
  - specialize (He eq_refl). pose proof (ecam_bounds _ _ He). unfold arch_pcie_read.
    rewrite fits_ecam, size_listed by done. cbn [negb]. rewrite wrap_small by (unfold_ints; lia).
    destruct (host_mmio_read w _ _ offset n Hw He Hf) as (w' & -> & ? & ?). exists w'. by repeat split.
  - destruct (config_address_ok _ offset Hs) as [Ha Hb]; [lia|]. unfold seek_to_config_space.
    rewrite Ha, outcome_bind_ok. destruct (host_select w _ Hw Hb) as (w1 & -> & Hw1 & Hsel & Hc1).
    rewrite outcome_bind_ok, size_listed by done.
    change 3 with (Z.ones 2). rewrite (Z.land_ones offset 2) by lia. change (2 ^ 2) with 4.
    destruct (host_read w1 n (offset `mod` 4) Hw1) as (w2 & -> & Hw2 & Hc2); [|lia|done|].
    { pose proof (Z.mod_pos_bound offset 4). lia. }
    exists w2. rewrite Hsel, Hc1. repeat split; [done|]. intros b. by rewrite Hc2.
Qed.

(** Writing a register: the bits that can be written change. *)
Definition written_cfg (w w' : W) (a n k v : Z) : Prop :=
  host_ok w' /\ forall b, cfg w' b =
    if b =? a then merged (writable b) (cfg w b) (replaced n k v (cfg w b)) else cfg w b.
Lemma arch_write_ok d offset n v w : host_ok w -> reachable d -> fits offset n -> 0 <= v < 2 ^ (8 * n) ->
  exists w', arch_pci_write port_out mmio_write d offset v n w = Ok (true, w') /\
    written_cfg w w' (register (config_space d) offset) n (offset `mod` 4) v.
Proof.
  intros Hw [Hs He] Hf Hv. pose proof Hf as (H0 & H1 & H2 & Hn). unfold arch_pci_write.
  assert (assert_fits n v = Ok tt) as Hfit.
  { unfold assert_fits. destruct ((n =? 1) || (n =? 2)); [|done]. by rewrite (proj2 (Z.leb_le _ _)) by lia. }
  destruct (supports_pcie d).
  - specialize (He eq_refl). pose proof (ecam_bounds _ _ He). unfold arch_pcie_write.
    rewrite fits_ecam, size_listed, Hfit, outcome_bind_ok by done. cbn [negb].
    rewrite wrap_small by (unfold_ints; lia).
    destruct (host_mmio_write w _ _ offset n v Hw He Hf Hv) as (w' & -> & ? & ?). rewrite outcome_bind_ok.
    exists w'. by repeat split.
  - destruct (config_address_ok _ offset Hs) as [Ha Hb]; [lia|]. unfold seek_to_config_space.
    rewrite Ha, outcome_bind_ok. destruct (host_select w _ Hw Hb) as (w1 & -> & Hw1 & Hsel & Hc1).
    rewrite outcome_bind_ok, size_listed, Hfit, outcome_bind_ok by done.
    change 3 with (Z.ones 2). rewrite (Z.land_ones offset 2) by lia. change (2 ^ 2) with 4.
    destruct (host_write w1 n (offset `mod` 4) v Hw1) as (w2 & -> & Hw2 & Hc2); [|lia|done|done|].
    { pose proof (Z.mod_pos_bound offset 4). lia. }
    rewrite outcome_bind_ok. exists w2. repeat split; [done|]. intros b. by rewrite Hc2, Hsel, Hc1.
Qed.

(** ** Sizing a base address register *)
Abbreviation read_bar := (read_bar port_in port_out mmio_read).
Abbreviation write_bar := (write_bar port_out mmio_write).
Abbreviation bar_size_mask := (bar_size_mask port_in port_out mmio_read mmio_write).
Definition bar_register (d : pci_device_info) (index : Z) : Z := register (config_space d) (offsetof_bar_list + index * 4).

Lemma bar_fits index : 0 <= index < 6 -> fits (offsetof_bar_list + index * 4) 4.
Proof. intros Hi. unfold fits, offsetof_bar_list. Z.to_euclidean_division_equations. lia. Qed.
Lemma bar_mod index : (offsetof_bar_list + index * 4) `mod` 4 = 0.
Proof. unfold offsetof_bar_list. replace (16 + index * 4) with ((4 + index) * 4) by lia. by apply Z.mod_mul. Qed.

Lemma read_bar_ok d index w : host_ok w -> reachable d -> 0 <= index < 6 ->
  exists w', read_bar d index w = Ok (cfg w (bar_register d index), w') /\ same_cfg w w'.
Proof.
  intros Hw Hd Hi. destruct (arch_read_ok d _ 4 w Hw Hd (bar_fits index Hi)) as (w' & E & Hs).
  exists w'. unfold Pci.read_bar. rewrite E, bar_mod, bytes_of_all by by apply cfg_bounds. done.
Qed.
Lemma write_bar_ok d index v w : host_ok w -> reachable d -> 0 <= index < 6 -> 0 <= v < 2 ^ 32 ->
  exists w', write_bar d index v w = Ok w' /\ host_ok w' /\ forall b, cfg w' b =
    if b =? bar_register d index then merged (writable b) (cfg w b) v else cfg w b.
Proof.
  intros Hw Hd Hi Hv. destruct (arch_write_ok d _ 4 v w Hw Hd (bar_fits index Hi) Hv) as (w' & E & Hs & Hc).
  exists w'. unfold Pci.write_bar. rewrite E, outcome_bind_ok. split; [done|]. split; [done|].
  intros b. rewrite Hc, bar_mod, replaced_all by by apply cfg_bounds. done.
Qed.

(** All ones where the register can be written, and what it holds elsewhere. *)
Definition size_bits (w : W) (a : Z) : Z := Z.lor (cfg w a) (writable a).
Lemma merged_ones mask old : 0 <= mask < 2 ^ 32 -> merged mask old UINT32_MAX = Z.lor old mask.
Proof.
  intros Hm. unfold merged. change UINT32_MAX with (Z.ones 32). rewrite (Z.land_comm (Z.ones 32)).
  rewrite Z.land_ones, Z.mod_small by lia. apply Z.bits_inj'. intros i Hi.
  rewrite !Z.lor_spec, Z.ldiff_spec. destruct (Z.testbit old i), (Z.testbit mask i); done.
Qed.
Lemma merged_back mask old : merged mask (Z.lor old mask) old = old.
Proof.
  unfold merged. apply Z.bits_inj'. intros i Hi. rewrite Z.lor_spec, Z.ldiff_spec, Z.land_spec, Z.lor_spec.
  destruct (Z.testbit old i), (Z.testbit mask i); done.
Qed.

Lemma bar_size_mask_ok d index w : host_ok w -> reachable d -> 0 <= index < 6 ->
  exists w', bar_size_mask d index (cfg w (bar_register d index)) w =
    Ok (size_bits w (bar_register d index), w') /\ same_cfg w w'.
Proof.
  intros Hw Hd Hi. unfold Pci.bar_size_mask. set (a := bar_register d index).
  destruct (write_bar_ok d index UINT32_MAX w Hw Hd Hi) as (w1 & -> & Hw1 & Hc1); [lia|].
  rewrite outcome_bind_ok. destruct (read_bar_ok d index w1 Hw1 Hd Hi) as (w2 & -> & Hw2 & Hc2).
  rewrite outcome_bind_ok. fold a.
  destruct (write_bar_ok d index (cfg w a) w2 Hw2 Hd Hi (cfg_bounds _ _ Hw)) as (w3 & -> & Hw3 & Hc3).
  rewrite outcome_bind_ok. fold a in Hc1, Hc3. exists w3.
  assert (cfg w1 a = size_bits w a) as E.
  { rewrite Hc1, Z.eqb_refl. apply merged_ones. apply writable_bounds. }
  rewrite E. split; [done|]. split; [done|]. intros b. rewrite Hc3, !Hc2.
  destruct (Z.eqb_spec b a) as [->|Hne].
  - rewrite E. apply merged_back.
  - rewrite Hc1. by rewrite (proj2 (Z.eqb_neq b a)).
Qed.
End host.
