(* ===== verification/PciBars.v ===== *)
(** * Base address registers

    The registers as the specification describes them ([bar_kind]: unused, a
    range of ports, or memory behind one register or two) and what
    [pci_parse_bar] and the loop over all registers make of them. *)
From S2P Require Import Prelude CArith Range Buffer Bitmap Pci PciInv.

(** [k] is the binary logarithm of the size, [base] the address. *)
Inductive bar_kind :=
| Unused
| Ports (k base : Z)
| Memory32 (k base : Z) (prefetchable : bool)
| Memory64 (k base : Z) (prefetchable : bool).
Definition registers_of (b : bar_kind) : Z := match b with Memory64 _ _ _ => 2 | _ => 1 end.
Definition pref_bit (p : bool) : Z := if p then 8 else 0.

(** ** Numbers with their low bits apart *)
Lemma lor_high n k b f : 0 <= k <= n -> 0 <= b < 2 ^ (n - k) -> 0 <= f < 2 ^ k ->
  Z.lor (f + b * 2 ^ k) (2 ^ n - 2 ^ k) = 2 ^ n - 2 ^ k + f.
Proof.
  intros Hk Hb Hf. assert (2 ^ n - 2 ^ k = Z.ones (n - k) * 2 ^ k) as E.
  { rewrite Z.ones_equiv. replace n with (n - k + k) at 1 by lia. rewrite Z.pow_add_r by lia. lia. }
  rewrite E, Z.add_comm with (m := f), <- (lor_field f b), <- (lor_field f (Z.ones (n - k))) by lia.
  rewrite <- Z.shiftl_mul_pow2 by lia.
  apply Z.bits_inj'. intros i Hi. rewrite !Z.lor_spec, !Z.shiftl_spec by lia.
  destruct (Z.ltb_spec i k).
  - rewrite !(Z.testbit_neg_r _ (i - k)) by lia. by rewrite !orb_false_r.
  - destruct (Z.ltb_spec (i - k) (n - k)).
    + rewrite Z.ones_spec_low by lia. by rewrite !orb_true_r.
    + rewrite Z.ones_spec_high by lia. rewrite !orb_false_r.
      rewrite <- (Z.mod_small b (2 ^ (n - k))) by lia. by rewrite Z.mod_pow2_bits_high, orb_false_r by lia.
Qed.

Lemma land_port_mask x : 0 <= x < 2 ^ 32 -> Z.land x PCI_BAR_PORT_ADDR_SIZE_MASK = x / 4 * 4.
Proof. intros Hx. by apply (land_shifted_ones x 2 30). Qed.
Lemma land_memory_mask x : 0 <= x < 2 ^ 32 -> Z.land x PCI_BAR_32B_ADDR_SIZE_MASK = x / 16 * 16.
Proof. intros Hx. by apply (land_shifted_ones x 4 28). Qed.
Lemma land_low x m : 0 <= m < 16 -> Z.land x m = Z.land (x `mod` 16) m.
Proof.
  intros Hm. change 16 with (2 ^ 4). rewrite <- Z.land_ones by lia. rewrite <- Z.land_assoc. f_equal.
  rewrite Z.land_comm, Z.land_ones by lia. symmetry. by apply Z.mod_small.
Qed.
Lemma complement_32 x : 0 < x < 2 ^ 32 -> u32 (u32 (Z.lnot x) + 1) = 2 ^ 32 - x.
Proof.
  intros Hx. unfold Z.lnot. assert (u32 (Z.pred (- x)) = 2 ^ 32 - x - 1) as ->.
  { unfold wrap. symmetry. apply (Z.mod_unique_pos _ _ (-1)); lia. }
  rewrite wrap_small by (unfold_ints; lia). lia.
Qed.
Lemma complement_64 x : 0 < x < 2 ^ 64 -> u64 (u64 (Z.lnot x) + 1) = 2 ^ 64 - x.
Proof.
  intros Hx. unfold Z.lnot. assert (u64 (Z.pred (- x)) = 2 ^ 64 - x - 1) as ->.
  { unfold wrap. symmetry. apply (Z.mod_unique_pos _ _ (-1)); lia. }
  rewrite wrap_small by (unfold_ints; lia). lia.
Qed.
Lemma pow_multiple k n : 0 <= n <= k -> exists q, 2 ^ k = q * 2 ^ n /\ 0 < q.
Proof.
  intros Hn. exists (2 ^ (k - n)). rewrite <- Z.pow_add_r by lia. split; [f_equal; lia|apply pow2_pos; lia].
Qed.

Section host.
Context {W : Type}.
Context {port_in : Z -> Z -> W -> outcome (Z * W)} {port_out : Z -> Z -> Z -> W -> outcome W}.
Context {mmio_read : Z -> Z -> W -> outcome (Z * W)} {mmio_write : Z -> Z -> Z -> W -> outcome W}.
Context {host : PciHost port_in port_out mmio_read mmio_write}.

(** What register [i] and the next hold and which bits can be written. *)
Definition described (d : pci_device_info) (w : W) (i : Z) (b : bar_kind) : Prop :=
  let value j := cfg w (bar_register d j) in
  let mask j := writable (bar_register d j) in
  match b with
  | Unused => value i = 0 /\ mask i = 0
  | Ports k base =>
      2 <= k < 32 /\ 0 <= base /\ base + 2 ^ k <= 2 ^ 32 /\ (exists q, base = q * 2 ^ k) /\
      value i = base + 1 /\ mask i = 2 ^ 32 - 2 ^ k
  | Memory32 k base p =>
      4 <= k < 32 /\ 0 <= base /\ base + 2 ^ k <= 2 ^ 32 /\ (exists q, base = q * 2 ^ k) /\
      value i = base + pref_bit p /\ mask i = 2 ^ 32 - 2 ^ k
  | Memory64 k base p =>
      4 <= k < 64 /\ 0 <= base /\ base + 2 ^ k <= 2 ^ 64 /\ (exists q, base = q * 2 ^ k) /\
      value i = base `mod` 2 ^ 32 + 4 + pref_bit p /\ mask i = (2 ^ 64 - 2 ^ k) `mod` 2 ^ 32 /\
      value (i + 1) = base / 2 ^ 32 /\ mask (i + 1) = (2 ^ 64 - 2 ^ k) / 2 ^ 32
  end.

(** What the parser answers.  A prefetchable 32-bit register comes out 8 bytes
    short. *)
Definition bar_range (b : bar_kind) : range :=
  match b with
  | Unused => RANGE_EMPTY
  | Ports k base => RANGE_INIT base (2 ^ k)
  | Memory32 k base p => RANGE_INIT base (2 ^ k - pref_bit p)
  | Memory64 k base p => RANGE_INIT base (2 ^ k)
  end.
Definition parsed_bar (b : bar_kind) : pci_device_bar_info :=
  match b with
  | Unused => bar_zero
  | Ports _ _ => bar_present (bar_range b) bar_zero
  | Memory32 _ _ p => bar_memory p (bar_present (bar_range b) bar_zero)
  | Memory64 _ _ p => bar_memory p (bar_present (bar_range b) (bar_64_bit true bar_zero))
  end.
Definition parsed_result (b : bar_kind) : parse_bar_result :=
  match b with Unused => E_PARSE_BAR_IGNORE | _ => E_PARSE_BAR_OK end.

Abbreviation parse_size := (pci_bar_parse_size port_in port_out mmio_read mmio_write).
Abbreviation parse_bar := (pci_parse_bar port_in port_out mmio_read mmio_write).

(** A register whose bits above [k] can be written, and which holds [f] below. *)
Lemma size_bits_ok w a k b f : 0 <= k < 32 -> 0 <= b < 2 ^ (32 - k) -> 0 <= f < 2 ^ k ->
  cfg w a = b * 2 ^ k + f -> writable a = 2 ^ 32 - 2 ^ k -> size_bits w a = 2 ^ 32 - 2 ^ k + f.
Proof. intros Hk Hb Hf Hc Hm. unfold size_bits. rewrite Hc, Hm, Z.add_comm. apply lor_high; lia. Qed.

Lemma parse_size_small d i base_addr bar k b f w : host_ok w -> reachable d -> 0 <= i < 6 ->
  is_64_bit bar = false -> is_mmio bar = false -> 2 <= k < 32 -> 0 <= b < 2 ^ (32 - k) -> 0 <= f < 2 ^ k ->
  cfg w (bar_register d i) = b * 2 ^ k + f -> writable (bar_register d i) = 2 ^ 32 - 2 ^ k ->
  exists w', parse_size d bar base_addr i (cfg w (bar_register d i)) w =
    Ok (E_PARSE_BAR_OK, bar_present (RANGE_INIT base_addr (2 ^ k - f / 4 * 4)) bar, w') /\ same_cfg w w'.
Proof.
  intros Hw Hd Hi H64 Hmm Hk Hb Hf Hc Hm. unfold pci_bar_parse_size.
  destruct (bar_size_mask_ok d i w Hw Hd Hi) as (w' & -> & Hs). rewrite outcome_bind_ok, H64, Hmm.
  rewrite (size_bits_ok w _ k b f) by (done || lia).
  destruct (pow_multiple k 2 ltac:(lia)) as (q & Eq & Hq).
  assert (2 ^ k < 2 ^ 32) by (apply pow2_lt; lia).
  rewrite land_port_mask by lia.
  assert ((2 ^ 32 - 2 ^ k + f) / 4 * 4 = 2 ^ 32 - 2 ^ k + f / 4 * 4) as ->.
  { rewrite Eq in *. change (2 ^ 2) with 4 in *. change (2 ^ 32) with (1073741824 * 4).
    replace (1073741824 * 4 - q * 4 + f) with (f + (1073741824 - q) * 4) by lia. rewrite Z.div_add by lia. lia. }
  assert (0 <= f / 4 * 4 <= f) by (Z.to_euclidean_division_equations; lia).
  rewrite complement_32 by lia. rewrite outcome_bind_ok.
  replace (2 ^ 32 - (2 ^ 32 - 2 ^ k + f / 4 * 4)) with (2 ^ k - f / 4 * 4) by lia.
  rewrite (proj2 (Z.eqb_neq _ 0)) by lia. by exists w'.
Qed.

Lemma size_bits_64 d i k base p w : host_ok w -> described d w i (Memory64 k base p) ->
  Z.lor (u64 (Z.shiftl (size_bits w (bar_register d (i + 1))) 32))
    (Z.land (size_bits w (bar_register d i)) PCI_BAR_32B_ADDR_SIZE_MASK) = 2 ^ 64 - 2 ^ k.
Proof.
  intros Hw (Hk & Hb0 & Htop & (q & Eq) & Hlo & Hmlo & Hhi & Hmhi).
  pose proof (pow2_pos k ltac:(lia)). assert (0 <= q) by nia.
  assert (pref_bit p = 0 \/ pref_bit p = 8) as Hp by (destruct p; auto).
  assert (0 <= size_bits w (bar_register d (i + 1)) < 2 ^ 32 /\ size_bits w (bar_register d (i + 1)) = (2 ^ 64 - 2 ^ k) / 2 ^ 32 /\
    Z.land (size_bits w (bar_register d i)) PCI_BAR_32B_ADDR_SIZE_MASK = (2 ^ 64 - 2 ^ k) `mod` 2 ^ 32) as (Hr & Eh & ->).
  { destruct (decide (k < 32)) as [Hlt|Hge].
    - assert (2 ^ k < 2 ^ 32) by (apply pow2_lt; lia).
      assert (2 ^ 32 = 2 ^ (32 - k) * 2 ^ k) as E32 by (rewrite <- Z.pow_add_r by lia; f_equal; lia).
      assert ((2 ^ 64 - 2 ^ k) / 2 ^ 32 = 2 ^ 32 - 1) as Ehi.
      { symmetry. apply (Z.div_unique_pos _ _ _ (2 ^ 32 - 2 ^ k)); lia. }
      assert ((2 ^ 64 - 2 ^ k) `mod` 2 ^ 32 = 2 ^ 32 - 2 ^ k) as Elo.
      { symmetry. apply (Z.mod_unique_pos _ _ (2 ^ 32 - 1)); lia. }
      rewrite Ehi, Elo in *.
      assert (size_bits w (bar_register d (i + 1)) = 2 ^ 32 - 1) as E.
      { unfold size_bits. rewrite Hhi, Hmhi. replace (base / 2 ^ 32) with (0 + base / 2 ^ 32 * 2 ^ 0) by lia.
        change (2 ^ 32 - 1) with (2 ^ 32 - 2 ^ 0). rewrite lor_high; [done|lia| |lia].
        change (32 - 0) with 32. split; [apply Z.div_pos; lia|apply Z.div_lt_upper_bound; lia]. }
      split; [rewrite E; lia|]. split; [done|].
      assert (base `mod` 2 ^ 32 = (q `mod` 2 ^ (32 - k)) * 2 ^ k) as Emod.
      { rewrite Eq, E32. rewrite Z.mul_mod_distr_r by (try apply Z.pow_nonzero; lia). done. }
      pose proof (Z.mod_pos_bound q (2 ^ (32 - k)) ltac:(apply pow2_pos; lia)).
      destruct (pow_multiple k 4 ltac:(lia)) as (q4 & Eq4 & Hq4). change (2 ^ 4) with 16 in Eq4.
      rewrite (size_bits_ok w _ k (q `mod` 2 ^ (32 - k)) (4 + pref_bit p)) by (lia || done).
      rewrite land_memory_mask by lia. rewrite Eq4. change (2 ^ 32) with (268435456 * 16).
      replace (268435456 * 16 - q4 * 16 + (4 + pref_bit p)) with ((4 + pref_bit p) + (268435456 - q4) * 16) by lia.
      rewrite Z.div_add by lia. rewrite (Z.div_small (4 + pref_bit p)) by lia. lia.
    - assert (2 ^ k = 2 ^ (k - 32) * 2 ^ 32) as Ek by (rewrite <- Z.pow_add_r by lia; f_equal; lia).
      pose proof (pow2_pos (k - 32) ltac:(lia)). assert (2 ^ (k - 32) < 2 ^ 32) by (apply pow2_lt; lia).
      assert ((2 ^ 64 - 2 ^ k) / 2 ^ 32 = 2 ^ 32 - 2 ^ (k - 32)) as Ehi.
      { rewrite Ek. change (2 ^ 64) with (2 ^ 32 * 2 ^ 32). rewrite <- Z.mul_sub_distr_r. apply Z.div_mul. lia. }
      assert ((2 ^ 64 - 2 ^ k) `mod` 2 ^ 32 = 0) as Elo.
      { rewrite Ek. change (2 ^ 64) with (2 ^ 32 * 2 ^ 32). rewrite <- Z.mul_sub_distr_r. by apply Z.mod_mul. }
      assert (base = q * 2 ^ (k - 32) * 2 ^ 32) as Eb by (rewrite Eq, Ek; lia).
      assert (base `mod` 2 ^ 32 = 0) as Emod by (rewrite Eb; by apply Z.mod_mul).
      assert (base / 2 ^ 32 = q * 2 ^ (k - 32)) as Ediv by (rewrite Eb; apply Z.div_mul; lia).
      rewrite Ehi, Elo in *. rewrite Emod in Hlo. rewrite Ediv in Hhi.
      assert (size_bits w (bar_register d (i + 1)) = 2 ^ 32 - 2 ^ (k - 32)) as E.
      { unfold size_bits. rewrite Hhi, Hmhi. replace (q * 2 ^ (k - 32)) with (0 + q * 2 ^ (k - 32)) by lia.
        rewrite lor_high; [lia|lia| |lia]. replace (32 - (k - 32)) with (64 - k) by lia. split; [done|].
        assert (2 ^ 64 = 2 ^ (64 - k) * 2 ^ k) by (rewrite <- Z.pow_add_r by lia; f_equal; lia). nia. }
      split; [rewrite E; lia|]. split; [done|]. unfold size_bits. rewrite Hlo, Hmlo.
      by destruct Hp as [-> | ->]. }
  rewrite Eh in Hr |- *. rewrite Z.lor_comm.
  rewrite Z.shiftl_mul_pow2, wrap_small by (unfold_ints; lia). rewrite <- Z.shiftl_mul_pow2 by lia.
  rewrite lor_field by (try apply Z.mod_pos_bound; lia).
  pose proof (Z.div_mod (2 ^ 64 - 2 ^ k) (2 ^ 32) ltac:(lia)). lia.
Qed.
Lemma parse_size_64 d i k base p w : host_ok w -> reachable d -> 0 <= i < 5 -> described d w i (Memory64 k base p) ->
  exists w', parse_size d (bar_64_bit true bar_zero) base i (cfg w (bar_register d i)) w =
    Ok (E_PARSE_BAR_OK, bar_present (RANGE_INIT base (2 ^ k)) (bar_64_bit true bar_zero), w') /\ same_cfg w w'.
Proof.
  intros Hw Hd Hi Hb. pose proof Hb as (Hk & _). unfold pci_bar_parse_size.
  destruct (bar_size_mask_ok d i w Hw Hd ltac:(lia)) as (w1 & -> & Hw1 & Hc1). rewrite outcome_bind_ok.
  change (is_64_bit (bar_64_bit true bar_zero)) with true. cbv iota.
  rewrite (wrap_small 32 (i + 1)) by (unfold_ints; lia).
  destruct (read_bar_ok d (i + 1) w1 Hw1 Hd ltac:(lia)) as (w2 & -> & Hw2 & Hc2). rewrite outcome_bind_ok.
  rewrite <- Hc2. destruct (bar_size_mask_ok d (i + 1) w2 Hw2 Hd ltac:(lia)) as (w3 & -> & Hw3 & Hc3).
  rewrite !outcome_bind_ok.
  assert (size_bits w2 (bar_register d (i + 1)) = size_bits w (bar_register d (i + 1))) as ->.
  { unfold size_bits. by rewrite Hc2, Hc1. }
  rewrite (size_bits_64 d i k base p w Hw Hb).
  assert (0 < 2 ^ k < 2 ^ 64) by (split; [apply pow2_pos|apply pow2_lt]; lia).
  rewrite complement_64 by lia. replace (2 ^ 64 - (2 ^ 64 - 2 ^ k)) with (2 ^ k) by lia.
  rewrite (proj2 (Z.eqb_neq _ 0)) by lia. exists w3. split; [done|].
  split; [done|]. intros b. by rewrite Hc3, Hc2, Hc1.
Qed.

(** ** The bits at the bottom *)
Lemma low_bits base f : base `mod` 16 = 0 -> 0 <= f < 16 -> (base + f) `mod` 16 = f.
Proof. intros Hb Hf. rewrite Z.add_mod, Hb, Z.add_0_l, Z.mod_mod by lia. by apply Z.mod_small. Qed.
Lemma mod_16 k base q : 4 <= k -> base = q * 2 ^ k -> base `mod` 16 = 0.
Proof.
  intros Hk ->. destruct (pow_multiple k 4 ltac:(lia)) as (q' & -> & _). rewrite Z.mul_assoc. by apply Z.mod_mul.
Qed.
Lemma memory_base base f : 0 <= base -> base + f < 2 ^ 32 -> base `mod` 16 = 0 -> 0 <= f < 16 ->
  Z.land (base + f) PCI_BAR_32B_ADDR_SIZE_MASK = base.
Proof.
  intros H0 H1 Hm Hf. rewrite land_memory_mask by lia. pose proof (low_bits base f Hm Hf).
  pose proof (Z.div_mod (base + f) 16 ltac:(lia)). lia.
Qed.
Lemma memory_bits base f m : base `mod` 16 = 0 -> 0 <= f < 16 -> 0 <= m < 16 -> Z.land (base + f) m = Z.land f m.
Proof. intros Hb Hf Hm. by rewrite land_low, low_bits by done. Qed.
Lemma prefetch_read p : negb (Z.land (pref_bit p) __PCI_DEVBAR_PREFETCHABLE =? 0) = p.
Proof. by destruct p. Qed.

(** ** One register *)
Lemma parse_ports d i k base w : host_ok w -> reachable d -> 0 <= i < 6 -> described d w i (Ports k base) ->
  exists w', parse_bar d i false bar_zero w =
    Ok (E_PARSE_BAR_OK, parsed_bar (Ports k base), i, w') /\ same_cfg w w'.
Proof.
  intros Hw Hd Hi (Hk & H0 & Htop & (q & Eq) & Hv & Hm). unfold pci_parse_bar.
  destruct (read_bar_ok d i w Hw Hd Hi) as (w1 & -> & Hw1 & Hc1). rewrite outcome_bind_ok.
  destruct (pow_multiple k 2 ltac:(lia)) as (q2 & E2 & Hq2). change (2 ^ 2) with 4 in E2.
  assert (2 ^ 32 = 2 ^ (32 - k) * 2 ^ k) as E32 by (rewrite <- Z.pow_add_r by lia; f_equal; lia).
  assert (Z.land (cfg w (bar_register d i)) __PCI_DEVBAR_IO = 1) as ->.
  { change __PCI_DEVBAR_IO with (Z.ones 1). rewrite Z.land_ones by lia. rewrite Hv, Eq, E2.
    symmetry. apply (Z.mod_unique_pos _ _ (q * q2 * 2)); lia. }
  cbn [Z.eqb negb]. assert (1 < 2 ^ k) by lia. assert (0 <= q < 2 ^ (32 - k)) as Hq by nia.
  assert (Z.land (cfg w (bar_register d i)) PCI_BAR_PORT_ADDR_SIZE_MASK = base) as ->.
  { rewrite Hv, land_port_mask by lia. rewrite Eq, E2.
    replace (q * (q2 * 4) + 1) with (1 + q * q2 * 4) by lia. rewrite Z.div_add by lia. change (1 / 4) with 0. lia. }
  rewrite <- (Hc1 (bar_register d i)).
  destruct (parse_size_small d i base bar_zero k q 1 w1) as (w2 & Hp & Hw2 & Hc2);
    [done|done|done|done|done|lia|done|lia|rewrite Hc1; lia|done|].
  rewrite Hp, outcome_bind_ok. exists w2. split.
  - change (1 / 4 * 4) with 0. by rewrite Z.sub_0_r.
  - split; [done|]. intros b. by rewrite Hc2, Hc1.
Qed.
Lemma parse_memory32 d i k base p w : host_ok w -> reachable d -> 0 <= i < 6 -> described d w i (Memory32 k base p) ->
  exists w', parse_bar d i false bar_zero w =
    Ok (E_PARSE_BAR_OK, parsed_bar (Memory32 k base p), i, w') /\ same_cfg w w'.
Proof.
  intros Hw Hd Hi (Hk & H0 & Htop & (q & Eq) & Hv & Hm). unfold pci_parse_bar.
  destruct (read_bar_ok d i w Hw Hd Hi) as (w1 & -> & Hw1 & Hc1). rewrite outcome_bind_ok.
  assert (2 ^ 32 = 2 ^ (32 - k) * 2 ^ k) as E32 by (rewrite <- Z.pow_add_r by lia; f_equal; lia).
  assert (16 <= 2 ^ k) by (change 16 with (2 ^ 4); apply Z.pow_le_mono_r; lia).
  assert (0 <= q < 2 ^ (32 - k)) as Hq by nia. pose proof (mod_16 k base q ltac:(lia) Eq) as H16.
  assert (0 <= pref_bit p < 16 /\ pref_bit p / 4 * 4 = pref_bit p) as [Hp1 Hp2] by by destruct p.
  assert (base + pref_bit p < 2 ^ 32) by lia.
  rewrite Hv, memory_base by (done || lia).
  rewrite (memory_bits base (pref_bit p) __PCI_DEVBAR_IO), (memory_bits base (pref_bit p) __PCI_DEVBAR_MEMKIND_MASK) by done.
  assert (Z.land (pref_bit p) __PCI_DEVBAR_IO = 0 /\ Z.land (pref_bit p) __PCI_DEVBAR_MEMKIND_MASK = 0) as [-> ->]
    by by destruct p.
  change (Z.shiftr 0 __PCI_DEVBAR_MEMKIND_SHIFT) with 0. cbn [Z.eqb negb]. change (0 =? PCI_DEVBAR_MEMSPACE_32B) with true.
  cbv iota. rewrite <- Hv, <- (Hc1 (bar_register d i)).
  destruct (parse_size_small d i base bar_zero k q (pref_bit p) w1) as (w2 & Hp & Hw2 & Hc2);
    [done|done|done|done|done|lia|done|lia|rewrite Hc1; lia|done|].
  rewrite Hp, outcome_bind_ok. exists w2. split.
  - rewrite Hp2. unfold mmio_map. rewrite Hc1, Hv, memory_bits by (done || lia). by rewrite prefetch_read.
  - split; [done|]. intros b. by rewrite Hc2, Hc1.
Qed.

Lemma parse_memory64 d i k base p w : host_ok w -> reachable d -> 0 <= i < 5 -> described d w i (Memory64 k base p) ->
  exists w', parse_bar d i false bar_zero w =
    Ok (E_PARSE_BAR_OK, parsed_bar (Memory64 k base p), i + 1, w') /\ same_cfg w w'.
Proof.
  intros Hw Hd Hi Hb. pose proof Hb as (Hk & H0 & Htop & (q & Eq) & Hv & Hm & Hv1 & Hm1). unfold pci_parse_bar.
  destruct (read_bar_ok d i w Hw Hd ltac:(lia)) as (w1 & -> & Hw1 & Hc1). rewrite outcome_bind_ok.
  pose proof (mod_16 k base q ltac:(lia) Eq) as H16. pose proof (pow2_pos k ltac:(lia)).
  pose proof (Z.mod_pos_bound base (2 ^ 32) ltac:(lia)) as Hmod.
  assert ((base `mod` 2 ^ 32) `mod` 16 = 0) as H16'.
  { change (2 ^ 32) with (16 * 268435456). rewrite Z.rem_mul_r, H16 by lia. rewrite Z.add_0_l, Z.mul_comm. by apply Z.mod_mul. }
  assert (base `mod` 2 ^ 32 + 16 <= 2 ^ 32).
  { pose proof (Z.div_mod (base `mod` 2 ^ 32) 16 ltac:(lia)). lia. }
  assert (0 <= 4 + pref_bit p < 16) by by destruct p.
  rewrite Hv, <- !Z.add_assoc, memory_base by (done || lia).
  rewrite (memory_bits _ (4 + pref_bit p) __PCI_DEVBAR_IO), (memory_bits _ (4 + pref_bit p) __PCI_DEVBAR_MEMKIND_MASK) by done.
  assert (Z.land (4 + pref_bit p) __PCI_DEVBAR_IO = 0 /\ Z.land (4 + pref_bit p) __PCI_DEVBAR_MEMKIND_MASK = 4) as [-> ->]
    by by destruct p.
  change (Z.shiftr 4 __PCI_DEVBAR_MEMKIND_SHIFT) with 2. cbn [Z.eqb negb].
  change (2 =? PCI_DEVBAR_MEMSPACE_32B) with false. change (2 =? PCI_DEVBAR_MEMSPACE_64B) with true. cbn [negb]. cbv iota.
  rewrite (proj2 (Z.eqb_neq i _)) by (unfold PCI_BAR_COUNT_FOR_GENERAL; lia).
  destruct (read_bar_ok d (i + 1) w1 Hw1 Hd ltac:(lia)) as (w2 & -> & Hw2 & Hc2). rewrite outcome_bind_ok.
  rewrite Hc1, Hv1, lor_field by lia.
  replace (base `mod` 2 ^ 32 + base / 2 ^ 32 * 2 ^ 32) with base by (pose proof (Z.div_mod base (2 ^ 32) ltac:(lia)); lia).
  rewrite Z.add_assoc, <- Hv. assert (same_cfg w w2) as Hs by (split; [done|]; intros b; by rewrite Hc2, Hc1).
  rewrite <- (proj2 Hs (bar_register d i)).
  destruct (parse_size_64 d i k base p w2) as (w3 & -> & Hw3 & Hc3);
    [done|done|done|unfold described; by rewrite !(proj2 Hs)|].
  rewrite outcome_bind_ok. exists w3. split.
  - unfold mmio_map. rewrite wrap_small by (unfold_ints; lia).
    rewrite (proj2 Hs), Hv, <- Z.add_assoc, memory_bits by (done || lia).
    assert (negb (Z.land (4 + pref_bit p) __PCI_DEVBAR_PREFETCHABLE =? 0) = p) as -> by by destruct p. done.
  - apply (same_cfg_trans w w2 w3); [done|by split].
Qed.

Lemma parse_unused d i w : host_ok w -> reachable d -> 0 <= i < 6 -> described d w i Unused ->
  exists w', parse_bar d i false bar_zero w = Ok (E_PARSE_BAR_IGNORE, bar_zero, i, w') /\ same_cfg w w'.
Proof.
  intros Hw Hd Hi [Hv Hm]. unfold pci_parse_bar.
  destruct (read_bar_ok d i w Hw Hd Hi) as (w1 & -> & Hw1 & Hc1). rewrite outcome_bind_ok, Hv.
  cbn -[pci_bar_parse_size].
  unfold pci_bar_parse_size. rewrite <- Hv, <- (Hc1 (bar_register d i)).
  destruct (bar_size_mask_ok d i w1 Hw1 Hd Hi) as (w2 & -> & Hw2 & Hc2). rewrite outcome_bind_ok.
  unfold size_bits. rewrite Hc1, Hv, Hm. exists w2. split; [done|]. split; [done|]. intros b. by rewrite Hc2, Hc1.
Qed.

(** What one register is taken for. *)
Lemma pci_parse_bar_ok d i b w : host_ok w -> reachable d -> 0 <= i -> i + registers_of b <= 6 -> described d w i b ->
  exists w', parse_bar d i false bar_zero w =
    Ok (parsed_result b, parsed_bar b, i + registers_of b - 1, w') /\ same_cfg w w'.
Proof.
  intros Hw Hd H0 H6 Hb. destruct b as [|k base|k base p|k base p]; cbn [registers_of parsed_result] in *.
  - replace (i + 1 - 1) with i by lia. apply parse_unused; (done || lia).
  - replace (i + 1 - 1) with i by lia. apply parse_ports; (done || lia).
  - replace (i + 1 - 1) with i by lia. apply parse_memory32; (done || lia).
  - replace (i + 2 - 1) with (i + 1) by lia. apply parse_memory64; (done || lia).
Qed.
(** ** All registers of a device *)
Definition registers (bs : list bar_kind) : Z := fold_right (fun b n => registers_of b + n) 0 bs.
Fixpoint layout (d : pci_device_info) (w : W) (i : Z) (bs : list bar_kind) : Prop :=
  match bs with
  | [] => True
  | b :: bs => described d w i b /\ layout d w (i + registers_of b) bs
  end.
(** The upper half of a 64-bit register leaves its entry as it was. *)
Definition parsed_entries (b : bar_kind) : list pci_device_bar_info :=
  match b with Memory64 _ _ _ => [parsed_bar b; bar_zero] | _ => [parsed_bar b] end.
Definition has_memory (b : bar_kind) : bool := match b with Memory32 _ _ _ | Memory64 _ _ _ => true | _ => false end.
Definition has_ports (b : bar_kind) : bool := match b with Ports _ _ => true | _ => false end.

Lemma same_layout d w w' bs : forall i, same_cfg w w' -> layout d w i bs -> layout d w' i bs.
Proof.
  induction bs as [|b bs IH]; intros i Hs; [done|]. intros [Hb Hl]. split; [|by apply IH].
  destruct Hs as [_ Hc]. unfold described in *. by rewrite !Hc.
Qed.
Lemma layout_space d d' w bs : forall i, config_space d' = config_space d -> layout d w i bs -> layout d' w i bs.
Proof.
  induction bs as [|b bs IH]; intros i Hc; [done|]. intros [Hb Hl]. split; [|by apply IH].
  unfold described, bar_register in *. by rewrite Hc.
Qed.
Lemma registers_nonneg bs : 0 <= registers bs.
Proof. induction bs as [|b bs IH]; [done|]. change (registers (b :: bs)) with (registers_of b + registers bs). destruct b; cbn; lia. Qed.
Lemma with_bars_twice n m l l' d : with_bars n l (with_bars m l' d) = with_bars n l d.
Proof. done. Qed.
Lemma length_parsed_entries b : Z.of_nat (length (parsed_entries b)) = registers_of b.
Proof. by destruct b. Qed.
(** The entry of the first register is replaced. *)
Lemma store_parsed l b n : registers_of b <= Z.of_nat n ->
  <[length l := parsed_bar b]> (l ++ replicate n bar_zero) =
  (l ++ parsed_entries b) ++ replicate (n - length (parsed_entries b)) bar_zero.
Proof.
  intros Hn. rewrite insert_app_r_alt by lia. rewrite Nat.sub_diag, <- app_assoc. f_equal.
  destruct b; cbn [registers_of parsed_entries length app] in *; (destruct n as [|n]; [lia|]);
    cbn [replicate list_insert]; rewrite ?Nat.sub_succ, ?Nat.sub_0_r; try done.
  destruct n as [|n]; [lia|]. cbn. by rewrite Nat.sub_0_r.
Qed.

Abbreviation parse_bars := (parse_bars port_in port_out mmio_read mmio_write).
Lemma parse_bars_layout bs : forall fuel l d w mmio io, host_ok w -> reachable d ->
  Z.of_nat (length l) + registers bs = 6 -> layout d w (Z.of_nat (length l)) bs ->
  (length bs <= fuel)%nat ->
  exists w', parse_bars fuel false (Z.of_nat (length l)) mmio io
      (with_bars 6 (l ++ replicate (6 - length l) bar_zero) d) w =
    Ok (with_bars 6 (l ++ concat (map parsed_entries bs)) d, mmio || existsb has_memory bs,
        io || existsb has_ports bs, w') /\ same_cfg w w'.
Proof.
  induction bs as [|b bs IH]; intros fuel l d w mmio io Hw Hd Hlen Hl Hf.
  - exists w. change (registers []) with 0 in Hlen. replace (length l) with 6%nat by lia. cbn. rewrite !orb_false_r.
    split; [|by apply same_cfg_refl]. by destruct fuel.
  - pose proof (registers_nonneg bs). destruct fuel as [|fuel]; [cbn in Hf; lia|]. change (registers (b :: bs)) with (registers_of b + registers bs) in Hlen. destruct Hl as [Hb Hl].
    assert (1 <= registers_of b) by (destruct b; cbn; lia).
    cbn [Pci.parse_bars]. cbn [max_bar_count with_bars bar_list]. rewrite (proj2 (Z.eqb_neq _ 6)) by lia.
    rewrite (nth_entry_ok _ _ bar_zero) by (rewrite lookup_app_r by lia; apply lookup_replicate_2; lia).
    rewrite outcome_bind_ok.
    destruct (pci_parse_bar_ok (with_bars 6 (l ++ replicate (6 - length l) bar_zero) d) (Z.of_nat (length l)) b w)
      as (w1 & -> & Hs); [done|done|lia|lia|done|]. rewrite outcome_bind_ok.
    assert (set_entry (Z.of_nat (length l)) (parsed_bar b) (l ++ replicate (6 - length l) bar_zero) =
      Ok ((l ++ parsed_entries b) ++ replicate (6 - length (l ++ parsed_entries b)) bar_zero)) as Hset.
    { rewrite set_entry_ok by (rewrite length_app, length_replicate; lia). f_equal.
      rewrite store_parsed by lia. by rewrite length_app, Nat.sub_add_distr. }
    rewrite wrap_small by (unfold_ints; lia).
    pose proof (length_parsed_entries b) as Hpl.
    assert (Z.of_nat (length (l ++ parsed_entries b)) = Z.of_nat (length l) + registers_of b) as Hll
      by (rewrite length_app; lia).
    replace (Z.of_nat (length l) + registers_of b - 1 + 1) with (Z.of_nat (length (l ++ parsed_entries b))) by lia.
    assert (forall mmio' io', exists w', parse_bars fuel false (Z.of_nat (length (l ++ parsed_entries b))) mmio' io'
      (with_bars 6 ((l ++ parsed_entries b) ++ replicate (6 - length (l ++ parsed_entries b)) bar_zero) d) w1 =
      Ok (with_bars 6 (l ++ concat (map parsed_entries (b :: bs))) d, mmio' || existsb has_memory bs,
        io' || existsb has_ports bs, w') /\ same_cfg w w') as Hrest.
    { intros mmio' io'. destruct (IH fuel (l ++ parsed_entries b) d w1 mmio' io') as (w2 & -> & Hs2);
        [by destruct Hs|done|lia|rewrite Hll; by apply (same_layout d w)|cbn in Hf; lia|].
      exists w2. cbn [map concat]. rewrite <- app_assoc. split; [done|]. by apply (same_cfg_trans w w1). }
    destruct b as [|k base|k base p|k base p]; cbn [parsed_result parsed_bar]; cbv iota zeta;
      change (bar_absent bar_zero) with bar_zero; cbn [parsed_bar] in Hset; rewrite Hset, outcome_bind_ok;
      cbn [existsb has_memory has_ports]; rewrite ?orb_assoc, ?orb_false_r; apply Hrest.
Qed.
End host.
