(* ===== verification/PciCaps.v ===== *)
(** * The capabilities of a device

    A chain of capabilities in the configuration space, as the specification
    lays it out, and what [pci_parse_capabilities] makes of it. *)
From S2P Require Import Prelude CArith Range Buffer BufferInv Bitmap Pci PciInv.

Record capability := { cap_at : Z; cap_kind : Z }.

Section host.
Context {W H : Type}.
Context {port_in : Z -> Z -> W -> outcome (Z * W)} {port_out : Z -> Z -> Z -> W -> outcome W}.
Context {mmio_read : Z -> Z -> W -> outcome (Z * W)} {mmio_write : Z -> Z -> Z -> W -> outcome W}.
Context {malloc_size : Z -> H -> outcome (option (Z * list Z) * H)} {free : Z -> H -> outcome H}.
Context {host : PciHost port_in port_out mmio_read mmio_write} {heap : Malloc malloc_size free}.
Context (supports_msi : bool).

(** Bytes and words of the configuration space. *)
Definition field_at (d : pci_device_info) (w : W) (offset n : Z) : Z :=
  bytes_of n (offset `mod` 4) (cfg w (register (config_space d) offset)).
Definition byte_at (d : pci_device_info) (w : W) (offset : Z) : Z := field_at d w offset 1.

(** The capabilities from [offset] on; their offsets are multiples of four. *)
Fixpoint chain (d : pci_device_info) (w : W) (offset : Z) (l : list capability) : Prop :=
  match l with
  | [] => offset = 0 \/ offset = 255
  | c :: l => offset = cap_at c /\ 64 <= offset <= 252 /\ offset `mod` 4 = 0 /\
              byte_at d w offset = cap_kind c /\ chain d w (byte_at d w (offset + 1)) l
  end.

(** What they mean: PCI Express, the vendor's own ones, and the first MSI-X
    or else the last MSI. *)
Definition has_kind (kind : Z) (c : capability) : bool := cap_kind c =? kind.
Definition vendor_offsets (l : list capability) : list Z :=
  map cap_at (List.filter (has_kind PCI_SPEC_CAP_ID_VENDOR_SPECIFIC) l).
Definition msi_step (s : pci_device_msi_support * Z) (c : capability) : pci_device_msi_support * Z :=
  if msi_support_eqb (fst s) PCI_DEVICE_MSI_SUPPORT_MSIX then s
  else if has_kind PCI_SPEC_CAP_ID_MSI c then (PCI_DEVICE_MSI_SUPPORT_MSI, cap_at c)
  else if has_kind PCI_SPEC_CAP_ID_MSI_X c then (PCI_DEVICE_MSI_SUPPORT_MSIX, cap_at c)
  else s.
Definition chosen (l : list capability) (s : pci_device_msi_support * Z) : pci_device_msi_support * Z :=
  if supports_msi then fold_left msi_step l s else s.

Definition table_entries (d : pci_device_info) (w : W) (offset : Z) : Z :=
  Z.land (field_at d w (offset + 2) 2) __PCI_CAP_MSIX_TABLE_SIZE_MASK + 1.

(** The part of the device that is on the heap. *)
Record caps_ok (d : pci_device_info) (w : W) (h : H) (l : list Z) : Prop := {
  co_size : object_size (vendor_cap_list d) = 1;
  co_list : gb_in (gbuffer (vendor_cap_list d)) h (gb_owned (msix_table d) ++ l);
  co_table : gb_wf (msix_table d);
  co_none : msi_support_eqb (msi_support d) PCI_DEVICE_MSI_SUPPORT_MSIX = false -> msix_table d = GBUFFER_INIT;
  co_msix : msi_support_eqb (msi_support d) PCI_DEVICE_MSI_SUPPORT_MSIX = true ->
    table_entries d w (pcie_msi_offset d) <= 8 * Z.of_nat (length (gb_data (msix_table d)));
}.
Lemma same_chain d w w' : forall l offset, same_cfg w w' -> chain d w offset l -> chain d w' offset l.
Proof.
  intros l. induction l as [|c l IH]; intros offset Hs; [done|]. intros (E & Hr & Hm & Hk & Hc).
  destruct (Hs) as [_ Hcfg]. cbn [chain]. unfold byte_at, field_at in *. rewrite !Hcfg. split_and!; try (done || lia).
  by apply IH.
Qed.
Lemma same_field d w w' offset n : same_cfg w w' -> field_at d w' offset n = field_at d w offset n.
Proof. intros [_ Hc]. unfold field_at. by rewrite Hc. Qed.

Definition accessible (d : pci_device_info) : Prop :=
  space_ok (config_space d) /\ ecam (pcie_info d) (function_address (config_space d)).
Lemma accessible_reachable d : accessible d -> reachable d.
Proof. intros [Hs He]. by split. Qed.

Abbreviation read_at := (pci_read_with_offset port_in port_out mmio_read).
Lemma cap_read_ok d w offset f : host_ok w -> accessible d -> 0 <= offset -> fits (offset + offsetof f) (sizeof_field f) ->
  exists w', read_at d offset f w = Ok (field_at d w (offset + offsetof f) (sizeof_field f), w') /\ same_cfg w w'.
Proof.
  intros Hw Hd Ho Hf. unfold pci_read_with_offset. pose proof Hf as (H0 & H1 & _ & Hn).
  rewrite wrap_small by (unfold_ints; lia). apply arch_read_ok; [done|by apply accessible_reachable|done].
Qed.

(** ** The checks in front of a capability *)
Lemma visited_apart v offset : v `mod` 4 = 0 -> 64 <= v <= 252 -> offset `mod` 4 = 0 -> 64 <= offset <= 252 ->
  v <> offset -> visited_by offset v = false.
Proof.
  intros Hv Hv' Ho Ho' Hne. unfold visited_by. rewrite (proj2 (Z.eqb_neq _ _)) by done. cbn [orb].
  unfold range_has_loc. cbn [front size]. destruct (offset >=? v) eqn:E; [|done].
  rewrite Z.geb_leb in E. bool_props. cbn [andb]. rewrite wrap_small by (unfold_ints; lia).
  apply Z.ltb_ge. unfold sizeof_pci_spec_capability. Z.to_euclidean_division_equations. lia.
Qed.
Lemma validate_ok a offset : object_size a = 1 -> gb_wf (gbuffer a) -> 64 <= offset <= 252 -> offset `mod` 4 = 0 ->
  Forall (fun v => v `mod` 4 = 0 /\ 64 <= v <= 252 /\ v <> offset) (gb_bytes (gbuffer a)) ->
  validate_cap_offset a offset = Ok true.
Proof.
  intros Hsz Hwf Ho Hm Hall. unfold validate_cap_offset. unfold index_in_bounds. cbn [offsetof info_data].
  rewrite (proj2 (Z.ltb_ge _ _)) by lia.
  assert (range_has_index_range (rangeof_field info_data) (RANGE_INIT offset sizeof_pci_spec_capability) = true) as ->.
  { unfold range_has_index_range, range_has_index, index_in_bounds. cbn [front size rangeof_field info_data offsetof sizeof_field].
    rewrite (proj2 (Z.ltb_lt _ _)) by lia. cbn [negb]. rewrite wrap_small by (unfold_ints; lia).
    rewrite Z.geb_leb. apply Z.leb_le. unfold sizeof_pci_spec_capability. lia. }
  cbn [negb]. unfold array_item_count. rewrite Hsz. change (c_assert (1 =? 1)) with (Ok tt). change (1 =? 0) with false. cbv iota. rewrite !outcome_bind_ok.
  unfold gbuffer_used_size. rewrite Z.div_1_r. rewrite read_bytes_prefix by apply wf_index, Hwf.
  rewrite outcome_bind_ok. f_equal. apply negb_true_iff. fold (gb_bytes (gbuffer a)).
  apply not_true_iff_false. rewrite existsb_exists. intros (v & Hin%list_elem_of_In & Hv).
  rewrite Forall_forall in Hall. destruct (Hall v Hin) as (? & ? & ?). by rewrite visited_apart in Hv.
Qed.

(** ** One capability *)
Lemma owned_last (gb : growable_buffer) h p l : heap_owns h (p :: gb_owned gb ++ l) -> heap_owns h (gb_owned gb ++ p :: l).
Proof. unfold gb_owned. destruct (gb_is_alloc gb); [apply heap_owns_swap|done]. Qed.

Abbreviation parse_msix := (parse_msix port_in port_out mmio_read malloc_size supports_msi).
Abbreviation parse_capability := (parse_capability port_in port_out mmio_read malloc_size free supports_msi).

(** What a capability leaves of the device: the result of [msi_step], the list
    with its offset, or PCI Express. *)
Definition after (d d' : pci_device_info) (l : list capability) : Prop :=
  exists table caps,
    d' = with_caps (supports_pcie d || existsb (has_kind PCI_SPEC_CAP_ID_PCI_EXPRESS) l)
           (fst (chosen l (msi_support d, pcie_msi_offset d))) (snd (chosen l (msi_support d, pcie_msi_offset d)))
           table caps d /\
    gb_bytes (gbuffer caps) = gb_bytes (gbuffer (vendor_cap_list d)) ++ vendor_offsets l /\
    gb_index (gbuffer caps) = gb_index (gbuffer (vendor_cap_list d)) + Z.of_nat (length (vendor_offsets l)).

Lemma after_app d d1 d2 l1 l2 : after d d1 l1 -> after d1 d2 l2 -> after d d2 (l1 ++ l2).
Proof.
  intros (t1 & c1 & -> & Hb1 & Hi1) (t2 & c2 & -> & Hb2 & Hi2). exists t2, c2.
  cbn in Hb2, Hi2. rewrite existsb_app, orb_assoc. unfold vendor_offsets in *.
  rewrite List.filter_app, map_app, app_assoc, <- Hb1, length_app, Nat2Z.inj_add.
  split; [|split; [done|lia]]. unfold with_caps. cbn. rewrite <- surjective_pairing.
  assert (forall s, chosen (l1 ++ l2) s = chosen l2 (chosen l1 s)) as ->; [|done].
  intros s. unfold chosen. destruct supports_msi; [apply fold_left_app|done].
Qed.
Lemma after_nil d : after d d [].
Proof.
  exists (msix_table d), (vendor_cap_list d). rewrite app_nil_r, Z.add_0_r, orb_false_r. split; [|done].
  unfold chosen. cbn. by destruct d, supports_msi.
Qed.

Lemma caps_same d w w' h l : same_cfg w w' -> caps_ok d w h l -> caps_ok d w' h l.
Proof.
  intros Hs [H1 H2 H3 H4 H5]. split; try done. intros Hm. unfold table_entries in *. rewrite (same_field d w w') by done.
  by apply H5.
Qed.
Lemma cap_fits offset i n : 64 <= offset <= 252 -> offset `mod` 4 = 0 -> 0 <= i -> i + n <= 4 ->
  n = 1 \/ n = 2 \/ n = 4 -> fits (offset + i) n.
Proof. intros Ho Hm Hi Hn Hs. unfold fits. Z.to_euclidean_division_equations. lia. Qed.
Ltac fits_tac := apply cap_fits; [done|done|cbn; lia..].
Lemma with_caps_id d : with_caps (supports_pcie d) (msi_support d) (pcie_msi_offset d) (msix_table d) (vendor_cap_list d) d = d.
Proof. by destruct d. Qed.
Lemma msix_false s : msi_support_eqb s PCI_DEVICE_MSI_SUPPORT_MSIX = true -> s = PCI_DEVICE_MSI_SUPPORT_MSIX.
Proof. by destruct s. Qed.

Lemma bitmap_alloc_ok n h l : heap_owns h l -> 0 < n <= 1024 -> 256 <= malloc_limit ->
  exists b h', bitmap_alloc malloc_size n h = Ok (b, h') /\ heap_owns h' (gb_begin b :: l) /\ gb_wf b /\
    gb_is_alloc b = true /\ 0 < gb_begin b /\ n <= 8 * Z.of_nat (length (gb_data b)).
Proof.
  intros Hh Hn Hl. unfold bitmap_alloc, gbuffer_alloc.
  assert (exists m, u32 (bits_to_bytes_roundup n) = m /\ 0 < m <= 256 /\ n <= 8 * m) as (m & -> & Hm & Hnm).
  { unfold bits_to_bytes_roundup, bits_to_bytes_noround. eexists. split; [done|].
    destruct (Z.eqb_spec (n `mod` 8) 0); cbn [negb]; rewrite ?(wrap_small 64), ?wrap_small;
      unfold_ints; Z.to_euclidean_division_equations; lia. }
  destruct (malloc_size_ok m h l Hh ltac:(lia)) as (p & data & h' & -> & Hh' & Hp & Htop & Hlen).
  rewrite outcome_bind_ok. cbn [default]. eexists _, h'. split; [done|]. cbn [gb_begin gb_data gb_is_alloc].
  split; [done|]. split; [|split; [done|lia]].
  split; cbn; [lia|lia|by rewrite wrap_small by (unfold_ints; lia)|lia|lia|by left].
Qed.

Lemma parse_msix_ok d w h l offset : supports_msi = true -> host_ok w -> accessible d -> caps_ok d w h l ->
  64 <= offset <= 252 -> offset `mod` 4 = 0 -> 256 <= malloc_limit ->
  msi_support_eqb (msi_support d) PCI_DEVICE_MSI_SUPPORT_MSIX = false ->
  exists table w' h', parse_msix d offset w h = Ok (with_msi PCI_DEVICE_MSI_SUPPORT_MSIX offset table d, w', h') /\
    same_cfg w w' /\ caps_ok (with_msi PCI_DEVICE_MSI_SUPPORT_MSIX offset table d) w' h' l.
Proof.
  intros Hsup Hw Hd Hc Ho Hm Hl Hno. unfold Pci.parse_msix. rewrite Hsup, Hno. cbn [negb].
  destruct (cap_read_ok (with_msi (msi_support d) offset (msix_table d) d) w offset msix_msg_control) as (w' & -> & Hs);
    [done|done|lia|fits_tac|]. rewrite outcome_bind_ok. cbn [offsetof sizeof_field msix_msg_control].
  change (field_at (with_msi (msi_support d) offset (msix_table d) d) w (offset + 2) 2) with (field_at d w (offset + 2) 2).
  fold (table_entries d w offset).
  assert (0 < table_entries d w offset <= 1024) as Ht.
  { unfold table_entries. change __PCI_CAP_MSIX_TABLE_SIZE_MASK with (Z.ones 10). rewrite Z.land_ones by lia.
    pose proof (Z.mod_pos_bound (field_at d w (offset + 2) 2) (2 ^ 10)). lia. }
  destruct (co_list _ _ _ _ Hc) as [Hwf Hown]. rewrite (co_none _ _ _ _ Hc Hno) in Hown.
  destruct (bitmap_alloc_ok _ h _ Hown Ht Hl) as (b & h' & -> & Hh' & Hb & Ha & Hpos & Hbits).
  rewrite outcome_bind_ok, (proj2 (Z.eqb_neq _ 0)) by lia. exists b, w', h'. split; [done|]. split; [done|].
  split; cbn; [apply Hc| |done|done|].
  - split; [done|]. unfold gb_owned at 2. rewrite Ha. apply owned_last, Hh'.
  - intros _. unfold table_entries in *. by rewrite (same_field _ w w') by done.
Qed.

Lemma append_offset_ok d w h l offset : caps_ok d w h l -> gb_index (gbuffer (vendor_cap_list d)) + 2 <= malloc_limit ->
  exists caps h', array_append malloc_size free (vendor_cap_list d) [offset] h = Ok (true, caps, h') /\
    caps_ok (with_cap_list caps d) w h' l /\
    gb_bytes (gbuffer caps) = gb_bytes (gbuffer (vendor_cap_list d)) ++ [offset] /\
    gb_index (gbuffer caps) = gb_index (gbuffer (vendor_cap_list d)) + 1.
Proof.
  intros Hc Hidx. unfold array_append. rewrite (co_size _ _ _ _ Hc).
  destruct (append_data_spec (gbuffer (vendor_cap_list d)) [offset] 1 h _ (co_list _ _ _ _ Hc)) as (gb & h' & -> & Hin & Hb & Hi);
    [cbn; lia|lia|apply malloc_limit_32|]. rewrite outcome_bind_ok.
  eexists _, h'. split; [done|]. split; [|done]. by split; cbn; apply Hc || apply Hin.
Qed.

Lemma parse_capability_ok d w h l offset : host_ok w -> accessible d -> caps_ok d w h l ->
  64 <= offset <= 252 -> offset `mod` 4 = 0 -> 256 <= malloc_limit ->
  gb_index (gbuffer (vendor_cap_list d)) + 2 <= malloc_limit ->
  exists d' w' h', parse_capability d offset w h = Ok (true, d', w', h') /\ same_cfg w w' /\
    caps_ok d' w' h' l /\ after d d' [{| cap_at := offset; cap_kind := byte_at d w offset |}].
Proof.
  intros Hw Hd Hc Ho Hm Hl Hidx. unfold Pci.parse_capability.
  destruct (cap_read_ok d w offset cap_id Hw Hd ltac:(lia)) as (w1 & -> & Hs); [fits_tac|].
  rewrite outcome_bind_ok. cbn [offsetof sizeof_field cap_id]. rewrite Z.add_0_r. fold (byte_at d w offset).
  unfold after, vendor_offsets, chosen. cbn [List.filter existsb fold_left map]. unfold msi_step, has_kind.
  cbn [cap_kind cap_at fst snd]. set (kind := byte_at d w offset). rewrite orb_false_r.
  pose proof (caps_same d w w1 h l Hs Hc) as Hc1. pose proof (with_caps_id d) as Hid.
  assert (gb_bytes (gbuffer (vendor_cap_list d)) = gb_bytes (gbuffer (vendor_cap_list d)) ++ [] /\
    gb_index (gbuffer (vendor_cap_list d)) = gb_index (gbuffer (vendor_cap_list d)) + Z.of_nat 0) as Hsame
    by (rewrite app_nil_r; split; [done|lia]).
  destruct (Z.eqb_spec kind PCI_SPEC_CAP_ID_MSI) as [->|N5].
  { eexists _, w1, h. split; [done|]. split; [done|].
    destruct supports_msi; cbn [negb]; [|by split; [|exists (msix_table d), (vendor_cap_list d); rewrite orb_false_r; cbn [fst snd]; rewrite Hid]].
    destruct (msi_support_eqb (msi_support d) _) eqn:E;
      (split; [|exists (msix_table d), (vendor_cap_list d); rewrite orb_false_r; cbn [fst snd]; rewrite ?Hid; done]); [done|].
    split; cbn; [apply Hc|apply Hc1|apply Hc|intros _; by apply (co_none _ _ _ _ Hc)|done]. }
  destruct (Z.eqb_spec kind PCI_SPEC_CAP_ID_MSI_X) as [->|N17].
  { destruct (decide (supports_msi = true /\ msi_support_eqb (msi_support d) PCI_DEVICE_MSI_SUPPORT_MSIX = false)) as [[Hsup Hno]|Hoth].
    - destruct (parse_msix_ok d w1 h l offset) as (table & w2 & h' & -> & Hs2 & Hc2); try done; [by destruct Hs|].
      rewrite outcome_bind_ok. eexists _, w2, h'. split; [done|]. split; [by apply (same_cfg_trans w w1)|]. split; [done|].
      exists table, (vendor_cap_list d). rewrite Hsup, Hno, orb_false_r. done.
    - assert (parse_msix d offset w1 h = Ok (d, w1, h)) as ->.
      { unfold Pci.parse_msix. destruct supports_msi; [|done]. cbn [negb].
        destruct (msi_support_eqb (msi_support d) _) eqn:E; [done|]. by destruct Hoth. }
      rewrite outcome_bind_ok. eexists _, w1, h. split; [done|]. split; [done|]. split; [done|].
      exists (msix_table d), (vendor_cap_list d). rewrite orb_false_r. split; [|done].
      destruct supports_msi; [|by cbn [fst snd]; rewrite Hid].
      destruct (msi_support_eqb (msi_support d) _) eqn:E; [by cbn [fst snd]; rewrite Hid|].
      by destruct Hoth. }
  assert (forall s : pci_device_msi_support * Z, (if supports_msi then
    (if msi_support_eqb (fst s) PCI_DEVICE_MSI_SUPPORT_MSIX then s else s) else s) = s) as Hkeep.
  { intros s. destruct supports_msi; [|done]. by destruct (msi_support_eqb _ _). }
  specialize (Hkeep (msi_support d, pcie_msi_offset d)). cbn [fst] in Hkeep. rewrite Hkeep. cbn [fst snd].
  destruct (Z.eqb_spec kind PCI_SPEC_CAP_ID_VENDOR_SPECIFIC) as [->|N9].
  { destruct (append_offset_ok d w1 h l offset Hc1 Hidx) as (caps & h' & -> & Hc2 & Hb & Hi).
    rewrite outcome_bind_ok. eexists _, w1, h'. split; [done|]. split; [done|]. split; [done|].
    exists (msix_table d), caps. rewrite orb_false_r. done. }
  destruct (Z.eqb_spec kind PCI_SPEC_CAP_ID_PCI_EXPRESS) as [->|N16].
  - eexists _, w1, h. split; [done|]. split; [done|]. split; [by split; cbn; apply Hc1|].
    exists (msix_table d), (vendor_cap_list d). rewrite orb_true_r. done.
  - eexists _, w1, h. split; [done|]. split; [done|]. split; [done|].
    exists (msix_table d), (vendor_cap_list d). by rewrite orb_false_r, Hid.
Qed.
(** ** The chain *)
Abbreviation capability_loop := (capability_loop port_in port_out mmio_read malloc_size free supports_msi).
Abbreviation parse_capabilities := (pci_parse_capabilities port_in port_out mmio_read malloc_size free supports_msi).

Lemma after_space d d' l : after d d' l -> config_space d' = config_space d /\ pcie_info d' = pcie_info d.
Proof. by intros (t & c & -> & _). Qed.
Lemma accessible_after d d' l : after d d' l -> accessible d -> accessible d'.
Proof. intros [Hc Hp]%after_space. unfold accessible. by rewrite Hc, Hp. Qed.
Lemma chain_space d d' w l : forall offset, config_space d' = config_space d -> chain d w offset l -> chain d' w offset l.
Proof.
  induction l as [|c l IH]; intros offset Hc; [done|].
  cbn [chain]. unfold byte_at, field_at. rewrite Hc. intros (? & ? & ? & ? & ?). split_and!; try (done || lia). by apply IH.
Qed.
Lemma byte_range d w offset : 0 <= byte_at d w offset < 256.
Proof. apply (bytes_of_bounds 1). lia. Qed.

Lemma capability_loop_ok own : forall l rounds d w h offset, host_ok w -> accessible d -> caps_ok d w h own ->
  256 <= malloc_limit -> chain d w offset l -> NoDup (map cap_at l) -> (length l <= rounds)%nat ->
  gb_index (gbuffer (vendor_cap_list d)) + Z.of_nat (length l) <= 128 ->
  Forall (fun v => v `mod` 4 = 0 /\ 64 <= v <= 252 /\ v ∉ map cap_at l) (gb_bytes (gbuffer (vendor_cap_list d))) ->
  exists d' w' h', capability_loop rounds d offset w h = Ok (d', w', h') /\ same_cfg w w' /\
    caps_ok d' w' h' own /\ after d d' l.
Proof.
  intros l. induction l as [|c l IH]; intros rounds d w h offset Hw Hd Hc Hlim Hch Hnd Hlen Hidx Hall.
  - exists d, w, h. split; [|split; [by apply same_cfg_refl|split; [done|apply after_nil]]].
    destruct Hch as [-> | ->]; by destruct rounds.
  - destruct Hch as (-> & Hr & Hm & Hk & Hch). destruct rounds as [|rounds]; [cbn in Hlen; lia|].
    cbn [Pci.capability_loop]. rewrite (proj2 (Z.eqb_neq _ 0)), (proj2 (Z.eqb_neq _ 0xff)) by lia. cbn [orb].
    cbn [length map] in Hlen, Hnd, Hidx, Hall. apply NoDup_cons in Hnd as [Hnew Hnd].
    rewrite (validate_ok _ (cap_at c)); [|apply Hc|apply Hc|done|done|].
    2: { eapply Forall_impl; [exact Hall|]. cbn beta. intros v (? & ? & Hv). split; [done|]. split; [done|].
         intros ->. by apply Hv, elem_of_cons; left. }
    rewrite outcome_bind_ok. cbn [negb].
    destruct (parse_capability_ok d w h own (cap_at c)) as (d1 & w1 & h1 & -> & Hs1 & Hc1 & Ha1); [done..|lia|].
    rewrite outcome_bind_ok. cbn [negb].
    replace {| cap_at := cap_at c; cap_kind := byte_at d w (cap_at c) |} with c in Ha1 by (rewrite Hk; by destruct c).
    destruct (cap_read_ok d1 w1 (cap_at c) cap_offset_to_next) as (w2 & -> & Hs2);
      [by destruct Hs1|by apply (accessible_after d d1 [c])|lia|fits_tac|].
    rewrite outcome_bind_ok. cbn [offsetof sizeof_field cap_offset_to_next].
    fold (byte_at d1 w1 (cap_at c + 1)). rewrite wrap_small by apply byte_range.
    assert (byte_at d1 w1 (cap_at c + 1) = byte_at d w (cap_at c + 1)) as ->.
    { unfold byte_at. rewrite (same_field d1 w w1) by done. unfold field_at. by rewrite (proj1 (after_space _ _ _ Ha1)). }
    pose proof (same_cfg_trans _ _ _ Hs1 Hs2) as Hs.
    destruct (IH rounds d1 w2 h1 (byte_at d w (cap_at c + 1))) as (d' & w' & h' & -> & Hs' & Hc' & Ha');
      [by destruct Hs2|by apply (accessible_after d d1 [c])|by apply (caps_same d1 w1)|done| |done|lia| | |].
    + apply (chain_space d); [by apply after_space in Ha1 as []|]. by apply (same_chain d w).
    + destruct Ha1 as (? & ? & -> & _ & Hi). cbn [vendor_cap_list with_caps]. rewrite Hi. unfold vendor_offsets. cbn.
      destruct (has_kind _ c); cbn; lia.
    + destruct Ha1 as (? & ? & -> & Hb & _). cbn [vendor_cap_list with_caps]. rewrite Hb. apply Forall_app. split.
      * eapply Forall_impl; [exact Hall|]. cbn beta. intros v (? & ? & Hv). split; [done|]. split; [done|].
        intros Hin. by apply Hv, elem_of_cons; right.
      * unfold vendor_offsets. cbn. destruct (has_kind _ c); [by apply Forall_singleton|by apply Forall_nil].
    + exists d', w', h'. split; [done|]. split; [by apply (same_cfg_trans w w2)|]. split; [done|].
      by apply (after_app d d1 d' [c] l).
Qed.

(** 48 capabilities fit in the space, so that the bound of 128 is enough. *)
Lemma chain_range d w l : forall offset, chain d w offset l ->
  Forall (fun c => 64 <= cap_at c <= 252 /\ cap_at c `mod` 4 = 0) l.
Proof.
  induction l as [|c l IH]; intros offset; [done|]. intros (-> & ? & ? & _ & Hch). constructor; [done|]. by apply IH in Hch.
Qed.
Lemma chain_length d w offset l : chain d w offset l -> NoDup (map cap_at l) -> (length l <= 48)%nat.
Proof.
  intros Hch Hnd. apply chain_range in Hch. rewrite Forall_forall in Hch.
  rewrite <- (length_map cap_at). change 48%nat with (length (map (fun i => 64 + 4 * i) (seqZ 0 48))).
  apply submseteq_length, NoDup_submseteq; [done|]. intros v Hv.
  apply list_elem_of_fmap in Hv as (c & -> & Hin). destruct (Hch c Hin) as [Hr Hm].
  apply list_elem_of_fmap. exists (cap_at c / 4 - 16). rewrite elem_of_seqZ. Z.to_euclidean_division_equations. lia.
Qed.

(** A device as the header leaves it: no capabilities yet. *)
Definition fresh (d : pci_device_info) : Prop :=
  supports_pcie d = false /\ msi_support d = PCI_DEVICE_MSI_SUPPORT_NONE /\ pcie_msi_offset d = 0 /\
  msix_table d = GBUFFER_INIT /\ vendor_cap_list d = array_init 1.
Lemma fresh_caps_ok d w h own : fresh d -> heap_owns h own -> caps_ok d w h own.
Proof.
  intros (_ & Hm & _ & Ht & Hv) Hh. split; rewrite ?Hv, ?Ht, ?Hm; try done.
  - by apply gb_init_in.
  - by apply (gb_init_in h own).
Qed.

Lemma pci_parse_capabilities_ok d w h own l : host_ok w -> accessible d -> fresh d -> heap_owns h own ->
  256 <= malloc_limit -> Z.land (status d) __PCI_DEVSTATUS_CAPABILITIES <> 0 ->
  chain d w (byte_at d w 0x34) l -> NoDup (map cap_at l) ->
  exists d' w' h', parse_capabilities d w h = Ok (d', w', h') /\ same_cfg w w' /\
    caps_ok d' w' h' own /\ after d d' l.
Proof.
  intros Hw Hd Hf Hh Hlim Hst Hch Hnd. unfold pci_parse_capabilities, pci_read. rewrite (proj2 (Z.eqb_neq _ 0)) by done.
  destruct (cap_read_ok d w 0 info_capabilities_offset Hw Hd) as (w1 & -> & Hs); [lia|split_and!; (done || by left)|].
  rewrite outcome_bind_ok. cbn [offsetof sizeof_field info_capabilities_offset]. rewrite Z.add_0_l.
  fold (byte_at d w 0x34). rewrite wrap_small by apply byte_range.
  destruct l as [|c l].
  { exists d, w1, h. split; [|split; [done|split; [|apply after_nil]]].
    - destruct Hch as [-> | ->]; done.
    - by apply fresh_caps_ok. }
  pose proof Hch as (E & Hr & _). rewrite (proj2 (Z.eqb_neq _ 0)) by lia.
  change (u8 PCI_READ_FAIL) with 255. rewrite (proj2 (Z.eqb_neq _ 255)) by lia. cbn [orb].
  assert (range_has_index (rangeof_field info_data) (byte_at d w 52) = true) as ->.
  { unfold range_has_index, index_in_bounds. apply Z.ltb_lt. cbn. lia. }
  cbn [negb]. pose proof (chain_length _ _ _ _ Hch Hnd) as Hlen.
  pose proof Hf as (_ & _ & _ & _ & Hv).
  destruct (capability_loop_ok own (c :: l) MAX_CAPABILITIES d w1 h (byte_at d w 52)) as (d' & w' & h' & -> & Hs' & Hr');
    [by destruct Hs|done|by apply fresh_caps_ok|done|by apply (same_chain d w)|done|unfold MAX_CAPABILITIES; cbn [length] in *; lia| | |].
  - rewrite Hv. change (gb_index _) with 0. lia.
  - by rewrite Hv.
  - exists d', w', h'. split; [done|]. split; [by apply (same_cfg_trans w w1)|done].
Qed.
End host.
