(* ===== verification/PciThms.v ===== *)
(** * Scanning a function of a device

    [parse_function] on a function with a general header: what it stores, what
    it leaves in the configuration space, and the lists the device is put_bytes on. *)
From S2P Require Import Prelude CArith Range Buffer BufferInv BufferThms Bitmap Pci PciInv PciBars PciCaps.

(** Blocks of fixed size come from the same heap. *)
Class Kmalloc {H : Type} {malloc_size : Z -> H -> outcome (option (Z * list Z) * H)} {free : Z -> H -> outcome H}
    {heap : Malloc malloc_size free} (kmalloc : Z -> H -> outcome (option Z * H)) := {
  kmalloc_ok n h l : heap_owns h l -> 0 < n <= malloc_limit ->
    exists p h', kmalloc n h = Ok (Some p, h') /\ heap_owns h' (p :: l);
}.

Section host.
Context {W H : Type}.
Context {port_in : Z -> Z -> W -> outcome (Z * W)} {port_out : Z -> Z -> Z -> W -> outcome W}.
Context {mmio_read : Z -> Z -> W -> outcome (Z * W)} {mmio_write : Z -> Z -> Z -> W -> outcome W}.
Context {malloc_size : Z -> H -> outcome (option (Z * list Z) * H)} {free : Z -> H -> outcome H}.
Context {kmalloc : Z -> H -> outcome (option Z * H)}.
Context {vunmap_mmio : mmio_ptr -> H -> outcome (bool * H)}.
Context {host : PciHost port_in port_out mmio_read mmio_write} {heap : Malloc malloc_size free}.
Context {blocks : Kmalloc kmalloc}.
Context (supports_msi : bool).

Abbreviation read := (pci_read port_in port_out mmio_read).
Abbreviation write := (pci_write port_out mmio_write).
Abbreviation read_header := (read_header port_in port_out mmio_read).
Abbreviation parse_registers := (parse_registers port_in port_out mmio_read mmio_write malloc_size free kmalloc supports_msi).
Abbreviation finish_function := (finish_function port_out mmio_write free kmalloc vunmap_mmio).
Abbreviation parse_function :=
  (parse_function port_in port_out mmio_read mmio_write malloc_size free kmalloc vunmap_mmio supports_msi).

(** ** The header *)
Lemma read_ok d f w0 w : same_cfg w0 w -> reachable d -> fits (offsetof f) (sizeof_field f) ->
  exists w', read d f w = Ok (field_at d w0 (offsetof f) (sizeof_field f), w') /\ same_cfg w0 w'.
Proof.
  intros Hs Hd Hf. pose proof Hf as (H0 & H1 & _ & Hn). unfold pci_read, pci_read_with_offset. rewrite Z.add_0_l.
  rewrite wrap_small by (unfold_ints; lia). pose proof Hs as [Hw _].
  destruct (arch_read_ok d _ _ w Hw Hd Hf) as (w' & -> & Hs'). exists w'.
  unfold field_at. rewrite (proj2 Hs). split; [done|]. by apply (same_cfg_trans w0 w).
Qed.
Definition header_of (d : pci_device_info) (w : W) : pci_device_info :=
  with_header (field_at d w 2 2) (field_at d w 0 2) (field_at d w 4 2) (field_at d w 6 2) (byte_at d w 8)
    (byte_at d w 9) PCI_SPEC_DEVHDR_KIND_GENERAL (byte_at d w 10) (byte_at d w 11) (byte_at d w 0x3d)
    (negb (Z.land (byte_at d w 14) __PCI_DEVHDR_MULTFUNC =? 0)) d.

Lemma field_word d w offset : 0 <= field_at d w offset 2 < 2 ^ 16.
Proof. apply (bytes_of_bounds 2). lia. Qed.
(** The next read of the header. *)
Ltac next_field f Hs Hd :=
  let w' := fresh "w" in let Hs' := fresh "Hs" in
  destruct (read_ok _ f _ _ Hs Hd) as (w' & -> & Hs'); [unfold fits; split_and!; (done || by (left + (right; left) + (right; right)))|];
  rewrite outcome_bind_ok; cbn [offsetof sizeof_field f]; clear Hs; rename Hs' into Hs.
Lemma read_header_ok d w : host_ok w -> reachable d -> field_at d w 0 2 <> 0xffff ->
  Z.land (byte_at d w 14) 0x7f = PCI_SPEC_DEVHDR_KIND_GENERAL ->
  exists w', read_header d w = Ok (Some (header_of d w), w') /\ same_cfg w w'.
Proof.
  intros Hw Hd Hv Hk. unfold Pci.read_header. pose proof (same_cfg_refl w Hw) as Hs.
  next_field base_vendor_id Hs Hd.
  assert (forall o, u16 (field_at d w o 2) = field_at d w o 2) as E16
    by (intros o; apply wrap_small; pose proof (field_word d w o); by unfold_ints).
  assert (forall o, u8 (byte_at d w o) = byte_at d w o) as E8
    by (intros o; apply wrap_small; pose proof (byte_range d w o); by unfold_ints).
  rewrite E16. change (u16 PCI_READ_FAIL) with 0xffff. rewrite (proj2 (Z.eqb_neq _ _)) by done.
  next_field base_header_kind Hs Hd. fold (byte_at d w 14). rewrite E8.
  change (u8 (Z.lnot __PCI_DEVHDR_MULTFUNC)) with 0x7f. rewrite Hk. rewrite Z.eqb_refl.
  next_field info_interrupt_pin Hs Hd. next_field base_device_id Hs Hd. next_field base_command Hs Hd.
  next_field base_status Hs Hd. next_field base_revision_id Hs Hd. next_field base_prog_if Hs Hd.
  next_field base_class_code Hs Hd. next_field base_subclass Hs Hd.
  eexists. split; [|exact Hs]. unfold header_of.
  fold (byte_at d w 0x3d) (byte_at d w 8) (byte_at d w 9) (byte_at d w 11) (byte_at d w 10). by rewrite !E16, !E8.
Qed.
(** ** The command register *)
Definition command_register (c : pci_config_space) : Z := register c 4.
Definition with_word (v a r : Z) : Z := merged (writable a) r (replaced 2 0 v r).
(** Only the register of the command and the status differs. *)
Definition other_registers (d : pci_device_info) (w w' : W) : Prop :=
  host_ok w' /\ forall a, a <> command_register (config_space d) -> cfg w' a = cfg w a.
Lemma write_command_ok d v w : host_ok w -> reachable d -> 0 <= v < 2 ^ 16 ->
  exists w', write d base_command v w = Ok w' /\ other_registers d w w' /\
    cfg w' (command_register (config_space d)) =
      with_word v (command_register (config_space d)) (cfg w (command_register (config_space d))).
Proof.
  intros Hw Hd Hv. unfold pci_write, pci_write_with_offset. rewrite (wrap_small 32 v) by (unfold_ints; lia).
  change (u32 (0 + offsetof base_command)) with 4. cbn [sizeof_field base_command].
  destruct (arch_write_ok d 4 2 v w Hw Hd) as (w' & -> & Hw' & Hc); [unfold fits; split_and!; (done || by right; left)|done|].
  rewrite outcome_bind_ok. exists w'. split; [done|]. split; [|by rewrite Hc, Z.eqb_refl].
  split; [done|]. intros a Ha. rewrite Hc. by rewrite (proj2 (Z.eqb_neq _ _)).
Qed.

Lemma register_apart c o : space_ok c -> 8 <= o < 256 -> register c o <> command_register c.
Proof.
  intros Hc Ho E. destruct (register_inj c c o 4 Hc Hc ltac:(lia) ltac:(lia) E) as (_ & _ & _ & E').
  revert E'. Z.to_euclidean_division_equations. lia.
Qed.
Lemma other_field d w w' o n : space_ok (config_space d) -> other_registers d w w' -> 8 <= o < 256 ->
  field_at d w' o n = field_at d w o n.
Proof. intros Hd [_ Hc] Ho. unfold field_at. by rewrite Hc by by apply register_apart. Qed.
Lemma other_layout d w w' bs : forall i, space_ok (config_space d) -> other_registers d w w' -> 0 <= i ->
  i + registers bs <= 6 -> layout d w i bs -> layout d w' i bs.
Proof.
  induction bs as [|b bs IH]; intros i Hd Hs H0 H6; [done|]. intros [Hb Hl]. pose proof (registers_nonneg bs).
  change (registers (b :: bs)) with (registers_of b + registers bs) in H6.
  assert (1 <= registers_of b) by (destruct b; cbn; lia).
  split; [|apply IH; (done || lia)].
  assert (forall j, i <= j < i + registers_of b -> cfg w' (bar_register d j) = cfg w (bar_register d j)) as E.
  { intros j Hj. apply Hs. apply register_apart; [done|]. unfold offsetof_bar_list. lia. }
  destruct b; cbn [registers_of] in *; unfold described in *; rewrite ?(E i) by lia; rewrite ?(E (i + 1)) by lia; done.
Qed.
Lemma other_chain d w w' l : forall offset, space_ok (config_space d) -> other_registers d w w' ->
  chain d w offset l -> chain d w' offset l.
Proof.
  induction l as [|c l IH]; intros offset Hd Hs; [done|]. intros (E & Hr & Hm & Hk & Hch). cbn [chain].
  unfold byte_at in *. rewrite !(other_field d w w') by (done || lia). split_and!; try (done || lia). by apply IH.
Qed.

(** ** The registers and the capabilities *)
Definition capabilities (d : pci_device_info) (st : Z) (w : W) (l : list capability) : Prop :=
  if Z.land st __PCI_DEVSTATUS_CAPABILITIES =? 0 then l = []
  else chain d w (byte_at d w 0x34) l /\ NoDup (map cap_at l).
Lemma other_capabilities d st w w' l : space_ok (config_space d) -> other_registers d w w' ->
  capabilities d st w l -> capabilities d st w' l.
Proof.
  intros Hd Hs. unfold capabilities. destruct (_ =? 0); [done|]. intros [Hch Hnd]. split; [|done].
  unfold byte_at at 1. rewrite (other_field d w w') by (done || lia). by apply (other_chain d w).
Qed.

Lemma length_registers bs : Z.of_nat (length bs) <= registers bs.
Proof.
  induction bs as [|b bs IH]; [done|]. change (registers (b :: bs)) with (registers_of b + registers bs).
  assert (1 <= registers_of b) by (destruct b; cbn; lia). cbn [length]. lia.
Qed.
Lemma parse_registers_ok info w h own bs l : host_ok w -> accessible info -> fresh info -> heap_owns h own ->
  256 <= malloc_limit -> capabilities info (status info) w l -> layout info w 0 bs -> registers bs = 6 ->
  exists d w' h' block, parse_registers false PCI_BAR_COUNT_FOR_GENERAL info w h =
      Ok (Some (d, existsb has_memory bs, existsb has_ports bs), w', h') /\ same_cfg w w' /\
    caps_ok d w' h' (block :: own) /\
    after supports_msi (with_bars 6 (concat (map parsed_entries bs)) info) d l.
Proof.
  intros Hw Hd Hf Hh Hlim Hcap Hl Hr. unfold Pci.parse_registers.
  destruct (kmalloc_ok (sizeof_pci_device_bar_info * PCI_BAR_COUNT_FOR_GENERAL) h own Hh) as (block & h1 & -> & Hh1);
    [unfold sizeof_pci_device_bar_info, PCI_BAR_COUNT_FOR_GENERAL; lia|].
  rewrite outcome_bind_ok. set (info0 := with_bars _ _ info).
  assert (exists d w1 h2, pci_parse_capabilities port_in port_out mmio_read malloc_size free supports_msi info0 w h1 =
    Ok (d, w1, h2) /\ same_cfg w w1 /\ caps_ok d w1 h2 (block :: own) /\ after supports_msi info0 d l)
    as (d & w1 & h2 & -> & Hs1 & Hc1 & Ha1).
  { unfold capabilities in Hcap. destruct (Z.eqb_spec (Z.land (status info) __PCI_DEVSTATUS_CAPABILITIES) 0) as [E|Hne].
    - subst l. exists info0, w, h1. unfold pci_parse_capabilities. change (status info0) with (status info). rewrite E.
      split; [done|]. split; [by apply same_cfg_refl|]. split; [by apply fresh_caps_ok|apply after_nil].
    - destruct Hcap as [Hch Hnd]. apply (pci_parse_capabilities_ok supports_msi info0 w h1 (block :: own) l); try assumption.
      by apply (chain_space info). }
  rewrite outcome_bind_ok. destruct Ha1 as (t & c & -> & Hb & Hi). set (info1 := with_caps _ _ _ t c info0) in *.
  destruct (parse_bars_layout bs 6 [] info1 w1 false false) as (w2 & Hp & Hs2);
    [by destruct Hs1|by apply accessible_reachable|done|apply (layout_space info); [done|]; by apply (same_layout info w w1)| |].
  { pose proof (length_registers bs). lia. }
  cbn [length] in Hp. change (Z.of_nat 0) with 0 in Hp.
  change (with_bars 6 ([] ++ replicate (6 - 0) bar_zero) info1) with info1 in Hp.
  change (Z.to_nat PCI_BAR_COUNT_FOR_GENERAL) with 6%nat.
  rewrite Hp, outcome_bind_ok. eexists _, w2, h2, block. split; [done|].
  split; [by apply (same_cfg_trans w w1)|]. split.
  - apply (caps_same _ w1); [done|]. by destruct Hc1.
  - by exists t, c.
Qed.
(** ** The whole function *)
Definition command_after (cmd : Z) (bs : list bar_kind) : Z :=
  let cmd := if existsb has_memory bs then Z.lor cmd __PCI_DEVCMDREG_MEMSPACE else cmd in
  if existsb has_ports bs then Z.lor cmd __PCI_DEVCMDREG_IOSPACE else cmd.
Lemma lor_word a b : 0 <= a < 2 ^ 16 -> 0 <= b < 2 ^ 16 -> 0 <= Z.lor a b < 2 ^ 16.
Proof.
  intros Ha Hb. split; [apply Z.lor_nonneg; lia|].
  destruct (Z.eq_dec (Z.lor a b) 0) as [->|Hne]; [lia|].
  apply Z.log2_lt_pow2; [pose proof (proj2 (Z.lor_nonneg a b)); lia|]. rewrite Z.log2_lor by lia.
  destruct (Z.max_spec (Z.log2 a) (Z.log2 b)) as [[_ ->]|[_ ->]];
    (destruct (decide (0 < a)); destruct (decide (0 < b)); [apply Z.log2_lt_pow2; lia|..];
     try (apply Z.log2_lt_pow2; lia); rewrite Z.log2_nonpos by lia; lia).
Qed.
Lemma land_word a b : 0 <= a < 2 ^ 16 -> 0 <= b -> 0 <= Z.land a b < 2 ^ 16.
Proof.
  intros Ha Hb. split; [apply Z.land_nonneg; lia|]. rewrite <- (Z.mod_small a (2 ^ 16)) by done.
  rewrite <- Z.land_ones, <- Z.land_assoc, (Z.land_comm (Z.ones 16)), Z.land_assoc, Z.land_ones by lia.
  by apply Z.mod_pos_bound.
Qed.
Lemma command_after_word cmd bs : 0 <= cmd < 2 ^ 16 -> 0 <= command_after cmd bs < 2 ^ 16.
Proof.
  intros Hc. unfold command_after.
  destruct (existsb has_memory bs), (existsb has_ports bs); repeat apply lor_word; (done || lia).
Qed.

Lemma finish_function_ok info bs (s : pci_state) own w h : host_ok w -> accessible info ->
  0 <= command info < 2 ^ 16 -> heap_owns h own -> sizeof_pci_device_info <= malloc_limit ->
  let cmd := command_after (command info) bs in
  exists p w' h', finish_function info (existsb has_memory bs) (existsb has_ports bs) (with_machine w h s) =
      Ok (device_added p (with_command cmd info) (with_machine w' h' s)) /\
    other_registers info w w' /\
    cfg w' (command_register (config_space info)) =
      with_word cmd (command_register (config_space info)) (cfg w (command_register (config_space info))) /\
    heap_owns h' (p :: own).
Proof.
  intros Hw Hd Hc Hh Hlim cmd. unfold Pci.finish_function. cbv zeta. fold (command_after (command info) bs). fold cmd.
  destruct (write_command_ok (with_command cmd info) cmd w Hw) as (w' & E & Ho & Hcfg);
    [by apply accessible_reachable|by apply command_after_word|].
  cbn [hw with_machine Pci.heap]. rewrite E, outcome_bind_ok.
  destruct (kmalloc_ok sizeof_pci_device_info h own Hh) as (p & h' & -> & Hh'); [unfold sizeof_pci_device_info in *; lia|].
  rewrite outcome_bind_ok. exists p, w', h'. split; [done|]. by split; [|split].
Qed.
(** The device that the function starts from. *)
Definition start_device (domain : Z) (dom : pci_domain) (m : mmio_ptr) (space : pci_config_space) : pci_device_info :=
  with_pcie_info (u64 (region_base m + pci_device_get_index dom (device_at domain space))) (device_at domain space).
Definition decoding_off (cmd : Z) : Z :=
  Z.land cmd (u16 (Z.lnot (Z.lor __PCI_DEVCMDREG_IOSPACE __PCI_DEVCMDREG_MEMSPACE))).

Lemma parse_function_general fuel domain dom m space (s : pci_state) info w1 :
  domains s !! domain = Some dom -> domain_mmio dom = Some m -> region_base m <> 0 ->
  read_header (start_device domain dom m space) (hw s) = Ok (Some info, w1) ->
  header_kind info = PCI_SPEC_DEVHDR_KIND_GENERAL -> (dev_class info =? 4) && (subclass info =? 6) = false ->
  parse_function fuel domain space s =
    (w ← write info base_command (decoding_off (command info)) w1;
     '(parsed, w, h) ← parse_registers false PCI_BAR_COUNT_FOR_GENERAL info w (Pci.heap s);
     match parsed with
     | None => Ok (with_machine w h s)
     | Some (info, has_mmio_bar, has_io_bar) => finish_function info has_mmio_bar has_io_bar (with_machine w h s)
     end).
Proof.
  intros Hdom Hm Hbase Hh Hk Hc. apply Z.eqb_neq in Hbase.
  destruct fuel as [|fuel]; cbn [Pci.parse_function]; rewrite Hdom; cbn [deref]; rewrite outcome_bind_ok, Hm;
    cbn [deref]; rewrite outcome_bind_ok, Hbase; cbn [negb]; cbv zeta;
    fold (start_device domain dom m space); rewrite Hh, outcome_bind_ok, Hc, Hk; done.
Qed.

(** A function that is there, with the registers [bs] and the capabilities
    [l], and which is not a bridge by its class. *)
Record general_function (d : pci_device_info) (w : W) (bs : list bar_kind) (l : list capability) : Prop := {
  gf_present : field_at d w 0 2 <> 0xffff;
  gf_kind : Z.land (byte_at d w 14) 0x7f = PCI_SPEC_DEVHDR_KIND_GENERAL;
  gf_class : (byte_at d w 11 =? 4) && (byte_at d w 10 =? 6) = false;
  gf_layout : layout d w 0 bs;
  gf_registers : registers bs = 6;
  gf_capabilities : capabilities d (field_at d w 6 2) w l;
}.

Lemma after_command d d' l cmd : after supports_msi d d' l ->
  after supports_msi (with_command cmd d) (with_command cmd d') l.
Proof. intros (t & c & -> & H1 & H2). by exists t, c. Qed.

End host.

(** ** A machine with one device *)

(** The selected register and the ones that are not all ones. *)
Record machine := { sel : Z; regs : gmap Z Z }.
Definition machine_cfg (w : machine) (a : Z) : Z := default UINT32_MAX (regs w !! a).
(** A device with 4 kB of memory, 32 ports and 16 kB of prefetchable memory
    above 4 GB. *)
Definition ex_space : pci_config_space := {| domain_segment := 0; bus := 0; device_slot := 3; function := 0 |}.
Definition ex_writable : gmap Z Z :=
  list_to_map (map (fun p => (register ex_space (fst p), snd p))
    [(0x04, 7); (0x10, 0xfffff000); (0x14, 0xffffffe0); (0x18, 0xffffc000); (0x1c, 0xffffffff)]).
Definition ex_registers : gmap Z Z :=
  list_to_map (map (fun p => (register ex_space (fst p), snd p))
    [(0x00, 0x10008086); (0x04, 0x00100003); (0x08, 0x02000001); (0x0c, 0);
     (0x10, 0xfebf1000); (0x14, 0xc001); (0x18, 0x0000400c); (0x1c, 8); (0x20, 0); (0x24, 0);
     (0x34, 0x40); (0x3c, 0x010b);
     (0x40, 0x00005010); (0x50, 0x00036011); (0x60, 0x00007009); (0x70, 0x00000005)]).
Definition ex_mask (a : Z) : Z := default 0 (ex_writable !! a).
Definition ecam_base : Z := 2 ^ 40.
(** The register behind an address in the mapped space. *)
Definition ecam_function (p : Z) : Z := (p - ecam_base) / 4096 * 256 + 2 ^ 31.

Definition put_bytes (n k v a : Z) (w : machine) : machine :=
  {| sel := sel w; regs := <[a := merged (ex_mask a) (machine_cfg w a) (replaced n k v (machine_cfg w a))]> (regs w) |}.
Definition ex_port_in (n p : Z) (w : machine) : outcome (Z * machine) :=
  Ok (bytes_of n (p - PORT_PCI_CONFIG_DATA) (machine_cfg w (sel w)), w).
Definition ex_port_out (n p v : Z) (w : machine) : outcome machine :=
  Ok (if p =? PORT_PCI_CONFIG_ADDRESS then {| sel := v; regs := regs w |}
      else put_bytes n (p - PORT_PCI_CONFIG_DATA) v (sel w) w).
Definition ex_mmio_read (n p : Z) (w : machine) : outcome (Z * machine) :=
  let offset := (p - ecam_base) `mod` 4096 in
  Ok (bytes_of n (offset `mod` 4) (machine_cfg w (offset / 4 * 4 + ecam_function p)), w).
Definition ex_mmio_write (n p v : Z) (w : machine) : outcome machine :=
  let offset := (p - ecam_base) `mod` 4096 in
  Ok (put_bytes n (offset `mod` 4) v (offset / 4 * 4 + ecam_function p) w).

Definition machine_ok (w : machine) : Prop := forall a, 0 <= machine_cfg w a < 2 ^ 32.
Lemma ex_mask_bounds a : 0 <= ex_mask a < 2 ^ 32.
Proof.
  unfold ex_mask. destruct (ex_writable !! a) as [v|] eqn:E; [|cbn; lia]. revert E.
  assert (map_Forall (fun _ v => 0 <= v < 2 ^ 32) ex_writable) as H; [|by apply H].
  apply (bool_decide_unpack _). by vm_compute.
Qed.
Lemma merged_bounds m old new : 0 <= m < 2 ^ 32 -> 0 <= old < 2 ^ 32 -> 0 <= merged m old new < 2 ^ 32.
Proof.
  intros Hm Ho. assert (0 <= merged m old new) as H0.
  { apply Z.lor_nonneg. split; [apply Z.ldiff_nonneg; lia|apply Z.land_nonneg; lia]. }
  split; [done|]. assert (merged m old new = Z.land (merged m old new) (Z.ones 32)) as ->.
  { unfold merged. apply Z.bits_inj'. intros i Hi. rewrite Z.land_spec, Z.lor_spec, Z.ldiff_spec, Z.land_spec.
    destruct (Z.ltb_spec i 32); [by rewrite Z.ones_spec_low, andb_true_r by lia|].
    rewrite Z.ones_spec_high by lia. rewrite <- (Z.mod_small old (2 ^ 32)), <- (Z.mod_small m (2 ^ 32)) by done.
    by rewrite !Z.mod_pow2_bits_high, !andb_false_r by lia. }
  rewrite Z.land_ones by lia. by apply Z.mod_pos_bound.
Qed.
Lemma put_bytes_cfg n k v a w b : machine_cfg (put_bytes n k v a w) b =
  if b =? a then merged (ex_mask b) (machine_cfg w b) (replaced n k v (machine_cfg w b)) else machine_cfg w b.
Proof.
  unfold put_bytes, machine_cfg at 1. cbn [regs]. destruct (Z.eqb_spec b a) as [->|Hne].
  - by rewrite lookup_insert_eq.
  - by rewrite lookup_insert_ne by done.
Qed.
Lemma put_bytes_ok n k v a w : machine_ok w -> machine_ok (put_bytes n k v a w).
Proof.
  intros Hw b. rewrite put_bytes_cfg. destruct (b =? a); [|apply Hw]. apply merged_bounds; [apply ex_mask_bounds|apply Hw].
Qed.
Lemma fits_below offset n : fits offset n -> 0 <= offset < 256.
Proof. intros (? & ? & _ & ?). lia. Qed.
Definition ex_ecam (p a : Z) : Prop := 2 ^ 31 <= a < 2 ^ 32 /\ a `mod` 256 = 0 /\ p = ecam_base + (a - 2 ^ 31) * 16.
Lemma ex_ecam_offset p a offset : ex_ecam p a -> 0 <= offset < 256 ->
  (p + offset - ecam_base) `mod` 4096 = offset /\ ecam_function (p + offset) = a.
Proof.
  intros (Ha & Hm & ->) Ho. unfold ecam_function.
  replace (ecam_base + (a - 2 ^ 31) * 16 + offset - ecam_base) with (offset + (a / 256 - 8388608) * 4096)
    by (pose proof (Z.div_mod a 256 ltac:(lia)); lia).
  rewrite Z.mod_add, Z.div_add, Z.mod_small, Z.div_small by lia.
  pose proof (Z.div_mod a 256 ltac:(lia)). lia.
Qed.

#[export] Program Instance ex_host : PciHost ex_port_in ex_port_out ex_mmio_read ex_mmio_write := {
  host_ok := machine_ok; selected := sel; cfg := machine_cfg; writable := ex_mask; ecam := ex_ecam;
}.
Next Obligation. intros w a Hw. apply Hw. Qed.
Next Obligation. exact ex_mask_bounds. Qed.
Next Obligation. intros p a (Ha & _ & ->). unfold ecam_base. lia. Qed.
Next Obligation. intros w a Hw Ha. eexists. split; [done|]. by split. Qed.
Next Obligation.
  intros w n k Hw Hk Hn _. eexists. split; [|by split]. unfold ex_port_in. do 4 f_equal. lia.
Qed.
Next Obligation.
  intros w n k v Hw Hk Hkn Hn Hv. eexists. split; [done|]. unfold ex_port_out, PORT_PCI_CONFIG_DATA, PORT_PCI_CONFIG_ADDRESS.
  rewrite (proj2 (Z.eqb_neq _ _)) by lia. split; [by apply put_bytes_ok|]. intros b. rewrite put_bytes_cfg.
  by replace (0xCFC + k - 0xCFC) with k by lia.
Qed.
Next Obligation.
  intros w p c offset n Hw He Hf.
  destruct (ex_ecam_offset p _ offset He (fits_below _ _ Hf)) as [E1 E2].
  eexists. split; [|by split]. unfold ex_mmio_read. by rewrite E1, E2.
Qed.
Next Obligation.
  intros w p c offset n v Hw He Hf _.
  destruct (ex_ecam_offset p _ offset He (fits_below _ _ Hf)) as [E1 E2].
  eexists. split; [done|]. rewrite E1, E2. split; [by apply put_bytes_ok|]. intros b. by rewrite put_bytes_cfg.
Qed.

#[export] Program Instance ex_kmalloc : Kmalloc (heap := unit_heap) (fun n (h : unit) => Ok (Some 8192, h)) := {}.
Next Obligation. intros n h l _ _. by exists 8192, h. Qed.

Definition ex_domain : pci_domain :=
  {| device_list := []; bus_range := RANGE_INIT 0 256;
     domain_mmio := Some {| region := 1; region_base := ecam_base |}; segment := 0 |}.
Definition ex_state : pci_state (W := machine) (H := unit) :=
  {| hw := {| sel := 0; regs := ex_registers |}; heap := tt; domains := {[ 4096 := ex_domain ]}; infos := ∅;
     g_domain_list := [4096]; g_device_list := []; g_domain_count := 1 |}.
Definition ex_device : pci_device_info :=
  start_device 4096 ex_domain {| region := 1; region_base := ecam_base |} ex_space.
Definition ex_bars : list bar_kind :=
  [Memory32 12 0xfebf1000 false; Ports 5 0xc000; Memory64 14 0x800004000 true; Unused; Unused].
Definition ex_caps : list capability :=
  [{| cap_at := 0x40; cap_kind := 16 |}; {| cap_at := 0x50; cap_kind := 17 |};
   {| cap_at := 0x60; cap_kind := 9 |}; {| cap_at := 0x70; cap_kind := 5 |}].

Lemma ex_machine_ok : machine_ok (hw ex_state).
Proof.
  intros a. unfold machine_cfg. cbn [hw ex_state regs].
  assert (map_Forall (fun _ v => 0 <= v < 2 ^ 32) ex_registers) as Hall by (apply (bool_decide_unpack _); by vm_compute).
  destruct (ex_registers !! a) as [v|] eqn:E; [by apply Hall in E|cbn; lia].
Qed.
Lemma ex_accessible : accessible ex_device.
Proof.
  split; [by split; cbn; lia|]. change (pcie_info ex_device) with (ecam_base + 98304).
  change (function_address (config_space ex_device)) with (2 ^ 31 + 6144). unfold ecam, ex_host, ex_ecam. split_and!; (done || lia).
Qed.
(** One capability of the chain of a concrete machine. *)
Ltac capability_here := split; [by vm_compute|split; [cbn; lia|split; [by vm_compute|split; [by vm_compute|]]]].
Lemma ex_general : general_function ex_device (hw ex_state) ex_bars ex_caps.
Proof.
  split; [by vm_compute|by vm_compute|by vm_compute| |done|].
  - cbn [layout ex_bars]. split_and!; try done.
    + split; [lia|]. split; [lia|]. split; [lia|]. split; [by exists 0xfebf1|]. by split; vm_compute.
    + split; [lia|]. split; [lia|]. split; [lia|]. split; [by exists 0x600|]. by split; vm_compute.
    + split; [lia|]. split; [lia|]. split; [lia|]. split; [by exists 0x200001|]. by split_and!; vm_compute.
  - unfold capabilities. assert (field_at ex_device (hw ex_state) 6 2 = 0x10) as -> by by vm_compute.
    change (Z.land 0x10 __PCI_DEVSTATUS_CAPABILITIES =? 0) with false. cbv iota.
    split; [|apply (bool_decide_unpack _); by vm_compute].
    assert (byte_at ex_device (hw ex_state) 0x34 = 0x40) as -> by by vm_compute.
    unfold ex_caps.
    capability_here. assert (byte_at ex_device (hw ex_state) (0x40 + 1) = 0x50) as -> by by vm_compute.
    capability_here. assert (byte_at ex_device (hw ex_state) (0x50 + 1) = 0x60) as -> by by vm_compute.
    capability_here. assert (byte_at ex_device (hw ex_state) (0x60 + 1) = 0x70) as -> by by vm_compute.
    capability_here. left. by vm_compute.
Qed.

