(* ===== verification/Irq.v ===== *)
(** * Interrupts: arch/x86_64/apic/{ioapic,lapic,init}.c, sys/{idt,isr,pic}.c, dev/pit.c

    The machine behind the ports, the mapped memory and the model-specific
    registers and the heap are parameters, as in Pci.v.  A function pointer is
    the address of the function.  Printing and the masking of interrupts around
    an access are left out; a loop that waits for a device has fuel. *)
From S2P Require Import Prelude CArith Range PageAlloc Buffer Bitmap PgMap Vm Pci.

(** ** acpi/api.h and acpi/structs.h *)
Definition __ACPI_MADT_ENTRY_ISO_ACTIVE_LOW : Z := Z.shiftl 1 1.
Definition __ACPI_MADT_ENTRY_ISO_LEVEL_TRIGGER : Z := Z.shiftl 3 2.

Record apic_iso_info := { bus_src : Z; irq_src : Z; gsi : Z; iso_flags : Z }.
Definition sizeof_apic_iso_info : Z := 6.
(** The objects of an array are stored as bytes, with padding of zeros. *)
Definition iso_bytes (i : apic_iso_info) : list Z :=
  [bus_src i; irq_src i; gsi i; 0] ++ le_bytes 2 (iso_flags i).
Definition byte_of (bs : list Z) (i : nat) : Z := default 0 (bs !! i).
Definition word_of (bs : list Z) (i n : nat) : Z := le_word (take n (drop i bs)).
Definition iso_of (bs : list Z) : apic_iso_info :=
  {| bus_src := byte_of bs 0; irq_src := byte_of bs 1; gsi := byte_of bs 2; iso_flags := word_of bs 4 2 |}.

(** A table that was not found has the address 0. *)
Record acpi_info := {
  madt : Z; fadt : Z; mcfg : Z; rsdp : Z; rsdt : Z;
  iso_list : array;
  nmi_lint : Z;
  using_x2apic : bool;
}.
Definition acpi_info_init : acpi_info :=
  {| madt := 0; fadt := 0; mcfg := 0; rsdp := 0; rsdt := 0; iso_list := array_init sizeof_apic_iso_info;
     nmi_lint := 0; using_x2apic := false |}.
Definition with_sdts (m f c p t : Z) (i : acpi_info) : acpi_info :=
  {| madt := m; fadt := f; mcfg := c; rsdp := p; rsdt := t; iso_list := iso_list i; nmi_lint := nmi_lint i;
     using_x2apic := using_x2apic i |}.
Definition with_isos (l : array) (i : acpi_info) : acpi_info :=
  {| madt := madt i; fadt := fadt i; mcfg := mcfg i; rsdp := rsdp i; rsdt := rsdt i; iso_list := l;
     nmi_lint := nmi_lint i; using_x2apic := using_x2apic i |}.
(** A field of one bit. *)
Definition with_nmi_lint (lint : Z) (i : acpi_info) : acpi_info :=
  {| madt := madt i; fadt := fadt i; mcfg := mcfg i; rsdp := rsdp i; rsdt := rsdt i; iso_list := iso_list i;
     nmi_lint := lint `mod` 2; using_x2apic := using_x2apic i |}.
Definition with_x2apic (i : acpi_info) : acpi_info :=
  {| madt := madt i; fadt := fadt i; mcfg := mcfg i; rsdp := rsdp i; rsdt := rsdt i; iso_list := iso_list i;
     nmi_lint := nmi_lint i; using_x2apic := true |}.

(** ** lib/adt/array.h: [array_foreach] visits these objects. *)
Fixpoint read_objects (n : nat) (data : list Z) (i size : Z) : outcome (list (list Z)) :=
  match n with
  | O => Ok []
  | S n => bs ← read_bytes data i size; rest ← read_objects n data (i + size) size; Ok (bs :: rest)
  end.
Definition array_objects (sizeof_type : Z) (a : array) : outcome (list (list Z)) :=
  c_assert (sizeof_type =? object_size a);;
  count ← array_item_count a;
  read_objects (Z.to_nat count) (gb_data (gbuffer a)) 0 sizeof_type.

(** ** apic/ioapic.h and ioapic.c *)
Definition IOAPIC_REDIRECT_REQ_DELIVERY_MODE_FIXED : Z := 0.
Definition IOAPIC_REDIRECT_REQ_DEST_MODE_PHYSICAL : Z := 0.
Definition IOAPIC_REG_ID : Z := 0.
Definition IOAPIC_REG_VERSION : Z := 1.
Definition IOAPIC_REG_REDIRECTION_TABLE_BASE : Z := 0x10.

Record ioapic_info := {
  arbid : Z; version : Z; max_redirect_count : Z; gsi_base : Z; regs_mmio : Z; regs : Z
}.
Definition sizeof_ioapic_info : Z := 24.
Definition ioapic_bytes (i : ioapic_info) : list Z :=
  [arbid i; version i; max_redirect_count i; 0] ++ le_bytes 4 (gsi_base i) ++ le_bytes 8 (regs_mmio i) ++
  le_bytes 8 (regs i).
Definition ioapic_of (bs : list Z) : ioapic_info :=
  {| arbid := byte_of bs 0; version := byte_of bs 1; max_redirect_count := byte_of bs 2;
     gsi_base := word_of bs 4 4; regs_mmio := word_of bs 8 8; regs := word_of bs 16 8 |}.

Definition ioapic_id_reg_get_arbid (version : Z) : Z := Z.land (Z.shiftr version 24) 15.
Definition ioapic_version_reg_get_version (version : Z) : Z := u8 version.
Definition ioapic_version_reg_get_max_redirect_count (version : Z) : Z := u8 (Z.shiftr version 16) + 1.
Definition ioapic_redirect_table_get_reg_for_n (n : Z) : Z := IOAPIC_REG_REDIRECTION_TABLE_BASE + n * 2.

Definition create_ioapic_redirect_request (vector delivery_mode dest_mode flags : Z) (masked : bool) (lapic_id : Z) : Z :=
  let is_active_low := negb (Z.land flags __ACPI_MADT_ENTRY_ISO_ACTIVE_LOW =? 0) in
  let is_level_triggered := negb (Z.land flags __ACPI_MADT_ENTRY_ISO_LEVEL_TRIGGER =? 0) in
  Z.lor (Z.lor (Z.lor (Z.lor (Z.lor (Z.lor vector (Z.shiftl delivery_mode 8)) (Z.shiftl dest_mode 11))
    (Z.shiftl (Z.b2z is_active_low) 13)) (Z.shiftl (Z.b2z is_level_triggered) 15))
    (Z.shiftl (Z.b2z masked) 16)) (Z.shiftl lapic_id 56).

(** The first one, in the order of the list. *)
Definition serves (gsi : Z) (i : ioapic_info) : bool :=
  (gsi >? gsi_base i) && (gsi <? u32 (gsi_base i + max_redirect_count i)).

(** ** apic/lapic.h and structs.h *)
Definition LAPIC_ID : Z := 0x20.
Definition LAPIC_VERSION : Z := 0x30.
Definition LAPIC_EOI : Z := 0xB0.
Definition LAPIC_SPUR_INT_VECTOR : Z := 0xF0.
Definition LAPIC_ICR_0 : Z := 0x300.
Definition LAPIC_ICR_1 : Z := 0x310.
Definition LAPIC_LVT_TIMER : Z := 0x320.
Definition LAPIC_LVT_LINT0 : Z := 0x350.
Definition LAPIC_LVT_LINT1 : Z := 0x360.
Definition LAPIC_TIMER_INITIAL_COUNT : Z := 0x380.
Definition LAPIC_TIMER_CURRENT_COUNT : Z := 0x390.
Definition LAPIC_TIMER_DIVIDE_CONFIG : Z := 0x3E0.
Definition X2APIC_LAPIC_REG_EOI : Z := 0xB.
Definition X2APIC_LAPIC_REG_SPUR_VECTOR : Z := 0xF.
Definition X2APIC_LAPIC_REG_ICR : Z := 0x30.
Definition X2APIC_LAPIC_REG_LVT_LINT0 : Z := 0x35.
Definition X2APIC_LAPIC_REG_LVT_LINT1 : Z := 0x36.
Definition X2APIC_LAPIC_REG_SELF_IPI : Z := 0x3F.
Definition IA32_MSR_X2APIC_BASE : Z := 0x802.
Definition __LAPIC_SPURVEC_ENABLE : Z := Z.shiftl 1 8.
Definition LAPIC_TIMER_MODE_ONE_SHOT : Z := 0.
Definition LAPIC_TIMER_MODE_PERIODIC : Z := 1.
Definition LAPIC_TIMER_DIV_CONFIG_BY_2 : Z := 0.
Definition APIC_LVT_DELIVERY_MODE_NMI : Z := 4.
Definition APIC_LVT_DELIVERY_MODE_EXTINT : Z := 7.

Record lapic_info := { apic_id : Z; processor_id : Z; enabled : bool; online_capable : bool }.
Definition sizeof_lapic_info : Z := 3.
Definition lapic_bytes (i : lapic_info) : list Z :=
  [apic_id i; processor_id i; Z.b2z (enabled i) + 2 * Z.b2z (online_capable i)].

Definition setup_timer_register (timer_mode : Z) (masked : bool) (vector : Z) : Z :=
  Z.lor (Z.lor (Z.shiftl timer_mode 17) (Z.shiftl (Z.b2z masked) 16)) vector.
Definition adjust_lint_extint_value (value : Z) : Z :=
  let add_mask := Z.shiftl APIC_LVT_DELIVERY_MODE_EXTINT 8 in
  let remove_mask := Z.lor (Z.lor (Z.lor (Z.shiftl 7 8) (Z.shiftl 1 12)) (Z.shiftl 1 14)) (Z.shiftl 1 16) in
  Z.lor (Z.land value (u64 (Z.lnot remove_mask))) add_mask.
Definition adjust_lint_nmi_value (value : Z) : Z :=
  let add_mask := Z.shiftl APIC_LVT_DELIVERY_MODE_NMI 8 in
  let remove_mask := Z.lor (Z.shiftl 7 8) (Z.shiftl 1 15) in
  Z.lor (Z.land value (u64 (Z.lnot remove_mask))) add_mask.
(** LINT0 and LINT1: one takes the interrupts of the old controller, the other
    the non-maskable ones. *)
Definition adjust_lints (nmi_lint lint0 lint1 : Z) : Z * Z :=
  if nmi_lint =? 1 then (adjust_lint_extint_value lint0, adjust_lint_nmi_value lint1)
  else (adjust_lint_nmi_value lint0, adjust_lint_extint_value lint1).

(** ** sys/idt.c *)
Record idt_entry := {
  offset_low : Z; selector : Z; ist : Z; idt_flags : Z; offset_mid : Z; offset_hi : Z
}.
Definition IST_NONE : Z := 0.
Definition IDT_DEFAULT_FLAGS : Z := 0x8e.
Definition KERNEL_CODE_64_INDEX : Z := 5.
Definition sizeof_gdt_descriptor : Z := 8.
Definition gdt_get_kernel_code_segment : Z := KERNEL_CODE_64_INDEX * sizeof_gdt_descriptor.
Definition idt_entry_for (handler_addr ist_ flags : Z) : idt_entry :=
  {| offset_low := u16 handler_addr; selector := gdt_get_kernel_code_segment; ist := ist_; idt_flags := flags;
     offset_mid := u16 (Z.shiftr handler_addr 16); offset_hi := u32 (Z.shiftr handler_addr 32) |}.

(** ** The state *)
Record cpu_info := { lapic_id : Z; lapic_timer_frequency : Z; timer_ticks : Z; spur_int_count : Z }.
Definition with_frequency (f : Z) (c : cpu_info) : cpu_info :=
  {| lapic_id := lapic_id c; lapic_timer_frequency := f; timer_ticks := timer_ticks c;
     spur_int_count := spur_int_count c |}.
Definition with_ticks (ticks spurious : Z) (c : cpu_info) : cpu_info :=
  {| lapic_id := lapic_id c; lapic_timer_frequency := lapic_timer_frequency c; timer_ticks := ticks;
     spur_int_count := spurious |}.

(** [g_funcs] and [g_idt]: a vector that is not in the map has the zeroed
    entry. *)
Record isr_state := {
  g_funcs : gmap Z Z;
  g_idt : gmap Z idt_entry;
  g_free_vector : Z;
  g_timer_vector : Z;
  g_spur_vector : Z;
}.
Definition isr_state_init : isr_state :=
  {| g_funcs := ∅; g_idt := ∅; g_free_vector := 0x21; g_timer_vector := 0; g_spur_vector := 0 |}.
Definition with_vectors (free timer spur : Z) (i : isr_state) : isr_state :=
  {| g_funcs := g_funcs i; g_idt := g_idt i; g_free_vector := free; g_timer_vector := timer; g_spur_vector := spur |}.
Definition with_handler (vector handler : Z) (e : idt_entry) (i : isr_state) : isr_state :=
  {| g_funcs := <[vector := handler]> (g_funcs i); g_idt := <[vector := e]> (g_idt i);
     g_free_vector := g_free_vector i; g_timer_vector := g_timer_vector i; g_spur_vector := g_spur_vector i |}.
Definition with_idt_entry (vector : Z) (e : idt_entry) (i : isr_state) : isr_state :=
  {| g_funcs := g_funcs i; g_idt := <[vector := e]> (g_idt i);
     g_free_vector := g_free_vector i; g_timer_vector := g_timer_vector i; g_spur_vector := g_spur_vector i |}.

Section irq.
Context {W H : Type}.
Record irq_state := {
  irq_hw : W;
  irq_heap : H;
  info : acpi_info;
  lapic_list : array;
  ioapic_list : array;
  lapic_regs : Z;
  cpu : cpu_info;
  isrs : isr_state;
}.
Definition set_hw (w : W) (s : irq_state) : irq_state :=
  {| irq_hw := w; irq_heap := irq_heap s; info := info s; lapic_list := lapic_list s; ioapic_list := ioapic_list s;
     lapic_regs := lapic_regs s; cpu := cpu s; isrs := isrs s |}.
Definition set_irq_heap (h : H) (s : irq_state) : irq_state :=
  {| irq_hw := irq_hw s; irq_heap := h; info := info s; lapic_list := lapic_list s; ioapic_list := ioapic_list s;
     lapic_regs := lapic_regs s; cpu := cpu s; isrs := isrs s |}.
Definition set_info (i : acpi_info) (s : irq_state) : irq_state :=
  {| irq_hw := irq_hw s; irq_heap := irq_heap s; info := i; lapic_list := lapic_list s; ioapic_list := ioapic_list s;
     lapic_regs := lapic_regs s; cpu := cpu s; isrs := isrs s |}.
Definition set_lists (lapics ioapics : array) (s : irq_state) : irq_state :=
  {| irq_hw := irq_hw s; irq_heap := irq_heap s; info := info s; lapic_list := lapics; ioapic_list := ioapics;
     lapic_regs := lapic_regs s; cpu := cpu s; isrs := isrs s |}.
Definition set_lapic_regs (p : Z) (s : irq_state) : irq_state :=
  {| irq_hw := irq_hw s; irq_heap := irq_heap s; info := info s; lapic_list := lapic_list s;
     ioapic_list := ioapic_list s; lapic_regs := p; cpu := cpu s; isrs := isrs s |}.
Definition set_cpu (c : cpu_info) (s : irq_state) : irq_state :=
  {| irq_hw := irq_hw s; irq_heap := irq_heap s; info := info s; lapic_list := lapic_list s;
     ioapic_list := ioapic_list s; lapic_regs := lapic_regs s; cpu := c; isrs := isrs s |}.
Definition set_isrs (i : isr_state) (s : irq_state) : irq_state :=
  {| irq_hw := irq_hw s; irq_heap := irq_heap s; info := info s; lapic_list := lapic_list s;
     ioapic_list := ioapic_list s; lapic_regs := lapic_regs s; cpu := cpu s; isrs := i |}.

Context (port_in : Z -> Z -> W -> outcome (Z * W)) (port_out : Z -> Z -> Z -> W -> outcome W).
Context (mmio_read : Z -> Z -> W -> outcome (Z * W)) (mmio_write : Z -> Z -> Z -> W -> outcome W).
Context (read_msr : Z -> W -> outcome (Z * W)) (write_msr : Z -> Z -> W -> outcome W).
Context (malloc_size : Z -> H -> outcome (option (Z * list Z) * H)) (free : Z -> H -> outcome H).
Context (vmap_mmio : range -> Z -> Z -> H -> outcome (option mmio_ptr * H)).
(** The assembly stub of a vector; whether the cpu has an x2APIC. *)
Context (idt_thunks : Z -> Z) (supports_x2apic : bool).
(** The addresses of [lapic_timer_irq_callback], [spur_tick] and
    [handle_exception]. *)
Context (lapic_timer_irq_callback_at spur_tick_at handle_exception_at : Z).

(** Accesses that change nothing but the machine. *)
Definition on_machine {A} (f : W -> outcome (A * W)) (s : irq_state) : outcome (A * irq_state) :=
  '(a, w) ← f (irq_hw s); Ok (a, set_hw w s).
Definition act (f : W -> outcome W) (s : irq_state) : outcome irq_state := w ← f (irq_hw s); Ok (set_hw w s).

(** *** sys/pic.c *)
Definition PIC1_COMMAND : Z := 0x20.
Definition PIC1_DATA : Z := 0x21.
Definition PIC2_COMMAND : Z := 0xA0.
Definition PIC2_DATA : Z := 0xA1.
Definition PIC_EOI : Z := 0x20.
Definition ICW1_ICW4 : Z := 1.
Definition ICW1_INIT : Z := 0x10.
Definition ICW4_8086 : Z := 1.
Definition is_irq_in_pic_2 (irq : Z) : bool := irq >=? 8.
Fixpoint port_outs (l : list (Z * Z)) (w : W) : outcome W :=
  match l with [] => Ok w | (port, v) :: l => w ← port_out 1 port v w; port_outs l w end.
Definition pic_send_eoi (irq : Z) (w : W) : outcome W :=
  port_outs ((if is_irq_in_pic_2 irq then [(PIC2_COMMAND, PIC_EOI)] else []) ++ [(PIC1_COMMAND, PIC_EOI)]) w.
Definition pic_remap (offset1 offset2 : Z) (w : W) : outcome W :=
  '(a1, w) ← port_in 1 PIC1_DATA w;
  '(a2, w) ← port_in 1 PIC2_DATA w;
  port_outs [(PIC1_COMMAND, Z.lor ICW1_INIT ICW1_ICW4); (PIC2_COMMAND, Z.lor ICW1_INIT ICW1_ICW4);
             (PIC1_DATA, offset1); (PIC2_DATA, offset2); (PIC1_DATA, 4); (PIC2_DATA, 2);
             (PIC1_DATA, ICW4_8086); (PIC2_DATA, ICW4_8086); (PIC1_DATA, a1); (PIC2_DATA, a2)] w.
Definition pic_disable (w : W) : outcome W := port_outs [(PIC2_DATA, 0xff); (PIC1_DATA, 0xff)] w.
(** The port and the bit of an interrupt. *)
Definition pic_line (irq : Z) : Z * Z := if is_irq_in_pic_2 irq then (PIC2_DATA, irq - 8) else (PIC1_DATA, irq).
Definition pic_mask_irq (irq : Z) (w : W) : outcome W :=
  let '(port, bit) := pic_line irq in
  if bit >=? 31 then Undef
  else '(mask, w) ← port_in 1 port w; port_out 1 port (u8 (Z.lor mask (Z.shiftl 1 bit))) w.
Definition pic_clear_irq_mask (irq : Z) (w : W) : outcome W :=
  let '(port, bit) := pic_line irq in
  if bit >=? 31 then Undef
  else '(mask, w) ← port_in 1 port w; port_out 1 port (u8 (Z.land mask (Z.lnot (Z.shiftl 1 bit)))) w.
Fixpoint for_irqs (f : Z -> W -> outcome W) (l : list Z) (w : W) : outcome W :=
  match l with [] => Ok w | irq :: l => w ← f irq w; for_irqs f l w end.
Definition pic_mask_remapped_irqs (w : W) : outcome W := for_irqs pic_mask_irq (seqZ 0 8) w.
Definition pic_unmask_remapped_irqs (w : W) : outcome W := for_irqs pic_clear_irq_mask (seqZ 0 8) w.

(** *** dev/pit.c *)
Definition PORT_PIT_CHANNEL_0_DATA : Z := 0x40.
Definition PORT_PIT_MODE_COMMAND : Z := 0x43.
Definition PIT_FREQUENCY : Z := 1193180.
Definition pit_init (flags granularity : Z) (w : W) : outcome W :=
  if granularity =? 0 then Undef
  else
    let divisor := PIT_FREQUENCY / granularity in
    port_outs [(PORT_PIT_MODE_COMMAND, flags); (PORT_PIT_CHANNEL_0_DATA, Z.land divisor 0xff);
               (PORT_PIT_CHANNEL_0_DATA, Z.land (Z.shiftr divisor 8) 0xff)] w.
Fixpoint pit_wait (fuel : nat) (w : W) : outcome W :=
  w ← port_out 1 PORT_PIT_MODE_COMMAND 0xE2 w;
  '(status, w) ← port_in 1 PORT_PIT_CHANNEL_0_DATA w;
  if negb (Z.land status (Z.shiftl 1 7) =? 0) then Ok w
  else match fuel with O => OutOfFuel | S fuel => pit_wait fuel w end.
Definition pit_sleep_for (fuel : nat) (ms : Z) (w : W) : outcome W :=
  w ← port_outs [(PORT_PIT_MODE_COMMAND, 0x30); (PORT_PIT_CHANNEL_0_DATA, u8 ms)] w;
  pit_wait fuel w.
Definition pit_get_current_tick (w : W) : outcome (Z * W) :=
  w ← port_out 1 PORT_PIT_MODE_COMMAND 0 w;
  '(low, w) ← port_in 1 PORT_PIT_CHANNEL_0_DATA w;
  '(high, w) ← port_in 1 PORT_PIT_CHANNEL_0_DATA w;
  Ok (Z.lor (Z.shiftl high 8) low, w).
Definition pit_set_reload_value (count : Z) (w : W) : outcome W :=
  port_outs [(PORT_PIT_CHANNEL_0_DATA, Z.land count 0xff);
             (PORT_PIT_CHANNEL_0_DATA, Z.shiftr (Z.land count 0xff00) 8)] w.

(** *** apic/ioapic.c *)
Definition ioapic_selector (i : ioapic_info) : Z := regs i.
Definition ioapic_data (i : ioapic_info) : Z := u64 (regs i + 16).
Definition ioapic_read (i : ioapic_info) (reg : Z) (w : W) : outcome (Z * W) :=
  w ← mmio_write 4 (ioapic_selector i) reg w; mmio_read 4 (ioapic_data i) w.
Definition ioapic_write (i : ioapic_info) (reg value : Z) (w : W) : outcome W :=
  w ← mmio_write 4 (ioapic_selector i) reg w; mmio_write 4 (ioapic_data i) value w.

Definition ioapic_info_for_gsi (gsi : Z) (s : irq_state) : outcome (option ioapic_info) :=
  items ← array_objects sizeof_ioapic_info (ioapic_list s);
  Ok (List.find (serves gsi) (map ioapic_of items)).
Definition redirect_irq (lapic_id irq vector flags : Z) (masked : bool) (s : irq_state) : outcome irq_state :=
  found ← ioapic_info_for_gsi irq s;
  match found with
  | None => Panic
  | Some ioapic =>
      let redirect_table_index := u8 (irq - gsi_base ioapic) in
      let req_value :=
        create_ioapic_redirect_request vector IOAPIC_REDIRECT_REQ_DELIVERY_MODE_FIXED
          IOAPIC_REDIRECT_REQ_DEST_MODE_PHYSICAL flags masked lapic_id in
      let reg := ioapic_redirect_table_get_reg_for_n redirect_table_index in
      s ← act (ioapic_write ioapic reg (u32 req_value)) s;
      act (ioapic_write ioapic (reg + 1) (u32 (Z.shiftr req_value 32))) s
  end.
Definition ioapic_add (apic_id base gsib : Z) (s : irq_state) : outcome irq_state :=
  aligned ← has_align base PAGE_SIZE;
  if negb aligned then Ok s
  else
    '(mmio, h) ← vmap_mmio (RANGE_INIT base PAGE_SIZE) (Z.lor PROT_READ PROT_WRITE) 0 (irq_heap s);
    match mmio with
    | None => Panic
    | Some m =>
        let s := set_irq_heap h s in
        let i := {| arbid := apic_id; version := 0; max_redirect_count := 0; gsi_base := gsib;
                    regs_mmio := Z.pos (region m); regs := region_base m |} in
        '(id_reg, s) ← on_machine (ioapic_read i IOAPIC_REG_ID) s;
        c_assert (arbid i =? ioapic_id_reg_get_arbid id_reg);;
        '(version_reg, s) ← on_machine (ioapic_read i IOAPIC_REG_VERSION) s;
        let i := {| arbid := apic_id; version := ioapic_version_reg_get_version version_reg;
                    max_redirect_count := u8 (ioapic_version_reg_get_max_redirect_count version_reg);
                    gsi_base := gsib; regs_mmio := Z.pos (region m); regs := region_base m |} in
        '(ok, l, h) ← array_append malloc_size free (ioapic_list s) (ioapic_bytes i) (irq_heap s);
        c_assert ok;;
        Ok (set_irq_heap h (set_lists (lapic_list s) l s))
    end.
Definition ioapic_redirect_irq (lapic_id irq vector : Z) (masked : bool) (s : irq_state) : outcome irq_state :=
  items ← array_objects sizeof_apic_iso_info (iso_list (info s));
  match List.find (fun i => irq_src i =? irq) (map iso_of items) with
  | Some i =>
      if gsi i =? vector then Ok s else redirect_irq (u8 lapic_id) (gsi i) vector (iso_flags i) masked s
  | None => redirect_irq (u8 lapic_id) irq vector 0 masked s
  end.

(** *** apic/lapic.c *)
Definition lapic_read (reg : Z) (w : W) : outcome (Z * W) :=
  '(v, w) ← read_msr (IA32_MSR_X2APIC_BASE + reg) w; Ok (u32 v, w).
Definition lapic_write (reg value : Z) (w : W) : outcome W := write_msr (IA32_MSR_X2APIC_BASE + reg) value w.
(** A register in the mapped page. *)
Definition read_reg (base offset : Z) (w : W) : outcome (Z * W) := mmio_read 4 (u64 (base + offset)) w.
Definition write_reg (base offset value : Z) (w : W) : outcome W := mmio_write 4 (u64 (base + offset)) (u32 value) w.

(** The registers in the order of the accesses. *)
Definition lapic_enable (s : irq_state) : outcome irq_state :=
  let spur_vector_mask := Z.lor (g_spur_vector (isrs s)) __LAPIC_SPURVEC_ENABLE in
  let nmi := nmi_lint (info s) in
  if using_x2apic (info s) then
    '(lint0, s) ← on_machine (lapic_read X2APIC_LAPIC_REG_LVT_LINT0) s;
    '(lint1, s) ← on_machine (lapic_read X2APIC_LAPIC_REG_LVT_LINT1) s;
    let '(lint0, lint1) := adjust_lints nmi lint0 lint1 in
    '(spur, s) ← on_machine (lapic_read X2APIC_LAPIC_REG_SPUR_VECTOR) s;
    s ← act (lapic_write X2APIC_LAPIC_REG_SPUR_VECTOR (Z.lor spur spur_vector_mask)) s;
    s ← act (lapic_write X2APIC_LAPIC_REG_LVT_LINT0 lint0) s;
    act (lapic_write X2APIC_LAPIC_REG_LVT_LINT1 lint1) s
  else
    let base := lapic_regs s in
    '(lint0, s) ← on_machine (read_reg base LAPIC_LVT_LINT0) s;
    '(lint1, s) ← on_machine (read_reg base LAPIC_LVT_LINT1) s;
    let '(lint0, lint1) := adjust_lints nmi lint0 lint1 in
    s ← act (write_reg base LAPIC_LVT_LINT0 lint0) s;
    s ← act (write_reg base LAPIC_LVT_LINT1 lint1) s;
    act (write_reg base LAPIC_SPUR_INT_VECTOR spur_vector_mask) s.
Definition lapic_eoi (s : irq_state) : outcome irq_state :=
  if using_x2apic (info s) then act (lapic_write X2APIC_LAPIC_REG_EOI 0) s
  else if negb (lapic_regs s =? 0) then act (write_reg (lapic_regs s) LAPIC_EOI 0) s
  else Ok s.
Definition lapic_send_ipi (lapic_id vector : Z) (s : irq_state) : outcome irq_state :=
  if using_x2apic (info s) then
    act (lapic_write X2APIC_LAPIC_REG_ICR (Z.lor (Z.shiftl lapic_id 32) vector)) s
  else
    s ← act (write_reg (lapic_regs s) LAPIC_ICR_1 (Z.shiftl lapic_id 24)) s;
    act (write_reg (lapic_regs s) LAPIC_ICR_0 (Z.lor vector (Z.shiftl 1 14))) s.
Definition lapic_send_self_ipi (vector : Z) (s : irq_state) : outcome irq_state :=
  if using_x2apic (info s) then act (lapic_write X2APIC_LAPIC_REG_SELF_IPI vector) s
  else lapic_send_ipi (lapic_id (cpu s)) vector s.

(** The count, then the mode. *)
Definition set_timer (count mode : Z) (masked : bool) (s : irq_state) : outcome irq_state :=
  s ← act (write_reg (lapic_regs s) LAPIC_TIMER_INITIAL_COUNT count) s;
  act (write_reg (lapic_regs s) LAPIC_LVT_TIMER (setup_timer_register mode masked (g_timer_vector (isrs s)))) s.
Definition lapic_timer_start : irq_state -> outcome irq_state := set_timer 0xFFFFF LAPIC_TIMER_MODE_PERIODIC false.
Definition lapic_timer_stop : irq_state -> outcome irq_state := set_timer 0 LAPIC_TIMER_MODE_ONE_SHOT true.
Definition lapic_timer_one_shot (microseconds : Z) (s : irq_state) : outcome irq_state :=
  set_timer (u64 (lapic_timer_frequency (cpu s) / 1000000 * microseconds)) LAPIC_TIMER_MODE_ONE_SHOT false s.

Fixpoint wait_for_timer (fuel : nat) (base : Z) (w : W) : outcome W :=
  '(count, w) ← read_reg base LAPIC_TIMER_CURRENT_COUNT w;
  if count =? 0 then Ok w else match fuel with O => OutOfFuel | S fuel => wait_for_timer fuel base w end.
Definition calibrate_timer (fuel : nat) (s : irq_state) : outcome irq_state :=
  let sample_count := 0xFFFFF in
  let base := lapic_regs s in
  '(pit_init_tick_number, s) ← on_machine pit_get_current_tick s;
  s ← act (pit_set_reload_value 0xFFFF) s;
  s ← act (write_reg base LAPIC_TIMER_CURRENT_COUNT 0) s;
  s ← act (write_reg base LAPIC_TIMER_DIVIDE_CONFIG LAPIC_TIMER_DIV_CONFIG_BY_2) s;
  s ← act (write_reg base LAPIC_LVT_TIMER (setup_timer_register LAPIC_TIMER_MODE_ONE_SHOT true 0xFF)) s;
  s ← act (write_reg base LAPIC_TIMER_INITIAL_COUNT sample_count) s;
  s ← act (wait_for_timer fuel base) s;
  '(pit_end_tick_number, s) ← on_machine pit_get_current_tick s;
  let pit_tick_count := u16 (pit_init_tick_number - pit_end_tick_number) in
  if pit_tick_count =? 0 then Undef
  else Ok (set_cpu (with_frequency (u32 (sample_count / pit_tick_count * PIT_FREQUENCY)) (cpu s)) s).
Definition lapic_init (fuel : nat) (s : irq_state) : outcome irq_state :=
  s ← lapic_enable s; s ← lapic_timer_stop s; s ← calibrate_timer fuel s; lapic_timer_start s.
Definition lapic_add (i : lapic_info) (s : irq_state) : outcome irq_state :=
  array_item_count (lapic_list s);;
  '(ok, l, h) ← array_append malloc_size free (lapic_list s) (lapic_bytes i) (irq_heap s);
  c_assert ok;;
  Ok (set_irq_heap h (set_lists l (ioapic_list s) s)).

(** *** sys/idt.c and isr.c *)
Definition idt_set_vector (vector ist flags : Z) (s : irq_state) : irq_state :=
  set_isrs (with_idt_entry vector (idt_entry_for (idt_thunks vector) ist flags) (isrs s)) s.
Fixpoint idt_set_vectors (l : list Z) (s : irq_state) : irq_state :=
  match l with [] => s | v :: l => idt_set_vectors l (idt_set_vector v IST_NONE 0x8e s) end.
(** The offset 255 of the second controller and [lidt]. *)
Definition idt_init (s : irq_state) : outcome irq_state :=
  s ← act (pic_remap 247 255) s; Ok (idt_set_vectors (seqZ 0 256) s).

Definition isr_alloc_vector (s : irq_state) : outcome (Z * irq_state) :=
  let i := isrs s in
  c_assert (negb (g_free_vector i =? 0xff));;
  Ok (g_free_vector i, set_isrs (with_vectors (u8 (g_free_vector i + 1)) (g_timer_vector i) (g_spur_vector i) i) s).
Definition isr_set_vector (vector handler ist : Z) (s : irq_state) : irq_state :=
  set_isrs (with_handler vector handler (idt_entry_for (idt_thunks vector) ist IDT_DEFAULT_FLAGS) (isrs s)) s.
Fixpoint set_exception_handlers (l : list Z) (s : irq_state) : irq_state :=
  match l with
  | [] => s
  | v :: l => set_exception_handlers l (isr_set_vector v handle_exception_at IST_NONE s)
  end.
Definition idt_register_exception_handlers (s : irq_state) : irq_state := set_exception_handlers (seqZ 0 0x20) s.
Definition isr_init (s : irq_state) : outcome irq_state :=
  '(timer, s) ← isr_alloc_vector s;
  let s := set_isrs (with_vectors (g_free_vector (isrs s)) timer (g_spur_vector (isrs s)) (isrs s)) s in
  '(spur, s) ← isr_alloc_vector s;
  let s := set_isrs (with_vectors (g_free_vector (isrs s)) (g_timer_vector (isrs s)) spur (isrs s)) s in
  Ok (idt_register_exception_handlers (isr_set_vector spur spur_tick_at IST_NONE s)).
Definition isr_assign_irq_to_cpu (irq vector : Z) (masked : bool) (s : irq_state) : outcome irq_state :=
  ioapic_redirect_irq (lapic_id (cpu s)) irq vector masked s.
Definition spur_tick (s : irq_state) : irq_state :=
  set_cpu (with_ticks (timer_ticks (cpu s)) (u64 (spur_int_count (cpu s) + 1)) (cpu s)) s.
Definition lapic_timer_irq_callback (s : irq_state) : irq_state :=
  set_cpu (with_ticks (u64 (timer_ticks (cpu s) + 1)) (spur_int_count (cpu s)) (cpu s)) s.
(** Handlers of other components are [others]; [handle_exception] halts. *)
Definition isr_handle_interrupt (others : Z -> irq_state -> outcome irq_state) (vector : Z) (s : irq_state) :
    outcome irq_state :=
  if negb ((0 <=? vector) && (vector <? 256)) then Undef
  else
    match g_funcs (isrs s) !! vector with
    | None => Ok s
    | Some f =>
        if f =? lapic_timer_irq_callback_at then Ok (lapic_timer_irq_callback s)
        else if f =? spur_tick_at then Ok (spur_tick s)
        else others f s
    end.

(** *** apic/init.c *)
Definition __IA32_MSR_APIC_BASE_IS_BSP : Z := Z.shiftl 1 8.
Definition __IA32_MSR_APIC_BASE_X2APIC : Z := Z.shiftl 1 10.
Definition __IA32_MSR_APIC_BASE_ENABLE : Z := Z.shiftl 1 11.
Definition IRQ_TIMER : Z := 0.
(** The identifier and the version are read to be printed. *)
Definition apic_init (fuel : nat) (local_apic_base : Z) (s : irq_state) : outcome irq_state :=
  '(mmio, h) ← vmap_mmio (RANGE_INIT local_apic_base PAGE_SIZE) (Z.lor PROT_READ PROT_WRITE) 0 (irq_heap s);
  match mmio with
  | None => Panic
  | Some m =>
      let s := set_lapic_regs (region_base m) (set_irq_heap h s) in
      s ← act pic_disable s;
      '(_, s) ← on_machine (read_reg (region_base m) LAPIC_ID) s;
      '(_, s) ← on_machine (read_reg (region_base m) LAPIC_VERSION) s;
      '(_, s) ← on_machine (read_reg (region_base m) LAPIC_VERSION) s;
      '(apic_msr, s) ← on_machine (read_msr IA32_MSR_APIC_BASE) s;
      c_assert (negb (Z.land apic_msr __IA32_MSR_APIC_BASE_IS_BSP =? 0));;
      let '(apic_msr, s) :=
        if supports_x2apic then (Z.lor apic_msr __IA32_MSR_APIC_BASE_X2APIC, set_info (with_x2apic (info s)) s)
        else (apic_msr, s) in
      s ← act (write_msr IA32_MSR_APIC_BASE (Z.lor apic_msr __IA32_MSR_APIC_BASE_ENABLE)) s;
      s ← lapic_init fuel s;
      let timer := g_timer_vector (isrs s) in
      isr_assign_irq_to_cpu IRQ_TIMER timer false (isr_set_vector timer lapic_timer_irq_callback_at IST_NONE s)
  end.
End irq.
