(* ===== verification/Acpi.v ===== *)
(** * ACPI tables: kernel/acpi/{api,madt,fadt,mcfg}.c

    The tables are bytes in memory, reached through the direct map, and their
    structures are packed: a field is an offset and a size.  [memcmp] with the
    four characters of a signature compares four bytes.  Printing is left out. *)
From S2P Require Import Prelude CArith Range PageAlloc Mem Convert Buffer PgMap Vm Pci Irq.

(** ** structs.h: offsets *)
Definition RSDP_REVISION : Z := 15.
Definition RSDP_RSDT_ADDR : Z := 16.
Definition RSDP_XSDT_ADDR : Z := 24.
Definition SDT_LENGTH : Z := 4.
Definition sizeof_acpi_sdt : Z := 36.
Definition MADT_LOCAL_APIC_BASE : Z := 36.
Definition sizeof_acpi_madt : Z := 44.
Definition FADT_CENTURY : Z := 108.
Definition FADT_IAPC_BOOT_ARCH_FLAGS : Z := 109.
Definition sizeof_acpi_mcfg : Z := 44.
Definition sizeof_acpi_mcfg_entry : Z := 12.
Definition __ACPI_FADT_IAPC_BOOT_MSI_NOT_SUPPORTED : Z := Z.shiftl 1 3.

Definition ACPI_MADT_ENTRY_KIND_CPU_LOCAL_APIC : Z := 0.
Definition ACPI_MADT_ENTRY_KIND_IO_APIC : Z := 1.
Definition ACPI_MADT_ENTRY_KIND_INT_SRC_OVERRIDE : Z := 2.
Definition ACPI_MADT_ENTRY_KIND_NON_MASKABLE_INT : Z := 4.
Definition ACPI_MADT_ENTRY_KIND_LOCAL_APIC_ADDR_OVERRIDE : Z := 5.
Definition sizeof_madt_entry_header : Z := 2.
Definition sizeof_madt_entry_cpu_lapic : Z := 8.
Definition sizeof_madt_entry_ioapic : Z := 12.
Definition sizeof_madt_entry_iso : Z := 10.
Definition sizeof_madt_entry_nmi : Z := 6.
(** The structure has no header: its two fields are 2 and 8 bytes. *)
Definition sizeof_madt_entry_lapic_addr_override : Z := 10.
Definition __ACPI_MADT_ENTRY_CPU_LAPIC_FLAG_ENABLED : Z := Z.shiftl 1 0.
Definition __ACPI_MADT_ENTRY_CPU_LAPIC_FLAG_ONLINE_CAPABLE : Z := Z.shiftl 1 1.

(** ** api.c *)
Fixpoint load_bytes (n : nat) (a : Z) (m : bytes) : outcome (list Z) :=
  match n with O => Ok [] | S n => b ← load8 a m; rest ← load_bytes n (a + 1) m; Ok (b :: rest) end.
Definition has_signature (sdt : Z) (signature : string) (m : bytes) : outcome bool :=
  bs ← load_bytes 4 sdt m; Ok (bool_decide (bs = char_codes signature)).

Section acpi.
Context {W H : Type}.
Abbreviation irq_state := (@irq_state W H).
Abbreviation domains := (@pci_state W H).
Context (HHDM_OFFSET : Z).
(** The memory that the tables are in is not written to. *)
Context (m : bytes).
Context (port_in : Z -> Z -> W -> outcome (Z * W)) (port_out : Z -> Z -> Z -> W -> outcome W).
Context (mmio_read : Z -> Z -> W -> outcome (Z * W)) (mmio_write : Z -> Z -> Z -> W -> outcome W).
Context (read_msr : Z -> W -> outcome (Z * W)) (write_msr : Z -> Z -> W -> outcome W).
Context (malloc_size : Z -> H -> outcome (option (Z * list Z) * H)) (free : Z -> H -> outcome H).
Context (kmalloc : Z -> H -> outcome (option Z * H)).
Context (vmap_mmio : range -> Z -> Z -> H -> outcome (option mmio_ptr * H)).
Context (idt_thunks : Z -> Z) (supports_x2apic : bool).
Context (lapic_timer_irq_callback_at : Z).

(** [phys_to_virt]. *)
Definition table_at (phys : Z) : outcome Z := check_add_assert 64 HHDM_OFFSET phys.
Definition load (n : nat) (a offset : Z) : outcome Z := load_n n (a + offset) m.

Definition has_xsdt (i : acpi_info) : outcome bool :=
  revision ← load 1 (rsdp i) RSDP_REVISION;
  if revision >=? 2 then xsdt_addr ← load 8 (rsdp i) RSDP_XSDT_ADDR; Ok (negb (xsdt_addr =? 0)) else Ok false.

Definition pointer_size (xsdt : bool) : nat := if xsdt then 8 else 4.
Definition entry_count (length : Z) (xsdt : bool) : Z :=
  u32 (u64 (length - sizeof_acpi_sdt) / Z.of_nat (pointer_size xsdt)).
(** The table of each entry is used before the next entry is read. *)
Fixpoint recurse_from {A} (callback : Z -> A -> outcome A) (n : nat) (xsdt : bool) (p : Z) (a : A) : outcome A :=
  match n with
  | O => Ok a
  | S n =>
      phys ← load_n (pointer_size xsdt) p m;
      sdt ← table_at phys;
      a ← callback sdt a;
      recurse_from callback n xsdt (p + Z.of_nat (pointer_size xsdt)) a
  end.
Definition acpi_recurse {A} (i : acpi_info) (callback : Z -> A -> outcome A) (a : A) : outcome A :=
  xsdt ← has_xsdt i;
  length ← load 4 (rsdt i) SDT_LENGTH;
  recurse_from callback (Z.to_nat (entry_count length xsdt)) xsdt (rsdt i + sizeof_acpi_sdt) a.

Definition acpi_init_each_sdt (sdt : Z) (i : acpi_info) : outcome acpi_info :=
  apic ← has_signature sdt "APIC"%string m;
  if (apic : bool) then Ok (with_sdts sdt (fadt i) (mcfg i) (rsdp i) (rsdt i) i)
  else
    facp ← has_signature sdt "FACP"%string m;
    if (facp : bool) then Ok (with_sdts (madt i) sdt (mcfg i) (rsdp i) (rsdt i) i)
    else
      mcfg_found ← has_signature sdt "MCFG"%string m;
      Ok (if (mcfg_found : bool) then with_sdts (madt i) (fadt i) sdt (rsdp i) (rsdt i) i else i).

(** The first table with the signature; the answer 0 is NULL. *)
Fixpoint find_sdt (n : nat) (xsdt : bool) (p : Z) (signature : string) : outcome Z :=
  match n with
  | O => Ok 0
  | S n =>
      phys ← load_n (pointer_size xsdt) p m;
      sdt ← table_at phys;
      found ← has_signature sdt signature m;
      if (found : bool) then Ok sdt else find_sdt n xsdt (p + Z.of_nat (pointer_size xsdt)) signature
  end.
Definition acpi_lookup_sdt (signature : string) (i : acpi_info) : outcome Z :=
  if rsdp i =? 0 then Ok 0
  else
    xsdt ← has_xsdt i;
    length ← load 4 (rsdt i) SDT_LENGTH;
    find_sdt (Z.to_nat (entry_count length xsdt)) xsdt (rsdt i + sizeof_acpi_sdt) signature.

(** ** fadt.c *)
Definition fadt_init (fadt : Z) : outcome unit :=
  century ← load 1 fadt FADT_CENTURY; c_assert (negb (century =? 0)).
(** The flag that pci.c asks for. *)
Definition fadt_supports_msi (i : acpi_info) : outcome bool :=
  if fadt i =? 0 then Ok true
  else
    flags ← load 2 (fadt i) FADT_IAPC_BOOT_ARCH_FLAGS;
    Ok (Z.land flags __ACPI_FADT_IAPC_BOOT_MSI_NOT_SUPPORTED =? 0).

(** ** mcfg.c *)
Fixpoint add_domains (n : nat) (entry : Z) (s : domains) : outcome domains :=
  match n with
  | O => Ok s
  | S n =>
      base_addr ← load 8 entry 0;
      segment_num ← load 2 entry 8;
      bus_start_num ← load 1 entry 10;
      bus_end_num ← load 1 entry 11;
      bus_range ← range_create_end bus_start_num bus_end_num;
      '(_, s) ← pci_add_pcie_domain kmalloc vmap_mmio bus_range base_addr segment_num s;
      add_domains n (entry + sizeof_acpi_mcfg_entry) s
  end.
Definition mcfg_init (mcfg : Z) (s : domains) : outcome domains :=
  length ← load 4 mcfg SDT_LENGTH;
  add_domains (Z.to_nat (u32 (length - sizeof_acpi_mcfg) / sizeof_acpi_mcfg_entry)) (mcfg + sizeof_acpi_mcfg) s.

(** ** madt.c *)
Abbreviation ioapic_add := (ioapic_add mmio_read mmio_write malloc_size free vmap_mmio).
Abbreviation lapic_add := (lapic_add malloc_size free).

(** What the loop keeps: whether a LINT was found, the base of the local APIC,
    and the state. *)
Record madt_state := { found_nmi_lint : bool; local_apic_base : Z; irq : irq_state }.
Definition with_irq (s : irq_state) (a : madt_state) : madt_state :=
  {| found_nmi_lint := found_nmi_lint a; local_apic_base := local_apic_base a; irq := s |}.

(** An entry at [iter]; those that are only printed change nothing. *)
Definition madt_entry (iter kind length : Z) (a : madt_state) : outcome madt_state :=
  if kind =? ACPI_MADT_ENTRY_KIND_CPU_LOCAL_APIC then
    if negb (length =? sizeof_madt_entry_cpu_lapic) then Ok a
    else
      processor_id ← load 1 iter 2;
      apic_id ← load 1 iter 3;
      flags ← load 4 iter 4;
      s ← lapic_add {| apic_id := apic_id; processor_id := processor_id;
                       enabled := negb (Z.land flags __ACPI_MADT_ENTRY_CPU_LAPIC_FLAG_ENABLED =? 0);
                       online_capable := negb (Z.land flags __ACPI_MADT_ENTRY_CPU_LAPIC_FLAG_ONLINE_CAPABLE =? 0) |}
                    (irq a);
      Ok (with_irq s a)
  else if kind =? ACPI_MADT_ENTRY_KIND_IO_APIC then
    if negb (length =? sizeof_madt_entry_ioapic) then Ok a
    else
      apic_id ← load 1 iter 2;
      base ← load 4 iter 4;
      gsib ← load 4 iter 8;
      s ← ioapic_add apic_id base gsib (irq a);
      Ok (with_irq s a)
  else if kind =? ACPI_MADT_ENTRY_KIND_INT_SRC_OVERRIDE then
    if negb (length =? sizeof_madt_entry_iso) then Ok a
    else
      bus_source ← load 1 iter 2;
      irq_source ← load 1 iter 3;
      gsi ← load 4 iter 4;
      flags ← load 2 iter 8;
      let s := irq a in
      '(ok, l, h) ← array_append malloc_size free (iso_list (info s))
                      (iso_bytes {| bus_src := bus_source; irq_src := irq_source; Irq.gsi := u8 gsi;
                                    iso_flags := flags |}) (irq_heap s);
      c_assert ok;;
      Ok (with_irq (set_irq_heap h (set_info (with_isos l (info s)) s)) a)
  else if kind =? ACPI_MADT_ENTRY_KIND_NON_MASKABLE_INT then
    if negb (length =? sizeof_madt_entry_nmi) then Ok a
    else if found_nmi_lint a then Ok a
    else
      lint ← load 1 iter 5;
      Ok {| found_nmi_lint := true; local_apic_base := local_apic_base a;
            irq := set_info (with_nmi_lint lint (info (irq a))) (irq a) |}
  else if kind =? ACPI_MADT_ENTRY_KIND_LOCAL_APIC_ADDR_OVERRIDE then
    if negb (length =? sizeof_madt_entry_lapic_addr_override) then Ok a
    else
      base ← load 8 iter 2;
      Ok {| found_nmi_lint := found_nmi_lint a; local_apic_base := base; irq := irq a |}
  else Ok a.

(** [offset] has 32 bits; the sum with the size of the header has 64. *)
Fixpoint madt_loop (fuel : nat) (entries length offset : Z) (a : madt_state) : outcome madt_state :=
  if negb (offset + sizeof_madt_entry_header <=? length) then Ok a
  else
    match fuel with
    | O => OutOfFuel
    | S fuel =>
        kind ← load 1 (entries + offset) 0;
        entry_length ← load 1 (entries + offset) 1;
        a ← madt_entry (entries + offset) kind entry_length a;
        madt_loop fuel entries length (u32 (offset + entry_length)) a
    end.
(** An entry has at least two bytes; [timer_fuel] is for the calibration. *)
Definition madt_init (timer_fuel : nat) (madt : Z) (s : irq_state) : outcome irq_state :=
  base ← load 4 madt MADT_LOCAL_APIC_BASE;
  sdt_length ← load 4 madt SDT_LENGTH;
  let length := u32 (sdt_length - sizeof_acpi_madt) in
  a ← madt_loop (S (Z.to_nat length)) (madt + sizeof_acpi_madt) length 0
        {| found_nmi_lint := false; local_apic_base := base; irq := s |};
  c_assert (negb (local_apic_base a =? 0));;
  apic_init port_in port_out mmio_read mmio_write read_msr write_msr vmap_mmio idt_thunks supports_x2apic
    lapic_timer_irq_callback_at timer_fuel (local_apic_base a) (irq a).

(** ** acpi_init *)
(** The machine and the heap pass from one state to the other. *)
Definition handed_to (p : domains) (s : irq_state) : domains := with_machine (irq_hw s) (irq_heap s) p.
Definition handed_back (p : domains) (s : irq_state) : irq_state := set_hw (hw p) (set_irq_heap (heap p) s).

Definition acpi_init (timer_fuel : nat) (boot_rsdp : Z) (s : irq_state) (p : domains) :
    outcome (irq_state * domains) :=
  let i := info s in
  let i := with_sdts (madt i) (fadt i) (mcfg i) boot_rsdp (rsdt i) i in
  if boot_rsdp =? 0 then Ok (set_info i s, handed_to p s)
  else
    xsdt ← has_xsdt i;
    addr ← (if (xsdt : bool) then load 8 boot_rsdp RSDP_XSDT_ADDR else load 4 boot_rsdp RSDP_RSDT_ADDR);
    rsdt ← table_at addr;
    i ← (let i := with_sdts (madt i) (fadt i) (mcfg i) boot_rsdp rsdt i in acpi_recurse i acpi_init_each_sdt i);
    let s := set_info i s in
    s ← (if negb (madt i =? 0) then madt_init timer_fuel (madt i) s else Ok s);
    (if negb (fadt i =? 0) then fadt_init (fadt i) else Ok tt);;
    if negb (mcfg i =? 0) then
      p ← mcfg_init (mcfg i) (handed_to p s);
      Ok (handed_back p s, p)
    else Ok (s, handed_to p s).
End acpi.
