(* ===== verification/IrqThms.v ===== *)
(** * Interrupts: what a redirection writes to the I/O APIC

    [holds] says which objects an array holds.  The list of overrides and the
    list of I/O APICs then determine the machine accesses of a redirection. *)
From S2P Require Import Prelude CArith Range PageAlloc Convert Buffer BufferInv Bitmap BitmapInv BitmapThms WalkerInv PgMap PgTables Vm Pci Irq.

(** ** Bytes of an integer *)
Lemma le_word_bytes n v : 0 <= v < 2 ^ (8 * Z.of_nat n) -> le_word (le_bytes n v) = v.
Proof.
  revert v. induction n as [|n IH]; intros v Hv; [cbn in *; lia|]. cbn [le_bytes le_word].
  assert (2 ^ (8 * Z.of_nat (S n)) = 256 * 2 ^ (8 * Z.of_nat n)) as E.
  { rewrite Nat2Z.inj_succ. replace (8 * Z.succ (Z.of_nat n)) with (8 + 8 * Z.of_nat n) by lia. by rewrite Z.pow_add_r by lia. }
  rewrite IH; [pose proof (Z.div_mod v 256 ltac:(lia)); lia|]. split; [apply Z.div_pos; lia|apply Z.div_lt_upper_bound; lia].
Qed.
Lemma word_of_app pre n v post i : i = length pre -> 0 <= v < 2 ^ (8 * Z.of_nat n) ->
  word_of (pre ++ le_bytes n v ++ post) i n = v.
Proof.
  intros -> Hv. unfold word_of. rewrite drop_app_length, take_app_le by (rewrite le_bytes_length; lia).
  rewrite take_ge by (rewrite le_bytes_length; lia). by apply le_word_bytes.
Qed.

(** ** Objects of the arrays *)
Definition iso_ok (i : apic_iso_info) : Prop :=
  in_u 8 (bus_src i) /\ in_u 8 (irq_src i) /\ in_u 8 (gsi i) /\ in_u 16 (iso_flags i).
Definition ioapic_ok (i : ioapic_info) : Prop :=
  in_u 8 (arbid i) /\ in_u 8 (version i) /\ in_u 8 (max_redirect_count i) /\ in_u 32 (gsi_base i) /\
  in_u 64 (regs_mmio i) /\ in_u 64 (regs i).
Lemma iso_of_bytes i : iso_ok i -> iso_of (iso_bytes i) = i.
Proof.
  intros (_ & _ & _ & Hf). destruct i as [b r g f]. unfold iso_of, iso_bytes. cbn -[le_bytes word_of] in *.
  f_equal. rewrite <- (app_nil_r (le_bytes 2 f)). apply (word_of_app [b; r; g; 0] 2 f []); done.
Qed.
Lemma ioapic_of_bytes i : ioapic_ok i -> ioapic_of (ioapic_bytes i) = i.
Proof.
  intros (_ & _ & _ & Hg & Hm & Hr). destruct i as [a v c g m r]. unfold ioapic_of, ioapic_bytes.
  cbn -[le_bytes word_of] in *. f_equal.
  - apply (word_of_app [a; v; c; 0] 4 g); done.
  - apply (word_of_app ([a; v; c; 0] ++ le_bytes 4 g) 8 m); done.
  - rewrite <- (app_nil_r (le_bytes 8 r)).
    apply (word_of_app ([a; v; c; 0] ++ le_bytes 4 g ++ le_bytes 8 m) 8 r []); done.
Qed.

(** The array holds these objects of [size] bytes. *)
Record holds {A} (enc : A -> list Z) (size : Z) (a : array) (xs : list A) : Prop := {
  holds_size : object_size a = size;
  holds_wf : gb_wf (gbuffer a);
  holds_bytes : gb_bytes (gbuffer a) = concat (map enc xs);
  holds_index : gb_index (gbuffer a) = size * Z.of_nat (length xs);
}.
Lemma read_objects_enc {A} (enc : A -> list Z) size (xs : list A) data (i : nat) rest : 0 < size ->
  (forall x, Z.of_nat (length (enc x)) = size) -> drop i data = concat (map enc xs) ++ rest ->
  read_objects (length xs) data (Z.of_nat i) size = Ok (map enc xs).
Proof.
  intros Hs Henc. revert i. induction xs as [|x xs IH]; intros i Hd; [done|]. cbn in *.
  rewrite <- app_assoc in Hd. pose proof (f_equal length Hd) as Hl. rewrite length_drop, !length_app in Hl.
  specialize (Henc x) as Hx.
  rewrite read_bytes_ok by lia. rewrite outcome_bind_ok, Nat2Z.id, Hd, take_app_le by lia.
  rewrite take_ge by lia. replace (Z.of_nat i + size) with (Z.of_nat (i + length (enc x))) by lia.
  rewrite IH; [done|]. by rewrite <- drop_drop, Hd, drop_app_length.
Qed.
Lemma array_objects_holds {A} (enc : A -> list Z) size a (xs : list A) : 0 < size ->
  (forall x, Z.of_nat (length (enc x)) = size) -> holds enc size a xs -> array_objects size a = Ok (map enc xs).
Proof.
  intros Hs Henc []. unfold array_objects, array_item_count. rewrite holds_size0, Z.eqb_refl. cbn [c_assert].
  rewrite outcome_bind_ok, (proj2 (Z.eqb_neq size 0)) by lia. rewrite outcome_bind_ok. unfold gbuffer_used_size.
  rewrite holds_index0, Z.mul_comm, Z.div_mul, Nat2Z.id by lia.
  apply (read_objects_enc enc size xs _ 0 (drop (Z.to_nat (gb_index (gbuffer a))) (gb_data (gbuffer a))) Hs Henc).
  rewrite drop_0, <- holds_bytes0. unfold gb_bytes. by rewrite take_drop.
Qed.

Section append.
Context {H : Type}.
Context {malloc_size : Z -> H -> outcome (option (Z * list Z) * H)}.
Context {free : Z -> H -> outcome H}.
Context {heap : Malloc malloc_size free}.
Lemma holds_init {A} (enc : A -> list Z) size : holds enc size (array_init size) [].
Proof. constructor; [done| |done|cbn; lia]. constructor; cbn; lia || by right. Qed.
Lemma array_append_holds {A} (enc : A -> list Z) size a xs x h l : 0 < size ->
  (forall x, Z.of_nat (length (enc x)) = size) -> holds enc size a xs -> heap_owns h (gb_owned (gbuffer a) ++ l) ->
  size * (Z.of_nat (length xs) + 2) <= malloc_limit ->
  exists a' h', array_append malloc_size free a (enc x) h = Ok (true, a', h') /\ holds enc size a' (xs ++ [x]) /\
    heap_owns h' (gb_owned (gbuffer a') ++ l).
Proof.
  intros Hs Henc [Hsz Hwf Hb Hi] Hh Hlim. unfold array_append. rewrite Hsz.
  destruct (append_data_spec (gbuffer a) (enc x) size h l) as (gb & h' & -> & [Hwf' Hh'] & Hb' & Hi');
    [done|rewrite Henc; lia|rewrite Hi; lia|apply malloc_limit_32|].
  rewrite outcome_bind_ok, Z.eqb_refl. eexists _, _. split; [done|]. split; [|done].
  constructor; cbn; [done|done| |].
  - rewrite Hb', Hb, map_app, concat_app. cbn. by rewrite app_nil_r, take_ge by (specialize (Henc x); lia).
  - rewrite Hi', Hi, length_app. cbn. lia.
Qed.
End append.

(** ** The word of a redirection *)
Definition redirect_low (vector flags : Z) (masked : bool) : Z :=
  vector + Z.b2z (Z.testbit flags 1) * 2 ^ 13 + Z.b2z (Z.testbit flags 2 || Z.testbit flags 3) * 2 ^ 15 +
  Z.b2z masked * 2 ^ 16.
Lemma b2z_range b : 0 <= Z.b2z b <= 1.
Proof. by destruct b. Qed.
Lemma level_trigger flags :
  negb (Z.land flags __ACPI_MADT_ENTRY_ISO_LEVEL_TRIGGER =? 0) = Z.testbit flags 2 || Z.testbit flags 3.
Proof.
  change __ACPI_MADT_ENTRY_ISO_LEVEL_TRIGGER with (Z.lor (Z.shiftl 1 2) (Z.shiftl 1 3)).
  rewrite Z.land_lor_distr_r, <- (has_bit flags 2), <- (has_bit flags 3) by lia.
  destruct (Z.eqb_spec (Z.lor (Z.land flags (Z.shiftl 1 2)) (Z.land flags (Z.shiftl 1 3))) 0) as [E|E].
  - by apply Z.lor_eq_0_iff in E as [-> ->].
  - destruct (Z.eqb_spec (Z.land flags (Z.shiftl 1 2)) 0) as [E1|]; [|done].
    destruct (Z.eqb_spec (Z.land flags (Z.shiftl 1 3)) 0) as [E2|]; [|done]. by rewrite E1, E2 in E.
Qed.
Lemma redirect_low_bounds vector flags masked : in_u 8 vector -> 0 <= redirect_low vector flags masked < 2 ^ 17.
Proof.
  unfold_ints. unfold redirect_low. destruct (Z.testbit flags 1), (Z.testbit flags 2 || Z.testbit flags 3), masked; cbn; lia.
Qed.
Lemma redirect_request vector flags masked id : in_u 8 vector ->
  create_ioapic_redirect_request vector 0 0 flags masked id = redirect_low vector flags masked + id * 2 ^ 56.
Proof.
  intros Hv. unfold create_ioapic_redirect_request. change __ACPI_MADT_ENTRY_ISO_ACTIVE_LOW with (Z.shiftl 1 1).
  rewrite has_bit, level_trigger, !Z.shiftl_0_l, !Z.lor_0_r by lia. unfold redirect_low. unfold_ints.
  pose proof (b2z_range (Z.testbit flags 1)) as H1. set (low := Z.b2z (Z.testbit flags 1)) in *.
  pose proof (b2z_range (Z.testbit flags 2 || Z.testbit flags 3)) as H2. set (level := Z.b2z (_ || _)) in *.
  pose proof (b2z_range masked) as H3. clearbody low level.
  rewrite (lor_shift vector low 13), (lor_shift (vector + low * 2 ^ 13) level 15) by lia.
  rewrite (lor_shift (vector + low * 2 ^ 13 + level * 2 ^ 15) (Z.b2z masked) 16) by lia.
  by rewrite lor_shift by lia.
Qed.

(** ** What a redirection does *)
Definition line_for (irq : Z) (isos : list apic_iso_info) : Z * Z :=
  match List.find (fun i => irq_src i =? irq) isos with Some i => (gsi i, iso_flags i) | None => (irq, 0) end.
Definition overridden_to (irq vector : Z) (isos : list apic_iso_info) : bool :=
  match List.find (fun i => irq_src i =? irq) isos with Some i => gsi i =? vector | None => false end.

Section redirect.
Context {W H : Type}.
Context (mmio_write : Z -> Z -> Z -> W -> outcome W).
Fixpoint mmio_writes (l : list (Z * Z)) (w : W) : outcome W :=
  match l with [] => Ok w | (p, v) :: l => w ← mmio_write 4 p v w; mmio_writes l w end.
(** The low word goes to the register 16 + 2n, the high word to the next one. *)
Definition redirection (x : ioapic_info) (gsi vector flags id : Z) (masked : bool) : list (Z * Z) :=
  let reg := 16 + 2 * (gsi - gsi_base x) in
  [(regs x, reg); (regs x + 16, redirect_low vector flags masked); (regs x, reg + 1); (regs x + 16, id * 2 ^ 24)].
Definition redirected (id irq vector : Z) (masked : bool) (isos : list apic_iso_info) (ioapics : list ioapic_info)
    (w : W) : outcome W :=
  if overridden_to irq vector isos then Ok w
  else
    let '(line, flags) := line_for irq isos in
    match List.find (serves line) ioapics with
    | Some x => mmio_writes (redirection x line vector flags id masked) w
    | None => Panic
    end.

Lemma serves_bounds g x : ioapic_ok x -> in_u 8 g -> serves g x = true ->
  0 <= gsi_base x < g /\ g < gsi_base x + max_redirect_count x.
Proof.
  intros (_ & _ & Hm & Hg & _) Hb [H1 H2]%andb_prop. apply Z.gtb_lt in H1. apply Z.ltb_lt in H2. unfold_ints.
  rewrite wrap_small in H2 by (unfold_ints; lia). lia.
Qed.
Lemma redirect_irq_spec id line vector flags masked ioapics (s : @irq_state W H) :
  holds ioapic_bytes sizeof_ioapic_info (ioapic_list s) ioapics -> Forall ioapic_ok ioapics ->
  Forall (fun x => regs x + 16 < 2 ^ 64) ioapics -> in_u 8 id -> in_u 8 line -> in_u 8 vector ->
  redirect_irq mmio_write id line vector flags masked s =
  act (fun w => match List.find (serves line) ioapics with
                | Some x => mmio_writes (redirection x line vector flags id masked) w
                | None => Panic end) s.
Proof.
  intros Hh Hok Htop Hid Hl Hv. unfold redirect_irq, ioapic_info_for_gsi.
  rewrite (array_objects_holds ioapic_bytes _ _ ioapics) by (done || intros []; done). rewrite !outcome_bind_ok.
  assert (map ioapic_of (map ioapic_bytes ioapics) = ioapics) as ->.
  { rewrite map_map. rewrite <- (map_id ioapics) at 2. apply map_ext_in. intros x Hx%list_elem_of_In.
    apply ioapic_of_bytes. by rewrite Forall_forall in Hok; apply Hok. }
  destruct (List.find _ _) as [x|] eqn:Hx; [|done]. apply find_some in Hx as [Hx Hs]. apply list_elem_of_In in Hx.
  rewrite Forall_forall in Hok, Htop. pose proof (Hok x Hx) as Hxok. pose proof (Htop x Hx) as Hxt.
  pose proof (serves_bounds line x Hxok Hl Hs) as [Hb Hb']. destruct Hxok as (_ & _ & Hm & _ & _ & Hr). unfold_ints.
  rewrite redirect_request by done. pose proof (redirect_low_bounds vector flags masked Hv) as Hlow.
  assert (u32 (redirect_low vector flags masked + id * 2 ^ 56) = redirect_low vector flags masked) as ->.
  { unfold wrap. replace (id * 2 ^ 56) with (id * 2 ^ 24 * 2 ^ 32) by lia. rewrite Z.mod_add, Z.mod_small; lia. }
  assert (u32 (Z.shiftr (redirect_low vector flags masked + id * 2 ^ 56) 32) = id * 2 ^ 24) as ->.
  { rewrite Z.shiftr_div_pow2 by lia. replace (id * 2 ^ 56) with (id * 2 ^ 24 * 2 ^ 32) by lia.
    rewrite Z.div_add, Z.div_small by lia. apply wrap_small. unfold_ints. lia. }
  rewrite (wrap_small 8) by (unfold_ints; lia). unfold ioapic_redirect_table_get_reg_for_n, act, ioapic_write, ioapic_selector, ioapic_data.
  change IOAPIC_REG_REDIRECTION_TABLE_BASE with 16. rewrite (wrap_small 64) by (unfold_ints; lia).
  unfold redirection. cbn [mmio_writes]. rewrite (Z.mul_comm _ 2).
  repeat match goal with
  | |- context [mmio_write 4 ?p ?v ?w] =>
      destruct (mmio_write 4 p v w); [rewrite ?outcome_bind_ok; cbn [irq_hw set_hw]|done..]
  end. done.
Qed.

(** C37: the array of overrides and the array of I/O APICs determine the
    redirection of an interrupt: an override gives the line and the flags, and
    nothing is written when it already names the vector; the first I/O APIC that
    serves the line takes the two words, vector, polarity, trigger mode and mask
    in the low one and the local APIC in the top byte of the high one, in the
    entry of the line relative to its base; with no such I/O APIC the kernel
    panics. *)
Theorem ioapic_redirect_irq_spec id irq vector masked isos ioapics (s : @irq_state W H) :
  holds iso_bytes sizeof_apic_iso_info (iso_list (info s)) isos ->
  holds ioapic_bytes sizeof_ioapic_info (ioapic_list s) ioapics ->
  Forall iso_ok isos -> Forall ioapic_ok ioapics -> Forall (fun x => regs x + 16 < 2 ^ 64) ioapics ->
  in_u 8 id -> in_u 8 irq -> in_u 8 vector ->
  ioapic_redirect_irq mmio_write id irq vector masked s = act (redirected id irq vector masked isos ioapics) s.
Proof.
  intros Hi Ha Hiok Haok Htop Hid Hirq Hv. unfold ioapic_redirect_irq.
  rewrite (array_objects_holds iso_bytes _ _ isos) by (done || intros []; done). rewrite outcome_bind_ok.
  assert (map iso_of (map iso_bytes isos) = isos) as ->.
  { rewrite map_map. rewrite <- (map_id isos) at 2. apply map_ext_in. intros x Hx%list_elem_of_In.
    apply iso_of_bytes. by rewrite Forall_forall in Hiok; apply Hiok. }
  unfold redirected, overridden_to, line_for. rewrite (wrap_small 8 id) by done.
  destruct (List.find _ _) as [i|] eqn:Hf; [|by apply redirect_irq_spec].
  apply find_some in Hf as [Hin%list_elem_of_In _]. rewrite Forall_forall in Hiok.
  destruct (Hiok i Hin) as (_ & _ & Hg & _).
  destruct (gsi i =? vector); [by destruct s|]. by apply redirect_irq_spec.
Qed.
End redirect.

(** A machine that records its writes. *)
Definition log_write (n p v : Z) (w : list (Z * Z)) : outcome (list (Z * Z)) := Ok (w ++ [(p, v)]).
Definition ex_array (size : Z) (bs : list Z) : array :=
  {| gbuffer := {| gb_begin := 4096; gb_end := 4096 + Z.of_nat (length bs); gb_index := Z.of_nat (length bs);
                   gb_is_alloc := true; gb_data := bs |}; object_size := size |}.
Lemma ex_array_holds {A} (enc : A -> list Z) size (xs : list A) : (length (concat (map enc xs)) < 4096)%nat ->
  Z.of_nat (length (concat (map enc xs))) = size * Z.of_nat (length xs) ->
  holds enc size (ex_array size (concat (map enc xs))) xs.
Proof.
  intros Hl Hs. constructor; [done| |cbn|done].
  - constructor; cbn; lia || by left.
  - unfold gb_bytes. cbn. by rewrite Nat2Z.id, take_ge.
Qed.
(** The usual override of the timer: line 2 of the only I/O APIC. *)
Definition ex_isos : list apic_iso_info :=
  [{| bus_src := 0; irq_src := 9; gsi := 9; iso_flags := 13 |};
   {| bus_src := 0; irq_src := 0; gsi := 2; iso_flags := 0 |}].
Definition ex_ioapics : list ioapic_info :=
  [{| arbid := 0; version := 0x20; max_redirect_count := 24; gsi_base := 0; regs_mmio := 7; regs := 0x5000 |}].
Definition ex_irq_state : @irq_state (list (Z * Z)) unit :=
  {| irq_hw := []; irq_heap := tt;
     info := with_isos (ex_array 6 (concat (map iso_bytes ex_isos))) acpi_info_init;
     lapic_list := array_init 3; ioapic_list := ex_array 24 (concat (map ioapic_bytes ex_ioapics)); lapic_regs := 0;
     cpu := {| lapic_id := 5; lapic_timer_frequency := 0; timer_ticks := 0; spur_int_count := 0 |};
     isrs := isr_state_init |}.

Lemma ioapic_redirect_irq_spec_witness :
  ioapic_redirect_irq log_write 5 9 0x31 true ex_irq_state = act (redirected log_write 5 9 0x31 true ex_isos ex_ioapics) ex_irq_state /\
  redirected log_write 5 9 0x31 true ex_isos ex_ioapics [] =
    Ok [(0x5000, 34); (0x5010, 0x31 + 2 ^ 15 + 2 ^ 16); (0x5000, 35); (0x5010, 5 * 2 ^ 24)].
Proof.
  split; [|by vm_compute].
  apply (ioapic_redirect_irq_spec log_write 5 9 0x31 true ex_isos ex_ioapics ex_irq_state).
  1,2: apply ex_array_holds; vm_compute; lia || done.
  all: repeat constructor; cbn; lia || done.
Defined.

(** The first line of an I/O APIC is not served: without an override of the
    timer, its redirection panics. *)
Example first_line_panics :
  ioapic_redirect_irq log_write 5 0 0x31 false (set_info acpi_info_init ex_irq_state) = Panic.
Proof. by vm_compute. Qed.
(** An I/O APIC with 256 entries serves no line: the count does not fit. *)
Example count_of_256 : u8 (ioapic_version_reg_get_max_redirect_count 0xff0020) = 0.
Proof. by vm_compute. Qed.
(** Edge triggering, 01 in bits 2 and 3, is taken for level triggering. *)
Example edge_is_level : redirect_low 0x31 4 false = 0x31 + 2 ^ 15.
Proof. by vm_compute. Qed.
