(* ===== verification/AcpiThms.v ===== *)
(** * What the ACPI tables and the interrupt controllers are taken for *)
From S2P Require Import Prelude CArith Range PageAlloc Mem Convert Buffer BufferInv BufferThms Bitmap BitmapInv BitmapThms WalkerInv PgMap PgTables Vm Pci Irq Acpi IrqThms.

(** ** Bytes in memory *)
Definition present (m : bytes) (a : Z) (bs : list Z) : Prop :=
  forall i b, bs !! i = Some b -> m !! (a + Z.of_nat i) = Some b.
Lemma present_app m a xs ys : present m a (xs ++ ys) <-> present m a xs /\ present m (a + Z.of_nat (length xs)) ys.
Proof.
  split.
  - intros H. split.
    + intros i b Hi. apply H. by apply lookup_app_l_Some.
    + intros i b Hi. rewrite <- Z.add_assoc, <- Nat2Z.inj_add. apply H.
      rewrite lookup_app_r by lia. by replace (length xs + i - length xs)%nat with i by lia.
  - intros [Hx Hy] i b Hi. apply lookup_app_Some in Hi as [Hi|[Hl Hi]]; [by apply Hx|].
    apply Hy in Hi. rewrite <- Hi. f_equal. lia.
Qed.
Lemma present_cons m a b bs : present m a (b :: bs) <-> m !! a = Some b /\ present m (a + 1) bs.
Proof.
  change (b :: bs) with ([b] ++ bs). rewrite present_app. cbn [length]. change (Z.of_nat 1) with 1.
  split; intros [H1 H2]; (split; [|done]).
  - specialize (H1 0%nat b eq_refl). by rewrite Z.add_0_r in H1.
  - intros i c Hi. apply list_lookup_singleton_Some in Hi as [-> ->]. by rewrite Z.add_0_r.
Qed.
Lemma load_present m a bs : present m a bs -> load_n (length bs) a m = Ok (le_word bs).
Proof.
  revert a. induction bs as [|b bs IH]; intros a H; [done|]. apply present_cons in H as [Hb H].
  cbn [length load_n le_word]. unfold load8. rewrite Hb. cbn [deref]. rewrite outcome_bind_ok, IH by done. done.
Qed.
(** A field of [n] bytes. *)
Lemma load_field m a n v : 0 <= v < 2 ^ (8 * Z.of_nat n) -> present m a (le_bytes n v) -> load_n n a m = Ok v.
Proof. intros Hv H. apply load_present in H. by rewrite le_bytes_length, le_word_bytes in H. Qed.

(** ** Entries of the MADT *)
Inductive madt_record :=
| LocalApic (processor apic flags : Z)
| IoApic (apic base gsib : Z)
| Override (bus irq gsi flags : Z)
| NmiLine (processor flags lint : Z)
| Unused_entry (kind : Z) (body : list Z).
(** The entries that nothing is done for. *)
Definition unused (kind : Z) (length : Z) : Prop :=
  ~ (kind = 0 /\ length = 8) /\ ~ (kind = 1 /\ length = 12) /\ ~ (kind = 2 /\ length = 10) /\
  ~ (kind = 4 /\ length = 6) /\ ~ (kind = 5 /\ length = 10).
Definition encode (r : madt_record) : list Z :=
  match r with
  | LocalApic p a f => [0; 8; p; a] ++ le_bytes 4 f
  | IoApic a base gsib => [1; 12; a; 0] ++ le_bytes 4 base ++ le_bytes 4 gsib
  | Override bus irq gsi f => [2; 10; bus; irq] ++ le_bytes 4 gsi ++ le_bytes 2 f
  | NmiLine p f lint => [4; 6; p] ++ le_bytes 2 f ++ [lint]
  | Unused_entry k body => [k; 2 + Z.of_nat (length body)] ++ body
  end.
Definition record_ok (r : madt_record) : Prop :=
  match r with
  | LocalApic p a f => in_u 8 p /\ in_u 8 a /\ in_u 32 f
  | IoApic a base gsib => in_u 8 a /\ in_u 32 base /\ in_u 32 gsib
  | Override bus irq gsi f => in_u 8 bus /\ in_u 8 irq /\ in_u 32 gsi /\ in_u 16 f
  | NmiLine p f lint => in_u 8 p /\ in_u 16 f /\ in_u 8 lint
  | Unused_entry k body => in_u 8 k /\ (length body <= 253)%nat /\ unused k (2 + Z.of_nat (length body))
  end.

(** Decide the closed tests of the goal, from the outside in. *)
Ltac dispatch :=
  repeat match goal with
  | |- (if ?b then _ else _) = _ =>
      let v := eval vm_compute in b in lazymatch v with true => idtac | false => idtac end; change b with v; cbn iota
  end.

Section madt.
Context {W H : Type}.
Context (mmio_read : Z -> Z -> W -> outcome (Z * W)) (mmio_write : Z -> Z -> Z -> W -> outcome W).
Context (malloc_size : Z -> H -> outcome (option (Z * list Z) * H)) (free : Z -> H -> outcome H).
Context (vmap_mmio : range -> Z -> Z -> H -> outcome (option mmio_ptr * H)).
Abbreviation ioapic_add := (ioapic_add mmio_read mmio_write malloc_size free vmap_mmio).
Abbreviation lapic_add := (lapic_add malloc_size free).
Abbreviation madt_entry m := (madt_entry (W := W) (H := H) m mmio_read mmio_write malloc_size free vmap_mmio).
Abbreviation madt_loop m := (madt_loop (W := W) (H := H) m mmio_read mmio_write malloc_size free vmap_mmio).

(** What an entry means. *)
Definition add_override (i : apic_iso_info) (s : @irq_state W H) : outcome irq_state :=
  '(ok, l, h) ← array_append malloc_size free (iso_list (info s)) (iso_bytes i) (irq_heap s);
  c_assert ok;;
  Ok (set_irq_heap h (set_info (with_isos l (info s)) s)).
Definition meaning (r : madt_record) (a : madt_state) : outcome madt_state :=
  match r with
  | LocalApic p i f =>
      s ← lapic_add {| apic_id := i; processor_id := p; enabled := Z.testbit f 0; online_capable := Z.testbit f 1 |} (irq a);
      Ok (with_irq s a)
  | IoApic i base gsib => s ← ioapic_add i base gsib (irq a); Ok (with_irq s a)
  | Override b i g f =>
      s ← add_override {| bus_src := b; irq_src := i; Irq.gsi := u8 g; iso_flags := f |} (irq a);
      Ok (with_irq s a)
  | NmiLine _ _ lint =>
      if found_nmi_lint a then Ok a
      else Ok {| found_nmi_lint := true; local_apic_base := local_apic_base a;
                 irq := set_info (with_nmi_lint lint (info (irq a))) (irq a) |}
  | Unused_entry _ _ => Ok a
  end.
Fixpoint meanings (rs : list madt_record) (a : madt_state) : outcome madt_state :=
  match rs with [] => Ok a | r :: rs => a ← meaning r a; meanings rs a end.
Definition encoded (rs : list madt_record) : list Z := concat (map encode rs).

Lemma length_encode r : record_ok r -> 2 <= Z.of_nat (length (encode r)) < 256 /\
  exists k rest, encode r = k :: Z.of_nat (length (encode r)) :: rest /\ in_u 8 k.
Proof.
  intros Hr. destruct r; cbn [encode record_ok] in *; rewrite ?length_app, ?le_bytes_length; cbn [length Nat.add];
    rewrite ?le_bytes_length; unfold_ints; (split; [lia|]);
    (eexists _, _; split; [cbn [app]; f_equal; f_equal; (reflexivity || lia)|lia]).
Qed.

(** A field at an offset of the entry. *)
Lemma load_at m a pre n v post : 0 <= v < 2 ^ (8 * Z.of_nat n) ->
  present m a (pre ++ le_bytes n v ++ post) -> load m n a (Z.of_nat (length pre)) = Ok v.
Proof. intros Hv [_ [Hp _]%present_app]%present_app. by apply load_field. Qed.
Lemma load_byte m a pre v post : in_u 8 v -> present m a (pre ++ v :: post) -> load m 1 a (Z.of_nat (length pre)) = Ok v.
Proof.
  intros Hv Hp. apply (load_at m a pre 1 v post Hv). cbn [le_bytes app].
  by rewrite Z.mod_small by (unfold_ints; lia).
Qed.


Lemma madt_entry_encoded m a iter r : record_ok r -> present m iter (encode r) ->
  madt_entry m iter (byte_of (encode r) 0) (Z.of_nat (length (encode r))) a = meaning r a.
Proof.
  intros Hr Hp. unfold Acpi.madt_entry.
  destruct r as [p i f|i base gsib|b i g f|p f lint|k body]; cbn [encode record_ok meaning] in *.
  - destruct Hr as (Hpr & Hi & Hf).
    pose proof (load_byte m iter [0; 8] p _ Hpr Hp) as H2. pose proof (load_byte m iter [0; 8; p] i _ Hi Hp) as H3.
    pose proof (load_at m iter [0; 8; p; i] 4 f [] Hf) as H4. rewrite app_nil_r in H4. specialize (H4 Hp).
    change (byte_of _ 0) with 0. change (Z.of_nat (length _)) with 8. dispatch.
    change (Z.of_nat (length _)) with 2 in H2. change (Z.of_nat (length _)) with 3 in H3. change (Z.of_nat (length _)) with 4 in H4.
    rewrite H2, outcome_bind_ok, H3, outcome_bind_ok, H4, outcome_bind_ok.
    unfold __ACPI_MADT_ENTRY_CPU_LAPIC_FLAG_ENABLED, __ACPI_MADT_ENTRY_CPU_LAPIC_FLAG_ONLINE_CAPABLE.
    by rewrite !has_bit by lia.
  - destruct Hr as (Hi & Hbase & Hg).
    pose proof (load_byte m iter [1; 12] i _ Hi Hp) as H2.
    pose proof (load_at m iter [1; 12; i; 0] 4 base _ Hbase Hp) as H4.
    pose proof (load_at m iter ([1; 12; i; 0] ++ le_bytes 4 base) 4 gsib [] Hg) as H8. rewrite app_nil_r, <- app_assoc in H8.
    specialize (H8 Hp). change (byte_of _ 0) with 1. change (Z.of_nat (length _)) with 12. dispatch.
    change (Z.of_nat (length _)) with 2 in H2. change (Z.of_nat (length _)) with 4 in H4. change (Z.of_nat (length _)) with 8 in H8.
    by rewrite H2, outcome_bind_ok, H4, outcome_bind_ok, H8, outcome_bind_ok.
  - destruct Hr as (Hb & Hi & Hg & Hf).
    pose proof (load_byte m iter [2; 10] b _ Hb Hp) as H2. pose proof (load_byte m iter [2; 10; b] i _ Hi Hp) as H3.
    pose proof (load_at m iter [2; 10; b; i] 4 g _ Hg Hp) as H4.
    pose proof (load_at m iter ([2; 10; b; i] ++ le_bytes 4 g) 2 f [] Hf) as H8. rewrite app_nil_r, <- app_assoc in H8.
    specialize (H8 Hp). change (byte_of _ 0) with 2. change (Z.of_nat (length _)) with 10. dispatch.
    change (Z.of_nat (length _)) with 2 in H2. change (Z.of_nat (length _)) with 3 in H3.
    change (Z.of_nat (length _)) with 4 in H4. change (Z.of_nat (length _)) with 8 in H8.
    rewrite H2, outcome_bind_ok, H3, outcome_bind_ok, H4, outcome_bind_ok, H8, outcome_bind_ok.
    unfold add_override. destruct (array_append _ _ _ _ _) as [[[ok l] h]| | | ]; cbn; try done.
    by destruct ok.
  - destruct Hr as (Hpr & Hf & Hl).
    pose proof (load_byte m iter ([4; 6; p] ++ le_bytes 2 f) lint [] Hl) as H5. rewrite <- app_assoc in H5. specialize (H5 Hp).
    change (byte_of _ 0) with 4. change (Z.of_nat (length _)) with 6. dispatch.
    change (Z.of_nat (length _)) with 5 in H5. destruct (found_nmi_lint a); [done|]. by rewrite H5.
  - destruct Hr as (Hk & Hl & Hu). change (byte_of _ 0) with k.
    replace (Z.of_nat (length _)) with (2 + Z.of_nat (length body)) by (cbn [app length]; lia).
    unfold unused in Hu.
    repeat match goal with |- (if ?x =? ?y then _ else _) = _ => destruct (Z.eqb_spec x y) end;
      repeat match goal with |- (if negb (?x =? ?y) then _ else _) = _ => destruct (Z.eqb_spec x y); cbn [negb] end; try done;
      exfalso; tauto.
Qed.

(** ** The loop *)
Lemma present_inv m a b bs : present m a (b :: bs) -> m !! a = Some b.
Proof. by intros [? _]%present_cons. Qed.
Lemma madt_loop_encoded m entries a fuel total offset rs : Forall record_ok rs ->
  (length rs <= fuel)%nat -> 0 <= offset -> total < 2 ^ 32 -> offset + Z.of_nat (length (encoded rs)) = total ->
  present m (entries + offset) (encoded rs) -> madt_loop m fuel entries total offset a = meanings rs a.
Proof.
  intros Hrs. revert a fuel offset. induction Hrs as [|r rs Hr Hrs IH]; intros a fuel offset Hf Ho Ht Hl Hp.
  - cbn in Hl. destruct fuel; cbn; unfold sizeof_madt_entry_header; by rewrite (proj2 (Z.leb_gt _ _)) by lia.
  - destruct fuel as [|fuel]; [cbn in Hf; lia|]. cbn in Hf.
    change (encoded (r :: rs)) with (encode r ++ encoded rs) in Hl, Hp. rewrite length_app in Hl. apply present_app in Hp as [Hr' Hp].
    pose proof (length_encode r Hr) as [Hlen (k & rest & Hk & Hkb)].
    cbn [Acpi.madt_loop]. unfold sizeof_madt_entry_header. rewrite (proj2 (Z.leb_le _ _)) by lia. cbn [negb].
    pose proof (madt_entry_encoded m a _ r Hr Hr') as He.
    assert (load m 1 (entries + offset) 0 = Ok k) as ->.
    { apply (load_byte m _ [] k (Z.of_nat (length (encode r)) :: rest) Hkb). rewrite Hk in Hr'. exact Hr'. }
    assert (load m 1 (entries + offset) 1 = Ok (Z.of_nat (length (encode r)))) as ->.
    { apply (load_byte m _ [k] _ rest); [unfold_ints; lia|]. rewrite Hk in Hr'. exact Hr'. }
    rewrite !outcome_bind_ok. assert (byte_of (encode r) 0 = k) as Hk0 by (by rewrite Hk). rewrite Hk0 in He. rewrite He.
    cbn [meanings]. destruct (meaning r a) as [a'| | | ]; try done. rewrite !outcome_bind_ok.
    rewrite (wrap_small 32) by (unfold_ints; lia).
    apply IH; try lia. by rewrite Z.add_assoc.
Qed.
End madt.

Lemma encoded_length rs : Forall record_ok rs -> (length rs <= length (encoded rs))%nat.
Proof.
  induction 1 as [|r rs Hr _ IH]; [done|]. change (encoded (r :: rs)) with (encode r ++ encoded rs).
  rewrite length_app. pose proof (length_encode r Hr) as [? _]. cbn. lia.
Qed.

(** ** The lists that the records are *)
Definition overrides (rs : list madt_record) : list apic_iso_info :=
  omap (fun r => match r with
    | Override b i g f => Some {| bus_src := b; irq_src := i; Irq.gsi := g `mod` 256; iso_flags := f |}
    | _ => None end) rs.
Definition locals (rs : list madt_record) : list lapic_info :=
  omap (fun r => match r with
    | LocalApic p i f =>
        Some {| apic_id := i; processor_id := p; enabled := Z.testbit f 0; online_capable := Z.testbit f 1 |}
    | _ => None end) rs.
(** An I/O APIC that is not aligned to a page is ignored. *)
Definition io_records (rs : list madt_record) : list (Z * Z * Z) :=
  omap (fun r => match r with
    | IoApic i base gsib => if base `mod` 4096 =? 0 then Some (i, base, gsib) else None
    | _ => None end) rs.
(** The first line for non-maskable interrupts counts. *)
Fixpoint first_lint (rs : list madt_record) (found : bool) (lint : Z) : bool * Z :=
  match rs with
  | [] => (found, lint)
  | NmiLine _ _ l :: rs => if found then first_lint rs found lint else first_lint rs true (l `mod` 2)
  | _ :: rs => first_lint rs found lint
  end.

(** What the I/O APICs promise: their registers can be mapped, and the
    identifier and the version can be read. *)
Class IoApicHost {W H : Type}
    (mmio_read : Z -> Z -> W -> outcome (Z * W)) (mmio_write : Z -> Z -> Z -> W -> outcome W)
    (vmap_mmio : range -> Z -> Z -> H -> outcome (option mmio_ptr * H))
    {malloc_size : Z -> H -> outcome (option (Z * list Z) * H)} {free : Z -> H -> outcome H}
    {heap : Malloc malloc_size free} := {
  io_ok : W -> Prop;
  (** the words in the registers of the I/O APIC at a physical address *)
  id_word : Z -> Z;
  version_word : Z -> Z;
  mapped_at : Z -> Z -> Prop;
  mapped_bounds p base : mapped_at p base -> 0 <= p /\ p + 16 < 2 ^ 64;
  vmap_ok base h l : heap_owns h l -> 0 <= base < 2 ^ 32 -> base `mod` 4096 = 0 ->
    exists m h', vmap_mmio (RANGE_INIT base PAGE_SIZE) (Z.lor PROT_READ PROT_WRITE) 0 h = Ok (Some m, h') /\
      heap_owns h' l /\ mapped_at (region_base m) base /\ Z.pos (region m) < 2 ^ 64;
  id_ok w p base : io_ok w -> mapped_at p base -> exists w1 w2,
    mmio_write 4 p 0 w = Ok w1 /\ mmio_read 4 (p + 16) w1 = Ok (id_word base, w2) /\ io_ok w2;
  version_ok w p base : io_ok w -> mapped_at p base -> exists w1 w2,
    mmio_write 4 p 1 w = Ok w1 /\ mmio_read 4 (p + 16) w1 = Ok (version_word base, w2) /\ io_ok w2;
}.

Section tables.
Context {W H : Type}.
Context {mmio_read : Z -> Z -> W -> outcome (Z * W)} {mmio_write : Z -> Z -> Z -> W -> outcome W}.
Context {malloc_size : Z -> H -> outcome (option (Z * list Z) * H)} {free : Z -> H -> outcome H}.
Context {vmap_mmio : range -> Z -> Z -> H -> outcome (option mmio_ptr * H)}.
Context {heap : Malloc malloc_size free} {host : IoApicHost mmio_read mmio_write vmap_mmio (heap := heap)}.
Abbreviation meaning := (meaning mmio_read mmio_write malloc_size free vmap_mmio).
Abbreviation meanings := (meanings mmio_read mmio_write malloc_size free vmap_mmio).

(** An I/O APIC is as the record and its registers say. *)
Definition io_of (r : Z * Z * Z) (x : ioapic_info) : Prop :=
  let '(i, base, gsib) := r in
  arbid x = i /\ gsi_base x = gsib /\ version x = version_word base `mod` 256 /\
  max_redirect_count x = ((version_word base / 2 ^ 16) `mod` 256 + 1) `mod` 256 /\ mapped_at (regs x) base /\
  in_u 64 (regs_mmio x).
(** The identifiers in the registers are those in the table. *)
Definition io_agrees (r : madt_record) : Prop :=
  match r with IoApic i base _ => base `mod` 4096 = 0 -> (id_word base / 2 ^ 24) `mod` 16 = i | _ => True end.

(** The lists of the state, in a heap where also [l] is owned. *)
Record tables_in (s : @irq_state W H) (isos : list apic_iso_info) (lapics : list lapic_info)
    (ios : list ioapic_info) (l : list Z) : Prop := {
  in_isos : holds iso_bytes sizeof_apic_iso_info (iso_list (info s)) isos;
  in_lapics : holds lapic_bytes sizeof_lapic_info (lapic_list s) lapics;
  in_ios : holds ioapic_bytes sizeof_ioapic_info (ioapic_list s) ios;
  in_heap : heap_owns (irq_heap s) (gb_owned (gbuffer (iso_list (info s))) ++ gb_owned (gbuffer (lapic_list s)) ++
              gb_owned (gbuffer (ioapic_list s)) ++ l);
  in_io : io_ok (irq_hw s);
}.
(** What the table does not change. *)
Definition rest_of (s : @irq_state W H) : Z * cpu_info * isr_state * list Z * bool :=
  (lapic_regs s, cpu s, isrs s, [madt (info s); fadt (info s); mcfg (info s); rsdp (info s); rsdt (info s)],
   using_x2apic (info s)).

Definition room (n : nat) : Prop := 24 * (Z.of_nat n + 2) <= malloc_limit.

Lemma add_override_ok i s isos lapics ios l : tables_in s isos lapics ios l -> room (length isos) ->
  exists s', add_override malloc_size free i s = Ok s' /\ tables_in s' (isos ++ [i]) lapics ios l /\
    rest_of s' = rest_of s /\ nmi_lint (info s') = nmi_lint (info s).
Proof.
  intros [Hi Hl Ho Hh Hw] Hr. unfold add_override.
  destruct (array_append_holds iso_bytes sizeof_apic_iso_info _ isos i (irq_heap s) _ ltac:(done) ltac:(done) Hi Hh)
    as (a & h & -> & Ha & Hh'); [unfold room, sizeof_apic_iso_info in *; lia|].
  rewrite outcome_bind_ok. cbn [c_assert]. rewrite outcome_bind_ok. eexists. split; [done|].
  split; [|done]. by constructor.
Qed.
Lemma lapic_add_ok i s isos lapics ios l : tables_in s isos lapics ios l -> room (length lapics) ->
  exists s', lapic_add malloc_size free i s = Ok s' /\ tables_in s' isos (lapics ++ [i]) ios l /\
    rest_of s' = rest_of s /\ nmi_lint (info s') = nmi_lint (info s).
Proof.
  intros [Hi Hl Ho Hh Hw] Hr. unfold lapic_add, array_item_count. rewrite (holds_size _ _ _ _ Hl).
  change (sizeof_lapic_info =? 0) with false. cbn iota. rewrite outcome_bind_ok.
  destruct (array_append_holds lapic_bytes sizeof_lapic_info (lapic_list s) lapics i (irq_heap s)
    (gb_owned (gbuffer (iso_list (info s))) ++ gb_owned (gbuffer (ioapic_list s)) ++ l)
    ltac:(done) ltac:(done) Hl) as (a & h & -> & Ha & Hh').
  { eapply heap_owns_perm; [|exact Hh]. by rewrite Permutation_app_swap_app. }
  { unfold room, sizeof_lapic_info in *; lia. }
  rewrite outcome_bind_ok. cbn [c_assert]. rewrite outcome_bind_ok. eexists. split; [done|].
  split; [|done]. constructor; [done..| |done]. eapply heap_owns_perm; [|exact Hh'].
  cbn. by rewrite Permutation_app_swap_app.
Qed.
Lemma owned_third (xs ys zs l : list Z) : xs ++ ys ++ zs ++ l ≡ₚ zs ++ xs ++ ys ++ l.
Proof. by rewrite (Permutation_app_swap_app zs xs), (Permutation_app_swap_app zs ys). Qed.
Lemma ioapic_add_ok i base gsib s isos lapics ios l : tables_in s isos lapics ios l -> room (length ios) ->
  in_u 32 base -> base `mod` 4096 = 0 -> (id_word base / 2 ^ 24) `mod` 16 = i ->
  exists s' x, ioapic_add mmio_read mmio_write malloc_size free vmap_mmio i base gsib s = Ok s' /\
    tables_in s' isos lapics (ios ++ [x]) l /\ io_of (i, base, gsib) x /\
    rest_of s' = rest_of s /\ nmi_lint (info s') = nmi_lint (info s).
Proof.
  intros [Hi Hl Ho Hh Hw] Hr Hb Ha Hid. unfold ioapic_add. rewrite has_align_page by (unfold_ints; lia).
  change (base `mod` PAGE_SIZE) with (base `mod` 4096). rewrite outcome_bind_ok, Ha. cbn [negb Z.eqb].
  destruct (vmap_ok base _ _ Hh Hb Ha) as (m & h1 & -> & Hh1 & Hm & Hreg). rewrite outcome_bind_ok.
  pose proof (mapped_bounds _ _ Hm) as Hp. unfold on_machine, ioapic_read, ioapic_selector, ioapic_data. cbn [regs arbid irq_hw set_irq_heap set_hw].
  rewrite (wrap_small 64) by (unfold_ints; lia). change IOAPIC_REG_ID with 0. change IOAPIC_REG_VERSION with 1.
  destruct (id_ok _ _ _ Hw Hm) as (w1 & w2 & -> & E1 & Hw2). rewrite outcome_bind_ok, E1, !outcome_bind_ok.
  unfold ioapic_id_reg_get_arbid. change 15 with (Z.ones 4) at 1. rewrite Z.land_ones, Z.shiftr_div_pow2 by lia. change (2 ^ 4) with 16.
  rewrite Hid, Z.eqb_refl. cbn [c_assert irq_hw set_hw]. rewrite outcome_bind_ok.
  destruct (version_ok _ _ _ Hw2 Hm) as (w3 & w4 & -> & E3 & Hw4). rewrite outcome_bind_ok, E3, !outcome_bind_ok.
  cbn [irq_heap ioapic_list set_hw set_irq_heap].
  set (x := {| arbid := i; version := _; max_redirect_count := _; gsi_base := gsib; regs_mmio := _; regs := _ |}).
  destruct (array_append_holds ioapic_bytes sizeof_ioapic_info (ioapic_list s) ios x h1
    (gb_owned (gbuffer (iso_list (info s))) ++ gb_owned (gbuffer (lapic_list s)) ++ l)
    ltac:(done) ltac:(done) Ho) as (a & h & -> & Hax & Hh').
  { eapply heap_owns_perm; [|exact Hh1]. apply owned_third. }
  { unfold room, sizeof_ioapic_info in *; lia. }
  rewrite outcome_bind_ok. cbn [c_assert]. rewrite outcome_bind_ok. eexists _, x. split; [done|].
  split; [|split; [|done]].
  - constructor; [done..| |done]. eapply heap_owns_perm; [|exact Hh']. symmetry. apply owned_third.
  - unfold io_of, x. cbn. split_and!; try done; unfold ioapic_version_reg_get_max_redirect_count.
    by rewrite Z.shiftr_div_pow2 by lia.
Qed.

(** One record. *)
Lemma meaning_ok r a isos lapics ios l : record_ok r -> io_agrees r -> tables_in (irq a) isos lapics ios l ->
  room (length isos) -> room (length lapics) -> room (length ios) ->
  exists a' xs, meaning r a = Ok a' /\
    tables_in (irq a') (isos ++ overrides [r]) (lapics ++ locals [r]) (ios ++ xs) l /\
    Forall2 io_of (io_records [r]) xs /\ rest_of (irq a') = rest_of (irq a) /\ local_apic_base a' = local_apic_base a /\
    (found_nmi_lint a', nmi_lint (info (irq a'))) = first_lint [r] (found_nmi_lint a) (nmi_lint (info (irq a))).
Proof.
  intros Hr Hio Ht Ri Rl Ro. destruct r as [p i f|i base gsib|b i g f|p f lint|k body]; cbn [AcpiThms.meaning].
  - destruct (lapic_add_ok {| apic_id := i; processor_id := p; enabled := Z.testbit f 0; online_capable := Z.testbit f 1 |}
      (irq a) isos lapics ios l Ht Rl) as (s & -> & Hs & Hrest & Hn).
    eexists _, []. rewrite outcome_bind_ok. split; [done|]. cbn. rewrite !app_nil_r, Hn. by split_and!.
  - destruct Hr as (Hi & Hb & Hg). cbn in Hio. destruct (decide (base `mod` 4096 = 0)) as [Ha|Ha].
    + destruct (ioapic_add_ok i base gsib (irq a) isos lapics ios l Ht Ro Hb Ha (Hio Ha))
        as (s & x & -> & Hs & Hx & Hrest & Hn).
      eexists _, [x]. rewrite outcome_bind_ok. split; [done|]. cbn. rewrite Ha, !app_nil_r, Hn. split_and!; try done. by constructor.
    + exists a, []. unfold ioapic_add. rewrite has_align_page by (unfold_ints; lia). change PAGE_SIZE with 4096.
      rewrite outcome_bind_ok. apply Z.eqb_neq in Ha. cbn. rewrite Ha. cbn. rewrite !app_nil_r. by destruct a.
  - destruct (add_override_ok {| bus_src := b; irq_src := i; Irq.gsi := u8 g; iso_flags := f |}
      (irq a) isos lapics ios l Ht Ri) as (s & -> & Hs & Hrest & Hn).
    eexists _, []. rewrite outcome_bind_ok. split; [done|]. cbn. rewrite !app_nil_r, Hn. by split_and!.
  - cbn. destruct (found_nmi_lint a) eqn:Hf; eexists _, []; (split; [done|]); cbn; rewrite ?Hf, !app_nil_r; split_and!; try done.
    destruct Ht. by constructor.
  - exists a, []. cbn. rewrite !app_nil_r. by split_and!.
Qed.

Lemma first_lint_cons r rs found lint :
  first_lint (r :: rs) found lint = first_lint rs (first_lint [r] found lint).1 (first_lint [r] found lint).2.
Proof. by destruct r, found. Qed.
Lemma meanings_ok rs a isos lapics ios l : Forall record_ok rs -> Forall io_agrees rs -> tables_in (irq a) isos lapics ios l ->
  room (length isos + length rs) -> room (length lapics + length rs) -> room (length ios + length rs) ->
  exists a' xs, meanings rs a = Ok a' /\
    tables_in (irq a') (isos ++ overrides rs) (lapics ++ locals rs) (ios ++ xs) l /\
    Forall2 io_of (io_records rs) xs /\ rest_of (irq a') = rest_of (irq a) /\ local_apic_base a' = local_apic_base a /\
    (found_nmi_lint a', nmi_lint (info (irq a'))) = first_lint rs (found_nmi_lint a) (nmi_lint (info (irq a))).
Proof.
  intros Hrs Hio. revert a isos lapics ios Hio. induction Hrs as [|r rs Hr Hrs IH]; intros a isos lapics ios Hio Ht Ri Rl Ro.
  - exists a, []. cbn. rewrite !app_nil_r. by split_and!.
  - apply Forall_cons in Hio as [Hior Hio]. cbn [length] in *.
    destruct (meaning_ok r a isos lapics ios l Hr Hior Ht) as (a1 & x1 & E1 & T1 & F1 & R1 & B1 & N1);
      [unfold room in *; lia..|].
    assert (forall (A : Type) (n : nat) (xs ys : list A), (length ys <= 1)%nat -> room (length xs + S n) -> room (length (xs ++ ys) + n))
      as Hroom by (intros A n ? ? ?; unfold room; rewrite length_app; lia).
    destruct (IH a1 (isos ++ overrides [r]) (lapics ++ locals [r]) (ios ++ x1) Hio T1) as (a2 & x2 & E2 & T2 & F2 & R2 & B2 & N2).
    1-2: apply Hroom; [by destruct r; cbn; lia|done].
    { apply Hroom; [|done]. rewrite <- (Forall2_length _ _ _ F1). destruct r; cbn; try lia. case_match; cbn; lia. }
    exists a2, (x1 ++ x2). cbn [AcpiThms.meanings]. rewrite E1, outcome_bind_ok. split; [done|].
    rewrite <- !app_assoc in T2. rewrite first_lint_cons, <- N1. cbn [fst snd].
    unfold overrides, locals, io_records in *. change (r :: rs) with ([r] ++ rs). rewrite !omap_app.
    split_and!; try done; try congruence. by apply Forall2_app.
Qed.

End tables.

(** ** An example *)
Fixpoint place (a : Z) (bs : list Z) : bytes :=
  match bs with [] => ∅ | b :: bs => <[a := b]> (place (a + 1) bs) end.
Lemma load_bytes_present m a bs : load_bytes (length bs) a m = Ok bs -> present m a bs.
Proof.
  revert a. induction bs as [|b bs IH]; intros a E; [by intros i c Hi|]. cbn in E. bind_inv E c Hc. bind_inv E cs Hcs.
  injection E as -> ->. apply present_cons. split; [|by apply IH]. unfold load8 in Hc. destruct (m !! a); cbn in Hc; congruence.
Qed.

(** One I/O APIC, whose registers are read by their number. *)
Definition ex_read (n p : Z) (reg : Z) : outcome (Z * Z) := Ok (if reg =? 0 then 0 else 0x170020, reg).
Definition ex_write (n p v : Z) (reg : Z) : outcome Z := Ok v.
Definition ex_vmap (r : range) (prot flags : Z) (h : unit) : outcome (option mmio_ptr * unit) :=
  Ok (Some {| region := 1; region_base := front r + 2 ^ 40 |}, h).
#[export] Program Instance ex_io_host : IoApicHost ex_read ex_write ex_vmap (heap := unit_heap) := {
  io_ok _ := True;
  id_word _ := 0;
  version_word _ := 0x170020;
  mapped_at p base := p = base + 2 ^ 40 /\ 0 <= base < 2 ^ 32;
}.
Next Obligation. intros p base [-> ?]. cbn in *. lia. Qed.
Next Obligation. intros base [] l _ Hb _. eexists _, tt. split_and!; done || lia. Qed.
Next Obligation. intros w p base _ _. by eexists _, _. Qed.
Next Obligation. intros w p base _ _. by eexists _, _. Qed.

Definition ex_records : list madt_record :=
  [LocalApic 0 0 1; LocalApic 1 2 1; IoApic 0 0xfec00000 0; Override 0 0 2 0; Unused_entry 5 (replicate 10 0);
   Override 0 9 9 13; NmiLine 255 5 1; NmiLine 255 5 0].
Definition ex_table : list Z :=
  replicate 4 0 ++ le_bytes 4 (44 + Z.of_nat (length (encoded ex_records))) ++ replicate 28 0 ++
  le_bytes 4 0xfee00000 ++ replicate 4 0 ++ encoded ex_records.
Definition ex_tables_state : @irq_state Z unit :=
  {| irq_hw := 0; irq_heap := tt; info := acpi_info_init; lapic_list := array_init 3; ioapic_list := array_init 24;
     lapic_regs := 0; cpu := {| lapic_id := 0; lapic_timer_frequency := 0; timer_ticks := 0; spur_int_count := 0 |};
     isrs := isr_state_init |}.

Definition ex_in (n p w : Z) : outcome (Z * Z) := Ok (0, w).
Definition ex_out (n p v w : Z) : outcome Z := Ok w.
Definition ex_rdmsr (r w : Z) : outcome (Z * Z) := Ok (0x900, w).
Definition ex_wrmsr (r v w : Z) : outcome Z := Ok w.


(** An entry of length 0 is read for ever. *)
Example empty_entry_loops fuel a :
  madt_loop (place 0 [9; 0]) ex_read ex_write unit_malloc unit_free ex_vmap fuel 0 2 0 a = OutOfFuel.
Proof. induction fuel as [|fuel IH]; [done|]. exact IH. Qed.
