(* ===== verification/Rtc.v ===== *)
(** * The real-time clock: arch/x86_64/dev/cmos.c and dev/time/rtc.c

    The ports are parameters, as in Pci.v; the century register is named by the
    FADT of Acpi.v.  Two readings are compared field by field, the padding of
    the structure being equal.  Printing and the masking of interrupts are left
    out. *)
From S2P Require Import Prelude CArith Time Mem Buffer Pci Irq Acpi.

(** ** cmos.h, port.h and rtc.c *)
Definition PORT_CMOS_REGISTER_SELECT : Z := 0x70.
Definition PORT_CMOS_REGISTER_READ : Z := 0x71.
Definition CMOS_REGISTER_RTC_SECOND : Z := 0.
Definition CMOS_REGISTER_RTC_MINUTE : Z := 0x02.
Definition CMOS_REGISTER_RTC_HOUR : Z := 0x04.
Definition CMOS_REGISTER_RTC_DAY : Z := 0x07.
Definition CMOS_REGISTER_RTC_MONTH : Z := 0x08.
Definition CMOS_REGISTER_RTC_YEAR : Z := 0x09.
Definition CMOS_REGISTER_RTC_STATUS_A : Z := 0xA.
Definition CMOS_REGISTER_RTC_STATUS_B : Z := 0xB.
Definition __CMOS_RTC_REGSTATUS_A_UPDATE_IN_PROG : Z := Z.shiftl 1 7.
Definition __CMOS_RTC_REGSTATUS_B_DAYLIGHT_SAVING : Z := Z.shiftl 1 0.
Definition __CMOS_RTC_REGSTATUS_B_24HR_MODE : Z := Z.shiftl 1 1.
Definition __CMOS_RTC_REGSTATUS_B_DATE_BINFMT : Z := Z.shiftl 1 2.
Definition MAX_ATTEMPTS : nat := 10.
Definition UINT16_MAX : Z := 65535.

(** ** rtc.h *)
Record rtc_time_info := { second : Z; minute : Z; hour : Z; day : Z; month : Z; weekday : Z; year : Z }.
Record rtc_cmos_info := { rtc_time : rtc_time_info; reg_status_a : Z; reg_status_b : Z }.
#[export] Instance rtc_time_info_eq_dec : EqDecision rtc_time_info.
Proof. solve_decision. Defined.
#[export] Instance rtc_cmos_info_eq_dec : EqDecision rtc_cmos_info.
Proof. solve_decision. Defined.

Definition rtc_is_daylight_savings_enabled (reg_status_b : Z) : bool :=
  negb (Z.land reg_status_b __CMOS_RTC_REGSTATUS_B_DAYLIGHT_SAVING =? 0).
Definition rtc_is_in_24_hour_mode (reg_status_b : Z) : bool :=
  negb (Z.land reg_status_b __CMOS_RTC_REGSTATUS_B_24HR_MODE =? 0).
Definition rtc_is_date_in_binary_format (reg_status_b : Z) : bool :=
  negb (Z.land reg_status_b __CMOS_RTC_REGSTATUS_B_DATE_BINFMT =? 0).
(** The argument is a [uint8_t]. *)
Definition convert_bcd_to_binary (bcd : Z) : Z :=
  u8 (Z.land (u8 bcd) 0xF + Z.shiftr (u8 bcd) 4 * 10).

Section rtc.
Context {W : Type}.
Context (port_in : Z -> Z -> W -> outcome (Z * W)) (port_out : Z -> Z -> Z -> W -> outcome W).

(** ** cmos.c *)
Definition select_cmos_register (reg : Z) (w : W) : outcome W :=
  port_out 1 PORT_CMOS_REGISTER_SELECT (u8 (Z.land reg (u32 (Z.lnot 0x80)))) w.
Definition cmos_read (reg : Z) (w : W) : outcome (Z * W) :=
  w ← select_cmos_register reg w; port_in 1 PORT_CMOS_REGISTER_READ w.
Definition cmos_write (reg data : Z) (w : W) : outcome W :=
  w ← select_cmos_register (u8 reg) w; port_out 1 (u8 reg) data w.

(** ** rtc.c *)
Fixpoint wait_attempts (n : nat) (w : W) : outcome (bool * W) :=
  match n with
  | O => Ok (false, w)
  | S n =>
      '(reg_a, w) ← cmos_read CMOS_REGISTER_RTC_STATUS_A w;
      if Z.land reg_a __CMOS_RTC_REGSTATUS_A_UPDATE_IN_PROG =? 0 then Ok (true, w) else wait_attempts n w
  end.
Definition rtc_wait_until_available : W -> outcome (bool * W) := wait_attempts MAX_ATTEMPTS.
Definition read_reg_status_b (w : W) : outcome (option Z * W) :=
  '(ok, w) ← rtc_wait_until_available w;
  if negb ok then Ok (None, w)
  else '(reg_b, w) ← cmos_read CMOS_REGISTER_RTC_STATUS_B w; Ok (Some reg_b, w).
Definition rtc_init (w : W) : outcome W :=
  '(reg_b, w) ← read_reg_status_b w;
  match reg_b with
  | None => Ok w
  | Some reg_b => cmos_write CMOS_REGISTER_RTC_STATUS_B (Z.lor reg_b __CMOS_RTC_REGSTATUS_B_DATE_BINFMT) w
  end.
(** [weekday] is what it was. *)
Definition read_rtc_cmos_info (weekday_ : Z) (w : W) : outcome (rtc_cmos_info * W) :=
  '(_, w) ← rtc_wait_until_available w;
  '(s, w) ← cmos_read CMOS_REGISTER_RTC_SECOND w;
  '(mi, w) ← cmos_read CMOS_REGISTER_RTC_MINUTE w;
  '(h, w) ← cmos_read CMOS_REGISTER_RTC_HOUR w;
  '(d, w) ← cmos_read CMOS_REGISTER_RTC_DAY w;
  '(mo, w) ← cmos_read CMOS_REGISTER_RTC_MONTH w;
  '(y, w) ← cmos_read CMOS_REGISTER_RTC_YEAR w;
  '(a, w) ← cmos_read CMOS_REGISTER_RTC_STATUS_A w;
  '(b, w) ← read_reg_status_b w;
  Ok ({| rtc_time := {| second := s; minute := mi; hour := h; day := d; month := mo; weekday := weekday_; year := y |};
         reg_status_a := a; reg_status_b := default UINT16_MAX b |}, w).
Fixpoint matching_readings (n : nat) (w : W) : outcome (option rtc_cmos_info * W) :=
  match n with
  | O => Ok (None, w)
  | S n =>
      '(info, w) ← read_rtc_cmos_info WEEKDAY_INVALID w;
      '(check, w) ← read_rtc_cmos_info WEEKDAY_INVALID w;
      if negb (reg_status_b info =? UINT16_MAX) && bool_decide (info = check) then Ok (Some info, w)
      else matching_readings n w
  end.

(** The century register, by its address; the tables are in [m]. *)
Context (m : bytes).
Definition century_register (i : acpi_info) : outcome Z := if fadt i =? 0 then Undef else load m 1 (fadt i) FADT_CENTURY.

Definition from_bcd (t : rtc_time_info) : rtc_time_info :=
  let hour := Z.land (hour t) 0x7F in
  {| second := convert_bcd_to_binary (second t); minute := convert_bcd_to_binary (minute t);
     Rtc.hour := convert_bcd_to_binary hour; day := convert_bcd_to_binary (day t);
     month := convert_bcd_to_binary (month t); weekday := weekday t; year := convert_bcd_to_binary (year t) |}.
Definition to_24_hour (t : rtc_time_info) : rtc_time_info :=
  let is_pm := negb (Z.land (hour t) 0x80 =? 0) in
  {| second := second t; minute := minute t; hour := u8 (hour_12_to_24hour (hour t) is_pm); day := day t;
     month := month t; weekday := weekday t; year := year t |}.
Definition rtc_read_cmos_info (i : acpi_info) (w : W) : outcome (option rtc_cmos_info * W) :=
  '(info, w) ← matching_readings MAX_ATTEMPTS w;
  match info with
  | None => Ok (None, w)
  | Some info =>
      reg ← century_register i;
      '(century, w) ← cmos_read reg w;
      let '(t, century) :=
        if negb (rtc_is_date_in_binary_format (reg_status_b info))
        then (from_bcd (rtc_time info), convert_bcd_to_binary century) else (rtc_time info, century) in
      let t := if negb (rtc_is_in_24_hour_mode (reg_status_b info)) then to_24_hour t else t in
      let year_ := u64 (year t + century * 100) in
      wd ← day_of_month_to_weekday year_ (month t) (day t);
      Ok (Some {| rtc_time := {| second := second t; minute := minute t; hour := hour t; day := day t; month := month t;
                                 weekday := wd; year := year_ |};
                  reg_status_a := reg_status_a info; reg_status_b := reg_status_b info |}, w)
  end.
End rtc.

(** [tm_yday] is not given. *)
Definition tm_from_rtc_cmos_info (info : rtc_cmos_info) : outcome tm :=
  let t := rtc_time info in
  wday ← day_of_month_to_weekday (year t) (month t) (day t);
  mon ← month_to_tm_mon (month t);
  tm_year_ ← year_to_tm_year (year t);
  Ok {| tm_sec := second t; tm_min := minute t; tm_hour := hour t; tm_mday := day t; tm_mon := mon;
        tm_year := tm_year_; tm_wday := wday; tm_yday := 0;
        tm_isdst := Z.b2z (rtc_is_daylight_savings_enabled (reg_status_b info)) |}.
