(* ===== verification/RtcThms.v ===== *)
(** * Reading the real-time clock

    [CmosHost] is a clock that is not being updated: selecting a register and
    reading gives its byte. *)
From S2P Require Import Prelude CArith Time TimeThms Mem Buffer BufferInv PgTables Pci Irq Acpi Rtc.

Class CmosHost {W : Type} (port_in : Z -> Z -> W -> outcome (Z * W)) (port_out : Z -> Z -> Z -> W -> outcome W)
    (reg : Z -> Z) := {
  cmos_ok : W -> Prop;
  reg_byte r : in_u 8 (reg r);
  cmos_access w r : cmos_ok w -> 0 <= r < 128 -> exists w1 w2,
    port_out 1 0x70 r w = Ok w1 /\ port_in 1 0x71 w1 = Ok (reg r, w2) /\ cmos_ok w2;
}.

(** How the clock writes a number below 100. *)
Definition digits_of (binary : bool) (v : Z) : Z := if binary then v else v / 10 * 16 + v `mod` 10.
Lemma bcd_inverse v : 0 <= v < 100 -> convert_bcd_to_binary (digits_of false v) = v.
Proof.
  intros Hv. assert (forallb (fun v => convert_bcd_to_binary (digits_of false v) =? v) (seqZ 0 100) = true) as H by (by vm_compute).
  rewrite forallb_forall in H. apply Z.eqb_eq, H, list_elem_of_In, elem_of_seqZ. lia.
Qed.
Lemma bcd_hour v : 0 <= v < 24 -> Z.land (digits_of false v) 0x7F = digits_of false v.
Proof.
  intros Hv. assert (forallb (fun v => Z.land (digits_of false v) 0x7F =? digits_of false v) (seqZ 0 24) = true) as H by (by vm_compute).
  rewrite forallb_forall in H. apply Z.eqb_eq, H, list_elem_of_In, elem_of_seqZ. lia.
Qed.

(** A moment of the years 1970 to 9999. *)
Record moment := { at_second : Z; at_minute : Z; at_hour : Z; at_day : Z; at_month : Z; at_year : Z }.
Definition moment_ok (t : moment) : Prop :=
  0 <= at_second t < 60 /\ 0 <= at_minute t < 60 /\ 0 <= at_hour t < 24 /\ 1 <= at_day t <= 31 /\ 1 <= at_month t <= 12 /\
  1970 <= at_year t < 10000.
(** The registers show the moment in 24-hour mode, the century in register [c]. *)
Record shows (reg : Z -> Z) (c : Z) (t : moment) : Prop := {
  shows_idle : Z.testbit (reg 0xA) 7 = false;
  shows_24 : Z.testbit (reg 0xB) 1 = true;
  shows_fields : let d := digits_of (Z.testbit (reg 0xB) 2) in
    reg 0 = d (at_second t) /\ reg 2 = d (at_minute t) /\ reg 4 = d (at_hour t) /\ reg 7 = d (at_day t) /\
    reg 8 = d (at_month t) /\ reg 9 = d (at_year t `mod` 100) /\ reg c = d (at_year t / 100);
}.

(** The weekday in the Gregorian calendar, Sunday being 0. *)
Definition month_lengths (leap : bool) : list Z := [31; if leap then 29 else 28; 31; 30; 31; 30; 31; 31; 30; 31; 30; 31].
Definition sum_of (l : list Z) : Z := fold_right Z.add 0 l.
Definition weekday_at (t : moment) : Z :=
  (days_before_year (at_year t) + sum_of (take (Z.to_nat (at_month t - 1)) (month_lengths (year_is_leap_year (at_year t)))) +
   at_day t + 3) `mod` 7.
(** What the key of the month has to do with the days before it. *)
Definition key_ok (leap : bool) (mo : Z) : bool :=
  match nth_entry month_keys (mo - 1) with
  | Ok key =>
      (key - sum_of (take (Z.to_nat (mo - 1)) (month_lengths leap)) +
       (if mo <? MONTH_MARCH then 0 else if leap then 2 else 1)) `mod` 7 =? 0
  | _ => false
  end.
Lemma keys_ok leap : forallb (key_ok leap) (seqZ 1 12) = true.
Proof. by destruct leap; vm_compute. Qed.
Lemma weekday_of_moment t : moment_ok t ->
  day_of_month_to_weekday (at_year t) (at_month t) (at_day t) = Ok (weekday_at t).
Proof.
  intros (_ & _ & _ & Hd & Hm & Hy).
  pose proof (keys_ok (year_is_leap_year (at_year t))) as H. rewrite forallb_forall in H.
  specialize (H (at_month t) ltac:(apply list_elem_of_In, elem_of_seqZ; lia)). unfold key_ok in H.
  destruct (nth_entry month_keys (at_month t - 1)) as [key| | |] eqn:E; try done. apply Z.eqb_eq in H.
  set (sum := sum_of _) in *.
  pose proof (key_bounds _ _ E) as Hk.
  rewrite (weekday_formula (at_year t) (at_month t) key (at_day t) (sum + at_day t)); try done; try lia.
  - unfold weekday_at. fold sum. by rewrite Z.add_assoc.
  - etransitivity; [|exact H]. f_equal. lia.
Qed.
Lemma tm_of_moment t b a : moment_ok t ->
  tm_from_rtc_cmos_info
    {| rtc_time := {| second := at_second t; minute := at_minute t; hour := at_hour t; day := at_day t;
         month := at_month t; weekday := weekday_at t; year := at_year t |}; reg_status_a := a; reg_status_b := b |} = Ok
      {| tm_sec := at_second t; tm_min := at_minute t; tm_hour := at_hour t; tm_mday := at_day t;
         tm_mon := at_month t - 1; tm_year := at_year t - 1900; tm_wday := weekday_at t; tm_yday := 0;
         tm_isdst := Z.b2z (Z.testbit b 0) |}.
Proof.
  intros Ht. pose proof Ht as (_ & _ & _ & Hd & Hm & Hy). unfold tm_from_rtc_cmos_info.
  cbn [rtc_time reg_status_b year month day second minute hour].
  rewrite weekday_of_moment, outcome_bind_ok by done. unfold month_to_tm_mon, year_to_tm_year, MONTH_INVALID.
  rewrite (proj2 (Z.eqb_neq (at_month t) 0)) by lia. cbn [negb c_assert]. rewrite !outcome_bind_ok.
  rewrite (proj2 (Z.leb_le (at_year t) INT32_MAX)) by (change INT32_MAX with 2147483647; lia). cbn [c_assert]. rewrite !outcome_bind_ok.
  unfold rtc_is_daylight_savings_enabled, __CMOS_RTC_REGSTATUS_B_DAYLIGHT_SAVING. by rewrite has_bit by lia.
Qed.

Section clock.
Context {W : Type} {port_in : Z -> Z -> W -> outcome (Z * W)} {port_out : Z -> Z -> Z -> W -> outcome W} {reg : Z -> Z}.
Context {host : CmosHost port_in port_out reg}.
Abbreviation read_cmos := (cmos_read port_in port_out).

Lemma cmos_read_ok r w : cmos_ok w -> 0 <= r < 128 -> exists w', read_cmos r w = Ok (reg r, w') /\ cmos_ok w'.
Proof.
  intros Hw Hr. destruct (cmos_access w r Hw Hr) as (w1 & w2 & E1 & E2 & Hw2).
  exists w2. unfold Rtc.cmos_read, select_cmos_register. change PORT_CMOS_REGISTER_SELECT with 0x70. change PORT_CMOS_REGISTER_READ with 0x71.
  assert (u8 (Z.land r (u32 (Z.lnot 0x80))) = r) as ->; [|by rewrite E1, outcome_bind_ok, E2].
  assert (forallb (fun r => u8 (Z.land r (u32 (Z.lnot 0x80))) =? r) (seqZ 0 128) = true) as H by (by vm_compute).
  rewrite forallb_forall in H. apply Z.eqb_eq, H, list_elem_of_In, elem_of_seqZ. lia.
Qed.
(** Read one register after another. *)
Ltac read_next r :=
  let w := fresh "w" in let E := fresh in
  match goal with Hw : cmos_ok ?w0 |- context [Rtc.cmos_read _ _ _ ?w0] =>
    destruct (cmos_read_ok r w0 Hw ltac:(lia)) as (w & E & ?); rewrite E, outcome_bind_ok; clear E Hw
  end.

Context (idle : Z.testbit (reg 0xA) 7 = false).
Lemma wait_ok w : cmos_ok w -> exists w', rtc_wait_until_available port_in port_out w = Ok (true, w') /\ cmos_ok w'.
Proof.
  intros Hw. unfold rtc_wait_until_available, MAX_ATTEMPTS. cbn [wait_attempts].
  change CMOS_REGISTER_RTC_STATUS_A with 0xA. read_next 0xA.
  unfold __CMOS_RTC_REGSTATUS_A_UPDATE_IN_PROG. pose proof (has_bit (reg 0xA) 7 ltac:(lia)) as Hb. rewrite idle in Hb.
  apply negb_false_iff in Hb. rewrite Hb. eauto.
Qed.
Lemma read_status_b_ok w : cmos_ok w -> exists w', read_reg_status_b port_in port_out w = Ok (Some (reg 0xB), w') /\ cmos_ok w'.
Proof.
  intros Hw. unfold read_reg_status_b. destruct (wait_ok w Hw) as (w1 & -> & Hw1). rewrite outcome_bind_ok. cbn [negb].
  change CMOS_REGISTER_RTC_STATUS_B with 0xB. read_next 0xB. eauto.
Qed.
Definition reading : rtc_cmos_info :=
  {| rtc_time := {| second := reg 0; minute := reg 2; hour := reg 4; day := reg 7; month := reg 8;
                    weekday := WEEKDAY_INVALID; year := reg 9 |};
     reg_status_a := reg 0xA; reg_status_b := reg 0xB |}.
Lemma reading_ok w : cmos_ok w -> exists w', read_rtc_cmos_info port_in port_out WEEKDAY_INVALID w = Ok (reading, w') /\ cmos_ok w'.
Proof.
  intros Hw. unfold read_rtc_cmos_info. destruct (wait_ok w Hw) as (w1 & -> & Hw1). rewrite outcome_bind_ok.
  change CMOS_REGISTER_RTC_SECOND with 0. change CMOS_REGISTER_RTC_MINUTE with 2. change CMOS_REGISTER_RTC_HOUR with 4.
  change CMOS_REGISTER_RTC_DAY with 7. change CMOS_REGISTER_RTC_MONTH with 8. change CMOS_REGISTER_RTC_YEAR with 9.
  change CMOS_REGISTER_RTC_STATUS_A with 0xA.
  read_next 0. read_next 2. read_next 4. read_next 7. read_next 8. read_next 9. read_next 0xA.
  match goal with Hw : cmos_ok ?w0 |- _ => destruct (read_status_b_ok w0 Hw) as (w' & -> & Hw') end.
  rewrite outcome_bind_ok. by exists w'.
Qed.
Lemma matching_ok w : cmos_ok w -> exists w', matching_readings port_in port_out MAX_ATTEMPTS w = Ok (Some reading, w') /\ cmos_ok w'.
Proof.
  intros Hw. unfold MAX_ATTEMPTS. cbn [matching_readings]. destruct (reading_ok w Hw) as (w1 & -> & Hw1). rewrite outcome_bind_ok.
  destruct (reading_ok w1 Hw1) as (w2 & -> & Hw2). rewrite outcome_bind_ok.
  rewrite bool_decide_eq_true_2 by done. pose proof (reg_byte 0xB) as Hb. unfold_ints.
  rewrite (proj2 (Z.eqb_neq (reg_status_b reading) UINT16_MAX)) by (unfold UINT16_MAX; cbn; lia). by exists w2.
Qed.

End clock.

(** ** What the fields come to *)
Lemma mask_hour v : 0 <= v < 24 -> Z.land v 0x80 = 0.
Proof.
  intros Hv. assert (forallb (fun v => Z.land v 0x80 =? 0) (seqZ 0 24) = true) as H by (by vm_compute).
  rewrite forallb_forall in H. apply Z.eqb_eq, H, list_elem_of_In, elem_of_seqZ. lia.
Qed.

(** C38: a clock that is not being updated and keeps its hours from 0 to 23,
    whether in binary or in binary-coded decimal, is read as the moment that it
    shows, with the century that the FADT names the register of and the weekday of
    the Gregorian calendar; the day of the year is left 0. *)
Theorem rtc_read_spec {W : Type} (port_in : Z -> Z -> W -> outcome (Z * W)) (port_out : Z -> Z -> Z -> W -> outcome W)
    (reg : Z -> Z) (host : CmosHost port_in port_out reg) m i c t w :
  cmos_ok w -> moment_ok t -> fadt i <> 0 -> load m 1 (fadt i) FADT_CENTURY = Ok c -> 0 <= c < 128 -> shows reg c t ->
  exists info w', rtc_read_cmos_info port_in port_out m i w = Ok (Some info, w') /\ cmos_ok w' /\
    tm_from_rtc_cmos_info info = Ok
      {| tm_sec := at_second t; tm_min := at_minute t; tm_hour := at_hour t; tm_mday := at_day t;
         tm_mon := at_month t - 1; tm_year := at_year t - 1900; tm_wday := weekday_at t; tm_yday := 0;
         tm_isdst := Z.b2z (Z.testbit (reg 0xB) 0) |}.
Proof.
  intros Hw Ht Hf Hload Hc [Hidle H24 Hfields]. pose proof Ht as (Hs & Hmi & Hh & Hd & Hmo & Hy).
  unfold rtc_read_cmos_info. destruct (matching_ok (host := host) Hidle w Hw) as (w1 & -> & Hw1). rewrite outcome_bind_ok.
  unfold century_register. rewrite (proj2 (Z.eqb_neq _ 0) Hf), Hload, outcome_bind_ok.
  destruct (cmos_read_ok c w1 Hw1 Hc) as (w2 & -> & Hw2). rewrite outcome_bind_ok.
  unfold rtc_is_date_in_binary_format, rtc_is_in_24_hour_mode. cbn [reading reg_status_b rtc_time].
  unfold __CMOS_RTC_REGSTATUS_B_DATE_BINFMT, __CMOS_RTC_REGSTATUS_B_24HR_MODE. rewrite !has_bit, H24 by lia. cbn [negb].
  pose proof (Z.div_mod (at_year t) 100 ltac:(lia)). pose proof (Z.mod_pos_bound (at_year t) 100 ltac:(lia)).
  assert (0 <= at_year t / 100 < 100) by (split; [apply Z.div_pos; lia|apply Z.div_lt_upper_bound; lia]).
  set (result := {| rtc_time := {| second := at_second t; minute := at_minute t; hour := at_hour t; day := at_day t;
    month := at_month t; weekday := weekday_at t; year := at_year t |}; reg_status_a := reg 0xA; reg_status_b := reg 0xB |}).
  exists result, w2. split; [|split; [done|by apply tm_of_moment]].
  destruct Hfields as (F0 & F2 & F4 & F7 & F8 & F9 & Fc). rewrite F0, F2, F4, F7, F8, F9, Fc.
  assert (u64 (at_year t `mod` 100 + at_year t / 100 * 100) = at_year t) as Ey by (rewrite wrap_small; unfold_ints; lia).
  destruct (Z.testbit (reg 0xB) 2); cbn [negb from_bcd rtc_time second minute hour day month year weekday].
  - cbn [digits_of]. by rewrite Ey, weekday_of_moment by done.
  - rewrite bcd_hour by lia. rewrite !bcd_inverse by lia. by rewrite Ey, weekday_of_moment by done.
Qed.

(** A clock in memory: the selected register, and what was written to the ports. *)
Definition ex_in (r : Z -> Z) (n p : Z) (w : Z * list (Z * Z)) : outcome (Z * (Z * list (Z * Z))) := Ok (r w.1, w).
Definition ex_out (n p v : Z) (w : Z * list (Z * Z)) : outcome (Z * list (Z * Z)) :=
  Ok (if p =? 0x70 then v else w.1, w.2 ++ [(p, v)]).
(** 2024-02-29, a Thursday, 23:59:08 in binary-coded decimal; the century is in
    register 0x32. *)
Definition ex_reg (b h : Z) (r : Z) : Z :=
  default 0 ((<[0 := 0x08]> $ <[2 := 0x59]> $ <[4 := h]> $ <[7 := 0x29]> $ <[8 := 0x02]> $ <[9 := 0x24]> $
    <[0xA := 0x26]> $ <[0xB := b]> $ <[0x32 := 0x20]> (∅ : gmap Z Z)) !! r).
#[export] Program Instance ex_cmos : CmosHost (ex_in (ex_reg 2 0x23)) ex_out (ex_reg 2 0x23) := { cmos_ok _ := True }.
Next Obligation.
  intros r. unfold ex_reg. repeat (rewrite lookup_insert; destruct (decide _); [split; by vm_compute|]). split; by vm_compute.
Qed.
Next Obligation. intros w r _ Hr. by eexists _, _. Qed.
Definition ex_moment : moment :=
  {| at_second := 8; at_minute := 59; at_hour := 23; at_day := 29; at_month := 2; at_year := 2024 |}.
Definition ex_fadt_memory : bytes := {[ 108 + 4096 := 0x32 ]}.
Definition ex_fadt : acpi_info := with_sdts 0 4096 0 0 0 acpi_info_init.

Lemma rtc_read_spec_witness :
  exists info w', rtc_read_cmos_info (ex_in (ex_reg 2 0x23)) ex_out ex_fadt_memory ex_fadt (0, []) = Ok (Some info, w') /\ True /\
    tm_from_rtc_cmos_info info = Ok
      {| tm_sec := 8; tm_min := 59; tm_hour := 23; tm_mday := 29; tm_mon := 1; tm_year := 124; tm_wday := 4; tm_yday := 0;
         tm_isdst := 0 |}.
Proof.
  apply (rtc_read_spec (ex_in (ex_reg 2 0x23)) ex_out (ex_reg 2 0x23) ex_cmos ex_fadt_memory ex_fadt 0x32 ex_moment (0, [])).
  - exact I.
  - repeat split; by vm_compute.
  - by vm_compute.
  - by vm_compute.
  - split; by vm_compute.
  - constructor; [by vm_compute..|]. repeat split; by vm_compute.
Defined.

(** In 12-hour mode the bit of the afternoon is masked off before it is looked at:
    11 o'clock at night is read as 11 in the morning. *)
Example afternoon_lost :
  match rtc_read_cmos_info (ex_in (ex_reg 0 0x91)) ex_out ex_fadt_memory ex_fadt (0, []) with
  | Ok (Some info, _) => hour (rtc_time info) = 11
  | _ => False
  end.
Proof. by vm_compute. Qed.
(** [rtc_init] sends the new value of status register B to port 0x0B. *)
Example rtc_init_writes_elsewhere :
  match rtc_init (ex_in (ex_reg 2 0x23)) ex_out (0, []) with
  | Ok (_, log) => log = [(0x70, 0xA); (0x70, 0xB); (0x70, 0xB); (0xB, 6)]
  | _ => False
  end.
Proof. by vm_compute. Qed.
