(* ===== verification/Endian.v ===== *)
(** * Byte order: lib/endian.h

    The functions are those of a little-endian machine.  The swaps are on
    unsigned values of their width; [_Generic] picks by the type. *)
From S2P Require Import Prelude CArith Buffer Bitmap BitmapInv BitmapThms Pci.

Definition le16_to_be (le : Z) : Z := u16 (Z.lor (Z.shiftl le 8) (Z.shiftr le 8)).
Definition le32_to_be (le : Z) : Z :=
  Z.lor (Z.lor (Z.lor (Z.shiftl (Z.land le 0xFF) 24) (Z.shiftl (Z.land le 0xFF00) 8))
    (Z.shiftr (Z.land le 0xFF0000) 8)) (Z.shiftr (Z.land le 0xFF000000) 24).
Definition le64_to_be (le : Z) : Z :=
  Z.lor (Z.lor (Z.lor (Z.lor (Z.lor (Z.lor (Z.lor
    (Z.shiftl (Z.land le 0xFF) 56) (Z.shiftl (Z.land le 0xFF00) 40))
    (Z.shiftl (Z.land le 0xFF0000) 24)) (Z.shiftl (Z.land le 0xFF000000) 8))
    (Z.shiftr (Z.land le 0xFF00000000) 8)) (Z.shiftr (Z.land le 0xFF0000000000) 24))
    (Z.shiftr (Z.land le 0xFF000000000000) 40)) (Z.shiftr (Z.land le 0xFF00000000000000) 56).
Definition be16_to_le (be : Z) : Z := u16 (Z.lor (Z.shiftl be 8) (Z.shiftr be 8)).
Definition be32_to_le (be : Z) : Z :=
  Z.lor (Z.lor (Z.lor (Z.shiftl (Z.land be 0xFF) 24) (Z.shiftl (Z.land be 0xFF00) 8))
    (Z.shiftr (Z.land be 0xFF0000) 8)) (Z.shiftr (Z.land be 0xFF000000) 24).
Definition be64_to_le (be : Z) : Z :=
  Z.lor (Z.lor (Z.lor (Z.lor (Z.lor (Z.lor (Z.lor
    (Z.shiftl (Z.land be 0xFF) 56) (Z.shiftl (Z.land be 0xFF00) 40))
    (Z.shiftl (Z.land be 0xFF0000) 24)) (Z.shiftl (Z.land be 0xFF000000) 8))
    (Z.shiftr (Z.land be 0xFF00000000) 8)) (Z.shiftr (Z.land be 0xFF0000000000) 24))
    (Z.shiftr (Z.land be 0xFF000000000000) 40)) (Z.shiftr (Z.land be 0xFF00000000000000) 56).

Inductive width := W16 | W32 | W64.
Definition width_bytes (w : width) : nat := match w with W16 => 2 | W32 => 4 | W64 => 8 end.
Definition le_to_be (w : width) : Z -> Z := match w with W16 => le16_to_be | W32 => le32_to_be | W64 => le64_to_be end.
Definition be_to_le (w : width) : Z -> Z := match w with W16 => be16_to_le | W32 => be32_to_le | W64 => be64_to_le end.
Definition le_to_cpu (w : width) (le : Z) : Z := le.
Definition cpu_to_le (w : width) (num : Z) : Z := num.
Definition be_to_cpu (w : width) (be : Z) : Z := be_to_le w be.
(** The functions for each width swap, the macro names those that do not. *)
Definition cpu_w_to_be (w : width) (num : Z) : Z := be_to_le w num.
Definition cpu_to_be (w : width) (num : Z) : Z := cpu_to_le w num.

(** ** What a swap does *)
(** The bits of a concrete mask, at a concrete place. *)
Ltac mask_bits :=
  repeat match goal with
  | |- context [Z.testbit (Zpos ?m) ?i] =>
      let b := eval vm_compute in (Z.testbit (Zpos m) i) in change (Z.testbit (Zpos m) i) with b
  end;
  rewrite ?andb_false_r, ?andb_true_r, ?orb_false_r, ?orb_false_l.
Ltac swap_at :=
  rewrite ?Z.lor_spec; rewrite ?Z.shiftl_spec, ?Z.shiftr_spec by lia; rewrite ?Z.land_spec; mask_bits; try reflexivity.

Lemma swap16_bit v k : in_u 16 v -> 0 <= k < 16 -> Z.testbit (le16_to_be v) k = Z.testbit v (8 - k / 8 * 8 + k `mod` 8).
Proof.
  intros Hv Hk. unfold le16_to_be, wrap. rewrite Z.mod_pow2_bits_low, Z.lor_spec, Z.shiftl_spec, Z.shiftr_spec by lia.
  pose proof (Z.div_mod k 8 ltac:(lia)). pose proof (Z.mod_pos_bound k 8 ltac:(lia)).
  destruct (decide (k < 8)) as [Hlt|Hge].
  - rewrite Z.testbit_neg_r by lia. cbn. f_equal. assert (k / 8 = 0) by (apply Z.div_small; lia). lia.
  - assert (Z.testbit v (k + 8) = false) as ->.
    { rewrite <- (Z.mod_small v (2 ^ 16)) by done. apply Z.mod_pow2_bits_high. lia. }
    rewrite orb_false_r. f_equal. assert (k / 8 = 1); [|lia]. symmetry. apply (Z.div_unique k 8 1 (k - 8)); lia.
Qed.
Lemma swap32_bit v k : 0 <= k < 32 -> Z.testbit (le32_to_be v) k = Z.testbit v (24 - k / 8 * 8 + k `mod` 8).
Proof.
  intros Hk. assert (In k (seqZ 0 32)) as Hin by (apply list_elem_of_In, elem_of_seqZ; lia). clear Hk.
  unfold le32_to_be. vm_compute seqZ in Hin. repeat (destruct Hin as [<-|Hin]; [swap_at|]). destruct Hin.
Qed.
Lemma swap64_bit v k : 0 <= k < 64 -> Z.testbit (le64_to_be v) k = Z.testbit v (56 - k / 8 * 8 + k `mod` 8).
Proof.
  intros Hk. assert (In k (seqZ 0 64)) as Hin by (apply list_elem_of_In, elem_of_seqZ; lia). clear Hk.
  unfold le64_to_be. vm_compute seqZ in Hin. repeat (destruct Hin as [<-|Hin]; [swap_at|]). destruct Hin.
Qed.
Lemma swap_bit w v k : (w = W16 -> in_u 16 v) -> 0 <= k < 8 * Z.of_nat (width_bytes w) ->
  Z.testbit (le_to_be w v) k = Z.testbit v (8 * Z.of_nat (width_bytes w) - 8 - k / 8 * 8 + k `mod` 8).
Proof. destruct w; intros Hv Hk; [apply swap16_bit; auto|by apply swap32_bit|by apply swap64_bit]. Qed.

Lemma byte_eq a b : in_u 8 a -> in_u 8 b -> (forall k, 0 <= k < 8 -> Z.testbit a k = Z.testbit b k) -> a = b.
Proof.
  intros Ha Hb H. apply Z.bits_inj'. intros k Hk. destruct (decide (k < 8)) as [|Hge]; [apply H; lia|].
  rewrite <- (Z.mod_small a (2 ^ 8)), <- (Z.mod_small b (2 ^ 8)) by done. by rewrite !Z.mod_pow2_bits_high by lia.
Qed.
(** A swap reverses the bytes of the object. *)
Lemma swap_reverses_bytes w v : (w = W16 -> in_u 16 v) ->
  le_bytes (width_bytes w) (le_to_be w v) = reverse (le_bytes (width_bytes w) v).
Proof.
  intros Hv. set (n := width_bytes w). pose proof (le_bytes_ok n (le_to_be w v)) as H1. pose proof (le_bytes_ok n v) as H2.
  unfold bytes_ok in *. rewrite Forall_lookup in H1, H2.
  apply list_eq_same_length with n; [by rewrite length_reverse, le_bytes_length|by rewrite le_bytes_length|].
  intros i x y Hi Hx Hy. rewrite reverse_lookup in Hy by (rewrite le_bytes_length; lia). rewrite le_bytes_length in Hy.
  apply byte_eq; [by eapply H1|by eapply H2|]. intros k Hk.
  pose proof (bit_at _ (Z.of_nat i) x k ltac:(rewrite Nat2Z.id; exact Hx) Hk) as Ex.
  pose proof (bit_at _ (Z.of_nat (n - S i)) y k ltac:(rewrite Nat2Z.id; exact Hy) Hk) as Ey.
  rewrite le_bytes_bit in Ex, Ey by lia. rewrite <- Ex, <- Ey. pose proof (div8_add (Z.of_nat i) k Hk) as [Ed Em].
  rewrite swap_bit by (fold n; done || lia). rewrite Ed, Em. f_equal. fold n. lia.
Qed.
Lemma swap_twice w v : (w = W16 -> in_u 16 v) ->
  le_bytes (width_bytes w) (be_to_le w (le_to_be w v)) = le_bytes (width_bytes w) v.
Proof.
  intros Hv. change (be_to_le w) with (le_to_be w). rewrite swap_reverses_bytes.
  - by rewrite swap_reverses_bytes, reverse_involutive.
  - intros ->. apply wrap_in_u. lia.
Qed.

(** [cpu_to_be] leaves the bytes in the order of the machine. *)
Example cpu_to_be_keeps_order : cpu_to_be W32 0x11223344 = 0x11223344 /\ cpu_w_to_be W32 0x11223344 = 0x44332211.
Proof. by vm_compute. Qed.
