(* ===== verification/Ps2.v ===== *)
(** * The PS/2 controller and keyboard: arch/x86_64/dev/ps2/{driver,keyboard}.c

    The ports and the heap are those of Irq.v, whose interrupt vectors the
    keyboard takes.  A byte that could not be read is -1.  Printing is left out,
    but for the key that the interrupt handler reports. *)
From S2P Require Import Prelude CArith Convert Buffer Pci Irq.

(** ** driver.h, keyboard.h and port.h *)
Definition PORT_PS2_READ_STATUS : Z := 0x64.
Definition PORT_PS2_WRITE_CMD : Z := PORT_PS2_READ_STATUS.
Definition PORT_PS2_INPUT_BUFFER : Z := 0x60.
Definition RETRY_LIMIT : nat := 10.
Definition PS2_CMD_READ_INPUT_BUFFER_BYTE : Z := 0x20.
Definition PS2_CMD_WRITE_INPUT_BUFFER_BYTE : Z := 0x60.
Definition PS2_CMD_DISABLE_2ND_DEVICE : Z := 0xA7.
Definition PS2_CMD_ENABLE_2ND_DEVICE : Z := 0xA8.
Definition PS2_CMD_TEST_2ND_DEVICE : Z := 0xA9.
Definition PS2_CMD_TEST_1ST_DEVICE : Z := 0xAB.
Definition PS2_CMD_DISABLE_1ST_DEVICE : Z := 0xAD.
Definition PS2_CMD_ENABLE_1ST_DEVICE : Z := 0xAE.
Definition PS2_CMD_WRITE_NEXT_BYTE_TO_2ND_DEVICE_INPUT : Z := 0xD4.
Definition PS2_CMD_IDENTIFY : Z := 0xF2.
Definition PS2_CMD_ENABLE_SCANNING : Z := 0xF4.
Definition PS2_CMD_DISABLE_SCANNING : Z := 0xF5.
Definition PS2_DATA_RESET_DEVICE : Z := 0xFF.
Definition PS2_RESPONSE_ACKNOWLEDGE : Z := 0xFA.
Definition PS2_RESPONSE_FAIL : Z := 0xFC.
Definition PS2_RESPONSE_SUCCESS : Z := 0xAA.
Definition PS2_RESPONSE_RESEND : Z := 0xFE.
Definition E_PS2_TEST_PORT_OK : Z := 0.
Definition __PS2_CNTRLR_CONFIG_1ST_PORT_INTERRUPT : Z := Z.shiftl 1 0.
Definition __PS2_CNTRLR_CONFIG_2ND_PORT_INTERRUPT : Z := Z.shiftl 1 1.
Definition __PS2_CNTRLR_CONFIG_2ND_PORT_CLOCK : Z := Z.shiftl 1 5.
Definition __PS2_CNTRLR_CONFIG_1ST_PORT_TRANSLATION : Z := Z.shiftl 1 6.
Definition __PS2_STATUS_REG_OUTPUT_BUFFER_FULL : Z := Z.shiftl 1 0.
Definition __PS2_STATUS_REG_INPUT_BUFFER_FULL : Z := Z.shiftl 1 1.
Definition PS2_DEVICE_KIND_MF2_KBD_WITH_TRANSL_1 : Z := 0xAB41.
Definition PS2_DEVICE_KIND_MF2_KBD_WITH_TRANSL_2 : Z := 0xABC1.
Inductive ps2_port_id := PS2_FIRST_PORT | PS2_SECOND_PORT.
Definition PS2_KBD_CMD_SCAN_CODE_SET : Z := 0xF0.
Definition PS2_KBD_SCAN_CODE_SET_SUBCMD_GET : Z := 0.
Definition __PS2_KBD_KEY_RELEASE : Z := Z.shiftl 1 7.
Definition IRQ_KEYBOARD : Z := 1.

(** ** keymap.h *)
Definition PS2_SCANCODE_CTRL : Z := 0x1d.
Definition PS2_SCANCODE_CTRL_REL : Z := 0x9d.
Definition PS2_SCANCODE_SHIFT_RIGHT : Z := 0x36.
Definition PS2_SCANCODE_SHIFT_RIGHT_REL : Z := 0xb6.
Definition PS2_SCANCODE_SHIFT_LEFT : Z := 0x2a.
Definition PS2_SCANCODE_SHIFT_LEFT_REL : Z := 0xaa.
Definition PS2_SCANCODE_ALT_LEFT : Z := 0x38.
Definition PS2_SCANCODE_ALT_LEFT_REL : Z := 0xb8.
Definition PS2_SCANCODE_CAPSLOCK : Z := 0x3a.
Definition PS2_SCANCODE_NUMLOCK : Z := 0x45.
Definition PS2_SCANNODE_E0 : Z := 0xe0.
Definition PS2_SCANNODE_E0_RIGHT_CTRL : Z := 0x38.
Definition PS2_SCANNODE_E0_RIGHT_CTRL_REL : Z := 0xb8.
Definition PS2_SCANNODE_E0_LEFT_CMD : Z := 0x5b.
Definition PS2_SCANNODE_E0_LEFT_CMD_REL : Z := 0xdb.
Definition PS2_SCANNODE_E0_RIGHT_CMD : Z := 0x5c.
Definition PS2_SCANNODE_E0_RIGHT_CMD_REL : Z := 0xdc.

(** ** keyboard.c: the characters of the keys *)
Definition ps2_key_to_char : list Z :=
  [0; 27] ++ char_codes "1234567890-=" ++ [8; 9] ++ char_codes "qwertyuiop[]" ++ [10; 0] ++
  char_codes "asdfghjkl;'`" ++ [0] ++ char_codes "\zxcvbnm,./" ++ [0; 0; 0] ++ char_codes " ".
(** With the double quote, 34. *)
Definition ps2_key_to_char_shift : list Z :=
  [0; 27] ++ char_codes "!@#$%^&*()_+" ++ [8; 9] ++ char_codes "QWERTYUIOP{}" ++ [10; 0] ++
  char_codes "ASDFGHJKL:" ++ [34] ++ char_codes "~" ++ [0] ++ char_codes "|ZXCVBNM<>?" ++ [0; 0; 0] ++ char_codes " ".
Definition ps2_key_to_char_capslock : list Z :=
  [0; 27] ++ char_codes "1234567890-=" ++ [8; 9] ++ char_codes "QWERTYUIOP{}" ++ [10; 0] ++
  char_codes "ASDFGHJKL:" ++ [34] ++ char_codes "~" ++ [0] ++ char_codes "|ZXCVBNM<>?" ++ [0; 0; 0] ++ char_codes " ".

(** The three counts have two bits. *)
Record ps2_keyboard_state := { shift : Z; cmd : Z; ctrl : Z; alt : bool; caps_lock : bool; in_e0 : bool }.
Definition g_kbd_state_init : ps2_keyboard_state :=
  {| shift := 0; cmd := 0; ctrl := 0; alt := false; caps_lock := false; in_e0 := false |}.
Definition with_shift (n : Z) (k : ps2_keyboard_state) : ps2_keyboard_state :=
  {| shift := wrap 2 n; cmd := cmd k; ctrl := ctrl k; alt := alt k; caps_lock := caps_lock k; in_e0 := in_e0 k |}.
Definition with_cmd (n : Z) (k : ps2_keyboard_state) : ps2_keyboard_state :=
  {| shift := shift k; cmd := wrap 2 n; ctrl := ctrl k; alt := alt k; caps_lock := caps_lock k; in_e0 := in_e0 k |}.
Definition with_ctrl (n : Z) (k : ps2_keyboard_state) : ps2_keyboard_state :=
  {| shift := shift k; cmd := cmd k; ctrl := wrap 2 n; alt := alt k; caps_lock := caps_lock k; in_e0 := in_e0 k |}.
Definition with_alt (b : bool) (k : ps2_keyboard_state) : ps2_keyboard_state :=
  {| shift := shift k; cmd := cmd k; ctrl := ctrl k; alt := b; caps_lock := caps_lock k; in_e0 := in_e0 k |}.
Definition with_capslock (b : bool) (k : ps2_keyboard_state) : ps2_keyboard_state :=
  {| shift := shift k; cmd := cmd k; ctrl := ctrl k; alt := alt k; caps_lock := b; in_e0 := in_e0 k |}.
Definition with_e0 (b : bool) (k : ps2_keyboard_state) : ps2_keyboard_state :=
  {| shift := shift k; cmd := cmd k; ctrl := ctrl k; alt := alt k; caps_lock := caps_lock k; in_e0 := b |}.

Definition get_char_from_ps2_kb (k : ps2_keyboard_state) (scan_code : Z) : outcome Z :=
  if negb (shift k =? 0) then deref (ps2_key_to_char_shift !! Z.to_nat scan_code)
  else if caps_lock k then deref (ps2_key_to_char_capslock !! Z.to_nat scan_code)
  else deref (ps2_key_to_char !! Z.to_nat scan_code).

(** A key that was reported: the modifiers as text, the character, caps lock. *)
Record report := { modifiers : string_view; character : Z; with_caps_lock : bool }.

(** What a scan code does: change the state, or report a key in it. *)
Definition scan_e0 (scan_code : Z) (k : ps2_keyboard_state) : ps2_keyboard_state :=
  let k := with_e0 false k in
  if (scan_code =? PS2_SCANNODE_E0_LEFT_CMD) || (scan_code =? PS2_SCANNODE_E0_RIGHT_CMD) then with_cmd (cmd k + 1) k
  else if (scan_code =? PS2_SCANNODE_E0_LEFT_CMD_REL) || (scan_code =? PS2_SCANNODE_E0_RIGHT_CMD_REL) then
    with_cmd (cmd k - 1) k
  else if scan_code =? PS2_SCANNODE_E0_RIGHT_CTRL then with_ctrl (ctrl k + 1) k
  else if scan_code =? PS2_SCANNODE_E0_RIGHT_CTRL_REL then with_ctrl (ctrl k - 1) k
  else k.
(** [None]: the key is not one of the switch. *)
Definition scan_special (scan_code : Z) (k : ps2_keyboard_state) : option ps2_keyboard_state :=
  if scan_code =? PS2_SCANNODE_E0 then Some (with_e0 true k)
  else if scan_code =? PS2_SCANCODE_CTRL then Some (with_ctrl (ctrl k + 1) k)
  else if scan_code =? PS2_SCANCODE_CTRL_REL then Some (with_ctrl (ctrl k - 1) k)
  else if (scan_code =? PS2_SCANCODE_SHIFT_LEFT) || (scan_code =? PS2_SCANCODE_SHIFT_RIGHT) then
    Some (with_shift (shift k + 1) k)
  else if (scan_code =? PS2_SCANCODE_SHIFT_LEFT_REL) || (scan_code =? PS2_SCANCODE_SHIFT_RIGHT_REL) then
    Some (with_shift (shift k - 1) k)
  else if scan_code =? PS2_SCANCODE_ALT_LEFT then Some (with_alt true k)
  else if scan_code =? PS2_SCANCODE_ALT_LEFT_REL then Some (with_alt false k)
  else if scan_code =? PS2_SCANCODE_CAPSLOCK then Some (with_capslock (negb (caps_lock k)) k)
  else if scan_code =? PS2_SCANCODE_NUMLOCK then Some k
  else None.

Section ports.
Context {W : Type}.
Context (port_in : Z -> Z -> W -> outcome (Z * W)) (port_out : Z -> Z -> Z -> W -> outcome W).

(** ** driver.c: bytes *)
Fixpoint read_attempts (n : nat) (w : W) : outcome (Z * W) :=
  match n with
  | O => Ok (-1, w)
  | S n =>
      '(byte, w) ← port_in 1 PORT_PS2_READ_STATUS w;
      if Z.land byte __PS2_STATUS_REG_OUTPUT_BUFFER_FULL =? 0 then read_attempts n w
      else port_in 1 PORT_PS2_INPUT_BUFFER w
  end.
Definition ps2_read_input_byte : W -> outcome (Z * W) := read_attempts RETRY_LIMIT.
Fixpoint write_attempts (n : nat) (port value : Z) (w : W) : outcome (bool * W) :=
  match n with
  | O => Ok (false, w)
  | S n =>
      '(byte, w) ← port_in 1 PORT_PS2_READ_STATUS w;
      if negb (Z.land byte __PS2_STATUS_REG_INPUT_BUFFER_FULL =? 0) then write_attempts n port value w
      else w ← port_out 1 port value w; Ok (true, w)
  end.
Definition ps2_write : Z -> Z -> W -> outcome (bool * W) := write_attempts RETRY_LIMIT.
Definition ps2_send_command (command : Z) (w : W) : outcome (bool * W) := ps2_write PORT_PS2_WRITE_CMD command w.
Definition ps2_read_config (w : W) : outcome (Z * W) :=
  '(ok, w) ← ps2_send_command PS2_CMD_READ_INPUT_BUFFER_BYTE w;
  if negb ok then Ok (-1, w) else ps2_read_input_byte w.
Definition ps2_write_config (value : Z) (w : W) : outcome (bool * W) :=
  '(ok, w) ← ps2_send_command PS2_CMD_WRITE_INPUT_BUFFER_BYTE w;
  if negb ok then Ok (false, w) else ps2_write PORT_PS2_INPUT_BUFFER value w.
Definition send_byte_to_port (device : ps2_port_id) (byte : Z) (w : W) : outcome (bool * W) :=
  '(ok, w) ← match device with
             | PS2_FIRST_PORT => Ok (true, w)
             | PS2_SECOND_PORT => ps2_send_command PS2_CMD_WRITE_NEXT_BYTE_TO_2ND_DEVICE_INPUT w
             end;
  if negb ok then Ok (false, w) else ps2_write PORT_PS2_INPUT_BUFFER byte w.
Fixpoint send_attempts (n : nat) (device : ps2_port_id) (byte : Z) (w : W) : outcome (Z * W) :=
  match n with
  | O => Ok (PS2_RESPONSE_FAIL, w)
  | S n =>
      '(ok, w) ← send_byte_to_port device byte w;
      if negb ok then Ok (-1, w)
      else
        '(response, w) ← ps2_read_input_byte w;
        if negb (response =? PS2_RESPONSE_RESEND) then Ok (response, w) else send_attempts n device byte w
  end.
Definition ps2_send_to_port : ps2_port_id -> Z -> W -> outcome (Z * W) := send_attempts RETRY_LIMIT.

(** [None]: the device did not acknowledge.  Shifting -1 to the left is
    undefined. *)
Definition ps2_get_device_kind (device : ps2_port_id) (w : W) : outcome (option Z * W) :=
  '(_, w) ← ps2_send_to_port device PS2_CMD_DISABLE_SCANNING w;
  '(_, w) ← ps2_read_input_byte w;
  '(identity, w) ← ps2_send_to_port device PS2_CMD_IDENTIFY w;
  if negb (identity =? PS2_RESPONSE_ACKNOWLEDGE) then Ok (None, w)
  else
    '(first, w) ← ps2_read_input_byte w;
    '(second, w) ← ps2_read_input_byte w;
    '(_, w) ← ps2_send_to_port device PS2_CMD_ENABLE_SCANNING w;
    if negb (second =? -1) then
      if first <? 0 then Undef else Ok (Some (Z.lor (Z.shiftl first 8) second), w)
    else Ok (Some first, w).

(** ** The state *)
Context {H : Type}.
Abbreviation irqs := (@irq_state W H).
Record ps2_state := { interrupts : irqs; g_kbd_state : ps2_keyboard_state; g_ps2_vector : Z; reports : list report }.
Definition set_interrupts (i : irqs) (s : ps2_state) : ps2_state :=
  {| interrupts := i; g_kbd_state := g_kbd_state s; g_ps2_vector := g_ps2_vector s; reports := reports s |}.
Definition set_kbd (k : ps2_keyboard_state) (s : ps2_state) : ps2_state :=
  {| interrupts := interrupts s; g_kbd_state := k; g_ps2_vector := g_ps2_vector s; reports := reports s |}.
Definition on_ports {A} (f : W -> outcome (A * W)) (s : ps2_state) : outcome (A * ps2_state) :=
  '(a, w) ← f (irq_hw (interrupts s)); Ok (a, set_interrupts (set_hw w (interrupts s)) s).

Context (mmio_write : Z -> Z -> Z -> W -> outcome W).
Context (malloc_size : Z -> H -> outcome (option (Z * list Z) * H)) (free : Z -> H -> outcome H).
Context (idt_thunks : Z -> Z) (ps2_keyboard_interrupt_at : Z).

(** ** keyboard.c *)
(** [string_append_sv], whose answer is not looked at. *)
Definition append_text (cond : bool) (text : string) (x : kstring * H) : outcome (kstring * H) :=
  if cond then '(_, s, h) ← string_append_sv malloc_size free x.1 (char_codes text) x.2; Ok (s, h) else Ok x.
Definition modifier_string (k : ps2_keyboard_state) (h : H) : outcome (kstring * H) :=
  let has_shift := negb (shift k =? 0) in
  let has_ctrl := negb (ctrl k =? 0) in
  let has_cmd := negb (cmd k =? 0) in
  x ← append_text has_shift "shift" (STRING_EMPTY, h);
  x ← append_text (has_ctrl && has_shift) "-" x;
  x ← append_text has_ctrl "ctrl" x;
  x ← append_text (alt k && (has_shift || has_ctrl)) "-" x;
  x ← append_text (alt k) "alt" x;
  x ← append_text (has_cmd && (has_shift || has_ctrl || alt k)) "-" x;
  append_text has_cmd "cmd" x.
Definition report_key (scan_code : Z) (s : ps2_state) : outcome ps2_state :=
  let k := g_kbd_state s in
  '(text, h) ← modifier_string k (irq_heap (interrupts s));
  sv ← string_to_sv text;
  c ← get_char_from_ps2_kb k scan_code;
  '(_, h) ← string_destroy free text h;
  Ok {| interrupts := set_irq_heap h (interrupts s); g_kbd_state := k; g_ps2_vector := g_ps2_vector s;
        reports := reports s ++ [{| modifiers := sv; character := c; with_caps_lock := caps_lock k |}] |}.
Definition ps2_keyboard_interrupt (s : ps2_state) : outcome ps2_state :=
  '(byte, s) ← on_ports ps2_read_input_byte s;
  let scan_code := u8 byte in
  let k := g_kbd_state s in
  if in_e0 k then Ok (set_kbd (scan_e0 scan_code k) s)
  else
    match scan_special scan_code k with
    | Some k => Ok (set_kbd k s)
    | None =>
        if scan_code =? PS2_RESPONSE_ACKNOWLEDGE then Ok s
        else if negb (Z.land scan_code __PS2_KBD_KEY_RELEASE =? 0) then Ok s
        else if negb (index_in_bounds scan_code (Z.of_nat (length ps2_key_to_char))) then Ok s
        else report_key scan_code s
    end.
Definition ps2_keyboard_init (device : ps2_port_id) (s : ps2_state) : outcome ps2_state :=
  '(_, s) ← on_ports (ps2_send_to_port device PS2_KBD_CMD_SCAN_CODE_SET) s;
  '(get_response, s) ← on_ports (ps2_send_to_port device PS2_KBD_SCAN_CODE_SET_SUBCMD_GET) s;
  if negb (get_response =? PS2_RESPONSE_ACKNOWLEDGE) then Ok s
  else
    '(scan_code, s) ← on_ports ps2_read_input_byte s;
    if negb (scan_code =? 0x41) then Ok s
    else
      '(vector, i) ← isr_alloc_vector (interrupts s);
      let i := isr_set_vector idt_thunks vector ps2_keyboard_interrupt_at IST_NONE i in
      i ← isr_assign_irq_to_cpu mmio_write IRQ_KEYBOARD vector false i;
      let s := {| interrupts := i; g_kbd_state := g_kbd_state s; g_ps2_vector := vector; reports := reports s |} in
      '(_, s) ← on_ports ps2_read_input_byte s;
      Ok s.

(** ** driver.c: ports *)
Definition ps2_init_port (device : ps2_port_id) (s : ps2_state) : outcome (bool * ps2_state) :=
  let enable_command :=
    match device with PS2_FIRST_PORT => PS2_CMD_ENABLE_1ST_DEVICE | PS2_SECOND_PORT => PS2_CMD_ENABLE_2ND_DEVICE end in
  '(ok, s) ← on_ports (ps2_send_command enable_command) s;
  if negb ok then Ok (false, s)
  else
    '(_, s) ← on_ports ps2_read_input_byte s;
    '(reset_response, s) ← on_ports (ps2_send_to_port device PS2_DATA_RESET_DEVICE) s;
    if negb (u8 reset_response =? PS2_RESPONSE_ACKNOWLEDGE) then Ok (false, s)
    else
      '(success_response, s) ← on_ports ps2_read_input_byte s;
      if negb (u8 success_response =? PS2_RESPONSE_SUCCESS) then Ok (false, s)
      else
        '(kind, s) ← on_ports (ps2_get_device_kind device) s;
        match kind with
        | None => Ok (false, s)
        | Some kind =>
            if (kind =? PS2_DEVICE_KIND_MF2_KBD_WITH_TRANSL_1) || (kind =? PS2_DEVICE_KIND_MF2_KBD_WITH_TRANSL_2) then
              s ← ps2_keyboard_init device s; Ok (true, s)
            else Ok (false, s)
        end.
(** Whether a port passes its test. *)
Definition test_port (command : Z) (s : ps2_state) : outcome (bool * ps2_state) :=
  '(ok, s) ← on_ports (ps2_send_command command) s;
  if negb ok then Ok (false, s)
  else '(result, s) ← on_ports ps2_read_input_byte s; Ok (result =? E_PS2_TEST_PORT_OK, s).
Definition ps2_init (s : ps2_state) : outcome ps2_state :=
  '(ok, s) ← on_ports (ps2_send_command PS2_CMD_DISABLE_1ST_DEVICE) s;
  if negb ok then Ok s
  else
    '(ok, s) ← on_ports (ps2_send_command PS2_CMD_DISABLE_2ND_DEVICE) s;
    if negb ok then Ok s
    else
      '(config, s) ← on_ports ps2_read_config s;
      if config =? -1 then Ok s
      else
        let config := Z.lor (Z.lor config __PS2_CNTRLR_CONFIG_1ST_PORT_INTERRUPT) __PS2_CNTRLR_CONFIG_1ST_PORT_TRANSLATION in
        let has_second_port := negb (Z.land config __PS2_CNTRLR_CONFIG_2ND_PORT_CLOCK =? 0) in
        let config := if has_second_port then Z.lor config __PS2_CNTRLR_CONFIG_2ND_PORT_INTERRUPT else config in
        '(ok, s) ← on_ports (ps2_write_config (u8 config)) s;
        if negb ok then Ok s
        else
          '(_, s) ← test_port PS2_CMD_TEST_1ST_DEVICE s;
          let first_port_enabled := true in
          '(second_port_enabled, s) ←
            (if has_second_port then test_port PS2_CMD_TEST_2ND_DEVICE s else Ok (false, s));
          s ← (if first_port_enabled then '(_, s) ← ps2_init_port PS2_FIRST_PORT s; Ok s else Ok s);
          if (second_port_enabled : bool) then '(_, s) ← ps2_init_port PS2_SECOND_PORT s; Ok s else Ok s.
End ports.
