(* ===== verification/Ps2Thms.v ===== *)
(** * What the keyboard makes of the keys that are pressed

    [Ps2Host] is a controller with bytes that wait to be read.  Keys are events;
    [ps2_keyboard_tracks_keys] says that the interrupt handler follows the keys
    that are held and reports the others. *)
From S2P Require Import Prelude CArith Convert Buffer BufferInv BufferThms PgTables Pci Irq Ps2.

Class Ps2Host {W : Type} (port_in : Z -> Z -> W -> outcome (Z * W)) := {
  pending : W -> list Z;
  ready w b bs : pending w = b :: bs -> exists st w',
    port_in 1 0x64 w = Ok (st, w') /\ Z.testbit st 0 = true /\ pending w' = b :: bs;
  take_byte w b bs : pending w = b :: bs -> exists w', port_in 1 0x60 w = Ok (b, w') /\ pending w' = bs;
}.

(** ** Keys *)
(** [RightCtrl] is what the code calls the key with the codes E0 38 and E0 B8. *)
Inductive modifier := LeftShift | RightShift | LeftCtrl | RightCtrl | LeftAlt | LeftCmd | RightCmd.
#[export] Instance modifier_eq_dec : EqDecision modifier.
Proof. solve_decision. Defined.
(** [Key] and [KeyUp] are for the keys that are no modifiers. *)
Inductive event := Press (m : modifier) | Release (m : modifier) | Caps | CapsUp | Key (c : Z) | KeyUp (c : Z).
Definition code_of (m : modifier) : list Z * Z :=
  match m with
  | LeftShift => ([], 0x2a) | RightShift => ([], 0x36) | LeftCtrl => ([], 0x1d) | RightCtrl => ([0xe0], 0x38)
  | LeftAlt => ([], 0x38) | LeftCmd => ([0xe0], 0x5b) | RightCmd => ([0xe0], 0x5c)
  end.
Definition bytes_of_event (e : event) : list Z :=
  match e with
  | Press m => (code_of m).1 ++ [(code_of m).2]
  | Release m => (code_of m).1 ++ [(code_of m).2 + 128]
  | Caps => [0x3a] | CapsUp => [0xba]
  | Key c => [c] | KeyUp c => [c + 128]
  end.
Definition ordinary (c : Z) : Prop := 0 <= c < 58 /\ c ∉ [0x1d; 0x2a; 0x36; 0x38].

(** The keys that are held, and whether caps lock is on. *)
Definition held := modifier -> bool.
Definition holding (m : modifier) (b : bool) (h : held) : held := fun n => if decide (n = m) then b else h n.
Definition none_held : held := fun _ => false.
Definition kbd_of (h : held) (caps : bool) : ps2_keyboard_state :=
  {| shift := Z.b2z (h LeftShift) + Z.b2z (h RightShift); cmd := Z.b2z (h LeftCmd) + Z.b2z (h RightCmd);
     ctrl := Z.b2z (h LeftCtrl) + Z.b2z (h RightCtrl); alt := h LeftAlt; caps_lock := caps; in_e0 := false |}.
Definition shifted (h : held) : bool := h LeftShift || h RightShift.
Definition words (h : held) : list string :=
  (if shifted h then ["shift"%string] else []) ++ (if h LeftCtrl || h RightCtrl then ["ctrl"%string] else []) ++
  (if h LeftAlt then ["alt"%string] else []) ++ (if h LeftCmd || h RightCmd then ["cmd"%string] else []).
Definition char_table (h : held) (caps : bool) : list Z :=
  if shifted h then ps2_key_to_char_shift else if caps then ps2_key_to_char_capslock else ps2_key_to_char.
Definition report_for (h : held) (caps : bool) (c : Z) : report :=
  {| modifiers := char_codes (String.concat "-" (words h)); character := default 0 (char_table h caps !! Z.to_nat c);
     with_caps_lock := caps |}.

(** What an event changes and reports; a key is pressed when it is up. *)
Definition legal (e : event) (h : held) : Prop :=
  match e with
  | Press m => h m = false | Release m => h m = true | Caps | CapsUp => True
  | Key c | KeyUp c => ordinary c
  end.
Definition held_after (e : event) (h : held) : held :=
  match e with Press m => holding m true h | Release m => holding m false h | _ => h end.
Definition caps_after (e : event) (caps : bool) : bool := match e with Caps => negb caps | _ => caps end.
Definition reported (e : event) (h : held) (caps : bool) : list report :=
  match e with Key c => [report_for h caps c] | _ => [] end.
Fixpoint legal_all (es : list event) (h : held) : Prop :=
  match es with [] => True | e :: es => legal e h /\ legal_all es (held_after e h) end.
Fixpoint typed (es : list event) (h : held) (caps : bool) : list report :=
  match es with [] => [] | e :: es => reported e h caps ++ typed es (held_after e h) (caps_after e caps) end.
Definition bytes_of_events (es : list event) : list Z := concat (map bytes_of_event es).

(** ** The text of the modifiers *)
Section heap.
Context {H : Type} {malloc_size : Z -> H -> outcome (option (Z * list Z) * H)} {free : Z -> H -> outcome H}.
Context {heap : Malloc malloc_size free}.
Definition in_heap (x : kstring * H) (l : list Z) : Prop := gb_in x.1 x.2 l.

Lemma append_text_ok cond text x l : in_heap x l -> gb_index x.1 + 2 * (Z.of_nat (String.length text) + 1) <= malloc_limit ->
  exists x', append_text malloc_size free cond text x = Ok x' /\ in_heap x' l /\
    gb_bytes x'.1 = gb_bytes x.1 ++ (if cond then map u8 (char_codes text) else []) /\
    gb_index x.1 <= gb_index x'.1 <= gb_index x.1 + Z.of_nat (String.length text).
Proof.
  intros Hin Hlim. unfold append_text. destruct cond; [|exists x; rewrite app_nil_r; split_and!; (done || lia)].
  assert (length (char_codes text) = String.length text) as El.
  { unfold char_codes. rewrite length_map. induction text as [|c text IH]; [done|]. cbn. f_equal. apply IH. cbn in Hlim. lia. }
  destruct (string_append_sv_spec x.1 (char_codes text) x.2 l Hin) as (s & h & -> & Hs & _ & Hb & Hi);
    [rewrite El; lia|apply malloc_limit_32|]. rewrite outcome_bind_ok. exists (s, h). cbn. rewrite El in Hi. split_and!; (done || lia).
Qed.
Definition modifier_text (k : ps2_keyboard_state) : list Z :=
  let has_shift := negb (shift k =? 0) in let has_ctrl := negb (ctrl k =? 0) in let has_cmd := negb (cmd k =? 0) in
  let part (b : bool) t := if b then map u8 (char_codes t) else [] in
  part has_shift "shift" ++ part (has_ctrl && has_shift) "-" ++ part has_ctrl "ctrl" ++
  part (alt k && (has_shift || has_ctrl)) "-" ++ part (alt k) "alt" ++ part (has_cmd && (has_shift || has_ctrl || alt k)) "-" ++
  part has_cmd "cmd".
(** One piece of the text. *)
Ltac next_text :=
  match goal with Hin : in_heap ?x ?l |- context [append_text _ _ ?c ?t ?x] =>
    let y := fresh "x" in let Hy := fresh in let B := fresh "B" in let I := fresh in
    destruct (append_text_ok c t x l Hin) as (y & -> & Hy & B & I); [cbn in *; lia|];
    rewrite ?outcome_bind_ok; cbn in I; clear Hin
  end.
Lemma modifier_string_ok k h l : heap_owns h l -> 64 <= malloc_limit ->
  exists s h', modifier_string malloc_size free k h = Ok (s, h') /\ gb_in s h' l /\ gb_bytes s = modifier_text k.
Proof.
  intros Hh Hlim. unfold modifier_string, modifier_text. cbv zeta.
  assert (in_heap (STRING_EMPTY, h) l) as H0 by (by apply gb_init_in).
  assert (gb_index (STRING_EMPTY, h).1 = 0) as I0 by done. assert (gb_bytes (STRING_EMPTY, h).1 = []) as B0 by done.
  revert H0 I0 B0. generalize (STRING_EMPTY, h). intros x0 H0 I0 B0.
  do 7 next_text.
  match goal with Hx : in_heap ?x l |- _ => exists x.1, x.2; split; [by destruct x|]; split; [exact Hx|] end.
  repeat match goal with B : gb_bytes _ = _ |- _ => rewrite B; clear B end. by rewrite <- !app_assoc.
Qed.
Lemma destroy_ok s h l : gb_in s h l -> exists s' h', string_destroy free s h = Ok (s', h') /\ heap_owns h' l.
Proof.
  intros [W Hh]. unfold string_destroy, gbuffer_destroy, gb_owned in *. destruct (gb_is_alloc s) eqn:Ha.
  - destruct (free_ok (gb_begin s) h l Hh) as (h' & -> & Hh'). rewrite outcome_bind_ok. eauto.
  - destruct (wf_alloc _ W) as [?|Hd]; [congruence|]. rewrite (gb_capacity s W), Hd. cbn. eauto.
Qed.
End heap.

(** ** The text and the character of a report *)
Lemma counts a b : negb (Z.b2z a + Z.b2z b =? 0) = a || b.
Proof. by destruct a, b. Qed.
Lemma modifier_text_words h caps : map i8 (modifier_text (kbd_of h caps)) = char_codes (String.concat "-" (words h)).
Proof.
  unfold modifier_text, kbd_of. cbn [shift ctrl cmd alt]. rewrite !counts. unfold words, shifted.
  by destruct (h LeftShift || h RightShift), (h LeftCtrl || h RightCtrl), (h LeftAlt), (h LeftCmd || h RightCmd); vm_compute.
Qed.
Lemma char_of_key h caps c : 0 <= c < 58 ->
  get_char_from_ps2_kb (kbd_of h caps) c = Ok (default 0 (char_table h caps !! Z.to_nat c)).
Proof.
  intros Hc. unfold get_char_from_ps2_kb, kbd_of, char_table. cbn [shift caps_lock]. rewrite counts. fold (shifted h).
  assert (forall l : list Z, length l = 58%nat -> deref (l !! Z.to_nat c) = Ok (default 0 (l !! Z.to_nat c))) as Hl.
  { intros l Hl. destruct (lookup_lt_is_Some_2 l (Z.to_nat c) ltac:(lia)) as [x ->]. done. }
  destruct (shifted h), caps; by apply Hl.
Qed.

(** ** Interrupts *)
Section keys.
Context {W H : Type} {port_in : Z -> Z -> W -> outcome (Z * W)} {host : Ps2Host port_in}.
Context {malloc_size : Z -> H -> outcome (option (Z * list Z) * H)} {free : Z -> H -> outcome H}.
Context {heap : Malloc malloc_size free}.
Abbreviation interrupt := (ps2_keyboard_interrupt (W := W) port_in (H := H) malloc_size free).
Fixpoint interrupts_of (n : nat) (s : ps2_state) : outcome (ps2_state (W := W) (H := H)) :=
  match n with O => Ok s | S n => s ← interrupt s; interrupts_of n s end.
Lemma interrupts_app n k s : interrupts_of (n + k) s = (s ← interrupts_of n s; interrupts_of k s).
Proof.
  revert s. induction n as [|n IH]; intros s; [done|].
  cbn [Nat.add interrupts_of]. rewrite outcome_bind_assoc. destruct (interrupt s) as [s'| | | ]; [|done..]. apply IH.
Qed.

(** The state: the keyboard, the bytes that wait, the reports; [l] is owned. *)
Record kbd_at (k : ps2_keyboard_state) (bs : list Z) (rs : list report) (l : list Z) (s : ps2_state (W := W) (H := H)) : Prop := {
  at_kbd : g_kbd_state s = k;
  at_pending : pending (irq_hw (interrupts s)) = bs;
  at_reports : reports s = rs;
  at_heap : heap_owns (irq_heap (interrupts s)) l;
}.
Lemma read_byte_ok k b bs rs l s : kbd_at k (b :: bs) rs l s ->
  exists s', on_ports (ps2_read_input_byte port_in) s = Ok (b, s') /\ kbd_at k bs rs l s'.
Proof.
  intros [Hk Hp Hr Hh]. unfold on_ports, ps2_read_input_byte, RETRY_LIMIT. cbn [read_attempts].
  change PORT_PS2_READ_STATUS with 0x64. change PORT_PS2_INPUT_BUFFER with 0x60.
  destruct (ready _ _ _ Hp) as (st & w & -> & Hst & Hp'). rewrite outcome_bind_ok.
  unfold __PS2_STATUS_REG_OUTPUT_BUFFER_FULL. pose proof (has_bit st 0 ltac:(lia)) as Hb. rewrite Hst in Hb.
  apply negb_true_iff in Hb. rewrite Hb. destruct (take_byte _ _ _ Hp') as (w' & -> & Hp''). rewrite outcome_bind_ok.
  eexists. split; [done|]. by constructor.
Qed.
Lemma set_kbd_at k k' bs rs l s : kbd_at k bs rs l s -> kbd_at k' bs rs l (set_kbd k' s).
Proof. intros []. by constructor. Qed.

(** A byte that changes the state. *)
Lemma state_byte k k' b bs rs l s : kbd_at k (b :: bs) rs l s -> in_u 8 b ->
  (if in_e0 k then Some (scan_e0 b k) else scan_special b k) = Some k' ->
  exists s', interrupt s = Ok s' /\ kbd_at k' bs rs l s'.
Proof.
  intros Hs Hb E. unfold ps2_keyboard_interrupt. destruct (read_byte_ok _ _ _ _ _ _ Hs) as (s1 & -> & H1).
  rewrite outcome_bind_ok, (wrap_small 8) by done. pose proof (at_kbd _ _ _ _ _ H1) as ->.
  destruct (in_e0 k); [injection E as <-|rewrite E]; (eexists; split; [done|by eapply set_kbd_at]).
Qed.
(** A byte that is ignored. *)
Lemma ignored_byte k b bs rs l s : kbd_at k (b :: bs) rs l s -> 128 <= b < 256 -> in_e0 k = false -> scan_special b k = None ->
  exists s', interrupt s = Ok s' /\ kbd_at k bs rs l s'.
Proof.
  intros Hs Hb E0 E. unfold ps2_keyboard_interrupt. destruct (read_byte_ok _ _ _ _ _ _ Hs) as (s1 & -> & H1).
  rewrite outcome_bind_ok, (wrap_small 8) by (unfold_ints; lia). pose proof (at_kbd _ _ _ _ _ H1) as ->. rewrite E0, E.
  exists s1. split; [|done]. destruct (b =? PS2_RESPONSE_ACKNOWLEDGE); [done|].
  unfold __PS2_KBD_KEY_RELEASE. rewrite has_bit by lia.
  assert (Z.testbit b 7 = true) as ->; [|done]. rewrite Z.testbit_true by lia. change (2 ^ 7) with 128.
  replace (b / 128) with 1; [done|]. apply (Z.div_unique b 128 1 (b - 128)); lia.
Qed.
(** A key. *)
Lemma key_byte h caps c bs rs l s : kbd_at (kbd_of h caps) (c :: bs) rs l s -> ordinary c -> 64 <= malloc_limit ->
  exists s', interrupt s = Ok s' /\ kbd_at (kbd_of h caps) bs (rs ++ [report_for h caps c]) l s'.
Proof.
  intros Hs [Hc Hn] Hlim. unfold ps2_keyboard_interrupt. destruct (read_byte_ok _ _ _ _ _ _ Hs) as (s1 & -> & H1).
  rewrite outcome_bind_ok, (wrap_small 8) by (unfold_ints; lia). pose proof (at_kbd _ _ _ _ _ H1) as Hk. rewrite Hk.
  change (in_e0 (kbd_of h caps)) with false. cbv iota.
  assert (scan_special c (kbd_of h caps) = None) as ->.
  { unfold scan_special. rewrite !not_elem_of_cons in Hn. destruct Hn as (? & ? & ? & ? & _).
    repeat match goal with |- context [c =? ?x] => rewrite (proj2 (Z.eqb_neq c x)) by (unfold x in *; lia) || done end. done. }
  unfold PS2_RESPONSE_ACKNOWLEDGE. rewrite (proj2 (Z.eqb_neq c 0xFA)) by lia. unfold __PS2_KBD_KEY_RELEASE. rewrite has_bit by lia.
  assert (Z.testbit c 7 = false) as ->.
  { apply Z.testbit_false; [lia|]. change (2 ^ 7) with 128. by rewrite Z.div_small by lia. }
  unfold index_in_bounds. change (Z.of_nat (length ps2_key_to_char)) with 58. rewrite (proj2 (Z.ltb_lt c 58)) by lia. cbn [negb].
  unfold report_key. rewrite Hk. pose proof H1 as [_ Hp Hr Hh].
  destruct (modifier_string_ok (kbd_of h caps) (irq_heap (interrupts s1)) l Hh Hlim) as (text & h1 & -> & Htext & Hb).
  rewrite outcome_bind_ok, (string_to_sv_spec text h1 l Htext), outcome_bind_ok, (char_of_key h caps c Hc), outcome_bind_ok.
  destruct (destroy_ok text h1 l Htext) as (text' & h2 & -> & Hh2). rewrite outcome_bind_ok.
  eexists. split; [done|]. constructor; cbn; [done|done| |done].
  rewrite Hr, Hb, modifier_text_words. done.
Qed.

(** What the modifiers do. *)
Ltac each_modifier m h Hm :=
  destruct m; cbn [code_of fst snd]; unfold kbd_of, holding; rewrite Hm;
  repeat (rewrite decide_True by done || rewrite decide_False by done);
  repeat match goal with |- context [h ?x] => destruct (h x) end; by vm_compute.
Lemma modifier_down m h caps : h m = false ->
  match (code_of m).1 with
  | [] => scan_special (code_of m).2 (kbd_of h caps) = Some (kbd_of (holding m true h) caps)
  | _ => scan_e0 (code_of m).2 (with_e0 true (kbd_of h caps)) = kbd_of (holding m true h) caps
  end.
Proof. intros Hm. each_modifier m h Hm. Qed.
Lemma modifier_up m h caps : h m = true ->
  match (code_of m).1 with
  | [] => scan_special ((code_of m).2 + 128) (kbd_of h caps) = Some (kbd_of (holding m false h) caps)
  | _ => scan_e0 ((code_of m).2 + 128) (with_e0 true (kbd_of h caps)) = kbd_of (holding m false h) caps
  end.
Proof. intros Hm. each_modifier m h Hm. Qed.
Lemma code_bytes m : 0 <= (code_of m).2 < 128 /\ ((code_of m).1 = [] \/ (code_of m).1 = [0xe0]).
Proof. destruct m; cbn; (split; [lia|tauto]). Qed.
(** A modifier's code, with or without the prefix. *)
Lemma modifier_bytes pre c k k' bs rs l s : in_e0 k = false -> in_u 8 c -> pre = [] \/ pre = [0xe0] ->
  match pre with [] => scan_special c k = Some k' | _ => scan_e0 c (with_e0 true k) = k' end ->
  kbd_at k ((pre ++ [c]) ++ bs) rs l s ->
  exists s', interrupts_of (length (pre ++ [c])) s = Ok s' /\ kbd_at k' bs rs l s'.
Proof.
  intros E0 Hc [-> | ->] E Hs; cbn [app length interrupts_of] in *.
  - destruct (state_byte k k' c bs rs l s Hs Hc) as (s' & -> & Hs'); [by rewrite E0|]. eauto.
  - destruct (state_byte k (with_e0 true k) 0xe0 (c :: bs) rs l s Hs) as (s1 & -> & H1); [unfold_ints; lia|by rewrite E0|].
    rewrite outcome_bind_ok. destruct (state_byte _ k' c bs rs l s1 H1 Hc) as (s' & -> & Hs'); [cbn; by rewrite E|]. eauto.
Qed.

Lemma released_ignored k c : ordinary c \/ c = 0x3a -> scan_special (c + 128) k = None.
Proof.
  intros Hc. assert (0 <= c < 59 /\ c ∉ [0x1d; 0x2a; 0x36; 0x38]) as [Hb Hn].
  { destruct Hc as [[? ?]|Hc]; [split; [lia|done]|]. split; [lia|]. rewrite Hc. rewrite !not_elem_of_cons. repeat split; try lia. apply not_elem_of_nil. }
  rewrite !not_elem_of_cons in Hn. destruct Hn as (? & ? & ? & ? & _).
  unfold scan_special.
  repeat match goal with |- context [c + 128 =? ?x] => rewrite (proj2 (Z.eqb_neq (c + 128) x)) by (unfold x in *; lia) end. done.
Qed.
Lemma event_ok e h caps bs rs l s : legal e h -> 64 <= malloc_limit ->
  kbd_at (kbd_of h caps) (bytes_of_event e ++ bs) rs l s ->
  exists s', interrupts_of (length (bytes_of_event e)) s = Ok s' /\
    kbd_at (kbd_of (held_after e h) (caps_after e caps)) bs (rs ++ reported e h caps) l s'.
Proof.
  intros Hl Hlim Hs. destruct e as [m|m| | |c|c]; cbn [bytes_of_event held_after caps_after reported legal] in *; rewrite ?app_nil_r.
  - destruct (code_bytes m) as [Hc Hp]. apply (modifier_bytes (code_of m).1 (code_of m).2 (kbd_of h caps)); [done|unfold_ints; lia|done|by apply modifier_down|exact Hs].
  - destruct (code_bytes m) as [Hc Hp]. apply (modifier_bytes (code_of m).1 ((code_of m).2 + 128) (kbd_of h caps)); [done|unfold_ints; lia|done|by apply modifier_up|exact Hs].
  - apply (modifier_bytes [] 0x3a (kbd_of h caps) (kbd_of h (negb caps)) bs rs l s); try done. by left.
  - cbn [length interrupts_of] in *. destruct (ignored_byte _ _ _ _ _ _ Hs) as (s' & -> & Hs'); [lia|done|by apply (released_ignored _ 0x3a); right|]. eauto.
  - cbn [length interrupts_of] in *. destruct (key_byte _ _ _ _ _ _ _ Hs Hl Hlim) as (s' & -> & Hs'). eauto.
  - cbn [length interrupts_of] in *. destruct (ignored_byte _ _ _ _ _ _ Hs) as (s' & -> & Hs'); [destruct Hl; lia|done|by apply released_ignored; left|]. eauto.
Qed.
Lemma events_ok es h caps bs rs l s : legal_all es h -> 64 <= malloc_limit ->
  kbd_at (kbd_of h caps) (bytes_of_events es ++ bs) rs l s ->
  exists s', interrupts_of (length (bytes_of_events es)) s = Ok s' /\
    kbd_at (kbd_of (fold_left (fun h e => held_after e h) es h) (fold_left (fun c e => caps_after e c) es caps)) bs
      (rs ++ typed es h caps) l s'.
Proof.
  intros Hl Hlim. revert h caps rs s Hl. induction es as [|e es IH]; intros h caps rs s Hl Hs.
  - exists s. cbn. by rewrite app_nil_r.
  - destruct Hl as [He Hl]. change (bytes_of_events (e :: es)) with (bytes_of_event e ++ bytes_of_events es) in *.
    rewrite <- app_assoc in Hs. destruct (event_ok e h caps _ rs l s He Hlim Hs) as (s1 & E1 & H1).
    destruct (IH _ _ _ _ Hl H1) as (s2 & E2 & H2). exists s2. rewrite length_app, interrupts_app, E1, outcome_bind_ok. split; [done|].
    cbn [typed fold_left]. by rewrite app_assoc.
Qed.
End keys.


(** A controller whose bytes are a list. *)
Definition ex_in (n p : Z) (w : list Z) : outcome (Z * list Z) :=
  if p =? 0x64 then Ok (if w is [] then 0 else 1, w) else match w with [] => Ok (0, []) | b :: w => Ok (b, w) end.
#[export] Program Instance ex_ps2_host : Ps2Host ex_in := { pending w := w }.
Next Obligation. intros w b bs ->. by eexists _, _. Qed.
Next Obligation. intros w b bs ->. by eexists. Qed.
Definition ex_ps2 (k : ps2_keyboard_state) (bs : list Z) : ps2_state (W := list Z) (H := unit) :=
  {| interrupts :=
       {| irq_hw := bs; irq_heap := tt; info := acpi_info_init; lapic_list := array_init 3; ioapic_list := array_init 24;
          lapic_regs := 0; cpu := {| lapic_id := 0; lapic_timer_frequency := 0; timer_ticks := 0; spur_int_count := 0 |};
          isrs := isr_state_init |};
     g_kbd_state := k; g_ps2_vector := 0; reports := [] |}.
(** "a", then control and shift with "A", caps lock, "A". *)
Definition ex_events : list event :=
  [Key 0x1e; KeyUp 0x1e; Press LeftCtrl; Press RightShift; Key 0x1e; KeyUp 0x1e; Release LeftCtrl; Release RightShift;
   Caps; CapsUp; Key 0x1e].

(** A shift key that is held repeats its code; after four of them the count of
    two bits is 0 again and the letters are small. *)
Example held_shift_wraps :
  match interrupts_of (port_in := ex_in) (malloc_size := unit_malloc) (free := unit_free) 5
          (ex_ps2 g_kbd_state_init [0x2a; 0x2a; 0x2a; 0x2a; 0x1e]) with
  | Ok s => shift (g_kbd_state s) = 0 /\ reports s = [{| modifiers := []; character := 97; with_caps_lock := false |}]
  | _ => False
  end.
Proof. by vm_compute. Qed.
(** E0 38, the right alt key, counts as control, and E0 1D, the right control
    key, as nothing. *)
Example right_alt_is_ctrl :
  scan_e0 0x38 (with_e0 true g_kbd_state_init) = with_ctrl 1 g_kbd_state_init /\
  scan_e0 0x1d (with_e0 true g_kbd_state_init) = g_kbd_state_init.
Proof. by vm_compute. Qed.
(** Caps lock shifts the keys that are no letters too. *)
Example caps_lock_shifts_punctuation : get_char_from_ps2_kb (with_capslock true g_kbd_state_init) 0x33 = Ok 60.
Proof. by vm_compute. Qed.
