(* ===== verification/TimeNames.v ===== *)
(** * Names looked up and clocks registered

    The comparisons of lib/adt/string_view.c, the functions of lib/time.c that
    look the name of a day or month up, and the list of clocks of
    kernel/time/time.c.  A view is compared with the characters behind it too, so
    here it is the characters of its object from its beginning on, and its
    length. *)
From Stdlib Require Import String.
From S2P Require Import Prelude CArith AvlTree AddrSpace AddrSpaceInv Convert Buffer MemThms Time.

(** ** lib/adt/string_view.c *)
Record view := { sv_begin : list Z; sv_length : Z }.
Definition sv_create_nocheck (c_str : list Z) (length : Z) : view := {| sv_begin := c_str; sv_length := length |}.
(** [SV_STATIC]: a string literal with its terminator. *)
Definition SV_STATIC (s : string) : view := sv_create_nocheck (char_codes s ++ [0]) (Z.of_nat (length (char_codes s))).
Definition strncmp_views (sv sv2 : view) (length : Z) : outcome Z :=
  bytes_ncmp (Z.to_nat length) (sv_begin sv) (sv_begin sv2).

Definition sv_compare_c_str (sv : view) (c_str : list Z) : outcome bool :=
  r ← bytes_ncmp (Z.to_nat (sv_length sv)) (sv_begin sv) c_str; Ok (negb (r =? 0)).
Definition sv_compare (sv sv2 : view) : outcome Z :=
  if sv_length sv >? sv_length sv2 then
    if sv_length sv2 =? 0 then c ← deref (head (sv_begin sv)); Ok (i8 c)
    else strncmp_views sv sv2 (sv_length sv2)
  else if sv_length sv <? sv_length sv2 then
    if sv_length sv =? 0 then c ← deref (head (sv_begin sv2)); Ok (- i8 c)
    else strncmp_views sv sv2 (sv_length sv)
  else if sv_length sv =? 0 then Ok 0
  else strncmp_views sv sv2 (sv_length sv).
Definition sv_equals_c_str (sv : view) (c_str : list Z) : outcome bool :=
  r ← sv_compare_c_str sv c_str; Ok (negb r).
Definition sv_equals (sv sv2 : view) : outcome bool :=
  r ← sv_compare sv sv2; Ok (r =? 0).

(** ** lib/time.c *)

(** [RETURN_IF_EQUAL] for each name in turn; the first is numbered [i]. *)
Fixpoint return_if_equal (names : list string) (i none : Z) (sv : view) : outcome Z :=
  match names with
  | [] => Ok none
  | name :: names =>
      equal ← sv_equals sv (SV_STATIC name);
      if equal : bool then Ok i else return_if_equal names (i + 1) none sv
  end.
Definition sv_to_weekday : view -> outcome Z := return_if_equal weekday_names WEEKDAY_SUNDAY WEEKDAY_INVALID.
Definition sv_to_month : view -> outcome Z := return_if_equal month_names MONTH_JANUARY MONTH_INVALID.
Definition sv_abbrev_to_weekday : view -> outcome Z := return_if_equal weekday_names_abbrev WEEKDAY_SUNDAY WEEKDAY_INVALID.
Definition sv_abbrev_to_month : view -> outcome Z := return_if_equal month_names_abbrev MONTH_JANUARY MONTH_INVALID.

(** ** kernel/time/time.c *)

(** The links of the clocks, [None] being [g_clock_list]. *)
Definition g_clock_list : links := list_init None {| prev := fun _ => None; next := fun _ => None |}.
Definition add_clock_source (clock : positive) (l : links) : outcome links := list_add None (Some clock) l.

(** ** What looking a name up finds

    A view that is a whole string is found to be the first name of its length,
    whatever its characters. *)
(** A character of a text: not the terminator. *)
Definition is_char (c : Z) : Prop := 0 < c < 256.
Lemma char_not_nul c : is_char c -> (i8 c =? 0) = false.
Proof. intros Hc. unfold is_char in Hc. rewrite i8_zero by (unfold in_u; lia). lia. Qed.

(** ** Comparing *)
Lemma ncmp_texts s t r r' : Forall is_char s -> Forall is_char t ->
  exists d, bytes_ncmp (Nat.min (length s) (length t)) (s ++ 0 :: r) (t ++ 0 :: r') = Ok d /\
    (d =? 0) = bool_decide (length s = length t).
Proof.
  intros Hs. revert t. induction Hs as [|c s Hc Hs IH]; intros t Ht; destruct Ht as [|c' t Hc' Ht].
  - by exists 0.
  - exists (- i8 c'). cbn. split; [by rewrite Z.sub_0_l|]. rewrite bool_decide_false by done.
    pose proof (char_not_nul c' Hc'). lia.
  - exists (i8 c). cbn. split; [by rewrite Z.sub_0_r|]. rewrite bool_decide_false by done. by apply char_not_nul.
  - destruct (IH t Ht) as (d & E & Hd). exists d. cbn. rewrite !char_not_nul by done. split; [done|].
    rewrite Hd. apply bool_decide_ext. lia.
Qed.

(** A view of a whole string; [r] is what is behind the terminator. *)
Definition whole (s r : list Z) : view := sv_create_nocheck (s ++ 0 :: r) (Z.of_nat (length s)).
Lemma sv_equals_whole s t r r' : Forall is_char s -> Forall is_char t ->
  sv_equals (whole s r) (whole t r') = Ok (bool_decide (length s = length t)).
Proof.
  intros Hs Ht. unfold sv_equals, sv_compare, strncmp_views, whole, sv_create_nocheck, sv_begin, sv_length.
  destruct (ncmp_texts s t r r' Hs Ht) as (d & E & Hd).
  destruct (Z.of_nat (length s) >? Z.of_nat (length t)) eqn:E1; [|destruct (Z.of_nat (length s) <? Z.of_nat (length t)) eqn:E2].
  - rewrite Nat.min_r in E by lia. destruct Ht as [|c' t Hc' Ht]; cbn [length].
    + destruct Hs as [|c s Hc Hs]; [done|]. rewrite bool_decide_false by (cbn; lia).
      cbn -[swrap Z.eqb]. change (Z.of_nat 0 =? 0) with true. cbv iota. rewrite outcome_bind_ok. by rewrite char_not_nul.
    + destruct (Z.eqb_spec (Z.of_nat (S (length t))) 0); [lia|]. rewrite Nat2Z.id. cbn [length] in E. rewrite E. cbn. by rewrite Hd.
  - rewrite Nat.min_l in E by lia. destruct Hs as [|c s Hc Hs]; cbn [length].
    + destruct Ht as [|c' t Hc' Ht]; [done|]. rewrite bool_decide_false by (cbn; lia).
      cbn -[swrap Z.eqb]. change (Z.of_nat 0 =? 0) with true. cbv iota. rewrite outcome_bind_ok. f_equal. pose proof (char_not_nul c' Hc'). lia.
    + destruct (Z.eqb_spec (Z.of_nat (S (length s))) 0); [lia|]. rewrite Nat2Z.id. cbn [length] in E. rewrite E. cbn. by rewrite Hd.
  - rewrite Nat.min_l in E by lia. destruct Hs as [|c s Hc Hs]; cbn [length].
    + destruct t; [done|]. cbn [length] in *. apply Z.ltb_ge in E2. lia.
    + destruct (Z.eqb_spec (Z.of_nat (S (length s))) 0); [lia|]. rewrite Nat2Z.id. cbn [length] in E. rewrite E. cbn. by rewrite Hd.
Qed.

(** ** Looking up *)
Definition is_text (s : string) : Prop := Forall is_char (char_codes s).
(** The number of the first name of the length [n]; the first is numbered [i]. *)
Fixpoint first_of_length (names : list string) (i none : Z) (n : nat) : Z :=
  match names with
  | [] => none
  | name :: names => if bool_decide (n = length (char_codes name)) then i else first_of_length names (i + 1) none n
  end.
Lemma return_if_equal_whole names i none s r : Forall is_text names -> Forall is_char s ->
  return_if_equal names i none (whole s r) = Ok (first_of_length names i none (length s)).
Proof.
  intros Hn Hs. revert i. induction Hn as [|name names Hname _ IH]; intros i; [done|].
  cbn [return_if_equal first_of_length]. change (SV_STATIC name) with (whole (char_codes name) []).
  rewrite sv_equals_whole by done. rewrite outcome_bind_ok. by case_match.
Qed.

#[export] Instance is_char_dec c : Decision (is_char c).
Proof. unfold is_char. apply _. Defined.
Lemma names_are_texts : Forall is_text (weekday_names ++ month_names ++ weekday_names_abbrev ++ month_names_abbrev).
Proof. unfold is_text. apply (bool_decide_unpack _). by vm_compute. Qed.

(** A view that is a whole string is taken for the first day or month whose name
    has its length. *)
Theorem names_are_found_by_length s r : Forall is_char s ->
  sv_to_weekday (whole s r) = Ok (first_of_length weekday_names 0 (-1) (length s)) /\
  sv_to_month (whole s r) = Ok (first_of_length month_names 1 0 (length s)) /\
  sv_abbrev_to_weekday (whole s r) = Ok (if bool_decide (length s = 3%nat) then 0 else -1) /\
  sv_abbrev_to_month (whole s r) = Ok (if bool_decide (length s = 3%nat) then 1 else 0).
Proof.
  intros Hs. pose proof names_are_texts as (Hw & (Hm & (Hwa & Hma)%Forall_app)%Forall_app)%Forall_app.
  split_and!.
  1,2: by apply return_if_equal_whole.
  - unfold sv_abbrev_to_weekday. rewrite return_if_equal_whole by done. cbn. by case_bool_decide.
  - unfold sv_abbrev_to_month. rewrite return_if_equal_whole by done. cbn. by case_bool_decide.
Qed.

(** So Monday is found to be Sunday, Saturday to be Thursday, and any word of nine
    characters to be Wednesday; a view inside a longer text depends on what comes
    behind it. *)
Example days_mixed_up :
  sv_to_weekday (SV_STATIC "Monday") = Ok WEEKDAY_SUNDAY /\ sv_to_weekday (SV_STATIC "Saturday") = Ok WEEKDAY_THURSDAY /\
  sv_to_weekday (SV_STATIC "spaghetti") = Ok WEEKDAY_WEDNESDAY /\
  sv_to_weekday (sv_create_nocheck (char_codes "Sunday, 1 May" ++ [0]) 6) = Ok WEEKDAY_INVALID.
Proof. split_and!; by vm_compute. Qed.

(** ** The clocks *)

(** Clocks are registered at the front of the list. *)
Theorem add_clock_source_spec l clocks clock : threads l clocks -> clock ∉ clocks -> NoDup clocks ->
  exists l', add_clock_source clock l = Ok l' /\ threads l' (clock :: clocks).
Proof. intros Hl Hc Hnd. apply (list_add_threads l [] clock clocks Hl). by constructor. Qed.
Lemma no_clocks : threads g_clock_list [].
Proof. by vm_compute. Qed.
