(* ===== verification/EarlyRef.v ===== *)
(** * References to the tables made before the buddy allocator

    [mm_early_refcount_alloced_map] of kernel/mm/early.c, on the walker of
    Walker.v.  The [struct page]s of the tables are zero when it starts, that is
    [Table_page 0]. *)
From S2P Require Import Prelude CArith PageAlloc Walker WalkerThms PgMap.

Section early_ref.
(** [kernel_pagemap], which is the one that the cpu uses. *)
Context (cfg : paging) (kernel_pagemap : pagemap).

Definition init_table_page (p : Z) (st : mm) : outcome mm := page_set_data p (Table_page refcount_init) st.
(** [page->table.refcount.count++] *)
Definition count_reference (p : Z) (st : mm) : outcome mm :=
  r ← table_refcount p st; page_set_data p (Table_page (i32 (r + 1))) st.
Definition page_at_level (level : Z) (w : pt_walker unit) (st : mm) : outcome Z :=
  t ← get_table (level - 1) w; virt_to_page t st.

(** From [level] up to the top, [n] levels. *)
Fixpoint init_unused_tables (n : nat) (level : Z) (w : pt_walker unit) (st : mm) : outcome mm :=
  match n with
  | O => Ok st
  | S n =>
      page ← page_at_level level w st;
      count ← table_refcount page st;
      st ← (if count =? 0 then init_table_page page st else Ok st);
      init_unused_tables n (level + 1) w st
  end.
Definition levels_from (level : Z) (w : pt_walker unit) : nat := Z.to_nat (top_level w + 1 - level).

Definition was_at_end (w : pt_walker unit) : outcome bool :=
  i ← get_index (level w - 1) w; Ok (i =? PGT_PTE_COUNT - 1).

(** The tables from [level] up whose index is 0 are new; the answer is
    [level_end]. *)
Fixpoint init_new_tables (n : nat) (level level_end : Z) (w : pt_walker unit) (st : mm) : outcome (Z * mm) :=
  match n with
  | O => Ok (level_end, st)
  | S n =>
      index ← get_index (level - 1) w;
      if negb (index =? 0) then Ok (level, st)
      else
        page ← page_at_level level w st;
        st ← init_table_page page st;
        init_new_tables n (level + 1) level_end w st
  end.
Fixpoint count_parents (n : nat) (level : Z) (w : pt_walker unit) (st : mm) : outcome mm :=
  match n with
  | O => Ok st
  | S n =>
      page ← page_at_level level w st;
      st ← count_reference page st;
      count_parents n (level + 1) w st
  end.

Fixpoint refcount_loop (fuel : nat) (i length prev_level : Z) (prev_was_at_end : bool) (w : pt_walker unit) (st : mm) :
    outcome mm :=
  if i <? length then
    match fuel with
    | O => OutOfFuel
    | S fuel =>
        '(advance_result, w, st) ← ptwalker_next_with_options cfg w (u8 (level w)) false false false None None st;
        c_assert (bool_decide (advance_result = E_PT_WALKER_OK));;
        st ←
          (if prev_was_at_end || (prev_level >? level w) then
             '(level_end, st) ← init_new_tables (levels_from (level w) w) (level w) (level w) w st;
             count_parents (Z.to_nat (level_end - level w)) (level w + 1) w st
           else Ok st);
        page ← page_at_level (level w) w st;
        st ← count_reference page st;
        size ← PAGE_SIZE_AT_LEVEL (level w);
        at_end ← was_at_end w;
        refcount_loop fuel (u64 (i + size)) length (u8 (level w)) at_end w st
    end
  else Ok st.

(** A round goes on by a page at least. *)
Definition mm_early_refcount_alloced_map (virt_addr length : Z) (st : mm) : outcome mm :=
  t ← phys_to_virt cfg (root kernel_pagemap);
  p ← virt_to_page t st;
  st ← init_table_page p st;
  w ← ptwalker_create cfg kernel_pagemap virt_addr None None st;
  st ← init_unused_tables (levels_from (level w) w) (level w) w st;
  at_end ← was_at_end w;
  refcount_loop (S (Z.to_nat (length / PAGE_SIZE))) 0 length (u8 (level w)) at_end w st.
End early_ref.

(** ** What counting comes to *)
(** The walker at entry [i] of a lowest table in page [p]. *)
Record in_table (p t i : Z) (w : pt_walker unit) (st : mm) : Prop := {
  it_level : level w = 1;
  it_top : 1 <= top_level w;
  it_table : exists ts, tables w = Some t :: ts;
  it_index : exists is_, indices w = i :: is_;
  it_page : find_pfn (sections st) t = Some p;
}.
Definition counts (p r : Z) (st : mm) : Prop := exists pg, pages st !! p = Some pg /\ data pg = Table_page r.

Section early_ref.
Context (cfg : paging) (kernel_pagemap : pagemap).

Lemma set_data_twice p d d' st : (st ← page_set_data p d st; page_set_data p d' st) = page_set_data p d' st.
Proof.
  unfold page_set_data, update_page, get_page. destruct (pages st !! p) as [pg|] eqn:E; [|done].
  cbn. rewrite lookup_insert_eq. cbn. unfold set_pages. cbn. by rewrite insert_insert_eq.
Qed.

(** Every call starts the count of the root over: what an earlier call for
    another range counted there is lost. *)
Theorem refcounting_again_forgets_root virt_addr length p r st st' :
  find_pfn (sections st) (root kernel_pagemap) = Some p -> page_set_data p (Table_page r) st = Ok st' ->
  mm_early_refcount_alloced_map cfg kernel_pagemap virt_addr length st' =
  mm_early_refcount_alloced_map cfg kernel_pagemap virt_addr length st.
Proof.
  intros Hp Hset. unfold mm_early_refcount_alloced_map, phys_to_virt. destruct (check_add_assert _ _ _); [|done..].
  rewrite !outcome_bind_ok. unfold virt_to_page, phys_to_pfn.
  assert (sections st' = sections st) as ->.
  { unfold page_set_data, update_page in Hset. destruct (get_page p st); simplify_eq/=. done. }
  rewrite Hp, !outcome_bind_ok. unfold init_table_page.
  pose proof (set_data_twice p (Table_page r) (Table_page refcount_init) st) as E. rewrite Hset, outcome_bind_ok in E.
  by rewrite E.
Qed.

Lemma next_in_table p t i w st : in_table p t i w st -> 0 <= i < 511 ->
  exists w', ptwalker_next_with_options cfg w (u8 (level w)) false false false None None st = Ok (E_PT_WALKER_OK, w', st) /\
    in_table p t (i + 1) w' st.
Proof.
  intros [Hl Ht [ts Hts] [is_ Hi] Hp] Hb. unfold ptwalker_next_with_options. rewrite Hl. change (u8 1) with 1.
  replace ((1 >? 1) || (1 >? top_level w)) with false by (symmetry; apply orb_false_iff; split; [done|lia]).
  assert (get_index (1 - 1) w = Ok i) as -> by (unfold get_index; by rewrite Hi). rewrite outcome_bind_ok.
  rewrite (wrap_small 16) by (unfold_ints; lia).
  assert (set_index (1 - 1) (i + 1) w = Ok (with_indices (i + 1 :: is_) w)) as -> by (unfold set_index; by rewrite Hi).
  rewrite outcome_bind_ok, (proj2 (Z.ltb_lt (i + 1) PGT_PTE_COUNT)) by (unfold PGT_PTE_COUNT; lia).
  eexists. split; [done|]. split; cbn; eauto.
Qed.

Lemma count_ok p r st : counts p r st -> in_s 32 (r + 1) ->
  exists st', count_reference p st = Ok st' /\ counts p (r + 1) st' /\ sections st' = sections st /\ frames st' = frames st /\
    forall q, q <> p -> pages st' !! q = pages st !! q.
Proof.
  intros (pg & Hpg & Hd) Hr. unfold count_reference, table_refcount, page_set_data, update_page, get_page.
  rewrite Hpg. cbn. rewrite Hd. cbn. eexists. split; [done|]. cbn. split_and!; [|done..|].
  - exists (with_data (Table_page (i32 (r + 1))) pg). cbn. rewrite lookup_insert_eq. split; [done|]. f_equal.
    by apply swrap_small.
  - intros q Hq. by rewrite lookup_insert_ne.
Qed.

Lemma page_in_table p t i w st : in_table p t i w st -> page_at_level 1 w st = Ok p.
Proof.
  intros [_ _ [ts Hts] _ Hp]. unfold page_at_level, get_table. rewrite Hts.
  change (nth_entry (Some t :: ts) (1 - 1)) with (Ok (Some t)). rewrite outcome_bind_ok. unfold virt_to_page, phys_to_pfn.
  by rewrite Hp.
Qed.
Lemma end_of_table p t i w st : in_table p t i w st -> was_at_end w = Ok (i =? 511).
Proof. intros [Hl _ _ [is_ Hi] _]. unfold was_at_end, get_index. by rewrite Hl, Hi. Qed.

(** A range that one lowest table maps, from its entry [i] on: the table counts
    one reference for every page, those of the entries [i + 1] to [i + n]; no
    other page and no entry is changed. *)
Theorem refcount_loop_in_table n : forall fuel i j r at_end w p t st,
  in_table p t i w st -> 0 <= i -> i + Z.of_nat n <= 511 -> (n <= fuel)%nat -> 0 <= j -> j + Z.of_nat n * PAGE_SIZE < 2 ^ 64 ->
  (at_end = true -> n = 0%nat) ->
  counts p r st -> - 2 ^ 31 <= r -> r + Z.of_nat n < 2 ^ 31 ->
  exists st', refcount_loop cfg fuel j (j + Z.of_nat n * PAGE_SIZE) 1 at_end w st = Ok st' /\
    counts p (r + Z.of_nat n) st' /\ sections st' = sections st /\ frames st' = frames st /\
    forall q, q <> p -> pages st' !! q = pages st !! q.
Proof.
  change PAGE_SIZE with 4096.
  induction n as [|n IH]; intros fuel i j r at_end w p t st Hw Hi Hin Hf Hj Hjn Hend Hc Hr Hrn.
  - exists st. replace (j + Z.of_nat 0 * 4096) with j by lia. rewrite Z.add_0_r. destruct fuel; cbn [refcount_loop].
    all: by rewrite Z.ltb_irrefl.
  - destruct fuel as [|fuel]; [lia|]. cbn [refcount_loop]. rewrite (proj2 (Z.ltb_lt j _)) by lia.
    destruct (next_in_table _ _ _ _ _ Hw ltac:(lia)) as (w' & -> & Hw'). rewrite outcome_bind_ok.
    rewrite bool_decide_true by done. cbn [c_assert]. rewrite outcome_bind_ok. rewrite (it_level _ _ _ _ _ Hw').
    destruct at_end; [by specialize (Hend eq_refl)|]. cbn [orb]. replace (1 >? 1) with false by done. rewrite outcome_bind_ok.
    rewrite (page_in_table _ _ _ _ _ Hw'), outcome_bind_ok.
    destruct (count_ok p r st Hc) as (st1 & -> & Hc1 & Hs1 & Hf1 & Hq1); [unfold_ints; lia|]. rewrite outcome_bind_ok.
    change (PAGE_SIZE_AT_LEVEL 1) with (Ok 4096). rewrite outcome_bind_ok, (end_of_table _ _ _ _ _ Hw'), outcome_bind_ok.
    rewrite wrap_small by (unfold_ints; lia). change (u8 1) with 1.
    replace (j + Z.of_nat (S n) * 4096) with (j + 4096 + Z.of_nat n * 4096) by lia.
    assert (in_table p t (i + 1) w' st1) as Hw1 by (destruct Hw'; split; try done; by rewrite Hs1).
    destruct (IH fuel (i + 1) (j + 4096) (r + 1) (i + 1 =? 511) w' p t st1 Hw1) as (st2 & -> & Hc2 & Hs2 & Hf2 & Hq2); try lia; try done.
    exists st2. replace (r + Z.of_nat (S n)) with (r + 1 + Z.of_nat n) by lia. split; [done|]. split; [done|].
    split; [by rewrite Hs2|]. split; [by rewrite Hf2|]. intros q Hq. rewrite Hq2 by done. by apply Hq1.
Qed.
End early_ref.
