(* ===== verification/VirtioQueue.v ===== *)
(** * Virtio devices behind PCI: kernel/dev/virtio/{transport,device,queue/split}.c

    The operations of a transport are a record of functions, which is the [ops]
    member of a [struct virtio_device]; the other members are
    [virtio_device].  The machine [W] is behind accesses to mapped memory, as in
    Pci.v; pages and objects come from the heap of Slab.v, where a page stands for
    its address in the direct map too.  NULL is 0 for a pointer to device memory. *)
From S2P Require Import Prelude CArith Range PageAlloc Walker PgMap Slab Buffer Bitmap Vm Pci Endian.

(** ** structs.h *)
Definition common_device_feature_select : field := {| offsetof := 0; sizeof_field := 4 |}.
Definition common_device_feature : field := {| offsetof := 4; sizeof_field := 4 |}.
Definition common_driver_feature_select : field := {| offsetof := 8; sizeof_field := 4 |}.
Definition common_driver_feature : field := {| offsetof := 12; sizeof_field := 4 |}.
Definition common_device_status : field := {| offsetof := 20; sizeof_field := 1 |}.
Definition common_queue_select : field := {| offsetof := 22; sizeof_field := 2 |}.
Definition common_queue_size : field := {| offsetof := 24; sizeof_field := 2 |}.
Definition common_queue_enable : field := {| offsetof := 28; sizeof_field := 2 |}.
Definition common_queue_notify_off : field := {| offsetof := 30; sizeof_field := 2 |}.
Definition common_queue_desc : field := {| offsetof := 32; sizeof_field := 8 |}.
Definition common_queue_driver : field := {| offsetof := 40; sizeof_field := 8 |}.
Definition common_queue_device : field := {| offsetof := 48; sizeof_field := 8 |}.
Definition sizeof_virtio_pci_common_cfg : Z := 60.
Definition sizeof_virtq_desc : Z := 16.
Definition offsetof_desc_next : Z := 14.
Definition sizeof_virtq_used_elem : Z := 8.
Definition VIRTQ_MAX_DESC_COUNT : Z := 512.

(** ** device.h *)
(** The members of [union], of which [mapped] tells. *)
Record shmem_region := { shmem_mmio : option mmio_ptr; shmem_phys_range : range; shmem_id : Z; shmem_mapped : bool }.
Definition sizeof_shmem_region : Z := 24.
(** The bytes of a region that is not mapped; those of the padding are 0. *)
Definition shmem_region_bytes (r : shmem_region) : list Z :=
  le_bytes 8 (front (shmem_phys_range r)) ++ le_bytes 8 (size (shmem_phys_range r)) ++
  [shmem_id r; Z.b2z (shmem_mapped r)] ++ replicate 6 0.
Record virtio_split_queue := {
  desc_pages : Z; avail_page : Z; used_pages : Z; desc_pages_order : Z; used_pages_order : Z
}.
Definition sizeof_virtio_split_queue : Z := 32.

Record virtio_device := {
  common_cfg : Z;
  device_cfg : range;
  notify_queue_select : Z;
  shmem_regions : array;
  vendor_cfg_list : array;
  queue_list : option (Z * list virtio_split_queue);
  queue_count : Z;
  offset_pci_cfg : Z;
  offset_isr_cfg : Z;
  is_transitional : bool;
  kind : Z;
}.
Definition VIRTIO_DEVICE_INIT (trans : bool) (k : Z) : virtio_device :=
  {| common_cfg := 0; device_cfg := RANGE_EMPTY; notify_queue_select := 0; shmem_regions := array_init sizeof_shmem_region; vendor_cfg_list := array_init 1;
     queue_list := None; queue_count := 0; offset_pci_cfg := 0; offset_isr_cfg := 0; is_transitional := trans; kind := k |}.
Definition with_common_cfg (p : Z) (d : virtio_device) : virtio_device :=
  {| common_cfg := p; device_cfg := device_cfg d; notify_queue_select := notify_queue_select d;
     shmem_regions := shmem_regions d; vendor_cfg_list := vendor_cfg_list d; queue_list := queue_list d;
     queue_count := queue_count d; offset_pci_cfg := offset_pci_cfg d; offset_isr_cfg := offset_isr_cfg d;
     is_transitional := is_transitional d; kind := kind d |}.
Definition with_device_cfg (r : range) (d : virtio_device) : virtio_device :=
  {| common_cfg := common_cfg d; device_cfg := r; notify_queue_select := notify_queue_select d;
     shmem_regions := shmem_regions d; vendor_cfg_list := vendor_cfg_list d; queue_list := queue_list d;
     queue_count := queue_count d; offset_pci_cfg := offset_pci_cfg d; offset_isr_cfg := offset_isr_cfg d;
     is_transitional := is_transitional d; kind := kind d |}.
Definition with_notify (p : Z) (d : virtio_device) : virtio_device :=
  {| common_cfg := common_cfg d; device_cfg := device_cfg d; notify_queue_select := p;
     shmem_regions := shmem_regions d; vendor_cfg_list := vendor_cfg_list d; queue_list := queue_list d;
     queue_count := queue_count d; offset_pci_cfg := offset_pci_cfg d; offset_isr_cfg := offset_isr_cfg d;
     is_transitional := is_transitional d; kind := kind d |}.
Definition with_lists (shmem vendor : array) (d : virtio_device) : virtio_device :=
  {| common_cfg := common_cfg d; device_cfg := device_cfg d; notify_queue_select := notify_queue_select d;
     shmem_regions := shmem; vendor_cfg_list := vendor; queue_list := queue_list d;
     queue_count := queue_count d; offset_pci_cfg := offset_pci_cfg d; offset_isr_cfg := offset_isr_cfg d;
     is_transitional := is_transitional d; kind := kind d |}.
Definition with_queues (queues : option (Z * list virtio_split_queue)) (count : Z) (d : virtio_device) : virtio_device :=
  {| common_cfg := common_cfg d; device_cfg := device_cfg d; notify_queue_select := notify_queue_select d;
     shmem_regions := shmem_regions d; vendor_cfg_list := vendor_cfg_list d; queue_list := queues;
     queue_count := count; offset_pci_cfg := offset_pci_cfg d; offset_isr_cfg := offset_isr_cfg d;
     is_transitional := is_transitional d; kind := kind d |}.
Definition with_offsets (pci isr : Z) (d : virtio_device) : virtio_device :=
  {| common_cfg := common_cfg d; device_cfg := device_cfg d; notify_queue_select := notify_queue_select d;
     shmem_regions := shmem_regions d; vendor_cfg_list := vendor_cfg_list d; queue_list := queue_list d;
     queue_count := queue_count d; offset_pci_cfg := pci; offset_isr_cfg := isr;
     is_transitional := is_transitional d; kind := kind d |}.

(** ** transport.h *)
Record virtio_transport_ops {W : Type} := {
  read_device_status : virtio_device -> W -> outcome (Z * W);
  read_device_features : virtio_device -> W -> outcome (Z * W);
  write_device_status : virtio_device -> Z -> W -> outcome W;
  write_driver_features : virtio_device -> Z -> W -> outcome W;
  (** The bytes of the field: its offset and size. *)
  read_device_info : virtio_device -> Z -> Z -> W -> outcome (Z * W);
  write_device_info : virtio_device -> Z -> Z -> Z -> W -> outcome W;
  select_queue : virtio_device -> Z -> W -> outcome W;
  selected_queue_max_size : virtio_device -> W -> outcome (Z * W);
  set_selected_queue_size : virtio_device -> Z -> W -> outcome W;
  notify_queue : virtio_device -> Z -> W -> outcome (virtio_device * W);
  enable_selected_queue : virtio_device -> W -> outcome W;
  set_selected_queue_desc_phys : virtio_device -> Z -> W -> outcome W;
  set_selected_queue_driver_phys : virtio_device -> Z -> W -> outcome W;
  set_selected_queue_device_phys : virtio_device -> Z -> W -> outcome W;
}.
Arguments virtio_transport_ops : clear implicits.

(** ** transport.c *)
Section transport.
Context {W : Type}.
Context (mmio_read : Z -> Z -> W -> outcome (Z * W)) (mmio_write : Z -> Z -> Z -> W -> outcome W).

Definition read_common (d : virtio_device) (f : field) (w : W) : outcome (Z * W) :=
  mmio_read (sizeof_field f) (u64 (common_cfg d + offsetof f)) w.
Definition write_common (d : virtio_device) (f : field) (value : Z) (w : W) : outcome W :=
  mmio_write (sizeof_field f) (u64 (common_cfg d + offsetof f)) (wrap (8 * sizeof_field f) value) w.

Definition virtio_pci_read_device_status (d : virtio_device) (w : W) : outcome (Z * W) :=
  read_common d common_device_status w.
Definition virtio_pci_read_device_features (d : virtio_device) (w : W) : outcome (Z * W) :=
  w ← write_common d common_device_feature_select 0 w;
  '(lower, w) ← read_common d common_device_feature w;
  w ← write_common d common_device_feature_select 1 w;
  '(upper, w) ← read_common d common_device_feature w;
  Ok (Z.lor (u64 (Z.shiftl upper 32)) lower, w).
Definition virtio_pci_write_driver_features (d : virtio_device) (value : Z) (w : W) : outcome W :=
  w ← write_common d common_driver_feature_select 0 w;
  w ← write_common d common_driver_feature value w;
  w ← write_common d common_driver_feature_select 1 w;
  write_common d common_driver_feature (Z.shiftr value 32) w.
Definition virtio_pci_write_device_status (d : virtio_device) (status : Z) (w : W) : outcome W :=
  write_common d common_device_status status w.

Definition virtio_pci_read_device_info (d : virtio_device) (offset size : Z) (w : W) : outcome (Z * W) :=
  c_assert (negb (front (device_cfg d) =? 0));;
  c_assert (existsb (Z.eqb size) [1; 2; 4; 8]);;
  mmio_read size (u64 (front (device_cfg d) + offset)) w.
Definition virtio_pci_write_device_info (d : virtio_device) (offset size buf : Z) (w : W) : outcome W :=
  c_assert (negb (front (device_cfg d) =? 0));;
  c_assert (existsb (Z.eqb size) [1; 2; 4; 8]);;
  mmio_write size (u64 (front (device_cfg d) + offset)) buf w.

Definition virto_pci_select_queue (d : virtio_device) (queue : Z) (w : W) : outcome W :=
  write_common d common_queue_select (le_to_cpu W16 queue) w.
Definition virto_pci_selected_queue_max_size (d : virtio_device) (w : W) : outcome (Z * W) :=
  '(size, w) ← read_common d common_queue_size w; Ok (le_to_cpu W16 size, w).
Definition virto_pci_set_selected_queue_size (d : virtio_device) (size : Z) (w : W) : outcome W :=
  write_common d common_queue_size (cpu_to_le W16 size) w.
(** The access is to the member [notify_queue_select] itself, a pointer. *)
Definition virtio_pci_notify_queue (d : virtio_device) (index : Z) (w : W) : outcome (virtio_device * W) :=
  Ok (with_notify (cpu_to_le W16 index) d, w).
Definition virtio_pci_enable_selected_queue (d : virtio_device) (w : W) : outcome W :=
  write_common d common_queue_enable (cpu_to_le W16 1) w.
Definition virtio_pci_set_selected_queue_desc_phys (d : virtio_device) (phys : Z) (w : W) : outcome W :=
  write_common d common_queue_desc (cpu_to_le W64 phys) w.
Definition virtio_pci_set_selected_queue_driver_phys (d : virtio_device) (phys : Z) (w : W) : outcome W :=
  write_common d common_queue_driver (cpu_to_le W64 phys) w.
Definition virtio_pci_set_selected_queue_device_phys (d : virtio_device) (phys : Z) (w : W) : outcome W :=
  write_common d common_queue_device (cpu_to_le W64 phys) w.

Definition virtio_transport_ops_for_mmio : outcome (virtio_transport_ops W) := Panic.
Definition virtio_transport_ops_for_pci : virtio_transport_ops W :=
  {| read_device_status := virtio_pci_read_device_status;
     read_device_features := virtio_pci_read_device_features;
     write_device_status := virtio_pci_write_device_status;
     write_driver_features := virtio_pci_write_driver_features;
     read_device_info := virtio_pci_read_device_info;
     write_device_info := virtio_pci_write_device_info;
     select_queue := virto_pci_select_queue;
     selected_queue_max_size := virto_pci_selected_queue_max_size;
     set_selected_queue_size := virto_pci_set_selected_queue_size;
     notify_queue := virtio_pci_notify_queue;
     enable_selected_queue := virtio_pci_enable_selected_queue;
     set_selected_queue_desc_phys := virtio_pci_set_selected_queue_desc_phys;
     set_selected_queue_driver_phys := virtio_pci_set_selected_queue_driver_phys;
     set_selected_queue_device_phys := virtio_pci_set_selected_queue_device_phys |}.
End transport.

(** ** device.c *)
Definition virtio_device_shmem_region_map {H : Type} (vmap_mmio : range -> Z -> Z -> H -> outcome (option mmio_ptr * H))
    (r : shmem_region) (h : H) : outcome (bool * shmem_region * H) :=
  if shmem_mapped r then Ok (true, r, h)
  else
    '(mmio, h) ← vmap_mmio (shmem_phys_range r) (Z.lor PROT_READ PROT_WRITE) 0 h;
    match mmio with
    | None => Ok (false, r, h)
    | Some m =>
        Ok (true, {| shmem_mmio := Some m; shmem_phys_range := shmem_phys_range r; shmem_id := shmem_id r;
                     shmem_mapped := true |}, h)
    end.

(** ** queue/split.c *)

(** Two bytes at an even address. *)
Definition store16 (addr value : Z) (st : mm) : outcome mm :=
  entries ← deref (frames st !! addr_frame addr);
  w ← nth_entry entries (word_index addr);
  let shift := 8 * (addr `mod` 8) in
  entries ← set_entry (word_index addr) (Z.lor (Z.ldiff w (Z.shiftl 0xffff shift)) (Z.shiftl value shift)) entries;
  Ok (set_frames (<[addr_frame addr := entries]> (frames st)) st).
(** [iter->next = next_index] for [n] descriptors from [iter] on. *)
Fixpoint chain_descs (n : nat) (iter next_index : Z) (st : mm) : outcome mm :=
  match n with
  | O => store16 (iter + offsetof_desc_next) 0 st
  | S n =>
      st ← store16 (iter + offsetof_desc_next) next_index st;
      chain_descs n (iter + sizeof_virtq_desc) (u16 (next_index + 1)) st
  end.

(** What the device reads: a descriptor of the table at [table]. *)
Record virtq_desc := { phys_addr : Z; len : Z; desc_flags : Z; next : Z }.
Definition desc_at (table i : Z) (st : mm) : outcome virtq_desc :=
  addr ← load64 (table + sizeof_virtq_desc * i) st;
  rest ← load64 (table + sizeof_virtq_desc * i + 8) st;
  Ok {| phys_addr := addr; len := u32 rest; desc_flags := u16 (Z.shiftr rest 32); next := Z.shiftr rest 48 |}.

Section queue.
Context {W : Type} (ops : virtio_transport_ops W) (lock : lock_oracle).

(** The pages that a queue needs: [None] is the answer NULL of one of them, after
    the others are given back. *)
Definition alloc_queue_pages (desc_count : Z) (st : mm) : outcome (option virtio_split_queue * mm) :=
  let desc_pages_order := if sizeof_virtq_desc * desc_count >? PAGE_SIZE then 1 else 0 in
  '(desc, st) ← alloc_pages lock PAGE_STATE_USED __ALLOC_ZERO desc_pages_order st;
  match desc with
  | None => Ok (None, st)
  | Some desc =>
      '(avail, st) ← alloc_pages lock PAGE_STATE_USED __ALLOC_ZERO 0 st;
      match avail with
      | None => st ← free_pages desc desc_pages_order st; Ok (None, st)
      | Some avail =>
          let used_ring_size := u16 (2 * 3 + sizeof_virtq_used_elem * desc_count) in
          let used_pages_order := if used_ring_size >? PAGE_SIZE then 1 else 0 in
          '(used, st) ← alloc_pages lock PAGE_STATE_USED __ALLOC_ZERO used_pages_order st;
          match used with
          | None => st ← free_page avail st; st ← free_pages desc desc_pages_order st; Ok (None, st)
          | Some used =>
              Ok (Some {| desc_pages := desc; avail_page := avail; used_pages := used;
                          desc_pages_order := desc_pages_order; used_pages_order := used_pages_order |}, st)
          end
      end
  end.

(** A queue without descriptors makes [end] point in front of the pages. *)
Definition virtio_split_queue_init (d : virtio_device) (queue_index : Z) (w : W) (st : mm) :
    outcome (option virtio_split_queue * W * mm) :=
  w ← select_queue ops d queue_index w;
  '(max_size, w) ← selected_queue_max_size ops d w;
  let desc_count := if max_size <? VIRTQ_MAX_DESC_COUNT then max_size else VIRTQ_MAX_DESC_COUNT in
  '(queue, st) ← alloc_queue_pages desc_count st;
  match queue with
  | None => Ok (None, w, st)
  | Some queue =>
      desc_phys ← page_to_phys (desc_pages queue) st;
      w ← set_selected_queue_desc_phys ops d desc_phys w;
      avail_phys ← page_to_phys (avail_page queue) st;
      w ← set_selected_queue_driver_phys ops d avail_phys w;
      used_phys ← page_to_phys (used_pages queue) st;
      w ← set_selected_queue_device_phys ops d used_phys w;
      w ← enable_selected_queue ops d w;
      if desc_count =? 0 then Undef
      else
        st ← chain_descs (Z.to_nat (desc_count - 1)) (frame_addr (desc_pages queue)) 1 st;
        Ok (Some queue, w, st)
  end.

(** ** init.c: [virtio_device_init_queues] *)
Fixpoint init_queues (n : nat) (d : virtio_device) (index : Z) (queues : list virtio_split_queue) (w : W) (h : Slab.heap) :
    outcome (option (list virtio_split_queue) * W * Slab.heap) :=
  match n with
  | O => Ok (Some queues, w, h)
  | S n =>
      '(queue, w, st) ← virtio_split_queue_init d index w (hp_mm h);
      let h := set_mm st h in
      match queue with
      | None => Ok (None, w, h)
      | Some queue => init_queues n d (index + 1) (queues ++ [queue]) w h
      end
  end.
Definition virtio_device_init_queues (d : virtio_device) (count : Z) (w : W) (h : Slab.heap) :
    outcome (bool * virtio_device * W * Slab.heap) :=
  '(list_at, h) ← kmalloc lock (u32 (sizeof_virtio_split_queue * count)) h;
  match list_at with
  | None => Ok (false, d, w, h)
  | Some list_at =>
      '(queues, w, h) ← init_queues (Z.to_nat count) d 0 [] w h;
      match queues with
      | None => h ← kfree list_at h; Ok (false, d, w, h)
      | Some queues => Ok (true, with_queues (Some (list_at, queues)) (u8 count) d, w, h)
      end
  end.
End queue.
