(* ===== verification/Virtio.v ===== *)
(** * Virtio devices set up: kernel/dev/virtio/init.c and drivers/{block,scsi}.c

    What is printed is left out.  The [struct virtio_device] is a local variable of
    [init_from_pci], and its link is added to [g_device_list]: a node of the list
    is the variable of the call that runs ([Live]) or of one that has returned
    ([Dead]), which nothing may touch. *)
From Stdlib Require Import String.
From S2P Require Import Prelude CArith Range PageAlloc Slab Buffer Bitmap Vm Pci Endian VirtioQueue.

(** ** structs.h *)
Definition VIRTIO_DEVICE_KIND_NETWORK_CARD : Z := 1.
Definition VIRTIO_DEVICE_KIND_BLOCK_DEVICE : Z := 2.
Definition VIRTIO_DEVICE_KIND_CONSOLE : Z := 3.
Definition VIRTIO_DEVICE_KIND_ENTROPY_SRC : Z := 4.
Definition VIRTIO_DEVICE_KIND_MEM_BALLOON_TRAD : Z := 5.
Definition VIRTIO_DEVICE_KIND_SCSI_HOST : Z := 8.
Definition VIRTIO_DEVICE_KIND_9P_TRANSPORT : Z := 9.
Definition __VIRTIO_DEVSTATUS_ACKNOWLEDGE : Z := Z.shiftl 1 0.
Definition __VIRTIO_DEVSTATUS_DRIVER : Z := Z.shiftl 1 1.
Definition __VIRTIO_DEVSTATUS_DRIVER_OK : Z := Z.shiftl 1 2.
Definition __VIRTIO_DEVSTATUS_FEATURES_OK : Z := Z.shiftl 1 3.
Definition __VIRTIO_DEVSTATUS_FAILED : Z := Z.shiftl 1 7.
Definition __VIRTIO_DEVFEATURE_VERSION_1 : Z := Z.shiftl 1 32.
Definition __VIRTIO_BLOCK_HAS_SEG_MAX : Z := Z.shiftl 1 2.
Definition __VIRTIO_BLOCK_HAS_BLOCK_SIZE : Z := Z.shiftl 1 6.
Definition __VIRTIO_BLOCK_SUPPORTS_MULTI_QUEUE : Z := Z.shiftl 1 12.
Definition __VIRTIO_SCSI_HOTPLUG : Z := Z.shiftl 1 1.
Definition __VIRTIO_SCSI_CHANGE : Z := Z.shiftl 1 2.
Definition VIRTIO_PCI_CAP_COMMON_CFG : Z := 1.
Definition VIRTIO_PCI_CAP_NOTIFY_CFG : Z := 2.
Definition VIRTIO_PCI_CAP_ISR_CFG : Z := 3.
Definition VIRTIO_PCI_CAP_DEVICE_CFG : Z := 4.
Definition VIRTIO_PCI_CAP_PCI_CFG : Z := 5.
Definition VIRTIO_PCI_CAP_SHARED_MEMORY_CFG : Z := 8.
Definition VIRTIO_PCI_CAP_VENDOR_CFG : Z := 9.
Definition virtio_cap_len : field := {| offsetof := 2; sizeof_field := 1 |}.
Definition virtio_cap_cfg_type : field := {| offsetof := 3; sizeof_field := 1 |}.
Definition virtio_cap_bar : field := {| offsetof := 4; sizeof_field := 1 |}.
Definition virtio_cap_id : field := {| offsetof := 5; sizeof_field := 1 |}.
Definition virtio_cap_offset : field := {| offsetof := 8; sizeof_field := 4 |}.
Definition virtio_cap_length : field := {| offsetof := 12; sizeof_field := 4 |}.
Definition virtio_cap64_offset_hi : field := {| offsetof := 16; sizeof_field := 4 |}.
Definition virtio_cap64_length_hi : field := {| offsetof := 20; sizeof_field := 4 |}.
Definition notify_cap_off_multiplier : field := {| offsetof := 16; sizeof_field := 4 |}.
Definition sizeof_virtio_pci_cap : Z := 16.
Definition sizeof_virtio_pci_notify_cfg_cap : Z := 20.
Definition sizeof_virtio_pci_isr_cfg_cap : Z := 16.
Definition block_config_capacity : field := {| offsetof := 0; sizeof_field := 8 |}.
Definition scsi_config_num_queues : field := {| offsetof := 0; sizeof_field := 4 |}.
Definition VIRTIO_SCSI_QUEUE_MAX_COUNT : Z := 32.
Definition __PCI_DEVICE_PRIVL_BUS_MASTER : Z := Z.shiftl 1 2.

(** An entry that the array does not name is zeroed. *)
Definition device_kind_string : list (option string) :=
  [Some "reserved"; Some "network-card"; Some "block-device"; Some "entropy-source"; None; Some "memory-balloon-trad";
   Some "iomem"; Some "rpmsg"; Some "scsi-host"; Some "9p-transport"; Some "mac80211-wlan"; Some "rproc-serial";
   Some "virtio-caif"; Some "mem-baloon"; None; None; Some "gpu-device"; Some "timer-or-clock"; Some "input-device";
   Some "socker-device"; Some "crypto-device"; Some "signal-distribution-module"; Some "pstore-device";
   Some "iommu-device"; Some "audio-device"; None; Some "fs-device"; Some "pmem-device"; Some "rpmb-device";
   Some "mac80211-hwsim-wireless-simulator-device"; Some "video-encoder-device"; Some "video-decoder-device";
   Some "scmi-device"; Some "nitro-secure-model"; Some "i2c-adapter"; Some "watchdog"; Some "can-device"; None;
   Some "parameter-server"; Some "audio-policy-device"; Some "bluetooth-device"; Some "gpio-device";
   Some "rdma-device"]%string.

(** The transitional kinds; the order is that of the enumeration from 0x1000. *)
Definition transitional_kinds : list Z :=
  [VIRTIO_DEVICE_KIND_NETWORK_CARD; VIRTIO_DEVICE_KIND_BLOCK_DEVICE; VIRTIO_DEVICE_KIND_MEM_BALLOON_TRAD;
   VIRTIO_DEVICE_KIND_CONSOLE; VIRTIO_DEVICE_KIND_SCSI_HOST; VIRTIO_DEVICE_KIND_ENTROPY_SRC;
   VIRTIO_DEVICE_KIND_9P_TRANSPORT].
Definition transitional_kind (id : Z) : option Z :=
  if id <? 0x1000 then None else transitional_kinds !! Z.to_nat (id - 0x1000).
(** The kind of a device, [None] when it is refused. *)
Definition kind_of_device (id : Z) : outcome (option Z) :=
  match transitional_kind id with
  | Some k => Ok (Some k)
  | None =>
      device_id_range ← range_create_end 0x1040 0x107f;
      if negb (range_has_index device_id_range id) then Ok None
      else nth_entry device_kind_string id;; Ok (Some id)
  end.

(** ** The list of devices *)
Inductive device_node := Live | Dead.
Record virtio_state := { g_device_list : list device_node; g_device_count : Z }.
Definition list_add_device (node : device_node) (s : virtio_state) : outcome virtio_state :=
  match head (g_device_list s) with
  | Some Dead => Undef
  | _ => Ok {| g_device_list := node :: g_device_list s; g_device_count := u64 (g_device_count s + 1) |}
  end.
(** The call returns. *)
Definition leave (s : virtio_state) : virtio_state :=
  {| g_device_list := map (fun _ => Dead) (g_device_list s); g_device_count := g_device_count s |}.

Section virtio.
Context {W : Type} (lock : lock_oracle).
Context (port_in : Z -> Z -> W -> outcome (Z * W)) (port_out : Z -> Z -> Z -> W -> outcome W).
Context (mmio_read : Z -> Z -> W -> outcome (Z * W)) (mmio_write : Z -> Z -> Z -> W -> outcome W).
(** The heap as the arrays see it (Buffer.v), and mm/mmio.c, which is modelled in
    Vm.v. *)
Context (malloc_size : Z -> Slab.heap -> outcome (option (Z * list Z) * Slab.heap)) (free : Z -> Slab.heap -> outcome Slab.heap).
Context (vmap_mmio : range -> Z -> Z -> Slab.heap -> outcome (option mmio_ptr * Slab.heap)).
Context (mmio_region_get_range : mmio_ptr -> Slab.heap -> outcome range).

Abbreviation ops := (virtio_transport_ops_for_pci mmio_read mmio_write).

(** ** drivers/block.c and drivers/scsi.c *)
Definition read_info_field (d : virtio_device) (f : field) (w : W) : outcome (Z * W) :=
  read_device_info ops d (offsetof f) (sizeof_field f) w.
Definition virtio_driver_init_t : Type :=
  virtio_device -> Z -> W -> Slab.heap -> outcome (option device_node * virtio_device * W * Slab.heap).
Definition virtio_block_driver_init : virtio_driver_init_t := fun d features w h =>
  '(capacity, w) ← read_info_field d block_config_capacity w; Ok (None, d, w, h).
Definition virtio_scsi_driver_init : virtio_driver_init_t := fun d features w h =>
  '(num_queues, w) ← read_info_field d scsi_config_num_queues w;
  let queue_count := le_to_cpu W32 num_queues in
  let queue_count := if queue_count >? VIRTIO_SCSI_QUEUE_MAX_COUNT then VIRTIO_SCSI_QUEUE_MAX_COUNT else queue_count in
  '(_, d, w, h) ← virtio_device_init_queues ops lock d (u16 queue_count) w h;
  Ok (None, d, w, h).

(** ** init.c *)
Record virtio_driver_info := { driver_init : virtio_driver_init_t; virtqueue_count : Z; required_features : Z }.
Definition drivers : list (option virtio_driver_info) :=
  [None; None;
   Some {| driver_init := virtio_block_driver_init; virtqueue_count := 2;
           required_features := Z.lor (Z.lor __VIRTIO_BLOCK_HAS_SEG_MAX __VIRTIO_BLOCK_HAS_BLOCK_SIZE)
                                  __VIRTIO_BLOCK_SUPPORTS_MULTI_QUEUE |};
   None; None; None; None; None;
   Some {| driver_init := virtio_scsi_driver_init; virtqueue_count := 0;
           required_features := Z.lor __VIRTIO_SCSI_HOTPLUG __VIRTIO_SCSI_CHANGE |}].

(** Reads the status and writes it with [flags]. *)
Definition add_status (d : virtio_device) (flags : Z) (w : W) : outcome (Z * W) :=
  '(status, w) ← read_device_status ops d w;
  w ← write_device_status ops d (Z.lor status flags) w; Ok (status, w).

(** Steps 5 and 6: the answer [false] is that the device refused. *)
Definition accept_features (d : virtio_device) (features : Z) (w : W) : outcome (bool * W) :=
  if Z.land features __VIRTIO_DEVFEATURE_VERSION_1 =? 0 then Ok (true, w)
  else
    '(_, w) ← add_status d __VIRTIO_DEVSTATUS_FEATURES_OK w;
    '(status, w) ← read_device_status ops d w;
    Ok (negb (Z.land status __VIRTIO_DEVSTATUS_FEATURES_OK =? 0), w).

Definition virtio_pci_init (d : virtio_device) (w : W) (h : Slab.heap) (s : virtio_state) :
    outcome (option device_node * virtio_device * W * Slab.heap * virtio_state) :=
  driver ← nth_entry drivers (kind d);
  match driver with
  | None => Ok (None, d, w, h, s)
  | Some driver =>
      w ← write_device_status ops d 0 w;
      '(_, w) ← add_status d __VIRTIO_DEVSTATUS_ACKNOWLEDGE w;
      '(_, w) ← add_status d __VIRTIO_DEVSTATUS_DRIVER w;
      '(features, w) ← read_device_features ops d w;
      if negb (Z.land features (required_features driver) =? required_features driver) then Ok (None, d, w, h, s)
      else
        w ← write_driver_features ops d features w;
        '(accepted, w) ← accept_features d features w;
        if negb accepted then Ok (None, d, w, h, s)
        else
          '(status, w) ← add_status d __VIRTIO_DEVSTATUS_DRIVER_OK w;
          let failed := Z.lor status __VIRTIO_DEVSTATUS_FAILED in
          '(ok, d, w, h) ←
            (if negb (virtqueue_count driver =? 0) then virtio_device_init_queues ops lock d (virtqueue_count driver) w h
             else Ok (true, d, w, h));
          if negb ok then w ← write_device_status ops d failed w; Ok (None, d, w, h, s)
          else
            '(ret_device, d, w, h) ← driver_init driver d features w h;
            match ret_device with
            | None => w ← write_device_status ops d failed w; Ok (None, d, w, h, s)
            | Some node => s ← list_add_device node s; Ok (Some node, d, w, h, s)
            end
  end.

(** *** The capabilities *)
Record caps_state := {
  cs_device : virtio_device; cs_pci : pci_device_info; notify_cfg_range : range; notify_off_multiplier : Z
}.
Definition set_device (d : virtio_device) (c : caps_state) : caps_state :=
  {| cs_device := d; cs_pci := cs_pci c; notify_cfg_range := notify_cfg_range c;
     notify_off_multiplier := notify_off_multiplier c |}.
Definition set_pci (p : pci_device_info) (c : caps_state) : caps_state :=
  {| cs_device := cs_device c; cs_pci := p; notify_cfg_range := notify_cfg_range c;
     notify_off_multiplier := notify_off_multiplier c |}.

Abbreviation read_cap c iter f w :=
  (pci_read_with_offset port_in port_out mmio_read (cs_pci c) iter f w).

(** The switch over [cfg_type]. *)
Definition take_capability (iter cap_len cfg_type : Z) (bar : pci_device_bar_info) (offset length : Z) (c : caps_state)
    (w : W) (h : Slab.heap) : outcome (caps_state * W * Slab.heap) :=
  let d := cs_device c in
  if cfg_type =? VIRTIO_PCI_CAP_COMMON_CFG then
    if length <? sizeof_virtio_pci_common_cfg then Ok (c, w, h)
    else
      m ← deref (bar_mmio bar);
      Ok (set_device (with_common_cfg (u64 (region_base m + offset)) d) c, w, h)
  else if cfg_type =? VIRTIO_PCI_CAP_NOTIFY_CFG then
    if cap_len <? sizeof_virtio_pci_notify_cfg_cap then Ok (c, w, h)
    else
      '(multiplier, w) ← read_cap c iter notify_cap_off_multiplier w;
      m ← deref (bar_mmio bar);
      let select := u64 (region_base m + offset) in
      Ok ({| cs_device := with_notify select d; cs_pci := cs_pci c; notify_cfg_range := RANGE_INIT select length;
             notify_off_multiplier := multiplier |}, w, h)
  else if cfg_type =? VIRTIO_PCI_CAP_ISR_CFG then
    if cap_len <? sizeof_virtio_pci_isr_cfg_cap then Ok (c, w, h)
    else Ok (set_device (with_offsets (offset_pci_cfg d) iter d) c, w, h)
  else if cfg_type =? VIRTIO_PCI_CAP_DEVICE_CFG then
    m ← deref (bar_mmio bar);
    Ok (set_device (with_device_cfg (RANGE_INIT (u64 (region_base m + offset)) length) d) c, w, h)
  else if cfg_type =? VIRTIO_PCI_CAP_PCI_CFG then
    if cap_len <? sizeof_virtio_pci_cap then Ok (c, w, h)
    else Ok (set_device (with_offsets iter (offset_isr_cfg d) d) c, w, h)
  else if cfg_type =? VIRTIO_PCI_CAP_SHARED_MEMORY_CFG then
    '(offset_hi, w) ← read_cap c iter virtio_cap64_offset_hi w;
    '(length_hi, w) ← read_cap c iter virtio_cap64_length_hi w;
    '(id, w) ← read_cap c iter virtio_cap_id w;
    let offset := Z.lor offset (u64 (Z.shiftl offset_hi 32)) in
    let length := Z.lor length (u64 (Z.shiftl length_hi 32)) in
    let region := {| shmem_mmio := None; shmem_phys_range := RANGE_INIT offset length; shmem_id := id;
                     shmem_mapped := false |} in
    '(_, regions, h) ← array_append malloc_size free (shmem_regions d) (shmem_region_bytes region) h;
    Ok (set_device (with_lists regions (vendor_cfg_list d) d) c, w, h)
  else if cfg_type =? VIRTIO_PCI_CAP_VENDOR_CFG then
    '(_, vendor, h) ← array_append malloc_size free (vendor_cfg_list d) [iter] h;
    Ok (set_device (with_lists (shmem_regions d) vendor d) c, w, h)
  else Ok (c, w, h).

(** One round of [array_foreach]. *)
Definition read_capability (iter : Z) (c : caps_state) (w : W) (h : Slab.heap) : outcome (caps_state * W * Slab.heap) :=
  '(cap_len, w) ← read_cap c iter virtio_cap_len w;
  if cap_len <? sizeof_virtio_pci_cap then Ok (c, w, h)
  else
    '(bar_index, w) ← read_cap c iter virtio_cap_bar w;
    if negb (index_in_bounds bar_index (max_bar_count (cs_pci c))) then Ok (c, w, h)
    else
      bar ← nth_entry (bar_list (cs_pci c)) bar_index;
      if negb (is_present bar) then Ok (c, w, h)
      else
        '(mapped, bar, h) ← (if is_mmio bar then pci_map_bar vmap_mmio bar h else Ok (true, bar, h));
        bars ← set_entry bar_index bar (bar_list (cs_pci c));
        let c := set_pci (with_bars (max_bar_count (cs_pci c)) bars (cs_pci c)) c in
        if negb mapped then Ok (c, w, h)
        else
          '(cfg_type, w) ← read_cap c iter virtio_cap_cfg_type w;
          '(offset, w) ← read_cap c iter virtio_cap_offset w;
          '(length, w) ← read_cap c iter virtio_cap_length w;
          let index_range := RANGE_INIT offset length in
          io_range ← (if is_mmio bar then m ← deref (bar_mmio bar); mmio_region_get_range m h
                      else Ok (port_or_phys_range bar));
          if negb (range_has_index_range io_range index_range) then Ok (c, w, h)
          else
            '(c, w, h) ← take_capability iter cap_len cfg_type bar offset length c w h;
            Ok (c, w, h).
Fixpoint read_capabilities (caps : list Z) (c : caps_state) (w : W) (h : Slab.heap) : outcome (caps_state * W * Slab.heap) :=
  match caps with
  | [] => Ok (c, w, h)
  | iter :: caps => '(c, w, h) ← read_capability iter c w h; read_capabilities caps c w h
  end.

(** The place to notify; [None] when it is outside of the capability. *)
Definition find_notify (c : caps_state) (w : W) : outcome (option virtio_device * W) :=
  let d := cs_device c in
  if notify_queue_select d =? 0 then Ok (Some d, w)
  else
    '(notify_offset, w) ← read_common mmio_read d common_queue_notify_off w;
    let '(ok, full_off) := check_mul 16 (notify_off_multiplier c) (le_to_cpu W16 notify_offset) in
    if negb ok then Ok (None, w)
    else if negb (range_has_index (notify_cfg_range c) full_off) then Ok (None, w)
    else Ok (Some (with_notify (u64 (notify_queue_select d + full_off)) d), w).

Definition init_from_pci (p : pci_device_info) (w : W) (h : Slab.heap) (s : virtio_state) :
    outcome (pci_device_info * W * Slab.heap * virtio_state) :=
  device_kind ← kind_of_device (dev_id p);
  match device_kind with
  | None => Ok (p, w, h, s)
  | Some device_kind =>
      let is_trans := revision_id p =? 0 in
      count ← array_item_count (vendor_cap_list p);
      if u8 count =? 0 then Ok (p, w, h, s)
      else
        let d := VIRTIO_DEVICE_INIT is_trans device_kind in
        w ← pci_device_enable_privl port_in port_out mmio_read mmio_write p __PCI_DEVICE_PRIVL_BUS_MASTER w;
        c_assert (object_size (vendor_cap_list p) =? 1);;
        caps ← read_bytes (gb_data (gbuffer (vendor_cap_list p))) 0 count;
        '(c, w, h) ← read_capabilities caps
          {| cs_device := d; cs_pci := p; notify_cfg_range := RANGE_EMPTY; notify_off_multiplier := 0 |} w h;
        let p := cs_pci c in
        if common_cfg (cs_device c) =? 0 then Ok (p, w, h, s)
        else
          '(d, w) ← find_notify c w;
          match d with
          | None => Ok (p, w, h, s)
          | Some d =>
              '(_, d, w, h, s) ← virtio_pci_init d w h s;
              s ← list_add_device Live s;
              Ok (p, w, h, leave s)
          end
  end.
End virtio.
