(* ===== verification/VirtioThms.v ===== *)
(** * What a virtio device is told

    [CommonCfgHost] is a device whose common configuration is mapped: a register
    for each queue behind the one that selects it.  The pages come from the page
    allocator itself. *)
From S2P Require Import Prelude CArith Range PageAlloc PageBlocks PageAllocInv PageAllocThms Slab SlabInv Walker WalkerInv PgMap PgTables PgAlloc PgMapThms Vm Pci VirtioQueue Virtio.

(** ** Descriptors in memory *)
Lemma word_of_desc k i : (16 * k + 16 * i + 14) / 8 = 2 * (k + i) + 1.
Proof. symmetry. apply (Z.div_unique _ _ _ 6); lia. Qed.

Lemma store16_ok addr v st : mapped st addr -> addr `mod` 8 = 6 -> load64 addr st = Ok 0 ->
  exists st', store16 addr v st = Ok st' /\ same_but_words st st' /\
    forall x, load64 x st' = if x / 8 =? addr / 8 then Ok (Z.shiftl v 48) else load64 x st.
Proof.
  intros (es & He & Hl) Ha Hz. pose proof Hz as Hw. unfold load64 in Hw. rewrite He in Hw. cbn in Hw.
  unfold store16. rewrite He. cbn [deref mbind outcome_bind]. rewrite Hw, outcome_bind_ok, Ha. change (8 * 6) with 48.
  assert (Z.lor (Z.ldiff 0 (Z.shiftl 0xffff 48)) (Z.shiftl v 48) = Z.shiftl v 48) as -> by done.
  pose proof (fun x => word_written st addr es (Z.shiftl v 48) x He Hl) as H. cbv zeta in H.
  destruct (H addr) as (-> & Hs & _). rewrite outcome_bind_ok. eexists. split; [done|]. split; [done|]. intros x. apply (H x).
Qed.

(** The words behind descriptors [0] to [n] of a table at [16 * k], the first of
    which gets [next]. *)
Lemma chain_ok n : forall k nxt st, 0 <= nxt -> nxt + Z.of_nat n < 2 ^ 16 ->
  (forall i, 0 <= i <= Z.of_nat n -> mapped st (16 * k + 16 * i + 14) /\ load64 (16 * k + 16 * i + 14) st = Ok 0) ->
  exists st', chain_descs n (16 * k) nxt st = Ok st' /\ same_but_words st st' /\
    (forall i, 0 <= i <= Z.of_nat n ->
       load64 (16 * k + 16 * i + 14) st' = Ok (Z.shiftl (if i =? Z.of_nat n then 0 else nxt + i) 48)) /\
    (forall x, (forall i, 0 <= i <= Z.of_nat n -> x / 8 <> 2 * (k + i) + 1) -> load64 x st' = load64 x st).
Proof.
  induction n as [|n IH]; intros k nxt st Hn Hb Hm.
  - destruct (Hm 0 ltac:(lia)) as [M0 L0]. replace (16 * k + 16 * 0 + 14) with (16 * k + 14) in * by lia.
    assert ((16 * k + 14) `mod` 8 = 6) as Ha by (symmetry; apply (Z.mod_unique _ _ (2 * k + 1)); lia).
    destruct (store16_ok _ 0 st M0 Ha L0) as (st' & E & S & L). exists st'. split; [done|]. split; [done|].
    pose proof (word_of_desc k 0) as W. replace (16 * k + 16 * 0 + 14) with (16 * k + 14) in W by lia. split.
    + intros i Hi. assert (i = 0) as -> by lia. replace (16 * k + 16 * 0 + 14) with (16 * k + 14) by lia.
      by rewrite L, Z.eqb_refl.
    + intros x Hx. rewrite L, W, (proj2 (Z.eqb_neq _ _)); [done|]. apply Hx. lia.
  - destruct (Hm 0 ltac:(lia)) as [M0 L0]. replace (16 * k + 16 * 0 + 14) with (16 * k + 14) in * by lia.
    assert ((16 * k + 14) `mod` 8 = 6) as Ha by (symmetry; apply (Z.mod_unique _ _ (2 * k + 1)); lia).
    destruct (store16_ok _ nxt st M0 Ha L0) as (st1 & E & S & L).
    pose proof (word_of_desc k 0) as W. replace (16 * k + 16 * 0 + 14) with (16 * k + 14) in W by lia.
    cbn [chain_descs]. unfold offsetof_desc_next, sizeof_virtq_desc. rewrite E, outcome_bind_ok.
    rewrite wrap_small by (unfold_ints; lia). replace (16 * k + 16) with (16 * (k + 1)) by lia.
    destruct (IH (k + 1) (nxt + 1) st1) as (st2 & -> & S2 & L2 & K2); [lia..| |].
    { intros i Hi. destruct (Hm (i + 1) ltac:(lia)) as [Mi Li].
      replace (16 * (k + 1) + 16 * i + 14) with (16 * k + 16 * (i + 1) + 14) by lia. split; [by apply S|].
      rewrite L, W, word_of_desc, (proj2 (Z.eqb_neq _ _)) by lia. done. }
    exists st2. split; [done|]. split; [by eapply same_words_trans|]. split.
    + intros i Hi. destruct (decide (i = 0)) as [->|].
      * replace (16 * k + 16 * 0 + 14) with (16 * k + 14) by lia. rewrite K2 by (intros j Hj; rewrite W; lia).
        rewrite L, Z.eqb_refl. rewrite (proj2 (Z.eqb_neq 0 _)) by lia. by rewrite Z.add_0_r.
      * replace (16 * k + 16 * i + 14) with (16 * (k + 1) + 16 * (i - 1) + 14) by lia. rewrite L2 by lia.
        f_equal. f_equal. zcases; lia.
    + intros x Hx. rewrite K2 by (intros j Hj Hj'; apply (Hx (j + 1)); lia). rewrite L, W, (proj2 (Z.eqb_neq _ _)); [done|].
      apply (Hx 0). lia.
Qed.

Lemma load64_word x y st : x / 8 = y / 8 -> load64 x st = load64 y st.
Proof.
  rewrite !word_address. intros E. pose proof (word_index_bounds x). pose proof (word_index_bounds y).
  unfold load64. replace (addr_frame y) with (addr_frame x) by lia. by replace (word_index y) with (word_index x) by lia.
Qed.

(** [n] pages of zeros from [p] on. *)
Definition zeros (st : mm) (p n : Z) : Prop := forall q, p <= q < p + n -> frames st !! q = Some (replicate 512 0).
Lemma zeros_load st p n a : zeros st p n -> frame_addr p <= a < frame_addr (p + n) -> mapped st a /\ load64 a st = Ok 0.
Proof.
  unfold frame_addr. change PAGE_SIZE with 4096. intros Hz Ha.
  assert (p <= addr_frame a < p + n) as Hf.
  { unfold addr_frame. change PAGE_SIZE with 4096. split; [apply Z.div_le_lower_bound|apply Z.div_lt_upper_bound]; lia. }
  pose proof (Hz _ Hf) as E. pose proof (word_index_bounds a). split.
  - exists (replicate 512 0). by rewrite length_replicate.
  - unfold load64. rewrite E. cbn [deref mbind outcome_bind]. unfold nth_entry.
    rewrite (proj2 (Z.ltb_ge _ 0)) by lia. by rewrite lookup_replicate_2 by lia.
Qed.

(** The low bits of a number that was shifted past them. *)
Lemma low_zero v k j : 0 <= j <= k -> Z.land (Z.shiftl v k) (Z.ones j) = 0.
Proof.
  intros Hj. apply Z.bits_inj'. intros i Hi. rewrite Z.land_spec, Z.bits_0. destruct (Z.ltb_spec i j).
  - rewrite Z.shiftl_spec_low by lia. done.
  - rewrite Z.ones_spec_high by lia. by rewrite andb_false_r.
Qed.

Definition next_desc (n i : Z) : Z := if i =? n - 1 then 0 else i + 1.
(** What [virtio_split_queue_init] makes of the pages of the table. *)
Lemma descs_chained n p st o : 0 < n <= 512 -> zeros st p (2 ^ o) -> 0 <= o -> 16 * n <= 4096 * 2 ^ o ->
  exists st', chain_descs (Z.to_nat (n - 1)) (frame_addr p) 1 st = Ok st' /\ (exists fr, st' = set_frames fr st) /\
    (forall i, 0 <= i < n -> desc_at (frame_addr p) i st' =
       Ok {| phys_addr := 0; len := 0; desc_flags := 0; next := next_desc n i |}) /\
    (forall q, ~ p <= q < p + 2 ^ o -> forall a, addr_frame a = q -> load64 a st' = load64 a st).
Proof.
  intros Hn Hz Ho Hfit. unfold frame_addr. change PAGE_SIZE with 4096. replace (4096 * p) with (16 * (256 * p)) by lia.
  assert (forall i, 0 <= i < n -> forall b, 0 <= b < 16 ->
    mapped st (16 * (256 * p) + 16 * i + b) /\ load64 (16 * (256 * p) + 16 * i + b) st = Ok 0) as Hd.
  { intros i Hi b Hb. apply (zeros_load st p (2 ^ o)); [done|]. unfold frame_addr. change PAGE_SIZE with 4096. lia. }
  destruct (chain_ok (Z.to_nat (n - 1)) (256 * p) 1 st) as (st' & E & [Hfr _] & L & K); [lia|lia| |].
  { intros i Hi. apply Hd; lia. }
  exists st'. split; [done|]. split; [done|]. rewrite Z2Nat.id in L, K by lia. split.
  - intros i Hi. unfold desc_at, sizeof_virtq_desc.
    rewrite (K (16 * (256 * p) + 16 * i)).
    + replace (16 * (256 * p) + 16 * i) with (16 * (256 * p) + 16 * i + 0) at 1 by lia.
      rewrite (proj2 (Hd i Hi 0 ltac:(lia))), outcome_bind_ok.
      rewrite (load64_word _ (16 * (256 * p) + 16 * i + 14)).
      * rewrite L by lia. rewrite outcome_bind_ok. set (v := if i =? n - 1 then 0 else 1 + i).
        replace (next_desc n i) with v by (unfold v, next_desc; zcases; lia).
        assert (0 <= v < 2 ^ 16) as Hv by (unfold v; zcases; lia). clearbody v. f_equal. f_equal.
        -- unfold wrap. rewrite <- Z.land_ones by lia. by rewrite low_zero.
        -- rewrite Z.shiftr_shiftl_l by lia. unfold wrap. rewrite <- Z.land_ones by lia. by rewrite low_zero.
        -- by rewrite Z.shiftr_shiftl_l, Z.shiftl_0_r by lia.
      * rewrite word_of_desc. symmetry. apply (Z.div_unique _ _ _ 0); lia.
    + intros j Hj. replace ((16 * (256 * p) + 16 * i) / 8) with (2 * (256 * p + i)); [lia|].
      apply (Z.div_unique _ _ _ 0); lia.
  - intros q Hq a Ha. apply K. intros j Hj E1. apply Hq. rewrite <- Ha.
    assert (addr_frame a * 512 <= a / 8 < addr_frame a * 512 + 512) as Hf.
    { rewrite word_address. pose proof (word_index_bounds a). lia. }
    lia.
Qed.

(** ** The pages of a queue *)
Lemma page_to_phys_layout p st st' : layout st' = layout st -> page_to_phys p st' = page_to_phys p st.
Proof.
  intros E. injection E as Es Ep Ee. unfold page_to_phys, page_to_section, get_page, get_section. rewrite Ee.
  destruct (c_assert _); [|done..]. cbn [mbind outcome_bind].
  assert (section <$> pages st' !! p = section <$> pages st !! p) as Hp by (rewrite <- !lookup_fmap; by rewrite Ep).
  destruct (pages st' !! p) as [pg'|], (pages st !! p) as [pg|]; simplify_eq/=; [|done]. rewrite Hp.
  assert (place <$> sections st' !! section pg = place <$> sections st !! section pg) as Hs
    by (rewrite <- !list_lookup_fmap; by rewrite Es).
  destruct (sections st' !! section pg) as [x|], (sections st !! section pg) as [y|]; simplify_eq/=; [|done].
  repeat match goal with E : _ x = _ y |- _ => rewrite E; clear E end. done.
Qed.

(** A block of zeros that was free: its place in memory, and what else changes. *)
Record block_taken (o p phys : Z) (st st' : mm) : Prop := {
  bt_ready : buddy_ready st';
  bt_layout : layout st' = layout st;
  bt_free : forall j q, mm_free st' j q <-> mm_free st j q /\ ~ in_block o p q;
  bt_was : forall q, in_block o p q -> exists i, mm_free st i q;
  bt_zero : zeros st' p (2 ^ o);
  bt_frames : forall q, ~ in_block o p q -> frames st' !! q = frames st !! q;
  bt_phys : page_to_phys p st' = Ok phys;
  bt_page : find_pfn (sections st') phys = Some p /\ phys `mod` PAGE_SIZE = 0 /\ in_u 64 phys;
}.
Lemma alloc_used_ok lock o st p st' : buddy_ready st -> 0 <= o ->
  alloc_pages lock PAGE_STATE_USED __ALLOC_ZERO o st = Ok (Some p, st') -> exists phys, block_taken o p phys st st'.
Proof.
  intros (Hwf & Hph & Hp) Ho E. pose proof (alloc_pages_layout lock PAGE_STATE_USED __ALLOC_ZERO o st _ _ E) as HL.
  destruct (alloc_pages_ok lock PAGE_STATE_USED __ALLOC_ZERO o st Hwf Ho allocatable_used)
    as [[E' _]|(p1 & st1 & E' & A & H)]; rewrite E in E'; [done|]. injection E' as <- <-.
  pose proof (al_wf _ _ _ _ _ A) as Hwf'. pose proof (layout_phys _ _ HL Hph) as Hph'. pose proof (layout_places _ _ HL Hp) as Hp'.
  destruct (allocated_section lock o p st st' Hwf Ho A) as (i & s & Hs & B1 & B2 & Hfree & _).
  pose proof (pow2_pos o Ho).
  assert (in_section s p) as Hin by (unfold in_section; lia).
  destruct (page_to_phys_ok st' i s p Hwf' Hph' Hs Hin) as [Ephys Hu].
  destruct (find_pfn_phys st' i s p Hph' Hp' Hs Hin) as (F1 & F2 & F3).
  exists (phys_of s p). destruct H as [_ _ Hz Hfr]. change (zeroed PAGE_STATE_USED __ALLOC_ZERO o) with (2 ^ o) in *.
  split; try done.
  - by apply (al_free _ _ _ _ _ A).
  - intros q Hq. exists i. by apply Hfree.
Qed.
Lemma taken_apart o p phys o' p' phys' st st1 st2 : block_taken o p phys st st1 -> block_taken o' p' phys' st1 st2 ->
  forall q, in_block o p q -> ~ in_block o' p' q.
Proof.
  intros B B' q Hq Hq'. destruct (bt_was _ _ _ _ _ B' q Hq') as (i & Hi). by apply (bt_free _ _ _ _ _ B) in Hi as [_ ?].
Qed.
Lemma zeros_kept o p phys st st' p1 n : zeros st p1 n -> block_taken o p phys st st' ->
  (forall q, p1 <= q < p1 + n -> ~ in_block o p q) -> zeros st' p1 n.
Proof. intros Hz B Hd q Hq. rewrite (bt_frames _ _ _ _ _ B) by auto. by apply Hz. Qed.

(** ** The device *)
Class CommonCfgHost {W : Type} (mmio_read : Z -> Z -> W -> outcome (Z * W)) (mmio_write : Z -> Z -> Z -> W -> outcome W)
    (base : Z) := {
  cfg_ok : W -> Prop;
  q_selected : W -> Z;
  (** The register of a queue at an offset. *)
  q_reg : W -> Z -> Z -> Z;
  size_range w q : cfg_ok w -> in_u 16 (q_reg w q (offsetof common_queue_size));
  select_law w q : cfg_ok w -> in_u 16 q -> exists w',
    mmio_write 2 (u64 (base + offsetof common_queue_select)) q w = Ok w' /\ cfg_ok w' /\ q_selected w' = q /\
    forall q' r, q_reg w' q' r = q_reg w q' r;
  size_law w : cfg_ok w -> exists w',
    mmio_read 2 (u64 (base + offsetof common_queue_size)) w = Ok (q_reg w (q_selected w) (offsetof common_queue_size), w') /\
    cfg_ok w' /\ q_selected w' = q_selected w /\ forall q' r, q_reg w' q' r = q_reg w q' r;
  write_law w f v : cfg_ok w -> f ∈ [common_queue_desc; common_queue_driver; common_queue_device; common_queue_enable] ->
    in_u (8 * sizeof_field f) v -> exists w',
    mmio_write (sizeof_field f) (u64 (base + offsetof f)) v w = Ok w' /\ cfg_ok w' /\ q_selected w' = q_selected w /\
    forall q' r, q_reg w' q' r = if decide (q' = q_selected w /\ r = offsetof f) then v else q_reg w q' r;
}.

(** The orders that [virtio_split_queue_init] asks for. *)
Definition desc_order (n : Z) : Z := if sizeof_virtq_desc * n >? PAGE_SIZE then 1 else 0.
Definition used_order (n : Z) : Z := if 6 + sizeof_virtq_used_elem * n >? PAGE_SIZE then 1 else 0.

(** The pages are found. *)
Record found_pages (lock : lock_oracle) (n : Z) (st : mm) (desc avail used : Z) (s1 s2 s3 : mm) : Prop := {
  fp_desc : alloc_pages lock PAGE_STATE_USED __ALLOC_ZERO (desc_order n) st = Ok (Some desc, s1);
  fp_avail : alloc_pages lock PAGE_STATE_USED __ALLOC_ZERO 0 s1 = Ok (Some avail, s2);
  fp_used : alloc_pages lock PAGE_STATE_USED __ALLOC_ZERO (used_order n) s2 = Ok (Some used, s3);
}.
(** What is in memory then: the three blocks were free and are apart, the tables
    are zeros but for the chain, and nothing else has been taken. *)
Record queue_memory (n : Z) (st st' : mm) (queue : virtio_split_queue) : Prop := {
  qm_ready : buddy_ready st';
  qm_sections : layout st' = layout st;
  qm_orders : desc_pages_order queue = desc_order n /\ used_pages_order queue = used_order n;
  qm_free : forall j q, mm_free st' j q <-> mm_free st j q /\ ~ in_block (desc_order n) (desc_pages queue) q /\
    ~ in_block 0 (avail_page queue) q /\ ~ in_block (used_order n) (used_pages queue) q;
  qm_was : forall q, in_block (desc_order n) (desc_pages queue) q \/ in_block 0 (avail_page queue) q \/
    in_block (used_order n) (used_pages queue) q -> exists i, mm_free st i q;
  qm_apart : forall q, in_block 0 (avail_page queue) q ->
    ~ in_block (desc_order n) (desc_pages queue) q /\ ~ in_block (used_order n) (used_pages queue) q;
  qm_apart' : forall q, in_block (used_order n) (used_pages queue) q -> ~ in_block (desc_order n) (desc_pages queue) q;
  qm_descs : forall i, 0 <= i < n -> desc_at (frame_addr (desc_pages queue)) i st' =
    Ok {| phys_addr := 0; len := 0; desc_flags := 0; next := next_desc n i |};
  qm_avail : forall a, addr_frame a = avail_page queue -> load64 a st' = Ok 0;
  qm_used : forall a, in_block (used_order n) (used_pages queue) (addr_frame a) -> load64 a st' = Ok 0;
}.

Lemma orders_ok n : 0 < n <= 512 -> 0 <= desc_order n <= 1 /\ 0 <= used_order n <= 1 /\ 16 * n <= 4096 * 2 ^ desc_order n.
Proof.
  intros Hn. unfold desc_order, used_order, sizeof_virtq_desc. change PAGE_SIZE with 4096.
  rewrite !Z.gtb_ltb. split_and!; zcases; lia.
Qed.

Lemma set_frames_ready st fr : buddy_ready st -> buddy_ready (set_frames fr st).
Proof.
  intros (H1 & H2 & H3). split_and!; [|by destruct H2|by destruct H3].
  apply (mm_wf_pages st (pages st) fr); done.
Qed.

Lemma zeros_word st p n a : zeros st p n -> p <= addr_frame a < p + n -> load64 a st = Ok 0.
Proof.
  intros Hz Ha. apply (zeros_load st p n); [done|]. unfold frame_addr, addr_frame in *. change PAGE_SIZE with 4096 in *.
  pose proof (Z.div_mod a 4096 ltac:(lia)). pose proof (Z.mod_pos_bound a 4096 ltac:(lia)). lia.
Qed.

(** The chain is written when all pages have been taken. *)
Lemma queue_memory_ok n st s1 s2 s3 desc avail used pd pa pu : 0 < n <= 512 ->
  block_taken (desc_order n) desc pd st s1 -> block_taken 0 avail pa s1 s2 -> block_taken (used_order n) used pu s2 s3 ->
  exists st', chain_descs (Z.to_nat (n - 1)) (frame_addr desc) 1 s3 = Ok st' /\
    queue_memory n st st' {| desc_pages := desc; avail_page := avail; used_pages := used;
                             desc_pages_order := desc_order n; used_pages_order := used_order n |}.
Proof.
  intros Hn B1 B2 B3. destruct (orders_ok n Hn) as (Ho & Hu & Hfit).
  pose proof (taken_apart _ _ _ _ _ _ _ _ _ B1 B2) as A12. pose proof (taken_apart _ _ _ _ _ _ _ _ _ B2 B3) as A23.
  assert (forall q, in_block (desc_order n) desc q -> ~ in_block (used_order n) used q) as A13.
  { intros q Hq Hq'. destruct (bt_was _ _ _ _ _ B3 q Hq') as (i & Hi).
    apply (bt_free _ _ _ _ _ B2) in Hi as [Hi _]. by apply (bt_free _ _ _ _ _ B1) in Hi as [_ ?]. }
  assert (zeros s3 desc (2 ^ desc_order n)) as Z1.
  { apply (zeros_kept _ _ _ _ _ _ _ (zeros_kept _ _ _ _ _ _ _ (bt_zero _ _ _ _ _ B1) B2 A12) B3 A13). }
  assert (zeros s3 avail (2 ^ 0)) as Z2 by apply (zeros_kept _ _ _ _ _ _ _ (bt_zero _ _ _ _ _ B2) B3 A23).
  destruct (descs_chained n desc s3 _ Hn Z1 ltac:(lia) Hfit) as (st' & E & [fr ->] & D & K).
  exists (set_frames fr s3). split; [done|]. split; cbn [desc_pages avail_page used_pages desc_pages_order used_pages_order].
  - by apply set_frames_ready, (bt_ready _ _ _ _ _ B3).
  - change (layout (set_frames fr s3)) with (layout s3).
    by rewrite (bt_layout _ _ _ _ _ B3), (bt_layout _ _ _ _ _ B2), (bt_layout _ _ _ _ _ B1).
  - done.
  - intros j q. change (mm_free (set_frames fr s3) j q) with (mm_free s3 j q).
    rewrite (bt_free _ _ _ _ _ B3), (bt_free _ _ _ _ _ B2), (bt_free _ _ _ _ _ B1). tauto.
  - intros q [Hq|[Hq|Hq]].
    + by apply (bt_was _ _ _ _ _ B1).
    + destruct (bt_was _ _ _ _ _ B2 q Hq) as (i & Hi). exists i. by apply (bt_free _ _ _ _ _ B1) in Hi as [? _].
    + destruct (bt_was _ _ _ _ _ B3 q Hq) as (i & Hi). exists i. apply (bt_free _ _ _ _ _ B2) in Hi as [Hi _].
      by apply (bt_free _ _ _ _ _ B1) in Hi as [? _].
  - intros q Hq. split; [intros Hq'; by apply (A12 q Hq')|by apply A23].
  - intros q Hq Hq'. by apply (A13 q Hq').
  - done.
  - intros a Ha. rewrite (K avail) by (try done; intros Hq; apply (A12 avail Hq); unfold in_block; lia).
    apply (zeros_word s3 avail (2 ^ 0)); [done|]. rewrite Ha. lia.
  - intros a Ha. rewrite (K (addr_frame a)) by (try done; intros Hq; by apply (A13 _ Hq)).
    apply (zeros_word s3 used (2 ^ used_order n)); [apply (bt_zero _ _ _ _ _ B3)|done].
Qed.

(** All of [alloc_queue_pages] but its failures. *)
Lemma queue_pages_ok lock n st desc avail used s1 s2 s3 : 0 < n <= 512 -> found_pages lock n st desc avail used s1 s2 s3 ->
  alloc_queue_pages lock n st =
    Ok (Some {| desc_pages := desc; avail_page := avail; used_pages := used;
                desc_pages_order := desc_order n; used_pages_order := used_order n |}, s3).
Proof.
  intros Hn [F1 F2 F3]. unfold alloc_queue_pages. fold (desc_order n). rewrite F1, outcome_bind_ok, F2, outcome_bind_ok.
  unfold sizeof_virtq_used_elem. rewrite wrap_small by (unfold_ints; lia). fold (used_order n).
  change (if 2 * 3 + 8 * n >? PAGE_SIZE then 1 else 0) with (used_order n). by rewrite F3.
Qed.

(** The addresses at the end. *)
Lemma block_phys o1 p1 x1 o2 p2 x2 o3 p3 x3 st s1 s2 s3 :
  block_taken o1 p1 x1 st s1 -> block_taken o2 p2 x2 s1 s2 -> block_taken o3 p3 x3 s2 s3 ->
  (page_to_phys p1 s3 = Ok x1 /\ page_to_phys p2 s3 = Ok x2 /\ page_to_phys p3 s3 = Ok x3) /\
  (find_pfn (sections s3) x1 = Some p1 /\ x1 `mod` PAGE_SIZE = 0 /\ find_pfn (sections s3) x2 = Some p2 /\
   x2 `mod` PAGE_SIZE = 0 /\ find_pfn (sections s3) x3 = Some p3 /\ x3 `mod` PAGE_SIZE = 0) /\
  in_u 64 x1 /\ in_u 64 x2 /\ in_u 64 x3.
Proof.
  intros [_ L1 _ _ _ _ P1 (F1 & M1 & U1)] [_ L2 _ _ _ _ P2 (F2 & M2 & U2)] [_ L3 _ _ _ _ P3 (F3 & M3 & U3)].
  assert (layout s3 = layout s1) as L13 by (by rewrite L3).
  rewrite (page_to_phys_layout p1 s1 s3 L13), (page_to_phys_layout p2 s2 s3 L3).
  by rewrite (layout_find_pfn s1 s3 x1 L13), (layout_find_pfn s2 s3 x2 L3).
Qed.

(** ** What the transport does on such a device *)
Section host.
Context {W : Type} (mmio_read : Z -> Z -> W -> outcome (Z * W)) (mmio_write : Z -> Z -> Z -> W -> outcome W) (base : Z).
Context (host : CommonCfgHost mmio_read mmio_write base).

Lemma select_ok d q w : common_cfg d = base -> cfg_ok w -> in_u 16 q -> exists w',
  virto_pci_select_queue mmio_write d q w = Ok w' /\ cfg_ok w' /\ q_selected w' = q /\
  forall q' r, q_reg w' q' r = q_reg w q' r.
Proof.
  intros Hb Hw Hq. unfold virto_pci_select_queue, write_common. rewrite Hb. change (8 * sizeof_field common_queue_select) with 16.
  unfold Endian.le_to_cpu. rewrite (wrap_small 16) by done. by apply select_law.
Qed.
Lemma max_size_ok d w : common_cfg d = base -> cfg_ok w -> exists w',
  virto_pci_selected_queue_max_size mmio_read d w = Ok (q_reg w (q_selected w) (offsetof common_queue_size), w') /\
  cfg_ok w' /\ q_selected w' = q_selected w /\ forall q' r, q_reg w' q' r = q_reg w q' r.
Proof.
  intros Hb Hw. unfold virto_pci_selected_queue_max_size, read_common. rewrite Hb.
  destruct (size_law w Hw) as (w' & E & H). exists w'. change (sizeof_field common_queue_size) with 2.
  by rewrite E, outcome_bind_ok.
Qed.
Lemma write_reg_ok d w f v : common_cfg d = base -> cfg_ok w ->
  f ∈ [common_queue_desc; common_queue_driver; common_queue_device; common_queue_enable] ->
  in_u (8 * sizeof_field f) v -> exists w',
  write_common mmio_write d f v w = Ok w' /\ cfg_ok w' /\ q_selected w' = q_selected w /\
  forall q' r, q_reg w' q' r = if decide (q' = q_selected w /\ r = offsetof f) then v else q_reg w q' r.
Proof.
  intros Hb Hw Hf Hv. unfold write_common. rewrite Hb, (wrap_small (8 * sizeof_field f)) by done. by apply write_law.
Qed.

(** The four writes, in their order. *)
Lemma tell_queue d w pd pa pu : common_cfg d = base -> cfg_ok w -> in_u 64 pd -> in_u 64 pa -> in_u 64 pu ->
  exists w1 w2 w3 w4, write_common mmio_write d common_queue_desc pd w = Ok w1 /\
    write_common mmio_write d common_queue_driver pa w1 = Ok w2 /\
    write_common mmio_write d common_queue_device pu w2 = Ok w3 /\
    write_common mmio_write d common_queue_enable 1 w3 = Ok w4 /\
    cfg_ok w4 /\ q_selected w4 = q_selected w /\
    (q_reg w4 (q_selected w) (offsetof common_queue_desc) = pd /\ q_reg w4 (q_selected w) (offsetof common_queue_driver) = pa /\
     q_reg w4 (q_selected w) (offsetof common_queue_device) = pu /\ q_reg w4 (q_selected w) (offsetof common_queue_enable) = 1) /\
    forall q' r, q' <> q_selected w -> q_reg w4 q' r = q_reg w q' r.
Proof.
  intros Hb Hw H1 H2 H3.
  destruct (write_reg_ok d w common_queue_desc pd Hb Hw ltac:(set_solver) H1) as (w1 & E1 & O1 & S1 & R1).
  destruct (write_reg_ok d w1 common_queue_driver pa Hb O1 ltac:(set_solver) H2) as (w2 & E2 & O2 & S2 & R2).
  destruct (write_reg_ok d w2 common_queue_device pu Hb O2 ltac:(set_solver) H3) as (w3 & E3 & O3 & S3 & R3).
  destruct (write_reg_ok d w3 common_queue_enable 1 Hb O3 ltac:(set_solver) ltac:(unfold in_u; cbn; lia)) as (w4 & E4 & O4 & S4 & R4).
  exists w1, w2, w3, w4. rewrite S3, S2, S1 in *. split_and!; try done.
  all: try (intros q' r Hq'); rewrite R4, R3, R2, R1; repeat case_decide; naive_solver.
Qed.
End host.

(** C40: [virtio_split_queue_init] behind PCI, when its pages are found: the selected
    queue of the device is told three aligned addresses in physical memory and
    enabled, no other queue changes; the pages there had been free, do not
    overlap, and are the only ones taken; they are zeros, but that the
    descriptors are chained in a cycle through the whole table, as many as the
    device can take and at most 512; and the page allocator stays well-formed. *)
Theorem virtio_split_queue_init_spec {W : Type} (mmio_read : Z -> Z -> W -> outcome (Z * W))
    (mmio_write : Z -> Z -> Z -> W -> outcome W) (base : Z) (host : CommonCfgHost mmio_read mmio_write base)
    lock d q w st n desc avail used s1 s2 s3 :
  common_cfg d = base -> cfg_ok w -> in_u 16 q -> buddy_ready st ->
  n = Z.min (q_reg w q (offsetof common_queue_size)) 512 -> 0 < n -> found_pages lock n st desc avail used s1 s2 s3 ->
  exists queue pd pa pu w' st',
    virtio_split_queue_init (virtio_transport_ops_for_pci mmio_read mmio_write) lock d q w st = Ok (Some queue, w', st') /\
    queue_memory n st st' queue /\
    (find_pfn (sections st') pd = Some (desc_pages queue) /\ pd `mod` PAGE_SIZE = 0 /\
     find_pfn (sections st') pa = Some (avail_page queue) /\ pa `mod` PAGE_SIZE = 0 /\
     find_pfn (sections st') pu = Some (used_pages queue) /\ pu `mod` PAGE_SIZE = 0) /\
    cfg_ok w' /\ q_selected w' = q /\
    (q_reg w' q (offsetof common_queue_desc) = pd /\ q_reg w' q (offsetof common_queue_driver) = pa /\
     q_reg w' q (offsetof common_queue_device) = pu /\ q_reg w' q (offsetof common_queue_enable) = 1) /\
    forall q' r, q' <> q -> q_reg w' q' r = q_reg w q' r.
Proof.
  intros Hbase Hw Hq Hst En Hn [F1 F2 F3]. pose proof (size_range w q Hw) as Hsize.
  set (size := q_reg w q (offsetof common_queue_size)) in *.
  assert (0 < n <= 512) as Hn' by lia. destruct (orders_ok n Hn') as (Ho & Hu & _).
  destruct (alloc_used_ok _ (desc_order n) _ _ _ Hst ltac:(lia) F1) as (pd & B1).
  destruct (alloc_used_ok lock 0 _ _ _ (bt_ready _ _ _ _ _ B1) ltac:(lia) F2) as (pa & B2).
  destruct (alloc_used_ok _ (used_order n) _ _ _ (bt_ready _ _ _ _ _ B2) ltac:(lia) F3) as (pu & B3).
  destruct (queue_memory_ok n st s1 s2 s3 desc avail used pd pa pu Hn' B1 B2 B3) as (st' & Ec & Hm).
  destruct (select_ok mmio_read mmio_write base host d q w Hbase Hw Hq) as (w1 & Es & Hw1 & Hq1 & R1).
  destruct (max_size_ok mmio_read mmio_write base host d w1 Hbase Hw1) as (w2 & Em & Hw2 & Hq2 & R2).
  destruct (block_phys _ _ _ _ _ _ _ _ _ _ _ _ _ B1 B2 B3) as ((P1 & P2 & P3) & G & U1 & U2 & U3).
  destruct (tell_queue mmio_read mmio_write base host d w2 pd pa pu Hbase Hw2 U1 U2 U3)
    as (w3 & w4 & w5 & w6 & E3 & E4 & E5 & E6 & Hw6 & Hq6 & Hreg & Hrest).
  rewrite Hq2, Hq1 in *.
  eexists _, pd, pa, pu, w6, st'. split; [|split; [exact Hm|split]].
  - unfold virtio_split_queue_init. cbn [select_queue selected_queue_max_size virtio_transport_ops_for_pci].
    rewrite Es, outcome_bind_ok, Em, outcome_bind_ok, R1. fold size.
    assert ((if size <? VIRTQ_MAX_DESC_COUNT then size else VIRTQ_MAX_DESC_COUNT) = n) as ->
      by (unfold VIRTQ_MAX_DESC_COUNT; zcases; lia).
    rewrite (queue_pages_ok _ _ _ _ _ _ _ _ _ Hn' (Build_found_pages _ _ _ _ _ _ _ _ _ F1 F2 F3)), outcome_bind_ok.
    cbn [desc_pages avail_page used_pages]. rewrite P1, outcome_bind_ok.
    change (set_selected_queue_desc_phys _ d pd w2) with (write_common mmio_write d common_queue_desc pd w2).
    rewrite E3, outcome_bind_ok, P2, outcome_bind_ok.
    change (set_selected_queue_driver_phys _ d pa w3) with (write_common mmio_write d common_queue_driver pa w3).
    rewrite E4, outcome_bind_ok, P3, outcome_bind_ok.
    change (set_selected_queue_device_phys _ d pu w4) with (write_common mmio_write d common_queue_device pu w4).
    rewrite E5, outcome_bind_ok.
    change (enable_selected_queue _ d w5) with (write_common mmio_write d common_queue_enable 1 w5).
    rewrite E6, outcome_bind_ok, (proj2 (Z.eqb_neq n 0)) by lia. by rewrite Ec.
  - rewrite !(layout_find_pfn st st') in * by apply (qm_sections _ _ _ _ Hm).
    assert (layout s3 = layout st) as L3
      by (by rewrite (bt_layout _ _ _ _ _ B3), (bt_layout _ _ _ _ _ B2), (bt_layout _ _ _ _ _ B1)).
    by rewrite !(layout_find_pfn st s3) in G by done.
  - do 2 (split; [done|]). split; [done|]. intros q' r Hne. by rewrite Hrest, R2, R1.
Qed.

(** ** A device for the example: its selected queue and its registers *)
Definition toy : Type := Z * (Z -> Z -> Z).
Definition toy_read (n addr : Z) (w : toy) : outcome (Z * toy) := Ok (w.2 w.1 (addr - 0x1000), w).
Definition toy_write (n addr v : Z) (w : toy) : outcome toy :=
  if addr =? 0x1000 + offsetof common_queue_select then Ok (v, w.2)
  else Ok (w.1, fun q r => if decide (q = w.1 /\ r = addr - 0x1000) then v else w.2 q r).
#[export] Instance toy_host : CommonCfgHost toy_read toy_write 0x1000.
Proof.
  refine {| cfg_ok := fun w => forall q, in_u 16 (w.2 q (offsetof common_queue_size));
            q_selected := fst; q_reg := fun w q r => w.2 q r |}; cbn [fst snd].
  - auto.
  - intros w q Hw Hq. exists (q, w.2). by split_and!.
  - intros w Hw. exists w. by split_and!.
  - intros [s r] f v Hw Hf Hv. exists (s, fun q r' => if decide (q = s /\ r' = offsetof f) then v else r q r').
    cbn [fst snd] in *.
    repeat (apply elem_of_cons in Hf as [->|Hf]); [..|by apply elem_of_nil in Hf].
    all: split; [done|]; split; [|by split].
    all: intros q; rewrite decide_False by (intros [_ ?]; done); apply Hw.
Defined.

Definition ex_alloc (o : Z) (st : mm) : option Z * mm :=
  ok_or (None, st) (alloc_pages ex_lock PAGE_STATE_USED __ALLOC_ZERO o st).
Lemma ex_alloc_ok o st : match (ex_alloc o st).1 with Some _ => true | None => false end = true ->
  alloc_pages ex_lock PAGE_STATE_USED __ALLOC_ZERO o st = Ok (Some (default 0 (ex_alloc o st).1), (ex_alloc o st).2).
Proof. unfold ex_alloc. by destruct (alloc_pages _ _ _ _ _) as [[[] ?]| | |]. Qed.

(** A queue of 300 descriptors, which need two pages. *)
Definition ex_device : virtio_device := with_common_cfg 0x1000 (VIRTIO_DEVICE_INIT true 2).
Definition ex_toy : toy := (7, fun q r => if r =? 24 then 300 else 0).
Definition ex_s1 := ex_alloc 1 (ex_full 64).
Definition ex_s2 := ex_alloc 0 ex_s1.2.
Definition ex_s3 := ex_alloc 0 ex_s2.2.
Lemma ex_found : found_pages ex_lock 300 (ex_full 64) (default 0 ex_s1.1) (default 0 ex_s2.1) (default 0 ex_s3.1)
  ex_s1.2 ex_s2.2 ex_s3.2.
Proof. split; apply ex_alloc_ok; by vm_compute. Qed.

Lemma virtio_split_queue_init_spec_witness :
  exists queue pd pa pu w' st',
    virtio_split_queue_init (virtio_transport_ops_for_pci toy_read toy_write) ex_lock ex_device 1 ex_toy (ex_full 64) =
      Ok (Some queue, w', st') /\
    queue_memory 300 (ex_full 64) st' queue /\
    (find_pfn (sections st') pd = Some (desc_pages queue) /\ pd `mod` PAGE_SIZE = 0 /\
     find_pfn (sections st') pa = Some (avail_page queue) /\ pa `mod` PAGE_SIZE = 0 /\
     find_pfn (sections st') pu = Some (used_pages queue) /\ pu `mod` PAGE_SIZE = 0) /\
    cfg_ok w' /\ q_selected w' = 1 /\
    (q_reg w' 1 (offsetof common_queue_desc) = pd /\ q_reg w' 1 (offsetof common_queue_driver) = pa /\
     q_reg w' 1 (offsetof common_queue_device) = pu /\ q_reg w' 1 (offsetof common_queue_enable) = 1) /\
    forall q' r, q' <> 1 -> q_reg w' q' r = q_reg ex_toy q' r.
Proof.
  apply (virtio_split_queue_init_spec toy_read toy_write 0x1000 toy_host ex_lock ex_device 1 ex_toy (ex_full 64) 300
    (default 0 ex_s1.1) (default 0 ex_s2.1) (default 0 ex_s3.1) ex_s1.2 ex_s2.2 ex_s3.2).
  - reflexivity.
  - intros q. unfold in_u. cbn. lia.
  - unfold in_u. lia.
  - exact ex_full_ready.
  - reflexivity.
  - lia.
  - exact ex_found.
Defined.

(** ** What goes wrong when a device is set up *)

(** The range that the identifiers are checked against is taken for one of
    indices, so every device that is not transitional is refused, and small numbers
    are looked up in the table of names, which ends at 42. *)
Theorem modern_devices_refused id : 0x1040 <= id -> kind_of_device id = Ok None.
Proof.
  intros Hid. unfold kind_of_device, transitional_kind. rewrite (proj2 (Z.ltb_ge id _)) by lia.
  rewrite lookup_ge_None_2 by (cbn; lia). change (range_create_end 0x1040 0x107f) with (Ok (RANGE_INIT 0x1040 0x3f)).
  rewrite outcome_bind_ok. unfold range_has_index, index_in_bounds. cbn [Range.size].
  by rewrite (proj2 (Z.ltb_ge id 0x3f)) by lia.
Qed.
Example names_overrun : kind_of_device 43 = Undef.
Proof. by vm_compute. Qed.

(** A device that stays in the list is the local variable of a call that has
    returned: the next one to be added writes to it. *)
Theorem second_device_undefined node s : g_device_list s <> [] -> list_add_device node (leave s) = Undef.
Proof. by destruct s as [[|? l] c]. Qed.

Section init.
Context {W : Type} (lock : lock_oracle).
Context (mmio_read : Z -> Z -> W -> outcome (Z * W)) (mmio_write : Z -> Z -> Z -> W -> outcome W).

(** The kind of a 9P transport has no entry in [drivers]. *)
Theorem drivers_overrun d w h s : VirtioQueue.kind d = VIRTIO_DEVICE_KIND_9P_TRANSPORT ->
  virtio_pci_init lock mmio_read mmio_write d w h s = Undef.
Proof. intros Hk. unfold virtio_pci_init. by rewrite Hk. Qed.

(** No driver accepts a device. *)
Definition refuses (driver : virtio_driver_info (W := W)) : Prop :=
  forall d f w h node d' w' h', driver_init driver d f w h = Ok (node, d', w', h') -> node = None.
Lemma drivers_refuse k driver : nth_entry (drivers lock mmio_read mmio_write) k = Ok (Some driver) -> refuses driver.
Proof.
  intros Hk. assert (Forall (fun o => match o with Some driver => refuses driver | None => True end)
    (drivers lock mmio_read mmio_write)) as Hall.
  { unfold drivers. repeat constructor; intros d f w h node d' w' h' H; cbn in H.
    - unfold virtio_block_driver_init in H. bind_inv H x Hx. destruct x. by simplify_eq.
    - unfold virtio_scsi_driver_init in H. bind_inv H x Hx. destruct x. bind_inv H y Hy. destruct y as [[[? ?] ?] ?].
      by simplify_eq. }
  unfold nth_entry in Hk. destruct (k <? 0); [done|].
  destruct (drivers lock mmio_read mmio_write !! Z.to_nat k) as [o|] eqn:E; [|done]. cbn in Hk. simplify_eq.
  by apply (proj1 (Forall_lookup _ _) Hall _ _ E).
Qed.
Theorem no_device_initialized d w h s node d' w' h' s' :
  virtio_pci_init lock mmio_read mmio_write d w h s = Ok (node, d', w', h', s') -> node = None.
Proof.
  unfold virtio_pci_init. intros H. bind_inv H driver Hd. destruct driver as [driver|]; [|by simplify_eq].
  pose proof (drivers_refuse _ _ Hd) as Hr.
  bind_inv H w0 H0. bind_inv H p1 H1. destruct p1 as [? w1]. bind_inv H p2 H2. destruct p2 as [? w2].
  bind_inv H p3 H3. destruct p3 as [features w3]. destruct (negb _) in H; [by simplify_eq|].
  bind_inv H w4 H4. bind_inv H p5 H5. destruct p5 as [accepted w5]. destruct (negb accepted); [by simplify_eq|].
  bind_inv H p6 H6. destruct p6 as [status w6]. bind_inv H p7 H7. destruct p7 as [[[ok d7] w7] h7].
  destruct (negb ok); [bind_inv H w8 H8; by simplify_eq|].
  bind_inv H p8 H8. destruct p8 as [[[ret d8] w8] h8]. rewrite (Hr _ _ _ _ _ _ _ _ H8) in H.
  bind_inv H w9 H9. by simplify_eq.
Qed.

(** Notifying a queue overwrites the pointer and does not reach the device. *)
Theorem notify_stays_in_memory d i w :
  notify_queue (virtio_transport_ops_for_pci mmio_read mmio_write) d i w = Ok (with_notify i d, w).
Proof. done. Qed.
End init.
